(* ===== verification/_CoqProject ===== *)
-Q . S2P
Prelude.v
Hoare.v
GoValues.v
Resource.v
GoTime.v
ObjectMeta.v
Objects.v
UntypedObject.v
TypedSpecObject.v
TypedSpecStatusObject.v
TypedObject.v
WrappedObject.v
UnstructuredWrapper.v
VersionSchema.v
OpenAPI.v
CRDSchema.v
KubeOpenAPI.v
Manifest.v
AppManifest.v
V1alpha1.v
V1alpha2.v
GoSlice.v
Concrete.v
KubeErrors.v
Heap.v
ListMap.v
RetryPolicy.v
RetryProcessor.v
Finalizers.v
ResourceWatcher.v
Schema.v
OpinionatedWatcher.v
Reconciler.v
Runners.v
InformerController.v
BufferedQueue.v
ConcurrentWatcher.v
Client.v
Store.v
CustomCache.v
Memcached.v
Admission.v
Webhooks.v
Translation.v
Rest.v
WatchStream.v
Registry.v
Manager.v
PluginRouter.v
KubeConfig.v
Reflector.v
Dynamic.v
App.v
SimpleApp.v
Health.v
OperatorRunner.v
ApiAdmission.v
ApiStorage.v
ApiRoutes.v
ApiInstaller.v
TypedClient.v
SimpleStore.v
Negotiator.v
SimpleOperator.v
SourceTree.v
Compat.v
Codemods.v
Deprecations.v
Codegen.v
ManifestJenny.v
CrdJenny.v
Templates.v
Jennies.v
TypeJennies.v
ApiOpenAPI.v
