(* ===== verification/Prelude.v ===== *)
(** * grafana-app-sdk: apps, operators, resource clients, API servers and code generation

    This development models the parts of the SDK that describe an app, serve it to an API
    server and run it: the manifest and its schemas, the admission and conversion webhooks,
    the simple app and the runner that deploys it, the installer that puts an app on an API
    server; informers that hand events to watchers and reconcilers, with retries and
    finalizers; the objects, stores and clients that read and write resources; plugins; and
    the tools that generate and migrate code.  Every file models one component; this one
    holds what they share: the state-passing monad [M], loops over lists, lemmas and tactics.

    ** How the parts interact

    - Objects.  [Resource.v] and [Schema.v] ([resource/]) hold metadata, errors, schemas and
      kinds.  [ObjectMeta.v] is the metadata of a Kubernetes object with its annotations
      ([GoTime.v] the time stamps in them), [Objects.v] the interface of an object
      ([ResourceObject]) with its JSON, implemented by [UntypedObject.v],
      [TypedSpecObject.v], [TypedSpecStatusObject.v], [TypedObject.v], [WrappedObject.v] and
      [UnstructuredWrapper.v].  [GoSlice.v] has the slices that share arrays, [GoValues.v] nil
      maps, strings, paths and decoded JSON, [Concrete.v] small instances for the witnesses.
    - Manifests.  An app is described by a manifest: [Manifest.v] and [VersionSchema.v]
      ([app/manifest.go]) hold its data and the schemas of its versions, [AppManifest.v],
      [V1alpha1.v] and [V1alpha2.v] ([app/appmanifest]) the versions in which it is stored.
      [OpenAPI.v] and [CRDSchema.v] resolve its schemas for CRDs, [KubeOpenAPI.v] turns them
      into the definitions of an API server.
    - Apps.  [App.v] ([app/app.go]) is the interface of an app and [SimpleApp.v]
      ([simple/app.go]) its implementation.  [OperatorRunner.v] ([operator/runner.go]) runs an
      app: it registers the app's validators, mutators and converters with the webhook server
      ([Webhooks.v], [k8s/webhooks.go], with the controllers of [Admission.v]), and runs its
      controllers with the metrics server and the health observer ([Health.v]).
      [SimpleOperator.v] has the older operators.
    - API servers ([k8s/apiserver]).  [ApiInstaller.v] resolves the kinds of a manifest,
      registers them in a scheme and installs storages and routes on a server; [ApiStorage.v]
      has the storages and strategies, [ApiRoutes.v] the custom routes, [ApiAdmission.v] the
      admission plugin, [ApiOpenAPI.v] the OpenAPI definitions.  They call the [App] of [App.v].
    - Informers.  [CustomCache.v] ([operator/informer_customcache.go]) keeps a store of the
      objects of a kind ([Memcached.v] is one) and distributes what changes to listeners
      through queues ([BufferedQueue.v], [operator/informer_processor.go]); [Reflector.v]
      ([k8s/cache]) lists and watches the server into the store, with [Hoare.v] for its
      invariants.  A listener calls a [ResourceWatcher] ([ResourceWatcher.v]), directly or
      through workers that keep the order per object ([ConcurrentWatcher.v]).
    - Controllers.  The watcher of an [InformerController] ([InformerController.v]) calls the
      watchers and reconcilers of a kind, kept in list maps ([ListMap.v], [operator/util.go]),
      and queues retries of failed calls: in a list map that a ticker goes through, or in the
      sharded priority queues of [RetryProcessor.v] (with [Heap.v] for [container/heap]),
      under the policies of [RetryPolicy.v].  [OpinionatedWatcher.v] and [Reconciler.v] wrap a
      user's watcher or reconciler with the finalizer protocol, through [Finalizers.v].
      [Runners.v] ([app/runner.go]) runs informers and controller together.
    - Clients.  [Store.v] ([resource/store.go], [typedstore.go], [updater.go]),
      [SimpleStore.v] and [TypedClient.v] read and write objects through the [Client]
      interface of [Client.v], which [k8s.Client] implements over [groupVersionClient]:
      [Rest.v] ([k8s/gvclient.go]) makes the requests, with [Translation.v] for patches and
      lists, [KubeErrors.v] for errors and [Negotiator.v] for serializers; [WatchStream.v]
      translates the events of watches; [Dynamic.v] is the patcher of kinds known by name
      only.  [Registry.v] ([k8s/client_registry.go], [schemaless.go]) keeps the clients,
      [Manager.v] ([k8s/manager.go]) registers definitions of resources.
    - Plugins.  [PluginRouter.v] ([plugin/router]) routes the requests of a plugin to handlers
      and to the stores of kinds, [KubeConfig.v] ([plugin/kubeconfig]) finds the
      configuration of the requests.
    - Tools.  [Codegen.v] ([codegen]) holds the kinds and manifests that are parsed from CUE;
      [ManifestJenny.v], [CrdJenny.v], [Jennies.v] and [TypeJennies.v] ([codegen/jennies]) make
      files of them, with the data of [Templates.v].  [Compat.v], [Codemods.v] and
      [Deprecations.v] ([migrate]) check, rewrite and scan a project, a tree of files
      ([SourceTree.v]).

    ** How Go is modelled

    - A function that reads or changes state is a function in [M W], for a type [W] of
      worlds; errors are returned values ([option GoError]), [m ;;? k] is the idiom [if err
      != nil { return err }].  A panic the code can run into (a nil pointer, an index, a
      closed channel) is an explicit outcome: [called A], with [calls] and [and_then] where
      it is sequenced.
    - An object passed by pointer is a reference ([Ref]), read in the current state by
      [deref], so that a client that writes into the object, and a retry that sees the
      object as it has become, are modelled; [Client.v] adds assignments ([Memory]), the
      plugin router has a heap of its own ([PluginMemory]).  A slice of finalizers that is
      kept while the object is decoded into is a view of an array that may change
      ([kept_finalizers]).  Decoding into an object that has contents merges: what survives
      is up to the codec ([OptimisticServer], [RestServer]).
    - A map that may be nil is an [nmap]; ranging over a map goes in an order that is an
      argument ([RangeOrder]).
    - What is outside the repository is a class or an argument, with the documented laws the
      proofs use: the world's clock, random numbers and kept slices ([World]), time stamps that
      are not in the usual form ([LenientTime]), structs of [time.Time]
      ([UpdateTimes]), API errors ([ApiErrors], [ApiNotFound], [WatchErrors]),
      the hash of [xxhash] ([Xxhash]), the ring buffer of [k8s.io/utils] ([RingGrowing]), the
      growth of slices ([GrowPolicy]), unstable sorting ([SliceSort]), a client that applies
      patches ([PatchesFinalizers]), servers ([OptimisticServer], [RestServer],
      [WatchedServer], [GenericAPIServer]), HTTP responses ([HTTPWriter]), memcached
      ([MemcacheLaws]), kin-openapi ([KinTypes]), JSON and Go types ([JSONType],
      [JSONErrors], [AnnotationType], [AnyOf], [ReviewJSON], [JsonPatchLaws],
      [RouteJSONLaws], [PatchJSON], [ListJSON], [RestJSON]), names of kinds and versions
      ([KindNamesLaws], [GVKText], [GVNames]), the discovery and dynamic clients
      ([DynamicClient]), regular expressions ([Regexp], [RegexpFragment]), semantic versions
      ([Semver]), CUE and its generator of types ([CueValues], [CueLookup], [Selectors],
      [Cog]), the execution of templates (the record [Templates]).  Each that has laws has an
      instance, used by the witnesses.
    - Goroutines and channels are step relations with one constructor per atomic action
      ([mstep], [dstep], [sstep], [wstep], [qstep], [pstep], [cwstep], [ostep]), and the
      properties are about every reachable state.  What a mutex makes atomic is one step;
      where the code waits while it holds the mutex, the holder is part of the state.
    - Times and durations are integers in nanoseconds, with the wrap-around of int64 where
      the code multiplies ([wrap64]).  Traces, logs and latency histograms are left out,
      but for the metrics of requests; the gauges and counters of the controller are kept.

    ** Interfaces

    [ResourceObjectLaws] ([Objects.v]) is what an object promises; every implementation
    discharges it, up to its own equivalence.  [StoreLaws] ([CustomCache.v]) states what
    [processDeltas] relies on of a [cache.Store], [ReflectorStoreLaws] what the reflector does;
    [Memcached_laws] ([Memcached.v]) discharges the former.  [OptimisticServer] ([Store.v]) is
    what the stores rely on of a client; [rest_optimistic] ([Rest.v]) discharges it for
    [k8s.Client] from the documented behaviour of an API server ([RestServer]).
    [GenericAPIServerLaws] ([ApiInstaller.v]) is what the installer relies on of a server;
    [Kubernetes_laws] discharges it for the server of the SDK.  [PatchesFinalizers] is what
    the finalizer updates need of a client; the opinionated watcher and reconciler use the
    updates' postconditions only.  The record [App] ([App.v]) is what the runner and the API
    server call; [SimpleApp.v] makes one.

    ** What is shown

    - Manifests and schemas: [Validate_iff], the round trip [SpecFromManifestData_round_trip]
      (and [SpecFromManifestData_crd_round_trip]); [resolveSchema_total],
      [resolveSchema_structural], [resolveSchema_typed], [AsKubeOpenAPI_closed].
    - Objects: [UntypedObject_round_trip] and the laws of every implementation.
    - Apps: [validation_end_to_end] and [conversion_end_to_end], from an HTTP request to the
      user's handler and back, through the runner, the webhooks and the simple app;
      [ValidateManifest_iff], [CallCustomRoute_dispatch], [OpinionatedValidate_decides],
      [readyz_reports_checks].
    - API servers: [Kubernetes_InstallAPIs] (what an installation serves),
      [object_route_served] and [installed_validation] (requests down to the simple app),
      [newSubresourceREST_confined]; [GetOpenAPIDefinitions_closed].
    - Retries: [processReady_correct], [processor_operations], [worker_inv_reachable],
      [retries_bounded], [ExponentialBackoff_exact]; a request that is running escapes
      [DequeueAll] ([DequeueAll_misses_running]).
    - The controller: [events_refine] (the whole of an event, for both retry paths),
      [delete_event_drops_retries], [retry_keys_injective], [tick_key_correct].
    - The finalizer protocol: [Add_runs_script], [Update_runs_scripts],
      [Reconcile_follows_plan] against scripts and plans written from the documentation, with
      the places where the code does otherwise ([Update_ignores_deletion],
      [deletion_delegated_by_the_update]);
      [finalizer_requests_bounded], and the fault of [ReplaceFinalizer]
      ([ReplaceFinalizer_adds_the_wrong_one]).
    - Event delivery: [reflector_mirrors], [processDeltas_mirrors], [bufferedQueue_fifo],
      [informerProcessor_in_order], [concurrentWatcher_per_object_order]
      (by identity, which tells objects apart: [object_id_injective]),
      [WaitForSync_returns], [WatchResponse_in_order]; the faults of watches
      ([Stop_unstarted_blocks], [closed_watch_spins]).
    - Containers: [ListMap_refines] (panics included), [RemoveItems_count], [Range_in_order], and
      [Memcached_store_correct]; two faults of the memcached store.
    - Runners: [MultiRunner_correct], [RemoveRunnable_correct], and the faults
      [shutdown_error_panics] and [SingletonRunner_leaks].
    - Clients: [UpdateObject_over_rest] (with the keys a retry brings back,
      [conflict_retry_restores_removed_keys]), [Schemaless_does_what_Client_does],
      [NamespacedClient_confined], [List_all_pages], [ParseKubernetesError_status].
    - Plugins: [group_router_serves], [MustLoadMiddleware_guards].
    - Tools: [crd_Generate_correct], [Client_Generate_deterministic],
      [migration_clears_warnings].

    ** Fuel

    [pop_ready] and the heap's [up] and [down] have the length of the queue, which every
    turn decreases.  [update_loop] counts the retries left.  [list_loop] (pages),
    [WaitForSync_loop] (checks), [passes] and the loops of the reflector and of
    [WaitForAvailability] depend on what a server or the time does: their theorems say how
    much is enough, or hold however much there is.  [List_pages] has the number of keys, and
    goes on by at least one key a turn.  [getHandler] has the number of routers, since a
    subrouter is made after its parent.  [resolveSchema] has [resolve_bound], which grows with
    the schemas that are not yet being resolved; [resolveSchema_total] shows that it is enough
    and that the function satisfies the code's recursion.  [toOpenAPIV3] has the rank of a Go
    type.  The texts that are read back (JSON strings, months) have their length or 12.  The
    conversions of schemas recurse on the schemas themselves.

    ** What is not modelled

    The tables of OpenAPI definitions copied from Kubernetes ([k8s/apiserver/openapi.go]); of
    the installer the configuration and the options of its server; the CUE parser
    ([codegen/cuekind]) and the jennies that only run gengo; the text of the templates; the
    project commands of the command line, which write files and run programs; logging,
    metrics and tracing; generated code, benchmarks and examples.  Within the modelled
    components: constructors of parts of client-go, loops that only serve HTTP or wait for a
    ticker, and accessors of one field.  The notes of the manifest of components say which. *)
From stdpp Require Export base list gmap strings pretty sorting relations.
From Stdlib Require Export ZArith Lia Ascii.

#[global] Arguments Nat.div : simpl never.
#[global] Arguments Nat.mul : simpl never.
#[global] Arguments Nat.sub : simpl never.

Declare Scope go_scope.
Delimit Scope go_scope with go.

(** ** State-passing computations

    A Go function which reads and writes a state of type [W] and returns an
    [A] is a function from the state to the value and the new state.  Go
    errors are ordinary returned values ([option GoError]), so they need no
    support from the monad. *)

Definition M (W A : Type) : Type := W → A * W.

Definition ret {W A : Type} (a : A) : M W A := λ w, (a, w).

Definition bind {W A B : Type} (m : M W A) (k : A → M W B) : M W B :=
  λ w, let '(a, w') := m w in k a w'.

Definition get {W : Type} : M W W := λ w, (w, w).

Definition gets {W A : Type} (f : W → A) : M W A := λ w, (f w, w).

Definition modify {W : Type} (f : W → W) : M W unit := λ w, (tt, f w).

Notation "'let*' x := m 'in' k" := (bind m (λ x, k))
  (at level 10, x name, m at level 100, k at level 200) : go_scope.
Notation "'let*' ' p := m 'in' k" := (bind m (λ x, let p := x in k))
  (at level 10, p pattern, m at level 100, k at level 200) : go_scope.
Notation "m ';;;' k" := (bind m (λ _, k)) (at level 199, right associativity) : go_scope.

Open Scope go_scope.

(** [for _, x := range l { f(x) }] *)
Fixpoint for_each {W A : Type} (l : list A) (f : A → M W unit) : M W unit :=
  match l with
  | [] => ret tt
  | x :: l' => f x ;;; for_each l' f
  end.

(** [for i, x := range l { f(i, x) }], counting from [i]. *)
Fixpoint for_each_idx {W A : Type} (i : nat) (l : list A) (f : nat → A → M W unit)
  : M W unit :=
  match l with
  | [] => ret tt
  | x :: l' => f i x ;;; for_each_idx (S i) l' f
  end.

(** Pointwise equality of computations, the equality the monad laws hold for. *)
Definition meq {W A : Type} (m1 m2 : M W A) : Prop := ∀ w, m1 w = m2 w.

Infix "≡M" := meq (at level 70) : go_scope.

#[export] Instance meq_equivalence {W A : Type} : Equivalence (@meq W A).
Proof.
  split; [done | by intros m1 m2 H w | intros m1 m2 m3 H1 H2 w; by rewrite H1].
Qed.

#[export] Instance bind_proper {W A B : Type} :
  Proper (meq ==> pointwise_relation A meq ==> meq) (@bind W A B).
Proof.
  intros m1 m2 Hm k1 k2 Hk w. unfold bind. rewrite Hm.
  destruct (m2 w) as [a w']. apply Hk.
Qed.

#[export] Instance for_each_proper {W A : Type} (l : list A) :
  Proper (pointwise_relation A meq ==> meq) (@for_each W A l).
Proof.
  intros f g Hfg. induction l as [|x l IH]; simpl; [done|].
  apply bind_proper; [apply Hfg | intros _; apply IH].
Qed.

Lemma for_each_idx_ext {W A : Type} (l : list A) (f g : nat → A → M W unit) i :
  (∀ j x, f j x ≡M g j x) → for_each_idx i l f ≡M for_each_idx i l g.
Proof.
  intros Hfg. revert i. induction l as [|x l IH]; intros i; simpl; [done|].
  apply bind_proper; [apply Hfg | intros _; apply IH].
Qed.

Lemma bind_ret_l {W A B : Type} (a : A) (k : A → M W B) : bind (ret a) k ≡M k a.
Proof. done. Qed.

Lemma bind_ret_r {W A : Type} (m : M W A) : bind m ret ≡M m.
Proof. intros w. unfold bind. by destruct (m w). Qed.

Lemma bind_assoc {W A B C : Type} (m : M W A) (f : A → M W B) (g : B → M W C) :
  bind (bind m f) g ≡M bind m (λ a, bind (f a) g).
Proof. intros w. unfold bind. by destruct (m w). Qed.

(** Run the first part of a computation whose result is known. *)
Lemma bind_run {W A B : Type} (m : M W A) (k : A → M W B) w a w' :
  m w = (a, w') → bind m k w = k a w'.
Proof. intros E. unfold bind. by rewrite E. Qed.

Lemma for_each_app {W A : Type} (l1 l2 : list A) (f : A → M W unit) :
  for_each (l1 ++ l2) f ≡M bind (for_each l1 f) (λ _, for_each l2 f).
Proof.
  induction l1 as [|x l1 IH]; simpl; [done|].
  rewrite bind_assoc. apply bind_proper; [done | intros []; apply IH].
Qed.

(** A property of the state kept by every iteration is kept by the loop. *)
Lemma for_each_inv {W A : Type} (P : W → Prop) (l : list A) (f : A → M W unit) w :
  (∀ x w0, x ∈ l → P w0 → P (f x w0).2) → P w → P (for_each l f w).2.
Proof.
  revert w. induction l as [|x l IH]; intros w Hf Hw; [done|].
  simpl. unfold bind. destruct (f x w) as [u w'] eqn:E.
  apply IH; [intros y w0 Hy; apply Hf; set_solver|].
  specialize (Hf x w). rewrite E in Hf. apply Hf; [set_solver | done].
Qed.

(** [if err := m; err != nil { return err }; k] *)
Definition and_then {W E : Type} (m k : M W (option E)) : M W (option E) :=
  let* err := m in
  match err with
  | Some e => ret (Some e)
  | None => k
  end.

Notation "m ';;?' k" := (and_then m k) (at level 199, right associativity) : go_scope.

#[export] Instance and_then_proper {W E : Type} :
  Proper (meq ==> meq ==> meq) (@and_then W E).
Proof.
  intros m1 m2 Hm k1 k2 Hk. unfold and_then. apply bind_proper; [done|].
  intros [e|]; [done | apply Hk].
Qed.

Lemma and_then_ret_l {W E : Type} (k : M W (option E)) : (ret None ;;? k) ≡M k.
Proof. done. Qed.

Lemma and_then_ret_r {W E : Type} (m : M W (option E)) : (m ;;? ret None) ≡M m.
Proof. intros w. unfold and_then, bind. by destruct (m w) as [[e|] w']. Qed.

Lemma and_then_assoc {W E : Type} (m1 m2 m3 : M W (option E)) :
  ((m1 ;;? m2) ;;? m3) ≡M (m1 ;;? (m2 ;;? m3)).
Proof. intros w. unfold and_then, bind. by destruct (m1 w) as [[e|] w']. Qed.

(** ** Calls that may panic

    [Panics] is the end of a call by a run-time panic. *)
Inductive called (A : Type) :=
| Returned (a : A)
| Panics.
Arguments Returned {A} a.
Arguments Panics {A}.

(** A computation that may panic; nothing after a panic is run. *)
Definition MP (W A : Type) : Type := M W (called A).

Definition returns {W A : Type} (a : A) : MP W A := ret (Returned a).

Definition panic {W A : Type} : MP W A := ret Panics.

Definition and_returns {W A B : Type} (m : MP W A) (k : A → MP W B) : MP W B :=
  let* r := m in
  match r with
  | Returned a => k a
  | Panics => ret Panics
  end.

Notation "'let!' x := m 'in' k" := (and_returns m (λ x, k))
  (at level 10, x name, m at level 100, k at level 200) : go_scope.
Notation "'let!' ' p := m 'in' k" := (and_returns m (λ x, let p := x in k))
  (at level 10, p pattern, m at level 100, k at level 200) : go_scope.

(** A call that cannot panic. *)
Definition calls {W A : Type} (m : M W A) : MP W A := let* a := m in ret (Returned a).

#[export] Instance and_returns_proper {W A B : Type} :
  Proper (meq ==> pointwise_relation A meq ==> meq) (@and_returns W A B).
Proof.
  intros m1 m2 Hm k1 k2 Hk. unfold and_returns. apply bind_proper; [done|].
  intros [a|]; [apply Hk | done].
Qed.

Lemma returns_run {W A B : Type} (m : MP W A) (k : A → MP W B) w a w' :
  m w = (Returned a, w') → and_returns m k w = k a w'.
Proof. intros E. unfold and_returns. by rewrite (bind_run _ _ _ _ _ E). Qed.

Lemma panics_run {W A B : Type} (m : MP W A) (k : A → MP W B) w w' :
  m w = (Panics, w') → and_returns m k w = (Panics, w').
Proof. intros E. unfold and_returns. by rewrite (bind_run _ _ _ _ _ E). Qed.

Lemma calls_run {W A B : Type} (m : M W A) (k : A → MP W B) w a w' :
  m w = (a, w') → and_returns (calls m) k w = k a w'.
Proof. intros E. apply returns_run. unfold calls. by rewrite (bind_run _ _ _ _ _ E). Qed.

(** An invariant of a step relation holds in every reachable state. *)
Lemma rtc_invariant {A : Type} (R : relation A) (P : A → Prop) :
  (∀ x y, R x y → P x → P y) → ∀ x y, rtc R x y → P x → P y.
Proof. intros HR x y Hxy. induction Hxy; eauto. Qed.

(** ** Lists *)
Lemma filter_all {A : Type} (P : A → Prop) `{∀ x, Decision (P x)} (l : list A) :
  Forall P l → filter P l = l.
Proof.
  induction 1 as [|x l Hx Hl IH]; [done|]. by rewrite filter_cons_True, IH.
Qed.

Lemma filter_none {A : Type} (P : A → Prop) `{∀ x, Decision (P x)} (l : list A) :
  Forall (λ x, ¬ P x) l → filter P l = [].
Proof.
  induction 1 as [|x l Hx Hl IH]; [done|]. by rewrite filter_cons_False, IH.
Qed.

(** Filters that agree on the elements of a list agree on the list. *)
Lemma filter_ext_in {A : Type} (P Q : A → Prop) `{∀ x, Decision (P x)} `{∀ x, Decision (Q x)}
    (l : list A) :
  Forall (λ x, P x ↔ Q x) l → filter P l = filter Q l.
Proof.
  induction 1 as [|x l Hx Hl IH]; [done|]. destruct (decide (P x)).
  - rewrite !filter_cons_True by tauto. by rewrite IH.
  - rewrite !filter_cons_False by tauto. done.
Qed.

Lemma filter_fmap_comm {A B : Type} (f : A → B) (P : B → Prop) `{∀ x, Decision (P x)} (l : list A) :
  filter P (f <$> l) = f <$> filter (λ x, P (f x)) l.
Proof.
  induction l as [|x l IH]; [done|]. csimpl. destruct (decide (P (f x))).
  - rewrite !filter_cons_True by done. csimpl. by rewrite IH.
  - rewrite !filter_cons_False by done. done.
Qed.

(** ** Proof automation *)

Create HintDb go discriminated.

(** Unfold the monad and destruct the intermediate results of a computation. *)
Ltac go_unfold := unfold bind, ret, get, gets, modify in *.

Ltac go_step :=
  match goal with
  | H : (_, _) = (_, _) |- _ => injection H; clear H; intros; subst
  | |- context [let '(_, _) := ?e in _] => destruct e eqn:?
  | H : context [let '(_, _) := ?e in _] |- _ => destruct e eqn:?
  end.

Ltac go_crush := go_unfold; repeat (go_step; simpl in *); try done; try congruence.
