(* ===== verification/Hoare.v ===== *)
(** * Hoare triples for [M]

    What holds after a computation that started in a state where [P] holds: used by the
    components whose invariants go through many calls ([Reflector]). *)
From S2P Require Import Prelude.

Definition triple {W A : Type} (P : W → Prop) (m : M W A) (Q : A → W → Prop) : Prop :=
  ∀ w, P w → Q (m w).1 (m w).2.

(** A computation that keeps a property. *)
Abbreviation keeps P m := (triple P m (λ _, P)).

Create HintDb triples.

Section Triples.
Context {W : Type}.
Implicit Types P : W → Prop.

Lemma triple_ret {A} (a : A) P Q : (∀ w, P w → Q a w) → triple P (ret a) Q.
Proof. intros H w Hw. by apply H. Qed.

Lemma triple_bind {A B} P R Q (m : M W A) (k : A → M W B) :
  triple P m R → (∀ a, triple (R a) (k a) Q) → triple P (bind m k) Q.
Proof.
  intros Hm Hk w Hw. specialize (Hm w Hw). unfold bind. destruct (m w) as [a w'].
  by apply Hk.
Qed.

Lemma triple_seq {A B} P Q (m : M W A) (k : A → M W B) :
  keeps P m → (∀ a, triple P (k a) Q) → triple P (bind m k) Q.
Proof. intros Hm Hk. by eapply triple_bind. Qed.

Lemma triple_weaken {A} P P' Q Q' (m : M W A) :
  (∀ w, P w → P' w) → (∀ a w, Q' a w → Q a w) → triple P' m Q' → triple P m Q.
Proof. intros HP HQ H w Hw. apply HQ, H, HP, Hw. Qed.

Lemma triple_modify P Q (f : W → W) : (∀ w, P w → Q tt (f w)) → triple P (modify f) Q.
Proof. intros H w Hw. by apply H. Qed.

Lemma triple_gets {A} P Q (f : W → A) : (∀ w, P w → Q (f w) w) → triple P (gets f) Q.
Proof. intros H w Hw. by apply H. Qed.

(** Take a pure fact out of the precondition. *)
Lemma triple_pure {A} (φ : Prop) P Q (m : M W A) :
  (φ → triple P m Q) → triple (λ w, φ ∧ P w) m Q.
Proof. intros H w [Hφ Hw]. by apply H. Qed.

Lemma triple_and {A} P Q1 Q2 (m : M W A) :
  triple P m Q1 → triple P m Q2 → triple P m (λ a w, Q1 a w ∧ Q2 a w).
Proof. intros H1 H2 w Hw. split; [by apply H1 | by apply H2]. Qed.

Lemma triple_run {A} P Q (m : M W A) w a w' : triple P m Q → P w → m w = (a, w') → Q a w'.
Proof. intros H Hw E. specialize (H w Hw). by rewrite E in H. Qed.
End Triples.

(** One step of a proof that a computation keeps a property. *)
Ltac keeps_step :=
  match goal with
  | |- triple _ (bind _ _) _ => apply triple_seq; [|intros ?]
  | |- triple _ (ret _) _ => apply triple_ret
  | |- triple _ (match ?x with _ => _ end) _ => destruct x
  | |- triple _ (let '(_, _) := ?x in _) _ => destruct x
  end.
Ltac keeps := repeat keeps_step; eauto with triples.
