(* ===== verification/GoValues.v ===== *)
(** * Go values without static types, nilable maps and slices, strings

    Values of type [any] as the SDK builds and inspects them (decoded JSON or YAML, with
    typed Go values inside), maps and slices where nil differs from empty, iteration over
    maps, and the functions of package [strings] the manifest uses. *)
From S2P Require Import Prelude.

#[local] Open Scope string_scope.

(** ** Values of type [any]

    [G] is the type of the typed Go values that are stored in an [any]. *)
Inductive any (G : Type) :=
| ANil
| ABool (b : bool)
| ANumber (n : Z)
| AString (s : string)
| AList (l : list (any G))
| AMap (m : gmap string (any G))
| AGo (v : G).

Arguments ANil {G}.
Arguments ABool {G} b.
Arguments ANumber {G} n.
Arguments AString {G} s.
Arguments AList {G} l.
Arguments AMap {G} m.
Arguments AGo {G} v.

(** The type assertions [v.(map[string]any)], [v.(string)], [v.([]any)]. *)
Definition as_map {G} (v : any G) : option (gmap string (any G)) :=
  match v with AMap m => Some m | _ => None end.
Definition as_string {G} (v : any G) : option string :=
  match v with AString s => Some s | _ => None end.
Definition as_list {G} (v : any G) : option (list (any G)) :=
  match v with AList l => Some l | _ => None end.

(** The name [reflect.TypeOf] prints, given those of the typed values. *)
Definition TypeOf {G} (name : G → string) (v : any G) : string :=
  match v with
  | ANil => "<nil>"
  | ABool _ => "bool"
  | ANumber _ => "float64"
  | AString _ => "string"
  | AList _ => "[]interface {}"
  | AMap _ => "map[string]interface {}"
  | AGo v => name v
  end.

(** The conversion of an [int] to [int32]. *)
Definition int32 (n : Z) : Z := ((n + 2 ^ 31) mod 2 ^ 32 - 2 ^ 31)%Z.

(** ** Maps and slices that may be nil *)
Abbreviation nmap A := (option (gmap string A)).
Abbreviation nslice A := (option (list A)).

(** Reading a nil map or slice finds nothing; [elems] is what a loop goes over. *)
Definition items {A} (m : nmap A) : gmap string A := default ∅ m.
Definition elems {A} (s : nslice A) : list A := default [] s.

(** [len(m) > 0], [len(s) > 0] *)
Definition nonempty_map {A} (m : nmap A) : bool := bool_decide (items m ≠ ∅).
Definition nonempty_slice {A} (s : nslice A) : bool :=
  match elems s with [] => false | _ => true end.

Lemma nonempty_map_false {A} (m : nmap A) : nonempty_map m = false ↔ items m = ∅.
Proof.
  unfold nonempty_map. rewrite bool_decide_eq_false. split; [apply dec_stable | by intros -> []].
Qed.

(** [for k, v := range m] and [sync.Map.Range]: the order of the keys is arbitrary. *)
Class RangeOrder := {
  range_keys : gset string → list string;
  range_keys_perm X : range_keys X ≡ₚ base.elements X;
}.

Definition range_map `{RO : !RangeOrder} {A} (m : gmap string A) : list (string * A) :=
  omap (λ k, (k,.) <$> m !! k) (range_keys (dom m)).

Lemma elem_of_range_keys `{RO : !RangeOrder} (X : gset string) k : k ∈ range_keys X ↔ k ∈ X.
Proof. rewrite (range_keys_perm X). apply elem_of_elements. Qed.

Lemma NoDup_range_keys `{RO : !RangeOrder} (X : gset string) : NoDup (range_keys X).
Proof. rewrite (range_keys_perm X). apply NoDup_elements. Qed.

Lemma elem_of_range_map `{RO : !RangeOrder} {A} (m : gmap string A) k v :
  (k, v) ∈ range_map m ↔ m !! k = Some v.
Proof.
  unfold range_map. rewrite list_elem_of_omap. split.
  - intros (k' & _ & E). destruct (m !! k') eqn:Ek; simplify_option_eq. congruence.
  - intros E. exists k. rewrite elem_of_range_keys, E. split; [|done].
    by apply elem_of_dom_2 in E.
Qed.

Lemma range_map_fst `{RO : !RangeOrder} {A} (m : gmap string A) :
  (range_map m).*1 = range_keys (dom m).
Proof.
  unfold range_map.
  assert (∀ l : list string, (∀ k, k ∈ l → k ∈ dom m) →
    (omap (λ k, (k,.) <$> m !! k) l).*1 = l) as H.
  { induction l as [|k l IH]; intros Hl; [done|]. simpl.
    assert (k ∈ dom m) as [v Hv]%elem_of_dom by (apply Hl; left). rewrite Hv. csimpl.
    f_equal. apply IH. intros k' Hk'. apply Hl. by right. }
  apply H. intros k. by rewrite elem_of_range_keys.
Qed.

(** Filling a map from the entries of another, in any order, gives its image. *)
Lemma list_to_map_range `{RO : !RangeOrder} {A} (m : gmap string A) :
  (list_to_map (range_map m) : gmap string A) = m.
Proof.
  apply map_eq. intros k. destruct (m !! k) as [v|] eqn:E.
  - apply elem_of_list_to_map_1.
    + rewrite range_map_fst. apply NoDup_range_keys.
    + by apply elem_of_range_map.
  - apply not_elem_of_list_to_map_1. rewrite range_map_fst, elem_of_range_keys.
    by apply not_elem_of_dom.
Qed.

(** One such order, for the witnesses. *)
#[export] Program Instance TestRangeOrder : RangeOrder := { range_keys X := base.elements X }.
Next Obligation. done. Qed.

(** An invariant of a loop that accumulates. *)
Lemma fold_left_inv {A B} (P : A → Prop) (f : A → B → A) (l : list B) a :
  (∀ a x, x ∈ l → P a → P (f a x)) → P a → P (fold_left f l a).
Proof.
  revert a. induction l as [|x l IH]; intros a Hf Ha; [done|]. simpl. apply IH.
  - intros b y Hy. apply Hf. by right.
  - apply Hf; [left | done].
Qed.

Lemma fold_left_cons {A B} (f : A → B → A) x l a : fold_left f (x :: l) a = fold_left f l (f a x).
Proof. done. Qed.

Lemma concat_fmap_nil {A B} (f : A → list B) (l : list A) :
  concat (f <$> l) = [] ↔ ∀ x, x ∈ l → f x = [].
Proof.
  induction l as [|y l IH]; [split; [by intros _ x ?%elem_of_nil | done]|].
  csimpl. rewrite app_nil, IH. setoid_rewrite elem_of_cons. split.
  - intros [H1 H2] x [->|Hx]; auto.
  - auto.
Qed.

(** ** Package [strings], on ASCII strings *)
Definition ascii_lower (c : ascii) : ascii :=
  if (65 <=? N_of_ascii c)%N && (N_of_ascii c <=? 90)%N
  then ascii_of_N (N_of_ascii c + 32) else c.

Definition ascii_upper (c : ascii) : ascii :=
  if (97 <=? N_of_ascii c)%N && (N_of_ascii c <=? 122)%N
  then ascii_of_N (N_of_ascii c - 32) else c.

Fixpoint string_map (f : ascii → ascii) (s : string) : string :=
  match s with
  | EmptyString => EmptyString
  | String c s => String (f c) (string_map f s)
  end.

Definition ToLower : string → string := string_map ascii_lower.
Definition ToUpper : string → string := string_map ascii_upper.

(** [strings.Trim] with a cut set of one character. *)
Fixpoint TrimLeft (s : string) (c : ascii) : string :=
  match s with
  | EmptyString => EmptyString
  | String c' s' => if Ascii.eqb c c' then TrimLeft s' c else s
  end.
Fixpoint TrimRight (s : string) (c : ascii) : string :=
  match s with
  | EmptyString => EmptyString
  | String c' s' =>
      match TrimRight s' c with
      | EmptyString => if Ascii.eqb c c' then EmptyString else String c' EmptyString
      | t => String c' t
      end
  end.
Definition Trim (s : string) (c : ascii) : string := TrimRight (TrimLeft s c) c.

(** [strings.TrimSpace], on ASCII strings. *)
Definition is_space (c : ascii) : bool :=
  let n := nat_of_ascii c in ((9 <=? n) && (n <=? 13) || (n =? 32))%nat.

Fixpoint TrimSpaceLeft (s : string) : string :=
  match s with
  | String c s' => if is_space c then TrimSpaceLeft s' else s
  | EmptyString => EmptyString
  end.

Fixpoint TrimSpaceRight (s : string) : string :=
  match s with
  | EmptyString => EmptyString
  | String c s' =>
      match TrimSpaceRight s' with
      | EmptyString => if is_space c then EmptyString else String c EmptyString
      | t => String c t
      end
  end.

Definition TrimSpace (s : string) : string := TrimSpaceRight (TrimSpaceLeft s).

(** [strings.Split] at one character: never empty. *)
Fixpoint Split (s : string) (c : ascii) : list string :=
  match s with
  | EmptyString => [EmptyString]
  | String c' s' =>
      if Ascii.eqb c c' then EmptyString :: Split s' c
      else match Split s' c with
           | p :: ps => String c' p :: ps
           | [] => [String c' EmptyString]
           end
  end.

(** [filepath.Clean] and [filepath.Join] of two elements, on slash-separated paths. *)
Definition clean_step (rooted : bool) (out : list string) (seg : string) : list string :=
  if bool_decide (seg = "") || bool_decide (seg = ".") then out
  else if bool_decide (seg = "..") then
    match out with
    | x :: out' => if bool_decide (x = "..") then ".." :: out else out'
    | [] => if rooted then [] else [".."]
    end
  else seg :: out.

Definition Clean (path : string) : string :=
  let rooted := String.prefix "/" path in
  let segs := rev (foldl (clean_step rooted) [] (Split path "/")) in
  let joined := String.concat "/" segs in
  if rooted then "/" +:+ joined else if bool_decide (joined = "") then "." else joined.

Definition path_Join (a b : string) : string :=
  if bool_decide (a = "") then (if bool_decide (b = "") then "" else Clean b)
  else if bool_decide (b = "") then Clean a
  else Clean (a +:+ "/" +:+ b).

(** [strings.TrimPrefix] *)
Definition TrimPrefix (s prefix : string) : string :=
  if String.prefix prefix s
  then String.substring (String.length prefix) (String.length s - String.length prefix) s
  else s.

(** [s[len(s)-n:]] of a string with at least [n] bytes. *)
Definition suffix_of_length (n : nat) (s : string) : string :=
  String.substring (String.length s - n) n s.

(** [%q] of a string without characters that need escapes. *)
Definition quoted (s : string) : string :=
  String (ascii_of_nat 34) (s +:+ String (ascii_of_nat 34) EmptyString).

Lemma ascii_lower_idem c : ascii_lower (ascii_lower c) = ascii_lower c.
Proof. by destruct c as [[] [] [] [] [] [] [] []]. Qed.

Lemma ToLower_idem s : ToLower (ToLower s) = ToLower s.
Proof.
  unfold ToLower. induction s as [|c s IH]; [done|]. simpl. by rewrite ascii_lower_idem, IH.
Qed.

Lemma ToLower_app s t : ToLower (s +:+ t) = ToLower s +:+ ToLower t.
Proof.
  unfold ToLower. induction s as [|c s IH]; [done|].
  change (String c s +:+ t) with (String c (s +:+ t)). simpl. by rewrite IH.
Qed.

Lemma Split_not_nil s c : Split s c ≠ [].
Proof. induction s as [|c' s IH]; simpl; [done|]. repeat case_match; done. Qed.

(** A string without a character; the character then separates what is around it. *)
Fixpoint free_of (c : ascii) (s : string) : bool :=
  match s with
  | EmptyString => true
  | String c' s => negb (Ascii.eqb c' c) && free_of c s
  end.

Lemma free_of_app c s t : free_of c (s +:+ t) = free_of c s && free_of c t.
Proof.
  induction s as [|c' s IH]; [done|].
  change (String c' s +:+ t) with (String c' (s +:+ t)). simpl. by rewrite IH, andb_assoc.
Qed.

Lemma separator_inj c s1 s2 t1 t2 :
  free_of c s1 = true → free_of c s2 = true →
  s1 +:+ String c t1 = s2 +:+ String c t2 → s1 = s2 ∧ t1 = t2.
Proof.
  revert s2. induction s1 as [|c1 s1 IH]; intros [|c2 s2]; simpl; intros H1 H2 E.
  - by injection E.
  - injection E as <- _. by rewrite Ascii.eqb_refl in H2.
  - injection E as -> _. by rewrite Ascii.eqb_refl in H1.
  - injection E as -> E. apply andb_true_iff in H1 as [_ H1], H2 as [_ H2].
    by destruct (IH s2 H1 H2 E) as [-> ->].
Qed.

Lemma Split_free c s t : free_of c s = true → Split (s +:+ String c t) c = s :: Split t c.
Proof.
  induction s as [|c' s IH]; simpl.
  - intros _. by rewrite Ascii.eqb_refl.
  - intros [Hc H]%andb_true_iff. apply negb_true_iff in Hc. rewrite Ascii.eqb_sym, Hc.
    fold (s +:+ String c t). by rewrite IH.
Qed.

Lemma Split_free_end c s : free_of c s = true → Split s c = [s].
Proof.
  induction s as [|c' s IH]; simpl; [done|].
  intros [Hc H]%andb_true_iff. apply negb_true_iff in Hc. rewrite Ascii.eqb_sym, Hc. by rewrite IH.
Qed.

(** [strings.Contains] *)
Fixpoint Contains (s sub : string) : bool :=
  String.prefix sub s || match s with String _ s' => Contains s' sub | EmptyString => false end.

(** [s[n:]] and [s[:n]] of a string with at least [n] bytes. *)
Fixpoint str_drop (n : nat) (s : string) : string :=
  match n, s with
  | S n, String _ s => str_drop n s
  | _, _ => s
  end.
Fixpoint str_take (n : nat) (s : string) : string :=
  match n, s with
  | S n, String c s => String c (str_take n s)
  | _, _ => EmptyString
  end.

(** [strings.ReplaceAll] of a text that is not empty. *)
Fixpoint replace_all (fuel : nat) (s old new : string) : string :=
  match fuel with
  | O => s
  | S fuel =>
      if String.prefix old s then new +:+ replace_all fuel (str_drop (String.length old) s) old new
      else match s with
           | EmptyString => EmptyString
           | String c s => String c (replace_all fuel s old new)
           end
  end.
Definition ReplaceAll (s old new : string) : string := replace_all (S (String.length s)) s old new.

(** The longest prefix of characters with a property, and the rest. *)
Fixpoint string_span (f : ascii → bool) (s : string) : string * string :=
  match s with
  | EmptyString => (EmptyString, EmptyString)
  | String c s' =>
      if f c then let '(a, b) := string_span f s' in (String c a, b) else (EmptyString, s)
  end.

Lemma length_app_string s t : String.length (s +:+ t) = (String.length s + String.length t)%nat.
Proof. induction s as [|c s IH]; [done | exact (f_equal S IH)]. Qed.

Lemma string_app_nil_r s : s +:+ "" = s.
Proof. induction s as [|c s IH]; [done | exact (f_equal (String c) IH)]. Qed.

Lemma string_app_assoc s t u : s +:+ (t +:+ u) = (s +:+ t) +:+ u.
Proof. induction s as [|c s IH]; [done | exact (f_equal (String c) IH)]. Qed.

Lemma str_drop_app s t : str_drop (String.length s) (s +:+ t) = t.
Proof. induction s as [|c s IH]; [by destruct t | exact IH]. Qed.

Lemma str_take_app s t : str_take (String.length s) (s +:+ t) = s.
Proof. induction s as [|c s IH]; [by destruct t | exact (f_equal (String c) IH)]. Qed.

Lemma prefix_app s t : String.prefix s (s +:+ t) = true.
Proof.
  induction s as [|c s IH]; [by destruct t|].
  change (String c s +:+ t) with (String c (s +:+ t)). simpl. by destruct (Ascii.ascii_dec c c).
Qed.
