(* ===== verification/Resource.v ===== *)
(** * Objects, patches and errors

    The data the operator package works on: object metadata ([resource/object.go]),
    patch requests ([resource/client.go]), Go error values with their wrapping, and
    the error types of [operator/errors.go].  Error values of other packages that
    carry an API status are [StatusError]; [WrapError] is [fmt.Errorf] with [%w] and
    [JoinError] is [errors.Join] (or a format with two [%w]).  A nil Go error is
    [None] of [option GoError]. *)
From S2P Require Import Prelude.

#[local] Open Scope string_scope.

(** ** [resource/object.go], [resource/client.go] *)

Record Identifier := mkIdentifier { id_Namespace : string; id_Name : string }.

Record FullIdentifier := mkFullIdentifier {
  fid_Namespace : string;
  fid_Name : string;
  fid_Group : string;
  fid_Version : string;
  fid_Kind : string;
  fid_Plural : string;
}.

Record StaticMetadata := mkStaticMetadata {
  sm_Group : string;
  sm_Version : string;
  sm_Kind : string;
  sm_Namespace : string;
  sm_Name : string;
}.

(** [StaticMetadata.Identifier] *)
Definition StaticMetadata_Identifier (s : StaticMetadata) : Identifier :=
  mkIdentifier (sm_Namespace s) (sm_Name s).

(** [StaticMetadata.FullIdentifier]; the plural is left empty. *)
Definition StaticMetadata_FullIdentifier (s : StaticMetadata) : FullIdentifier :=
  mkFullIdentifier (sm_Namespace s) (sm_Name s) (sm_Group s) (sm_Version s) (sm_Kind s) "".

(** [CommonMetadata]; times are nanoseconds, a nil slice is the empty list. *)
Record CommonMetadata := mkCommonMetadata {
  cm_UID : string;
  cm_ResourceVersion : string;
  cm_Generation : Z;
  cm_Labels : gmap string string;
  cm_CreationTimestamp : Z;
  cm_DeletionTimestamp : option Z;
  cm_Finalizers : list string;
  cm_UpdateTimestamp : Z;
  cm_CreatedBy : string;
  cm_UpdatedBy : string;
  cm_ExtraFields : gmap string string;
}.

(** A [resource.Object]: its two parts of metadata and its spec. *)
Record Object := mkObject {
  GetStaticMetadata : StaticMetadata;
  GetCommonMetadata : CommonMetadata;
  GetSpec : string;
}.

Definition GetFinalizers (o : Object) : list string := cm_Finalizers (GetCommonMetadata o).
Definition GetResourceVersion (o : Object) : string := cm_ResourceVersion (GetCommonMetadata o).
Definition GetGeneration (o : Object) : Z := cm_Generation (GetCommonMetadata o).
Definition GetDeletionTimestamp (o : Object) : option Z :=
  cm_DeletionTimestamp (GetCommonMetadata o).
Definition GetNamespace (o : Object) : string := sm_Namespace (GetStaticMetadata o).
Definition GetName (o : Object) : string := sm_Name (GetStaticMetadata o).

Inductive PatchOp :=
| PatchOpAdd | PatchOpRemove | PatchOpReplace | PatchOpMove | PatchOpCopy | PatchOpTest.

(** The [Value any] of a patch operation, for the values the SDK builds. *)
Inductive PatchValue :=
| PVString (s : string)
| PVStrings (l : list string).

Record PatchOperation := mkPatchOperation {
  po_Path : string;
  po_Operation : PatchOp;
  po_Value : PatchValue;
}.

Record PatchRequest := mkPatchRequest { pr_Operations : list PatchOperation }.

(** The zero value of [PatchOptions] is the only one the operator passes. *)
Record PatchOptions := mkPatchOptions { popt_DryRun : bool; popt_Subresource : string }.

Definition PatchOptions_zero : PatchOptions := mkPatchOptions false "".

(** ** Errors *)

(** [metav1.Status], the fields the SDK reads or sets. *)
Record Status := mkStatus { st_Code : Z; st_Reason : string; st_Message : string }.

(** [WrapError] is [fmt.Errorf("prefix%w")], [JoinError] [errors.Join], [WrapBoth]
    [fmt.Errorf("%w...%w")].  The next three are errors of [k8s/]: [SimpleAdmissionError]
    ([k8s/admission.go]) embeds an error but does not unwrap to it, [ServerResponseError]
    ([k8s/errors.go]) and [StreamConnectionError] ([streamConnectionError] of
    [k8s/stream_error.go]) do; their text is the one of their error, as it is for
    [PluginError], the [Error] of [plugin/errors.go]. *)
Inductive GoError :=
| ErrorString (msg : string)
| WrapError (prefix : string) (e : GoError)
| JoinError (e1 e2 : GoError)
| WrapBoth (e1 : GoError) (sep : string) (e2 : GoError)
| StatusError (st : Status)
| FinalizerOperationError (e : GoError) (request : PatchRequest)
| CannotCastError (meta : StaticMetadata)
| SimpleAdmissionError (e : GoError) (statusCode : Z) (reason : string)
| ServerResponseError (e : GoError) (statusCode : Z)
| StreamConnectionError (e : GoError)
| PluginError (code : Z) (e : GoError).

(** [NewFinalizerOperationError] *)
Definition NewFinalizerOperationError (err : GoError) (request : PatchRequest) : GoError :=
  FinalizerOperationError err request.

(** [NewCannotCastError] *)
Definition NewCannotCastError (meta : StaticMetadata) : GoError := CannotCastError meta.

(** The text [NewCannotCastError] builds, which [CannotCastError.Error] returns. *)
Definition CannotCast_text (meta : StaticMetadata) : string :=
  "cannot cast " +:+ sm_Group meta +:+ ":" +:+ sm_Kind meta +:+ " (" +:+
  sm_Namespace meta +:+ "/" +:+ sm_Name meta +:+ ") into type".

(** [err.Error()].  [FinalizerOperationError.Error] is the inner error's text. *)
Fixpoint Error (e : GoError) : string :=
  match e with
  | ErrorString msg => msg
  | WrapError prefix e => prefix +:+ Error e
  | JoinError e1 e2 => Error e1 +:+ String "010"%char (Error e2)
  | WrapBoth e1 sep e2 => Error e1 +:+ sep +:+ Error e2
  | StatusError st => st_Message st
  | FinalizerOperationError e _ => Error e
  | CannotCastError meta => CannotCast_text meta
  | SimpleAdmissionError e _ _ => Error e
  | ServerResponseError e _ | StreamConnectionError e | PluginError _ e => Error e
  end.

(** [errors.As(err, &chk)] for [chk] of the interface type [apierrors.APIStatus],
    followed by [chk.Status()].  The [FinalizerOperationError] case is the body of
    its [Status] method. *)
Fixpoint AsAPIStatus (e : GoError) : option Status :=
  match e with
  | ErrorString _ => None
  | CannotCastError _ | SimpleAdmissionError _ _ _ => None
  | ServerResponseError e statusCode => Some (mkStatus statusCode "" (Error e))
  | WrapError _ e | StreamConnectionError e | PluginError _ e => AsAPIStatus e
  | JoinError e1 e2 | WrapBoth e1 _ e2 =>
      match AsAPIStatus e1 with Some st => Some st | None => AsAPIStatus e2 end
  | StatusError st => Some st
  | FinalizerOperationError e _ =>
      Some (match AsAPIStatus e with Some st => st | None => mkStatus 0 "" (Error e) end)
  end.

(** [FinalizerOperationError.Status] *)
Definition FinalizerOperationError_Status (err : GoError) : Status :=
  match AsAPIStatus err with
  | Some st => st
  | None => mkStatus 0 "" (Error err)
  end.

(** [errors.As(err, &chk)] for [chk] of the interface type [FinalizerError]:
    the request of the first error in the tree with a [PatchRequest] method. *)
Fixpoint AsFinalizerError (e : GoError) : option PatchRequest :=
  match e with
  | ErrorString _ | CannotCastError _ | StatusError _ | SimpleAdmissionError _ _ _ => None
  | WrapError _ e | ServerResponseError e _ | StreamConnectionError e | PluginError _ e =>
      AsFinalizerError e
  | JoinError e1 e2 | WrapBoth e1 _ e2 =>
      match AsFinalizerError e1 with Some r => Some r | None => AsFinalizerError e2 end
  | FinalizerOperationError _ request => Some request
  end.

#[export] Instance StaticMetadata_eq_dec : EqDecision StaticMetadata.
Proof. solve_decision. Defined.
#[export] Instance Identifier_eq_dec : EqDecision Identifier.
Proof. solve_decision. Defined.
#[export] Instance Status_eq_dec : EqDecision Status.
Proof. solve_decision. Defined.
#[export] Instance PatchOp_eq_dec : EqDecision PatchOp.
Proof. solve_decision. Defined.
#[export] Instance PatchValue_eq_dec : EqDecision PatchValue.
Proof. solve_decision. Defined.
#[export] Instance PatchOperation_eq_dec : EqDecision PatchOperation.
Proof. solve_decision. Defined.
#[export] Instance PatchRequest_eq_dec : EqDecision PatchRequest.
Proof. solve_decision. Defined.
#[export] Instance GoError_eq_dec : EqDecision GoError.
Proof. solve_decision. Defined.

(** [errors.Is(err, target)]: the tree of [err] contains [target]. *)
Fixpoint ErrorsIs (e target : GoError) : bool :=
  bool_decide (e = target) ||
  match e with
  | WrapError _ e | StreamConnectionError e | PluginError _ e => ErrorsIs e target
  | FinalizerOperationError e _ | ServerResponseError e _ => ErrorsIs e target
  | JoinError e1 e2 | WrapBoth e1 _ e2 => ErrorsIs e1 target || ErrorsIs e2 target
  | _ => false
  end.

(** ** What the operator relies on outside the repository

    [apierrors.IsConflict] of [k8s.io/apimachinery] looks at nothing but the API
    status an error carries, wherever in the wrapping it is found. *)
Class ApiErrors := {
  IsConflict : GoError → bool;
  IsConflict_status : ∀ e1 e2, AsAPIStatus e1 = AsAPIStatus e2 → IsConflict e1 = IsConflict e2;
  IsConflict_no_status : ∀ e, AsAPIStatus e = None → IsConflict e = false;
}.

(** [xxhash.Sum64] of [github.com/cespare/xxhash]: some function to uint64. *)
Class Xxhash := {
  Sum64 : string → Z;
  Sum64_range : ∀ s, (0 ≤ Sum64 s < 2 ^ 64)%Z;
}.

(** An object the Go code holds a pointer to; [deref] reads it in a state.  The slice that
    [GetFinalizers] returned for the object in one state holds [kept_finalizers] in another:
    the same elements when nothing has written to its array, and others after, for one, a
    patch whose answer was decoded into the object. *)
Abbreviation Ref := nat (only parsing).

Class World (W : Type) := {
  deref : Ref → W → Object;
  kept_finalizers : Ref → W → W → list string;
  kept_finalizers_now : ∀ r σ, kept_finalizers r σ σ = GetFinalizers (deref r σ);
  Now : M W Z;
  Sleep : Z → M W unit;
  RandIntn : Z → M W Z;
}.

(** Wrapping an API error in a [FinalizerOperationError] keeps its status, so
    [IsConflict] sees through it. *)
Lemma AsAPIStatus_FinalizerOperationError e st req :
  AsAPIStatus e = Some st → AsAPIStatus (NewFinalizerOperationError e req) = Some st.
Proof. intros Hst. simpl. by rewrite Hst. Qed.

Lemma IsConflict_FinalizerOperationError `{!ApiErrors} e req :
  AsAPIStatus e ≠ None → IsConflict (NewFinalizerOperationError e req) = IsConflict e.
Proof.
  intros Hst. apply IsConflict_status. destruct (AsAPIStatus e) as [st|] eqn:E; [|done].
  by apply AsAPIStatus_FinalizerOperationError.
Qed.

Lemma ErrorsIs_refl e : ErrorsIs e e = true.
Proof. destruct e; simpl; by rewrite bool_decide_eq_true_2. Qed.
