(* ===== verification/GoTime.v ===== *)
(** * Time stamps as text

    [time.Time] in UTC, as nanoseconds from the zero time (the first instant of the year 1),
    and the text [time.RFC3339] gives it.  [Parse] is exact on the texts that [Format]
    writes; what package [time] does with the other forms (fractions, offsets) is a
    parameter. *)
From S2P Require Import Prelude GoValues.

#[local] Open Scope string_scope.
#[local] Open Scope Z_scope.

(** ** The calendar *)

(** The days of [n] whole years from the year 1. *)
Definition days_of_years (n : Z) : Z := 365 * n + n / 4 - n / 100 + n / 400.

Definition leap_year (y : Z) : bool := ((y mod 4 =? 0) && negb (y mod 100 =? 0)) || (y mod 400 =? 0).

Definition days_in_month (leap : bool) (m : Z) : Z :=
  if (m =? 2) then (if leap then 29 else 28)
  else if (m =? 4) || (m =? 6) || (m =? 9) || (m =? 11) then 30 else 31.

(** The month a day of the year is in, counting from [m], and the day of that month. *)
Fixpoint month_of (fuel : nat) (leap : bool) (m yday : Z) : Z * Z :=
  match fuel with
  | O => (m, yday + 1)
  | S fuel =>
      if yday <? days_in_month leap m then (m, yday + 1)
      else month_of fuel leap (m + 1) (yday - days_in_month leap m)
  end.

Fixpoint days_before (fuel : nat) (leap : bool) (m : Z) : Z :=
  match fuel with
  | O => 0
  | S fuel => if m <=? 1 then 0 else days_in_month leap (m - 1) + days_before fuel leap (m - 1)
  end.

(** The year, month and day of a day that is counted from the zero time: cycles of 400, 100,
    4 and 1 years. *)
Definition civil (d : Z) : Z * Z * Z :=
  let n400 := d / 146097 in
  let d := d - 146097 * n400 in
  let n100 := Z.min 3 (d / 36524) in
  let d := d - 36524 * n100 in
  let n4 := d / 1461 in
  let d := d - 1461 * n4 in
  let n1 := Z.min 3 (d / 365) in
  let yday := d - 365 * n1 in
  let y := 400 * n400 + 100 * n100 + 4 * n4 + n1 + 1 in
  let '(m, day) := month_of 12 (leap_year y) 1 yday in
  (y, m, day).

Definition days_of (y m day : Z) : Z :=
  days_of_years (y - 1) + days_before 12 (leap_year y) m + day - 1.

(** ** Digits *)
Definition digit (n : Z) : ascii := ascii_of_N (Z.to_N (48 + n)).
Definition digit_value (c : ascii) : option Z :=
  let n := Z.of_N (N_of_ascii c) - 48 in if (0 <=? n) && (n <=? 9) then Some n else None.

Definition two (n : Z) : string := String (digit (n / 10)) (String (digit (n mod 10)) "").
Definition four (n : Z) : string := two (n / 100) +:+ two (n mod 100).

Definition get_two (a b : ascii) : option Z :=
  match digit_value a, digit_value b with Some a, Some b => Some (10 * a + b) | _, _ => None end.

(** ** [time.RFC3339] *)

(** [Format], of an instant in UTC and in the years 1 to 9999. *)
Definition Format (t : Z) : string :=
  let s := t / 10 ^ 9 in
  let '(y, m, d) := civil (s / 86400) in
  let r := s mod 86400 in
  four y +:+ "-" +:+ two m +:+ "-" +:+ two d +:+ "T" +:+
  two (r / 3600) +:+ ":" +:+ two (r mod 3600 / 60) +:+ ":" +:+ two (r mod 60) +:+ "Z".

(** The instant of the numbers of a text, when they are in range. *)
Definition instant (y m d h mi s : Z) : option Z :=
  if (1 <=? m) && (m <=? 12) && (1 <=? d) && (d <=? days_in_month (leap_year y) m) &&
     (h <? 24) && (mi <? 60) && (s <? 60)
  then Some (10 ^ 9 * (86400 * days_of y m d + 3600 * h + 60 * mi + s))
  else None.

(** The texts of the form [2006-01-02T15:04:05Z]. *)
Definition parse_utc (t : string) : option Z :=
  match t with
  | String y1 (String y2 (String y3 (String y4 (String "-" (String m1 (String m2 (String "-"
     (String d1 (String d2 (String "T" (String h1 (String h2 (String ":" (String i1 (String i2
     (String ":" (String s1 (String s2 (String "Z" EmptyString))))))))))))))))))) =>
      yh ← get_two y1 y2; yl ← get_two y3 y4; m ← get_two m1 m2; d ← get_two d1 d2;
      h ← get_two h1 h2; mi ← get_two i1 i2; s ← get_two s1 s2;
      instant (100 * yh + yl) m d h mi s
  | _ => None
  end.

(** What [time.Parse] does with a text that is not of that form: an instant, or an error. *)
Class LenientTime := { lenient : string → option Z }.

(** [time.Parse], with the zero time for an error. *)
Definition Parse `{LT : !LenientTime} (t : string) : Z :=
  match parse_utc t with
  | Some t => t
  | None => default 0 (lenient t)
  end.

(** ** A formatted instant is read back, without its nanoseconds *)

Definition whole_second (t : Z) : Z := 10 ^ 9 * (t / 10 ^ 9).

(** The instants of the years 1 to 9999. *)
Definition four_digit_year (t : Z) : Prop := 0 ≤ t < 10 ^ 9 * 86400 * days_of_years 9999.

(** The days of a year, by computation. *)
Definition month_ok (leap : bool) (yday : Z) : bool :=
  let '(m, day) := month_of 12 leap 1 yday in
  (1 <=? m) && (m <=? 12) && (1 <=? day) && (day <=? days_in_month leap m) &&
  (days_before 12 leap m + day - 1 =? yday).

Fixpoint check_days (n : nat) (leap : bool) (d : Z) : bool :=
  match n with O => true | S n => month_ok leap d && check_days n leap (d + 1) end.

Lemma check_days_spec n leap d : check_days n leap d = true → ∀ e, d ≤ e < d + Z.of_nat n → month_ok leap e = true.
Proof.
  revert d. induction n as [|n IH]; intros d; [lia|]. simpl.
  intros [H1 H2]%andb_prop e He. destruct (Z.eq_dec e d) as [->|]; [done|]. apply (IH (d + 1)); [done | lia].
Qed.

Lemma month_days (leap : bool) yday : 0 ≤ yday < (if leap then 366 else 365) →
  let '(m, day) := month_of 12 leap 1 yday in
  1 ≤ m ≤ 12 ∧ 1 ≤ day ≤ days_in_month leap m ∧ days_before 12 leap m + day - 1 = yday.
Proof.
  intros Hy. assert (H : month_ok leap yday = true).
  { destruct leap.
    - apply (check_days_spec 366 true 0); [by vm_compute | lia].
    - apply (check_days_spec 365 false 0); [by vm_compute | lia]. }
  unfold month_ok in H. destruct (month_of _ _ _ _). repeat (apply andb_prop in H as [H ?]). lia.
Qed.

(** A year by its position in the cycles of 400, 100 and 4 years. *)
Lemma cycle_years a b c e : 0 ≤ b ≤ 3 → 0 ≤ c ≤ 24 → 0 ≤ e ≤ 3 →
  days_of_years (400 * a + 100 * b + 4 * c + e) = 146097 * a + 36524 * b + 1461 * c + 365 * e.
Proof.
  intros. unfold days_of_years.
  replace (400 * a + 100 * b + 4 * c + e) with (e + (100 * a + 25 * b + c) * 4) at 2 by lia.
  rewrite Z_div_plus_full, (Z.div_small e 4) by lia.
  replace (400 * a + 100 * b + 4 * c + e) with (4 * c + e + (4 * a + b) * 100) at 2 by lia.
  rewrite Z_div_plus_full, (Z.div_small (4 * c + e) 100) by lia.
  replace (400 * a + 100 * b + 4 * c + e) with (100 * b + 4 * c + e + a * 400) at 2 by lia.
  rewrite Z_div_plus_full, (Z.div_small (100 * b + 4 * c + e) 400) by lia. lia.
Qed.

Lemma cycle_leap a b c e : 0 ≤ b ≤ 3 → 0 ≤ c ≤ 24 → 0 ≤ e ≤ 3 →
  leap_year (400 * a + 100 * b + 4 * c + e + 1) = (e =? 3) && (negb (c =? 24) || (b =? 3)).
Proof.
  intros. unfold leap_year. replace (400 * a + 100 * b + 4 * c + e + 1) with (e + 1 + (100 * a + 25 * b + c) * 4) at 1 by lia.
  rewrite Z_mod_plus_full.
  replace (400 * a + 100 * b + 4 * c + e + 1) with (4 * c + e + 1 + (4 * a + b) * 100) at 1 by lia.
  rewrite Z_mod_plus_full.
  replace (400 * a + 100 * b + 4 * c + e + 1) with (100 * b + 4 * c + e + 1 + a * 400) at 1 by lia.
  rewrite Z_mod_plus_full.
  assert (H4 : (e + 1) mod 4 = if e =? 3 then 0 else e + 1) by
    (destruct (Z.eqb_spec e 3) as [->|]; [done | apply Z.mod_small; lia]).
  assert (H100 : (4 * c + e + 1) mod 100 = if (e =? 3) && (c =? 24) then 0 else 4 * c + e + 1).
  { destruct (Z.eqb_spec e 3) as [->|]; destruct (Z.eqb_spec c 24) as [->|]; simpl; try done; apply Z.mod_small; lia. }
  assert (H400 : (100 * b + 4 * c + e + 1) mod 400 =
    if (e =? 3) && (c =? 24) && (b =? 3) then 0 else 100 * b + 4 * c + e + 1).
  { destruct (Z.eqb_spec e 3) as [->|]; destruct (Z.eqb_spec c 24) as [->|]; destruct (Z.eqb_spec b 3) as [->|];
      simpl; try done; apply Z.mod_small; lia. }
  rewrite H4, H100, H400.
  destruct (Z.eqb_spec e 3), (Z.eqb_spec c 24), (Z.eqb_spec b 3); simpl;
    repeat match goal with |- context [Z.eqb ?x ?y] => destruct (Z.eqb_spec x y) end; simpl; try done; lia.
Qed.

(** The calendar: the days of a date give back the date's day. *)
Lemma civil_days d : 0 ≤ d →
  let '(y, m, day) := civil d in
  1 ≤ y ∧ days_of_years (y - 1) ≤ d ∧
  1 ≤ m ≤ 12 ∧ 1 ≤ day ≤ days_in_month (leap_year y) m ∧ days_of y m day = d.
Proof.
  intros Hd. unfold civil. set (a := d / 146097). set (d1 := d - 146097 * a).
  assert (H1 : 0 ≤ d1 < 146097) by (unfold d1, a; pose proof (Z.mod_pos_bound d 146097); rewrite <- Z.mod_eq; lia).
  assert (Ha : 0 ≤ a) by (apply Z.div_pos; lia).
  set (b := Z.min 3 (d1 / 36524)). set (d2 := d1 - 36524 * b).
  assert (Hb : 0 ≤ b ≤ 3 ∧ 0 ≤ d2 ∧ (d2 < 36524 ∨ b = 3 ∧ d2 < 36525)).
  { pose proof (Z.div_mod d1 36524). pose proof (Z.mod_pos_bound d1 36524). unfold b, d2. lia. }
  set (c := d2 / 1461). set (d3 := d2 - 1461 * c).
  assert (Hc : 0 ≤ c ≤ 24 ∧ 0 ≤ d3 < 1461 ∧ (c < 24 ∨ b = 3 ∨ d3 < 1460)).
  { pose proof (Z.div_mod d2 1461). pose proof (Z.mod_pos_bound d2 1461). unfold c, d3. lia. }
  set (e := Z.min 3 (d3 / 365)). set (d4 := d3 - 365 * e).
  assert (He : 0 ≤ e ≤ 3 ∧ 0 ≤ d4 ∧ (d4 < 365 ∨ e = 3 ∧ d4 < 366 ∧ (c < 24 ∨ b = 3))).
  { pose proof (Z.div_mod d3 365). pose proof (Z.mod_pos_bound d3 365). unfold d4, e. lia. }
  cbv zeta. pose proof (cycle_years a b c e) as Hdays. pose proof (cycle_leap a b c e) as Hleap.
  pose proof (month_days (leap_year (400 * a + 100 * b + 4 * c + e + 1)) d4) as Hm.
  destruct (month_of _ _ _ d4) as [m day]. unfold days_of.
  replace (400 * a + 100 * b + 4 * c + e + 1 - 1) with (400 * a + 100 * b + 4 * c + e) by lia.
  rewrite Hdays by lia. destruct Hm as (Hm1 & Hm2 & Hm3).
  { rewrite Hleap by lia. destruct (Z.eqb_spec e 3), (Z.eqb_spec c 24), (Z.eqb_spec b 3); simpl; lia. }
  unfold d4, d3, d2, d1 in *. lia.
Qed.

Lemma digit_digit n : 0 ≤ n ≤ 9 → digit_value (digit n) = Some n.
Proof.
  intros H. assert (n = 0 ∨ n = 1 ∨ n = 2 ∨ n = 3 ∨ n = 4 ∨ n = 5 ∨ n = 6 ∨ n = 7 ∨ n = 8 ∨ n = 9) as Hn by lia.
  by destruct Hn as [-> | [-> | [-> | [-> | [-> | [-> | [-> | [-> | [-> | ->]]]]]]]]].
Qed.

Lemma get_two_two n : 0 ≤ n < 100 → get_two (digit (n / 10)) (digit (n mod 10)) = Some n.
Proof.
  intros H. pose proof (Z.div_mod n 10). pose proof (Z.mod_pos_bound n 10). unfold get_two.
  rewrite !digit_digit by lia. f_equal. lia.
Qed.

(** The text of a date is read as the instant of its numbers. *)
Lemma parse_utc_text y m d h mi s :
  0 ≤ y < 10000 → 0 ≤ m < 100 → 0 ≤ d < 100 → 0 ≤ h < 100 → 0 ≤ mi < 100 → 0 ≤ s < 100 →
  parse_utc (four y +:+ "-" +:+ two m +:+ "-" +:+ two d +:+ "T" +:+
             two h +:+ ":" +:+ two mi +:+ ":" +:+ two s +:+ "Z") = instant y m d h mi s.
Proof.
  intros Hy Hm Hd Hh Hmi Hs. unfold four, two. cbv beta iota delta [String.append parse_utc].
  pose proof (Z.div_mod y 100). pose proof (Z.mod_pos_bound y 100).
  rewrite !get_two_two by lia. cbn [mbind option_bind]. by replace (100 * (y / 100) + y mod 100) with y by lia.
Qed.

Lemma Parse_text y m d h mi s `{LT : !LenientTime} :
  0 ≤ y < 10000 → 1 ≤ m ≤ 12 → 1 ≤ d ≤ days_in_month (leap_year y) m → 0 ≤ h < 24 → 0 ≤ mi < 60 → 0 ≤ s < 60 →
  Parse (four y +:+ "-" +:+ two m +:+ "-" +:+ two d +:+ "T" +:+
         two h +:+ ":" +:+ two mi +:+ ":" +:+ two s +:+ "Z") =
  10 ^ 9 * (86400 * days_of y m d + 3600 * h + 60 * mi + s).
Proof.
  intros Hy Hm Hd Hh Hmi Hs.
  assert (days_in_month (leap_year y) m ≤ 31) by (unfold days_in_month; repeat case_match; lia).
  unfold Parse. rewrite parse_utc_text by lia. unfold instant.
  replace (_ && _) with true; [done|]. symmetry. rewrite !andb_true_iff. lia.
Qed.

(** [time.Parse(time.RFC3339, t.Format(time.RFC3339))] is [t] without its nanoseconds. *)
Lemma Parse_Format `{LT : !LenientTime} t : four_digit_year t → Parse (Format t) = whole_second t.
Proof.
  unfold four_digit_year. intros Ht. unfold Format, whole_second. set (s := t / 10 ^ 9).
  assert (Hs : 0 ≤ s < 86400 * days_of_years 9999).
  { pose proof (Z.div_mod t (10 ^ 9)). pose proof (Z.mod_pos_bound t (10 ^ 9)). unfold s. lia. }
  pose proof (Z.div_mod s 86400). pose proof (Z.mod_pos_bound s 86400). set (r := s mod 86400) in *.
  pose proof (civil_days (s / 86400)) as Hc. destruct (civil (s / 86400)) as [[y m] d].
  destruct Hc as (Hy & Hyd & Hm & Hd & Hdays); [apply Z.div_pos; lia|].
  assert (Hy2 : y < 10000).
  { destruct (Z.lt_ge_cases y 10000); [done|]. exfalso.
    assert (days_of_years 9999 ≤ days_of_years (y - 1)); [|lia]. unfold days_of_years.
    pose proof (Z.div_mod (y - 1) 4). pose proof (Z.mod_pos_bound (y - 1) 4).
    pose proof (Z.div_mod (y - 1) 100). pose proof (Z.mod_pos_bound (y - 1) 100).
    pose proof (Z.div_mod (y - 1) 400). pose proof (Z.mod_pos_bound (y - 1) 400).
    change (9999 / 4) with 2499. change (9999 / 100) with 99. change (9999 / 400) with 24. lia. }
  pose proof (Z.div_mod r 3600). pose proof (Z.mod_pos_bound r 3600).
  pose proof (Z.div_mod (r mod 3600) 60). pose proof (Z.mod_pos_bound (r mod 3600) 60).
  replace (r mod 60) with (r mod 3600 mod 60).
  2: { apply Z.mod_unique_pos with (60 * (r / 3600) + r mod 3600 / 60); lia. }
  rewrite Parse_text by lia. rewrite Hdays. lia.
Qed.
