(* ===== verification/ObjectMeta.v ===== *)
(** * Metadata of objects ([resource/metadata.go], and what the objects of [resource/] share)

    The metadata of a Kubernetes object, the annotations the SDK keeps in it, the
    translations from and to [StaticMetadata] and [CommonMetadata] that every
    implementation of [resource.Object] repeats, and the text of JSON strings, which the
    annotations hold.  Strings are valid UTF-8 without U+2028 and U+2029. *)
From S2P Require Import Prelude GoValues GoTime Resource.

#[local] Open Scope string_scope.
#[local] Open Scope list_scope.

(** ** [metav1.TypeMeta] and [metav1.ObjectMeta] *)
Record TypeMeta := mkTypeMeta { tm_Kind : string; tm_APIVersion : string }.

Record OwnerReference := mkOwnerReference {
  or_APIVersion : string;
  or_Kind : string;
  or_Name : string;
  or_UID : string;
  or_Controller : option bool;
  or_BlockOwnerDeletion : option bool;
}.

(** The managed fields are only carried; a nil map or slice is the empty one. *)
Record ObjectMeta := mkObjectMeta {
  om_Name : string;
  om_GenerateName : string;
  om_Namespace : string;
  om_SelfLink : string;
  om_UID : string;
  om_ResourceVersion : string;
  om_Generation : Z;
  om_CreationTimestamp : Z;
  om_DeletionTimestamp : option Z;
  om_DeletionGracePeriodSeconds : option Z;
  om_Labels : gmap string string;
  om_Annotations : gmap string string;
  om_OwnerReferences : list OwnerReference;
  om_Finalizers : list string;
  om_ManagedFields : list string;
}.

Definition zero_TypeMeta : TypeMeta := mkTypeMeta "" "".
Definition zero_ObjectMeta : ObjectMeta := mkObjectMeta "" "" "" "" "" "" 0 0 None None ∅ ∅ [] [] [].

(** [schema.FromAPIVersionAndKind] and [GroupVersionKind.ToAPIVersionAndKind] of
    [k8s.io/apimachinery]: group, version and kind against the API version and the kind. *)
Class GVKText := {
  FromAPIVersionAndKind : string → string → string * string * string;
  ToAPIVersionAndKind : string * string * string → string * string;
  From_To g v k :
    free_of "/" g = true → free_of "/" v = true → v ≠ "" →
    let '(a, k') := ToAPIVersionAndKind (g, v, k) in FromAPIVersionAndKind a k' = (g, v, k);
}.

Section Static.
Context `{GT : !GVKText}.

(** [TypeMeta.GroupVersionKind] and [SetGroupVersionKind] *)
Definition TypeMeta_GroupVersionKind (tm : TypeMeta) : string * string * string :=
  FromAPIVersionAndKind (tm_APIVersion tm) (tm_Kind tm).
Definition TypeMeta_of (gvk : string * string * string) : TypeMeta :=
  let '(a, k) := ToAPIVersionAndKind gvk in mkTypeMeta k a.

(** [GetStaticMetadata] of every implementation, and the two parts of [SetStaticMetadata]. *)
Definition get_static (tm : TypeMeta) (om : ObjectMeta) : StaticMetadata :=
  let '(g, v, k) := TypeMeta_GroupVersionKind tm in mkStaticMetadata g v k (om_Namespace om) (om_Name om).

Definition with_name (name namespace : string) (om : ObjectMeta) : ObjectMeta :=
  mkObjectMeta name (om_GenerateName om) namespace (om_SelfLink om) (om_UID om) (om_ResourceVersion om)
    (om_Generation om) (om_CreationTimestamp om) (om_DeletionTimestamp om)
    (om_DeletionGracePeriodSeconds om) (om_Labels om) (om_Annotations om) (om_OwnerReferences om)
    (om_Finalizers om) (om_ManagedFields om).

(** [SetAnnotations], [SetLabels], [SetFinalizers] and [SetOwnerReferences] of [metav1.ObjectMeta],
    from those of another object. *)
Definition restore_metadata (old om : ObjectMeta) : ObjectMeta :=
  mkObjectMeta (om_Name om) (om_GenerateName om) (om_Namespace om) (om_SelfLink om) (om_UID om)
    (om_ResourceVersion om) (om_Generation om) (om_CreationTimestamp om) (om_DeletionTimestamp om)
    (om_DeletionGracePeriodSeconds om) (om_Labels old) (om_Annotations old) (om_OwnerReferences old)
    (om_Finalizers old) (om_ManagedFields om).

Definition set_static (md : StaticMetadata) (tm : TypeMeta) (om : ObjectMeta) : TypeMeta * ObjectMeta :=
  (TypeMeta_of (sm_Group md, sm_Version md, sm_Kind md), with_name (sm_Name md) (sm_Namespace md) om).
End Static.

(** ** [CommonMetadata] *)
Definition AnnotationUpdateTimestamp : string := "grafana.com/updateTimestamp".
Definition AnnotationCreatedBy : string := "grafana.com/createdBy".
Definition AnnotationUpdatedBy : string := "grafana.com/updatedBy".

Section Common.
Context `{LT : !LenientTime}.

(** [GetCommonMetadata] of every implementation. *)
Definition get_common (om : ObjectMeta) : CommonMetadata :=
  let a := om_Annotations om in
  mkCommonMetadata (om_UID om) (om_ResourceVersion om) (om_Generation om) (om_Labels om)
    (om_CreationTimestamp om) (om_DeletionTimestamp om) (om_Finalizers om)
    (match a !! AnnotationUpdateTimestamp with Some t => Parse t | None => 0%Z end)
    (default "" (a !! AnnotationCreatedBy)) (default "" (a !! AnnotationUpdatedBy)) ∅.

(** [if value != "" { annotations[key] = value }] *)
Definition set_annotation (key value : string) (a : gmap string string) : gmap string string :=
  if String.eqb value "" then a else <[key := value]> a.

Definition common_annotations (md : CommonMetadata) (a : gmap string string) : gmap string string :=
  let a := if (cm_UpdateTimestamp md =? 0)%Z then a
           else <[AnnotationUpdateTimestamp := Format (cm_UpdateTimestamp md)]> a in
  set_annotation AnnotationUpdatedBy (cm_UpdatedBy md) (set_annotation AnnotationCreatedBy (cm_CreatedBy md) a).

(** [SetCommonMetadata] of every implementation. *)
Definition set_common (md : CommonMetadata) (om : ObjectMeta) : ObjectMeta :=
  mkObjectMeta (om_Name om) (om_GenerateName om) (om_Namespace om) (om_SelfLink om)
    (cm_UID md) (cm_ResourceVersion md) (cm_Generation md) (cm_CreationTimestamp md)
    (cm_DeletionTimestamp md) (om_DeletionGracePeriodSeconds om) (cm_Labels md)
    (common_annotations md (om_Annotations om)) (om_OwnerReferences om) (cm_Finalizers md)
    (om_ManagedFields om).

(** ** What is set is read back *)

(** The values that [SetCommonMetadata] leaves as they were: empty ones, and a fraction of a
    second. *)
Definition or_else (v old : string) : string := if String.eqb v "" then old else v.

Definition settled (md old : CommonMetadata) : CommonMetadata :=
  mkCommonMetadata (cm_UID md) (cm_ResourceVersion md) (cm_Generation md) (cm_Labels md)
    (cm_CreationTimestamp md) (cm_DeletionTimestamp md) (cm_Finalizers md)
    (if (cm_UpdateTimestamp md =? 0)%Z then cm_UpdateTimestamp old else whole_second (cm_UpdateTimestamp md))
    (or_else (cm_CreatedBy md) (cm_CreatedBy old)) (or_else (cm_UpdatedBy md) (cm_UpdatedBy old)) ∅.

Lemma lookup_set_annotation key value a k :
  default "" (set_annotation key value a !! k) =
  if String.eqb key k then or_else value (default "" (a !! k)) else default "" (a !! k).
Proof.
  unfold set_annotation, or_else. destruct (String.eqb_spec key k) as [->|Hk];
    destruct (String.eqb_spec value ""); try done; [by rewrite lookup_insert_eq | by rewrite lookup_insert_ne].
Qed.

Lemma set_annotation_other key value a k : key ≠ k → set_annotation key value a !! k = a !! k.
Proof. intros Hk. unfold set_annotation. case_match; [done | by rewrite lookup_insert_ne]. Qed.

Lemma common_annotations_other md a k :
  k ≠ AnnotationUpdateTimestamp → k ≠ AnnotationCreatedBy → k ≠ AnnotationUpdatedBy →
  common_annotations md a !! k = a !! k.
Proof.
  intros. unfold common_annotations. rewrite !set_annotation_other by done.
  case_match; [done | by rewrite lookup_insert_ne].
Qed.

(** What [SetCommonMetadata] is given is what [GetCommonMetadata] then returns, but that a
    blank creator, updater or time of update leaves the one that was there, that the time
    loses its fraction of a second, and that the extra fields are dropped; every other
    annotation is kept. *)
Theorem SetCommonMetadata_round_trip md om :
  four_digit_year (cm_UpdateTimestamp md) →
  get_common (set_common md om) = settled md (get_common om) ∧
  ∀ k, k ≠ AnnotationUpdateTimestamp → k ≠ AnnotationCreatedBy → k ≠ AnnotationUpdatedBy →
    om_Annotations (set_common md om) !! k = om_Annotations om !! k.
Proof.
  intros Ht. split; [|intros; by apply common_annotations_other].
  unfold get_common, set_common, settled. cbn [om_UID om_ResourceVersion om_Generation om_Labels
    om_CreationTimestamp om_DeletionTimestamp om_Finalizers om_Annotations cm_CreatedBy cm_UpdatedBy
    cm_UpdateTimestamp]. f_equal.
  - unfold common_annotations. rewrite !set_annotation_other by done.
    destruct (cm_UpdateTimestamp md =? 0)%Z; [done|]. rewrite lookup_insert_eq. by apply Parse_Format.
  - unfold common_annotations. rewrite !lookup_set_annotation. simpl. case_match; [done|].
    by rewrite lookup_insert_ne.
  - unfold common_annotations. rewrite !lookup_set_annotation. simpl. case_match; [done|].
    by rewrite lookup_insert_ne.
Qed.
End Common.

(** ** The text of JSON strings *)
Definition quote : ascii := "034".
Definition backslash : ascii := "092".

Definition hex_digit (n : N) : ascii := ascii_of_N (if (n <? 10)%N then 48 + n else 87 + n).

(** The characters [encoding/json] writes with an escape. *)
Definition escape_char (c : ascii) : string :=
  let n := N_of_ascii c in
  if (n =? 34)%N || (n =? 92)%N then String backslash (String c "")
  else if (n =? 8)%N then String backslash "b"
  else if (n =? 12)%N then String backslash "f"
  else if (n =? 10)%N then String backslash "n"
  else if (n =? 13)%N then String backslash "r"
  else if (n =? 9)%N then String backslash "t"
  else if (n <? 32)%N || (n =? 60)%N || (n =? 62)%N || (n =? 38)%N then
    String backslash (String "u" (String "0" (String "0" (String (hex_digit (n / 16))
      (String (hex_digit (n mod 16)) "")))))
  else String c "".

Fixpoint escape (s : string) : string :=
  match s with EmptyString => "" | String c s => escape_char c +:+ escape s end.

(** [json.Marshal] of a string. *)
Definition json_string (s : string) : string := String quote (escape s +:+ String quote "").

Definition hex_value (c : ascii) : option N :=
  let n := N_of_ascii c in
  if (48 <=? n)%N && (n <=? 57)%N then Some (n - 48)%N
  else if (97 <=? n)%N && (n <=? 102)%N then Some (n - 87)%N
  else if (65 <=? n)%N && (n <=? 70)%N then Some (n - 55)%N
  else None.

Definition hex4 (a b c d : ascii) : option N :=
  x ← hex_value a; y ← hex_value b; z ← hex_value c; t ← hex_value d;
  Some (4096 * x + 256 * y + 16 * z + t)%N.

(** The UTF-8 bytes of a rune. *)
Definition utf8 (r : N) : string :=
  let b n := ascii_of_N (128 + n mod 64) in
  if (r <? 128)%N then String (ascii_of_N r) ""
  else if (r <? 2048)%N then String (ascii_of_N (192 + r / 64)) (String (b r) "")
  else if (r <? 65536)%N then
    String (ascii_of_N (224 + r / 4096)) (String (b (r / 64)%N) (String (b r) ""))
  else String (ascii_of_N (240 + r / 262144)) (String (b (r / 4096)%N) (String (b (r / 64)%N) (String (b r) ""))).

Definition surrogate (r : N) : bool := (55296 <=? r)%N && (r <? 57344)%N.

(** A hexadecimal escape: its rune, with the second half of a pair, and the text after it. *)
Definition unescape_u (s : string) : option (string * string) :=
  match s with
  | String a (String b (String c (String d s))) =>
      r ← hex4 a b c d;
      if negb (surrogate r) then Some (utf8 r, s)
      else
        let lone := Some (utf8 65533, s) in
        if (56320 <=? r)%N then lone
        else match s with
             | String e (String u (String a (String b (String c (String d s'))))) =>
                 if Ascii.eqb e backslash && Ascii.eqb u "u" then
                   match hex4 a b c d with
                   | Some r2 =>
                       if (56320 <=? r2)%N && (r2 <? 57344)%N
                       then Some (utf8 (65536 + (r - 55296) * 1024 + (r2 - 56320)), s')
                       else lone
                   | None => None
                   end
                 else lone
             | _ => lone
             end
  | _ => None
  end.

Definition unescape_short (c : ascii) : option ascii :=
  let n := N_of_ascii c in
  if (n =? 34)%N || (n =? 92)%N || (n =? 47)%N then Some c
  else if (n =? 98)%N then Some "008"%char
  else if (n =? 102)%N then Some "012"%char
  else if (n =? 110)%N then Some "010"%char
  else if (n =? 114)%N then Some "013"%char
  else if (n =? 116)%N then Some "009"%char
  else None.

(** The string a text begins with, after its opening quote, and what follows the closing one. *)
Fixpoint unescape (fuel : nat) (s : string) : option (string * string) :=
  match fuel, s with
  | S fuel, String c s =>
      if Ascii.eqb c quote then Some ("", s)
      else if (N_of_ascii c <? 32)%N then None
      else if Ascii.eqb c backslash then
        match s with
        | String c s =>
            if Ascii.eqb c "u" then
              '(r, s) ← unescape_u s; '(t, rest) ← unescape fuel s; Some (r +:+ t, rest)
            else
              c ← unescape_short c; '(t, rest) ← unescape fuel s; Some (String c t, rest)
        | EmptyString => None
        end
      else '(t, rest) ← unescape fuel s; Some (String c t, rest)
  | _, _ => None
  end.

(** White space of JSON. *)
Fixpoint json_blank (s : string) : bool :=
  match s with
  | EmptyString => true
  | String c s =>
      let n := N_of_ascii c in ((n =? 32) || (n =? 9) || (n =? 10) || (n =? 13))%N && json_blank s
  end.

(** [json.Unmarshal] of a text that begins with a quote, into a string. *)
Definition parse_json_string (s : string) : option string :=
  match s with
  | String c s =>
      if Ascii.eqb c quote then
        '(t, rest) ← unescape (S (String.length s)) s; if json_blank rest then Some t else None
      else None
  | EmptyString => None
  end.

Lemma unescape_char c fuel s :
  unescape (S fuel) (escape_char c +:+ s) = '(t, rest) ← unescape fuel s; Some (String c t, rest).
Proof. by destruct c as [[] [] [] [] [] [] [] []]. Qed.

Lemma unescape_escape s rest fuel :
  (String.length s < fuel)%nat → unescape fuel (escape s +:+ String quote rest) = Some (s, rest).
Proof.
  revert fuel. induction s as [|c s IH]; intros [|fuel] Hf; simpl in Hf; [lia | done | lia|].
  simpl escape. rewrite <- string_app_assoc, unescape_char, IH by lia. done.
Qed.

Lemma length_escape s : (String.length s ≤ String.length (escape s))%nat.
Proof.
  induction s as [|c s IH]; [done|]. simpl. rewrite length_app_string.
  assert (1 ≤ String.length (escape_char c))%nat; [|lia].
  unfold escape_char. repeat case_match; simpl; lia.
Qed.

(** A string that is written as JSON is read back. *)
Lemma parse_json_escape s : parse_json_string (String quote (escape s +:+ String quote "")) = Some s.
Proof.
  unfold parse_json_string. simpl Ascii.eqb. cbv iota. rewrite unescape_escape; [done|].
  rewrite length_app_string. pose proof (length_escape s). simpl. lia.
Qed.

(** ** Annotations ([metadata.go]) *)
Definition AnnotationPrefix : string := "grafana.com/".
Definition ErrAnnotationMissing : GoError := ErrorString "annotation is not in annotations map".

(** The complement of [annotationForbiddenCharacters], with its range from [A] to [z]. *)
Definition annotation_char (c : ascii) : bool :=
  let n := N_of_ascii c in
  ((97 <=? n) && (n <=? 122) || (65 <=? n) && (n <=? 122) || (48 <=? n) && (n <=? 57) ||
   (n =? 45) || (n =? 95) || (n =? 46))%N.

Fixpoint SanitizeAnnotationFieldName (field : string) : string :=
  match field with
  | EmptyString => ""
  | String c field =>
      let s := SanitizeAnnotationFieldName field in if annotation_char c then String c s else s
  end.

Definition GetGrafanaAnnotationField (field : string) : string :=
  AnnotationPrefix +:+ SanitizeAnnotationFieldName field.

(** The type of an annotation: its JSON text, its zero value, the reading of a text, and
    whether it is a string or a [time.Time]. *)
Class AnnotationType (T : Type) := {
  at_marshal : T → string + GoError;
  at_zero : T;
  at_unmarshal : string → T * option GoError;
  at_string : bool;
}.

(** [WriteGrafanaAnnotation]; nil is no value. *)
Definition WriteGrafanaAnnotation {T} `{AT : !AnnotationType T} (annotations : gmap string string)
    (field : string) (value : option T) : gmap string string * option GoError :=
  match value with
  | None => (base.delete (GetGrafanaAnnotationField field) annotations, None)
  | Some value =>
      match at_marshal value with
      | inr err => (annotations, Some err)
      | inl marshaled => (<[GetGrafanaAnnotationField field := Trim marshaled quote]> annotations, None)
      end
  end.

(** [ReadGrafanaAnnotation] *)
Definition ReadGrafanaAnnotation {T} `{AT : !AnnotationType T} (annotations : gmap string string)
    (field : string) : T * option GoError :=
  match annotations !! GetGrafanaAnnotationField field with
  | None => (at_zero, Some ErrAnnotationMissing)
  | Some val =>
      at_unmarshal (if at_string (T:=T) then String quote (val +:+ String quote "") else val)
  end.

(** The type [string]; the error of a text that is not a JSON string is not looked at. *)
#[export] Instance string_annotation : AnnotationType string := {
  at_marshal s := inl (json_string s);
  at_zero := "";
  at_unmarshal t :=
    match parse_json_string t with
    | Some s => (s, None)
    | None => ("", Some (ErrorString "invalid character"))
    end;
  at_string := true;
}.

Fixpoint ends_in_quote (s : string) : bool :=
  match s with
  | EmptyString => false
  | String c EmptyString => Ascii.eqb c quote
  | String _ s => ends_in_quote s
  end.

Lemma TrimRight_app_char s c : TrimRight (s +:+ String c "") c = TrimRight s c.
Proof.
  induction s as [|c' s IH]; [simpl; by rewrite Ascii.eqb_refl|].
  change (String c' s +:+ String c "") with (String c' (s +:+ String c "")). simpl. by rewrite IH.
Qed.

(** Text that ends in another character is not trimmed. *)
Lemma TrimRight_stop s c c' : c ≠ c' → TrimRight (s +:+ String c' "") c = s +:+ String c' "".
Proof.
  intros Hc. induction s as [|c0 s IH]; [simpl; by destruct (Ascii.eqb_spec c c')|].
  change (String c0 s +:+ String c' "") with (String c0 (s +:+ String c' "")). simpl. rewrite IH.
  by destruct s.
Qed.

Lemma escape_app s t : escape (s +:+ t) = escape s +:+ escape t.
Proof.
  induction s as [|c s IH]; [done|]. change (String c s +:+ t) with (String c (s +:+ t)). simpl.
  by rewrite IH, string_app_assoc.
Qed.

(** The last character of an escaped character is a quote only for the quote. *)
Lemma escape_char_last c : c ≠ quote → ∃ s c', escape_char c = s +:+ String c' "" ∧ c' ≠ quote.
Proof.
  intros Hc. unfold escape_char.
  destruct ((N_of_ascii c =? 34)%N || (N_of_ascii c =? 92)%N); [by exists (String backslash ""), c|].
  repeat (case_match; [by eexists (String backslash ""), _|]).
  case_match; [|by exists "", c].
  eexists (String backslash (String "u" (String "0" (String "0" (String (hex_digit (N_of_ascii c / 16)) ""))))), _.
  split; [reflexivity|]. intros E. apply (f_equal N_of_ascii) in E. unfold hex_digit in E.
  assert (N_of_ascii c mod 16 < 16)%N as Hm by by apply N.mod_upper_bound.
  revert E Hm. generalize (N_of_ascii c mod 16)%N. intros n E Hm.
  rewrite N_ascii_embedding in E by (destruct (N.ltb_spec n 10); lia).
  change (N_of_ascii quote) with 34%N in E. destruct (N.ltb_spec n 10); lia.
Qed.

Lemma string_last s : s = "" ∨ ∃ t c, s = t +:+ String c "".
Proof.
  induction s as [|c s [-> | (t & c' & ->)]]; [by left | right; by exists "", c | right].
  by exists (String c t), c'.
Qed.

Lemma ends_in_quote_app t c : ends_in_quote (t +:+ String c "") = Ascii.eqb c quote.
Proof.
  induction t as [|c' t IH]; [done|]. change (String c' t +:+ String c "") with (String c' (t +:+ String c "")).
  rewrite <- IH. by destruct t.
Qed.

Lemma escape_char_first c : ∃ c' t, escape_char c = String c' t ∧ c' ≠ quote.
Proof.
  unfold escape_char.
  destruct ((N_of_ascii c =? 34)%N || (N_of_ascii c =? 92)%N) eqn:E1; [by eexists _, _|].
  repeat (case_match; [by eexists _, _|]). eexists _, _. split; [done|]. by intros ->.
Qed.

Lemma TrimLeft_escape s u : s ≠ "" → TrimLeft (escape s +:+ u) quote = escape s +:+ u.
Proof.
  destruct s as [|c s]; [done|]. intros _. simpl escape. destruct (escape_char_first c) as (c' & t & -> & Hc).
  cbv [String.append]. fold String.append. cbn [TrimLeft].
  by rewrite (proj2 (Ascii.eqb_neq quote c') (not_eq_sym Hc)).
Qed.

(** What is kept of a string: its escaped text, without the last quote. *)
Lemma Trim_json_string s :
  Trim (json_string s) quote =
  if ends_in_quote s then TrimRight (escape s) quote else escape s.
Proof.
  unfold Trim, json_string. cbn [TrimLeft]. change (Ascii.eqb quote quote) with true. cbv iota.
  destruct (string_last s) as [-> | (t & c & ->)]; [done|].
  rewrite TrimLeft_escape by (intros E; by destruct t). rewrite TrimRight_app_char, ends_in_quote_app.
  destruct (Ascii.eqb_spec c quote) as [->|Hc]; [done|]. rewrite escape_app. simpl escape.
  destruct (escape_char_last c Hc) as (u & c' & -> & Hc'). rewrite string_app_nil_r, string_app_assoc.
  by apply TrimRight_stop.
Qed.

Lemma Trim_json_quote t :
  TrimRight (escape (t +:+ String quote "")) quote = escape t +:+ String backslash "".
Proof.
  rewrite escape_app. change (escape (String quote "")) with (String backslash "" +:+ String quote "").
  rewrite string_app_assoc, TrimRight_app_char. by apply TrimRight_stop.
Qed.

Lemma unescape_cut t fuel : unescape fuel (escape t +:+ String backslash (String quote "")) = None.
Proof.
  revert fuel. induction t as [|c t IH]; intros [|fuel]; [done | by destruct fuel| done|].
  simpl escape. by rewrite <- string_app_assoc, unescape_char, IH.
Qed.

(** What [WriteGrafanaAnnotation] writes for a string, [ReadGrafanaAnnotation] reads back,
    but for the strings that end in a quote: the quote is trimmed with those of the JSON
    text, and the reading fails.  Nil removes the annotation. *)
Theorem annotation_round_trip (annotations : gmap string string) (field s : string) :
  ReadGrafanaAnnotation (T:=string) (WriteGrafanaAnnotation annotations field (Some s)).1 field =
    (if ends_in_quote s then ("", Some (ErrorString "invalid character")) else (s, None)) ∧
  ReadGrafanaAnnotation (T:=string) (WriteGrafanaAnnotation (T:=string) annotations field None).1 field =
    ("", Some ErrAnnotationMissing).
Proof.
  unfold ReadGrafanaAnnotation, WriteGrafanaAnnotation. cbn [at_marshal string_annotation fst at_string].
  rewrite lookup_insert_eq, lookup_delete_eq. split; [|done]. rewrite Trim_json_string.
  cbn [at_unmarshal string_annotation]. destruct (ends_in_quote s) eqn:E.
  - destruct (string_last s) as [-> | (t & c & ->)]; [done|]. rewrite ends_in_quote_app in E.
    apply Ascii.eqb_eq in E as ->. rewrite Trim_json_quote, <- string_app_assoc. unfold parse_json_string.
    simpl Ascii.eqb. cbv iota. change (String backslash "" +:+ String quote "") with (String backslash (String quote "")).
    by rewrite unescape_cut.
  - by rewrite parse_json_escape.
Qed.

(** The characters that are kept include those between [Z] and [a]. *)
Lemma sanitize_keeps_brackets :
  SanitizeAnnotationFieldName "a[b\c]^d`e f/g" = "a[b\c]^d`ef" +:+ "g".
Proof. reflexivity. Qed.

(** ** Instances for the witnesses *)
#[export] Instance TestLenientTime : LenientTime := { lenient _ := None }.

(** The update at 2024-02-29T12:30:15.5Z, by an editor. *)
Definition test_common : CommonMetadata :=
  mkCommonMetadata "u" "7" 3 ∅ 0 None [] ((days_of 2024 2 29 * 86400 + 45015) * 10 ^ 9 + 500000000)%Z "" "ann" ∅.
Definition test_meta : ObjectMeta :=
  set_common (mkCommonMetadata "u" "6" 2 ∅ 0 None [] 0 "bob" "bob" ∅) zero_ObjectMeta.

Lemma SetCommonMetadata_round_trip_witness :
  get_common (set_common test_common test_meta) = settled test_common (get_common test_meta) ∧
  om_Annotations (set_common test_common test_meta) !! AnnotationUpdateTimestamp = Some "2024-02-29T12:30:15Z" ∧
  cm_CreatedBy (get_common (set_common test_common test_meta)) = "bob".
Proof.
  split; [|split; vm_compute; reflexivity].
  apply (SetCommonMetadata_round_trip test_common test_meta). split; vm_compute; [discriminate | reflexivity].
Defined.
