(* ===== verification/Objects.v ===== *)
(** * What implementations of [resource.Object] share ([resource/])

    Documents of JSON, by their trees, and how Go values are written to and read from them;
    values of type [any], of a type [V] with assertions ([AnyOf]); the interface of an object
    ([ResourceObject]) with the laws the implementations discharge ([ResourceObjectLaws]).  A
    pointer receiver is a function that returns the changed object. *)
From S2P Require Import Prelude GoValues GoTime Resource ObjectMeta.

#[local] Open Scope string_scope.
#[local] Open Scope list_scope.

Abbreviation Doc := (any Empty_set).

(** ** [encoding/json], by the Go type *)

(** The zero value, [json.Marshal], and [json.Unmarshal] of a document into a value. *)
Class JSONType (T : Type) := {
  zero_value : T;
  marshal : T → Doc + GoError;
  unmarshal : Doc → T → T * option GoError;
}.

(** The errors of [encoding/json]: no text, a value of the wrong type, a raw message that is
    not JSON. *)
Class JSONErrors := { end_of_input : GoError; wrong_type : string → GoError; bad_raw : GoError }.

(** A value that survives being written and read. *)
Definition faithful_json `{JT : !JSONType T} (v : T) : Prop :=
  ∃ d, marshal v = inl d ∧ unmarshal d zero_value = (v, None).

(** A [json.RawMessage]: nil, a text that is not JSON, or a document. *)
Inductive RawMessage := RawNil | RawInvalid | Raw (d : Doc).

Section JSON.
Context `{JE : !JSONErrors}.

#[export] Instance json_of_string : JSONType string := {
  zero_value := "";
  marshal s := inl (AString s);
  unmarshal d s :=
    match d with AString s' => (s', None) | ANil => (s, None) | _ => (s, Some (wrong_type "string")) end;
}.

(** [map[string]any]: null makes it nil, an object adds its entries. *)
#[export] Instance json_of_map : JSONType (nmap Doc) := {
  zero_value := None;
  marshal m := inl (match m with Some m => AMap m | None => ANil end);
  unmarshal d m :=
    match d with
    | AMap m' => (Some (m' ∪ items m), None)
    | ANil => (None, None)
    | _ => (m, Some (wrong_type "map[string]interface {}"))
    end;
}.

(** [json.Unmarshal] of the raw message a map has for a key. *)
Definition unmarshal_entry `{JT : !JSONType T} (d : option Doc) (v : T) : T * option GoError :=
  match d with Some d => unmarshal d v | None => (v, Some end_of_input) end.

(** [json.Unmarshal] of an object into a [map[string]json.RawMessage]. *)
Definition unmarshal_object (d : Doc) : gmap string Doc + GoError :=
  match d with
  | AMap m => inl m
  | ANil => inl ∅
  | _ => inr (wrong_type "map[string]json.RawMessage")
  end.

Definition marshal_raw (r : RawMessage) : Doc + GoError :=
  match r with RawNil => inl ANil | RawInvalid => inr bad_raw | Raw d => inl d end.

(** [json.Marshal] of a [map[string]any]: the keys are sorted, and the first error is
    returned. *)
Definition sorted_entries {A} (m : gmap string A) : list (string * A) :=
  omap (λ k, v ← m !! k; Some (k, v)) (merge_sort String.le (base.elements (dom m))).

Definition is_inl {A B} (x : A + B) : option A := match x with inl a => Some a | inr _ => None end.
Definition is_inr {A B} (x : A + B) : option B := match x with inl _ => None | inr b => Some b end.

Definition marshal_map (m : gmap string (Doc + GoError)) : Doc + GoError :=
  match omap (λ e, is_inr (snd e)) (sorted_entries m) with
  | err :: _ => inr err
  | [] => inl (AMap (omap is_inl m))
  end.

(** ** The fields the objects share *)

(** [json.Unmarshal] of the API version, the kind and the metadata. *)
Definition read_meta `{MJ : !JSONType ObjectMeta} (m : gmap string Doc) (tm : TypeMeta) (om : ObjectMeta)
  : TypeMeta * ObjectMeta * option GoError :=
  let '(a, err) := unmarshal_entry (m !! "apiVersion") (tm_APIVersion tm) in
  let tm := mkTypeMeta (tm_Kind tm) a in
  match err with
  | Some e => (tm, om, Some (WrapError "error reading apiVersion: " e))
  | None =>
      let '(k, err) := unmarshal_entry (m !! "kind") (tm_Kind tm) in
      let tm := mkTypeMeta k a in
      match err with
      | Some e => (tm, om, Some (WrapError "error reading kind: " e))
      | None =>
          let '(om, err) := unmarshal_entry (m !! "metadata") om in
          (tm, om, (λ e, WrapError "error reading metadata: " e) <$> err)
      end
  end.

(** The entries every [MarshalJSON] begins with. *)
Definition meta_entries `{MJ : !JSONType ObjectMeta} (tm : TypeMeta) (om : ObjectMeta) (spec : Doc + GoError)
  : gmap string (Doc + GoError) :=
  <["spec" := spec]> (<["metadata" := marshal om]>
    (<["apiVersion" := marshal (tm_APIVersion tm)]> {[ "kind" := marshal (tm_Kind tm) ]})).
End JSON.

(** Values of type [any] that hold a [T]: the conversion and the type assertion. *)
Class AnyOf (V T : Type) := {
  to_any : T → V;
  as_any : V → option T;
  as_to_any t : as_any (to_any t) = Some t;
  to_as_any v t : as_any v = Some t → v = to_any t;
}.

(** A [[]byte], by the document it is the text of. *)
Record Bytes := mkBytes { bytes_raw : RawMessage }.

(** ** What the rest of the SDK relies on of a [resource.Object]

    The methods the API server's strategies call; reflection can panic. *)
Class ResourceObject (O V : Type) := {
  ro_TypeMeta : O → TypeMeta;
  ro_ObjectMeta : O → ObjectMeta;
  ro_SetObjectMeta : ObjectMeta → O → O;
  ro_GetSpec : O → V;
  ro_SetSpec : V → O → O * option GoError;
  ro_GetSubresources : O → called (nmap V);
  ro_GetSubresource : string → O → called (option V);
  ro_SetSubresource : string → V → O → called (O * option GoError);
}.

(** Objects of one Go type ([same]) can be given each other's specs and subresources, and
    each setter changes what it names only. *)
Class ResourceObjectLaws (O V : Type) `{RO : !ResourceObject O V} (same : O → O → Prop) := {
  same_refl_l o o' : same o o' → same o o;
  same_refl_r o o' : same o o' → same o' o';
  meta_set om o : ro_ObjectMeta (ro_SetObjectMeta om o) = om;
  meta_spec om o : ro_GetSpec (ro_SetObjectMeta om o) = ro_GetSpec o;
  meta_sub om o k : ro_GetSubresource k (ro_SetObjectMeta om o) = ro_GetSubresource k o;
  meta_same om o o' : same o o' → same (ro_SetObjectMeta om o) o';
  spec_set o o' : same o o' → ∃ o1, ro_SetSpec (ro_GetSpec o') o = (o1, None) ∧
    ro_GetSpec o1 = ro_GetSpec o' ∧ ro_ObjectMeta o1 = ro_ObjectMeta o ∧ same o1 o' ∧
    ∀ k, ro_GetSubresource k o1 = ro_GetSubresource k o;
  sub_get o k : same o o → ∃ r, ro_GetSubresource k o = Returned r;
  sub_set o o' k v : same o o' → ro_GetSubresource k o' = Returned (Some v) →
    ∃ o1, ro_SetSubresource k v o = Returned (o1, None) ∧ ro_GetSubresource k o1 = Returned (Some v) ∧
      ro_GetSpec o1 = ro_GetSpec o ∧ ro_ObjectMeta o1 = ro_ObjectMeta o ∧ same o1 o' ∧
      ∀ k', k' ≠ k → ro_GetSubresource k' o1 = ro_GetSubresource k' o;
  subs_get o : same o o → ∃ m, ro_GetSubresources o = Returned m ∧
    ∀ k, ro_GetSubresource k o = Returned (items m !! k);
}.

(** The spec (or status) of a [Copy]: written as JSON and read into a zero value. *)
Definition copy_json `{JT : !JSONType T} (v : T) : T :=
  match marshal v with inl d => (unmarshal d zero_value).1 | inr _ => zero_value end.

Lemma copy_json_faithful `{JT : !JSONType T} (v : T) : faithful_json v → copy_json v = v.
Proof. intros (d & H1 & H2). unfold copy_json. by rewrite H1, H2. Qed.

(** ** Objects that are wrapped *)

(** [WrappedObjectType], and [unstructured.Unstructured], by their metadata. *)
Class KubeObject (T : Type) := {
  ko_TypeMeta : T → TypeMeta;
  ko_ObjectMeta : T → ObjectMeta;
  ko_set : TypeMeta → ObjectMeta → T → T;
}.

(** ** Instances for the witnesses *)

(** Values of type [any]: nil, a string, a map, a raw message, or bytes. *)
Inductive TestAny :=
| TNil | TString (s : string) | TMap (m : nmap Doc) | TRaw (r : RawMessage) | TBytes (b : Bytes).

#[export] Instance TestAny_string : AnyOf TestAny string.
Proof.
  refine {| to_any := TString; as_any v := match v with TString s => Some s | _ => None end |};
    [done | by intros [] t ?; simplify_eq/=].
Defined.
#[export] Instance TestAny_map : AnyOf TestAny (nmap Doc).
Proof.
  refine {| to_any := TMap; as_any v := match v with TMap s => Some s | _ => None end |};
    [done | by intros [] t ?; simplify_eq/=].
Defined.
#[export] Instance TestAny_raw : AnyOf TestAny RawMessage.
Proof.
  refine {| to_any := TRaw; as_any v := match v with TRaw s => Some s | _ => None end |};
    [done | by intros [] t ?; simplify_eq/=].
Defined.
#[export] Instance TestAny_bytes : AnyOf TestAny Bytes.
Proof.
  refine {| to_any := TBytes; as_any v := match v with TBytes s => Some s | _ => None end |};
    [done | by intros [] t ?; simplify_eq/=].
Defined.

Definition test_marshal_any (v : TestAny) : Doc + GoError :=
  match v with
  | TNil => inl ANil
  | TString s => inl (AString s)
  | TMap m => inl (match m with Some m => AMap m | None => ANil end)
  | TRaw r | TBytes (mkBytes r) => match r with Raw d => inl d | _ => inl ANil end
  end.
Definition test_type_of (v : TestAny) : option string :=
  match v with
  | TNil => None | TString _ => Some "string" | TMap _ => Some "map[string]interface {}"
  | TRaw _ => Some "json.RawMessage" | TBytes _ => Some "[]uint8"
  end.

#[export] Instance TestJSONErrors : JSONErrors := {
  end_of_input := ErrorString "unexpected end of JSON input";
  wrong_type ty := ErrorString ("json: cannot unmarshal into Go value of type " +:+ ty);
  bad_raw := ErrorString "json: error calling MarshalJSON for type json.RawMessage";
}.

(** Metadata by its name, as far as the tests go. *)
#[export] Instance TestMetaJSON : JSONType ObjectMeta := {
  zero_value := zero_ObjectMeta;
  marshal om := inl (AMap {[ "name" := AString (om_Name om) ]});
  unmarshal d om :=
    match d with
    | AMap m =>
        match m !! "name" with
        | Some (AString n) => (with_name n (om_Namespace om) om, None)
        | _ => (om, None)
        end
    | _ => (om, Some (wrong_type "v1.ObjectMeta"))
    end;
}.

Definition named_meta (name : string) : ObjectMeta := with_name name "" zero_ObjectMeta.

