(* ===== verification/UntypedObject.v ===== *)
(** * [UntypedObject] ([resource/untypedobject.go])

    A generic object: a spec of decoded JSON and subresources as raw messages.  Its JSON, with
    the round trip, its accessors, metadata and copies. *)
From S2P Require Import Prelude GoValues GoTime Resource ObjectMeta Objects.

#[local] Open Scope string_scope.
#[local] Open Scope list_scope.

Record UntypedObject := mkUntypedObject {
  u_TypeMeta : TypeMeta;
  u_ObjectMeta : ObjectMeta;
  u_Spec : nmap Doc;
  u_Subresources : nmap RawMessage;
}.

Definition zero_untyped `{MJ : !JSONType ObjectMeta} : UntypedObject :=
  mkUntypedObject zero_TypeMeta zero_value None None.

Definition with_spec (s : nmap Doc) (u : UntypedObject) : UntypedObject :=
  mkUntypedObject (u_TypeMeta u) (u_ObjectMeta u) s (u_Subresources u).
Definition put_subresource (key : string) (r : RawMessage) (u : UntypedObject) : UntypedObject :=
  mkUntypedObject (u_TypeMeta u) (u_ObjectMeta u) (u_Spec u) (Some (<[key := r]> (items (u_Subresources u)))).

Section Ops.
Context {V : Type} `{AS : !AnyOf V (nmap Doc), AR : !AnyOf V RawMessage, AB : !AnyOf V Bytes}.
Context `{JE : !JSONErrors, RO : !RangeOrder, MJ : !JSONType ObjectMeta}.

(** [json.Marshal] of a value of type [any]. *)
Context (marshal_any : V → Doc + GoError).

Definition GetSpec (u : UntypedObject) : V := to_any (u_Spec u).

Definition SetSpec (spec : V) (u : UntypedObject) : UntypedObject * option GoError :=
  match as_any spec with
  | Some cast => (with_spec cast u, None)
  | None => (u, Some (ErrorString "spec must be of type map[string]any"))
  end.

Definition GetSubresources (u : UntypedObject) : gmap string V := to_any <$> items (u_Subresources u).

Definition GetSubresource (key : string) (u : UntypedObject) : option V :=
  to_any <$> items (u_Subresources u) !! key.

Definition SetSubresource (key : string) (val : V) (u : UntypedObject) : UntypedObject * option GoError :=
  match as_any (T:=RawMessage) val with
  | Some cast => (put_subresource key cast u, None)
  | None =>
      match as_any (T:=Bytes) val with
      | Some check => (put_subresource key (bytes_raw check) u, None)
      | None =>
          match marshal_any val with
          | inr err => (u, Some err)
          | inl cast => (put_subresource key (Raw cast) u, None)
          end
      end
  end.

Definition is_meta_key (k : string) : bool :=
  String.eqb k "apiVersion" || String.eqb k "kind" || String.eqb k "metadata".

(** The loop of [UnmarshalJSON]. *)
Fixpoint read_entries (l : list (string * Doc)) (u : UntypedObject) : UntypedObject * option GoError :=
  match l with
  | [] => (u, None)
  | (k, v) :: l =>
      if is_meta_key k then read_entries l u
      else if String.eqb k "spec" then
        let '(s, err) := unmarshal v (Some ∅) in
        match err with
        | Some err => (with_spec s u, Some err)
        | None => read_entries l (with_spec s u)
        end
      else read_entries l (put_subresource k (Raw v) u)
  end.

Definition UnmarshalJSON (data : Doc) (u : UntypedObject) : UntypedObject * option GoError :=
  match unmarshal_object data with
  | inr err => (u, Some err)
  | inl m =>
      let '(tm, om, err) := read_meta m (u_TypeMeta u) (u_ObjectMeta u) in
      let u := mkUntypedObject tm om (u_Spec u) (u_Subresources u) in
      match err with
      | Some err => (u, Some err)
      | None => read_entries (range_map m) u
      end
  end.

(** The map [MarshalJSON] fills: the fields, and the subresources over them. *)
Definition wire (u : UntypedObject) : gmap string (Doc + GoError) :=
  (marshal_raw <$> items (u_Subresources u)) ∪
  meta_entries (u_TypeMeta u) (u_ObjectMeta u) (marshal (u_Spec u)).

Definition MarshalJSON (u : UntypedObject) : Doc + GoError := marshal_map (wire u).

Section Metadata.
Context `{GT : !GVKText, LT : !LenientTime}.
Definition GetStaticMetadata (u : UntypedObject) : StaticMetadata := get_static (u_TypeMeta u) (u_ObjectMeta u).
Definition SetStaticMetadata (md : StaticMetadata) (u : UntypedObject) : UntypedObject :=
  let '(tm, om) := set_static md (u_TypeMeta u) (u_ObjectMeta u) in
  mkUntypedObject tm om (u_Spec u) (u_Subresources u).
Definition GetCommonMetadata (u : UntypedObject) : CommonMetadata := get_common (u_ObjectMeta u).
Definition SetCommonMetadata (md : CommonMetadata) (u : UntypedObject) : UntypedObject :=
  mkUntypedObject (u_TypeMeta u) (set_common md (u_ObjectMeta u)) (u_Spec u) (u_Subresources u).
End Metadata.

(** A copy of the bytes of a message: of a nil one, an empty one, which is not JSON. *)
Definition copy_raw (r : RawMessage) : RawMessage := match r with RawNil => RawInvalid | _ => r end.

(** [Copy]: the spec goes through JSON unless it is empty, the messages are copied. *)
Definition Copy (u : UntypedObject) : UntypedObject :=
  let spec :=
    if nonempty_map (u_Spec u) then
      match marshal (u_Spec u) with
      | inl d => (unmarshal d (Some ∅)).1
      | inr _ => Some ∅
      end
    else Some ∅ in
  mkUntypedObject (u_TypeMeta u) (u_ObjectMeta u) spec (Some (copy_raw <$> items (u_Subresources u))).
End Ops.

(** *** Properties *)
Definition reserved (k : string) : bool := is_meta_key k || String.eqb k "spec".

(** The subresources a [MarshalJSON] does not mix up with the fields, in messages that are
    documents. *)
Definition wire_safe (u : UntypedObject) : Prop :=
  map_Forall (λ k r, reserved k = false ∧ ∃ d, r = Raw d) (items (u_Subresources u)).

Lemma omap_nil {A B} (f : A → option B) l : (∀ x, x ∈ l → f x = None) → omap f l = [].
Proof.
  induction l as [|x l IH]; [done|]. intros H. simpl. rewrite (H x) by left. apply IH. intros. apply H. by right.
Qed.

Lemma elem_of_sorted_entries {A} (m : gmap string A) k x : (k, x) ∈ sorted_entries m → m !! k = Some x.
Proof. unfold sorted_entries. intros (k' & H & Hk)%list_elem_of_omap. by destruct (m !! k') eqn:E; simplify_eq/=. Qed.

Lemma marshal_map_inl (m : gmap string (Doc + GoError)) :
  map_Forall (λ _ x, ∃ d, x = inl d) m → marshal_map m = inl (AMap (omap is_inl m)).
Proof.
  intros H. unfold marshal_map. rewrite omap_nil; [done|].
  intros [k x] Hk%elem_of_sorted_entries. by destruct (H k x Hk) as [d ->].
Qed.

Section Laws.
Context {V : Type} `{AS : !AnyOf V (nmap Doc), AR : !AnyOf V RawMessage, AB : !AnyOf V Bytes}.
Context `{JE : !JSONErrors, RO : !RangeOrder, MJ : !JSONType ObjectMeta}.

(** What the loop of [UnmarshalJSON] leaves, whatever the order, when the spec is read. *)
Lemma read_entries_spec l u s :
  NoDup l.*1 → (∀ d, ("spec", d) ∈ l → unmarshal d (Some ∅) = (s, None)) →
  ∃ u', read_entries l u = (u', None) ∧ u_TypeMeta u' = u_TypeMeta u ∧ u_ObjectMeta u' = u_ObjectMeta u ∧
    u_Spec u' = (if bool_decide ("spec" ∈ l.*1) then s else u_Spec u) ∧
    ∀ k, items (u_Subresources u') !! k =
      match list_to_map (M:=gmap string Doc) l !! k with
      | Some d => if reserved k then items (u_Subresources u) !! k else Some (Raw d)
      | None => items (u_Subresources u) !! k
      end.
Proof.
  revert u. induction l as [|[k v] l IH]; intros u Hnd Hs; [by exists u|].
  apply NoDup_cons in Hnd as [Hk Hnd].
  assert (Hs' : ∀ d, ("spec", d) ∈ l → unmarshal d (Some ∅) = (s, None)) by (intros; apply Hs; by right).
  assert (Hout : list_to_map (M:=gmap string Doc) l !! k = None) by by apply not_elem_of_list_to_map.
  assert (Hb : k ≠ "spec" → bool_decide ("spec" ∈ ((k, v) :: l).*1) = bool_decide ("spec" ∈ l.*1))
    by (intros Hne; apply bool_decide_ext; csimpl; rewrite elem_of_cons; naive_solver).
  cbn [read_entries list_to_map foldr curry fst snd].
  destruct (is_meta_key k) eqn:Em.
  - destruct (IH u Hnd Hs') as (u' & E & ? & ? & Hspec & Hsub). exists u'. split_and!; try done.
    + rewrite Hspec, Hb; [done|]. by intros ->.
    + intros k'. rewrite Hsub. destruct (decide (k' = k)) as [->|]; [|by rewrite lookup_insert_ne].
      rewrite lookup_insert_eq, Hout. unfold reserved. by rewrite Em.
  - destruct (String.eqb_spec k "spec") as [->|Hne].
    + rewrite (Hs v) by left. destruct (IH (with_spec s u) Hnd Hs') as (u' & E & ? & ? & Hspec & Hsub).
      exists u'. split_and!; try done.
      * rewrite Hspec. rewrite (bool_decide_eq_false_2 _ Hk), bool_decide_eq_true_2; [done|]. csimpl. by left.
      * intros k'. rewrite Hsub. destruct (decide (k' = "spec")) as [->|]; [|by rewrite lookup_insert_ne].
        by rewrite lookup_insert_eq, Hout.
    + destruct (IH (put_subresource k (Raw v) u) Hnd Hs') as (u' & E & ? & ? & Hspec & Hsub).
      exists u'. split_and!; try done.
      * by rewrite Hspec, Hb.
      * intros k'. rewrite Hsub.
        change (items (u_Subresources (put_subresource k (Raw v) u))) with (<[k := Raw v]> (items (u_Subresources u))).
        destruct (decide (k' = k)) as [->|]; [|by rewrite !lookup_insert_ne].
        rewrite !lookup_insert_eq, Hout. unfold reserved. rewrite Em. simpl.
        by rewrite (proj2 (String.eqb_neq _ _) Hne).
Qed.

Definition spec_doc (u : UntypedObject) : Doc := match u_Spec u with Some m => AMap m | None => ANil end.

Lemma reserved_not_subresource u k : wire_safe u → reserved k = true → items (u_Subresources u) !! k = None.
Proof.
  intros Hw Hk. destruct (items (u_Subresources u) !! k) as [r|] eqn:E; [|done]. destruct (Hw k r E). congruence.
Qed.

Lemma wire_lookup u dm k : wire_safe u → marshal (u_ObjectMeta u) = inl dm →
  omap is_inl (wire u) !! k =
    if String.eqb k "spec" then Some (spec_doc u) else if String.eqb k "metadata" then Some dm
    else if String.eqb k "apiVersion" then Some (AString (tm_APIVersion (u_TypeMeta u)))
    else if String.eqb k "kind" then Some (AString (tm_Kind (u_TypeMeta u)))
    else match items (u_Subresources u) !! k with Some (Raw d) => Some d | _ => None end.
Proof.
  intros Hw Hdm. pose proof (λ k, reserved_not_subresource u k Hw) as Hsub.
  rewrite lookup_omap. unfold wire, meta_entries. rewrite lookup_union, lookup_fmap, Hdm.
  destruct (String.eqb_spec k "spec") as [->|H1]; [by rewrite (Hsub "spec")|].
  destruct (String.eqb_spec k "metadata") as [->|H2]; [by rewrite (Hsub "metadata")|].
  destruct (String.eqb_spec k "apiVersion") as [->|H3]; [by rewrite (Hsub "apiVersion")|].
  destruct (String.eqb_spec k "kind") as [->|H4]; [by rewrite (Hsub "kind")|].
  rewrite !lookup_insert_ne, lookup_singleton_ne by done.
  destruct (items (u_Subresources u) !! k) as [r|] eqn:E; [|done]. by destruct (Hw k r E) as (_ & d & ->).
Qed.

Lemma MarshalJSON_wire u dm : wire_safe u → marshal (u_ObjectMeta u) = inl dm →
  MarshalJSON u = inl (AMap (omap is_inl (wire u))).
Proof.
  intros Hw Hdm. apply marshal_map_inl. intros k x. unfold wire, meta_entries. rewrite Hdm.
  intros [Hk | [_ Hk]]%lookup_union_Some_raw.
  - rewrite lookup_fmap in Hk. destruct (items (u_Subresources u) !! k) as [r|] eqn:E; [|done].
    destruct (Hw k r E) as (_ & d & ->). injection Hk as <-. by exists d.
  - repeat (apply lookup_insert_Some in Hk as [[_ <-]|[_ Hk]]; [by eexists|]).
    apply lookup_singleton_Some in Hk as [_ <-]. by eexists.
Qed.

(** C10: An object that is marshalled and read again is the same object: its types, metadata,
    spec and every subresource, as long as no subresource has the name of a field, their
    messages are JSON, and the metadata survives the trip. *)
Theorem UntypedObject_round_trip (u : UntypedObject) :
  wire_safe u → faithful_json (u_ObjectMeta u) →
  ∃ d u', MarshalJSON u = inl d ∧ UnmarshalJSON d zero_untyped = (u', None) ∧
    u_TypeMeta u' = u_TypeMeta u ∧ u_ObjectMeta u' = u_ObjectMeta u ∧ u_Spec u' = u_Spec u ∧
    items (u_Subresources u') = items (u_Subresources u).
Proof.
  intros Hw (dm & Hdm & Hum). pose proof (λ k, wire_lookup u dm k Hw Hdm) as Hf.
  exists (AMap (omap is_inl (wire u))). rewrite (MarshalJSON_wire u dm Hw Hdm).
  unfold UnmarshalJSON. cbn [unmarshal_object]. unfold read_meta. rewrite !Hf.
  cbn -[read_entries range_map wire]. rewrite Hum. cbn -[read_entries range_map wire].
  destruct (read_entries_spec (range_map (omap is_inl (wire u)))
    (mkUntypedObject (mkTypeMeta (tm_Kind (u_TypeMeta u)) (tm_APIVersion (u_TypeMeta u))) (u_ObjectMeta u) None None)
    (u_Spec u)) as (u' & E & H1 & H2 & H3 & H4).
  - rewrite range_map_fst. apply NoDup_range_keys.
  - intros d Hd%elem_of_range_map. rewrite Hf in Hd. simpl in Hd. injection Hd as <-. unfold spec_doc.
    destruct (u_Spec u) as [m|]; [|done]. simpl. by rewrite right_id_L by apply _.
  - exists u'. split; [done|]. split; [exact E|]. split; [by rewrite H1; destruct (u_TypeMeta u)|].
    split; [exact H2|]. split.
    + rewrite H3, bool_decide_eq_true_2; [done|]. rewrite range_map_fst, elem_of_range_keys.
      apply elem_of_dom. by rewrite Hf.
    + apply map_eq. intros k. rewrite H4, list_to_map_range, Hf. cbn [u_Subresources items default].
      destruct (reserved k) eqn:Er.
      * rewrite (reserved_not_subresource u k Hw Er). by repeat case_match.
      * unfold reserved, is_meta_key in Er. repeat (apply orb_false_iff in Er as [Er ?]).
        repeat match goal with E : String.eqb k _ = false |- _ => rewrite E; clear E end.
        destruct (items (u_Subresources u) !! k) as [r|] eqn:E'; [|done]. by destruct (Hw k r E') as (_ & d & ->).
Qed.
End Laws.
#[export] Instance Untyped_object {V} `{AS : !AnyOf V (nmap Doc), AR : !AnyOf V RawMessage, AB : !AnyOf V Bytes}
    (marshal_any : V → Doc + GoError) : ResourceObject UntypedObject V := {
  ro_TypeMeta := u_TypeMeta;
  ro_ObjectMeta := u_ObjectMeta;
  ro_SetObjectMeta om u :=
    mkUntypedObject (u_TypeMeta u) om (u_Spec u) (u_Subresources u);
  ro_GetSpec := GetSpec;
  ro_SetSpec := SetSpec;
  ro_GetSubresources u := Returned (Some (GetSubresources u));
  ro_GetSubresource k u := Returned (GetSubresource k u);
  ro_SetSubresource k v u := Returned (SetSubresource marshal_any k v u);
}.

Lemma Untyped_laws {V} `{AS : !AnyOf V (nmap Doc), AR : !AnyOf V RawMessage, AB : !AnyOf V Bytes}
    (marshal_any : V → Doc + GoError) :
  @ResourceObjectLaws UntypedObject V (Untyped_object marshal_any) (λ _ _, True).
Proof.
  split; try done.
  - intros o o' _. simpl. unfold SetSpec, GetSpec. rewrite as_to_any. by eexists.
  - intros o k _. by eexists.
  - intros o o' k v _. simpl. unfold GetSubresource, SetSubresource. intros [= H].
    apply fmap_Some in H as (r & _ & ->). rewrite as_to_any. eexists. split; [done|]. split_and!; try done.
    + simpl. by rewrite lookup_insert_eq.
    + intros k' Hk. simpl. by rewrite lookup_insert_ne.
  - intros o _. eexists. split; [done|]. intros k. simpl. unfold GetSubresources.
    by rewrite lookup_fmap.
Qed.

(** ** Instances for the witnesses *)
Definition test_untyped : UntypedObject :=
  mkUntypedObject (mkTypeMeta "Foo" "g/v1") (named_meta "a")
    (Some {[ "x" := ANumber 1 ]}) (Some {[ "status" := Raw (AMap {[ "ok" := ABool true ]}) ]}).

Lemma UntypedObject_round_trip_witness : ∃ d u',
  MarshalJSON test_untyped = inl d ∧ UnmarshalJSON d zero_untyped = (u', None) ∧
  items (u_Subresources u') = items (u_Subresources test_untyped).
Proof.
  destruct (UntypedObject_round_trip test_untyped) as (d & u' & H1 & H2 & _ & _ & _ & H3).
  - intros k r Hk.
    change (({[ "status" := Raw (AMap {[ "ok" := ABool true ]}) ]} : gmap string RawMessage) !! k = Some r) in Hk.
    apply lookup_singleton_Some in Hk as [<- <-]. split; [reflexivity|]. by eexists.
  - eexists. split; reflexivity.
  - exists d, u'. split; [exact H1|]. split; [exact H2 | exact H3].
Defined.

Definition wire_entry (k : string) (d : Doc + GoError) : option Doc :=
  match d with inl d => m ← as_map d; m !! k | inr _ => None end.

(** A subresource with the name of a field takes its place on the wire. *)
Example subresource_named_spec :
  let u := (SetSubresource test_marshal_any "spec" (TString "x") test_untyped).1 in
  (SetSubresource test_marshal_any "spec" (TString "x") test_untyped).2 = None ∧
  wire_entry "spec" (MarshalJSON u) = Some (AString "x").
Proof. split; vm_compute; reflexivity. Qed.

(** The copy of a nil raw message cannot be marshalled. *)
Example copy_of_nil_message :
  let u := put_subresource "a" RawNil test_untyped in
  match MarshalJSON u, MarshalJSON (Copy u) with inl _, inr _ => true | _, _ => false end = true.
Proof. vm_compute. reflexivity. Qed.

