(* ===== verification/TypedSpecObject.v ===== *)
(** * [TypedSpecObject] ([resource/typedobject.go])

    An object with a typed spec and no subresources. *)
From S2P Require Import Prelude GoValues GoTime Resource ObjectMeta Objects.

#[local] Open Scope string_scope.
#[local] Open Scope list_scope.
Section TypedSpec.
Context {V T : Type} `{AT : !AnyOf V T, JT : !JSONType T}.

Record TypedSpecObject := mkTypedSpecObject { t_TypeMeta : TypeMeta; t_ObjectMeta : ObjectMeta; t_Spec : T }.

Definition GetSpec (t : TypedSpecObject) : V := to_any (t_Spec t).

Definition SetSpec (spec : V) (t : TypedSpecObject) : TypedSpecObject * option GoError :=
  match as_any spec with
  | Some cast => (mkTypedSpecObject (t_TypeMeta t) (t_ObjectMeta t) cast, None)
  | None => (t, Some (ErrorString "spec must be of type map[string]any"))
  end.

Definition GetSubresources (t : TypedSpecObject) : gmap string V := ∅.
Definition GetSubresource (key : string) (t : TypedSpecObject) : option V := None.
Definition SetSubresource (key : string) (val : V) (t : TypedSpecObject) : TypedSpecObject * option GoError :=
  (t, Some (ErrorString "TypedSpecObject does not allow subresources")).

Definition Copy (t : TypedSpecObject) : TypedSpecObject :=
  mkTypedSpecObject (t_TypeMeta t) (t_ObjectMeta t) (copy_json (t_Spec t)).

Section Metadata.
Context `{GT : !GVKText, LT : !LenientTime}.
Definition GetStaticMetadata (t : TypedSpecObject) : StaticMetadata := get_static (t_TypeMeta t) (t_ObjectMeta t).
Definition SetStaticMetadata (md : StaticMetadata) (t : TypedSpecObject) : TypedSpecObject :=
  let '(tm, om) := set_static md (t_TypeMeta t) (t_ObjectMeta t) in mkTypedSpecObject tm om (t_Spec t).
Definition GetCommonMetadata (t : TypedSpecObject) : CommonMetadata := get_common (t_ObjectMeta t).
Definition SetCommonMetadata (md : CommonMetadata) (t : TypedSpecObject) : TypedSpecObject :=
  mkTypedSpecObject (t_TypeMeta t) (set_common md (t_ObjectMeta t)) (t_Spec t).
End Metadata.
End TypedSpec.
Arguments TypedSpecObject : clear implicits.
