(* ===== verification/TypedSpecStatusObject.v ===== *)
(** * [TypedSpecStatusObject] ([resource/typedobject.go])

    An object with a typed spec and status. *)
From S2P Require Import Prelude GoValues GoTime Resource ObjectMeta Objects.

#[local] Open Scope string_scope.
#[local] Open Scope list_scope.
Section TypedSpecStatus.
Context {V T S : Type} `{AT : !AnyOf V T, AS : !AnyOf V S, JT : !JSONType T, JS : !JSONType S}.

Record TypedSpecStatusObject := mkTypedSpecStatusObject {
  t_TypeMeta : TypeMeta;
  t_ObjectMeta : ObjectMeta;
  t_Spec : T;
  t_Status : S;
}.

Definition GetSpec (t : TypedSpecStatusObject) : V := to_any (t_Spec t).

Definition SetSpec (spec : V) (t : TypedSpecStatusObject) : TypedSpecStatusObject * option GoError :=
  match as_any spec with
  | Some cast => (mkTypedSpecStatusObject (t_TypeMeta t) (t_ObjectMeta t) cast (t_Status t), None)
  | None => (t, Some (ErrorString "spec must be of type map[string]any"))
  end.

Definition GetSubresources (t : TypedSpecStatusObject) : gmap string V := {[ "status" := to_any (t_Status t) ]}.

Definition GetSubresource (key : string) (t : TypedSpecStatusObject) : option V :=
  if String.eqb key "status" then Some (to_any (t_Status t)) else None.

Definition SetSubresource (key : string) (val : V) (t : TypedSpecStatusObject)
  : TypedSpecStatusObject * option GoError :=
  if negb (String.eqb key "status") then (t, Some (ErrorString ("subresource '" +:+ key +:+ "' is not valid")))
  else
    match as_any val with
    | Some cast => (mkTypedSpecStatusObject (t_TypeMeta t) (t_ObjectMeta t) (t_Spec t) cast, None)
    | None => (t, Some (ErrorString "status value is not of the correct type"))
    end.

Definition Copy (t : TypedSpecStatusObject) : TypedSpecStatusObject :=
  mkTypedSpecStatusObject (t_TypeMeta t) (t_ObjectMeta t) (copy_json (t_Spec t)) (copy_json (t_Status t)).

Section Metadata.
Context `{GT : !GVKText, LT : !LenientTime}.
Definition GetStaticMetadata (t : TypedSpecStatusObject) : StaticMetadata :=
  get_static (t_TypeMeta t) (t_ObjectMeta t).
Definition SetStaticMetadata (md : StaticMetadata) (t : TypedSpecStatusObject) : TypedSpecStatusObject :=
  let '(tm, om) := set_static md (t_TypeMeta t) (t_ObjectMeta t) in
  mkTypedSpecStatusObject tm om (t_Spec t) (t_Status t).
Definition GetCommonMetadata (t : TypedSpecStatusObject) : CommonMetadata := get_common (t_ObjectMeta t).
Definition SetCommonMetadata (md : CommonMetadata) (t : TypedSpecStatusObject) : TypedSpecStatusObject :=
  mkTypedSpecStatusObject (t_TypeMeta t) (set_common md (t_ObjectMeta t)) (t_Spec t) (t_Status t).
End Metadata.

#[export] Instance SpecStatus_object : ResourceObject TypedSpecStatusObject V := {
  ro_TypeMeta := t_TypeMeta;
  ro_ObjectMeta := t_ObjectMeta;
  ro_SetObjectMeta om t := mkTypedSpecStatusObject (t_TypeMeta t) om (t_Spec t) (t_Status t);
  ro_GetSpec := GetSpec;
  ro_SetSpec := SetSpec;
  ro_GetSubresources t := Returned (Some (GetSubresources t));
  ro_GetSubresource k t := Returned (GetSubresource k t);
  ro_SetSubresource k v t := Returned (SetSubresource k v t);
}.

Lemma SpecStatus_laws : @ResourceObjectLaws TypedSpecStatusObject V _ (λ _ _, True).
Proof using Type*.
  split; try done.
  - intros o o' _. simpl. unfold SetSpec, GetSpec. rewrite as_to_any. by eexists.
  - intros o k _. by eexists.
  - intros o o' k v _. simpl. unfold GetSubresource, SetSubresource.
    destruct (String.eqb_spec k "status") as [->|Hk]; [|done]. intros [= <-]. simpl. rewrite as_to_any.
    eexists. split; [done|]. split_and!; try done. intros k' Hk. by rewrite (proj2 (String.eqb_neq k' "status") Hk).
  - intros o _. eexists. split; [done|]. intros k. simpl. unfold GetSubresource, GetSubresources.
    destruct (String.eqb_spec k "status") as [->|Hk]; [by rewrite lookup_singleton_eq|].
    by rewrite lookup_singleton_ne.
Qed.
End TypedSpecStatus.
Arguments TypedSpecStatusObject : clear implicits.
