(* ===== verification/TypedObject.v ===== *)
(** * [TypedObject] ([resource/typedobject.go])

    An object with a typed spec and a catalog of subresources, which is looked at by
    reflection: a struct, whose fields are the subresources, or a map. *)
From S2P Require Import Prelude GoValues GoTime Resource ObjectMeta Objects.

#[local] Open Scope string_scope.
#[local] Open Scope list_scope.

(** A field of a struct: its name, its JSON tag if it has one, whether it is exported, the
    name of its type, and its value. *)
Record StructField (V : Type) := mkStructField {
  sf_Name : string;
  sf_Tag : option string;
  sf_Exported : bool;
  sf_Type : string;
  sf_Value : V;
}.
Arguments mkStructField {V}.
Arguments sf_Name {V}.
Arguments sf_Tag {V}.
Arguments sf_Exported {V}.
Arguments sf_Type {V}.
Arguments sf_Value {V}.

(** The type of a map: whether it is a named type, the names of the types of its keys and
    elements, whether a string can be a key, and the types that can be an element. *)
Record MapType := mkMapType {
  mt_Named : bool;
  mt_Key : string;
  mt_Elem : string;
  mt_StringKey : bool;
  mt_Accepts : string → bool;
}.

(** A subresource catalog, by its kind: a struct, a map with string keys, a pointer to a
    struct, or another type. *)
Inductive Catalog (V : Type) :=
| CatStruct (fields : list (StructField V))
| CatMap (typ : MapType) (m : nmap V)
| CatPointer (fields : option (list (StructField V)))
| CatOther.
Arguments CatStruct {V}.
Arguments CatMap {V}.
Arguments CatPointer {V}.
Arguments CatOther {V}.

(** [getFieldName] *)
Definition getFieldName {V} (field : StructField V) : string :=
  match sf_Tag field with
  | Some tag => default "" (head (Split tag ","))
  | None => sf_Name field
  end.

Section TypedObject.
Context {V T : Type} `{AT : !AnyOf V T, JT : !JSONType T, JE : !JSONErrors, MJ : !JSONType ObjectMeta}.

(** [reflect.TypeOf(v).String()], none for nil; [json.Marshal] of a value; and
    [json.Unmarshal] into a catalog. *)
Context (type_of : V → option string) (marshal_any : V → Doc + GoError).
Context (unmarshal_catalog : Doc → Catalog V → Catalog V * option GoError).

Record TypedObject := mkTypedObject {
  t_TypeMeta : TypeMeta;
  t_ObjectMeta : ObjectMeta;
  t_Spec : T;
  t_Subresources : Catalog V;
}.

Definition with_subresources (c : Catalog V) (t : TypedObject) : TypedObject :=
  mkTypedObject (t_TypeMeta t) (t_ObjectMeta t) (t_Spec t) c.

Definition GetSpec (t : TypedObject) : V := to_any (t_Spec t).

Definition SetSpec (spec : V) (t : TypedObject) : TypedObject * option GoError :=
  match as_any spec with
  | Some cast => (mkTypedObject (t_TypeMeta t) (t_ObjectMeta t) cast (t_Subresources t), None)
  | None => (t, Some (ErrorString "provided spec not convertible to Spec type"))
  end.

(** [val.Field(i).Interface()], which panics for a field that is not exported. *)
Definition field_interface (f : StructField V) : called V :=
  if sf_Exported f then Returned (sf_Value f) else Panics.

Fixpoint struct_subresources (l : list (StructField V)) (sr : gmap string V) : called (gmap string V) :=
  match l with
  | [] => Returned sr
  | f :: l =>
      match field_interface f with
      | Panics => Panics
      | Returned v => struct_subresources l (<[getFieldName f := v]> sr)
      end
  end.

Definition GetSubresources (t : TypedObject) : called (nmap V) :=
  match t_Subresources t with
  | CatStruct fields =>
      match struct_subresources fields ∅ with Returned sr => Returned (Some sr) | Panics => Panics end
  | CatMap _ m => Returned (Some (items m))
  | CatPointer _ | CatOther => Returned None
  end.

Definition named_field (key : string) (f : StructField V) : bool := String.eqb (getFieldName f) key.

Definition GetSubresource (key : string) (t : TypedObject) : called (option V) :=
  match t_Subresources t with
  | CatStruct fields =>
      match List.find (named_field key) fields with
      | Some f => match field_interface f with Returned v => Returned (Some v) | Panics => Panics end
      | None => Returned None
      end
  | CatMap _ m => Returned (items m !! key)
  | CatPointer _ | CatOther => Returned None
  end.

(** Assigning to the first field with a name. *)
Fixpoint set_field (key : string) (value : V) (l : list (StructField V)) : list (StructField V) :=
  match l with
  | [] => []
  | f :: l =>
      if named_field key f
      then mkStructField (sf_Name f) (sf_Tag f) (sf_Exported f) (sf_Type f) value :: l
      else f :: set_field key value l
  end.

Definition unassignable (key ty fty : string) : GoError :=
  ErrorString ("cannot assign value of type " +:+ ty +:+ " to subresource '" +:+ key +:+ "' of type " +:+ fty).
Definition no_subresource (key : string) : GoError :=
  ErrorString ("subresource '" +:+ key +:+ "' does not exist").
Definition bad_catalog : GoError :=
  ErrorString "subresource catalog is a nil map which could not be instantiated".

Definition bad_key (typ : MapType) : GoError :=
  ErrorString ("subresource map has an unassignable key type of '" +:+ mt_Key typ +:+ "'").
Definition bad_element (typ : MapType) (ty : string) : GoError :=
  ErrorString ("subresource map requires a value of type '" +:+ mt_Elem typ +:+ "', provided value '" +:+ ty +:+
    "' is not assignable").

(** [SetSubresource]; the map that is written to is the one that was read before a nil one was
    replaced. *)
Definition SetSubresource (key : string) (value : V) (t : TypedObject) : called (TypedObject * option GoError) :=
  match t_Subresources t with
  | CatStruct fields =>
      match List.find (named_field key) fields with
      | None => Returned (t, Some (no_subresource key))
      | Some f =>
          if bool_decide (Some (sf_Type f) = type_of value) then
            if sf_Exported f then Returned (with_subresources (CatStruct (set_field key value fields)) t, None)
            else Returned (t, Some (ErrorString "cannot set value"))
          else
            match type_of value with
            | None => Panics
            | Some ty => Returned (t, Some (unassignable key ty (sf_Type f)))
            end
      end
  | CatMap typ m =>
      let '(t, err) :=
        match m with
        | Some _ => (t, None)
        | None => if mt_Named typ then (t, Some bad_catalog) else (with_subresources (CatMap typ (Some ∅)) t, None)
        end in
      match err with
      | Some err => Returned (t, Some err)
      | None =>
          if negb (mt_StringKey typ) then Returned (t, Some (bad_key typ))
          else
            match type_of value with
            | None => Panics
            | Some ty =>
                if negb (mt_Accepts typ ty) then Returned (t, Some (bad_element typ ty))
                else
                  match m with
                  | None => Panics
                  | Some m => Returned (with_subresources (CatMap typ (Some (<[key := value]> m))) t, None)
                  end
            end
      end
  | CatPointer _ | CatOther => Returned (t, Some (no_subresource key))
  end.

(** The key of a field in [MarshalJSON], or nothing for one that is left out; a tag without
    options panics. *)
Definition marshal_key (f : StructField V) : called (option string) :=
  let js := default "" (sf_Tag f) in
  if String.eqb js "" then Returned (Some (sf_Name f))
  else
    match Split js "," with
    | name :: opt :: _ => if String.eqb opt "omitempty" then Returned None else Returned (Some name)
    | _ => Panics
    end.

(** The loop of [MarshalJSON]: the map, or the error that is returned. *)
Fixpoint marshal_fields (l : list (StructField V)) (m : gmap string (Doc + GoError))
  : called (gmap string (Doc + GoError) + GoError) :=
  match l with
  | [] => Returned (inl m)
  | f :: l =>
      match marshal_key f with
      | Panics => Panics
      | Returned None => marshal_fields l m
      | Returned (Some fn) =>
          match field_interface f with
          | Panics => Panics
          | Returned v =>
              match marshal_any v with
              | inr err => Returned (inr err)
              | inl d => marshal_fields l (<[fn := inl d]> m)
              end
          end
      end
  end.

(** [MarshalJSON]: [NumField] panics for what is not a struct. *)
Definition MarshalJSON (t : TypedObject) : called (Doc + GoError) :=
  match t_Subresources t with
  | CatStruct fields | CatPointer (Some fields) =>
      match marshal_fields fields (meta_entries (t_TypeMeta t) (t_ObjectMeta t) (marshal (t_Spec t))) with
      | Panics => Panics
      | Returned (inr err) => Returned (inr err)
      | Returned (inl m) => Returned (marshal_map m)
      end
  | CatMap _ _ | CatPointer None | CatOther => Panics
  end.

Definition UnmarshalJSON (data : Doc) (t : TypedObject) : TypedObject * option GoError :=
  match unmarshal_object data with
  | inr err => (t, Some err)
  | inl m =>
      let '(tm, om, err) := read_meta m (t_TypeMeta t) (t_ObjectMeta t) in
      let t := mkTypedObject tm om (t_Spec t) (t_Subresources t) in
      match err with
      | Some err => (t, Some err)
      | None =>
          let '(s, err) := unmarshal_entry (m !! "spec") (t_Spec t) in
          let t := mkTypedObject tm om s (t_Subresources t) in
          match err with
          | Some err => (t, Some (WrapError "error reading spec: " err))
          | None =>
              let '(c, err) := unmarshal_catalog data (t_Subresources t) in
              (with_subresources c t, err)
          end
      end
  end.

(** [Copy], into the zero catalog of the type: the subresources are read from the JSON of the
    spec. *)
Definition Copy (zero_catalog : Catalog V) (t : TypedObject) : TypedObject :=
  mkTypedObject (t_TypeMeta t) (t_ObjectMeta t) (copy_json (t_Spec t))
    (match marshal (t_Spec t) with
     | inl d => (unmarshal_catalog d zero_catalog).1
     | inr _ => zero_catalog
     end).

Section Metadata.
Context `{GT : !GVKText, LT : !LenientTime}.
Definition GetStaticMetadata (t : TypedObject) : StaticMetadata := get_static (t_TypeMeta t) (t_ObjectMeta t).
Definition SetStaticMetadata (md : StaticMetadata) (t : TypedObject) : TypedObject :=
  let '(tm, om) := set_static md (t_TypeMeta t) (t_ObjectMeta t) in mkTypedObject tm om (t_Spec t) (t_Subresources t).
Definition GetCommonMetadata (t : TypedObject) : CommonMetadata := get_common (t_ObjectMeta t).
Definition SetCommonMetadata (md : CommonMetadata) (t : TypedObject) : TypedObject :=
  mkTypedObject (t_TypeMeta t) (set_common md (t_ObjectMeta t)) (t_Spec t) (t_Subresources t).
End Metadata.

(** *** Properties *)

(** A field that [MarshalJSON] stumbles over: its tag has no option, or it is written and not
    exported. *)
Definition marshal_trap (f : StructField V) : Prop :=
  marshal_key f = Panics ∨ ∃ k, marshal_key f = Returned (Some k) ∧ sf_Exported f = false.

Lemma marshal_fields_panics l m :
  (∀ f, f ∈ l → ∃ d, marshal_any (sf_Value f) = inl d) →
  marshal_fields l m = Panics ↔ ∃ f, f ∈ l ∧ marshal_trap f.
Proof using Type.
  clear unmarshal_catalog type_of. revert m. induction l as [|f l IH]; intros m Hm; [split; [done | by intros (f & ?%elem_of_nil & _)]|].
  assert (Hl : ∀ f, f ∈ l → ∃ d, marshal_any (sf_Value f) = inl d) by (intros; apply Hm; by right).
  setoid_rewrite elem_of_cons. simpl. unfold field_interface.
  destruct (marshal_key f) as [[k|]|] eqn:Ek.
  - destruct (sf_Exported f) eqn:Ee.
    + destruct (Hm f) as [d ->]; [by left|]. rewrite (IH _ Hl). split; [naive_solver|].
      intros (f' & [->|Hf'] & Ht); [|by exists f']. destruct Ht as [Ht | (k' & _ & Ht)]; congruence.
    + split; [|done]. intros _. exists f. split; [by left|]. right. by exists k.
  - rewrite (IH _ Hl). split; [naive_solver|]. intros (f' & [->|Hf'] & Ht); [|by exists f'].
    destruct Ht as [Ht | (k' & Ht & _)]; congruence.
  - split; [|done]. intros _. exists f. split; [by left|]. by left.
Qed.

(** [TypedObject.MarshalJSON], of an object whose values can be marshalled, panics exactly
    when a field of its catalog has a JSON tag without an option, or is written and not
    exported, or when the catalog is not a struct. *)
Theorem MarshalJSON_panics (t : TypedObject) fields :
  (∀ f, f ∈ fields → ∃ d, marshal_any (sf_Value f) = inl d) →
  (MarshalJSON (with_subresources (CatStruct fields) t) = Panics ↔ ∃ f, f ∈ fields ∧ marshal_trap f) ∧
  ∀ typ m, MarshalJSON (with_subresources (CatMap typ m) t) = Panics.
Proof using Type.
  clear unmarshal_catalog type_of. intros Hm. split; [|done]. rewrite <- (marshal_fields_panics fields
    (meta_entries (t_TypeMeta t) (t_ObjectMeta t) (marshal (t_Spec t))) Hm).
  unfold MarshalJSON, with_subresources. cbn [t_Subresources t_TypeMeta t_ObjectMeta t_Spec].
  by destruct (marshal_fields _ _) as [[?|?]|].
Qed.

(** A nil catalog of a map type never takes a subresource. *)
Lemma SetSubresource_nil_map (t : TypedObject) typ key value :
  SetSubresource key value (with_subresources (CatMap typ None) t) = Panics ∨
  ∃ t' err, SetSubresource key value (with_subresources (CatMap typ None) t) = Returned (t', Some err).
Proof using Type.
  unfold SetSubresource, with_subresources. cbn [t_Subresources].
  destruct (mt_Named typ); [right; by eexists _, _|].
  destruct (mt_StringKey typ); [|right; by eexists _, _]. simpl.
  destruct (type_of value) as [ty|]; [|by left]. destruct (mt_Accepts typ ty); [by left | right; by eexists _, _].
Qed.

(** The subresources of a copy are what the JSON of the spec gives. *)
Lemma Copy_subresources zero_catalog (t : TypedObject) c :
  t_Subresources (Copy zero_catalog (with_subresources c t)) = t_Subresources (Copy zero_catalog t).
Proof using Type. done. Qed.

(** *** Struct catalogs as [ResourceObject]s *)

#[export] Instance Typed_object : ResourceObject TypedObject V := {
  ro_TypeMeta := t_TypeMeta;
  ro_ObjectMeta := t_ObjectMeta;
  ro_SetObjectMeta om t := mkTypedObject (t_TypeMeta t) om (t_Spec t) (t_Subresources t);
  ro_GetSpec := GetSpec;
  ro_SetSpec := SetSpec;
  ro_GetSubresources := GetSubresources;
  ro_GetSubresource := GetSubresource;
  ro_SetSubresource := SetSubresource;
}.

(** What is of the type of a field, and not of its value. *)
Definition shape (f : StructField V) : string * option string * bool * string :=
  (sf_Name f, sf_Tag f, sf_Exported f, sf_Type f).

Definition well_typed (f : StructField V) : Prop := sf_Exported f = true ∧ type_of (sf_Value f) = Some (sf_Type f).

(** Objects of one Go type, whose catalog is a struct of exported fields with distinct names. *)
Definition same_struct (t t' : TypedObject) : Prop :=
  ∃ l l', t_Subresources t = CatStruct l ∧ t_Subresources t' = CatStruct l' ∧ shape <$> l = shape <$> l' ∧
    Forall well_typed l ∧ Forall well_typed l' ∧ NoDup (getFieldName <$> l).

Lemma shape_name f f' : shape f = shape f' → getFieldName f = getFieldName f'.
Proof. unfold shape, getFieldName. by intros [= -> -> _ _]. Qed.

Lemma shapes_names (l l' : list (StructField V)) : shape <$> l = shape <$> l' → getFieldName <$> l = getFieldName <$> l'.
Proof.
  revert l'. induction l as [|f l IH]; intros [|f' l'] H; try done. csimpl in H. injection H as H1 H2 H3 H4 H.
  csimpl. rewrite (IH l' H). f_equal. apply shape_name. unfold shape. congruence.
Qed.

Lemma find_field l key v : List.find (named_field key) l = Some v → named_field key v = true ∧ v ∈ l.
Proof. intros H. apply List.find_some in H as [H1 H2]. split; [done | by apply list_elem_of_In]. Qed.

Lemma set_field_shape key value l : shape <$> set_field key value l = shape <$> l.
Proof. induction l as [|f l IH]; [done|]. simpl. case_match; csimpl; [done | by rewrite IH]. Qed.

Lemma set_field_names key value l : getFieldName <$> set_field key value l = getFieldName <$> l.
Proof. induction l as [|f l IH]; [done|]. simpl. case_match; csimpl; [done | by rewrite IH]. Qed.

Lemma find_set_field key value l f : List.find (named_field key) l = Some f →
  List.find (named_field key) (set_field key value l) =
    Some (mkStructField (sf_Name f) (sf_Tag f) (sf_Exported f) (sf_Type f) value).
Proof.
  induction l as [|f' l IH]; [done|]. simpl. destruct (named_field key f') eqn:E; simpl.
  - intros [= <-]. replace (named_field key (mkStructField _ _ _ _ _)) with (named_field key f') by done. by rewrite E.
  - rewrite E. exact IH.
Qed.

Lemma find_set_field_ne key key' value l : key' ≠ key →
  List.find (named_field key') (set_field key value l) = List.find (named_field key') l.
Proof.
  intros Hk. induction l as [|f l IH]; [done|]. simpl. destruct (named_field key f) eqn:E; simpl; [|by rewrite IH].
  assert (named_field key' f = false) as E'.
  { unfold named_field in *. apply String.eqb_eq in E. apply String.eqb_neq. congruence. }
  rewrite E'. replace (named_field key' (mkStructField _ _ _ _ _)) with (named_field key' f) by done. by rewrite E'.
Qed.

Lemma set_field_typed key value l f : List.find (named_field key) l = Some f →
  type_of value = Some (sf_Type f) → Forall well_typed l → Forall well_typed (set_field key value l).
Proof.
  induction l as [|f' l IH]; [done|]. simpl. intros Hf Hv [[H1 H2] Hl]%Forall_cons.
  destruct (named_field key f'); [injection Hf as <-|]; constructor; try done. by apply IH.
Qed.

(** The field of one object is the field of another of the type. *)
Lemma find_shape key l l' f : shape <$> l = shape <$> l' → List.find (named_field key) l = Some f →
  ∃ f', List.find (named_field key) l' = Some f' ∧ shape f = shape f'.
Proof.
  revert l'. induction l as [|f1 l IH]; intros [|f2 l'] Hs; try done. csimpl in Hs. injection Hs as Hs1 Hs2 Hs3 Hs4 Hs.
  assert (E : shape f1 = shape f2) by (unfold shape; congruence). simpl.
  assert (named_field key f1 = named_field key f2) as ->.
  { unfold named_field. by rewrite (shape_name f1 f2 E). }
  destruct (named_field key f2); [|by apply IH]. intros [= <-]. by exists f2.
Qed.

Lemma GetSubresource_struct key t l : t_Subresources t = CatStruct l → Forall well_typed l →
  GetSubresource key t = Returned (sf_Value <$> List.find (named_field key) l).
Proof.
  intros E Hl. unfold GetSubresource. rewrite E. destruct (List.find _ l) as [f|] eqn:Ef; [|done].
  apply find_field in Ef as [_ Hf]. rewrite Forall_forall in Hl. destruct (Hl f Hf) as [He _].
  unfold field_interface. by rewrite He.
Qed.

Lemma struct_subresources_spec l sr : Forall well_typed l → NoDup (getFieldName <$> l) →
  ∃ m, struct_subresources l sr = Returned m ∧
    ∀ k, m !! k = match List.find (named_field k) l with Some f => Some (sf_Value f) | None => sr !! k end.
Proof.
  revert sr. induction l as [|f l IH]; intros sr Hl Hnd; [by exists sr|].
  apply Forall_cons in Hl as [[He _] Hl]. csimpl in Hnd. apply NoDup_cons in Hnd as [Hf Hnd].
  simpl. unfold field_interface. rewrite He. destruct (IH (<[getFieldName f := sf_Value f]> sr) Hl Hnd) as (m & E & Hm).
  exists m. split; [done|]. intros k. rewrite Hm. unfold named_field at 2.
  destruct (String.eqb_spec (getFieldName f) k) as [<-|Hk].
  - assert (List.find (named_field (getFieldName f)) l = None) as ->; [|by rewrite lookup_insert_eq].
    destruct (List.find _ l) as [f'|] eqn:E'; [|done]. exfalso. apply find_field in E' as [E1 E2].
    apply String.eqb_eq in E1. apply Hf. rewrite <- E1. by apply list_elem_of_fmap_2.
  - by rewrite lookup_insert_ne.
Qed.

Lemma Typed_laws : @ResourceObjectLaws TypedObject V _ same_struct.
Proof using Type*.
  split; try done.
  - intros o o' (l & l' & E & E' & Hs & Hl & Hl' & Hnd). by exists l, l.
  - intros o o' (l & l' & E & E' & Hs & Hl & Hl' & Hnd). exists l', l'. by rewrite <- (shapes_names l l' Hs).
  - intros o o' (l & l' & E & E' & Hs & Hl & Hl' & Hnd). simpl. unfold SetSpec, GetSpec. rewrite as_to_any.
    eexists. split; [done|]. split_and!; try done. by exists l, l'.
  - intros o k (l & l' & E & E' & Hs & Hl & Hl' & Hnd). simpl. rewrite (GetSubresource_struct k o l E Hl). by eexists.
  - intros o o' k v (l & l' & E & E' & Hs & Hl & Hl' & Hnd). simpl.
    rewrite (GetSubresource_struct k o' l' E' Hl'). intros [= Hf'%fmap_Some]. destruct Hf' as (f' & Hf' & ->).
    destruct (find_shape k l' l f' (eq_sym Hs) Hf') as (f & Hf & Hsh).
    assert (Hty : type_of (sf_Value f') = Some (sf_Type f)).
    { apply find_field in Hf' as [_ Hin]. rewrite Forall_forall in Hl'. destruct (Hl' f' Hin) as [_ ->].
      unfold shape in Hsh. congruence. }
    assert (He : sf_Exported f = true).
    { apply find_field in Hf as [_ Hin]. rewrite Forall_forall in Hl. by destruct (Hl f Hin). }
    unfold SetSubresource. rewrite E, Hf, bool_decide_eq_true_2, He by done.
    pose proof (set_field_typed k _ l f Hf Hty Hl) as Hl1.
    set (o1 := with_subresources (CatStruct (set_field k (sf_Value f') l)) o).
    pose proof (λ k', GetSubresource_struct k' o1 _ eq_refl Hl1) as Hg.
    exists o1. split; [done|]. split_and!; try done.
    + rewrite Hg. by rewrite (find_set_field k _ l f Hf).
    + exists (set_field k (sf_Value f') l), l'. split_and!; try done; [by rewrite set_field_shape|].
      by rewrite set_field_names.
    + intros k' Hk. rewrite Hg, (GetSubresource_struct k' o l E Hl).
      by rewrite find_set_field_ne.
  - intros o (l & l' & E & E' & Hs & Hl & Hl' & Hnd). simpl. unfold GetSubresources. rewrite E.
    destruct (struct_subresources_spec l ∅ Hl Hnd) as (m & -> & Hm). eexists. split; [done|]. intros k.
    rewrite (GetSubresource_struct k o l E Hl). simpl. rewrite Hm. by destruct (List.find _ l).
Qed.
End TypedObject.
Arguments TypedObject : clear implicits.

(** ** Instances for the witnesses *)

(** A catalog with one field. *)
Definition field_with (tag : string) : StructField TestAny :=
  mkStructField "Status" (Some tag) true "string" (TString "ready").
Definition test_typed (tag : string) : TypedObject TestAny (nmap Doc) :=
  mkTypedObject (mkTypeMeta "Foo" "g/v1") (named_meta "a") (Some {[ "x" := ANumber 1 ]})
    (CatStruct [field_with tag]).

Lemma MarshalJSON_panics_witness :
  MarshalJSON test_marshal_any (test_typed "status") = Panics ∧
  MarshalJSON test_marshal_any (test_typed "status,string") ≠ Panics.
Proof.
  pose proof (λ tag, MarshalJSON_panics test_marshal_any (test_typed tag) [field_with tag]) as H.
  split.
  - apply (H "status").
    + intros f ->%list_elem_of_singleton. by eexists.
    + exists (field_with "status"). split; [by left|]. left. reflexivity.
  - intros E. apply (H "status,string") in E.
    + destruct E as (f & ->%list_elem_of_singleton & [E | (k & _ & E)]); discriminate E.
    + intros f ->%list_elem_of_singleton. by eexists.
Defined.

(** A copy takes its subresources from the JSON of the spec. *)
Definition test_catalog_json (d : Doc) (c : Catalog TestAny) : Catalog TestAny * option GoError :=
  match d with
  | AMap m =>
      match m !! "status" with
      | Some (AString s) =>
          (CatStruct [mkStructField "Status" (Some "status,string") true "string" (TString s)], None)
      | _ => (c, None)
      end
  | _ => (c, None)
  end.

Example typed_copy_forgets :
  let zero := CatStruct [mkStructField "Status" (Some "status,string") true "string" (TString "")] in
  let t := test_typed "status,string" in
  GetSubresource "status" t = Returned (Some (TString "ready")) ∧
  GetSubresource "status" (Copy test_catalog_json zero t) = Returned (Some (TString "")).
Proof. split; vm_compute; reflexivity. Qed.
