(* ===== verification/WrappedObject.v ===== *)
(** * [WrappedObject] ([resource/wrappedobject.go])

    A Kubernetes object without a spec, as a [resource.Object]. *)
From S2P Require Import Prelude GoValues GoTime Resource ObjectMeta Objects.

#[local] Open Scope string_scope.
#[local] Open Scope list_scope.
Section Wrapped.
Context {V T : Type} `{KO : !KubeObject T, JT : !JSONType T}.

(** [DeepCopyObject] of the wrapped type, with the assertion of the result to it. *)
Context (deep_copy : T → option T).

Record WrappedObject := mkWrappedObject { w_Object : T }.

Definition NewWrappedObject (underlying : T) : WrappedObject := mkWrappedObject underlying.

Definition MarshalJSON (o : WrappedObject) : Doc + GoError := marshal (w_Object o).
Definition UnmarshalJSON (data : Doc) (o : WrappedObject) : WrappedObject * option GoError :=
  let '(t, err) := unmarshal data (w_Object o) in (mkWrappedObject t, err).

Definition GetSpec (nil : V) (o : WrappedObject) : V := nil.
Definition SetSpec (spec : V) (o : WrappedObject) : WrappedObject * option GoError :=
  (o, Some (ErrorString "no spec to set in wrapped object")).
Definition GetSubresources (o : WrappedObject) : gmap string V := ∅.
Definition GetSubresource (key : string) (o : WrappedObject) : option V := None.
Definition SetSubresource (key : string) (val : V) (o : WrappedObject) : WrappedObject * option GoError :=
  (o, Some (ErrorString "cannot set subresource in wrapped object")).

Section Metadata.
Context `{GT : !GVKText, LT : !LenientTime}.
Definition GetStaticMetadata (o : WrappedObject) : StaticMetadata :=
  get_static (ko_TypeMeta (w_Object o)) (ko_ObjectMeta (w_Object o)).
Definition SetStaticMetadata (md : StaticMetadata) (o : WrappedObject) : WrappedObject :=
  let '(tm, om) := set_static md (ko_TypeMeta (w_Object o)) (ko_ObjectMeta (w_Object o)) in
  mkWrappedObject (ko_set tm om (w_Object o)).
Definition GetCommonMetadata (o : WrappedObject) : CommonMetadata := get_common (ko_ObjectMeta (w_Object o)).
Definition SetCommonMetadata (md : CommonMetadata) (o : WrappedObject) : WrappedObject :=
  mkWrappedObject (ko_set (ko_TypeMeta (w_Object o)) (set_common md (ko_ObjectMeta (w_Object o))) (w_Object o)).
End Metadata.

(** [Copy]; the zero object when the copy is of another type. *)
Definition Copy (o : WrappedObject) : WrappedObject :=
  match deep_copy (w_Object o) with
  | Some cast => mkWrappedObject cast
  | None => mkWrappedObject zero_value
  end.
End Wrapped.
Arguments WrappedObject : clear implicits.
