(* ===== verification/UnstructuredWrapper.v ===== *)
(** * [UnstructuredWrapper] ([resource/unstructured.go])

    An unstructured object as a [resource.Object]. *)
From S2P Require Import Prelude GoValues GoTime Resource ObjectMeta Objects.

#[local] Open Scope string_scope.
#[local] Open Scope list_scope.
Section Unstructured.
Context {V : Type}.

(** The [Object] map of the unstructured object; the methods that read its metadata are not
    the repository's. *)
Abbreviation Fields := (nmap V).
Context `{KO : !KubeObject (nmap V)}.

Record UnstructuredWrapper := mkUnstructuredWrapper { uw_Object : Fields }.

Definition NewUnstructuredWrapper (obj : Fields) : UnstructuredWrapper := mkUnstructuredWrapper obj.

(** Assigning to an entry of a nil map panics. *)
Definition assign_entry (key : string) (a : V) (u : UnstructuredWrapper) : called (UnstructuredWrapper * option GoError) :=
  match uw_Object u with
  | Some m => Returned (mkUnstructuredWrapper (Some (<[key := a]> m)), None)
  | None => Panics
  end.

Definition GetSpec (u : UnstructuredWrapper) : option V := items (uw_Object u) !! "spec".
Definition SetSpec (a : V) (u : UnstructuredWrapper) : called (UnstructuredWrapper * option GoError) :=
  assign_entry "spec" a u.

Definition is_field_key (k : string) : bool :=
  String.eqb k "metadata" || String.eqb k "apiVersion" || String.eqb k "kind" || String.eqb k "spec".

Definition GetSubresources (u : UnstructuredWrapper) : gmap string V :=
  base.filter (λ e : string * V, is_field_key e.1 = false) (items (uw_Object u)).
Definition GetSubresource (s : string) (u : UnstructuredWrapper) : option V := items (uw_Object u) !! s.
Definition SetSubresource (key : string) (val : V) (u : UnstructuredWrapper)
  : called (UnstructuredWrapper * option GoError) := assign_entry key val u.

Section Metadata.
Context `{GT : !GVKText, LT : !LenientTime}.
Definition GetStaticMetadata (u : UnstructuredWrapper) : StaticMetadata :=
  get_static (ko_TypeMeta (uw_Object u)) (ko_ObjectMeta (uw_Object u)).
Definition SetStaticMetadata (md : StaticMetadata) (u : UnstructuredWrapper) : UnstructuredWrapper :=
  let '(tm, om) := set_static md (ko_TypeMeta (uw_Object u)) (ko_ObjectMeta (uw_Object u)) in
  mkUnstructuredWrapper (ko_set tm om (uw_Object u)).
Definition GetCommonMetadata (u : UnstructuredWrapper) : CommonMetadata := get_common (ko_ObjectMeta (uw_Object u)).
Definition SetCommonMetadata (md : CommonMetadata) (u : UnstructuredWrapper) : UnstructuredWrapper :=
  mkUnstructuredWrapper
    (ko_set (ko_TypeMeta (uw_Object u)) (set_common md (ko_ObjectMeta (uw_Object u))) (uw_Object u)).
End Metadata.

(** The subresources are those that can be got by name, but for the fields of the object,
    which [GetSubresource] gives and [SetSubresource] overwrites. *)
Lemma GetSubresource_fields u k :
  GetSubresources u !! k = if is_field_key k then None else GetSubresource k u.
Proof.
  unfold GetSubresources, GetSubresource. destruct (is_field_key k) eqn:E.
  - apply map_lookup_filter_None. right. intros v _. simpl. by rewrite E.
  - destruct (items (uw_Object u) !! k) as [v|] eqn:Ev.
    + by apply map_lookup_filter_Some.
    + apply map_lookup_filter_None. by left.
Qed.
End Unstructured.
