(* ===== verification/VersionSchema.v ===== *)
(** * The schema of a kind's version ([app/manifest.go])

    [VersionSchema] holds the [components.schemas] of an OpenAPI document.  It is read from
    a whole document, from such a section, or from the schema of a CRD, which [fixRaw] tells
    apart by their keys. *)
From S2P Require Import Prelude GoValues Resource.

#[local] Open Scope string_scope.

Section VersionSchema.
Context {G : Type}.

Record VersionSchema := mkVersionSchema { vs_raw : nmap (any G) }.

Definition parsedCRDSchemaKindName : string := "__KIND__".

(** The [spec] property of the object [v] is a reference whose text ends in [/spec]. *)
Definition references_spec (v : any G) : bool :=
  match
    cast ← as_map v;
    props ← cast !! "properties";
    cast ← as_map props;
    spc ← cast !! "spec";
    cast ← as_map spc;
    ref ← cast !! "$ref";
    as_string ref
  with
  | Some cr => bool_decide (5 < String.length cr)%nat && String.eqb (suffix_of_length 5 cr) "/spec"
  | None => false
  end.

(** The loop over the schemas, which returns at the first that refers to [spec]. *)
Definition spec_is_referenced (raw : gmap string (any G)) : bool :=
  existsb (λ kv, negb (String.eqb kv.1 "spec") && references_spec kv.2) (map_to_list raw).

(** The fields of a CRD-shaped map whose names start with [#] are definitions. *)
Definition is_definition (k : string) : bool :=
  bool_decide (1 < String.length k)%nat &&
  match k with String c _ => Ascii.eqb c "#"%char | EmptyString => false end.

Definition crd_object (props : gmap string (any G)) : any G :=
  AMap (<["properties" := AMap props]> {["type" := AString "object"]}).

(** The schemas of a CRD-shaped map, under the name that stands for the kind's. *)
Definition crd_schemas (raw : gmap string (any G)) : gmap string (any G) :=
  let root := filter (λ kv : string * any G, is_definition kv.1 = true) raw in
  let props := filter (λ kv : string * any G, is_definition kv.1 = false) raw in
  root ∪ {[parsedCRDSchemaKindName := crd_object props]}.

(** [VersionSchema.fixRaw]: the new [raw] and the error. *)
Definition fixRaw (raw : nmap (any G)) : nmap (any G) * option GoError :=
  match items raw !! "components" with
  | Some components =>
      match as_map components with
      | None => (raw, Some (ErrorString "'components' in an OpenAPI document must be an object"))
      | Some cast =>
          match cast !! "schemas" with
          | None => (Some ∅, None)
          | Some s =>
              match as_map s with
              | None => (raw, Some (ErrorString "'components.schemas' in an OpenAPI document must be an object"))
              | Some schemas => (Some schemas, None)
              end
          end
      end
  | None =>
      match items raw !! "openAPIV3Schema" with
      | Some v =>
          match as_map v with
          | None => (raw, Some (ErrorString "'openAPIV3Schema' must be an object"))
          | Some oapi =>
              match oapi !! "properties" with
              | None => (raw, Some (ErrorString "'openAPIV3Schema' must contain properties"))
              | Some props =>
                  match as_map props with
                  | None => (raw, Some (ErrorString "'openAPIV3Schema' properties must be an object"))
                  | Some castProps =>
                      (Some {[parsedCRDSchemaKindName := crd_object castProps]}, None)
                  end
              end
          end
      | None =>
          match items raw !! "spec" with
          | None => (raw, None)
          | Some _ =>
              if spec_is_referenced (items raw) then (raw, None)
              else (Some (crd_schemas (items raw)), None)
          end
      end
  end.

(** The placeholder's schema gets the name of the kind. *)
Definition rename_kind (kindName : string) (raw : nmap (any G)) : nmap (any G) :=
  match items raw !! parsedCRDSchemaKindName with
  | Some v => Some (delete parsedCRDSchemaKindName (<[kindName := v]> (items raw)))
  | None => raw
  end.

(** [VersionSchemaFromMap].  The map is changed in place only where [fixRaw] kept the
    caller's, which no caller uses again. *)
Definition VersionSchemaFromMap (openAPISchema : nmap (any G)) (kindName : string)
  : option VersionSchema * option GoError :=
  let '(raw, err) := fixRaw openAPISchema in
  let raw := rename_kind kindName raw in
  if negb (bool_decide (is_Some (items raw !! kindName))) && nonempty_map raw
  then (None, Some (ErrorString ("kind " +:+ quoted kindName +:+ " not found in map openAPI components")))
  else (Some (mkVersionSchema raw), err).

(** [UnmarshalJSON] and [UnmarshalYAML]: the decoder gives the map, or an error. *)
Definition VersionSchema_Unmarshal (decoded : gmap string (any G) + GoError)
  : VersionSchema * option GoError :=
  match decoded with
  | inr e => (mkVersionSchema (Some ∅), Some e)
  | inl m => let '(raw, err) := fixRaw (Some m) in (mkVersionSchema raw, err)
  end.

(** [MarshalJSON] and [MarshalYAML] encode this. *)
Definition AsOpenAPI3SchemasMap (v : VersionSchema) : nmap (any G) := vs_raw v.

(** ** What a schema promises *)

(** No name of a schema makes the map look like a document or a CRD. *)
Definition openapi_shaped (raw : gmap string (any G)) : Prop :=
  raw !! "components" = None ∧ raw !! "openAPIV3Schema" = None ∧
  (is_Some (raw !! "spec") → spec_is_referenced raw = true).

(** The schema of a kind: its section names the kind, and not the placeholder. *)
Definition schema_of (kindName : string) (v : VersionSchema) : Prop :=
  items (vs_raw v) !! parsedCRDSchemaKindName = None ∧
  (is_Some (items (vs_raw v) !! kindName) ∨ items (vs_raw v) = ∅).

Lemma fixRaw_openapi (raw : nmap (any G)) : openapi_shaped (items raw) → fixRaw raw = (raw, None).
Proof.
  intros (H1 & H2 & H3). unfold fixRaw. rewrite H1, H2.
  destruct (items raw !! "spec") eqn:E; [|done]. by rewrite H3.
Qed.

(** A schema section is kept as it is. *)
Lemma VersionSchemaFromMap_id kindName (v : VersionSchema) :
  schema_of kindName v → openapi_shaped (items (vs_raw v)) →
  VersionSchemaFromMap (vs_raw v) kindName = (Some v, None).
Proof.
  intros [Hk Hn] Ho. unfold VersionSchemaFromMap. rewrite fixRaw_openapi by done.
  unfold rename_kind. rewrite Hk. destruct Hn as [Hn|Hn].
  - rewrite bool_decide_true by done. by destruct v.
  - apply nonempty_map_false in Hn. rewrite Hn, andb_false_r. by destruct v.
Qed.

(** What is read is the schema of the kind. *)
Lemma VersionSchemaFromMap_schema_of raw kindName v err :
  kindName ≠ parsedCRDSchemaKindName →
  VersionSchemaFromMap raw kindName = (Some v, err) → schema_of kindName v.
Proof.
  intros Hne. unfold VersionSchemaFromMap. destruct (fixRaw raw) as [raw' e].
  destruct (_ && _) eqn:E; [done|]. intros [= <- _]. split; cbn [vs_raw].
  - unfold rename_kind. destruct (items raw' !! parsedCRDSchemaKindName) eqn:Ek; [|done].
    cbn. apply lookup_delete_eq.
  - apply andb_false_iff in E as [E|E].
    + left. apply negb_false_iff in E. by apply bool_decide_eq_true in E.
    + right. by apply nonempty_map_false in E.
Qed.

(** What is read from a section that is not empty is not empty. *)
Lemma VersionSchemaFromMap_nil raw kindName v err :
  VersionSchemaFromMap raw kindName = (Some v, err) → raw ≠ None → vs_raw v ≠ None.
Proof.
  unfold VersionSchemaFromMap, rename_kind, fixRaw.
  intros H Hr. repeat case_match; simplify_eq/=; done.
Qed.
End VersionSchema.

Arguments VersionSchema G : clear implicits.
