(* ===== verification/OpenAPI.v ===== *)
(** * Resolving OpenAPI schemas for a CRD ([app/manifest.go])

    [resolveSchema] replaces the references of a schema by what they refer to, cuts
    recursion, and turns [allOf], [anyOf] and [oneOf] into the structural form CRDs ask for.
    [openapi3.Schema] and [openapi3.SchemaRef] are structs of [kin-openapi]; the fields below are
    those the code reads or writes.  A loaded reference carries the schema it refers to;
    the code only reads its [Required] and, of a kind, its [Properties], so a finite
    unrolling of it is enough here.
    What is merged into is always freshly built, so that writing into it is returning it;
    an [append] to a type list is one to a list of its own. *)
From S2P Require Import Prelude GoValues Resource.

#[local] Open Scope string_scope.

(** ** Schemas *)

(** A float64 is only copied: its bits.  Values of a document hold no typed Go values. *)
Definition float64 : Type := Z.
Definition value : Type := any Empty_set.

Record AdditionalProperties (R : Type) := mkAdditionalProperties {
  ap_Has : option bool;
  ap_Schema : option R;
}.
Arguments mkAdditionalProperties {R}.
Arguments ap_Has {R}.
Arguments ap_Schema {R}.

(** The fields that [resolveSchema] and [oapi3SchemaToKubeSchema] only copy. *)
Record SchemaInfo := mkSchemaInfo {
  i_Format : string;
  i_Description : string;
  i_Default : value;
  i_Example : value;
  i_ExclusiveMin : bool;
  i_ExclusiveMax : bool;
  i_Min : option float64;
  i_Max : option float64;
  i_MultipleOf : option float64;
  i_MinLength : Z;
  i_MaxLength : option Z;
  i_Pattern : string;
  i_MinItems : Z;
  i_MaxItems : option Z;
  i_UniqueItems : bool;
  i_MinProps : Z;
  i_MaxProps : option Z;
  i_Enum : list value;
  i_Title : string;
  i_Nullable : bool;
  i_ReadOnly : bool;
  i_WriteOnly : bool;
}.

(** [openapi3.Schema] over the type of references. *)
Record SchemaOf (R : Type) := mkSchema {
  s_Type : nslice string;
  s_Info : SchemaInfo;
  s_Required : list string;
  s_AdditionalProperties : AdditionalProperties R;
  s_AllOf : nslice R;
  s_OneOf : nslice R;
  s_AnyOf : nslice R;
  s_Not : option R;
  s_Items : option R;
  s_Properties : nmap R;
  s_Extensions : nmap value;
}.
Arguments mkSchema {R}.
Arguments s_Type {R}.
Arguments s_Info {R}.
Arguments s_Required {R}.
Arguments s_AdditionalProperties {R}.
Arguments s_AllOf {R}.
Arguments s_OneOf {R}.
Arguments s_AnyOf {R}.
Arguments s_Not {R}.
Arguments s_Items {R}.
Arguments s_Properties {R}.
Arguments s_Extensions {R}.

(** [openapi3.SchemaRef] *)
Inductive SchemaRef := mkSchemaRef (Ref : string) (Value : option (SchemaOf SchemaRef)).

Definition Schema : Type := SchemaOf SchemaRef.
Definition sr_Ref (r : SchemaRef) : string := let 'mkSchemaRef ref _ := r in ref.
Definition sr_Value (r : SchemaRef) : option Schema := let 'mkSchemaRef _ v := r in v.

Definition SchemaInfo_zero : SchemaInfo :=
  mkSchemaInfo "" "" ANil ANil false false None None None 0 None "" 0 None false 0 None [] ""
    false false false.

(** [openapi3.Schema{}] *)
Definition Schema_zero : Schema :=
  mkSchema None SchemaInfo_zero [] (mkAdditionalProperties None None)
    None None None None None None None.

(** Assignments to the fields of a schema. *)
Section Setters.
Context {R : Type} (s : SchemaOf R).
Definition with_Type t := mkSchema t (s_Info s) (s_Required s) (s_AdditionalProperties s)
  (s_AllOf s) (s_OneOf s) (s_AnyOf s) (s_Not s) (s_Items s) (s_Properties s) (s_Extensions s).
Definition with_Required q := mkSchema (s_Type s) (s_Info s) q (s_AdditionalProperties s)
  (s_AllOf s) (s_OneOf s) (s_AnyOf s) (s_Not s) (s_Items s) (s_Properties s) (s_Extensions s).
Definition with_AdditionalProperties a := mkSchema (s_Type s) (s_Info s) (s_Required s) a
  (s_AllOf s) (s_OneOf s) (s_AnyOf s) (s_Not s) (s_Items s) (s_Properties s) (s_Extensions s).
Definition with_AllOf l := mkSchema (s_Type s) (s_Info s) (s_Required s) (s_AdditionalProperties s)
  l (s_OneOf s) (s_AnyOf s) (s_Not s) (s_Items s) (s_Properties s) (s_Extensions s).
Definition with_OneOf l := mkSchema (s_Type s) (s_Info s) (s_Required s) (s_AdditionalProperties s)
  (s_AllOf s) l (s_AnyOf s) (s_Not s) (s_Items s) (s_Properties s) (s_Extensions s).
Definition with_AnyOf l := mkSchema (s_Type s) (s_Info s) (s_Required s) (s_AdditionalProperties s)
  (s_AllOf s) (s_OneOf s) l (s_Not s) (s_Items s) (s_Properties s) (s_Extensions s).
Definition with_Not n := mkSchema (s_Type s) (s_Info s) (s_Required s) (s_AdditionalProperties s)
  (s_AllOf s) (s_OneOf s) (s_AnyOf s) n (s_Items s) (s_Properties s) (s_Extensions s).
Definition with_Items i := mkSchema (s_Type s) (s_Info s) (s_Required s) (s_AdditionalProperties s)
  (s_AllOf s) (s_OneOf s) (s_AnyOf s) (s_Not s) i (s_Properties s) (s_Extensions s).
Definition with_Properties p := mkSchema (s_Type s) (s_Info s) (s_Required s)
  (s_AdditionalProperties s) (s_AllOf s) (s_OneOf s) (s_AnyOf s) (s_Not s) (s_Items s) p
  (s_Extensions s).
Definition with_Extensions e := mkSchema (s_Type s) (s_Info s) (s_Required s)
  (s_AdditionalProperties s) (s_AllOf s) (s_OneOf s) (s_AnyOf s) (s_Not s) (s_Items s)
  (s_Properties s) e.
End Setters.

(** The methods of [*openapi3.Types]. *)
Class KinTypes := {
  Types_Is : nslice string → string → bool;
  Types_Permits : nslice string → string → bool;
  Types_Slice : nslice string → list string;
}.

(** ** Outcomes: a value, an error, a nil-pointer panic, or a computation cut off. *)
Inductive outcome (A : Type) :=
| Ok (a : A)
| Failed (e : GoError)
| Panicked
| OutOfFuel.
Arguments Ok {A} a.
Arguments Failed {A} e.
Arguments Panicked {A}.
Arguments OutOfFuel {A}.

Definition obind {A B} (o : outcome A) (k : A → outcome B) : outcome B :=
  match o with
  | Ok a => k a
  | Failed e => Failed e
  | Panicked => Panicked
  | OutOfFuel => OutOfFuel
  end.
Notation "'try' x := o 'in' k" := (obind o (λ x, k))
  (at level 10, x name, o at level 100, k at level 200) : go_scope.

(** [if err != nil { return fmt.Errorf(prefix + "%w", err) }] *)
Definition on_error {A} (prefix : string) (o : outcome A) : outcome A :=
  match o with Failed e => Failed (WrapError prefix e) | _ => o end.

(** Dereferencing a pointer. *)
Definition deref_ptr {A} (p : option A) : outcome A :=
  match p with Some a => Ok a | None => Panicked end.

(** A loop that ends at the first error. *)
Fixpoint oloop {A S} (f : A → S → outcome S) (l : list A) (s : S) : outcome S :=
  match l with
  | [] => Ok s
  | x :: l => try s' := f x s in oloop f l s'
  end.

(** [a != b] of two values of type [any]: maps and slices cannot be compared. *)
Definition iface_ne (a b : value) : outcome bool :=
  match a, b with
  | ANil, ANil => Ok false
  | ABool x, ABool y => Ok (negb (Bool.eqb x y))
  | ANumber x, ANumber y => Ok (negb (Z.eqb x y))
  | AString x, AString y => Ok (negb (String.eqb x y))
  | AList _, AList _ | AMap _, AMap _ => Panicked
  | _, _ => Ok true
  end.

(** ** [mergeSchemas], [resolveSchema] *)
Section Resolve.
Context `{KT : !KinTypes} `{RO : !RangeOrder}.

Definition NewSchemaRef (ref : string) (v : option Schema) : SchemaRef := mkSchemaRef ref v.

(** The type list of [mergeInto] with the types of [toMerge] it does not permit. *)
Definition merge_types (mergeInto toMerge : nslice string) : nslice string :=
  match mergeInto with
  | None => toMerge
  | Some _ =>
      fold_left (λ ts typ,
        if negb (nonempty_slice ts) || negb (Types_Permits ts typ) then Some (elems ts ++ [typ])%list
        else ts) (Types_Slice toMerge) mergeInto
  end.

(** A key that both have with different values is refused; the message leaves the values out. *)
Definition merge_extension (kv : string * value) (exts : nmap value) : outcome (nmap value) :=
  match items exts !! kv.1 with
  | Some present =>
      try different := iface_ne present kv.2 in
      if different : bool then Failed (ErrorString ("extension mismatch for key " +:+ kv.1))
      else Ok (Some (<[kv.1 := kv.2]> (items exts)))
  | None => Ok (Some (<[kv.1 := kv.2]> (items exts)))
  end.

Definition merge_extensions (mergeInto toMerge : nmap value) : outcome (nmap value) :=
  let start := match mergeInto with
               | None => if nonempty_map toMerge then Some ∅ else None
               | Some _ => mergeInto
               end in
  oloop merge_extension (range_map (items toMerge)) start.

Definition merge_Has (mergeInto toMerge : option bool) : option bool :=
  match mergeInto, toMerge with
  | None, _ => toMerge
  | Some a, Some b => if negb a && b then Some b else mergeInto
  | Some _, None => mergeInto
  end.

Section Merge.
Context (mergeSchemas : Schema → Schema → outcome Schema).

(** The call on [a.Value] and [b.Value], which changes [a.Value]. *)
Definition merge_refs (a b : SchemaRef) : outcome SchemaRef :=
  match sr_Value a, sr_Value b with
  | Some va, Some vb => try v := mergeSchemas va vb in Ok (mkSchemaRef (sr_Ref a) (Some v))
  | _, _ => Panicked
  end.

Definition merge_additional (a b : AdditionalProperties SchemaRef)
  : outcome (AdditionalProperties SchemaRef) :=
  match ap_Has b, ap_Schema b with
  | None, None => Ok a
  | _, _ =>
      try sch := match ap_Schema a with
                 | None => Ok (ap_Schema b)
                 | Some sa =>
                     match ap_Schema b with
                     | None => Ok (Some sa)
                     | Some sb =>
                         try s := on_error "failed to merge additionalProperties schema: "
                                    (merge_refs sa sb) in Ok (Some s)
                     end
                 end in
      Ok (mkAdditionalProperties (merge_Has (ap_Has a) (ap_Has b)) sch)
  end.

(** One property: added, merged when the types are equal, or refused. *)
Definition merge_property (kv : string * SchemaRef) (props : nmap SchemaRef)
  : outcome (nmap SchemaRef) :=
  let '(key, val) := kv in
  match items props !! key with
  | None => Ok (Some (<[key := val]> (items props)))
  | Some present =>
      try pv := deref_ptr (sr_Value present) in
      try pt := deref_ptr (s_Type pv) in
      try vv := deref_ptr (sr_Value val) in
      try vt := deref_ptr (s_Type vv) in
      if bool_decide (pt = vt) then
        try merged := on_error ("failed to merge properties key " +:+ key +:+ ": ")
                        (merge_refs present val) in
        Ok (Some (<[key := merged]> (items props)))
      else Failed (ErrorString ("property " +:+ key +:+ " already defined"))
  end.

Definition merge_properties (mergeInto toMerge : nmap SchemaRef) : outcome (nmap SchemaRef) :=
  let start := match mergeInto with
               | None => if nonempty_map toMerge then Some ∅ else None
               | Some _ => mergeInto
               end in
  oloop merge_property (range_map (items toMerge)) start.

Definition merge_items (mergeInto toMerge : option SchemaRef) : outcome (option SchemaRef) :=
  match toMerge with
  | None => Ok mergeInto
  | Some b =>
      match mergeInto with
      | Some a => try s := on_error "failed to merge items: " (merge_refs a b) in Ok (Some s)
      | None => Ok (Some b)
      end
  end.

(** The body of [mergeSchemas]. *)
Definition merge_body (mergeInto toMerge : Schema) : outcome Schema :=
  let s := with_Type mergeInto (merge_types (s_Type mergeInto) (s_Type toMerge)) in
  try exts := merge_extensions (s_Extensions mergeInto) (s_Extensions toMerge) in
  let s := with_Extensions s exts in
  try additional := merge_additional (s_AdditionalProperties mergeInto)
                      (s_AdditionalProperties toMerge) in
  let s := with_AdditionalProperties s additional in
  try props := merge_properties (s_Properties mergeInto) (s_Properties toMerge) in
  let s := with_Properties s props in
  try its := merge_items (s_Items mergeInto) (s_Items toMerge) in
  Ok (with_Items s its).
End Merge.

Fixpoint merge_fuel (fuel : nat) (mergeInto toMerge : Schema) : outcome Schema :=
  match fuel with
  | 0 => OutOfFuel
  | S fuel => merge_body (merge_fuel fuel) mergeInto toMerge
  end.

(** How deep a schema nests what [mergeSchemas] goes into. *)
Fixpoint ref_depth (r : SchemaRef) : nat :=
  match r with
  | mkSchemaRef _ None => 0
  | mkSchemaRef _ (Some s) =>
      S (Nat.max (from_option ref_depth 0 (ap_Schema (s_AdditionalProperties s)))
          (Nat.max (from_option ref_depth 0 (s_Items s))
            (match s_Properties s with
             | None => 0
             | Some m => map_fold (λ _ p n, Nat.max (ref_depth p) n) 0 m
             end)))
  end.

Definition mergeSchemas (mergeInto toMerge : Schema) : outcome Schema :=
  merge_fuel (ref_depth (mkSchemaRef "" (Some toMerge))) mergeInto toMerge.

Definition extKubernetesPreserveUnknownFields : string := "x-kubernetes-preserve-unknown-fields".

(** [getRefName]: what follows the last slash. *)
Definition getRefName (ref : string) : string := default "" (last (Split ref "/"%char)).

Definition preserve_unknown_fields (s : Schema) : Schema :=
  with_Extensions s (Some (<[extKubernetesPreserveUnknownFields := ABool true]> (items (s_Extensions s)))).

(** What a recursive reference becomes. *)
Definition open_object : Schema :=
  preserve_unknown_fields (with_Type Schema_zero (Some ["object"])).

Section ResolveBody.
Context (resolveSchema : option SchemaRef → gset string → outcome (option Schema)).
Context (components : gmap string SchemaRef) (visited : gset string).

(** The branch of a reference. *)
Definition resolve_reference (ref : string) : outcome (option Schema) :=
  let refName := getRefName ref in
  if decide (refName ∈ visited) then Ok (Some open_object)
  else
    match components !! refName with
    | None => Failed (ErrorString ("referenced schema " +:+ refName +:+ " not found"))
    | Some refSchema =>
        on_error ("failed to resolve reference " +:+ refName +:+ ": ")
          (resolveSchema (Some refSchema) (visited ∪ {[refName]}))
    end.

(** The copy of [sch.Value] that the rest of the function completes. *)
Definition copied (v : Schema) : Schema :=
  mkSchema (s_Type v) (s_Info v) (s_Required v) (s_AdditionalProperties v)
    (Some []) (Some []) (Some []) None None None None.

Definition resolve_additional (result : Schema) : outcome Schema :=
  let additional := s_AdditionalProperties result in
  let none := mkAdditionalProperties None None in
  match ap_Schema additional, ap_Has additional with
  | Some sub, has =>
      try resolved := resolveSchema (Some sub) visited in
      try v := deref_ptr resolved in
      if negb (nonempty_map (s_Properties v)) &&
         (Types_Is (s_Type v) "object" || bool_decide (s_Type v = None))
      then Ok (preserve_unknown_fields (with_AdditionalProperties result none))
      else Ok (with_AdditionalProperties result
                 (mkAdditionalProperties has (Some (NewSchemaRef "" (Some v)))))
  | None, Some true => Ok (preserve_unknown_fields (with_AdditionalProperties result none))
  | None, Some false => Ok (with_AdditionalProperties result none)
  | None, None => Ok result
  end.

(** [additionalProperties: false] is dropped when there are properties. *)
Definition drop_additional (result : Schema) : Schema :=
  let additional := s_AdditionalProperties result in
  match ap_Has additional with
  | Some false =>
      if nonempty_map (s_Properties result)
      then with_AdditionalProperties result (mkAdditionalProperties None (ap_Schema additional))
      else result
  | _ => result
  end.

Definition resolve_property (kv : string * SchemaRef) (props : gmap string SchemaRef)
  : outcome (gmap string SchemaRef) :=
  try resolved := on_error ("failed to resolve property " +:+ kv.1 +:+ ": ")
                    (resolveSchema (Some kv.2) visited) in
  Ok (<[kv.1 := NewSchemaRef "" resolved]> props).

Definition resolve_properties (v result : Schema) : outcome Schema :=
  match s_Properties v with
  | None => Ok result
  | Some props =>
      try resolved := oloop resolve_property (range_map props) ∅ in
      Ok (with_Properties result (Some resolved))
  end.

Definition resolve_items (v result : Schema) : outcome Schema :=
  match s_Items v with
  | None => Ok result
  | Some its =>
      try resolved := on_error "failed to resolve array items: " (resolveSchema (Some its) visited) in
      Ok (with_Items result (Some (NewSchemaRef "" resolved)))
  end.

(** A branch of a group: its entry in the group carries what tells it apart, and the
    rest of it is merged into the result. *)
Definition resolve_branch (message : string) (add : Schema → Schema → Schema)
    (s : SchemaRef) (result : Schema) : outcome Schema :=
  try resolved := on_error message (resolveSchema (Some s) visited) in
  try r := deref_ptr resolved in
  on_error "failed to merge anyOf schemas: " (mergeSchemas (add result r) (with_Required r [])).

Definition required_ref (required : list string) : SchemaRef :=
  NewSchemaRef "" (Some (with_Required Schema_zero required)).

Definition add_allOf (result resolved : Schema) : Schema :=
  with_AllOf result (Some (elems (s_AllOf result) ++ [required_ref (s_Required resolved)])%list).
Definition add_anyOf (result resolved : Schema) : Schema :=
  with_AnyOf result (Some (elems (s_AnyOf result) ++ [required_ref (s_Required resolved)])%list).

(** The entry of a [oneOf] branch excludes the required fields it does not have. *)
Definition oneOf_entry (allRequired : list string) (resolved : Schema) : SchemaRef :=
  let notReq := (λ v, required_ref [v]) <$>
    filter (λ v, items (s_Properties resolved) !! v = None) allRequired in
  let oneOf := with_Required Schema_zero (s_Required resolved) in
  NewSchemaRef "" (Some
    match notReq with
    | [] => oneOf
    | _ => with_Not oneOf (Some (NewSchemaRef "" (Some (with_AnyOf Schema_zero (Some notReq)))))
    end).
Definition add_oneOf (allRequired : list string) (result resolved : Schema) : Schema :=
  with_OneOf result (Some (elems (s_OneOf result) ++ [oneOf_entry allRequired resolved])%list).

Definition all_required (oneOf : list SchemaRef) : outcome (list string) :=
  oloop (λ s acc, try v := deref_ptr (sr_Value s) in Ok (acc ++ s_Required v)%list) oneOf [].

(** The [anyOf] group, which comes last. *)
Definition resolve_anyOf (v result : Schema) : outcome Schema :=
  oloop (resolve_branch "failed to resolve anyOf schema: " add_anyOf) (elems (s_AnyOf v)) result.

(** The [oneOf] group; without required fields the function ends here. *)
Definition resolve_oneOf (v result : Schema) : outcome Schema :=
  match elems (s_OneOf v) with
  | [] => resolve_anyOf v result
  | oneOf =>
      try allRequired := all_required oneOf in
      match allRequired with
      | [] => Ok (preserve_unknown_fields (with_Type (with_OneOf result None) None))
      | _ =>
          try result := oloop (resolve_branch "failed to resolve oneOf schema: " (add_oneOf allRequired))
                          oneOf result in
          resolve_anyOf v result
      end
  end.

Definition resolve_value (v : Schema) : outcome Schema :=
  try result := resolve_additional (copied v) in
  let result := drop_additional result in
  try result := resolve_properties v result in
  try result := resolve_items v result in
  try result := oloop (resolve_branch "failed to resolve allOf schema: " add_allOf)
                  (elems (s_AllOf v)) result in
  resolve_oneOf v result.

Definition resolve_body (sch : option SchemaRef) : outcome (option Schema) :=
  match sch with
  | None => Ok None
  | Some (mkSchemaRef ref v) =>
      if negb (String.eqb ref "") then resolve_reference ref
      else try v := deref_ptr v in try result := resolve_value v in Ok (Some result)
  end.
End ResolveBody.

Fixpoint resolve_fuel (fuel : nat) (components : gmap string SchemaRef) (sch : option SchemaRef)
    (visited : gset string) : outcome (option Schema) :=
  match fuel with
  | 0 => OutOfFuel
  | S fuel => resolve_body (λ s vis, resolve_fuel fuel components s vis) components visited sch
  end.

(** How deep a schema nests up to its references. *)
Fixpoint schema_depth (r : SchemaRef) : nat :=
  match r with
  | mkSchemaRef ref v =>
      if negb (String.eqb ref "") then 0
      else
        match v with
        | None => 0
        | Some s =>
            let list_depth l :=
              match l with None => 0 | Some l => foldr (λ p n, Nat.max (schema_depth p) n) 0 l end in
            S (Nat.max (from_option schema_depth 0 (ap_Schema (s_AdditionalProperties s)))
                (Nat.max (from_option schema_depth 0 (s_Items s))
                  (Nat.max (list_depth (s_AllOf s))
                    (Nat.max (list_depth (s_OneOf s))
                      (Nat.max (list_depth (s_AnyOf s))
                        (Nat.max (from_option schema_depth 0 (s_Not s))
                          (match s_Properties s with
                           | None => 0
                           | Some m => map_fold (λ _ p n, Nat.max (schema_depth p) n) 0 m
                           end)))))))
        end
  end.

Definition max_depth (components : gmap string SchemaRef) : nat :=
  map_fold (λ _ p n, Nat.max (schema_depth p) n) 0 components.

(** A reference is followed once on every path: enough fuel for all of them. *)
Definition resolve_bound (components : gmap string SchemaRef) (sch : option SchemaRef)
    (visited : gset string) : nat :=
  S (from_option schema_depth 0 sch +
     size (dom components ∖ visited) * S (max_depth components)).

Definition resolveSchema (sch : option SchemaRef) (components : gmap string SchemaRef)
    (visitedBefore : gset string) : outcome (option Schema) :=
  resolve_fuel (resolve_bound components sch visitedBefore) components sch visitedBefore.

(** [GetCRDOpenAPISchema]: the properties every object has are taken out first. *)
Definition without_object_properties (s : Schema) : Schema :=
  with_Properties s
    ((λ m, delete "apiVersion" (delete "kind" (delete "metadata" m))) <$> s_Properties s).

(** The components that share the value of [name]: a reference has the value of its target. *)
Fixpoint sharing (fuel : nat) (schemas : gmap string SchemaRef) (name : string) : list string :=
  match fuel with
  | 0 => []
  | S fuel =>
      name :: match schemas !! name with
              | Some (mkSchemaRef ref _) =>
                  if negb (String.eqb ref "") then sharing fuel schemas (getRefName ref) else []
              | None => []
              end
  end.

Definition strip (r : SchemaRef) : SchemaRef :=
  mkSchemaRef (sr_Ref r) (without_object_properties <$> sr_Value r).

(** The properties are deleted from the components themselves. *)
Definition GetCRDOpenAPISchema (components : nmap SchemaRef) (schemaName : string)
  : outcome (option Schema) :=
  match components with
  | None => Failed (ErrorString "invalid components or schemas")
  | Some schemas =>
      match schemas !! schemaName with
      | None => Failed (ErrorString ("schema " +:+ schemaName +:+ " not found"))
      | Some _ =>
          let schemas := foldr (alter strip) schemas (sharing (size schemas) schemas schemaName) in
          resolveSchema (schemas !! schemaName) schemas ∅
      end
  end.
End Resolve.
