(* ===== verification/CRDSchema.v ===== *)
(** * Schemas of CRDs ([app/manifest.go])

    [resolveSchema] ends on every schema, with references that go round in circles too, and
    what it returns is structural; schemas with types are resolved without a nil-pointer
    panic.  [AsCRDOpenAPI3] and [AsCRDMap] on top of it. *)
From S2P Require Import Prelude GoValues Resource VersionSchema OpenAPI.

#[local] Open Scope string_scope.

(** ** [VersionSchema] as OpenAPI *)
Section AsCRD.
Context {G : Type} `{KT : !KinTypes} `{RO : !RangeOrder}.

(** [kin-openapi]'s loader on the YAML of a document with these schemas, and
    [encoding/json] on properties. *)
Context (load : nmap (any G) → outcome (nmap SchemaRef)).
Context (json_Marshal : nmap SchemaRef → string + GoError).
Context (json_Unmarshal : string → gmap string (any G) + GoError).

(** [AsOpenAPI3]: the [Schemas] of the components. *)
Definition AsOpenAPI3 (v : VersionSchema G) : outcome (nmap SchemaRef) :=
  load (AsOpenAPI3SchemasMap v).

Definition AsCRDOpenAPI3 (v : VersionSchema G) (kindObjectName : string)
  : outcome (option Schema) :=
  try components := AsOpenAPI3 v in
  if negb (bool_decide (is_Some (items components !! kindObjectName))) &&
     negb (bool_decide (is_Some (items components !! parsedCRDSchemaKindName)))
  then GetCRDOpenAPISchema components parsedCRDSchemaKindName
  else GetCRDOpenAPISchema components kindObjectName.

Definition AsCRDMap (v : VersionSchema G) (kindObjectName : string)
  : outcome (gmap string (any G)) :=
  try sch := AsCRDOpenAPI3 v kindObjectName in
  try s := deref_ptr sch in
  match json_Marshal (s_Properties s) with
  | inr e => Failed (WrapError "error marshaling CRD OpenAPI Schema: " e)
  | inl b =>
      match json_Unmarshal b with
      | inr e => Failed (WrapError "error unmarshaling CRD OpenAPI bytes to map[string]any: " e)
      | inl dest => Ok dest
      end
  end.
End AsCRD.

(** ** What holds of an outcome that is not cut off; [p] says whether it may panic. *)
Definition wp {A} (p : Prop) (o : outcome A) (P : A → Prop) : Prop :=
  match o with
  | Ok a => P a
  | Failed _ => True
  | Panicked => p
  | OutOfFuel => False
  end.

Lemma wp_mono {A} p (o : outcome A) (P Q : A → Prop) :
  wp p o P → (∀ a, P a → Q a) → wp p o Q.
Proof. destruct o; simpl; auto. Qed.

Lemma wp_bind {A B} p (o : outcome A) (k : A → outcome B) P :
  wp p o (λ a, wp p (k a) P) → wp p (obind o k) P.
Proof. by destruct o. Qed.

Lemma wp_on_error {A} p m (o : outcome A) P : wp p o P → wp p (on_error m o) P.
Proof. by destruct o. Qed.

Lemma wp_deref {A} (p : Prop) (x : option A) (P : A → Prop) :
  (∀ a, x = Some a → P a) → (x = None → p) → wp p (deref_ptr x) P.
Proof. destruct x; simpl; auto. Qed.

(** An invariant of a loop. *)
Lemma wp_loop {A S} p (f : A → S → outcome S) (l : list A) (I : S → Prop) s :
  (∀ x s, x ∈ l → I s → wp p (f x s) I) → I s → wp p (oloop f l s) I.
Proof.
  revert s. induction l as [|x l IH]; intros s Hf Hs; [done|].
  simpl. apply wp_bind. eapply wp_mono; [apply Hf; [left | done] |].
  intros s' Hs'. apply IH; [|done]. intros y s0 Hy. apply Hf. by right.
Qed.

Create HintDb outcome discriminated.
#[export] Hint Resolve wp_on_error : outcome.

(** ** Structural schemas *)

(** What [mergeSchemas] goes into, and what [resolveSchema] goes into. *)
Definition child (s : Schema) (r : SchemaRef) : Prop :=
  ap_Schema (s_AdditionalProperties s) = Some r ∨ s_Items s = Some r ∨
  ∃ k, items (s_Properties s) !! k = Some r.

Definition subschema (s : Schema) (r : SchemaRef) : Prop :=
  child s r ∨ r ∈ elems (s_AllOf s) ∨ r ∈ elems (s_OneOf s) ∨ r ∈ elems (s_AnyOf s).

(** An entry of a group only says which fields are required, or must be missing. *)
Definition discriminates (r : SchemaRef) : Prop :=
  ∃ required excluded, r = mkSchemaRef "" (Some (with_Not (with_Required Schema_zero required)
    (match excluded with
     | [] => None
     | _ => Some (mkSchemaRef "" (Some (with_AnyOf Schema_zero
              (Some ((λ v : string, required_ref [v]) <$> excluded)))))
     end))).

Definition only_open (e : nmap value) : Prop :=
  ∀ k v, items e !! k = Some v → k = extKubernetesPreserveUnknownFields ∧ v = ABool true.

(** A schema without references, whose groups only discriminate; with [t], all of it has
    types. *)
Inductive structural (t : bool) (s : Schema) : Prop :=
| structural_intro
    (st_type : t = true → s_Type s ≠ None)
    (st_extensions : only_open (s_Extensions s))
    (st_groups : ∀ l, l = s_AllOf s ∨ l = s_OneOf s ∨ l = s_AnyOf s → Forall discriminates (elems l))
    (st_not : s_Not s = None)
    (st_children : ∀ r, child s r → ∃ v, r = mkSchemaRef "" (Some v) ∧ structural t v).

(** A schema in which everything but references has a type, and the branches of a [oneOf]
    require some field. *)
Inductive typed : SchemaRef → Prop :=
| typed_reference ref v : ref ≠ "" → typed (mkSchemaRef ref (Some v))
| typed_value s :
    s_Type s ≠ None →
    (∀ r, subschema s r → typed r) →
    (elems (s_OneOf s) ≠ [] →
     ∃ r v, r ∈ elems (s_OneOf s) ∧ sr_Value r = Some v ∧ s_Required v ≠ []) →
    typed (mkSchemaRef "" (Some s)).

(** ** Depths *)
Lemma map_fold_max_le {A} (f : A → nat) (m : gmap string A) k r :
  m !! k = Some r → (f r ≤ map_fold (λ _ p n, Nat.max (f p) n) 0 m)%nat.
Proof.
  revert k r. apply (map_fold_weak_ind (λ n m, ∀ k r, m !! k = Some r → (f r ≤ n)%nat)).
  - done.
  - intros i x m' n Hi IH k r. rewrite lookup_insert_Some.
    intros [[<- ->]|[_ H]]; [lia|]. apply IH in H. lia.
Qed.

Lemma foldr_max_le {A} (f : A → nat) (l : list A) r :
  r ∈ l → (f r ≤ foldr (λ p n, Nat.max (f p) n) 0 l)%nat.
Proof. induction 1; simpl; lia. Qed.

Lemma child_depth s r : child s r → (ref_depth r < ref_depth (mkSchemaRef "" (Some s)))%nat.
Proof.
  simpl. intros [H|[H|[k H]]].
  - rewrite H. simpl. lia.
  - rewrite H. simpl. lia.
  - destruct (s_Properties s) as [m|]; [|done].
    change (m !! k = Some r) in H. apply (map_fold_max_le ref_depth) in H. lia.
Qed.

Lemma subschema_depth s r :
  subschema s r → (schema_depth r < schema_depth (mkSchemaRef "" (Some s)))%nat.
Proof.
  simpl. intros [[H|[H|[k H]]]|[H|[H|H]]].
  - rewrite H. simpl. lia.
  - rewrite H. simpl. lia.
  - destruct (s_Properties s) as [m|]; [|done].
    change (m !! k = Some r) in H. apply (map_fold_max_le schema_depth) in H. lia.
  - destruct (s_AllOf s) as [l|]; [|by apply elem_of_nil in H].
    change (r ∈ l) in H. apply (foldr_max_le schema_depth) in H. lia.
  - destruct (s_OneOf s) as [l|]; [|by apply elem_of_nil in H].
    change (r ∈ l) in H. apply (foldr_max_le schema_depth) in H. lia.
  - destruct (s_AnyOf s) as [l|]; [|by apply elem_of_nil in H].
    change (r ∈ l) in H. apply (foldr_max_le schema_depth) in H. lia.
Qed.

(** ** Merging *)
Section Merging.
Context `{KT : !KinTypes} `{RO : !RangeOrder}.
Context (t : bool).
Abbreviation wpt := (wp (t = false)).

Definition structural_ref (r : SchemaRef) : Prop :=
  ∃ v, r = mkSchemaRef "" (Some v) ∧ structural t v.

Definition structural_props (p : nmap SchemaRef) : Prop :=
  ∀ k r, items p !! k = Some r → structural_ref r.

Lemma merge_types_some a b : a ≠ None → merge_types a b ≠ None.
Proof.
  intros Ha.
  assert (∀ l (s : nslice string), s ≠ None → fold_left (λ ts typ,
    if negb (nonempty_slice ts) || negb (Types_Permits ts typ) then Some (elems ts ++ [typ])%list
    else ts) l s ≠ None) as H.
  { induction l as [|x l IH]; intros s0 Hs; [done|]. simpl. apply IH. by case_match. }
  destruct a as [ta|]; [|done]. by apply H.
Qed.

Lemma merge_extensions_ok a b :
  only_open a → only_open b → wpt (merge_extensions a b) only_open.
Proof.
  intros Ha Hb. unfold merge_extensions. apply wp_loop.
  - intros [k v] e Hkv He. apply elem_of_range_map, Hb in Hkv as [-> ->].
    unfold merge_extension. cbn [fst snd].
    assert (only_open (Some (<[extKubernetesPreserveUnknownFields := ABool true]> (items e)))) as Hn.
    { intros k v. simpl. rewrite lookup_insert_Some. intros [[<- <-]|[_ H]]; [done | by apply He]. }
    destruct (items e !! _) as [w|] eqn:Ew; [|done].
    apply He in Ew as [_ ->]. done.
  - destruct a; [done|]. by destruct (nonempty_map b).
Qed.

Lemma deref_type v (P : list string → Prop) :
  structural t v → (∀ ts, P ts) → wpt (deref_ptr (s_Type v)) P.
Proof.
  intros [Ht _ _ _ _] HP. apply wp_deref; [auto|]. intros Hn. destruct t; [|done].
  by destruct Ht.
Qed.

Lemma structural_child s r : structural t s → child s r → structural_ref r.
Proof. intros [_ _ _ _ Hc] H. by apply Hc. Qed.

Section MergeBody.
Context (merge : Schema → Schema → outcome Schema) (n : nat).
Context (Hmerge : ∀ a b, structural t a → structural t b →
  (ref_depth (mkSchemaRef "" (Some b)) ≤ n)%nat → wpt (merge a b) (structural t)).

Lemma merge_refs_ok a b :
  structural_ref a → structural_ref b → (ref_depth b ≤ n)%nat →
  wpt (merge_refs merge a b) structural_ref.
Proof using Hmerge.
  intros (va & -> & Ha) (vb & -> & Hb) Hn. apply wp_bind.
  eapply wp_mono; [by apply Hmerge|]. intros v Hv. by exists v.
Qed.

Lemma merge_additional_ok a b :
  (∀ r, ap_Schema a = Some r → structural_ref r) →
  (∀ r, ap_Schema b = Some r → structural_ref r ∧ (ref_depth r ≤ n)%nat) →
  wpt (merge_additional merge a b) (λ c, ∀ r, ap_Schema c = Some r → structural_ref r).
Proof using Hmerge.
  intros Ha Hb. unfold merge_additional.
  assert (wpt (match ap_Schema a with
               | None => Ok (ap_Schema b)
               | Some sa => match ap_Schema b with
                  | None => Ok (Some sa)
                  | Some sb => try s := on_error "failed to merge additionalProperties schema: "
                                (merge_refs merge sa sb) in Ok (Some s)
                  end
               end) (λ o, ∀ r, o = Some r → structural_ref r)) as Hs.
  { destruct (ap_Schema a) as [sa|] eqn:Ea; [|intros r E; by apply Hb].
    destruct (ap_Schema b) as [sb|]; [|simpl; intros r [= <-]; by apply Ha].
    destruct (Hb sb eq_refl) as [Hsb Hd].
    apply wp_bind, wp_on_error. eapply wp_mono; [apply merge_refs_ok; auto|].
    intros s Hs r [= <-]. done. }
  destruct (ap_Has b); [|destruct (ap_Schema b) eqn:Eb; [|by simpl; auto]];
    apply wp_bind; (eapply wp_mono; [exact Hs|]; intros o Ho r; apply Ho).
Qed.

Lemma merge_property_ok key val props :
  structural_ref val → (ref_depth val ≤ n)%nat → structural_props props →
  wpt (merge_property merge (key, val) props) structural_props.
Proof using Hmerge.
  intros Hval Hd Hp. unfold merge_property.
  assert (∀ r, structural_ref r → structural_props (Some (<[key := r]> (items props)))) as Hins.
  { intros r Hr k r'. simpl. rewrite lookup_insert_Some. intros [[<- <-]|[_ H]]; [done|].
    by apply (Hp k). }
  destruct (items props !! key) as [present|] eqn:E; [|by apply Hins].
  apply Hp in E as (pv & -> & Hpv). destruct Hval as (vv & -> & Hvv).
  simpl (deref_ptr (sr_Value _)). unfold obind at 1.
  apply wp_bind, deref_type; [done|]. intros pt. unfold obind at 1.
  apply wp_bind, deref_type; [done|]. intros vt. case_bool_decide; [|done].
  apply wp_bind, wp_on_error. eapply wp_mono.
  - apply merge_refs_ok; [by exists pv | by exists vv | done].
  - intros r Hr. by apply Hins.
Qed.

Lemma merge_properties_ok a b :
  structural_props a →
  (∀ k r, items b !! k = Some r → structural_ref r ∧ (ref_depth r ≤ n)%nat) →
  wpt (merge_properties merge a b) structural_props.
Proof using Hmerge.
  intros Ha Hb. unfold merge_properties. apply wp_loop.
  - intros [k v] props Hkv Hp. apply elem_of_range_map, Hb in Hkv as [Hv Hd].
    by apply merge_property_ok.
  - destruct a; [done|]. by destruct (nonempty_map b).
Qed.

Lemma merge_items_ok a b :
  (∀ r, a = Some r → structural_ref r) →
  (∀ r, b = Some r → structural_ref r ∧ (ref_depth r ≤ n)%nat) →
  wpt (merge_items merge a b) (λ o, ∀ r, o = Some r → structural_ref r).
Proof using Hmerge.
  intros Ha Hb. destruct b as [b|]; [|done]. destruct (Hb b eq_refl) as [Hsb Hd].
  destruct a as [a|]; [|simpl; by intros r [= <-]].
  apply wp_bind, wp_on_error. eapply wp_mono; [apply merge_refs_ok; auto|].
  by intros s Hs r [= <-].
Qed.

Lemma merge_body_ok a b :
  structural t a → structural t b → (ref_depth (mkSchemaRef "" (Some b)) ≤ S n)%nat →
  wpt (merge_body merge a b) (structural t).
Proof using Hmerge.
  intros Ha Hb Hd.
  assert (∀ r, child b r → structural_ref r ∧ (ref_depth r ≤ n)%nat) as Hcb.
  { intros r Hr. split; [by eapply structural_child|]. apply child_depth in Hr. lia. }
  pose proof (λ r, structural_child a r Ha) as Hca.
  destruct Ha as [Ht He Hg Hn _]. destruct Hb as [_ Heb _ _ _].
  apply wp_bind. eapply wp_mono; [by apply merge_extensions_ok|]. intros exts Hexts.
  apply wp_bind. eapply wp_mono.
  { apply merge_additional_ok; [intros r E; apply Hca | intros r E; apply Hcb]; by left. }
  intros ap Hap. apply wp_bind. eapply wp_mono.
  { apply merge_properties_ok; [intros k r E; apply Hca | intros k r E; apply Hcb];
      right; right; by exists k. }
  intros props Hprops. apply wp_bind. eapply wp_mono.
  { apply merge_items_ok; [intros r E; apply Hca | intros r E; apply Hcb]; right; by left. }
  intros its Hits. split; simpl; try done.
  - intros Et. by apply merge_types_some, Ht.
  - intros r [H|[H|[k H]]]; [by apply Hap | by apply Hits | by apply (Hprops k)].
Qed.
End MergeBody.

Lemma merge_fuel_ok n a b :
  structural t a → structural t b → (ref_depth (mkSchemaRef "" (Some b)) ≤ n)%nat →
  wpt (merge_fuel n a b) (structural t).
Proof.
  revert a b. induction n as [|n IH]; intros a b Ha Hb Hd; [simpl in Hd; lia|].
  simpl. eapply merge_body_ok; eauto.
Qed.

(** A merge of structural schemas ends, and is structural. *)
Lemma mergeSchemas_ok a b :
  structural t a → structural t b → wpt (mergeSchemas a b) (structural t).
Proof. intros Ha Hb. by apply merge_fuel_ok. Qed.
End Merging.

(** ** Resolving *)
Section Resolving.
Context `{KT : !KinTypes} `{RO : !RangeOrder}.
Context (t : bool).
Abbreviation wpt := (wp (t = false)).

Lemma only_open_insert e :
  only_open e →
  only_open (Some (<[extKubernetesPreserveUnknownFields := ABool true]> (items e))).
Proof.
  intros He k v. simpl. rewrite lookup_insert_Some.
  intros [[<- <-]|[_ H]]; [done | by apply He].
Qed.

Lemma structural_preserve s : structural t s → structural t (preserve_unknown_fields s).
Proof. intros [Ht He Hg Hn Hc]. split; simpl; try done. by apply only_open_insert. Qed.

Lemma structural_Required s q : structural t s → structural t (with_Required s q).
Proof. by intros [Ht He Hg Hn Hc]. Qed.

Lemma structural_AdditionalProperties s a :
  structural t s → (∀ r, ap_Schema a = Some r → structural_ref t r) →
  structural t (with_AdditionalProperties s a).
Proof.
  intros [Ht He Hg Hn Hc] Ha. split; simpl; try done.
  intros r [H|[H|[k H]]]; [by apply Ha| |]; apply Hc; right; [by left | right; by exists k].
Qed.

Lemma structural_Items s r :
  structural t s → structural_ref t r → structural t (with_Items s (Some r)).
Proof.
  intros [Ht He Hg Hn Hc] Hr. split; simpl; try done.
  intros r' [H|[[= <-]|[k H]]]; [apply Hc; by left | done | apply Hc; right; right; by exists k].
Qed.

Lemma structural_Properties s p :
  structural t s → structural_props t p → structural t (with_Properties s p).
Proof.
  intros [Ht He Hg Hn Hc] Hp. split; simpl; try done.
  intros r' [H|[H|[k H]]]; [apply Hc; by left | apply Hc; right; by left | by apply (Hp k)].
Qed.

Lemma discriminates_required q : discriminates (required_ref q).
Proof. by exists q, []. Qed.

Lemma discriminates_oneOf all r : discriminates (oneOf_entry all r).
Proof.
  unfold oneOf_entry. exists (s_Required r), (filter (λ v, items (s_Properties r) !! v = None) all).
  by destruct (filter _ all).
Qed.

Lemma Forall_snoc {A} (P : A → Prop) l x : Forall P l → P x → Forall P (l ++ [x])%list.
Proof. intros Hl Hx. apply Forall_app. by split; [|constructor]. Qed.

Lemma structural_add (add : Schema → Schema → Schema) all s r :
  add = add_allOf ∨ add = add_anyOf ∨ add = add_oneOf all →
  structural t s → structural t (add s r).
Proof.
  intros Hadd [Ht He Hg Hn Hc].
  assert (∀ l x, (l = s_AllOf s ∨ l = s_OneOf s ∨ l = s_AnyOf s) → discriminates x →
    Forall discriminates (elems (Some (elems l ++ [x])%list))) as Hs.
  { intros l x Hl Hx. simpl. by apply Forall_snoc; [apply Hg|]. }
  destruct Hadd as [->|[->| ->]]; split; simpl; try done;
    intros l [->|[->| ->]];
    first [by apply Hg; auto | apply Hs; auto using discriminates_required, discriminates_oneOf].
Qed.

Definition resolved (o : option Schema) : Prop := ∃ v, o = Some v ∧ structural t v.

Lemma resolved_ref o : resolved o → structural_ref t (NewSchemaRef "" o).
Proof. intros (v & -> & Hv). by exists v. Qed.

Lemma resolved_deref o (P : Schema → Prop) :
  resolved o → (∀ v, structural t v → P v) → wpt (deref_ptr o) P.
Proof. intros (v & -> & Hv) HP. by apply HP. Qed.

Lemma structural_open_object : structural t open_object.
Proof.
  apply structural_preserve. split; simpl; try done.
  - by intros l [->|[->| ->]].
  - by intros r [?|[?|[k ?]]].
Qed.

Lemma all_required_ok (l : list SchemaRef) acc :
  (∀ r, r ∈ l → t = true → sr_Value r ≠ None) →
  wpt (oloop (λ s acc, try v := deref_ptr (sr_Value s) in Ok (acc ++ s_Required v)%list) l acc)
    (λ q, (acc ≠ [] ∨ ∃ r v, r ∈ l ∧ sr_Value r = Some v ∧ s_Required v ≠ []) → q ≠ []).
Proof.
  revert acc. induction l as [|r l IH]; intros acc Hl.
  - simpl. intros [H|(r & v & H & _)]; [done | by apply elem_of_nil in H].
  - simpl. apply wp_bind, wp_bind, wp_deref.
    + intros v Hv. simpl. eapply wp_mono; [apply IH; intros; apply Hl; [by right | done]|].
      intros q Hq H. apply Hq. destruct H as [H|(r' & v' & Hr' & Hv' & Hq')].
      * left. by destruct acc.
      * apply elem_of_cons in Hr' as [->|Hr']; [|right; by exists r', v'].
        left. rewrite Hv in Hv'. injection Hv' as <-. intros [_ ?]%app_nil. done.
    + intros Hv. destruct t; [|done]. by destruct (Hl r (list_elem_of_here _ _) eq_refl).
Qed.

Section Body.
Context (f : option SchemaRef → gset string → outcome (option Schema)) (v : Schema).
Context (visited : gset string).
Context (Hf : ∀ r, subschema v r → (t = true → typed r) → wpt (f (Some r) visited) resolved).

(** What holds of a schema whose parts can be resolved. *)
Definition resolvable : Prop :=
  (t = true → s_Type v ≠ None) ∧
  (∀ r, subschema v r → t = true → typed r) ∧
  (t = true → elems (s_OneOf v) ≠ [] →
   ∃ r v', r ∈ elems (s_OneOf v) ∧ sr_Value r = Some v' ∧ s_Required v' ≠ []).

Context (Hv : resolvable).

Lemma sub_ok r : subschema v r → wpt (f (Some r) visited) resolved.
Proof using Hf Hv. destruct Hv as (_ & H & _). intros Hr. by apply Hf; [|apply H]. Qed.

Lemma resolve_additional_ok :
  wpt (resolve_additional f visited (copied v)) (structural t).
Proof using Hf Hv.
  destruct (id Hv) as (Ht & _ & _). unfold resolve_additional.
  assert (∀ a, (∀ r, ap_Schema a = Some r → structural_ref t r) →
    structural t (with_AdditionalProperties (copied v) a)) as Hc.
  { intros a Ha. split; simpl; try done.
    - by intros l [->|[->| ->]].
    - intros r [H|[H|[k H]]]; [by apply Ha | done | done]. }
  assert (structural t (with_AdditionalProperties (copied v) (mkAdditionalProperties None None)))
    as Hnone by by apply Hc.
  cbn [s_AdditionalProperties copied]. destruct (ap_Schema _) as [sub|] eqn:E.
  - apply wp_bind. eapply wp_mono; [apply (sub_ok sub); by left; left|].
    intros o Ho. apply wp_bind, resolved_deref; [done|]. intros r Hr. case_match.
    + by apply structural_preserve.
    + apply Hc. intros ? [= <-]. by exists r.
  - destruct (ap_Has _) as [[]|] eqn:Eh; simpl.
    + by apply structural_preserve.
    + done.
    + specialize (Hc (s_AdditionalProperties v)). rewrite E in Hc. by apply Hc.
Qed.

Lemma drop_additional_ok s : structural t s → structural t (drop_additional s).
Proof.
  intros Hs. unfold drop_additional. repeat case_match; try done.
  apply structural_AdditionalProperties; [done|]. intros r Hr.
  eapply structural_child; [done | by left].
Qed.

Lemma resolve_properties_ok s :
  structural t s → wpt (resolve_properties f visited v s) (structural t).
Proof using Hf Hv.
  intros Hs. unfold resolve_properties. destruct (s_Properties v) as [props|] eqn:E; [|done].
  apply wp_bind. apply wp_mono with (P := λ m, structural_props t (Some m)).
  - apply wp_loop; [|by intros k r]. intros [k r] m Hkr Hm. apply elem_of_range_map in Hkr.
    apply wp_bind, wp_on_error. eapply wp_mono.
    { apply (sub_ok r). left. right. right. exists k. by rewrite E. }
    intros o Ho k' r'. cbn. rewrite lookup_insert_Some.
    intros [[<- <-]|[_ H]]; [by apply resolved_ref | by apply (Hm k')].
  - intros m Hm. by apply structural_Properties.
Qed.

Lemma resolve_items_ok s :
  structural t s → wpt (resolve_items f visited v s) (structural t).
Proof using Hf Hv.
  intros Hs. unfold resolve_items. destruct (s_Items v) as [its|] eqn:E; [|done].
  apply wp_bind, wp_on_error.
  eapply wp_mono; [apply (sub_ok its); left; right; by left|].
  intros o Ho. by apply structural_Items; [|apply resolved_ref].
Qed.

Lemma resolve_branch_ok message add all r s :
  add = add_allOf ∨ add = add_anyOf ∨ add = add_oneOf all →
  subschema v r → structural t s →
  wpt (resolve_branch f visited message add r s) (structural t).
Proof using Hf Hv.
  intros Hadd Hr Hs. apply wp_bind, wp_on_error.
  eapply wp_mono; [by apply (sub_ok r)|]. intros o Ho.
  apply wp_bind, resolved_deref; [done|]. intros x Hx. apply wp_on_error, mergeSchemas_ok.
  - by eapply structural_add.
  - by apply structural_Required.
Qed.

Lemma resolve_anyOf_ok s :
  structural t s → wpt (resolve_anyOf f visited v s) (structural t).
Proof using Hf Hv.
  intros Hs. apply wp_loop; [|done]. intros r s' Hr Hs'.
  apply (resolve_branch_ok _ _ []); [tauto | by right; right; right | done].
Qed.

Lemma resolve_oneOf_ok s :
  structural t s → wpt (resolve_oneOf f visited v s) (structural t).
Proof using Hf Hv.
  intros Hs. unfold resolve_oneOf. destruct (elems (s_OneOf v)) as [|r0 rs] eqn:E.
  { by apply resolve_anyOf_ok. }
  rewrite <- E. destruct (id Hv) as (_ & Hsub & Hone).
  apply wp_bind. eapply wp_mono.
  { apply all_required_ok. intros r Hr Et. destruct (Hsub r); [by right; right; left | done..]. }
  intros q Hq. destruct q as [|q0 q].
  - destruct t.
    + exfalso. apply Hq; [|done]. right. apply Hone; [done|]. by rewrite E.
    + destruct Hs as [_ He Hg Hn Hc]. split; simpl; try done.
      * by apply only_open_insert.
      * intros l [->|[->| ->]]; [apply Hg; auto | done | apply Hg; auto].
  - apply wp_bind. apply wp_mono with (P := structural t); [|intros; by apply resolve_anyOf_ok].
    apply wp_loop; [|done]. intros r s' Hr Hs'.
    eapply resolve_branch_ok; [by right; right | by right; right; left | done].
Qed.

Lemma resolve_value_ok : wpt (resolve_value f visited v) (structural t).
Proof using Hf Hv.
  unfold resolve_value.
  apply wp_bind. eapply wp_mono; [by apply resolve_additional_ok|]. intros s1 H1.
  apply wp_bind. eapply wp_mono; [by apply resolve_properties_ok, drop_additional_ok|]. intros s2 H2.
  apply wp_bind. eapply wp_mono; [by apply resolve_items_ok|]. intros s3 H3.
  apply wp_bind. apply wp_mono with (P := structural t); [|intros; by apply resolve_oneOf_ok].
  apply wp_loop; [|done]. intros r s' Hr Hs'.
  apply (resolve_branch_ok _ _ []); [tauto | by right; left | done].
Qed.
End Body.

Section Fuel.
Context (components : gmap string SchemaRef).
Context (Htyped : t = true → ∀ k r, components !! k = Some r → typed r).

Lemma visit_decreases (visited : gset string) k :
  is_Some (components !! k) → k ∉ visited →
  (size (dom components ∖ (visited ∪ {[k]})) < size (dom components ∖ visited))%nat.
Proof.
  intros Hk%elem_of_dom Hv. apply subset_size. split.
  - intros x. rewrite !elem_of_difference, elem_of_union. tauto.
  - intros H. assert (k ∈ dom components ∖ visited) as Hin%H by by apply elem_of_difference.
    apply elem_of_difference in Hin as [_ []]. by apply elem_of_union_r, elem_of_singleton.
Qed.

Lemma bound_subschema s r visited :
  subschema s r →
  (resolve_bound components (Some r) visited <
   resolve_bound components (Some (mkSchemaRef "" (Some s))) visited)%nat.
Proof. intros H%subschema_depth. unfold resolve_bound. cbn [from_option]. lia. Qed.

Lemma bound_reference ref v r visited :
  negb (String.eqb ref "") = true → components !! getRefName ref = Some r →
  getRefName ref ∉ visited →
  (resolve_bound components (Some r) (visited ∪ {[getRefName ref]}) <
   resolve_bound components (Some (mkSchemaRef ref v)) visited)%nat.
Proof.
  intros Eref Er Hv.
  assert (schema_depth r ≤ max_depth components)%nat by by eapply map_fold_max_le.
  pose proof (visit_decreases visited (getRefName ref) ltac:(by eexists) Hv) as Hs.
  unfold resolve_bound. cbn [from_option]. revert Hs.
  generalize (size (dom components ∖ visited)), (size (dom components ∖ (visited ∪ {[getRefName ref]}))).
  intros a b ?. assert (S b * S (max_depth components) ≤ a * S (max_depth components))%nat by nia.
  lia.
Qed.

Lemma typed_resolvable s :
  (t = true → typed (mkSchemaRef "" (Some s))) →
  resolvable s.
Proof.
  intros H. split; [|split].
  - intros Et. specialize (H Et). by inversion H.
  - intros r Hr Et. specialize (H Et). inversion H; subst; [done | by auto].
  - intros Et. specialize (H Et). by inversion H.
Qed.

(** A reference costs one unit, and the references left to follow get fewer. *)
Lemma resolve_fuel_ok fuel sch visited :
  (t = true → typed sch) →
  (resolve_bound components (Some sch) visited ≤ fuel)%nat →
  wpt (resolve_fuel fuel components (Some sch) visited) resolved.
Proof using Htyped.
  revert sch visited. induction fuel as [|fuel IH]; intros sch visited Ht Hb; [by inversion Hb|].
  destruct sch as [ref v]. cbn [resolve_fuel resolve_body].
  destruct (negb (String.eqb ref "")) eqn:Eref.
  - unfold resolve_reference. destruct (decide _) as [Hv|Hv].
    { exists open_object. split; [done | apply structural_open_object]. }
    destruct (components !! getRefName ref) as [r|] eqn:Er; [|done].
    apply wp_on_error, IH; [intros Et; by eapply Htyped|].
    apply Nat.lt_succ_r. eapply Nat.lt_le_trans; [by apply (bound_reference ref v) | done].
  - apply negb_false_iff, String.eqb_eq in Eref as ->. destruct v as [s|].
    + apply wp_bind. simpl (deref_ptr _). unfold wp at 1.
      apply wp_bind. eapply wp_mono; [|intros r Hr; by exists r].
      apply resolve_value_ok; [|by apply typed_resolvable].
      intros r Hr Htr. apply IH; [done|].
      apply Nat.lt_succ_r. eapply Nat.lt_le_trans; [by apply (bound_subschema s) | done].
    + simpl. destruct t; [|done]. specialize (Ht eq_refl). by inversion Ht.
Qed.
End Fuel.
End Resolving.

(** ** The recursion of the code *)
Lemma oloop_ext {A S} (f g : A → S → outcome S) (l : list A) s :
  (∀ x s, x ∈ l → f x s = g x s) → oloop f l s = oloop g l s.
Proof.
  revert s. induction l as [|x l IH]; intros s H; [done|]. simpl.
  rewrite (H x s) by left. destruct (g x s) as [s'| | |]; simpl; [|done..].
  apply IH. intros y s0 Hy. apply H. by right.
Qed.

Lemma obind_ext {A B} (o : outcome A) (k1 k2 : A → outcome B) :
  (∀ a, k1 a = k2 a) → obind o k1 = obind o k2.
Proof. intros H. destruct o; simpl; auto. Qed.

Section Recursion.
Context `{KT : !KinTypes} `{RO : !RangeOrder}.

Section Ext.
Context (f g : option SchemaRef → gset string → outcome (option Schema)) (v : Schema).
Context (visited : gset string).
Context (Hfg : ∀ r, subschema v r → f (Some r) visited = g (Some r) visited).

Lemma resolve_branch_ext message add r s :
  subschema v r → resolve_branch f visited message add r s = resolve_branch g visited message add r s.
Proof using Hfg. intros Hr. unfold resolve_branch. by rewrite Hfg. Qed.

Lemma resolve_value_ext : resolve_value f visited v = resolve_value g visited v.
Proof using Hfg.
  unfold resolve_value.
  assert (resolve_additional f visited (copied v) = resolve_additional g visited (copied v)) as ->.
  { unfold resolve_additional. cbn [s_AdditionalProperties copied].
    destruct (ap_Schema _) eqn:E; [|done]. by rewrite Hfg by (left; by left). }
  apply obind_ext. intros s1.
  assert (resolve_properties f visited v (drop_additional s1) =
          resolve_properties g visited v (drop_additional s1)) as ->.
  { unfold resolve_properties. destruct (s_Properties v) as [props|] eqn:E; [|done].
    erewrite oloop_ext; [done|]. intros [k r] m Hkr. apply elem_of_range_map in Hkr.
    unfold resolve_property. cbn [fst snd]. rewrite Hfg; [done|].
    left. right. right. exists k. by rewrite E. }
  apply obind_ext. intros s2.
  assert (resolve_items f visited v s2 = resolve_items g visited v s2) as ->.
  { unfold resolve_items. destruct (s_Items v) eqn:E; [|done].
    by rewrite Hfg by (left; right; by left). }
  apply obind_ext. intros s3.
  erewrite oloop_ext; [|intros r s Hr; apply resolve_branch_ext; by right; left].
  apply obind_ext. intros s4. unfold resolve_oneOf, resolve_anyOf.
  assert (∀ s, oloop (resolve_branch f visited "failed to resolve anyOf schema: " add_anyOf)
                 (elems (s_AnyOf v)) s =
               oloop (resolve_branch g visited "failed to resolve anyOf schema: " add_anyOf)
                 (elems (s_AnyOf v)) s) as Hany.
  { intros s. apply oloop_ext. intros r s' Hr. apply resolve_branch_ext. by right; right; right. }
  destruct (elems (s_OneOf v)) as [|r0 rs] eqn:E; [by apply Hany|]. rewrite <- E.
  apply obind_ext. intros [|q0 q]; [done|].
  erewrite oloop_ext; [|intros r s Hr; apply resolve_branch_ext; by right; right; left].
  by apply obind_ext.
Qed.
End Ext.

Context (components : gmap string SchemaRef).

(** More fuel than the bound changes nothing. *)
Lemma resolve_fuel_stable n m sch visited :
  (resolve_bound components sch visited ≤ n)%nat →
  (resolve_bound components sch visited ≤ m)%nat →
  resolve_fuel n components sch visited = resolve_fuel m components sch visited.
Proof.
  revert m sch visited. induction n as [|n IH]; intros m sch visited Hn Hm; [by inversion Hn|].
  destruct m as [|m]; [by inversion Hm|]. cbn [resolve_fuel].
  destruct sch as [[ref v]|]; [|done]. cbn [resolve_body].
  assert (∀ r vis, (resolve_bound components (Some r) vis <
                    resolve_bound components (Some (mkSchemaRef ref v)) visited)%nat →
    resolve_fuel n components (Some r) vis = resolve_fuel m components (Some r) vis) as Hsub.
  { intros r vis Hlt.
    apply IH; apply Nat.lt_succ_r; (eapply Nat.lt_le_trans; [exact Hlt | done]). }
  destruct (negb (String.eqb ref "")) eqn:Eref.
  - unfold resolve_reference. destruct (decide _) as [Hv|Hv]; [done|].
    destruct (components !! getRefName ref) as [r|] eqn:Er; [|done].
    f_equal. apply Hsub. by apply bound_reference.
  - apply negb_false_iff, String.eqb_eq in Eref as ->. destruct v as [s|]; [|done].
    simpl. erewrite resolve_value_ext; [done|]. intros r Hr. apply Hsub. by apply bound_subschema.
Qed.

Lemma resolveSchema_unfold sch visited :
  resolveSchema sch components visited =
  resolve_body (λ s vis, resolveSchema s components vis) components visited sch.
Proof.
  unfold resolveSchema at 1. unfold resolve_bound at 1. cbn [resolve_fuel].
  set (n := (_ + _)%nat). destruct sch as [[ref v]|]; [|done]. cbn [resolve_body].
  assert (∀ r vis, (resolve_bound components (Some r) vis <
                    resolve_bound components (Some (mkSchemaRef ref v)) visited)%nat →
    resolve_fuel n components (Some r) vis = resolveSchema (Some r) components vis) as Hsub.
  { intros r vis Hlt. apply resolve_fuel_stable; [|done]. by apply Nat.lt_succ_r. }
  destruct (negb (String.eqb ref "")) eqn:Eref.
  - unfold resolve_reference. destruct (decide _) as [Hv|Hv]; [done|].
    destruct (components !! getRefName ref) as [r|] eqn:Er; [|done].
    f_equal. apply Hsub. by apply bound_reference.
  - apply negb_false_iff, String.eqb_eq in Eref as ->. destruct v as [s|]; [|done].
    simpl. erewrite resolve_value_ext; [done|]. intros r Hr. apply Hsub. by apply bound_subschema.
Qed.

Lemma resolveSchema_ok t sch visited :
  (t = true → ∀ k r, components !! k = Some r → typed r) → (t = true → typed sch) →
  wp (t = false) (resolveSchema (Some sch) components visited) (resolved t).
Proof. intros Hc Hs. by apply resolve_fuel_ok. Qed.
End Recursion.

#[local] Arguments resolveSchema : simpl never.
#[local] Arguments range_map : simpl never.

(** ** Schemas for the witnesses *)

(** The methods of [kin-openapi] as documented. *)
#[export] Instance TestKinTypes : KinTypes := {
  Types_Is ts typ := bool_decide (ts = Some [typ]);
  Types_Permits ts typ := match ts with None => true | Some l => bool_decide (typ ∈ l) end;
  Types_Slice ts := elems ts;
}.

Definition object_with (props : gmap string SchemaRef) : Schema :=
  with_Properties (with_Type Schema_zero (Some ["object"])) (Some props).

Definition inline (s : Schema) : SchemaRef := mkSchemaRef "" (Some s).
Definition reference_to (name : string) (target : Schema) : SchemaRef :=
  mkSchemaRef ("#/components/schemas/" +:+ name) (Some target).

(** A list: its [next] is a reference to itself. *)
Definition node_reference : SchemaRef := reference_to "Node" Schema_zero.
Definition node_components : gmap string SchemaRef :=
  {["Node" := inline (object_with {["next" := node_reference]})]}.

(** [allOf] of two objects that both have a property [x]. *)
Definition all_of_sharing (x : string) (property : Schema) : SchemaRef :=
  let branch := inline (object_with {[x := inline property]}) in
  inline (with_AllOf (with_Type Schema_zero (Some ["object"])) (Some [branch; branch])).

Lemma range_map_empty `{RO : !RangeOrder} {A} : range_map (∅ : gmap string A) = [].
Proof.
  unfold range_map. rewrite dom_empty_L.
  pose proof (range_keys_perm ∅) as H. rewrite elements_empty in H.
  apply Permutation_nil_r in H. by rewrite H.
Qed.

Lemma range_map_singleton `{RO : !RangeOrder} {A} k (v : A) : range_map {[k := v]} = [(k, v)].
Proof.
  unfold range_map. rewrite dom_singleton_L.
  pose proof (range_keys_perm {[k]}) as H. rewrite elements_singleton in H.
  apply Permutation_singleton_r in H. rewrite H. simpl. by rewrite lookup_singleton_eq.
Qed.

(** ** Properties *)

(** C22: Whatever the references of the schemas, recursive ones included, [resolveSchema]
    ends: it is the recursion of the code, and is never cut off by its fuel. *)
Theorem resolveSchema_total `{KT : !KinTypes} `{RO : !RangeOrder} sch components visited :
  resolveSchema sch components visited =
    resolve_body (λ s vis, resolveSchema s components vis) components visited sch ∧
  resolveSchema sch components visited ≠ OutOfFuel.
Proof.
  split; [apply resolveSchema_unfold|]. destruct sch as [sch|]; [|by vm_compute].
  pose proof (resolveSchema_ok components false sch visited ltac:(done) ltac:(done)) as H.
  by destruct (resolveSchema _ _ _).
Qed.

(** C11: What [resolveSchema] returns is a structural schema: it has no references left, at
    any depth, and its [allOf], [oneOf] and [anyOf] entries only say which fields are
    required or must be missing. *)
Theorem resolveSchema_structural `{KT : !KinTypes} `{RO : !RangeOrder}
    sch components visited o :
  resolveSchema (Some sch) components visited = Ok o → ∃ r, o = Some r ∧ structural false r.
Proof.
  pose proof (resolveSchema_ok components false sch visited ltac:(done) ltac:(done)) as H.
  intros E. by rewrite E in H.
Qed.

(** Schemas with types are resolved without a nil-pointer panic, and what comes out has
    types again, also where recursion was cut. *)
Theorem resolveSchema_typed `{KT : !KinTypes} `{RO : !RangeOrder} sch components visited :
  (∀ k r, components !! k = Some r → typed r) → typed sch →
  resolveSchema (Some sch) components visited ≠ Panicked ∧
  ∀ o, resolveSchema (Some sch) components visited = Ok o → ∃ r, o = Some r ∧ structural true r.
Proof.
  intros Hc Hs.
  pose proof (resolveSchema_ok components true sch visited ltac:(auto) ltac:(auto)) as H.
  destruct (resolveSchema _ _ _) as [o'| | |]; try done. split; [done|]. by intros o [= <-].
Qed.

Lemma resolve_untyped_leaf `{KT : !KinTypes} `{RO : !RangeOrder} components visited :
  resolveSchema (Some (inline Schema_zero)) components visited = Ok (Some (copied Schema_zero)).
Proof. by rewrite resolveSchema_unfold. Qed.

Lemma resolve_singleton_object `{KT : !KinTypes} `{RO : !RangeOrder} x s s' components visited :
  resolveSchema (Some (inline s)) components visited = Ok (Some s') →
  resolveSchema (Some (inline (object_with {[x := inline s]}))) components visited =
    Ok (Some (with_Properties (copied (object_with ∅)) (Some {[x := inline s']}))).
Proof.
  intros H. rewrite resolveSchema_unfold. cbn. unfold resolve_value. cbn.
  unfold resolve_properties. cbn. rewrite range_map_singleton. cbn.
  unfold resolve_property. cbn. rewrite H. cbn.
  by rewrite insert_empty.
Qed.

(** A schema whose only content is an untyped property [x]. *)
Definition untyped_object (x : string) : Schema :=
  with_Properties (copied (object_with ∅)) (Some {[x := inline (copied Schema_zero)]}).

(** Merging it adds the property, or runs into the nil type of the one that is there. *)
Lemma merge_untyped_object `{KT : !KinTypes} `{RO : !RangeOrder} s x q :
  (s_Properties s = None → ∃ s', mergeSchemas s (with_Required (untyped_object x) q) = Ok s' ∧
    items (s_Properties s') !! x = Some (inline (copied Schema_zero))) ∧
  (items (s_Properties s) !! x = Some (inline (copied Schema_zero)) →
    mergeSchemas s (with_Required (untyped_object x) q) = Panicked).
Proof.
  assert (nonempty_map (Some {[x := inline (copied Schema_zero)]}) = true) as Hne.
  { unfold nonempty_map. cbn. apply bool_decide_eq_true, map_non_empty_singleton. }
  unfold mergeSchemas. cbn. unfold merge_body. cbn.
  unfold merge_extensions, merge_properties. cbn. rewrite Hne, range_map_empty, range_map_singleton.
  split; intros Hs.
  - rewrite Hs. destruct (s_Extensions s); cbn; eexists; (split; [done|]); cbn;
      apply lookup_insert_eq.
  - destruct (s_Properties s) as [props|] eqn:E; [|done]. cbn in Hs.
    destruct (s_Extensions s); cbn; by rewrite Hs.
Qed.

(** The types are needed: two branches of an [allOf] that share a property without a type
    make [resolveSchema] dereference a nil pointer. *)
Theorem allOf_shared_untyped_panics `{KT : !KinTypes} `{RO : !RangeOrder} x components visited :
  resolveSchema (Some (all_of_sharing x Schema_zero)) components visited = Panicked.
Proof.
  pose proof (resolve_singleton_object x _ _ components visited
    (resolve_untyped_leaf components visited)) as Hb. fold (untyped_object x) in Hb.
  rewrite resolveSchema_unfold. cbn. unfold resolve_value. cbn.
  unfold resolve_branch. rewrite Hb. cbn [on_error deref_ptr obind].
  destruct (proj1 (merge_untyped_object (add_allOf (copied (with_AllOf (with_Type Schema_zero
    (Some ["object"])) (Some [inline (object_with {[x := inline Schema_zero]});
      inline (object_with {[x := inline Schema_zero]})]))) (untyped_object x)) x []) eq_refl)
    as (s' & E & Hs').
  rewrite E. cbn [on_error deref_ptr obind].
  by rewrite (proj2 (merge_untyped_object (add_allOf s' (untyped_object x)) x [])).
Qed.

(** The recursion of a list is cut at its second element. *)
Definition node_cut : Schema :=
  let copy := copied (with_Type Schema_zero (Some ["object"])) in
  with_Properties copy (Some {["next" := inline open_object]}).

Lemma node_resolves :
  resolveSchema (Some node_reference) node_components ∅ = Ok (Some node_cut).
Proof. by vm_compute. Qed.

Lemma resolveSchema_structural_witness :
  ∃ r, Some node_cut = Some r ∧ structural false r.
Proof.
  apply (resolveSchema_structural node_reference node_components ∅). apply node_resolves.
Defined.

Lemma typed_node_reference : typed node_reference.
Proof. by apply typed_reference. Qed.

Lemma typed_node_components k r : node_components !! k = Some r → typed r.
Proof.
  unfold node_components. rewrite lookup_singleton_Some. intros [_ <-].
  apply typed_value; [done | | done].
  intros r [[H|[H|[k' H]]]|[H|[H|H]]]; try done; try by apply elem_of_nil in H.
  cbn in H. apply lookup_singleton_Some in H as [_ <-]. apply typed_node_reference.
Qed.

Lemma resolveSchema_typed_witness :
  resolveSchema (Some node_reference) node_components ∅ ≠ Panicked ∧
  ∀ o, resolveSchema (Some node_reference) node_components ∅ = Ok o →
    ∃ r, o = Some r ∧ structural true r.
Proof. apply resolveSchema_typed; [apply typed_node_components | apply typed_node_reference]. Defined.

(** A schema that was parsed from the contents of a CRD, under the placeholder's name, is
    not found under the name of its kind: [AsCRDOpenAPI3] looks for the placeholder when it
    is absent, and for the kind when it is not. *)
Theorem AsCRDOpenAPI3_placeholder {G} `{KT : !KinTypes} `{RO : !RangeOrder}
    (load : nmap (any G) → outcome (nmap SchemaRef)) v kind schemas :
  load (vs_raw v) = Ok (Some schemas) →
  is_Some (schemas !! parsedCRDSchemaKindName) → schemas !! kind = None →
  AsCRDOpenAPI3 load v kind = Failed (ErrorString ("schema " +:+ kind +:+ " not found")).
Proof.
  intros Hl Hp Hk. unfold AsCRDOpenAPI3, AsOpenAPI3, AsOpenAPI3SchemasMap. rewrite Hl. simpl.
  rewrite (bool_decide_true (is_Some (schemas !! parsedCRDSchemaKindName))) by done.
  rewrite andb_false_r. by rewrite Hk.
Qed.

(** The properties of a CRD, as its [openAPIV3Schema] has them. *)
Definition crd_document : gmap string (any Empty_set) :=
  {["openAPIV3Schema" := AMap {["properties" := AMap ∅]}]}.

Definition load_objects (raw : nmap (any Empty_set)) : outcome (nmap SchemaRef) :=
  Ok (Some ((λ _, inline (object_with ∅)) <$> items raw)).

Lemma AsCRDOpenAPI3_placeholder_witness :
  AsCRDOpenAPI3 load_objects (VersionSchema_Unmarshal (inl crd_document)).1 "Foo" =
    Failed (ErrorString "schema Foo not found").
Proof.
  eapply (AsCRDOpenAPI3_placeholder load_objects); [by vm_compute | by eexists; vm_compute | by vm_compute].
Defined.
