(* ===== verification/KubeOpenAPI.v ===== *)
(** * Kubernetes definitions of a kind's schemas ([app/manifest.go])

    [oapi3SchemaToKubeSchema] and [AsKubeOpenAPI] translate OpenAPI schemas into the
    definitions the API server publishes: every definition comes with the list of those it
    refers to.  [spec.Schema] and [common.OpenAPIDefinition] are structs of [kube-openapi];
    the fields are those that are set. *)
From S2P Require Import Prelude GoValues Resource VersionSchema OpenAPI CRDSchema.

#[local] Open Scope string_scope.

Section Kube.
Context {KRef : Type}.

Record SchemaOrBool (R : Type) := mkSchemaOrBool { sb_Allows : bool; sb_Schema : option R }.
Arguments mkSchemaOrBool {R}.
Arguments sb_Allows {R}.
Arguments sb_Schema {R}.

(** [spec.Schema]; [Items] only ever holds one schema. *)
Record KubeSchemaOf (R : Type) := mkKube {
  k_Ref : option KRef;
  k_Type : list string;
  k_Format : string;
  k_Description : string;
  k_Default : value;
  k_Minimum : option float64;
  k_Maximum : option float64;
  k_MultipleOf : option float64;
  k_Pattern : string;
  k_UniqueItems : bool;
  k_Required : list string;
  k_Enum : list value;
  k_Title : string;
  k_Nullable : bool;
  k_MinLength : option Z;
  k_MaxLength : option Z;
  k_MinItems : option Z;
  k_MaxItems : option Z;
  k_MinProperties : option Z;
  k_MaxProperties : option Z;
  k_AdditionalProperties : option (SchemaOrBool R);
  k_AllOf : nslice R;
  k_AnyOf : nslice R;
  k_OneOf : nslice R;
  k_Not : option R;
  k_Items : option R;
  k_Properties : nmap R;
}.

Inductive KubeSchema := Kube (s : KubeSchemaOf KubeSchema).

Definition kube (s : KubeSchema) : KubeSchemaOf KubeSchema := let 'Kube s := s in s.

(** [spec.Schema] with only a reference, [spec.Schema{}] without. *)
Definition kube_ref (r : option KRef) : KubeSchema :=
  Kube (mkKube KubeSchema r [] "" "" ANil None None None "" false [] [] "" false
    None None None None None None None None None None None None None).

Definition MaxInt64 : Z := 2 ^ 63 - 1.

(** [convertUint64], and its uses for a bound that may be absent. *)
Definition convertUint64 (i : Z) : Z := if (MaxInt64 <? i)%Z then MaxInt64 else i.
Definition convert_min (i : Z) : option Z := if (i =? 0)%Z then None else Some (convertUint64 i).
Definition convert_max (i : option Z) : option Z := convertUint64 <$> i.

(** [updateDependencies] *)
Definition updateDependencies (dependencies toAdd : list string) : list string :=
  fold_left (λ deps dep, if decide (dep ∈ deps) then deps else deps ++ [dep])%list toAdd dependencies.

Definition converted : Type := KubeSchema * nslice string.

(** The dependencies after a loop over converted schemas. *)
Definition add_deps (deps : list string) (l : list converted) : list string :=
  fold_left (λ deps c, updateDependencies deps (elems c.2)) l deps.

Context `{KT : !KinTypes} `{RO : !RangeOrder}.

(** [oapi3SchemaToKubeSchema]; [ref] is the [ReferenceCallback], [refReplacer] renames. *)
Fixpoint oapi3SchemaToKubeSchema (ref : string → KRef) (refReplacer : string → string)
    (sch : SchemaRef) : converted :=
  match sch with
  | mkSchemaRef schRef v =>
      if negb (String.eqb schRef "") then
        let schRef := refReplacer (TrimPrefix schRef "#/components/schemas/") in
        (kube_ref (Some (ref schRef)), Some [schRef])
      else
        match v with
        | None => (kube_ref None, Some [])
        | Some s =>
            let convert := oapi3SchemaToKubeSchema ref refReplacer in
            let i := s_Info s in
            let additional := convert <$> ap_Schema (s_AdditionalProperties s) in
            let allOf := fmap (M := list) convert <$> s_AllOf s in
            let anyOf := fmap (M := list) convert <$> s_AnyOf s in
            let oneOf := fmap (M := list) convert <$> s_OneOf s in
            let not := convert <$> s_Not s in
            let its := convert <$> s_Items s in
            let props := fmap (M := gmap string) convert <$> s_Properties s in
            let AdditionalProperties :=
              match s_Extensions s ≫= (.!! extKubernetesPreserveUnknownFields) with
              | Some (ABool true) => Some (mkSchemaOrBool true None)
              | _ =>
                  match additional with
                  | Some c => Some (mkSchemaOrBool false (Some c.1))
                  | None => (λ has, mkSchemaOrBool has None) <$> ap_Has (s_AdditionalProperties s)
                  end
              end in
            let deps := add_deps [] (option_list additional ++ elems allOf ++ elems anyOf ++
              elems oneOf ++ option_list not ++ option_list its ++
              (range_map (items props)).*2)%list in
            (Kube (mkKube KubeSchema None (Types_Slice (s_Type s)) (i_Format i) (i_Description i)
              (i_Default i) (i_Min i) (i_Max i) (i_MultipleOf i) (i_Pattern i) (i_UniqueItems i)
              (s_Required s) (i_Enum i) (i_Title i) (i_Nullable i)
              (convert_min (i_MinLength i)) (convert_max (i_MaxLength i))
              (convert_min (i_MinItems i)) (convert_max (i_MaxItems i))
              (convert_min (i_MinProps i)) (convert_max (i_MaxProps i))
              AdditionalProperties (fmap (M := list) fst <$> allOf)
              (fmap (M := list) fst <$> anyOf) (fmap (M := list) fst <$> oneOf)
              (fst <$> not) (fst <$> its)
              (if nonempty_map props then fmap (M := gmap string) fst <$> props else None)),
             match deps with [] => None | _ => Some deps end)
        end
  end.

(** [common.OpenAPIDefinition] *)
Record OpenAPIDefinition := mkDefinition {
  def_Schema : KubeSchema;
  def_Dependencies : list string;
}.

(** [KubeOpenAPIReferenceReplacerFunc]: the first letter of the reference in upper case. *)
Definition KubeOpenAPIReferenceReplacerFunc (pkgPrefix gvkKind k : string) : string :=
  let ucK := match k with
             | String c rest =>
                 if bool_decide (1 < String.length k)%nat then String (ascii_upper c) rest
                 else ToUpper k
             | EmptyString => ToUpper k
             end in
  pkgPrefix +:+ "." +:+ gvkKind +:+ ucK.

(** [strings.EqualFold], on ASCII strings. *)
Definition EqualFold (a b : string) : bool := String.eqb (ToLower a) (ToLower b).

(** The key is the kind's, or ends in a dot and the kind, or is the placeholder. *)
Definition names_kind (gvkKind k : string) : bool :=
  EqualFold k gvkKind || String.eqb k parsedCRDSchemaKindName ||
  let parts := Split k "."%char in
  bool_decide (1 < length parts)%nat && EqualFold (default "" (last parts)) gvkKind.

(** A schema with a description, a type or properties, and nothing else. *)
Definition plain_schema (types : list string) (description : string)
    (props : nmap KubeSchema) (required : list string) (its : option KubeSchema) : KubeSchema :=
  Kube (mkKube KubeSchema None types "" description ANil None None None "" false required []
    "" false None None None None None None None None None None None its props).

(** A reference with the default [{}]. *)
Definition default_ref (r : KRef) : KubeSchema :=
  Kube (mkKube KubeSchema (Some r) [] "" "" (AMap ∅) None None None "" false [] [] "" false
    None None None None None None None None None None None None None).

Definition kindProp : KubeSchema := plain_schema ["string"]
  "Kind is a string value representing the REST resource this object represents. Servers may infer this from the endpoint the client submits requests to. Cannot be updated. In CamelCase. More info: https://git.k8s.io/community/contributors/devel/sig-architecture/api-conventions.md#types-kinds"
  None [] None.
Definition apiVersionProp : KubeSchema := plain_schema ["string"]
  "APIVersion defines the versioned schema of this representation of an object. Servers should convert recognized schemas to the latest internal value, and may reject unrecognized values. More info: https://git.k8s.io/community/contributors/devel/sig-architecture/api-conventions.md#resources"
  None [] None.

(** The model names of [metav1.ObjectMeta] and [metav1.ListMeta]. *)
Context (ObjectMeta_name ListMeta_name : string).
Context (ref : string → KRef).

Definition is_object_property (k : string) : bool :=
  String.eqb k "metadata" || String.eqb k "apiVersion" || String.eqb k "kind".

(** One property of the kind's schema: its definition, dependencies and, for [spec], its
    being required. *)
Definition add_kind_property (refKey : string → string) (kv : string * SchemaRef)
    (acc : gmap string KubeSchema * list string * list string)
  : gmap string KubeSchema * list string * list string :=
  let '(props, deps, required) := acc in
  if is_object_property kv.1 then acc
  else
    let '(sch, d) := oapi3SchemaToKubeSchema ref refKey kv.2 in
    (<[kv.1 := sch]> props, (deps ++ elems d)%list,
     if String.eqb kv.1 "spec" then (required ++ [kv.1])%list else required).

(** [slices.Sort] *)
Definition sort (l : list string) : list string := merge_sort String.le l.

(** The definitions of the schemas that are not the kind's. *)
Definition add_definition (kindSchemaKey : string) (refKey : string → string)
    (kv : string * SchemaRef) (result : gmap string OpenAPIDefinition)
  : gmap string OpenAPIDefinition :=
  if String.eqb kv.1 kindSchemaKey then result
  else
    let '(sch, deps) := oapi3SchemaToKubeSchema ref refKey kv.2 in
    <[refKey kv.1 := mkDefinition sch (sort (elems deps))]> result.

Definition list_definition (kindKey : string) : OpenAPIDefinition :=
  mkDefinition
    (plain_schema ["object"] "" (Some (list_to_map [
        ("kind", kindProp); ("apiVersion", apiVersionProp);
        ("metadata", default_ref (ref ListMeta_name));
        ("items", plain_schema ["array"] "" None [] (Some (default_ref (ref kindKey))))]))
      ["metadata"; "items"] None)
    [ListMeta_name; kindKey].

(** The schemas, once the placeholder's is named after the kind. *)
Definition named_schemas (gvkKind : string) (schemas : gmap string SchemaRef)
  : gmap string SchemaRef :=
  match schemas !! parsedCRDSchemaKindName with
  | Some crd => delete parsedCRDSchemaKindName (<[gvkKind := crd]> schemas)
  | None => schemas
  end.

(** The definitions that are made from the kind's schema and the others. *)
Definition kube_definitions (gvkKind pkgPrefix kindSchemaKey : string) (root : Schema)
    (schemas : gmap string SchemaRef) : gmap string OpenAPIDefinition :=
  let refKey := KubeOpenAPIReferenceReplacerFunc pkgPrefix gvkKind in
  let kindKey := pkgPrefix +:+ "." +:+ gvkKind in
  let props := list_to_map [("kind", kindProp); ("apiVersion", apiVersionProp);
                            ("metadata", default_ref (ref ObjectMeta_name))] in
  let '(props, deps, required) :=
    fold_left (λ acc kv, add_kind_property refKey kv acc) (range_map (items (s_Properties root)))
      (props, [ObjectMeta_name], ["kind"; "apiVersion"; "metadata"]) in
  let kind := mkDefinition (plain_schema ["object"] "" (Some props) required None) (sort deps) in
  let result := fold_left (λ r kv, add_definition kindSchemaKey refKey kv r) (range_map schemas) ∅ in
  <[kindKey +:+ "List" := list_definition kindKey]> (<[kindKey := kind]> result).

(** [AsKubeOpenAPI], with [AsOpenAPI3]'s components. *)
Definition AsKubeOpenAPI (components : outcome (nmap SchemaRef)) (gvkKind pkgPrefix : string)
  : outcome (gmap string OpenAPIDefinition) :=
  try oapi := on_error "error converting OpenAPI Schema: " components in
  let schemas := named_schemas gvkKind (items oapi) in
  match filter (λ kv, names_kind gvkKind kv.1 = true) (range_map schemas) with
  | [] => Failed (ErrorString ("unable to locate openAPI definition for kind " +:+ gvkKind))
  | (kindSchemaKey, kindSchema) :: _ =>
      try root := deref_ptr (sr_Value kindSchema) in
      if nonempty_slice (s_AllOf root) || nonempty_slice (s_AnyOf root) ||
         nonempty_slice (s_OneOf root) || bool_decide (is_Some (s_Not root))
      then Failed (ErrorString ("anyOf, allOf, oneOf, and not are unsupported for the kind's root schema (kind " +:+ gvkKind +:+ ")"))
      else Ok (kube_definitions gvkKind pkgPrefix kindSchemaKey root schemas)
  end.
End Kube.

Arguments KubeSchema : clear implicits.
Arguments OpenAPIDefinition : clear implicits.
Arguments sb_Schema {R}.
Arguments k_Ref {KRef R}.
Arguments k_AdditionalProperties {KRef R}.
Arguments k_AllOf {KRef R}.
Arguments k_AnyOf {KRef R}.
Arguments k_OneOf {KRef R}.
Arguments k_Not {KRef R}.
Arguments k_Items {KRef R}.
Arguments k_Properties {KRef R}.

(** ** Dependencies *)
Lemma elem_of_updateDependencies d deps l : d ∈ updateDependencies deps l ↔ d ∈ deps ∨ d ∈ l.
Proof.
  revert deps. induction l as [|x l IH]; intros deps.
  { rewrite elem_of_nil. simpl. tauto. }
  change (updateDependencies deps (x :: l)) with
    (updateDependencies (if decide (x ∈ deps) then deps else deps ++ [x])%list l).
  rewrite IH, elem_of_cons. case_decide as Hx.
  - split; [tauto|]. intros [H|[->|H]]; auto.
  - rewrite elem_of_app, list_elem_of_singleton. tauto.
Qed.

Lemma NoDup_updateDependencies deps l : NoDup deps → NoDup (updateDependencies deps l).
Proof.
  revert deps. induction l as [|x l IH]; intros deps Hd; [done|].
  change (updateDependencies deps (x :: l)) with
    (updateDependencies (if decide (x ∈ deps) then deps else deps ++ [x])%list l).
  apply IH. case_decide; [done|]. apply NoDup_app. split; [done|]. split; [|apply NoDup_singleton].
  intros y Hy ->%list_elem_of_singleton. done.
Qed.

Section Dependencies.
Context {KRef : Type} `{KT : !KinTypes} `{RO : !RangeOrder}.
Context (ref : string → KRef) (rename : string → string).
Abbreviation convert := (oapi3SchemaToKubeSchema ref rename).

Lemma elem_of_add_deps d deps (l : list (@converted KRef)) :
  d ∈ add_deps deps l ↔ d ∈ deps ∨ ∃ c, c ∈ l ∧ d ∈ elems c.2.
Proof.
  revert deps. induction l as [|c l IH]; intros deps.
  { split; [by left|]. intros [H|(c & H & _)]; [done | by apply elem_of_nil in H]. }
  change (add_deps deps (c :: l)) with (add_deps (updateDependencies deps (elems c.2)) l).
  rewrite IH, elem_of_updateDependencies. split.
  - intros [[H|H]|(c' & Hc & H)]; [by left | right | right].
    + exists c. split; [left | done].
    + exists c'. split; [by right | done].
  - intros [H|(c' & [->|Hc]%elem_of_cons & H)]; [by left; left | by left; right|].
    right. by exists c'.
Qed.

Lemma NoDup_add_deps deps (l : list (@converted KRef)) : NoDup deps → NoDup (add_deps deps l).
Proof.
  revert deps. induction l as [|c l IH]; intros deps Hd; [done|].
  change (add_deps deps (c :: l)) with (add_deps (updateDependencies deps (elems c.2)) l).
  apply IH. by apply NoDup_updateDependencies.
Qed.

(** The schemas inside a schema that are converted with it. *)
Definition part (s : Schema) (r : SchemaRef) : Prop := subschema s r ∨ s_Not s = Some r.

Definition parts (s : Schema) : list (@converted KRef) :=
  (option_list (convert <$> ap_Schema (s_AdditionalProperties s)) ++
   elems (fmap (M := list) convert <$> s_AllOf s) ++
   elems (fmap (M := list) convert <$> s_AnyOf s) ++
   elems (fmap (M := list) convert <$> s_OneOf s) ++
   option_list (convert <$> s_Not s) ++ option_list (convert <$> s_Items s) ++
   (range_map (items (fmap (M := gmap string) convert <$> s_Properties s))).*2)%list.

Lemma convert_deps s :
  elems (convert (mkSchemaRef "" (Some s))).2 = add_deps [] (parts s).
Proof. simpl. by destruct (add_deps [] _). Qed.

Lemma elem_of_option_list {A} (o : option A) x : x ∈ option_list o ↔ o = Some x.
Proof.
  destruct o; simpl; [rewrite list_elem_of_singleton; split; congruence|].
  rewrite elem_of_nil. by split.
Qed.

Lemma elem_of_elems_fmap {A B} (f : A → B) (l : nslice A) y :
  y ∈ elems (fmap (M := list) f <$> l) ↔ ∃ x, y = f x ∧ x ∈ elems l.
Proof. destruct l; simpl; [apply list_elem_of_fmap|]. split; [|intros (x & _ & H)]; intros; set_solver. Qed.

Lemma elem_of_parts s c : c ∈ parts s ↔ ∃ r, part s r ∧ c = convert r.
Proof.
  unfold parts, part, subschema, child. rewrite !elem_of_app, !elem_of_option_list,
    !elem_of_elems_fmap, !fmap_Some, list_elem_of_fmap.
  assert ((∃ y : string * converted, c = y.2 ∧
            y ∈ range_map (items (fmap (M := gmap string) convert <$> s_Properties s))) ↔
          ∃ k r, items (s_Properties s) !! k = Some r ∧ c = convert r) as ->.
  { split.
    - intros ([k c'] & -> & H). apply elem_of_range_map in H.
      destruct (s_Properties s) as [m|]; [|done]. simpl in H.
      apply lookup_fmap_Some in H as (r & <- & H). by exists k, r.
    - intros (k & r & H & ->). exists (k, convert r). split; [done|]. apply elem_of_range_map.
      destruct (s_Properties s) as [m|]; [|done]. simpl in *. by rewrite lookup_fmap, H. }
  split.
  - intros H. decompose [or ex and] H; subst; eexists; (split; [|reflexivity]); eauto 8.
  - intros (r & H & ->). decompose [or ex and] H; eauto 14.
Qed.

(** A reference that occurs in a converted schema. *)
Definition kube_child (s : KubeSchemaOf (KRef := KRef) (KubeSchema KRef)) (c : KubeSchema KRef) : Prop :=
  (k_AdditionalProperties s ≫= sb_Schema) = Some c ∨ c ∈ elems (k_AllOf s) ∨
  c ∈ elems (k_AnyOf s) ∨ c ∈ elems (k_OneOf s) ∨ k_Not s = Some c ∨ k_Items s = Some c ∨
  ∃ k, items (k_Properties s) !! k = Some c.

Inductive occurs (r : KRef) : KubeSchema KRef → Prop :=
| occurs_here s : k_Ref s = Some r → occurs r (Kube s)
| occurs_inside s c : kube_child s c → occurs r c → occurs r (Kube s).

(** A schema refers to the component [name]. *)
Inductive refers (name : string) : SchemaRef → Prop :=
| refers_here rf v :
    negb (String.eqb rf "") = true → name = TrimPrefix rf "#/components/schemas/" →
    refers name (mkSchemaRef rf v)
| refers_inside s r : part s r → refers name r → refers name (mkSchemaRef "" (Some s)).

Lemma fmap_fst_convert (l : nslice SchemaRef) c :
  c ∈ elems (fmap (M := list) fst <$> (fmap (M := list) convert <$> l)) →
  ∃ r, r ∈ elems l ∧ c = (convert r).1.
Proof.
  destruct l as [l|]; simpl; [|by rewrite elem_of_nil].
  intros (x & -> & (r & -> & Hr)%list_elem_of_fmap)%list_elem_of_fmap. by exists r.
Qed.

Lemma option_fst_convert (o : option SchemaRef) c :
  fst <$> (convert <$> o) = Some c → ∃ r, o = Some r ∧ c = (convert r).1.
Proof. destruct o; [|done]. intros [= <-]. by eexists. Qed.

Lemma kube_child_convert s c :
  kube_child (kube (convert (mkSchemaRef "" (Some s))).1) c → ∃ r, part s r ∧ c = (convert r).1.
Proof.
  unfold kube_child, part, subschema, child. simpl.
  intros [H|[H|[H|[H|[H|[H|[k H]]]]]]];
    try (apply fmap_fst_convert in H as (r & H & ->); by eauto 10);
    try (apply option_fst_convert in H as (r & H & ->); by eauto 10).
  - destruct (ap_Schema (s_AdditionalProperties s)) as [r|] eqn:E.
    + exists r. repeat case_match; simplify_option_eq; eauto 10.
    + repeat case_match; simplify_option_eq; by destruct (ap_Has _).
  - destruct (s_Properties s) as [m|]; simpl in H; [|by case_match].
    case_match; [|done]. simpl in H.
    apply lookup_fmap_Some in H as (x & <- & (r & <- & H)%lookup_fmap_Some).
    exists r. split; [|done]. left. left. right. right. by exists k.
Qed.

Lemma part_depth s r : part s r → (schema_depth r < schema_depth (mkSchemaRef "" (Some s)))%nat.
Proof. intros [H|H]; [by apply subschema_depth|]. simpl. rewrite H. simpl. lia. Qed.

(** Induction on what is converted with a schema. *)
Lemma schema_part_ind (P : SchemaRef → Prop) :
  (∀ rf v, negb (String.eqb rf "") = true → P (mkSchemaRef rf v)) →
  P (mkSchemaRef "" None) →
  (∀ s, (∀ r, part s r → P r) → P (mkSchemaRef "" (Some s))) →
  ∀ sch, P sch.
Proof.
  intros Href Hnil Hval.
  assert (∀ n sch, (schema_depth sch < n)%nat → P sch) as H; [|intros sch; by apply (H (S (schema_depth sch))), Nat.lt_succ_diag_r].
  induction n as [|n IH]; intros [rf v] Hn; [lia|].
  destruct (negb (String.eqb rf "")) eqn:E; [by apply Href|].
  apply negb_false_iff, String.eqb_eq in E as ->. destruct v as [s|]; [|done].
  apply Hval. intros r Hr. apply IH. apply part_depth in Hr.
  eapply Nat.lt_le_trans; [exact Hr | by apply Nat.lt_succ_r].
Qed.

Lemma kube_ref_child o c : ¬ kube_child (kube (kube_ref o)) c.
Proof.
  unfold kube_child. simpl. rewrite !elem_of_nil. intros [H|[H|[H|[H|[H|[H|[k H]]]]]]]; done.
Qed.

(** Every reference in a converted schema is one of its dependencies. *)
Lemma convert_occurs sch r :
  occurs r (convert sch).1 → ∃ d, d ∈ elems (convert sch).2 ∧ r = ref d.
Proof.
  revert sch. apply (schema_part_ind (λ sch, occurs r (convert sch).1 →
    ∃ d, d ∈ elems (convert sch).2 ∧ r = ref d)).
  - intros rf v E. simpl. rewrite E. simpl. intros H. inversion H as [s Hr|s c Hc]; subst; simpl in *.
    + injection Hr as <-. eexists. split; [by left | done].
    + by apply kube_ref_child in Hc.
  - simpl. intros H. inversion H as [s Hr|s c Hc]; subst; simpl in *; [done|].
    by apply kube_ref_child in Hc.
  - intros s IH H. rewrite convert_deps.
    assert (∃ c, kube_child (kube (convert (mkSchemaRef "" (Some s))).1) c ∧ occurs r c)
      as (c & Hc & Ho).
    { simpl in *. inversion H as [s' Hr|s' c Hc]; subst; simpl in *; [done|]. by exists c. }
    apply kube_child_convert in Hc as (sub & Hsub & ->).
    destruct (IH sub Hsub Ho) as (d & Hd & ->). exists d. split; [|done].
    apply elem_of_add_deps. right. exists (convert sub). split; [|done].
    apply elem_of_parts. by exists sub.
Qed.

(** Every dependency comes from a reference of the schema. *)
Lemma convert_refers sch d :
  d ∈ elems (convert sch).2 → ∃ name, refers name sch ∧ d = rename name.
Proof.
  revert sch. apply (schema_part_ind (λ sch, d ∈ elems (convert sch).2 →
    ∃ name, refers name sch ∧ d = rename name)).
  - intros rf v E. simpl. rewrite E. simpl. intros ->%list_elem_of_singleton.
    eexists. split; [by apply refers_here | done].
  - simpl. by intros ?%elem_of_nil.
  - intros s IH. rewrite convert_deps. intros [H|(c & Hc & Hd)]%elem_of_add_deps; [by apply elem_of_nil in H|].
    apply elem_of_parts in Hc as (r & Hr & ->).
    destruct (IH r Hr Hd) as (name & Hn & ->). exists name. split; [|done]. by eapply refers_inside.
Qed.

Lemma convert_NoDup sch : NoDup (elems (convert sch).2).
Proof.
  revert sch. apply (schema_part_ind (λ sch, NoDup (elems (convert sch).2))).
  - intros rf v E. simpl. rewrite E. apply NoDup_singleton.
  - apply NoDup_nil_2.
  - intros s _. rewrite convert_deps. by apply NoDup_add_deps, NoDup_nil_2.
Qed.
End Dependencies.

(** ** The definitions of a kind *)
Section Closed.
Context {KRef : Type} `{KT : !KinTypes} `{RO : !RangeOrder}.
Context (ObjectMeta_name ListMeta_name : string) (ref : string → KRef).

(** All references of a definition are dependencies. *)
Definition covers (def : OpenAPIDefinition KRef) : Prop :=
  ∀ r, occurs r (def_Schema def) → ∃ d, d ∈ def_Dependencies def ∧ r = ref d.

(** The references of the schemas, and of the properties of what they refer to, are to
    schemas that are there and are not the kind's. *)
Definition closed_schemas (gvkKind : string) (schemas : gmap string SchemaRef) : Prop :=
  ∀ k r name, schemas !! k = Some r →
    (refers name r ∨
     ∃ s p q, sr_Value r = Some s ∧ items (s_Properties s) !! p = Some q ∧ refers name q) →
    is_Some (schemas !! name) ∧ names_kind gvkKind name = false.

Lemma elem_of_sort d l : d ∈ sort l ↔ d ∈ l.
Proof. unfold sort. by rewrite (merge_sort_Permutation String.le l). Qed.

Lemma occurs_default_ref (r o : KRef) : occurs r (default_ref o) → r = o.
Proof.
  inversion 1 as [s Hr|s c Hc]; subst; simpl in *; [congruence|]. exfalso.
  unfold kube_child in Hc. simpl in Hc. rewrite !elem_of_nil in Hc.
  destruct Hc as [H'|[H'|[H'|[H'|[H'|[H'|[k H']]]]]]]; done.
Qed.

(** The references of a plain schema are those of its properties and items. *)
Lemma occurs_plain (r : KRef) types description props required its :
  occurs r (plain_schema types description props required its) →
  ∃ c, occurs r c ∧ ((∃ k, items props !! k = Some c) ∨ its = Some c).
Proof.
  inversion 1 as [s Hr|s c Hc]; subst; simpl in *; [done|]. exists c. split; [done|].
  unfold kube_child in Hc. simpl in Hc. rewrite !elem_of_nil in Hc.
  destruct Hc as [H'|[H'|[H'|[H'|[H'|[H'|[k H']]]]]]]; try done; [by right | left; by exists k].
Qed.

Lemma occurs_string_prop (r : KRef) description : ¬ occurs r (plain_schema ["string"] description None [] None).
Proof. intros (c & _ & [[k H]|H])%occurs_plain; done. Qed.

Lemma list_definition_covers kindKey : covers (list_definition ListMeta_name ref kindKey).
Proof.
  intros r (c & Hc & [[k H]|H])%occurs_plain; [|done]. cbn [items default] in H.
  apply elem_of_list_to_map_2 in H.
  repeat (apply elem_of_cons in H as [[= -> ->]|H]); [..|by apply elem_of_nil in H].
  - by apply occurs_string_prop in Hc.
  - by apply occurs_string_prop in Hc.
  - apply occurs_default_ref in Hc as ->. exists ListMeta_name. split; [left | done].
  - apply occurs_plain in Hc as (c & Hc & [[k' H]|[= <-]]); [done|].
    apply occurs_default_ref in Hc as ->. exists kindKey. split; [right; left | done].
Qed.

Context (refKey : string → string).

(** What the loop over the kind's properties keeps. *)
Definition kind_inv (root : Schema)
    (acc : gmap string (KubeSchema KRef) * list string * list string) : Prop :=
  let '(props, deps, _) := acc in
  (∀ k c r, props !! k = Some c → occurs r c → ∃ d, d ∈ deps ∧ r = ref d) ∧
  (∀ d, d ∈ deps → d = ObjectMeta_name ∨
     ∃ name k q, items (s_Properties root) !! k = Some q ∧ refers name q ∧ d = refKey name).

Lemma add_kind_property_inv root k q acc :
  items (s_Properties root) !! k = Some q → kind_inv root acc →
  kind_inv root (add_kind_property ref refKey (k, q) acc).
Proof.
  destruct acc as [[props deps] required]. intros Hq [Hp Hd]. unfold add_kind_property. cbn [fst snd].
  destruct (is_object_property k); [by split|].
  destruct (oapi3SchemaToKubeSchema ref refKey q) as [sch d] eqn:E.
  pose proof (convert_occurs ref refKey q) as Ho. pose proof (convert_refers ref refKey q) as Hr.
  rewrite E in Ho, Hr. split.
  - intros k' c r. rewrite lookup_insert_Some. intros [[<- <-]|[_ H]] Hc.
    + destruct (Ho r Hc) as (x & Hx & ->). exists x. rewrite elem_of_app. by split; [right|].
    + destruct (Hp k' c r H Hc) as (x & Hx & ->). exists x. rewrite elem_of_app. by split; [left|].
  - intros x [Hx|Hx]%elem_of_app; [by apply Hd|]. right.
    destruct (Hr x Hx) as (name & Hn & ->). by exists name, k, q.
Qed.

Lemma kind_properties_inv root :
  kind_inv root
    (fold_left (λ acc kv, add_kind_property ref refKey kv acc) (range_map (items (s_Properties root)))
      (list_to_map [("kind", kindProp); ("apiVersion", apiVersionProp);
                    ("metadata", default_ref (ref ObjectMeta_name))],
       [ObjectMeta_name], ["kind"; "apiVersion"; "metadata"])).
Proof.
  apply fold_left_inv.
  - intros a [k q] Hq%elem_of_range_map. by apply add_kind_property_inv.
  - split; [|by intros d ->%list_elem_of_singleton; left].
    intros k c r Hc Ho. apply elem_of_list_to_map_2 in Hc.
    repeat (apply elem_of_cons in Hc as [[= -> ->]|Hc]); [..|by apply elem_of_nil in Hc];
      [by apply occurs_string_prop in Ho..|].
    apply occurs_default_ref in Ho as ->. exists ObjectMeta_name. by split; [left|].
Qed.

(** What the loop over the other schemas keeps, having gone over [done]. *)
Lemma definitions_spec kindSchemaKey schemas :
  let result := fold_left (λ r kv, add_definition ref kindSchemaKey refKey kv r)
                  (range_map schemas) ∅ in
  (∀ key def, result !! key = Some def → covers def ∧
     ∀ d, d ∈ def_Dependencies def →
       ∃ name k q, schemas !! k = Some q ∧ refers name q ∧ d = refKey name) ∧
  (∀ k, is_Some (schemas !! k) → k ≠ kindSchemaKey → is_Some (result !! refKey k)).
Proof.
  cbn zeta. split.
  - apply (fold_left_inv (λ result, ∀ key def, result !! key = Some def → covers def ∧
      ∀ d, d ∈ def_Dependencies def →
        ∃ name k q, schemas !! k = Some q ∧ refers name q ∧ d = refKey name)); [|done].
    intros result [k q] Hk%elem_of_range_map IH. unfold add_definition. cbn [fst snd].
    destruct (String.eqb k kindSchemaKey); [done|].
    destruct (oapi3SchemaToKubeSchema ref refKey q) as [sch deps] eqn:E.
    pose proof (convert_occurs ref refKey q) as Ho. pose proof (convert_refers ref refKey q) as Hr.
    rewrite E in Ho, Hr. intros key def. rewrite lookup_insert_Some.
    intros [[<- <-]|[_ H]]; [|by eapply IH]. split.
    + intros r Hc. destruct (Ho r Hc) as (x & Hx & ->). exists x. simpl. by rewrite elem_of_sort.
    + simpl. intros x. rewrite elem_of_sort. intros Hx. destruct (Hr x Hx) as (name & Hn & ->). by exists name, k, q.
  - intros k [q Hq]%elem_of_dom%elem_of_dom Hne. apply elem_of_range_map in Hq.
    revert Hq. generalize (∅ : gmap string (OpenAPIDefinition KRef)) as r.
    induction (range_map schemas) as [|[k' q'] l IH]; intros r Hin; [by apply elem_of_nil in Hin|].
    simpl. apply elem_of_cons in Hin as [[= <- <-]|Hin]; [|by apply IH].
    apply (fold_left_inv (λ r, is_Some (r !! refKey k))).
    + intros r' [k' q'] _ Hs. unfold add_definition. case_match; [done|].
      destruct (oapi3SchemaToKubeSchema _ _ _). apply lookup_insert_is_Some. 
      destruct (decide (refKey k' = refKey k)); auto.
    + unfold add_definition. cbn [fst snd]. apply String.eqb_neq in Hne. rewrite Hne.
      destruct (oapi3SchemaToKubeSchema _ _ _). rewrite lookup_insert_eq. by eexists.
Qed.
End Closed.

(** ** Properties *)

(** A converted schema comes with its dependencies: every reference in it is one of them,
    each comes from a reference of the schema, and none is listed twice. *)
Theorem oapi3SchemaToKubeSchema_dependencies {KRef} `{KT : !KinTypes} `{RO : !RangeOrder}
    (ref : string → KRef) (refReplacer : string → string) sch :
  let c := oapi3SchemaToKubeSchema ref refReplacer sch in
  (∀ r, occurs r c.1 → ∃ d, d ∈ elems c.2 ∧ r = ref d) ∧
  (∀ d, d ∈ elems c.2 → ∃ name, refers name sch ∧ d = refReplacer name) ∧
  NoDup (elems c.2).
Proof.
  split; [apply convert_occurs|]. split; [apply convert_refers | apply convert_NoDup].
Qed.

(** The definitions of a kind are closed: every reference in a definition is listed as
    its dependency, and every dependency is one of the definitions or an object of
    [metav1], when the references of the schemas are to schemas that are there. *)
Theorem AsKubeOpenAPI_closed {KRef} `{KT : !KinTypes} `{RO : !RangeOrder}
    ObjectMeta_name ListMeta_name (ref : string → KRef) oapi gvkKind pkgPrefix result :
  AsKubeOpenAPI ObjectMeta_name ListMeta_name ref (Ok oapi) gvkKind pkgPrefix = Ok result →
  closed_schemas gvkKind (named_schemas gvkKind (items oapi)) →
  ∀ key def, result !! key = Some def → covers ref def ∧
    ∀ d, d ∈ def_Dependencies def →
      d = ObjectMeta_name ∨ d = ListMeta_name ∨ is_Some (result !! d).
Proof.
  unfold AsKubeOpenAPI. simpl. set (schemas := named_schemas _ _).
  destruct (filter _ _) as [|[kindSchemaKey kindSchema] rest] eqn:Ef; [done|].
  assert ((kindSchemaKey, kindSchema) ∈ filter (λ kv, names_kind gvkKind kv.1 = true) (range_map schemas))
    as [Hnames Hk%elem_of_range_map]%list_elem_of_filter by (rewrite Ef; left).
  cbn [fst] in Hnames.
  destruct (sr_Value kindSchema) as [root|] eqn:Eroot; [|done]. simpl. case_match; [done|].
  intros [= <-] Hclosed. unfold kube_definitions.
  set (refKey := KubeOpenAPIReferenceReplacerFunc pkgPrefix gvkKind).
  set (kindKey := pkgPrefix +:+ "." +:+ gvkKind).
  destruct (definitions_spec ref refKey kindSchemaKey schemas) as [Hdefs Hdom].
  set (others := fold_left _ (range_map schemas) ∅) in *.
  set (acc := fold_left _ (range_map (items (s_Properties root))) _).
  pose proof (kind_properties_inv ObjectMeta_name ref refKey root) as Hacc. fold acc in Hacc.
  destruct acc as [[props deps] required]. destruct Hacc as [Hprops Hdeps].
  assert (∀ r k q name, schemas !! k = Some q → (refers name q ∨
     ∃ s p q', sr_Value q = Some s ∧ items (s_Properties s) !! p = Some q' ∧ refers name q') →
     is_Some ((<[kindKey +:+ "List" := r]> (<[kindKey := mkDefinition (plain_schema ["object"] ""
       (Some props) required None) (sort deps)]> others)) !! refKey name)) as Hin.
  { intros r k q name Hq Hr. destruct (Hclosed k q name Hq Hr) as [Hs Hn].
    assert (is_Some (others !! refKey name)) as [o Ho].
    { apply Hdom; [done|]. intros ->. congruence. }
    rewrite !lookup_insert_is_Some'. right. right. by eexists. }
  intros key def. rewrite lookup_insert_Some. intros [[<- <-]|[_ Hlk]].
  { split; [apply list_definition_covers|]. intros d Hd. cbn in Hd.
    apply elem_of_cons in Hd as [->|Hd]; [by right; left|]. apply list_elem_of_singleton in Hd as ->.
    right. right. rewrite lookup_insert_is_Some'. right. rewrite lookup_insert_eq. by eexists. }
  rewrite lookup_insert_Some in Hlk. destruct Hlk as [[<- <-]|[_ Hlk]].
  - split.
    + intros r (c & Hc & [[k H']|H'])%occurs_plain; [|done].
      destruct (Hprops k c r H' Hc) as (d & Hd & ->). exists d. simpl. by rewrite elem_of_sort.
    + intros d. simpl. rewrite elem_of_sort. intros Hd.
      destruct (Hdeps d Hd) as [->|(name & k & q & Hq & Hr & ->)]; [by left|].
      right. right. eapply Hin; [exact Hk|]. right. by exists root, k, q.
  - destruct (Hdefs key def Hlk) as [Hc Hd]. split; [done|]. intros d Hdd.
    destruct (Hd d Hdd) as (name & k & q & Hq & Hr & ->).
    right. right. eapply Hin; [exact Hq|]. by left.
Qed.

(** A kind whose [spec] is defined apart. *)
Definition foo_schemas : gmap string SchemaRef :=
  <["Foo" := inline (object_with {["spec" := reference_to "spec" Schema_zero]})]>
  {["spec" := inline (object_with ∅)]}.

Definition foo_definitions : outcome (gmap string (OpenAPIDefinition string)) :=
  AsKubeOpenAPI "ObjectMeta" "ListMeta" id (Ok (Some foo_schemas)) "Foo" "com.example".

Definition foo_result : gmap string (OpenAPIDefinition string) :=
  match foo_definitions with Ok r => r | _ => ∅ end.

Lemma refers_object name m :
  refers name (inline (object_with m)) → ∃ k q, m !! k = Some q ∧ refers name q.
Proof.
  inversion 1 as [|s r Hp Hr]; subst; [done|].
  destruct Hp as [[[Hp|[Hp|[k Hp]]]|[Hp|[Hp|Hp]]]|Hp]; try done; try by apply elem_of_nil in Hp.
  by exists k, r.
Qed.

Lemma foo_closed : closed_schemas "Foo" foo_schemas.
Proof.
  assert (∀ k q name, ({["spec" := reference_to "spec" Schema_zero]} : gmap string SchemaRef) !! k = Some q →
    refers name q → name = "spec") as Hspec.
  { intros k q name [_ <-]%lookup_singleton_Some H. by inversion H. }
  intros k r name. unfold foo_schemas. rewrite lookup_insert_Some.
  assert (name = "spec" → is_Some (foo_schemas !! name) ∧ names_kind "Foo" name = false) as Hok.
  { intros ->. by split; [eexists|]; vm_compute. }
  intros [[_ <-]|[_ [_ <-]%lookup_singleton_Some]] Hr; apply Hok.
  - destruct Hr as [(k' & q & Hq & Hr)%refers_object|(s & p & q & [= <-] & Hq & Hr)]; by eapply Hspec.
  - by destruct Hr as [(k' & q & Hq & Hr)%refers_object|(s & p & q & [= <-] & Hq & Hr)].
Qed.

Lemma foo_definitions_ok : foo_definitions = Ok foo_result.
Proof.
  assert (match foo_definitions with Ok _ => true | _ => false end = true) as H by by vm_compute.
  unfold foo_result. by destruct foo_definitions.
Qed.

Lemma AsKubeOpenAPI_closed_witness :
  is_Some (foo_result !! "com.example.Foo") ∧
  ∀ key def, foo_result !! key = Some def → covers id def ∧
    ∀ d, d ∈ def_Dependencies def → d = "ObjectMeta" ∨ d = "ListMeta" ∨ is_Some (foo_result !! d).
Proof.
  split; [eexists; by vm_compute|].
  apply (AsKubeOpenAPI_closed "ObjectMeta" "ListMeta" id (Some foo_schemas) "Foo" "com.example").
  - exact foo_definitions_ok.
  - apply foo_closed.
Defined.
