(* ===== verification/Manifest.v ===== *)
(** * The app manifest ([app/manifest.go])

    [ManifestData] describes the kinds and versions of an app; [Validate] checks that its
    versions agree.  OpenAPI paths and schemas of custom routes ([spec3.PathProps],
    [spec.Schema]) are types of [kube-openapi] that are only carried around.  The value of
    [errs], a [multierror], is the list of its errors. *)
From S2P Require Import Prelude GoValues Resource VersionSchema.

#[local] Open Scope string_scope.
#[local] Open Scope list_scope.

Definition ManifestRolePermissionSetViewer : string := "viewer".
Definition ManifestRolePermissionSetEditor : string := "editor".
Definition ManifestRolePermissionSetAdmin : string := "admin".

Record ManifestVersionKindAdditionalPrinterColumn := mkPrinterColumn {
  pc_Name : string;
  pc_Type : string;
  pc_Format : string;
  pc_Description : string;
  pc_Priority : option Z;
  pc_JSONPath : string;
}.

(** [AdmissionOperation] is a string; these are its constants. *)
Definition AdmissionOperation : Type := string.
Definition AdmissionOperationAny : AdmissionOperation := "*".
Definition AdmissionOperationCreate : AdmissionOperation := "CREATE".
Definition AdmissionOperationUpdate : AdmissionOperation := "UPDATE".
Definition AdmissionOperationDelete : AdmissionOperation := "DELETE".
Definition AdmissionOperationConnect : AdmissionOperation := "CONNECT".

(** [ValidationCapability] and [MutationCapability] *)
Record ValidationCapability := mkValidationCapability { vc_Operations : nslice AdmissionOperation }.
Record MutationCapability := mkMutationCapability { mtc_Operations : nslice AdmissionOperation }.

Record AdmissionCapabilities := mkAdmissionCapabilities {
  adm_Validation : option ValidationCapability;
  adm_Mutation : option MutationCapability;
}.

Definition SupportsAnyValidation (c : AdmissionCapabilities) : bool :=
  match adm_Validation c with
  | None => false
  | Some v => nonempty_slice (vc_Operations v)
  end.
Definition SupportsAnyMutation (c : AdmissionCapabilities) : bool :=
  match adm_Mutation c with
  | None => false
  | Some m => nonempty_slice (mtc_Operations m)
  end.

Record KindPermission := mkKindPermission {
  kp_Group : string;
  kp_Resource : string;
  kp_Actions : nslice string;
}.

Record Permissions := mkPermissions { perm_AccessKinds : nslice KindPermission }.

Record ManifestOperatorWebhookProperties := mkWebhookProperties {
  wh_ConversionPath : string;
  wh_ValidationPath : string;
  wh_MutationPath : string;
}.

Record ManifestOperatorInfo := mkOperatorInfo {
  oi_URL : string;
  oi_Webhooks : option ManifestOperatorWebhookProperties;
}.

Record ManifestRoleKind := mkRoleKind {
  rk_Kind : string;
  rk_Verbs : nslice string;
  rk_PermissionSet : option string;
}.

Record ManifestRole := mkRole {
  role_Title : string;
  role_Description : string;
  role_Kinds : nslice ManifestRoleKind;
  role_Routes : nslice string;
}.

Record ManifestRoleBindings := mkRoleBindings {
  rb_Viewer : nslice string;
  rb_Editor : nslice string;
  rb_Admin : nslice string;
  rb_Additional : nmap (nslice string);
}.

Section Manifest.
(** The types of route paths, of route schemas, and of typed values in schemas. *)
Context {PathProps RouteSchema G : Type}.

Record ManifestVersionKind := mkManifestVersionKind {
  mvk_Kind : string;
  mvk_Plural : string;
  mvk_Scope : string;
  mvk_Admission : option AdmissionCapabilities;
  mvk_Schema : option (VersionSchema G);
  mvk_SelectableFields : nslice string;
  mvk_Routes : nmap PathProps;
  mvk_Conversion : bool;
  mvk_AdditionalPrinterColumns : nslice ManifestVersionKindAdditionalPrinterColumn;
}.

Record ManifestVersionRoutes := mkManifestVersionRoutes {
  mvr_Namespaced : nmap PathProps;
  mvr_Cluster : nmap PathProps;
  mvr_Schemas : nmap RouteSchema;
}.

Record ManifestVersion := mkManifestVersion {
  mv_Name : string;
  mv_Served : bool;
  mv_Kinds : nslice ManifestVersionKind;
  mv_Routes : ManifestVersionRoutes;
}.

Record ManifestData := mkManifestData {
  md_AppName : string;
  md_AppDisplayName : string;
  md_Group : string;
  md_Versions : nslice ManifestVersion;
  md_PreferredVersion : string;
  md_ExtraPermissions : option Permissions;
  md_Operator : option ManifestOperatorInfo;
  md_Roles : nmap ManifestRole;
  md_RoleBindings : option ManifestRoleBindings;
}.

(** [ManifestData{}] *)
Definition ManifestData_zero : ManifestData :=
  mkManifestData "" "" "" None "" None None None None.

Definition IsEmpty (m : ManifestData) : bool :=
  String.eqb (md_AppName m) "" && String.eqb (md_Group m) "" &&
  negb (nonempty_slice (md_Versions m)) && String.eqb (md_PreferredVersion m) "" &&
  bool_decide (md_ExtraPermissions m = None) && bool_decide (md_Operator m = None).

(** ** Manifests and where their data is *)
Definition ManifestLocationType : Type := string.
Definition ManifestLocationFilePath : ManifestLocationType := "filepath".
Definition ManifestLocationAPIServerResource : ManifestLocationType := "apiserver".
Definition ManifestLocationEmbedded : ManifestLocationType := "embedded".

Record ManifestLocation := mkManifestLocation {
  loc_Type : ManifestLocationType;
  loc_Path : string;
}.

Record Manifest := mkManifest {
  man_Data : option ManifestData;
  man_Location : ManifestLocation;
}.

Definition NewEmbeddedManifest (manifestData : ManifestData) : Manifest :=
  mkManifest (Some manifestData) (mkManifestLocation ManifestLocationEmbedded "").
Definition NewOnDiskManifest (path : string) : Manifest :=
  mkManifest None (mkManifestLocation ManifestLocationFilePath path).
Definition NewAPIServerManifest (resourceName : string) : Manifest :=
  mkManifest None (mkManifestLocation ManifestLocationAPIServerResource resourceName).

(** ** [Validate] *)

(** What the first version of a kind says of it. *)
Record kindData := mkKindData {
  kd_kind : string;
  kd_plural : string;
  kd_scope : string;
  kd_conversion : bool;
  kd_version : string;
}.

Definition errorf (parts : list string) : GoError := ErrorString (String.concat "" parts).

(** The three comparisons with the version a kind was first seen in. *)
Definition check_kind (version : string) (k : kindData) (kind : ManifestVersionKind) : list GoError :=
  (if String.eqb (kd_plural k) (mvk_Plural kind) then []
   else [errorf ["kind '"; mvk_Kind kind; "' has a different plural in versions '"; kd_version k;
                 "' and '"; version; "'"]]) ++
  (if String.eqb (kd_scope k) (mvk_Scope kind) then []
   else [errorf ["kind '"; mvk_Kind kind; "' has a different scope in versions '"; kd_version k;
                 "' and '"; version; "'"]]) ++
  (if Bool.eqb (kd_conversion k) (mvk_Conversion kind) then []
   else [errorf ["kind '"; mvk_Kind kind; "' conversion does not match in versions '"; kd_version k;
                 "' and '"; version; "'"]]).

(** One turn of the loop over the kinds of a version. *)
Definition validate_kind (version : string) (st : gmap string kindData * list GoError)
    (kind : ManifestVersionKind) : gmap string kindData * list GoError :=
  let '(kinds, errs) := st in
  match kinds !! mvk_Kind kind with
  | None =>
      (<[mvk_Kind kind := mkKindData (mvk_Kind kind) (mvk_Plural kind) (mvk_Scope kind) (mvk_Conversion kind) version]>
        kinds, errs)
  | Some k => (kinds, errs ++ check_kind version k kind)
  end.

(** The plurals of the kinds with the scope [Cluster], and of the others. *)
Definition clusterRoutes (v : ManifestVersion) : gset string :=
  list_to_set ((λ k, ToLower (mvk_Plural k)) <$>
    filter (λ k, mvk_Scope k = "Cluster") (elems (mv_Kinds v))).
Definition namespacedRoutes (v : ManifestVersion) : gset string :=
  list_to_set ((λ k, ToLower (mvk_Plural k)) <$>
    filter (λ k, mvk_Scope k ≠ "Cluster") (elems (mv_Kinds v))).

Definition route_key (rpath : string) : string := Trim (ToLower rpath) "/"%char.

Context `{RO : !RangeOrder}.

(** The loop over custom routes of one scope. *)
Definition check_routes (what : string) (routes : nmap PathProps) (taken : gset string)
  : list GoError :=
  concat ((λ rpath,
    let key := route_key rpath in
    if decide (key ∈ taken)
    then [errorf [what; " custom route '"; rpath; "' conflicts with already-registered kind '"; key; "'"]]
    else []) <$> range_keys (dom (items routes))).

(** One turn of the loop over the versions. *)
Definition validate_version (st : gmap string kindData * list GoError) (version : ManifestVersion)
  : gmap string kindData * list GoError :=
  let '(kinds, errs) := fold_left (validate_kind (mv_Name version)) (elems (mv_Kinds version)) st in
  (kinds, errs ++
    check_routes "namespaced" (mvr_Namespaced (mv_Routes version)) (namespacedRoutes version) ++
    check_routes "cluster-scoped" (mvr_Cluster (mv_Routes version)) (clusterRoutes version)).

Definition checkRoleBinding (m : ManifestData) (rb : string) (boundRoles : nslice string)
  : list GoError :=
  concat ((λ role,
    let role := Trim role " "%char in
    if String.eqb role "" then []
    else
      match md_Roles m with
      | None => [errorf [rb; ": cannot bind role '"; role; "' as no roles are present in the manifest"]]
      | Some roles =>
          if decide (is_Some (roles !! role)) then []
          else [errorf [rb; ": cannot bind role '"; role; "' as it is not present in manifest roles"]]
      end) <$> elems boundRoles).

Definition validate_bindings (m : ManifestData) : list GoError :=
  match md_RoleBindings m with
  | None => []
  | Some b =>
      checkRoleBinding m "viewer" (rb_Viewer b) ++ checkRoleBinding m "editor" (rb_Editor b) ++
      checkRoleBinding m "admin" (rb_Admin b) ++
      concat ((λ kv, checkRoleBinding m kv.1 kv.2) <$> range_map (items (rb_Additional b)))
  end.

(** [ManifestData.Validate]; the lengths it tests before its loops change nothing. *)
Definition Validate (m : ManifestData) : list GoError :=
  (fold_left validate_version (elems (md_Versions m)) (∅, [])).2 ++ validate_bindings m.

(** ** [Kinds], [Subresources] *)
Record ManifestKindVersion := mkManifestKindVersion {
  mkv_Kind : ManifestVersionKind;
  mkv_VersionName : string;
}.

Record ManifestKind := mkManifestKind {
  mk_Kind : string;
  mk_Scope : string;
  mk_Plural : string;
  mk_Versions : list ManifestKindVersion;
  mk_Conversion : bool;
}.

(** One turn of the inner loop of [Kinds]. *)
Definition add_kind (version : string) (kinds : gmap string ManifestKind)
    (kind : ManifestVersionKind) : gmap string ManifestKind :=
  let k := default (mkManifestKind (mvk_Kind kind) (mvk_Scope kind) (mvk_Plural kind) []
                      (mvk_Conversion kind)) (kinds !! mvk_Kind kind) in
  <[mvk_Kind kind := mkManifestKind (mk_Kind k) (mk_Scope k) (mk_Plural k)
      (mk_Versions k ++ [mkManifestKindVersion kind version]) (mk_Conversion k)]> kinds.

Definition Kinds (m : ManifestData) : list ManifestKind :=
  (range_map (fold_left (λ kinds v, fold_left (add_kind (mv_Name v)) (elems (mv_Kinds v)) kinds)
    (elems (md_Versions m)) ∅)).*2.

(** [ManifestVersionKind.Subresources] *)
Definition Subresources (m : ManifestVersionKind) : list string :=
  match
    sch ← mvk_Schema m;
    k ← items (AsOpenAPI3SchemasMap sch) !! mvk_Kind m;
    cast ← as_map k;
    props ← cast !! "properties";
    as_map props
  with
  | None => []
  | Some cast =>
      filter (λ k, k ∉ ["spec"; "metadata"; "apiVersion"; "kind"]) (range_keys (dom cast))
  end.
End Manifest.

Arguments ManifestVersionKind : clear implicits.
Arguments ManifestVersionRoutes : clear implicits.
Arguments ManifestVersion : clear implicits.
Arguments ManifestData : clear implicits.
Arguments ManifestKind : clear implicits.
Arguments ManifestKindVersion : clear implicits.

(** ** When a manifest is consistent *)
Section Consistent.
Context {PathProps RouteSchema G : Type} `{RO : !RangeOrder}.
Implicit Type m : ManifestData PathProps RouteSchema G.
Implicit Type v : ManifestVersion PathProps RouteSchema G.
Implicit Types k x y : ManifestVersionKind PathProps G.

(** What must be the same in all versions of a kind. *)
Definition same_kind x y : Prop :=
  mvk_Plural x = mvk_Plural y ∧ mvk_Scope x = mvk_Scope y ∧ mvk_Conversion x = mvk_Conversion y.

Definition agreeing (l : list (ManifestVersionKind PathProps G)) : Prop :=
  ∀ x y, x ∈ l → y ∈ l → mvk_Kind x = mvk_Kind y → same_kind x y.

(** No custom route has the plural of a kind of its version and scope. *)
Definition routes_distinct v : Prop :=
  ∀ k rpath, k ∈ elems (mv_Kinds v) → route_key rpath = ToLower (mvk_Plural k) →
    if decide (mvk_Scope k = "Cluster")
    then items (mvr_Cluster (mv_Routes v)) !! rpath = None
    else items (mvr_Namespaced (mv_Routes v)) !! rpath = None.

(** Roles that are bound, but for blanks, are roles of the manifest. *)
Definition bound m (roles : nslice string) : Prop :=
  ∀ role, role ∈ elems roles → Trim role " "%char ≠ "" →
    is_Some (items (md_Roles m) !! Trim role " "%char).

Definition bindings_present m : Prop :=
  ∀ b, md_RoleBindings m = Some b →
    bound m (rb_Viewer b) ∧ bound m (rb_Editor b) ∧ bound m (rb_Admin b) ∧
    ∀ group roles, items (rb_Additional b) !! group = Some roles → bound m roles.

Definition all_kinds m : list (ManifestVersionKind PathProps G) :=
  concat ((λ v, elems (mv_Kinds v)) <$> elems (md_Versions m)).

Definition consistent m : Prop :=
  agreeing (all_kinds m) ∧ (∀ v, v ∈ elems (md_Versions m) → routes_distinct v) ∧
  bindings_present m.

(** [kinds] knows the kinds seen so far. *)
Definition knows (kinds : gmap string kindData) (seen : list (ManifestVersionKind PathProps G)) : Prop :=
  (∀ n d, kinds !! n = Some d → ∃ y, y ∈ seen ∧ mvk_Kind y = n ∧
     kd_plural d = mvk_Plural y ∧ kd_scope d = mvk_Scope y ∧ kd_conversion d = mvk_Conversion y) ∧
  (∀ y, y ∈ seen → is_Some (kinds !! mvk_Kind y)).

Lemma check_kind_nil version d x :
  check_kind version d x = [] ↔
  kd_plural d = mvk_Plural x ∧ kd_scope d = mvk_Scope x ∧ kd_conversion d = mvk_Conversion x.
Proof.
  unfold check_kind. rewrite !app_nil.
  destruct (String.eqb_spec (kd_plural d) (mvk_Plural x)), (String.eqb_spec (kd_scope d) (mvk_Scope x)),
    (Bool.eqb_spec (kd_conversion d) (mvk_Conversion x)); simpl; intuition congruence.
Qed.

Lemma agreeing_snoc l x :
  agreeing (l ++ [x]) ↔ agreeing l ∧ ∀ y, y ∈ l → mvk_Kind y = mvk_Kind x → same_kind y x.
Proof.
  unfold agreeing. setoid_rewrite elem_of_app. setoid_rewrite list_elem_of_singleton. split.
  - intros H. split; intros; apply H; auto.
  - intros [Hl Hx] y z [Hy| ->] [Hz| ->] E; auto; try by (split; [|split]).
    apply Hx in Hz; [|done]. destruct Hz as (? & ? & ?). by split; [|split].
Qed.

(** A kind adds no error exactly when it agrees with those seen. *)
Lemma validate_kind_ok version kinds errs seen x (Q : Prop) :
  knows kinds seen → (errs = [] ↔ Q ∧ agreeing seen) →
  let st := validate_kind version (kinds, errs) x in
  knows st.1 (seen ++ [x]) ∧ (st.2 = [] ↔ Q ∧ agreeing (seen ++ [x])).
Proof.
  intros [Hk Hs] He. unfold validate_kind. destruct (kinds !! mvk_Kind x) as [d|] eqn:E; cbn.
  - split.
    { split.
      - intros n d' (y & Hy & H)%Hk. exists y. by rewrite elem_of_app; split; [left|].
      - intros y [Hy| ->%list_elem_of_singleton]%elem_of_app; [by apply Hs | by eexists]. }
    rewrite app_nil, He, check_kind_nil, agreeing_snoc.
    destruct (Hk _ _ E) as (y & Hy & Ey & H1 & H2 & H3). split.
    + intros [[HQ Ha] (Hp & Hsc & Hc)]. split; [done|]. split; [done|]. intros z Hz Ez.
      destruct (Ha z y Hz Hy) as (? & ? & ?); [congruence|].
      repeat split; congruence.
    + intros (HQ & Ha & Hx). destruct (Hx y Hy Ey) as (? & ? & ?). split; [by split|].
      split; [|split]; congruence.
  - split.
    { split.
      - intros n d'. rewrite lookup_insert_Some. intros [[<- <-]|[_ H]].
        + exists x. rewrite elem_of_app, list_elem_of_singleton. by split; [right|].
        + destruct (Hk _ _ H) as (y & Hy & H'). exists y. by rewrite elem_of_app; split; [left|].
      - intros y [Hy| ->%list_elem_of_singleton]%elem_of_app; rewrite lookup_insert_is_Some'; auto. }
    rewrite He, agreeing_snoc. split; [|tauto]. intros [HQ Ha]. split; [done|]. split; [done|].
    intros y Hy Ey. destruct (Hs y Hy) as [d Hd]. congruence.
Qed.

Lemma validate_kinds_ok version l kinds errs seen (Q : Prop) :
  knows kinds seen → (errs = [] ↔ Q ∧ agreeing seen) →
  let st := fold_left (validate_kind version) l (kinds, errs) in
  knows st.1 (seen ++ l) ∧ (st.2 = [] ↔ Q ∧ agreeing (seen ++ l)).
Proof.
  revert kinds errs seen. induction l as [|x l IH]; intros kinds errs seen Hk He.
  { cbn. by rewrite app_nil_r. }
  cbn zeta. rewrite fold_left_cons.
  destruct (validate_kind_ok version kinds errs seen x Q Hk He) as [Hk' He'].
  destruct (validate_kind version (kinds, errs) x) as [kinds' errs'].
  destruct (IH _ _ _ Hk' He') as [H1 H2]. by rewrite <- app_assoc in H1, H2.
Qed.

Lemma check_routes_nil what (routes : nmap PathProps) taken :
  check_routes what routes taken = [] ↔
  ∀ rpath, is_Some (items routes !! rpath) → route_key rpath ∉ taken.
Proof.
  unfold check_routes. rewrite concat_fmap_nil. split.
  - intros H rpath Hr Hin. specialize (H rpath). rewrite elem_of_range_keys, elem_of_dom in H.
    specialize (H Hr). by destruct (decide (route_key rpath ∈ taken)).
  - intros H rpath. rewrite elem_of_range_keys, elem_of_dom. intros Hr.
    destruct (decide _) as [Hin|]; [|done]. by destruct (H rpath Hr).
Qed.

Lemma routes_distinct_nil v :
  check_routes "namespaced" (mvr_Namespaced (mv_Routes v)) (namespacedRoutes v) ++
  check_routes "cluster-scoped" (mvr_Cluster (mv_Routes v)) (clusterRoutes v) = [] ↔
  routes_distinct v.
Proof.
  rewrite app_nil, !check_routes_nil. unfold namespacedRoutes, clusterRoutes, routes_distinct.
  setoid_rewrite elem_of_list_to_set. setoid_rewrite list_elem_of_fmap.
  setoid_rewrite list_elem_of_filter. split.
  - intros [Hn Hc] k rpath Hk E. case_decide as Hs; apply eq_None_not_Some; intros H.
    + apply (Hc rpath H). by exists k.
    + apply (Hn rpath H). by exists k.
  - intros H. split; intros rpath [p Hp] (k & E & Hs & Hk); specialize (H k rpath Hk E);
      case_decide; congruence.
Qed.

Lemma validate_version_ok v kinds errs seen (Q : Prop) :
  knows kinds seen → (errs = [] ↔ Q ∧ agreeing seen) →
  let st := validate_version (kinds, errs) v in
  knows st.1 (seen ++ elems (mv_Kinds v)) ∧
  (st.2 = [] ↔ (Q ∧ routes_distinct v) ∧ agreeing (seen ++ elems (mv_Kinds v))).
Proof.
  intros Hk He. unfold validate_version.
  destruct (validate_kinds_ok (mv_Name v) (elems (mv_Kinds v)) kinds errs seen Q Hk He) as [H1 H2].
  destruct (fold_left _ _ _) as [kinds' errs']. cbn in *. split; [done|].
  rewrite app_nil, routes_distinct_nil, H2. tauto.
Qed.

Lemma validate_versions_ok l kinds errs seen (Q : Prop) :
  knows kinds seen → (errs = [] ↔ Q ∧ agreeing seen) →
  (fold_left validate_version l (kinds, errs)).2 = [] ↔
  (Q ∧ ∀ v, v ∈ l → routes_distinct v) ∧ agreeing (seen ++ concat ((λ v, elems (mv_Kinds v)) <$> l)).
Proof.
  revert kinds errs seen Q. induction l as [|v l IH]; intros kinds errs seen Q Hk He.
  { cbn. rewrite app_nil_r, He. split; [|tauto]. intros [HQ Ha]. split; [|done].
    split; [done|]. by intros v ?%elem_of_nil. }
  rewrite fold_left_cons. destruct (validate_version_ok v kinds errs seen Q Hk He) as [Hk' He'].
  destruct (validate_version (kinds, errs) v) as [kinds' errs'].
  rewrite (IH _ _ _ _ Hk' He'). csimpl. rewrite app_assoc. setoid_rewrite elem_of_cons.
  split; intros [[HQ Hv] Ha]; (split; [|done]).
  - split; [tauto|]. intros v' [->|Hv']; [tauto | by apply Hv].
  - split; [split; [done | by apply Hv; left]|]. intros v' Hv'. apply Hv. by right.
Qed.

Lemma checkRoleBinding_nil m rb roles : checkRoleBinding m rb roles = [] ↔ bound m roles.
Proof.
  unfold checkRoleBinding, bound. rewrite concat_fmap_nil. split; intros H role Hr.
  - intros Ht. specialize (H role Hr). cbn zeta in H. apply String.eqb_neq in Ht. rewrite Ht in H.
    destruct (md_Roles m) as [rs|]; [|done]. simpl. by destruct (decide _).
  - specialize (H role Hr). cbn zeta. destruct (String.eqb_spec (Trim role " "%char) ""); [done|].
    specialize (H n). destruct (md_Roles m) as [rs|]; simpl in H; [|by destruct H].
    by destruct (decide _).
Qed.

Lemma validate_bindings_nil m : validate_bindings m = [] ↔ bindings_present m.
Proof.
  unfold validate_bindings, bindings_present. destruct (md_RoleBindings m) as [b|]; [|done].
  rewrite !app_nil, !checkRoleBinding_nil, concat_fmap_nil. split.
  - intros (H1 & H2 & H3 & H4) b' [= <-]. repeat (split; [done|]). intros group roles H.
    apply (checkRoleBinding_nil m group). apply (H4 (group, roles)). by apply elem_of_range_map.
  - intros H. destruct (H b eq_refl) as (H1 & H2 & H3 & H4). repeat (split; [done|]).
    intros [group roles] Hg%elem_of_range_map. apply checkRoleBinding_nil. by eapply H4.
Qed.

Lemma Validate_consistent m : Validate m = [] ↔ consistent m.
Proof.
  unfold Validate, consistent. rewrite app_nil, validate_bindings_nil.
  rewrite (validate_versions_ok _ _ _ [] True).
  - unfold all_kinds. simpl. tauto.
  - split; [by intros n d ? | by intros y ?%elem_of_nil].
  - split; [|done]. intros _. split; [done|]. by intros x y ?%elem_of_nil.
Qed.

(** The kinds of all versions, in order, with the names of the versions. *)
Definition kind_versions m : list (ManifestKindVersion PathProps G) :=
  concat ((λ v, (λ k, mkManifestKindVersion k (mv_Name v)) <$> elems (mv_Kinds v)) <$>
    elems (md_Versions m)).

Definition versions_of (l : list (ManifestKindVersion PathProps G)) (n : string) :=
  filter (λ kv, mvk_Kind (mkv_Kind kv) = n) l.

(** [mk] is what the versions [l] of its kind make it. *)
Definition groups (l : list (ManifestKindVersion PathProps G)) n (o : option (ManifestKind PathProps G)) : Prop :=
  match o with
  | None => versions_of l n = []
  | Some mk =>
      mk_Kind mk = n ∧ mk_Versions mk = versions_of l n ∧
      ∃ x : ManifestKindVersion PathProps G, head (versions_of l n) = Some x ∧ mk_Scope mk = mvk_Scope (mkv_Kind x) ∧
        mk_Plural mk = mvk_Plural (mkv_Kind x) ∧ mk_Conversion mk = mvk_Conversion (mkv_Kind x)
  end.

Lemma add_kind_groups version kinds l x :
  (∀ n, groups l n (kinds !! n)) →
  ∀ n, groups (l ++ [mkManifestKindVersion x version]) n (add_kind version kinds x !! n).
Proof.
  intros H n. unfold add_kind. destruct (decide (mvk_Kind x = n)) as [<-|Hne].
  - rewrite lookup_insert_eq. specialize (H (mvk_Kind x)). unfold groups, versions_of in *.
    rewrite filter_app, filter_cons_True by done. simpl.
    destruct (kinds !! mvk_Kind x) as [mk|]; simpl.
    + destruct H as (H1 & H2 & y & Hy & H3). rewrite H2. split; [done|]. split; [done|].
      exists y. split; [|done]. by destruct (filter _ l).
    + rewrite H. split; [done|]. split; [done|]. by exists (mkManifestKindVersion x version).
  - rewrite lookup_insert_ne by done. specialize (H n). unfold groups, versions_of in *.
    rewrite filter_app, filter_cons_False, filter_nil, app_nil_r by done. done.
Qed.

Lemma Kinds_fold_groups (vs : list (ManifestVersion PathProps RouteSchema G)) kinds l :
  (∀ n, groups l n (kinds !! n)) →
  ∀ n, groups (l ++ concat ((λ v, (λ k, mkManifestKindVersion k (mv_Name v)) <$> elems (mv_Kinds v)) <$> vs)) n
    (fold_left (λ kinds v, fold_left (add_kind (mv_Name v)) (elems (mv_Kinds v)) kinds) vs kinds !! n).
Proof.
  revert kinds l. induction vs as [|v vs IH]; intros kinds l H n; [by rewrite app_nil_r|].
  rewrite fold_left_cons. csimpl. rewrite app_assoc. apply IH. clear n IH.
  revert kinds l H. induction (elems (mv_Kinds v)) as [|x ks IH]; intros kinds l H n; [by rewrite app_nil_r|].
  rewrite fold_left_cons. csimpl. rewrite (cons_middle _ l), app_assoc. apply IH.
  by apply add_kind_groups.
Qed.

Lemma Kinds_groups_all m :
  let kinds := fold_left (λ kinds v, fold_left (add_kind (mv_Name v)) (elems (mv_Kinds v)) kinds)
    (elems (md_Versions m)) ∅ in
  ∀ n, groups (kind_versions m) n (kinds !! n).
Proof. apply (Kinds_fold_groups _ _ []). intros n. by rewrite lookup_empty. Qed.
End Consistent.

(** ** Properties *)


(** [Kinds] has one entry per kind of the versions, with exactly the versions that have
    the kind, in order; its plural, scope and conversion are those of the first. *)
Theorem Kinds_grouped {PathProps RouteSchema G} `{RO : !RangeOrder}
    (m : ManifestData PathProps RouteSchema G) :
  NoDup (mk_Kind <$> Kinds m) ∧
  (∀ mk, mk ∈ Kinds m → groups (kind_versions m) (mk_Kind mk) (Some mk)) ∧
  ∀ kv, kv ∈ kind_versions m → mvk_Kind (mkv_Kind kv) ∈ mk_Kind <$> Kinds m.
Proof.
  pose proof (Kinds_groups_all m) as H. cbn zeta in H. unfold Kinds.
  set (kinds := fold_left _ _ _) in *.
  assert (mk_Kind <$> (range_map kinds).*2 = range_keys (dom kinds)) as Hnames.
  { rewrite <- range_map_fst, <- list_fmap_compose. 
    apply list_eq_Forall2, Forall2_fmap, Forall_Forall2_diag, Forall_forall.
    intros [n mk] Hk%elem_of_range_map. specialize (H n). rewrite Hk in H. by destruct H. }
  rewrite Hnames. split; [apply NoDup_range_keys|]. split.
  - intros mk ([n mk'] & -> & Hk%elem_of_range_map)%list_elem_of_fmap. specialize (H n).
    rewrite Hk in H. destruct (id H) as [<- _]. done.
  - intros kv Hkv. rewrite elem_of_range_keys, elem_of_dom. specialize (H (mvk_Kind (mkv_Kind kv))).
    destruct (kinds !! _); [by eexists|]. simpl in H.
    assert (kv ∈ versions_of (kind_versions m) (mvk_Kind (mkv_Kind kv))) as Hin
      by by apply list_elem_of_filter.
    rewrite H in Hin. by apply elem_of_nil in Hin.
Qed.

(** A plural that is left out is documented to be the kind with an s.  [Validate] takes it
    as it is: for two versions of a kind of which one writes the default out it reports an
    error, and a custom route that takes the default plural of its kind it lets pass. *)
Definition foo_kind (plural : string) : ManifestVersionKind unit Empty_set :=
  mkManifestVersionKind "Foo" plural "Namespaced" None None None None false None.

Definition foo_version (name plural : string) (routes : nmap unit) : ManifestVersion unit unit Empty_set :=
  mkManifestVersion name true (Some [foo_kind plural]) (mkManifestVersionRoutes routes None None).

Definition foo_manifest (vs : list (ManifestVersion unit unit Empty_set))
  : ManifestData unit unit Empty_set :=
  mkManifestData "app" "" "g" (Some vs) "" None None None None.

Theorem Validate_ignores_default_plural `{RO : !RangeOrder} :
  Validate (foo_manifest [foo_version "v1" "" None; foo_version "v2" "foos" None]) ≠ [] ∧
  Validate (foo_manifest [foo_version "v1" "" (Some {["/foos" := tt]})]) = [] ∧
  Validate (foo_manifest [foo_version "v1" "foos" (Some {["/foos" := tt]})]) ≠ [].
Proof.
  rewrite !Validate_consistent. split; [|split].
  - intros (H & _). destruct (H (foo_kind "") (foo_kind "foos")) as [H1 _]; [by left | by right; left | done|].
    discriminate.
  - split; [|split].
    + intros x y. change (all_kinds _) with [foo_kind ""]. by intros ->%list_elem_of_singleton ->%list_elem_of_singleton.
    + intros v ->%list_elem_of_singleton k rpath ->%list_elem_of_singleton. simpl. intros E.
      rewrite lookup_singleton_None. by intros <-.
    + by intros b.
  - intros (_ & H & _).
    by specialize (H _ (list_elem_of_here _ _) (foo_kind "foos") "/foos" (list_elem_of_here _ _) eq_refl).
Qed.
