(* ===== verification/AppManifest.v ===== *)
(** * The AppManifest resource ([app/appmanifest])

    What the versions v1alpha1 and v1alpha2 of the AppManifest kind share: the generated types
    of their specs, which have the same definitions in both packages, and the conversions of
    these parts from and to the manifest data, which both [conversion.go] spell out alike.
    An optional field is a pointer; [encoding/json] is a parameter. *)
From S2P Require Import Prelude GoValues Resource VersionSchema Manifest.

#[local] Open Scope string_scope.
#[local] Open Scope list_scope.

(** ** The types of the spec *)
Record AppManifestAdditionalPrinterColumns := mkAMColumn {
  amc_Name : string;
  amc_Type : string;
  amc_Format : option string;
  amc_Description : option string;
  amc_Priority : option Z;
  amc_JsonPath : string;
}.

Record AppManifestValidationCapability := mkAMValidation { amv_Operations : nslice string }.
Record AppManifestMutationCapability := mkAMMutation { amm_Operations : nslice string }.
Record AppManifestAdmissionCapabilities := mkAMAdmission {
  ama_Validation : option AppManifestValidationCapability;
  ama_Mutation : option AppManifestMutationCapability;
}.

Record AppManifestKindPermission := mkAMKindPermission {
  amp_Group : string;
  amp_Resource : string;
  amp_Actions : nslice string;
}.
Record AppManifestSpecExtraPermissions := mkAMExtraPermissions {
  ame_AccessKinds : nslice AppManifestKindPermission;
}.

Record AppManifestOperatorWebhookProperties := mkAMWebhooks {
  amw_ConversionPath : option string;
  amw_ValidationPath : option string;
  amw_MutationPath : option string;
}.
Record AppManifestOperatorInfo := mkAMOperator {
  amo_Url : option string;
  amo_Webhooks : option AppManifestOperatorWebhookProperties;
}.

Record AppManifestSpecRoleBindings := mkAMRoleBindings {
  amb_Viewer : nslice string;
  amb_Editor : nslice string;
  amb_Admin : nslice string;
  amb_Additional : nmap (nslice string);
}.

Record AppManifestRoleKindWithPermissionSet := mkWithPermissionSet {
  wps_Kind : string;
  wps_PermissionSet : string;
}.
Record AppManifestRoleKindWithVerbs := mkWithVerbs {
  wv_Kind : string;
  wv_Verbs : nslice string;
}.

Section AppManifest.
(** [G] is the type of typed values inside [any]. *)
Context {G : Type}.

(** [AppManifestRoleKind] is [interface{}]: the dynamic types the conversions know, and the
    name of any other. *)
Inductive AppManifestRoleKind :=
| RoleKindWithPermissionSet (k : AppManifestRoleKindWithPermissionSet)
| RoleKindWithVerbs (k : AppManifestRoleKindWithVerbs)
| RoleKindMap (m : gmap string (any G))
| RoleKindOther (type : string).

Record AppManifestRole := mkAMRole {
  amr_Title : string;
  amr_Description : string;
  amr_Kinds : nslice AppManifestRoleKind;
  amr_Routes : nslice string;
}.

(** [AppManifestSpec], over the type of its versions. *)
Record AppManifestSpecOf (Version : Type) := mkAMSpec {
  ams_AppName : string;
  ams_AppDisplayName : string;
  ams_Group : string;
  ams_Versions : nslice Version;
  ams_PreferredVersion : option string;
  ams_ExtraPermissions : option AppManifestSpecExtraPermissions;
  ams_DryRunKinds : option bool;
  ams_Operator : option AppManifestOperatorInfo;
  ams_Roles : nmap AppManifestRole;
  ams_RoleBindings : option AppManifestSpecRoleBindings;
}.

(** ** Loops that may fail *)

(** [for i, x := range l] over results that are a value or an error. *)
Fixpoint traverse_idx {A B : Type} (f : nat → A → B + GoError) (i : nat) (l : list A)
  : list B + GoError :=
  match l with
  | [] => inl []
  | x :: l =>
      match f i x with
      | inr e => inr e
      | inl y =>
          match traverse_idx f (S i) l with
          | inr e => inr e
          | inl ys => inl (y :: ys)
          end
      end
  end.

(** The same over a map, whose entries are stored under their keys. *)
Definition traverse_map `{RO : !RangeOrder} {A B : Type} (f : string → A → B + GoError)
    (m : gmap string A) : gmap string B + GoError :=
  match traverse_idx (λ _ kv, match f kv.1 kv.2 with inl y => inl (kv.1, y) | inr e => inr e end)
          0 (range_map m) with
  | inl l => inl (list_to_map l)
  | inr e => inr e
  end.

(** ** Parts of [ToManifestData] *)
Definition admission_to_data (a : AppManifestAdmissionCapabilities) : AdmissionCapabilities :=
  mkAdmissionCapabilities
    ((λ v, mkValidationCapability (Some (elems (amv_Operations v)))) <$> ama_Validation a)
    ((λ m, mkMutationCapability (Some (elems (amm_Operations m)))) <$> ama_Mutation a).

Definition column_to_data (c : AppManifestAdditionalPrinterColumns)
  : ManifestVersionKindAdditionalPrinterColumn :=
  mkPrinterColumn (amc_Name c) (amc_Type c) (default "" (amc_Format c))
    (default "" (amc_Description c)) (amc_Priority c) (amc_JsonPath c).

(** The plural: given, or the kind and an s; in lower case. *)
Definition plural_to_data (kind : string) (plural : option string) : string :=
  match plural with
  | Some p => ToLower p
  | None => ToLower kind +:+ "s"
  end.

Definition permissions_to_data (p : option AppManifestSpecExtraPermissions) : option Permissions :=
  match p ≫= ame_AccessKinds with
  | None => None
  | Some l =>
      Some (mkPermissions (Some ((λ a,
        mkKindPermission (amp_Group a) (amp_Resource a) (Some (elems (amp_Actions a)))) <$> l)))
  end.

Definition operator_to_data (o : AppManifestOperatorInfo) : ManifestOperatorInfo :=
  mkOperatorInfo (default "" (amo_Url o))
    ((λ w, mkWebhookProperties (default "" (amw_ConversionPath w)) (default "" (amw_ValidationPath w))
             (default "" (amw_MutationPath w))) <$> amo_Webhooks o).

(** The errors of a role kind that is a map. *)
Definition role_error (role : string) (idx : nat) (what : string) : GoError :=
  errorf ["unable to parse roles: invalid kind in role "; role; ", kind index "; pretty idx; what].

Context (go_type_name : G → string).

(** The text of an unexpected type. *)
Definition unexpected (what : string) (v : any G) : string :=
  " (expected " +:+ what +:+ ", got " +:+ TypeOf go_type_name v +:+ ")".

Definition verb_to_data (role : string) (idx vidx : nat) (v : any G) : string + GoError :=
  match as_string v with
  | Some s => inl s
  | None => inr (role_error role idx (", verbs index " +:+ pretty vidx +:+ unexpected "element type 'string'" v))
  end.

(** The case [map[string]any] of the switch over role kinds. *)
Definition role_map_to_data (role : string) (idx : nat) (knd : gmap string (any G))
  : ManifestRoleKind + GoError :=
  match knd !! "kind" with
  | None => inr (errorf ["unable to parse roles: missing kind in role "; role; ", kind index "; pretty idx])
  | Some kindVal =>
      match as_string kindVal with
      | None => inr (role_error role idx (unexpected "'kind' type string" kindVal))
      | Some kindStr =>
          match knd !! "permissionSet", knd !! "verbs" with
          | Some permSetVal, _ =>
              match as_string permSetVal with
              | None => inr (role_error role idx (unexpected "'permissionSet' type string" permSetVal))
              | Some str => inl (mkRoleKind kindStr None (Some str))
              end
          | None, Some verbVals =>
              match as_list verbVals with
              | None => inr (role_error role idx (unexpected "'verbs' type []any" verbVals))
              | Some verbs =>
                  match traverse_idx (verb_to_data role idx) 0 verbs with
                  | inr e => inr e
                  | inl vs => inl (mkRoleKind kindStr (Some vs) None)
                  end
              end
          | None, None => inl (mkRoleKind kindStr None None)
          end
      end
  end.

Definition role_kind_to_data (role : string) (idx : nat) (k : AppManifestRoleKind)
  : ManifestRoleKind + GoError :=
  match k with
  | RoleKindWithPermissionSet knd => inl (mkRoleKind (wps_Kind knd) None (Some (wps_PermissionSet knd)))
  | RoleKindWithVerbs knd => inl (mkRoleKind (wv_Kind knd) (Some (elems (wv_Verbs knd))) None)
  | RoleKindMap knd => role_map_to_data role idx knd
  | RoleKindOther type =>
      inr (errorf ["unable to parse roles: invalid kind type "; type; " for role "; role;
                   ", kind index "; pretty idx])
  end.

Definition role_to_data (k : string) (v : AppManifestRole) : ManifestRole + GoError :=
  match traverse_idx (role_kind_to_data k) 0 (elems (amr_Kinds v)) with
  | inr e => inr e
  | inl kinds =>
      inl (mkRole (amr_Title v) (amr_Description v) (Some kinds) (Some (elems (amr_Routes v))))
  end.

Definition roles_to_data `{RO : !RangeOrder} (roles : nmap AppManifestRole)
  : nmap ManifestRole + GoError :=
  match roles with
  | None => inl None
  | Some m =>
      match traverse_map role_to_data m with
      | inr e => inr e
      | inl m => inl (Some m)
      end
  end.

Definition bindings_to_data (b : AppManifestSpecRoleBindings) : ManifestRoleBindings :=
  mkRoleBindings (amb_Viewer b) (amb_Editor b) (amb_Admin b) (amb_Additional b).

(** ** Parts of [SpecFromManifestData] *)
Definition admission_from_data (a : AdmissionCapabilities) : AppManifestAdmissionCapabilities :=
  mkAMAdmission
    ((λ v, mkAMValidation (Some (elems (vc_Operations v)))) <$> adm_Validation a)
    ((λ m, mkAMMutation (Some (elems (mtc_Operations m)))) <$> adm_Mutation a).

Definition column_from_data (c : ManifestVersionKindAdditionalPrinterColumn)
  : AppManifestAdditionalPrinterColumns :=
  mkAMColumn (pc_Name c) (pc_Type c) (Some (pc_Format c)) (Some (pc_Description c))
    (pc_Priority c) (pc_JSONPath c).

Definition columns_from_data (cs : nslice ManifestVersionKindAdditionalPrinterColumn)
  : nslice AppManifestAdditionalPrinterColumns :=
  if nonempty_slice cs then Some (column_from_data <$> elems cs) else None.

(** [&s] unless [s] is empty. *)
Definition pointer_unless_empty (s : string) : option string :=
  if String.eqb s "" then None else Some s.

Definition permissions_from_data (p : option Permissions) : option AppManifestSpecExtraPermissions :=
  match p ≫= perm_AccessKinds with
  | None => None
  | Some l =>
      Some (mkAMExtraPermissions (Some ((λ a,
        mkAMKindPermission (kp_Group a) (kp_Resource a) (Some (elems (kp_Actions a)))) <$> l)))
  end.

Definition operator_from_data (o : ManifestOperatorInfo) : AppManifestOperatorInfo :=
  mkAMOperator (Some (oi_URL o))
    ((λ w, mkAMWebhooks (Some (wh_ConversionPath w)) (Some (wh_ValidationPath w))
             (Some (wh_MutationPath w))) <$> oi_Webhooks o).

Definition role_kind_from_data (k : ManifestRoleKind) : AppManifestRoleKind :=
  match rk_PermissionSet k with
  | Some p => RoleKindWithPermissionSet (mkWithPermissionSet (rk_Kind k) p)
  | None => RoleKindWithVerbs (mkWithVerbs (rk_Kind k) (Some (elems (rk_Verbs k))))
  end.

Definition role_from_data (r : ManifestRole) : AppManifestRole :=
  mkAMRole (role_Title r) (role_Description r) (Some (role_kind_from_data <$> elems (role_Kinds r)))
    (Some (elems (role_Routes r))).

Definition bindings_from_data (b : ManifestRoleBindings) : AppManifestSpecRoleBindings :=
  mkAMRoleBindings (rb_Viewer b) (rb_Editor b) (rb_Admin b) (rb_Additional b).

(** ** [AppManifestRole.UnmarshalJSON] ([appmanifest_spec_unmarshal.go]) *)
Record appManifestRoleKind := mkappManifestRoleKind {
  jk_Kind : string;
  jk_PermissionSet : option string;
  jk_Verbs : nslice string;
}.
Record appManifestRole := mkappManifestRole {
  jr_Title : string;
  jr_Description : string;
  jr_Kinds : nslice appManifestRoleKind;
  jr_Routes : nslice string;
}.

(** What the role becomes, of what [json.Unmarshal] decodes; with an error it is left alone. *)
Definition UnmarshalJSON (decoded : appManifestRole + GoError) : AppManifestRole + GoError :=
  match decoded with
  | inr e => inr e
  | inl m =>
      inl (mkAMRole (jr_Title m) (jr_Description m)
        (Some ((λ k,
          match jk_PermissionSet k with
          | Some p => RoleKindWithPermissionSet (mkWithPermissionSet (jk_Kind k) p)
          | None => RoleKindWithVerbs (mkWithVerbs (jk_Kind k) (Some (elems (jk_Verbs k))))
          end) <$> elems (jr_Kinds m)))
        (Some (elems (jr_Routes m))))
  end.
End AppManifest.

Arguments AppManifestRoleKind : clear implicits.
Arguments AppManifestRole : clear implicits.
Arguments AppManifestSpecOf : clear implicits.
Arguments mkAMSpec {G Version}.
Arguments ams_AppName {G Version}.
Arguments ams_AppDisplayName {G Version}.
Arguments ams_Group {G Version}.
Arguments ams_Versions {G Version}.
Arguments ams_PreferredVersion {G Version}.
Arguments ams_ExtraPermissions {G Version}.
Arguments ams_DryRunKinds {G Version}.
Arguments ams_Operator {G Version}.
Arguments ams_Roles {G Version}.
Arguments ams_RoleBindings {G Version}.

(** ** There and back

    [normal] is what a part of the manifest data becomes when it is written to a spec and
    read again: slices that were nil are empty, and a role kind has either a permission set
    or verbs. *)
Definition normal_slice {A} (s : nslice A) : nslice A := Some (elems s).

(** A map or slice without entries becomes nil. *)
Definition normal_map {A} (m : nmap A) : nmap A := if nonempty_map m then m else None.
Definition normal_list {A} (s : nslice A) : nslice A := if nonempty_slice s then s else None.

Definition normal_admission (a : AdmissionCapabilities) : AdmissionCapabilities :=
  mkAdmissionCapabilities
    ((λ v, mkValidationCapability (normal_slice (vc_Operations v))) <$> adm_Validation a)
    ((λ m, mkMutationCapability (normal_slice (mtc_Operations m))) <$> adm_Mutation a).

Definition normal_plural (kind plural : string) : string :=
  if String.eqb plural "" then ToLower kind +:+ "s" else ToLower plural.

Definition normal_permissions (p : option Permissions) : option Permissions :=
  match p ≫= perm_AccessKinds with
  | None => None
  | Some l => Some (mkPermissions (Some ((λ a,
      mkKindPermission (kp_Group a) (kp_Resource a) (normal_slice (kp_Actions a))) <$> l)))
  end.

Definition normal_role_kind (k : ManifestRoleKind) : ManifestRoleKind :=
  match rk_PermissionSet k with
  | Some _ => mkRoleKind (rk_Kind k) None (rk_PermissionSet k)
  | None => mkRoleKind (rk_Kind k) (normal_slice (rk_Verbs k)) None
  end.

Definition normal_role (r : ManifestRole) : ManifestRole :=
  mkRole (role_Title r) (role_Description r) (Some (normal_role_kind <$> elems (role_Kinds r)))
    (normal_slice (role_Routes r)).

Lemma admission_round_trip a : admission_to_data (admission_from_data a) = normal_admission a.
Proof. by destruct a as [[[v]|] [[m]|]]. Qed.

Lemma column_round_trip c : column_to_data (column_from_data c) = c.
Proof. by destruct c. Qed.

Lemma columns_round_trip cs :
  fmap (M := list) column_to_data <$> columns_from_data cs = normal_list cs.
Proof.
  unfold columns_from_data, normal_list. destruct (nonempty_slice cs) eqn:E; [|done].
  destruct cs as [l|]; [|done]. simpl. f_equal. rewrite <- list_fmap_compose.
  rewrite <- (list_fmap_id l) at 2. apply list_fmap_ext. intros ? c ?. apply column_round_trip.
Qed.

Lemma plural_round_trip kind plural :
  plural_to_data kind (pointer_unless_empty plural) = normal_plural kind plural.
Proof. unfold pointer_unless_empty, normal_plural. by destruct (String.eqb plural ""). Qed.

Lemma permissions_round_trip p : permissions_to_data (permissions_from_data p) = normal_permissions p.
Proof.
  unfold permissions_from_data, normal_permissions. destruct (p ≫= perm_AccessKinds) as [l|]; [|done].
  unfold permissions_to_data. simpl. by rewrite <- list_fmap_compose.
Qed.

Lemma operator_round_trip o : operator_to_data (operator_from_data o) = o.
Proof. by destruct o as [u [[a b c]|]]. Qed.

Lemma bindings_round_trip b : bindings_to_data (bindings_from_data b) = b.
Proof. by destruct b. Qed.

(** Data that is normal already. *)
Definition canonical_admission (a : AdmissionCapabilities) : Prop :=
  (∀ v, adm_Validation a = Some v → vc_Operations v ≠ None) ∧
  (∀ m, adm_Mutation a = Some m → mtc_Operations m ≠ None).

Definition canonical_plural (plural : string) : Prop := plural ≠ "" ∧ ToLower plural = plural.

Definition canonical_permissions (p : option Permissions) : Prop :=
  ∀ p', p = Some p' → ∃ l, perm_AccessKinds p' = Some l ∧ ∀ a, a ∈ l → kp_Actions a ≠ None.

(** A role kind has a permission set or verbs, not both. *)
Definition canonical_role_kind (k : ManifestRoleKind) : Prop :=
  match rk_PermissionSet k with
  | Some _ => rk_Verbs k = None
  | None => rk_Verbs k ≠ None
  end.

Definition canonical_role (r : ManifestRole) : Prop :=
  role_Routes r ≠ None ∧ ∃ l, role_Kinds r = Some l ∧ ∀ k, k ∈ l → canonical_role_kind k.

Lemma normal_slice_id {A} (s : nslice A) : s ≠ None → normal_slice s = s.
Proof. by destruct s. Qed.

Lemma list_fmap_id_in {A} (f : A → A) (l : list A) : (∀ x, x ∈ l → f x = x) → f <$> l = l.
Proof.
  intros H. rewrite <- (list_fmap_id l) at 2. apply list_fmap_ext. intros i x Hx.
  by apply H, (list_elem_of_lookup_2 _ i).
Qed.

Lemma normal_admission_id a : canonical_admission a → normal_admission a = a.
Proof.
  destruct a as [[[v]|] [[m]|]]; intros [Hv Hm]; unfold normal_admission; simpl;
    rewrite ?normal_slice_id by first [by apply (Hv _ eq_refl) | by apply (Hm _ eq_refl)]; done.
Qed.

Lemma normal_admission_canonical a : canonical_admission (normal_admission a).
Proof. by destruct a as [[[v]|] [[m]|]]; split; intros ? [= <-]. Qed.

Lemma normal_plural_id kind plural : canonical_plural plural → normal_plural kind plural = plural.
Proof. intros [Hne Hl]. unfold normal_plural. apply String.eqb_neq in Hne. by rewrite Hne. Qed.

Lemma ToLower_nonempty s : s ≠ "" → ToLower s ≠ "".
Proof. by destruct s. Qed.

Lemma append_s_nonempty s : s +:+ "s" ≠ "".
Proof. by destruct s. Qed.

Lemma normal_plural_canonical kind plural : canonical_plural (normal_plural kind plural).
Proof.
  unfold normal_plural. destruct (String.eqb_spec plural ""); split.
  - apply append_s_nonempty.
  - by rewrite ToLower_app, ToLower_idem.
  - by apply ToLower_nonempty.
  - apply ToLower_idem.
Qed.

Lemma normal_permissions_id p : canonical_permissions p → normal_permissions p = p.
Proof.
  intros H. destruct p as [[ak]|]; [|done].
  destruct (H _ eq_refl) as (l & Hl & Ha). simpl in Hl. subst ak. unfold normal_permissions. simpl.
  f_equal. f_equal. f_equal. apply list_fmap_id_in. intros [g r a] Hin. simpl.
  rewrite normal_slice_id; [done | by apply (Ha _ Hin)].
Qed.

Lemma normal_permissions_canonical p : canonical_permissions (normal_permissions p).
Proof.
  unfold normal_permissions. destruct (p ≫= perm_AccessKinds) as [l|]; intros p' E; [|done].
  injection E as <-. eexists. split; [done|].
  by intros a (x & -> & _)%list_elem_of_fmap.
Qed.

Lemma normal_role_id r : canonical_role r → normal_role r = r.
Proof.
  destruct r as [t d ks rs]. intros [Hr (l & Hl & Hk)]. simpl in *. subst ks. unfold normal_role. simpl.
  rewrite normal_slice_id by done. f_equal. f_equal. apply list_fmap_id_in.
  intros [n v p] Hin. specialize (Hk _ Hin). unfold normal_role_kind, canonical_role_kind in *.
  simpl in *. destruct p; [by rewrite Hk|]. by rewrite normal_slice_id.
Qed.

Lemma normal_role_canonical r : canonical_role (normal_role r).
Proof.
  split; [done|]. eexists. split; [done|].
  intros k (x & -> & _)%list_elem_of_fmap. by destruct x as [n v [p|]].
Qed.

Lemma normal_map_id {A} (m : nmap A) : m ≠ Some ∅ → normal_map m = m.
Proof.
  intros H. unfold normal_map. destruct (nonempty_map m) eqn:E; [done|].
  apply nonempty_map_false in E. destruct m as [m|]; [|done]. simpl in E. by subst.
Qed.

Lemma normal_map_canonical {A} (m : nmap A) : normal_map m ≠ Some ∅.
Proof.
  unfold normal_map. destruct (nonempty_map m) eqn:E; [|done]. intros ->. done.
Qed.

Lemma normal_map_idem {A} (m : nmap A) : normal_map (normal_map m) = normal_map m.
Proof. apply normal_map_id, normal_map_canonical. Qed.

Lemma normal_list_id {A} (s : nslice A) : s ≠ Some [] → normal_list s = s.
Proof. by destruct s as [[|x l]|]. Qed.

Lemma normal_list_canonical {A} (s : nslice A) : normal_list s ≠ Some [].
Proof. by destruct s as [[|x l]|]. Qed.

(** A loop whose body succeeds on every element. *)
Lemma traverse_idx_ok {A B} (f : nat → A → B + GoError) (g : A → B) l i :
  (∀ j x, x ∈ l → f j x = inl (g x)) → traverse_idx f i l = inl (g <$> l).
Proof.
  revert i. induction l as [|x l IH]; intros i H; [done|]. simpl.
  rewrite (H i x) by left. rewrite IH; [done|]. intros j y Hy. apply H. by right.
Qed.

(** The results of a loop that succeeds. *)
Lemma traverse_idx_inv {A B} (f : nat → A → B + GoError) l i r y :
  traverse_idx f i l = inl r → y ∈ r → ∃ j x, x ∈ l ∧ f j x = inl y.
Proof.
  revert i r. induction l as [|x l IH]; intros i r; simpl; [by intros [= <-] ?%elem_of_nil|].
  destruct (f i x) as [z|e] eqn:E; [|done].
  destruct (traverse_idx f (S i) l) as [ys|e] eqn:Es; [|done].
  intros [= <-] [->|Hy]%elem_of_cons.
  - exists i, x. by split; [left|].
  - destruct (IH _ _ Es Hy) as (j & x' & Hx & Ej). exists j, x'. by split; [right|].
Qed.

Lemma traverse_map_ok `{RO : !RangeOrder} {A B} (f : string → A → B + GoError) (g : A → B) m :
  (∀ k x, m !! k = Some x → f k x = inl (g x)) → traverse_map f m = inl (g <$> m).
Proof.
  intros H. unfold traverse_map. rewrite (traverse_idx_ok _ (λ kv, (kv.1, g kv.2))).
  - f_equal. rewrite <- (list_to_map_range m) at 2. by rewrite <- list_to_map_fmap.
  - intros ? [k x] Hx%elem_of_range_map. cbn [fst snd]. by rewrite H.
Qed.

Section RolesRoundTrip.
Context {G : Type} `{RO : !RangeOrder} (go_type_name : G → string).

Lemma role_round_trip k r :
  role_to_data go_type_name k (role_from_data r) = inl (normal_role r).
Proof.
  unfold role_to_data. simpl. rewrite (traverse_idx_ok _ (λ k : AppManifestRoleKind G,
    match k with
    | RoleKindWithPermissionSet knd => mkRoleKind (wps_Kind knd) None (Some (wps_PermissionSet knd))
    | RoleKindWithVerbs knd => mkRoleKind (wv_Kind knd) (Some (elems (wv_Verbs knd))) None
    | _ => mkRoleKind "" None None
    end)).
  - unfold normal_role. f_equal. f_equal. f_equal. rewrite <- list_fmap_compose.
    apply list_fmap_ext. by intros ? [kk vs [p|]] ?.
  - intros ? x (y & -> & _)%list_elem_of_fmap. by destruct y as [kk vs [p|]].
Qed.

Lemma roles_round_trip (roles : nmap ManifestRole) :
  roles_to_data go_type_name (fmap (M := gmap string) role_from_data <$> roles) =
  inl (fmap (M := gmap string) normal_role <$> roles).
Proof.
  destruct roles as [m|]; [|done]. unfold roles_to_data. simpl.
  rewrite (traverse_map_ok _ (λ r : AppManifestRole G, match role_to_data go_type_name "" r with
    inl x => x | inr _ => mkRole "" "" None None end)).
  - f_equal. f_equal. rewrite <- map_fmap_compose. apply map_fmap_ext. intros k r _. simpl.
    by rewrite role_round_trip.
  - intros k x Hx. apply lookup_fmap_Some in Hx as (r & <- & _). by rewrite !role_round_trip.
Qed.
End RolesRoundTrip.

(** ** Routes *)

(** [encoding/json] on the maps of routes: typed values ([inl] a path, [inr] a schema) or
    decoded JSON inside [any]; the names of their types; [json_bytes] is JSON text. *)
Class RouteJSON (PathProps RouteSchema : Type) := {
  json_bytes : Type;
  json_Marshal : nmap (any (PathProps + RouteSchema)) → json_bytes + GoError;
  json_Unmarshal_paths : json_bytes → gmap string PathProps + GoError;
  json_Unmarshal_schemas : json_bytes → gmap string RouteSchema + GoError;
  route_type_name : PathProps + RouteSchema → string;
}.

(** What the JSON of a path and of a schema is read as, [None] for those that cannot be
    written: [omitempty] and nil values are not always read as they were.  Every value of a
    map is written and read on its own. *)
Class RouteJSONLaws (PathProps RouteSchema : Type) `{!RouteJSON PathProps RouteSchema} := {
  path_back : PathProps → option PathProps;
  schema_back : RouteSchema → option RouteSchema;
  paths_read_back (m : gmap string PathProps) :
    (∀ k p, m !! k = Some p → is_Some (path_back p)) →
    ∃ b, json_Marshal (Some ((λ p, AGo (inl p)) <$> m)) = inl b ∧
         json_Unmarshal_paths b = inl ((λ p, default p (path_back p)) <$> m);
  schemas_read_back (m : gmap string RouteSchema) :
    (∀ k p, m !! k = Some p → is_Some (schema_back p)) →
    ∃ b, json_Marshal (Some ((λ p, AGo (inr p)) <$> m)) = inl b ∧
         json_Unmarshal_schemas b = inl ((λ p, default p (schema_back p)) <$> m);
}.

(** All values of a map are read back, or as they are; the map that is read. *)
Definition readable {A} (back : A → option A) (m : nmap A) : Prop :=
  ∀ k p, items m !! k = Some p → is_Some (back p).
Definition exact {A} (back : A → option A) (m : nmap A) : Prop :=
  ∀ k p, items m !! k = Some p → back p = Some p.
Definition read_back {A} (back : A → option A) (m : nmap A) : nmap A :=
  fmap (M := gmap string) (λ p, default p (back p)) <$> normal_map m.

Lemma normal_map_sub {A} (m : nmap A) k p : items (normal_map m) !! k = Some p → items m !! k = Some p.
Proof. unfold normal_map. by destruct (nonempty_map m). Qed.

Lemma readable_normal {A} (back : A → option A) m : readable back m → readable back (normal_map m).
Proof. intros H k p Hk. by eapply H, normal_map_sub. Qed.

Lemma read_back_normal {A} (back : A → option A) m : read_back back (normal_map m) = read_back back m.
Proof. unfold read_back. by rewrite normal_map_idem. Qed.

Lemma read_back_exact {A} (back : A → option A) m : exact back m → read_back back m = normal_map m.
Proof.
  intros H. unfold read_back. pose proof (normal_map_sub m) as Hs.
  destruct (normal_map m) as [m'|]; [|done]. simpl in *. f_equal. apply map_eq. intros k.
  rewrite lookup_fmap. destruct (m' !! k) as [p|] eqn:E; [|done]. simpl. by rewrite (H k p (Hs k p E)).
Qed.

Lemma read_back_canonical {A} (back : A → option A) m : read_back back m ≠ Some ∅.
Proof.
  unfold read_back. pose proof (normal_map_canonical m) as H. destruct (normal_map m) as [m'|]; [|done].
  simpl. intros [= E%fmap_empty_inv]. by subst.
Qed.

Lemma read_back_None {A} (back : A → option A) m : read_back back m = None → normal_map m = None.
Proof. unfold read_back. by destruct (normal_map m). Qed.

Section Routes.
Context {PathProps RouteSchema : Type} `{RJ : !RouteJSON PathProps RouteSchema}.
Abbreviation typed := (PathProps + RouteSchema)%type.

(** Marshal and unmarshal into the type of the manifest data, unless there are none. *)
Definition routes_to_data {A : Type} (unmarshal : json_bytes → gmap string A + GoError)
    (routes : nmap (any typed)) : nmap A + GoError :=
  if nonempty_map routes then
    match json_Marshal routes with
    | inr e => inr e
    | inl b =>
        match unmarshal b with
        | inr e => inr e
        | inl m => inl (Some m)
        end
    end
  else inl None.

Definition paths_from_data (routes : nmap PathProps) : nmap (any typed) :=
  fmap (M := gmap string) (λ p, AGo (inl p)) <$> routes.
Definition schemas_from_data (routes : nmap RouteSchema) : nmap (any typed) :=
  fmap (M := gmap string) (λ s, AGo (inr s)) <$> routes.

Lemma nonempty_map_fmap {A B} (f : A → B) (m : nmap A) :
  nonempty_map (fmap (M := gmap string) f <$> m) = nonempty_map m.
Proof.
  destruct m as [m|]; [|done]. unfold nonempty_map. simpl. apply bool_decide_ext.
  by rewrite fmap_empty_iff.
Qed.

Context `{RL : !RouteJSONLaws PathProps RouteSchema}.

Lemma paths_round_trip routes :
  readable path_back routes →
  routes_to_data json_Unmarshal_paths (paths_from_data routes) = inl (read_back path_back routes).
Proof using RL.
  intros H. unfold routes_to_data, paths_from_data, read_back, normal_map. rewrite nonempty_map_fmap.
  destruct (nonempty_map routes) eqn:E; [|done]. destruct routes as [m|]; [|done]. simpl.
  destruct (paths_read_back m H) as (b & -> & ->). done.
Qed.

Lemma schemas_round_trip routes :
  readable schema_back routes →
  routes_to_data json_Unmarshal_schemas (schemas_from_data routes) = inl (read_back schema_back routes).
Proof using RL.
  intros H. unfold routes_to_data, schemas_from_data, read_back, normal_map. rewrite nonempty_map_fmap.
  destruct (nonempty_map routes) eqn:E; [|done]. destruct routes as [m|]; [|done]. simpl.
  destruct (schemas_read_back m H) as (b & -> & ->). done.
Qed.
End Routes.

(** A codec for the witnesses: the text is the value, paths and schemas are strings; an
    unset path is read as an empty one, and a broken one cannot be written. *)
Definition test_path_back (p : string) : option string :=
  if String.eqb p "broken" then None else if String.eqb p "unset" then Some "" else Some p.

Definition test_broken (v : any (string + string)) : bool :=
  match v with AGo (inl p) => String.eqb p "broken" | _ => false end.

#[export] Instance TestRouteJSON : RouteJSON string string := {
  json_bytes := nmap (any (string + string));
  json_Marshal m :=
    if bool_decide (map_Forall (λ _ v, test_broken v = false) (items m)) then inl m
    else inr (ErrorString "unsupported value");
  json_Unmarshal_paths b :=
    inl (omap (λ v, match v with AGo (inl p) => test_path_back p | _ => None end) (items b));
  json_Unmarshal_schemas b :=
    inl (omap (λ v, match v with AGo (inr s) => Some s | _ => None end) (items b));
  route_type_name _ := "string";
}.

#[export] Instance TestRouteJSONLaws : RouteJSONLaws string string.
Proof.
  refine {| path_back := test_path_back; schema_back := Some |}; intros m H.
  - unfold json_Marshal, json_Unmarshal_paths, TestRouteJSON. rewrite bool_decide_true; cycle 1.
    { intros k v Hk. simpl in Hk. apply lookup_fmap_Some in Hk as (p & <- & E).
      destruct (H k p E) as [q Hq]. simpl.
      unfold test_path_back in Hq. by destruct (String.eqb p "broken"). }
    eexists. split; [done|]. f_equal. apply map_eq. intros k. simpl. rewrite lookup_omap, !lookup_fmap.
    destruct (m !! k) as [p|] eqn:E; simpl; [|done]. by destruct (H k p E) as [q ->].
  - unfold json_Marshal, json_Unmarshal_schemas, TestRouteJSON. rewrite bool_decide_true; cycle 1.
    { intros k v Hk. simpl in Hk. by apply lookup_fmap_Some in Hk as (p & <- & E). }
    eexists. split; [done|]. f_equal. apply map_eq. intros k. simpl. rewrite lookup_omap, !lookup_fmap.
    by destruct (m !! k).
Defined.
