(* ===== verification/V1alpha1.v ===== *)
(** * AppManifest v1alpha1 ([app/appmanifest/v1alpha1])

    The spec of version v1alpha1, whose kinds carry the schema of a CRD instead of an OpenAPI
    section, and which has no custom routes for versions; its conversion to the manifest data
    and back. *)
From S2P Require Import Prelude GoValues Resource VersionSchema OpenAPI CRDSchema Manifest.
From S2P Require Import AppManifest.

#[local] Open Scope string_scope.
#[local] Open Scope list_scope.

(** A loop whose body may fail or panic. *)
Fixpoint otraverse {A B : Type} (f : A → outcome B) (l : list A) : outcome (list B) :=
  match l with
  | [] => Ok []
  | x :: l => try y := f x in try ys := otraverse f l in Ok (y :: ys)
  end.

Section V1alpha1.
Context {PathProps RouteSchema : Type} `{RJ : !RouteJSON PathProps RouteSchema} `{RO : !RangeOrder}.
Context `{KT : !KinTypes}.
Abbreviation typed := (PathProps + RouteSchema)%type.
Abbreviation ManifestData := (ManifestData PathProps RouteSchema typed).
Abbreviation ManifestVersion := (ManifestVersion PathProps RouteSchema typed).
Abbreviation ManifestVersionKind := (ManifestVersionKind PathProps typed).

(** The OpenAPI loader and the JSON of a schema's properties, for [AsCRDMap]. *)
Context (load : nmap (any typed) → outcome (nmap SchemaRef)).
Context (properties_Marshal : nmap SchemaRef → string + GoError).
Context (properties_Unmarshal : string → gmap string (any typed) + GoError).

Record AppManifestManifestVersionKind := mkAMKind {
  amk_Kind : string;
  amk_Plural : option string;
  amk_Scope : string;
  amk_Admission : option AppManifestAdmissionCapabilities;
  amk_Schema : nmap (any typed);
  amk_SelectableFields : nslice string;
  amk_AdditionalPrinterColumns : nslice AppManifestAdditionalPrinterColumns;
  amk_Conversion : option bool;
  amk_Routes : nmap (any typed);
}.

Record AppManifestManifestVersion := mkAMVersion {
  amv_Name : string;
  amv_Served : option bool;
  amv_Kinds : nslice AppManifestManifestVersionKind;
}.

Definition AppManifestSpec : Type := AppManifestSpecOf typed AppManifestManifestVersion.

(** ** [ToManifestData] *)

(** The document that is made of the schema of a CRD. *)
Definition crd_document (kind : string) (kindSchema : gmap string (any typed))
  : gmap string (any typed) :=
  {["components" := AMap {["schemas" := AMap {[kind := crd_object kindSchema]}]}]}.

Definition schema_to_data (kind : string) (schema : nmap (any typed))
  : option (VersionSchema typed) + GoError :=
  match schema with
  | None => inl None
  | Some m =>
      match VersionSchemaFromMap (Some (crd_document kind m)) kind with
      | (_, Some e) => inr e
      | (sch, None) => inl sch
      end
  end.

Definition kind_to_data (kind : AppManifestManifestVersionKind) : ManifestVersionKind + GoError :=
  match schema_to_data (amk_Kind kind) (amk_Schema kind) with
  | inr e => inr e
  | inl schema =>
      match routes_to_data json_Unmarshal_paths (amk_Routes kind) with
      | inr e => inr e
      | inl routes =>
          inl (mkManifestVersionKind (amk_Kind kind) (plural_to_data (amk_Kind kind) (amk_Plural kind))
            (amk_Scope kind) (admission_to_data <$> amk_Admission kind) schema
            (amk_SelectableFields kind) routes (default false (amk_Conversion kind))
            (fmap (M := list) column_to_data <$> amk_AdditionalPrinterColumns kind))
      end
  end.

Definition version_to_data (version : AppManifestManifestVersion) : ManifestVersion + GoError :=
  match traverse_idx (λ _ k, kind_to_data k) 0 (elems (amv_Kinds version)) with
  | inr e => inr e
  | inl kinds =>
      inl (mkManifestVersion (amv_Name version) (default true (amv_Served version)) (Some kinds)
        (mkManifestVersionRoutes None None None))
  end.

(** The preferred version: given, or the last one. *)
Definition preferred_to_data (s : AppManifestSpec) : string :=
  match ams_PreferredVersion s with
  | Some p => p
  | None => from_option amv_Name "" (last (elems (ams_Versions s)))
  end.

(** [AppManifestSpec.ToManifestData]: the data and the errors, none when the error is nil. *)
Definition ToManifestData (s : AppManifestSpec) : ManifestData * list GoError :=
  match traverse_idx (λ _ v, version_to_data v) 0 (elems (ams_Versions s)) with
  | inr e => (ManifestData_zero, [e])
  | inl versions =>
      match roles_to_data route_type_name (ams_Roles s) with
      | inr e => (ManifestData_zero, [e])
      | inl roles =>
          let data := mkManifestData (ams_AppName s) (ams_AppDisplayName s) (ams_Group s)
            (Some versions) (preferred_to_data s) (permissions_to_data (ams_ExtraPermissions s))
            (operator_to_data <$> ams_Operator s) roles (bindings_to_data <$> ams_RoleBindings s) in
          (data, Validate data)
      end
  end.

(** ** [SpecFromManifestData] *)
Definition kind_from_data (version : string) (kind : ManifestVersionKind)
  : outcome AppManifestManifestVersionKind :=
  try schema := match mvk_Schema kind with
                | None => Ok None
                | Some sch =>
                    try m := on_error ("unable to convert " +:+ mvk_Kind kind +:+ "/" +:+ version +:+ " schema: ")
                               (AsCRDMap load properties_Marshal properties_Unmarshal sch (mvk_Kind kind)) in
                    Ok (Some m)
                end in
  Ok (mkAMKind (mvk_Kind kind) (pointer_unless_empty (mvk_Plural kind)) (mvk_Scope kind)
    (admission_from_data <$> mvk_Admission kind) schema
    (mvk_SelectableFields kind) (columns_from_data (mvk_AdditionalPrinterColumns kind))
    (Some (mvk_Conversion kind)) (paths_from_data (mvk_Routes kind))).

Definition version_from_data (v : ManifestVersion) : outcome AppManifestManifestVersion :=
  try kinds := otraverse (kind_from_data (mv_Name v)) (elems (mv_Kinds v)) in
  Ok (mkAMVersion (mv_Name v) (Some (mv_Served v)) (Some kinds)).

Definition SpecFromManifestData (data : ManifestData) : outcome AppManifestSpec :=
  try versions := otraverse version_from_data (elems (md_Versions data)) in
  Ok (mkAMSpec (md_AppName data) (md_AppDisplayName data) (md_Group data) (Some versions)
    (pointer_unless_empty (md_PreferredVersion data))
    (permissions_from_data (md_ExtraPermissions data)) None
    (operator_from_data <$> md_Operator data)
    (fmap (M := gmap string) role_from_data <$> md_Roles data)
    (bindings_from_data <$> md_RoleBindings data)).

(** ** There and back

    The version's routes are lost, and a schema comes back as that of its CRD. *)
Context `{RL : !RouteJSONLaws PathProps RouteSchema}.

Definition normal_schema (k : ManifestVersionKind) : option (VersionSchema typed) :=
  sch ← mvk_Schema k;
  match AsCRDMap load properties_Marshal properties_Unmarshal sch (mvk_Kind k) with
  | Ok m => Some (mkVersionSchema (Some {[mvk_Kind k := crd_object m]}))
  | _ => None
  end.

Definition normal_kind (k : ManifestVersionKind) : ManifestVersionKind :=
  mkManifestVersionKind (mvk_Kind k) (normal_plural (mvk_Kind k) (mvk_Plural k)) (mvk_Scope k)
    (normal_admission <$> mvk_Admission k) (normal_schema k) (mvk_SelectableFields k)
    (read_back path_back (mvk_Routes k)) (mvk_Conversion k) (normal_list (mvk_AdditionalPrinterColumns k)).

Definition normal_version (v : ManifestVersion) : ManifestVersion :=
  mkManifestVersion (mv_Name v) (mv_Served v) (Some (normal_kind <$> elems (mv_Kinds v)))
    (mkManifestVersionRoutes None None None).

Definition normal_preferred (d : ManifestData) : string :=
  if String.eqb (md_PreferredVersion d) "" then from_option mv_Name "" (last (elems (md_Versions d)))
  else md_PreferredVersion d.

Definition normal (d : ManifestData) : ManifestData :=
  mkManifestData (md_AppName d) (md_AppDisplayName d) (md_Group d)
    (Some (normal_version <$> elems (md_Versions d))) (normal_preferred d)
    (normal_permissions (md_ExtraPermissions d)) (md_Operator d)
    (fmap (M := gmap string) normal_role <$> md_Roles d) (md_RoleBindings d).

(** No kind has the name that stands for a kind's, and the routes of all kinds can be written
    as JSON and read. *)
Definition kinds_named (d : ManifestData) : Prop :=
  ∀ v k, v ∈ elems (md_Versions d) → k ∈ elems (mv_Kinds v) →
    mvk_Kind k ≠ parsedCRDSchemaKindName ∧ readable path_back (mvk_Routes k).

(** The document has the kind's schema, and no other. *)
Lemma crd_document_schema kind m :
  kind ≠ parsedCRDSchemaKindName →
  VersionSchemaFromMap (Some (crd_document kind m)) kind =
    (Some (mkVersionSchema (Some {[kind := crd_object m]})), None).
Proof.
  intros Hne. unfold VersionSchemaFromMap.
  assert (fixRaw (Some (crd_document kind m)) = (Some {[kind := crd_object m]}, None)) as -> by done.
  unfold rename_kind. simpl. rewrite lookup_singleton_ne by done. simpl.
  by rewrite lookup_singleton_eq.
Qed.

Lemma crd_kind_round_trip version k s :
  mvk_Kind k ≠ parsedCRDSchemaKindName → readable path_back (mvk_Routes k) →
  kind_from_data version k = Ok s → kind_to_data s = inl (normal_kind k).
Proof using RL.
  intros Hne Hp. unfold kind_from_data, normal_kind, normal_schema.
  assert (∀ a : option AdmissionCapabilities, admission_to_data <$> (admission_from_data <$> a) = normal_admission <$> a) as Ha
    by (intros [a|]; simpl; by rewrite ?admission_round_trip).
  destruct (mvk_Schema k) as [sch|]; simpl.
  - destruct (AsCRDMap _ _ _ sch (mvk_Kind k)) as [m|e| |]; simpl; try done. intros [= <-].
    unfold kind_to_data. simpl. rewrite crd_document_schema, paths_round_trip by done.
    by rewrite plural_round_trip, columns_round_trip, Ha.
  - intros [= <-]. unfold kind_to_data. simpl. rewrite paths_round_trip by done.
    by rewrite plural_round_trip, columns_round_trip, Ha.
Qed.

(** A loop there, and a loop back. *)
Lemma otraverse_round_trip {A B C} (from : A → outcome B) (to : B → C + GoError) (f : A → C) l r i :
  (∀ x y, x ∈ l → from x = Ok y → to y = inl (f x)) →
  otraverse from l = Ok r → traverse_idx (λ _ y, to y) i r = inl (f <$> l).
Proof.
  revert r i. induction l as [|x l IH]; intros r i H; simpl; [by intros [= <-]|].
  destruct (from x) as [y| | |] eqn:E; simpl; try done.
  destruct (otraverse from l) as [ys| | |] eqn:Es; simpl; try done.
  intros [= <-]. simpl. rewrite (H x y); [|left|done].
  rewrite (IH ys); [done | | done]. intros x' y' Hx. apply H. by right.
Qed.

Lemma crd_version_round_trip v s :
  (∀ k, k ∈ elems (mv_Kinds v) →
     mvk_Kind k ≠ parsedCRDSchemaKindName ∧ readable path_back (mvk_Routes k)) →
  version_from_data v = Ok s → version_to_data s = inl (normal_version v) ∧ amv_Name s = mv_Name v.
Proof using RL.
  intros H. unfold version_from_data. destruct (otraverse _ _) as [ks| | |] eqn:E; simpl; try done.
  intros [= <-]. split; [|done]. unfold version_to_data. simpl.
  erewrite otraverse_round_trip; [done | | exact E].
  intros k y Hk. destruct (H k Hk) as [H1 H2]. by apply crd_kind_round_trip.
Qed.

Lemma last_names vs s :
  otraverse version_from_data vs = Ok s →
  from_option amv_Name "" (last s) = from_option mv_Name "" (last vs).
Proof.
  revert s. induction vs as [|v vs IH]; intros s; simpl; [by intros [= <-]|].
  unfold version_from_data at 1. destruct (otraverse _ (elems (mv_Kinds v))) as [ks| | |]; simpl; try done.
  destruct (otraverse _ vs) as [ys| | |] eqn:E; simpl; try done. intros [= <-].
  specialize (IH _ eq_refl). rewrite !last_cons.
  destruct vs as [|v' vs]; simpl in E; [by injection E as <-|].
  destruct ys as [|y ys].
  { destruct (version_from_data v'); simpl in E; try done. destruct (otraverse _ vs); done. }
  destruct (last (y :: ys)) eqn:E1; [|by apply last_None in E1].
  destruct (last (v' :: vs)) eqn:E2; [done | by apply last_None in E2].
Qed.

Lemma crd_round_trip d s :
  kinds_named d → SpecFromManifestData d = Ok s →
  ToManifestData s = (normal d, Validate (normal d)).
Proof using RL.
  intros H. unfold SpecFromManifestData.
  destruct (otraverse _ _) as [vs| | |] eqn:E; simpl; try done. intros [= <-].
  unfold ToManifestData. simpl.
  erewrite otraverse_round_trip; [| |exact E]; [|intros v y Hv Ey; eapply (crd_version_round_trip v y); [intros k; by apply H | done]].
  rewrite roles_round_trip, permissions_round_trip.
  assert (operator_to_data <$> (operator_from_data <$> md_Operator d) = md_Operator d) as ->
    by by (destruct (md_Operator d); simpl; rewrite ?operator_round_trip).
  assert (bindings_to_data <$> (bindings_from_data <$> md_RoleBindings d) = md_RoleBindings d) as ->
    by by (destruct (md_RoleBindings d); simpl; rewrite ?bindings_round_trip).
  assert (preferred_to_data (mkAMSpec (md_AppName d) (md_AppDisplayName d) (md_Group d) (Some vs)
    (pointer_unless_empty (md_PreferredVersion d)) (permissions_from_data (md_ExtraPermissions d)) None
    (operator_from_data <$> md_Operator d) (fmap (M := gmap string) role_from_data <$> md_Roles d)
    (bindings_from_data <$> md_RoleBindings d)) = normal_preferred d) as ->; [|done].
  unfold preferred_to_data, normal_preferred, pointer_unless_empty. simpl.
  destruct (String.eqb _ ""); [|done]. by apply last_names.
Qed.
End V1alpha1.

(** ** Properties *)

(** Manifest data that can be written to a v1alpha1 spec and is read again keeps all but
    the routes of its versions; slices are normalised as in v1alpha2, and every schema has
    become the one of its CRD. *)
Theorem SpecFromManifestData_crd_round_trip {PathProps RouteSchema}
    `{RJ : !RouteJSON PathProps RouteSchema} `{RO : !RangeOrder} `{KT : !KinTypes}
    `{RL : !RouteJSONLaws PathProps RouteSchema} load marshal unmarshal
    (d : ManifestData PathProps RouteSchema (PathProps + RouteSchema)) s :
  kinds_named d → SpecFromManifestData load marshal unmarshal d = Ok s →
  ToManifestData s =
    (normal load marshal unmarshal d, Validate (normal load marshal unmarshal d)).
Proof. intros Hn E. by apply crd_round_trip. Qed.

(** A loader that knows one schema, and the JSON of its properties. *)
Definition bar_load (raw : nmap (any (string + string))) : outcome (nmap SchemaRef) :=
  Ok (Some ((λ _, inline (object_with {["spec" := inline (object_with ∅)]})) <$> items raw)).
Definition bar_marshal (props : nmap SchemaRef) : string + GoError := inl "properties".
Definition bar_unmarshal (b : string) : gmap string (any (string + string)) + GoError :=
  inl {["spec" := AMap {["type" := AString "object"]}]}.

(** A kind with a schema, in a version with a route. *)
Definition bar_data : ManifestData string string (string + string) :=
  mkManifestData "bar" "Bar" "bar.example"
    (Some [mkManifestVersion "v1" true
      (Some [mkManifestVersionKind "Bar" "" "Cluster" None
        (Some (mkVersionSchema (Some {["Bar" := AMap ∅]}))) None None true None])
      (mkManifestVersionRoutes (Some {["/status" := "get"]}) None None)])
    "" None None None None.

Definition bar_spec : AppManifestSpec :=
  match SpecFromManifestData bar_load bar_marshal bar_unmarshal bar_data with
  | Ok s => s
  | _ => mkAMSpec "" "" "" None None None None None None None
  end.

Lemma bar_named : kinds_named bar_data.
Proof.
  intros v k Hv Hk. apply list_elem_of_singleton in Hv as ->. apply list_elem_of_singleton in Hk as ->.
  split; [done|]. by intros k p.
Qed.

Lemma SpecFromManifestData_crd_round_trip_witness :
  ToManifestData bar_spec =
    (normal bar_load bar_marshal bar_unmarshal bar_data,
     Validate (normal bar_load bar_marshal bar_unmarshal bar_data)).
Proof.
  apply (SpecFromManifestData_crd_round_trip bar_load bar_marshal bar_unmarshal bar_data bar_spec);
    [apply bar_named | by vm_compute].
Defined.
