(* ===== verification/V1alpha2.v ===== *)
(** * AppManifest v1alpha2 ([app/appmanifest/v1alpha2])

    The spec of version v1alpha2, its conversion to the manifest data and back.  Whatever
    the manifest data holds comes back, up to what [normal] says. *)
From S2P Require Import Prelude GoValues Resource VersionSchema Manifest AppManifest.

#[local] Open Scope string_scope.
#[local] Open Scope list_scope.

Section V1alpha2.
Context {PathProps RouteSchema : Type} `{RJ : !RouteJSON PathProps RouteSchema} `{RO : !RangeOrder}.
Abbreviation typed := (PathProps + RouteSchema)%type.
Abbreviation ManifestData := (ManifestData PathProps RouteSchema typed).
Abbreviation ManifestVersion := (ManifestVersion PathProps RouteSchema typed).
Abbreviation ManifestVersionKind := (ManifestVersionKind PathProps typed).

Record AppManifestManifestVersionKind := mkAMKind {
  amk_Kind : string;
  amk_Plural : option string;
  amk_Scope : string;
  amk_Admission : option AppManifestAdmissionCapabilities;
  amk_Schemas : nmap (any typed);
  amk_SelectableFields : nslice string;
  amk_AdditionalPrinterColumns : nslice AppManifestAdditionalPrinterColumns;
  amk_Conversion : option bool;
  amk_Routes : nmap (any typed);
}.

Record AppManifestManifestVersionRoutes := mkAMVersionRoutes {
  amvr_Namespaced : nmap (any typed);
  amvr_Cluster : nmap (any typed);
  amvr_Schemas : nmap (any typed);
}.

Record AppManifestManifestVersion := mkAMVersion {
  amv_Name : string;
  amv_Served : option bool;
  amv_Kinds : nslice AppManifestManifestVersionKind;
  amv_Routes : option AppManifestManifestVersionRoutes;
}.

Definition AppManifestSpec : Type := AppManifestSpecOf typed AppManifestManifestVersion.

Definition NewAppManifestManifestVersionRoutes : AppManifestManifestVersionRoutes :=
  mkAMVersionRoutes None None None.

(** ** [ToManifestData] *)

(** The schema: a map that is not empty must have an entry for the kind. *)
Definition schema_to_data (kind : string) (schemas : nmap (any typed))
  : option (VersionSchema typed) + GoError :=
  match schemas with
  | None => inl None
  | Some m =>
      if negb (bool_decide (is_Some (m !! kind))) && nonempty_map (Some m)
      then inr (errorf ["schemas for "; kind; " must contain an entry named '"; kind; "'"])
      else
        match VersionSchemaFromMap (Some m) kind with
        | (_, Some e) => inr e
        | (sch, None) => inl sch
        end
  end.

Definition kind_to_data (kind : AppManifestManifestVersionKind) : ManifestVersionKind + GoError :=
  match schema_to_data (amk_Kind kind) (amk_Schemas kind) with
  | inr e => inr e
  | inl schema =>
      match routes_to_data json_Unmarshal_paths (amk_Routes kind) with
      | inr e => inr e
      | inl routes =>
          inl (mkManifestVersionKind (amk_Kind kind) (plural_to_data (amk_Kind kind) (amk_Plural kind))
            (amk_Scope kind) (admission_to_data <$> amk_Admission kind) schema
            (amk_SelectableFields kind) routes (default false (amk_Conversion kind))
            (fmap (M := list) column_to_data <$> amk_AdditionalPrinterColumns kind))
      end
  end.

Definition version_routes_to_data (routes : option AppManifestManifestVersionRoutes)
  : ManifestVersionRoutes PathProps RouteSchema + GoError :=
  match routes with
  | None => inl (mkManifestVersionRoutes None None None)
  | Some r =>
      match routes_to_data json_Unmarshal_paths (amvr_Namespaced r) with
      | inr e => inr e
      | inl namespaced =>
          match routes_to_data json_Unmarshal_paths (amvr_Cluster r) with
          | inr e => inr e
          | inl cluster =>
              match routes_to_data json_Unmarshal_schemas (amvr_Schemas r) with
              | inr e => inr e
              | inl schemas => inl (mkManifestVersionRoutes namespaced cluster schemas)
              end
          end
      end
  end.

Definition version_to_data (version : AppManifestManifestVersion) : ManifestVersion + GoError :=
  match traverse_idx (λ _ k, kind_to_data k) 0 (elems (amv_Kinds version)) with
  | inr e => inr e
  | inl kinds =>
      match version_routes_to_data (amv_Routes version) with
      | inr e => inr e
      | inl routes =>
          inl (mkManifestVersion (amv_Name version) (default true (amv_Served version))
            (Some kinds) routes)
      end
  end.

(** The preferred version: given, or the last one. *)
Definition preferred_to_data (s : AppManifestSpec) : string :=
  match ams_PreferredVersion s with
  | Some p => p
  | None => from_option amv_Name "" (last (elems (ams_Versions s)))
  end.

(** [AppManifestSpec.ToManifestData]: the data and the errors, none when the error is nil. *)
Definition ToManifestData (s : AppManifestSpec) : ManifestData * list GoError :=
  match traverse_idx (λ _ v, version_to_data v) 0 (elems (ams_Versions s)) with
  | inr e => (ManifestData_zero, [e])
  | inl versions =>
      match roles_to_data route_type_name (ams_Roles s) with
      | inr e => (ManifestData_zero, [e])
      | inl roles =>
          let data := mkManifestData (ams_AppName s) (ams_AppDisplayName s) (ams_Group s)
            (Some versions) (preferred_to_data s) (permissions_to_data (ams_ExtraPermissions s))
            (operator_to_data <$> ams_Operator s) roles (bindings_to_data <$> ams_RoleBindings s) in
          (data, Validate data)
      end
  end.

(** ** [SpecFromManifestData] *)
Definition kind_from_data (kind : ManifestVersionKind) : AppManifestManifestVersionKind :=
  mkAMKind (mvk_Kind kind) (pointer_unless_empty (mvk_Plural kind)) (mvk_Scope kind)
    (admission_from_data <$> mvk_Admission kind) (mvk_Schema kind ≫= AsOpenAPI3SchemasMap)
    (mvk_SelectableFields kind) (columns_from_data (mvk_AdditionalPrinterColumns kind))
    (Some (mvk_Conversion kind)) (paths_from_data (mvk_Routes kind)).

Definition version_routes_from_data (r : ManifestVersionRoutes PathProps RouteSchema)
  : option AppManifestManifestVersionRoutes :=
  if nonempty_map (mvr_Namespaced r) || nonempty_map (mvr_Cluster r) then
    Some (mkAMVersionRoutes (paths_from_data (normal_map (mvr_Namespaced r)))
      (paths_from_data (normal_map (mvr_Cluster r))) (schemas_from_data (normal_map (mvr_Schemas r))))
  else None.

Definition version_from_data (v : ManifestVersion) : AppManifestManifestVersion :=
  mkAMVersion (mv_Name v) (Some (mv_Served v)) (Some (kind_from_data <$> elems (mv_Kinds v)))
    (version_routes_from_data (mv_Routes v)).

(** [SpecFromManifestData], which never fails. *)
Definition SpecFromManifestData (data : ManifestData) : AppManifestSpec :=
  mkAMSpec (md_AppName data) (md_AppDisplayName data) (md_Group data)
    (Some (version_from_data <$> elems (md_Versions data)))
    (pointer_unless_empty (md_PreferredVersion data))
    (permissions_from_data (md_ExtraPermissions data)) None
    (operator_from_data <$> md_Operator data)
    (fmap (M := gmap string) role_from_data <$> md_Roles data)
    (bindings_from_data <$> md_RoleBindings data).

(** ** There and back *)
Context `{RL : !RouteJSONLaws PathProps RouteSchema}.

Definition normal_routes (r : ManifestVersionRoutes PathProps RouteSchema) :=
  if nonempty_map (mvr_Namespaced r) || nonempty_map (mvr_Cluster r)
  then mkManifestVersionRoutes (read_back path_back (mvr_Namespaced r))
         (read_back path_back (mvr_Cluster r)) (read_back schema_back (mvr_Schemas r))
  else mkManifestVersionRoutes None None None.

Definition normal_kind (k : ManifestVersionKind) : ManifestVersionKind :=
  mkManifestVersionKind (mvk_Kind k) (normal_plural (mvk_Kind k) (mvk_Plural k)) (mvk_Scope k)
    (normal_admission <$> mvk_Admission k) (mvk_Schema k) (mvk_SelectableFields k)
    (read_back path_back (mvk_Routes k)) (mvk_Conversion k) (normal_list (mvk_AdditionalPrinterColumns k)).

Definition normal_version (v : ManifestVersion) : ManifestVersion :=
  mkManifestVersion (mv_Name v) (mv_Served v) (Some (normal_kind <$> elems (mv_Kinds v)))
    (normal_routes (mv_Routes v)).

Definition normal_preferred (d : ManifestData) : string :=
  if String.eqb (md_PreferredVersion d) "" then from_option mv_Name "" (last (elems (md_Versions d)))
  else md_PreferredVersion d.

Definition normal (d : ManifestData) : ManifestData :=
  mkManifestData (md_AppName d) (md_AppDisplayName d) (md_Group d)
    (Some (normal_version <$> elems (md_Versions d))) (normal_preferred d)
    (normal_permissions (md_ExtraPermissions d)) (md_Operator d)
    (fmap (M := gmap string) normal_role <$> md_Roles d) (md_RoleBindings d).

(** The schema of a kind is one for the kind, in the form of an OpenAPI section. *)
Definition schema_ok (k : ManifestVersionKind) : Prop :=
  ∀ sch, mvk_Schema k = Some sch →
    vs_raw sch ≠ None ∧ schema_of (mvk_Kind k) sch ∧ openapi_shaped (items (vs_raw sch)).

Definition schemas_ok (d : ManifestData) : Prop :=
  ∀ v k, v ∈ elems (md_Versions d) → k ∈ elems (mv_Kinds v) → schema_ok k.

(** The paths and the schemas of all custom routes can be written as JSON and read, or are
    read as they are. *)
Definition all_routes_are (p : nmap PathProps → Prop) (s : nmap RouteSchema → Prop) (d : ManifestData) : Prop :=
  ∀ v, v ∈ elems (md_Versions d) →
    p (mvr_Namespaced (mv_Routes v)) ∧ p (mvr_Cluster (mv_Routes v)) ∧ s (mvr_Schemas (mv_Routes v)) ∧
    ∀ k, k ∈ elems (mv_Kinds v) → p (mvk_Routes k).

Definition routes_ok : ManifestData → Prop := all_routes_are (readable path_back) (readable schema_back).
Definition routes_exact : ManifestData → Prop := all_routes_are (exact path_back) (exact schema_back).

(** Data that comes back as it is, but for what JSON makes of the routes. *)
Definition canonical_kind (k : ManifestVersionKind) : Prop :=
  canonical_plural (mvk_Plural k) ∧ (∀ a, mvk_Admission k = Some a → canonical_admission a) ∧
  mvk_Routes k ≠ Some ∅ ∧ mvk_AdditionalPrinterColumns k ≠ Some [].

(** Route schemas come with routes. *)
Definition canonical_routes (r : ManifestVersionRoutes PathProps RouteSchema) : Prop :=
  mvr_Namespaced r ≠ Some ∅ ∧ mvr_Cluster r ≠ Some ∅ ∧ mvr_Schemas r ≠ Some ∅ ∧
  (mvr_Namespaced r = None → mvr_Cluster r = None → mvr_Schemas r = None).

Definition canonical_version (v : ManifestVersion) : Prop :=
  canonical_routes (mv_Routes v) ∧
  ∃ l, mv_Kinds v = Some l ∧ ∀ k, k ∈ l → canonical_kind k.

Definition canonical (d : ManifestData) : Prop :=
  (∃ l, md_Versions d = Some l ∧ ∀ v, v ∈ l → canonical_version v) ∧
  (md_PreferredVersion d = "" → from_option mv_Name "" (last (elems (md_Versions d))) = "") ∧
  canonical_permissions (md_ExtraPermissions d) ∧
  (∀ k r, items (md_Roles d) !! k = Some r → canonical_role r).

Lemma normal_kind_id k : canonical_kind k → exact path_back (mvk_Routes k) → normal_kind k = k.
Proof.
  destruct k as [n p s a sch f r c cols]. intros (Hp & Ha & Hr & Hc) Hx. unfold normal_kind. simpl in *.
  rewrite normal_plural_id, read_back_exact, normal_map_id, normal_list_id by done. f_equal.
  destruct a as [a|]; [|done]. simpl. by rewrite normal_admission_id by by apply Ha.
Qed.

Lemma normal_kind_canonical k : canonical_kind (normal_kind k).
Proof.
  split; [apply normal_plural_canonical|]. split; [|split; [apply read_back_canonical | apply normal_list_canonical]].
  simpl. intros a (x & _ & ->)%fmap_Some. apply normal_admission_canonical.
Qed.

Lemma nonempty_map_true {A} (m : nmap A) : m ≠ Some ∅ → nonempty_map m = bool_decide (is_Some m).
Proof.
  intros H. destruct m as [m|]; [|done]. unfold nonempty_map. simpl. apply bool_decide_eq_true. by intros ->.
Qed.

Lemma normal_routes_id r :
  canonical_routes r → exact path_back (mvr_Namespaced r) → exact path_back (mvr_Cluster r) →
  exact schema_back (mvr_Schemas r) → normal_routes r = r.
Proof.
  destruct r as [n c s]. intros (Hn & Hc & Hs & H) En Ec Es. unfold normal_routes. simpl in *.
  rewrite !read_back_exact, !normal_map_id by done. rewrite !nonempty_map_true by done.
  destruct n as [n|], c as [c|]; try done. simpl. by rewrite H.
Qed.

Lemma normal_routes_canonical r : canonical_routes (normal_routes r).
Proof.
  unfold normal_routes. destruct (_ || _) eqn:E; [|done].
  repeat (split; [apply read_back_canonical|]). simpl. intros H1%read_back_None H2%read_back_None.
  unfold normal_map in H1, H2.
  destruct (nonempty_map (mvr_Namespaced r)) eqn:En; [by rewrite H1 in En|].
  destruct (nonempty_map (mvr_Cluster r)) eqn:Ec; [by rewrite H2 in Ec | done].
Qed.

Lemma normal_version_id v :
  canonical_version v → exact path_back (mvr_Namespaced (mv_Routes v)) →
  exact path_back (mvr_Cluster (mv_Routes v)) → exact schema_back (mvr_Schemas (mv_Routes v)) →
  (∀ k, k ∈ elems (mv_Kinds v) → exact path_back (mvk_Routes k)) → normal_version v = v.
Proof.
  destruct v as [n s ks r]. intros (Hr & l & Hl & Hk) E1 E2 E3 E4. unfold normal_version. simpl in *. subst ks.
  rewrite normal_routes_id by done. f_equal. f_equal. apply list_fmap_id_in.
  intros k Hin. by apply normal_kind_id; [apply Hk | apply E4].
Qed.

Lemma normal_version_canonical v : canonical_version (normal_version v).
Proof.
  split; [apply normal_routes_canonical|]. eexists. split; [done|].
  intros k (x & -> & _)%list_elem_of_fmap. apply normal_kind_canonical.
Qed.

Lemma normal_id d : canonical d → routes_exact d → normal d = d.
Proof.
  destruct d as [a dn g vs p ep o rs rb]. intros ((l & Hl & Hv) & Hp & Hep & Hr) Hx. simpl in *. subst vs.
  unfold normal, normal_preferred. simpl in *. rewrite normal_permissions_id by done.
  assert (normal_version <$> l = l) as -> by (apply list_fmap_id_in; intros v Hin; destruct (Hx v Hin) as (?&?&?&?); by apply normal_version_id; [apply Hv|..]).
  f_equal.
  - destruct (String.eqb_spec p "") as [->|]; [by apply Hp | done].
  - destruct rs as [m|]; [|done]. simpl in *. f_equal. apply map_eq. intros k. rewrite lookup_fmap.
    destruct (m !! k) as [r|] eqn:E; [|done]. simpl. f_equal. by eapply normal_role_id, Hr.
Qed.

Lemma normal_canonical d : canonical (normal d).
Proof.
  split; [|split; [|split; [apply normal_permissions_canonical|]]].
  - eexists. split; [done|]. intros v (x & -> & _)%list_elem_of_fmap. apply normal_version_canonical.
  - unfold normal, normal_preferred. simpl. intros H.
    rewrite fmap_last. destruct (String.eqb_spec (md_PreferredVersion d) "") as [E|]; [|done].
    by destruct (last (elems (md_Versions d))).
  - intros k r. simpl. destruct (md_Roles d) as [m|]; [|done]. simpl.
    intros (x & <- & _)%lookup_fmap_Some. apply normal_role_canonical.
Qed.

(** What [ToManifestData] promises of a kind, and of a role. *)
Definition kind_sound (k : ManifestVersionKind) : Prop :=
  ToLower (mvk_Plural k) = mvk_Plural k ∧
  ∀ sch, mvk_Schema k = Some sch → vs_raw sch ≠ None ∧
    (mvk_Kind k ≠ parsedCRDSchemaKindName → schema_of (mvk_Kind k) sch).

Lemma kind_to_data_sound kind k : kind_to_data kind = inl k → kind_sound k.
Proof.
  unfold kind_to_data. destruct (schema_to_data _ _) as [sch|e] eqn:Es; [|done].
  destruct (routes_to_data _ _) as [r|e]; [|done]. intros [= <-]. split; simpl.
  - unfold plural_to_data. destruct (amk_Plural kind); [apply ToLower_idem|].
    by rewrite ToLower_app, ToLower_idem.
  - intros s ->. unfold schema_to_data in Es. destruct (amk_Schemas kind) as [m|]; [|done].
    destruct (_ && _); [done|].
    destruct (VersionSchemaFromMap (Some m) (amk_Kind kind)) as [sch [e|]] eqn:E; [done|].
    injection Es as ->. split; [by eapply VersionSchemaFromMap_nil|].
    intros Hne. by eapply VersionSchemaFromMap_schema_of.
Qed.

Lemma version_to_data_sound version v :
  version_to_data version = inl v → ∀ k, k ∈ elems (mv_Kinds v) → kind_sound k.
Proof.
  unfold version_to_data. destruct (traverse_idx _ _ _) as [ks|e] eqn:Ek; [|done].
  destruct (version_routes_to_data _) as [r|e]; [|done]. intros [= <-] k Hk. simpl in Hk.
  destruct (traverse_idx_inv _ _ _ _ _ Ek Hk) as (j & kind & _ & E).
  by eapply kind_to_data_sound.
Qed.

(** *** The conversions *)
Lemma schema_round_trip k :
  schema_ok k → schema_to_data (mvk_Kind k) (mvk_Schema k ≫= AsOpenAPI3SchemasMap) = inl (mvk_Schema k).
Proof.
  intros H. destruct (mvk_Schema k) as [sch|] eqn:E; [|done].
  destruct (H sch E) as (Hn & Hs & Ho). simpl. unfold AsOpenAPI3SchemasMap.
  destruct (vs_raw sch) as [m|] eqn:Em; [|done]. unfold schema_to_data.
  destruct (_ && _) eqn:Eb.
  - exfalso. apply andb_true_iff in Eb as [Eb1 Eb2]. apply negb_true_iff, bool_decide_eq_false in Eb1.
    destruct (id Hs) as [_ [H'|H']]; rewrite Em in H'; [done|]. simpl in H'. subst.
    by apply Is_true_true, bool_decide_spec in Eb2.
  - rewrite <- Em in Ho |- *. by rewrite (VersionSchemaFromMap_id _ sch).
Qed.

Lemma kind_round_trip k :
  schema_ok k → readable path_back (mvk_Routes k) → kind_to_data (kind_from_data k) = inl (normal_kind k).
Proof using RL.
  intros H Hp. unfold kind_to_data. simpl. rewrite schema_round_trip by done.
  rewrite paths_round_trip by done. simpl. unfold normal_kind. rewrite plural_round_trip, columns_round_trip.
  by destruct (mvk_Admission k); simpl; rewrite ?admission_round_trip.
Qed.

Lemma version_routes_round_trip r :
  readable path_back (mvr_Namespaced r) → readable path_back (mvr_Cluster r) →
  readable schema_back (mvr_Schemas r) →
  version_routes_to_data (version_routes_from_data r) = inl (normal_routes r).
Proof using RL.
  intros Hn Hc Hs. unfold version_routes_from_data, normal_routes. destruct (_ || _); [|done]. simpl.
  by rewrite !paths_round_trip, schemas_round_trip, !read_back_normal by by apply readable_normal.
Qed.

Lemma version_round_trip v :
  (∀ k, k ∈ elems (mv_Kinds v) → schema_ok k ∧ readable path_back (mvk_Routes k)) →
  readable path_back (mvr_Namespaced (mv_Routes v)) → readable path_back (mvr_Cluster (mv_Routes v)) →
  readable schema_back (mvr_Schemas (mv_Routes v)) →
  version_to_data (version_from_data v) = inl (normal_version v).
Proof using RL.
  intros H Hn Hc Hs. unfold version_to_data. simpl.
  assert (traverse_idx (λ _ k, kind_to_data k) 0 (kind_from_data <$> elems (mv_Kinds v)) =
          inl (normal_kind <$> elems (mv_Kinds v))) as ->.
  { revert H. generalize 0 at 1. induction (elems (mv_Kinds v)) as [|k ks IH]; intros i H; [done|].
    csimpl. destruct (H k) as [Hk1 Hk2]; [by left|]. rewrite kind_round_trip by done.
    rewrite IH; [done|]. intros k' Hk'. apply H. by right. }
  by rewrite version_routes_round_trip by done.
Qed.

Lemma versions_round_trip vs :
  (∀ v, v ∈ vs → (∀ k, k ∈ elems (mv_Kinds v) → schema_ok k ∧ readable path_back (mvk_Routes k)) ∧
     readable path_back (mvr_Namespaced (mv_Routes v)) ∧ readable path_back (mvr_Cluster (mv_Routes v)) ∧
     readable schema_back (mvr_Schemas (mv_Routes v))) →
  traverse_idx (λ _ v, version_to_data v) 0 (version_from_data <$> vs) = inl (normal_version <$> vs).
Proof using RL.
  generalize 0 at 1. induction vs as [|v vs IH]; intros i H; [done|].
  csimpl. destruct (H v) as (H1 & H2 & H3 & H4); [by left|]. rewrite version_round_trip by done.
  rewrite IH; [done|]. intros v' Hv'. apply H. by right.
Qed.

Lemma preferred_round_trip d :
  preferred_to_data (SpecFromManifestData d) = normal_preferred d.
Proof.
  unfold preferred_to_data, normal_preferred, SpecFromManifestData, pointer_unless_empty. simpl.
  destruct (String.eqb _ ""); [|done]. rewrite fmap_last.
  by destruct (last (elems (md_Versions d))).
Qed.

Lemma round_trip d :
  schemas_ok d → routes_ok d →
  ToManifestData (SpecFromManifestData d) = (normal d, Validate (normal d)).
Proof using RL.
  intros H Hr. unfold ToManifestData. simpl. rewrite versions_round_trip; cycle 1.
  { intros v Hv. destruct (Hr v Hv) as (H1 & H2 & H3 & H4). split_and!; [|done..].
    intros k Hk. split; [by eapply H | by apply H4]. }
  rewrite roles_round_trip, preferred_round_trip, permissions_round_trip.
  assert (operator_to_data <$> (operator_from_data <$> md_Operator d) = md_Operator d) as ->
    by by (destruct (md_Operator d); simpl; rewrite ?operator_round_trip).
  assert (bindings_to_data <$> (bindings_from_data <$> md_RoleBindings d) = md_RoleBindings d) as ->
    by by (destruct (md_RoleBindings d); simpl; rewrite ?bindings_round_trip).
  done.
Qed.
End V1alpha2.

(** ** Properties *)

(** C9: Manifest data written to a v1alpha2 spec and read again is the same up to [normal],
    and is validated, under two conditions.  The schemas are OpenAPI sections with an entry
    of the kind's name ([schemas_ok]); one that was read from the form of a CRD is held under
    a placeholder, and makes [ToManifestData] fail ([crd_schema_not_read_back]).  And the
    paths and schemas of the routes can be written as JSON and read ([routes_ok]); they come
    back as they are read, which [omitempty] may change.  [normal] gives canonical data, and
    it changes nothing in canonical data whose routes are read as they are. *)
Theorem SpecFromManifestData_round_trip {PathProps RouteSchema}
    `{RJ : !RouteJSON PathProps RouteSchema} `{RO : !RangeOrder}
    `{RL : !RouteJSONLaws PathProps RouteSchema}
    (d : ManifestData PathProps RouteSchema (PathProps + RouteSchema)) :
  schemas_ok d → routes_ok d →
  ToManifestData (SpecFromManifestData d) = (normal d, Validate (normal d)) ∧
  canonical (normal d) ∧ (canonical d → routes_exact d → normal d = d).
Proof.
  intros H Hr. split; [by apply round_trip|]. split; [apply normal_canonical | apply normal_id].
Qed.

(** What [ToManifestData] returns without an error is consistent; its plurals are in lower
    case, and the schema of every kind is an OpenAPI section that names the kind. *)
Theorem ToManifestData_sound {PathProps RouteSchema}
    `{RJ : !RouteJSON PathProps RouteSchema} `{RO : !RangeOrder}
    (s : AppManifestSpec (PathProps := PathProps) (RouteSchema := RouteSchema)) d :
  ToManifestData s = (d, []) →
  consistent d ∧
  ∀ v k, v ∈ elems (md_Versions d) → k ∈ elems (mv_Kinds v) → kind_sound k.
Proof.
  unfold ToManifestData. destruct (traverse_idx _ _ _) as [vs|e] eqn:Ev; [|done].
  destruct (roles_to_data _ _) as [roles|e]; [|done].
  set (data := mkManifestData _ _ _ _ _ _ _ _ _). intros [= <- Hvalid].
  split; [by apply Validate_consistent|]. intros v k Hv. simpl in Hv.
  destruct (traverse_idx_inv _ _ _ _ _ Ev Hv) as (j & version & _ & E).
  by eapply version_to_data_sound.
Qed.

(** ** Witnesses *)

(** A manifest with one kind, a schema for it, a custom route and a role. *)
Definition foo_schema : VersionSchema (string + string) :=
  mkVersionSchema (Some {["Foo" := AMap {["type" := AString "object"]}]}).

Definition foo_data : ManifestData string string (string + string) :=
  mkManifestData "foo" "Foo" "foo.example"
    (Some [mkManifestVersion "v1" true
      (Some [mkManifestVersionKind "Foo" "foos" "Namespaced"
        (Some (mkAdmissionCapabilities (Some (mkValidationCapability (Some ["CREATE"]))) None))
        (Some foo_schema) (Some ["spec.name"]) (Some {["/reset" := "post"]}) false None])
      (mkManifestVersionRoutes (Some {["/status" := "get"]}) None (Some {["Status" := "object"]}))])
    "v1" None (Some (mkOperatorInfo "https://foo" None))
    (Some {["foo:reader" := mkRole "Reader" "" (Some [mkRoleKind "Foo" None (Some "viewer")]) (Some [])]})
    (Some (mkRoleBindings (Some ["foo:reader"]) None None None)).

Lemma foo_schemas_ok : schemas_ok foo_data.
Proof.
  intros v k Hv Hk. apply list_elem_of_singleton in Hv as ->. apply list_elem_of_singleton in Hk as ->.
  intros sch [= <-]. split; [done|]. split.
  - split; [done | left; by eexists].
  - split; [done|]. split; [done|]. by intros [? ?].
Qed.

Lemma foo_routes_ok : routes_ok foo_data.
Proof.
  intros v Hv. apply list_elem_of_singleton in Hv as ->. split_and!.
  - intros k p Hk. simpl in Hk. apply lookup_singleton_Some in Hk as [_ <-]. by eexists.
  - by intros k p.
  - intros k p Hk. simpl in Hk. apply lookup_singleton_Some in Hk as [_ <-]. by eexists.
  - intros k Hk. apply list_elem_of_singleton in Hk as ->. intros k' p Hk. simpl in Hk.
    apply lookup_singleton_Some in Hk as [_ <-]. by eexists.
Qed.

Lemma SpecFromManifestData_round_trip_witness :
  ToManifestData (SpecFromManifestData foo_data) = (normal foo_data, Validate (normal foo_data)) ∧
  canonical (normal foo_data) ∧ (canonical foo_data → routes_exact foo_data → normal foo_data = foo_data).
Proof. apply (SpecFromManifestData_round_trip foo_data); [apply foo_schemas_ok | apply foo_routes_ok]. Defined.

(** A schema that was read from the form of a CRD, as [UnmarshalJSON] does, has its only entry
    under the placeholder for the kind's name; the spec that is made of it cannot be read. *)
Definition crd_form : gmap string (any (string + string)) :=
  {["spec" := AMap {["type" := AString "object"]}]}.

Definition with_schema (sch : VersionSchema (string + string)) : ManifestData string string (string + string) :=
  mkManifestData "foo" "Foo" "foo.example"
    (Some [mkManifestVersion "v1" true
      (Some [mkManifestVersionKind "Foo" "foos" "Namespaced" None (Some sch) None None false None])
      (mkManifestVersionRoutes None None None)]) "v1" None None None None.

Theorem crd_schema_not_read_back :
  let sch := mkVersionSchema (fixRaw (Some crd_form)).1 in
  (fixRaw (Some crd_form)).2 = None ∧
  ToManifestData (SpecFromManifestData (with_schema sch)) =
    (ManifestData_zero, [errorf ["schemas for "; "Foo"; " must contain an entry named '"; "Foo"; "'"]]).
Proof. by vm_compute. Qed.

Lemma foo_read : ToManifestData (SpecFromManifestData foo_data) = (foo_data, []).
Proof. by vm_compute. Qed.

Lemma ToManifestData_sound_witness :
  consistent foo_data ∧
  ∀ v k, v ∈ elems (md_Versions foo_data) → k ∈ elems (mv_Kinds v) → kind_sound k.
Proof. apply (ToManifestData_sound (SpecFromManifestData foo_data)). apply foo_read. Defined.
