(* ===== verification/GoSlice.v ===== *)
(** * Go slices over a store of arrays

    A slice is a window (offset, length, capacity) on an array of a store; two
    slices on one array alias.  [append] writes into the array when the capacity
    allows and otherwise copies to a new array, whose capacity Go leaves to the
    runtime ([grow]). *)
From S2P Require Import Prelude.

Record Slice := mkSlice { sl_arr : nat; sl_off : nat; sl_len : nat; sl_cap : nat }.

(** The capacity the runtime gives an array that must hold [needed] elements. *)
Class GrowPolicy := {
  grow : nat → nat → nat;
  grow_enough : ∀ cap needed, needed ≤ grow cap needed;
}.

Section GoSlice.
Context {V : Type} (zero : V).

Abbreviation store := (gmap nat (list V)) (only parsing).

(** The elements a slice shows. *)
Definition slice_read (h : store) (s : Slice) : list V :=
  take (sl_len s) (drop (sl_off s) (default [] (h !! sl_arr s))).

(** [s[i]] *)
Definition slice_at (h : store) (s : Slice) (i : nat) : option V :=
  if i <? sl_len s then default [] (h !! sl_arr s) !! (sl_off s + i) else None.

(** The array [a] with [xs] written from index [i]. *)
Definition overwrite (i : nat) (xs a : list V) : list V :=
  take i a ++ xs ++ drop (i + length xs) a.

(** A new array with the elements [xs] and capacity [cap]. *)
Definition slice_alloc (h : store) (xs : list V) (cap : nat) : Slice * store :=
  let id := fresh (dom h) in
  (mkSlice id 0 (length xs) (Nat.max (length xs) cap),
   <[id := xs ++ replicate (cap - length xs) zero]> h).

(** [append(s, xs...)] *)
Definition slice_append `{GrowPolicy} (h : store) (s : Slice) (xs : list V) : Slice * store :=
  let len := sl_len s + length xs in
  if len <=? sl_cap s then
    (mkSlice (sl_arr s) (sl_off s) len (sl_cap s),
     alter (overwrite (sl_off s + sl_len s) xs) (sl_arr s) h)
  else slice_alloc h (slice_read h s ++ xs) (grow (sl_cap s) len).

(** [s[:j]] and [s[i:]], for indices within the length. *)
Definition slice_to (s : Slice) (j : nat) : Slice :=
  mkSlice (sl_arr s) (sl_off s) j (sl_cap s).

Definition slice_from (s : Slice) (i : nat) : Slice :=
  mkSlice (sl_arr s) (sl_off s + i) (sl_len s - i) (sl_cap s - i).

(** A slice lies within its array. *)
Definition slice_ok (h : store) (s : Slice) : Prop :=
  ∃ a, h !! sl_arr s = Some a ∧ sl_off s + sl_cap s ≤ length a ∧ sl_len s ≤ sl_cap s.

(** ** Lemmas *)
Lemma length_overwrite i xs a : i + length xs ≤ length a → length (overwrite i xs a) = length a.
Proof. intros Hi. unfold overwrite. rewrite !length_app, length_take, length_drop. lia. Qed.

Lemma length_slice_read h s : slice_ok h s → length (slice_read h s) = sl_len s.
Proof.
  intros (a & Ha & Hoff & Hlen). unfold slice_read. rewrite Ha. simpl.
  rewrite length_take, length_drop. lia.
Qed.

Lemma slice_at_read h s i : slice_ok h s → slice_at h s i = slice_read h s !! i.
Proof.
  intros Hok. pose proof (length_slice_read h s Hok) as Hlen.
  unfold slice_at. destruct (Nat.ltb_spec i (sl_len s)).
  - unfold slice_read. by rewrite lookup_take_lt, lookup_drop.
  - symmetry. apply lookup_ge_None. lia.
Qed.

Lemma slice_alloc_spec h xs cap :
  let '(s', h') := slice_alloc h xs cap in
  slice_ok h' s' ∧ slice_read h' s' = xs ∧ sl_arr s' ∉ dom h ∧
  (∀ b, b ≠ sl_arr s' → h' !! b = h !! b).
Proof.
  unfold slice_alloc. simpl. pose proof (is_fresh (dom h)) as Hf.
  split; [|split; [|split]].
  - eexists. simpl. rewrite lookup_insert_eq. split; [done|].
    rewrite length_app, length_replicate. lia.
  - unfold slice_read. simpl. rewrite lookup_insert_eq. simpl. by rewrite drop_0, take_app_length.
  - done.
  - intros b Hb. by rewrite lookup_insert_ne.
Qed.

(** [append] appends, and touches no array but the slice's own. *)
Lemma slice_append_spec `{GrowPolicy} h s xs :
  slice_ok h s →
  let '(s', h') := slice_append h s xs in
  slice_ok h' s' ∧ slice_read h' s' = slice_read h s ++ xs ∧
  (sl_arr s' = sl_arr s ∨ sl_arr s' ∉ dom h) ∧
  (∀ b, b ≠ sl_arr s → b ∈ dom h → h' !! b = h !! b).
Proof.
  intros Hok. pose proof Hok as (a & Ha & Hoff & Hlen). unfold slice_append.
  destruct (Nat.leb_spec (sl_len s + length xs) (sl_cap s)).
  - split; [|split; [|split]].
    + eexists. simpl. rewrite lookup_alter_eq, Ha. split; [done|].
      rewrite length_overwrite; lia.
    + unfold slice_read. simpl. rewrite lookup_alter_eq, Ha. simpl. unfold overwrite.
      rewrite drop_app_le by (rewrite length_take; lia).
      rewrite app_assoc, take_app_le, take_ge.
      * f_equal. rewrite skipn_firstn_comm. f_equal. lia.
      * rewrite length_app, length_drop, length_take. lia.
      * rewrite length_app, length_drop, length_take. lia.
    + by left.
    + intros b Hb _. by rewrite lookup_alter_ne.
  - pose proof (slice_alloc_spec h (slice_read h s ++ xs)
      (grow (sl_cap s) (sl_len s + length xs))) as Hs.
    destruct (slice_alloc h _ _) as [s' h']. destruct Hs as (? & ? & Hd & Hother).
    split; [done|]. split; [done|]. split; [by right|].
    intros b Hb Hin. apply Hother. intros ->. done.
Qed.

Lemma slice_to_spec h s j :
  slice_ok h s → j ≤ sl_len s →
  slice_ok h (slice_to s j) ∧ slice_read h (slice_to s j) = take j (slice_read h s).
Proof.
  intros (a & Ha & Hoff & Hlen) Hj. split.
  - exists a. simpl. repeat split; [done|lia..].
  - unfold slice_read. simpl. rewrite take_take. f_equal. lia.
Qed.

Lemma slice_from_spec h s i :
  slice_ok h s → i ≤ sl_len s →
  slice_ok h (slice_from s i) ∧ slice_read h (slice_from s i) = drop i (slice_read h s).
Proof.
  intros (a & Ha & Hoff & Hlen) Hi. split.
  - exists a. simpl. repeat split; [done|lia..].
  - unfold slice_read. simpl. rewrite <- drop_drop, skipn_firstn_comm. done.
Qed.
End GoSlice.
