(* ===== verification/Concrete.v ===== *)
(** * Concrete instances

    Small instances of what the development is generic in, on which the witnesses
    evaluate: a world with a clock, objects and a log, the status test of an API
    error, a hash and a slice growth. *)
From S2P Require Import Prelude GoSlice Resource.

(** A clock that ticks at every reading, the objects, a log. *)
Record TestWorld := mkTestWorld {
  tw_now : Z;
  tw_objects : gmap nat Object;
  tw_log : list string;
}.

Definition zeroObject : Object :=
  mkObject (mkStaticMetadata "" "" "" "" "")
    (mkCommonMetadata "" "" 0 ∅ 0 None [] 0 "" "" ∅) "".

(** Decoding into an object overwrites the elements of its slices, from the first on. *)
Definition overlay (new old : list string) : list string :=
  take (length old) (new ++ drop (length new) old).

Lemma overlay_same l : overlay l l = l.
Proof. unfold overlay. by rewrite drop_all, app_nil_r, take_ge. Qed.

#[export] Instance TestWorld_World : World TestWorld := {
  deref r σ := default zeroObject (tw_objects σ !! r);
  kept_finalizers r σ σ' := overlay (GetFinalizers (default zeroObject (tw_objects σ' !! r)))
                                    (GetFinalizers (default zeroObject (tw_objects σ !! r)));
  kept_finalizers_now r σ := overlay_same _;
  Now σ := (tw_now σ, mkTestWorld (tw_now σ + 1) (tw_objects σ) (tw_log σ));
  Sleep d σ := (tt, mkTestWorld (tw_now σ + d) (tw_objects σ) (tw_log σ));
  RandIntn _ σ := (0%Z, σ);
}.

Definition test_world : TestWorld := mkTestWorld 100 ∅ [].

(** Note a line in the log. *)
Definition note (s : string) (σ : TestWorld) : TestWorld :=
  mkTestWorld (tw_now σ) (tw_objects σ) (tw_log σ ++ [s]).

Definition status_conflict (o : option Status) : bool :=
  match o with Some st => bool_decide (st_Reason st = "Conflict"%string) | None => false end.

#[export] Instance TestApiErrors : ApiErrors.
Proof.
  refine {| IsConflict := λ e, status_conflict (AsAPIStatus e) |}.
  - intros e1 e2 Heq. by rewrite Heq.
  - intros e He. by rewrite He.
Defined.

#[export] Instance TestXxhash : Xxhash.
Proof.
  refine {| Sum64 := λ s, (Z.of_nat (String.length s) mod 2 ^ 64)%Z |}.
  intros s. apply Z.mod_pos_bound. lia.
Defined.

#[export] Instance TestGrow : GrowPolicy.
Proof. refine {| grow := λ _ needed, needed |}. done. Defined.
