(* ===== verification/KubeErrors.v ===== *)
(** * Errors of the Kubernetes API ([k8s/errors.go])

    The parsing of the API server's responses into errors.  The JSON of a response body is
    decoded by [parse]: the API version, the kind and the status it holds. *)
From S2P Require Import Prelude GoValues Resource Concrete.

#[local] Open Scope string_scope.

Definition StatusAPIVersion : string := "v1".
Definition StatusKind : string := "Status".

(** [errors.As(err, &statusErr)] for [statusErr] of type [*apierrors.StatusError]. *)
Fixpoint AsStatusError (e : GoError) : option Status :=
  match e with
  | StatusError st => Some st
  | WrapError _ e | FinalizerOperationError e _ | ServerResponseError e _
  | StreamConnectionError e | PluginError _ e => AsStatusError e
  | JoinError e1 e2 | WrapBoth e1 _ e2 =>
      match AsStatusError e1 with Some st => Some st | None => AsStatusError e2 end
  | ErrorString _ | CannotCastError _ | SimpleAdmissionError _ _ _ => None
  end.

(** [NewServerResponseError], which panics on a nil error, and its methods. *)
Definition NewServerResponseError (err : option GoError) (statusCode : Z) : called GoError :=
  match err with
  | None => Panics
  | Some e => Returned (ServerResponseError e statusCode)
  end.

Definition ServerResponseError_Status (e : GoError) (statusCode : Z) : Status :=
  mkStatus statusCode "" (Error e).

Section Parse.
Context (parse : string → option (string * string * Status)).

(** The status in the body of a response, if it is a Kubernetes status object. *)
Definition body_status (responseBytes : string) : option Status :=
  if String.eqb responseBytes "" then None
  else
    match parse responseBytes with
    | Some (apiVersion, kind, st) =>
        if String.eqb apiVersion StatusAPIVersion && String.eqb kind StatusKind then Some st else None
    | None => None
    end.

(** [ParseKubernetesError]; the error it returns may be nil. *)
Definition ParseKubernetesError (responseBytes : string) (statusCode : Z) (err : option GoError)
  : called (option GoError) :=
  let new code :=
    match NewServerResponseError err code with Returned e => Returned (Some e) | Panics => Panics end in
  match body_status responseBytes with
  | Some st => Returned (Some (StatusError st))
  | None =>
      match err with
      | Some e =>
          match AsStatusError e with
          | Some st => Returned (Some (StatusError st))
          | None =>
              if (statusCode =? 0)%Z then new 503%Z
              else if (300 <=? statusCode)%Z then new (int32 statusCode)
              else Returned (Some e)
          end
      | None =>
          if (statusCode =? 0)%Z then new 503%Z
          else if (300 <=? statusCode)%Z then new (int32 statusCode)
          else Returned None
      end
  end.
End Parse.

(** [StatusFromError]: the status of an error, and whether it is an API error. *)
Definition StatusFromError (err : option GoError) : option Status * bool :=
  match err with
  | None => (None, false)
  | Some e =>
      match AsAPIStatus e with
      | Some st => (Some st, true)
      | None => (Some (ServerResponseError_Status e 500), false)
      end
  end.

(** A status error that can be found can be found as an API status. *)
Lemma AsStatusError_AsAPIStatus e st : AsStatusError e = Some st → ∃ st', AsAPIStatus e = Some st'.
Proof.
  revert st. induction e; simpl; intros st'; try done; eauto.
  - destruct (AsStatusError e1) eqn:E1.
    + intros _. destruct (IHe1 _ eq_refl) as [? ->]. eauto.
    + intros H2. destruct (AsAPIStatus e1); eauto.
  - destruct (AsStatusError e1) eqn:E1.
    + intros _. destruct (IHe1 _ eq_refl) as [? ->]. eauto.
    + intros H2. destruct (AsAPIStatus e1); eauto.
Qed.

(** An error that comes back from [ParseKubernetesError] with a failing status code, or
    with none, always carries an API status: the one of the body, else the one in the
    error, else the status code, which is 503 when there was none. *)
Theorem ParseKubernetesError_status parse body statusCode e :
  (statusCode = 0 ∨ 300 ≤ statusCode)%Z →
  ∃ e', ParseKubernetesError parse body statusCode (Some e) = Returned (Some e') ∧
    AsAPIStatus e' = Some
      match body_status parse body with
      | Some st => st
      | None =>
          match AsStatusError e with
          | Some st => st
          | None => mkStatus (if (statusCode =? 0)%Z then 503 else int32 statusCode) "" (Error e)
          end
      end.
Proof.
  intros Hc. unfold ParseKubernetesError. destruct (body_status parse body) as [st|]; [by eexists|].
  destruct (AsStatusError e) as [st|]; [by eexists|].
  destruct (Z.eqb_spec statusCode 0); [by eexists|]. destruct (Z.leb_spec 300 statusCode); [by eexists | lia].
Qed.

Lemma ParseKubernetesError_status_witness :
  ∃ e', ParseKubernetesError (λ _, None) "oops" 0 (Some (ErrorString "timeout")) = Returned (Some e') ∧
    AsAPIStatus e' = Some (mkStatus 503 "" "timeout").
Proof. apply (ParseKubernetesError_status (λ _, None) "oops" 0). by left. Defined.
