(* ===== verification/Heap.v ===== *)
(** * container/heap over a slice ordered by an integer key

    The part of Go's standard [container/heap] that [operator/retry_processor.go]
    uses, on a slice kept as a list: [Init], [Push], [Pop] and their helpers [up]
    and [down], as index-based loops.  The interface methods of
    [retryPriorityQueue] ([Len], [Less], [Swap], [Push], [Pop]) are the ones of
    that file, generic in the element's key.  Loops take fuel: a loop started
    with the fuel its caller gives ends by its own test. *)
From S2P Require Import Prelude.

(** The parent's index in [up], [(j - 1) / 2]. *)
Definition parent (j : nat) : nat := (j - 1) / 2.

Lemma parent_spec j : 0 < j → 2 * parent j + 1 ≤ j ≤ 2 * parent j + 2.
Proof.
  intros Hj. unfold parent. pose proof (Nat.div_mod_eq (j - 1) 2).
  pose proof (Nat.mod_upper_bound (j - 1) 2). lia.
Qed.

Lemma parent_0 : parent 0 = 0.
Proof. done. Qed.

#[global] Opaque parent.

Section Heap.
Context {A : Type} (key : A → Z).

(** [Less(i, j)] of the queue, on elements. *)
Definition less (a b : A) : bool := Z.ltb (key a) (key b).

(** [pq.Less(i, j)]; the callers only pass indices in range. *)
Definition Less (l : list A) (i j : nat) : bool :=
  match l !! i, l !! j with
  | Some a, Some b => less a b
  | _, _ => false
  end.

(** [pq.Swap(i, j)] *)
Definition Swap (l : list A) (i j : nat) : list A :=
  match l !! i, l !! j with
  | Some a, Some b => <[i := b]> (<[j := a]> l)
  | _, _ => l
  end.

(** [heap.up] *)
Fixpoint up (fuel : nat) (l : list A) (j : nat) : list A :=
  match fuel with
  | O => l
  | S fuel =>
      let i := parent j in
      if bool_decide (i = j) || negb (Less l j i) then l
      else up fuel (Swap l i j) i
  end.

(** [heap.down] *)
Fixpoint down (fuel : nat) (l : list A) (i n : nat) : list A :=
  match fuel with
  | O => l
  | S fuel =>
      let j1 := 2 * i + 1 in
      if n <=? j1 then l
      else
        let j2 := j1 + 1 in
        let j := if (j2 <? n) && Less l j2 j1 then j2 else j1 in
        if negb (Less l j i) then l
        else down fuel (Swap l i j) j n
  end.

(** [heap.Push] with the queue's [Push], an [append]. *)
Definition Push (l : list A) (x : A) : list A :=
  let l' := l ++ [x] in up (S (length l)) l' (length l' - 1).

(** [heap.Pop] with the queue's [Pop], which cuts off the last element. *)
Definition Pop (l : list A) : option (A * list A) :=
  let n := length l - 1 in
  let l' := down n (Swap l 0 n) 0 n in
  match l' !! n with
  | Some x => Some (x, take n l')
  | None => None
  end.

(** The loop of [heap.Init]: [down(h, i, n)] for [i = k-1, ..., 0]. *)
Fixpoint Init_loop (k : nat) (l : list A) (n : nat) : list A :=
  match k with
  | O => l
  | S i => Init_loop i (down n l i n) n
  end.

(** [heap.Init] *)
Definition Init (l : list A) : list A := Init_loop (length l / 2) l (length l).

(** The key at an index. *)
Definition K (l : list A) (i : nat) : Z :=
  match l !! i with Some a => key a | None => 0 end.

(** Every parent's key is at most its children's: the invariant of the queue. *)
Definition heap_ok (l : list A) : Prop :=
  ∀ i, 0 < i < length l → (K l (parent i) ≤ K l i)%Z.

(** The same below index [lo] and within the first [n] elements, except below [x]. *)
Definition heap_except (lo n x : nat) (l : list A) : Prop :=
  (∀ c, 0 < c < n → lo ≤ parent c → parent c ≠ x → (K l (parent c) ≤ K l c)%Z) ∧
  (∀ c, 0 < c < n → parent c = x → 0 < x → lo ≤ parent x →
        (K l (parent x) ≤ K l c)%Z).

(** The same except above [x]. *)
Definition heap_except_up (x : nat) (l : list A) : Prop :=
  (∀ c, 0 < c < length l → c ≠ x → (K l (parent c) ≤ K l c)%Z) ∧
  (∀ c, 0 < c < length l → parent c = x → 0 < x → (K l (parent x) ≤ K l c)%Z).

(** ** Facts about [Swap] and [Less] *)
Lemma Swap_perm l i j : Swap l i j ≡ₚ l.
Proof.
  unfold Swap. destruct (l !! i) as [a|] eqn:Hi; [|done].
  destruct (l !! j) as [b|] eqn:Hj; [|done].
  destruct (decide (i = j)) as [->|Hne].
  { simplify_eq. rewrite list_insert_insert_eq. by rewrite list_insert_id. }
  by apply Permutation_insert_swap.
Qed.

Lemma Swap_length l i j : length (Swap l i j) = length l.
Proof. apply Permutation_length, Swap_perm. Qed.

Lemma Swap_lookup l i j c :
  i < length l → j < length l →
  Swap l i j !! c = if decide (c = i) then l !! j else if decide (c = j) then l !! i else l !! c.
Proof.
  intros Hi Hj. unfold Swap.
  destruct (lookup_lt_is_Some_2 l i Hi) as [a Ha], (lookup_lt_is_Some_2 l j Hj) as [b Hb].
  rewrite Ha, Hb.
  repeat case_decide; subst; rewrite ?list_lookup_insert_eq by (rewrite ?length_insert; done);
    rewrite ?list_lookup_insert_ne by done; rewrite ?list_lookup_insert_eq by done; done.
Qed.

Lemma Swap_K l i j c :
  i < length l → j < length l →
  K (Swap l i j) c = if decide (c = i) then K l j else if decide (c = j) then K l i else K l c.
Proof. intros Hi Hj. unfold K. rewrite Swap_lookup by done. by repeat case_decide. Qed.

Lemma Less_spec l i j :
  i < length l → j < length l → Less l i j = (K l i <? K l j)%Z.
Proof.
  intros Hi Hj. unfold Less, K, less.
  destruct (lookup_lt_is_Some_2 l i Hi) as [a ->], (lookup_lt_is_Some_2 l j Hj) as [b ->]. done.
Qed.

(** ** [up] *)
Lemma up_perm fuel l j : up fuel l j ≡ₚ l.
Proof.
  revert l j. induction fuel as [|fuel IH]; intros l j; simpl; [done|].
  case_match; [done|]. by rewrite IH, Swap_perm.
Qed.

(** Started with more fuel than the index, [up] restores the invariant. *)
Lemma up_heap fuel l j :
  j < fuel → j < length l → heap_except_up j l → heap_ok (up fuel l j).
Proof.
  revert l j. induction fuel as [|fuel IH]; intros l j Hf Hj [H1 H2]; [lia|].
  simpl. case_bool_decide as E; simpl.
  { intros c Hc. destruct (decide (c = j)) as [->|]; [|by apply H1]. by rewrite E. }
  assert (Hj0 : 0 < j) by (destruct j; [by rewrite parent_0 in E | lia]).
  pose proof (parent_spec j Hj0).
  rewrite Less_spec by lia. destruct (Z.ltb_spec (K l j) (K l (parent j))); simpl.
  - apply IH; [lia | rewrite Swap_length; lia |].
    set (i := parent j) in *. assert (Hij : i ≠ j) by done.
    split; rewrite Swap_length; intros c Hc; pose proof (parent_spec c).
    + intros Hne. rewrite !Swap_K by lia. rewrite (decide_False (P := c = i)) by done.
      destruct (decide (c = j)) as [->|].
      { fold i. rewrite decide_True by done. lia. }
      pose proof (H1 c Hc ltac:(done)) as Hc1.
      destruct (decide (parent c = i)) as [E'|]; [rewrite E' in Hc1; lia|].
      case_decide; [by apply H2; [| |lia] | done].
    + intros Ec ?. pose proof (parent_spec i). pose proof (H1 i).
      rewrite !Swap_K by lia. rewrite (decide_False (P := parent i = i)) by lia.
      rewrite (decide_False (P := parent i = j)), (decide_False (P := c = i)) by lia.
      pose proof (H1 c). case_decide; [lia|]. rewrite Ec in *. lia.
  - intros c Hc. destruct (decide (c = j)) as [->|]; [lia | by apply H1].
Qed.

(** ** [down] *)
Lemma down_perm fuel l i n : down fuel l i n ≡ₚ l.
Proof.
  revert l i. induction fuel as [|fuel IH]; intros l i; simpl; [done|].
  repeat case_match; try done; by rewrite IH, Swap_perm.
Qed.

(** Started with fuel for the elements below the index, [down] restores the invariant. *)
Lemma down_heap fuel l i n lo :
  n ≤ fuel + i → n ≤ length l → i < n → lo ≤ i → heap_except lo n i l →
  heap_except lo n n (down fuel l i n).
Proof.
  revert l i. induction fuel as [|fuel IH]; intros l i Hf Hn Hi Hlo [H1 H2]; [lia|].
  cbn [down].
  destruct (Nat.leb_spec n (2 * i + 1)).
  { split; intros c Hc; intros; pose proof (parent_spec c); [apply H1; lia | lia]. }
  set (j := if (_ <? n) && _ then _ else _).
  assert (Hj : (j = 2 * i + 1 ∨ j = 2 * i + 2) ∧ j < n ∧
    ∀ c, c < n → (c = 2 * i + 1 ∨ c = 2 * i + 2) → (K l j ≤ K l c)%Z).
  { subst j. destruct (Nat.ltb_spec (2 * i + 1 + 1) n); simpl.
    - rewrite Less_spec by lia.
      destruct (Z.ltb_spec (K l (2 * i + 1 + 1)) (K l (2 * i + 1)));
        (split; [lia|]; split; [lia|]); intros c ? [->| ->]; try lia;
        replace (2 * i + 2) with (2 * i + 1 + 1) by lia; lia.
    - split; [lia|]; split; [lia|]. intros c ? [->| ->]; lia. }
  clearbody j. destruct Hj as (Hj & Hjn & Hmin).
  rewrite Less_spec by lia. destruct (Z.ltb_spec (K l j) (K l i)); simpl.
  - assert (Hpj : parent j = i) by (pose proof (parent_spec j); lia).
    assert (Hij : i ≠ j) by lia.
    apply IH; try lia; [by rewrite Swap_length |].
    split; intros c Hc.
    + intros Hlo' Hne. pose proof (parent_spec c). rewrite !Swap_K by lia.
      rewrite (decide_False (P := parent c = j)) by done.
      destruct (decide (parent c = i)) as [E|E].
      * rewrite (decide_False (P := c = i)) by lia.
        case_decide; subst; [lia | apply Hmin; lia].
      * destruct (decide (c = i)) as [->|]; [apply H2; lia|].
        rewrite decide_False by congruence. apply H1; lia.
    + intros E _ _. pose proof (parent_spec c). rewrite Hpj, !Swap_K by lia.
      rewrite decide_True, !decide_False by lia. rewrite <- E. apply H1; lia.
  - split; intros c Hc; intros; pose proof (parent_spec c); [|lia].
    specialize (H1 c); specialize (Hmin c).
    destruct (decide (parent c = i)) as [E|]; [rewrite E |]; lia.
Qed.

(** [down] does not touch the elements from index [n] on. *)
Lemma down_lookup_ge fuel l i n c :
  n ≤ length l → i < n → n ≤ c → down fuel l i n !! c = l !! c.
Proof.
  revert l i. induction fuel as [|fuel IH]; intros l i Hn Hi Hc; [done|]. cbn [down].
  destruct (Nat.leb_spec n (2 * i + 1)); [done|].
  set (j := if (_ <? n) && _ then _ else _).
  assert (j < n).
  { subst j. destruct (Nat.ltb_spec (2 * i + 1 + 1) n); simpl; [case_match; lia | lia]. }
  clearbody j. case_match; [done|]. rewrite IH by (rewrite ?Swap_length; lia).
  rewrite Swap_lookup by lia. by rewrite !decide_False by lia.
Qed.

(** ** The invariant and the operations *)
Lemma heap_ok_except l : heap_ok l ↔ heap_except 0 (length l) (length l) l.
Proof.
  split.
  - intros H; split; intros c Hc; intros; [by apply H | pose proof (parent_spec c); lia].
  - intros [H _] c Hc. pose proof (parent_spec c). apply H; lia.
Qed.

(** The root of a heap is a least element. *)
Lemma heap_root_min l i : heap_ok l → i < length l → (K l 0 ≤ K l i)%Z.
Proof.
  intros Hok. induction (lt_wf i) as [i _ IH]; intros Hi.
  destruct (decide (i = 0)) as [->|]; [done|].
  pose proof (parent_spec i); pose proof (Hok i); pose proof (IH (parent i)). lia.
Qed.

Lemma heap_root_le l x y : heap_ok l → l !! 0 = Some x → y ∈ l → (key x ≤ key y)%Z.
Proof.
  intros Hok Hx [i Hi]%list_elem_of_lookup.
  pose proof (heap_root_min l i Hok (lookup_lt_Some _ _ _ Hi)) as H.
  unfold K in H. by rewrite Hx, Hi in H.
Qed.

Lemma heap_ok_nil : heap_ok [].
Proof. intros i; simpl; lia. Qed.

Lemma Push_perm l x : Push l x ≡ₚ x :: l.
Proof.
  unfold Push. rewrite up_perm. symmetry. apply Permutation_cons_append.
Qed.

Lemma Push_heap l x : heap_ok l → heap_ok (Push l x).
Proof.
  intros Hok. unfold Push. rewrite length_app. cbn [length].
  replace (length l + 1 - 1) with (length l) by lia.
  assert (HK : ∀ c, c < length l → K (l ++ [x]) c = K l c).
  { intros c Hc. unfold K. by rewrite lookup_app_l. }
  refine (up_heap _ _ _ _ _ _); [lia | rewrite length_app; simpl; lia |].
  split; rewrite length_app; simpl; intros c Hc; intros.
  - pose proof (parent_spec c). rewrite !HK by lia. apply Hok. lia.
  - pose proof (parent_spec c). lia.
Qed.

Lemma Init_loop_perm k l n : Init_loop k l n ≡ₚ l.
Proof.
  revert l. induction k as [|k IH]; intros l; simpl; [done|]. by rewrite IH, down_perm.
Qed.

Lemma Init_perm l : Init l ≡ₚ l.
Proof. apply Init_loop_perm. Qed.

Lemma Init_loop_heap k l n :
  n = length l → k < n ∨ k = 0 → heap_except k n n l → heap_except 0 n n (Init_loop k l n).
Proof.
  revert l. induction k as [|k IH]; intros l Hn Hk Hl; simpl; [done|].
  apply IH; [by rewrite (Permutation_length (down_perm n l k n)) | lia |].
  apply down_heap; try lia. destruct Hl as [H1 H2].
  split; intros c Hc; intros; pose proof (parent_spec c); [apply H1; lia |].
  pose proof (parent_spec k). lia.
Qed.

Lemma Init_heap l : heap_ok (Init l).
Proof.
  apply heap_ok_except. rewrite (Permutation_length (Init_perm l)).
  pose proof (Nat.div_mod_eq (length l) 2). pose proof (Nat.mod_upper_bound (length l) 2).
  apply Init_loop_heap; [done | lia |].
  split; intros c Hc; intros; pose proof (parent_spec c); lia.
Qed.

(** [Pop] returns the root, and the rest is a heap of the other elements. *)
Lemma Pop_spec l x l' :
  heap_ok l → l = x :: l' → ∃ l'', Pop l = Some (x, l'') ∧ l'' ≡ₚ l' ∧ heap_ok l''.
Proof.
  intros Hok ->. unfold Pop. set (n := length (x :: l') - 1).
  set (s := Swap (x :: l') 0 n). set (d := down n s 0 n).
  assert (Hn : n < length (x :: l')) by (subst n; simpl; lia).
  assert (Hs : length s = S n) by (unfold s; rewrite Swap_length; subst n; simpl; lia).
  assert (Hsn : s !! n = Some x).
  { unfold s. rewrite Swap_lookup by (simpl in *; lia).
    destruct (decide (n = 0)) as [->|]; [done|]. by rewrite decide_True. }
  assert (Hd : d ≡ₚ x :: l') by (unfold d, s; by rewrite down_perm, Swap_perm).
  assert (Hdl : length d = S n) by (rewrite Hd; subst n; simpl; lia).
  assert (Hdn : d !! n = Some x).
  { unfold d. destruct (decide (n = 0)) as [E|].
    - by rewrite E in Hsn |- *.
    - by rewrite down_lookup_ge by lia. }
  rewrite Hdn. exists (take n d). split; [done|].
  assert (Hsplit : d = take n d ++ [x]).
  { rewrite <- (take_drop n d) at 1. f_equal.
    rewrite (drop_S d x n) by done. by rewrite drop_ge by lia. }
  split.
  - apply (Permutation_app_inv_r [x]). rewrite <- Hsplit, Hd.
    by rewrite <- Permutation_cons_append.
  - destruct (decide (n = 0)) as [E|]; [rewrite E, take_0; apply heap_ok_nil|].
    assert (HK : heap_except 0 n n d).
    { apply down_heap; try lia. split; intros c Hc; intros; [|lia].
      pose proof (parent_spec c). unfold s. rewrite !Swap_K by lia.
      rewrite !decide_False by lia. apply Hok. lia. }
    intros c. rewrite length_take. intros Hc. unfold K.
    pose proof (parent_spec c). rewrite !lookup_take_lt by lia. destruct HK as [HK _]. apply HK; lia.
Qed.
End Heap.
