(* ===== verification/ListMap.v ===== *)
(** * The list map of [operator/util.go]

    [ListMap] is a map from keys to Go slices.  The model keeps the slices and the
    arrays behind them, because [remove] shifts elements in place and [Range] reads
    the array while its callback runs.  The abstract contents of a list map are a
    finite map of lists; the refinement theorems state every operation on them.
    Each method holds the key's lock, so a method is one atomic step; the
    [muxes] map has no other effect.  An index is an [int]: a negative one panics. *)
From S2P Require Import Prelude Resource GoSlice Concrete.

Section ListMap.
Context {V : Type} (zero : V) `{GP : GrowPolicy}.

(** [ListMap[string, V]]: the slices by key, and the arrays they point to. *)
Record ListMap := mkListMap {
  internal : gmap string Slice;
  arrays : gmap nat (list V);
}.

(** [NewListMap] *)
Definition NewListMap : ListMap := mkListMap ∅ ∅.

(** [l.internal.Store(key, s)] *)
Definition store_key (key : string) (sh : Slice * gmap nat (list V)) (l : ListMap) : ListMap :=
  mkListMap (<[key := sh.1]> (internal l)) sh.2.

(** The current elements of a key's list, [nil] when the key is absent. *)
Definition list_of (l : ListMap) (key : string) : list V :=
  match internal l !! key with
  | Some s => slice_read (arrays l) s
  | None => []
  end.

(** [ItemAt]: a negative index of a key's list panics, at [list[index]]. *)
Definition ItemAt (l : ListMap) (key : string) (index : Z) : called (V * bool) :=
  match internal l !! key with
  | Some s =>
      if (index <? Z.of_nat (sl_len s))%Z then
        if (index <? 0)%Z then Panics
        else Returned (default zero (slice_at (arrays l) s (Z.to_nat index)), true)
      else Returned (zero, false)
  | None => Returned (zero, false)
  end.

(** [Keys] *)
Definition Keys (l : ListMap) : list string := (map_to_list (internal l)).*1.

(** [Size] *)
Definition Size (l : ListMap) : nat := size (internal l).

(** [KeySize] *)
Definition KeySize (l : ListMap) (key : string) : nat :=
  match internal l !! key with Some s => sl_len s | None => 0 end.

(** The loop of [Range]: the slice header is the one loaded at the start, the
    elements are read when their turn comes.  [W] is the state of the callback, in
    which the list map is found through [lm]. *)
Fixpoint range_from {W : Type} (lm : W → ListMap) (n : nat) (s : Slice) (i : nat)
    (rangeFunc : nat → V → M W unit) : M W unit :=
  match n with
  | O => ret tt
  | S n =>
      let* l := gets lm in
      match slice_at (arrays l) s i with
      | Some v => rangeFunc i v ;;; range_from lm n s (S i) rangeFunc
      | None => ret tt
      end
  end.

(** [Range] *)
Definition Range {W : Type} (lm : W → ListMap) (key : string)
    (rangeFunc : nat → V → M W unit) : M W unit :=
  let* l := gets lm in
  match internal l !! key with
  | None => ret tt
  | Some s => range_from lm (sl_len s) s 0 rangeFunc
  end.

(** [RangeAll] *)
Definition RangeAll {W : Type} (lm : W → ListMap)
    (rangeFunc : string → nat → V → M W unit) : M W unit :=
  let* l := gets lm in
  for_each (Keys l) (λ key, Range lm key (rangeFunc key)).

(** [AddItem] *)
Definition AddItem (key : string) (items : list V) (l : ListMap) : ListMap :=
  let '(s, h) := match internal l !! key with
                 | Some s => (s, arrays l)
                 | None => slice_alloc zero (arrays l) [] 0
                 end in
  store_key key (slice_append zero h s items) l.

(** [RemoveKey] *)
Definition RemoveKey (key : string) (l : ListMap) : ListMap :=
  mkListMap (delete key (internal l)) (arrays l).

(** [remove] at an index that is not negative. *)
Definition remove_at (h : gmap nat (list V)) (lst : Slice) (i : nat)
  : Slice * gmap nat (list V) :=
  if sl_len lst <=? i then (lst, h)
  else if i =? 0 then
    if 1 <? sl_len lst then (slice_from lst 1, h) else slice_alloc zero h [] 0
  else if i =? sl_len lst - 1 then (slice_to lst i, h)
  else slice_append zero h (slice_to lst i) (slice_read h (slice_from lst (i + 1))).

(** [remove]: [list[:i]], which every negative [i] comes to, panics. *)
Definition remove (h : gmap nat (list V)) (lst : Slice) (i : Z)
  : called (Slice * gmap nat (list V)) :=
  if (i <? 0)%Z then Panics else Returned (remove_at h lst (Z.to_nat i)).

(** [RemoveItemAt]: after a panic in [remove] the map is as it was, and the deferred
    [Unlock] has run. *)
Definition RemoveItemAt (key : string) (index : Z) : MP ListMap unit := λ l,
  match internal l !! key with
  | None => (Returned tt, l)
  | Some s =>
      match remove (arrays l) s index with
      | Returned sh => (Returned tt, store_key key sh l)
      | Panics => (Panics, l)
      end
  end.

(** The loop of [RemoveItem]. *)
Fixpoint remove_item_loop (n : nat) (key : string) (s : Slice) (i : nat) (match_ : V → bool)
    (l : ListMap) : bool * ListMap :=
  match n with
  | O => (false, l)
  | S n =>
      match slice_at (arrays l) s i with
      | None => (false, l)
      | Some v =>
          if match_ v then (true, store_key key (remove_at (arrays l) s i) l)
          else remove_item_loop n key s (S i) match_ l
      end
  end.

(** [RemoveItem] *)
Definition RemoveItem (key : string) (match_ : V → bool) (l : ListMap) : bool * ListMap :=
  match internal l !! key with
  | None => (false, l)
  | Some s => remove_item_loop (sl_len s) key s 0 match_ l
  end.

(** The first loop of [RemoveItems]: the indices to remove.  [match_] runs user code
    on the state [W]. *)
Fixpoint to_remove {W : Type} (lst : list V) (i : nat) (found : nat) (limit : Z)
    (match_ : V → M W bool) : M W (list nat) :=
  match lst with
  | [] => ret []
  | v :: lst =>
      let* b := match_ v in
      if (b : bool) then
        if (0 <? limit)%Z && (limit <=? Z.of_nat (S found))%Z then ret [i]
        else let* rest := to_remove lst (S i) (S found) limit match_ in ret (i :: rest)
      else to_remove lst (S i) found limit match_
  end.

(** The second loop: remove the indices, the last first. *)
Fixpoint remove_all (h : gmap nat (list V)) (s : Slice) (toRemove : list nat)
  : Slice * gmap nat (list V) :=
  match toRemove with
  | [] => (s, h)
  | i :: toRemove =>
      let '(s, h) := remove_all h s toRemove in remove_at h s i
  end.

(** [RemoveItems] *)
Definition RemoveItems {W : Type} (key : string) (match_ : V → M W bool) (limit : Z)
    (l : ListMap) : M W (nat * ListMap) :=
  match internal l !! key with
  | None => ret (0, l)
  | Some s =>
      let* toRemove := to_remove (slice_read (arrays l) s) 0 0 limit match_ in
      ret (length toRemove, store_key key (remove_all (arrays l) s toRemove) l)
  end.

(** ** The abstract list map *)

(** The contents of a list map. *)
Definition contents (l : ListMap) : gmap string (list V) :=
  slice_read (arrays l) <$> internal l.

(** Every slice lies in its array, and no two keys share one. *)
Definition listmap_ok (l : ListMap) : Prop :=
  map_Forall (λ _ s, slice_ok (arrays l) s) (internal l) ∧
  ∀ k1 k2 s1 s2, internal l !! k1 = Some s1 → internal l !! k2 = Some s2 →
    sl_arr s1 = sl_arr s2 → k1 = k2.

(** Remove the first element that matches. *)
Fixpoint remove_first (p : V → bool) (l : list V) : list V :=
  match l with
  | [] => []
  | x :: l => if p x then l else x :: remove_first p l
  end.

(** Remove the first [limit] elements that match, all when [limit < 1]. *)
Fixpoint remove_limit (p : V → bool) (limit : Z) (l : list V) : list V :=
  match l with
  | [] => []
  | x :: l =>
      if p x then if (limit =? 1)%Z then l else remove_limit p (limit - 1) l
      else x :: remove_limit p limit l
  end.

(** The operations that change a list map, and what they do to its contents. *)
Inductive op :=
| OpAddItem (key : string) (items : list V)
| OpRemoveKey (key : string)
| OpRemoveItemAt (key : string) (index : Z)
| OpRemoveItem (key : string) (match_ : V → bool)
| OpRemoveItems (key : string) (match_ : V → bool) (limit : Z).

(** The list map after an operation; the caller recovers a panic. *)
Definition run_op (l : ListMap) (o : op) : ListMap :=
  match o with
  | OpAddItem key items => AddItem key items l
  | OpRemoveKey key => RemoveKey key l
  | OpRemoveItemAt key index => (RemoveItemAt key index l).2
  | OpRemoveItem key p => (RemoveItem key p l).2
  | OpRemoveItems key p limit => (RemoveItems key (λ v, ret (W := unit) (p v)) limit l tt).1.2
  end.

Definition spec_op (m : gmap string (list V)) (o : op) : gmap string (list V) :=
  match o with
  | OpAddItem key items => <[key := default [] (m !! key) ++ items]> m
  | OpRemoveKey key => base.delete key m
  | OpRemoveItemAt key index =>
      if (index <? 0)%Z then m else alter (base.delete (Z.to_nat index)) key m
  | OpRemoveItem key p => alter (remove_first p) key m
  | OpRemoveItems key p limit => alter (remove_limit p (Z.max limit 0)) key m
  end.

(** ** Lemmas *)

(** What an operation on one key's list must do to the slices. *)
Lemma store_key_spec key s h l :
  listmap_ok l → slice_ok h s →
  (∀ k s0, internal l !! k = Some s0 → k ≠ key →
     h !! sl_arr s0 = arrays l !! sl_arr s0 ∧ sl_arr s0 ≠ sl_arr s) →
  listmap_ok (store_key key (s, h) l) ∧
  contents (store_key key (s, h) l) = <[key := slice_read h s]> (contents l).
Proof.
  intros [Hok Hinj] Hs Hother. split; [split|].
  - intros k s0. simpl. destruct (decide (k = key)) as [->|Hne].
    + rewrite lookup_insert_eq. by intros [= <-].
    + rewrite lookup_insert_ne by done. intros Hk.
      destruct (Hother k s0 Hk Hne) as [Heq _]. destruct (Hok k s0 Hk) as (a & Ha & ?).
      exists a. by rewrite Heq.
  - intros k1 k2 s1 s2. simpl.
    destruct (decide (k1 = key)) as [->|N1], (decide (k2 = key)) as [->|N2];
      rewrite ?lookup_insert_eq, ?lookup_insert_ne by done; try done.
    + intros [= <-] H2 E. by destruct (Hother k2 s2 H2 N2).
    + intros H1 [= <-] E. by destruct (Hother k1 s1 H1 N1).
    + by apply Hinj.
  - unfold contents. simpl. apply map_eq. intros k. rewrite lookup_fmap.
    destruct (decide (k = key)) as [->|Hne].
    + by rewrite !lookup_insert_eq.
    + rewrite !lookup_insert_ne, lookup_fmap by done.
      destruct (internal l !! k) as [s0|] eqn:Hk; [|done]. simpl.
      destruct (Hother k s0 Hk Hne) as [Heq _]. unfold slice_read. by rewrite Heq.
Qed.

Lemma other_arr_dom l k s : listmap_ok l → internal l !! k = Some s → sl_arr s ∈ dom (arrays l).
Proof.
  intros [Hok _] Hk. destruct (Hok k s Hk) as (a & Ha & _). by apply elem_of_dom_2 in Ha.
Qed.

(** [remove_at] deletes the element at an index, and touches only the slice's array. *)
Lemma remove_at_spec h s i :
  slice_ok h s →
  let '(s', h') := remove_at h s i in
  slice_ok h' s' ∧ slice_read h' s' = base.delete i (slice_read h s) ∧
  (sl_arr s' = sl_arr s ∨ sl_arr s' ∉ dom h) ∧
  (∀ b, b ≠ sl_arr s → b ∈ dom h → h' !! b = h !! b).
Proof.
  intros Hok. pose proof (length_slice_read h s Hok) as Hlen. unfold remove_at.
  destruct (Nat.leb_spec (sl_len s) i).
  { split; [done|]. split; [|by auto]. rewrite delete_take_drop, take_ge, drop_ge by lia.
    by rewrite app_nil_r. }
  destruct (Nat.eqb_spec i 0) as [->|].
  { destruct (slice_read h s) as [|x xs] eqn:E; [simpl in Hlen; lia|].
    destruct (Nat.ltb_spec 1 (sl_len s)).
    - destruct (slice_from_spec h s 1 Hok ltac:(lia)) as [H1 H2].
      split; [done|]. split; [by rewrite H2, E|]. by auto.
    - pose proof (slice_alloc_spec zero h [] 0) as Ha.
      destruct (slice_alloc zero h [] 0) as [s' h']. destruct Ha as (? & Hr & Hd & Hother).
      split; [done|]. split; [rewrite Hr; destruct xs; [done | simpl in Hlen; lia]|].
      split; [by right|]. intros b Hb Hin. apply Hother. intros ->. done. }
  destruct (Nat.eqb_spec i (sl_len s - 1)) as [Hi|].
  { destruct (slice_to_spec h s i Hok ltac:(lia)) as [H1 H2].
    split; [done|]. split; [|by auto]. rewrite H2, delete_take_drop.
    rewrite (drop_ge _ (S i)) by lia. by rewrite app_nil_r. }
  destruct (slice_to_spec h s i Hok ltac:(lia)) as [H1 H2].
  destruct (slice_from_spec h s (i + 1) Hok ltac:(lia)) as [_ H3].
  pose proof (slice_append_spec zero h (slice_to s i) (slice_read h (slice_from s (i + 1))) H1) as Ha.
  destruct (slice_append zero h _ _) as [s' h']. destruct Ha as (? & Hr & Harr & Hother).
  split; [done|]. split; [|by auto].
  by rewrite Hr, H2, H3, delete_take_drop, Nat.add_1_r.
Qed.

(** Removing one element of a key's list, on the whole map. *)
Lemma store_remove_spec key s i l :
  listmap_ok l → internal l !! key = Some s →
  let l' := store_key key (remove_at (arrays l) s i) l in
  listmap_ok l' ∧ contents l' = <[key := base.delete i (slice_read (arrays l) s)]> (contents l).
Proof.
  intros Hl Hk. pose proof (other_arr_dom l key s Hl Hk) as Hdom.
  pose proof (remove_at_spec (arrays l) s i ltac:(by apply Hl in Hk)) as Hr.
  destruct (remove_at (arrays l) s i) as [s' h']. destruct Hr as (Hs & <- & Harr & Hother).
  apply store_key_spec; [done..|]. intros k s0 Hk0 Hne.
  assert (Hd0 : sl_arr s0 ∈ dom (arrays l)) by by eapply other_arr_dom.
  assert (sl_arr s0 ≠ sl_arr s).
  { intros E. by destruct Hl as [_ Hinj]; eapply Hne, Hinj. }
  split; [by apply Hother|]. intros E. destruct Harr as [Ha|Ha]; [congruence|].
  apply Ha. by rewrite <- E.
Qed.

Lemma delete_first (p : V → bool) pre (x : V) post :
  Forall (λ v, p v = false) pre → p x = true →
  remove_first p (pre ++ x :: post) = base.delete (length pre) (pre ++ x :: post).
Proof.
  intros Hpre Hx. rewrite delete_middle.
  induction Hpre as [|y pre Hy Hpre IH]; simpl; [by rewrite Hx|]. by rewrite Hy, IH.
Qed.

Lemma remove_first_none (p : V → bool) (l : list V) :
  Forall (λ v, p v = false) l → remove_first p l = l.
Proof. induction 1 as [|x l Hx Hl IH]; simpl; [done|]. by rewrite Hx, IH. Qed.

Lemma existsb_none (p : V → bool) (l : list V) :
  Forall (λ v, p v = false) l → existsb p l = false.
Proof. induction 1 as [|x l Hx Hl IH]; simpl; [done|]. by rewrite Hx, IH. Qed.

Lemma remove_item_loop_spec n key s i p l :
  listmap_ok l → internal l !! key = Some s → n + i = sl_len s →
  Forall (λ v, p v = false) (take i (slice_read (arrays l) s)) →
  let '(found, l') := remove_item_loop n key s i p l in
  found = existsb p (slice_read (arrays l) s) ∧ listmap_ok l' ∧
  contents l' = <[key := remove_first p (slice_read (arrays l) s)]> (contents l).
Proof.
  intros Hl Hk. pose proof (proj1 Hl _ _ Hk) as Hs.
  pose proof (length_slice_read _ _ Hs) as Hlen.
  revert i. induction n as [|n IH]; intros i Hi Hpre; simpl.
  - rewrite take_ge in Hpre by lia. split; [|split; [done|]].
    + symmetry. by apply existsb_none.
    + rewrite remove_first_none by done. symmetry. apply insert_id.
      unfold contents. by rewrite lookup_fmap, Hk.
  - rewrite slice_at_read by done.
    destruct (slice_read (arrays l) s !! i) as [v|] eqn:Hv; cycle 1.
    { apply lookup_ge_None in Hv. lia. }
    destruct (p v) eqn:Hp.
    + pose proof (store_remove_spec key s i l Hl Hk) as [H1 H2].
      rewrite <- (take_drop_middle _ _ _ Hv) at 2.
      split; [|split; [done|]].
      * rewrite <- (take_drop_middle _ _ _ Hv), existsb_app. simpl. rewrite Hp.
        by rewrite orb_true_r.
      * rewrite H2, delete_first by done. rewrite length_take_le by lia.
        by rewrite (take_drop_middle _ _ _ Hv).
    + apply IH; [lia|]. rewrite (take_S_r _ _ _ Hv). apply Forall_app. by repeat constructor.
Qed.

(** Deleting the found indices, the last first, removes what matches. *)
Lemma to_remove_spec {W : Type} (p : V → bool) (m : V → M W bool) limit lst pre found r w :
  (∀ v w, (m v w).1 = p v) →
  (0 < limit ∧ r = limit - Z.of_nat found ∧ 0 < r)%Z ∨ (limit ≤ 0 ∧ r ≤ 0)%Z →
  let idx := (to_remove lst (length pre) found limit m w).1 in
  foldr base.delete (pre ++ lst) idx = pre ++ remove_limit p r lst ∧
  length idx + length (remove_limit p r lst) = length lst.
Proof.
  intros Hm. revert pre found r w. induction lst as [|v lst IH]; intros pre found r w Hr; [done|].
  assert (IH' : ∀ found' r' w',
    (0 < limit ∧ r' = limit - Z.of_nat found' ∧ 0 < r')%Z ∨ (limit ≤ 0 ∧ r' ≤ 0)%Z →
    let idx := (to_remove lst (S (length pre)) found' limit m w').1 in
    foldr base.delete (pre ++ v :: lst) idx = pre ++ v :: remove_limit p r' lst ∧
    length idx + length (remove_limit p r' lst) = length lst).
  { intros found' r' w' Hr'. specialize (IH (pre ++ [v]) found' r' w' Hr').
    by rewrite length_app, Nat.add_1_r, <- !app_assoc in IH. }
  cbn [to_remove remove_limit]. unfold bind. specialize (Hm v w).
  destruct (m v w) as [b w1]. simpl in Hm. subst b. destruct (p v).
  - destruct ((0 <? limit)%Z && (limit <=? Z.of_nat (S found))%Z) eqn:E.
    + apply andb_prop in E as [E1%Z.ltb_lt E2%Z.leb_le]. assert (r = 1%Z) as -> by lia. unfold ret.
      cbn [fst foldr length Z.eqb]. rewrite delete_middle. split; [done | simpl; lia].
    + apply andb_false_iff in E. rewrite Z.ltb_ge, Z.leb_gt in E.
      destruct (Z.eqb_spec r 1) as [->|Hr1]; [lia|].
      assert (Hr' : (0 < limit ∧ r - 1 = limit - Z.of_nat (S found) ∧ 0 < r - 1)%Z ∨
        (limit ≤ 0 ∧ r - 1 ≤ 0)%Z) by lia.
      destruct (IH' (S found) (r - 1)%Z w1 Hr') as [H1 H2].
      destruct (to_remove lst (S (length pre)) (S found) limit m w1) as [rest w2].
      simpl in *. rewrite H1, delete_middle. split; [done | lia].
  - destruct (IH' found r w1 Hr) as [H1 H2]. simpl. split; [done | lia].
Qed.

Lemma remove_all_spec key s toRemove l :
  listmap_ok l → internal l !! key = Some s →
  let l' := store_key key (remove_all (arrays l) s toRemove) l in
  listmap_ok l' ∧
  contents l' = <[key := foldr base.delete (slice_read (arrays l) s) toRemove]> (contents l).
Proof.
  intros Hl Hk. induction toRemove as [|i idx IH].
  - assert (E : store_key key (s, arrays l) l = l).
    { destruct l as [int arr]. unfold store_key. simpl in *. by rewrite insert_id. }
    cbn [remove_all foldr]. rewrite E. split; [done|]. symmetry. apply insert_id.
    unfold contents. by rewrite lookup_fmap, Hk.
  - cbn [remove_all foldr]. destruct (remove_all (arrays l) s idx) as [s1 h1].
    cbn zeta in IH. set (l1 := store_key key (s1, h1) l) in *. destruct IH as [IHok IHc].
    assert (Hk1 : internal l1 !! key = Some s1) by apply lookup_insert_eq.
    destruct (store_remove_spec key s1 i l1 IHok Hk1) as [H1 H2].
    assert (E : store_key key (remove_at (arrays l1) s1 i) l1 = store_key key (remove_at h1 s1 i) l).
    { unfold store_key, l1. simpl. by rewrite insert_insert_eq. }
    rewrite E in H1, H2. split; [done|]. rewrite H2, IHc, insert_insert_eq. f_equal.
    assert (Hr : contents l1 !! key = Some (slice_read (arrays l1) s1)).
    { unfold contents. by rewrite lookup_fmap, Hk1. }
    rewrite IHc, lookup_insert_eq in Hr. by injection Hr as ->.
Qed.

(** ** Refinement: every operation on the abstract contents *)

(** Adding items appends them to the key's list, creating the key when it is
    absent, and leaves every other list alone. *)
Lemma AddItem_spec key items l :
  listmap_ok l →
  listmap_ok (AddItem key items l) ∧
  contents (AddItem key items l) =
    <[key := default [] (contents l !! key) ++ items]> (contents l).
Proof.
  intros Hl. unfold AddItem. set (loaded := match internal l !! key with
      | Some s => (s, arrays l) | None => slice_alloc zero (arrays l) [] 0 end).
  assert (Hloaded : let '(s, h) := loaded in
    slice_ok h s ∧ slice_read h s = default [] (contents l !! key) ∧
    dom (arrays l) ⊆ dom h ∧ (∀ b, b ∈ dom (arrays l) → h !! b = arrays l !! b) ∧
    (∀ k s0, internal l !! k = Some s0 → k ≠ key → sl_arr s0 ≠ sl_arr s)).
  { unfold contents, loaded. rewrite lookup_fmap.
    destruct (internal l !! key) as [s|] eqn:Hk.
    - split; [by apply Hl in Hk|]. do 3 (split; [done|]).
      intros k s0 Hk0 Hne E. by destruct Hl as [_ Hinj]; eapply Hne, Hinj.
    - pose proof (slice_alloc_spec zero (arrays l) [] 0) as Ha.
      destruct (slice_alloc zero (arrays l) [] 0) as [s h].
      destruct Ha as (Hs & Hr & Hd & Ho). split; [done|]. split; [done|].
      assert (Hsame : ∀ b, b ∈ dom (arrays l) → h !! b = arrays l !! b).
      { intros b Hb. apply Ho. intros ->. done. }
      split; [|split; [done|]].
      + intros b Hb. apply elem_of_dom. rewrite Hsame by done. by apply elem_of_dom.
      + intros k s0 Hk0 _ E. apply Hd. rewrite <- E. by eapply other_arr_dom. }
  destruct loaded as [s h].
  destruct Hloaded as (Hs & Hread & Hdom & Hsame & Harr).
  pose proof (slice_append_spec zero h s items Hs) as Happ.
  destruct (slice_append zero h s items) as [s' h'].
  destruct Happ as (Hs' & Hread' & Harr' & Hother).
  rewrite <- Hread, <- Hread'. apply store_key_spec; [done..|].
  intros k s0 Hk0 Hne. pose proof (other_arr_dom l k s0 Hl Hk0) as Hd0.
  pose proof (Harr k s0 Hk0 Hne). split.
  - rewrite Hother; auto.
  - intros E. destruct Harr' as [Ha|Ha]; [congruence|]. apply Ha. rewrite <- E. auto.
Qed.

(** Removing the first match removes that element only, keeps the order of the
    others and says whether there was one. *)
Lemma RemoveItem_spec key p l :
  listmap_ok l →
  let '(found, l') := RemoveItem key p l in
  found = existsb p (default [] (contents l !! key)) ∧ listmap_ok l' ∧
  contents l' = alter (remove_first p) key (contents l).
Proof.
  intros Hl. unfold RemoveItem. destruct (internal l !! key) as [s|] eqn:Hk.
  - assert (Hc : contents l !! key = Some (slice_read (arrays l) s)).
    { unfold contents. by rewrite lookup_fmap, Hk. }
    pose proof (remove_item_loop_spec (sl_len s) key s 0 p l Hl Hk ltac:(lia)
      ltac:(constructor)) as H.
    destruct (remove_item_loop _ key s 0 p l) as [found l']. rewrite Hc. simpl.
    destruct H as (? & ? & ->). split; [done|]. split; [done|].
    apply map_eq. intros k. rewrite lookup_alter. destruct (decide (key = k)) as [<-|].
    + by rewrite lookup_insert_eq, Hc.
    + by rewrite lookup_insert_ne.
  - assert (Hc : contents l !! key = None) by (unfold contents; by rewrite lookup_fmap, Hk).
    rewrite Hc. split; [done|]. split; [done|].
    apply map_eq. intros k. rewrite lookup_alter. by destruct (decide (key = k)) as [<-|]; rewrite ?Hc.
Qed.

(** Removing up to [limit] matches (all of them when [limit < 1]) keeps the other
    elements in order, leaves the other keys' lists alone and returns how many
    elements went, whatever else the match function does. *)
Lemma RemoveItems_spec {W : Type} key (m : V → M W bool) p limit l w :
  listmap_ok l → (∀ v w, (m v w).1 = p v) →
  let '(n, l') := (RemoveItems key m limit l w).1 in
  let old := default [] (contents l !! key) in
  listmap_ok l' ∧ contents l' = alter (remove_limit p (Z.max limit 0)) key (contents l) ∧
  n + length (remove_limit p (Z.max limit 0) old) = length old.
Proof.
  intros Hl Hm. unfold RemoveItems. destruct (internal l !! key) as [s|] eqn:Hk.
  - assert (Hc : contents l !! key = Some (slice_read (arrays l) s)).
    { unfold contents. by rewrite lookup_fmap, Hk. }
    unfold bind, ret.
    destruct (to_remove_spec p m limit (slice_read (arrays l) s) [] 0 (Z.max limit 0) w Hm
      ltac:(lia)) as [H1 H2]. cbn [length app] in H1, H2.
    destruct (to_remove (slice_read (arrays l) s) 0 0 limit m w) as [idx w'].
    cbn [fst] in *. rewrite Hc. simpl.
    destruct (remove_all_spec key s idx l Hl Hk) as [H3 H4].
    split; [done|]. split; [|done]. rewrite H4, H1.
    apply map_eq. intros k. rewrite lookup_alter. destruct (decide (key = k)) as [<-|].
    + by rewrite lookup_insert_eq, Hc.
    + by rewrite lookup_insert_ne.
  - assert (Hc : contents l !! key = None) by (unfold contents; by rewrite lookup_fmap, Hk).
    unfold ret. simpl. rewrite Hc. split; [done|]. split; [|done].
    apply map_eq. intros k. rewrite lookup_alter. by destruct (decide (key = k)) as [<-|]; rewrite ?Hc.
Qed.

Lemma alter_contents key f l s :
  internal l !! key = Some s →
  alter f key (contents l) = <[key := f (slice_read (arrays l) s)]> (contents l).
Proof.
  intros Hk. apply map_eq. intros k. rewrite lookup_alter.
  destruct (decide (key = k)) as [<-|]; [|by rewrite lookup_insert_ne].
  rewrite lookup_insert_eq. unfold contents. by rewrite lookup_fmap, Hk.
Qed.

Lemma run_op_spec o l :
  listmap_ok l → listmap_ok (run_op l o) ∧ contents (run_op l o) = spec_op (contents l) o.
Proof.
  intros Hl. destruct o as [key items|key|key index|key p|key p limit]; simpl.
  - by apply AddItem_spec.
  - split; [split|].
    + intros k s. simpl. rewrite lookup_delete_Some. intros [_ Hk]. by apply (proj1 Hl k).
    + intros k1 k2 s1 s2. simpl. rewrite !lookup_delete_Some.
      intros [_ H1] [_ H2]. by apply (proj2 Hl).
    + unfold contents. simpl. by rewrite fmap_delete.
  - unfold RemoveItemAt, remove. destruct (internal l !! key) as [s|] eqn:Hk.
    + destruct (index <? 0)%Z; [done|]. simpl. rewrite (alter_contents _ _ _ _ Hk).
      by apply store_remove_spec.
    + split; [done|]. simpl. destruct (index <? 0)%Z; [done|].
      symmetry. apply map_eq. intros k. rewrite lookup_alter.
      destruct (decide (key = k)) as [<-|]; [|done].
      unfold contents. by rewrite lookup_fmap, Hk.
  - pose proof (RemoveItem_spec key p l Hl) as Hr.
    destruct (RemoveItem key p l) as [found l']. tauto.
  - pose proof (RemoveItems_spec key (λ v, ret (W := unit) (p v)) p limit l tt Hl
      (λ _ _, eq_refl)) as Hr.
    destruct (RemoveItems key _ limit l tt) as [[n l'] u]. simpl in *. tauto.
Qed.

Lemma NewListMap_ok : listmap_ok NewListMap.
Proof. split; [intros k s Hk; done | intros k1 k2 s1 s2 Hk; done]. Qed.

Lemma run_ops_spec ops l :
  listmap_ok l →
  listmap_ok (foldl run_op l ops) ∧ contents (foldl run_op l ops) = foldl spec_op (contents l) ops.
Proof.
  revert l. induction ops as [|o ops IH]; intros l Hl; simpl; [done|].
  destruct (run_op_spec o l Hl) as [Hok <-]. by apply IH.
Qed.

(** Whether indexing a key's list at [index] panics: only a negative index of a key
    that has a list does. *)
Definition bad_index (m : gmap string (list V)) (key : string) (index : Z) : bool :=
  match m !! key with Some _ => (index <? 0)%Z | None => false end.

Lemma RemoveItemAt_outcome key index l :
  (RemoveItemAt key index l).1 =
  if bad_index (contents l) key index then Panics else Returned tt.
Proof.
  unfold RemoveItemAt, bad_index, contents, remove. rewrite lookup_fmap.
  destruct (internal l !! key) as [s|]; simpl; [|done].
  by destruct (index <? 0)%Z.
Qed.

Lemma ItemAt_outcome key index l :
  listmap_ok l →
  ItemAt l key index =
  if bad_index (contents l) key index then Panics
  else match default [] (contents l !! key) !! Z.to_nat index with
       | Some v => Returned (v, true)
       | None => Returned (zero, false)
       end.
Proof.
  intros [Hok _]. unfold ItemAt, bad_index, contents. rewrite lookup_fmap.
  destruct (internal l !! key) as [s|] eqn:Hk; simpl; [|done].
  specialize (Hok _ _ Hk).
  pose proof (length_slice_read _ _ Hok) as Hlen.
  destruct (Z.ltb_spec index (Z.of_nat (sl_len s))), (Z.ltb_spec index 0); simpl; try done; try lia.
  - rewrite slice_at_read by done.
    destruct (slice_read (arrays l) s !! Z.to_nat index) as [v|] eqn:Hv; [done|].
    apply lookup_ge_None in Hv. lia.
  - rewrite lookup_ge_None_2 by lia. done.
Qed.

(** C31: The list map refines a finite map of lists.  After any sequence of additions
    and removals, those included that panicked and were recovered, its contents are
    what the same operations on plain lists give, although removal shifts elements
    inside arrays the slices keep sharing.  [RemoveItemAt] and [ItemAt] panic exactly
    when the index is negative and the key has a list (their doc comments promise a
    no-op and an empty value for an index that does not exist); otherwise [ItemAt]
    gives the element at the index, or an empty value and [false], and [RemoveItem]
    says whether it found a match. *)
Theorem ListMap_refines ops :
  let l := foldl run_op NewListMap ops in
  let m := foldl spec_op ∅ ops in
  listmap_ok l ∧ contents l = m ∧
  (∀ key index, (RemoveItemAt key index l).1 =
     if bad_index m key index then Panics else Returned tt) ∧
  (∀ key index, ItemAt l key index =
     if bad_index m key index then Panics
     else match default [] (m !! key) !! Z.to_nat index with
          | Some v => Returned (v, true)
          | None => Returned (zero, false)
          end) ∧
  (∀ key p, (RemoveItem key p l).1 = existsb p (default [] (m !! key))).
Proof.
  intros l m. destruct (run_ops_spec ops NewListMap NewListMap_ok) as [Hok Hc].
  change (contents NewListMap) with (∅ : gmap string (list V)) in Hc. fold l m in Hok, Hc.
  split; [done|]. split; [done|]. rewrite <- Hc. split; [intros; apply RemoveItemAt_outcome|].
  split; [intros; by apply ItemAt_outcome|]. intros key p.
  pose proof (RemoveItem_spec key p l Hok) as H. destruct (RemoveItem key p l) as [found l']. tauto.
Qed.

(** The documentation calls a missing index a no-op: at a negative one the removal and
    the lookup panic, also on an empty list. *)
Theorem negative_index_panics key items index :
  (index < 0)%Z →
  let l := AddItem key items NewListMap in
  RemoveItemAt key index l = (Panics, l) ∧ ItemAt l key index = Panics.
Proof.
  intros Hi l. unfold RemoveItemAt, ItemAt, remove.
  assert (Hk : is_Some (internal l !! key)).
  { destruct (AddItem_spec key items NewListMap NewListMap_ok) as [_ Hc].
    apply (f_equal (lookup key)) in Hc. rewrite lookup_insert_eq in Hc. fold l in Hc.
    unfold contents in Hc. rewrite lookup_fmap in Hc. destruct (internal l !! key); [eauto|done]. }
  destruct Hk as [s ->]. destruct (Z.ltb_spec index 0); [|lia].
  destruct (Z.ltb_spec index (Z.of_nat (sl_len s))); [done|lia].
Qed.

Lemma KeySize_contents key l :
  listmap_ok l → KeySize l key = length (default [] (contents l !! key)).
Proof.
  intros Hl. unfold KeySize, contents. rewrite lookup_fmap.
  destruct (internal l !! key) as [s|] eqn:Hk; [|done]. simpl.
  symmetry. apply length_slice_read. by apply (proj1 Hl key).
Qed.

Lemma remove_limit_length p limit (l : list V) :
  (0 < limit → Z.of_nat (length l) ≤ limit + Z.of_nat (length (remove_limit p limit l)))%Z.
Proof.
  revert limit. induction l as [|x l IH]; intros limit Hpos; simpl; [lia|].
  destruct (p x); simpl.
  - destruct (Z.eqb_spec limit 1); [lia|]. specialize (IH (limit - 1)%Z). lia.
  - specialize (IH limit). lia.
Qed.

Lemma remove_limit_all p limit (l : list V) :
  (limit < 1)%Z → Forall (λ v, p v = false) (remove_limit p limit l).
Proof.
  revert limit. induction l as [|x l IH]; intros limit Hl; simpl; [constructor|].
  destruct (p x) eqn:Hp; [|by constructor; auto].
  destruct (Z.eqb_spec limit 1); [lia|]. apply IH. lia.
Qed.

(** [RemoveItems] returns the number of elements gone, at most [limit] when that is
    positive; without a limit no element that matches is left. *)
Theorem RemoveItems_count ops key p limit :
  let l := foldl run_op NewListMap ops in
  let '(n, l') := (RemoveItems key (λ v, ret (W := unit) (p v)) limit l tt).1 in
  n + KeySize l' key = KeySize l key ∧ (0 < limit → Z.of_nat n ≤ limit)%Z ∧
  ((limit < 1)%Z → Forall (λ v, p v = false) (default [] (contents l' !! key))).
Proof.
  intros l. destruct (run_ops_spec ops NewListMap NewListMap_ok) as [Hl _]. fold l in Hl.
  pose proof (RemoveItems_spec key (λ v, ret (W := unit) (p v)) p limit l tt Hl
    (λ _ _, eq_refl)) as Hr.
  destruct (RemoveItems key _ limit l tt) as [[n l'] u]. cbn [fst] in *.
  destruct Hr as (Hl' & Hc & Hn).
  assert (Hc' : default [] (contents l' !! key) =
    remove_limit p (Z.max limit 0) (default [] (contents l !! key))).
  { rewrite Hc, lookup_alter_eq. by destruct (contents l !! key). }
  rewrite !KeySize_contents, Hc' by done. split; [done|]. split.
  - intros Hpos. pose proof (remove_limit_length p (Z.max limit 0)
      (default [] (contents l !! key))). lia.
  - intros Hneg. apply remove_limit_all. lia.
Qed.

Lemma range_from_S {W : Type} (lm : W → ListMap) n s i f w v :
  slice_at (arrays (lm w)) s i = Some v →
  range_from lm (S n) s i f w = range_from lm n s (S i) f (f i v w).2.
Proof.
  intros Hv. simpl. unfold bind, gets. rewrite Hv. by destruct (f i v w) as [[] w'].
Qed.

Lemma range_from_stable {W : Type} (lm : W → ListMap) n s i f w l :
  (∀ j v w, i ≤ j → lm (f j v w).2 = lm w) → lm w = l → slice_ok (arrays l) s →
  n + i = sl_len s →
  range_from lm n s i f w = for_each_idx i (drop i (slice_read (arrays l) s)) f w.
Proof.
  intros Hf Hlm Hs. pose proof (length_slice_read _ _ Hs) as Hlen.
  revert i w Hf Hlm. induction n as [|n IH]; intros i w Hf Hlm Hi.
  - by rewrite drop_ge by lia.
  - destruct (slice_read (arrays l) s !! i) as [v|] eqn:Hv; cycle 1.
    { apply lookup_ge_None in Hv. lia. }
    rewrite (range_from_S _ _ _ _ _ _ v) by (by rewrite Hlm, slice_at_read).
    rewrite (drop_S _ _ _ Hv). simpl. unfold bind. pose proof (Hf i v w) as Hfi.
    destruct (f i v w) as [[] w']. simpl in Hfi.
    apply IH; [intros; apply Hf; lia | rewrite Hfi; auto | lia].
Qed.

(** While its callback leaves the list map alone, [Range] calls it on every element
    of the key's list, in order, with the element's index. *)
Theorem Range_in_order {W : Type} (lm : W → ListMap) key f w :
  listmap_ok (lm w) → (∀ i v w, lm (f i v w).2 = lm w) →
  Range lm key f w = for_each_idx 0 (default [] (contents (lm w) !! key)) f w.
Proof.
  intros Hl Hf. unfold Range, bind, gets, contents. rewrite lookup_fmap.
  destruct (internal (lm w) !! key) as [s|] eqn:Hk; simpl; [|done].
  rewrite (range_from_stable lm _ s 0 f w (lm w)); [by rewrite drop_0|auto|done| |lia].
  by apply Hl in Hk.
Qed.

(** A callback which notes what it sees and, the first time, removes a match of [p]. *)
Definition log_and_remove (key : string) (p : V → bool) (i : nat) (v : V)
  : M (ListMap * list (nat * V)) unit :=
  λ '(l, log), (tt, (if i =? 0 then (RemoveItem key p l).2 else l, log ++ [(i, v)])).

(** Removing the middle of three elements shifts the last one over it, in the array. *)
Lemma RemoveItem_shifts key p l s a b c :
  listmap_ok l → internal l !! key = Some s → slice_read (arrays l) s = [a; b; c] →
  p a = false → p b = true →
  slice_ok (arrays (RemoveItem key p l).2) s ∧
  slice_read (arrays (RemoveItem key p l).2) s = [a; c; c].
Proof.
  intros Hl Hk Hc Ha Hb. pose proof (proj1 Hl _ _ Hk) as Hs.
  pose proof (length_slice_read _ _ Hs) as Hlen. rewrite Hc in Hlen. simpl in Hlen.
  unfold RemoveItem. rewrite Hk, <- Hlen. cbn [remove_item_loop].
  rewrite !slice_at_read, Hc by done. cbn [lookup list_lookup]. rewrite Ha, Hb.
  assert (Hrm : remove_at (arrays l) s 1 = slice_append zero (arrays l) (slice_to s 1) [c]).
  { unfold remove_at. rewrite <- Hlen. cbn -[slice_append slice_read].
    destruct (slice_from_spec (arrays l) s 2 Hs ltac:(lia)) as [_ ->]. by rewrite Hc. }
  rewrite Hrm. destruct Hs as (arr & Harr & Hoff & Hcap).
  unfold slice_append, slice_to. cbn [sl_len sl_cap sl_arr sl_off length].
  destruct (Nat.leb_spec (1 + 1) (sl_cap s)); [|lia]. cbn [snd store_key arrays].
  split.
  - exists (overwrite (sl_off s + 1) [c] arr). rewrite lookup_alter_eq, Harr.
    split; [done|]. rewrite length_overwrite; simpl; lia.
  - unfold slice_read in Hc |- *. rewrite lookup_alter_eq. rewrite Harr in Hc |- *. simpl in *.
    unfold overwrite. rewrite <- Hlen in Hc |- *.
    rewrite drop_app_le by (rewrite length_take; lia). rewrite skipn_firstn_comm.
    replace (sl_off s + 1 - sl_off s) with 1 by lia. simpl.
    replace (sl_off s + 1 + 1) with (sl_off s + 2) by lia. rewrite <- drop_drop.
    destruct (drop (sl_off s) arr) as [|? [|? [|? ?]]]; by simplify_eq/=.
Qed.

(** An element removed while [Range] runs is shifted over in the array the loop
    still reads: of [a; b; c] with [b] removed during the first call, the loop shows
    [c] twice. *)
Theorem Range_during_RemoveItem key p l a b c :
  listmap_ok l → contents l !! key = Some [a; b; c] → p a = false → p b = true →
  (Range fst key (log_and_remove key p) (l, [])).2.2 = [(0, a); (1, c); (2, c)].
Proof.
  intros Hl Hc Ha Hb. unfold contents in Hc. rewrite lookup_fmap in Hc.
  destruct (internal l !! key) as [s|] eqn:Hk; [|done]. simpl in Hc. injection Hc as Hc.
  pose proof (proj1 Hl _ _ Hk) as Hs. pose proof (length_slice_read _ _ Hs) as Hlen.
  rewrite Hc in Hlen. simpl in Hlen.
  destruct (RemoveItem_shifts key p l s a b c Hl Hk Hc Ha Hb) as [Hs' Hread].
  unfold Range, bind, gets. cbn [fst]. rewrite Hk, <- Hlen.
  rewrite (range_from_S fst 2 s 0 _ _ a); [|cbn [fst]; by rewrite slice_at_read, Hc].
  rewrite (range_from_stable fst 2 s 1 _ _ (RemoveItem key p l).2); [|..|done|done|done].
  - rewrite Hread. done.
  - intros j v [l0 log] Hj. destruct j; [lia|done].
Qed.
End ListMap.

Arguments ListMap : clear implicits.

(** ** Witnesses *)

(** [{"k": [10, 20, 30], "j": [7]}] *)
Definition sample : ListMap nat :=
  foldl (run_op 0) NewListMap [OpAddItem "k" [10; 20; 30]; OpAddItem "j" [7]].

Lemma sample_ok : listmap_ok sample.
Proof. apply run_ops_spec, NewListMap_ok. Qed.

(** The callback of the witnesses: note the element. *)
Definition collect (i : nat) (v : nat) : M (ListMap nat * list nat) unit :=
  λ '(l, log), (tt, (l, log ++ [v])).

Lemma Range_in_order_witness :
  (Range fst "k" collect (sample, [])).2.2 = [10; 20; 30].
Proof. rewrite (Range_in_order fst "k" collect (sample, [])); [vm_compute; reflexivity | apply sample_ok | intros i v [l log]; reflexivity]. Defined.

Lemma Range_during_RemoveItem_witness :
  (Range fst "k" (log_and_remove 0 "k" (λ v, v =? 20)) (sample, [])).2.2 =
  [(0, 10); (1, 30); (2, 30)].
Proof.
  apply (Range_during_RemoveItem 0 "k" (λ v, v =? 20) sample 10 20 30);
    [apply sample_ok | vm_compute; reflexivity | reflexivity | reflexivity].
Defined.
