(* ===== verification/RetryPolicy.v ===== *)
(** * Retry policies

    The resource actions, the exponential back-off policy on 64-bit durations and
    the dequeue policy of [operator/informer_controller.go]. *)
From S2P Require Import Prelude Resource.

#[local] Open Scope Z_scope.

(** [ResourceAction], a string type. *)
Definition ResourceAction := string.

Definition ResourceActionCreate : ResourceAction := "CREATE".
Definition ResourceActionUpdate : ResourceAction := "UPDATE".
Definition ResourceActionDelete : ResourceAction := "DELETE".
Definition ResourceActionResync : ResourceAction := "RESYNC".

(** [RetryPolicy]: whether to try again and after which duration, from the error
    and the attempt number. *)
Definition RetryPolicy := GoError → Z → bool * Z.

(** Two's-complement wrap-around of [int64], the type of [time.Duration]. *)
Definition wrap64 (z : Z) : Z := (z + 2 ^ 63) mod 2 ^ 64 - 2 ^ 63.

Definition Second : Z := 1000000000.
Definition Millisecond : Z := 1000000.

Section Backoff.
(** The result of converting a float64 outside the range of int64, which Go leaves
    to the implementation. *)
Variable float64_overflow : Z.

(** [time.Duration(math.Pow(2, float64(attempt)))].  Powers of two are exact in
    float64; a fraction truncates to 0. *)
Definition Duration_of_Pow2 (attempt : Z) : Z :=
  if attempt <? 0 then 0
  else if attempt <? 63 then 2 ^ attempt
  else float64_overflow.

(** [ExponentialBackoffRetryPolicy] *)
Definition ExponentialBackoffRetryPolicy (initialDelay maxAttempts : Z) : RetryPolicy :=
  λ _ attempt,
    if attempt >? maxAttempts then (false, 0)
    else (true, wrap64 (initialDelay * Duration_of_Pow2 attempt)).

(** [DefaultRetryPolicy] *)
Definition DefaultRetryPolicy : RetryPolicy := ExponentialBackoffRetryPolicy (5 * Second) 5.
End Backoff.

(** [RetryDequeuePolicy] *)
Definition RetryDequeuePolicy :=
  ResourceAction → Object → ResourceAction → Object → option GoError → bool.

(** [OpinionatedRetryDequeuePolicy] *)
Definition OpinionatedRetryDequeuePolicy : RetryDequeuePolicy :=
  λ newAction newObject retryAction retryObject _,
    if bool_decide (newAction = ResourceActionDelete) then true
    else if negb (bool_decide (newAction = retryAction)) then false
    else if GetGeneration newObject =? GetGeneration retryObject then false
    else true.

(** ** Theorems *)
Lemma wrap64_small z : - 2 ^ 63 ≤ z < 2 ^ 63 → wrap64 z = z.
Proof. intros Hz. unfold wrap64. rewrite Z.mod_small; lia. Qed.

Lemma wrap64_range z : - 2 ^ 63 ≤ wrap64 z < 2 ^ 63.
Proof. unfold wrap64. pose proof (Z.mod_pos_bound (z + 2 ^ 63) (2 ^ 64)). lia. Qed.

Lemma ExponentialBackoff_exhausted ovf d m e a :
  m < a → ExponentialBackoffRetryPolicy ovf d m e a = (false, 0).
Proof. intros Ha. unfold ExponentialBackoffRetryPolicy. case_match; [done | lia]. Qed.

Lemma ExponentialBackoff_ok_iff ovf d m e a :
  (ExponentialBackoffRetryPolicy ovf d m e a).1 = true ↔ a ≤ m.
Proof.
  unfold ExponentialBackoffRetryPolicy. destruct (Z.gtb_spec a m); split; simpl; try done; lia.
Qed.

Lemma Duration_of_Pow2_spec ovf a : 0 ≤ a < 63 → Duration_of_Pow2 ovf a = 2 ^ a.
Proof. intros Ha. unfold Duration_of_Pow2. repeat case_match; lia. Qed.

(** Back-off delays are exactly [initialDelay * 2^attempt], positive and growing,
    as long as that product is an int64. *)
Theorem ExponentialBackoff_exact ovf d m e a :
  0 < d → 0 ≤ a ≤ m → d * 2 ^ a < 2 ^ 63 →
  ExponentialBackoffRetryPolicy ovf d m e a = (true, d * 2 ^ a) ∧ 0 < d * 2 ^ a ∧
  (0 < a → (ExponentialBackoffRetryPolicy ovf d m e (a - 1)).2 * 2 = d * 2 ^ a).
Proof.
  intros Hd Ha Hov.
  assert (Hlt : ∀ b, 0 ≤ b ≤ a → 0 < 2 ^ b ∧ 2 ^ b ≤ 2 ^ a).
  { intros b Hb. split; [lia | apply Z.pow_le_mono_r; lia]. }
  assert (a < 63).
  { destruct (decide (a < 63)); [done|]. assert (2 ^ 63 ≤ 2 ^ a) by (apply Z.pow_le_mono_r; lia).
    nia. }
  assert (Hval : ∀ b, 0 ≤ b ≤ a → ExponentialBackoffRetryPolicy ovf d m e b = (true, d * 2 ^ b)).
  { intros b Hb. pose proof (Hlt b Hb). unfold ExponentialBackoffRetryPolicy.
    destruct (Z.gtb_spec b m); [lia|]. rewrite Duration_of_Pow2_spec by lia.
    rewrite wrap64_small by nia. done. }
  pose proof (Hlt a). split; [apply Hval; lia|]. split; [nia|].
  intros Ha0. rewrite Hval by lia. cbn [snd].
  replace (2 ^ a) with (2 * 2 ^ (a - 1)) by (rewrite <- Z.pow_succ_r by lia; f_equal; lia). lia.
Qed.

(** The product is not checked for overflow: with the default 5-second initial
    delay and a policy allowing 31 attempts or more, the delay of attempt 31 is
    negative, so the retry is due at once. *)
Theorem ExponentialBackoff_overflows ovf m e :
  31 ≤ m → (ExponentialBackoffRetryPolicy ovf (5 * Second) m e 31).1 = true ∧
           (ExponentialBackoffRetryPolicy ovf (5 * Second) m e 31).2 < 0.
Proof.
  intros Hm. unfold ExponentialBackoffRetryPolicy. destruct (Z.gtb_spec 31 m); [lia|].
  by vm_compute.
Qed.

(** The opinionated policy drops a queued retry exactly when the new action is a
    delete, or is the queued action on another generation of the object. *)
Theorem OpinionatedRetryDequeuePolicy_spec newA newO retryA retryO err :
  OpinionatedRetryDequeuePolicy newA newO retryA retryO err = true ↔
  newA = ResourceActionDelete ∨
  (newA = retryA ∧ GetGeneration newO ≠ GetGeneration retryO).
Proof.
  unfold OpinionatedRetryDequeuePolicy.
  destruct (Z.eqb_spec (GetGeneration newO) (GetGeneration retryO));
    repeat case_bool_decide; simpl; intuition congruence.
Qed.

(** ** Witnesses *)
Lemma ExponentialBackoff_exact_witness :
  ExponentialBackoffRetryPolicy 0 (5 * Second) 5 (ErrorString "boom") 3 = (true, 40 * Second).
Proof.
  destruct (ExponentialBackoff_exact 0 (5 * Second) 5 (ErrorString "boom") 3) as [E _];
    [reflexivity | lia | reflexivity | exact E].
Defined.

Lemma ExponentialBackoff_overflows_witness :
  (ExponentialBackoffRetryPolicy 0 (5 * Second) 40 (ErrorString "boom") 31).2 < 0.
Proof. apply (ExponentialBackoff_overflows 0 40 (ErrorString "boom")). lia. Defined.
