(* ===== verification/RetryProcessor.v ===== *)
(** * The sharded retry processor ([operator/retry_processor.go])

    A worker is its priority queue and its one-slot wake channel; the processor is
    the slice of workers a key is routed to by hash.  [processReady] is one
    iteration of a worker's loop, in its three phases; [wstep] interleaves the
    phases with the [Enqueue]s and [Dequeue]s other goroutines make while the
    retries run unlocked. *)
From S2P Require Import Prelude Heap Resource Concrete RetryPolicy.

Section RetryProcessor.
Context {W : Type} `{WW : !World W} `{XX : !Xxhash}.

(** [RetryRequest] *)
Record RetryRequest := mkRetryRequest {
  Key : string;
  RetryAfter : Z;
  RetryFunc : M W (option Z * option GoError);
  Attempt : Z;
  Action : ResourceAction;
  RObject : Ref;
  LastError : option GoError;
}.

(** [RetryProcessorConfig] *)
Record RetryProcessorConfig := mkRetryProcessorConfig {
  WorkerPoolSize : Z;
  CheckInterval : Z;
}.

(** [retryWorker]: the queue, whether a signal waits in [wake], the tick interval. *)
Record retryWorker := mkRetryWorker {
  queue : list RetryRequest;
  wake : bool;
  checkInterval : Z;
}.

(** [defaultRetryProcessor]; the policy is read when a worker needs it. *)
Record defaultRetryProcessor := mkRetryProcessor {
  workers : list retryWorker;
  workerCount : Z;
}.

(** [retryPriorityQueue] is [container/heap] ordered by [RetryAfter]. *)
Definition set_queue (q : list RetryRequest) (w : retryWorker) : retryWorker :=
  mkRetryWorker q (wake w) (checkInterval w).

(** [heap.Push(&w.queue, req)] *)
Definition push_queue (req : RetryRequest) (w : retryWorker) : retryWorker :=
  set_queue (Push RetryAfter (queue w) req) w.

(** [NewRetryProcessor], after the defaults for the configuration. *)
Definition NewRetryProcessor (cfg : RetryProcessorConfig) : defaultRetryProcessor :=
  let size := if (WorkerPoolSize cfg <=? 0)%Z then 4%Z else WorkerPoolSize cfg in
  let interval := if (CheckInterval cfg <=? 0)%Z then Second else CheckInterval cfg in
  mkRetryProcessor (replicate (Z.to_nat size) (mkRetryWorker [] false interval)) size.

(** [xxhash.Sum64([]byte(key)) % p.workerCount], the index of the key's worker. *)
Definition shard (p : defaultRetryProcessor) (key : string) : nat :=
  Z.to_nat (Sum64 key mod workerCount p).

(** Run an operation on the worker a key is routed to.  [p.workers[i]] panics out of
    range; [shard_in_range] shows the index is in range. *)
Definition on_worker (key : string) (f : retryWorker → retryWorker)
    (p : defaultRetryProcessor) : defaultRetryProcessor :=
  mkRetryProcessor (alter f (shard p key) (workers p)) (workerCount p).

(** [Enqueue]: push, then a non-blocking send on the one-slot wake channel. *)
Definition worker_enqueue (req : RetryRequest) (w : retryWorker) : retryWorker :=
  mkRetryWorker (Push RetryAfter (queue w) req) true (checkInterval w).

Definition Enqueue (req : RetryRequest) (p : defaultRetryProcessor) : defaultRetryProcessor :=
  on_worker (Key req) (worker_enqueue req) p.

(** The locked body of [Dequeue] and [DequeueAll]: keep what is not dropped, in
    order, and rebuild the heap when something was dropped. *)
Definition worker_dequeue (drop : RetryRequest → bool) (w : retryWorker) : retryWorker :=
  let filtered := filter (λ req, negb (drop req)) (queue w) in
  if bool_decide (length filtered = length (queue w)) then w
  else set_queue (Init RetryAfter filtered) w.

(** [DequeueAll] *)
Definition DequeueAll (key : string) (p : defaultRetryProcessor) : defaultRetryProcessor :=
  on_worker key (worker_dequeue (λ req, bool_decide (Key req = key))) p.

(** [Dequeue]; a nil predicate dequeues all. *)
Definition Dequeue (key : string) (predicate : option (RetryRequest → bool))
    (p : defaultRetryProcessor) : defaultRetryProcessor :=
  match predicate with
  | None => DequeueAll key p
  | Some pred =>
      on_worker key (worker_dequeue (λ req, bool_decide (Key req = key) && pred req)) p
  end.

(** [Len] *)
Definition Len (p : defaultRetryProcessor) : nat :=
  foldl (λ total w, total + length (queue w)) 0 (workers p).

(** Phase 1 of [processReady]: pop while the first request is not after [now].
    Every turn pops one request, so the queue's length is enough fuel. *)
Fixpoint pop_ready (fuel : nat) (now : Z) (q : list RetryRequest)
  : list RetryRequest * list RetryRequest :=
  match fuel with
  | O => ([], q)
  | S fuel =>
      match q !! 0 with
      | None => ([], q)
      | Some first =>
          if (RetryAfter first >? now)%Z then ([], q)
          else match Pop RetryAfter q with
               | None => ([], q)
               | Some (req, q') =>
                   let '(ready, q'') := pop_ready fuel now q' in (req :: ready, q'')
               end
      end
  end.

(** The [result] struct of [processReady]. *)
Record result := mkResult {
  res_req : RetryRequest;
  res_requeue : option Z;
  res_err : option GoError;
}.

(** Phase 2: run every [RetryFunc] in order. *)
Fixpoint exec_ready (ready : list RetryRequest) : M W (list result) :=
  match ready with
  | [] => ret []
  | req :: ready =>
      let* '(requeue, err) := RetryFunc req in
      let* rest := exec_ready ready in
      ret (mkResult req requeue err :: rest)
  end.

(** Phase 3, one result: the request it puts back, if any. *)
Definition requeue_one (policy : option RetryPolicy) (res : result)
  : M W (option RetryRequest) :=
  let req := res_req res in
  match res_requeue res with
  | Some after =>
      let* now := Now in
      ret (Some (mkRetryRequest (Key req) (now + after) (RetryFunc req) (Attempt req)
                   (Action req) (RObject req) (res_err res)))
  | None =>
      match res_err res, policy with
      | Some err, Some policy =>
          let '(ok, after) := policy err (Attempt req + 1)%Z in
          if (ok : bool) then
            let* now := Now in
            ret (Some (mkRetryRequest (Key req) (now + after) (RetryFunc req)
                         (Attempt req + 1) (Action req) (RObject req) (Some err)))
          else ret None
      | _, _ => ret None
      end
  end.

(** Phase 3: push back the requests to retry. *)
Fixpoint requeue_all (policy : option RetryPolicy) (results : list result)
    (w : retryWorker) : M W retryWorker :=
  match results with
  | [] => ret w
  | res :: results =>
      let* again := requeue_one policy res in
      requeue_all policy results
        (match again with Some req => push_queue req w | None => w end)
  end.

(** The requests phase 3 puts back, in order. *)
Fixpoint requeue_list (policy : option RetryPolicy) (results : list result)
  : M W (list RetryRequest) :=
  match results with
  | [] => ret []
  | res :: results =>
      let* again := requeue_one policy res in
      let* rest := requeue_list policy results in
      ret (match again with Some req => req :: rest | None => rest end)
  end.

(** [processReady] when no other goroutine touches the worker meanwhile. *)
Definition processReady (policy : option RetryPolicy) (w : retryWorker) : M W retryWorker :=
  let* now := Now in
  let '(ready, q) := pop_ready (length (queue w)) now (queue w) in
  let w := set_queue q w in
  match ready with
  | [] => ret w
  | _ :: _ =>
      let* results := exec_ready ready in
      requeue_all policy results w
  end.

(** ** A worker among other goroutines

    Where a worker's loop is: blocked in [select], or in phase 2 with the results
    so far and the requests still to run. *)
Inductive phase :=
| Waiting
| Executing (results : list result) (pending : list RetryRequest).

Record wstate := mkWState { ws_worker : retryWorker; ws_phase : phase; ws_world : W }.

(** The steps of one worker, shard [i] of [p]'s [workerCount], and of its users:
    [Enqueue] and [Dequeue] of a key routed to it at any time, the three phases of
    [processReady] and whatever the rest of the program does to the world. *)
Inductive wstep (p : defaultRetryProcessor) (i : nat) (policy : option RetryPolicy)
  : wstate → wstate → Prop :=
| step_enqueue w ph σ req :
    shard p (Key req) = i →
    wstep p i policy (mkWState w ph σ) (mkWState (worker_enqueue req w) ph σ)
| step_dequeue w ph σ key pred :
    shard p key = i →
    wstep p i policy (mkWState w ph σ)
      (mkWState (worker_dequeue (λ req, bool_decide (Key req = key) && pred req) w) ph σ)
| step_pop w σ now σ' ready q :
    Now σ = (now, σ') →
    pop_ready (length (queue w)) now (queue w) = (ready, q) →
    wstep p i policy (mkWState w Waiting σ)
      (mkWState (mkRetryWorker q false (checkInterval w))
         (match ready with [] => Waiting | _ => Executing [] ready end) σ')
| step_exec w results req pending σ requeue err σ' :
    RetryFunc req σ = ((requeue, err), σ') →
    wstep p i policy (mkWState w (Executing results (req :: pending)) σ)
      (mkWState w (Executing (results ++ [mkResult req requeue err]) pending) σ')
| step_requeue w results σ w' σ' :
    requeue_all policy results w σ = (w', σ') →
    wstep p i policy (mkWState w (Executing results []) σ) (mkWState w' Waiting σ')
| step_world w ph σ σ' :
    wstep p i policy (mkWState w ph σ) (mkWState w ph σ').

(** The requests a worker holds: queued, or taken off the queue and not yet put back. *)
Definition held (s : wstate) : list RetryRequest :=
  queue (ws_worker s) ++
  match ws_phase s with
  | Waiting => []
  | Executing results pending => map res_req results ++ pending
  end.

(** The invariant of a worker: its queue is a heap and it only holds its own keys. *)
Definition worker_inv (p : defaultRetryProcessor) (i : nat) (s : wstate) : Prop :=
  heap_ok RetryAfter (queue (ws_worker s)) ∧ Forall (λ req, shard p (Key req) = i) (held s).

(** Well-formed processors: as many workers as the count, at least one, all heaps of
    requests routed to them. *)
Definition processor_wf (p : defaultRetryProcessor) : Prop :=
  (0 < workerCount p)%Z ∧ length (workers p) = Z.to_nat (workerCount p) ∧
  ∀ i w, workers p !! i = Some w →
    heap_ok RetryAfter (queue w) ∧ Forall (λ req, shard p (Key req) = i) (queue w).

(** [n] passes of a worker, counting the retries they run. *)
Fixpoint passes (n : nat) (policy : option RetryPolicy) (w : retryWorker)
  : M W (nat * retryWorker) :=
  match n with
  | O => ret (0, w)
  | S n =>
      let* now := gets (λ σ, (Now σ).1) in
      let run := length (pop_ready (length (queue w)) now (queue w)).1 in
      let* w' := processReady policy w in
      let* '(runs, w'') := passes n policy w' in
      ret (run + runs, w'')
  end.

(** The retries a queue can still cause under a policy of [m] attempts. *)
Definition budget (m : Z) (q : list RetryRequest) : nat :=
  sum_list_with (λ r, S (Z.to_nat (m + 1 - Attempt r))) q.

(** A retry which never asks to be re-queued. *)
Definition never_requeues (r : RetryRequest) : Prop := ∀ σ, (RetryFunc r σ).1.1 = None.

(** All pending requests, worker by worker. *)
Definition pending (p : defaultRetryProcessor) : list RetryRequest :=
  workers p ≫= queue.
End RetryProcessor.

Arguments RetryRequest : clear implicits.
Arguments retryWorker : clear implicits.
Arguments defaultRetryProcessor : clear implicits.
Arguments result : clear implicits.
Arguments phase : clear implicits.
Arguments wstate : clear implicits.

(** ** Lemmas *)

Section Lemmas.
Context {W : Type} `{WW : !World W} `{XX : !Xxhash}.
Implicit Types (p : defaultRetryProcessor W) (w : retryWorker W) (q : list (RetryRequest W)).

Lemma pop_ready_spec fuel now q ready q' :
  heap_ok RetryAfter q → length q ≤ fuel → pop_ready fuel now q = (ready, q') →
  heap_ok RetryAfter q' ∧ ready ++ q' ≡ₚ q ∧
  Forall (λ r, RetryAfter r ≤ now)%Z ready ∧ Forall (λ r, now < RetryAfter r)%Z q' ∧
  StronglySorted (λ r1 r2, RetryAfter r1 ≤ RetryAfter r2)%Z ready.
Proof.
  revert q ready q'. induction fuel as [|fuel IH]; intros q ready q' Hq Hf; simpl.
  { destruct q; [|simpl in Hf; lia]. intros [= <- <-]. repeat constructor; done. }
  destruct q as [|x q]; simpl.
  { intros [= <- <-]. repeat constructor; done. }
  destruct (Z.gtb_spec (RetryAfter x) now) as [Hx|Hx].
  { intros [= <- <-]. split; [done|]. repeat constructor; try done; try lia.
    apply Forall_forall. intros y Hy.
    pose proof (heap_root_le RetryAfter _ x y Hq eq_refl (list_elem_of_further _ _ _ Hy)). lia. }
  destruct (Pop_spec RetryAfter _ _ _ Hq eq_refl) as (q1 & -> & Hperm & Hq1).
  destruct (pop_ready fuel now q1) as [rest q2] eqn:E. intros [= <- <-].
  apply IH in E as (Hq2 & Hp & Hr & Hlate & Hs); [|done|rewrite Hperm; simpl in Hf; lia].
  split; [done|]. split; [simpl; by rewrite Hp, Hperm|].
  split; [constructor; [lia|done]|]. split; [done|].
  apply SSorted_cons; [done|]. apply Forall_forall. intros y Hy.
  apply (heap_root_le RetryAfter (x :: q)); [done..|].
  right. rewrite <- Hperm, <- Hp. apply elem_of_app. by left.
Qed.

Lemma worker_dequeue_perm drop w :
  queue (worker_dequeue drop w) ≡ₚ filter (λ req, negb (drop req)) (queue w).
Proof.
  unfold worker_dequeue. case_bool_decide as E; simpl; [|apply Init_perm].
  assert (Hf : Forall (λ req, negb (drop req)) (queue w)).
  { revert E. induction (queue w) as [|x q IH]; [constructor|]. rewrite filter_cons.
    case_decide as D; simpl; intros E; [constructor; [done | apply IH; lia]|].
    pose proof (length_filter (λ req, negb (drop req)) q). lia. }
  by rewrite filter_all.
Qed.

Lemma worker_dequeue_heap drop w :
  heap_ok RetryAfter (queue w) → heap_ok RetryAfter (queue (worker_dequeue drop w)).
Proof. intros Hw. unfold worker_dequeue. case_bool_decide; [done | apply Init_heap]. Qed.

Lemma worker_enqueue_perm req w : queue (worker_enqueue req w) ≡ₚ req :: queue w.
Proof. apply Push_perm. Qed.

Lemma worker_enqueue_heap req w :
  heap_ok RetryAfter (queue w) → heap_ok RetryAfter (queue (worker_enqueue req w)).
Proof. apply Push_heap. Qed.

Lemma requeue_one_key policy res σ req σ' :
  requeue_one policy res σ = (Some req, σ') → Key req = Key (res_req res).
Proof. unfold requeue_one. intros E. repeat case_match; go_crush; by simplify_eq/=. Qed.

(** Filtering all the requests by filtering one worker's, when the others' all stay. *)
Lemma bind_alter_filter (P : RetryRequest W → bool) f i (ws : list (retryWorker W)) :
  (∀ w, queue (f w) ≡ₚ filter (λ r, P r) (queue w)) →
  (∀ j w, ws !! j = Some w → j ≠ i → Forall (λ r, P r) (queue w)) →
  alter f i ws ≫= queue ≡ₚ filter (λ r, P r) (ws ≫= queue).
Proof.
  intros Hf. revert i. induction ws as [|w ws IH]; intros i Hws; [done|].
  destruct i as [|i]; cbn -[filter]; rewrite filter_app.
  - rewrite Hf. f_equiv. rewrite filter_all; [done|]. apply Forall_bind.
    apply Forall_forall. intros w' [j Hj]%list_elem_of_lookup. by apply (Hws (S j)).
  - rewrite (filter_all _ (queue w)) by (by apply (Hws 0)). f_equiv.
    apply IH. intros j w' Hj Hne. apply (Hws (S j)); [done | congruence].
Qed.

Lemma shard_in_range p key :
  processor_wf p → is_Some (workers p !! shard p key).
Proof.
  intros (Hpos & Hlen & _). apply lookup_lt_is_Some_2. rewrite Hlen. unfold shard.
  apply Z2Nat.inj_lt; pose proof (Z.mod_pos_bound (Sum64 key) (workerCount p)); lia.
Qed.

Lemma pending_alter p i f w :
  workers p !! i = Some w →
  ∃ others, workers p ≫= queue ≡ₚ queue w ++ others ∧
            alter f i (workers p) ≫= queue ≡ₚ queue (f w) ++ others.
Proof.
  intros Hw. exists ((take i (workers p) ++ drop (S i) (workers p)) ≫= queue).
  assert (Hi : length (take i (workers p)) = i).
  { apply length_take_le. apply lookup_lt_Some in Hw. lia. }
  assert (Ha : alter f i (workers p) = take i (workers p) ++ f w :: drop (S i) (workers p)).
  { rewrite <- (take_drop_middle _ _ _ Hw) at 1.
    rewrite <- Hi at 1. rewrite <- (Nat.add_0_r (length _)), alter_app_r. done. }
  rewrite Ha. rewrite <- (take_drop_middle _ _ _ Hw) at 1.
  rewrite !bind_app. simpl. split; by rewrite Permutation_app_swap_app.
Qed.

Lemma on_worker_shard key f p k : shard (on_worker key f p) k = shard p k.
Proof. done. Qed.

(** An operation that keeps a worker's queue a heap of its own keys keeps the
    processor well formed. *)
Lemma on_worker_wf key f p :
  processor_wf p →
  (∀ w, heap_ok RetryAfter (queue w) → heap_ok RetryAfter (queue (f w))) →
  (∀ w r, r ∈ queue (f w) → r ∈ queue w ∨ shard p (Key r) = shard p key) →
  processor_wf (on_worker key f p).
Proof.
  intros (Hpos & Hlen & Hws) Hheap Hkeys. split; [done|]. split; [by simpl; rewrite length_alter|].
  intros i w Hw. simpl in Hw. destruct (decide (i = shard p key)) as [->|Hne].
  - rewrite list_lookup_alter_eq in Hw.
    destruct (workers p !! shard p key) as [w0|] eqn:Hw0; simplify_eq/=.
    destruct (Hws _ _ Hw0) as [Hh Hk]. split; [by apply Hheap|].
    rewrite Forall_forall in Hk |- *. intros r Hr.
    rewrite on_worker_shard. destruct (Hkeys _ _ Hr); [by apply Hk | done].
  - rewrite list_lookup_alter_ne in Hw by done. by apply Hws.
Qed.

Lemma elem_of_pending p r : r ∈ pending p ↔ ∃ i w, workers p !! i = Some w ∧ r ∈ queue w.
Proof.
  unfold pending. rewrite list_elem_of_bind. split.
  - intros (w & Hr & [i Hi]%list_elem_of_lookup). eauto.
  - intros (i & w & Hi & Hr). exists w. split; [done|]. by eapply list_elem_of_lookup_2.
Qed.

Lemma Len_pending p : Len p = length (pending p).
Proof.
  unfold Len, pending. assert (H0 : ∀ ws (n : nat),
    foldl (λ total w, total + length (queue w)) n ws = n + length (ws ≫= queue)).
  { induction ws as [|w ws IH]; intros n; cbn [foldl mbind list_bind]; [simpl; lia|].
    rewrite IH. change (list_bind _ _ queue ws) with (ws ≫= queue). rewrite length_app. lia. }
  by rewrite H0.
Qed.

Lemma requeue_all_list policy results w σ :
  let '(w', σ') := requeue_all policy results w σ in
  let '(again, σ'') := requeue_list policy results σ in
  σ' = σ'' ∧ queue w' ≡ₚ again ++ queue w ∧
  (heap_ok RetryAfter (queue w) → heap_ok RetryAfter (queue w')).
Proof.
  revert w σ. induction results as [|res results IH]; intros w σ; simpl; [done|].
  unfold bind. destruct (requeue_one policy res σ) as [again σ1].
  set (w1 := match again with Some req => push_queue req w | None => w end).
  specialize (IH w1 σ1). destruct (requeue_all policy results w1 σ1) as [w' σ'].
  destruct (requeue_list policy results σ1) as [rest σ'']. simpl.
  destruct IH as (-> & Hp & Hh). split; [done|]. subst w1.
  destruct again as [req|]; simpl in *; [|done]. split.
  - etrans; [exact Hp|]. etrans; [apply Permutation_app_head, Push_perm|].
    symmetry. apply Permutation_middle.
  - intros Hw. by apply Hh, Push_heap.
Qed.

Lemma requeue_list_keys policy results σ again σ' :
  requeue_list policy results σ = (again, σ') →
  Forall (λ r, ∃ res, res ∈ results ∧ Key r = Key (res_req res)) again.
Proof.
  revert σ again. induction results as [|res results IH]; intros σ again; simpl.
  { intros [= <- <-]. constructor. }
  unfold bind. destruct (requeue_one policy res σ) as [o σ1] eqn:E1.
  destruct (requeue_list policy results σ1) as [rest σ2] eqn:E2. intros [= <- <-].
  assert (Hrest : Forall (λ r, ∃ res', res' ∈ res :: results ∧ Key r = Key (res_req res')) rest).
  { eapply Forall_impl; [by eapply IH|]. intros r (res' & ? & ?). exists res'. by split; [right|]. }
  destruct o as [req|]; [|done]. constructor; [|done].
  exists res. split; [by left | by eapply requeue_one_key].
Qed.

Lemma exec_ready_reqs (ready : list (RetryRequest W)) σ : map res_req (exec_ready ready σ).1 = ready.
Proof.
  revert σ. induction ready as [|req ready IH]; intros σ; simpl; [done|].
  unfold bind. destruct (RetryFunc req σ) as [[requeue err] σ1].
  specialize (IH σ1). destruct (exec_ready ready σ1) as [rest σ2]. simpl in *. by rewrite IH.
Qed.
End Lemmas.

(** ** Properties *)

Section Properties.
Context {W : Type} `{WW : !World W} `{XX : !Xxhash}.
Implicit Types (p : defaultRetryProcessor W) (w : retryWorker W).

(** C2: A pass of a worker runs exactly the due requests, earliest first, and leaves
    a heap of the requests not yet due and those phase 3 puts back. *)
Theorem processReady_correct policy w σ :
  heap_ok RetryAfter (queue w) →
  let '(now, σ0) := Now σ in
  let '(w', σ') := processReady policy w σ in
  ∃ ready late,
    queue w ≡ₚ ready ++ late ∧
    Forall (λ r, RetryAfter r ≤ now)%Z ready ∧ Forall (λ r, now < RetryAfter r)%Z late ∧
    StronglySorted (λ r1 r2, RetryAfter r1 ≤ RetryAfter r2)%Z ready ∧
    let '(results, σ1) := exec_ready ready σ0 in
    let '(again, σ2) := requeue_list policy results σ1 in
    σ' = σ2 ∧ queue w' ≡ₚ again ++ late ∧ heap_ok RetryAfter (queue w').
Proof.
  intros Hw. unfold processReady, bind at 1. destruct (Now σ) as [now σ0].
  destruct (pop_ready (length (queue w)) now (queue w)) as [ready late] eqn:E.
  apply pop_ready_spec in E as (Hl & Hp & Hr & Hlate & Hs); [|done|done].
  assert (Hcase : ∃ w', (match ready with
    | [] => ret (set_queue late w)
    | _ :: _ => bind (exec_ready ready) (λ results, requeue_all policy results (set_queue late w))
    end σ0) = (w', (requeue_list policy (exec_ready ready σ0).1 (exec_ready ready σ0).2).2) ∧
    queue w' ≡ₚ (requeue_list policy (exec_ready ready σ0).1 (exec_ready ready σ0).2).1 ++ late ∧
    heap_ok RetryAfter (queue w')).
  { destruct ready as [|r0 ready]; [by exists (set_queue late w)|].
    unfold bind at 1. destruct (exec_ready (r0 :: ready) σ0) as [results σ1]. simpl.
    pose proof (requeue_all_list policy results (set_queue late w) σ1) as Hall.
    destruct (requeue_all policy results _ σ1) as [w' σ']. exists w'.
    destruct (requeue_list policy results σ1) as [again σ2]. simpl in *.
    destruct Hall as (-> & ? & Hh). auto. }
  destruct Hcase as (w' & -> & Hq & Hh). exists ready, late.
  split; [by rewrite Hp|]. do 3 (split; [done|]).
  destruct (exec_ready ready σ0) as [results σ1]. simpl in *.
  by destruct (requeue_list policy results σ1) as [again σ2].
Qed.

(** Enqueue adds the one request, to the queue of the key's worker, and keeps
    every queue a heap of its own keys. *)
Lemma Enqueue_pending p req :
  processor_wf p →
  pending (Enqueue req p) ≡ₚ req :: pending p ∧ Len (Enqueue req p) = S (Len p) ∧
  processor_wf (Enqueue req p).
Proof.
  intros Hwf. assert (Hp : pending (Enqueue req p) ≡ₚ req :: pending p).
  { destruct (shard_in_range p (Key req) Hwf) as [w Hw].
    destruct (pending_alter p _ (worker_enqueue req) w Hw) as (others & H1 & H2).
    unfold pending, Enqueue. simpl. by rewrite H2, H1, worker_enqueue_perm. }
  split; [done|]. split; [by rewrite !Len_pending, Hp|].
  apply on_worker_wf; [done | intros w; apply worker_enqueue_heap |].
  intros w r. rewrite worker_enqueue_perm, elem_of_cons. intros [->|]; auto.
Qed.

(** Dequeue removes exactly the queued requests of the key that match, from the
    one worker that can hold them, and keeps every queue a heap of its own keys. *)
Lemma Dequeue_pending p key pred :
  processor_wf p →
  pending (Dequeue key (Some pred) p) ≡ₚ
    filter (λ req, negb (bool_decide (Key req = key) && pred req)) (pending p) ∧
  processor_wf (Dequeue key (Some pred) p).
Proof.
  intros Hwf. pose proof Hwf as (_ & _ & Hws). split.
  - apply bind_alter_filter; [intros w; apply worker_dequeue_perm|].
    intros j w Hj Hne. eapply Forall_impl; [by apply (Hws j w)|]. simpl. intros r Hr.
    case_bool_decide as Hk; [|done]. exfalso. subst key. by apply Hne.
  - apply on_worker_wf; [done | intros w; apply worker_dequeue_heap |].
    intros w r. rewrite worker_dequeue_perm, list_elem_of_filter. tauto.
Qed.
(** A new processor has at least one worker (four unless the configuration asks
    for another positive number), no request, and is well formed. *)
Lemma NewRetryProcessor_wf cfg :
  let p : defaultRetryProcessor W := NewRetryProcessor cfg in
  processor_wf p ∧ Len p = 0 ∧
  (0 < WorkerPoolSize cfg → workerCount p = WorkerPoolSize cfg)%Z ∧
  (WorkerPoolSize cfg ≤ 0 → workerCount p = 4)%Z.
Proof.
  unfold NewRetryProcessor. simpl.
  set (size := if (WorkerPoolSize cfg <=? 0)%Z then 4%Z else WorkerPoolSize cfg).
  assert (Hs : (0 < size)%Z) by (unfold size; destruct (Z.leb_spec (WorkerPoolSize cfg) 0); lia).
  split; [|split].
  - split; [done|]. split; [apply length_replicate|].
    intros i w [-> _]%lookup_replicate. split; [apply heap_ok_nil | constructor].
  - rewrite Len_pending. unfold pending. simpl. by induction (Z.to_nat size).
  - unfold size. destruct (Z.leb_spec (WorkerPoolSize cfg) 0); split; intros; lia.
Qed.

(** The requests a worker may hold after a step were held before it, re-queued by
    phase 3, or just enqueued. *)
Lemma wstep_held p i policy s s' r :
  wstep p i policy s s' → heap_ok RetryAfter (queue (ws_worker s)) → r ∈ held s' →
  (∃ r', r' ∈ held s ∧ Key r = Key r') ∨ shard p (Key r) = i.
Proof.
  intros Hstep Hheap. destruct Hstep; unfold held; cbn [ws_worker ws_phase] in *.
  - rewrite worker_enqueue_perm. rewrite !elem_of_app, elem_of_cons.
    intros [[->|?]|?]; [by right | left; exists r..]; rewrite elem_of_app; auto.
  - rewrite worker_dequeue_perm, !elem_of_app, list_elem_of_filter.
    intros [[_ ?]|?]; left; exists r; rewrite elem_of_app; auto.
  - intros Hr. left. exists r. split; [|done].
    apply pop_ready_spec in H0 as (_ & Hp & _); [|done|done].
    cbn [queue] in Hr. rewrite app_nil_r, <- Hp, elem_of_app. rewrite elem_of_app in Hr.
    destruct ready; simpl in Hr; [|tauto].
    destruct Hr as [|[]%not_elem_of_nil]; auto.
  - rewrite map_app, <- app_assoc. simpl. intros Hr. left. by exists r.
  - intros Hr. rewrite app_nil_r in Hr.
    pose proof (requeue_all_list policy results w σ) as Hall. rewrite H in Hall.
    destruct (requeue_list policy results σ) as [again σ''] eqn:Eagain.
    destruct Hall as (_ & Hp & _). rewrite Hp, elem_of_app in Hr.
    left. destruct Hr as [Hr|Hr]; [|exists r; rewrite elem_of_app; auto].
    apply requeue_list_keys in Eagain. rewrite Forall_forall in Eagain.
    destruct (Eagain r Hr) as (res & Hres & ->). exists (res_req res). split; [|done].
    rewrite !elem_of_app. right; left. by apply list_elem_of_fmap_2.
  - intros Hr. left. by exists r.
Qed.

Lemma DequeueAll_pending p key :
  processor_wf p →
  pending (DequeueAll key p) ≡ₚ
    filter (λ req, negb (bool_decide (Key req = key))) (pending p) ∧
  processor_wf (DequeueAll key p).
Proof.
  intros Hwf.
  assert (E : DequeueAll key p = Dequeue key (Some (λ _, true)) p).
  { unfold DequeueAll, Dequeue, on_worker. f_equal. apply list_alter_ext; [|done].
    intros w _. unfold worker_dequeue.
    assert (Hf : ∀ l : list (RetryRequest W),
      filter (λ req, negb (bool_decide (Key req = key))) l =
      filter (λ req, negb (bool_decide (Key req = key) && true)) l).
    { intros l. apply list_filter_iff. intros r. by rewrite andb_true_r. }
    by rewrite Hf. }
  rewrite E. destruct (Dequeue_pending p key (λ _, true) Hwf) as [H1 H2]. split; [|done].
  rewrite H1. rewrite (list_filter_iff _ (λ req, negb (bool_decide (Key req = key)))); [done|].
  intros r. by rewrite andb_true_r.
Qed.

(** The processor's operations, on a well-formed processor (as a new one is): [Enqueue]
    adds the one request, [Dequeue] takes out exactly the queued requests of the key
    that match, [DequeueAll] all of the key's; each leaves every queue a heap of
    requests routed to its worker. *)
Theorem processor_operations p :
  processor_wf p →
  (∀ req, pending (Enqueue req p) ≡ₚ req :: pending p ∧ Len (Enqueue req p) = S (Len p) ∧
     processor_wf (Enqueue req p)) ∧
  (∀ key pred, pending (Dequeue key (Some pred) p) ≡ₚ
     filter (λ req, negb (bool_decide (Key req = key) && pred req)) (pending p) ∧
     processor_wf (Dequeue key (Some pred) p)) ∧
  (∀ key, Dequeue key None p = DequeueAll key p ∧
     pending (DequeueAll key p) ≡ₚ
       filter (λ req, negb (bool_decide (Key req = key))) (pending p) ∧
     processor_wf (DequeueAll key p)).
Proof.
  intros Hwf. split; [|split].
  - intros req. by apply Enqueue_pending.
  - intros key pred. by apply Dequeue_pending.
  - intros key. split; [done|]. by apply DequeueAll_pending.
Qed.

(** Whatever the interleaving of a worker's passes with the enqueues and dequeues
    of other goroutines, its queue stays a heap and every request it holds, queued or
    running, has a key routed to it: two workers never run the same key. *)
Theorem worker_inv_reachable p i policy s s' :
  worker_inv p i s → rtc (wstep p i policy) s s' → worker_inv p i s'.
Proof.
  intros Hinv Hrtc. revert Hinv. apply (rtc_invariant (wstep p i policy)); [|done].
  clear s s' Hrtc. intros s s' Hstep [Hheap Hkeys]. split.
  - destruct Hstep; simpl in *; try done.
    + by apply worker_enqueue_heap.
    + by apply worker_dequeue_heap.
    + by apply pop_ready_spec in H0 as (? & _).
    + pose proof (requeue_all_list policy results w σ) as Hall. rewrite H in Hall.
      destruct (requeue_list policy results σ). by apply Hall.
  - rewrite Forall_forall in Hkeys |- *. intros r Hr.
    destruct (wstep_held _ _ _ _ _ _ Hstep Hheap Hr) as [(r' & Hr' & ->)|]; auto.
Qed.

(** A retry taken off the queue is out of reach of [DequeueAll]: a request which
    fails again after every request of its key was dequeued is back in the queue. *)
Theorem DequeueAll_misses_running p i policy req err σ σ1 now σ2 w :
  shard p (Key req) = i → RetryFunc req σ = ((None, Some err), σ1) →
  (policy err (Attempt req + 1)%Z).1 = true → Now σ1 = (now, σ2) →
  ∃ w', rtc (wstep p i (Some policy)) (mkWState w (Executing [] [req]) σ) (mkWState w' Waiting σ2) ∧
    ∃ r, r ∈ queue w' ∧ Key r = Key req ∧ Attempt r = (Attempt req + 1)%Z ∧
         queue w' ≡ₚ r :: filter (λ r, negb (bool_decide (Key r = Key req) && true)) (queue w).
Proof.
  intros Hi Hrun Hpol Hnow.
  set (w1 := worker_dequeue (λ r, bool_decide (Key r = Key req) && true) w).
  destruct (policy err (Attempt req + 1)%Z) as [ok after] eqn:Ep. simpl in Hpol. subst ok.
  set (r := mkRetryRequest (Key req) (now + after)%Z (RetryFunc req) (Attempt req + 1)%Z
              (Action req) (RObject req) (Some err)).
  exists (push_queue r w1). split.
  - eapply rtc_l; [apply (step_dequeue _ _ _ _ _ _ (Key req) (λ _, true)); done|].
    eapply rtc_l; [by apply step_exec|]. simpl.
    apply rtc_once, step_requeue. simpl. unfold bind, requeue_one. simpl.
    rewrite Ep. unfold bind. by rewrite Hnow.
  - exists r. assert (Hq : queue (push_queue r w1) ≡ₚ
      r :: filter (λ r, negb (bool_decide (Key r = Key req) && true)) (queue w)).
    { simpl. etrans; [apply Push_perm|]. apply perm_skip, worker_dequeue_perm. }
    rewrite Hq. repeat split; [by left | done].
Qed.
Lemma budget_perm m q q' : q ≡ₚ q' → budget (W := W) m q = budget m q'.
Proof. intros Hq. unfold budget. by rewrite Hq. Qed.

Lemma exec_ready_results (ready : list (RetryRequest W)) σ :
  Forall never_requeues ready →
  Forall (λ res, res_requeue res = None ∧ never_requeues (res_req res)) (exec_ready ready σ).1.
Proof.
  revert σ. induction ready as [|req ready IH]; intros σ; inversion_clear 1 as [|?? Hr Hrs].
  { constructor. }
  simpl. unfold bind. pose proof (Hr σ) as Hσ.
  destruct (RetryFunc req σ) as [[requeue err] σ1] eqn:E.
  specialize (IH σ1 Hrs). destruct (exec_ready ready σ1) as [rest σ2].
  by repeat constructor.
Qed.

(** Under back-off every request put back has a smaller budget than the one it was. *)
Lemma requeue_list_budget ovf d m results σ :
  Forall (λ res, res_requeue res = None ∧ never_requeues (res_req res)) results →
  let again := (requeue_list (Some (ExponentialBackoffRetryPolicy ovf d m)) results σ).1 in
  length results + budget (W := W) m again ≤ budget m (map res_req results) ∧
  Forall never_requeues again.
Proof.
  revert σ. induction results as [|res results IH]; intros σ.
  { intros _. by split. }
  inversion_clear 1 as [|?? [Hnone Hnever] Hres]. cbn [requeue_list]. unfold bind.
  destruct (requeue_one _ res σ) as [o σ1] eqn:Eo. specialize (IH σ1 Hres). simpl in IH.
  destruct (requeue_list _ results σ1) as [rest σ2]. simpl in *.
  destruct IH as [IHb IHn]. unfold requeue_one in Eo. rewrite Hnone in Eo. cbv [ret bind] in Eo.
  destruct (res_err res) as [err|]; [|simplify_eq/=; split; [lia|done]].
  destruct (ExponentialBackoffRetryPolicy ovf d m err (Attempt (res_req res) + 1)%Z)
    as [[] after] eqn:Ep; [|simplify_eq/=; split; [lia|done]].
  destruct (Now σ) as [now σ']. simplify_eq/=.
  assert (Hle : (Attempt (res_req res) + 1 ≤ m)%Z).
  { apply (ExponentialBackoff_ok_iff ovf d m err). by rewrite Ep. }
  simpl. split; [lia | by constructor].
Qed.

Lemma processReady_budget ovf d m w σ :
  heap_ok RetryAfter (queue w) → Forall never_requeues (queue w) →
  let policy := Some (ExponentialBackoffRetryPolicy ovf d m) in
  let w' := (processReady policy w σ).1 in
  length (pop_ready (length (queue w)) (Now σ).1 (queue w)).1 + budget m (queue w') ≤
    budget m (queue w) ∧
  heap_ok RetryAfter (queue w') ∧ Forall never_requeues (queue w').
Proof.
  intros Hw Hn policy. destruct (processReady policy w σ) as [w' σ'] eqn:Ew. cbn [fst].
  unfold processReady, bind in Ew. destruct (Now σ) as [now σ0]. cbn [fst].
  destruct (pop_ready (length (queue w)) now (queue w)) as [ready late] eqn:E.
  apply pop_ready_spec in E as (Hl & Hp & _); [|done|done]. cbn [fst].
  rewrite <- Hp, Forall_app in Hn. destruct Hn as [Hnr Hnl].
  rewrite <- (budget_perm m _ _ Hp).
  assert (Hb : ∀ q1 q2, budget m (q1 ++ q2) = budget (W := W) m q1 + budget m q2).
  { intros q1 q2. apply sum_list_with_app. }
  destruct ready as [|r0 ready]; [injection Ew as <- <-; simpl; split; [lia | by split]|].
  pose proof (exec_ready_results (r0 :: ready) σ0 Hnr) as Hres.
  pose proof (exec_ready_reqs (r0 :: ready) σ0) as Hreqs.
  destruct (exec_ready (r0 :: ready) σ0) as [results σ1]. cbn [fst] in *.
  pose proof (requeue_all_list policy results (set_queue late w) σ1) as Hall.
  rewrite Ew in Hall.
  pose proof (requeue_list_budget ovf d m results σ1 Hres) as [Hlen Hag].
  fold policy in Hlen, Hag. destruct (requeue_list policy results σ1) as [again σ3].
  destruct Hall as (_ & Hq & Hh). cbn [fst set_queue queue] in *.
  assert (Hq' : budget m (queue w') = budget m (again ++ late)) by (by apply budget_perm).
  rewrite Hq', !Hb. rewrite <- Hreqs, length_map in *.
  split; [lia|]. split; [by apply Hh|]. rewrite Hq. by apply Forall_app.
Qed.

(** C36: Retries end: if no retry asks to be re-queued, a worker under exponential
    back-off runs at most [maxAttempts + 2 - attempt] retries per queued request, over
    any number of passes. *)
Theorem retries_bounded ovf d m n w σ :
  heap_ok RetryAfter (queue w) → Forall never_requeues (queue w) →
  (passes n (Some (ExponentialBackoffRetryPolicy ovf d m)) w σ).1.1 ≤ budget m (queue w).
Proof.
  intros Hw Hn. assert (Hgen :
    (passes n (Some (ExponentialBackoffRetryPolicy ovf d m)) w σ).1.1 +
    budget m (queue (passes n (Some (ExponentialBackoffRetryPolicy ovf d m)) w σ).1.2)
    ≤ budget m (queue w)); [|lia].
  revert w σ Hw Hn. induction n as [|n IH]; intros w σ Hw Hn; cbn [passes]; [done|].
  unfold bind, gets. pose proof (processReady_budget ovf d m w σ Hw Hn) as (Hb & Hh & Hn').
  destruct (processReady _ w σ) as [w' σ']. cbn [fst] in *.
  specialize (IH w' σ' Hh Hn'). destruct (passes n _ w' σ') as [[runs w''] σ''].
  simpl in *. lia.
Qed.
End Properties.

(** ** Witnesses *)

(** A retry that always fails, and a processor with two of them. *)
Definition failing (key : string) (after : Z) : RetryRequest TestWorld :=
  mkRetryRequest key after (λ σ, ((None, Some (ErrorString "boom")), note key σ)) 0
    ResourceActionCreate 0 None.

Definition sample_processor : defaultRetryProcessor TestWorld :=
  Enqueue (failing "abc" 50) (Enqueue (failing "x" 300) (NewRetryProcessor (mkRetryProcessorConfig 0 0))).

Definition sample_worker : retryWorker TestWorld :=
  worker_enqueue (failing "x" 50) (worker_enqueue (failing "y" 300)
    (worker_enqueue (failing "z" 20) (mkRetryWorker [] false Second))).

Lemma sample_worker_heap : heap_ok RetryAfter (queue sample_worker).
Proof. repeat apply worker_enqueue_heap. apply heap_ok_nil. Qed.

Lemma new_processor_wf : processor_wf (W := TestWorld) (NewRetryProcessor (mkRetryProcessorConfig 0 0)).
Proof.
  split; [done|]. split; [done|]. intros i w [-> _]%lookup_replicate.
  split; [apply heap_ok_nil | constructor].
Qed.

Lemma processReady_correct_witness :
  heap_ok RetryAfter (queue (processReady None sample_worker test_world).1).
Proof.
  pose proof (processReady_correct None sample_worker test_world sample_worker_heap) as H.
  destruct (Now test_world) as [now σ0].
  destruct (processReady None sample_worker test_world) as [w' σ'].
  destruct H as (ready & late & _ & _ & _ & _ & H).
  destruct (exec_ready ready σ0) as [results σ1].
  destruct (requeue_list None results σ1) as [again σ2].
  exact (proj2 (proj2 H)).
Defined.

Lemma processor_operations_witness :
  let p : defaultRetryProcessor TestWorld := NewRetryProcessor (mkRetryProcessorConfig 0 0) in
  Len (Enqueue (failing "x" 5) p) = 1 ∧ pending (Dequeue "x" (Some (λ _, true)) p) ≡ₚ [].
Proof.
  intros p. destruct (processor_operations p new_processor_wf) as (H1 & H2 & _). split.
  - destruct (H1 (failing "x" 5)) as (_ & H & _). exact H.
  - destruct (H2 "x"%string (λ _, true)) as [H _]. exact H.
Defined.

Lemma worker_inv_reachable_witness :
  worker_inv sample_processor 1
    (mkWState (worker_enqueue (failing "x" 5) (mkRetryWorker [] false Second)) Waiting test_world).
Proof.
  apply (worker_inv_reachable sample_processor 1 None
    (mkWState (mkRetryWorker [] false Second) Waiting test_world)).
  - split; [apply heap_ok_nil | constructor].
  - apply rtc_once, step_enqueue. vm_compute. reflexivity.
Defined.

Lemma DequeueAll_misses_running_witness :
  ∃ w', ∃ r, r ∈ queue (W := TestWorld) w' ∧ Key r = "x"%string.
Proof.
  destruct (DequeueAll_misses_running sample_processor 1 (ExponentialBackoffRetryPolicy 0 Second 5)
    (failing "x" 5) (ErrorString "boom") test_world (note "x" test_world) 100
    (mkTestWorld 101 ∅ ["x"%string]) (mkRetryWorker [] false Second)) as (w' & _ & r & Hr & Hk & _);
    [vm_compute; reflexivity | reflexivity | reflexivity | reflexivity |].
  exists w', r. exact (conj Hr Hk).
Defined.

Lemma retries_bounded_witness :
  (passes 9 (Some (ExponentialBackoffRetryPolicy 0 Second 2)) sample_worker test_world).1.1 ≤ 12.
Proof.
  apply (retries_bounded 0 Second 2 9 sample_worker test_world sample_worker_heap).
  repeat constructor.
Defined.
