(* ===== verification/Finalizers.v ===== *)
(** * Finalizer updates ([operator/finalizers.go])

    [finalizerUpdater] changes an object's finalizer list with JSON patches and
    retries on conflicts.  The client is a parameter, as is the world it acts on; an
    object passed by pointer is a reference read in the current state. *)
From S2P Require Import Prelude Resource Concrete RetryPolicy.


(** [PatchClient] *)
Record PatchClient (W : Type) := mkPatchClient {
  PatchInto : Identifier → PatchRequest → PatchOptions → Ref → M W (option GoError);
  GetInto : Identifier → Ref → M W (option GoError);
}.
Arguments PatchInto {W}.
Arguments GetInto {W}.

(** [FinalizerUpdater], the interface. *)
Record FinalizerUpdater (W : Type) := mkFinalizerUpdater {
  AddFinalizer : Ref → string → M W (option GoError);
  ReplaceFinalizer : Ref → string → string → M W (option GoError);
  RemoveFinalizer : Ref → string → M W (option GoError);
}.
Arguments AddFinalizer {W}.
Arguments ReplaceFinalizer {W}.
Arguments RemoveFinalizer {W}.

(** [slices.Contains] *)
Definition Contains (l : list string) (x : string) : bool := bool_decide (x ∈ l).

(** [slices.Index], for an element that is in the list. *)
Fixpoint Index (l : list string) (x : string) : nat :=
  match l with
  | [] => 0
  | y :: l => if bool_decide (x = y) then 0 else S (Index l x)
  end.

Section Finalizers.
Context {W : Type} `{WW : !World W} `{AE : !ApiErrors} (client : PatchClient W).

(** The operation every patch ends with: the resource version it is based on. *)
Definition op_resourceVersion (o : Object) : PatchOperation :=
  mkPatchOperation "/metadata/resourceVersion" PatchOpReplace (PVString (GetResourceVersion o)).

(** [o.client.PatchInto(...)] and the wrapping of its error. *)
Definition patch_object (object : Ref) (req : PatchRequest) : M W (option GoError) :=
  let* o := gets (deref object) in
  let* err := PatchInto client (StaticMetadata_Identifier (GetStaticMetadata o)) req
                PatchOptions_zero object in
  match err with
  | Some e => ret (Some (NewFinalizerOperationError e req))
  | None => ret None
  end.

(** The patch [doAddFinalizer] sends for the object's current state. *)
Definition add_request (o : Object) (finalizer : string) : PatchRequest :=
  if 0 <? length (GetFinalizers o) then
    mkPatchRequest [mkPatchOperation "/metadata/finalizers/-" PatchOpAdd (PVString finalizer);
                    op_resourceVersion o]
  else
    mkPatchRequest [mkPatchOperation "/metadata/finalizers" PatchOpAdd (PVStrings [finalizer]);
                    op_resourceVersion o].

(** [doAddFinalizer] *)
Definition doAddFinalizer (object : Ref) (finalizer : string) : M W (option GoError) :=
  let* o := gets (deref object) in
  if Contains (GetFinalizers o) finalizer then ret None
  else patch_object object (add_request o finalizer).

(** The list [doRemoveFinalizer] builds: all finalizers but the one to remove. *)
Definition without (finalizer : string) (l : list string) : list string :=
  filter (λ f, f ≠ finalizer) l.

(** [doRemoveFinalizer] *)
Definition doRemoveFinalizer (object : Ref) (finalizer : string) : M W (option GoError) :=
  let* o := gets (deref object) in
  if negb (Contains (GetFinalizers o) finalizer) then ret None
  else patch_object object
    (mkPatchRequest [mkPatchOperation "/metadata/finalizers" PatchOpReplace
                       (PVStrings (without finalizer (GetFinalizers o)));
                     op_resourceVersion o]).

(** [doReplaceFinalizer] *)
Definition doReplaceFinalizer (object : Ref) (toReplace replaceWith : string)
  : M W (option GoError) :=
  let* o := gets (deref object) in
  let finalizers := GetFinalizers o in
  if Contains finalizers replaceWith then
    if Contains finalizers toReplace then doRemoveFinalizer object toReplace else ret None
  else if negb (Contains finalizers toReplace) then
    (* "toReplace already removed, just add replaceWith" *)
    doAddFinalizer object toReplace
  else patch_object object
    (mkPatchRequest [mkPatchOperation ("/metadata/finalizers/" +:+ pretty (Index finalizers toReplace))
                       PatchOpReplace (PVString replaceWith);
                     op_resourceVersion o]).

(** [jitter] *)
Definition jitter (unit max : Z) : M W Z :=
  let* r := RandIntn max in ret (wrap64 (r * unit)).

(** The loop the three methods share: while the error is a conflict and fewer than
    three retries were made, wait, fetch the object again and repeat.  [retries] is
    [3 - attempts]. *)
Fixpoint conflict_loop (retries : nat) (attempts : Z) (object : Ref)
    (doit : M W (option GoError)) (err : option GoError) : M W (option GoError) :=
  match retries, err with
  | S retries, Some e =>
      if IsConflict e then
        let* j := jitter Millisecond 500 in
        Sleep (wrap64 (Second * attempts + j)) ;;;
        let* o := gets (deref object) in
        let* gerr := GetInto client (StaticMetadata_Identifier (GetStaticMetadata o)) object in
        match gerr with
        | Some ge => ret (Some (WrapError "unable to get updated object to add finalizer: " ge))
        | None =>
            let* err := doit in
            conflict_loop retries (attempts + 1) object doit err
        end
      else ret err
  | _, _ => ret err
  end.

Definition retry_on_conflict (object : Ref) (doit : M W (option GoError)) : M W (option GoError) :=
  let* err := doit in conflict_loop 3 0 object doit err.

(** [newFinalizerUpdater] and the methods [AddFinalizer], [ReplaceFinalizer] and
    [RemoveFinalizer] of what it returns. *)
Definition newFinalizerUpdater : FinalizerUpdater W := {|
  AddFinalizer object finalizer :=
    retry_on_conflict object (doAddFinalizer object finalizer);
  ReplaceFinalizer object toReplace replaceWith :=
    retry_on_conflict object (doReplaceFinalizer object toReplace replaceWith);
  RemoveFinalizer object finalizer :=
    retry_on_conflict object (doRemoveFinalizer object finalizer);
|}.
End Finalizers.

(** ** What a JSON patch does to a finalizer list *)

(** RFC 6902 on the operations the updater sends, for the finalizer list alone. *)
Inductive finalizers_op : PatchOperation → list string → list string → Prop :=
| fop_add l0 l :
    finalizers_op (mkPatchOperation "/metadata/finalizers" PatchOpAdd (PVStrings l)) l0 l
| fop_append l0 f :
    finalizers_op (mkPatchOperation "/metadata/finalizers/-" PatchOpAdd (PVString f)) l0 (l0 ++ [f])
| fop_replace l0 l :
    finalizers_op (mkPatchOperation "/metadata/finalizers" PatchOpReplace (PVStrings l)) l0 l
| fop_replace_at l0 (i : nat) f :
    i < length l0 →
    finalizers_op (mkPatchOperation ("/metadata/finalizers/" +:+ pretty i) PatchOpReplace (PVString f))
      l0 (<[i := f]> l0)
| fop_resourceVersion l0 v :
    finalizers_op (mkPatchOperation "/metadata/resourceVersion" PatchOpReplace (PVString v)) l0 l0.

Inductive finalizers_ops : list PatchOperation → list string → list string → Prop :=
| fops_nil l : finalizers_ops [] l l
| fops_cons op ops l0 l1 l2 :
    finalizers_op op l0 l1 → finalizers_ops ops l1 l2 → finalizers_ops (op :: ops) l0 l2.

(** What the operator relies on in the API server behind the client: a patch that
    names the resource version the caller holds succeeds only on that very version,
    and the object it returns has the patched finalizers. *)
Class PatchesFinalizers {W} `{!World W} (client : PatchClient W) :=
  patches_finalizers : ∀ id req object σ σ',
    op_resourceVersion (deref object σ) ∈ pr_Operations req →
    PatchInto client id req PatchOptions_zero object σ = (None, σ') →
    finalizers_ops (pr_Operations req) (GetFinalizers (deref object σ))
      (GetFinalizers (deref object σ')).

(** ** Lemmas *)

Section Lemmas.
Context {W : Type} `{WW : !World W} `{AE : !ApiErrors} (client : PatchClient W).

Lemma Contains_spec l x : Contains l x = true ↔ x ∈ l.
Proof. apply bool_decide_eq_true. Qed.

Lemma Index_lt l x : x ∈ l → Index l x < length l.
Proof.
  induction l as [|y l IH]; [by intros ?%not_elem_of_nil|]. simpl.
  rewrite elem_of_cons. case_bool_decide; [lia|]. intros [->|Hx]; [done|]. specialize (IH Hx). lia.
Qed.

Lemma Index_lookup l x : x ∈ l → l !! Index l x = Some x.
Proof.
  induction l as [|y l IH]; [by intros ?%not_elem_of_nil|]. simpl.
  rewrite elem_of_cons. case_bool_decide; [by subst|]. by intros [->|Hx]; auto.
Qed.

(** A property of the object established by every successful [doit] holds after a
    successful run of the retry loop. *)
Lemma retry_on_conflict_post object doit (P : Object → Prop) σ σ' :
  (∀ σ1 σ2, doit σ1 = (None, σ2) → P (deref object σ2)) →
  retry_on_conflict client object doit σ = (None, σ') → P (deref object σ').
Proof.
  intros Hdo. unfold retry_on_conflict, bind at 1. destruct (doit σ) as [err σ1] eqn:E.
  assert (Herr : err = None → P (deref object σ1)) by (intros ->; eauto).
  clear E. generalize 3 0%Z. intros n attempts.
  revert attempts err σ1 Herr. induction n as [|n IH]; intros attempts err σ1 Herr; simpl.
  - unfold ret. intros [= -> ->]. auto.
  - destruct err as [e|]; [|unfold ret; intros [= ->]; auto].
    destruct (IsConflict e); [|done]. unfold jitter, bind, gets, ret.
    destruct (RandIntn 500 σ1) as [j σ2]. 
    match goal with |- context [Sleep ?d σ2] => destruct (Sleep d σ2) as [[] σ3] end.
    cbv beta iota. match goal with |- context [GetInto client ?i object σ3] =>
      destruct (GetInto client i object σ3) as [[ge|] σ4]; [done|] end.
    destruct (doit σ4) as [err σ5] eqn:E. intros Hrun. eapply IH; [|done]. intros ->. eauto.
Qed.

Context `{PF : !PatchesFinalizers client}.

Lemma patch_object_ops object ops σ σ' :
  patch_object client object (mkPatchRequest (ops ++ [op_resourceVersion (deref object σ)])) σ
    = (None, σ') →
  finalizers_ops (ops ++ [op_resourceVersion (deref object σ)])
    (GetFinalizers (deref object σ)) (GetFinalizers (deref object σ')).
Proof.
  unfold patch_object, bind, gets, ret.
  match goal with |- context [PatchInto client ?i ?r ?opt object σ] =>
    destruct (PatchInto client i r opt object σ) as [[e|] σ1] eqn:E; [done|] end.
  intros [= <-].
  eapply patches_finalizers in E; [done|]. simpl. apply elem_of_app. right. by left.
Qed.

(** Adding a finalizer that is missing puts it at the end; nothing else changes. *)
Lemma doAddFinalizer_spec object f σ σ' :
  doAddFinalizer client object f σ = (None, σ') →
  let l := GetFinalizers (deref object σ) in
  GetFinalizers (deref object σ') = if Contains l f then l else l ++ [f].
Proof.
  unfold doAddFinalizer, bind at 1, gets. cbn zeta.
  destruct (Contains (GetFinalizers (deref object σ)) f) eqn:Ec; [by intros [= <-]|].
  unfold add_request. destruct (Nat.ltb_spec 0 (length (GetFinalizers (deref object σ)))) as [Hl|Hl].
  - intros E%(patch_object_ops _ [_]). inversion E as [|? ? ? l1 ? H1 H2]; subst.
    inversion H1; subst. by inversion H2 as [|? ? ? l2 ? H3 H4]; inversion H3; inversion H4; subst.
  - intros E%(patch_object_ops _ [_]). inversion E as [|? ? ? l1 ? H1 H2]; subst.
    inversion H1; subst. destruct (GetFinalizers (deref object σ)); [|simpl in Hl; lia].
    by inversion H2 as [|? ? ? l2 ? H3 H4]; inversion H3; inversion H4; subst.
Qed.

Lemma doRemoveFinalizer_spec object f σ σ' :
  doRemoveFinalizer client object f σ = (None, σ') →
  GetFinalizers (deref object σ') = without f (GetFinalizers (deref object σ)).
Proof.
  unfold doRemoveFinalizer, bind at 1, gets.
  destruct (Contains (GetFinalizers (deref object σ)) f) eqn:Ec; simpl.
  - intros E%(patch_object_ops _ [_]). inversion E as [|? ? ? l1 ? H1 H2]; subst.
    inversion H1; subst.
    by inversion H2 as [|? ? ? l2 ? H3 H4]; inversion H3; inversion H4; subst.
  - intros [= <-]. symmetry. apply filter_all, Forall_forall. intros x Hx ->.
    apply bool_decide_eq_false in Ec. done.
Qed.
End Lemmas.

(** ** Properties *)

Section Properties.
Context {W : Type} `{WW : !World W} `{AE : !ApiErrors} (client : PatchClient W).

Lemma retry_on_conflict_done object doit σ err σ' :
  doit σ = (err, σ') → (∀ e, err = Some e → IsConflict e = false) →
  retry_on_conflict client object doit σ = (err, σ').
Proof.
  intros E Hc. unfold retry_on_conflict, bind. rewrite E. simpl.
  destruct err as [e|]; [|done]. by rewrite (Hc e eq_refl).
Qed.

(** C35: No method makes more than four patch requests: whatever counts the requests
    (a patch adds at most one, the other client calls none) has grown by at most four
    when the method returns. *)
Theorem finalizer_requests_bounded (count : W → nat) object :
  (∀ id req opts σ, count (PatchInto client id req opts object σ).2 ≤ S (count σ)) →
  (∀ id σ, count (GetInto client id object σ).2 = count σ) →
  (∀ d σ, count (Sleep d σ).2 = count σ) → (∀ n σ, count (RandIntn n σ).2 = count σ) →
  ∀ f g σ,
    count ((AddFinalizer (newFinalizerUpdater client) object f σ).2) ≤ 4 + count σ ∧
    count ((RemoveFinalizer (newFinalizerUpdater client) object f σ).2) ≤ 4 + count σ ∧
    count ((ReplaceFinalizer (newFinalizerUpdater client) object f g σ).2) ≤ 4 + count σ.
Proof.
  intros Hpatch Hget Hsleep Hrand f g σ.
  assert (Hobj : ∀ req σ0, count (patch_object client object req σ0).2 ≤ S (count σ0)).
  { intros req σ0. unfold patch_object, bind, gets, ret.
    match goal with |- context [PatchInto client ?i ?r ?o object σ0] =>
      specialize (Hpatch i r o σ0); destruct (PatchInto client i r o object σ0) as [[e|] σ1] end; done. }
  assert (Hadd : ∀ x σ0, count (doAddFinalizer client object x σ0).2 ≤ S (count σ0)).
  { intros x σ0. unfold doAddFinalizer, bind, gets. case_match; [simpl; lia | apply Hobj]. }
  assert (Hrem : ∀ x σ0, count (doRemoveFinalizer client object x σ0).2 ≤ S (count σ0)).
  { intros x σ0. unfold doRemoveFinalizer, bind, gets. case_match; [simpl; lia | apply Hobj]. }
  assert (Hrep : ∀ x y σ0, count (doReplaceFinalizer client object x y σ0).2 ≤ S (count σ0)).
  { intros x y σ0. unfold doReplaceFinalizer, bind at 1, gets.
    repeat case_match; [apply Hrem | simpl; lia | apply Hadd | apply Hobj]. }
  assert (Hloop : ∀ doit n attempts err σ0, (∀ σ1, count (doit σ1).2 ≤ S (count σ1)) →
    count (conflict_loop client n attempts object doit err σ0).2 ≤ n + count σ0).
  { intros doit n. induction n as [|n IH]; intros attempts err σ0 Hd; simpl; [done|].
    destruct err as [e|]; [|simpl; lia]. destruct (IsConflict e); [|simpl; lia].
    unfold jitter, bind, gets, ret. pose proof (Hrand 500%Z σ0) as H1.
    destruct (RandIntn 500 σ0) as [j σ1]. cbv beta iota.
    match goal with |- context [Sleep ?d σ1] =>
      pose proof (Hsleep d σ1) as H2; destruct (Sleep d σ1) as [[] σ2] end.
    cbv beta iota. match goal with |- context [GetInto client ?i object σ2] =>
      pose proof (Hget i σ2) as H3; destruct (GetInto client i object σ2) as [[ge|] σ3] end;
      simpl in *; [lia|].
    pose proof (Hd σ3) as H4. destruct (doit σ3) as [err σ4]. simpl in H4.
    specialize (IH (attempts + 1)%Z err σ4 Hd). lia. }
  assert (Hretry : ∀ doit σ0, (∀ σ1, count (doit σ1).2 ≤ S (count σ1)) →
    count (retry_on_conflict client object doit σ0).2 ≤ 4 + count σ0).
  { intros doit σ0 Hd. unfold retry_on_conflict, bind. pose proof (Hd σ0) as H1.
    destruct (doit σ0) as [err σ1]. simpl in H1. pose proof (Hloop doit 3 0%Z err σ1 Hd). lia. }
  simpl. auto.
Qed.

Context `{PF : !PatchesFinalizers client}.

(** After a successful [AddFinalizer] the object has the finalizer, whatever
    conflicts were met on the way. *)
Lemma AddFinalizer_post object f σ σ' :
  AddFinalizer (newFinalizerUpdater client) object f σ = (None, σ') →
  f ∈ GetFinalizers (deref object σ').
Proof.
  apply (retry_on_conflict_post client object _ (λ o, f ∈ GetFinalizers o)).
  intros σ1 σ2 ->%doAddFinalizer_spec; [|done].
  destruct (Contains _ f) eqn:E; [by apply Contains_spec|]. apply elem_of_app. right. by left.
Qed.

(** After a successful [RemoveFinalizer] the object does not have the finalizer. *)
Lemma RemoveFinalizer_post object f σ σ' :
  RemoveFinalizer (newFinalizerUpdater client) object f σ = (None, σ') →
  f ∉ GetFinalizers (deref object σ').
Proof.
  apply (retry_on_conflict_post client object _ (λ o, f ∉ GetFinalizers o)).
  intros σ1 σ2 ->%doRemoveFinalizer_spec; [|done].
  unfold without. rewrite list_elem_of_filter. tauto.
Qed.

(** A successful [AddFinalizer] leaves the object with the finalizer and a successful
    [RemoveFinalizer] leaves it without, whatever conflicts were met on the way; when
    there were none, the other finalizers and their order are what they were. *)
Theorem finalizer_updates_effective object f σ σ' :
  let l := GetFinalizers (deref object σ) in
  let l' := GetFinalizers (deref object σ') in
  (AddFinalizer (newFinalizerUpdater client) object f σ = (None, σ') → f ∈ l') ∧
  (RemoveFinalizer (newFinalizerUpdater client) object f σ = (None, σ') → f ∉ l') ∧
  (doAddFinalizer client object f σ = (None, σ') →
     AddFinalizer (newFinalizerUpdater client) object f σ = (None, σ') ∧
     l' = if Contains l f then l else l ++ [f]) ∧
  (doRemoveFinalizer client object f σ = (None, σ') →
     RemoveFinalizer (newFinalizerUpdater client) object f σ = (None, σ') ∧
     l' = filter (λ x, x ≠ f) l).
Proof.
  split; [apply AddFinalizer_post|]. split; [apply RemoveFinalizer_post|].
  split; intros E; (split; [by apply retry_on_conflict_done|]).
  - by apply doAddFinalizer_spec in E.
  - by apply doRemoveFinalizer_spec in E.
Qed.

Lemma doReplaceFinalizer_spec object a b σ σ' :
  doReplaceFinalizer client object a b σ = (None, σ') →
  let l := GetFinalizers (deref object σ) in
  GetFinalizers (deref object σ') =
    if Contains l b then without a l
    else if Contains l a then <[Index l a := b]> l
    else l ++ [a].
Proof.
  unfold doReplaceFinalizer, bind at 1, gets. cbn zeta.
  destruct (Contains (GetFinalizers (deref object σ)) b) eqn:Eb.
  { destruct (Contains (GetFinalizers (deref object σ)) a) eqn:Ea.
    - by intros E%doRemoveFinalizer_spec.
    - intros [= <-]. symmetry. apply filter_all, Forall_forall. intros x Hx ->.
      by apply bool_decide_eq_false in Ea. }
  destruct (Contains (GetFinalizers (deref object σ)) a) eqn:Ea; cbn [negb].
  - intros E%(patch_object_ops client _ [_]). inversion E as [|? ? ? l1 ? H1 H2]; subst.
    inversion H1 as [| | |l0 i f Hi Hpath|]; subst; simplify_eq/=.
    inversion H2 as [|? ? ? l2 ? H3 H4]; inversion H3; inversion H4; by subst.
  - intros E%doAddFinalizer_spec; [|done]. by rewrite E, Ea.
Qed.

(** Replacing a finalizer the object has, with the other one missing, puts the new
    finalizer at the place of the old one and keeps the rest of the list. *)
Theorem ReplaceFinalizer_replaces object a b σ σ' :
  let l := GetFinalizers (deref object σ) in
  a ∈ l → b ∉ l → doReplaceFinalizer client object a b σ = (None, σ') →
  ReplaceFinalizer (newFinalizerUpdater client) object a b σ = (None, σ') ∧
  ∃ pre post, l = pre ++ a :: post ∧
    GetFinalizers (deref object σ') = pre ++ b :: post.
Proof.
  intros l Ha Hb E. split; [by apply retry_on_conflict_done|].
  apply doReplaceFinalizer_spec in E. cbn zeta in E. fold l in E.
  unfold Contains in E. rewrite bool_decide_eq_false_2, bool_decide_eq_true_2 in E by done.
  pose proof (Index_lookup l a Ha) as Hi. pose proof (Index_lt l a Ha) as Hlt.
  exists (take (Index l a) l), (drop (S (Index l a)) l).
  split; [by rewrite take_drop_middle|]. by rewrite E, insert_take_drop.
Qed.

(** When the object has neither finalizer, [ReplaceFinalizer] adds the finalizer it
    was asked to replace and not its replacement, and reports success. *)
Theorem ReplaceFinalizer_adds_the_wrong_one object a b σ σ' :
  let l := GetFinalizers (deref object σ) in
  a ≠ b → a ∉ l → b ∉ l → doReplaceFinalizer client object a b σ = (None, σ') →
  ReplaceFinalizer (newFinalizerUpdater client) object a b σ = (None, σ') ∧
  GetFinalizers (deref object σ') = l ++ [a] ∧ b ∉ GetFinalizers (deref object σ').
Proof.
  intros l Hab Ha Hb E. split; [by apply retry_on_conflict_done|].
  apply doReplaceFinalizer_spec in E. cbn zeta in E. fold l in E.
  unfold Contains in E. rewrite !bool_decide_eq_false_2 in E by done.
  rewrite E. split; [done|]. rewrite elem_of_app, list_elem_of_singleton. intuition congruence.
Qed.
End Properties.

(** ** A concrete client, and witnesses *)

(** Set an object's finalizers. *)
Definition set_finalizers (l : list string) (o : Object) : Object :=
  let c := GetCommonMetadata o in
  mkObject (GetStaticMetadata o)
    (mkCommonMetadata (cm_UID c) (cm_ResourceVersion c) (cm_Generation c) (cm_Labels c)
       (cm_CreationTimestamp c) (cm_DeletionTimestamp c) l (cm_UpdateTimestamp c)
       (cm_CreatedBy c) (cm_UpdatedBy c) (cm_ExtraFields c))
    (GetSpec o).

(** One operation on a finalizer list, [None] when it does not apply. *)
Definition test_apply (op : PatchOperation) (l : list string) : option (list string) :=
  match po_Operation op, po_Value op with
  | PatchOpAdd, PVStrings l' =>
      if bool_decide (po_Path op = "/metadata/finalizers"%string) then Some l' else None
  | PatchOpAdd, PVString f =>
      if bool_decide (po_Path op = "/metadata/finalizers/-"%string) then Some (l ++ [f]) else None
  | PatchOpReplace, PVStrings l' =>
      if bool_decide (po_Path op = "/metadata/finalizers"%string) then Some l' else None
  | PatchOpReplace, PVString f =>
      if bool_decide (po_Path op = "/metadata/resourceVersion"%string) then Some l
      else match filter (λ i : nat, po_Path op = "/metadata/finalizers/" +:+ pretty i)
                   (seq 0 (length l)) with
           | i :: _ => Some (<[i := f]> l)
           | [] => None
           end
  | _, _ => None
  end.

Fixpoint test_apply_all (ops : list PatchOperation) (l : list string) : option (list string) :=
  match ops with
  | [] => Some l
  | op :: ops => match test_apply op l with Some l' => test_apply_all ops l' | None => None end
  end.

(** An API server that holds exactly the objects the program sees. *)
Definition TestClient : PatchClient TestWorld := {|
  PatchInto _ req _ object σ :=
    match test_apply_all (pr_Operations req) (GetFinalizers (deref object σ)) with
    | Some l =>
        (None, note "patch" (mkTestWorld (tw_now σ)
                 (<[object := set_finalizers l (deref object σ)]> (tw_objects σ)) (tw_log σ)))
    | None => (Some (StatusError (mkStatus 422 "Invalid" "patch does not apply")), σ)
    end;
  GetInto _ _ σ := (None, σ);
|}.

Lemma test_apply_op op l l' : test_apply op l = Some l' → finalizers_op op l l'.
Proof.
  destruct op as [path kind value]. unfold test_apply. simpl.
  destruct kind, value; try done; repeat case_bool_decide; subst; try done;
    try (intros [= <-]; constructor).
  destruct (filter _ _) as [|i rest] eqn:E; [done|]. intros [= <-].
  assert (Hi : i ∈ filter (λ i : nat, path = "/metadata/finalizers/" +:+ pretty i)
    (seq 0 (length l))) by (rewrite E; by left).
  apply list_elem_of_filter in Hi as [-> Hi]. apply elem_of_seq in Hi. constructor. lia.
Qed.

#[export] Instance TestClient_patches : PatchesFinalizers TestClient.
Proof.
  intros id [ops] object σ σ' _. simpl.
  destruct (test_apply_all _ _) as [l|] eqn:E; [|done]. intros [= <-]. simpl.
  rewrite lookup_insert_eq. simpl. change (GetFinalizers (set_finalizers l _)) with l.
  revert E. generalize (GetFinalizers (default zeroObject (tw_objects σ !! object))).
  induction ops as [|o ops IH]; simpl; intros l0.
  { intros [= ->]. constructor. }
  destruct (test_apply o l0) as [l1|] eqn:E1; [|done]. intros E.
  econstructor; [by apply test_apply_op | by apply IH].
Qed.

(** A world with one object, at reference 0, with the given finalizers. *)
Definition world_with (l : list string) : TestWorld :=
  mkTestWorld 0 {[0 := set_finalizers l zeroObject]} [].

Lemma finalizer_requests_bounded_witness :
  length (tw_log (AddFinalizer (newFinalizerUpdater TestClient) 0 "a" (world_with [])).2) ≤ 4.
Proof.
  assert (H : ∀ id req opts σ,
    length (tw_log (PatchInto TestClient id req opts 0 σ).2) ≤ S (length (tw_log σ))).
  { intros id req opts σ. simpl. case_match; simpl; [rewrite length_app; simpl; lia | lia]. }
  assert (H1 : ∀ id (σ : TestWorld),
    length (tw_log (GetInto TestClient id 0 σ).2) = length (tw_log σ)) by done.
  assert (H2 : ∀ d (σ : TestWorld), length (tw_log (Sleep d σ).2) = length (tw_log σ)) by done.
  assert (H3 : ∀ n (σ : TestWorld), length (tw_log (RandIntn n σ).2) = length (tw_log σ)) by done.
  destruct (finalizer_requests_bounded TestClient (λ σ, length (tw_log σ)) 0 H H1 H2 H3
    "a" "b" (world_with [])) as (Hle & _).
  exact Hle.
Defined.

Lemma finalizer_updates_effective_witness :
  "a"%string ∈ GetFinalizers (deref 0
    (AddFinalizer (newFinalizerUpdater TestClient) 0 "a" (world_with ["b"%string])).2) ∧
  "a"%string ∉ GetFinalizers (deref 0
    (RemoveFinalizer (newFinalizerUpdater TestClient) 0 "a" (world_with ["b"; "a"]%string)).2).
Proof.
  split.
  - apply (finalizer_updates_effective TestClient 0 "a" (world_with ["b"%string])).
    vm_compute. reflexivity.
  - apply (finalizer_updates_effective TestClient 0 "a" (world_with ["b"; "a"]%string)).
    vm_compute. reflexivity.
Defined.

Lemma ReplaceFinalizer_replaces_witness :
  ∃ pre post, ["x"; "a"; "y"]%string = pre ++ "a"%string :: post.
Proof.
  destruct (ReplaceFinalizer_replaces TestClient 0 "a" "b" (world_with ["x"; "a"; "y"]%string)
    (doReplaceFinalizer TestClient 0 "a" "b" (world_with ["x"; "a"; "y"]%string)).2)
    as (_ & pre & post & H & _).
  - apply (bool_decide_unpack _). vm_compute. reflexivity.
  - apply (bool_decide_unpack _). vm_compute. reflexivity.
  - vm_compute. reflexivity.
  - exists pre, post. exact H.
Defined.

Lemma ReplaceFinalizer_adds_the_wrong_one_witness :
  GetFinalizers (deref 0 (doReplaceFinalizer TestClient 0 "wip" "done" (world_with ["x"%string])).2) =
  ["x"; "wip"]%string.
Proof.
  destruct (ReplaceFinalizer_adds_the_wrong_one TestClient 0 "wip" "done" (world_with ["x"%string])
    (doReplaceFinalizer TestClient 0 "wip" "done" (world_with ["x"%string])).2) as (_ & H & _).
  - discriminate.
  - apply (bool_decide_unpack _). vm_compute. reflexivity.
  - apply (bool_decide_unpack _). vm_compute. reflexivity.
  - vm_compute. reflexivity.
  - exact H.
Defined.
