(* ===== verification/ResourceWatcher.v ===== *)
(** * Watchers

    The [ResourceWatcher] interface of [operator/informer_controller.go] as a record
    of state-passing functions, and [SimpleWatcher] ([operator/simplewatcher.go]).
    A [resource.Object] of an interface value is a reference, [None] when nil. *)
From S2P Require Import Prelude Resource.

(** An interface value of type [resource.Object]. *)
Abbreviation Obj := (option Ref).

(** A registered prometheus collector, by identity. *)
Abbreviation Collector := nat (only parsing).

(** [ResourceWatcher]; [rw_PrometheusCollectors] is [Some] when the value also
    implements [metrics.Provider]. *)
Record ResourceWatcher (W : Type) := mkResourceWatcher {
  rw_Add : Obj → M W (option GoError);
  rw_Update : Obj → Obj → M W (option GoError);
  rw_Delete : Obj → M W (option GoError);
  rw_PrometheusCollectors : option (list Collector);
}.
Arguments mkResourceWatcher {W}.
Arguments rw_Add {W}.
Arguments rw_Update {W}.
Arguments rw_Delete {W}.
Arguments rw_PrometheusCollectors {W}.

(** ** [SimpleWatcher] *)

Record SimpleWatcher (W : Type) := mkSimpleWatcher {
  sw_AddFunc : option (Obj → M W (option GoError));
  sw_UpdateFunc : option (Obj → Obj → M W (option GoError));
  sw_DeleteFunc : option (Obj → M W (option GoError));
}.
Arguments mkSimpleWatcher {W}.
Arguments sw_AddFunc {W}.
Arguments sw_UpdateFunc {W}.
Arguments sw_DeleteFunc {W}.

(** Call a function field, or return nil when it is not set. *)
Definition call1 {W} (f : option (Obj → M W (option GoError))) (object : Obj)
  : M W (option GoError) :=
  match f with Some f => f object | None => ret None end.

Definition call2 {W} (f : option (Obj → Obj → M W (option GoError))) (src tgt : Obj)
  : M W (option GoError) :=
  match f with Some f => f src tgt | None => ret None end.

(** [SimpleWatcher.Add], [SimpleWatcher.Update] and [SimpleWatcher.Delete] *)
Definition SimpleWatcher_Add {W} (w : SimpleWatcher W) (object : Obj) : M W (option GoError) :=
  call1 (sw_AddFunc w) object.

Definition SimpleWatcher_Update {W} (w : SimpleWatcher W) (src tgt : Obj)
  : M W (option GoError) :=
  call2 (sw_UpdateFunc w) src tgt.

Definition SimpleWatcher_Delete {W} (w : SimpleWatcher W) (object : Obj)
  : M W (option GoError) :=
  call1 (sw_DeleteFunc w) object.

(** A [SimpleWatcher] as a [ResourceWatcher]; it exposes no collectors. *)
Definition SimpleWatcher_watcher {W} (w : SimpleWatcher W) : ResourceWatcher W :=
  mkResourceWatcher (SimpleWatcher_Add w) (SimpleWatcher_Update w) (SimpleWatcher_Delete w) None.
