(* ===== verification/Schema.v ===== *)
(** * Schemas and kinds ([resource/schema.go], [resource/kind.go])

    The interface [Schema] is a record of its methods; a pointer to an object or to a
    list object is a reference.  [Copy] of an object or of a list (code of the kind's
    own Go type), the name [reflect] gives that type, and the codecs are arguments. *)
From S2P Require Import Prelude Resource ResourceWatcher.

#[local] Open Scope string_scope.

(** [SchemaScope] *)
Abbreviation SchemaScope := string (only parsing).
Definition NamespacedScope : SchemaScope := "Namespaced".
Definition ClusterScope : SchemaScope := "Cluster".

(** [SelectableField] *)
Record SelectableField (W : Type) := mkSelectableField {
  FieldSelector : string;
  FieldValueFunc : Obj → M W (string * option GoError);
}.

(** The interface [Schema] *)
Record Schema (W : Type) := mkSchema {
  Group : string;
  Version : string;
  Kind_ : string;
  Plural : string;
  ZeroValue : M W Obj;
  ZeroListValue : M W Obj;
  Scope_ : SchemaScope;
  SelectableFields : list (SelectableField W);
}.
Arguments Group {W}.
Arguments Version {W}.
Arguments Kind_ {W}.
Arguments Plural {W}.
Arguments ZeroValue {W}.
Arguments ZeroListValue {W}.
Arguments Scope_ {W}.
Arguments SelectableFields {W}.

Record SimpleSchema (W : Type) := mkSimpleSchema {
  ss_group : string;
  ss_version : string;
  ss_kind : string;
  ss_plural : string;
  ss_scope : SchemaScope;
  ss_selectableFields : list (SelectableField W);
  ss_zero : Ref;
  ss_zeroList : Ref;
}.
Arguments mkSimpleSchema {W}.
Arguments ss_group {W}.
Arguments ss_version {W}.
Arguments ss_kind {W}.
Arguments ss_plural {W}.
Arguments ss_scope {W}.
Arguments ss_selectableFields {W}.
Arguments ss_zero {W}.
Arguments ss_zeroList {W}.

(** [strings.ToLower] on the bytes of an ASCII string. *)
Fixpoint ToLower (s : string) : string :=
  match s with
  | EmptyString => EmptyString
  | String c s =>
      let n := nat_of_ascii c in
      String (if ((65 <=? n) && (n <=? 90))%nat then ascii_of_nat (n + 32) else c) (ToLower s)
  end.

Section Schemas.
Context {W : Type} (Copy : Ref → M W Ref) (CopyList : Ref → M W Ref).

(** The methods of [SimpleSchema], which make it a [Schema]. *)
Definition SimpleSchema_schema (s : SimpleSchema W) : Schema W := {|
  Group := ss_group s;
  Version := ss_version s;
  Kind_ := ss_kind s;
  Plural := ss_plural s;
  ZeroValue := let* o := Copy (ss_zero s) in ret (Some o);
  ZeroListValue := let* l := CopyList (ss_zeroList s) in ret (Some l);
  Scope_ := ss_scope s;
  SelectableFields := ss_selectableFields s;
|}.

(** [SimpleSchemaOption] and the options *)
Definition SimpleSchemaOption := SimpleSchema W → SimpleSchema W.

Definition WithPlural (plural : string) : SimpleSchemaOption := λ s,
  mkSimpleSchema (ss_group s) (ss_version s) (ss_kind s) plural (ss_scope s)
    (ss_selectableFields s) (ss_zero s) (ss_zeroList s).

Definition WithKind (kind : string) : SimpleSchemaOption := λ s,
  mkSimpleSchema (ss_group s) (ss_version s) kind (ss_plural s) (ss_scope s)
    (ss_selectableFields s) (ss_zero s) (ss_zeroList s).

Definition WithScope (scope : SchemaScope) : SimpleSchemaOption := λ s,
  mkSimpleSchema (ss_group s) (ss_version s) (ss_kind s) (ss_plural s) scope
    (ss_selectableFields s) (ss_zero s) (ss_zeroList s).

Definition WithSelectableFields (fields : list (SelectableField W)) : SimpleSchemaOption := λ s,
  mkSimpleSchema (ss_group s) (ss_version s) (ss_kind s) (ss_plural s) (ss_scope s)
    fields (ss_zero s) (ss_zeroList s).

(** [NewSimpleSchema]; [typeName r] is the name of the Go type of the object, with
    its pointers removed. *)
Definition NewSimpleSchema (typeName : Ref → string) (group version : string)
    (zeroVal zeroList : Ref) (opts : list SimpleSchemaOption) : SimpleSchema W :=
  let s := foldl (λ s opt, opt s)
             (mkSimpleSchema group version "" "" "" [] zeroVal zeroList) opts in
  let s := if bool_decide (ss_kind s = "") then WithKind (typeName zeroVal) s else s in
  let s := if bool_decide (ss_scope s = "") then WithScope NamespacedScope s else s in
  if bool_decide (ss_plural s = "") then WithPlural (ToLower (ss_kind s) +:+ "s") s else s.

(** [SimpleSchemaGroup] *)
Record SimpleSchemaGroup := mkSimpleSchemaGroup {
  sg_group : string;
  sg_version : string;
  sg_schemas : list (SimpleSchema W);
}.

Definition NewSimpleSchemaGroup (group version : string) : SimpleSchemaGroup :=
  mkSimpleSchemaGroup group version [].

(** [SimpleSchemaGroup.AddSchema]: the schema and the group with it appended. *)
Definition AddSchema (typeName : Ref → string) (g : SimpleSchemaGroup) (zeroVal zeroList : Ref)
    (opts : list SimpleSchemaOption) : SimpleSchema W * SimpleSchemaGroup :=
  let s := NewSimpleSchema typeName (sg_group g) (sg_version g) zeroVal zeroList opts in
  (s, mkSimpleSchemaGroup (sg_group g) (sg_version g) (sg_schemas g ++ [s])).

(** ** [Kind] *)

(** [Codec]: [Read] from the bytes of a reader into an object, [Write] the bytes of
    an object. *)
Record Codec := mkCodec {
  codec_Read : string → Obj → M W (option GoError);
  codec_Write : Obj → M W (string * option GoError);
}.

(** [Kind]; [Schema] and the map may be nil, and so may a codec in it. *)
Record Kind := mkKind {
  k_Schema : option (Schema W);
  k_Codecs : option (gmap string (option Codec));
}.

(** [Kind.Codec] *)
Definition Kind_Codec (k : Kind) (encoding : string) : option Codec :=
  match k_Codecs k with
  | None => None
  | Some m => match m !! encoding with Some c => c | None => None end
  end.

Definition no_codec (encoding : string) : GoError :=
  ErrorString ("no codec for encoding '" +:+ encoding +:+ "'").

(** [Kind.Read]; [None] is the nil-pointer panic of a kind with a codec and no schema. *)
Definition Kind_Read (k : Kind) (input : string) (encoding : string)
  : M W (option (Obj * option GoError)) :=
  match Kind_Codec k encoding with
  | None => ret (Some (None, Some (no_codec encoding)))
  | Some codec =>
      match k_Schema k with
      | None => ret None
      | Some sch =>
          let* into := ZeroValue sch in
          let* err := codec_Read codec input into in
          match err with
          | Some e => ret (Some (None, Some e))
          | None => ret (Some (into, None))
          end
      end
  end.

(** [Kind.Write] *)
Definition Kind_Write (k : Kind) (obj : Obj) (encoding : string) : M W (string * option GoError) :=
  match Kind_Codec k encoding with
  | None => ret ("", Some (no_codec encoding))
  | Some codec => codec_Write codec obj
  end.

(** [Kind.GroupVersionKind] and [Kind.GroupVersionResource] *)
Definition GroupVersionKind (k : Kind) : string * string * string :=
  match k_Schema k with
  | None => ("", "", "")
  | Some s => (Group s, Version s, Kind_ s)
  end.

Definition GroupVersionResource (k : Kind) : string * string * string :=
  match k_Schema k with
  | None => ("", "", "")
  | Some s => (Group s, Version s, Plural s)
  end.

(** ** Properties *)

(** A new schema is the options applied to a blank schema of the group and version,
    with every field they leave empty given its default: the Go type's name for the
    kind, the namespaced scope, and the kind in lower case with an "s" for the plural;
    what an option set is kept. *)
Theorem NewSimpleSchema_defaults typeName group version zeroVal zeroList opts :
  let s0 := foldl (λ s opt, opt s) (mkSimpleSchema group version "" "" "" [] zeroVal zeroList) opts in
  let s := NewSimpleSchema typeName group version zeroVal zeroList opts in
  ss_kind s = (if bool_decide (ss_kind s0 = "") then typeName zeroVal else ss_kind s0) ∧
  ss_scope s = (if bool_decide (ss_scope s0 = "") then NamespacedScope else ss_scope s0) ∧
  ss_plural s = (if bool_decide (ss_plural s0 = "")
                 then ToLower (ss_kind s) +:+ "s" else ss_plural s0) ∧
  ss_plural s ≠ "" ∧ ss_scope s ≠ "" ∧
  ss_group s = ss_group s0 ∧ ss_version s = ss_version s0 ∧
  ss_selectableFields s = ss_selectableFields s0 ∧
  ss_zero s = ss_zero s0 ∧ ss_zeroList s = ss_zeroList s0.
Proof.
  cbv zeta. unfold NewSimpleSchema. generalize (foldl (λ s opt, opt s)
    (mkSimpleSchema group version "" "" "" [] zeroVal zeroList) opts). intros [g v k p sc sf z zl].
  cbn. repeat (case_bool_decide; cbn in *; subst; simplify_eq);
    repeat split; try done; try (destruct (ToLower _); done).
Qed.
End Schemas.
