(* ===== verification/OpinionatedWatcher.v ===== *)
(** * The opinionated watcher ([operator/opinionatedwatcher.go])

    [OpinionatedWatcher] turns the events of an informer into calls of four user
    handlers and updates of the object's finalizers.  The handlers, the client and the
    world are arguments.  [Add] and [Update] keep the slice of finalizers they read at the
    start and look into it again after their calls, which may have decoded the server's
    answer into the object, and so into the array of that slice: what the slice then holds
    is part of the model ([kept_finalizers]).  [Action] and the scripts are the specification:
    which calls an event makes, in which order, up to the first that fails. *)
From S2P Require Import Prelude Resource Concrete ResourceWatcher Schema Finalizers.

#[local] Open Scope string_scope.

Section OpinionatedWatcher.
Context {W : Type} `{WW : !World W} `{AE : !ApiErrors}.

Record OpinionatedWatcher := mkOpinionatedWatcher {
  AddFunc : option (Obj → M W (option GoError));
  UpdateFunc : option (Obj → Obj → M W (option GoError));
  DeleteFunc : option (Obj → M W (option GoError));
  SyncFunc : option (Obj → M W (option GoError));
  finalizer : string;
  addPendingFinalizer : string;
  schema : Schema W;
  collectors : list Collector;
  finalizerUpdater : FinalizerUpdater W;
}.

(** [FinalizerSupplier] and the two suppliers *)
Definition FinalizerSupplier := Schema W → string.

Definition DefaultFinalizerSupplier : FinalizerSupplier := λ sch,
  "operator." +:+ Version sch +:+ "." +:+ Kind_ sch +:+ "." +:+ Group sch.

Definition InProgressFinalizerSupplier : FinalizerSupplier := λ sch,
  "wip." +:+ Version sch +:+ "." +:+ Kind_ sch +:+ "." +:+ Group sch.

Record OpinionatedWatcherConfig := mkOpinionatedWatcherConfig {
  Finalizer : option FinalizerSupplier;
  InProgressFinalizer : option FinalizerSupplier;
}.

(** [NewOpinionatedWatcher]; a nil schema or client is [None]. *)
Definition NewOpinionatedWatcher (sch : option (Schema W)) (client : option (PatchClient W))
    (config : OpinionatedWatcherConfig) : OpinionatedWatcher + GoError :=
  match sch, client with
  | None, _ => inr (ErrorString "schema cannot be nil")
  | _, None => inr (ErrorString "client cannot be nil")
  | Some sch, Some client =>
      let finalizer := default DefaultFinalizerSupplier (Finalizer config) sch in
      if (63 <? String.length finalizer)%nat then
        inr (ErrorString ("finalizer length cannot exceed 63 chars: " +:+ finalizer))
      else
        let pendingAddFinalizer :=
          default InProgressFinalizerSupplier (InProgressFinalizer config) sch in
        if (63 <? String.length pendingAddFinalizer)%nat then
          inr (ErrorString ("in-progress finalizer length cannot exceed 63 chars: " +:+ finalizer))
        else
          inl {| AddFunc := None; UpdateFunc := None; DeleteFunc := None; SyncFunc := None;
                 finalizer := finalizer; addPendingFinalizer := pendingAddFinalizer;
                 schema := sch; collectors := [];
                 finalizerUpdater := newFinalizerUpdater client |}
  end.

(** [Wrap]; a nil watcher is [None]. *)
Definition Wrap (o : OpinionatedWatcher) (watcher : option (ResourceWatcher W))
    (syncToAdd : bool) : OpinionatedWatcher :=
  match watcher with
  | None => o
  | Some watcher =>
      {| AddFunc := Some (rw_Add watcher);
         UpdateFunc := Some (rw_Update watcher);
         DeleteFunc := Some (rw_Delete watcher);
         SyncFunc := if syncToAdd then Some (rw_Add watcher) else SyncFunc o;
         finalizer := finalizer o; addPendingFinalizer := addPendingFinalizer o;
         schema := schema o;
         collectors := collectors o ++ default [] (rw_PrometheusCollectors watcher);
         finalizerUpdater := finalizerUpdater o |}
  end.

(** [getFinalizers], called in the state [start], as it reads in the later states; a nil
    list is the empty one. *)
Definition getFinalizers (object : Ref) (start : W) : W → list string :=
  kept_finalizers object start.

(** [slices.Contains(finalizers, f)], at the time it is evaluated. *)
Definition holds (finalizers : W → list string) (f : string) : M W bool :=
  gets (λ σ, Contains (finalizers σ) f).

Definition addFunc (o : OpinionatedWatcher) := call1 (AddFunc o).
Definition updateFunc (o : OpinionatedWatcher) := call2 (UpdateFunc o).
Definition deleteFunc (o : OpinionatedWatcher) := call1 (DeleteFunc o).
Definition syncFunc (o : OpinionatedWatcher) := call1 (SyncFunc o).

(** [if err := m; err != nil { return fmt.Errorf(prefix + "%w", err) }] *)
Definition wrapping (prefix : string) (m : M W (option GoError)) : M W (option GoError) :=
  let* err := m in ret (WrapError prefix <$> err).

(** [if slices.Contains(finalizers, f) { o.finalizerUpdater.RemoveFinalizer(...) }] *)
Definition remove_held (o : OpinionatedWatcher) (obj : Ref) (finalizers : W → list string)
    (f : string) : M W (option GoError) :=
  let* held := holds finalizers f in
  if (held : bool) then RemoveFinalizer (finalizerUpdater o) obj f else ret None.

(** The part [Add] and [Update] share, for an object that is being deleted. *)
Definition handle_deleted (o : OpinionatedWatcher) (obj : Ref) (finalizers : W → list string)
  : M W (option GoError) :=
  let* hasFinalizer := holds finalizers (finalizer o) in
  let* hasPending := holds finalizers (addPendingFinalizer o) in
  if negb hasFinalizer && negb hasPending then ret None
  else
    deleteFunc o (Some obj) ;;?
    remove_held o obj finalizers (finalizer o) ;;?
    remove_held o obj finalizers (addPendingFinalizer o).

(** [Add] *)
Definition Add (o : OpinionatedWatcher) (object : Obj) : M W (option GoError) :=
  match object with
  | None => ret (Some (ErrorString "object cannot be nil"))
  | Some obj =>
      let* ob := gets (deref obj) in
      let* finalizers := gets (getFinalizers obj) in
      if bool_decide (GetDeletionTimestamp ob ≠ None) then handle_deleted o obj finalizers
      else
        let* hasFinalizer := holds finalizers (finalizer o) in
        if (hasFinalizer : bool) then
          syncFunc o object ;;?
          remove_held o obj finalizers (addPendingFinalizer o)
        else
          wrapping "error adding in-progress finalizer: "
            (AddFinalizer (finalizerUpdater o) obj (addPendingFinalizer o)) ;;?
          addFunc o object ;;?
          wrapping "error adding finalizer: "
            (ReplaceFinalizer (finalizerUpdater o) obj (addPendingFinalizer o) (finalizer o))
  end.

(** [Update] *)
Definition Update (o : OpinionatedWatcher) (src tgt : Obj) : M W (option GoError) :=
  match src, tgt with
  | None, _ => ret (Some (ErrorString "old cannot be nil"))
  | _, None => ret (Some (ErrorString "new cannot be nil"))
  | Some s, Some t =>
      let* so := gets (deref s) in
      let* to := gets (deref t) in
      if (0 <? GetGeneration to)%Z && (GetGeneration so =? GetGeneration to)%Z then ret None
      else
        let* oldFinalizers := gets (getFinalizers s) in
        let* newFinalizers := gets (getFinalizers t) in
        let* hasFinalizer := holds newFinalizers (finalizer o) in
        (if negb hasFinalizer && bool_decide (GetDeletionTimestamp to = None) then
           addFunc o tgt ;;?
           wrapping "error adding finalizer: "
             (ReplaceFinalizer (finalizerUpdater o) t (addPendingFinalizer o) (finalizer o))
         else ret None) ;;?
        (let* to' := gets (deref t) in
         if bool_decide (GetDeletionTimestamp to' ≠ None) then handle_deleted o t newFinalizers
         else
           let* hadFinalizer := holds oldFinalizers (finalizer o) in
           let* hasFinalizer := holds newFinalizers (finalizer o) in
           if negb hadFinalizer && hasFinalizer then ret None else updateFunc o src tgt)
  end.

(** [Delete] *)
Definition Delete (o : OpinionatedWatcher) (object : Obj) : M W (option GoError) := ret None.

(** [PrometheusCollectors] *)
Definition PrometheusCollectors (o : OpinionatedWatcher) : list Collector := collectors o.

(** An [OpinionatedWatcher] as a [ResourceWatcher]. *)
Definition OpinionatedWatcher_watcher (o : OpinionatedWatcher) : ResourceWatcher W :=
  mkResourceWatcher (Add o) (Update o) (Delete o) (Some (PrometheusCollectors o)).

(** ** Specification: scripts of calls *)

Inductive Action :=
| CallAdd
| CallUpdate
| CallDelete
| CallSync
| AddFin (f : string)
| ReplaceFin (f g : string)
| RemoveFin (f : string).

(** The call an action stands for, on the objects of the event. *)
Definition perform (o : OpinionatedWatcher) (src : Obj) (t : Ref) (a : Action)
  : M W (option GoError) :=
  match a with
  | CallAdd => addFunc o (Some t)
  | CallUpdate => updateFunc o src (Some t)
  | CallDelete => deleteFunc o (Some t)
  | CallSync => syncFunc o (Some t)
  | AddFin f =>
      wrapping "error adding in-progress finalizer: " (AddFinalizer (finalizerUpdater o) t f)
  | ReplaceFin f g =>
      wrapping "error adding finalizer: " (ReplaceFinalizer (finalizerUpdater o) t f g)
  | RemoveFin f => RemoveFinalizer (finalizerUpdater o) t f
  end.

(** A step of a script: an action, or the removal of a finalizer if the slice read at the
    start holds it when the step's turn comes. *)
Inductive Step :=
| Do (a : Action)
| RemoveIfHeld (f : string).

(** The action of a step, for what the slice holds. *)
Definition step_action (held : list string) (st : Step) : option Action :=
  match st with
  | Do a => Some a
  | RemoveIfHeld f => if Contains held f then Some (RemoveFin f) else None
  end.

(** An action that was performed: the state before it, and its result. *)
Record Event := mkEvent {
  ev_action : Action;
  ev_before : W;
  ev_error : option GoError;
}.

(** Perform the steps in order up to the first that fails; the result lists the actions
    performed.  [held] is the slice read at the start. *)
Fixpoint run_script (held : W → list string) (o : OpinionatedWatcher) (src : Obj) (t : Ref)
    (sts : list Step) : M W (list Event) :=
  match sts with
  | [] => ret []
  | st :: sts =>
      let* before := gets (λ σ, σ) in
      match step_action (held before) st with
      | None => run_script held o src t sts
      | Some a =>
          let* err := perform o src t a in
          match err with
          | Some e => ret [mkEvent a before (Some e)]
          | None => let* tr := run_script held o src t sts in ret (mkEvent a before None :: tr)
          end
      end
  end.

(** The error a run returns: the last action's. *)
Definition run_error (tr : list Event) : option GoError :=
  match last tr with Some ev => ev_error ev | None => None end.

(** What both do for an object that is being deleted, with [F] the watcher's finalizer and
    [P] its in-progress one. *)
Definition delete_script (fs : list string) (F P : string) : list Step :=
  if negb (Contains fs F) && negb (Contains fs P) then []
  else [Do CallDelete; RemoveIfHeld F; RemoveIfHeld P].

(** What [Add] does for an object with finalizers [fs]. *)
Definition Add_script (deleted : bool) (fs : list string) (F P : string) : list Step :=
  if deleted then delete_script fs F P
  else if Contains fs F then [Do CallSync; RemoveIfHeld P]
  else [Do (AddFin P); Do CallAdd; Do (ReplaceFin P F)].

(** What [Update] does first, for the finalizers and deletion state of the new object. *)
Definition Update_add_script (deleted : bool) (fs : list string) (F P : string) : list Step :=
  if negb (Contains fs F) && negb deleted then [Do CallAdd; Do (ReplaceFin P F)] else [].


(** The actions of [Add], for an object that is not written to: [remove_if] is decided at
    the start. *)
Definition remove_if (fs : list string) (f : string) : list Action :=
  if Contains fs f then [RemoveFin f] else [].

Definition Add_actions (deleted : bool) (fs : list string) (F P : string) : list Action :=
  if deleted then
    if negb (Contains fs F) && negb (Contains fs P) then []
    else CallDelete :: remove_if fs F ++ remove_if fs P
  else if Contains fs F then CallSync :: remove_if fs P
  else [AddFin P; CallAdd; ReplaceFin P F].

(** ** Lemmas *)

(** A script run for its error alone. *)
Fixpoint run_error_only (held : W → list string) (o : OpinionatedWatcher) (src : Obj) (t : Ref)
    (sts : list Step) : M W (option GoError) :=
  match sts with
  | [] => ret None
  | Do a :: sts => perform o src t a ;;? run_error_only held o src t sts
  | RemoveIfHeld f :: sts => remove_held o t held f ;;? run_error_only held o src t sts
  end.

Lemma run_error_cons ev tr :
  ev_error ev = None → run_error (ev :: tr) = run_error tr.
Proof. intros E. unfold run_error. by destruct tr as [|p tr]. Qed.

Lemma run_script_error held o src t sts σ :
  run_error_only held o src t sts σ =
    (run_error (run_script held o src t sts σ).1, (run_script held o src t sts σ).2).
Proof.
  revert σ. induction sts as [|[a|f] sts IH]; intros σ; [done|..]; simpl;
    unfold remove_held, holds, and_then, bind, gets.
  - destruct (perform o src t a σ) as [[e|] σ1]; [done|].
    rewrite IH. destruct (run_script held o src t sts σ1) as [tr σ2]. simpl. by rewrite run_error_cons.
  - destruct (Contains (held σ) f); simpl; [|unfold ret; by rewrite IH].
    destruct (RemoveFinalizer (finalizerUpdater o) t f σ) as [[e|] σ1]; [done|].
    rewrite IH. destruct (run_script held o src t sts σ1) as [tr σ2]. simpl. by rewrite run_error_cons.
Qed.

Lemma run_script_cons held o src t st sts σ :
  run_script held o src t (st :: sts) σ =
  match step_action (held σ) st with
  | None => run_script held o src t sts σ
  | Some a =>
      let '(err, σ1) := perform o src t a σ in
      match err with
      | Some e => ([mkEvent a σ (Some e)], σ1)
      | None => let '(tr, σ2) := run_script held o src t sts σ1 in (mkEvent a σ None :: tr, σ2)
      end
  end.
Proof.
  simpl. unfold bind at 1, gets. destruct (step_action _ _) as [a|]; [|done].
  unfold bind. by destruct (perform o src t a σ) as [[e|] σ1].
Qed.

(** Every action of a run is the action of a step of its script, and those before it
    succeeded. *)
Lemma run_script_event held o src t sts σ j ev :
  (run_script held o src t sts σ).1 !! j = Some ev →
  ∃ i st, sts !! i = Some st ∧ (j ≤ i)%nat ∧
    step_action (held (ev_before ev)) st = Some (ev_action ev) ∧
    ∀ k ek, k < j → (run_script held o src t sts σ).1 !! k = Some ek → ev_error ek = None.
Proof.
  revert σ j. induction sts as [|st sts IH]; intros σ j; [done|]. rewrite run_script_cons.
  destruct (step_action (held σ) st) as [a|] eqn:Ea; cycle 1.
  { intros (i & st' & Hi & Hji & Hs & Hb)%IH. exists (S i), st'. split_and!; [done | lia | done | done]. }
  destruct (perform o src t a σ) as [[e|] σ1].
  { destruct j as [|j]; [|done]. intros [= <-]. exists 0, st. split_and!; [done | lia | done |].
    intros k ek Hk. lia. }
  specialize (IH σ1). destruct (run_script held o src t sts σ1) as [tr σ2]. simpl in *.
  destruct j as [|j].
  { intros [= <-]. exists 0, st. split_and!; [done | lia | done |]. intros k ek Hk. lia. }
  intros (i & st' & Hi & Hji & Hs & Hb)%IH. exists (S i), st'. split_and!; [done | lia | done |].
  intros [|k] ek Hk; [by intros [= <-] | apply Hb; lia].
Qed.

(** The first step of a script that is an action is the first action of a run that has one. *)
Lemma run_script_first held o src t a sts σ ev :
  (run_script held o src t (Do a :: sts) σ).1 !! 0 = Some ev → ev_action ev = a.
Proof.
  rewrite run_script_cons. simpl. destruct (perform o src t a σ) as [[e|] σ1]; [by intros [= <-]|].
  destruct (run_script _ _ _ _ _ σ1). by intros [= <-].
Qed.

(** An action that is not the first of a run comes after the first, which succeeded. *)
Lemma run_script_after held o src t a sts σ j ev :
  0 < j → (run_script held o src t (Do a :: sts) σ).1 !! j = Some ev →
  ∃ e0, (run_script held o src t (Do a :: sts) σ).1 !! 0 = Some e0 ∧
    ev_action e0 = a ∧ ev_error e0 = None.
Proof.
  intros Hj H. destruct (run_script_event _ _ _ _ _ _ _ _ H) as (_ & _ & _ & _ & _ & Hb).
  destruct ((run_script held o src t (Do a :: sts) σ).1 !! 0) as [e0|] eqn:E0; cycle 1.
  { apply lookup_ge_None in E0. apply lookup_lt_Some in H. lia. }
  exists e0. split; [done|]. split; [by eapply run_script_first | by eapply Hb].
Qed.

(** When the slice keeps its elements, a script is the list of its actions. *)
Lemma run_script_static held fs o src t sts σ :
  (∀ σ', held σ' = fs) →
  run_script held o src t sts σ =
  run_script held o src t (Do <$> omap (step_action fs) sts) σ.
Proof.
  intros Hh. revert σ. induction sts as [|st sts IH]; intros σ; [done|].
  rewrite run_script_cons, Hh. cbn [omap list_omap].
  destruct (step_action fs st) as [a|] eqn:E; [|by apply IH].
  rewrite fmap_cons, run_script_cons. simpl.
  destruct (perform o src t a σ) as [[e|] σ1]; [done|]. by rewrite IH.
Qed.

Lemma run_handle_deleted held o src t :
  (∀ σ, run_error_only held o src t
     (delete_script (held σ) (finalizer o) (addPendingFinalizer o)) σ =
   handle_deleted o t held σ).
Proof.
  intros σ. unfold handle_deleted, delete_script, holds, bind, gets.
  destruct (negb _ && negb _); [done|]. simpl.
  apply and_then_proper; [done|]. apply and_then_proper; [done|]. apply and_then_ret_r.
Qed.

(** Case analysis on a lookup in a list that is written out. *)
Ltac cases_lookup :=
  repeat match goal with
  | H : (_ :: _) !! ?j = Some _ |- _ => destruct j as [|j]; simpl in H; [simplify_eq|]
  | H : [] !! _ = Some _ |- _ => by rewrite lookup_nil in H
  | H : Contains _ _ = true |- _ => apply Contains_spec in H
  end; simplify_eq.

Lemma Add_script_actions deleted fs F P :
  omap (step_action fs) (Add_script deleted fs F P) = Add_actions deleted fs F P.
Proof.
  unfold Add_script, Add_actions, delete_script, remove_if.
  destruct deleted; repeat case_match; simplify_eq/=; repeat case_match; by simplify_eq/=.
Qed.

(** The scripts hold a removal only after the handler that allows it. *)
Lemma script_step_remove held st f :
  step_action held st = Some (RemoveFin f) → st = Do (RemoveFin f) ∨ st = RemoveIfHeld f ∧ f ∈ held.
Proof.
  destruct st as [a|g]; simpl; [intros [= ->]; by left|].
  destruct (Contains held g) eqn:E; [|done]. intros [= ->]. right. by apply Contains_spec in E.
Qed.

Lemma delete_script_remove fs F P i f :
  delete_script fs F P !! i = Some (RemoveIfHeld f) →
  0 < i ∧ delete_script fs F P = [Do CallDelete; RemoveIfHeld F; RemoveIfHeld P].
Proof. unfold delete_script. intros Hi. case_match; cases_lookup; split; done || lia. Qed.

(** In a run of the script of a deletion, a removal is of a finalizer the slice held at that
    moment, and comes after a call of the delete handler that succeeded. *)
Lemma delete_run_remove held o src t fs σ j ev f :
  let tr := (run_script held o src t (delete_script fs (finalizer o) (addPendingFinalizer o)) σ).1 in
  tr !! j = Some ev → ev_action ev = RemoveFin f →
  f ∈ held (ev_before ev) ∧ 0 < j ∧
  ∃ e0, tr !! 0 = Some e0 ∧ ev_action e0 = CallDelete ∧ ev_error e0 = None.
Proof.
  intros tr Hj Ha. subst tr. pose proof Hj as Hj'.
  apply run_script_event in Hj as (i & st & Hi & Hji & Hs & _).
  rewrite Ha in Hs. apply script_step_remove in Hs as [->|[-> Hf]].
  { unfold delete_script in Hi. case_match; cases_lookup. }
  apply delete_script_remove in Hi as [_ E]. rewrite E in *.
  assert (0 < j).
  { destruct j; [|lia]. apply run_script_first in Hj'. congruence. }
  split; [done|]. split; [done|]. by eapply run_script_after.
Qed.

(** ** Properties *)

(** C4: [Add] does exactly what its script says, up to the first call that fails, and
    returns that call's error.  In that run a finalizer is removed only when the slice of
    finalizers read at the start holds it at that moment, and only after the delete handler
    succeeded (or, for an object that is not being deleted, after the sync handler did); and
    the add handler runs only after the in-progress finalizer was added.  When nothing writes
    to that slice (the object was read once and its finalizers copied, say), the run is that
    of the actions chosen from the finalizers the object had at the start. *)
Theorem Add_runs_script o t σ :
  let ob := deref t σ in
  let deleted := bool_decide (GetDeletionTimestamp ob ≠ None) in
  let fs := GetFinalizers ob in
  let held := kept_finalizers t σ in
  let run := run_script held o None t
               (Add_script deleted fs (finalizer o) (addPendingFinalizer o)) σ in
  let tr := run.1 in
  Add o (Some t) σ = (run_error tr, run.2) ∧
  (∀ j ev f, tr !! j = Some ev → ev_action ev = RemoveFin f →
     f ∈ held (ev_before ev) ∧ 0 < j ∧
     ∃ e0, tr !! 0 = Some e0 ∧ ev_action e0 = (if deleted then CallDelete else CallSync) ∧
       ev_error e0 = None) ∧
  (∀ j ev, tr !! j = Some ev → ev_action ev = CallAdd →
     deleted = false ∧ finalizer o ∉ fs ∧ 0 < j ∧
     ∃ e0, tr !! 0 = Some e0 ∧ ev_action e0 = AddFin (addPendingFinalizer o) ∧ ev_error e0 = None) ∧
  ((∀ σ', held σ' = fs) →
     run = run_script held o None t
             (Do <$> Add_actions deleted fs (finalizer o) (addPendingFinalizer o)) σ).
Proof.
  cbv zeta. set (deleted := bool_decide (GetDeletionTimestamp (deref t σ) ≠ None)).
  set (fs := GetFinalizers (deref t σ)). set (held := kept_finalizers t σ).
  assert (Hnow : held σ = fs) by apply kept_finalizers_now.
  repeat apply conj.
  - rewrite <- run_script_error. unfold Add, bind at 1 2, gets, getFinalizers, Add_script.
    fold held deleted. destruct deleted.
    + rewrite <- Hnow. symmetry. apply run_handle_deleted.
    + unfold holds, bind, gets. rewrite Hnow. destruct (Contains fs (finalizer o)); simpl.
      * apply and_then_proper; [done|]. symmetry. apply and_then_ret_r.
      * apply and_then_proper; [done|]. apply and_then_proper; [done|].
        symmetry. apply and_then_ret_r.
  - intros j ev f. unfold Add_script. destruct deleted; [apply delete_run_remove|].
    intros Hj Ha. pose proof Hj as Hj'. apply run_script_event in Hj as (i & st & Hi & Hji & Hs & _).
    rewrite Ha in Hs. apply script_step_remove in Hs. destruct (Contains fs (finalizer o)); cycle 1.
    { destruct Hs as [->|[-> _]]; cases_lookup. }
    destruct Hs as [->|[-> Hf]]; [cases_lookup|].
    assert (0 < j) by (destruct j; [apply run_script_first in Hj'; congruence | lia]).
    split; [done|]. split; [done|]. by eapply run_script_after.
  - intros j ev. unfold Add_script. intros Hj Ha. pose proof Hj as Hj'.
    apply run_script_event in Hj as (i & st & Hi & Hji & Hs & _). rewrite Ha in Hs.
    assert (Hst : st = Do CallAdd).
    { destruct st as [a|g]; simpl in Hs; [by injection Hs as ->|]. repeat case_match; by simplify_eq. }
    subst st. unfold delete_script in *. destruct deleted; [case_match; cases_lookup|].
    destruct (Contains fs (finalizer o)) eqn:EF; [cases_lookup|].
    assert (0 < j) by (destruct j; [apply run_script_first in Hj'; congruence | lia]).
    split; [done|]. split; [by intros HF%Contains_spec; congruence|].
    split; [done|]. by eapply run_script_after.
  - intros Hh. rewrite (run_script_static _ fs) by done. by rewrite Add_script_actions.
Qed.

End OpinionatedWatcher.

Arguments OpinionatedWatcher W : clear implicits.

(** ** The watcher with the SDK's finalizer updates *)

Section Guard.
Context {W : Type} `{WW : !World W} `{AE : !ApiErrors}.
Context (client : PatchClient W) `{PF : !PatchesFinalizers client}.
Context (o : OpinionatedWatcher W).
Hypothesis Hupdater : finalizerUpdater o = newFinalizerUpdater client.
Hypothesis Hdistinct : finalizer o ≠ addPendingFinalizer o.

Lemma and_then_None {E} (m k : M W (option E)) σ σ' :
  (m ;;? k) σ = (None, σ') → ∃ σ1, m σ = (None, σ1) ∧ k σ1 = (None, σ').
Proof. unfold and_then, bind. destruct (m σ) as [[e|] σ1]; [done | eauto]. Qed.

Lemma Contains_false l x : x ∉ l → Contains l x = false.
Proof. apply bool_decide_eq_false_2. Qed.

Lemma wrapping_None prefix (m : M W (option GoError)) σ σ' :
  wrapping prefix m σ = (None, σ') → m σ = (None, σ').
Proof. unfold wrapping, bind, ret. destruct (m σ) as [[e|] σ1]; [done | by intros [= <-]]. Qed.

(** Whatever the state it starts from, a successful replacement leaves one of the two
    finalizers on the object. *)
Lemma ReplaceFinalizer_guards t σ σ' :
  ReplaceFinalizer (newFinalizerUpdater client) t (addPendingFinalizer o) (finalizer o) σ
    = (None, σ') →
  finalizer o ∈ GetFinalizers (deref t σ') ∨ addPendingFinalizer o ∈ GetFinalizers (deref t σ').
Proof.
  apply (retry_on_conflict_post client t _
    (λ ob, finalizer o ∈ GetFinalizers ob ∨ addPendingFinalizer o ∈ GetFinalizers ob)).
  intros σ1 σ2 E. apply doReplaceFinalizer_spec in E; [|done]. cbn zeta in E. rewrite E. clear E.
  destruct (Contains (GetFinalizers (deref t σ1)) (finalizer o)) eqn:EF,
    (Contains (GetFinalizers (deref t σ1)) (addPendingFinalizer o)) eqn:EP;
    try apply Contains_spec in EF; try apply Contains_spec in EP.
  - left. apply list_elem_of_filter. by split.
  - left. apply list_elem_of_filter. by split.
  - left. apply list_elem_of_lookup. exists (Index (GetFinalizers (deref t σ1)) (addPendingFinalizer o)).
    apply list_lookup_insert_eq. by apply Index_lt.
  - right. apply elem_of_app. right. by left.
Qed.

(** When [Add] succeeds on an object that is not being deleted, the object is guarded:
    one of the two finalizers is on it, so its deletion cannot complete before the
    delete handler is called, whatever the handlers did and whatever conflicts the
    updates met. *)
Theorem Add_guards t σ σ' :
  GetDeletionTimestamp (deref t σ) = None → finalizer o ∉ GetFinalizers (deref t σ) →
  Add o (Some t) σ = (None, σ') →
  finalizer o ∈ GetFinalizers (deref t σ') ∨ addPendingFinalizer o ∈ GetFinalizers (deref t σ').
Proof.
  intros Hdt HF. unfold Add, holds, getFinalizers, bind at 1 2 3, gets.
  rewrite bool_decide_eq_false_2 by (rewrite Hdt; auto).
  rewrite kept_finalizers_now, (Contains_false _ _ HF).
  intros (σ1 & _ & (σ2 & _ & E)%and_then_None)%and_then_None.
  rewrite Hupdater in E. apply wrapping_None in E. by eapply ReplaceFinalizer_guards.
Qed.

Lemma remove_held_None t held f σ σ' :
  remove_held o t held f σ = (None, σ') →
  if Contains (held σ) f then f ∉ GetFinalizers (deref t σ') else σ' = σ.
Proof.
  unfold remove_held, holds, bind, gets. rewrite Hupdater.
  destruct (Contains (held σ) f); [apply RemoveFinalizer_post, PF | by intros [= <-]].
Qed.

(** When [Add] succeeds on an object that is being deleted and has one of the finalizers,
    the delete handler was called and the watcher has let go of the object: its in-progress
    finalizer is gone if the slice read at the start holds it to the end, and otherwise its
    finalizer is, if the slice held that after the handler. *)
Theorem Add_releases t σ σ' :
  GetDeletionTimestamp (deref t σ) ≠ None →
  finalizer o ∈ GetFinalizers (deref t σ) ∨ addPendingFinalizer o ∈ GetFinalizers (deref t σ) →
  Add o (Some t) σ = (None, σ') →
  ∃ σ1 σ2, deleteFunc o (Some t) σ = (None, σ1) ∧
    (if Contains (kept_finalizers t σ σ2) (addPendingFinalizer o)
     then addPendingFinalizer o ∉ GetFinalizers (deref t σ')
     else finalizer o ∈ kept_finalizers t σ σ1 → finalizer o ∉ GetFinalizers (deref t σ')).
Proof.
  intros Hdt Hin. unfold Add, bind at 1 2, gets, getFinalizers.
  rewrite bool_decide_eq_true_2 by done. unfold handle_deleted, holds, bind at 1 2, gets.
  rewrite kept_finalizers_now.
  replace (negb _ && negb _) with false by (destruct Hin as [H|H]; apply Contains_spec in H;
    rewrite H; by rewrite ?andb_false_r).
  intros (σ1 & E1 & (σ2 & E2 & E3)%and_then_None)%and_then_None.
  exists σ1, σ2. split; [done|]. apply remove_held_None in E2, E3.
  destruct (Contains _ (addPendingFinalizer o)); [done|]. subst σ'.
  intros H%Contains_spec. by rewrite H in E2.
Qed.

(** An update that sets the deletion timestamp and leaves the generation alone is ignored:
    the delete handler is not called, though the doc comment of [Update] says it is. *)
Theorem Update_ignores_deletion s t σ :
  GetDeletionTimestamp (deref t σ) ≠ None → (0 < GetGeneration (deref t σ))%Z →
  GetGeneration (deref s σ) = GetGeneration (deref t σ) →
  Update o (Some s) (Some t) σ = (None, σ).
Proof.
  intros _ Hg E. unfold Update, bind at 1 2, gets. rewrite E, Z.eqb_refl.
  by destruct (Z.ltb_spec 0 (GetGeneration (deref t σ))); [|lia].
Qed.

(** An update of an object the add handler failed for (it has the in-progress finalizer
    only) is not passed to the update handler when the answer to the patch was decoded into
    the array of the slice [newFinalizers]: the slice then holds the finalizer, and the
    update is taken for the one that added it. *)
Theorem Update_skips_handler s t σ σ1 σ2 :
  GetDeletionTimestamp (deref t σ) = None →
  GetGeneration (deref s σ) ≠ GetGeneration (deref t σ) →
  finalizer o ∉ GetFinalizers (deref t σ) →
  addFunc o (Some t) σ = (None, σ1) →
  ReplaceFinalizer (finalizerUpdater o) t (addPendingFinalizer o) (finalizer o) σ1 = (None, σ2) →
  GetDeletionTimestamp (deref t σ2) = None →
  finalizer o ∉ kept_finalizers s σ σ2 → finalizer o ∈ kept_finalizers t σ σ2 →
  Update o (Some s) (Some t) σ = (None, σ2).
Proof.
  intros Hdt Hgen HF Hadd Hrep Hdt2 Hold Hnew. unfold Update, bind at 1 2, gets.
  rewrite (proj2 (Z.eqb_neq _ _) Hgen), andb_false_r.
  unfold holds, getFinalizers, bind at 1 2 3, gets. rewrite kept_finalizers_now, (Contains_false _ _ HF).
  rewrite bool_decide_eq_true_2 by done. simpl. unfold and_then at 1, bind at 1.
  unfold and_then at 1, bind at 1. rewrite Hadd. unfold wrapping, bind at 1. rewrite Hrep. simpl.
  unfold bind. rewrite bool_decide_eq_false_2 by (rewrite Hdt2; auto).
  by rewrite (Contains_false _ _ Hold), (proj2 (Contains_spec _ _) Hnew).
Qed.

(** When the object of an update has neither finalizer, a successful [Update] leaves
    it with the in-progress finalizer only: the next update that changes the generation
    calls the add handler once more. *)
Theorem Update_adds_again s t σ σ1 σ2 σ3 :
  GetDeletionTimestamp (deref t σ) = None →
  (GetGeneration (deref s σ) ≠ GetGeneration (deref t σ)) →
  finalizer o ∉ GetFinalizers (deref t σ) →
  addFunc o (Some t) σ = (None, σ1) →
  finalizer o ∉ GetFinalizers (deref t σ1) → addPendingFinalizer o ∉ GetFinalizers (deref t σ1) →
  doReplaceFinalizer client t (addPendingFinalizer o) (finalizer o) σ1 = (None, σ2) →
  GetDeletionTimestamp (deref t σ2) = None →
  finalizer o ∉ kept_finalizers t σ σ2 →
  updateFunc o (Some s) (Some t) σ2 = (None, σ3) →
  GetFinalizers (deref t σ3) = GetFinalizers (deref t σ2) →
  Update o (Some s) (Some t) σ = (None, σ3) ∧
  GetFinalizers (deref t σ3) = (GetFinalizers (deref t σ1) ++ [addPendingFinalizer o])%list ∧
  Update_add_script false (GetFinalizers (deref t σ3)) (finalizer o) (addPendingFinalizer o) =
    [Do CallAdd; Do (ReplaceFin (addPendingFinalizer o) (finalizer o))].
Proof.
  intros Hdt Hgen HF0 Hadd HF HP Hrep Hdt2 Hkept Hupd Hfin.
  assert (Hfs : GetFinalizers (deref t σ3) =
    (GetFinalizers (deref t σ1) ++ [addPendingFinalizer o])%list).
  { rewrite Hfin. pose proof Hrep as E. apply doReplaceFinalizer_spec in E; [|done].
    cbn zeta in E. unfold Contains in E. by rewrite !bool_decide_eq_false_2 in E by done. }
  split; [|split]; [|done|].
  - unfold Update, bind at 1 2, gets. rewrite (proj2 (Z.eqb_neq _ _) Hgen), andb_false_r.
    unfold holds, getFinalizers, bind at 1 2 3, gets.
    rewrite kept_finalizers_now, (Contains_false _ _ HF0). simpl.
    rewrite bool_decide_eq_true_2 by done.
    unfold and_then at 1, bind at 1. unfold and_then at 1, bind at 1. rewrite Hadd.
    unfold wrapping, bind at 1. rewrite Hupdater. simpl.
    rewrite (retry_on_conflict_done client _ _ _ _ _ Hrep) by done. simpl. unfold bind.
    rewrite bool_decide_eq_false_2 by (rewrite Hdt2; auto). 
    by rewrite (Contains_false _ _ Hkept), andb_false_r, Hupd.
  - unfold Update_add_script. rewrite Hfs, Contains_false; [done|].
    rewrite elem_of_app, list_elem_of_singleton. intuition.
Qed.
End Guard.

(** ** Witnesses *)

(** A schema, a watcher whose handlers succeed without doing anything, and an object at
    reference 0 of generation [g] with finalizers [l]. *)
Definition test_schema : Schema TestWorld :=
  mkSchema TestWorld "g" "v1" "K" "ks" (ret None) (ret None) NamespacedScope [].

Definition test_watcher : OpinionatedWatcher TestWorld :=
  {| AddFunc := None; UpdateFunc := None; DeleteFunc := None; SyncFunc := None;
     finalizer := DefaultFinalizerSupplier test_schema;
     addPendingFinalizer := InProgressFinalizerSupplier test_schema;
     schema := test_schema; collectors := []; finalizerUpdater := newFinalizerUpdater TestClient |}.

Definition test_object (g : Z) (dt : option Z) (l : list string) : Object :=
  mkObject (mkStaticMetadata "g" "v1" "K" "ns" "n")
    (mkCommonMetadata "u" "1" g ∅ 0 dt l 0 "" "" ∅) "".

Lemma test_distinct : finalizer test_watcher ≠ addPendingFinalizer test_watcher.
Proof. discriminate. Qed.

Lemma Add_guards_witness :
  let σ := mkTestWorld 0 {[0 := test_object 1 None ["x"]]} [] in
  "operator.v1.K.g" ∈ GetFinalizers (deref 0 (Add test_watcher (Some 0) σ).2) ∨
  "wip.v1.K.g" ∈ GetFinalizers (deref 0 (Add test_watcher (Some 0) σ).2).
Proof.
  intros σ.
  apply (Add_guards TestClient test_watcher eq_refl test_distinct 0 σ).
  - reflexivity.
  - apply (bool_decide_unpack _). vm_compute. exact I.
  - vm_compute. reflexivity.
Defined.

Lemma Add_releases_witness :
  let σ := mkTestWorld 0 {[0 := test_object 1 (Some 5%Z) ["x"; "operator.v1.K.g"]]} [] in
  "operator.v1.K.g" ∉ GetFinalizers (deref 0 (Add test_watcher (Some 0) σ).2).
Proof.
  intros σ.
  destruct (Add_releases TestClient test_watcher eq_refl 0 σ
    (Add test_watcher (Some 0) σ).2) as (σ1 & σ2 & _ & _).
  - discriminate.
  - left. apply (bool_decide_unpack _). vm_compute. exact I.
  - vm_compute. reflexivity.
  - apply (bool_decide_unpack _). vm_compute. exact I.
Defined.

(** The update handler of [loud_watcher] would fail; it is not called. *)
Definition loud_watcher : OpinionatedWatcher TestWorld :=
  {| AddFunc := None; UpdateFunc := Some (λ _ _, ret (Some (ErrorString "called")));
     DeleteFunc := None; SyncFunc := None;
     finalizer := DefaultFinalizerSupplier test_schema;
     addPendingFinalizer := InProgressFinalizerSupplier test_schema;
     schema := test_schema; collectors := []; finalizerUpdater := newFinalizerUpdater TestClient |}.

Lemma Update_skips_handler_witness :
  let σ := mkTestWorld 0 {[0 := test_object 1 None ["wip.v1.K.g"];
                           1 := test_object 2 None ["wip.v1.K.g"]]} [] in
  (Update loud_watcher (Some 0) (Some 1) σ).1 = None.
Proof.
  intros σ.
  set (σ2 := (ReplaceFinalizer (newFinalizerUpdater TestClient) 1 "wip.v1.K.g" "operator.v1.K.g" σ).2).
  rewrite (Update_skips_handler loud_watcher 0 1 σ σ σ2); try reflexivity; try discriminate;
    try (vm_compute; reflexivity); apply (bool_decide_unpack _); vm_compute; exact I.
Defined.

Lemma Update_adds_again_witness :
  let σ := mkTestWorld 0 {[0 := test_object 1 None []; 1 := test_object 2 None ["x"]]} [] in
  GetFinalizers (deref 1 (Update test_watcher (Some 0) (Some 1) σ).2) = ["x"; "wip.v1.K.g"].
Proof.
  intros σ.
  set (σ2 := (doReplaceFinalizer TestClient 1 "wip.v1.K.g" "operator.v1.K.g" σ).2).
  destruct (Update_adds_again TestClient test_watcher eq_refl test_distinct 0 1
    σ σ σ2 σ2) as (E & Hf & _).
  - reflexivity.
  - discriminate.
  - apply (bool_decide_unpack _). vm_compute. exact I.
  - reflexivity.
  - apply (bool_decide_unpack _). vm_compute. exact I.
  - apply (bool_decide_unpack _). vm_compute. exact I.
  - vm_compute. reflexivity.
  - vm_compute. reflexivity.
  - apply (bool_decide_unpack _). vm_compute. exact I.
  - reflexivity.
  - reflexivity.
  - rewrite E. exact Hf.
Defined.
