(* ===== verification/Reconciler.v ===== *)
(** * Reconcilers ([operator/reconciler.go])

    Requests and results, the simple and the typed reconciler, and the opinionated
    one, which drives finalizers around a wrapped reconciler and uses the state map of
    a failed attempt to resume.  A request holds an object (a method call on a nil one
    panics in every implementation); the [map[string]any] of states is an optional
    map, nil being [None]. *)
From S2P Require Import Prelude Resource Concrete RetryPolicy ResourceWatcher Finalizers.

Inductive ReconcileAction :=
| ReconcileActionUnknown
| ReconcileActionCreated
| ReconcileActionUpdated
| ReconcileActionDeleted
| ReconcileActionResynced.

#[export] Instance ReconcileAction_eq_dec : EqDecision ReconcileAction.
Proof. solve_decision. Defined.

(** The [any] of a state: nil, an error, or a value of the user's. *)
Inductive StateValue :=
| SVNil
| SVError (e : GoError)
| SVUser (s : string).

#[export] Instance StateValue_eq_dec : EqDecision StateValue.
Proof. solve_decision. Defined.

Abbreviation State := (option (gmap string StateValue)).

Record ReconcileRequest := mkReconcileRequest {
  req_Action : ReconcileAction;
  req_Object : Ref;
  req_State : State;
}.

Record ReconcileResult := mkReconcileResult {
  res_RequeueAfter : option Z;
  res_State : State;
}.

Definition ReconcileResult_zero : ReconcileResult := mkReconcileResult None None.

(** The interface [Reconciler] *)
Definition Reconciler (W : Type) : Type :=
  ReconcileRequest → M W (ReconcileResult * option GoError).

Definition ReconcileActionFromResourceAction (action : ResourceAction) : ReconcileAction :=
  if bool_decide (action = ResourceActionCreate) then ReconcileActionCreated
  else if bool_decide (action = ResourceActionUpdate) then ReconcileActionUpdated
  else if bool_decide (action = ResourceActionDelete) then ReconcileActionDeleted
  else if bool_decide (action = ResourceActionResync) then ReconcileActionResynced
  else ReconcileActionUnknown.

Definition ResourceActionFromReconcileAction (action : ReconcileAction) : ResourceAction :=
  match action with
  | ReconcileActionCreated => ResourceActionCreate
  | ReconcileActionUpdated => ResourceActionUpdate
  | ReconcileActionDeleted => ResourceActionDelete
  | ReconcileActionResynced => ResourceActionResync
  | ReconcileActionUnknown => ""%string
  end.

(** [request.Action = a] *)
Definition with_Action (a : ReconcileAction) (r : ReconcileRequest) : ReconcileRequest :=
  mkReconcileRequest a (req_Object r) (req_State r).

(** [req.State = s] *)
Definition with_State (s : State) (r : ReconcileRequest) : ReconcileRequest :=
  mkReconcileRequest (req_Action r) (req_Object r) s.

(** [s == nil || s[key] == nil] *)
Definition state_nil (s : State) (key : string) : bool :=
  match s with
  | None => true
  | Some m => match m !! key with None | Some SVNil => true | _ => false end
  end.

(** [if s == nil { s = make(...) }; s[key] = v] *)
Definition state_set (s : State) (key : string) (v : StateValue) : State :=
  Some (<[key := v]> (default ∅ s)).

(** ** [SimpleReconciler] and [TypedReconciler] *)

Record SimpleReconciler (W : Type) := mkSimpleReconciler {
  sr_ReconcileFunc : option (Reconciler W);
}.
Arguments mkSimpleReconciler {W}.
Arguments sr_ReconcileFunc {W}.

(** [SimpleReconciler.Reconcile] *)
Definition SimpleReconciler_Reconcile {W} (s : SimpleReconciler W) : Reconciler W := λ req,
  match sr_ReconcileFunc s with
  | Some f => f req
  | None => ret (ReconcileResult_zero, None)
  end.

Record TypedReconcileRequest (T : Type) := mkTypedReconcileRequest {
  treq_Action : ReconcileAction;
  treq_Object : T;
  treq_State : State;
}.
Arguments mkTypedReconcileRequest {T}.
Arguments treq_Action {T}.
Arguments treq_Object {T}.
Arguments treq_State {T}.

Record TypedReconciler (W T : Type) := mkTypedReconciler {
  tr_ReconcileFunc : option (TypedReconcileRequest T → M W (ReconcileResult * option GoError));
}.
Arguments mkTypedReconciler {W T}.
Arguments tr_ReconcileFunc {W T}.

(** [TypedReconciler.Reconcile]; [cast] is the type assertion [request.Object.(T)]. *)
Definition TypedReconciler_Reconcile {W T} `{!World W} (cast : Ref → option T)
    (t : TypedReconciler W T) : Reconciler W := λ request,
  match tr_ReconcileFunc t with
  | None => ret (ReconcileResult_zero, None)
  | Some f =>
      match cast (req_Object request) with
      | None =>
          let* ob := gets (deref (req_Object request)) in
          ret (ReconcileResult_zero, Some (NewCannotCastError (GetStaticMetadata ob)))
      | Some o => f (mkTypedReconcileRequest (req_Action request) o (req_State request))
      end
  end.

(** ** [OpinionatedReconciler] *)

Definition opinionatedReconcilerPatchAddStateKey : string :=
  "grafana-app-sdk-opinionated-reconciler-create-patch-status".
Definition opinionatedReconcilerPatchRemoveStateKey : string :=
  "grafana-app-sdk-opinionated-reconciler-delete-patch-status".

Record OpinionatedReconciler (W : Type) := mkOpinionatedReconciler {
  or_Reconciler : option (Reconciler W);
  or_finalizer : string;
  or_finalizerUpdater : FinalizerUpdater W;
}.
Arguments mkOpinionatedReconciler {W}.
Arguments or_Reconciler {W}.
Arguments or_finalizer {W}.
Arguments or_finalizerUpdater {W}.

Section OpinionatedReconciler.
Context {W : Type} `{WW : !World W} `{AE : !ApiErrors}.

(** [NewOpinionatedReconciler]; a nil client is [None]. *)
Definition NewOpinionatedReconciler (client : option (PatchClient W)) (finalizer : string)
  : OpinionatedReconciler W + GoError :=
  match client with
  | None => inr (ErrorString "client cannot be nil")
  | Some client =>
      if bool_decide (finalizer = ""%string) then inr (ErrorString "finalizer cannot be empty")
      else if 63 <? String.length finalizer then
        inr (ErrorString ("finalizer length cannot exceed 63 chars: " +:+ finalizer))
      else inl (mkOpinionatedReconciler None finalizer (newFinalizerUpdater client))
  end.

(** [Wrap] *)
Definition Reconciler_Wrap (o : OpinionatedReconciler W) (reconciler : Reconciler W)
  : OpinionatedReconciler W :=
  mkOpinionatedReconciler (Some reconciler) (or_finalizer o) (or_finalizerUpdater o).

(** [wrappedReconcile] *)
Definition wrappedReconcile (o : OpinionatedReconciler W) : Reconciler W := λ request,
  match or_Reconciler o with
  | Some r => r request
  | None => ret (ReconcileResult_zero, None)
  end.

(** What follows a finalizer update: a failure is recorded in the result's state. *)
Definition with_patch_error (key : string) (res : ReconcileResult) (patchErr : option GoError)
  : ReconcileResult * option GoError :=
  match patchErr with
  | None => (res, None)
  | Some e =>
      (mkReconcileResult (res_RequeueAfter res) (state_set (res_State res) key (SVError e)), Some e)
  end.

(** Delegate and go on with [k] when the result is neither an error nor a requeue. *)
Definition delegate_then (o : OpinionatedReconciler W) (request : ReconcileRequest)
    (k : ReconcileResult → M W (ReconcileResult * option GoError))
  : M W (ReconcileResult * option GoError) :=
  let* ' (res, err) := wrappedReconcile o request in
  if bool_decide (err ≠ None) || bool_decide (res_RequeueAfter res ≠ None) then ret (res, err)
  else k res.

(** [OpinionatedReconciler.Reconcile] *)
Definition Reconcile (o : OpinionatedReconciler W) : Reconciler W := λ request,
  let object := req_Object request in
  if bool_decide (req_Action request = ReconcileActionDeleted) then
    ret (ReconcileResult_zero, None)
  else
    let* ob := gets (deref object) in
    if bool_decide (GetDeletionTimestamp ob ≠ None) && Contains (GetFinalizers ob) (or_finalizer o)
    then
      let remove res :=
        let* patchErr := RemoveFinalizer (or_finalizerUpdater o) object (or_finalizer o) in
        ret (with_patch_error opinionatedReconcilerPatchRemoveStateKey res patchErr) in
      if state_nil (req_State request) opinionatedReconcilerPatchRemoveStateKey then
        delegate_then o (with_Action ReconcileActionDeleted request) remove
      else remove ReconcileResult_zero
    else if bool_decide (GetDeletionTimestamp ob ≠ None) then
      ret (ReconcileResult_zero, None)
    else if bool_decide (req_Action request = ReconcileActionCreated)
            && Contains (GetFinalizers ob) (or_finalizer o) then
      wrappedReconcile o (with_Action ReconcileActionResynced request)
    else if bool_decide (req_Action request = ReconcileActionCreated) then
      let add resp :=
        let* patchErr := AddFinalizer (or_finalizerUpdater o) object (or_finalizer o) in
        ret (with_patch_error opinionatedReconcilerPatchAddStateKey resp patchErr) in
      if state_nil (req_State request) opinionatedReconcilerPatchAddStateKey then
        delegate_then o request add
      else add ReconcileResult_zero
    else if bool_decide (req_Action request = ReconcileActionUpdated)
            && negb (Contains (GetFinalizers ob) (or_finalizer o)) then
      let* patchErr := AddFinalizer (or_finalizerUpdater o) object (or_finalizer o) in
      ret (ReconcileResult_zero, patchErr)
    else wrappedReconcile o request.

(** ** Specification: what is delegated, and what follows *)

Inductive After := Nothing | ThenRemove | ThenAdd | ThenAddNoState.

(** The step after a delegation that needs no retry (or instead of a delegation). *)
Definition after_step (o : OpinionatedReconciler W) (object : Ref) (a : After)
    (res : ReconcileResult) : M W (ReconcileResult * option GoError) :=
  match a with
  | Nothing => ret (res, None)
  | ThenRemove =>
      let* e := RemoveFinalizer (or_finalizerUpdater o) object (or_finalizer o) in
      ret (with_patch_error opinionatedReconcilerPatchRemoveStateKey res e)
  | ThenAdd =>
      let* e := AddFinalizer (or_finalizerUpdater o) object (or_finalizer o) in
      ret (with_patch_error opinionatedReconcilerPatchAddStateKey res e)
  | ThenAddNoState =>
      let* e := AddFinalizer (or_finalizerUpdater o) object (or_finalizer o) in
      ret (res, e)
  end.

(** The request handed to the wrapped reconciler, if any, and the step that follows,
    for an object being deleted or not ([deleted]), with the finalizer or not ([has]). *)
Definition plan (request : ReconcileRequest) (deleted has : bool)
  : option ReconcileRequest * After :=
  match req_Action request, deleted, has with
  | ReconcileActionDeleted, _, _ => (None, Nothing)
  | _, true, true =>
      if state_nil (req_State request) opinionatedReconcilerPatchRemoveStateKey
      then (Some (with_Action ReconcileActionDeleted request), ThenRemove)
      else (None, ThenRemove)
  | _, true, false => (None, Nothing)
  | ReconcileActionCreated, false, true =>
      (Some (with_Action ReconcileActionResynced request), Nothing)
  | ReconcileActionCreated, false, false =>
      if state_nil (req_State request) opinionatedReconcilerPatchAddStateKey
      then (Some request, ThenAdd) else (None, ThenAdd)
  | ReconcileActionUpdated, false, false => (None, ThenAddNoState)
  | _, false, _ => (Some request, Nothing)
  end.

(** Run a plan. *)
Definition run_plan (o : OpinionatedReconciler W) (object : Ref)
    (p : option ReconcileRequest * After) : M W (ReconcileResult * option GoError) :=
  match p with
  | (Some q, a) => delegate_then o q (after_step o object a)
  | (None, a) => after_step o object a ReconcileResult_zero
  end.

Lemma delegate_then_nothing o q object :
  delegate_then o q (after_step o object Nothing) ≡M wrappedReconcile o q.
Proof.
  intros σ. unfold delegate_then, bind, ret. simpl. unfold ret.
  destruct (wrappedReconcile o q σ) as [[res err] σ'].
  destruct err as [e|]; [done|]. simpl. by destruct (bool_decide _).
Qed.

Lemma Reconcile_plan o request σ :
  let ob := deref (req_Object request) σ in
  Reconcile o request σ =
    run_plan o (req_Object request)
      (plan request (bool_decide (GetDeletionTimestamp ob ≠ None))
         (Contains (GetFinalizers ob) (or_finalizer o))) σ.
Proof.
  cbn zeta. unfold Reconcile, bind at 1, gets, plan. destruct request as [action object state].
  cbn [req_Action req_Object req_State].
  destruct action; simpl; try done; unfold bind at 1;
    destruct (bool_decide (GetDeletionTimestamp (deref object σ) ≠ None)),
    (Contains (GetFinalizers (deref object σ)) (or_finalizer o)); simpl;
    try reflexivity; try (destruct (state_nil _ _); reflexivity);
    symmetry; apply delegate_then_nothing.
Qed.

(** The state of a failed attempt whose delegation had succeeded. *)
Lemma with_patch_error_state key res e res' err :
  with_patch_error key res (Some e) = (res', err) →
  err = Some e ∧ state_nil (res_State res') key = false.
Proof.
  intros [= <- <-]. split; [done|]. unfold state_set. simpl. by rewrite lookup_insert_eq.
Qed.
End OpinionatedReconciler.

(** ** Properties *)

(** The two conversions of actions are inverse to each other on the four known
    actions; everything else becomes the unknown action, which becomes the empty one. *)
Theorem ReconcileAction_roundtrip :
  (∀ a, ReconcileActionFromResourceAction (ResourceActionFromReconcileAction a) = a) ∧
  (∀ a, ResourceActionFromReconcileAction (ReconcileActionFromResourceAction a) =
     if bool_decide (a ∈ [ResourceActionCreate; ResourceActionUpdate; ResourceActionDelete;
                          ResourceActionResync])
     then a else ""%string).
Proof.
  split; [by intros []|]. intros a. unfold ReconcileActionFromResourceAction.
  repeat case_bool_decide; subst; try done;
    repeat match goal with
    | H : _ ∈ _ :: _ |- _ => apply elem_of_cons in H as [->|H]; [done|]
    | H : _ ∈ [] |- _ => by apply not_elem_of_nil in H
    | H : ¬ _ ∈ _ |- _ => exfalso; apply H; rewrite !elem_of_cons; by auto 10
    end.
Qed.

Section Properties.
Context {W : Type} `{WW : !World W} `{AE : !ApiErrors}.

(** C3: [Reconcile] calls the wrapped reconciler at most once, with the request its plan
    names: a [Deleted] request only for an object that is being deleted and still has
    the finalizer, a [Created] one only for an object that has not got it, nothing at
    all for the delete event itself or for a deleted object the finalizer of which is
    gone.  A requeue or an error of the wrapped reconciler is returned as it is and
    leaves the finalizers alone; otherwise the plan's finalizer update follows.  (The
    method's doc comment says that the update that carries the deletion timestamp is
    not delegated and the delete event is: the code does it the other way round, see
    [deletion_delegated_by_the_update].) *)
Theorem Reconcile_follows_plan (o : OpinionatedReconciler W) request σ :
  let ob := deref (req_Object request) σ in
  let deleted := bool_decide (GetDeletionTimestamp ob ≠ None) in
  let has := Contains (GetFinalizers ob) (or_finalizer o) in
  let '(delegated, after) := plan request deleted has in
  Reconcile o request σ =
    (match delegated with
     | Some q =>
         let '((res, err), σ') := wrappedReconcile o q σ in
         if bool_decide (err = None) && bool_decide (res_RequeueAfter res = None)
         then after_step o (req_Object request) after res σ'
         else ((res, err), σ')
     | None => after_step o (req_Object request) after ReconcileResult_zero σ
     end) ∧
  (after = ThenRemove → deleted && has = true) ∧
  (∀ q, delegated = Some q →
     req_Object q = req_Object request ∧ req_State q = req_State request ∧
     req_Action request ≠ ReconcileActionDeleted ∧
     (req_Action q = ReconcileActionDeleted ↔ deleted && has = true) ∧
     (deleted = true → has = true) ∧
     (req_Action q = ReconcileActionCreated → has = false ∧ after = ThenAdd)).
Proof.
  cbn zeta. pose proof (Reconcile_plan o request σ) as Hplan. cbn zeta in Hplan. revert Hplan.
  generalize (bool_decide (GetDeletionTimestamp (deref (req_Object request) σ) ≠ None)).
  generalize (Contains (GetFinalizers (deref (req_Object request) σ)) (or_finalizer o)).
  intros has deleted.
  destruct (plan request deleted has) as [delegated after] eqn:Ep. intros Hplan. split; [|split].
  - rewrite Hplan. simpl. destruct delegated as [q|]; [|done].
    unfold delegate_then, bind at 1. destruct (wrappedReconcile o q σ) as [[res err] σ'].
    rewrite !bool_decide_not, <- negb_andb. by destruct (_ && _).
  - intros ->. unfold plan in Ep. destruct (req_Action request), deleted, has; simplify_eq; try done;
      by destruct (state_nil _ _).
  - intros q ->. unfold plan in Ep. destruct (req_Action request) eqn:Ea, deleted, has;
      simplify_eq; try (destruct (state_nil _ _)); simplify_eq; simpl; rewrite ?Ea;
      repeat split; try done.
Qed.

(** What the doc comment has the other way round: an update of an object that is being
    deleted and has the finalizer is delegated, as a [Deleted] request, before the
    finalizer is removed; the delete event that follows is dropped. *)
Theorem deletion_delegated_by_the_update (o : OpinionatedReconciler W) object σ :
  GetDeletionTimestamp (deref object σ) ≠ None →
  or_finalizer o ∈ GetFinalizers (deref object σ) →
  Reconcile o (mkReconcileRequest ReconcileActionUpdated object None) σ =
    delegate_then o (mkReconcileRequest ReconcileActionDeleted object None)
      (after_step o object ThenRemove) σ ∧
  Reconcile o (mkReconcileRequest ReconcileActionDeleted object None) σ =
    ((ReconcileResult_zero, None), σ).
Proof.
  intros Hdt Hf%Contains_spec. split; [|done]. rewrite Reconcile_plan. simpl.
  by rewrite bool_decide_true, Hf.
Qed.

(** Once the wrapped reconciler has succeeded for a deletion, it is not called again
    for it: if [Reconcile] then fails (removing the finalizer did), a retry with the
    state it returned does nothing but remove the finalizer, whatever the wrapped
    reconciler would do.  The same holds for a creation and adding the finalizer. *)
Theorem delegated_once (o : OpinionatedReconciler W) request σ res e σ' q after :
  let ob := deref (req_Object request) σ in
  plan request (bool_decide (GetDeletionTimestamp ob ≠ None))
    (Contains (GetFinalizers ob) (or_finalizer o)) = (Some q, after) →
  after ≠ Nothing →
  Reconcile o request σ = ((res, Some e), σ') →
  wrappedReconcile o q σ = ((res, Some e), σ') ∨
  (∀ r σ2, let ob2 := deref (req_Object request) σ2 in
     GetDeletionTimestamp ob2 = GetDeletionTimestamp ob → GetFinalizers ob2 = GetFinalizers ob →
     Reconcile (Reconciler_Wrap o r) (with_State (res_State res) request) σ2 =
     after_step o (req_Object request) after ReconcileResult_zero σ2).
Proof.
  intros ob Hp Hafter Hrun. pose proof (Reconcile_plan o request σ) as Hplan. cbn zeta in Hplan.
  fold ob in Hplan. rewrite Hrun, Hp in Hplan. simpl in Hplan. unfold delegate_then, bind at 1 in Hplan.
  destruct (wrappedReconcile o q σ) as [[res1 err1] σ1] eqn:Ew.
  destruct (bool_decide (err1 ≠ None) || bool_decide (res_RequeueAfter res1 ≠ None)) eqn:Eb.
  { left. unfold ret in Hplan. by rewrite Hplan. }
  right. intros r σ2 ob2 Hdt Hfs.
  assert (Hstate : (after = ThenRemove → state_nil (res_State res) opinionatedReconcilerPatchRemoveStateKey = false) ∧
                   (after = ThenAdd → state_nil (res_State res) opinionatedReconcilerPatchAddStateKey = false)).
  { split; intros ->; simpl in Hplan; unfold bind, ret in Hplan;
      match type of Hplan with context [let '(_, _) := ?m in _] => destruct m as [[e1|] σ3] end;
      [|done| |done]; injection Hplan as -> _ _; simpl; by rewrite lookup_insert_eq. }
  rewrite Reconcile_plan. cbn [req_Object with_State or_finalizer Reconciler_Wrap]. fold ob2.
  rewrite Hdt, Hfs. fold ob. revert Hp.
  generalize (bool_decide (GetDeletionTimestamp ob ≠ None)) (Contains (GetFinalizers ob) (or_finalizer o)).
  intros deleted has Hp. unfold plan in *. cbn [req_Action req_State with_State].
  destruct (req_Action request), deleted, has; simplify_eq; try done;
    (destruct (state_nil (req_State request) _); [|done]); simplify_eq;
    first [by rewrite (proj1 Hstate eq_refl) | by rewrite (proj2 Hstate eq_refl)].
Qed.

Context (client : PatchClient W) `{PF : !PatchesFinalizers client}.

Lemma with_patch_error_None key (m : M W (option GoError)) res σ res' σ' :
  (let* e := m in ret (with_patch_error key res e)) σ = ((res', None), σ') → m σ = (None, σ').
Proof. unfold bind, ret. destruct (m σ) as [[e|] σ1]; simpl; [done | by intros [= _ <-]]. Qed.

(** With the SDK's finalizer updates: after a [Reconcile] that returns neither an error
    nor a requeue, an object that was being deleted no longer has the finalizer, and a
    created one that lacked it has it. *)
Theorem Reconcile_finalizer (o : OpinionatedReconciler W) request σ res σ' :
  or_finalizerUpdater o = newFinalizerUpdater client →
  req_Action request ≠ ReconcileActionDeleted →
  Reconcile o request σ = ((res, None), σ') → res_RequeueAfter res = None →
  let ob := deref (req_Object request) σ in
  let ob' := deref (req_Object request) σ' in
  (GetDeletionTimestamp ob ≠ None → or_finalizer o ∈ GetFinalizers ob →
     or_finalizer o ∉ GetFinalizers ob') ∧
  (GetDeletionTimestamp ob = None → req_Action request = ReconcileActionCreated →
     or_finalizer o ∉ GetFinalizers ob → or_finalizer o ∈ GetFinalizers ob').
Proof.
  intros Hu Hact Hrun Hreq ob ob'.
  pose proof (Reconcile_plan o request σ) as Hplan. cbn zeta in Hplan. rewrite Hrun in Hplan.
  fold ob in Hplan.
  assert (Hrm : ∀ res1 σ1, after_step o (req_Object request) ThenRemove res1 σ1 =
    ((res, None), σ') → or_finalizer o ∉ GetFinalizers ob').
  { intros res1 σ1 E%with_patch_error_None. rewrite Hu in E. by apply RemoveFinalizer_post in E. }
  assert (Hadd : ∀ res1 σ1, after_step o (req_Object request) ThenAdd res1 σ1 =
    ((res, None), σ') → or_finalizer o ∈ GetFinalizers ob').
  { intros res1 σ1 E%with_patch_error_None. rewrite Hu in E. by apply AddFinalizer_post in E. }
  assert (Hdel : ∀ q after, ((res, None), σ') =
    delegate_then o q (after_step o (req_Object request) after) σ →
    ∃ res1 σ1, after_step o (req_Object request) after res1 σ1 = ((res, None), σ')).
  { intros q after. unfold delegate_then, bind at 1.
    destruct (wrappedReconcile o q σ) as [[res1 [e1|]] σ1]; [done|].
    destruct (res_RequeueAfter res1) eqn:Er; [|simpl; eauto].
    simpl. intros [= <- <-]. congruence. }
  split.
  - intros Hdt HF. rewrite bool_decide_eq_true_2, (proj2 (Contains_spec _ _) HF) in Hplan by done.
    unfold plan in Hplan. destruct (req_Action request); try done;
      (destruct (state_nil _ _); [apply Hdel in Hplan as (res1 & σ1 & Hplan)|]; eauto).
  - intros Hdt Ha HF. unfold plan in Hplan. rewrite Ha in Hplan.
    rewrite bool_decide_eq_false_2 in Hplan by (rewrite Hdt; auto).
    unfold Contains in Hplan. rewrite bool_decide_eq_false_2 in Hplan by done.
    destruct (state_nil _ _); [apply Hdel in Hplan as (res1 & σ1 & Hplan)|]; eauto.
Qed.
End Properties.

(** A typed reconciler hands its function the cast object with the request's action
    and state; an object of another type gives a [CannotCastError] that names the object,
    and nothing is called. *)
Theorem TypedReconciler_casts {W T} `{!World W} (cast : Ref → option T) f request σ :
  TypedReconciler_Reconcile cast (mkTypedReconciler (Some f)) request σ =
    match cast (req_Object request) with
    | Some o => f (mkTypedReconcileRequest (req_Action request) o (req_State request)) σ
    | None =>
        ((ReconcileResult_zero,
          Some (CannotCastError (GetStaticMetadata (deref (req_Object request) σ)))), σ)
    end ∧
  TypedReconciler_Reconcile (T:=T) cast (mkTypedReconciler None) request σ =
    ((ReconcileResult_zero, None), σ).
Proof. unfold TypedReconciler_Reconcile. simpl. by destruct (cast _). Qed.

(** ** Witnesses *)

(** A reconciler that notes the action it is called with. *)
Definition test_reconciler : Reconciler TestWorld := λ q σ,
  ((ReconcileResult_zero, None), note (ResourceActionFromReconcileAction (req_Action q)) σ).

Definition test_opinionated : OpinionatedReconciler TestWorld :=
  mkOpinionatedReconciler (Some test_reconciler) "fin" (newFinalizerUpdater TestClient).

(** A client the patches of which fail. *)
Definition BrokenClient : PatchClient TestWorld :=
  mkPatchClient TestWorld (λ _ _ _ _ σ, (Some (ErrorString "broken"), σ)) (λ _ _ σ, (None, σ)).

Lemma delegated_once_witness :
  let o := mkOpinionatedReconciler (Some test_reconciler) "fin" (newFinalizerUpdater BrokenClient) in
  let q := mkReconcileRequest ReconcileActionCreated 0 None in
  let '((res, err), σ') := Reconcile o q (world_with []) in
  Reconcile (Reconciler_Wrap o test_reconciler) (with_State (res_State res) q) σ' =
  after_step o 0 ThenAdd ReconcileResult_zero σ'.
Proof.
  intros o q. destruct (Reconcile o q (world_with [])) as [[res err] σ'] eqn:E.
  destruct err as [e|]; [|vm_compute in E; discriminate E].
  destruct (delegated_once o q (world_with []) res e σ' q ThenAdd) as [H|H].
  - vm_compute. reflexivity.
  - discriminate.
  - exact E.
  - vm_compute in H. discriminate H.
  - vm_compute in E. injection E as <- <- <-. apply (H test_reconciler); reflexivity.
Defined.

Lemma Reconcile_finalizer_witness :
  "fin"%string ∈ GetFinalizers (deref 0
    (Reconcile test_opinionated (mkReconcileRequest ReconcileActionCreated 0 None)
       (world_with ["x"%string])).2).
Proof.
  destruct (Reconcile_finalizer TestClient test_opinionated
    (mkReconcileRequest ReconcileActionCreated 0 None) (world_with ["x"%string])
    ReconcileResult_zero
    (Reconcile test_opinionated (mkReconcileRequest ReconcileActionCreated 0 None)
       (world_with ["x"%string])).2) as [_ H].
  - reflexivity.
  - discriminate.
  - vm_compute. reflexivity.
  - reflexivity.
  - apply H; [reflexivity | reflexivity |]. apply (bool_decide_unpack _). vm_compute. exact I.
Defined.
