(* ===== verification/Runners.v ===== *)
(** * Runners ([app/runner.go])

    The three ways the SDK runs [Runnable]s, with the goroutines they start as threads
    of a step relation: [MultiRunner] (a buffered error channel behind a mutex),
    [DynamicMultiRunner] (an unbuffered channel, runnables added and removed while it
    runs) and [SingletonRunner] (several [Run] calls sharing one run).  A goroutine's
    steps between two synchronisations are one step; the select statements, the wait
    group, the channel and the mutex sections are each a step of their own, so every
    interleaving of the code is one of the relation. *)
From S2P Require Import Prelude Resource ResourceWatcher.

(** An interface value of type [Runnable]: its identity, and what it implements besides
    ([metrics.Provider], [health.Check] by identity, [health.Checker]). *)
Record Runnable := mkRunnable {
  rn_id : nat;
  rn_PrometheusCollectors : option (list Collector);
  rn_HealthCheck : option nat;
  rn_HealthChecks : option (list nat);
}.

#[export] Instance Runnable_eq_dec : EqDecision Runnable.
Proof. solve_decision. Defined.

Definition ErrRunnerExitTimeout : GoError :=
  ErrorString "exit wait time exceeded waiting for Runners to complete".
Definition ErrOtherRunStopped : GoError := ErrorString "run stopped by another run call".

(** [RunnableCollectorDefaultErrorHandler] *)
Definition RunnableCollectorDefaultErrorHandler : GoError → bool := λ _, true.

(** ** [MultiRunner] *)

Record MultiRunner := mkMultiRunner {
  mr_Runners : list Runnable;
  mr_ErrorHandler : option (GoError → bool);
  mr_ExitWait : option Z;
}.

Definition NewMultiRunner : MultiRunner :=
  mkMultiRunner [] (Some RunnableCollectorDefaultErrorHandler) None.

(** [MultiRunner.AddRunnable] *)
Definition MultiRunner_AddRunnable (r : Runnable) (m : MultiRunner) : MultiRunner :=
  mkMultiRunner (mr_Runners m ++ [r]) (mr_ErrorHandler m) (mr_ExitWait m).

(** The collectors of the runnables that implement [metrics.Provider]. *)
Definition runnable_collectors (rs : list Runnable) : list Collector :=
  rs ≫= λ r, default [] (rn_PrometheusCollectors r).

(** The health checks of the runnables: a [Checker]'s before the value's own. *)
Definition runnable_checks (rs : list Runnable) : list nat :=
  rs ≫= λ r, default [] (rn_HealthChecks r) ++ option_list (rn_HealthCheck r).

(** [MultiRunner.PrometheusCollectors] and [MultiRunner.HealthChecks] *)
Definition MultiRunner_PrometheusCollectors (m : MultiRunner) := runnable_collectors (mr_Runners m).
Definition MultiRunner_HealthChecks (m : MultiRunner) := runnable_checks (mr_Runners m).

(** The goroutine of one runner: in [Run], returned with an error and past [wg.Done],
    past the test of [timedOut] (about to take the mutex and send), finished. *)
Inductive goroutine :=
| GRun
| GErr (e : GoError)
| GSend (e : GoError)
| GDone.

#[export] Instance goroutine_eq_dec : EqDecision goroutine.
Proof. solve_decision. Defined.

(** The calling goroutine: in the select loop, waiting for the runners (with the error
    it will return), or returned. *)
Inductive main_phase :=
| MSelect
| MWait (err : option GoError)
| MReturned (res : option GoError).

Record mstate := mkMState {
  m_gs : list goroutine;
  m_errs : list GoError;
  m_closed : bool;
  m_ctxDone : bool;
  m_cancelled : bool;
  m_timedOut : bool;
  m_main : main_phase;
}.

Definition set_g (i : nat) (g : goroutine) (s : mstate) : mstate :=
  mkMState (<[i := g]> (m_gs s)) (m_errs s) (m_closed s) (m_ctxDone s) (m_cancelled s)
    (m_timedOut s) (m_main s).

Definition handler_of (h : option (GoError → bool)) : GoError → bool :=
  default RunnableCollectorDefaultErrorHandler h.

(** What [Run] returns when the wait timed out. *)
Definition timeout_error (err : option GoError) : GoError :=
  match err with
  | Some e => JoinError ErrRunnerExitTimeout e
  | None => ErrRunnerExitTimeout
  end.

(** The steps of [MultiRunner.Run] and the goroutines it starts. *)
Inductive mstep (m : MultiRunner) : mstate → mstate → Prop :=
| m_ctx s :
    mstep m s (mkMState (m_gs s) (m_errs s) (m_closed s) true (m_cancelled s) (m_timedOut s) (m_main s))
| m_return_nil s i :
    m_gs s !! i = Some GRun → mstep m s (set_g i GDone s)
| m_return_err s i e :
    m_gs s !! i = Some GRun → mstep m s (set_g i (GErr e) s)
| m_skip s i e :
    m_gs s !! i = Some (GErr e) → m_timedOut s = true → mstep m s (set_g i GDone s)
| m_tosend s i e :
    m_gs s !! i = Some (GErr e) → m_timedOut s = false → mstep m s (set_g i (GSend e) s)
| m_send_closed s i e :
    m_gs s !! i = Some (GSend e) → m_closed s = true → mstep m s (set_g i GDone s)
| m_send s i e :
    m_gs s !! i = Some (GSend e) → m_closed s = false →
    length (m_errs s) < length (mr_Runners m) →
    mstep m s (mkMState (<[i := GDone]> (m_gs s)) (m_errs s ++ [e]) (m_closed s) (m_ctxDone s)
                 (m_cancelled s) (m_timedOut s) (m_main s))
| m_recv s e errs :
    m_main s = MSelect → m_errs s = e :: errs →
    mstep m s
      (if handler_of (mr_ErrorHandler m) e
       then mkMState (m_gs s) errs (m_closed s) (m_ctxDone s) true (m_timedOut s) (MWait (Some e))
       else mkMState (m_gs s) errs (m_closed s) (m_ctxDone s) (m_cancelled s) (m_timedOut s) MSelect)
| m_done s :
    m_main s = MSelect → m_ctxDone s = true →
    mstep m s (mkMState (m_gs s) (m_errs s) (m_closed s) (m_ctxDone s) true (m_timedOut s) (MWait None))
| m_waited s err :
    m_main s = MWait err → GRun ∉ m_gs s →
    mstep m s (mkMState (m_gs s) (m_errs s) true (m_ctxDone s) (m_cancelled s) (m_timedOut s)
                 (MReturned err))
| m_timeout s err :
    m_main s = MWait err → mr_ExitWait m ≠ None →
    mstep m s (mkMState (m_gs s) (m_errs s) true (m_ctxDone s) (m_cancelled s) true
                 (MReturned (Some (timeout_error err)))).

(** The state when every goroutine has been started. *)
Definition minit (m : MultiRunner) : mstate :=
  mkMState (replicate (length (mr_Runners m)) GRun) [] false false false false MSelect.

(** The goroutines that may still send. *)
Definition unsent (g : goroutine) : bool := bool_decide (g ≠ GDone).

Definition minv (m : MultiRunner) (s : mstate) : Prop :=
  length (m_gs s) = length (mr_Runners m) ∧
  length (m_errs s) + length (filter (λ g, g ≠ GDone) (m_gs s)) ≤ length (mr_Runners m) ∧
  (m_closed s = true ↔ ∃ r, m_main s = MReturned r) ∧
  (m_main s ≠ MSelect → m_cancelled s = true) ∧
  match m_main s with
  | MSelect => m_timedOut s = false
  | MWait (Some e) => handler_of (mr_ErrorHandler m) e = true ∧ m_timedOut s = false
  | MWait None => m_ctxDone s = true ∧ m_timedOut s = false
  | MReturned r =>
      (m_timedOut s = false → (GRun ∉ m_gs s) ∧
        match r with
        | Some e => handler_of (mr_ErrorHandler m) e = true
        | None => m_ctxDone s = true
        end) ∧
      (m_timedOut s = true → mr_ExitWait m ≠ None ∧ ∃ err, r = Some (timeout_error err))
  end.

Lemma filter_insert_length (l : list goroutine) i g g0 :
  l !! i = Some g0 → g0 ≠ GDone →
  length (filter (λ g, g ≠ GDone) (<[i := g]> l)) =
  length (filter (λ g, g ≠ GDone) l) - (if bool_decide (g = GDone) then 1 else 0).
Proof.
  revert i. induction l as [|x l IH]; intros [|i]; simpl; [done|done| |].
  - intros [= ->] H0. rewrite (filter_cons_True _ g0) by done.
    case_bool_decide as Hg.
    + rewrite filter_cons_False by (by rewrite Hg; intros ?). simpl. lia.
    + rewrite filter_cons_True by done. simpl. lia.
  - intros Hi H0. specialize (IH i Hi H0).
    assert (1 ≤ length (filter (λ g, g ≠ GDone) l)).
    { apply list_elem_of_lookup_2 in Hi. assert (Hf : g0 ∈ filter (λ g, g ≠ GDone) l)
        by (by apply list_elem_of_filter). destruct (filter _ l); [by apply not_elem_of_nil in Hf|].
      simpl. lia. }
    destruct (decide (x ≠ GDone)).
    + rewrite !filter_cons_True by done. simpl. rewrite IH. case_bool_decide; lia.
    + rewrite !filter_cons_False by done. done.
Qed.

Lemma GRun_insert (l : list goroutine) i g : GRun ∉ l → g ≠ GRun → GRun ∉ <[i := g]> l.
Proof.
  intros Hl Hg [j Hj]%list_elem_of_lookup. apply list_lookup_insert_Some in Hj as [(_ & ? & _)|[_ Hj]];
    [done|]. apply Hl. by apply list_elem_of_lookup_2 in Hj.
Qed.

Lemma minv_set_g m s i g0 g :
  minv m s → m_gs s !! i = Some g0 → g0 ≠ GDone → g ≠ GRun → minv m (set_g i g s).
Proof.
  intros (Hl & Hc & Hcl & Hca & Hm) Hi H0 Hg.
  split; [by simpl; rewrite length_insert|].
  split; [simpl; rewrite (filter_insert_length _ _ _ g0) by done; case_bool_decide; lia|].
  split; [done|]. split; [done|]. simpl.
  destruct (m_main s) as [|[e|]|r]; try done. destruct Hm as [Hm1 Hm2]. split; [|done].
  intros Ht. destruct (Hm1 Ht) as [Hr ?]. split; [|done]. by apply GRun_insert.
Qed.

Lemma minv_step m s s' : mstep m s s' → minv m s → minv m s'.
Proof.
  intros Hs Hinv. pose proof Hinv as (Hl & Hc & Hcl & Hca & Hm).
  destruct Hs as [s|s i Hi|s i e Hi|s i e Hi Ht|s i e Hi Ht|s i e Hi Hc'|s i e Hi Hc' Hlen
    |s e errs Hmain Herrs|s Hmain Hd|s err Hmain Hrun|s err Hmain Hex].
  - repeat split; simpl; try done; try apply Hcl. destruct (m_main s) as [|[e|]|r]; try done.
    + by destruct Hm.
    + destruct Hm as [Hm1 Hm2]. split; [|done]. intros Ht. destruct (Hm1 Ht). split; [done|].
      by destruct r.
  - by eapply minv_set_g.
  - by eapply minv_set_g.
  - by eapply minv_set_g.
  - by eapply minv_set_g.
  - by eapply minv_set_g.
  - assert (Hi' : minv m (set_g i GDone s)) by (by eapply minv_set_g).
    destruct Hi' as (Hl' & _ & Hrest). split; [done|]. split; [|done]. simpl.
    rewrite (filter_insert_length _ _ _ (GSend e)), length_app by done.
    rewrite bool_decide_eq_true_2 by done. simpl.
    assert (1 ≤ length (filter (λ g, g ≠ GDone) (m_gs s))).
    { apply list_elem_of_lookup_2 in Hi.
      assert (Hf : GSend e ∈ filter (λ g, g ≠ GDone) (m_gs s)) by (by apply list_elem_of_filter).
      destruct (filter _ _); [by apply not_elem_of_nil in Hf|]. simpl. lia. }
    lia.
  - rewrite Hmain in *. rewrite Herrs in Hc. simpl in Hc.
    assert (m_closed s = false) as Hf.
    { destruct (m_closed s); [|done]. destruct (proj1 Hcl eq_refl) as [r Hr]. done. }
    destruct (handler_of _ e) eqn:Eh; repeat split; simpl; try done; try lia;
      rewrite ?Hf; try done; by intros [r Hr].
  - rewrite Hmain in *. repeat split; simpl; try done; try lia.
    + intros Hf. destruct (proj1 Hcl Hf) as [r Hr]. done.
    + by intros [r Hr].
  - rewrite Hmain in Hca, Hm.
    assert (Ht : m_timedOut s = false) by (destruct err; apply Hm).
    split; [done|]. split; [done|]. split; [simpl; split; [by eexists | done]|].
    split; [intros _; by apply Hca|]. simpl. rewrite Ht. split; [|done]. intros _.
    split; [done|]. destruct err; apply Hm.
  - rewrite Hmain in Hca, Hm. split; [done|]. split; [done|].
    split; [simpl; split; [by eexists | done]|].
    split; [intros _; by apply Hca|]. simpl. split; [done|]. intros _. split; [done | by eexists].
Qed.

Lemma minv_init m : minv m (minit m).
Proof.
  repeat split; simpl; try done; [apply length_replicate| |by intros [r Hr]].
  etransitivity; [apply length_filter|]. by rewrite length_replicate.
Qed.

(** C32: [MultiRunner.Run], in every interleaving: when it has returned, the context the
    runners got is cancelled, and, unless the wait timed out, every runner has returned
    and the result is an error the handler asked to stop for, or nil because the
    caller's context is done; a timeout needs an [ExitWait] and is reported.  A runner
    that fails never blocks on the error channel and never sends on a closed one,
    whether [Run] has returned or not. *)
Theorem MultiRunner_correct m s :
  rtc (mstep m) (minit m) s →
  (∀ res, m_main s = MReturned res →
     m_cancelled s = true ∧
     (m_timedOut s = false → (GRun ∉ m_gs s) ∧
        match res with
        | Some e => handler_of (mr_ErrorHandler m) e = true
        | None => m_ctxDone s = true
        end) ∧
     (m_timedOut s = true → mr_ExitWait m ≠ None ∧ ∃ err, res = Some (timeout_error err))) ∧
  (∀ i e, m_gs s !! i = Some (GSend e) →
     ∃ s', mstep m s s' ∧ m_gs s' !! i = Some GDone ∧ (m_closed s = true → m_errs s' = m_errs s)).
Proof.
  intros Hs. assert (Hinv : minv m s)
    by (eapply (rtc_invariant (mstep m) (minv m)); [apply minv_step | done | apply minv_init]).
  destruct Hinv as (Hl & Hc & Hcl & Hca & Hm). split.
  - intros res Hr. rewrite Hr in *. split; [by apply Hca | done].
  - intros i e Hi. assert (Hlt : i < length (m_gs s)) by (by apply lookup_lt_Some in Hi).
    destruct (m_closed s) eqn:Ec.
    + exists (set_g i GDone s). split; [by eapply m_send_closed|]. simpl.
      by rewrite list_lookup_insert_eq.
    + eexists. split; [eapply m_send; [done | done |]|].
      * apply list_elem_of_lookup_2 in Hi.
        assert (Hf : GSend e ∈ filter (λ g, g ≠ GDone) (m_gs s)) by (by apply list_elem_of_filter).
        destruct (filter _ _); [by apply not_elem_of_nil in Hf|]. simpl in Hc. lia.
      * simpl. by rewrite list_lookup_insert_eq.
Qed.

(** ** [DynamicMultiRunner] *)

(** [dynamicMultiRunnerTuple]; the tuples are in a store and the runner and the
    goroutines hold their addresses. *)
Record tuple := mkTuple {
  tp_runner : Runnable;
  tp_cancelFunc : bool;
  tp_cancelled : bool;
  tp_mainTimedOut : bool;
}.

Record DynamicMultiRunner := mkDynamicMultiRunner {
  dr_ErrorHandler : option (GoError → bool);
  dr_ExitWait : option Z;
}.

(** A goroutine of [runTuple]: the tuple it runs and where it is. *)
Record dgoroutine := mkDG { dg_tuple : nat; dg_at : goroutine }.

(** The state of the runner and its goroutines: [d_main] is [None] before [Run];
    [d_closed] is the deferred [close(d.errs)]; [d_panicked] is a send on it. *)
Record dstate := mkDState {
  d_tuples : list tuple;
  d_runners : list nat;
  d_running : bool;
  d_gs : list dgoroutine;
  d_closed : bool;
  d_ctxDone : bool;
  d_runCtxDone : bool;
  d_main : option main_phase;
  d_panicked : bool;
}.

(** [NewDynamicMultiRunner] *)
Definition NewDynamicMultiRunner : DynamicMultiRunner * dstate :=
  (mkDynamicMultiRunner (Some RunnableCollectorDefaultErrorHandler) None,
   mkDState [] [] false [] false false false None false).

Definition upd_tuple (f : tuple → tuple) (t : nat) (s : dstate) : dstate :=
  mkDState (alter f t (d_tuples s)) (d_runners s) (d_running s) (d_gs s) (d_closed s)
    (d_ctxDone s) (d_runCtxDone s) (d_main s) (d_panicked s).

(** [runTuple]: a cancel function derived from the run context, and a goroutine. *)
Definition runTuple (t : nat) (s : dstate) : dstate :=
  let s := upd_tuple (λ tp, mkTuple (tp_runner tp) true (d_runCtxDone s) (tp_mainTimedOut tp)) t s in
  mkDState (d_tuples s) (d_runners s) (d_running s) (d_gs s ++ [mkDG t GRun]) (d_closed s)
    (d_ctxDone s) (d_runCtxDone s) (d_main s) (d_panicked s).

Definition set_mainTimedOut (val : bool) (tp : tuple) : tuple :=
  mkTuple (tp_runner tp) (tp_cancelFunc tp) (tp_cancelled tp) val.

(** [setTimedOut], on the runners in the list. *)
Definition setTimedOut (val : bool) (s : dstate) : dstate :=
  foldl (λ s t, upd_tuple (set_mainTimedOut val) t s) s (d_runners s).

(** The locked first part of [DynamicMultiRunner.Run]. *)
Definition Run_start (s : dstate) : dstate + GoError :=
  if d_running s then inr (ErrorString "already running")
  else
    let s := mkDState (d_tuples s) (d_runners s) true (d_gs s) (d_closed s) (d_ctxDone s)
               false (Some MSelect) (d_panicked s) in
    inl (foldl (λ s t, runTuple t (upd_tuple (set_mainTimedOut false) t s)) s (d_runners s)).

(** [DynamicMultiRunner.AddRunnable] *)
Definition DynamicMultiRunner_AddRunnable (r : Runnable) (s : dstate) : dstate :=
  let t := length (d_tuples s) in
  let s := mkDState (d_tuples s ++ [mkTuple r false false false]) (d_runners s) (d_running s)
             (d_gs s) (d_closed s) (d_ctxDone s) (d_runCtxDone s) (d_main s) (d_panicked s) in
  let s := if d_running s then runTuple t s else s in
  mkDState (d_tuples s) (d_runners s ++ [t]) (d_running s) (d_gs s) (d_closed s) (d_ctxDone s)
    (d_runCtxDone s) (d_main s) (d_panicked s).

(** The loop of [RemoveRunnable]: [range] goes over the slice as it was, [n] elements
    of the backing array [arr] from index [i] on, while the loop shortens [d.runners] to
    [len] elements of the same array.  The result: array, length, the tuples cancelled. *)
Fixpoint RemoveRunnable_loop (is_r : nat → bool) (n i : nat) (arr : list nat) (len : nat)
    (cancelled : list nat) : list nat * nat * list nat :=
  match n with
  | O => (arr, len, cancelled)
  | S n =>
      match arr !! i with
      | None => (arr, len, cancelled)
      | Some t =>
          if is_r t then
            let cancelled := cancelled ++ [t] in
            if i + 1 <? len then
              (* append(runners[:i], runners[i+1:]...): copy down in place *)
              let arr := take i arr ++ take (len - (i + 1)) (drop (i + 1) arr) ++ drop (len - 1) arr in
              RemoveRunnable_loop is_r n (S i) arr (len - 1) cancelled
            else RemoveRunnable_loop is_r n (S i) arr i cancelled
          else RemoveRunnable_loop is_r n (S i) arr len cancelled
      end
  end.

(** [DynamicMultiRunner.RemoveRunnable] *)
Definition DynamicMultiRunner_RemoveRunnable (r : Runnable) (s : dstate) : dstate :=
  let is_r t := match d_tuples s !! t with
                | Some tp => bool_decide (rn_id (tp_runner tp) = rn_id r)
                | None => false
                end in
  let '(arr, len, cancelled) :=
    RemoveRunnable_loop is_r (length (d_runners s)) 0 (d_runners s) (length (d_runners s)) [] in
  let cancel tp := if d_running s && tp_cancelFunc tp
                   then mkTuple (tp_runner tp) true true (tp_mainTimedOut tp) else tp in
  let s' := foldl (λ s t, upd_tuple cancel t s) s cancelled in
  mkDState (d_tuples s') (take len arr) (d_running s') (d_gs s') (d_closed s') (d_ctxDone s')
    (d_runCtxDone s') (d_main s') (d_panicked s').

Definition dynamic_runners (s : dstate) : list Runnable :=
  d_runners s ≫= λ t, match d_tuples s !! t with Some tp => [tp_runner tp] | None => [] end.

(** [PrometheusCollectors] and [HealthChecks] *)
Definition DynamicMultiRunner_PrometheusCollectors (s : dstate) :=
  runnable_collectors (dynamic_runners s).
Definition DynamicMultiRunner_HealthChecks (s : dstate) := runnable_checks (dynamic_runners s).

Definition set_dg (i : nat) (g : goroutine) (s : dstate) : dstate :=
  mkDState (d_tuples s) (d_runners s) (d_running s)
    (alter (λ x, mkDG (dg_tuple x) g) i (d_gs s)) (d_closed s) (d_ctxDone s) (d_runCtxDone s)
    (d_main s) (d_panicked s).

(** Move the calling goroutine, which cancels the run context when [cancel]. *)
Definition set_main (cancel closed : bool) (ph : main_phase) (s : dstate) : dstate :=
  mkDState (d_tuples s) (d_runners s) (d_running s) (d_gs s) closed (d_ctxDone s)
    (d_runCtxDone s || cancel) (Some ph) (d_panicked s).

Definition set_ctxDone (s : dstate) : dstate :=
  mkDState (d_tuples s) (d_runners s) (d_running s) (d_gs s) (d_closed s) true true
    (d_main s) (d_panicked s).

Definition set_panicked (s : dstate) : dstate :=
  mkDState (d_tuples s) (d_runners s) (d_running s) (d_gs s) (d_closed s) (d_ctxDone s)
    (d_runCtxDone s) (d_main s) true.

(** Whether the goroutine reads [mainTimedOut] of its tuple as set. *)
Definition dg_timedOut (s : dstate) (g : dgoroutine) : bool :=
  match d_tuples s !! dg_tuple g with Some tp => tp_mainTimedOut tp | None => false end.

(** The steps of [DynamicMultiRunner]: [Run], the goroutines, and calls of
    [AddRunnable] and [RemoveRunnable] by others.  A panic ends the program. *)
Inductive dstep (d : DynamicMultiRunner) : dstate → dstate → Prop :=
| d_start s s' : d_panicked s = false → Run_start s = inl s' → dstep d s s'
| d_ctx s : d_panicked s = false → dstep d s (set_ctxDone s)
| d_return_nil s i t :
    d_panicked s = false → d_gs s !! i = Some (mkDG t GRun) → dstep d s (set_dg i GDone s)
| d_return_err s i t e :
    d_panicked s = false → d_gs s !! i = Some (mkDG t GRun) → dstep d s (set_dg i (GErr e) s)
| d_skip s i t e :
    d_panicked s = false → d_gs s !! i = Some (mkDG t (GErr e)) →
    dg_timedOut s (mkDG t (GErr e)) = true → dstep d s (set_dg i GDone s)
| d_tosend s i t e :
    d_panicked s = false → d_gs s !! i = Some (mkDG t (GErr e)) →
    dg_timedOut s (mkDG t (GErr e)) = false → dstep d s (set_dg i (GSend e) s)
| d_send s i t e :
    d_panicked s = false → d_gs s !! i = Some (mkDG t (GSend e)) → d_main s = Some MSelect →
    dstep d s
      (let s := set_dg i GDone s in
       if handler_of (dr_ErrorHandler d) e then set_main true (d_closed s) (MWait (Some e)) s
       else s)
| d_send_closed s i t e :
    d_panicked s = false → d_gs s !! i = Some (mkDG t (GSend e)) → d_closed s = true →
    dstep d s (set_panicked s)
| d_done s :
    d_panicked s = false → d_main s = Some MSelect → d_ctxDone s = true →
    dstep d s (set_main true (d_closed s) (MWait None) s)
| d_waited s err :
    d_panicked s = false → d_main s = Some (MWait err) →
    (∀ g, g ∈ d_gs s → dg_at g ≠ GRun) →
    dstep d s (set_main true true (MReturned err) s)
| d_timeout s err :
    d_panicked s = false → d_main s = Some (MWait err) → dr_ExitWait d ≠ None →
    dstep d s (set_main true true (MReturned (Some (timeout_error err))) (setTimedOut true s))
| d_add s r : d_panicked s = false → dstep d s (DynamicMultiRunner_AddRunnable r s)
| d_remove s r : d_panicked s = false → dstep d s (DynamicMultiRunner_RemoveRunnable r s).

(** Control state that the tuple operations leave alone. *)
Definition d_control (s : dstate) := (d_running s, d_closed s, d_main s, d_panicked s).

Lemma foldl_control {A} (f : dstate → A → dstate) l s :
  (∀ s x, d_control (f s x) = d_control s) → d_control (foldl f s l) = d_control s.
Proof. intros Hf. revert s. induction l as [|x l IH]; intros s; simpl; [done|]. by rewrite IH, Hf. Qed.

(** Folds that only append goroutines keep the ones there are. *)
Lemma foldl_gs {A} (f : dstate → A → dstate) l s i g :
  (∀ s x, d_gs s !! i = Some g → d_gs (f s x) !! i = Some g) →
  d_gs s !! i = Some g → d_gs (foldl f s l) !! i = Some g.
Proof. intros Hf. revert s. induction l as [|x l IH]; intros s Hs; simpl; [done|]. apply IH, Hf, Hs. Qed.

Lemma add_control r s : d_control (DynamicMultiRunner_AddRunnable r s) = d_control s.
Proof. unfold DynamicMultiRunner_AddRunnable. by destruct (d_running s) eqn:E; unfold d_control; simpl; rewrite E. Qed.

Lemma remove_control r s : d_control (DynamicMultiRunner_RemoveRunnable r s) = d_control s.
Proof.
  unfold DynamicMultiRunner_RemoveRunnable. destruct (RemoveRunnable_loop _ _ _ _ _ _) as [[arr len] c].
  match goal with |- context [foldl ?f s c] =>
    pose proof (foldl_control f c s (λ _ _, eq_refl)) as H end. exact H.
Qed.

(** What holds of the control state from the start: [running] is set by the first [Run]
    and never cleared, and the channel is closed when [Run] has returned. *)
Definition dinv (s : dstate) : Prop :=
  (d_running s = true ↔ d_main s ≠ None) ∧
  (d_closed s = true ↔ ∃ r, d_main s = Some (MReturned r)).

Lemma control_fields s s' :
  d_control s' = d_control s → d_running s' = d_running s ∧ d_main s' = d_main s.
Proof. by intros [= ? _ ? _]. Qed.

Lemma setTimedOut_control v s : d_control (setTimedOut v s) = d_control s.
Proof. by apply foldl_control. Qed.

Lemma dinv_control s s' : d_control s' = d_control s → dinv s → dinv s'.
Proof. unfold d_control, dinv. intros [= -> -> -> _]. done. Qed.

Lemma dinv_step d s s' : dstep d s s' → dinv s → dinv s'.
Proof.
  intros Hs Hinv. destruct Hs as [s s' Hp Hst|s|s|s|s|s|s i t e Hp Hi Hm|s|s Hp Hm Hd|s err Hp Hm Hg
    |s err Hp Hm Hx|s r|s r]; try (by eapply dinv_control; [|done]).
  - unfold Run_start in Hst. destruct (d_running s) eqn:Er; [done|]. injection Hst as <-.
    destruct Hinv as [H1 H2].
    assert (Hmn : d_main s = None).
    { destruct (d_main s); [|done]. exfalso. assert (d_running s = true) by (by apply H1). congruence. }
    eapply dinv_control; [by apply foldl_control|]. split; simpl; [done|].
    rewrite H2, Hmn. split; by intros [r Hr].
  - destruct Hinv as [H1 H2]. cbv zeta. destruct (handler_of _ e).
    + split; simpl; [rewrite H1, Hm; done|]. rewrite H2, Hm. split; by intros [r Hr].
    + done.
  - exact Hinv.
  - destruct Hinv as [H1 H2]. split; simpl; [rewrite H1, Hm; done|].
    rewrite H2, Hm. split; by intros [r Hr].
  - destruct Hinv as [H1 H2]. split; simpl; [rewrite H1, Hm; done|]. split; [by eexists | done].
  - destruct Hinv as [H1 H2]. split; simpl.
    + destruct (control_fields _ _ (setTimedOut_control true s)) as [-> _]. rewrite H1, Hm. done.
    + split; [by eexists | done].
  - eapply dinv_control; [apply add_control | done].
  - eapply dinv_control; [apply remove_control | done].
Qed.

(** A goroutine about to send stays so, unless the calling goroutine receives. *)
Lemma dstep_keeps_sender d s s' i t e :
  dstep d s s' → d_main s ≠ Some MSelect → d_running s = true →
  d_gs s !! i = Some (mkDG t (GSend e)) →
  d_gs s' !! i = Some (mkDG t (GSend e)) ∧ d_main s' ≠ Some MSelect ∧ d_running s' = true.
Proof.
  intros Hs Hm Hr Hi.
  assert (Hset : ∀ j t' g g', d_gs s !! j = Some (mkDG t' g) → g ≠ GSend e →
    d_gs (set_dg j g' s) !! i = Some (mkDG t (GSend e))).
  { intros j t' g g' Hj Hg. simpl. rewrite list_lookup_alter_ne; [done|]. intros ->. congruence. }
  destruct Hs as [s s' Hp Hst|s|s|s|s|s|s|s|s|s|s err Hp Hm' Hx|s r|s r]; try done;
    try (split; [by eapply Hset | done]).
  - unfold Run_start in Hst. by rewrite Hr in Hst.
  - split; [|split]; simpl; [|done|].
    + apply foldl_gs; done.
    + by destruct (control_fields _ _ (setTimedOut_control true s)) as [-> _].
  - destruct (control_fields _ _ (add_control r s)) as [-> ->].
    split; [|done]. unfold DynamicMultiRunner_AddRunnable. simpl. rewrite Hr. simpl.
    by apply lookup_app_l_Some.
  - destruct (control_fields _ _ (remove_control r s)) as [-> ->].
    split; [|done]. unfold DynamicMultiRunner_RemoveRunnable.
    destruct (RemoveRunnable_loop _ _ _ _ _ _) as [[arr len] c]. simpl. by apply foldl_gs.
Qed.

Lemma dstep_running d s s' : dstep d s s' → d_running s = true → d_running s' = true.
Proof.
  intros Hs Hr. destruct Hs as [s s' Hp Hst|s|s|s|s|s|s|s|s|s|s|s r|s r]; try done.
  - unfold Run_start in Hst. by rewrite Hr in Hst.
  - cbv zeta. by destruct (handler_of _ _).
  - by destruct (control_fields _ _ (setTimedOut_control true s)) as [Hc _]; simpl; rewrite Hc.
  - by destruct (control_fields _ _ (add_control r s)) as [-> _].
  - by destruct (control_fields _ _ (remove_control r s)) as [-> _].
Qed.

Lemma reachable_dinv d s : rtc (dstep d) NewDynamicMultiRunner.2 s → dinv s.
Proof.
  intros Hreach. eapply (rtc_invariant (dstep d) dinv); [apply dinv_step | done |].
  split; simpl; [done|]. split; [done | by intros [r Hr]].
Qed.

Definition is_running (g : dgoroutine) : bool := bool_decide (dg_at g = GRun).

(** The runnables that still run can all return nil. *)
Lemma all_return d s :
  d_panicked s = false →
  ∃ s', rtc (dstep d) s s' ∧ (∀ g, g ∈ d_gs s' → dg_at g ≠ GRun) ∧
    d_control s' = d_control s ∧
    (∀ i t e, d_gs s !! i = Some (mkDG t (GSend e)) → d_gs s' !! i = Some (mkDG t (GSend e))).
Proof.
  remember (length (filter is_running (d_gs s))) as n eqn:Hn.
  revert s Hn. induction n as [|n IH]; intros s Hn Hp.
  - exists s. split; [done|]. split; [|done]. intros g Hg Hrun.
    assert (Hf : g ∈ filter is_running (d_gs s)).
    { apply list_elem_of_filter. split; [|done]. unfold is_running.
      by rewrite bool_decide_eq_true_2. }
    destruct (filter is_running (d_gs s)); [by apply not_elem_of_nil in Hf | done].
  - assert (∃ i t, d_gs s !! i = Some (mkDG t GRun)) as (i & t & Hi).
    { destruct (filter is_running (d_gs s)) as [|g l] eqn:E; [done|].
      assert (Hg : g ∈ filter is_running (d_gs s)) by (rewrite E; by left).
      apply list_elem_of_filter in Hg as [Hr Hg]. unfold is_running in Hr.
      apply bool_decide_unpack in Hr. apply list_elem_of_lookup in Hg as [i Hi].
      exists i, (dg_tuple g). destruct g as [t g]. simpl in *. by subst. }
    destruct (IH (set_dg i GDone s)) as (s' & Hs & Hrun & Hc & Hkeep).
    + simpl. clear IH Hp. revert n i Hi Hn. induction (d_gs s) as [|g l IH]; intros n [|i] Hi Hn; try done.
      * injection Hi as ->. rewrite filter_cons_True in Hn by done. simpl in *.
        rewrite filter_cons_False by (by intros ?). by injection Hn.
      * simpl in *. destruct (decide (is_running g)) as [Hd|Hd].
        -- rewrite filter_cons_True in Hn |- * by done. simpl in *. destruct n as [|n].
           ++ exfalso. assert (Hf : mkDG t GRun ∈ filter is_running l).
              { apply list_elem_of_filter. split; [done|]. by eapply list_elem_of_lookup_2. }
              destruct (filter is_running l); [by apply not_elem_of_nil in Hf | done].
           ++ f_equal. apply (IH n i); [done|]. by injection Hn.
        -- rewrite filter_cons_False in Hn |- * by done. by apply IH.
    + done.
    + exists s'. split; [eapply rtc_l; [|done]; by eapply d_return_nil|]. split; [done|].
      split; [done|]. intros j t' e Hj. apply Hkeep. simpl. rewrite list_lookup_alter_ne; [done|].
      intros ->. congruence.
Qed.

(** A runnable of a [DynamicMultiRunner] that fails after the runner began to shut
    down (its context is done, or another runnable failed) and that read [mainTimedOut]
    as false can never finish: its error has no receiver, and once [Run] has returned
    and closed the channel the send panics, which every such state can come to. *)
Theorem shutdown_error_panics d s i t e ph :
  rtc (dstep d) NewDynamicMultiRunner.2 s → d_panicked s = false →
  d_main s = Some ph → ph ≠ MSelect → d_gs s !! i = Some (mkDG t (GSend e)) →
  (∀ s', rtc (dstep d) s s' → d_gs s' !! i = Some (mkDG t (GSend e))) ∧
  (∃ s', rtc (dstep d) s s' ∧ d_panicked s' = true).
Proof.
  intros Hreach Hp Hm Hph Hi.
  pose proof (reachable_dinv d s Hreach) as Hinv.
  split.
  - intros s' Hs'.
    assert (H : d_gs s' !! i = Some (mkDG t (GSend e)) ∧ d_main s' ≠ Some MSelect ∧ d_running s' = true).
    { eapply (rtc_invariant (dstep d) (λ s, d_gs s !! i = Some (mkDG t (GSend e)) ∧
        d_main s ≠ Some MSelect ∧ d_running s = true)); [|done|].
      - intros x y Hxy (H1 & H2 & H3). by eapply dstep_keeps_sender.
      - split; [done|]. rewrite Hm. split; [congruence|]. apply Hinv. by rewrite Hm. }
    apply H.
  - destruct ph as [|err|r]; [done| |].
    + destruct (all_return d s Hp) as (s1 & Hs1 & Hrun & Hc & Hkeep).
      assert (Hp1 : d_panicked s1 = false) by (unfold d_control in Hc; congruence).
      assert (Hm1 : d_main s1 = Some (MWait err)) by (unfold d_control in Hc; congruence).
      exists (set_panicked (set_main true true (MReturned err) s1)). split; [|done].
      eapply rtc_r; [eapply rtc_r; [exact Hs1|by apply d_waited]|].
      eapply d_send_closed; [done | simpl; by apply Hkeep | done].
    + exists (set_panicked s). split; [|done]. apply rtc_once. eapply d_send_closed; [done..|].
      apply Hinv. rewrite Hm. by eexists.
Qed.

(** The runner can be run once: from the first [Run] on, every later call is refused
    as "already running", also when the first has long returned. *)
Theorem Run_only_once d s s' :
  rtc (dstep d) NewDynamicMultiRunner.2 s → d_main s ≠ None → rtc (dstep d) s s' →
  Run_start s' = inr (ErrorString "already running").
Proof.
  intros Hreach Hm Hs. unfold Run_start.
  assert (H : d_running s' = true).
  { eapply (rtc_invariant (dstep d) (λ s, d_running s = true)); [apply dstep_running | done |].
    apply (reachable_dinv d s Hreach). done. }
  by rewrite H.
Qed.

(** ** [RemoveRunnable] *)

(** The loop past the only match, or with none, changes nothing more. *)
Lemma RemoveRunnable_loop_none is_r n i arr len c :
  (∀ j t, i ≤ j < i + n → arr !! j = Some t → is_r t = false) →
  RemoveRunnable_loop is_r n i arr len c = (arr, len, c).
Proof.
  revert i. induction n as [|n IH]; intros i Hno; simpl; [done|].
  destruct (arr !! i) as [t|] eqn:Ht; [|done].
  rewrite (Hno i t); [|lia|done]. apply IH. intros j t' Hj. apply Hno. lia.
Qed.

Lemma RemoveRunnable_loop_one is_r pre t post i :
  is_r t = true → Forall (λ x, is_r x = false) (drop i pre) → Forall (λ x, is_r x = false) post →
  i ≤ length pre →
  let '(arr, len, c) := RemoveRunnable_loop is_r (length (pre ++ t :: post) - i) i
    (pre ++ t :: post) (length (pre ++ t :: post)) [] in
  take len arr = pre ++ post ∧ c = [t].
Proof.
  intros Ht Hpre Hpost. remember (length pre - i) as m eqn:Hm. revert i Hm Hpre.
  induction m as [|m IH]; intros i Hm Hpre Hi.
  - assert (i = length pre) as -> by lia. rewrite length_app. simpl.
    replace (length pre + S (length post) - length pre) with (S (length post)) by lia. simpl.
    rewrite lookup_app_r, Nat.sub_diag by lia. simpl. rewrite Ht.
    destruct (Nat.ltb_spec (length pre + 1) (length pre + S (length post))) as [Hlt|Hge].
    + set (arr := take _ _ ++ _ ++ _).
      assert (Harr : ∃ x, arr = pre ++ post ++ [x] ∧ (x ∈ post)).
      { unfold arr. rewrite take_app_length, drop_app_ge by lia.
        replace (length pre + 1 - length pre) with 1 by lia. simpl.
        rewrite take_ge by (rewrite drop_0; lia).
        destruct (@exists_last _ post) as (post' & x & ->); [destruct post; [simpl in Hlt; lia|done]|].
        exists x. split; [|apply elem_of_app; right; by left]. f_equal. rewrite drop_0. f_equal.
        rewrite length_app. simpl. rewrite drop_app_ge by lia.
        replace (length pre + S (length post' + 1) - 1 - length pre) with (S (length post')) by lia.
        simpl. by rewrite drop_app_length. }
      destruct Harr as (x & -> & Hx). rewrite RemoveRunnable_loop_none.
      * split; [|done]. rewrite app_assoc.
        replace (length pre + S (length post) - 1) with (length (pre ++ post)) by (rewrite length_app; lia).
        by rewrite take_app_length.
      * intros j t' Hj Hl. rewrite lookup_app_r in Hl by lia.
        apply list_elem_of_lookup_2 in Hl. rewrite Forall_forall in Hpost.
        apply elem_of_app in Hl as [Hl|Hl%list_elem_of_singleton]; [by apply Hpost|].
        subst. by apply Hpost.
    + destruct post; [|simpl in Hge; lia]. simpl. rewrite take_app_length. by rewrite app_nil_r.
  - assert (is_Some (pre !! i)) as [x Hx] by (apply lookup_lt_is_Some; lia).
    replace (length (pre ++ t :: post) - i) with (S (length (pre ++ t :: post) - S i))
      by (rewrite length_app; simpl; lia). simpl.
    rewrite lookup_app_l, Hx by lia. rewrite (drop_S _ x) in Hpre by done.
    apply Forall_cons in Hpre as [-> Hpre]. apply IH; [lia | done | lia].
Qed.

(** [RemoveRunnable] of a runnable that was added once takes exactly it out of the
    list, in place, and cancels its context (when it was started); one that is not in
    the list changes nothing. *)
Theorem RemoveRunnable_correct r s :
  let is_r t := match d_tuples s !! t with
                | Some tp => bool_decide (rn_id (tp_runner tp) = rn_id r) | None => false end in
  let s' := DynamicMultiRunner_RemoveRunnable r s in
  ((∀ t, t ∈ d_runners s → is_r t = false) → d_runners s' = d_runners s) ∧
  (∀ pre t post, d_runners s = pre ++ t :: post → is_r t = true →
     (∀ x, x ∈ pre ++ post → is_r x = false) →
     d_runners s' = pre ++ post ∧
     (d_running s = true → ∀ tp, d_tuples s !! t = Some tp → tp_cancelFunc tp = true →
        ∃ tp', d_tuples s' !! t = Some tp' ∧ tp_cancelled tp' = true)).
Proof.
  intros is_r s'. unfold s', DynamicMultiRunner_RemoveRunnable. fold is_r. split.
  - intros Hno. rewrite RemoveRunnable_loop_none.
    + simpl. by rewrite take_ge.
    + intros j t _ Ht. apply Hno. by eapply list_elem_of_lookup_2.
  - intros pre t post Heq Ht Hno. rewrite Heq.
    pose proof (RemoveRunnable_loop_one is_r pre t post 0 Ht) as H.
    rewrite Nat.sub_0_r, drop_0 in H.
    destruct (RemoveRunnable_loop _ _ _ _ _ _) as [[arr len] c].
    destruct H as [H1 ->]; [apply Forall_forall; intros x Hx; apply Hno, elem_of_app; by left |
      apply Forall_forall; intros x Hx; apply Hno, elem_of_app; by right | lia |].
    simpl. split; [done|]. intros Hr tp Htp Hcf. rewrite list_lookup_alter_eq, Htp. simpl.
    rewrite Hr, Hcf. simpl. by eexists.
Qed.

(** Removing a runnable that was added twice, with others in between, leaves it in the
    list: both entries are found, but the second removal slices the list back to where
    the copied-down element lies. *)
Theorem RemoveRunnable_duplicate r s a b c :
  let is_r t := match d_tuples s !! t with
                | Some tp => bool_decide (rn_id (tp_runner tp) = rn_id r) | None => false end in
  d_runners s = [a; b; c] → is_r a = true → is_r b = false → is_r c = true →
  d_runners (DynamicMultiRunner_RemoveRunnable r s) = [b; c].
Proof.
  intros is_r Heq Ha Hb Hc. unfold DynamicMultiRunner_RemoveRunnable. fold is_r. rewrite Heq.
  simpl. rewrite Ha. simpl. by rewrite Hc.
Qed.

(** ** [SingletonRunner] *)

Record SingletonRunner := mkSingletonRunner {
  sr_Wrapped : Runnable;
  sr_StopOnAny : bool;
}.

Definition NewSingletonRunner (runnable : Runnable) (stopOnAny : bool) : SingletonRunner :=
  mkSingletonRunner runnable stopOnAny.

(** [PrometheusCollectors] and [HealthChecks]: the wrapped value's own check first. *)
Definition SingletonRunner_PrometheusCollectors (s : SingletonRunner) : list Collector :=
  default [] (rn_PrometheusCollectors (sr_Wrapped s)).
Definition SingletonRunner_HealthChecks (s : SingletonRunner) : list nat :=
  option_list (rn_HealthCheck (sr_Wrapped s)) ++ default [] (rn_HealthChecks (sr_Wrapped s)).

(** One run of the wrapped runnable: its context's cause once it is cancelled, and
    whether [Wrapped.Run] is active. *)
Record instance_ := mkInstance { in_cause : option (option GoError); in_active : bool }.

(** A call of [Run]: before the locked section, in the select, returned. *)
Inductive call_phase := CEnter | CSelect | CReturned (res : option (option GoError)).
Record call := mkCall { call_ctxDone : bool; call_at : call_phase }.

(** [context.Cause] after [cancel(err)]: nil stands for [context.Canceled]. *)
Definition Canceled : GoError := ErrorString "context canceled".

Record sstate := mkSState {
  s_running : bool;
  s_ctx : option nat;
  s_insts : list instance_;
  s_calls : list call;
  s_waiting : nat;
  s_woken : nat;
}.

Definition active_call (c : call) : bool :=
  match call_at c with CReturned _ => false | _ => true end.

(** [s.cancel(err)]: the first cause stays. *)
Definition cancel_with (err : option GoError) (i : instance_) : instance_ :=
  match in_cause i with
  | Some _ => i
  | None => mkInstance (Some (Some (default Canceled err))) (in_active i)
  end.

(** Cancel through the fields [s.ctx], [s.cancel], whatever instance they hold now. *)
Definition cancel_current (err : option GoError) (s : sstate) : list instance_ :=
  match s_ctx s with Some j => alter (cancel_with err) j (s_insts s) | None => s_insts s end.

(** The steps of [SingletonRunner.Run]: calls, the goroutine watching a call's context,
    the wrapped runnable's goroutine, and the one that waits for all calls to end. *)
Inductive sstep (r : SingletonRunner) : sstate → sstate → Prop :=
| s_call s :
    sstep r s (mkSState (s_running s) (s_ctx s) (s_insts s) (s_calls s ++ [mkCall false CEnter]) (s_waiting s) (s_woken s))
| s_ctxDone s k c :
    s_calls s !! k = Some c →
    sstep r s (mkSState (s_running s) (s_ctx s) (s_insts s)
                 (<[k := mkCall true (call_at c)]> (s_calls s)) (s_waiting s) (s_woken s))
| s_watch s k c :
    s_calls s !! k = Some c → call_ctxDone c = true → sr_StopOnAny r = true →
    sstep r s (mkSState (s_running s) (s_ctx s) (cancel_current (Some ErrOtherRunStopped) s) (s_calls s)
                 (s_waiting s) (s_woken s))
| s_enter_running s k c :
    s_calls s !! k = Some c → call_at c = CEnter → s_running s = true →
    sstep r s (mkSState true (s_ctx s) (s_insts s)
                 (<[k := mkCall (call_ctxDone c) CSelect]> (s_calls s)) (s_waiting s) (s_woken s))
| s_enter_first s k c :
    s_calls s !! k = Some c → call_at c = CEnter → s_running s = false →
    sstep r s (mkSState true (Some (length (s_insts s)))
                 (s_insts s ++ [mkInstance None true])
                 (<[k := mkCall (call_ctxDone c) CSelect]> (s_calls s)) (S (s_waiting s)) (s_woken s))
| s_wrapped_done s j i err :
    s_insts s !! j = Some i → in_active i = true →
    sstep r s (mkSState (s_running s) (s_ctx s)
                 (alter (λ i, mkInstance (in_cause i) false) j (cancel_current err s)) (s_calls s)
                 (s_waiting s) (s_woken s))
| s_return_cause s k c j i e :
    s_calls s !! k = Some c → call_at c = CSelect → s_ctx s = Some j →
    s_insts s !! j = Some i → in_cause i = Some e →
    sstep r s (mkSState (s_running s) (s_ctx s) (s_insts s)
                 (<[k := mkCall (call_ctxDone c) (CReturned (Some e))]> (s_calls s)) (s_waiting s) (s_woken s))
| s_return_ctx s k c :
    s_calls s !! k = Some c → call_at c = CSelect → call_ctxDone c = true →
    sstep r s (mkSState (s_running s) (s_ctx s) (s_insts s)
                 (<[k := mkCall (call_ctxDone c) (CReturned None)]> (s_calls s)) (s_waiting s) (s_woken s))
| s_wake s n :
    s_waiting s = S n → Forall (λ c, active_call c = false) (s_calls s) →
    sstep r s (mkSState (s_running s) (s_ctx s) (s_insts s) (s_calls s) n (S (s_woken s)))
| s_reset s n :
    s_woken s = S n → sstep r s (mkSState false (s_ctx s) (s_insts s) (s_calls s) (s_waiting s) n).

Definition sinit : sstate := mkSState false None [] [] 0 0.

(** Runs of the wrapped runnable that go on and have not been told to stop. *)
Definition live (i : instance_) : bool :=
  in_active i && match in_cause i with None => true | Some _ => false end.
Definition lives (s : sstate) : nat := length (filter live (s_insts s)).

(** Without [StopOnAny], a [SingletonRunner] all calls of which have returned because
    their contexts are done does not stop the wrapped runnable, and the next [Run] starts
    it once more beside the one still running: for every [n] a state with no call left
    and [n] live runs of the one runnable is reachable. *)
Theorem SingletonRunner_leaks r n :
  ∃ s, rtc (sstep r) sinit s ∧ lives s = n ∧ s_running s = false ∧ s_waiting s = 0 ∧ s_woken s = 0 ∧
    Forall (λ c, call_at c = CReturned None) (s_calls s).
Proof.
  induction n as [|n (s & Hs & Hl & Hr & Hw & Hk0 & Hc)].
  { exists sinit. repeat split; [done | constructor]. }
  set (k := length (s_calls s)).
  set (run := λ b ph, s_calls s ++ [mkCall b ph]).
  assert (Hk : ∀ b ph, run b ph !! k = Some (mkCall b ph)).
  { intros b ph. unfold run, k. by rewrite lookup_app_r, Nat.sub_diag by lia. }
  assert (Hins : ∀ b ph c, <[k := c]> (run b ph) = s_calls s ++ [c]).
  { intros b ph c. unfold run, k. by rewrite insert_app_r_alt, Nat.sub_diag by lia. }
  set (insts := s_insts s ++ [mkInstance None true]).
  set (ctx := Some (length (s_insts s))).
  exists (mkSState false ctx insts (run true (CReturned None)) 0 0).
  split; [|split; [|split; [done|split; [done|split; [done|]]]]].
  - etransitivity; [exact Hs|].
    eapply (rtc_l _ _ (mkSState (s_running s) (s_ctx s) (s_insts s) (run false CEnter) 0 0)).
    { pose proof (s_call r s) as Hstep. by rewrite Hw, Hk0 in Hstep. }
    eapply (rtc_l _ _ (mkSState true ctx insts (run false CSelect) 1 0)).
    { unfold ctx, insts. unfold run at 2. rewrite <- (Hins false CEnter).
      apply (s_enter_first r (mkSState (s_running s) (s_ctx s) (s_insts s) (run false CEnter) 0 0) k
        (mkCall false CEnter)); [apply Hk | done | exact Hr]. }
    eapply (rtc_l _ _ (mkSState true ctx insts (run true CSelect) 1 0)).
    { unfold run at 2. rewrite <- (Hins false CSelect).
      apply (s_ctxDone r (mkSState true ctx insts (run false CSelect) 1 0) k (mkCall false CSelect)),
        Hk. }
    eapply (rtc_l _ _ (mkSState true ctx insts (run true (CReturned None)) 1 0)).
    { unfold run at 2. rewrite <- (Hins true CSelect).
      apply (s_return_ctx r (mkSState true ctx insts (run true CSelect) 1 0) k (mkCall true CSelect));
        [apply Hk | done | done]. }
    eapply (rtc_l _ _ (mkSState true ctx insts (run true (CReturned None)) 0 1)).
    { apply (s_wake r (mkSState true ctx insts (run true (CReturned None)) 1 0) 0); [done|].
      simpl. apply Forall_app. split; [|by repeat constructor].
      eapply Forall_impl; [exact Hc|]. unfold active_call. by intros c ->. }
    apply rtc_once. by apply (s_reset r (mkSState true ctx insts (run true (CReturned None)) 0 1) 0).
  - unfold lives, insts in *. simpl. rewrite filter_app, length_app, Hl. simpl. lia.
  - apply Forall_app. split; [done | by repeat constructor].
Qed.

(** ** Witnesses *)

Definition test_runnable (n : nat) : Runnable := mkRunnable n None None None.

(** A runner fails, the default handler stops the others, and [Run] returns its error. *)
Lemma MultiRunner_correct_witness :
  let m := MultiRunner_AddRunnable (test_runnable 0) NewMultiRunner in
  let e := ErrorString "failed" in
  ∃ s, rtc (mstep m) (minit m) s ∧ m_main s = MReturned (Some e) ∧ m_cancelled s = true ∧
    (m_timedOut s = false → GRun ∉ m_gs s).
Proof.
  intros m e.
  set (s := mkMState [GDone] [] true false true false (MReturned (Some e))).
  assert (Hs : rtc (mstep m) (minit m) s).
  { eapply rtc_l; [apply (m_return_err m (minit m) 0 e); reflexivity|].
    eapply rtc_l; [eapply (m_tosend m _ 0 e); reflexivity|].
    eapply rtc_l; [eapply (m_send m _ 0 e); [reflexivity | reflexivity | simpl; lia]|].
    eapply rtc_l; [eapply (m_recv m _ e []); reflexivity|].
    apply rtc_once. apply (m_waited m (mkMState [GDone] [] false false true false (MWait (Some e))) (Some e));
      [reflexivity|].
    simpl. apply (bool_decide_unpack _). vm_compute. exact I. }
  exists s. destruct (MultiRunner_correct m s Hs) as [H _].
  destruct (H (Some e) eq_refl) as (H1 & H2 & _).
  split; [exact Hs|]. split; [reflexivity|]. split; [exact H1|]. intros Ht. apply H2, Ht.
Defined.

(** A single runnable that returns an error when its context is done. *)
Lemma shutdown_error_panics_witness :
  let d := mkDynamicMultiRunner None None in
  ∃ s, rtc (dstep d) NewDynamicMultiRunner.2 s ∧ d_panicked s = true.
Proof.
  intros d. set (e := ErrorString "context canceled").
  set (s := mkDState [mkTuple (test_runnable 0) true false false] [0] true [mkDG 0 (GSend e)] false true
              true (Some (MWait None)) false).
  assert (Hs : rtc (dstep d) NewDynamicMultiRunner.2 s).
  { eapply rtc_l; [apply (d_add d _ (test_runnable 0)); reflexivity|].
    eapply rtc_l; [eapply d_start; reflexivity|].
    eapply rtc_l; [apply d_ctx; reflexivity|].
    eapply rtc_l; [apply d_done; reflexivity|].
    eapply rtc_l; [eapply (d_return_err d _ 0 0 e); reflexivity|].
    eapply rtc_l; [eapply (d_tosend d _ 0 0 e); reflexivity|]. reflexivity. }
  destruct (shutdown_error_panics d s 0 0 e (MWait None) Hs) as [_ (s' & Hs' & Hp)].
  - reflexivity.
  - reflexivity.
  - discriminate.
  - reflexivity.
  - exists s'. split; [by etransitivity | exact Hp].
Defined.

Lemma Run_only_once_witness :
  let d := mkDynamicMultiRunner None None in
  ∃ s, rtc (dstep d) NewDynamicMultiRunner.2 s ∧ d_main s = Some (MReturned None) ∧
    Run_start s = inr (ErrorString "already running").
Proof.
  intros d. set (s := mkDState [] [] true [] true true true (Some (MReturned None)) false).
  set (s0 := mkDState [] [] true [] false false false (Some MSelect) false).
  assert (H0 : rtc (dstep d) NewDynamicMultiRunner.2 s0).
  { apply rtc_once, d_start; reflexivity. }
  assert (Hs : rtc (dstep d) s0 s).
  { eapply rtc_l; [apply d_ctx; reflexivity|].
    eapply rtc_l; [apply d_done; reflexivity|].
    apply rtc_once. apply (d_waited d (mkDState [] [] true [] false true true (Some (MWait None)) false) None);
      [reflexivity | reflexivity |].
    simpl. by intros g ?%not_elem_of_nil. }
  exists s. split; [by etransitivity|]. split; [reflexivity|].
  apply (Run_only_once d s0 s H0); [discriminate | exact Hs].
Defined.

Lemma RemoveRunnable_duplicate_witness :
  let s := foldl (λ s n, DynamicMultiRunner_AddRunnable (test_runnable n) s)
             NewDynamicMultiRunner.2 [7; 8; 7] in
  dynamic_runners (DynamicMultiRunner_RemoveRunnable (test_runnable 7) s) =
    [test_runnable 8; test_runnable 7].
Proof.
  intros s. unfold dynamic_runners.
  rewrite (RemoveRunnable_duplicate (test_runnable 7) s 0 1 2 eq_refl eq_refl eq_refl eq_refl).
  reflexivity.
Defined.
