(* ===== verification/InformerController.v ===== *)
(** * The informer controller ([operator/informer_controller.go])

    [InformerController] calls watchers and reconcilers for the events of informers and
    queues what fails for retry, in a list map walked by a ticker or, when configured,
    in the retry processor.  The four list maps are the string-keyed lists which
    [ListMap_refines] shows a [ListMap] to hold.  An event handler runs on the pair of
    the controller and the world; the handlers of the user act on the world.  A list map
    is read once at the start of a [Range].  Not modelled: the latency histograms (they
    time the calls), tracing and logging. *)
From S2P Require Import Prelude Resource Concrete ListMap RetryPolicy RetryProcessor.
From S2P Require Import ResourceWatcher Finalizers Reconciler Runners.

Record retryInfo (W : Type) := mkRetryInfo {
  retryAfter : Z;
  retryFunc : M W (option Z * option GoError);
  attempt : Z;
  action : ResourceAction;
  object : Ref;
  err : option GoError;
}.
Arguments mkRetryInfo {W}.
Arguments retryAfter {W}.
Arguments retryFunc {W}.
Arguments attempt {W}.
Arguments action {W}.
Arguments object {W}.
Arguments err {W}.

(** [Informer]: as a [Runnable], and [AddEventHandler], given the resource kind whose
    three handler functions the [SimpleWatcher] of [AddInformer] holds. *)
Record Informer (W : Type) := mkInformer {
  inf_Runnable : Runnable;
  AddEventHandler : string → M W (option GoError);
}.
Arguments mkInformer {W}.
Arguments inf_Runnable {W}.
Arguments AddEventHandler {W}.

(** The counters and gauges, by event type and kind. *)
Record Metrics := mkMetrics {
  totalEvents : gmap (string * string) Z;
  inflightActions : gmap (string * string) Z;
  inflightEvents : gmap (string * string) Z;
}.

Definition gauge (m : gmap (string * string) Z) (label : string * string) : Z :=
  default 0%Z (m !! label).
Definition gauge_add (label : string * string) (d : Z) (m : gmap (string * string) Z) :=
  <[label := (gauge m label + d)%Z]> m.

(** A watcher or reconciler in a list comes with the identity [==] compares. *)
Record InformerController (W : Type) := mkController {
  ErrorHandler : option (GoError → M W unit);
  c_RetryPolicy : option RetryPolicy;
  c_RetryDequeuePolicy : option RetryDequeuePolicy;
  informers : gmap string (list (Informer W));
  watchers : gmap string (list (nat * ResourceWatcher W));
  reconcilers : gmap string (list (nat * Reconciler W));
  toRetry : gmap string (list (retryInfo W));
  retryProcessor : option (defaultRetryProcessor W);
  runner : dstate;
  metrics : Metrics;
}.
Arguments mkController {W}.
Arguments ErrorHandler {W}.
Arguments c_RetryPolicy {W}.
Arguments c_RetryDequeuePolicy {W}.
Arguments informers {W}.
Arguments watchers {W}.
Arguments reconcilers {W}.
Arguments toRetry {W}.
Arguments retryProcessor {W}.
Arguments runner {W}.
Arguments metrics {W}.

Definition ErrNilObject : GoError := ErrorString "object cannot be nil".
Definition ErrInformerAlreadyAdded : GoError :=
  ErrorString "informer for resource kind already added".

(** [InformerControllerConfig] *)
Record InformerControllerConfig (W : Type) := mkConfig {
  cfg_ErrorHandler : option (GoError → M W unit);
  cfg_RetryPolicy : option RetryPolicy;
  cfg_RetryDequeuePolicy : option RetryDequeuePolicy;
  cfg_RetryProcessorConfig : option RetryProcessorConfig;
}.
Arguments mkConfig {W}.
Arguments cfg_ErrorHandler {W}.
Arguments cfg_RetryPolicy {W}.
Arguments cfg_RetryDequeuePolicy {W}.
Arguments cfg_RetryProcessorConfig {W}.

Section Controller.
Context {W : Type} `{WW : !World W} `{XX : !Xxhash} (float64_overflow : Z).

(** [DefaultErrorHandler] only logs. *)
Definition DefaultErrorHandler : GoError → M W unit := λ _, ret tt.

(** [DefaultInformerControllerConfig] *)
Definition DefaultInformerControllerConfig : InformerControllerConfig W :=
  mkConfig (Some DefaultErrorHandler) (Some (DefaultRetryPolicy float64_overflow))
    (Some OpinionatedRetryDequeuePolicy) None.

(** [NewInformerController] *)
Definition NewInformerController (cfg : InformerControllerConfig W) : InformerController W :=
  mkController
    (match cfg_ErrorHandler cfg with Some h => Some h | None => Some DefaultErrorHandler end)
    (match cfg_RetryPolicy cfg with
     | Some p => Some p | None => Some (DefaultRetryPolicy float64_overflow) end)
    (cfg_RetryDequeuePolicy cfg)
    ∅ ∅ ∅ ∅
    (NewRetryProcessor <$> cfg_RetryProcessorConfig cfg)
    NewDynamicMultiRunner.2 (mkMetrics ∅ ∅ ∅).

(** The controller and the world. *)
Definition CState : Type := InformerController W * W.

(** A computation on the world. *)
Definition lift {A} (m : M W A) : M CState A :=
  λ '(c, w), let '(a, w') := m w in (a, (c, w')).

Definition the_controller : M CState (InformerController W) := gets fst.

Definition set_toRetry (q : gmap string (list (retryInfo W))) (c : InformerController W) :=
  mkController (ErrorHandler c) (c_RetryPolicy c) (c_RetryDequeuePolicy c) (informers c)
    (watchers c) (reconcilers c) q (retryProcessor c) (runner c) (metrics c).

Definition set_processor (p : defaultRetryProcessor W) (c : InformerController W) :=
  mkController (ErrorHandler c) (c_RetryPolicy c) (c_RetryDequeuePolicy c) (informers c)
    (watchers c) (reconcilers c) (toRetry c) (Some p) (runner c) (metrics c).

Definition set_metrics (m : Metrics) (c : InformerController W) :=
  mkController (ErrorHandler c) (c_RetryPolicy c) (c_RetryDequeuePolicy c) (informers c)
    (watchers c) (reconcilers c) (toRetry c) (retryProcessor c) (runner c) m.

Definition set_lists (i : gmap string (list (Informer W)))
    (ws : gmap string (list (nat * ResourceWatcher W)))
    (rs : gmap string (list (nat * Reconciler W))) (r : dstate) (c : InformerController W) :=
  mkController (ErrorHandler c) (c_RetryPolicy c) (c_RetryDequeuePolicy c) i ws rs
    (toRetry c) (retryProcessor c) r (metrics c).

(** ** Adding and removing informers, watchers and reconcilers *)

(** [AddInformer]; a nil informer is [None]. *)
Definition AddInformer (informer : option (Informer W)) (resourceKind : string)
  : M CState (option GoError) :=
  match informer with
  | None => ret (Some (ErrorString "informer cannot be nil"))
  | Some informer =>
      if bool_decide (resourceKind = ""%string) then
        ret (Some (ErrorString "resourceKind cannot be empty"))
      else
        let* e := lift (AddEventHandler informer resourceKind) in
        match e with
        | Some e => ret (Some e)
        | None =>
            modify (λ '(c, w),
              (set_lists (spec_op (informers c) (OpAddItem resourceKind [informer]))
                 (watchers c) (reconcilers c)
                 (DynamicMultiRunner_AddRunnable (inf_Runnable informer) (runner c)) c, w)) ;;;
            ret None
        end
  end.

(** [RemoveInformer] *)
Definition RemoveInformer (informer : Informer W) (resourceKind : string) : M CState unit :=
  modify (λ '(c, w),
    (set_lists (spec_op (informers c) (OpRemoveItem resourceKind
                  (λ i, bool_decide (rn_id (inf_Runnable i) = rn_id (inf_Runnable informer)))))
       (watchers c) (reconcilers c)
       (DynamicMultiRunner_RemoveRunnable (inf_Runnable informer) (runner c)) c, w)).

(** [AddWatcher] *)
Definition AddWatcher (watcher : option (nat * ResourceWatcher W)) (resourceKind : string)
  : M CState (option GoError) :=
  match watcher with
  | None => ret (Some (ErrorString "watcher cannot be nil"))
  | Some watcher =>
      if bool_decide (resourceKind = ""%string) then
        ret (Some (ErrorString "resourceKind cannot be empty"))
      else
        modify (λ '(c, w),
          (set_lists (informers c) (spec_op (watchers c) (OpAddItem resourceKind [watcher]))
             (reconcilers c) (runner c) c, w)) ;;;
        ret None
  end.

(** [RemoveWatcher] *)
Definition RemoveWatcher (watcher : nat * ResourceWatcher W) (resourceKind : string)
  : M CState unit :=
  modify (λ '(c, w),
    (set_lists (informers c)
       (spec_op (watchers c) (OpRemoveItem resourceKind (λ x, bool_decide (watcher.1 = x.1))))
       (reconcilers c) (runner c) c, w)).

(** [RemoveAllWatchersForResource] *)
Definition RemoveAllWatchersForResource (resourceKind : string) : M CState unit :=
  modify (λ '(c, w),
    (set_lists (informers c) (spec_op (watchers c) (OpRemoveKey resourceKind))
       (reconcilers c) (runner c) c, w)).

(** [AddReconciler] *)
Definition AddReconciler (reconciler : option (nat * Reconciler W)) (resourceKind : string)
  : M CState (option GoError) :=
  match reconciler with
  | None => ret (Some (ErrorString "reconciler cannot be nil"))
  | Some reconciler =>
      if bool_decide (resourceKind = ""%string) then
        ret (Some (ErrorString "resourceKind cannot be empty"))
      else
        modify (λ '(c, w),
          (set_lists (informers c) (watchers c)
             (spec_op (reconcilers c) (OpAddItem resourceKind [reconciler])) (runner c) c, w)) ;;;
        ret None
  end.

(** [RemoveReconciler] *)
Definition RemoveReconciler (reconciler : nat * Reconciler W) (resourceKind : string)
  : M CState unit :=
  modify (λ '(c, w),
    (set_lists (informers c) (watchers c)
       (spec_op (reconcilers c) (OpRemoveItem resourceKind (λ x, bool_decide (reconciler.1 = x.1))))
       (runner c) c, w)).

(** [RemoveAllReconcilersForResource] *)
Definition RemoveAllReconcilersForResource (resourceKind : string) : M CState unit :=
  modify (λ '(c, w),
    (set_lists (informers c) (watchers c)
       (spec_op (reconcilers c) (OpRemoveKey resourceKind)) (runner c) c, w)).

(** ** Retry keys *)

(** [keyForWatcherEvent] and [keyForReconcilerEvent]; a nil object is [None]. *)
Definition keyForWatcherEvent (resourceKind : string) (watcherIndex : nat) (obj : option Object)
  : string :=
  match obj with
  | None => resourceKind +:+ ":" +:+ pretty watcherIndex +:+ ":nil:nil"
  | Some o => resourceKind +:+ ":" +:+ pretty watcherIndex +:+ ":" +:+ GetNamespace o +:+ ":" +:+
              GetName o
  end.

Definition keyForReconcilerEvent (resourceKind : string) (reconcilerIndex : nat)
    (obj : option Object) : string :=
  match obj with
  | None => "reconcile:" +:+ resourceKind +:+ ":" +:+ pretty reconcilerIndex +:+ ":nil:nil"
  | Some o => "reconcile:" +:+ resourceKind +:+ ":" +:+ pretty reconcilerIndex +:+ ":" +:+
              GetNamespace o +:+ ":" +:+ GetName o
  end.

(** ** Queueing retries *)

(** Add a retry to the processor or to the list map. *)
Definition add_retry (key : string) (info : retryInfo W) : M CState unit :=
  modify (λ '(c, w),
    match retryProcessor c with
    | Some p =>
        (set_processor (Enqueue (mkRetryRequest key (retryAfter info) (retryFunc info)
           (attempt info) (action info) (object info) (err info)) p) c, w)
    | None => (set_toRetry (spec_op (toRetry c) (OpAddItem key [info])) c, w)
    end).

(** [queueRetry] *)
Definition queueRetry (key : string) (e : GoError) (retry : M W (option Z * option GoError))
    (act : ResourceAction) (obj : Ref) : M CState unit :=
  let* c := the_controller in
  match c_RetryPolicy c with
  | None => ret tt
  | Some policy =>
      let '(ok, after) := policy e 0%Z in
      if (ok : bool) then
        let* now := lift Now in
        add_retry key (mkRetryInfo (now + after) retry 0 act obj (Some e))
      else ret tt
  end.

(** [dequeueIfRequired] *)
Definition dequeueIfRequired (retryKey : string) (current : Ref) (act : ResourceAction)
  : M CState unit :=
  modify (λ '(c, w),
    match retryProcessor c with
    | Some p =>
        match c_RetryDequeuePolicy c with
        | Some policy =>
            (set_processor (Dequeue retryKey (Some (λ req,
               policy act (deref current w) (Action req) (deref (RObject req) w) (LastError req))) p)
             c, w)
        | None => (set_processor (DequeueAll retryKey p) c, w)
        end
    | None =>
        match c_RetryDequeuePolicy c with
        | Some policy =>
            (set_toRetry (spec_op (toRetry c) (OpRemoveItems retryKey (λ info,
               policy act (deref current w) (action info) (deref (object info) w) (err info)) (-1)))
             c, w)
        | None => (set_toRetry (spec_op (toRetry c) (OpRemoveKey retryKey)) c, w)
        end
    end).

(** ** Metrics *)

Definition mod_metrics (f : Metrics → Metrics) : M CState unit :=
  modify (λ '(c, w), (set_metrics (f (metrics c)) c, w)).

(** [startEvent] and [completeEvent] *)
Definition startEvent (eventType resourceKind : string) : M CState unit :=
  mod_metrics (λ m, mkMetrics (gauge_add (eventType, resourceKind) 1 (totalEvents m))
    (inflightActions m) (gauge_add (eventType, resourceKind) 1 (inflightEvents m))).

Definition completeEvent (eventType resourceKind : string) : M CState unit :=
  mod_metrics (λ m, mkMetrics (totalEvents m) (inflightActions m)
    (gauge_add (eventType, resourceKind) (-1) (inflightEvents m))).

(** Add to the gauge of ongoing actions. *)
Definition add_inflight (eventType resourceKind : string) (d : Z) : M CState unit :=
  mod_metrics (λ m, mkMetrics (totalEvents m)
    (gauge_add (eventType, resourceKind) d (inflightActions m)) (inflightEvents m)).

(** [wrapWatcherCall] *)
Definition wrapWatcherCall (eventType resourceKind : string) (f : M CState unit) : M CState unit :=
  add_inflight eventType resourceKind 1 ;;;
  f ;;;
  add_inflight eventType resourceKind (-1).

(** ** The event handlers *)

(** What the three handlers do for a watcher, the call of which is [call]. *)
Definition watcher_event (retryKey : string) (current : Ref) (act : ResourceAction)
    (call : M W (option GoError)) : M CState unit :=
  let* e := lift call in
  match e with
  | None => ret tt
  | Some e =>
      let* c := the_controller in
      match ErrorHandler c with Some h => lift (h e) | None => ret tt end ;;;
      match c_RetryPolicy c with
      | Some _ => queueRetry retryKey e (let* e := call in ret (None, e)) act current
      | None => ret tt
      end
  end.

(** The function [doReconcile] queues: it keeps the request it was made with, so the state
    a retry returns is dropped. *)
Definition reconcile_retry (reconciler : Reconciler W) (req : ReconcileRequest)
  : M W (option Z * option GoError) :=
  let* ' (res, e) := reconciler req in ret (res_RequeueAfter res, e).

(** [doReconcile] *)
Definition doReconcile (kind : string) (reconciler : Reconciler W) (req : ReconcileRequest)
    (retryKey : string) : M CState unit :=
  let act := ResourceActionFromReconcileAction (req_Action req) in
  add_inflight act kind 1 ;;;
  (let* ' (res, e) := lift (reconciler req) in
   let req := match res_State res with Some _ => with_State (res_State res) req | None => req end in
   let retry := reconcile_retry reconciler req in
   match res_RequeueAfter res with
   | Some after =>
       let* now := lift Now in
       add_retry retryKey (mkRetryInfo (now + after) retry 0
         (ResourceActionFromReconcileAction (req_Action req)) (req_Object req) e)
   | None =>
       match e with
       | Some e =>
           let* c := the_controller in
           match ErrorHandler c with Some h => lift (h e) | None => ret tt end ;;;
           queueRetry retryKey e retry
             (ResourceActionFromReconcileAction (req_Action req)) (req_Object req)
       | None => ret tt
       end
   end) ;;;
  add_inflight act kind (-1).

(** The kind label of an object's metrics. *)
Definition kind_of (obj : Ref) : M CState string :=
  let* ' (_, w) := get in ret (sm_Kind (GetStaticMetadata (deref obj w))).

(** The retry key of a handler for an object, in the state it is called in. *)
Definition key_for (f : string → nat → option Object → string) (resourceKind : string) (idx : nat)
    (obj : Ref) : M CState string :=
  let* ' (_, w) := get in ret (f resourceKind idx (Some (deref obj w))).

(** [informerAddFunc] *)
Definition informerAddFunc (resourceKind : string) (obj : Obj) : M CState (option GoError) :=
  match obj with
  | None => ret (Some ErrNilObject)
  | Some o =>
      let* kind := kind_of o in
      startEvent ResourceActionCreate kind ;;;
      let* c := the_controller in
      for_each_idx 0 (default [] (watchers c !! resourceKind)) (λ idx watcher,
        let* retryKey := key_for keyForWatcherEvent resourceKind idx o in
        dequeueIfRequired retryKey o ResourceActionCreate ;;;
        let* k := kind_of o in
        wrapWatcherCall ResourceActionCreate k
          (watcher_event retryKey o ResourceActionCreate (rw_Add watcher.2 (Some o)))) ;;;
      let* c := the_controller in
      for_each_idx 0 (default [] (reconcilers c !! resourceKind)) (λ idx reconciler,
        let* retryKey := key_for keyForReconcilerEvent resourceKind idx o in
        dequeueIfRequired retryKey o ResourceActionCreate ;;;
        let* k := kind_of o in
        doReconcile k reconciler.2 (mkReconcileRequest ReconcileActionCreated o None) retryKey) ;;;
      completeEvent ResourceActionCreate kind ;;;
      ret None
  end.

(** The action of an update for the reconcilers: a resync when the resource version is
    the old object's. *)
Definition update_action (old new : option Object) : ResourceAction :=
  match old, new with
  | Some old, Some new =>
      if bool_decide (GetResourceVersion old = GetResourceVersion new)
      then ResourceActionResync else ResourceActionUpdate
  | _, _ => ResourceActionUpdate
  end.

(** [informerUpdateFunc] *)
Definition informerUpdateFunc (resourceKind : string) (oldObj newObj : Obj)
  : M CState (option GoError) :=
  match newObj with
  | None => ret (Some ErrNilObject)
  | Some o =>
      let* kind := kind_of o in
      startEvent ResourceActionUpdate kind ;;;
      let* c := the_controller in
      for_each_idx 0 (default [] (watchers c !! resourceKind)) (λ idx watcher,
        let* retryKey := key_for keyForWatcherEvent resourceKind idx o in
        dequeueIfRequired retryKey o ResourceActionUpdate ;;;
        let* k := kind_of o in
        wrapWatcherCall ResourceActionUpdate k
          (watcher_event retryKey o ResourceActionUpdate (rw_Update watcher.2 oldObj (Some o)))) ;;;
      let* c := the_controller in
      for_each_idx 0 (default [] (reconcilers c !! resourceKind)) (λ idx reconciler,
        let* retryKey := key_for keyForReconcilerEvent resourceKind idx o in
        let* ' (_, w) := get in
        let act := update_action ((λ r, deref r w) <$> oldObj) (Some (deref o w)) in
        dequeueIfRequired retryKey o act ;;;
        let* k := kind_of o in
        doReconcile k reconciler.2
          (mkReconcileRequest (ReconcileActionFromResourceAction act) o None) retryKey) ;;;
      completeEvent ResourceActionUpdate kind ;;;
      ret None
  end.

(** [informerDeleteFunc]; the extra gauge is labelled as an update. *)
Definition informerDeleteFunc (resourceKind : string) (obj : Obj) : M CState (option GoError) :=
  match obj with
  | None => ret (Some ErrNilObject)
  | Some o =>
      let* kind := kind_of o in
      startEvent ResourceActionDelete kind ;;;
      let* c := the_controller in
      for_each_idx 0 (default [] (watchers c !! resourceKind)) (λ idx watcher,
        let* retryKey := key_for keyForWatcherEvent resourceKind idx o in
        dequeueIfRequired retryKey o ResourceActionDelete ;;;
        let* k := kind_of o in
        add_inflight ResourceActionUpdate k 1 ;;;
        wrapWatcherCall ResourceActionDelete k
          (watcher_event retryKey o ResourceActionDelete (rw_Delete watcher.2 (Some o))) ;;;
        add_inflight ResourceActionUpdate k (-1)) ;;;
      let* c := the_controller in
      for_each_idx 0 (default [] (reconcilers c !! resourceKind)) (λ idx reconciler,
        let* retryKey := key_for keyForReconcilerEvent resourceKind idx o in
        dequeueIfRequired retryKey o ResourceActionDelete ;;;
        let* k := kind_of o in
        doReconcile k reconciler.2 (mkReconcileRequest ReconcileActionDeleted o None) retryKey) ;;;
      completeEvent ResourceActionDelete kind ;;;
      ret None
  end.

(** ** [retryTicker] *)

(** The predicate of [RemoveItems] in a tick at [t], over the retries of one key: run what
    is due and collect what is to be added again. *)
Fixpoint tick_items (policy : option RetryPolicy) (t : Z) (infos : list (retryInfo W))
  : M W (list (retryInfo W) * list (retryInfo W)) :=
  match infos with
  | [] => ret ([], [])
  | val :: infos =>
      if (retryAfter val <? t)%Z then
        let* ' (specifiedRetry, e) := retryFunc val in
        let again :=
          match specifiedRetry with
          | Some after =>
              [mkRetryInfo (t + after) (retryFunc val) (attempt val) (action val) (object val) None]
          | None =>
              match e, policy with
              | Some e, Some policy =>
                  let '(ok, after) := policy e (attempt val + 1)%Z in
                  if (ok : bool) then
                    [mkRetryInfo (t + after) (retryFunc val) (attempt val + 1) (action val)
                       (object val) None]
                  else []
              | _, _ => []
              end
          end in
        let* ' (kept, toAdd) := tick_items policy t infos in
        ret (kept, again ++ toAdd)
      else
        let* ' (kept, toAdd) := tick_items policy t infos in
        ret (val :: kept, toAdd)
  end.

(** One key of a tick; a key that is gone has no items. *)
Definition tick_key (t : Z) (key : string) : M CState unit :=
  let* c := the_controller in
  match toRetry c !! key with
  | None => ret tt
  | Some infos =>
      let* ' (kept, toAdd) := lift (tick_items (c_RetryPolicy c) t infos) in
      modify (λ '(c, w), (set_toRetry (<[key := kept]> (toRetry c)) c, w)) ;;;
      for_each toAdd (λ inf,
        modify (λ '(c, w), (set_toRetry (spec_op (toRetry c) (OpAddItem key [inf])) c, w)))
  end.

(** A tick of [retryTicker], over the keys in the order [Keys] lists them. *)
Definition retryTicker (t : Z) (keys : list string) : M CState unit :=
  for_each keys (tick_key t).

(** ** Specification of the queue and of an event

    All pending retries, in whichever of the two queues the controller uses. *)
Definition as_request (key : string) (i : retryInfo W) : RetryRequest W :=
  mkRetryRequest key (retryAfter i) (retryFunc i) (attempt i) (action i) (object i) (err i).

Definition pending_of (c : InformerController W) : list (RetryRequest W) :=
  match retryProcessor c with
  | Some p => pending p
  | None => map_to_list (toRetry c) ≫= λ '(k, l), as_request k <$> l
  end.

Definition controller_wf (c : InformerController W) : Prop :=
  match retryProcessor c with Some p => processor_wf p | None => True end.

(** The part of a controller an event leaves alone. *)
Definition static (c : InformerController W) :=
  (ErrorHandler c, c_RetryPolicy c, c_RetryDequeuePolicy c, informers c, watchers c,
   reconcilers c, runner c).

(** What the call of one handler does to the queue: which requests of its key are
    dropped, and the request that is added. *)
Record outcome := mkOutcome {
  oc_key : string;
  oc_drop : RetryRequest W → bool;
  oc_new : option (RetryRequest W);
}.

Definition apply_outcome (q : list (RetryRequest W)) (o : outcome) : list (RetryRequest W) :=
  option_list (oc_new o) ++
  filter (λ r, negb (bool_decide (Key r = oc_key o) && oc_drop o r)) q.

Definition dropping (c : InformerController W) (w : W) (current : Ref) (act : ResourceAction)
  : RetryRequest W → bool := λ r,
  match c_RetryDequeuePolicy c with
  | Some policy => policy act (deref current w) (Action r) (deref (RObject r) w) (LastError r)
  | None => true
  end.

(** The retry of an error, by the policy. *)
Definition retry_of (c : InformerController W) (key : string) (e : GoError)
    (retry : M W (option Z * option GoError)) (act : ResourceAction) (obj : Ref)
  : M W (option (RetryRequest W)) :=
  match c_RetryPolicy c with
  | None => ret None
  | Some policy =>
      let '(ok, after) := policy e 0%Z in
      if (ok : bool) then
        let* now := Now in
        ret (Some (mkRetryRequest key (now + after) retry 0 act obj (Some e)))
      else ret None
  end.

Definition handle_error (c : InformerController W) (e : GoError) : M W unit :=
  match ErrorHandler c with Some h => h e | None => ret tt end.

(** What an error leads to: the error handler is told, the retry policy asked. *)
Definition error_new (c : InformerController W) (key : string)
    (retry : M W (option Z * option GoError)) (act : ResourceAction) (obj : Ref)
    (e : option GoError) : M W (option (RetryRequest W)) :=
  match e with
  | None => ret None
  | Some e => handle_error c e ;;; retry_of c key e retry act obj
  end.

(** One watcher's call, on the world alone: it is called once, and called again when
    its error is retried. *)
Definition watcher_outcome (c : InformerController W) (key : string) (current : Ref)
    (act : ResourceAction) (call : M W (option GoError)) : M W outcome :=
  let* w := get in
  let* e := call in
  let* new := error_new c key (let* e := call in ret (None, e)) act current e in
  ret (mkOutcome key (dropping c w current act) new).

(** One reconciler's call: a requeue goes before an error, and the state of the result
    becomes the state of the retried request. *)
Definition reconciler_new (c : InformerController W) (key : string) (reconciler : Reconciler W)
    (req : ReconcileRequest) (res : ReconcileResult) (e : option GoError)
  : M W (option (RetryRequest W)) :=
  let req' := match res_State res with Some _ => with_State (res_State res) req | None => req end in
  let retry := reconcile_retry reconciler req' in
  let act := ResourceActionFromReconcileAction (req_Action req) in
  match res_RequeueAfter res with
  | Some after =>
      let* now := Now in
      ret (Some (mkRetryRequest key (now + after) retry 0 act (req_Object req) e))
  | None => error_new c key retry act (req_Object req) e
  end.

Definition reconciler_outcome (c : InformerController W) (key : string)
    (act : ResourceAction) (reconciler : Reconciler W) (req : ReconcileRequest) : M W outcome :=
  let* w := get in
  let* r := reconciler req in
  let* new := reconciler_new c key reconciler req r.1 r.2 in
  ret (mkOutcome key (dropping c w (req_Object req) act) new).

(** Run a list of calls in order and collect their outcomes. *)
Fixpoint outcomes {A} (i : nat) (l : list A) (f : nat → A → M W outcome) : M W (list outcome) :=
  match l with
  | [] => ret []
  | x :: l => let* o := f i x in let* os := outcomes (S i) l f in ret (o :: os)
  end.

(** The calls of one event for the object [o]: every watcher of the kind in order, then
    every reconciler in order. *)
Definition event_outcomes (c : InformerController W) (resourceKind : string) (o : Ref)
    (act : ResourceAction) (call : ResourceWatcher W → M W (option GoError))
    (ract : W → ResourceAction) : M W (list outcome) :=
  let* os1 := outcomes 0 (default [] (watchers c !! resourceKind)) (λ idx watcher,
    let* w := get in
    watcher_outcome c (keyForWatcherEvent resourceKind idx (Some (deref o w))) o act (call watcher.2)) in
  let* os2 := outcomes 0 (default [] (reconcilers c !! resourceKind)) (λ idx reconciler,
    let* w := get in
    reconciler_outcome c (keyForReconcilerEvent resourceKind idx (Some (deref o w))) (ract w) reconciler.2
      (mkReconcileRequest (ReconcileActionFromResourceAction (ract w)) o None)) in
  ret (os1 ++ os2).
End Controller.

(** ** Lemmas *)

Section Lemmas.
Context {W : Type} `{WW : !World W} `{XX : !Xxhash}.
Implicit Types (c : InformerController W) (q : gmap string (list (retryInfo W))).

(** The retries of a list map. *)
Definition listed q : list (RetryRequest W) := map_to_list q ≫= λ '(k, l), as_request k <$> l.

Lemma listed_insert q k l : listed (<[k := l]> q) ≡ₚ (as_request k <$> l) ++ listed (base.delete k q).
Proof.
  unfold listed. rewrite <- insert_delete_eq, map_to_list_insert by apply lookup_delete_eq. done.
Qed.

Lemma listed_split q k :
  listed q ≡ₚ (as_request k <$> default [] (q !! k)) ++ listed (base.delete k q).
Proof.
  destruct (q !! k) as [l|] eqn:E; simpl.
  - rewrite <- (insert_id q k l) at 1 by done. apply listed_insert.
  - by rewrite delete_id.
Qed.

Lemma listed_delete_key q k : Forall (λ r, Key r ≠ k) (listed (base.delete k q)).
Proof.
  apply Forall_forall. intros r Hr. unfold listed in Hr.
  apply list_elem_of_bind in Hr as ([k' l] & Hr & Hk). apply elem_of_map_to_list in Hk.
  apply lookup_delete_Some in Hk as [Hne _]. apply list_elem_of_fmap in Hr as (i & -> & _).
  simpl. congruence.
Qed.

Lemma as_request_key (k : string) (l : list (retryInfo W)) :
  Forall (λ r, Key r = k) (as_request k <$> l).
Proof. apply Forall_forall. by intros r (i & -> & _)%list_elem_of_fmap. Qed.

Lemma remove_limit_filter (p : retryInfo W → bool) l n :
  (n ≤ 0)%Z → remove_limit p n l = filter (λ x, negb (p x)) l.
Proof.
  revert n. induction l as [|x l IH]; intros n Hn; [done|]. simpl. destruct (p x) eqn:E.
  - destruct (Z.eqb_spec n 1); [lia|]. rewrite filter_cons_False by (rewrite E; by intros ?).
    apply IH. lia.
  - rewrite filter_cons_True by (by rewrite E). by rewrite IH.
Qed.

(** Dropping some of one key's retries from the list map. *)
Lemma listed_filter q k (p : RetryRequest W → bool) l' :
  (∀ l, q !! k = Some l → as_request k <$> l' = filter (λ r, negb (p r)) (as_request k <$> l)) →
  (q !! k = None → l' = []) →
  (as_request k <$> l') ++ listed (base.delete k q) ≡ₚ
    filter (λ r, negb (bool_decide (Key r = k) && p r)) (listed q).
Proof.
  intros H1 H2. rewrite (listed_split q k), filter_app. f_equiv.
  - destruct (q !! k) as [l|]; simpl; [|by rewrite H2].
    rewrite (H1 l) by done. erewrite filter_ext_in; [reflexivity|].
    eapply Forall_impl; [apply as_request_key|]. simpl. intros r <-.
    by rewrite bool_decide_eq_true_2.
  - rewrite filter_all; [done|]. eapply Forall_impl; [apply listed_delete_key|].
    simpl. intros r Hr. by rewrite bool_decide_eq_false_2.
Qed.

Definition same_metrics (m m' : Metrics) : Prop :=
  (∀ l, gauge (totalEvents m') l = gauge (totalEvents m) l) ∧
  (∀ l, gauge (inflightActions m') l = gauge (inflightActions m) l) ∧
  (∀ l, gauge (inflightEvents m') l = gauge (inflightEvents m) l).

#[local] Instance same_metrics_equiv : Equivalence same_metrics.
Proof.
  split; unfold same_metrics.
  - done.
  - intros m m' (H1 & H2 & H3). by repeat split; intros l.
  - intros m1 m2 m3 (H1 & H2 & H3) (H4 & H5 & H6).
    repeat split; intros l; [by rewrite H4, H1 | by rewrite H5, H2 | by rewrite H6, H3].
Qed.

Lemma gauge_gauge_add l l' d m :
  gauge (gauge_add l d m) l' = (gauge m l' + if bool_decide (l = l') then d else 0)%Z.
Proof.
  unfold gauge_add. unfold gauge at 1. case_bool_decide as E.
  - subst. rewrite lookup_insert_eq. done.
  - rewrite lookup_insert_ne by done. unfold gauge. lia.
Qed.

(** What a piece of an event does to the controller when it stands for the world's
    computation [m] with the given effect on the queue. *)
Definition runs_as {A} (p : M (CState (W:=W)) unit) (c : InformerController W) (w : W)
    (m : M W A) (effect : list (RetryRequest W) → A → list (RetryRequest W)) : Prop :=
  let '(a, w') := m w in
  ∃ c', p (c, w) = (tt, (c', w')) ∧ controller_wf c' ∧ static c' = static c ∧
    same_metrics (metrics c) (metrics c') ∧ pending_of c' ≡ₚ effect (pending_of c) a.

Lemma add_retry_spec c w key info :
  controller_wf c →
  ∃ c', add_retry key info (c, w) = (tt, (c', w)) ∧ controller_wf c' ∧ static c' = static c ∧
    metrics c' = metrics c ∧ pending_of c' ≡ₚ as_request key info :: pending_of c.
Proof.
  intros Hwf. unfold add_retry, modify. unfold controller_wf in Hwf.
  destruct (retryProcessor c) as [p|] eqn:Ep.
  - destruct (Enqueue_pending p (as_request key info) Hwf) as (Hp & _ & Hwf').
    eexists. split; [done|]. unfold controller_wf, pending_of. simpl. rewrite Ep. done.
  - eexists. split; [done|]. unfold controller_wf, pending_of. simpl. rewrite Ep.
    split; [done|]. split; [unfold static; done|]. split; [done|].
    change (listed (<[key := default [] (toRetry c !! key) ++ [info]]> (toRetry c)) ≡ₚ
      as_request key info :: listed (toRetry c)).
    rewrite listed_insert, fmap_app. simpl. rewrite (listed_split (toRetry c) key).
    rewrite <- app_assoc. simpl. by rewrite <- Permutation_middle.
Qed.

Lemma dequeue_spec c w key cur act :
  controller_wf c →
  ∃ c', dequeueIfRequired key cur act (c, w) = (tt, (c', w)) ∧ controller_wf c' ∧
    static c' = static c ∧ metrics c' = metrics c ∧
    pending_of c' ≡ₚ
      filter (λ r, negb (bool_decide (Key r = key) && dropping c w cur act r)) (pending_of c).
Proof.
  intros Hwf. unfold dequeueIfRequired, modify, dropping. unfold controller_wf in Hwf.
  destruct (retryProcessor c) as [p|] eqn:Ep.
  - destruct (c_RetryDequeuePolicy c) as [pol|] eqn:Epol; (eexists; split; [done|]);
      unfold controller_wf, pending_of; simpl; rewrite Ep.
    + destruct (Dequeue_pending p key (λ req, pol act (deref cur w) (Action req)
        (deref (RObject req) w) (LastError req)) Hwf) as [Hp Hwf']. done.
    + destruct (DequeueAll_pending p key Hwf) as [Hp Hwf']. do 3 (split; [done|]).
      rewrite Hp. rewrite (list_filter_iff _ (λ r, negb (bool_decide (Key r = key) && true)));
        [done|]. intros r. by rewrite andb_true_r.
  - destruct (c_RetryDequeuePolicy c) as [pol|] eqn:Epol; (eexists; split; [done|]);
      unfold controller_wf, pending_of; simpl; rewrite Ep; do 3 (split; [done|]).
    + set (p := λ r : RetryRequest W, pol act (deref cur w) (Action r) (deref (RObject r) w) (LastError r)).
      change (listed (alter (remove_limit (λ i, p (as_request key i)) (Z.max (-1) 0)) key (toRetry c)) ≡ₚ
        filter (λ r, negb (bool_decide (Key r = key) && p r)) (listed (toRetry c))).
      destruct (toRetry c !! key) as [l|] eqn:El.
      * rewrite (listed_split _ key), lookup_alter_eq, El. simpl.
        rewrite delete_alter_eq. apply listed_filter; [|by rewrite El].
        intros l0. rewrite El. intros [= <-]. rewrite remove_limit_filter by lia.
        by rewrite filter_fmap_comm.
      * rewrite alter_id by (intros ? Hx; by rewrite El in Hx).
        rewrite (listed_split _ key), El. simpl. rewrite delete_id by done.
        pose proof (listed_filter (toRetry c) key p []) as H. simpl in H.
        rewrite delete_id in H by done. rewrite <- H; [done| |done]. intros l. by rewrite El.
    + change (listed (base.delete key (toRetry c)) ≡ₚ
        filter (λ r, negb (bool_decide (Key r = key) && true)) (listed (toRetry c))).
      rewrite <- (listed_filter (toRetry c) key (λ _, true) []); [done| |done].
      intros l _. symmetry. apply filter_none. apply Forall_forall. by intros r _ ?.
Qed.

(** [queueRetry] adds the request the retry policy asks for. *)
Lemma queueRetry_spec c w key e retry act obj :
  controller_wf c →
  let '(new, w') := retry_of c key e retry act obj w in
  ∃ c', queueRetry key e retry act obj (c, w) = (tt, (c', w')) ∧ controller_wf c' ∧
    static c' = static c ∧ metrics c' = metrics c ∧
    pending_of c' ≡ₚ option_list new ++ pending_of c.
Proof.
  intros Hwf. unfold queueRetry, retry_of, the_controller, bind at 2, gets. simpl.
  destruct (c_RetryPolicy c) as [pol|]; [|by exists c].
  destruct (pol e 0%Z) as [[] after]; [|by exists c].
  unfold lift, bind. destruct (Now w) as [now w']. simpl.
  destruct (add_retry_spec c w' key (mkRetryInfo (now + after) retry 0 act obj (Some e)) Hwf)
    as (c' & E & H). by exists c'.
Qed.

(** The code that follows a call with error [e]. *)
Definition after_error (key : string) (retry : M W (option Z * option GoError))
    (act : ResourceAction) (obj : Ref) (e : option GoError) : M (CState (W:=W)) unit :=
  match e with
  | None => ret tt
  | Some e =>
      let* c := the_controller in
      match ErrorHandler c with Some h => lift (h e) | None => ret tt end ;;;
      queueRetry key e retry act obj
  end.

Lemma after_error_spec c w key retry act obj e :
  controller_wf c →
  let '(new, w') := error_new c key retry act obj e w in
  ∃ c', after_error key retry act obj e (c, w) = (tt, (c', w')) ∧ controller_wf c' ∧
    static c' = static c ∧ metrics c' = metrics c ∧
    pending_of c' ≡ₚ option_list new ++ pending_of c.
Proof.
  intros Hwf. destruct e as [e|]; [|by exists c].
  unfold after_error, error_new, the_controller, handle_error, bind, gets.
  cbn [fst]. destruct (ErrorHandler c) as [h|]; simpl; [|by apply queueRetry_spec].
  unfold lift. destruct (h e w) as [u w']. by apply queueRetry_spec.
Qed.

(** [watcher_event] tests the policy before it calls [queueRetry], which does too. *)
Lemma watcher_event_eq key cur act call s :
  watcher_event (W:=W) key cur act call s =
  (let* e := lift call in after_error key (let* e := call in ret (None, e)) act cur e) s.
Proof.
  destruct s as [c w]. unfold watcher_event, bind, lift.
  destruct (call w) as [[e|] w1]; [|done].
  unfold after_error, the_controller, bind, gets. cbn [fst].
  destruct (c_RetryPolicy c) as [pol|] eqn:Ep; [done|].
  destruct (ErrorHandler c) as [h|]; simpl.
  - unfold lift. destruct (h e w1) as [u w2]. unfold queueRetry, the_controller, bind, gets.
    cbn [fst]. by rewrite Ep.
  - unfold queueRetry, the_controller, bind, gets. cbn [fst]. by rewrite Ep.
Qed.

(** The specification looks at the static part of a controller only. *)
Lemma error_new_static c c0 key retry act obj e :
  static c = static c0 → error_new c key retry act obj e = error_new c0 key retry act obj e.
Proof.
  unfold static. intros [= H1 H2 _ _ _ _ _]. unfold error_new, handle_error, retry_of.
  by rewrite H1, H2.
Qed.

Lemma dropping_static c c0 w cur act : static c = static c0 → dropping c w cur act = dropping c0 w cur act.
Proof. unfold static. intros [= _ _ H3 _ _ _ _]. unfold dropping. by rewrite H3. Qed.

Lemma watcher_outcome_static c c0 key cur act call :
  static c = static c0 → watcher_outcome c key cur act call ≡M watcher_outcome c0 key cur act call.
Proof.
  intros Hs w. unfold watcher_outcome, bind, get, ret. destruct (call w) as [e w1].
  rewrite (error_new_static c c0) by done. destruct (error_new _ _ _ _ _ _ _). 
  by rewrite (dropping_static c c0).
Qed.

Lemma reconciler_outcome_static c c0 key act r req :
  static c = static c0 → reconciler_outcome c key act r req ≡M reconciler_outcome c0 key act r req.
Proof.
  intros Hs w. unfold reconciler_outcome, bind, get, ret. destruct (r req w) as [[res e] w1].
  unfold reconciler_new. cbn [fst snd]. rewrite (error_new_static c c0) by done.
  by rewrite (dropping_static c c0).
Qed.

Lemma add_inflight_eq t k d (c : InformerController W) w :
  ∃ c', add_inflight t k d (c, w) = (tt, (c', w)) ∧ (controller_wf c → controller_wf c') ∧
    static c' = static c ∧ pending_of c' = pending_of c ∧
    totalEvents (metrics c') = totalEvents (metrics c) ∧
    inflightEvents (metrics c') = inflightEvents (metrics c) ∧
    ∀ l, gauge (inflightActions (metrics c')) l =
         (gauge (inflightActions (metrics c)) l + if bool_decide ((t, k) = l) then d else 0)%Z.
Proof. eexists. split; [done|]. do 5 (split; [done|]). simpl. intros l. apply gauge_gauge_add. Qed.

(** A wrapper that leaves the queue, the world and, in the end, the metrics to what it
    wraps. *)
Definition balanced (wrap : M (CState (W:=W)) unit → M (CState (W:=W)) unit) : Prop :=
  ∀ p (c : InformerController W) w (Q : W → InformerController W → Prop),
  (∀ c1, (controller_wf c → controller_wf c1) → static c1 = static c → pending_of c1 = pending_of c →
     ∃ c2 w2, p (c1, w) = (tt, (c2, w2)) ∧ controller_wf c2 ∧ static c2 = static c ∧
       same_metrics (metrics c1) (metrics c2) ∧
       (∀ c3, controller_wf c3 → static c3 = static c2 → pending_of c3 = pending_of c2 →
          Q w2 c3)) →
  ∃ c2 w2, wrap p (c, w) = (tt, (c2, w2)) ∧
    controller_wf c2 ∧ static c2 = static c ∧ same_metrics (metrics c) (metrics c2) ∧ Q w2 c2.

Lemma inflight_balanced t k : balanced (λ p, add_inflight t k 1 ;;; p ;;; add_inflight t k (-1)).
Proof.
  intros p c w Q Hp. unfold bind at 1.
  destruct (add_inflight_eq t k 1 c w) as (c1 & -> & Hwf1 & Hs1 & Hq1 & Ht1 & Hi1 & Hg1).
  destruct (Hp c1 Hwf1 Hs1 Hq1) as (c2 & w2 & E & Hwf2 & Hs2 & (Hm1 & Hm2 & Hm3) & HQ).
  unfold bind. rewrite E.
  destruct (add_inflight_eq t k (-1) c2 w2) as (c3 & -> & Hwf3 & Hs3 & Hq3 & Ht3 & Hi3 & Hg3).
  exists c3, w2. split; [done|]. split; [auto|]. split; [congruence|]. split.
  - repeat split; intros l.
    + by rewrite Ht3, Hm1, Ht1.
    + rewrite Hg3, Hm2, Hg1. case_bool_decide; lia.
    + by rewrite Hi3, Hm3, Hi1.
  - apply HQ; [auto | done | done].
Qed.

Lemma balanced_compose f g : balanced f → balanced g → balanced (λ p, f (g p)).
Proof.
  intros Hf Hg p c w Q Hp. apply (Hf (g p) c w Q). intros c1 Hwf1 Hs1 Hq1.
  destruct (Hg p c1 w (λ w2 c2, ∀ c3, controller_wf c3 → static c3 = static c2 →
    pending_of c3 = pending_of c2 → Q w2 c3)) as (c2 & w2 & E & Hwf2 & Hs2 & Hm2 & HQ).
  - intros c1' Hwf1' Hs1' Hq1'.
    destruct (Hp c1') as (c2 & w2 & E & Hwf2 & Hs2 & Hm2 & HQ); [auto | congruence | congruence |].
    exists c2, w2. split; [done|]. split; [done|]. split; [congruence|]. split; [done|].
    intros c3 Hwf3 Hs3 Hq3 c4 Hwf4 Hs4 Hq4. apply HQ; [done | congruence | congruence].
  - exists c2, w2. split; [done|]. split; [done|]. split; [congruence|]. done.
Qed.

(** The part of a handler between the dequeue and the end. *)
Lemma outcome_pending c c1 (o : outcome) new act cur w key :
  oc_key o = key → oc_new o = new → oc_drop o = dropping c w cur act →
  pending_of c1 ≡ₚ option_list new ++
    filter (λ r, negb (bool_decide (Key r = key) && dropping c w cur act r)) (pending_of c) →
  pending_of c1 ≡ₚ apply_outcome (pending_of c) o.
Proof. intros <- <- Hd ->. unfold apply_outcome. by rewrite Hd. Qed.

Lemma watcher_piece wrap f kind idx cur act call c w :
  (∀ k, balanced (wrap k)) → controller_wf c →
  runs_as (let* retryKey := key_for f kind idx cur in
           dequeueIfRequired retryKey cur act ;;;
           let* k := kind_of cur in
           wrap k (watcher_event retryKey cur act call)) c w
    (watcher_outcome c (f kind idx (Some (deref cur w))) cur act call) apply_outcome.
Proof.
  intros Hwrap Hwf. set (key := f kind idx (Some (deref cur w))).
  set (retry := (let* e := call in ret (None, e)) : M W (option Z * option GoError)).
  destruct (call w) as [e w1] eqn:Ecall.
  destruct (error_new c key retry act cur e w1) as [new w2] eqn:Enew.
  assert (Ho : watcher_outcome c key cur act call w = (mkOutcome key (dropping c w cur act) new, w2)).
  { unfold watcher_outcome. rewrite (bind_run _ _ w w w) by done.
    rewrite (bind_run _ _ _ _ _ Ecall), (bind_run _ _ _ _ _ Enew). done. }
  unfold runs_as. rewrite Ho.
  rewrite (bind_run _ _ (c, w) key (c, w)) by done.
  destruct (dequeue_spec c w key cur act Hwf) as (c1 & Ed & Hwf1 & Hs1 & Hm1 & Hq1).
  rewrite (bind_run _ _ _ _ _ Ed).
  rewrite (bind_run _ _ (c1, w) (sm_Kind (GetStaticMetadata (deref cur w))) (c1, w)) by done.
  cbv beta.
  destruct (Hwrap (sm_Kind (GetStaticMetadata (deref cur w))) (watcher_event key cur act call) c1 w
    (λ w' c', w' = w2 ∧ pending_of c' ≡ₚ option_list new ++ pending_of c1))
    as (c2 & w2' & E & Hwf2 & Hs2 & Hm2 & -> & Hq2).
  - intros c2 Hwf2 Hs2 Hq2. rewrite watcher_event_eq. unfold bind at 1, lift. rewrite Ecall.
    fold retry. pose proof (after_error_spec c2 w1 key retry act cur e (Hwf2 Hwf1)) as H.
    rewrite (error_new_static c2 c) in H by congruence. rewrite Enew in H.
    destruct H as (c3 & E3 & Hwf3 & Hs3 & Hm3 & Hq3).
    exists c3, w2. split; [done|]. split; [done|]. split; [congruence|].
    split; [by rewrite Hm3|]. intros c4 _ _ Hq4. split; [done|]. by rewrite Hq4, Hq3, Hq2.
  - exists c2. split; [exact E|]. split; [done|]. split; [congruence|].
    split; [by rewrite <- Hm1|]. eapply outcome_pending; [done..|]. by rewrite Hq2, Hq1.
Qed.

(** [doReconcile] between the gauges is the reconcile and what the result asks for. *)
Definition after_reconcile (key : string) (r : Reconciler W) (req : ReconcileRequest)
    (res : ReconcileResult) (e : option GoError) : M (CState (W:=W)) unit :=
  let req' := match res_State res with Some _ => with_State (res_State res) req | None => req end in
  let retry := reconcile_retry r req' in
  let act := ResourceActionFromReconcileAction (req_Action req) in
  match res_RequeueAfter res with
  | Some after =>
      let* now := lift Now in
      add_retry key (mkRetryInfo (now + after) retry 0 act (req_Object req) e)
  | None => after_error key retry act (req_Object req) e
  end.

Lemma after_reconcile_spec c w key r req res e :
  controller_wf c →
  let '(new, w') := reconciler_new c key r req res e w in
  ∃ c', after_reconcile key r req res e (c, w) = (tt, (c', w')) ∧ controller_wf c' ∧
    static c' = static c ∧ metrics c' = metrics c ∧
    pending_of c' ≡ₚ option_list new ++ pending_of c.
Proof.
  intros Hwf. unfold reconciler_new, after_reconcile.
  destruct (res_RequeueAfter res) as [after|]; [|by apply after_error_spec].
  unfold bind, lift, ret. destruct (Now w) as [now w'].
  match goal with |- context [add_retry key ?info] =>
    destruct (add_retry_spec c w' key info Hwf) as (c' & E & H) end.
  by exists c'.
Qed.

Lemma doReconcile_eq k r req key s :
  doReconcile k r req key s =
  (let act := ResourceActionFromReconcileAction (req_Action req) in
   add_inflight act k 1 ;;;
   (let* x := lift (r req) in after_reconcile key r req x.1 x.2) ;;;
   add_inflight act k (-1)) s.
Proof.
  unfold doReconcile. cbv zeta. apply bind_proper; [done|]. intros _.
  apply bind_proper; [|done]. apply bind_proper; [done|]. intros [res e] s'.
  unfold after_reconcile, after_error. cbn [fst snd].
  by destruct (res_State res), (res_RequeueAfter res), e.
Qed.

Lemma reconciler_piece f kind idx cur (ract : W → ResourceAction) r c w (rac : ReconcileAction) :
  controller_wf c →
  rac = ReconcileActionFromResourceAction (ract w) →
  runs_as (let* retryKey := key_for f kind idx cur in
           dequeueIfRequired retryKey cur (ract w) ;;;
           let* k := kind_of cur in
           doReconcile k r (mkReconcileRequest rac cur None) retryKey) c w
    (reconciler_outcome c (f kind idx (Some (deref cur w))) (ract w) r
       (mkReconcileRequest rac cur None)) apply_outcome.
Proof.
  intros Hwf _. set (key := f kind idx (Some (deref cur w))).
  set (req := mkReconcileRequest rac cur None).
  destruct (r req w) as [[res e] w1] eqn:Ecall.
  destruct (reconciler_new c key r req res e w1) as [new w2] eqn:Enew.
  assert (Ho : reconciler_outcome c key (ract w) r req w =
    (mkOutcome key (dropping c w cur (ract w)) new, w2)).
  { unfold reconciler_outcome. rewrite (bind_run _ _ w w w) by done.
    rewrite (bind_run _ _ _ _ _ Ecall), (bind_run _ _ _ _ _ Enew). done. }
  unfold runs_as. rewrite Ho.
  rewrite (bind_run _ _ (c, w) key (c, w)) by done.
  destruct (dequeue_spec c w key cur (ract w) Hwf) as (c1 & Ed & Hwf1 & Hs1 & Hm1 & Hq1).
  rewrite (bind_run _ _ _ _ _ Ed).
  rewrite (bind_run _ _ (c1, w) (sm_Kind (GetStaticMetadata (deref cur w))) (c1, w)) by done.
  cbv beta. rewrite doReconcile_eq. cbv zeta.
  destruct (inflight_balanced (ResourceActionFromReconcileAction (req_Action req))
    (sm_Kind (GetStaticMetadata (deref cur w)))
    (let* x := lift (r req) in after_reconcile key r req x.1 x.2) c1 w
    (λ w' c', w' = w2 ∧ pending_of c' ≡ₚ option_list new ++ pending_of c1))
    as (c2 & w2' & E & Hwf2 & Hs2 & Hm2 & -> & Hq2).
  - intros c2 Hwf2 Hs2 Hq2.
    rewrite (bind_run _ _ (c2, w) (res, e) (c2, w1)) by (unfold lift; by rewrite Ecall).
    pose proof (after_reconcile_spec c2 w1 key r req res e (Hwf2 Hwf1)) as H.
    assert (Hst : reconciler_new c2 key r req res e = reconciler_new c key r req res e).
    { unfold reconciler_new. by rewrite (error_new_static c2 c) by congruence. }
    rewrite Hst, Enew in H. destruct H as (c3 & E3 & Hwf3 & Hs3 & Hm3 & Hq3).
    exists c3, w2. split; [done|]. split; [done|]. split; [congruence|].
    split; [by rewrite Hm3|]. intros c4 _ _ Hq4. split; [done|]. by rewrite Hq4, Hq3, Hq2.
  - exists c2. split; [exact E|]. split; [done|]. split; [congruence|].
    split; [by rewrite <- Hm1|]. eapply outcome_pending; [done..|]. by rewrite Hq2, Hq1.
Qed.

Lemma apply_outcome_perm (l1 l2 : list (RetryRequest W)) (o : outcome) : l1 ≡ₚ l2 → apply_outcome l1 o ≡ₚ apply_outcome l2 o.
Proof. intros Hl. unfold apply_outcome. by rewrite Hl. Qed.

Lemma apply_outcomes_perm (os : list outcome) (l1 l2 : list (RetryRequest W)) :
  l1 ≡ₚ l2 → foldl apply_outcome l1 os ≡ₚ foldl apply_outcome l2 os.
Proof. revert l1 l2. induction os as [|o os IH]; intros l1 l2 Hl; [done|]. simpl. by apply IH, apply_outcome_perm. Qed.

(** A loop over handlers runs as the list of their outcomes. *)
Lemma loop_runs_as {A} (l : list A) F (G : nat → A → M W outcome) c0 i c w :
  (∀ i x c w, controller_wf c → static c = static c0 → runs_as (F i x) c w (G i x) apply_outcome) →
  controller_wf c → static c = static c0 →
  runs_as (for_each_idx i l F) c w (outcomes i l G) (foldl apply_outcome).
Proof.
  intros HF. revert i c w. induction l as [|x l IH]; intros i c w Hwf Hs.
  { exists c. done. }
  unfold runs_as. simpl. pose proof (HF i x c w Hwf Hs) as H. unfold runs_as in H.
  unfold bind at 1. destruct (G i x w) as [o w1]. destruct H as (c1 & E1 & Hwf1 & Hs1 & Hm1 & Hq1).
  specialize (IH (S i) c1 w1 Hwf1 ltac:(congruence)). unfold runs_as in IH.
  unfold bind at 1. destruct (outcomes (S i) l G w1) as [os w2].
  destruct IH as (c2 & E2 & Hwf2 & Hs2 & Hm2 & Hq2). simpl. exists c2.
  rewrite (bind_run _ _ _ _ _ E1). split; [done|]. split; [done|]. split; [congruence|].
  split; [by etransitivity|]. rewrite Hq2. by apply apply_outcomes_perm.
Qed.

Lemma runs_as_ext {A} p p' c w (m m' : M W A) effect :
  p (c, w) = p' (c, w) → m w = m' w → runs_as p c w m effect → runs_as p' c w m' effect.
Proof. unfold runs_as. by intros <- <-. Qed.

(** The three event functions, with what differs as parameters. *)
Definition event_function (label : string) (act : ResourceAction)
    (wrap : string → M (CState (W:=W)) unit → M CState unit)
    (call : ResourceWatcher W → M W (option GoError)) (ract : W → ResourceAction)
    (resourceKind : string) (o : Ref) : M (CState (W:=W)) (option GoError) :=
  let* kind := kind_of o in
  startEvent label kind ;;;
  let* c := the_controller in
  for_each_idx 0 (default [] (watchers c !! resourceKind)) (λ idx watcher,
    let* retryKey := key_for keyForWatcherEvent resourceKind idx o in
    dequeueIfRequired retryKey o act ;;;
    let* k := kind_of o in
    wrap k (watcher_event retryKey o act (call watcher.2))) ;;;
  let* c := the_controller in
  for_each_idx 0 (default [] (reconcilers c !! resourceKind)) (λ idx reconciler,
    let* retryKey := key_for keyForReconcilerEvent resourceKind idx o in
    let* ' (_, w) := get in
    dequeueIfRequired retryKey o (ract w) ;;;
    let* k := kind_of o in
    doReconcile k reconciler.2
      (mkReconcileRequest (ReconcileActionFromResourceAction (ract w)) o None) retryKey) ;;;
  completeEvent label kind ;;;
  ret None.

Lemma event_function_spec label act wrap call ract kind o c w :
  (∀ k, balanced (wrap k)) → controller_wf c →
  let '(os, w') := event_outcomes c kind o act call ract w in
  ∃ c', event_function label act wrap call ract kind o (c, w) = (None, (c', w')) ∧
    controller_wf c' ∧ static c' = static c ∧
    pending_of c' ≡ₚ foldl apply_outcome (pending_of c) os ∧
    (∀ l, gauge (inflightActions (metrics c')) l = gauge (inflightActions (metrics c)) l) ∧
    (∀ l, gauge (inflightEvents (metrics c')) l = gauge (inflightEvents (metrics c)) l) ∧
    (∀ l, gauge (totalEvents (metrics c')) l = (gauge (totalEvents (metrics c)) l +
       if bool_decide ((label, sm_Kind (GetStaticMetadata (deref o w))) = l) then 1 else 0)%Z).
Proof.
  intros Hwrap Hwf. unfold event_outcomes. set (k := sm_Kind (GetStaticMetadata (deref o w))).
  set (c1 := set_metrics (mkMetrics (gauge_add (label, k) 1 (totalEvents (metrics c)))
    (inflightActions (metrics c)) (gauge_add (label, k) 1 (inflightEvents (metrics c)))) c).
  set (G1 := λ idx (watcher : nat * ResourceWatcher W),
    let* w := get in
    watcher_outcome c (keyForWatcherEvent kind idx (Some (deref o w))) o act (call watcher.2)).
  set (G2 := λ idx (reconciler : nat * Reconciler W),
    let* w := get in
    reconciler_outcome c (keyForReconcilerEvent kind idx (Some (deref o w))) (ract w) reconciler.2
      (mkReconcileRequest (ReconcileActionFromResourceAction (ract w)) o None)).
  set (F1 := λ idx (watcher : nat * ResourceWatcher W),
    let* retryKey := key_for keyForWatcherEvent kind idx o in
    dequeueIfRequired retryKey o act ;;;
    let* k := kind_of o in
    wrap k (watcher_event retryKey o act (call watcher.2))).
  set (F2 := λ idx (reconciler : nat * Reconciler W),
    let* retryKey := key_for keyForReconcilerEvent kind idx o in
    let* ' (_, w) := get in
    dequeueIfRequired retryKey o (ract w) ;;;
    let* k := kind_of o in
    doReconcile k reconciler.2
      (mkReconcileRequest (ReconcileActionFromResourceAction (ract w)) o None) retryKey).
  assert (H1 : runs_as (for_each_idx 0 (default [] (watchers c1 !! kind)) F1) c1 w
    (outcomes 0 (default [] (watchers c !! kind)) G1) (foldl apply_outcome)).
  { apply (loop_runs_as _ _ _ c); [|done|done]. intros i x c2 w2 Hwf2 Hs2.
    eapply runs_as_ext; [done | | by apply (watcher_piece wrap keyForWatcherEvent kind i o act)].
    apply (watcher_outcome_static c2 c). done. }
  unfold runs_as in H1. unfold bind at 1. fold G1 G2.
  destruct (outcomes 0 (default [] (watchers c !! kind)) G1 w) as [os1 w1].
  destruct H1 as (c2 & E1 & Hwf2 & Hs2 & Hm2 & Hq2).
  assert (H2 : runs_as (for_each_idx 0 (default [] (reconcilers c2 !! kind)) F2) c2 w1
    (outcomes 0 (default [] (reconcilers c !! kind)) G2) (foldl apply_outcome)).
  { assert (Hr : reconcilers c2 = reconcilers c) by (unfold static in Hs2; simpl in Hs2; congruence).
    rewrite Hr. apply (loop_runs_as _ _ _ c); [|done|done]. intros i x c3 w3 Hwf3 Hs3.
    eapply runs_as_ext; [|apply (reconciler_outcome_static c3 c); done|
      apply (reconciler_piece keyForReconcilerEvent kind i o ract x.2 c3 w3); done].
    unfold F2. by rewrite !(bind_run _ _ (c3, w3) _ (c3, w3)) by done. }
  unfold runs_as in H2. unfold bind at 1.
  destruct (outcomes 0 (default [] (reconcilers c !! kind)) G2 w1) as [os2 w2].
  destruct H2 as (c3 & E2 & Hwf3 & Hs3 & (Hm3t & Hm3a & Hm3e) & Hq3).
  destruct Hm2 as (Hm2t & Hm2a & Hm2e).
  set (c4 := set_metrics (mkMetrics (totalEvents (metrics c3)) (inflightActions (metrics c3))
    (gauge_add (label, k) (-1) (inflightEvents (metrics c3)))) c3).
  exists c4. split.
  { unfold event_function. rewrite (bind_run _ _ (c, w) k (c, w)) by done.
    rewrite (bind_run _ _ (c, w) tt (c1, w)) by done.
    rewrite (bind_run _ _ (c1, w) c1 (c1, w)) by done.
    fold F1. rewrite (bind_run _ _ _ _ _ E1).
    rewrite (bind_run _ _ (c2, w1) c2 (c2, w1)) by done.
    fold F2. rewrite (bind_run _ _ _ _ _ E2). done. }
  split; [done|]. split; [unfold static in *; simpl in *; congruence|]. split.
  { change (pending_of c4) with (pending_of c3). rewrite Hq3, foldl_app.
    by apply apply_outcomes_perm. }
  split; [|split]; intros l; simpl.
  - by rewrite Hm3a, Hm2a.
  - rewrite gauge_gauge_add, Hm3e, Hm2e. simpl. rewrite gauge_gauge_add. case_bool_decide; lia.
  - by rewrite Hm3t, Hm2t; simpl; rewrite gauge_gauge_add.
Qed.

(** A request that is pending after an event was queued by it, or was pending before and
    dropped for none of the handlers. *)
Lemma apply_outcomes_elem (os : list outcome) l (r : RetryRequest W) :
  r ∈ foldl apply_outcome l os →
  (∃ o, o ∈ os ∧ oc_new o = Some r) ∨
  (r ∈ l ∧ ∀ o, o ∈ os → Key r = oc_key o → oc_drop o r = false).
Proof.
  revert l. induction os as [|o os IH]; intros l; simpl.
  { intros Hr. right. split; [done|]. by intros o ?%not_elem_of_nil. }
  intros [(o' & Ho' & Hn)|[Hr Hos]]%IH.
  { left. exists o'. split; [by right | done]. }
  unfold apply_outcome in Hr. apply elem_of_app in Hr as [Hr|Hr].
  { left. exists o. split; [by left|]. destruct (oc_new o); simpl in Hr;
      [by apply list_elem_of_singleton in Hr as -> | by apply not_elem_of_nil in Hr]. }
  apply list_elem_of_filter in Hr as [Hd Hr]. right. split; [done|].
  intros o' [->|Ho']%elem_of_cons Hk; [|by apply Hos].
  rewrite bool_decide_eq_true_2 in Hd by done. by destruct (oc_drop o r).
Qed.

Lemma outcomes_Forall {A} (P : outcome → Prop) i (l : list A) (f : nat → A → M W outcome) w :
  (∀ i x w, P (f i x w).1) → Forall P (outcomes i l f w).1.
Proof.
  intros Hf. revert i w. induction l as [|x l IH]; intros i w; [constructor|]. simpl.
  pose proof (Hf i x w) as H. unfold bind. destruct (f i x w) as [o w1].
  specialize (IH (S i) w1). destruct (outcomes (S i) l f w1) as [os w2]. by constructor.
Qed.

Lemma outcomes_length {A} i (l : list A) (f : nat → A → M W outcome) w :
  length (outcomes i l f w).1 = length l.
Proof.
  revert i w. induction l as [|x l IH]; intros i w; [done|]. simpl. unfold bind.
  destruct (f i x w) as [o w1]. specialize (IH (S i) w1).
  destruct (outcomes (S i) l f w1) as [os w2]. simpl in *. by f_equal.
Qed.

Lemma event_outcomes_drop c kind o act call ract w :
  Forall (λ oc, ∃ w' a, oc_drop oc = dropping c w' o a ∧ (a = act ∨ ∃ w'', a = ract w''))
    (event_outcomes c kind o act call ract w).1.
Proof.
  unfold event_outcomes, bind at 1.
  pose proof (outcomes_Forall (λ oc, ∃ w' a, oc_drop oc = dropping c w' o a ∧ (a = act ∨ ∃ w'', a = ract w''))
    0 (default [] (watchers c !! kind)) (λ idx watcher,
      let* w := get in
      watcher_outcome c (keyForWatcherEvent kind idx (Some (deref o w))) o act (call watcher.2)) w) as H1.
  destruct (outcomes 0 (default [] (watchers c !! kind)) _ w) as [os1 w1].
  unfold bind at 1.
  pose proof (outcomes_Forall (λ oc, ∃ w' a, oc_drop oc = dropping c w' o a ∧ (a = act ∨ ∃ w'', a = ract w''))
    0 (default [] (reconcilers c !! kind)) (λ idx reconciler,
      let* w := get in
      reconciler_outcome c (keyForReconcilerEvent kind idx (Some (deref o w))) (ract w) reconciler.2
        (mkReconcileRequest (ReconcileActionFromResourceAction (ract w)) o None)) w1) as H2.
  destruct (outcomes 0 (default [] (reconcilers c !! kind)) _ w1) as [os2 w2].
  simpl in *. apply Forall_app. split; [apply H1 | apply H2].
  - intros i x w0. unfold watcher_outcome, bind, get, ret. destruct (call x.2 w0) as [e w3].
    destruct (error_new _ _ _ _ _ _ _) as [new w4]. simpl. eauto 10.
  - intros i x w0. unfold reconciler_outcome, bind, get, ret. destruct (x.2 _ w0) as [r w3].
    destruct (reconciler_new _ _ _ _ _ _ _) as [new w4]. simpl. eauto 10.
Qed.

(** The three functions are instances of the generic one. *)
Ltac event_function_eq :=
  do 5 (apply bind_proper; [reflexivity | intros ?]);
  apply bind_proper; [|intros ?; reflexivity];
  apply for_each_idx_ext; intros ? ? [? ?];
  unfold bind, key_for, get, ret.

Lemma informerAddFunc_eq kind o :
  informerAddFunc kind (Some o) ≡M
  event_function ResourceActionCreate ResourceActionCreate (wrapWatcherCall ResourceActionCreate)
    (λ x, rw_Add x (Some o)) (λ _, ResourceActionCreate) kind o.
Proof.
  event_function_eq.
  by replace (ReconcileActionFromResourceAction ResourceActionCreate) with ReconcileActionCreated.
Qed.

Lemma informerUpdateFunc_eq kind old o :
  informerUpdateFunc kind old (Some o) ≡M
  event_function ResourceActionUpdate ResourceActionUpdate (wrapWatcherCall ResourceActionUpdate)
    (λ x, rw_Update x old (Some o))
    (λ w, update_action ((λ r, deref r w) <$> old) (Some (deref o w))) kind o.
Proof. by event_function_eq. Qed.

(** The gauges around a watcher's [Delete]: one labelled as an update, one as a delete. *)
Definition delete_wrap (k : string) (p : M (CState (W:=W)) unit) : M CState unit :=
  add_inflight ResourceActionUpdate k 1 ;;;
  wrapWatcherCall ResourceActionDelete k p ;;;
  add_inflight ResourceActionUpdate k (-1).

Lemma informerDeleteFunc_eq kind o :
  informerDeleteFunc kind (Some o) ≡M
  event_function ResourceActionDelete ResourceActionDelete delete_wrap
    (λ x, rw_Delete x (Some o)) (λ _, ResourceActionDelete) kind o.
Proof.
  event_function_eq.
  by replace (ReconcileActionFromResourceAction ResourceActionDelete) with ReconcileActionDeleted.
Qed.

Lemma balanced_wrapWatcherCall act k : balanced (wrapWatcherCall act k).
Proof. apply inflight_balanced. Qed.

Lemma balanced_delete_wrap k : balanced (delete_wrap k).
Proof.
  apply (balanced_compose (λ p, add_inflight ResourceActionUpdate k 1 ;;; p ;;;
    add_inflight ResourceActionUpdate k (-1))); [apply inflight_balanced|].
  apply balanced_wrapWatcherCall.
Qed.
End Lemmas.

(** ** Properties *)

Section Properties.
Context {W : Type} `{WW : !World W} `{XX : !Xxhash}.
Implicit Types (c : InformerController W).

(** [m] returns nil, makes the calls of [spec] on the world, and does to the queue what
    their outcomes say; it counts one event under [label] and leaves the gauges of
    ongoing events and actions, and the rest of the controller, as they were. *)
Definition event_ok (m : M (CState (W:=W)) (option GoError)) (label : string) (o : Ref)
    (spec : M W (list outcome)) c (w : W) : Prop :=
  let '(os, w') := spec w in
  ∃ c', m (c, w) = (None, (c', w')) ∧ controller_wf c' ∧ static c' = static c ∧
    pending_of c' ≡ₚ foldl apply_outcome (pending_of c) os ∧
    (∀ l, gauge (inflightActions (metrics c')) l = gauge (inflightActions (metrics c)) l) ∧
    (∀ l, gauge (inflightEvents (metrics c')) l = gauge (inflightEvents (metrics c)) l) ∧
    (∀ l, gauge (totalEvents (metrics c')) l = (gauge (totalEvents (metrics c)) l +
       if bool_decide ((label, sm_Kind (GetStaticMetadata (deref o w))) = l) then 1 else 0)%Z).

(** C1: An event is handled by calling every watcher of the kind once, in order, then every
    reconciler, whatever fails; before each call the pending retries of that handler and
    object are dropped as the dequeue policy says, after it a retry is queued when the
    reconciler asked for one or the retry policy grants one.  The queue of retries ends
    up the same (as a multiset) with the ticker's list map and with the processor.  A nil
    object is an error and does nothing. *)
Theorem events_refine c w kind o old :
  controller_wf c →
  event_ok (informerAddFunc kind (Some o)) ResourceActionCreate o
    (event_outcomes c kind o ResourceActionCreate (λ x, rw_Add x (Some o))
       (λ _, ResourceActionCreate)) c w ∧
  event_ok (informerUpdateFunc kind old (Some o)) ResourceActionUpdate o
    (event_outcomes c kind o ResourceActionUpdate (λ x, rw_Update x old (Some o))
       (λ w, update_action ((λ r, deref r w) <$> old) (Some (deref o w)))) c w ∧
  event_ok (informerDeleteFunc kind (Some o)) ResourceActionDelete o
    (event_outcomes c kind o ResourceActionDelete (λ x, rw_Delete x (Some o))
       (λ _, ResourceActionDelete)) c w ∧
  informerAddFunc kind None (c, w) = (Some ErrNilObject, (c, w)) ∧
  informerUpdateFunc kind old None (c, w) = (Some ErrNilObject, (c, w)) ∧
  informerDeleteFunc kind None (c, w) = (Some ErrNilObject, (c, w)).
Proof.
  intros Hwf. unfold event_ok. rewrite informerAddFunc_eq, informerUpdateFunc_eq, informerDeleteFunc_eq.
  split; [|split; [|split; [|done]]]; apply event_function_spec; try done;
    intros k; first [apply balanced_wrapWatcherCall | apply balanced_delete_wrap].
Qed.

(** A delete event leaves no stale retry: with the opinionated dequeue policy, or with
    none, a request that is pending afterwards under the key of one of the kind's
    handlers for the object was queued by this very event. *)
Theorem delete_event_drops_retries c w kind o :
  controller_wf c →
  c_RetryDequeuePolicy c = None ∨ c_RetryDequeuePolicy c = Some OpinionatedRetryDequeuePolicy →
  let os := (event_outcomes c kind o ResourceActionDelete (λ x, rw_Delete x (Some o))
               (λ _, ResourceActionDelete) w).1 in
  let '(res, (c', _)) := informerDeleteFunc kind (Some o) (c, w) in
  res = None ∧
  length os = length (default [] (watchers c !! kind)) + length (default [] (reconcilers c !! kind)) ∧
  ∀ r oc, r ∈ pending_of c' → oc ∈ os → Key r = oc_key oc →
    ∃ oc', oc' ∈ os ∧ oc_new oc' = Some r.
Proof.
  intros Hwf Hpol os.
  pose proof (event_function_spec ResourceActionDelete ResourceActionDelete delete_wrap
    (λ x, rw_Delete x (Some o)) (λ _, ResourceActionDelete) kind o c w balanced_delete_wrap Hwf) as H.
  pose proof (event_outcomes_drop c kind o ResourceActionDelete (λ x, rw_Delete x (Some o))
    (λ _, ResourceActionDelete) w) as Hdrop.
  assert (Hlen : length os = length (default [] (watchers c !! kind)) +
                             length (default [] (reconcilers c !! kind))).
  { unfold os, event_outcomes, bind.
    pose proof (outcomes_length 0 (default [] (watchers c !! kind)) (λ idx watcher,
      let* w := get in watcher_outcome c (keyForWatcherEvent kind idx (Some (deref o w))) o
        ResourceActionDelete (rw_Delete watcher.2 (Some o))) w) as L1.
    unfold bind in L1. destruct (outcomes 0 _ _ w) as [os1 w1].
    pose proof (outcomes_length 0 (default [] (reconcilers c !! kind)) (λ idx reconciler,
      let* w := get in reconciler_outcome c (keyForReconcilerEvent kind idx (Some (deref o w)))
        ResourceActionDelete reconciler.2 (mkReconcileRequest (ReconcileActionFromResourceAction
          ResourceActionDelete) o None)) w1) as L2.
    unfold bind in L2. destruct (outcomes 0 _ _ w1) as [os2 w2]. simpl in *.
    rewrite length_app. lia. }
  fold os in Hdrop. unfold os in *. clear os.
  destruct (event_outcomes c kind o _ _ _ w) as [os w'].
  destruct H as (c' & E & _ & _ & Hq & _). rewrite informerDeleteFunc_eq.
  rewrite E. split; [done|]. split; [done|]. intros r oc Hr Hoc Hk.
  rewrite Hq in Hr. apply apply_outcomes_elem in Hr as [Hr|[_ Hno]]; [done|].
  exfalso. specialize (Hno oc Hoc Hk). simpl in Hdrop. rewrite Forall_forall in Hdrop.
  destruct (Hdrop oc Hoc) as (w1 & a & Hd & Ha).
  assert (a = ResourceActionDelete) as -> by (by destruct Ha as [->|[? ->]]).
  rewrite Hd in Hno. unfold dropping in Hno. by destruct Hpol as [Hp|Hp]; rewrite Hp in Hno.
Qed.

(** ** Retry keys *)

(** A string without a colon. *)
Fixpoint no_colon (s : string) : bool :=
  match s with
  | EmptyString => true
  | String a s => negb (bool_decide (a = ":"%char)) && no_colon s
  end.

Lemma no_colon_app s1 s2 : no_colon (s1 +:+ s2) = no_colon s1 && no_colon s2.
Proof. induction s1 as [|a s1 IH]; [done|]. simpl. rewrite IH. by rewrite andb_assoc. Qed.

(** What comes before the first colon of a string is determined by the string. *)
Lemma colon_inj s1 s2 t1 t2 :
  no_colon s1 = true → no_colon s2 = true → s1 +:+ ":" +:+ t1 = s2 +:+ ":" +:+ t2 → s1 = s2 ∧ t1 = t2.
Proof.
  revert s2. induction s1 as [|a s1 IH]; intros [|b s2] H1 H2; simpl in *.
  - intros H. change (String ":"%char t1 = String ":"%char t2) in H. by injection H as ->.
  - apply andb_true_iff in H2 as [Hb _]. intros [= <- _]. by rewrite bool_decide_eq_true_2 in Hb.
  - apply andb_true_iff in H1 as [Ha _]. intros [= -> _]. by rewrite bool_decide_eq_true_2 in Ha.
  - apply andb_true_iff in H1 as [_ H1]. apply andb_true_iff in H2 as [_ H2].
    intros [= <- Heq]. destruct (IH s2 H1 H2) as [-> ->]; [exact Heq | done].
Qed.

Lemma pretty_N_go_no_colon n s : no_colon s = true → no_colon (pretty_N_go n s) = true.
Proof.
  revert s. induction (N.lt_wf_0 n) as [n _ IH]; intros s Hs.
  destruct (decide (n = 0%N)) as [->|Hn]; [by rewrite pretty_N_go_0|].
  rewrite pretty_N_go_step by lia. apply IH; [apply N.div_lt; lia|]. simpl. rewrite Hs, andb_true_r.
  unfold pretty_N_char. by repeat case_match.
Qed.

Lemma pretty_nat_no_colon (n : nat) : no_colon (pretty n) = true.
Proof.
  unfold pretty, pretty_nat, pretty, pretty_N. destruct (decide _); [done|].
  by apply pretty_N_go_no_colon.
Qed.

(** Retry keys tell handlers and objects apart: two watcher keys (or two reconciler keys)
    of colon-free kinds and namespaces are equal only for the same kind, index, namespace
    and name (names may hold colons), and a watcher key is never a reconciler key
    unless the watcher's kind is the word "reconcile".  With such a kind they do
    collide. *)
Theorem retry_keys_injective k1 k2 i1 i2 o1 o2 :
  no_colon k1 = true → no_colon k2 = true →
  no_colon (GetNamespace o1) = true → no_colon (GetNamespace o2) = true →
  (keyForWatcherEvent k1 i1 (Some o1) = keyForWatcherEvent k2 i2 (Some o2) →
   k1 = k2 ∧ i1 = i2 ∧ GetNamespace o1 = GetNamespace o2 ∧ GetName o1 = GetName o2) ∧
  (keyForReconcilerEvent k1 i1 (Some o1) = keyForReconcilerEvent k2 i2 (Some o2) →
   k1 = k2 ∧ i1 = i2 ∧ GetNamespace o1 = GetNamespace o2 ∧ GetName o1 = GetName o2) ∧
  (k1 ≠ "reconcile"%string →
   keyForWatcherEvent k1 i1 (Some o1) ≠ keyForReconcilerEvent k2 i2 (Some o2)) ∧
  (∀ ns n, keyForWatcherEvent "reconcile" i1
     (Some (mkObject (mkStaticMetadata "" "" "" (pretty i2) (ns +:+ ":" +:+ n)) (GetCommonMetadata o1) "")) =
   keyForReconcilerEvent (pretty i1) i2
     (Some (mkObject (mkStaticMetadata "" "" "" ns n) (GetCommonMetadata o1) ""))).
Proof.
  intros Hk1 Hk2 Hn1 Hn2.
  assert (Hinj : keyForWatcherEvent k1 i1 (Some o1) = keyForWatcherEvent k2 i2 (Some o2) →
    k1 = k2 ∧ i1 = i2 ∧ GetNamespace o1 = GetNamespace o2 ∧ GetName o1 = GetName o2).
  { unfold keyForWatcherEvent. intros [-> H]%colon_inj; [|done|done].
    apply colon_inj in H as [Hi H]; [|apply pretty_nat_no_colon..].
    apply colon_inj in H as [-> ->]; [|done|done]. by apply (inj pretty) in Hi. }
  split; [done|]. split; [|split].
  - intros H. apply Hinj. by injection H.
  - intros Hne H. apply Hne.
    change (keyForReconcilerEvent k2 i2 (Some o2)) with
      ("reconcile" +:+ ":" +:+ keyForWatcherEvent k2 i2 (Some o2))%string in H.
    unfold keyForWatcherEvent at 1 in H. by apply colon_inj in H as [-> _].
  - intros ns n. done.
Qed.

(** ** The ticker *)

(** What a tick puts back for a retry with the given result. *)
Definition tick_again (policy : option RetryPolicy) (t : Z) (val : retryInfo W)
    (r : option Z * option GoError) : option (retryInfo W) :=
  match r with
  | (Some after, _) =>
      Some (mkRetryInfo (t + after) (retryFunc val) (attempt val) (action val) (object val) None)
  | (None, Some e) =>
      match policy with
      | Some policy =>
          if (policy e (attempt val + 1)%Z).1
          then Some (mkRetryInfo (t + (policy e (attempt val + 1)%Z).2) (retryFunc val)
                       (attempt val + 1) (action val) (object val) None)
          else None
      | None => None
      end
  | (None, None) => None
  end.

(** Run retries in order and keep their results. *)
Fixpoint run_retries (infos : list (retryInfo W)) : M W (list (option Z * option GoError)) :=
  match infos with
  | [] => ret []
  | val :: infos =>
      let* r := retryFunc val in let* rs := run_retries infos in ret (r :: rs)
  end.

Definition due (t : Z) (val : retryInfo W) : bool := (retryAfter val <? t)%Z.

Definition tick_all_again (policy : option RetryPolicy) (t : Z) (infos : list (retryInfo W))
    (rs : list (option Z * option GoError)) : list (retryInfo W) :=
  omap (λ x, tick_again policy t x.1 x.2) (zip infos rs).

Lemma tick_items_spec policy t infos w :
  let '(rs, w') := run_retries (filter (λ i, due t i) infos) w in
  tick_items policy t infos w =
    ((filter (λ i, negb (due t i)) infos,
      tick_all_again policy t (filter (λ i, due t i) infos) rs), w').
Proof.
  revert w. induction infos as [|val infos IH]; intros w; [done|]. simpl.
  destruct (retryAfter val <? t)%Z eqn:E.
  - rewrite filter_cons_True, filter_cons_False by (unfold due; rewrite E; naive_solver).
    simpl. unfold bind at 1 2 3. destruct (retryFunc val w) as [[sp e] w1].
    specialize (IH w1). destruct (run_retries _ w1) as [rs w2]. unfold bind. rewrite IH.
    unfold ret, tick_all_again. simpl. destruct sp as [after|]; [done|].
    destruct e as [e|]; [|done]. destruct policy as [pol|]; [|done]. simpl.
    by destruct (pol e (attempt val + 1)%Z) as [[] after].
  - rewrite filter_cons_False, filter_cons_True by (unfold due; rewrite E; naive_solver).
    specialize (IH w). destruct (run_retries _ w) as [rs w2]. unfold bind. by rewrite IH.
Qed.

Definition add_item (key : string) (inf : retryInfo W) : M (CState (W:=W)) unit :=
  modify (λ '(c, w), (set_toRetry (spec_op (toRetry c) (OpAddItem key [inf])) c, w)).

Lemma for_each_add key toAdd c w :
  ∃ c', for_each toAdd (add_item key) (c, w) = (tt, (c', w)) ∧
    (default [] (toRetry c' !! key) = default [] (toRetry c !! key) ++ toAdd) ∧
    (∀ k, k ≠ key → toRetry c' !! k = toRetry c !! k) ∧
    static c' = static c ∧ metrics c' = metrics c ∧ retryProcessor c' = retryProcessor c.
Proof.
  revert c. induction toAdd as [|i toAdd IH]; intros c.
  { exists c. rewrite app_nil_r. done. }
  destruct (IH (set_toRetry (spec_op (toRetry c) (OpAddItem key [i])) c))
    as (c' & E & H1 & H2 & H3 & H4 & H5).
  exists c'. split; [exact E|]. split.
  - rewrite H1. simpl. rewrite lookup_insert_eq. simpl. by rewrite <- app_assoc.
  - split; [|done]. intros k Hk. rewrite H2 by done. simpl. by rewrite lookup_insert_ne.
Qed.

(** One key of a tick: exactly the retries due before the tick run, each once, in queue
    order; the others stay as they are, and what asked to be re-queued or is granted
    another attempt is put back behind them with its function, action and object, but
    without its error: the dequeue policy will see nil where the retry processor
    keeps the error. *)
Theorem tick_key_correct t key c w :
  let infos := default [] (toRetry c !! key) in
  let '(rs, w') := run_retries (filter (λ i, due t i) infos) w in
  let again := tick_all_again (c_RetryPolicy c) t (filter (λ i, due t i) infos) rs in
  ∃ c', tick_key t key (c, w) = (tt, (c', w')) ∧
    default [] (toRetry c' !! key) = filter (λ i, negb (due t i)) infos ++ again ∧
    (∀ k, k ≠ key → toRetry c' !! k = toRetry c !! k) ∧ static c' = static c ∧
    (∀ i, i ∈ again → err i = None ∧ ∃ i0, i0 ∈ infos ∧ due t i0 = true ∧
       retryFunc i = retryFunc i0 ∧ action i = action i0 ∧ object i = object i0).
Proof.
  cbv zeta. destruct (run_retries _ w) as [rs w'] eqn:Er.
  set (infos := default [] (toRetry c !! key)) in *.
  set (again := tick_all_again (c_RetryPolicy c) t (filter (λ i, due t i) infos) rs).
  assert (Hagain : ∀ i, i ∈ again → err i = None ∧ ∃ i0, i0 ∈ infos ∧ due t i0 = true ∧
       retryFunc i = retryFunc i0 ∧ action i = action i0 ∧ object i = object i0).
  { intros i Hi. apply list_elem_of_omap in Hi as ([i0 r] & Hzip & Hi).
    apply elem_of_zip_l in Hzip as Hin. apply list_elem_of_filter in Hin as [Hd Hin].
    assert (err i = None ∧ retryFunc i = retryFunc i0 ∧ action i = action i0 ∧ object i = object i0)
      as (? & ? & ? & ?).
    { destruct r as [[after|] [e|]]; simpl in Hi; repeat case_match; by simplify_eq. }
    split; [done|]. exists i0. repeat split; try done. by apply Is_true_true. }
  unfold tick_key. rewrite (bind_run _ _ (c, w) c (c, w)) by done.
  destruct (toRetry c !! key) as [l|] eqn:El.
  - change infos with l in *. clear infos.
    pose proof (tick_items_spec (c_RetryPolicy c) t l w) as Hs. rewrite Er in Hs. fold again in Hs.
    assert (El' : lift (tick_items (c_RetryPolicy c) t l) (c, w) =
      ((filter (λ i, negb (due t i)) l, again), (c, w'))) by (unfold lift; by rewrite Hs).
    rewrite (bind_run _ _ _ _ _ El').
    set (c1 := set_toRetry (<[key := filter (λ i, negb (due t i)) l]> (toRetry c)) c).
    rewrite (bind_run _ _ (c, w') tt (c1, w')) by done.
    destruct (for_each_add key again c1 w') as (c' & E & H1 & H2 & H3 & _).
    exists c'. split; [exact E|]. split.
    + rewrite H1. simpl. by rewrite lookup_insert_eq.
    + split; [|done]. intros k Hk. rewrite H2 by done. simpl. by rewrite lookup_insert_ne.
  - simpl in Er. injection Er as <- <-. exists c. rewrite El. done.
Qed.

(** The state a retried reconcile returns is dropped, so an opinionated reconciler
    delegates a deletion again that it had already delegated with success: after a retry
    in which the wrapped reconciler succeeded and only removing the finalizer failed, the
    next retry calls the wrapped reconciler once more (see [delegated_once] for what the
    returned state would have prevented). *)
Theorem retry_delegates_again (o : OpinionatedReconciler W) req σ res σ1 e σ2 :
  let deleting σ := GetDeletionTimestamp (deref (req_Object req) σ) ≠ None ∧
                    or_finalizer o ∈ GetFinalizers (deref (req_Object req) σ) in
  let retry := reconcile_retry (Reconcile o) req in
  let delegated := with_Action ReconcileActionDeleted req in
  req_Action req ≠ ReconcileActionDeleted →
  state_nil (req_State req) opinionatedReconcilerPatchRemoveStateKey = true →
  deleting σ → wrappedReconcile o delegated σ = ((res, None), σ1) → res_RequeueAfter res = None →
  RemoveFinalizer (or_finalizerUpdater o) (req_Object req) (or_finalizer o) σ1 = (Some e, σ2) →
  deleting σ2 →
  retry σ = ((None, Some e), σ2) ∧
  retry σ2 = (let* ' (res, e) := delegate_then o delegated (after_step o (req_Object req) ThenRemove) in
              ret (res_RequeueAfter res, e)) σ2.
Proof.
  intros deleting retry delegated Hact Hst [Hd1 Hf1] Hw Hr Hrm [Hd2 Hf2].
  assert (Hplan : ∀ s, GetDeletionTimestamp (deref (req_Object req) s) ≠ None →
    or_finalizer o ∈ GetFinalizers (deref (req_Object req) s) →
    Reconcile o req s = delegate_then o delegated (after_step o (req_Object req) ThenRemove) s).
  { intros s Hd Hf. rewrite Reconcile_plan. rewrite bool_decide_eq_true_2 by done.
    rewrite (proj2 (Contains_spec _ _) Hf). unfold plan. rewrite Hst.
    by destruct (req_Action req). }
  unfold retry, reconcile_retry, bind. rewrite (Hplan σ), (Hplan σ2) by done. split; [|done].
  unfold delegate_then, bind. rewrite Hw. simpl. rewrite bool_decide_eq_false_2 by (rewrite Hr; auto).
  unfold bind. rewrite Hrm. simpl. unfold ret. by rewrite Hr.
Qed.
End Properties.

(** ** Witnesses *)

(** A watcher that fails, and a controller that has it for the kind "K". *)
Definition failing_watcher : ResourceWatcher TestWorld :=
  mkResourceWatcher (λ _ σ, (Some (ErrorString "boom"), note "add" σ))
    (λ _ _ σ, (Some (ErrorString "boom"), note "update" σ))
    (λ _ σ, (Some (ErrorString "boom"), note "delete" σ)) None.

Definition test_controller : InformerController TestWorld :=
  ((AddWatcher (Some (0, failing_watcher)) "K")
     (NewInformerController 0 (mkConfig None None None None), test_world)).2.1.

(** A failing watcher is called once and its retry is queued. *)
Lemma events_refine_witness :
  let '(res, (c', w')) := informerAddFunc "K" (Some 0) (test_controller, test_world) in
  res = None ∧ length (pending_of c') = 1 ∧ tw_log w' = ["add"%string].
Proof.
  destruct (events_refine test_controller test_world "K" 0 None I) as (H & _).
  unfold event_ok in H.
  destruct (event_outcomes test_controller "K" 0 ResourceActionCreate _ _ test_world) as [os w'] eqn:E.
  destruct H as (c' & -> & _ & _ & Hq & _). apply Permutation_length in Hq. rewrite Hq.
  vm_compute in E. injection E as <- <-. vm_compute. done.
Defined.

Lemma delete_event_drops_retries_witness :
  let os := (event_outcomes test_controller "K" 0 ResourceActionDelete (λ x, rw_Delete x (Some 0))
               (λ _, ResourceActionDelete) test_world).1 in
  let '(_, (c', _)) := informerDeleteFunc "K" (Some 0) (test_controller, test_world) in
  length os = 1 ∧
  ∀ r oc, r ∈ pending_of c' → oc ∈ os → Key r = oc_key oc → ∃ oc', oc' ∈ os ∧ oc_new oc' = Some r.
Proof.
  intros os.
  pose proof (delete_event_drops_retries test_controller test_world "K" 0 I (or_introl eq_refl)) as H.
  destruct (informerDeleteFunc "K" (Some 0) (test_controller, test_world)) as [res [c' w']].
  destruct H as (_ & Hl & H). split; [exact Hl | exact H].
Defined.

Lemma retry_keys_injective_witness :
  keyForWatcherEvent "K" 1 (Some zeroObject) ≠ keyForReconcilerEvent "K" 1 (Some zeroObject).
Proof.
  destruct (retry_keys_injective "K" "K" 1 1 zeroObject zeroObject
    eq_refl eq_refl eq_refl eq_refl) as (_ & _ & H & _).
  apply H. discriminate.
Defined.

(** The object is being deleted, the client's patches fail, the wrapped reconciler notes
    each deletion it is handed: two retries, two calls. *)
Definition deleted_world : TestWorld :=
  mkTestWorld 0 {[0 := mkObject (mkStaticMetadata "g" "v1" "K" "ns" "n")
    (mkCommonMetadata "u" "1" 1 ∅ 0 (Some 5%Z) ["fin"%string] 0 "" "" ∅) ""]} [].

Lemma retry_delegates_again_witness :
  let o := mkOpinionatedReconciler (Some test_reconciler) "fin" (newFinalizerUpdater BrokenClient) in
  let retry := reconcile_retry (Reconcile o) (mkReconcileRequest ReconcileActionUpdated 0 None) in
  tw_log (retry (retry deleted_world).2).2 = ["DELETE"; "DELETE"]%string.
Proof.
  intros o retry. set (req := mkReconcileRequest ReconcileActionUpdated 0 None).
  set (σ1 := note "DELETE" deleted_world).
  destruct (RemoveFinalizer (newFinalizerUpdater BrokenClient) 0 "fin" σ1) as [[e|] σ2] eqn:E;
    [|vm_compute in E; discriminate E].
  destruct (retry_delegates_again o req deleted_world ReconcileResult_zero σ1 e σ2) as [H1 H2].
  - discriminate.
  - reflexivity.
  - split; [discriminate|]. apply (bool_decide_unpack _). vm_compute. exact I.
  - reflexivity.
  - reflexivity.
  - exact E.
  - vm_compute in E. injection E as <- <-.
    split; [discriminate|]. apply (bool_decide_unpack _). vm_compute. exact I.
  - unfold retry. fold req. rewrite H1. cbn [snd]. rewrite H2. vm_compute in E.
    injection E as <- <-. vm_compute. reflexivity.
Defined.
