(* ===== verification/BufferedQueue.v ===== *)
(** * The event queue and the informer processor ([operator/informer_processor.go])

    [bufferedQueue] is a goroutine between an input and an output channel, both
    unbuffered, with a growing ring buffer ([k8s.io/utils/buffer], the class [RingGrowing]
    here).  A receive or a send on a channel is a step of [qstep], a call of [push] and a
    receive by the consumer being the other ends.  [informerProcessor] hands every event
    to the queue of each listener. *)
From S2P Require Import Prelude Resource.

(** What the queue relies on: [WriteOne] appends, [ReadOne] takes the oldest element. *)
Class RingGrowing (R : Type → Type) := {
  NewRingGrowing : ∀ A, Z → R A;
  ReadOne : ∀ {A}, R A → option A * R A;
  WriteOne : ∀ {A}, A → R A → R A;
  elements : ∀ {A}, R A → list A;
  elements_new : ∀ A n, elements (NewRingGrowing A n) = [];
  elements_ReadOne : ∀ A (r : R A),
    elements r = match ReadOne r with (Some x, r') => x :: elements r' | (None, r') => [] end;
  elements_ReadOne_None : ∀ A (r : R A), (ReadOne r).1 = None → elements (ReadOne r).2 = [];
  elements_WriteOne : ∀ A x (r : R A), elements (WriteOne x r) = elements r ++ [x];
}.

Section BufferedQueue.
Context {R : Type → Type} `{RG : !RingGrowing R} {A : Type}.

(** [bufferedQueue] and the local variables of its [run]: [q_event], [q_sending] ([nextCh]
    is not nil), whether [incomingEvents] is closed, whether [run] has returned (and so
    closed [toProcess]), [stopped]. *)
Record bufferedQueue := mkQueue {
  q_buf : R A;
  q_event : option A;
  q_sending : bool;
  q_closed : bool;
  q_returned : bool;
  q_stopped : bool;
}.

(** [newBufferedQueue] *)
Definition newBufferedQueue (bufferSize : Z) : bufferedQueue :=
  mkQueue (NewRingGrowing A bufferSize) None false false false false.

(** The branch of [run] that received [eventToAdd]. *)
Definition run_receive (eventToAdd : A) (q : bufferedQueue) : bufferedQueue :=
  match q_event q with
  | None => mkQueue (q_buf q) (Some eventToAdd) true (q_closed q) (q_returned q) (q_stopped q)
  | Some _ => mkQueue (WriteOne eventToAdd (q_buf q)) (q_event q) (q_sending q) (q_closed q)
                (q_returned q) (q_stopped q)
  end.

(** The branch of [run] after [event] was sent. *)
Definition run_sent (q : bufferedQueue) : bufferedQueue :=
  let '(event, buf) := ReadOne (q_buf q) in
  mkQueue buf event (match event with Some _ => q_sending q | None => false end)
    (q_closed q) (q_returned q) (q_stopped q).

(** [stop], and [run] when it sees the channel closed. *)
Definition stop (q : bufferedQueue) : bufferedQueue :=
  mkQueue (q_buf q) (q_event q) (q_sending q) true (q_returned q) true.
Definition run_closed (q : bufferedQueue) : bufferedQueue :=
  mkQueue (q_buf q) (q_event q) (q_sending q) (q_closed q) true (q_stopped q).

(** The events of the queue: the pushes that were accepted, the receives of the
    consumer, and the rest. *)
Inductive qlabel := QPush (x : A) | QDropped (x : A) | QRecv (x : A) | QStop | QReturn.

(** [push] delivers to a running [run], or returns at once when the queue was stopped
    (it cannot be stopped in between, for [push] holds the lock). *)
Inductive qstep : bufferedQueue → qlabel → bufferedQueue → Prop :=
| q_push q x :
    q_stopped q = false → q_closed q = false → q_returned q = false →
    qstep q (QPush x) (run_receive x q)
| q_drop q x : q_stopped q = true → qstep q (QDropped x) q
| q_recv q x :
    q_sending q = true → q_event q = Some x → q_returned q = false →
    qstep q (QRecv x) (run_sent q)
| q_stop q : q_stopped q = false → qstep q QStop (stop q)
| q_return q : q_closed q = true → q_returned q = false → qstep q QReturn (run_closed q).

(** A run of the queue and its labels. *)
Inductive qsteps : bufferedQueue → list qlabel → bufferedQueue → Prop :=
| qsteps_nil q : qsteps q [] q
| qsteps_snoc q ls q' l q'' : qsteps q ls q' → qstep q' l q'' → qsteps q (ls ++ [l]) q''.

Definition pushed (ls : list qlabel) : list A :=
  omap (λ l, match l with QPush x => Some x | _ => None end) ls.
Definition received (ls : list qlabel) : list A :=
  omap (λ l, match l with QRecv x => Some x | _ => None end) ls.

(** What the queue holds, oldest first. *)
Definition waiting (q : bufferedQueue) : list A := option_list (q_event q) ++ elements (q_buf q).

(** The sender is armed exactly when there is an event, and then only is the ring used. *)
Definition queue_inv (q : bufferedQueue) : Prop :=
  (q_sending q = true ↔ is_Some (q_event q)) ∧ (q_event q = None → elements (q_buf q) = []).

Lemma queue_inv_new n : queue_inv (newBufferedQueue n).
Proof. split; simpl; [split; [done | by intros []] | intros _; apply elements_new]. Qed.

Lemma run_receive_spec x q :
  queue_inv q → queue_inv (run_receive x q) ∧ waiting (run_receive x q) = waiting q ++ [x].
Proof.
  intros [H1 H2]. unfold run_receive, waiting, queue_inv.
  destruct (q_event q) as [y|] eqn:E; simpl.
  - split; [split; [done | done]|]. by rewrite elements_WriteOne.
  - rewrite H2 by done. split; [split; [by split|done]|]. done.
Qed.

Lemma run_sent_spec x q :
  queue_inv q → q_event q = Some x → q_sending q = true →
  queue_inv (run_sent q) ∧ waiting q = x :: waiting (run_sent q).
Proof.
  intros [H1 H2] Hx Hs. unfold run_sent, waiting, queue_inv. rewrite Hx.
  pose proof (elements_ReadOne A (q_buf q)) as He.
  pose proof (elements_ReadOne_None A (q_buf q)) as Hn.
  destruct (ReadOne (q_buf q)) as [[y|] buf]; simpl in *.
  - rewrite He. split; [split; [|done]|done]. by split.
  - rewrite He, Hn by done. split; [split; [split; [done | by intros []] | done] | done].
Qed.

Lemma queue_inv_step q l q' : qstep q l q' → queue_inv q → queue_inv q'.
Proof.
  intros Hs Hinv. destruct Hs; try done.
  - by apply run_receive_spec.
  - by eapply run_sent_spec.
Qed.

Lemma queue_run_inv n ls q :
  qsteps (newBufferedQueue n) ls q → queue_inv q ∧ received ls ++ waiting q = pushed ls.
Proof.
  intros Hs. remember (newBufferedQueue n) as q0 eqn:Hq0.
  induction Hs as [q|q ls q1 l q2 Hs IH Hstep]; subst.
  - split; [apply queue_inv_new|]. unfold waiting. simpl. apply elements_new.
  - destruct (IH eq_refl) as [Hinv Heq]. split; [by eapply queue_inv_step|].
    unfold received, pushed in *. rewrite !omap_app.
    destruct Hstep as [q x|q x|q x Hsd Hx Hr|q|q]; simpl; rewrite ?app_nil_r; try done.
    + destruct (run_receive_spec x q Hinv) as [_ ->]. by rewrite app_assoc, Heq.
    + destruct (run_sent_spec x q Hinv Hx Hsd) as [_ Hw]. rewrite Hw in Heq.
      by rewrite <- app_assoc.
Qed.
End BufferedQueue.

Arguments bufferedQueue R A : clear implicits.
Arguments qlabel A : clear implicits.

(** ** Properties of the queue *)

(** The queue is first-in first-out and loses nothing while it runs: whatever the
    interleaving, what the consumer has received, followed by what the queue holds, is
    what was pushed, in order.  [push] never waits for the consumer, and as long as
    something is held and [run] has not returned the consumer can receive it.  Stopping
    the queue drops what it holds. *)
Theorem bufferedQueue_fifo {R} `{RG : !RingGrowing R} {A} n ls (q : bufferedQueue R A) :
  qsteps (newBufferedQueue n) ls q →
  received ls ++ waiting q = pushed ls ∧
  (q_stopped q = false → q_closed q = false → q_returned q = false →
     ∀ x, ∃ q', qstep q (QPush x) q' ∧ waiting q' = waiting q ++ [x]) ∧
  (q_stopped q = true → ∀ x, qstep q (QDropped x) q) ∧
  (∀ x rest, waiting q = x :: rest → q_returned q = false →
     ∃ q', qstep q (QRecv x) q' ∧ waiting q' = rest).
Proof.
  intros Hs. destruct (queue_run_inv n ls q Hs) as [Hinv Heq]. split; [done|]. split; [|split].
  - intros H1 H2 H3 x. exists (run_receive x q). split; [by constructor|].
    by apply run_receive_spec.
  - intros H1 x. by constructor.
  - intros x rest Hw Hr. pose proof Hinv as [Hi1 Hi2]. unfold waiting in Hw.
    destruct (q_event q) as [y|] eqn:Ey; [|by rewrite (Hi2 eq_refl) in Hw].
    injection Hw as -> Hrest. assert (Hsd : q_sending q = true) by (apply Hi1; by eexists).
    exists (run_sent q). split; [by constructor|].
    destruct (run_sent_spec x q Hinv Ey Hsd) as [_ Hw]. unfold waiting in Hw at 1.
    rewrite Ey in Hw. simpl in Hw. rewrite Hrest in Hw. by injection Hw.
Qed.

(** ** The processor *)

(** An object an informer handles, before it is cast: an interface value. *)
Inductive informerEvent (O : Type) :=
| informerEventAdd (obj : O) (isInInitialList : bool)
| informerEventUpdate (obj old : O)
| informerEventDelete (obj : O)
| informerEventCacheSync (obj : O).
Arguments informerEventAdd {O}.
Arguments informerEventUpdate {O}.
Arguments informerEventDelete {O}.
Arguments informerEventCacheSync {O}.

(** [cache.ResourceEventHandler] *)
Record ResourceEventHandler (W O : Type) := mkResourceEventHandler {
  OnAdd : O → bool → M W unit;
  OnUpdate : O → O → M W unit;
  OnDelete : O → M W unit;
}.
Arguments mkResourceEventHandler {W O}.
Arguments OnAdd {W O}.
Arguments OnUpdate {W O}.
Arguments OnDelete {W O}.

(** The switch in [informerProcessorListener.run]. *)
Definition handle_informer_event {W O} (handler : ResourceEventHandler W O) (e : informerEvent O)
  : M W unit :=
  match e with
  | informerEventAdd obj isInInitialList => OnAdd handler obj isInInitialList
  | informerEventUpdate obj old => OnUpdate handler old obj
  | informerEventDelete obj => OnDelete handler obj
  | informerEventCacheSync obj => OnUpdate handler obj obj
  end.

Section Processor.
Context {R : Type → Type} `{RG : !RingGrowing R} {O : Type}.

(** [informerProcessorListener], its handler by identity. *)
Record informerProcessorListener := mkListener {
  l_handler : nat;
  l_queue : bufferedQueue R (informerEvent O);
}.

Definition newInformerProcessorListener (handler : nat) (bufferSize : Z)
  : informerProcessorListener := mkListener handler (newBufferedQueue bufferSize).

(** [informerProcessor]; [p_startedCh] tells whether the channel was made and closed. *)
Record informerProcessor := mkProcessor {
  listeners : list informerProcessorListener;
  p_started : bool;
  p_startedCh : bool;
}.

Definition newInformerProcessor : informerProcessor := mkProcessor [] false false.

(** [addListener] *)
Definition addListener (l : informerProcessorListener) (p : informerProcessor)
  : informerProcessor * option GoError :=
  if p_started p then
    (p, Some (ErrorString "error adding listener: not allowed after processor already started"))
  else (mkProcessor (listeners p ++ [l]) (p_started p) (p_startedCh p), None).

Definition set_queue_of (q : bufferedQueue R (informerEvent O)) (l : informerProcessorListener) :=
  mkListener (l_handler l) q.

(** Labels: an event distributed, an event a listener's handler gets, start and stop. *)
Inductive plabel :=
| PDistribute (e : informerEvent O)
| PHandle (i : nat) (e : informerEvent O)
| PStart
| PStop
| PReturn (i : nat)
| PAdd (handler : nat).

(** A push to every listener, one after the other ([distribute] is called by the one
    goroutine of the controller). *)
Inductive push_all (e : informerEvent O)
  : list informerProcessorListener → list informerProcessorListener → Prop :=
| push_all_nil : push_all e [] []
| push_all_push l q' ls ls' :
    qstep (l_queue l) (QPush e) q' → push_all e ls ls' →
    push_all e (l :: ls) (set_queue_of q' l :: ls')
| push_all_drop l q' ls ls' :
    qstep (l_queue l) (QDropped e) q' → push_all e ls ls' →
    push_all e (l :: ls) (set_queue_of q' l :: ls').

(** One life of a processor: it is run once (its queues cannot be re-used), and listeners
    that are added after it was stopped, which nothing ever runs, are left out. *)
Inductive pstep : informerProcessor → plabel → informerProcessor → Prop :=
| p_add h n p p' :
    addListener (newInformerProcessorListener h n) p = (p', None) → p_startedCh p = false →
    pstep p (PAdd h) p'
| p_start p :
    p_started p = false → p_startedCh p = false → pstep p PStart (mkProcessor (listeners p) true true)
| p_distribute p e ls :
    p_startedCh p = true → push_all e (listeners p) ls →
    pstep p (PDistribute e) (mkProcessor ls (p_started p) (p_startedCh p))
| p_handle p i e l q' :
    listeners p !! i = Some l → qstep (l_queue l) (QRecv e) q' →
    pstep p (PHandle i e)
      (mkProcessor (<[i := set_queue_of q' l]> (listeners p)) (p_started p) (p_startedCh p))
| p_return p i l q' :
    listeners p !! i = Some l → qstep (l_queue l) QReturn q' →
    pstep p (PReturn i)
      (mkProcessor (<[i := set_queue_of q' l]> (listeners p)) (p_started p) (p_startedCh p))
| p_stop p :
    p_started p = true →
    pstep p PStop (mkProcessor ((λ l, set_queue_of (stop (l_queue l)) l) <$> listeners p) false
                     (p_startedCh p)).

Inductive psteps : informerProcessor → list plabel → informerProcessor → Prop :=
| psteps_nil p : psteps p [] p
| psteps_snoc p ls p' l p'' : psteps p ls p' → pstep p' l p'' → psteps p (ls ++ [l]) p''.

(** The events distributed, and those the [i]-th listener's handler got. *)
Definition distributed (ls : list plabel) : list (informerEvent O) :=
  omap (λ l, match l with PDistribute e => Some e | _ => None end) ls.
Definition handled (i : nat) (ls : list plabel) : list (informerEvent O) :=
  omap (λ l, match l with PHandle j e => if bool_decide (i = j) then Some e else None | _ => None end) ls.

(** What a listener has got and what waits for it, against what was distributed; a
    stopped queue may have missed the last events. *)
Definition listener_inv (got sent : list (informerEvent O)) (q : bufferedQueue R (informerEvent O))
  : Prop :=
  queue_inv q ∧ (q_closed q = true → q_stopped q = true) ∧ (q_returned q = true → q_closed q = true) ∧
  ∃ missed, got ++ waiting q ++ missed = sent ∧ (q_stopped q = false → missed = []).

Definition processor_inv (ls : list plabel) (p : informerProcessor) : Prop :=
  (∀ i l, listeners p !! i = Some l → listener_inv (handled i ls) (distributed ls) (l_queue l)) ∧
  (∀ i, length (listeners p) ≤ i → handled i ls = []) ∧
  (p_startedCh p = false → distributed ls = []).

Lemma distributed_snoc ls l :
  distributed (ls ++ [l]) = distributed ls ++ match l with PDistribute e => [e] | _ => [] end.
Proof. unfold distributed. rewrite omap_app. by destruct l. Qed.

Lemma handled_snoc i ls l :
  handled i (ls ++ [l]) =
  handled i ls ++ match l with PHandle j e => if bool_decide (i = j) then [e] else [] | _ => [] end.
Proof. unfold handled. rewrite omap_app. destruct l; simpl; try done. by case_bool_decide. Qed.

Lemma listener_push got sent q q' e :
  listener_inv got sent q → qstep q (QPush e) q' → listener_inv got (sent ++ [e]) q'.
Proof.
  intros (Hq & Hc & Hr & missed & Heq & Hm) Hs. inversion Hs as [? ? H1 H2 H3| | | |]; subst.
  destruct (run_receive_spec e q Hq) as [Hq' Hw]. split; [done|].
  assert (Hf : q_closed (run_receive e q) = q_closed q ∧ q_stopped (run_receive e q) = q_stopped q ∧
    q_returned (run_receive e q) = q_returned q) by (unfold run_receive; by destruct (q_event q)).
  destruct Hf as (-> & -> & ->). split; [done|]. split; [done|]. exists []. rewrite Hw.
  rewrite (Hm H1). split; [|done]. by rewrite app_nil_r, app_nil_r, app_assoc.
Qed.

Lemma listener_drop got sent q q' e :
  listener_inv got sent q → qstep q (QDropped e) q' → listener_inv got (sent ++ [e]) q'.
Proof.
  intros (Hq & Hc & Hr & missed & Heq & Hm) Hs. inversion Hs; subst.
  split; [done|]. split; [done|]. split; [done|]. exists (missed ++ [e]).
  split; [by rewrite <- !app_assoc|]. congruence.
Qed.

Lemma listener_recv got sent q q' e :
  listener_inv got sent q → qstep q (QRecv e) q' → listener_inv (got ++ [e]) sent q'.
Proof.
  intros (Hq & Hc & Hr & missed & Heq & Hm) Hs. inversion Hs as [| |? ? H1 H2 H3| |]; subst.
  destruct (run_sent_spec e q Hq H2 H1) as [Hq' Hw]. split; [done|].
  assert (Hf : q_closed (run_sent q) = q_closed q ∧ q_stopped (run_sent q) = q_stopped q ∧
    q_returned (run_sent q) = q_returned q) by (unfold run_sent; by destruct (ReadOne (q_buf q))).
  destruct Hf as (-> & -> & ->). split; [done|]. split; [done|]. exists missed.
  split; [|done]. rewrite Hw. by rewrite <- app_assoc.
Qed.

Lemma push_all_lookup e ls ls' i l' :
  push_all e ls ls' → ls' !! i = Some l' →
  ∃ l, ls !! i = Some l ∧ (qstep (l_queue l) (QPush e) (l_queue l') ∨
                           qstep (l_queue l) (QDropped e) (l_queue l')).
Proof.
  intros H. revert i. induction H as [|l q' ls ls' Hs H IH|l q' ls ls' Hs H IH];
    intros [|i] Hi; try done; simpl in Hi; try (injection Hi as <-; eauto); by apply IH.
Qed.

Lemma push_all_length e ls ls' : push_all e ls ls' → length ls' = length ls.
Proof. induction 1; simpl; congruence. Qed.

Lemma processor_inv_step ls p l p' : pstep p l p' → processor_inv ls p → processor_inv (ls ++ [l]) p'.
Proof.
  intros Hs (Hl & Hh & Hd).
  destruct Hs as [h n p p' Ha Hst|p Hst Hch|p e ls' Hch Hpush|p i e l q' Hi Hq|p i l q' Hi Hq|p Hst];
    (split; [|split]); rewrite ?distributed_snoc, ?app_nil_r; simpl.
  - unfold addListener in Ha. destruct (p_started p); [done|]. injection Ha as <-. simpl.
    intros i l Hi. rewrite handled_snoc, app_nil_r.
    apply lookup_app_Some in Hi as [Hi|[Hlen Hi]]; [by apply Hl|].
    destruct (i - length (listeners p)) as [|k] eqn:Ek; [|done]. injection Hi as <-.
    rewrite (Hh i Hlen), (Hd Hst). split; [apply queue_inv_new|]. split; [done|]. split; [done|].
    exists []. unfold waiting. simpl. by rewrite elements_new.
  - intros i Hi. rewrite handled_snoc, app_nil_r. apply Hh.
    unfold addListener in Ha. destruct (p_started p); [done|]. injection Ha as <-. simpl in Hi.
    rewrite length_app in Hi. simpl in Hi. lia.
  - intros _. by apply Hd.
  - intros i l Hi. rewrite handled_snoc, app_nil_r. by apply Hl.
  - intros i Hi. rewrite handled_snoc, app_nil_r. by apply Hh.
  - done.
  - intros i l Hi. rewrite handled_snoc, app_nil_r.
    destruct (push_all_lookup _ _ _ _ _ Hpush Hi) as (l0 & Hi0 & [Hq|Hq]).
    + eapply listener_push; [by apply Hl | done].
    + eapply listener_drop; [by apply Hl | done].
  - intros i Hi. rewrite handled_snoc, app_nil_r. apply Hh.
    by rewrite <- (push_all_length _ _ _ Hpush).
  - congruence.
  - intros j l0. rewrite handled_snoc. destruct (decide (j = i)) as [->|Hne].
    + rewrite list_lookup_insert_eq by (by apply lookup_lt_Some in Hi). intros [= <-]. simpl.
      rewrite bool_decide_eq_true_2 by done. eapply listener_recv; [by apply Hl | done].
    + rewrite list_lookup_insert_ne by done. rewrite bool_decide_eq_false_2 by done.
      rewrite app_nil_r. apply Hl.
  - intros j. rewrite length_insert, handled_snoc. intros Hj.
    apply lookup_lt_Some in Hi. rewrite bool_decide_eq_false_2 by lia. rewrite app_nil_r. by apply Hh.
  - done.
  - intros j l0. rewrite handled_snoc, app_nil_r. destruct (decide (j = i)) as [->|Hne].
    + rewrite list_lookup_insert_eq by (by apply lookup_lt_Some in Hi). intros [= <-]. simpl.
      destruct (Hl i l Hi) as (H1 & H2 & H3 & H4). inversion Hq; subst. by split.
    + rewrite list_lookup_insert_ne by done. apply Hl.
  - intros j. rewrite length_insert, handled_snoc, app_nil_r. apply Hh.
  - done.
  - intros i l Hi. rewrite handled_snoc, app_nil_r. rewrite list_lookup_fmap in Hi.
    destruct (listeners p !! i) as [l0|] eqn:E; [|done]. injection Hi as <-.
    destruct (Hl i l0 E) as (H1 & H2 & H3 & missed & H4 & H5). split; [done|].
    split; [done|]. split; [done|]. exists missed. by split.
  - intros i Hi. rewrite handled_snoc, app_nil_r. apply Hh. by rewrite length_fmap in Hi.
  - done.
Qed.

Lemma processor_inv_reachable ls p : psteps newInformerProcessor ls p → processor_inv ls p.
Proof.
  intros Hs. remember newInformerProcessor as p0 eqn:Hp0. induction Hs as [|p ls p1 l p2 Hs IH Hstep]; subst.
  - split; [|done]. by intros i l Hi.
  - eapply processor_inv_step; [done | by apply IH].
Qed.
End Processor.

(** C33: Every listener's handler gets the distributed events in order, none twice and none
    skipped: what it got, what waits in its queue, and what was missed after the
    processor was stopped make up what was distributed; nothing is missed before. *)
Theorem informerProcessor_in_order {R} `{RG : !RingGrowing R} {O} ls
    (p : informerProcessor (R:=R) (O:=O)) i l :
  psteps newInformerProcessor ls p → listeners p !! i = Some l →
  handled i ls `prefix_of` distributed ls ∧
  (q_stopped (l_queue l) = false → handled i ls ++ waiting (l_queue l) = distributed ls).
Proof.
  intros Hs Hi. destruct (processor_inv_reachable ls p Hs) as [Hl _].
  destruct (Hl i l Hi) as (_ & _ & _ & missed & Heq & Hm). split.
  - exists (waiting (l_queue l) ++ missed). done.
  - intros Hst. rewrite (Hm Hst), app_nil_r in Heq. done.
Qed.

(** ** Witnesses *)

(** A ring buffer that is a list. *)
#[export] Program Instance ListRing : RingGrowing list := {
  NewRingGrowing A _ := [];
  ReadOne _ r := match r with [] => (None, []) | x :: r => (Some x, r) end;
  WriteOne _ x r := r ++ [x];
  elements _ r := r;
}.
Next Obligation. done. Qed.
Next Obligation. intros A r. by destruct r. Qed.
Next Obligation. intros A r. by destruct r. Qed.
Next Obligation. done. Qed.

Lemma bufferedQueue_fifo_witness :
  ∃ ls (q : bufferedQueue list nat), qsteps (newBufferedQueue 1) ls q ∧
    received ls = [1] ∧ waiting q = [2; 3] ∧ pushed ls = [1; 2; 3].
Proof.
  set (q0 := newBufferedQueue 1 : bufferedQueue list nat).
  set (q := run_sent (run_receive 3 (run_receive 2 (run_receive 1 q0)))).
  assert (Hs : qsteps q0 ([] ++ [QPush 1] ++ [QPush 2] ++ [QPush 3] ++ [QRecv 1]) q).
  { change ([] ++ [QPush 1] ++ [QPush 2] ++ [QPush 3] ++ [QRecv 1]) with
      (((([] ++ [QPush 1]) ++ [QPush 2]) ++ [QPush 3]) ++ [QRecv 1]).
    do 4 (eapply qsteps_snoc; [|by constructor]). constructor. }
  exists ([] ++ [QPush 1] ++ [QPush 2] ++ [QPush 3] ++ [QRecv 1]), q.
  destruct (bufferedQueue_fifo 1 _ q Hs) as [H _]. split; [exact Hs|].
  split; [reflexivity|]. split; [|reflexivity]. apply (f_equal tail) in H. exact H.
Defined.

Lemma informerProcessor_in_order_witness :
  ∃ ls (p : informerProcessor (R:=list) (O:=nat)), psteps newInformerProcessor ls p ∧
    handled 0 ls = [informerEventDelete 7] ∧ distributed ls = [informerEventDelete 7; informerEventDelete 8] ∧
    handled 0 ls `prefix_of` distributed ls.
Proof.
  set (q0 := newBufferedQueue 1 : bufferedQueue list (informerEvent nat)).
  set (e1 := informerEventDelete 7). set (e2 := informerEventDelete 8).
  set (q := run_sent (run_receive e2 (run_receive e1 q0))).
  set (p := mkProcessor [mkListener 0 q] true true).
  set (ls := [PAdd 0; PStart; PDistribute e1; PDistribute e2; PHandle 0 e1] : list (plabel (O:=nat))).
  assert (Hs : psteps newInformerProcessor ls p).
  { change ls with ((((([] ++ [PAdd 0]) ++ [PStart]) ++ [PDistribute e1]) ++ [PDistribute e2]) ++
      [PHandle 0 e1] : list (plabel (O:=nat))).
    eapply psteps_snoc; [eapply psteps_snoc; [eapply psteps_snoc; [eapply psteps_snoc;
      [eapply psteps_snoc; [constructor|]|]|]|]|].
    - by apply (p_add 0 1).
    - by constructor.
    - constructor; [done|]. eapply push_all_push; [by constructor | constructor].
    - constructor; [done|]. simpl. eapply push_all_push; [by constructor | constructor].
    - by apply (p_handle (mkProcessor [mkListener 0 (run_receive e2 (run_receive e1 q0))] true true)
        0 e1 (mkListener 0 (run_receive e2 (run_receive e1 q0))) q); [|by constructor]. }
  exists ls, p. destruct (informerProcessor_in_order ls p 0 (mkListener 0 q) Hs eq_refl) as [H _].
  split; [exact Hs|]. split; [reflexivity|]. split; [reflexivity | exact H].
Defined.
