(* ===== verification/ConcurrentWatcher.v ===== *)
(** * Concurrent handling of events ([operator/concurrentwatcher.go],
    [operator/informer_concurrent.go])

    [concurrentWatcher] shards events by the identity of their object over a fixed number
    of workers, each a [bufferedQueue] and a goroutine that handles one event at a time.
    The identity string of an object ([GroupVersionKind], namespace and name) is taken
    not to change while its events are in flight; the text of a [GroupVersionKind] is an
    argument, as apimachinery makes it. *)
From S2P Require Import Prelude GoValues Resource Concrete RetryPolicy ResourceWatcher BufferedQueue.

Record eventInfo := mkEventInfo {
  ei_action : ResourceAction;
  ei_target : Obj;
  ei_source : Obj;
}.

Definition initialBufferSize : Z := 64.

(** The string [hashMod] hashes. *)
Definition object_id (GVKString : string → string → string → string) (o : Object) : string :=
  let m := GetStaticMetadata o in
  GVKString (sm_Group m) (sm_Version m) (sm_Kind m) +:+ "/" +:+ GetNamespace o +:+ "/" +:+ GetName o.

(** The last separator of a string separates too. *)
Lemma last_separator_inj c s1 s2 t1 t2 :
  free_of c t1 = true → free_of c t2 = true →
  s1 +:+ String c t1 = s2 +:+ String c t2 → s1 = s2 ∧ t1 = t2.
Proof.
  intros H1 H2. revert s2. induction s1 as [|c1 s1 IH]; intros [|c2 s2]; simpl; intros E.
  - by injection E.
  - injection E as <- ->. rewrite free_of_app in H1. simpl in H1. by rewrite Ascii.eqb_refl, andb_false_r in H1.
  - injection E as -> <-. rewrite free_of_app in H2. simpl in H2. by rewrite Ascii.eqb_refl, andb_false_r in H2.
  - injection E as -> E. by destruct (IH s2 E) as [-> ->].
Qed.

(** Objects with the same identity string are the same object of the same kind: namespaces
    and names have no slash. *)
Theorem object_id_injective (GVKString : string → string → string → string) o1 o2 :
  (∀ g v k g' v' k', GVKString g v k = GVKString g' v' k' → (g, v, k) = (g', v', k')) →
  free_of "/" (GetNamespace o1) = true → free_of "/" (GetName o1) = true →
  free_of "/" (GetNamespace o2) = true → free_of "/" (GetName o2) = true →
  object_id GVKString o1 = object_id GVKString o2 → GetStaticMetadata o1 = GetStaticMetadata o2.
Proof.
  intros Hg Hns1 Hn1 Hns2 Hn2 E. unfold object_id in E.
  assert (∀ g ns n : string, g +:+ "/" +:+ ns +:+ "/" +:+ n = (g +:+ String "/" ns) +:+ String "/" n) as Hassoc.
  { intros g ns n. exact (string_app_assoc g (String "/" ns) (String "/" n)). }
  rewrite !Hassoc in E. apply last_separator_inj in E as [E Hn]; [|done..].
  apply last_separator_inj in E as [E%Hg Hns]; [|done..].
  unfold GetNamespace, GetName in *. destruct (GetStaticMetadata o1), (GetStaticMetadata o2). simpl in *. congruence.
Qed.

Section ConcurrentWatcher.
Context {W : Type} {R : Type → Type} `{RG : !RingGrowing R} `{XX : !Xxhash}.

(** [concurrentWatcher]; the workers are those of the keys 0 to [size - 1]. *)
Record concurrentWatcher := mkConcurrentWatcher {
  cw_watcher : ResourceWatcher W;
  cw_size : Z;
  cw_workers : list (bufferedQueue R eventInfo);
  cw_errorHandler : option (GoError → M W unit);
}.

(** [newConcurrentWatcher]; a nil watcher is [None], and [DefaultErrorHandler] only logs. *)
Definition newConcurrentWatcher (watcher : option (ResourceWatcher W)) (initialPoolSize : Z)
    (errorHandler : option (GoError → M W unit)) : concurrentWatcher + GoError :=
  match watcher with
  | None => inr (ErrorString "resource watcher cannot be nil")
  | Some watcher =>
      if (initialPoolSize <=? 0)%Z then
        inr (ErrorString "initial worker pool size needs to be greater than 0")
      else
        inl (mkConcurrentWatcher watcher initialPoolSize
          (replicate (Z.to_nat initialPoolSize) (newBufferedQueue initialBufferSize))
          (match errorHandler with Some h => Some h | None => Some (λ _, ret tt) end))
  end.

(** [hashMod] of an object with the given identity. *)
Definition hashMod (size : Z) (id : string) : nat := Z.to_nat (Sum64 id mod size).

(** [handleEvent] *)
Definition handleEvent (w : concurrentWatcher) (event : eventInfo) : M W unit :=
  let* err :=
    if bool_decide (ei_action event = ResourceActionCreate) then
      rw_Add (cw_watcher w) (ei_target event)
    else if bool_decide (ei_action event = ResourceActionUpdate) then
      rw_Update (cw_watcher w) (ei_source event) (ei_target event)
    else if bool_decide (ei_action event = ResourceActionDelete) then
      rw_Delete (cw_watcher w) (ei_target event)
    else ret None in
  match err, cw_errorHandler w with
  | Some e, Some h => h e
  | _, _ => ret tt
  end.

(** The events [Add], [Update] and [Delete] push, and the object they are sharded by. *)
Definition Add_event (object : Ref) : eventInfo := mkEventInfo ResourceActionCreate (Some object) None.
Definition Update_event (src tgt : Ref) : eventInfo :=
  mkEventInfo ResourceActionUpdate (Some tgt) (Some src).
Definition Delete_event (object : Ref) : eventInfo := mkEventInfo ResourceActionDelete (Some object) None.

Definition sharded_by (e : eventInfo) : Obj :=
  match ei_source e with Some o => Some o | None => ei_target e end.

(** ** The workers

    The queues and, for each worker, the event it is handling. *)
Context (ident : Ref → string) (size : Z).

Record cwstate := mkCWState {
  cs_queues : list (bufferedQueue R eventInfo);
  cs_busy : list (option eventInfo);
}.

Definition event_id (e : eventInfo) : string :=
  match sharded_by e with Some o => ident o | None => "" end.
Definition shard_of (e : eventInfo) : nat := hashMod size (event_id e).

(** Labels: a push that was accepted or dropped, the start and the end of handling an
    event by a worker, a worker's queue stopped, its [run] returned. *)
Inductive cwlabel :=
| CPush (e : eventInfo)
| CDropped (e : eventInfo)
| CStart (i : nat) (e : eventInfo)
| CDone (i : nat)
| CStop (i : nat)
| CReturn (i : nat).

(** [Add], [Update], [Delete], called by any goroutine, and the goroutines of [Run]. *)
Inductive cwstep : cwstate → cwlabel → cwstate → Prop :=
| c_push s e q q' :
    cs_queues s !! shard_of e = Some q → qstep q (QPush e) q' →
    cwstep s (CPush e) (mkCWState (<[shard_of e := q']> (cs_queues s)) (cs_busy s))
| c_drop s e q q' :
    cs_queues s !! shard_of e = Some q → qstep q (QDropped e) q' → cwstep s (CDropped e) s
| c_start s i e q q' :
    cs_queues s !! i = Some q → cs_busy s !! i = Some None → qstep q (QRecv e) q' →
    cwstep s (CStart i e) (mkCWState (<[i := q']> (cs_queues s)) (<[i := Some e]> (cs_busy s)))
| c_done s i e :
    cs_busy s !! i = Some (Some e) →
    cwstep s (CDone i) (mkCWState (cs_queues s) (<[i := None]> (cs_busy s)))
| c_stop s i q q' :
    cs_queues s !! i = Some q → qstep q QStop q' →
    cwstep s (CStop i) (mkCWState (<[i := q']> (cs_queues s)) (cs_busy s))
| c_return s i q q' :
    cs_queues s !! i = Some q → qstep q QReturn q' →
    cwstep s (CReturn i) (mkCWState (<[i := q']> (cs_queues s)) (cs_busy s)).

Inductive cwsteps : cwstate → list cwlabel → cwstate → Prop :=
| cwsteps_nil s : cwsteps s [] s
| cwsteps_snoc s ls s' l s'' : cwsteps s ls s' → cwstep s' l s'' → cwsteps s (ls ++ [l]) s''.

(** All workers started, none of them busy. *)
Definition cwinit (w : concurrentWatcher) : cwstate :=
  mkCWState (cw_workers w) (replicate (length (cw_workers w)) None).

Definition accepted (ls : list cwlabel) : list eventInfo :=
  omap (λ l, match l with CPush e => Some e | _ => None end) ls.
Definition started (ls : list cwlabel) : list eventInfo :=
  omap (λ l, match l with CStart _ e => Some e | _ => None end) ls.
Definition started_by (i : nat) (ls : list cwlabel) : list eventInfo :=
  omap (λ l, match l with CStart j e => if bool_decide (i = j) then Some e else None | _ => None end) ls.

Definition of_shard (i : nat) (l : list eventInfo) : list eventInfo :=
  filter (λ e, shard_of e = i) l.
Definition of_id (k : string) (l : list eventInfo) : list eventInfo :=
  filter (λ e, event_id e = k) l.

(** Each worker's queue holds what was pushed for it and not yet started; what it has
    started, and is handling, is of its shard. *)
Definition cw_inv (ls : list cwlabel) (s : cwstate) : Prop :=
  (∀ i q, cs_queues s !! i = Some q → queue_inv q ∧ started_by i ls ++ waiting q = of_shard i (accepted ls)) ∧
  (∀ i, of_shard i (started ls) = started_by i ls) ∧
  (∀ i e, cs_busy s !! i = Some (Some e) → shard_of e = i) ∧
  (∀ i, length (cs_queues s) ≤ i → started_by i ls = []).

Lemma accepted_snoc ls l : accepted (ls ++ [l]) = accepted ls ++ match l with CPush e => [e] | _ => [] end.
Proof. unfold accepted. rewrite omap_app. by destruct l. Qed.
Lemma started_snoc ls l : started (ls ++ [l]) = started ls ++ match l with CStart _ e => [e] | _ => [] end.
Proof. unfold started. rewrite omap_app. by destruct l. Qed.
Lemma started_by_snoc i ls l :
  started_by i (ls ++ [l]) = started_by i ls ++
    match l with CStart j e => if bool_decide (i = j) then [e] else [] | _ => [] end.
Proof. unfold started_by. rewrite omap_app. destruct l; simpl; try done. by case_bool_decide. Qed.

Lemma of_shard_snoc i l e :
  of_shard i (l ++ [e]) = of_shard i l ++ (if bool_decide (shard_of e = i) then [e] else []).
Proof.
  unfold of_shard. rewrite filter_app. case_bool_decide.
  - by rewrite filter_cons_True.
  - by rewrite filter_cons_False.
Qed.

(** A step that changes one queue without pushing or starting keeps the invariant. *)
Lemma cw_inv_other ls s l i q q' :
  cw_inv ls s → cs_queues s !! i = Some q → queue_inv q' → waiting q' = waiting q →
  (∀ e, l ≠ CPush e) → (∀ j e, l ≠ CStart j e) →
  cw_inv (ls ++ [l]) (mkCWState (<[i := q']> (cs_queues s)) (cs_busy s)).
Proof.
  intros (H1 & H2 & H3 & H4) Hi Hq' Hw Hp Hst.
  assert (E1 : accepted (ls ++ [l]) = accepted ls)
    by (rewrite accepted_snoc; destruct l; rewrite ?app_nil_r; done || by destruct (Hp e)).
  assert (E2 : started (ls ++ [l]) = started ls)
    by (rewrite started_snoc; destruct l as [| |j e| | |]; rewrite ?app_nil_r; done || by destruct (Hst j e)).
  assert (E3 : ∀ j, started_by j (ls ++ [l]) = started_by j ls)
    by (intros k; rewrite started_by_snoc; destruct l as [| |j e| | |]; rewrite ?app_nil_r; done || by destruct (Hst j e)).
  split; [|split; [|split]]; simpl.
  - intros j q0. rewrite E1, E3. destruct (decide (j = i)) as [->|Hne].
    + rewrite list_lookup_insert_eq by (by apply lookup_lt_Some in Hi). intros [= <-].
      split; [done|]. rewrite Hw. by apply H1.
    + rewrite list_lookup_insert_ne by done. apply H1.
  - intros j. by rewrite E2, E3.
  - done.
  - intros j. rewrite length_insert, E3. apply H4.
Qed.

Lemma cw_inv_step ls s l s' : cwstep s l s' → cw_inv ls s → cw_inv (ls ++ [l]) s'.
Proof.
  intros Hs Hinv. pose proof Hinv as (H1 & H2 & H3 & H4).
  destruct Hs as [s e q q' Hi Hq|s e q q' Hi Hq|s i e q q' Hi Hb Hq|s i e Hb|s i q q' Hi Hq|s i q q' Hi Hq].
  - destruct (H1 _ _ Hi) as [Hqi Hw]. inversion Hq; subst.
    destruct (run_receive_spec e q Hqi) as [Hqi' Hw'].
    split; [|split; [|split]]; simpl; rewrite ?accepted_snoc, ?started_snoc.
    + intros j q0. rewrite started_by_snoc, app_nil_r, of_shard_snoc.
      destruct (decide (j = shard_of e)) as [->|Hne].
      * rewrite list_lookup_insert_eq by (by apply lookup_lt_Some in Hi). intros [= <-].
        split; [done|]. rewrite Hw', app_assoc, Hw. by rewrite bool_decide_eq_true_2.
      * rewrite list_lookup_insert_ne by done. rewrite bool_decide_eq_false_2, app_nil_r by done.
        apply H1.
    + intros j. by rewrite app_nil_r, started_by_snoc, app_nil_r.
    + done.
    + intros j. rewrite length_insert, started_by_snoc, app_nil_r. apply H4.
  - split; [|split; [|split]]; rewrite ?accepted_snoc, ?started_snoc, ?app_nil_r; try done.
    + intros j q0. rewrite started_by_snoc, app_nil_r. apply H1.
    + intros j. by rewrite started_by_snoc, app_nil_r.
    + intros j. rewrite started_by_snoc, app_nil_r. apply H4.
  - destruct (H1 _ _ Hi) as [Hqi Hw]. inversion Hq as [| |? ? E1 E2 E3| |]; subst.
    destruct (run_sent_spec e q Hqi E2 E1) as [Hqi' Hw'].
    assert (Hsh : shard_of e = i).
    { assert (He : e ∈ of_shard i (accepted ls))
        by (rewrite <- Hw, Hw'; apply elem_of_app; right; by left).
      by apply list_elem_of_filter in He as [? _]. }
    assert (Hlen : i < length (cs_queues s)) by (by apply lookup_lt_Some in Hi).
    split; [|split; [|split]]; simpl; rewrite ?accepted_snoc, ?started_snoc, ?app_nil_r.
    + intros j q0. rewrite started_by_snoc. destruct (decide (j = i)) as [->|Hne].
      * rewrite list_lookup_insert_eq by done. intros [= <-]. split; [done|].
        rewrite bool_decide_eq_true_2, <- app_assoc by done. rewrite <- Hw, Hw'. done.
      * rewrite list_lookup_insert_ne by done. rewrite bool_decide_eq_false_2, app_nil_r by done.
        apply H1.
    + intros j. rewrite of_shard_snoc, started_by_snoc, H2, Hsh. f_equal.
      by case_bool_decide; case_bool_decide.
    + intros j e0. destruct (decide (j = i)) as [->|Hne].
      * intros Hb'. apply list_lookup_insert_Some in Hb' as [(_ & [= <-] & _)|[? _]]; done.
      * rewrite list_lookup_insert_ne by done. apply H3.
    + intros j. rewrite length_insert, started_by_snoc. intros Hj.
      rewrite bool_decide_eq_false_2 by lia. rewrite app_nil_r. by apply H4.
  - split; [|split; [|split]]; simpl; rewrite ?accepted_snoc, ?started_snoc, ?app_nil_r; try done.
    + intros j q0. rewrite started_by_snoc, app_nil_r. apply H1.
    + intros j. by rewrite started_by_snoc, app_nil_r.
    + intros j e0. destruct (decide (j = i)) as [->|Hne].
      * intros Hb'. by apply list_lookup_insert_Some in Hb' as [(_ & ? & _)|[? _]].
      * rewrite list_lookup_insert_ne by done. apply H3.
    + intros j. rewrite started_by_snoc, app_nil_r. apply H4.
  - eapply cw_inv_other; [done | done | | | done | done].
    + eapply queue_inv_step; [done | by apply (H1 i)].
    + by inversion Hq.
  - eapply cw_inv_other; [done | done | | | done | done].
    + eapply queue_inv_step; [done | by apply (H1 i)].
    + by inversion Hq.
Qed.

Lemma cw_inv_init w :
  Forall (λ q, ∃ n, q = newBufferedQueue n) (cw_workers w) → cw_inv [] (cwinit w).
Proof.
  intros Hnew. split; [|split; [done|split; [|done]]]; simpl.
  - intros i q Hi. rewrite Forall_lookup in Hnew. destruct (Hnew i q Hi) as [n ->].
    split; [apply queue_inv_new|]. unfold waiting. simpl. apply elements_new.
  - intros i e Hi. by apply lookup_replicate in Hi as [? _].
Qed.

Lemma cw_inv_steps w ls s :
  Forall (λ q, ∃ n, q = newBufferedQueue n) (cw_workers w) → cwsteps (cwinit w) ls s → cw_inv ls s.
Proof.
  intros Hnew Hs. remember (cwinit w) as s0 eqn:E. induction Hs as [|s0 ls s1 l s2 Hs IH Hl]; subst.
  - by apply cw_inv_init.
  - eapply cw_inv_step; [done | by apply IH].
Qed.

Lemma cwsteps_length s ls s' : cwsteps s ls s' → length (cs_queues s') = length (cs_queues s).
Proof.
  induction 1 as [|s ls s1 l s2 Hs IH Hl]; [done|]. rewrite <- IH.
  destruct Hl; simpl; by rewrite ?length_insert.
Qed.

(** The events of an identity are all of its shard. *)
Lemma of_id_of_shard k l : of_id k (of_shard (hashMod size k) l) = of_id k l.
Proof.
  unfold of_id, of_shard. rewrite list_filter_filter. apply filter_ext_in, Forall_true.
  intros e. unfold shard_of. split; [tauto|]. by intros ->.
Qed.

Lemma of_id_app k l1 l2 : of_id k (l1 ++ l2) = of_id k l1 ++ of_id k l2.
Proof. apply filter_app. Qed.

Lemma hashMod_lt k : (0 < size)%Z → hashMod size k < Z.to_nat size.
Proof. intros Hs. unfold hashMod. pose proof (Z.mod_pos_bound (Sum64 k) size Hs). lia. Qed.

Lemma newConcurrentWatcher_workers watcher n h w :
  newConcurrentWatcher watcher n h = inl w →
  (0 < n)%Z ∧ cw_size w = n ∧ length (cw_workers w) = Z.to_nat n ∧
  Forall (λ q, ∃ n, q = newBufferedQueue n) (cw_workers w).
Proof.
  unfold newConcurrentWatcher. destruct watcher as [rw|]; [|done].
  destruct (Z.leb_spec n 0); [done|]. intros [= <-]. simpl. split; [done|]. split; [done|].
  split; [by rewrite length_replicate|]. apply Forall_replicate. by eexists.
Qed.
End ConcurrentWatcher.

(** ** Properties *)

(** C30: The events of one object are handled in the order they were accepted, one at a
    time, whatever the interleaving of the workers: for every identity, the events that
    were started, followed by those waiting in the queue of its worker, are those that
    were accepted; two workers that are busy handle different objects; and every event
    has a worker to be pushed to. *)
Theorem concurrentWatcher_per_object_order {W R} `{RG : !RingGrowing R} `{XX : !Xxhash}
    (ident : Ref → string) watcher n h (w : concurrentWatcher (W:=W) (R:=R)) ls s :
  newConcurrentWatcher watcher n h = inl w →
  cwsteps ident (cw_size w) (cwinit w) ls s →
  (∀ k, ∃ q, cs_queues s !! hashMod (cw_size w) k = Some q ∧
     of_id ident k (started ls) ++ of_id ident k (waiting q) = of_id ident k (accepted ls)) ∧
  (∀ i j e1 e2, i ≠ j → cs_busy s !! i = Some (Some e1) → cs_busy s !! j = Some (Some e2) →
     event_id ident e1 ≠ event_id ident e2) ∧
  (∀ e, is_Some (cs_queues s !! shard_of ident (cw_size w) e)).
Proof.
  intros Hw Hs. destruct (newConcurrentWatcher_workers _ _ _ _ Hw) as (Hn & Hsz & Hlen & Hnew).
  destruct (cw_inv_steps ident (cw_size w) w ls s Hnew Hs) as (H1 & H2 & H3 & H4).
  assert (Hq : ∀ k, is_Some (cs_queues s !! hashMod (cw_size w) k)).
  { intros k. apply lookup_lt_is_Some. rewrite (cwsteps_length _ _ _ _ _ Hs). simpl.
    rewrite Hlen, Hsz. by apply hashMod_lt. }
  split; [|split].
  - intros k. destruct (Hq k) as [q Hi]. exists q. split; [done|].
    destruct (H1 _ _ Hi) as [_ Heq].
    rewrite <- (of_id_of_shard ident (cw_size w) k (accepted ls)), <- Heq, <- H2.
    by rewrite of_id_app, of_id_of_shard.
  - intros i j e1 e2 Hij Hi Hj Hk. apply Hij. rewrite <- (H3 _ _ Hi), <- (H3 _ _ Hj).
    unfold shard_of. by rewrite Hk.
  - intros e. apply Hq.
Qed.

(** ** [ConcurrentInformer] ([operator/informer_concurrent.go]) *)

(** A health check by its name, and what a value offers to the observer: [health.Check],
    [health.Checker]. *)
Abbreviation Check := string (only parsing).

(** The interface [Informer]; [inf_Check] and [inf_Checker] are [Some] when the value also
    implements [health.Check] or [health.Checker]. *)
Record Informer (W : Type) := mkInformer {
  inf_AddEventHandler : ResourceWatcher W → M W (option GoError);
  inf_Run : M W (option GoError);
  inf_WaitForSync : M W (option GoError);
  inf_Check : option Check;
  inf_Checker : option (list Check);
}.
Arguments mkInformer {W}.
Arguments inf_AddEventHandler {W}.
Arguments inf_Run {W}.
Arguments inf_WaitForSync {W}.
Arguments inf_Check {W}.
Arguments inf_Checker {W}.

Section ConcurrentInformer.
Context {W : Type} {R : Type → Type} `{RG : !RingGrowing R} `{XX : !Xxhash}.

(** [ConcurrentInformer]; the handler logs when nil ([DefaultErrorHandler]). *)
Record ConcurrentInformer := mkConcurrentInformer {
  ci_errorHandler : GoError → M W unit;
  ci_informer : Informer W;
  ci_watchers : list (concurrentWatcher (W:=W) (R:=R));
  ci_maxConcurrentWorkers : Z;
}.

Record ConcurrentInformerOptions := mkConcurrentInformerOptions {
  co_ErrorHandler : option (GoError → M W unit);
  co_MaxConcurrentWorkers : Z;
}.

(** [NewConcurrentInformer]; [NewConcurrentInformerFromOptions] reads the same two fields
    of [InformerOptions]. *)
Definition NewConcurrentInformer (inf : Informer W) (opts : ConcurrentInformerOptions)
  : ConcurrentInformer :=
  mkConcurrentInformer
    (match co_ErrorHandler opts with Some h => h | None => λ _, ret tt end) inf []
    (if (0 <? co_MaxConcurrentWorkers opts)%Z then co_MaxConcurrentWorkers opts else 10).

Definition add_watcher (cw : concurrentWatcher) (ci : ConcurrentInformer) : ConcurrentInformer :=
  mkConcurrentInformer (ci_errorHandler ci) (ci_informer ci) (ci_watchers ci ++ [cw])
    (ci_maxConcurrentWorkers ci).

(** [AddEventHandler]; [iface] is the [ResourceWatcher] a [concurrentWatcher] is to the
    inner informer. *)
Definition AddEventHandler (iface : concurrentWatcher → ResourceWatcher W)
    (handler : option (ResourceWatcher W)) (ci : ConcurrentInformer)
  : M W (option GoError * ConcurrentInformer) :=
  match newConcurrentWatcher handler (ci_maxConcurrentWorkers ci) (Some (ci_errorHandler ci)) with
  | inr e => ret (Some e, ci)
  | inl cw =>
      let* err := inf_AddEventHandler (ci_informer ci) (iface cw) in
      ret (err, add_watcher cw ci)
  end.

(** [HealthChecks] *)
Definition HealthChecks (ci : ConcurrentInformer) : list Check :=
  option_list (inf_Check (ci_informer ci)) ++ default [] (inf_Checker (ci_informer ci)).

(** Every watcher of an informer made by [NewConcurrentInformer] has that many workers. *)
Definition ci_wf (ci : ConcurrentInformer) : Prop :=
  (0 < ci_maxConcurrentWorkers ci)%Z ∧
  Forall (λ w, cw_size w = ci_maxConcurrentWorkers ci ∧
    length (cw_workers w) = Z.to_nat (ci_maxConcurrentWorkers ci)) (ci_watchers ci).

Lemma NewConcurrentInformer_wf inf opts : ci_wf (NewConcurrentInformer inf opts).
Proof.
  split; [|constructor]. simpl. destruct (Z.ltb_spec 0 (co_MaxConcurrentWorkers opts)); lia.
Qed.
End ConcurrentInformer.

(** Adding a handler: a nil one is refused and changes nothing; any other is wrapped
    with its own pool of workers, of the configured size (10 by default), and handed to
    the inner informer, whose error is returned; the wrapper stays registered, and its
    workers will be run, even then. *)
Theorem ConcurrentInformer_AddEventHandler {W R} `{RG : !RingGrowing R} `{XX : !Xxhash}
    (ci : ConcurrentInformer (W:=W) (R:=R)) iface handler σ :
  ci_wf ci →
  match handler with
  | None => ∃ e, AddEventHandler iface None ci σ = ((Some e, ci), σ)
  | Some rw => ∃ cw,
      cw_watcher cw = rw ∧ length (cw_workers cw) = Z.to_nat (ci_maxConcurrentWorkers ci) ∧
      ci_wf (add_watcher cw ci) ∧
      AddEventHandler iface handler ci σ =
        let '(err, σ') := inf_AddEventHandler (ci_informer ci) (iface cw) σ in
        ((err, add_watcher cw ci), σ')
  end.
Proof.
  intros [Hn Hwf]. destruct handler as [rw|]; [|by eexists].
  unfold AddEventHandler. destruct (newConcurrentWatcher _ _ _) as [cw|e] eqn:E.
  - exists cw. destruct (newConcurrentWatcher_workers _ _ _ _ E) as (_ & Hsz & Hlen & _).
    split; [|split; [done|split]].
    + revert E. unfold newConcurrentWatcher. destruct (Z.leb_spec (ci_maxConcurrentWorkers ci) 0); [lia|].
      by intros [= <-].
    + split; [done|]. simpl. apply Forall_app. split; [done|]. by repeat constructor.
    + unfold bind. by destruct (inf_AddEventHandler _ _ σ).
  - revert E. unfold newConcurrentWatcher. destruct (Z.leb_spec (ci_maxConcurrentWorkers ci) 0); [lia|done].
Qed.

(** ** Witnesses *)

Definition idle_watcher : ResourceWatcher TestWorld :=
  mkResourceWatcher (λ _, ret None) (λ _ _, ret None) (λ _, ret None) None.

Definition test_cw : concurrentWatcher (W:=TestWorld) (R:=list) :=
  mkConcurrentWatcher idle_watcher 2 (replicate 2 (newBufferedQueue 64)) None.

Definition failing_informer : Informer TestWorld :=
  mkInformer (λ _, ret (Some (ErrorString "closed"))) (ret None) (ret None) None None.

(** The identity of the objects of the witness; the text is that of apimachinery. *)
Definition test_gvk (g v k : string) : string := g +:+ "/" +:+ v +:+ ", Kind=" +:+ k.
Definition test_ident (r : Ref) : string :=
  object_id test_gvk (mkObject (mkStaticMetadata "g" "v1" "K" "ns" (pretty r)) (GetCommonMetadata zeroObject) "").

Lemma concurrentWatcher_per_object_order_witness :
  ∃ ls s, cwsteps test_ident 2 (cwinit test_cw) ls s ∧
    started ls = [Add_event 7] ∧ accepted ls = [Add_event 7; Delete_event 7] ∧
    (∃ q, cs_queues s !! hashMod 2 (test_ident 7) = Some q ∧
       of_id test_ident (test_ident 7) (started ls) ++ of_id test_ident (test_ident 7) (waiting q) =
       of_id test_ident (test_ident 7) (accepted ls)).
Proof.
  set (q0 := newBufferedQueue 64 : bufferedQueue list eventInfo).
  set (q1 := run_receive (Add_event 7) q0). set (q2 := run_receive (Delete_event 7) q1).
  set (s := mkCWState [q0; run_sent q2] [None; Some (Add_event 7)]).
  assert (Hs : cwsteps test_ident 2 (cwinit test_cw)
    ((([] ++ [CPush (Add_event 7)]) ++ [CPush (Delete_event 7)]) ++ [CStart 1 (Add_event 7)]) s).
  { eapply cwsteps_snoc; [eapply cwsteps_snoc; [eapply cwsteps_snoc; [constructor|]|]|].
    - apply (c_push test_ident 2 (cwinit test_cw) (Add_event 7) q0 q1); [reflexivity | by constructor].
    - apply (c_push test_ident 2 (mkCWState [q0; q1] [None; None]) (Delete_event 7) q1 q2);
        [reflexivity | by constructor].
    - apply (c_start test_ident 2 (mkCWState [q0; q2] [None; None]) 1 (Add_event 7) q2 (run_sent q2));
        [reflexivity | reflexivity | by constructor]. }
  destruct (concurrentWatcher_per_object_order test_ident (Some idle_watcher) 2 None _ _ _ eq_refl Hs)
    as [H _].
  eexists _, s. split; [exact Hs|]. split; [reflexivity|]. split; [reflexivity|]. apply (H (test_ident 7)).
Defined.

Lemma ConcurrentInformer_AddEventHandler_witness :
  let ci := NewConcurrentInformer (R:=list) failing_informer (mkConcurrentInformerOptions None 0) in
  ∃ cw, AddEventHandler (λ _, idle_watcher) (Some idle_watcher) ci test_world =
        ((Some (ErrorString "closed"), add_watcher cw ci), test_world) ∧
        length (cw_workers cw) = 10.
Proof.
  destruct (ConcurrentInformer_AddEventHandler _ (λ _, idle_watcher) (Some idle_watcher) test_world
    (NewConcurrentInformer_wf (R:=list) failing_informer (mkConcurrentInformerOptions None 0)))
    as (cw & _ & Hl & _ & E).
  exists cw. split; [exact E | exact Hl].
Defined.
