(* ===== verification/Client.v ===== *)
(** * Clients ([resource/client.go], [k8s/client.go])

    [Client] is the interface through which stores and reconcilers reach the API server;
    [k8s_Client] is the SDK's implementation of it for one kind.  The REST requests
    themselves ([k8s/gvclient.go]) are the record [groupVersionClient].  Objects are
    passed by pointer: the setters of [resource.Object] change them in the world. *)
From S2P Require Import Prelude Resource ResourceWatcher Schema.

#[local] Open Scope string_scope.

(** Memory: assigning through a pointer. *)
Class Memory (W : Type) `{!World W} := {
  store : Ref → Object → W → W;
  deref_store_eq r o σ : deref r (store r o σ) = o;
  deref_store_ne r r' o σ : r ≠ r' → deref r' (store r o σ) = deref r' σ;
}.

(** [SetStaticMetadata], [SetCommonMetadata] and [SetResourceVersion] of an object. *)
Definition with_StaticMetadata (m : StaticMetadata) (o : Object) : Object :=
  mkObject m (GetCommonMetadata o) (GetSpec o).

Definition with_CommonMetadata (m : CommonMetadata) (o : Object) : Object :=
  mkObject (GetStaticMetadata o) m (GetSpec o).

Definition with_ResourceVersion (rv : string) (o : Object) : Object :=
  let m := GetCommonMetadata o in
  with_CommonMetadata
    (mkCommonMetadata (cm_UID m) rv (cm_Generation m) (cm_Labels m) (cm_CreationTimestamp m)
       (cm_DeletionTimestamp m) (cm_Finalizers m) (cm_UpdateTimestamp m) (cm_CreatedBy m)
       (cm_UpdatedBy m) (cm_ExtraFields m)) o.

Definition with_UpdateTimestamp (t : Z) (o : Object) : Object :=
  let m := GetCommonMetadata o in
  with_CommonMetadata
    (mkCommonMetadata (cm_UID m) (cm_ResourceVersion m) (cm_Generation m) (cm_Labels m)
       (cm_CreationTimestamp m) (cm_DeletionTimestamp m) (cm_Finalizers m) t (cm_CreatedBy m)
       (cm_UpdatedBy m) (cm_ExtraFields m)) o.

Definition update_ref {W} `{!World W, !Memory W} (r : Ref) (f : Object → Object) : M W unit :=
  modify (λ σ, store r (f (deref r σ)) σ).

(** [CreateOptions], [UpdateOptions], [ListOptions], [DeleteOptions] *)
Record CreateOptions := mkCreateOptions { co_DryRun : bool }.

Record UpdateOptions := mkUpdateOptions {
  uo_ResourceVersion : string;
  uo_Subresource : string;
  uo_DryRun : bool;
}.

Record ListOptions := mkListOptions {
  lo_ResourceVersion : string;
  lo_LabelFilters : list string;
  lo_FieldSelectors : list string;
  lo_Limit : Z;
  lo_Continue : string;
}.

Record DeleteOptions := mkDeleteOptions {
  do_PreconditionResourceVersion : string;
  do_PreconditionUID : string;
  do_PropagationPolicy : string;
}.

Definition CreateOptions_zero : CreateOptions := mkCreateOptions false.
Definition UpdateOptions_zero : UpdateOptions := mkUpdateOptions "" "" false.
Definition DeleteOptions_zero : DeleteOptions := mkDeleteOptions "" "" "".

(** [NamespaceAll] *)
Definition NamespaceAll : string := "".

(** The items and the list metadata of a [ListObject] or a [TypedList]. *)
Record ListObject := mkListObject {
  li_Items : list Obj;
  li_Continue : string;
  li_ResourceVersion : string;
}.

(** The interface [Client], without the two methods that open streams ([Watch],
    [SubresourceRequest]).  [List] gives a list or an error. *)
Record Client (W : Type) := mkClient {
  cl_Get : Identifier → M W (Obj * option GoError);
  cl_GetInto : Identifier → Obj → M W (option GoError);
  cl_Create : Identifier → Obj → CreateOptions → M W (Obj * option GoError);
  cl_CreateInto : Identifier → Obj → CreateOptions → Obj → M W (option GoError);
  cl_Update : Identifier → Obj → UpdateOptions → M W (Obj * option GoError);
  cl_UpdateInto : Identifier → Obj → UpdateOptions → Obj → M W (option GoError);
  cl_Patch : Identifier → PatchRequest → PatchOptions → M W (Obj * option GoError);
  cl_PatchInto : Identifier → PatchRequest → PatchOptions → Obj → M W (option GoError);
  cl_Delete : Identifier → DeleteOptions → M W (option GoError);
  cl_List : string → ListOptions → M W (ListObject + GoError);
  cl_ListInto : string → ListOptions → M W (ListObject * option GoError);
}.
Arguments mkClient {W}.
Arguments cl_Get {W}.
Arguments cl_GetInto {W}.
Arguments cl_Create {W}.
Arguments cl_CreateInto {W}.
Arguments cl_Update {W}.
Arguments cl_UpdateInto {W}.
Arguments cl_Patch {W}.
Arguments cl_PatchInto {W}.
Arguments cl_Delete {W}.
Arguments cl_List {W}.
Arguments cl_ListInto {W}.

(** ** [k8s.Client] *)

(** The requests of [groupVersionClient]: the identifier, the plural of the kind, and
    the objects sent and received; [gv_getMetadata] gives the resource version, the only
    part of the metadata that is used. *)
Record groupVersionClient (W : Type) := mkGroupVersionClient {
  gv_get : Identifier → string → Ref → M W (option GoError);
  gv_getMetadata : Identifier → string → M W (string * option GoError);
  gv_create : string → Ref → Ref → CreateOptions → M W (option GoError);
  gv_update : string → Ref → Ref → UpdateOptions → M W (option GoError);
  gv_updateSubresource : string → string → Ref → Ref → UpdateOptions → M W (option GoError);
  gv_patch : Identifier → string → PatchRequest → Obj → PatchOptions → M W (option GoError);
  gv_delete : Identifier → string → DeleteOptions → M W (option GoError);
  gv_list : string → string → ListOptions → M W (ListObject * option GoError);
}.
Arguments gv_get {W}.
Arguments gv_getMetadata {W}.
Arguments gv_create {W}.
Arguments gv_update {W}.
Arguments gv_updateSubresource {W}.
Arguments gv_patch {W}.
Arguments gv_delete {W}.
Arguments gv_list {W}.

Section K8sClient.
Context {W : Type} `{WW : !World W} `{MM : !Memory W}.

(** [Client]: the client of a group version, and the schema. *)
Record k8s_Client := mkK8sClient {
  kc_client : groupVersionClient W;
  kc_schema : Schema W;
}.

(** The static metadata [CreateInto] and [UpdateInto] give an object. *)
Definition static_of (c : k8s_Client) (id : Identifier) : StaticMetadata :=
  mkStaticMetadata (Group (kc_schema c)) (Version (kc_schema c)) (Kind_ (kc_schema c))
    (id_Namespace id) (id_Name id).

(** [GetInto] and [Get] *)
Definition k8s_GetInto (c : k8s_Client) (identifier : Identifier) (into : Obj)
  : M W (option GoError) :=
  match into with
  | None => ret (Some (ErrorString "into cannot be nil"))
  | Some into => gv_get (kc_client c) identifier (Plural (kc_schema c)) into
  end.

Definition k8s_Get (c : k8s_Client) (identifier : Identifier) : M W (Obj * option GoError) :=
  let* into := ZeroValue (kc_schema c) in
  let* err := k8s_GetInto c identifier into in
  match err with
  | Some e => ret (None, Some e)
  | None => ret (into, None)
  end.

(** [CreateInto] and [Create] *)
Definition scope_error (verb : string) (scope : SchemaScope) (where_ : string) : GoError :=
  ErrorString ("cannot " +:+ verb +:+ " with schema scope " +:+ scope +:+ " in " +:+ where_).

Definition k8s_CreateInto (c : k8s_Client) (id : Identifier) (obj : Obj) (opts : CreateOptions)
    (into : Obj) : M W (option GoError) :=
  match obj, into with
  | None, _ => ret (Some (ErrorString "obj cannot be nil"))
  | _, None => ret (Some (ErrorString "into cannot be nil"))
  | Some obj, Some into =>
      let scope := Scope_ (kc_schema c) in
      if bool_decide (scope = NamespacedScope) && bool_decide (id_Namespace id = NamespaceAll) then
        ret (Some (scope_error "create a resource" scope "NamespaceAll"))
      else if bool_decide (scope = ClusterScope) && negb (bool_decide (id_Namespace id = NamespaceAll)) then
        ret (Some (scope_error "create a resource" scope (id_Namespace id)))
      else
        update_ref obj (with_StaticMetadata (static_of c id)) ;;;
        gv_create (kc_client c) (Plural (kc_schema c)) obj into opts
  end.

Definition k8s_Create (c : k8s_Client) (id : Identifier) (obj : Obj) (opts : CreateOptions)
  : M W (Obj * option GoError) :=
  let* into := ZeroValue (kc_schema c) in
  let* err := k8s_CreateInto c id obj opts into in
  match err with
  | Some e => ret (None, Some e)
  | None => ret (into, None)
  end.

(** [UpdateInto] and [Update] *)
Definition k8s_UpdateInto (c : k8s_Client) (identifier : Identifier) (obj : Obj)
    (options : UpdateOptions) (into : Obj) : M W (option GoError) :=
  match obj, into with
  | None, _ => ret (Some (ErrorString "obj cannot be nil"))
  | _, None => ret (Some (ErrorString "into cannot be nil"))
  | Some obj, Some into =>
      update_ref obj (with_StaticMetadata (static_of c identifier)) ;;;
      (if bool_decide (uo_ResourceVersion options = "") then
         let* '(rv, err) := gv_getMetadata (kc_client c) identifier (Plural (kc_schema c)) in
         match err with
         | Some e => ret (Some e)
         | None => update_ref obj (with_ResourceVersion rv) ;;; ret None
         end
       else update_ref obj (with_ResourceVersion (uo_ResourceVersion options)) ;;; ret None) ;;?
      (if bool_decide (uo_Subresource options = "") then
         gv_update (kc_client c) (Plural (kc_schema c)) obj into options
       else
         gv_updateSubresource (kc_client c) (Plural (kc_schema c)) (uo_Subresource options)
           obj into options)
  end.

Definition k8s_Update (c : k8s_Client) (identifier : Identifier) (obj : Obj)
    (options : UpdateOptions) : M W (Obj * option GoError) :=
  match obj with
  | None => ret (None, Some (ErrorString "obj cannot be nil"))
  | Some _ =>
      let* into := ZeroValue (kc_schema c) in
      let* err := k8s_UpdateInto c identifier obj options into in
      match err with
      | Some e => ret (None, Some e)
      | None => ret (into, None)
      end
  end.

(** [PatchInto] and [Patch] *)
Definition k8s_PatchInto (c : k8s_Client) (identifier : Identifier) (patch : PatchRequest)
    (options : PatchOptions) (into : Obj) : M W (option GoError) :=
  gv_patch (kc_client c) identifier (Plural (kc_schema c)) patch into options.

Definition k8s_Patch (c : k8s_Client) (identifier : Identifier) (patch : PatchRequest)
    (options : PatchOptions) : M W (Obj * option GoError) :=
  let* into := ZeroValue (kc_schema c) in
  let* err := k8s_PatchInto c identifier patch options into in
  match err with
  | Some e => ret (None, Some e)
  | None => ret (into, None)
  end.

(** [Delete] *)
Definition k8s_Delete (c : k8s_Client) (identifier : Identifier) (options : DeleteOptions)
  : M W (option GoError) :=
  gv_delete (kc_client c) identifier (Plural (kc_schema c)) options.

(** [List] and [ListInto]; only the latter looks at the scope. *)
Definition k8s_List (c : k8s_Client) (namespace : string) (options : ListOptions)
  : M W (ListObject + GoError) :=
  let* _ := ZeroListValue (kc_schema c) in
  let* '(into, err) := gv_list (kc_client c) namespace (Plural (kc_schema c)) options in
  match err with
  | Some e => ret (inr e)
  | None => ret (inl into)
  end.

Definition empty_list : ListObject := mkListObject [] "" "".

Definition k8s_ListInto (c : k8s_Client) (namespace : string) (options : ListOptions)
  : M W (ListObject * option GoError) :=
  if bool_decide (Scope_ (kc_schema c) = ClusterScope) && negb (bool_decide (namespace = NamespaceAll)) then
    ret (empty_list, Some (scope_error "list resources" (Scope_ (kc_schema c)) namespace))
  else gv_list (kc_client c) namespace (Plural (kc_schema c)) options.

(** The [k8s.Client] as a [resource.Client]. *)
Definition k8s_client (c : k8s_Client) : Client W :=
  mkClient (k8s_Get c) (k8s_GetInto c) (k8s_Create c) (k8s_CreateInto c) (k8s_Update c)
    (k8s_UpdateInto c) (k8s_Patch c) (k8s_PatchInto c) (k8s_Delete c) (k8s_List c) (k8s_ListInto c).

(** ** What is sent *)
Lemma update_ref_run r f σ :
  update_ref r f σ = (tt, store r (f (deref r σ)) σ).
Proof. done. Qed.

(** An update with a resource version sends the object under the identifier's name and
    namespace and the schema's kind, with that version. *)
Lemma k8s_UpdateInto_versioned c id r opts into σ :
  uo_ResourceVersion opts ≠ "" →
  ∃ σ1,
    deref r σ1 = with_ResourceVersion (uo_ResourceVersion opts)
                   (with_StaticMetadata (static_of c id) (deref r σ)) ∧
    k8s_UpdateInto c id (Some r) opts (Some into) σ =
      (if bool_decide (uo_Subresource opts = "") then
         gv_update (kc_client c) (Plural (kc_schema c)) r into opts
       else gv_updateSubresource (kc_client c) (Plural (kc_schema c)) (uo_Subresource opts) r into opts) σ1.
Proof.
  intros Hrv. eexists. split; [|].
  2:{ unfold k8s_UpdateInto. rewrite bool_decide_eq_false_2 by done. reflexivity. }
  simpl. by rewrite !deref_store_eq.
Qed.

(** An update without one asks the server for the current version first, and sends that. *)
Lemma k8s_UpdateInto_unversioned c id r opts into σ :
  uo_ResourceVersion opts = "" →
  let σ0 := store r (with_StaticMetadata (static_of c id) (deref r σ)) σ in
  k8s_UpdateInto c id (Some r) opts (Some into) σ =
    match gv_getMetadata (kc_client c) id (Plural (kc_schema c)) σ0 with
    | ((_, Some e), σ1) => (Some e, σ1)
    | ((rv, None), σ1) =>
        (if bool_decide (uo_Subresource opts = "") then
           gv_update (kc_client c) (Plural (kc_schema c)) r into opts
         else gv_updateSubresource (kc_client c) (Plural (kc_schema c)) (uo_Subresource opts) r into opts)
          (store r (with_ResourceVersion rv (deref r σ1)) σ1)
    end.
Proof.
  intros Hrv σ0. unfold k8s_UpdateInto. rewrite bool_decide_eq_true_2 by done.
  unfold and_then, bind, update_ref, modify. fold σ0.
  destruct (gv_getMetadata _ _ _ σ0) as [[rv [e|]] σ1] eqn:E; simpl;
    fold σ0; rewrite ?E; done.
Qed.
End K8sClient.

Arguments k8s_Client W : clear implicits.
