(* ===== verification/Store.v ===== *)
(** * Stores ([resource/store.go], [resource/typedstore.go], [resource/updater.go])

    [Store] finds the client of a kind and checks what it is given; [TypedStore] is for
    one kind and casts what the client returns; [UpdateObject] is the read-modify-write
    loop with optimistic concurrency.  An object argument is a non-nil reference; the test
    of a type assertion to the type parameter is the argument [is_T]. *)
From S2P Require Import Prelude Resource Concrete RetryPolicy ResourceWatcher Schema Client.

#[local] Open Scope string_scope.

(** [apierrors.IsNotFound]; it is false of nil. *)
Class ApiNotFound := {
  IsNotFound : GoError → bool;
  IsNotFound_status : ∀ e1 e2, AsAPIStatus e1 = AsAPIStatus e2 → IsNotFound e1 = IsNotFound e2;
}.

Definition ErrMissingResourceVersion : GoError := ErrorString "object is missing a ResourceVersion".

Section Stores.
Context {W : Type} `{WW : !World W} `{MM : !Memory W} `{AE : !ApiErrors} `{NF : !ApiNotFound}.

(** [md := obj.GetCommonMetadata(); md.UpdateTimestamp = time.Now().UTC();
    obj.SetCommonMetadata(md)] *)
Definition touch (obj : Ref) : M W unit :=
  let* o := gets (deref obj) in
  let* t := Now in
  update_ref obj (with_CommonMetadata (GetCommonMetadata (with_UpdateTimestamp t o))).

(** ** [UpdateObject] *)

Section UpdateObject.
Context (client : Client W) (identifier : Identifier) (is_T : Ref → bool)
  (updateFunc : Obj → bool → M W (Obj * option GoError)) (opts : UpdateOptions).

(** The closure [doUpdate]; [None] is the nil-pointer panic when [updateFunc] returns
    neither an object nor an error. *)
Definition doUpdate (obj : Obj) (isRetry : bool) : M W (option (Obj * option GoError)) :=
  let* '(obj, err) := updateFunc obj isRetry in
  match err with
  | Some e => ret (Some (None, Some e))
  | None =>
      match obj with
      | None => ret None
      | Some r =>
          let* o := gets (deref r) in
          if bool_decide (GetResourceVersion o = "") then
            ret (Some (None, Some ErrMissingResourceVersion))
          else
            let* err := cl_UpdateInto client identifier (Some r)
                          (mkUpdateOptions (GetResourceVersion o) (uo_Subresource opts) (uo_DryRun opts))
                          (Some r) in
            ret (Some (Some r, err))
      end
  end.

(** The loop and the return, with [n] retries left. *)
Fixpoint update_loop (n : nat) (obj : Obj) (err : option GoError)
  : M W (option (Obj * option GoError)) :=
  match err with
  | None => ret (Some (obj, None))
  | Some e =>
      match n with
      | O => ret (Some (None, Some e))
      | S n =>
          if IsConflict e then
            let* err := cl_GetInto client identifier obj in
            match err with
            | Some e => ret (Some (None, Some e))
            | None =>
                let* res := doUpdate obj true in
                match res with
                | None => ret None
                | Some (obj, err) => update_loop n obj err
                end
            end
          else ret (Some (None, Some e))
      end
  end.

(** [UpdateObject], for a client and an update function that are not nil. *)
Definition UpdateObject_body : M W (option (Obj * option GoError)) :=
  let* '(rawObj, err) := cl_Get client identifier in
  match err with
  | Some e => ret (Some (None, Some e))
  | None =>
      match rawObj with
      | Some r =>
          if is_T r then
            let* res := doUpdate (Some r) false in
            match res with
            | None => ret None
            | Some (obj, err) => update_loop 2 obj err
            end
          else ret (Some (None, Some (ErrorString "unable to cast Object into provided type")))
      | None => ret (Some (None, Some (ErrorString "unable to cast Object into provided type")))
      end
  end.
End UpdateObject.

Definition UpdateObject (client : option (Client W)) (identifier : Identifier) (is_T : Ref → bool)
    (updateFunc : option (Obj → bool → M W (Obj * option GoError))) (opts : UpdateOptions)
  : M W (option (Obj * option GoError)) :=
  match client, updateFunc with
  | None, _ => ret (Some (None, Some (ErrorString "client must not be nil")))
  | _, None => ret (Some (None, Some (ErrorString "updateFunc must not be nil")))
  | Some client, Some f => UpdateObject_body client identifier is_T f opts
  end.

(** ** [Store] *)

(** [StoreListOptions] *)
Record StoreListOptions := mkStoreListOptions {
  slo_Namespace : string;
  slo_PerPage : Z;
  slo_Filters : list string;
  slo_FieldSelectors : list string;
}.

(** [Store]; [st_clients] is [ClientFor] of the generator. *)
Record Store := mkStore {
  st_clients : Schema W → M W (Client W + GoError);
  st_types : gmap string (Schema W);
}.

(** [Register], [RegisterGroup] and [NewStore]; a [KindCollection] is the list of its
    kinds. *)
Definition Register (sch : Schema W) (s : Store) : Store :=
  mkStore (st_clients s) (<[Kind_ sch := sch]> (st_types s)).

Definition RegisterGroup (group : list (Schema W)) (s : Store) : Store :=
  foldl (λ s sch, Register sch s) s group.

Definition NewStore (gen : Schema W → M W (Client W + GoError)) (groups : list (list (Schema W)))
  : Store :=
  foldl (λ s g, RegisterGroup g s) (mkStore gen ∅) groups.

(** [getClient] *)
Definition getClient (s : Store) (kind : string) : M W (Client W + GoError) :=
  match st_types s !! kind with
  | None => ret (inr (ErrorString ("resource kind '" +:+ kind +:+ "' is not registered in store")))
  | Some schema => st_clients s schema
  end.

(** [client, err := s.getClient(kind); if err != nil { return nil, err }] *)
Definition with_client (s : Store) (kind : string) (k : Client W → M W (Obj * option GoError))
  : M W (Obj * option GoError) :=
  let* c := getClient s kind in
  match c with
  | inr e => ret (None, Some e)
  | inl client => k client
  end.

(** The checks [Add], [Update] and [Upsert] begin with. *)
Definition check_object (o : Object) : option GoError :=
  if bool_decide (sm_Kind (GetStaticMetadata o) = "") then
    Some (ErrorString "obj.GetStaticMetadata().Kind must not be empty")
  else if bool_decide (GetNamespace o = "") then
    Some (ErrorString "obj.GetNamespace() must not be empty")
  else if bool_decide (GetName o = "") then
    Some (ErrorString "obj.GetName() must not be empty")
  else None.

Definition identifier_of (o : Object) : Identifier := StaticMetadata_Identifier (GetStaticMetadata o).
Definition kind_name (o : Object) : string := sm_Kind (GetStaticMetadata o).

(** [Get] *)
Definition Store_Get (s : Store) (kind : string) (identifier : Identifier) : M W (Obj * option GoError) :=
  with_client s kind (λ client, cl_Get client identifier).

(** [Add] and [SimpleAdd] *)
Definition Store_Add (s : Store) (obj : Ref) : M W (Obj * option GoError) :=
  let* o := gets (deref obj) in
  match check_object o with
  | Some e => ret (None, Some e)
  | None =>
      with_client s (kind_name o) (λ client,
        let* o := gets (deref obj) in
        cl_Create client (identifier_of o) (Some obj) CreateOptions_zero)
  end.

Definition Store_SimpleAdd (s : Store) (kind : string) (identifier : Identifier) (obj : Ref)
  : M W (Obj * option GoError) :=
  with_client s kind (λ client, cl_Create client identifier (Some obj) CreateOptions_zero).

(** [Update] *)
Definition Store_Update (s : Store) (obj : Ref) : M W (Obj * option GoError) :=
  let* o := gets (deref obj) in
  match check_object o with
  | Some e => ret (None, Some e)
  | None =>
      touch obj ;;;
      let* o := gets (deref obj) in
      with_client s (kind_name o) (λ client,
        let* o := gets (deref obj) in
        cl_Update client (identifier_of o) (Some obj)
          (mkUpdateOptions (GetResourceVersion o) "" false))
  end.

(** [resp, err := client.Get(ctx, id); if err != nil && !apierrors.IsNotFound(err)
    { return nil, err }]: the error that is not ignored, and the response. *)
Definition get_existing (client : Client W) (identifier : Identifier) : M W (Obj * option GoError) :=
  let* '(resp, err) := cl_Get client identifier in
  match err with
  | Some e => if IsNotFound e then ret (resp, None) else ret (resp, Some e)
  | None => ret (resp, None)
  end.

(** [Upsert] *)
Definition Store_Upsert (s : Store) (obj : Ref) : M W (Obj * option GoError) :=
  let* o := gets (deref obj) in
  match check_object o with
  | Some e => ret (None, Some e)
  | None =>
      with_client s (kind_name o) (λ client,
        let* o := gets (deref obj) in
        let* '(resp, err) := get_existing client (identifier_of o) in
        match err, resp with
        | Some e, _ => ret (None, Some e)
        | None, Some _ =>
            touch obj ;;;
            let* o := gets (deref obj) in
            cl_Update client (identifier_of o) (Some obj)
              (mkUpdateOptions (GetResourceVersion o) "" false)
        | None, None =>
            let* o := gets (deref obj) in
            cl_Create client (identifier_of o) (Some obj) CreateOptions_zero
        end)
  end.

(** [Delete] and [ForceDelete]; the clients' own [Delete] returns only an error. *)
Definition client_delete (client : Client W) (identifier : Identifier) (force : bool)
  : M W (option GoError) :=
  let* err := cl_Delete client identifier DeleteOptions_zero in
  match err with
  | Some e => if force && IsNotFound e then ret None else ret (Some e)
  | None => ret None
  end.

Definition delete_with (s : Store) (kind : string) (identifier : Identifier) (force : bool)
  : M W (option GoError) :=
  let* c := getClient s kind in
  match c with
  | inr e => ret (Some e)
  | inl client => client_delete client identifier force
  end.

Definition Store_Delete (s : Store) (kind : string) (identifier : Identifier) : M W (option GoError) :=
  delete_with s kind identifier false.

Definition Store_ForceDelete (s : Store) (kind : string) (identifier : Identifier)
  : M W (option GoError) :=
  delete_with s kind identifier true.

(** The options of the list requests of [List]: the first one, and the next ones. *)
Definition page_options (options : StoreListOptions) (continue : string) : ListOptions :=
  mkListOptions "" (slo_Filters options) (slo_FieldSelectors options) (slo_PerPage options) continue.

(** The loop of [List] for a list request [list]: what is accumulated and, with the fuel
    used up, [None]. *)
Fixpoint list_loop (fuel : nat) (list : ListOptions → M W (ListObject + GoError))
    (options : StoreListOptions) (resp : ListObject) : M W (option (ListObject + GoError)) :=
  if bool_decide (li_Continue resp = "") then ret (Some (inl resp))
  else
    match fuel with
    | O => ret None
    | S fuel =>
        let* r := list (page_options options (li_Continue resp)) in
        match r with
        | inr e => ret (Some (inr e))
        | inl page =>
            list_loop fuel list options
              (mkListObject (li_Items resp ++ li_Items page) (li_Continue page) (li_ResourceVersion page))
        end
    end.

Definition list_all (fuel : nat) (list : ListOptions → M W (ListObject + GoError))
    (options : StoreListOptions) : M W (option (ListObject + GoError)) :=
  let* r := list (page_options options "") in
  match r with
  | inr e => ret (Some (inr e))
  | inl resp => list_loop fuel list options resp
  end.

(** [List], with as many pages as the fuel allows after the first one, and [ListPage] *)
Definition Store_List (fuel : nat) (s : Store) (kind : string) (options : StoreListOptions)
  : M W (option (ListObject + GoError)) :=
  let* c := getClient s kind in
  match c with
  | inr e => ret (Some (inr e))
  | inl client => list_all fuel (cl_List client (slo_Namespace options)) options
  end.

Definition Store_ListPage (s : Store) (kind namespace : string) (options : ListOptions)
  : M W (ListObject + GoError) :=
  let* c := getClient s kind in
  match c with
  | inr e => ret (inr e)
  | inl client => cl_List client namespace options
  end.

(** ** [TypedStore] *)

Record TypedStore := mkTypedStore { ts_client : Client W; ts_sch : Schema W }.

(** [NewTypedStore]: [same_type] compares the underlying types. *)
Definition NewTypedStore (same_type : bool) (kind : Schema W)
    (gen : Schema W → M W (Client W + GoError)) : M W (TypedStore + GoError) :=
  if negb same_type then
    ret (inr (ErrorString "underlying types of schema.ZeroValue() and provided ObjectType are not the same"))
  else
    let* c := gen kind in
    match c with
    | inr e => ret (inr (WrapError "error getting client from generator: " e))
    | inl client => ret (inl (mkTypedStore client kind))
    end.

(** [cast] of a response, after the check of its error. *)
Definition cast_response (is_T : Ref → bool) (m : M W (Obj * option GoError))
  : M W (Obj * option GoError) :=
  let* '(obj, err) := m in
  match err, obj with
  | Some e, _ => ret (None, Some e)
  | None, Some r =>
      if is_T r then ret (Some r, None)
      else ret (None, Some (ErrorString "unable to cast Object into provided type"))
  | None, None => ret (None, Some (ErrorString "unable to cast Object into provided type"))
  end.

Definition TypedStore_Get (is_T : Ref → bool) (t : TypedStore) (identifier : Identifier)
  : M W (Obj * option GoError) :=
  cast_response is_T (cl_Get (ts_client t) identifier).

(** The checks of [Add]. *)
Definition check_typed (sch : Schema W) (o : Object) : option GoError :=
  if bool_decide (Scope_ sch = ClusterScope) && negb (bool_decide (GetNamespace o = "")) then
    Some (ErrorString "obj.GetNamespace() must be empty for cluster-scoped objects")
  else if negb (bool_decide (Scope_ sch = ClusterScope)) && bool_decide (GetNamespace o = "") then
    Some (ErrorString "obj.GetNamespace() must not be empty")
  else if bool_decide (GetName o = "") then Some (ErrorString "obj.GetName() must not be empty")
  else None.

Definition TypedStore_Add (is_T : Ref → bool) (t : TypedStore) (obj : Ref)
  : M W (Obj * option GoError) :=
  let* o := gets (deref obj) in
  match check_typed (ts_sch t) o with
  | Some e => ret (None, Some e)
  | None =>
      cast_response is_T
        (cl_Create (ts_client t) (mkIdentifier (GetNamespace o) (GetName o)) (Some obj) CreateOptions_zero)
  end.

Definition TypedStore_Update (is_T : Ref → bool) (t : TypedStore) (identifier : Identifier) (obj : Ref)
  : M W (Obj * option GoError) :=
  touch obj ;;;
  let* o := gets (deref obj) in
  if bool_decide (GetResourceVersion o = "") then ret (None, Some ErrMissingResourceVersion)
  else
    cast_response is_T
      (cl_Update (ts_client t) identifier (Some obj) (mkUpdateOptions (GetResourceVersion o) "" false)).

Definition TypedStore_Upsert (is_T : Ref → bool) (t : TypedStore) (identifier : Identifier) (obj : Ref)
  : M W (Obj * option GoError) :=
  let* '(resp, err) := get_existing (ts_client t) identifier in
  match err, resp with
  | Some e, _ => ret (None, Some e)
  | None, Some _ =>
      touch obj ;;;
      cast_response is_T (cl_Update (ts_client t) identifier (Some obj) UpdateOptions_zero)
  | None, None =>
      let* o := gets (deref obj) in
      cast_response is_T
        (cl_Create (ts_client t) (mkIdentifier (GetNamespace o) (GetName o)) (Some obj) CreateOptions_zero)
  end.

Definition TypedStore_UpdateSubresource (is_T : Ref → bool) (t : TypedStore) (identifier : Identifier)
    (subresource : string) (obj : Ref) : M W (Obj * option GoError) :=
  let* o := gets (deref obj) in
  if bool_decide (GetResourceVersion o = "") then ret (None, Some ErrMissingResourceVersion)
  else
    cast_response is_T
      (cl_Update (ts_client t) identifier (Some obj)
         (mkUpdateOptions (GetResourceVersion o) subresource false)).

Definition TypedStore_Delete (t : TypedStore) (identifier : Identifier) : M W (option GoError) :=
  client_delete (ts_client t) identifier false.

Definition TypedStore_ForceDelete (t : TypedStore) (identifier : Identifier) : M W (option GoError) :=
  client_delete (ts_client t) identifier true.

(** [ListPage] and [List] *)
Definition TypedStore_ListPage (t : TypedStore) (namespace : string) (o : ListOptions)
  : M W (ListObject + GoError) :=
  let* '(l, err) := cl_ListInto (ts_client t) namespace o in
  match err with
  | Some e => ret (inr e)
  | None => ret (inl l)
  end.

Definition TypedStore_List (fuel : nat) (t : TypedStore) (options : StoreListOptions)
  : M W (option (ListObject + GoError)) :=
  list_all fuel (TypedStore_ListPage t (slo_Namespace options)) options.
End Stores.

Arguments Store W : clear implicits.
Arguments TypedStore W : clear implicits.

#[local] Close Scope string_scope.

(** ** Properties of [UpdateObject] *)

(** What [UpdateObject] relies on: a server that keeps versions of the object of every
    identifier, latest first, no two with the same resource version, and none without one.
    [Get] returns the latest; [GetInto] decodes the latest into an object that has contents
    already ([merged], which may keep some of them, as Go's [json.Unmarshal] does, but not
    the resource version, which every answer has).  A successful update to a version was
    made when that version was the latest, and is the next one, with the spec as it reads
    back ([wire]), unless nothing changed.  Other clients may add versions during every
    request. *)
Class OptimisticServer {W} `{!World W} (client : Client W) := {
  versions : Identifier → W → list Object;
  merged : Object → Object → Object;
  wire : string → string;
  versions_unique id σ : NoDup (GetResourceVersion <$> versions id σ);
  versions_numbered id σ o : o ∈ versions id σ → GetResourceVersion o ≠ ""%string;
  merged_version old o :
    GetResourceVersion o ≠ ""%string → GetResourceVersion (merged old o) = GetResourceVersion o;
  Get_latest id σ r σ' :
    cl_Get client id σ = ((Some r, None), σ') → head (versions id σ') = Some (deref r σ');
  GetInto_merges id σ r σ' :
    cl_GetInto client id (Some r) σ = (None, σ') →
    ∃ cur, head (versions id σ') = Some cur ∧ deref r σ' = merged (deref r σ) cur;
  GetInto_nil id σ : (cl_GetInto client id None σ).1 ≠ None;
  UpdateInto_latest id r opts σ σ' :
    cl_UpdateInto client id (Some r) opts (Some r) σ = (None, σ') →
    uo_ResourceVersion opts ≠ ""%string → uo_Subresource opts = ""%string → uo_DryRun opts = false →
    ∃ cur past new,
      versions id σ `suffix_of` cur :: past ∧ GetResourceVersion cur = uo_ResourceVersion opts ∧
      GetSpec new = wire (GetSpec (deref r σ)) ∧
      (versions id σ' = new :: cur :: past ∨ new = cur ∧ versions id σ' = cur :: past);
}.

(** Equal keys of a list with distinct keys are those of one element. *)
Lemma NoDup_fmap_eq {A B : Type} (f : A → B) (l : list A) x y :
  NoDup (f <$> l) → x ∈ l → y ∈ l → f x = f y → x = y.
Proof.
  intros Hnd Hx Hy Hf. apply list_elem_of_lookup in Hx as [i Hi], Hy as [j Hj].
  assert (Hij : i = j); [|congruence].
  eapply NoDup_lookup; [exact Hnd | by rewrite list_lookup_fmap, Hi |].
  by rewrite list_lookup_fmap, Hj, Hf.
Qed.

Section UpdateObject.
Context {W : Type} `{WW : !World W} `{AE : !ApiErrors} (client : Client W)
  `{OS : !OptimisticServer client} (start : W) (identifier : Identifier)
  (f : Obj → bool → M W (Obj * option GoError)) (opts : UpdateOptions).

(** The update function keeps the resource version of the object it is given, and takes
    no version away from the server. *)
Definition keeps_version : Prop :=
  ∀ r b σ r' σ', f (Some r) b σ = ((Some r', None), σ') →
    GetResourceVersion (deref r' σ') = GetResourceVersion (deref r σ) ∧
    versions identifier σ `suffix_of` versions identifier σ'.

(** What the update function is given when the server's latest version is [cur]: that
    version, read before anything else; or, when it is retried, that version decoded into
    the object as the update that conflicted, just before, has left it. *)
Definition read_from (cur : Object) (retry : bool) (r0 : Ref) (σ0 : W) : Prop :=
  if retry then
    ∃ o e σa σb, cl_UpdateInto client identifier (Some r0) o (Some r0) σa = (Some e, σb) ∧
      IsConflict e = true ∧ cl_GetInto client identifier (Some r0) σb = (None, σ0) ∧
      deref r0 σ0 = merged (deref r0 σb) cur
  else cl_Get client identifier start = ((Some r0, None), σ0) ∧ deref r0 σ0 = cur.

(** The server's latest version was made by [f] from what was read of the one before it, or
    changes nothing. *)
Definition updated_from_latest (r : Ref) (σ' : W) : Prop :=
  ∃ r0 retry σ0 σ1 cur past new,
    read_from cur retry r0 σ0 ∧
    f (Some r0) retry σ0 = ((Some r, None), σ1) ∧ GetSpec new = wire (GetSpec (deref r σ1)) ∧
    (versions identifier σ' = new :: cur :: past ∨ new = cur ∧ versions identifier σ' = cur :: past).

(** The object that was read has the resource version of the latest. *)
Lemma read_from_version cur retry r0 σ0 :
  GetResourceVersion cur ≠ ""%string → read_from cur retry r0 σ0 →
  GetResourceVersion (deref r0 σ0) = GetResourceVersion cur.
Proof using OS.
  destruct retry; simpl; [|by intros _ [_ ->]].
  intros Hv (_ & _ & _ & σb & _ & _ & _ & ->). by apply merged_version.
Qed.

(** An attempt: it succeeds from the latest version, or it fails, after an update that is
    the one reported, or with no object. *)
Lemma doUpdate_from_latest r0 retry σ0 cur obj err σ' :
  keeps_version → uo_Subresource opts = ""%string → uo_DryRun opts = false →
  head (versions identifier σ0) = Some cur → read_from cur retry r0 σ0 →
  doUpdate client identifier f opts (Some r0) retry σ0 = (Some (obj, err), σ') →
  match err with
  | None => ∃ r, obj = Some r ∧ updated_from_latest r σ'
  | Some e => ∀ r, obj = Some r →
      ∃ o σa, cl_UpdateInto client identifier (Some r) o (Some r) σa = (Some e, σ')
  end.
Proof using OS.
  intros Hk Hs Hd Hh Hread. unfold doUpdate, bind, gets.
  destruct (f (Some r0) retry σ0) as [[[r|] [e|]] σ1] eqn:Ef; [by intros [= <- <- <-]| |by intros [= <- <- <-]|done].
  case_bool_decide as Hrv; [by intros [= <- <- <-]|].
  destruct (cl_UpdateInto _ _ _ _ _ σ1) as [[e|] σ2] eqn:Eu; intros [= <- <- <-].
  { intros ? [= <-]. by eexists _, σ1. }
  exists r. split; [done|]. destruct (Hk _ _ _ _ _ Ef) as [Hv Hsuf].
  destruct (UpdateInto_latest _ _ _ _ _ Eu) as (cur' & past & new & Hsuf' & Hcur & Hnew & Hvs);
    [done..|]. simpl in Hcur.
  assert (Hin0 : cur ∈ versions identifier σ0).
  { destruct (versions identifier σ0); [done|]. injection Hh as ->. by left. }
  assert (cur' = cur) as ->.
  { assert (Hin : cur ∈ cur' :: past) by (eapply elem_of_suffix; [exact Hin0|]; etrans; eassumption).
    eapply (NoDup_fmap_eq GetResourceVersion (cur' :: past)); [|by left | done |].
    - pose proof (versions_unique identifier σ2) as Hnd.
      destruct Hvs as [Hvs|[_ Hvs]]; rewrite Hvs in Hnd; [by inversion Hnd | done].
    - rewrite <- (read_from_version cur retry r0 σ0); [congruence | by eapply versions_numbered | done]. }
  by exists r0, retry, σ0, σ1, cur, past, new.
Qed.

(** What is known of an attempt before the loop looks at it. *)
Definition attempted (obj : Obj) (err : option GoError) (σ : W) : Prop :=
  match err with
  | None => ∃ r, obj = Some r ∧ updated_from_latest r σ
  | Some e => ∀ r, obj = Some r →
      ∃ o σa, cl_UpdateInto client identifier (Some r) o (Some r) σa = (Some e, σ)
  end.

Lemma update_loop_from_latest n obj err σ r σ' :
  keeps_version → uo_Subresource opts = ""%string → uo_DryRun opts = false →
  attempted obj err σ →
  update_loop client identifier f opts n obj err σ = (Some (Some r, None), σ') →
  updated_from_latest r σ'.
Proof using OS.
  intros Hk Hs Hd. revert obj err σ.
  induction n as [|n IH]; intros obj [e|] σ Hok; simpl.
  - done.
  - intros [= -> <-]. destruct Hok as (? & [= <-] & ?). done.
  - destruct (IsConflict e) eqn:Ec; [|done]. unfold bind.
    destruct (cl_GetInto client identifier obj σ) as [[e'|] σ1] eqn:Eg; [done|].
    destruct obj as [r0|]; [|pose proof (GetInto_nil identifier σ) as Hn; by rewrite Eg in Hn].
    destruct (doUpdate client identifier f opts (Some r0) true σ1) as [[[obj err]|] σ2] eqn:Ed; [|done].
    apply IH. destruct (GetInto_merges _ _ _ _ Eg) as (cur & Hh & Hm).
    destruct (Hok r0 eq_refl) as (o & σa & Hu).
    eapply doUpdate_from_latest; [done..| exact Hh | | exact Ed]. by exists o, e, σa, σ.
  - intros [= -> <-]. destruct Hok as (? & [= <-] & ?). done.
Qed.
End UpdateObject.

(** A successful [UpdateObject] was made from the latest version. *)
Lemma UpdateObject_from_latest {W} `{WW : !World W} `{AE : !ApiErrors} (client : Client W)
    `{OS : !OptimisticServer client} identifier is_T f opts σ r σ' :
  keeps_version client identifier f → uo_Subresource opts = ""%string → uo_DryRun opts = false →
  UpdateObject (Some client) identifier is_T (Some f) opts σ = (Some (Some r, None), σ') →
  updated_from_latest client σ identifier f r σ'.
Proof.
  intros Hk Hs Hd. unfold UpdateObject, UpdateObject_body, bind.
  destruct (cl_Get client identifier σ) as [[[r0|] [e|]] σ1] eqn:Eg; try done.
  destruct (is_T r0); [|done].
  destruct (doUpdate client identifier f opts (Some r0) false σ1) as [[[obj err]|] σ2] eqn:Ed; [|done].
  apply update_loop_from_latest; [done..|].
  by apply (doUpdate_from_latest client σ identifier f opts r0 false σ1 (deref r0 σ1) _ _ _ Hk Hs Hd
    (Get_latest _ _ _ _ Eg) (conj Eg eq_refl) Ed).
Qed.

(** When [UpdateObject] succeeds, the server's latest version was made by the update
    function from the version just before it, whatever other clients wrote while it was
    running (or nothing had to be changed): from exactly that version in the first attempt,
    and in a retry from that version decoded into the object of the attempt before. *)
Theorem UpdateObject_no_lost_update {W} `{WW : !World W} `{AE : !ApiErrors} (client : Client W)
    `{OS : !OptimisticServer client} identifier is_T f opts σ r σ' :
  keeps_version client identifier f → uo_Subresource opts = ""%string → uo_DryRun opts = false →
  UpdateObject (Some client) identifier is_T (Some f) opts σ = (Some (Some r, None), σ') →
  updated_from_latest client σ identifier f r σ'.
Proof. apply UpdateObject_from_latest. Qed.

(** [UpdateObject] is bounded: at most three updates are tried, with at most two more
    reads after the first; and without a conflict it tries one. *)
Theorem UpdateObject_bounded {W} `{WW : !World W} `{AE : !ApiErrors} (client : Client W)
    identifier is_T f opts (updates reads : W → nat) σ :
  (∀ obj b σ, updates (f obj b σ).2 = updates σ ∧ reads (f obj b σ).2 = reads σ) →
  (∀ σ, updates (cl_Get client identifier σ).2 = updates σ ∧
        reads (cl_Get client identifier σ).2 = S (reads σ)) →
  (∀ obj σ, updates (cl_GetInto client identifier obj σ).2 = updates σ ∧
        reads (cl_GetInto client identifier obj σ).2 = S (reads σ)) →
  (∀ obj o σ, updates (cl_UpdateInto client identifier obj o obj σ).2 = S (updates σ) ∧
        reads (cl_UpdateInto client identifier obj o obj σ).2 = reads σ) →
  let σ' := (UpdateObject (Some client) identifier is_T (Some f) opts σ).2 in
  updates σ' ≤ updates σ + 3 ∧ reads σ' ≤ reads σ + 3 ∧
  ((∀ e, IsConflict e = false) → updates σ' ≤ updates σ + 1).
Proof.
  intros Hf Hg Hgi Hu.
  assert (Hdo : ∀ obj b σ, let σ' := (doUpdate client identifier f opts obj b σ).2 in
    updates σ' ≤ updates σ + 1 ∧ reads σ' = reads σ).
  { intros obj b σ0. unfold doUpdate, bind, gets. specialize (Hf obj b σ0).
    destruct (f obj b σ0) as [[[r|] [e|]] σ1]; simpl in *; try lia.
    case_bool_decide; simpl; [lia|].
    match goal with |- context [cl_UpdateInto client identifier (Some r) ?o (Some r) σ1] =>
      specialize (Hu (Some r) o σ1); destruct (cl_UpdateInto client identifier (Some r) o (Some r) σ1) end.
    simpl in *. lia. }
  assert (Hloop : ∀ n obj err σ, let σ' := (update_loop client identifier f opts n obj err σ).2 in
    updates σ' ≤ updates σ + n ∧ reads σ' ≤ reads σ + n ∧
    ((∀ e, IsConflict e = false) → updates σ' = updates σ)).
  { induction n as [|n IH]; intros obj [e|] σ0; simpl; try (simpl; lia).
    destruct (IsConflict e) eqn:Ec; [|simpl; lia]. unfold bind.
    specialize (Hgi obj σ0). destruct (cl_GetInto client identifier obj σ0) as [[e'|] σ1]; simpl in *.
    { split; [lia|]. split; [lia|]. intros Hc. congruence. }
    specialize (Hdo obj true σ1).
    destruct (doUpdate client identifier f opts obj true σ1) as [[[obj' err]|] σ2]; simpl in *.
    - specialize (IH obj' err σ2). split; [lia|]. split; [lia|]. intros Hc. congruence.
    - split; [lia|]. split; [lia|]. intros Hc. congruence. }
  unfold UpdateObject, UpdateObject_body, bind. specialize (Hg σ).
  destruct (cl_Get client identifier σ) as [[[r|] [e|]] σ1]; simpl in *; try lia.
  destruct (is_T r); simpl; [|lia]. specialize (Hdo (Some r) false σ1).
  destruct (doUpdate client identifier f opts (Some r) false σ1) as [[[obj err]|] σ2]; simpl in *; [|lia].
  specialize (Hloop 2 obj err σ2). simpl in Hloop. destruct Hloop as (H1 & H2 & H3).
  split; [lia|]. split; [lia|]. intros Hc. specialize (H3 Hc). lia.
Qed.

(** ** Properties of the stores *)

Section Listing.
Context {W : Type} `{WW : !World W} (list : ListOptions → M W (ListObject + GoError))
  (options : StoreListOptions).

(** From the continue token [c] the server gives these pages, the last one with this
    resource version. *)
Inductive pages_from : string → List.list (List.list Obj) → string → W → W → Prop :=
| pages_last c l σ σ' :
    list (page_options options c) σ = (inl l, σ') → li_Continue l = ""%string →
    pages_from c [li_Items l] (li_ResourceVersion l) σ σ'
| pages_more c l σ σ1 pages rv σ' :
    list (page_options options c) σ = (inl l, σ1) → li_Continue l ≠ ""%string →
    pages_from (li_Continue l) pages rv σ1 σ' →
    pages_from c (li_Items l :: pages) rv σ σ'.

Lemma list_loop_pages fuel resp pages rv σ σ' :
  li_Continue resp ≠ ""%string → pages_from (li_Continue resp) pages rv σ σ' → length pages ≤ fuel →
  list_loop fuel list options resp σ =
    (Some (inl (mkListObject (li_Items resp ++ concat pages) "" rv)), σ').
Proof.
  revert resp pages σ. induction fuel as [|fuel IH]; intros resp pages σ Hc Hp Hlen.
  - destruct Hp; simpl in Hlen; lia.
  - simpl. rewrite bool_decide_eq_false_2 by done. unfold bind.
    inversion Hp as [c l σ0 σ1 E Hl|c l σ0 σ1 pages' rv' σ2 E Hl Hp']; subst; rewrite E.
    + assert (Hstop : ∀ fuel l σ, li_Continue l = ""%string → list_loop fuel list options l σ = (Some (inl l), σ)).
      { intros [|n] l0 σ0 Hl0; simpl; by rewrite bool_decide_eq_true_2. }
      rewrite Hstop by done. rewrite Hl. simpl. by rewrite app_nil_r.
    + rewrite (IH _ pages' σ1); simpl in *; [by rewrite app_assoc | done | done | lia].
Qed.

Lemma list_loop_inv fuel resp l σ σ' :
  list_loop fuel list options resp σ = (Some (inl l), σ') →
  (li_Continue resp = ""%string ∧ l = resp ∧ σ' = σ) ∨
  (li_Continue resp ≠ ""%string ∧ ∃ pages rv, pages_from (li_Continue resp) pages rv σ σ' ∧ length pages ≤ fuel ∧
     l = mkListObject (li_Items resp ++ concat pages) "" rv).
Proof.
  revert resp σ. induction fuel as [|fuel IH]; intros resp σ; simpl; case_bool_decide as Hc.
  - intros [= -> ->]. by left.
  - done.
  - intros [= -> ->]. by left.
  - unfold bind. destruct (list _ σ) as [[page|e] σ1] eqn:E; [|done].
    intros H. right. split; [done|]. apply IH in H as [(Hp & -> & ->)|(Hp & pages & rv & Hpages & Hlen & ->)].
    + exists [li_Items page], (li_ResourceVersion page). split; [by eapply pages_last|].
      split; [simpl; lia|]. simpl in *. by rewrite app_nil_r, Hp.
    + exists (li_Items page :: pages), rv. split; [by eapply pages_more|].
      split; [simpl; lia|]. simpl. by rewrite app_assoc.
Qed.

(** The pages of a server, all of them, with enough fuel. *)
Lemma list_all_pages fuel l σ σ' :
  list_all fuel list options σ = (Some (inl l), σ') ↔
  ∃ pages rv, pages_from "" pages rv σ σ' ∧ length pages ≤ S fuel ∧
    l = mkListObject (concat pages) "" rv.
Proof.
  unfold list_all, bind. split.
  - destruct (list _ σ) as [[resp|e] σ1] eqn:E; [|done].
    intros H. apply list_loop_inv in H as [(Hp & -> & ->)|(Hp & pages & rv & Hpages & Hlen & ->)].
    + exists [li_Items resp], (li_ResourceVersion resp). split; [by eapply pages_last|].
      split; [simpl; lia|]. simpl. rewrite app_nil_r. destruct resp; simpl in *; congruence.
    + exists (li_Items resp :: pages), rv. split; [by eapply pages_more|]. split; [simpl; lia | done].
  - intros (pages & rv & Hp & Hlen & ->).
    inversion Hp as [c l σ0 σ1 E Hl|c l σ0 σ1 pages' rv' σ2 E Hl Hp']; subst; rewrite E.
    + destruct fuel; simpl; rewrite bool_decide_eq_true_2 by done;
        simpl; rewrite app_nil_r, <- Hl; by destruct l.
    + rewrite (list_loop_pages _ _ pages' rv _ σ') by (done || simpl in Hlen; lia). done.
Qed.
End Listing.

(** [List] of either store returns the items of every page the server serves, in
    order, with the resource version of the last page and no continue token, exactly when
    the server ends the pages (within the fuel, one unit per page after the first); a
    kind that is not registered is an error and no request. *)
Theorem List_all_pages {W} `{WW : !World W} (s : Store W) kind options fuel client σ σ1 l σ' :
  getClient s kind σ = (inl client, σ1) →
  Store_List fuel s kind options σ = (Some (inl l), σ') ↔
  ∃ pages rv, pages_from (cl_List client (slo_Namespace options)) options "" pages rv σ1 σ' ∧
    length pages ≤ S fuel ∧ l = mkListObject (concat pages) "" rv.
Proof.
  intros Hc. unfold Store_List. rewrite (bind_run _ _ _ _ _ Hc). apply list_all_pages.
Qed.

Lemma touch_run {W} `{WW : !World W} `{MM : !Memory W} obj σ t σ' :
  Now σ = (t, σ') →
  touch obj σ = (tt, store obj (with_CommonMetadata (GetCommonMetadata (with_UpdateTimestamp t (deref obj σ)))
                                  (deref obj σ')) σ').
Proof. intros Hn. unfold touch, gets, bind. by rewrite Hn. Qed.

(** [TypedStore.Upsert] over [k8s.Client] overwrites what is stored: whatever resource
    version the caller's object carries, the update that is sent carries the version the
    server reported a moment before, so it cannot fail for the version being stale. *)
Theorem TypedStore_Upsert_overwrites {W} `{WW : !World W} `{MM : !Memory W} `{NF : !ApiNotFound}
    is_T (kc : k8s_Client W) sch id obj σ resp σ1 t σ2 into σ3 rv σ4 :
  k8s_Get kc id σ = ((Some resp, None), σ1) →
  Now σ1 = (t, σ2) →
  ZeroValue (kc_schema kc)
    (store obj (with_CommonMetadata (GetCommonMetadata (with_UpdateTimestamp t (deref obj σ1)))
                  (deref obj σ2)) σ2) = (Some into, σ3) →
  gv_getMetadata (kc_client kc) id (Plural (kc_schema kc))
    (store obj (with_StaticMetadata (static_of kc id) (deref obj σ3)) σ3) = ((rv, None), σ4) →
  let σ5 := store obj (with_ResourceVersion rv (deref obj σ4)) σ4 in
  GetResourceVersion (deref obj σ5) = rv ∧
  TypedStore_Upsert is_T (mkTypedStore (k8s_client kc) sch) id obj σ =
    cast_response is_T (λ σ,
      let '(err, σ) := gv_update (kc_client kc) (Plural (kc_schema kc)) obj into UpdateOptions_zero σ in
      ((match err with Some _ => None | None => Some into end, err), σ)) σ5.
Proof.
  intros Hg Hn Hz Hm σ5. split; [unfold σ5; by rewrite deref_store_eq|].
  assert (He : get_existing (k8s_client kc) id σ = ((Some resp, None), σ1))
    by (unfold get_existing, bind; simpl; by rewrite Hg).
  unfold TypedStore_Upsert. rewrite (bind_run _ _ _ _ _ He), (bind_run _ _ _ _ _ (touch_run obj _ _ _ Hn)).
  unfold cast_response. unfold bind at 1 2. unfold k8s_client, cl_Update, ts_client, k8s_Update.
  rewrite (bind_run _ _ _ _ _ Hz). unfold bind at 1.
  rewrite (k8s_UpdateInto_unversioned kc id obj UpdateOptions_zero into σ3) by done.
  rewrite Hm. simpl. fold σ5.
  destruct (gv_update _ _ _ _ _ σ5) as [[e|] σ6]; done.
Qed.

(** ** Witnesses *)

(** A server that holds the specs written to one object, latest first, and numbers them;
    [sv_others] are specs other clients are about to write. *)
Record ServerWorld := mkServerWorld {
  sv_mem : gmap nat Object;
  sv_specs : list string;
  sv_others : list string;
}.

#[export] Instance ServerWorld_World : World ServerWorld := {
  deref r σ := default zeroObject (sv_mem σ !! r);
  kept_finalizers r σ _ := GetFinalizers (default zeroObject (sv_mem σ !! r));
  kept_finalizers_now r σ := eq_refl;
  Now σ := (7%Z, σ);
  Sleep _ σ := (tt, σ);
  RandIntn _ σ := (0%Z, σ);
}.

#[export] Instance ServerWorld_Memory : Memory ServerWorld.
Proof.
  refine {| store r o σ := mkServerWorld (<[r := o]> (sv_mem σ)) (sv_specs σ) (sv_others σ) |}.
  - intros r o σ. simpl. by rewrite lookup_insert_eq.
  - intros r r' o σ Hne. simpl. by rewrite lookup_insert_ne.
Defined.

Definition sv_version (n : nat) (spec : string) : Object :=
  mkObject (GetStaticMetadata zeroObject)
    (GetCommonMetadata (with_ResourceVersion ("v" +:+ pretty n) zeroObject)) spec.

Fixpoint sv_versions (l : list string) : list Object :=
  match l with
  | [] => []
  | spec :: l => sv_version (length l) spec :: sv_versions l
  end.

Definition sv_conflict : GoError := StatusError (mkStatus 409 "Conflict" "conflict").
Definition sv_read (r : Ref) : M ServerWorld (option GoError) := λ σ,
  match sv_versions (sv_specs σ) with
  | [] => (Some (ErrorString "not found"), σ)
  | o :: _ => (None, store r o σ)
  end.

(** Others write first; then the update is checked against the latest version. *)
Definition sv_update (obj : Obj) (opts : UpdateOptions) : M ServerWorld (option GoError) := λ σ,
  let specs := sv_others σ ++ sv_specs σ in
  let σ := mkServerWorld (sv_mem σ) specs [] in
  match obj, sv_versions specs with
  | Some r, o :: _ =>
      if bool_decide (GetResourceVersion o = uo_ResourceVersion opts) then
        let spec := GetSpec (deref r σ) in
        (None, mkServerWorld (<[r := sv_version (length specs) spec]> (sv_mem σ)) (spec :: specs) [])
      else (Some sv_conflict, σ)
  | _, _ => (Some (ErrorString "not found"), σ)
  end.

Definition no_method {A : Type} (a : A) : M ServerWorld A := ret a.
Definition not_served : option GoError := Some (ErrorString "not served").

Definition sv_client : Client ServerWorld :=
  mkClient
    (λ _, let* err := sv_read 0 in
          ret (match err with None => Some 0 | Some _ => None end, err))
    (λ _ into, match into with Some r => sv_read r | None => ret (Some (ErrorString "nil")) end)
    (λ _ _ _, no_method (None, not_served)) (λ _ _ _ _, no_method not_served)
    (λ _ _ _, no_method (None, not_served)) (λ _ obj opts _, sv_update obj opts)
    (λ _ _ _, no_method (None, not_served)) (λ _ _ _ _, no_method not_served)
    (λ _ _, no_method not_served)
    (λ _ o σ, if bool_decide (lo_Continue o = ""%string) then (inl (mkListObject [Some 1; Some 2] "next" "v1"), σ)
              else (inl (mkListObject [Some 3] "" "v2"), σ))
    (λ _ _, no_method (empty_list, not_served)).

Lemma sv_versions_fresh l n : length l ≤ n →
  ("v" +:+ pretty n)%string ∉ (GetResourceVersion <$> sv_versions l).
Proof.
  induction l as [|s l IH]; simpl; intros Hn Hin; [by apply elem_of_nil in Hin|].
  apply elem_of_cons in Hin as [Heq|Hin].
  - unfold GetResourceVersion in Heq. simpl in Heq. injection Heq as Heq.
    change (pretty n = pretty (length l)) in Heq. apply (inj pretty) in Heq. lia.
  - apply IH; [lia | done].
Qed.

Lemma sv_versions_app l1 l2 : ∃ l, sv_versions (l1 ++ l2) = l ++ sv_versions l2.
Proof.
  induction l1 as [|s l1 [l IH]]; [by exists []|]. simpl. rewrite IH. by exists (sv_version (length (l1 ++ l2)) s :: l).
Qed.

#[export] Instance sv_optimistic : OptimisticServer sv_client.
Proof.
  refine {| versions _ σ := sv_versions (sv_specs σ); merged _ o := o; wire s := s |}.
  - intros id σ. simpl. clear id. induction (sv_specs σ) as [|s l IH]; simpl; [constructor|].
    constructor; [by apply (sv_versions_fresh l (length l)) | done].
  - intros id σ o. simpl. induction (sv_specs σ) as [|s l IH]; simpl; [by intros ?%elem_of_nil|].
    intros [->|?]%elem_of_cons; [done | by apply IH].
  - done.
  - intros id σ r σ'. simpl. unfold sv_read, bind. destruct (sv_versions (sv_specs σ)) as [|o l] eqn:E; [done|].
    intros [= <- <-]. simpl. rewrite E. by rewrite lookup_insert_eq.
  - intros id σ r σ'. simpl. unfold sv_read. destruct (sv_versions (sv_specs σ)) as [|o l] eqn:E; [done|].
    intros [= <-]. exists o. simpl. rewrite E. by rewrite lookup_insert_eq.
  - done.
  - intros id r opts σ σ'. simpl. unfold sv_update.
    destruct (sv_versions (sv_others σ ++ sv_specs σ)) as [|o l] eqn:E; [done|].
    case_bool_decide as Hrv; [|done]. intros [= <-] _ _ _. simpl.
    exists o, l, (sv_version (length (sv_others σ ++ sv_specs σ)) (GetSpec (default zeroObject (sv_mem σ !! r)))).
    split; [|split; [done|split; [done|left; by rewrite E]]].
    destruct (sv_versions_app (sv_others σ) (sv_specs σ)) as [l0 Hl0]. exists l0. by rewrite <- E.
Defined.

(** The update function: add an exclamation mark to the spec. *)
Definition sv_f : Obj → bool → M ServerWorld (Obj * option GoError) := λ obj _,
  match obj with
  | Some r =>
      update_ref r (λ o, mkObject (GetStaticMetadata o) (GetCommonMetadata o) (GetSpec o +:+ "!")) ;;;
      ret (Some r, None)
  | None => ret (None, None)
  end.

(** Another client writes between the read and the first update. *)
Definition sv_world : ServerWorld := mkServerWorld ∅ ["a"%string] ["b"%string].

Lemma UpdateObject_no_lost_update_witness :
  ∃ σ', UpdateObject (Some sv_client) (mkIdentifier "ns" "x") (λ _, true) (Some sv_f)
          UpdateOptions_zero sv_world = (Some (Some 0, None), σ') ∧
        sv_specs σ' = ["b!"; "b"; "a"]%string ∧
        updated_from_latest sv_client sv_world (mkIdentifier "ns" "x") sv_f 0 σ'.
Proof.
  eexists. split; [vm_compute; reflexivity|]. split; [reflexivity|].
  apply (UpdateObject_no_lost_update sv_client (mkIdentifier "ns" "x") (λ _, true) sv_f
           UpdateOptions_zero sv_world 0); [|reflexivity|reflexivity|vm_compute; reflexivity].
  intros r b σ r' σ' [= <- <-]. simpl. rewrite lookup_insert_eq. split; [reflexivity | done].
Defined.

Lemma List_all_pages_witness :
  Store_List 1 (mkStore (λ _, ret (inl sv_client)) {[ "K"%string := mkSchema _ "g" "v" "K" "ks" (ret None) (ret None) "Cluster" [] ]})
    "K" (mkStoreListOptions "" 2 [] []) sv_world =
  (Some (inl (mkListObject [Some 1; Some 2; Some 3] "" "v2")), sv_world).
Proof.
  set (s := mkStore _ _).
  assert (Hc : getClient s "K" sv_world = (inl sv_client, sv_world)) by reflexivity.
  apply (proj2 (List_all_pages s "K" (mkStoreListOptions "" 2 [] []) 1 sv_client sv_world sv_world
    (mkListObject [Some 1; Some 2; Some 3] "" "v2") sv_world Hc)).
  exists [[Some 1; Some 2]; [Some 3]], "v2"%string. split; [|split; [simpl; lia | reflexivity]].
  refine (pages_more _ _ "" (mkListObject [Some 1; Some 2] "next" "v1") sv_world sv_world [[Some 3]] "v2" sv_world eq_refl _ _);
    [discriminate|].
  exact (pages_last _ _ "next" (mkListObject [Some 3] "" "v2") sv_world sv_world eq_refl eq_refl).
Defined.

(** A world that counts updates and reads, and a client every update of which conflicts. *)
Record CountWorld := mkCountWorld { cw_updates : nat; cw_reads : nat }.

#[export] Instance CountWorld_World : World CountWorld := {
  deref _ _ := sv_version 1 "a";
  kept_finalizers _ _ _ := GetFinalizers (sv_version 1 "a");
  kept_finalizers_now _ _ := eq_refl;
  Now σ := (7%Z, σ);
  Sleep _ σ := (tt, σ);
  RandIntn _ σ := (0%Z, σ);
}.

Definition count_client : Client CountWorld :=
  mkClient
    (λ _ σ, ((Some 0, None), mkCountWorld (cw_updates σ) (S (cw_reads σ))))
    (λ _ _ σ, (None, mkCountWorld (cw_updates σ) (S (cw_reads σ))))
    (λ _ _ _, ret (None, not_served)) (λ _ _ _ _, ret not_served)
    (λ _ _ _, ret (None, not_served))
    (λ _ _ _ _ σ, (Some sv_conflict, mkCountWorld (S (cw_updates σ)) (cw_reads σ)))
    (λ _ _ _, ret (None, not_served)) (λ _ _ _ _, ret not_served)
    (λ _ _, ret not_served) (λ _ _, ret (inl empty_list)) (λ _ _, ret (empty_list, not_served)).

Lemma UpdateObject_bounded_witness :
  let σ' := (UpdateObject (Some count_client) (mkIdentifier "ns" "x") (λ _, true)
               (Some (λ obj _, ret (obj, None))) UpdateOptions_zero (mkCountWorld 0 0)).2 in
  σ' = mkCountWorld 3 3 ∧ cw_updates σ' ≤ 3.
Proof.
  split; [vm_compute; reflexivity|].
  apply (UpdateObject_bounded count_client (mkIdentifier "ns" "x") (λ _, true)
    (λ obj _, ret (obj, None)) UpdateOptions_zero cw_updates cw_reads (mkCountWorld 0 0)); done.
Defined.

#[export] Instance TestNotFound : ApiNotFound.
Proof.
  refine {| IsNotFound e := match AsAPIStatus e with
              | Some st => bool_decide (st_Reason st = "NotFound"%string) | None => false end |}.
  intros e1 e2 Heq. by rewrite Heq.
Defined.

(** The requests of [sv_client], as those of a [groupVersionClient]. *)
Definition sv_gv : groupVersionClient ServerWorld :=
  mkGroupVersionClient _ (λ _ _ r, sv_read r)
    (λ _ _ σ, match sv_versions (sv_specs σ) with
              | o :: _ => ((GetResourceVersion o, None), σ)
              | [] => ((""%string, not_served), σ)
              end)
    (λ _ _ _ _, no_method not_served)
    (λ _ r _ _ σ, sv_update (Some r) (mkUpdateOptions (GetResourceVersion (deref r σ)) "" false) σ)
    (λ _ _ _ _ _, no_method not_served) (λ _ _ _ _ _, no_method not_served)
    (λ _ _ _, no_method not_served) (λ _ _ _, no_method (empty_list, not_served)).

Definition sv_k8s : k8s_Client ServerWorld :=
  mkK8sClient sv_gv (mkSchema _ "g" "v" "K" "ks" (ret (Some 1)) (ret None) "Namespaced" []).

(** The caller's object has version 1, the server is at version 2: it is overwritten. *)
Lemma TypedStore_Upsert_overwrites_witness :
  let σ := mkServerWorld {[ 5 := sv_version 0 "mine" ]} ["theirs"; "old"]%string [] in
  GetResourceVersion (deref 5 σ) = "v0"%string ∧
  sv_specs (TypedStore_Upsert (λ _, true) (mkTypedStore (k8s_client sv_k8s) (kc_schema sv_k8s))
              (mkIdentifier "ns" "x") 5 σ).2 = ["mine"; "theirs"; "old"]%string.
Proof.
  split; [reflexivity|].
  edestruct (TypedStore_Upsert_overwrites (λ _, true) sv_k8s (kc_schema sv_k8s) (mkIdentifier "ns" "x") 5
    (mkServerWorld {[ 5 := sv_version 0 "mine" ]} ["theirs"; "old"]%string [])) as [_ E];
    [reflexivity | reflexivity | reflexivity | reflexivity |].
  rewrite E. vm_compute. reflexivity.
Defined.
