(* ===== verification/CustomCache.v ===== *)
(** * Informers over a cache ([operator/informer_customcache.go],
    [operator/informer_kubernetes.go])

    [processDeltas] keeps a [cache.Store] up to date and tells a handler what changed;
    [CustomCacheInformer] is that handler and distributes the events ([BufferedQueue]).
    The store, the controller that feeds the deltas (client-go, and [k8s/cache]) and the
    shared informer of client-go are parameters.  Objects in the cache are of a type [O],
    for Go's [any]. *)
From S2P Require Import Prelude Resource Concrete RetryPolicy ResourceWatcher Schema BufferedQueue.

(** The kinds of deltas of client-go; the rest are ignored. *)
Inductive DeltaType := Sync | Replaced | Added | Updated | Deleted | OtherDelta.

Record Delta (O : Type) := mkDelta { d_Type : DeltaType; d_Object : O }.
Arguments mkDelta {O}.
Arguments d_Type {O}.
Arguments d_Object {O}.

(** The part of [cache.Store] that [processDeltas] uses; [Get] returns the item
    when it exists, and an error. *)
Record CacheStore (W O : Type) := mkCacheStore {
  cs_Get : O → M W (option O * option GoError);
  cs_Add : O → M W (option GoError);
  cs_Update : O → M W (option GoError);
  cs_Delete : O → M W (option GoError);
}.
Arguments mkCacheStore {W O}.
Arguments cs_Get {W O}.
Arguments cs_Add {W O}.
Arguments cs_Update {W O}.
Arguments cs_Delete {W O}.

Section processDeltas.
Context {W O : Type}.

(** The case of an object that is there: update it, or add it when it is not in the store
    (or the store cannot tell). *)
Definition set_object (handler : ResourceEventHandler W O) (clientState : CacheStore W O)
    (isInInitialList : bool) (obj : O) : M W (option GoError) :=
  let* '(old, err) := cs_Get clientState obj in
  match err, old with
  | None, Some old =>
      cs_Update clientState obj ;;? (OnUpdate handler old obj ;;; ret None)
  | _, _ =>
      cs_Add clientState obj ;;? (OnAdd handler obj isInInitialList ;;; ret None)
  end.

(** The body of the loop of [processDeltas]. *)
Definition processDelta (handler : ResourceEventHandler W O) (clientState : CacheStore W O)
    (isInInitialList : bool) (d : Delta O) : M W (option GoError) :=
  match d_Type d with
  | Sync | Replaced | Added | Updated => set_object handler clientState isInInitialList (d_Object d)
  | Deleted => cs_Delete clientState (d_Object d) ;;? (OnDelete handler (d_Object d) ;;; ret None)
  | OtherDelta => ret None
  end.

Fixpoint processDeltas (handler : ResourceEventHandler W O) (clientState : CacheStore W O)
    (deltas : list (Delta O)) (isInInitialList : bool) : M W (option GoError) :=
  match deltas with
  | [] => ret None
  | d :: deltas =>
      processDelta handler clientState isInInitialList d ;;?
      processDeltas handler clientState deltas isInInitialList
  end.

(** ** What the events say of the store *)

(** A store that is a map from keys to objects.  An operation that fails may have done
    anything; one that succeeds did what it is for. *)
Class StoreLaws (store : CacheStore W O) := {
  key_of : O → string;
  contents : W → gmap string O;
  Get_ok obj σ old σ' :
    cs_Get store obj σ = ((old, None), σ') →
    contents σ' = contents σ ∧ contents σ !! key_of obj = old;
  Get_error obj σ r e σ' :
    cs_Get store obj σ = ((r, Some e), σ') → contents σ' = contents σ;
  Add_ok obj σ σ' :
    cs_Add store obj σ = (None, σ') → contents σ' = <[key_of obj := obj]> (contents σ);
  Update_ok obj σ σ' :
    cs_Update store obj σ = (None, σ') → contents σ' = <[key_of obj := obj]> (contents σ);
  Delete_ok obj σ σ' :
    cs_Delete store obj σ = (None, σ') → contents σ' = delete (key_of obj) (contents σ);
}.

(** A handler that records the events it gets, in a log the store leaves alone; it leaves
    the store alone. *)
Class RecordsEvents (store : CacheStore W O) `{!StoreLaws store} (handler : ResourceEventHandler W O) := {
  event_log : W → list (informerEvent O);
  OnAdd_records obj i σ :
    event_log (OnAdd handler obj i σ).2 = event_log σ ++ [informerEventAdd obj i] ∧
    contents (OnAdd handler obj i σ).2 = contents σ;
  OnUpdate_records old obj σ :
    event_log (OnUpdate handler old obj σ).2 = event_log σ ++ [informerEventUpdate obj old] ∧
    contents (OnUpdate handler old obj σ).2 = contents σ;
  OnDelete_records obj σ :
    event_log (OnDelete handler obj σ).2 = event_log σ ++ [informerEventDelete obj] ∧
    contents (OnDelete handler obj σ).2 = contents σ;
  store_no_events obj σ :
    event_log (cs_Get store obj σ).2 = event_log σ ∧ event_log (cs_Add store obj σ).2 = event_log σ ∧
    event_log (cs_Update store obj σ).2 = event_log σ ∧ event_log (cs_Delete store obj σ).2 = event_log σ;
}.
End processDeltas.

Section Mirror.
Context {W O : Type} (store : CacheStore W O) `{SL : !StoreLaws store}
  (handler : ResourceEventHandler W O) `{RE : !RecordsEvents store handler}.

(** The map a listener keeps who believes the events. *)
Definition replay_event (m : gmap string O) (e : informerEvent O) : gmap string O :=
  match e with
  | informerEventAdd obj _ => <[key_of obj := obj]> m
  | informerEventUpdate obj _ => <[key_of obj := obj]> m
  | informerEventDelete obj => delete (key_of obj) m
  | informerEventCacheSync _ => m
  end.

Definition replay (m : gmap string O) (es : list (informerEvent O)) : gmap string O :=
  foldl replay_event m es.

(** What a read of the store says of an object in a state: the object it holds under the
    same key, when the read succeeds and finds one. *)
Definition found (σ : W) (obj : O) : option O :=
  match (cs_Get store obj σ).1 with
  | (old, None) => old
  | (_, Some _) => None
  end.

(** The events of a delta, for what the read found. *)
Definition delta_event (init : bool) (old : option O) (d : Delta O) : list (informerEvent O) :=
  let obj := d_Object d in
  match d_Type d with
  | Sync | Replaced | Added | Updated =>
      match old with
      | Some old => [informerEventUpdate obj old]
      | None => [informerEventAdd obj init]
      end
  | Deleted => [informerEventDelete obj]
  | OtherDelta => []
  end.

(** The events of deltas that are processed one after the other, each in the state the one
    before it left. *)
Fixpoint delta_events (init : bool) (ds : list (Delta O)) (σ : W) : list (informerEvent O) :=
  match ds with
  | [] => []
  | d :: ds =>
      delta_event init (found σ (d_Object d)) d ++
      delta_events init ds (processDelta handler store init d σ).2
  end.

(** What is found is what the store holds under the object's key; nothing is found when it
    holds nothing, or when the read fails. *)
Lemma found_spec σ obj :
  match found σ obj with
  | Some old => contents σ !! key_of obj = Some old
  | None => contents σ !! key_of obj = None ∨ (cs_Get store obj σ).1.2 ≠ None
  end.
Proof.
  unfold found. destruct (cs_Get store obj σ) as [[r [e|]] σ1] eqn:E; simpl; [by right|].
  apply Get_ok in E as [_ ->]. destruct r; [done | by left].
Qed.

(** A store operation that succeeds, and the event about it. *)
Lemma store_then_event (op : M W (option GoError)) (on : M W unit) e σ σ' :
  (∀ σ1, op σ = (None, σ1) → event_log σ1 = event_log σ ∧ contents σ1 = replay_event (contents σ) e) →
  (∀ σ1, event_log (on σ1).2 = event_log σ1 ++ [e] ∧ contents (on σ1).2 = contents σ1) →
  (op ;;? (on ;;; ret None)) σ = (None, σ') →
  event_log σ' = event_log σ ++ [e] ∧ contents σ' = replay (contents σ) [e].
Proof.
  intros Hop Hon. unfold and_then, bind, ret. destruct (op σ) as [[er|] σ1]; [done|].
  destruct (Hop σ1 eq_refl) as [Hl Hc]. destruct (Hon σ1) as [Hl1 Hc1].
  destruct (on σ1) as [[] σ2]. intros [= <-]. simpl in *. by rewrite Hl1, Hl, Hc1, Hc.
Qed.

Lemma store_log obj σ err σ' (op : O → M W (option GoError)) :
  op = cs_Add store ∨ op = cs_Update store ∨ op = cs_Delete store →
  op obj σ = (err, σ') → event_log σ' = event_log σ.
Proof.
  destruct (store_no_events obj σ) as (_ & H1 & H2 & H3).
  intros [->|[->| ->]] E; rewrite E in *; done.
Qed.

(** A store operation that fails emits no event. *)
Lemma store_fails_silently (op : M W (option GoError)) (on : M W unit) e σ σ' :
  (∀ err σ1, op σ = (err, σ1) → event_log σ1 = event_log σ) →
  (op ;;? (on ;;; ret None)) σ = (Some e, σ') → event_log σ' = event_log σ.
Proof.
  intros Hop. unfold and_then, bind, ret. destruct (op σ) as [[er|] σ1].
  - intros [= _ <-]. by eapply Hop.
  - by destruct (on σ1) as [[] σ2].
Qed.

Lemma set_object_ok init obj σ σ' :
  set_object handler store init obj σ = (None, σ') →
  let e := match found σ obj with
           | Some old => informerEventUpdate obj old
           | None => informerEventAdd obj init
           end in
  event_log σ' = event_log σ ++ [e] ∧ contents σ' = replay (contents σ) [e].
Proof.
  unfold set_object, found. unfold bind at 1. destruct (cs_Get store obj σ) as [[old err] σ0] eqn:Eg.
  assert (Hl0 : event_log σ0 = event_log σ)
    by (destruct (store_no_events obj σ) as [<- _]; by rewrite Eg).
  assert (Hc0 : contents σ0 = contents σ)
    by (destruct err; [by eapply Get_error | by apply Get_ok in Eg as [? _]]).
  rewrite <- Hl0, <- Hc0. simpl.
  assert (Hadd : (cs_Add store obj ;;? (OnAdd handler obj init ;;; ret None)) σ0 = (None, σ') →
    event_log σ' = event_log σ0 ++ [informerEventAdd obj init] ∧
    contents σ' = replay (contents σ0) [informerEventAdd obj init]).
  { apply store_then_event; [|apply OnAdd_records].
    intros σ1 E. split; [|by apply Add_ok]. by apply (store_log obj σ0 None σ1 (cs_Add store)); [auto|]. }
  destruct err as [er|]; [exact Hadd|]. destruct old as [o|]; [|exact Hadd].
  apply store_then_event; [|apply OnUpdate_records].
  intros σ1 E. split; [|by apply Update_ok]. by apply (store_log obj σ0 None σ1 (cs_Update store)); [auto|].
Qed.

(** One step of the loop that succeeds. *)
Lemma processDelta_ok init d σ σ' :
  processDelta handler store init d σ = (None, σ') →
  let es := delta_event init (found σ (d_Object d)) d in
  event_log σ' = event_log σ ++ es ∧ contents σ' = replay (contents σ) es.
Proof.
  unfold processDelta, delta_event.
  destruct (d_Type d); try (intros H%set_object_ok; by destruct (found σ (d_Object d))).
  - intros H. apply (store_then_event _ _ (informerEventDelete (d_Object d))) in H as [??];
      [done| |apply OnDelete_records].
    intros σ1 E. split; [|by apply Delete_ok]. by apply (store_log (d_Object d) σ None σ1 (cs_Delete store)); [auto|].
  - intros [= <-]. by rewrite app_nil_r.
Qed.

(** One that fails: the store operation did. *)
Lemma processDelta_failed init d σ e σ' :
  processDelta handler store init d σ = (Some e, σ') → event_log σ' = event_log σ.
Proof.
  assert (Hset : set_object handler store init (d_Object d) σ = (Some e, σ') →
    event_log σ' = event_log σ).
  { unfold set_object. unfold bind at 1. destruct (cs_Get store (d_Object d) σ) as [[old err] σ0] eqn:Eg.
    assert (event_log σ0 = event_log σ) as <-
      by (destruct (store_no_events (d_Object d) σ) as [<- _]; by rewrite Eg).
    assert (Hadd : ∀ on : M W unit, (cs_Add store (d_Object d) ;;? (on ;;; ret None)) σ0 = (Some e, σ') →
      event_log σ' = event_log σ0).
    { intros on. apply store_fails_silently. intros err1 σ1. apply store_log. auto. }
    destruct err as [er|]; [apply Hadd|]. destruct old as [o|]; [|apply Hadd].
    apply store_fails_silently. intros err1 σ1. apply store_log. auto. }
  unfold processDelta. destruct (d_Type d); try exact Hset; [|done].
  apply store_fails_silently. intros err1 σ1. apply store_log. auto.
Qed.

Lemma replay_app m es es' : replay m (es ++ es') = replay (replay m es) es'.
Proof. apply foldl_app. Qed.
End Mirror.

(** C29: The handler's events tell what happened to the store.  Of the deltas that were
    processed before an operation of the store failed (all of them, without a failure),
    the events are exactly: an update with the object the store held, when the read of the
    store succeeded and found one; an add otherwise, so for a new key, and also for a known
    one the read of which failed; a delete; nothing for other deltas.  The delta that
    failed has no event.  Replaying the events on the contents the store had gives the
    contents it has, so a listener that believes them knows what is in the cache. *)
Theorem processDeltas_mirrors {W O} (store : CacheStore W O) `{SL : !StoreLaws store}
    (handler : ResourceEventHandler W O) `{RE : !RecordsEvents store handler} ds init σ err σ' :
  processDeltas handler store ds init σ = (err, σ') →
  (∀ σ1 obj, match found store σ1 obj with
             | Some old => contents σ1 !! key_of obj = Some old
             | None => contents σ1 !! key_of obj = None ∨ (cs_Get store obj σ1).1.2 ≠ None
             end) ∧
  ∃ n σ0,
    processDeltas handler store (take n ds) init σ = (None, σ0) ∧
    let es := delta_events store handler init (take n ds) σ in
    event_log σ0 = event_log σ ++ es ∧ contents σ0 = replay store (contents σ) es ∧
    event_log σ' = event_log σ0 ∧
    match err with
    | None => n = length ds ∧ σ0 = σ'
    | Some e => ∃ d, ds !! n = Some d ∧ processDelta handler store init d σ0 = (Some e, σ')
    end.
Proof.
  intros H. split; [apply found_spec|]. revert σ H. induction ds as [|d ds IH]; intros σ; simpl.
  - intros [= <- <-]. exists 0, σ. by rewrite app_nil_r.
  - unfold and_then at 1, bind at 1. destruct (processDelta handler store init d σ) as [[e|] σ1] eqn:E.
    + intros [= <- <-]. exists 0, σ. simpl. rewrite app_nil_r. split_and!; try done.
      * by eapply processDelta_failed.
      * by exists d.
    + intros H. destruct (IH σ1 H) as (n & σ0 & Hrun & Hl & Hc & Hl' & Hrest).
      exists (S n), σ0. simpl. unfold and_then at 1, bind at 1. rewrite E. split; [done|]. simpl.
      destruct (processDelta_ok store handler init d σ σ1 E) as [Hl1 Hc1].
      split; [by rewrite Hl, Hl1, app_assoc|]. split; [by rewrite Hc, Hc1, replay_app|].
      split; [done|]. destruct err as [e|]; [done|]. destruct Hrest as [-> ->]. done.
Qed.

(** ** From cached objects to watchers *)

Section Handlers.
Context {W : Type}.

(** What a cached value can be, for [toResourceObject]: nil, a [resource.Object], a
    [ResourceObjectWrapper], a [ConvertableIntoResourceObject] with its [Into], or
    anything else, by the name of its type. *)
Inductive AnyObject :=
| AnyNil
| AnyResource (o : Ref)
| AnyWrapper (o : Ref)
| AnyConvertable (Into : Obj → M W (option GoError))
| AnyOther (type_name : string).

(** [toResourceObject], of [informer_kubernetes.go], with the kind's [ZeroValue]; the
    object is returned with the error of [Into]. *)
Definition toResourceObject (zero : M W Obj) (obj : AnyObject) : M W (Obj * option GoError) :=
  match obj with
  | AnyNil => ret (None, Some (ErrorString "object cannot be nil"))
  | AnyResource o => ret (Some o, None)
  | AnyWrapper o => ret (Some o, None)
  | AnyConvertable into =>
      let* newObj := zero in
      let* err := into newObj in
      ret (newObj, err)
  | AnyOther t => ret (None, Some (ErrorString ("unable to cast " +:+ t +:+ " into resource.Object")))
  end.

(** [toResourceEventHandlerFuncs]; spans and contexts, which carry no state the watchers
    are given here, are left out. *)
Section Funcs.
Context {O : Type} (handler : ResourceWatcher W) (transformer : O → M W (Obj * option GoError))
  (errorHandler : GoError → M W unit).

(** [err = ...; if err != nil { errorHandler(ctx, err) }] *)
Definition report (m : M W (option GoError)) : M W unit :=
  let* err := m in
  match err with Some e => errorHandler e | None => ret tt end.

Definition AddFunc_of (obj : O) : M W unit :=
  let* '(cast, err) := transformer obj in
  match err with
  | Some e => errorHandler e
  | None => report (rw_Add handler cast)
  end.

Definition UpdateFunc_of (oldObj newObj : O) : M W unit :=
  let* '(cOld, err) := transformer oldObj in
  match err with
  | Some e => errorHandler e
  | None =>
      let* '(cNew, err) := transformer newObj in
      match err with
      | Some e => errorHandler e
      | None => report (rw_Update handler cOld cNew)
      end
  end.

Definition DeleteFunc_of (obj : O) : M W unit :=
  let* '(cast, err) := transformer obj in
  match err with
  | Some e => errorHandler e
  | None => report (rw_Delete handler cast)
  end.

Definition toResourceEventHandlerFuncs : ResourceEventHandler W O :=
  mkResourceEventHandler (λ obj _, AddFunc_of obj) UpdateFunc_of DeleteFunc_of.
End Funcs.
End Handlers.

Arguments AnyObject W : clear implicits.

(** ** [CustomCacheInformer] and [KubernetesBasedInformer] *)

(** [ListWatchOptions] *)
Record ListWatchOptions := mkListWatchOptions {
  lw_Namespace : string;
  lw_LabelFilters : list string;
  lw_FieldSelectors : list string;
}.

Section Informers.
Context {W : Type} {R : Type → Type} `{RG : !RingGrowing R} {O : Type}.

(** [InformerOptions] *)
Record InformerOptions := mkInformerOptions {
  io_ListWatchOptions : ListWatchOptions;
  io_CacheResyncInterval : Z;
  io_EventTimeout : Z;
  io_ErrorHandler : option (GoError → M W unit);
  io_HealthCheckIgnoreSync : bool;
  io_UseWatchList : bool;
  io_WatchListPageSize : Z;
  io_MaxConcurrentWorkers : Z;
}.

(** [CustomCacheInformerOptions] *)
Record CustomCacheInformerOptions := mkCustomCacheInformerOptions {
  cc_InformerOptions : InformerOptions;
  cc_ProcessorBufferSize : Z;
  cc_WaitForSyncInitialInterval : Z;
  cc_WaitForSyncMaxInterval : Z;
}.

Definition processorBufferSize : Z := 1024.
Definition waitForSyncInitialInterval : Z := Millisecond.
Definition waitForSyncMaxInterval : Z := 100 * Millisecond.

(** The normalisation of the options in [NewCustomCacheInformer]; first, of the resync
    interval and, given that, of the event timeout. *)
Definition normal_resync (resync : Z) : Z := if (resync <? 0)%Z then 0%Z else resync.

Definition normal_timeout (resync timeout : Z) : Z :=
  let timeout := if (timeout <? 0)%Z then 0%Z else timeout in
  if (0 <? resync)%Z && (resync <? timeout)%Z then resync else timeout.

Definition normalise (opts : CustomCacheInformerOptions) : CustomCacheInformerOptions :=
  let io := cc_InformerOptions opts in
  let size := if (cc_ProcessorBufferSize opts <=? 0)%Z then processorBufferSize
              else cc_ProcessorBufferSize opts in
  let resync := normal_resync (io_CacheResyncInterval io) in
  let timeout := normal_timeout resync (io_EventTimeout io) in
  let handler := match io_ErrorHandler io with Some h => Some h | None => Some (λ _, ret tt) end in
  mkCustomCacheInformerOptions
    (mkInformerOptions (io_ListWatchOptions io) resync timeout handler (io_HealthCheckIgnoreSync io)
       (io_UseWatchList io) (io_WatchListPageSize io) (io_MaxConcurrentWorkers io))
    size (cc_WaitForSyncInitialInterval opts) (cc_WaitForSyncMaxInterval opts).

(** [CustomCacheInformer]: [ci_controller] is the [HasSynced] of the controller once there
    is one, [ci_runContext] whether there is a run context; the store and the lister are
    parameters of the run. *)
Record CustomCacheInformer := mkCustomCacheInformer {
  ci_started : bool;
  ci_controller : option (W → bool);
  ci_opts : CustomCacheInformerOptions;
  ci_processor : informerProcessor (R:=R) (O:=O);
  ci_runContext : bool;
}.

Definition NewCustomCacheInformer (opts : CustomCacheInformerOptions) : CustomCacheInformer :=
  mkCustomCacheInformer false None (normalise opts) newInformerProcessor false.

(** [AddEventHandler]: the listener is made with the constant buffer size. *)
Definition CustomCache_AddEventHandler (handler : nat) (c : CustomCacheInformer)
  : CustomCacheInformer * option GoError :=
  let '(p, err) := addListener (newInformerProcessorListener handler processorBufferSize) (ci_processor c) in
  (mkCustomCacheInformer (ci_started c) (ci_controller c) (ci_opts c) p (ci_runContext c), err).

(** [Run] up to the call of [controller.Run], of a controller with this [HasSynced], and
    after that call. *)
Definition Run_begin (synced : W → bool) (c : CustomCacheInformer) : CustomCacheInformer + GoError :=
  if ci_started c then inr (ErrorString "informer is already started")
  else inl (mkCustomCacheInformer true (Some synced) (ci_opts c) (ci_processor c) true).

Definition Run_end (c : CustomCacheInformer) : CustomCacheInformer :=
  mkCustomCacheInformer false (ci_controller c) (ci_opts c) (ci_processor c) false.

Definition HasStarted (c : CustomCacheInformer) : bool := ci_started c.

(** [HasSynced] *)
Definition HasSynced (c : CustomCacheInformer) (w : W) : bool :=
  match ci_controller c with Some synced => synced w | None => false end.

(** [OnAdd], [OnUpdate], [OnDelete]: the event that is distributed. *)
Definition OnAdd_event (obj : O) (isInInitialList : bool) := informerEventAdd obj isInInitialList.
Definition OnUpdate_event (oldObj newObj : O) := informerEventUpdate newObj oldObj.
Definition OnDelete_event (obj : O) := informerEventDelete obj.

(** The context a handler is called with: the one of [Run], or a new one with the event
    timeout, or a new one without. *)
Inductive EventContext := RunContext | WithTimeout (d : Z) | WithCancel.

Definition event_context (running : bool) (timeout : Z) : EventContext :=
  if running then RunContext
  else if (0 <? timeout)%Z then WithTimeout timeout
  else WithCancel.

Definition CustomCache_context (c : CustomCacheInformer) : EventContext :=
  event_context (ci_runContext c) (io_EventTimeout (cc_InformerOptions (ci_opts c))).

(** [WaitForSync]: at its [i]-th check the informer has synced or not ([synced i]), and
    during the wait after it the context ends with an error or does not ([done i]); with
    the fuel used up, [None].  The waits are returned too. *)
Fixpoint WaitForSync_loop (fuel i : nat) (synced : nat → bool) (done_ : nat → option GoError) (interval : Z)
  : option (option GoError * list Z) :=
  match fuel with
  | 0 => None
  | S fuel =>
      if synced i then Some (None, [])
      else
        match done_ i with
        | Some e => Some (Some e, [interval])
        | None =>
            match WaitForSync_loop fuel (S i) synced done_ (Z.min (interval * 2) waitForSyncMaxInterval) with
            | Some (res, waits) => Some (res, interval :: waits)
            | None => None
            end
        end
  end.

Definition WaitForSync (fuel : nat) (synced : nat → bool) (done_ : nat → option GoError) :=
  WaitForSync_loop fuel 0 synced done_ waitForSyncInitialInterval.

(** [KubernetesBasedInformer]: its own fields. *)
Record KubernetesBasedInformer := mkKubernetesBasedInformer {
  kb_HealthCheckIgnoreSync : bool;
  kb_runContext : bool;
  kb_eventTimeout : Z;
  kb_errorHandlerFn : option (GoError → M W unit);
  kb_healthCheckName : string;
}.

(** [strings.Join] *)
Fixpoint Join (l : list string) (sep : string) : string :=
  match l with
  | [] => ""
  | [x] => x
  | x :: l => x +:+ sep +:+ Join l sep
  end.

(** The name of the health check. *)
Definition healthCheckName {X} (sch : Schema X) (o : ListWatchOptions) : string :=
  let name := "informer-" +:+ Plural sch +:+ "." +:+ Group sch +:+ "/" +:+ Version sch in
  let name := if bool_decide (lw_Namespace o = "") then name
              else name +:+ "/namespaces/" +:+ lw_Namespace o in
  let params :=
    (if 0 <? length (lw_LabelFilters o) then ["labelSelector=" +:+ Join (lw_LabelFilters o) ","] else []) ++
    (if 0 <? length (lw_FieldSelectors o) then ["fieldSelector=" +:+ Join (lw_FieldSelectors o) ","] else []) in
  if (0 <? length (lw_LabelFilters o)) || (0 <? length (lw_FieldSelectors o)) then
    name +:+ "?" +:+ Join params "&"
  else name.

(** [NewKubernetesBasedInformer] *)
Definition NewKubernetesBasedInformer (sch : Schema W) (client_nil : bool) (options : InformerOptions)
  : KubernetesBasedInformer + GoError :=
  if client_nil then inr (ErrorString "client cannot be nil")
  else
    let timeout := if (0 <? io_EventTimeout options)%Z then io_EventTimeout options else 0%Z in
    let timeout := if (0 <? io_CacheResyncInterval options)%Z && (io_CacheResyncInterval options <? timeout)%Z
                   then io_CacheResyncInterval options else timeout in
    let errorHandler := match io_ErrorHandler options with Some h => h | None => λ _, ret tt end in
    inl (mkKubernetesBasedInformer (io_HealthCheckIgnoreSync options) false timeout (Some errorHandler)
           (healthCheckName sch (io_ListWatchOptions options))).

(** [HealthCheck], given what the shared informer says. *)
Definition HealthCheck (k : KubernetesBasedInformer) (synced stopped : bool) : option GoError :=
  if negb synced && negb (kb_HealthCheckIgnoreSync k) then Some (ErrorString "informer has not synced")
  else if stopped then Some (ErrorString "informer is stopped")
  else None.

Definition Kubernetes_context (k : KubernetesBasedInformer) : EventContext :=
  event_context (kb_runContext k) (kb_eventTimeout k).

(** ** Properties *)

(** The interval of the [i]-th wait. *)
Definition wait_interval (i : nat) : Z := Z.min (2 ^ Z.of_nat i * Millisecond) waitForSyncMaxInterval.

Lemma wait_interval_S i : Z.min (wait_interval i * 2) waitForSyncMaxInterval = wait_interval (S i).
Proof.
  unfold wait_interval, waitForSyncMaxInterval, Millisecond.
  rewrite Nat2Z.inj_succ, Z.pow_succ_r by lia.
  assert (0 < 2 ^ Z.of_nat i)%Z by (apply Z.pow_pos_nonneg; lia). lia.
Qed.

Lemma WaitForSync_loop_spec n i fuel synced done_ :
  (∀ j, i ≤ j < i + n → synced j = false ∧ done_ j = None) → n < fuel →
  WaitForSync_loop fuel i synced done_ (wait_interval i) =
    match WaitForSync_loop (fuel - n) (i + n) synced done_ (wait_interval (i + n)) with
    | Some (res, waits) => Some (res, (wait_interval <$> seq i n) ++ waits)
    | None => None
    end.
Proof.
  revert i fuel. induction n as [|n IH]; intros i fuel Hw Hf.
  - rewrite Nat.add_0_r, Nat.sub_0_r. by destruct (WaitForSync_loop fuel i synced done_ _) as [[? ?]|].
  - destruct fuel as [|fuel]; [lia|]. simpl. destruct (Hw i) as [-> ->]; [lia|].
    rewrite wait_interval_S, (IH (S i)); [|intros j Hj; apply Hw; lia | lia].
    rewrite (Nat.add_succ_r i n). simpl.
    destruct (WaitForSync_loop _ (S (i + n)) synced done_ _) as [[res ws]|]; done.
Qed.
End Informers.

Lemma normal_resync_max resync : normal_resync resync = Z.max 0 resync.
Proof. unfold normal_resync. destruct (Z.ltb_spec resync 0); lia. Qed.

Lemma normal_timeout_min resync timeout :
  normal_timeout resync timeout =
  if (0 <? resync)%Z then Z.min resync (Z.max 0 timeout) else Z.max 0 timeout.
Proof.
  unfold normal_timeout.
  destruct (Z.ltb_spec timeout 0), (Z.ltb_spec 0 resync); simpl; try lia;
    match goal with |- context [(?a <? ?b)%Z] => destruct (Z.ltb_spec a b) end; lia.
Qed.

(** C37: [WaitForSync] returns nil at the first check that finds the informer synced, unless
    its context ended during an earlier wait, and then it returns the context's error; so
    it returns as soon as either happens.  It waits 1ms, 2ms, 4ms and so on between two
    checks, and never more than 100ms. *)
Theorem WaitForSync_returns n fuel synced done_ :
  (∀ j, j < n → synced j = false ∧ done_ j = None) →
  synced n = true ∨ is_Some (done_ n) → n < fuel →
  WaitForSync fuel synced done_ =
    Some (if synced n then (None, wait_interval <$> seq 0 n)
          else (done_ n, wait_interval <$> seq 0 (S n))) ∧
  (∀ i, (0 < wait_interval i ≤ waitForSyncMaxInterval)%Z).
Proof.
  intros Hw Hend Hf. split.
  - unfold WaitForSync. change waitForSyncInitialInterval with (wait_interval 0).
    rewrite (WaitForSync_loop_spec n 0 fuel) by (done || intros j Hj; apply Hw; lia).
    destruct (fuel - n) as [|k] eqn:Ek; [lia|]. simpl plus. simpl WaitForSync_loop.
    destruct (synced n) eqn:Es; [by rewrite app_nil_r|].
    destruct Hend as [?|[e He]]; [done|]. rewrite He, seq_S, fmap_app. done.
  - intros i. unfold wait_interval, waitForSyncMaxInterval, Millisecond.
    assert (0 < 2 ^ Z.of_nat i)%Z by (apply Z.pow_pos_nonneg; lia). lia.
Qed.

(** The options of an informer are brought in order: a positive buffer size, intervals
    that are not negative, an event timeout within the resync interval when there is one,
    an error handler; doing it again changes nothing.  The two kinds of informers work
    out the same event timeout.  But while an informer runs, the timeout plays no part:
    every handler is called with the context of [Run]. *)
Theorem informer_options {W R} `{RG : !RingGrowing R} {O} (opts : CustomCacheInformerOptions (W:=W))
    (sch : Schema W) synced (c c' : CustomCacheInformer (W:=W) (R:=R) (O:=O)) :
  let n := normalise opts in
  let io := cc_InformerOptions n in
  (0 < cc_ProcessorBufferSize n)%Z ∧ (0 ≤ io_CacheResyncInterval io)%Z ∧
  (0 ≤ io_EventTimeout io)%Z ∧
  ((0 < io_CacheResyncInterval io)%Z → (io_EventTimeout io ≤ io_CacheResyncInterval io)%Z) ∧
  is_Some (io_ErrorHandler io) ∧ normalise n = n ∧
  (∃ k, NewKubernetesBasedInformer sch false (cc_InformerOptions opts) = inl k ∧
     kb_eventTimeout k = io_EventTimeout io) ∧
  (Run_begin synced c = inl c' → CustomCache_context c' = RunContext).
Proof.
  destruct opts as [[lw resync timeout h ign wl pg mx] size i1 i2]. simpl.
  rewrite normal_timeout_min, normal_resync_max.
  split; [destruct (Z.leb_spec size 0); unfold processorBufferSize; lia|].
  split; [lia|]. split; [destruct (Z.ltb_spec 0 (Z.max 0 resync)); lia|].
  split; [intros H; rewrite (proj2 (Z.ltb_lt _ _) H); lia|].
  split; [by destruct h|]. split; [|split].
  - unfold normalise. simpl. rewrite !normal_timeout_min, !normal_resync_max. f_equal.
    + f_equal; [lia | | by destruct h].
      replace (Z.max 0 (Z.max 0 resync)) with (Z.max 0 resync) by lia.
      destruct (Z.ltb_spec 0 (Z.max 0 resync)); lia.
    + destruct (Z.leb_spec size 0); [done|]. destruct (Z.leb_spec size 0); [lia | done].
  - eexists. split; [reflexivity|]. simpl.
    destruct (Z.ltb_spec 0 resync), (Z.ltb_spec 0 timeout), (Z.ltb_spec 0 (Z.max 0 resync)); simpl; try lia;
      match goal with |- context [(?a <? ?b)%Z] => destruct (Z.ltb_spec a b) end; lia.
  - unfold Run_begin. destruct (ci_started c); [done|]. by intros [= <-].
Qed.

(** The configured buffer size is not used: the listener's queue has the default one. *)
Lemma AddEventHandler_ignores_buffer_size {W R} `{RG : !RingGrowing R} {O} h
    (c : CustomCacheInformer (W:=W) (R:=R) (O:=O)) :
  p_started (ci_processor c) = false →
  listeners (ci_processor (CustomCache_AddEventHandler h c).1) =
  listeners (ci_processor c) ++ [newInformerProcessorListener h processorBufferSize].
Proof. intros Hs. unfold CustomCache_AddEventHandler, addListener. by rewrite Hs. Qed.

(** The functions made for a watcher: an event of a resource calls the watcher once, with
    that resource, and reports its error; a value that is none is reported instead. *)
Lemma toResourceEventHandlerFuncs_resource {W} (w : ResourceWatcher W) zero eh o o' :
  let h := toResourceEventHandlerFuncs w (toResourceObject zero) eh in
  (∀ i, OnAdd h (AnyResource o) i ≡M report eh (rw_Add w (Some o))) ∧
  (OnUpdate h (AnyResource o) (AnyResource o') ≡M report eh (rw_Update w (Some o) (Some o'))) ∧
  (OnDelete h (AnyResource o) ≡M report eh (rw_Delete w (Some o))) ∧
  (OnDelete h AnyNil ≡M eh (ErrorString "object cannot be nil")).
Proof. done. Qed.

(** ** Witnesses *)

(** A store of strings that are their own keys up to the first letter, and the log. *)
Record CacheWorld := mkCacheWorld {
  ca_items : gmap string string;
  ca_log : list (informerEvent string);
}.

Definition first_letter (s : string) : string :=
  match s with String a _ => String a "" | EmptyString => "" end.

Definition ca_put (obj : string) : M CacheWorld (option GoError) := λ σ,
  (None, mkCacheWorld (<[first_letter obj := obj]> (ca_items σ)) (ca_log σ)).

Definition ca_store : CacheStore CacheWorld string :=
  mkCacheStore (λ obj σ, ((ca_items σ !! first_letter obj, None), σ)) ca_put ca_put
    (λ obj σ, (None, mkCacheWorld (delete (first_letter obj) (ca_items σ)) (ca_log σ))).

Definition ca_note (e : informerEvent string) : M CacheWorld unit :=
  modify (λ σ, mkCacheWorld (ca_items σ) (ca_log σ ++ [e])).

Definition ca_handler : ResourceEventHandler CacheWorld string :=
  mkResourceEventHandler (λ obj i, ca_note (informerEventAdd obj i))
    (λ old obj, ca_note (informerEventUpdate obj old)) (λ obj, ca_note (informerEventDelete obj)).

#[export] Instance ca_laws : StoreLaws ca_store.
Proof.
  refine {| key_of := first_letter; contents := ca_items |}; simpl; try done.
  - by intros obj σ old σ' [= <- <-].
  - by intros obj σ σ' [= <-].
  - by intros obj σ σ' [= <-].
  - by intros obj σ σ' [= <-].
Defined.

#[export] Instance ca_records : RecordsEvents ca_store ca_handler.
Proof. refine {| event_log := ca_log |}; done. Defined.

Lemma processDeltas_mirrors_witness :
  let ds := [mkDelta Added "a1"; mkDelta Updated "a2"; mkDelta Added "b"; mkDelta Deleted "a2"]%string in
  let σ' := (processDeltas ca_handler ca_store ds true (mkCacheWorld ∅ [])).2 in
  ca_log σ' = [informerEventAdd "a1" true; informerEventUpdate "a2" "a1"; informerEventAdd "b" true;
               informerEventDelete "a2"]%string ∧
  replay ca_store ∅ (ca_log σ') = ca_items σ'.
Proof.
  split; [vm_compute; reflexivity|].
  set (ds := [mkDelta Added "a1"; mkDelta Updated "a2"; mkDelta Added "b"; mkDelta Deleted "a2"]%string).
  set (σ' := (processDeltas ca_handler ca_store ds true (mkCacheWorld ∅ [])).2).
  destruct (processDeltas_mirrors ca_store ca_handler ds true (mkCacheWorld ∅ []) None σ')
    as (_ & n & σ0 & _ & Hl & Hc & _ & _ & <-); [reflexivity|].
  simpl in Hl. rewrite Hl. symmetry. exact Hc.
Defined.

Lemma WaitForSync_returns_witness :
  WaitForSync 9 (λ i, 8 =? i) (λ _, None) =
  Some (None, (λ i, i * Millisecond)%Z <$> [1; 2; 4; 8; 16; 32; 64; 100]%Z).
Proof.
  destruct (WaitForSync_returns 8 9 (λ i, 8 =? i) (λ _, None)) as [E _].
  - intros j Hj. split; [by apply Nat.eqb_neq; lia | done].
  - by left.
  - lia.
  - rewrite E. reflexivity.
Defined.
