(* ===== verification/Memcached.v ===== *)
(** * The memcached store ([operator/cache_memcached.go])

    [MemcachedStore] keeps the objects of a kind in memcached under keys prefixed with the
    kind's plural, and tracks the keys in memory.  The memcached client, the key function
    and the JSON codecs are parameters.  Latency histograms are left out. *)
From S2P Require Import Prelude GoValues Resource Concrete BufferedQueue CustomCache.

(** The client of [gomemcache]: [Get] gives the value of an item or an error, [GetMulti]
    the keys and values of the items that exist. *)
Record MemcacheClient (W : Type) := mkMemcacheClient {
  mc_Add : string → string → M W (option GoError);
  mc_Replace : string → string → M W (option GoError);
  mc_Delete : string → M W (option GoError);
  mc_Get : string → M W (string + GoError);
  mc_GetMulti : list string → M W (list (string * string) * option GoError);
}.
Arguments mkMemcacheClient {W}.
Arguments mc_Add {W}.
Arguments mc_Replace {W}.
Arguments mc_Delete {W}.
Arguments mc_Get {W}.
Arguments mc_GetMulti {W}.

(** The errors of [gomemcache] that are looked at; a cache miss is no connection error. *)
Class MemcacheErrors := {
  miss_text : string;
  IsConnectTimeout : GoError → bool;
  miss_no_timeout e :
    ErrorsIs e (ErrorString miss_text) = true →
    IsConnectTimeout e = false ∧ Error e ≠ "EOF"%string;
}.
Definition ErrCacheMiss `{!MemcacheErrors} : GoError := ErrorString miss_text.

(** The JSON text of a list of keys. *)
Class KeysJSON := {
  marshal_keys : list string → string;
  unmarshal_keys : string → list string + GoError;
  unmarshal_marshal l : unmarshal_keys (marshal_keys l) = inl l;
}.

Definition MemcachedStoreDefaultPageSize : nat := 500.

Section Memcached.
Context {W O : Type} `{ME : !MemcacheErrors} `{KJ : !KeysJSON} `{RO : !RangeOrder}.

(** [MemcachedStoreConfig], the fields that matter; [mc_RefreshServers] is that of the
    server selector when there is one. *)
Record MemcachedStoreConfig := mkMemcachedStoreConfig {
  mcfg_KeyFunc : option (O → string + GoError);
  mcfg_RefreshServers : option (M W (option GoError));
  mcfg_KeySyncInterval : Z;
  mcfg_PageSize : Z;
  mcfg_ShardKey : string;
}.

(** [MemcachedStore]; [ms_read] and [ms_marshal] are the codecs of the objects. *)
Record MemcachedStore := mkMemcachedStore {
  ms_client : MemcacheClient W;
  ms_keyFunc : O → string + GoError;
  ms_plural : string;
  ms_read : string → O + GoError;
  ms_marshal : O → string + GoError;
  ms_trackKeys : bool;
  ms_pageSize : nat;
  ms_cacheKeysKey : string;
  ms_RefreshServers : option (M W (option GoError));
}.

(** The state of a store that changes: [keys]. *)
Definition KState : Type := gset string * W.

Definition on_server {A} (m : M W A) : M KState A := λ '(keys, w),
  let '(a, w') := m w in (a, (keys, w')).

Definition get_keys : M KState (gset string) := gets fst.
Definition store_key (k : string) : M KState unit := modify (λ '(keys, w), ({[k]} ∪ keys, w)).
Definition delete_key (k : string) : M KState unit := modify (λ '(keys, w), (keys ∖ {[k]}, w)).

(** The errors after which the server list is refreshed. *)
Definition timed_out (e : GoError) : bool :=
  IsConnectTimeout e || bool_decide (Error e = "EOF"%string).

(** [attemptWithRefreshOnTimeout]; [f] also gives what it assigns to captured variables.
    [memcachedServerRefresher.refresh] is, for one caller, [RefreshServers]. *)
Definition attempt {A : Type} (m : MemcachedStore) (f : M W (A * option GoError))
  : M W (A * option GoError) :=
  let* '(a, err) := f in
  match err with
  | None => ret (a, None)
  | Some e =>
      match ms_RefreshServers m with
      | Some refresh =>
          if timed_out e then
            let* refreshErr := refresh in
            match refreshErr with
            | Some re => ret (a, Some (WrapBoth e ": could not refresh server list: " re))
            | None => f
            end
          else ret (a, Some e)
      | None => ret (a, Some e)
      end
  end.

Definition attempt_op (m : MemcachedStore) (f : M W (option GoError)) : M W (option GoError) :=
  let* '(_, err) := attempt m (let* err := f in ret (tt, err)) in ret err.

(** [getKey] and the key of an item. *)
Definition prefixed (m : MemcachedStore) (key : string) : string :=
  (ms_plural m +:+ "/" +:+ key)%string.

Definition getKey (m : MemcachedStore) (obj : O) : (string * string) + GoError :=
  match ms_keyFunc m obj with
  | inr e => inr e
  | inl externalKey => inl (prefixed m externalKey, externalKey)
  end.

(** [Add] *)
Definition Memcached_Add (m : MemcachedStore) (obj : O) : M KState (option GoError) :=
  match getKey m obj with
  | inr e => ret (Some e)
  | inl (key, trackKey) =>
      match ms_marshal m obj with
      | inr e => ret (Some e)
      | inl o =>
          let* err := on_server (mc_Add (ms_client m) key o) in
          match err with
          | Some e => ret (Some e)
          | None => (if ms_trackKeys m then store_key trackKey else ret tt) ;;; ret None
          end
      end
  end.

(** [Update] *)
Definition Memcached_Update (m : MemcachedStore) (obj : O) : M KState (option GoError) :=
  match getKey m obj with
  | inr e => ret (Some e)
  | inl (key, _) =>
      match ms_marshal m obj with
      | inr e => ret (Some e)
      | inl o => on_server (attempt_op m (mc_Replace (ms_client m) key o))
      end
  end.

(** [Delete] *)
Definition Memcached_Delete (m : MemcachedStore) (obj : O) : M KState (option GoError) :=
  match getKey m obj with
  | inr e => ret (Some e)
  | inl (key, trackKey) =>
      let* err := on_server (attempt_op m (mc_Delete (ms_client m) key)) in
      match err with
      | Some e => ret (Some e)
      | None => (if ms_trackKeys m then delete_key trackKey else ret tt) ;;; ret None
      end
  end.

(** The item [client.Get] assigns, nil with an error. *)
Definition get_item (m : MemcachedStore) (key : string) : M W (option string * option GoError) :=
  let* r := mc_Get (ms_client m) key in
  ret (match r with inl v => (Some v, None) | inr e => (None, Some e) end).

(** [getByKey]: the item, whether it exists, and the error. *)
Definition getByKey (m : MemcachedStore) (key : string) : M W (option O * bool * option GoError) :=
  let* '(fromCache, err) := attempt m (get_item m key) in
  if match err with Some e => negb (ErrorsIs e ErrCacheMiss) | None => false end then
    ret (None, false, err)
  else
    match fromCache with
    | None => ret (None, false, None)
    | Some value =>
        match ms_read m value with
        | inr e => ret (None, true, Some e)
        | inl item => ret (Some item, true, None)
        end
    end.

(** [Get] and [GetByKey] *)
Definition get_tracking (m : MemcachedStore) (key trackKey : string)
  : M KState (option O * bool * option GoError) :=
  let* '(item, exists_, err) := on_server (getByKey m key) in
  match err with
  | None =>
      (if ms_trackKeys m && exists_ then store_key trackKey else ret tt) ;;; ret (item, exists_, None)
  | Some e => ret (item, exists_, Some e)
  end.

Definition Memcached_Get (m : MemcachedStore) (obj : O) : M KState (option O * bool * option GoError) :=
  match getKey m obj with
  | inr e => ret (None, false, Some e)
  | inl (key, trackKey) => get_tracking m key trackKey
  end.

Definition GetByKey (m : MemcachedStore) (key : string) : M KState (option O * bool * option GoError) :=
  get_tracking m (prefixed m key) key.

(** [ListKeys]; [None] is the nil slice. *)
Definition ListKeys (m : MemcachedStore) : M KState (option (list string)) :=
  if ms_trackKeys m then let* keys := get_keys in ret (Some (range_keys keys)) else ret None.

(** [List]: the entries of the result, an entry that is not set being nil.  The response
    of [GetMulti] is a Go map; [res] is the order in which the loop visits it, and every
    iteration assigns the entry [i]. *)
Fixpoint List_pages (pages i : nat) (m : MemcachedStore) (keys : list string)
    (items : list (option string)) : M W (option (list (option string))) :=
  match pages with
  | 0 => ret (Some items)
  | S pages =>
      if i <? length keys then
        let fetchKeys := prefixed m <$> take (ms_pageSize m) (drop i keys) in
        let* '(res, err) := attempt m (mc_GetMulti (ms_client m) fetchKeys) in
        match err with
        | Some _ => ret None
        | None =>
            List_pages pages (i + ms_pageSize m) m keys
              (foldl (λ items '(_, v), <[i := Some v]> items) items res)
        end
      else ret (Some items)
  end.

Definition Memcached_List (m : MemcachedStore) : M KState (option (list (option string))) :=
  let* keys := ListKeys m in
  match keys with
  | None => ret None
  | Some keys => on_server (List_pages (length keys) 0 m keys (replicate (length keys) None))
  end.

(** [setKeysFromCache] *)
Definition setKeysFromCache (m : MemcachedStore) : M KState (option GoError) :=
  let* '(item, err) := on_server (attempt m (get_item m (ms_cacheKeysKey m))) in
  match err, item with
  | Some e, _ => if ErrorsIs e ErrCacheMiss then ret None else ret (Some e)
  | None, None => ret None
  | None, Some value =>
      match unmarshal_keys value with
      | inr e => ret (Some e)
      | inl keys => for_each keys store_key ;;; ret None
      end
  end.

(** [syncKeys] *)
Definition syncKeys (m : MemcachedStore) : M KState (option GoError) :=
  on_server (attempt_op m
    (let* '(_, err) := get_item m (ms_cacheKeysKey m) in
     match err with
     | Some e =>
         if ErrorsIs e ErrCacheMiss then mc_Add (ms_client m) (ms_cacheKeysKey m) "[]"
         else ret (Some e)
     | None => ret None
     end)) ;;?
  (let* keys := get_keys in
   on_server (attempt_op m
     (mc_Replace (ms_client m) (ms_cacheKeysKey m) (marshal_keys (range_keys keys))))).

(** [NewMemcachedStore], with the client already made, the default key function, and the
    codecs of the kind; the goroutine that calls [syncKeys] at every tick is not started
    here. *)
Definition NewMemcachedStore (client : MemcacheClient W) (default_key : O → string + GoError)
    (plural : string) (read : string → O + GoError) (marshal : O → string + GoError)
    (cfg : MemcachedStoreConfig) : M KState (MemcachedStore + GoError) :=
  let keyFunc := match mcfg_KeyFunc cfg with Some f => f | None => default_key end in
  let trackKeys := negb (bool_decide (mcfg_KeySyncInterval cfg = 0%Z)) in
  let pageSize := if (0 <? mcfg_PageSize cfg)%Z then Z.to_nat (mcfg_PageSize cfg)
                  else MemcachedStoreDefaultPageSize in
  let keysKey := (plural +:+ "-keys")%string in
  let store k := mkMemcachedStore client keyFunc plural read marshal trackKeys pageSize k
                   (mcfg_RefreshServers cfg) in
  let finish := if bool_decide (mcfg_ShardKey cfg = ""%string) then store keysKey
                else store (keysKey +:+ "-" +:+ mcfg_ShardKey cfg)%string in
  if trackKeys then
    let* err := setKeysFromCache (store keysKey) in
    match err with
    | Some e => ret (inr e)
    | None => ret (inl finish)
    end
  else ret (inl finish).

(** [Replace] and [Resync] do nothing. *)
Definition Memcached_Replace (objs : list O) (s : string) : M KState (option GoError) := ret None.
Definition Resync : M KState (option GoError) := ret None.

(** The store as the [cache.Store] that [processDeltas] uses. *)
Definition Memcached_store (m : MemcachedStore) : CacheStore KState O :=
  mkCacheStore
    (λ obj, let* '(item, exists_, err) := Memcached_Get m obj in
            ret (if exists_ : bool then item else None, err))
    (Memcached_Add m) (Memcached_Update m) (Memcached_Delete m).
End Memcached.

Arguments MemcachedStore W O : clear implicits.
Arguments MemcachedStoreConfig W O : clear implicits.

(** ** What memcached does *)

(** A memcached server that evicts nothing, as a map.  An operation that fails may still
    have been carried out. *)
Class MemcacheLaws {W} `{!MemcacheErrors} (client : MemcacheClient W) := {
  data : W → gmap string string;
  mc_Get_ok k w v w' :
    mc_Get client k w = (inl v, w') → data w' = data w ∧ data w !! k = Some v;
  mc_Get_err k w e w' :
    mc_Get client k w = (inr e, w') →
    data w' = data w ∧ (ErrorsIs e ErrCacheMiss = true → data w !! k = None);
  mc_Add_ok k v w w' :
    mc_Add client k v w = (None, w') → data w !! k = None ∧ data w' = <[k := v]> (data w);
  mc_Replace_ok k v w w' :
    mc_Replace client k v w = (None, w') → is_Some (data w !! k) ∧ data w' = <[k := v]> (data w);
  mc_Replace_err k v w e w' :
    mc_Replace client k v w = (Some e, w') → data w' = data w ∨ data w' = <[k := v]> (data w);
  mc_Delete_ok k w w' :
    mc_Delete client k w = (None, w') → is_Some (data w !! k) ∧ data w' = delete k (data w);
  mc_Delete_err k w e w' :
    mc_Delete client k w = (Some e, w') → data w' = data w ∨ data w' = delete k (data w);
}.

(** [k] without the prefix [p]. *)
Fixpoint strip (p k : string) : option string :=
  match p, k with
  | EmptyString, _ => Some k
  | String a p, String b k => if Ascii.eqb a b then strip p k else None
  | String _ _, EmptyString => None
  end.

Lemma strip_append p r : strip p (p +:+ r) = Some r.
Proof. induction p as [|a p IH]; simpl; [done|]. by rewrite Ascii.eqb_refl. Qed.

Lemma append_assoc s1 s2 s3 : (s1 +:+ s2 +:+ s3 = (s1 +:+ s2) +:+ s3)%string.
Proof. induction s1 as [|a s1 IH]; [done|]. exact (f_equal (String a) IH). Qed.

Section Correctness.
Context {W O : Type} `{ME : !MemcacheErrors} (m : MemcachedStore W O)
  `{ML : !MemcacheLaws (ms_client m)}.

(** The objects of the kind that are stored, by their key. *)
Definition stored_keys (w : W) : gset string :=
  list_to_set (omap (strip (ms_plural m +:+ "/")) (base.elements (dom (data w)))).

Definition parse (s : string) : option O :=
  match ms_read m s with inl o => Some o | inr _ => None end.

Definition objects (σ : gset string * W) : gmap string O :=
  map_imap (λ k _, data σ.2 !! prefixed m k ≫= parse) (gset_to_gmap tt (stored_keys σ.2)).

Lemma prefixed_assoc k : prefixed m k = ((ms_plural m +:+ "/") +:+ k)%string.
Proof. unfold prefixed. apply append_assoc. Qed.

Lemma prefixed_inj k k' : prefixed m k = prefixed m k' → k = k'.
Proof.
  rewrite !prefixed_assoc. intros H. apply (f_equal (strip (ms_plural m +:+ "/"))) in H.
  rewrite !strip_append in H. by injection H.
Qed.

Lemma objects_lookup σ k : objects σ !! k = data σ.2 !! prefixed m k ≫= parse.
Proof.
  unfold objects. rewrite map_lookup_imap, lookup_gset_to_gmap.
  destruct (data σ.2 !! prefixed m k) as [v|] eqn:E; [|by destruct (guard _)].
  rewrite option_guard_True; [done|].
  apply elem_of_list_to_set, list_elem_of_omap. exists (prefixed m k).
  split; [|by rewrite prefixed_assoc, strip_append].
  apply elem_of_elements, elem_of_dom. by exists v.
Qed.

(** What is found of an object once it is written: what reading its JSON gives. *)
Definition written (obj : O) : option O :=
  match ms_marshal m obj with inl s => parse s | inr _ => None end.

Lemma objects_write σ σ' k s obj :
  ms_marshal m obj = inl s → data σ'.2 = <[prefixed m k := s]> (data σ.2) →
  objects σ' = partial_alter (λ _, written obj) k (objects σ).
Proof.
  intros Hm Hd. apply map_eq. intros k'. rewrite objects_lookup, Hd. destruct (decide (k' = k)) as [->|Hne].
  - rewrite lookup_insert_eq, lookup_partial_alter_eq. simpl. unfold written. by rewrite Hm.
  - rewrite lookup_insert_ne, lookup_partial_alter_ne by (done || (intros H; by apply prefixed_inj in H)).
    by rewrite objects_lookup.
Qed.

Lemma objects_delete σ σ' k :
  data σ'.2 = delete (prefixed m k) (data σ.2) → objects σ' = delete k (objects σ).
Proof.
  intros Hd. apply map_eq. intros k'. rewrite objects_lookup, Hd. destruct (decide (k' = k)) as [->|Hne].
  - by rewrite !lookup_delete_eq.
  - rewrite !lookup_delete_ne by (done || (intros H; by apply prefixed_inj in H)).
    by rewrite objects_lookup.
Qed.

Lemma objects_same σ σ' : data σ'.2 = data σ.2 → objects σ' = objects σ.
Proof. intros Hd. apply map_eq. intros k. by rewrite !objects_lookup, Hd. Qed.

(** The state in which an operation is attempted for the last time: the one it starts in,
    or, when the first attempt timed out, the one that a successful refresh of the server
    list left, in which the servers may hold other items. *)
Definition last_attempt {A} (f : M W (A * option GoError)) (w w0 : W) : Prop :=
  match f w with
  | ((_, Some e), w1) =>
      match ms_RefreshServers m with
      | Some refresh => if timed_out e then refresh w1 = (None, w0) else w0 = w
      | None => w0 = w
      end
  | ((_, None), _) => w0 = w
  end.

(** The first attempt timed out, and then refreshing the server list failed. *)
Definition refresh_failed {A} (f : M W (A * option GoError)) (w : W) (a : A) (err : option GoError)
    (re : GoError) (w' : W) : Prop :=
  ∃ e w1 refresh, f w = ((a, Some e), w1) ∧ timed_out e = true ∧
    ms_RefreshServers m = Some refresh ∧ refresh w1 = (Some re, w') ∧
    err = Some (WrapBoth e ": could not refresh server list: " re).

Lemma attempt_run {A} (f : M W (A * option GoError)) w a err w' :
  attempt m f w = ((a, err), w') →
  (∃ w0, last_attempt f w w0 ∧ f w0 = ((a, err), w')) ∨ ∃ re, refresh_failed f w a err re w'.
Proof.
  unfold attempt, last_attempt, refresh_failed, bind. destruct (f w) as [[a1 [e|]] w1] eqn:E1;
    [|intros [= <- <- <-]; left; exists w; by rewrite E1].
  destruct (ms_RefreshServers m) as [refresh|] eqn:Er;
    [|intros [= <- <- <-]; left; exists w; by rewrite E1].
  destruct (timed_out e) eqn:Et; [|intros [= <- <- <-]; left; exists w; by rewrite E1].
  destruct (refresh w1) as [[re|] w2] eqn:E2.
  - intros [= <- <- <-]. right. exists re, e, w1, refresh. by split_and!.
  - intros E3. left. by exists w2.
Qed.

(** An operation that only has an error, as [attempt_op] attempts it. *)
Definition op_attempt (f : M W (option GoError)) : M W (unit * option GoError) :=
  let* err := f in ret (tt, err).

Lemma attempt_op_ok (op : M W (option GoError)) w w' :
  attempt_op m op w = (None, w') →
  ∃ w0, last_attempt (op_attempt op) w w0 ∧ op w0 = (None, w').
Proof.
  unfold attempt_op. unfold bind at 1. fold (op_attempt op).
  destruct (attempt m (op_attempt op) w) as [[[] err] w1] eqn:E. intros [= -> <-].
  apply attempt_run in E as [(w0 & Hw0 & E)|(re & e & w1' & refresh & _ & _ & _ & _ & [=])].
  exists w0. split; [done|]. unfold op_attempt, bind, ret in E.
  destruct (op w0) as [r w2]. by injection E as -> ->.
Qed.

Section Key.
Context (obj : O) (k s : string) (Hkey : ms_keyFunc m obj = inl k) (Hm : ms_marshal m obj = inl s).

Lemma Memcached_Add_ok σ σ' :
  Memcached_Add m obj σ = (None, σ') →
  data σ.2 !! prefixed m k = None ∧ objects σ' = partial_alter (λ _, written obj) k (objects σ).
Proof.
  unfold Memcached_Add, getKey. rewrite Hkey, Hm. destruct σ as [keys w]. unfold bind at 1. simpl.
  destruct (mc_Add (ms_client m) (prefixed m k) s w) as [[e|] w1] eqn:E; [done|].
  intros H. apply mc_Add_ok in E as [Hnone Hd]. split; [done|].
  apply (objects_write (keys, w) σ' k s); [done|].
  simpl. rewrite <- Hd. destruct (ms_trackKeys m); by injection H as <-.
Qed.

Lemma Memcached_Update_ok σ σ' :
  Memcached_Update m obj σ = (None, σ') →
  ∃ w0, last_attempt (op_attempt (mc_Replace (ms_client m) (prefixed m k) s)) σ.2 w0 ∧
    is_Some (data w0 !! prefixed m k) ∧
    objects σ' = partial_alter (λ _, written obj) k (objects (σ.1, w0)).
Proof.
  unfold Memcached_Update, getKey. rewrite Hkey, Hm. destruct σ as [keys w]. simpl.
  destruct (attempt_op m (mc_Replace (ms_client m) (prefixed m k) s) w) as [r w1] eqn:E.
  intros [= -> <-]. apply attempt_op_ok in E as (w0 & Hw0 & E). exists w0. split; [done|].
  apply mc_Replace_ok in E as [Hin Hd]. split; [done|]. by apply (objects_write (keys, w0) _ k s).
Qed.
End Key.

Lemma Memcached_Delete_ok obj k σ σ' :
  ms_keyFunc m obj = inl k → Memcached_Delete m obj σ = (None, σ') →
  ∃ w0, last_attempt (op_attempt (mc_Delete (ms_client m) (prefixed m k))) σ.2 w0 ∧
    is_Some (data w0 !! prefixed m k) ∧ objects σ' = delete k (objects (σ.1, w0)).
Proof.
  intros Hkey. unfold Memcached_Delete, getKey. rewrite Hkey. destruct σ as [keys w].
  unfold bind at 1. simpl.
  destruct (attempt_op m (mc_Delete (ms_client m) (prefixed m k)) w) as [[e|] w1] eqn:E; [done|].
  intros H. apply attempt_op_ok in E as (w0 & Hw0 & E). exists w0. split; [done|].
  apply mc_Delete_ok in E as [Hin Hd]. split; [done|]. apply (objects_delete (keys, w0)). simpl.
  rewrite <- Hd. destruct (ms_trackKeys m); by injection H as <-.
Qed.

(** A read of an item changes nothing, and finds the item or its absence. *)
Lemma get_item_spec key w item err w' :
  get_item m key w = ((item, err), w') →
  data w' = data w ∧
  match err with
  | None => item = data w !! key
  | Some e => item = None ∧ (ErrorsIs e ErrCacheMiss = true → data w !! key = None)
  end.
Proof.
  unfold get_item, bind, ret. destruct (mc_Get _ _ w) as [[v|e1] w4] eqn:Eg; intros [= <- <- <-].
  - by apply mc_Get_ok in Eg as [? ->].
  - by apply mc_Get_err in Eg as [? ?].
Qed.

Lemma timed_out_no_miss e : timed_out e = true → ErrorsIs e ErrCacheMiss = false.
Proof.
  unfold timed_out. intros Ht. destruct (ErrorsIs e ErrCacheMiss) eqn:Em; [|done].
  apply miss_no_timeout in Em as [H1 H2]. by rewrite H1, bool_decide_eq_false_2 in Ht.
Qed.

(** What [getByKey] finds: the object that the last attempt read, if any; when the server
    list could not be refreshed, nothing, with an error that is only dropped if it is a
    cache miss. *)
Lemma getByKey_spec key w item exists_ err w' :
  getByKey m key w = ((item, exists_, err), w') →
  (∃ w0, last_attempt (get_item m key) w w0 ∧ data w' = data w0 ∧
     (err = None → (if exists_ then item else None) = data w0 !! key ≫= parse)) ∨
  (∃ re err0, refresh_failed (get_item m key) w None err0 re w' ∧ exists_ = false ∧
     (err = None → ErrorsIs re ErrCacheMiss = true)).
Proof.
  unfold getByKey. unfold bind at 1. destruct (attempt m (get_item m key) w) as [[from err1] w2] eqn:Ea.
  intros H. assert (w' = w2) as ->.
  { repeat case_match; by injection H. }
  apply attempt_run in Ea as [(w0 & Hw0 & E)|(re & E)].
  - left. exists w0. apply get_item_spec in E as [Hd E]. split; [done|]. split; [done|]. intros ->.
    destruct err1 as [e|].
    + destruct E as [-> Hmiss]. destruct (ErrorsIs e ErrCacheMiss); [|done].
      injection H as <- <-. by rewrite Hmiss.
    + subst from. destruct (data w0 !! key) as [v|]; [|by injection H as <- <-].
      simpl. unfold parse. destruct (ms_read m v); by injection H as <- <-.
  - right. pose proof E as (e & w1 & refresh & E1 & Ht & _ & _ & ->).
    apply get_item_spec in E1 as [_ [-> _]]. exists re, (Some (WrapBoth e ": could not refresh server list: " re)).
    split; [done|]. simpl in H. rewrite (timed_out_no_miss e Ht) in H. simpl in H.
    destruct (ErrorsIs re ErrCacheMiss); simpl in H; injection H as _ <- <-; by split.
Qed.

Lemma Memcached_Get_run obj k σ item exists_ err σ' :
  ms_keyFunc m obj = inl k →
  Memcached_Get m obj σ = ((item, exists_, err), σ') →
  getByKey m (prefixed m k) σ.2 = ((item, exists_, err), σ'.2).
Proof.
  intros Hkey. unfold Memcached_Get, getKey. rewrite Hkey. destruct σ as [keys w].
  unfold get_tracking. unfold bind at 1. simpl.
  destruct (getByKey m (prefixed m k) w) as [[[item0 ex0] [e|]] w1] eqn:E.
  - by intros [= <- <- <- <-].
  - destruct (ms_trackKeys m && ex0); by intros [= <- <- <- <-].
Qed.

(** ** As the store of [processDeltas]

    With codecs that are inverse to each other, and servers that hold the same items after
    their list is refreshed (a refresh that finds the same servers), the store discharges
    what [processDeltas] relies on. *)
Section Laws.
Context (Hcodec : ∀ o s, ms_marshal m o = inl s → ms_read m s = inl o).
Context (Hrefresh : ∀ refresh w r w', ms_RefreshServers m = Some refresh → refresh w = (r, w') →
  data w' = data w ∧ ∀ e, r = Some e → ErrorsIs e ErrCacheMiss = false).

Definition obj_key (obj : O) : string :=
  match ms_keyFunc m obj with inl k => k | inr _ => "" end.

(** The items at the last attempt: those at the start, or what the operation that timed
    out made of them. *)
Lemma last_attempt_data {A} (f : M W (A * option GoError)) (d : gmap string string → gmap string string)
    w w0 :
  (∀ w a e w', f w = ((a, Some e), w') → data w' = data w ∨ data w' = d (data w)) →
  last_attempt f w w0 → data w0 = data w ∨ data w0 = d (data w).
Proof.
  intros Hf. unfold last_attempt. destruct (f w) as [[a [e|]] w1] eqn:E; [|intros ->; by left].
  destruct (ms_RefreshServers m) as [refresh|] eqn:Er; [|intros ->; by left].
  destruct (timed_out e); [|intros ->; by left]. intros E2.
  destruct (Hrefresh _ _ _ _ eq_refl E2) as [-> _]. by eapply Hf.
Qed.

Lemma op_attempt_err op w a e w' :
  op_attempt op w = ((a, Some e), w') → op w = (Some e, w').
Proof. unfold op_attempt, bind, ret. destruct (op w) as [r w1]. by intros [= _ -> ->]. Qed.

Lemma written_codec obj s : ms_marshal m obj = inl s → written obj = Some obj.
Proof. unfold written, parse. intros E. by rewrite E, (Hcodec _ _ E). Qed.

Lemma Memcached_Update_law obj σ σ' :
  Memcached_Update m obj σ = (None, σ') → objects σ' = <[obj_key obj := obj]> (objects σ).
Proof.
  intros H. unfold obj_key. destruct (ms_keyFunc m obj) as [k|e] eqn:Hk;
    [|unfold Memcached_Update, getKey in H; by rewrite Hk in H].
  destruct (ms_marshal m obj) as [s|e] eqn:Hm;
    [|unfold Memcached_Update, getKey in H; by rewrite Hk, Hm in H].
  destruct (Memcached_Update_ok obj k s Hk Hm _ _ H) as (w0 & Hw0 & _ & ->).
  rewrite (written_codec _ _ Hm). apply (last_attempt_data _ (λ x, <[prefixed m k := s]> x)) in Hw0.
  - destruct Hw0 as [E|E]; [by rewrite (objects_same σ (σ.1, w0)) by done|].
    rewrite (objects_write σ (σ.1, w0) k s obj Hm E), (written_codec _ _ Hm).
    change (<[k := obj]> (<[k := obj]> (objects σ)) = <[k := obj]> (objects σ)).
    apply insert_insert_eq.
  - intros w a e w'. intros E%op_attempt_err. by apply mc_Replace_err in E.
Qed.

Lemma Memcached_Delete_law obj σ σ' :
  Memcached_Delete m obj σ = (None, σ') → objects σ' = delete (obj_key obj) (objects σ).
Proof.
  intros H. unfold obj_key. destruct (ms_keyFunc m obj) as [k|e] eqn:Hk;
    [|unfold Memcached_Delete, getKey in H; by rewrite Hk in H].
  destruct (Memcached_Delete_ok obj k _ _ Hk H) as (w0 & Hw0 & _ & ->).
  apply (last_attempt_data _ (delete (prefixed m k))) in Hw0.
  - destruct Hw0 as [E|E]; [by rewrite (objects_same σ (σ.1, w0)) by done|].
    rewrite (objects_delete σ (σ.1, w0) k E). by rewrite delete_delete_eq.
  - intros w a e w'. intros E%op_attempt_err. by apply mc_Delete_err in E.
Qed.

Lemma Memcached_Get_law obj σ item exists_ err σ' :
  Memcached_Get m obj σ = ((item, exists_, err), σ') →
  objects σ' = objects σ ∧
  (err = None → (if exists_ then item else None) = objects σ !! obj_key obj).
Proof.
  intros H. unfold obj_key. destruct (ms_keyFunc m obj) as [k|e] eqn:Hk;
    [|unfold Memcached_Get, getKey in H; rewrite Hk in H; by injection H as <- <- <- <-].
  pose proof (Memcached_Get_run _ _ _ _ _ _ _ Hk H) as Hr.
  apply getByKey_spec in Hr as [(w0 & Hw0 & Hd & He)|Hr]; clear H.
  - assert (data w0 = data σ.2) as E.
    { apply (last_attempt_data _ id) in Hw0; [by destruct Hw0|].
      intros w a e w' E%get_item_spec. left. by destruct E. }
    split; [apply objects_same; congruence|]. rewrite objects_lookup, <- E. exact He.
  - destruct Hr as (re & err0 & (e & w1 & refresh & E1 & _ & Er & E2 & _) & _ & Hmiss).
    destruct (Hrefresh _ _ _ _ Er E2) as [Hd Hno]. apply get_item_spec in E1 as [Hd1 _].
    split; [apply objects_same; congruence|]. intros He. specialize (Hmiss He).
    by rewrite (Hno re eq_refl) in Hmiss.
Qed.

#[export] Instance Memcached_laws : StoreLaws (Memcached_store m).
Proof.
  refine {| key_of := obj_key; contents := objects |}.
  - intros obj σ old σ' H. simpl in H. unfold bind, ret in H.
    destruct (Memcached_Get m obj σ) as [[[item ex] err] σ1] eqn:E.
    injection H as <- -> <-. destruct (Memcached_Get_law _ _ _ _ _ _ E) as [H1 H2].
    split; [done|]. by rewrite <- H2.
  - intros obj σ r e σ' H. simpl in H. unfold bind, ret in H.
    destruct (Memcached_Get m obj σ) as [[[item ex] err] σ1] eqn:E.
    injection H as <- -> <-. by apply Memcached_Get_law in E as [? _].
  - intros obj σ σ' H. unfold obj_key. simpl in H. destruct (ms_keyFunc m obj) as [k|e] eqn:Hk;
      [|unfold Memcached_Add, getKey in H; by rewrite Hk in H].
    destruct (ms_marshal m obj) as [s|e] eqn:Hm;
      [|unfold Memcached_Add, getKey in H; by rewrite Hk, Hm in H].
    destruct (Memcached_Add_ok obj k s Hk Hm _ _ H) as [_ ->]. by rewrite (written_codec _ _ Hm).
  - apply Memcached_Update_law.
  - apply Memcached_Delete_law.
Defined.
End Laws.
End Correctness.

(** ** Properties *)

(** C34: The store behaves as a map of the kind's objects over memcached.  An [Add] that
    succeeds adds an object under a key that had no item; it is not tried again.  An [Update]
    that succeeds replaces an item that was there, a [Delete] removes one, and a [Get]
    without an error finds exactly the object of the key or none, all in the state of
    their last attempt: the one they start in, or, after an attempt that timed out, the
    one a successful refresh of the server list left, in which the servers may hold
    anything.  (When that refresh fails with a cache miss, [Get] says that there is no
    object.)  What is found of a written object is what reading its JSON gives, nothing
    when that fails. *)
Theorem Memcached_store_correct {W O} `{ME : !MemcacheErrors} (m : MemcachedStore W O)
    `{ML : !MemcacheLaws (ms_client m)} obj k s σ :
  ms_keyFunc m obj = inl k → ms_marshal m obj = inl s →
  (∀ σ', Memcached_Add m obj σ = (None, σ') →
     data σ.2 !! prefixed m k = None ∧
     objects m σ' = partial_alter (λ _, parse m s) k (objects m σ)) ∧
  (∀ σ', Memcached_Update m obj σ = (None, σ') →
     ∃ w0, last_attempt m (op_attempt (mc_Replace (ms_client m) (prefixed m k) s)) σ.2 w0 ∧
       is_Some (data w0 !! prefixed m k) ∧
       objects m σ' = partial_alter (λ _, parse m s) k (objects m (σ.1, w0))) ∧
  (∀ σ', Memcached_Delete m obj σ = (None, σ') →
     ∃ w0, last_attempt m (op_attempt (mc_Delete (ms_client m) (prefixed m k))) σ.2 w0 ∧
       is_Some (data w0 !! prefixed m k) ∧ objects m σ' = delete k (objects m (σ.1, w0))) ∧
  (∀ item ex err σ', Memcached_Get m obj σ = ((item, ex, err), σ') →
     (∃ w0, last_attempt m (get_item m (prefixed m k)) σ.2 w0 ∧
        objects m σ' = objects m (σ.1, w0) ∧
        (err = None → (if ex then item else None) = objects m (σ.1, w0) !! k)) ∨
     (∃ re err0, refresh_failed m (get_item m (prefixed m k)) σ.2 None err0 re σ'.2 ∧
        ex = false ∧ (err = None → ErrorsIs re ErrCacheMiss = true))).
Proof.
  intros Hk Hm. assert (Hw : written m obj = parse m s) by (unfold written; by rewrite Hm).
  rewrite <- Hw. split; [|split; [|split]].
  - intros σ'. by apply (Memcached_Add_ok m obj k s).
  - intros σ'. by apply (Memcached_Update_ok m obj k s).
  - intros σ'. by apply Memcached_Delete_ok.
  - intros item ex err σ' H.
    pose proof (Memcached_Get_run m _ _ _ _ _ _ _ Hk H) as Hr.
    apply (getByKey_spec m (ML:=ML)) in Hr as [(w0 & Hw0 & Hd & He)|Hr]; [left | by right].
    exists w0. split; [done|]. split; [by apply objects_same|].
    by rewrite objects_lookup.
Qed.

Section Tracking.
Context {W O : Type} `{ME : !MemcacheErrors} `{KJ : !KeysJSON} `{RO : !RangeOrder}.

Lemma for_each_store_key (l : list string) (keys : gset string) (w : W) :
  for_each l store_key (keys, w) = (tt, (keys ∪ list_to_set l, w)).
Proof.
  revert keys. induction l as [|k l IH]; intros keys; simpl.
  - unfold ret. by rewrite union_empty_r_L.
  - unfold bind, store_key, modify at 1. simpl. rewrite IH. f_equal. f_equal.
    rewrite (union_comm_L {[k]} keys). by rewrite union_assoc_L.
Qed.

(** An attempt without a server selector is the operation. *)
Lemma attempt_once {A} (m : MemcachedStore W O) (f : M W (A * option GoError)) w :
  ms_RefreshServers m = None → attempt m f w = f w.
Proof.
  intros Hn. unfold attempt, bind. rewrite Hn. by destruct (f w) as [[a [e|]] w'].
Qed.

(** The loop of [List] only sets entries at multiples of the page size. *)
Lemma List_pages_entries (m : MemcachedStore W O) pages i keys items w res w' :
  List_pages pages i m keys items w = (Some res, w') →
  (ms_pageSize m | i) →
  (∀ j v, items !! j = Some (Some v) → (ms_pageSize m | j)) →
  length res = length items ∧ ∀ j v, res !! j = Some (Some v) → (ms_pageSize m | j).
Proof.
  revert i items w. induction pages as [|pages IH]; intros i items w; simpl.
  - by intros [= <- _].
  - destruct (i <? length keys); [|by intros [= <- _]].
    unfold bind at 1. destruct (attempt m _ w) as [[r [e|]] w1]; [done|].
    intros H Hi Hits.
    assert (Hfold : length (foldl (λ items '(_, v), <[i := Some v]> items) items r) = length items ∧
      ∀ j v, foldl (λ items '(_, v), <[i := Some v]> items) items r !! j = Some (Some v) →
        (ms_pageSize m | j)).
    { clear H. revert items Hits. induction r as [|[k v0] r IHr]; intros items Hits; simpl; [done|].
      destruct (IHr (<[i := Some v0]> items)) as [Hl Hd].
      - intros j v. destruct (decide (j = i)) as [->|Hne]; [done|].
        rewrite list_lookup_insert_ne by done. apply Hits.
      - split; [|done]. by rewrite Hl, length_insert. }
    destruct Hfold as [Hl Hd]. apply IH in H as [Hl' Hd']; [|by apply Nat.divide_add_r|done].
    split; [congruence | done].
Qed.
End Tracking.

(** [List] gives one item per page at most: it has an entry per tracked key, but only
    the entries whose index is a multiple of the page size can be set, all others are
    nil. *)
Theorem List_one_item_per_page {W O} `{ME : !MemcacheErrors} `{RO : !RangeOrder}
    (m : MemcachedStore W O) keys (w : W) items σ' :
  Memcached_List m (keys, w) = (Some items, σ') →
  length items = size keys ∧ (∀ j v, items !! j = Some (Some v) → (ms_pageSize m | j)).
Proof.
  unfold Memcached_List, ListKeys. destruct (ms_trackKeys m); [|done].
  unfold bind at 1 2, get_keys, gets, ret, on_server. simpl.
  destruct (List_pages _ 0 m _ _ w) as [r w1] eqn:E. intros [= -> _].
  apply List_pages_entries in E as [Hl Hd].
  - split; [|done]. rewrite Hl, length_replicate, (Permutation_length (range_keys_perm keys)). done.
  - apply Nat.divide_0_r.
  - intros j v H. by apply lookup_replicate in H as [? _].
Qed.

(** The keys a sharded store tracked are not found again: a new store always starts
    from the keys under the key without the shard, while it saves them under the key with
    it. *)
Theorem sharded_keys_not_restored {W O} `{ME : !MemcacheErrors} `{KJ : !KeysJSON}
    (client : MemcacheClient W) `{ML : !MemcacheLaws client} key plural read marshal
    (cfg : MemcachedStoreConfig W O) w (m : MemcachedStore W O) keys w' :
  mcfg_RefreshServers cfg = None → mcfg_KeySyncInterval cfg ≠ 0%Z → mcfg_ShardKey cfg ≠ ""%string →
  NewMemcachedStore client key plural read marshal cfg (∅, w) = (inl m, (keys, w')) →
  ms_cacheKeysKey m = (plural +:+ "-keys" +:+ "-" +:+ mcfg_ShardKey cfg)%string ∧
  match data w !! (plural +:+ "-keys")%string with
  | None => keys = ∅
  | Some s => ∃ l, unmarshal_keys s = inl l ∧ keys = list_to_set l
  end.
Proof.
  intros Hr Hi Hs. unfold NewMemcachedStore. rewrite (bool_decide_eq_false_2 _ Hi). simpl negb.
  rewrite (bool_decide_eq_false_2 _ Hs). cbv zeta. cbn [negb]. unfold bind at 1.
  match goal with |- context [setKeysFromCache ?m ?s] =>
    destruct (setKeysFromCache m s) as [[e|] [keys1 w1]] eqn:E end; [done|].
  intros [= <- <- <-]. split; [symmetry; exact (append_assoc plural "-keys" ("-" +:+ mcfg_ShardKey cfg))|].
  revert E. unfold setKeysFromCache. unfold bind at 1. unfold on_server. rewrite attempt_once by done.
  unfold get_item, bind, ret. simpl.
  destruct (mc_Get client (plural +:+ "-keys") w) as [[v|e] w2] eqn:Eg.
  - apply mc_Get_ok in Eg as [_ ->]. destruct (unmarshal_keys v) as [l|e] eqn:Eu; [|done].
    rewrite for_each_store_key. intros [= <- <-]. exists l. split; [done|]. by rewrite union_empty_l_L.
  - apply mc_Get_err in Eg as [_ Hmiss]. destruct (ErrorsIs e ErrCacheMiss) eqn:Em; [|done].
    rewrite (Hmiss eq_refl). by intros [= <- <-].
Qed.

(** ** Witnesses *)
Lemma ErrorsIs_text e t :
  ErrorsIs e (ErrorString t) = true → String.length t ≤ String.length (Error e).
Proof.
  assert (Happ : ∀ s1 s2, String.length (s1 +:+ s2) = String.length s1 + String.length s2)
    by (intros s1 s2; induction s1 as [|a s1 IH]; [done | exact (f_equal S IH)]).
  induction e as [msg|prefix e IH|e1 IH1 e2 IH2|e1 IH1 sep e2 IH2|st|e IH r|meta|e IH c r|e IH c|e IH|c e IH]; simpl;
    rewrite ?Happ; simpl; try done.
  - rewrite orb_false_r. intros H. apply bool_decide_eq_true in H. injection H as ->. lia.
  - intros H. specialize (IH H). lia.
  - intros H. apply orb_true_iff in H as [H|H]; [specialize (IH1 H) | specialize (IH2 H)]; lia.
  - intros H. apply orb_true_iff in H as [H|H]; [specialize (IH1 H) | specialize (IH2 H)]; lia.
Qed.

#[export] Program Instance TestMemcacheErrors : MemcacheErrors := {
  miss_text := "memcache: cache miss";
  IsConnectTimeout e := bool_decide (e = ErrorString "timeout");
}.
Next Obligation.
  intros e H. split.
  - apply bool_decide_eq_false_2. intros ->. done.
  - intros He. apply ErrorsIs_text in H. rewrite He in H. simpl in H. lia.
Qed.

(** Keys are separated by commas; a key holds none (as in the witnesses). *)
(** A server that holds its items, and fails its next operation when told to. *)
Record McWorld := mkMcWorld { mw_items : gmap string string; mw_fail : bool }.

Definition mw_timeout : GoError := ErrorString "timeout".
Definition mw_up (w : McWorld) : McWorld := mkMcWorld (mw_items w) false.
Definition mw_put (w : McWorld) (k v : string) : McWorld := mkMcWorld (<[k := v]> (mw_items w)) false.

Definition mw_client : MemcacheClient McWorld :=
  mkMemcacheClient
    (λ k v w, if mw_fail w then (Some mw_timeout, mw_up w)
              else match mw_items w !! k with Some _ => (Some (ErrorString "not stored"), w)
                                            | None => (None, mw_put w k v) end)
    (λ k v w, if mw_fail w then (Some mw_timeout, mw_up w)
              else match mw_items w !! k with None => (Some (ErrorString "not stored"), w)
                                            | Some _ => (None, mw_put w k v) end)
    (λ k w, if mw_fail w then (Some mw_timeout, mw_up w)
            else match mw_items w !! k with None => (Some ErrCacheMiss, w)
                   | Some _ => (None, mkMcWorld (delete k (mw_items w)) false) end)
    (λ k w, if mw_fail w then (inr mw_timeout, mw_up w)
            else (match mw_items w !! k with Some v => inl v | None => inr ErrCacheMiss end, w))
    (λ ks w, if mw_fail w then (([], Some mw_timeout), mw_up w)
             else ((omap (λ k, v ← mw_items w !! k; Some (k, v)) ks, None), w)).

#[export] Instance mw_laws : MemcacheLaws mw_client.
Proof.
  refine {| data := mw_items |}; simpl.
  - intros k w v w'. destruct (mw_fail w); [done|]. destruct (mw_items w !! k) eqn:E; [|done].
    by intros [= <- <-].
  - intros k w e w'. destruct (mw_fail w); [by intros [= <- <-]|].
    destruct (mw_items w !! k) eqn:E; [done|]. by intros [= <- <-].
  - intros k v w w'. destruct (mw_fail w); [done|]. destruct (mw_items w !! k) eqn:E; [done|].
    by intros [= <-].
  - intros k v w w'. destruct (mw_fail w); [done|]. destruct (mw_items w !! k) eqn:E; [|done].
    by intros [= <-].
  - intros k v w e w'. destruct (mw_fail w); [intros [= _ <-]; by left|].
    destruct (mw_items w !! k); [done|]. intros [= _ <-]. by left.
  - intros k w w'. destruct (mw_fail w); [done|]. destruct (mw_items w !! k) eqn:E; [|done].
    by intros [= <-].
  - intros k w e w'. destruct (mw_fail w); [intros [= _ <-]; by left|].
    destruct (mw_items w !! k); [done|]. intros [= _ <-]. by left.
Defined.

(** Strings that are stored as they are, under their first letter. *)
Definition mw_store : MemcachedStore McWorld string :=
  mkMemcachedStore mw_client (λ s, inl (first_letter s)) "ks" inl inl true 500 "ks-keys"
    (Some (ret None)).

(** The first replace times out; it is tried again, on the same server. *)
Lemma Memcached_store_correct_witness :
  let σ := (∅, mkMcWorld {[ "ks/a" := "a1" ]} true) : gset string * McWorld in
  ∃ σ' w0, Memcached_Update mw_store "a2" σ = (None, σ') ∧
    last_attempt mw_store (op_attempt (mc_Replace mw_client "ks/a" "a2")) σ.2 w0 ∧
    mw_items w0 = {[ "ks/a" := "a1" ]} ∧
    objects mw_store σ' = partial_alter (λ _, Some "a2") "a" (objects mw_store (∅, w0)).
Proof.
  intros σ. destruct (Memcached_store_correct mw_store "a2" "a" "a2" σ) as (_ & H & _);
    [reflexivity | reflexivity |].
  destruct (H (Memcached_Update mw_store "a2" σ).2) as (w0 & Hw0 & _ & Ho);
    [vm_compute; reflexivity|].
  exists (Memcached_Update mw_store "a2" σ).2, w0. split; [vm_compute; reflexivity|].
  split; [exact Hw0|]. split; [|exact Ho].
  injection Hw0 as <-. reflexivity.
Defined.

Lemma List_one_item_per_page_witness :
  let σ := ({[ "a"; "b" ]}, mkMcWorld {[ "ks/a" := "a1"; "ks/b" := "b1" ]} false) : gset string * McWorld in
  ∃ items σ', Memcached_List mw_store σ = (Some items, σ') ∧ items = [Some "b1"; None] ∧
    length items = 2 ∧ (∀ j v, items !! j = Some (Some v) → (500 | j)).
Proof.
  intros σ. eexists _, _. split; [vm_compute; reflexivity|]. split; [reflexivity|].
  change 2 with (size ({[ "a"; "b" ]} : gset string)).
  eapply (List_one_item_per_page mw_store {[ "a"; "b" ]}
    (mkMcWorld {[ "ks/a" := "a1"; "ks/b" := "b1" ]} false)). vm_compute. reflexivity.
Defined.

(** A text for lists of keys: a 1 before every character of a key, a 0 at its end. *)
Fixpoint enc_key (k rest : string) : string :=
  match k with
  | EmptyString => String "0" rest
  | String c k => String "1" (String c (enc_key k rest))
  end.

Fixpoint dec_keys (s : string) : list string :=
  match s with
  | String "0" s => ""%string :: dec_keys s
  | String "1" (String c s) =>
      match dec_keys s with k :: l => String c k :: l | [] => [] end
  | _ => []
  end.

Lemma dec_enc_key k rest : dec_keys (enc_key k rest) = k :: dec_keys rest.
Proof. induction k as [|c k IH]; simpl; [done|]. by rewrite IH. Qed.

#[export] Program Instance TestKeysJSON : KeysJSON := {
  marshal_keys l := foldr enc_key ""%string l;
  unmarshal_keys s := inl (dec_keys s);
}.
Next Obligation.
  intros l. apply (f_equal inl). induction l as [|k l IH]; simpl; [done|]. by rewrite dec_enc_key, IH.
Qed.

(** Another store of the shard has saved the key "a"; a new one does not find it. *)
Lemma sharded_keys_not_restored_witness :
  let w := mkMcWorld {[ "ks-keys-s1" := marshal_keys ["a"] ]} false in
  let cfg := mkMemcachedStoreConfig None None 60 0 "s1" : MemcachedStoreConfig McWorld string in
  ∃ m w', NewMemcachedStore mw_client (λ s, inl s) "ks" inl inl cfg (∅, w) = (inl m, (∅, w')) ∧
    data w !! ms_cacheKeysKey m = Some (marshal_keys ["a"]).
Proof.
  intros w cfg.
  destruct (NewMemcachedStore mw_client (λ s, inl s) "ks" inl inl cfg (∅, w)) as [[m|e] [keys w']] eqn:E;
    [|vm_compute in E; discriminate].
  destruct (sharded_keys_not_restored mw_client (λ s, inl s) "ks" inl inl cfg w m keys w'
    eq_refl ltac:(discriminate) ltac:(discriminate) E) as [Hk Hkeys].
  exists m, w'. split; [|rewrite Hk; reflexivity].
  change (data w !! ("ks" +:+ "-keys")%string) with (None : option string) in Hkeys.
  simpl in Hkeys. by rewrite Hkeys.
Defined.
