(* ===== verification/Admission.v ===== *)
(** * Admission control ([resource/admission.go], [k8s/admission.go])

    Admission controllers are functions of a request: the interfaces
    [ValidatingAdmissionController] and [MutatingAdmissionController] have one method each,
    so a controller is that method, and a nil controller is [None].  A controller may panic,
    and may write to the objects of a request through its pointers; the request itself is a
    value, whose own fields controllers leave alone. *)
From S2P Require Import Prelude GoValues Resource ResourceWatcher Schema Client Concrete.

#[local] Open Scope string_scope.
#[local] Open Scope list_scope.

(** ** [resource/admission.go] *)

(** [AdmissionAction] is a string; these are its constants. *)
Definition AdmissionAction : Type := string.
Definition AdmissionActionCreate : AdmissionAction := "CREATE".
Definition AdmissionActionUpdate : AdmissionAction := "UPDATE".
Definition AdmissionActionDelete : AdmissionAction := "DELETE".
Definition AdmissionActionConnect : AdmissionAction := "CONNECT".

(** [AdmissionUserInfo]; [Extra] is not filled by the SDK. *)
Record AdmissionUserInfo := mkAdmissionUserInfo {
  ui_Username : string;
  ui_UID : string;
  ui_Groups : list string;
  ui_Extra : nmap (any Empty_set);
}.

Record AdmissionRequest := mkAdmissionRequest {
  ar_Action : AdmissionAction;
  ar_Kind : string;
  ar_Group : string;
  ar_Version : string;
  ar_UserInfo : AdmissionUserInfo;
  ar_Object : Obj;
  ar_OldObject : Obj;
}.

Record MutatingResponse := mkMutatingResponse { mr_UpdatedObject : Obj }.

(** The interface [AdmissionError]: [err.(resource.AdmissionError)], with its status code
    and reason.  The assertion looks at the error itself, not at what it wraps. *)
Definition AsAdmissionError (err : GoError) : option (Z * string) :=
  match err with
  | SimpleAdmissionError _ statusCode reason => Some (statusCode, reason)
  | _ => None
  end.

Section Controllers.
Context (W : Type).

Definition ValidatingAdmissionController : Type :=
  AdmissionRequest → MP W (option GoError).

Definition MutatingAdmissionController : Type :=
  AdmissionRequest → MP W (option MutatingResponse * option GoError).
End Controllers.

Section Simple.
Context {W : Type}.

(** [SimpleValidatingAdmissionController.Validate], of its [ValidateFunc]. *)
Definition SimpleValidatingAdmissionController (ValidateFunc : option (ValidatingAdmissionController W))
  : ValidatingAdmissionController W := λ request,
  match ValidateFunc with
  | Some f => f request
  | None => returns None
  end.

(** [SimpleMutatingAdmissionController.Mutate], of its [MutateFunc]. *)
Definition SimpleMutatingAdmissionController (MutateFunc : option (MutatingAdmissionController W))
  : MutatingAdmissionController W := λ request,
  match MutateFunc with
  | Some f => f request
  | None => returns (None, None)
  end.
End Simple.

(** ** [k8s/admission.go] *)
Definition ErrReasonFieldNotAllowed : string := "field_not_allowed".
Definition annotationCreatedBy : string := "createdBy".
Definition annotationUpdatedBy : string := "updatedBy".
Definition annotationUpdateTimestamp : string := "updateTimestamp".
Definition AnnotationPrefix : string := "grafana.com/".
Definition versionLabel : string := "grafana-app-sdk-resource-version".

(** [NewAdmissionError] *)
Definition NewAdmissionError (err : GoError) (statusCode : Z) (reason : string) : GoError :=
  SimpleAdmissionError err statusCode reason.

Definition makeAnnotationError (annotation : string) : GoError :=
  ErrorString ("cannot set /metadata/annotations/" +:+ AnnotationPrefix +:+ annotation).

Definition field_not_allowed (annotation : string) : GoError :=
  NewAdmissionError (makeAnnotationError annotation) 400 ErrReasonFieldNotAllowed.

(** The changes [OpinionatedMutatingAdmissionController.Mutate] makes to the metadata. *)
Definition with_label (k v : string) (m : CommonMetadata) : CommonMetadata :=
  mkCommonMetadata (cm_UID m) (cm_ResourceVersion m) (cm_Generation m) (<[k := v]> (cm_Labels m))
    (cm_CreationTimestamp m) (cm_DeletionTimestamp m) (cm_Finalizers m) (cm_UpdateTimestamp m)
    (cm_CreatedBy m) (cm_UpdatedBy m) (cm_ExtraFields m).

Definition created_by (user : string) (m : CommonMetadata) : CommonMetadata :=
  mkCommonMetadata (cm_UID m) (cm_ResourceVersion m) (cm_Generation m) (cm_Labels m)
    (cm_CreationTimestamp m) (cm_DeletionTimestamp m) (cm_Finalizers m) (cm_CreationTimestamp m)
    user (cm_UpdatedBy m) (cm_ExtraFields m).

Definition updated_by (user : string) (t : Z) (m : CommonMetadata) : CommonMetadata :=
  mkCommonMetadata (cm_UID m) (cm_ResourceVersion m) (cm_Generation m) (cm_Labels m)
    (cm_CreationTimestamp m) (cm_DeletionTimestamp m) (cm_Finalizers m) t
    (cm_CreatedBy m) user (cm_ExtraFields m).

(** The zero [time.Time]; times are nanoseconds from it. *)
Definition zero_time : Z := 0.

(** [time.Time] is a struct, and [!=] compares its fields: besides the instant, whether it
    carries a reading of the monotonic clock, and the pointer to its [Location], which is
    nil (0) for UTC.  [Time.Equal] would compare the instants. *)
Record Time := mkTime {
  t_instant : Z;
  t_monotonic : option Z;
  t_loc : nat;
}.

#[export] Instance Time_eq_dec : EqDecision Time.
Proof. solve_decision. Defined.

(** [time.Time{}] *)
Definition emptyTime : Time := mkTime zero_time None 0.

(** What [GetCommonMetadata().UpdateTimestamp] holds besides the instant, for the object and
    for the old object of a request.  The objects of the SDK parse it out of an annotation at
    each call, and [time.Parse] allocates a [Location] for most offsets that are not the
    local one. *)
Class UpdateTimes (W : Type) := {
  new_time_rest : Ref → W → option Z * nat;
  old_time_rest : Ref → W → option Z * nat;
}.

(** [cmd.UpdateTimestamp] *)
Definition update_time (m : CommonMetadata) (rest : option Z * nat) : Time :=
  mkTime (cm_UpdateTimestamp m) rest.1 rest.2.

Section Opinionated.
Context {W : Type} `{WW : !World W} `{MM : !Memory W} `{UT : !UpdateTimes W}.

(** [object.GetCommonMetadata()]: a nil-pointer panic when there is no object. *)
Definition metadata_of (o : Obj) : MP W CommonMetadata :=
  match o with
  | None => panic
  | Some r => calls (gets (λ σ, GetCommonMetadata (deref r σ)))
  end.

(** The response of the underlying controller, if there is one. *)
Definition underlying_Mutate (Underlying : option (MutatingAdmissionController W))
  : MutatingAdmissionController W := λ request,
  match Underlying with
  | Some c => c request
  | None => returns (None, None)
  end.

(** The operation-based changes. *)
Definition stamp (request : AdmissionRequest) (cmd : CommonMetadata) : M W CommonMetadata :=
  if String.eqb (ar_Action request) AdmissionActionCreate then
    ret (created_by (ui_Username (ar_UserInfo request)) cmd)
  else if String.eqb (ar_Action request) AdmissionActionUpdate then
    let* t := Now in ret (updated_by (ui_Username (ar_UserInfo request)) t cmd)
  else ret cmd.

(** [OpinionatedMutatingAdmissionController.Mutate] *)
Definition OpinionatedMutate (Underlying : option (MutatingAdmissionController W))
  : MutatingAdmissionController W := λ request,
  let! '(resp, err) := underlying_Mutate Underlying request in
  match err with
  | Some e => returns (resp, Some e)
  | None =>
      let resp :=
        match resp with
        | Some (mkMutatingResponse (Some o)) => mkMutatingResponse (Some o)
        | _ => mkMutatingResponse (ar_Object request)
        end in
      let! cmd := metadata_of (mr_UpdatedObject resp) in
      let! cmd := calls (stamp request (with_label versionLabel (ar_Version request) cmd)) in
      match mr_UpdatedObject resp with
      | None => panic
      | Some o => calls (update_ref o (with_CommonMetadata cmd) ;;; ret (Some resp, None))
      end
  end.

(** The checks of [OpinionatedValidatingAdmissionController.Validate], in their order. *)
Definition check_create (user : string) (m : CommonMetadata) (updated : Time) : option GoError :=
  if negb (String.eqb (cm_CreatedBy m) "") && negb (String.eqb (cm_CreatedBy m) user) then
    Some (field_not_allowed annotationCreatedBy)
  else if negb (String.eqb (cm_UpdatedBy m) "") && negb (String.eqb (cm_UpdatedBy m) user) then
    Some (field_not_allowed annotationUpdatedBy)
  else if bool_decide (updated ≠ emptyTime) then
    Some (field_not_allowed annotationUpdateTimestamp)
  else None.

Definition check_update (user : string) (m old : CommonMetadata) (updated old_updated : Time)
  : option GoError :=
  if negb (String.eqb (cm_CreatedBy m) (cm_CreatedBy old)) then
    Some (field_not_allowed annotationCreatedBy)
  else if negb (String.eqb (cm_UpdatedBy m) (cm_UpdatedBy old)) &&
          negb (String.eqb (cm_UpdatedBy m) user) then
    Some (field_not_allowed annotationUpdatedBy)
  else if bool_decide (updated ≠ old_updated) then
    Some (field_not_allowed annotationUpdateTimestamp)
  else None.

(** The [UpdateTimestamp] of the object and of the old object of a request. *)
Definition time_of (rest : Ref → W → option Z * nat) (o : Obj) : MP W Time :=
  match o with
  | None => panic
  | Some r => calls (gets (λ σ, update_time (GetCommonMetadata (deref r σ)) (rest r σ)))
  end.

Definition check_metadata (request : AdmissionRequest) : MP W (option GoError) :=
  let user := ui_Username (ar_UserInfo request) in
  if String.eqb (ar_Action request) AdmissionActionCreate then
    let! m := metadata_of (ar_Object request) in
    let! updated := time_of new_time_rest (ar_Object request) in
    returns (check_create user m updated)
  else if String.eqb (ar_Action request) AdmissionActionUpdate then
    let! m := metadata_of (ar_Object request) in
    let! old := metadata_of (ar_OldObject request) in
    let! updated := time_of new_time_rest (ar_Object request) in
    let! old_updated := time_of old_time_rest (ar_OldObject request) in
    returns (check_update user m old updated old_updated)
  else returns None.

(** [OpinionatedValidatingAdmissionController.Validate] *)
Definition OpinionatedValidate (Underlying : option (ValidatingAdmissionController W))
  : ValidatingAdmissionController W := λ request,
  let! err := check_metadata request in
  match err with
  | Some e => returns (Some e)
  | None =>
      match Underlying with
      | Some c => c request
      | None => returns None
      end
  end.

(** ** What the opinionated controllers do *)
Lemma metadata_of_run {B} r (k : CommonMetadata → MP W B) σ :
  (let! m := metadata_of (Some r) in k m) σ = k (GetCommonMetadata (deref r σ)) σ.
Proof. done. Qed.

Lemma time_of_run {B} rest r (k : Time → MP W B) σ :
  (let! t := time_of rest (Some r) in k t) σ =
  k (update_time (GetCommonMetadata (deref r σ)) (rest r σ)) σ.
Proof. done. Qed.

(** The rules for the metadata kept in annotations.  At a creation: the creator and the
    updater may be set to the user of the request only, and the time of the update not at
    all.  At an update: the creator has to stay, the updater may change to the user of the
    request only, and the time of the update has to be the same struct. *)
Definition create_ok (user : string) (m : CommonMetadata) (updated : Time) : Prop :=
  (cm_CreatedBy m = "" ∨ cm_CreatedBy m = user) ∧
  (cm_UpdatedBy m = "" ∨ cm_UpdatedBy m = user) ∧ updated = emptyTime.

Definition update_ok (user : string) (m old : CommonMetadata) (updated old_updated : Time) : Prop :=
  cm_CreatedBy m = cm_CreatedBy old ∧
  (cm_UpdatedBy m = cm_UpdatedBy old ∨ cm_UpdatedBy m = user) ∧ updated = old_updated.

Definition protected_ok (request : AdmissionRequest) (σ : W) (r old : Ref) : Prop :=
  let user := ui_Username (ar_UserInfo request) in
  let m := GetCommonMetadata (deref r σ) in
  let mo := GetCommonMetadata (deref old σ) in
  (ar_Action request = AdmissionActionCreate →
     create_ok user m (update_time m (new_time_rest r σ))) ∧
  (ar_Action request = AdmissionActionUpdate →
     update_ok user m mo (update_time m (new_time_rest r σ)) (update_time mo (old_time_rest old σ))).

Definition field_error (e : GoError) : Prop := ∃ annotation, e = field_not_allowed annotation.

Lemma check_create_spec user m t :
  match check_create user m t with
  | None => create_ok user m t
  | Some e => field_error e ∧ ¬ create_ok user m t
  end.
Proof.
  unfold check_create, field_error, create_ok.
  destruct (String.eqb_spec (cm_CreatedBy m) ""), (String.eqb_spec (cm_CreatedBy m) user),
    (String.eqb_spec (cm_UpdatedBy m) ""), (String.eqb_spec (cm_UpdatedBy m) user),
    (decide (t = emptyTime)); simpl;
    rewrite ?bool_decide_false, ?bool_decide_true by tauto;
    first [tauto | split; [eauto | tauto]].
Qed.

Lemma check_update_spec user m old t t_old :
  match check_update user m old t t_old with
  | None => update_ok user m old t t_old
  | Some e => field_error e ∧ ¬ update_ok user m old t t_old
  end.
Proof.
  unfold check_update, field_error, update_ok.
  destruct (String.eqb_spec (cm_CreatedBy m) (cm_CreatedBy old)),
    (String.eqb_spec (cm_UpdatedBy m) (cm_UpdatedBy old)),
    (String.eqb_spec (cm_UpdatedBy m) user), (decide (t = t_old)); simpl;
    rewrite ?bool_decide_false, ?bool_decide_true by tauto;
    first [tauto | split; [eauto | tauto]].
Qed.

(** A request with the objects its action promises. *)
Definition has_objects (request : AdmissionRequest) (r old : Ref) : Prop :=
  ar_Object request = Some r ∧
  (ar_Action request = AdmissionActionUpdate → ar_OldObject request = Some old).

Lemma check_metadata_spec request r old σ :
  has_objects request r old →
  ∃ err, check_metadata request σ = (Returned err, σ) ∧
    match err with
    | None => protected_ok request σ r old
    | Some e => field_error e ∧ ¬ protected_ok request σ r old
    end.
Proof.
  intros [Hr Ho]. unfold check_metadata, protected_ok. rewrite Hr.
  destruct (String.eqb_spec (ar_Action request) AdmissionActionCreate) as [E|E].
  { rewrite metadata_of_run, time_of_run. eexists; split; [done|].
    pose proof (check_create_spec (ui_Username (ar_UserInfo request)) (GetCommonMetadata (deref r σ))
      (update_time (GetCommonMetadata (deref r σ)) (new_time_rest r σ))) as H.
    rewrite E. destruct (check_create _ _ _); [split; [tauto|] | split; [tauto | done]].
    intros [H1 _]. by apply H, H1. }
  destruct (String.eqb_spec (ar_Action request) AdmissionActionUpdate) as [E'|E'].
  { rewrite (Ho E'), !metadata_of_run, !time_of_run. eexists; split; [done|].
    pose proof (check_update_spec (ui_Username (ar_UserInfo request)) (GetCommonMetadata (deref r σ))
      (GetCommonMetadata (deref old σ))
      (update_time (GetCommonMetadata (deref r σ)) (new_time_rest r σ))
      (update_time (GetCommonMetadata (deref old σ)) (old_time_rest old σ))) as H.
    rewrite E'. destruct (check_update _ _ _ _ _); [split; [tauto|] | split; [done | tauto]].
    intros [_ H1]. by apply H, H1. }
  exists None. split; [done|]. by split.
Qed.

(** How the checks decide. *)
Lemma OpinionatedValidate_run (Underlying : option (ValidatingAdmissionController W)) request r old σ :
  has_objects request r old →
  (protected_ok request σ r old →
     OpinionatedValidate Underlying request σ =
       match Underlying with Some c => c request σ | None => (Returned None, σ) end) ∧
  (¬ protected_ok request σ r old →
     ∃ annotation, OpinionatedValidate Underlying request σ =
       (Returned (Some (field_not_allowed annotation)), σ)).
Proof.
  intros H. destruct (check_metadata_spec request r old σ H) as (err & E & Herr).
  unfold OpinionatedValidate. rewrite (returns_run _ _ _ _ _ E).
  destruct err as [e|]; (split; [intros Hok | intros Hno]); try tauto.
  - destruct Herr as [[annotation ->] _]. by exists annotation.
  - by destruct Underlying.
Qed.

(** The object after [OpinionatedMutate], without an underlying controller. *)
Definition stamped (request : AdmissionRequest) (t : Z) (m : CommonMetadata) : CommonMetadata :=
  let m := with_label versionLabel (ar_Version request) m in
  if String.eqb (ar_Action request) AdmissionActionCreate then
    created_by (ui_Username (ar_UserInfo request)) m
  else if String.eqb (ar_Action request) AdmissionActionUpdate then
    updated_by (ui_Username (ar_UserInfo request)) t m
  else m.
End Opinionated.

Section Mutation.
Context {W : Type} `{WW : !World W} `{MM : !Memory W}.

Lemma stamp_run request m σ t σ2 :
  (if String.eqb (ar_Action request) AdmissionActionUpdate then Now σ else (zero_time, σ)) = (t, σ2) →
  stamp request (with_label versionLabel (ar_Version request) m) σ = (stamped request t m, σ2).
Proof.
  unfold stamp, stamped.
  destruct (String.eqb_spec (ar_Action request) AdmissionActionCreate) as [->|]; [by intros [= <- <-]|].
  destruct (String.eqb (ar_Action request) AdmissionActionUpdate).
  - intros E. by rewrite (bind_run _ _ _ _ _ E).
  - by intros [= <- <-].
Qed.

(** What [OpinionatedMutate] does after the underlying controller has answered with an
    object: it stamps the object's metadata. *)
Lemma OpinionatedMutate_run (Underlying : option (MutatingAdmissionController W)) request resp r σ σ1 :
  underlying_Mutate Underlying request σ = (Returned (resp, None), σ1) →
  Some r = match resp with
           | Some (mkMutatingResponse (Some o)) => Some o
           | _ => ar_Object request
           end →
  ∃ t σ2, (t, σ2) = (if String.eqb (ar_Action request) AdmissionActionUpdate
                     then Now σ1 else (zero_time, σ1)) ∧
    OpinionatedMutate Underlying request σ =
      (Returned (Some (mkMutatingResponse (Some r)), None),
       store r (with_CommonMetadata (stamped request t (GetCommonMetadata (deref r σ1)))
                  (deref r σ2)) σ2).
Proof.
  intros Hu Hr. destruct (if String.eqb _ _ then _ else _) as [t σ2] eqn:E.
  exists t, σ2. split; [done|]. unfold OpinionatedMutate. rewrite (returns_run _ _ _ _ _ Hu).
  cbv beta iota. set (resp' := match resp with Some _ => _ | None => _ end).
  assert (resp' = mkMutatingResponse (Some r)) as ->
    by (subst resp'; destruct resp as [[[o|]]|]; by rewrite Hr).
  cbn [mr_UpdatedObject]. rewrite metadata_of_run. by rewrite (calls_run _ _ _ _ _ (stamp_run _ _ _ _ _ E)).
Qed.
End Mutation.

(** ** Instances for the witnesses *)
#[export] Program Instance TestWorld_Memory : Memory TestWorld := {
  store r o σ := mkTestWorld (tw_now σ) (<[r := o]> (tw_objects σ)) (tw_log σ);
}.
Next Obligation. intros r o σ. simpl. by rewrite lookup_insert_eq. Qed.
Next Obligation. intros r r' o σ Hne. simpl. by rewrite lookup_insert_ne. Qed.

(** Times in UTC, without clock readings. *)
#[export] Instance TestWorld_UpdateTimes : UpdateTimes TestWorld := {
  new_time_rest _ _ := (None, 0%nat);
  old_time_rest _ _ := (None, 0%nat);
}.

Definition saved_by (user : string) (t : Z) : Object :=
  mkObject (mkStaticMetadata "g" "v1" "Foo" "ns" "a")
    (mkCommonMetadata "" "1" 1 ∅ 5 None [] t user user ∅) "".

Definition update_request : AdmissionRequest :=
  mkAdmissionRequest AdmissionActionUpdate "Foo" "g" "v1" (mkAdmissionUserInfo "ann" "" [] None)
    (Some 1%nat) (Some 0%nat).

Definition update_world : TestWorld :=
  mkTestWorld 100 {[ 0%nat := saved_by "ann" 7; 1%nat := saved_by "ann" 7 ]} [].

(** ** Properties *)

(** C24: [OpinionatedValidate] lets a request reach the underlying controller exactly when its
    protected metadata is in order; otherwise it rejects the request with a field error and
    changes nothing.  In order means: at a creation, a creator and an updater that are empty
    or the user of the request, and the zero [time.Time] as the time of the update; at an
    update, the creator of the old object (a comment in the code would also allow the user of
    the request), its updater or the user of the request, and the very struct that the old
    object's time of the update is: its instant, clock reading and [Location] pointer; any
    metadata with the other actions. *)
Theorem OpinionatedValidate_decides {W} `{WW : !World W, UT : !UpdateTimes W} Underlying request r old
    (σ : W) :
  has_objects request r old →
  (protected_ok request σ r old →
     OpinionatedValidate Underlying request σ =
       match Underlying with Some c => c request σ | None => (Returned None, σ) end) ∧
  (¬ protected_ok request σ r old →
     ∃ annotation, OpinionatedValidate Underlying request σ =
       (Returned (Some (field_not_allowed annotation)), σ)).
Proof. apply OpinionatedValidate_run. Qed.

Lemma OpinionatedValidate_decides_witness :
  has_objects update_request 1 0 ∧ protected_ok update_request update_world 1 0 ∧
  OpinionatedValidate None update_request update_world = (Returned None, update_world).
Proof.
  split; [done|]. assert (protected_ok update_request update_world 1 0) as Hok
    by (split; [done | intros _; split; [done | split; [by left | done]]]).
  split; [exact Hok|].
  destruct (OpinionatedValidate_decides None update_request 1 0 update_world ltac:(done)) as [H _].
  by apply H.
Defined.

(** A comment in the code says that an update may set the creator to the user of the request;
    it may not. *)
Theorem creator_may_not_be_set {W} `{WW : !World W, UT : !UpdateTimes W} Underlying request r old
    (σ : W) :
  has_objects request r old → ar_Action request = AdmissionActionUpdate →
  cm_CreatedBy (GetCommonMetadata (deref old σ)) = "" →
  cm_CreatedBy (GetCommonMetadata (deref r σ)) = ui_Username (ar_UserInfo request) →
  ui_Username (ar_UserInfo request) ≠ "" →
  ∃ annotation, OpinionatedValidate Underlying request σ =
    (Returned (Some (field_not_allowed annotation)), σ).
Proof.
  intros H Ha Ho Hn Hu. apply (OpinionatedValidate_run _ _ _ _ _ H).
  intros [_ (E & _)]; [done|]. congruence.
Qed.

(** An update that leaves all metadata as it is fails when the time of the update is parsed
    into different [Location]s for the two objects, as for the offset [+05:30]. *)
Theorem same_instant_rejected {W} `{WW : !World W, UT : !UpdateTimes W} Underlying request r old
    (σ : W) :
  has_objects request r old → ar_Action request = AdmissionActionUpdate →
  (new_time_rest r σ).2 ≠ (old_time_rest old σ).2 →
  ∃ annotation, OpinionatedValidate Underlying request σ =
    (Returned (Some (field_not_allowed annotation)), σ).
Proof.
  intros H Ha Hl. apply (OpinionatedValidate_run _ _ _ _ _ H).
  intros [_ (_ & _ & E)]; [done|]. by injection E.
Qed.

(** The two opinionated controllers do not work together: the object of an update, as
    [OpinionatedMutate] has stamped it, is rejected by [OpinionatedValidate], whatever the
    user changed. *)
Theorem opinionated_update_rejected {W} `{WW : !World W, MM : !Memory W, UT : !UpdateTimes W} Underlying request r old
    (σ σ1 : W) t :
  ar_Action request = AdmissionActionUpdate → ar_Object request = Some r →
  ar_OldObject request = Some old → r ≠ old →
  Now σ = (t, σ1) → t ≠ cm_UpdateTimestamp (GetCommonMetadata (deref old σ1)) →
  ∃ σ2 annotation,
    OpinionatedMutate None request σ = (Returned (Some (mkMutatingResponse (Some r)), None), σ2) ∧
    OpinionatedValidate Underlying request σ2 =
      (Returned (Some (field_not_allowed annotation)), σ2).
Proof.
  intros Ha Hr Ho Hne Hnow Ht.
  destruct (OpinionatedMutate_run None request None r σ σ) as (t' & σ2 & E & Hm); [done|by rewrite Hr|].
  rewrite Ha in E. change (String.eqb _ _) with true in E. rewrite Hnow in E.
  injection E as -> ->. eexists. rewrite Hm.
  destruct (OpinionatedValidate_run Underlying request r old
    (store r (with_CommonMetadata (stamped request t (GetCommonMetadata (deref r σ))) (deref r σ1)) σ1))
    as [_ [annotation Hv]]; [by split | | by exists annotation].
  intros [_ H]. specialize (H Ha) as (_ & _ & H). apply (f_equal t_instant) in H. simpl in H.
  rewrite deref_store_eq, deref_store_ne in H by done. revert H. unfold stamped. rewrite Ha. exact Ht.
Qed.

Lemma opinionated_update_rejected_witness :
  ∃ σ2 annotation,
    OpinionatedMutate None update_request update_world =
      (Returned (Some (mkMutatingResponse (Some 1%nat)), None), σ2) ∧
    OpinionatedValidate None update_request σ2 = (Returned (Some (field_not_allowed annotation)), σ2).
Proof. by eapply (opinionated_update_rejected None update_request 1 0 update_world). Defined.
