(* ===== verification/Webhooks.v ===== *)
(** * The webhook server ([k8s/webhooks.go], the admission part of [k8s/translation.go])

    The three HTTP handlers as functions of a request's method and body to the status code
    and body they write; a nil-pointer panic, from which [net/http] recovers by dropping the
    connection, is an outcome.  The decoding and encoding of reviews, JSON patches, and the
    names of group, version and kind are library code, given as classes. *)
From S2P Require Import Prelude GoValues Resource ResourceWatcher Schema Client Concrete Admission.

#[local] Open Scope string_scope.
#[local] Open Scope list_scope.

(** ** The data of the Kubernetes libraries *)

(** [metav1.GroupVersionKind], [schema.GroupVersionKind] *)
Record GVK := mkGVK { g_Group : string; g_Version : string; g_Kind : string }.

#[export] Instance GVK_eq_dec : EqDecision GVK.
Proof. solve_decision. Defined.

(** [metav1.TypeMeta] *)
Record TypeMeta := mkTypeMeta { tm_Kind : string; tm_APIVersion : string }.

(** [admission.AdmissionRequest], the fields the handlers read. *)
Record K8sAdmissionRequest := mkK8sAdmissionRequest {
  kr_UID : string;
  kr_Kind : GVK;
  kr_RequestKind : option GVK;
  kr_Operation : string;
  kr_UserInfo : AdmissionUserInfo;
  kr_Object : string;
  kr_OldObject : string;
}.

(** [metav1.Status] of a response. *)
Record ResultStatus := mkResultStatus {
  rs_Status : string;
  rs_Message : string;
  rs_Code : Z;
  rs_Reason : string;
}.

Record AdmissionResponse := mkAdmissionResponse {
  rp_UID : string;
  rp_Allowed : bool;
  rp_Result : option ResultStatus;
  rp_Patch : option string;
  rp_PatchType : option string;
}.

Record AdmissionReview := mkAdmissionReview {
  rev_TypeMeta : TypeMeta;
  rev_Request : option K8sAdmissionRequest;
  rev_Response : option AdmissionResponse;
}.

Record ConversionRequest := mkConversionRequest {
  cq_UID : string;
  cq_DesiredAPIVersion : string;
  cq_Objects : list string;
}.

Record ConversionResponse := mkConversionResponse {
  cp_UID : string;
  cp_ConvertedObjects : list string;
  cp_Result : ResultStatus;
}.

Record ConversionReview := mkConversionReview {
  cv_TypeMeta : TypeMeta;
  cv_Request : option ConversionRequest;
  cv_Response : option ConversionResponse;
}.

(** [encoding/json] at these types. *)
Class ReviewJSON := {
  unmarshal_AdmissionReview : string → AdmissionReview + GoError;
  marshal_AdmissionReview : AdmissionReview → string + GoError;
  unmarshal_ConversionReview : string → ConversionReview + GoError;
  marshal_ConversionReview : ConversionReview → string + GoError;
  unmarshal_TypeMeta : string → TypeMeta + GoError;
}.

(** [jsonpatch.CreatePatch], and the JSON of a patch. *)
Class JsonPatch := {
  CreatePatch : string → string → string + GoError;
}.

(** Methods of [k8s.io/apimachinery] on names of kinds. *)
Class KindNames := {
  metav1_String : GVK → string;
  schema_String : GVK → string;
  FromAPIVersionAndKind : string → string → GVK;
  ToAPIVersionAndKind : GVK → string * string;
  GroupKind_String : string → string → string;
}.

(** What names are made of: a group is a domain name, a version and a kind are
    identifiers. *)
Definition valid_kind (k : string) : Prop :=
  k ≠ "" ∧ free_of "/" k = true ∧ free_of "." k = true ∧ free_of "," k = true ∧ free_of "|" k = true.
Definition valid_group (g : string) : Prop :=
  free_of "/" g = true ∧ free_of "," g = true ∧ free_of "|" g = true.
Definition valid_version (v : string) : Prop :=
  v ≠ "" ∧ free_of "/" v = true ∧ free_of "," v = true ∧ free_of "|" v = true.
Definition valid_gvk (k : GVK) : Prop :=
  valid_group (g_Group k) ∧ valid_version (g_Version k) ∧ valid_kind (g_Kind k).

(** Their documented behaviour on such names: strings tell kinds apart, and the API version
    of a kind reads back. *)
Class KindNamesLaws `{KN : !KindNames} := {
  metav1_String_inj k1 k2 :
    valid_gvk k1 → valid_gvk k2 → metav1_String k1 = metav1_String k2 → k1 = k2;
  schema_String_inj k1 k2 :
    valid_gvk k1 → valid_gvk k2 → schema_String k1 = schema_String k2 → k1 = k2;
  schema_String_not_empty k : schema_String k ≠ "";
  GroupKind_String_inj g1 k1 g2 k2 :
    valid_kind k1 → valid_kind k2 → GroupKind_String g1 k1 = GroupKind_String g2 k2 →
    g1 = g2 ∧ k1 = k2;
  FromTo k : valid_gvk k →
    FromAPIVersionAndKind (ToAPIVersionAndKind k).1 (ToAPIVersionAndKind k).2 = k;
  ToAPIVersionAndKind_kind k : valid_gvk k → (ToAPIVersionAndKind k).2 = g_Kind k;
}.

(** ** [k8s/conversion.go] *)
Record RawKind := mkRawKind {
  raw_Kind : string;
  raw_APIVersion : string;
  raw_Group : string;
  raw_Version : string;
  raw_Raw : string;
}.

(** The interface [Converter] has one method. *)
Definition Converter (W : Type) : Type := RawKind → string → MP W (string * option GoError).

(** ** The server *)
Record TLSConfig := mkTLSConfig { CertPath : string; KeyPath : string }.

(** Go's [map[*resource.Kind]Controller] is the list of its entries, in the order in which
    they are ranged over; so is [map[metav1.GroupKind]Converter]. *)
Record WebhookServerConfig (W : Type) := mkWebhookServerConfig {
  wc_Port : Z;
  wc_TLSConfig : TLSConfig;
  wc_ValidatingControllers : list (Kind (W:=W) * option (ValidatingAdmissionController W));
  wc_MutatingControllers : list (Kind (W:=W) * option (MutatingAdmissionController W));
  wc_KindConverters : list ((string * string) * option (Converter W));
  wc_DefaultValidatingController : option (ValidatingAdmissionController W);
  wc_DefaultMutatingController : option (MutatingAdmissionController W);
}.

Record WebhookServer (W : Type) := mkWebhookServer {
  DefaultValidatingController : option (ValidatingAdmissionController W);
  DefaultMutatingController : option (MutatingAdmissionController W);
  validatingControllers : nmap (Kind (W:=W) * option (ValidatingAdmissionController W));
  mutatingControllers : nmap (Kind (W:=W) * option (MutatingAdmissionController W));
  converters : nmap (option (Converter W));
  ws_port : Z;
  ws_tlsConfig : TLSConfig;
}.
Arguments mkWebhookServer {W}.
Arguments wc_Port {W}.
Arguments wc_TLSConfig {W}.
Arguments wc_ValidatingControllers {W}.
Arguments wc_MutatingControllers {W}.
Arguments wc_KindConverters {W}.
Arguments wc_DefaultValidatingController {W}.
Arguments wc_DefaultMutatingController {W}.
Arguments DefaultValidatingController {W}.
Arguments DefaultMutatingController {W}.
Arguments validatingControllers {W}.
Arguments mutatingControllers {W}.
Arguments converters {W}.
Arguments ws_port {W}.
Arguments ws_tlsConfig {W}.

Definition gk (group kind : string) : string := kind +:+ "." +:+ group.

Definition gvk `{KN : !KindNames} (kind : GVK) : string := metav1_String kind.

(** [kind.Group()], [kind.Version()] and [kind.Kind()], promoted from the schema of the
    kind: they panic when it is nil. *)
Definition kind_gvk {W} (kind : Kind (W:=W)) : option GVK :=
  (λ s, mkGVK (Group s) (Version s) (Kind_ s)) <$> k_Schema kind.

(** An HTTP request: its method, and its body or the error of reading it. *)
Record HttpRequest := mkHttpRequest { http_Method : string; http_Body : string + GoError }.

Record HttpResponse := mkHttpResponse { http_Code : Z; http_Written : string }.

Definition http_error (code : Z) : HttpResponse := mkHttpResponse code "".

Section Server.
Context {W : Type} `{KN : !KindNames}.

(** [AddValidatingAdmissionController], [AddMutatingAdmissionController], [AddConverter] *)
Definition AddValidatingAdmissionController (controller : option (ValidatingAdmissionController W))
    (kind : Kind) (w : WebhookServer W) : called (WebhookServer W) :=
  match kind_gvk kind with
  | None => Panics
  | Some k => Returned
      (mkWebhookServer (DefaultValidatingController w) (DefaultMutatingController w)
         (Some (<[gvk k := (kind, controller)]> (items (validatingControllers w))))
         (mutatingControllers w) (converters w) (ws_port w) (ws_tlsConfig w))
  end.

Definition AddMutatingAdmissionController (controller : option (MutatingAdmissionController W))
    (kind : Kind) (w : WebhookServer W) : called (WebhookServer W) :=
  match kind_gvk kind with
  | None => Panics
  | Some k => Returned
      (mkWebhookServer (DefaultValidatingController w) (DefaultMutatingController w)
         (validatingControllers w)
         (Some (<[gvk k := (kind, controller)]> (items (mutatingControllers w))))
         (converters w) (ws_port w) (ws_tlsConfig w))
  end.

Definition AddConverter (converter : option (Converter W)) (group kind : string)
    (w : WebhookServer W) : WebhookServer W :=
  mkWebhookServer (DefaultValidatingController w) (DefaultMutatingController w)
    (validatingControllers w) (mutatingControllers w)
    (Some (<[gk group kind := converter]> (items (converters w)))) (ws_port w) (ws_tlsConfig w).

(** A loop of calls that may panic, over a value. *)
Definition loop {A S} (f : A → S → called S) (l : list A) (s : S) : called S :=
  fold_left (λ r x, match r with Returned s => f x s | Panics => Panics end) l (Returned s).

(** [NewWebhookServer] *)
Definition NewWebhookServer (config : WebhookServerConfig W)
  : called (WebhookServer W + GoError) :=
  if (wc_Port config <? 1)%Z || (65536 <? wc_Port config)%Z then
    Returned (inr (ErrorString "config.Port must be a valid port number (between 1 and 65536)"))
  else if String.eqb (CertPath (wc_TLSConfig config)) "" then
    Returned (inr (ErrorString "config.TLSConfig.CertPath is required"))
  else if String.eqb (KeyPath (wc_TLSConfig config)) "" then
    Returned (inr (ErrorString "config.TLSConfig.KeyPath is required"))
  else
    let ws := mkWebhookServer (wc_DefaultValidatingController config)
                (wc_DefaultMutatingController config) (Some ∅) (Some ∅) (Some ∅)
                (wc_Port config) (wc_TLSConfig config) in
    match loop (λ '(sch, c), AddValidatingAdmissionController c sch)
            (wc_ValidatingControllers config) ws with
    | Panics => Panics
    | Returned ws =>
        match loop (λ '(sch, c), AddMutatingAdmissionController c sch)
                (wc_MutatingControllers config) ws with
        | Panics => Panics
        | Returned ws =>
            Returned (inl (fold_left (λ ws '((g, k), conv), AddConverter conv g k ws)
                             (wc_KindConverters config) ws))
        end
    end.
End Server.

(** ** Errors of admission *)

(** [addAdmissionError], of an error. *)
Definition addAdmissionError (resp : AdmissionResponse) (err : option GoError)
  : AdmissionResponse :=
  match err with
  | None => resp
  | Some e =>
      let '(code, reason) :=
        match AsAdmissionError e with
        | Some (code, reason) => (int32 code, reason)
        | None => (0%Z, "")
        end in
      mkAdmissionResponse (rp_UID resp) false
        (Some (mkResultStatus "Failure" (Error e) code reason)) (rp_Patch resp) (rp_PatchType resp)
  end.

(** ** The handlers *)

(** The object the default controllers are given: a [TypedSpecObject[any]] with the codec
    of [encoding/json]. *)
Class DefaultObject (W : Type) := {
  do_Copy : Ref → M W Ref;
  do_CopyList : Ref → M W Ref;
  do_typeName : Ref → string;
  do_zero : Ref;
  do_zeroList : Ref;
  JSONCodec : Codec (W:=W);
}.

Definition KindEncodingJSON : string := "application/json".
Definition MethodPost : string := "POST".

Section Handlers.
Context {W : Type} `{KN : !KindNames, RJ : !ReviewJSON, JP : !JsonPatch, DO : !DefaultObject W}.

Definition default_kind (k : GVK) : Kind (W:=W) :=
  mkKind (Some (SimpleSchema_schema do_Copy do_CopyList
                  (NewSimpleSchema do_typeName (g_Group k) (g_Version k) do_zero do_zeroList
                     [WithKind (g_Kind k)])))
    (Some {[ KindEncodingJSON := Some JSONCodec ]}).

(** Decode an object of a request, if there is one. *)
Definition read_raw (sch : Kind (W:=W)) (raw : string) : MP W (Obj * option GoError) :=
  if String.eqb raw "" then returns (None, None)
  else
    let* r := Kind_Read sch raw KindEncodingJSON in
    match r with
    | None => panic
    | Some res => returns res
    end.

(** The actions of [admission.Operation]; an unknown one gives the empty action. *)
Definition translate_operation (op : string) : AdmissionAction :=
  if String.eqb op "CREATE" then AdmissionActionCreate
  else if String.eqb op "UPDATE" then AdmissionActionUpdate
  else if String.eqb op "DELETE" then AdmissionActionDelete
  else if String.eqb op "CONNECT" then AdmissionActionConnect
  else "".

Definition translated (req : K8sAdmissionRequest) (obj old : Obj) : AdmissionRequest :=
  mkAdmissionRequest (translate_operation (kr_Operation req)) (g_Kind (kr_Kind req))
    (g_Group (kr_Kind req)) (g_Version (kr_Kind req))
    (mkAdmissionUserInfo (ui_Username (kr_UserInfo req)) (ui_UID (kr_UserInfo req))
       (ui_Groups (kr_UserInfo req)) None) obj old.

(** [translateKubernetesAdmissionRequest] *)
Definition translateKubernetesAdmissionRequest (req : K8sAdmissionRequest) (sch : Kind (W:=W))
  : MP W (AdmissionRequest + GoError) :=
  let! '(obj, err) := read_raw sch (kr_Object req) in
  match err with
  | Some e => returns (inr e)
  | None =>
      let! '(old, err) := read_raw sch (kr_OldObject req) in
      match err with
      | Some e => returns (inr e)
      | None => returns (inl (translated req obj old))
      end
  end.

(** What both admission handlers begin with: the method, the body, the review.  A review
    without a request, or whose request has no [requestKind], is dereferenced. *)
Definition with_review (req : HttpRequest) (k : AdmissionReview → K8sAdmissionRequest → GVK → MP W HttpResponse)
  : MP W HttpResponse :=
  if negb (String.eqb (http_Method req) MethodPost) then returns (http_error 405)
  else
    match http_Body req with
    | inr _ => returns (http_error 400)
    | inl body =>
        match unmarshal_AdmissionReview body with
        | inr _ => returns (http_error 400)
        | inl admRev =>
            match rev_Request admRev with
            | None => panic
            | Some rq => match kr_RequestKind rq with
                         | None => panic
                         | Some kind => k admRev rq kind
                         end
            end
        end
    end.

(** And what they end with: the review with the response. *)
Definition write_review (admRev : AdmissionReview) (adResp : AdmissionResponse) : HttpResponse :=
  match marshal_AdmissionReview (mkAdmissionReview (rev_TypeMeta admRev) None (Some adResp)) with
  | inr e => mkHttpResponse 500 (Error e)
  | inl bytes => mkHttpResponse 200 bytes
  end.

Definition no_controller (verb : string) (kind : GVK) : HttpResponse :=
  mkHttpResponse 500 ("no " +:+ verb +:+ " admission controller defined for group '" +:+
    g_Group kind +:+ "' and kind '" +:+ g_Kind kind +:+ "'").

(** The lookup of the schema and the controller of a kind. *)
Definition find_controller {C} (controllers : nmap (Kind (W:=W) * option C)) (default : option C)
    (kind : GVK) : option (Kind (W:=W) * C) :=
  match items controllers !! gvk kind with
  | Some (schema, controller) => (schema,.) <$> controller
  | None => (default_kind kind,.) <$> default
  end.

Definition allowed (uid : string) : AdmissionResponse := mkAdmissionResponse uid true None None None.

(** [HandleValidateHTTP] *)
Definition HandleValidateHTTP (w : WebhookServer W) (req : HttpRequest) : MP W HttpResponse :=
  with_review req (λ admRev rq kind,
    match find_controller (validatingControllers w) (DefaultValidatingController w) kind with
    | None => returns (no_controller "validating" kind)
    | Some (schema, controller) =>
        let! admReq := translateKubernetesAdmissionRequest rq schema in
        match admReq with
        | inr _ => returns (http_error 400)
        | inl admReq =>
            let! err := controller admReq in
            returns (write_review admRev (addAdmissionError (allowed (kr_UID rq)) err))
        end
    end).

(** [generatePatch] *)
Definition generatePatch (rq : K8sAdmissionRequest) (alteredObject : Ref)
    (codec : option (Codec (W:=W))) : MP W (string + GoError) :=
  match codec with
  | None => panic
  | Some codec =>
      let! '(bytes, err) := calls (codec_Write codec (Some alteredObject)) in
      match err with
      | Some e => returns (inr e)
      | None => returns (CreatePatch (kr_Object rq) bytes)
      end
  end.

Definition PatchTypeJSONPatch : string := "JSONPatch".

(** The patch of a mutation, and the error of making it. *)
Definition with_patch (rq : K8sAdmissionRequest) (schema : Kind (W:=W))
    (mResp : option MutatingResponse) (err : option GoError) : MP W (AdmissionResponse * option GoError) :=
  match err, mResp with
  | None, Some (mkMutatingResponse (Some o)) =>
      let! p := generatePatch rq o (Kind_Codec schema KindEncodingJSON) in
      match p with
      | inl patch =>
          returns (mkAdmissionResponse (kr_UID rq) true None (Some patch) (Some PatchTypeJSONPatch), None)
      | inr e =>
          returns (mkAdmissionResponse (kr_UID rq) true None None (Some PatchTypeJSONPatch), Some e)
      end
  | _, _ => returns (allowed (kr_UID rq), err)
  end.

(** [HandleMutateHTTP] *)
Definition HandleMutateHTTP (w : WebhookServer W) (req : HttpRequest) : MP W HttpResponse :=
  with_review req (λ admRev rq kind,
    match find_controller (mutatingControllers w) (DefaultMutatingController w) kind with
    | None => returns (no_controller "mutating" kind)
    | Some (schema, controller) =>
        let! admReq := translateKubernetesAdmissionRequest rq schema in
        match admReq with
        | inr _ => returns (http_error 400)
        | inl admReq =>
            let! '(mResp, err) := controller admReq in
            let! '(adResp, err) := with_patch rq schema mResp err in
            returns (write_review admRev (addAdmissionError adResp err))
        end
    end).

(** ** Conversion *)
Definition success : ResultStatus := mkResultStatus "Success" "" 200 "".

Definition failure (code : Z) (message : string) (r : ResultStatus) : ResultStatus :=
  mkResultStatus "Failure" message code (rs_Reason r).

Definition with_result (r : ResultStatus) (resp : ConversionResponse) : ConversionResponse :=
  mkConversionResponse (cp_UID resp) (cp_ConvertedObjects resp) r.

Definition add_converted (o : string) (resp : ConversionResponse) : ConversionResponse :=
  mkConversionResponse (cp_UID resp) (cp_ConvertedObjects resp ++ [o]) (cp_Result resp).

(** The response the handler starts from: the one of the review if it has one, with the
    request's UID and a success. *)
Definition prefilled (rev : ConversionReview) (rq : ConversionRequest) : ConversionResponse :=
  let resp := default (mkConversionResponse "" [] (mkResultStatus "" "" 0 "")) (cv_Response rev) in
  mkConversionResponse (cq_UID rq) (cp_ConvertedObjects resp)
    (mkResultStatus "Success" (rs_Message (cp_Result resp)) 200 (rs_Reason (cp_Result resp))).

(** The kind of a raw object, as it is given to a converter. *)
Definition raw_kind (tm : TypeMeta) (raw : string) : RawKind :=
  let k := FromAPIVersionAndKind (tm_APIVersion tm) (tm_Kind tm) in
  mkRawKind (tm_Kind tm) (tm_APIVersion tm) (g_Group k) (g_Version k) raw.

(** The conversion of one object: the bytes, or the code and message of the failure. *)
Definition convert_object (w : WebhookServer W) (target raw : string)
  : MP W (string + Z * string) :=
  match unmarshal_TypeMeta raw with
  | inr e => returns (inr (400%Z, Error e))
  | inl tm =>
      match items (converters w) !! gk (g_Group (FromAPIVersionAndKind (tm_APIVersion tm) (tm_Kind tm))) (tm_Kind tm) with
      | None => returns (inr (422%Z, "No converter registered for kind " +:+ tm_Kind tm))
      | Some None => panic
      | Some (Some conv) =>
          let! '(res, err) := conv (raw_kind tm raw) target in
          match err with
          | Some _ => returns (inr (500%Z, "Error converting object"))
          | None => returns (inl res)
          end
      end
  end.

(** [for _, obj := range rev.Request.Objects], which breaks at the first failure. *)
Fixpoint convert_objects (w : WebhookServer W) (target : string) (objects : list string)
    (resp : ConversionResponse) : MP W ConversionResponse :=
  match objects with
  | [] => returns resp
  | raw :: objects =>
      let! r := convert_object w target raw in
      match r with
      | inr (code, message) => returns (with_result (failure code message (cp_Result resp)) resp)
      | inl o => convert_objects w target objects (add_converted o resp)
      end
  end.

(** [HandleConvertHTTP] *)
Definition HandleConvertHTTP (w : WebhookServer W) (req : HttpRequest) : MP W HttpResponse :=
  if negb (String.eqb (http_Method req) MethodPost) then returns (http_error 405)
  else
    match http_Body req with
    | inr _ => returns (http_error 400)
    | inl body =>
        match unmarshal_ConversionReview body with
        | inr _ => returns (http_error 400)
        | inl rev =>
            match cv_Request rev with
            | None => panic
            | Some rq =>
                let! resp := convert_objects w (cq_DesiredAPIVersion rq) (cq_Objects rq) (prefilled rev rq) in
                match marshal_ConversionReview
                        (mkConversionReview (cv_TypeMeta rev) (cv_Request rev) (Some resp)) with
                | inr _ => returns (http_error 500)
                | inl bytes => returns (mkHttpResponse 200 bytes)
                end
            end
        end
    end.
End Handlers.

(** ** What the handlers do *)

(** A well-formed request for admission. *)
Definition reviewed `{RJ : !ReviewJSON} (req : HttpRequest) (admRev : AdmissionReview)
    (rq : K8sAdmissionRequest) (kind : GVK) : Prop :=
  http_Method req = MethodPost ∧
  (∃ body, http_Body req = inl body ∧ unmarshal_AdmissionReview body = inl admRev) ∧
  rev_Request admRev = Some rq ∧ kr_RequestKind rq = Some kind.

(** A patch does what it was made for: applied to the first document, it gives one with
    the JSON of the second. *)
Class JsonPatchLaws `{JP : !JsonPatch} := {
  apply_patch : string → string → option string;
  same_json : string → string → Prop;
  CreatePatch_applies a b p :
    CreatePatch a b = inl p → ∃ c, apply_patch a p = Some c ∧ same_json c b;
}.

Section Facts.
Context {W : Type} `{KN : !KindNames, RJ : !ReviewJSON, JP : !JsonPatch, DO : !DefaultObject W}.

Lemma with_review_run req admRev rq kind (k : AdmissionReview → K8sAdmissionRequest → GVK → MP W HttpResponse) :
  reviewed req admRev rq kind → with_review req k = k admRev rq kind.
Proof.
  intros (Hm & (body & Hb & Hu) & Hr & Hk). unfold with_review.
  by rewrite Hm, String.eqb_refl, Hb, Hu, Hr, Hk.
Qed.

(** A translated request names the [kind] of the request. *)
Lemma translate_names rq (schema : Kind (W:=W)) σ admReq σ' :
  translateKubernetesAdmissionRequest rq schema σ = (Returned (inl admReq), σ') →
  ar_Group admReq = g_Group (kr_Kind rq) ∧ ar_Version admReq = g_Version (kr_Kind rq) ∧
  ar_Kind admReq = g_Kind (kr_Kind rq).
Proof.
  unfold translateKubernetesAdmissionRequest, and_returns, bind, returns, ret.
  destruct (read_raw schema (kr_Object rq) σ) as [[[obj [e|]]|] σ1]; [done| |done].
  destruct (read_raw schema (kr_OldObject rq) σ1) as [[[old [e|]]|] σ2]; [done| |done].
  by intros [= <- _].
Qed.

(** A validation that finds its controller answers what the controller says. *)
Lemma HandleValidateHTTP_run (w : WebhookServer W) req admRev rq kind schema controller admReq err σ σ1 σ2 :
  reviewed req admRev rq kind →
  find_controller (validatingControllers w) (DefaultValidatingController w) kind = Some (schema, controller) →
  translateKubernetesAdmissionRequest rq schema σ = (Returned (inl admReq), σ1) →
  controller admReq σ1 = (Returned err, σ2) →
  HandleValidateHTTP w req σ =
    (Returned (write_review admRev (addAdmissionError (allowed (kr_UID rq)) err)), σ2).
Proof.
  intros Hrev Hf Ht Hc. unfold HandleValidateHTTP. rewrite (with_review_run _ _ _ _ _ Hrev), Hf.
  rewrite (returns_run _ _ _ _ _ Ht). by rewrite (returns_run _ _ _ _ _ Hc).
Qed.

Lemma HandleMutateHTTP_run (w : WebhookServer W) req admRev rq kind schema controller admReq mResp err σ σ1 σ2 :
  reviewed req admRev rq kind →
  find_controller (mutatingControllers w) (DefaultMutatingController w) kind = Some (schema, controller) →
  translateKubernetesAdmissionRequest rq schema σ = (Returned (inl admReq), σ1) →
  controller admReq σ1 = (Returned (mResp, err), σ2) →
  HandleMutateHTTP w req σ =
    (let! '(adResp, err) := with_patch rq schema mResp err in
     returns (write_review admRev (addAdmissionError adResp err))) σ2.
Proof.
  intros Hrev Hf Ht Hc. unfold HandleMutateHTTP. rewrite (with_review_run _ _ _ _ _ Hrev), Hf.
  rewrite (returns_run _ _ _ _ _ Ht). by rewrite (returns_run _ _ _ _ _ Hc).
Qed.

(** An object of a kind with a converter is given to it. *)
Lemma convert_object_found (w : WebhookServer W) target raw tm (conv : Converter W) :
  unmarshal_TypeMeta raw = inl tm →
  items (converters w) !! gk (g_Group (FromAPIVersionAndKind (tm_APIVersion tm) (tm_Kind tm))) (tm_Kind tm) =
    Some (Some conv) →
  convert_object w target raw =
    (let! '(res, err) := conv (raw_kind tm raw) target in
     match err with
     | Some _ => returns (inr (500%Z, "Error converting object"))
     | None => returns (inl res)
     end).
Proof.
  intros Hu E. unfold convert_object. rewrite Hu.
  destruct (items (converters w) !! _) as [c|] eqn:E2; [|by rewrite E in E2].
  by injection E as ->.
Qed.

(** All of these objects are converted, one after the other, to these bytes. *)
Inductive converted_all (w : WebhookServer W) (target : string)
  : list string → W → list string → W → Prop :=
| converted_none σ : converted_all w target [] σ [] σ
| converted_one raw objects o outs σ σ1 σ2 :
    convert_object w target raw σ = (Returned (inl o), σ1) →
    converted_all w target objects σ1 outs σ2 →
    converted_all w target (raw :: objects) σ (o :: outs) σ2.

(** How far the conversion got: to the end, or to the first object that failed. *)
Inductive conversion (w : WebhookServer W) (target : string) (objects : list string) (σ : W)
  : list string → ResultStatus → ResultStatus → W → Prop :=
| conversion_success outs r σ1 :
    converted_all w target objects σ outs σ1 →
    conversion w target objects σ outs r r σ1
| conversion_failure done raw rest outs code message r σ1 σ2 :
    objects = done ++ raw :: rest →
    converted_all w target done σ outs σ1 →
    convert_object w target raw σ1 = (Returned (inr (code, message)), σ2) →
    conversion w target objects σ outs r (failure code message r) σ2.

Lemma convert_objects_conversion w target objects resp σ resp' σ' :
  convert_objects w target objects resp σ = (Returned resp', σ') →
  ∃ outs, cp_ConvertedObjects resp' = cp_ConvertedObjects resp ++ outs ∧
    cp_UID resp' = cp_UID resp ∧
    conversion w target objects σ outs (cp_Result resp) (cp_Result resp') σ'.
Proof.
  revert resp σ. induction objects as [|raw objects IH]; intros resp σ; simpl.
  { intros [= <- <-]. exists []. rewrite app_nil_r. repeat split. by repeat constructor. }
  destruct (convert_object w target raw σ) as [[[o|[code message]]|] σ1] eqn:E.
  - rewrite (returns_run _ _ _ _ _ E). intros (outs & -> & -> & Hc)%IH. exists (o :: outs).
    simpl. rewrite <- app_assoc. split; [done|]. split; [done|].
    inversion Hc as [? ? ? Hall|done' raw' rest' ? code message ? ? ? -> Hall Hf]; subst.
    + constructor. by econstructor.
    + econstructor; [|by econstructor|done]. done.
  - rewrite (returns_run _ _ _ _ _ E). intros [= <- <-]. exists []. simpl.
    rewrite app_nil_r. split; [done|]. split; [done|].
    eapply (conversion_failure _ _ _ _ []); [done | constructor | done].
  - by rewrite (panics_run _ _ _ _ E).
Qed.
(** Converters that are not nil and return, with or without an error. *)
Definition converters_return (w : WebhookServer W) : Prop :=
  ∀ key c, items (converters w) !! key = Some c →
    ∃ conv, c = Some conv ∧ ∀ k t σ, ∃ r σ', conv k t σ = (Returned r, σ').

Lemma convert_object_returns w target raw σ :
  converters_return w → ∃ r σ', convert_object w target raw σ = (Returned r, σ').
Proof.
  intros Hw. unfold convert_object. destruct (unmarshal_TypeMeta raw) as [tm|e]; [|by eexists _, _].
  destruct (items (converters w) !! _) as [c|] eqn:E; [|by eexists _, _].
  destruct (Hw _ _ E) as (conv & -> & Hconv).
  destruct (Hconv (raw_kind tm raw) target σ) as ([res [e|]] & σ' & Ec);
    rewrite (returns_run _ _ _ _ _ Ec); by eexists _, _.
Qed.

Lemma convert_objects_returns w target objects resp σ :
  converters_return w → ∃ resp' σ', convert_objects w target objects resp σ = (Returned resp', σ').
Proof.
  intros Hw. revert resp σ. induction objects as [|raw objects IH]; intros resp σ; simpl; [by eexists _, _|].
  destruct (convert_object_returns w target raw σ Hw) as ([o|[code message]] & σ1 & E);
    rewrite (returns_run _ _ _ _ _ E); [apply IH | by eexists _, _].
Qed.
End Facts.

(** ** Instances for the witnesses *)
Definition test_String (k : GVK) : string :=
  g_Group k +:+ String "/" (g_Version k +:+ String "," (g_Kind k)).

Lemma test_String_inj k1 k2 :
  valid_gvk k1 → valid_gvk k2 → test_String k1 = test_String k2 → k1 = k2.
Proof.
  destruct k1 as [g1 v1 k1], k2 as [g2 v2 k2]. unfold test_String. simpl.
  intros ((Hg1 & _) & (_ & _ & Hv1 & _) & _) ((Hg2 & _) & (_ & _ & Hv2 & _) & _) E. simpl in *.
  apply separator_inj in E as [-> E]; [|done..]. by apply separator_inj in E as [-> ->].
Qed.

#[export] Instance TestKindNames : KindNames := {
  metav1_String := test_String;
  schema_String := test_String;
  FromAPIVersionAndKind v k :=
    match Split v "/" with
    | [v] => mkGVK "" v k
    | [g; v] => mkGVK g v k
    | _ => mkGVK "" "" k
    end;
  ToAPIVersionAndKind k :=
    (match g_Group k with
     | EmptyString => g_Version k
     | g => g +:+ String "/" (g_Version k)
     end, g_Kind k);
  GroupKind_String g k := match g with EmptyString => k | _ => k +:+ String "." g end;
}.

Lemma free_of_not_separated c s s1 s2 : free_of c s = true → s ≠ s1 +:+ String c s2.
Proof.
  intros H ->. rewrite free_of_app in H. simpl in H. rewrite Ascii.eqb_refl in H.
  by rewrite andb_false_r in H.
Qed.

#[export] Program Instance TestKindNamesLaws : KindNamesLaws.
Next Obligation. exact test_String_inj. Qed.
Next Obligation. exact test_String_inj. Qed.
Next Obligation. intros [g v k]. cbn. unfold test_String. simpl. by destruct g. Qed.
Next Obligation.
  intros g1 k1 g2 k2 (_ & _ & H1 & _) (_ & _ & H2 & _) E. simpl in E.
  destruct g1 as [|c1 g1], g2 as [|c2 g2]; simpl in E.
  - by subst.
  - by apply free_of_not_separated in E.
  - symmetry in E. by apply free_of_not_separated in E.
  - apply separator_inj in E as [-> E]; [|done..]. by rewrite E.
Qed.
Next Obligation.
  intros [g v k] ((Hg & _) & (_ & Hv & _) & _). simpl in *. destruct g as [|c g].
  - by rewrite Split_free_end.
  - rewrite Split_free by done. by rewrite Split_free_end.
Qed.
Next Obligation. done. Qed.

#[export] Instance TestReviewJSON : ReviewJSON := {
  unmarshal_AdmissionReview _ :=
    inl (mkAdmissionReview (mkTypeMeta "AdmissionReview" "admission.k8s.io/v1beta1")
      (Some (mkK8sAdmissionRequest "u1" (mkGVK "g" "v1" "Foo") (Some (mkGVK "g" "v1" "Foo"))
               "CREATE" (mkAdmissionUserInfo "ann" "" [] None) "new" "")) None);
  marshal_AdmissionReview rev :=
    inl match rev_Response rev with
        | Some (mkAdmissionResponse uid true _ p _) => uid +:+ " allowed " +:+ default "" p
        | Some (mkAdmissionResponse uid false _ _ _) => uid +:+ " denied"
        | None => ""
        end;
  unmarshal_ConversionReview _ :=
    inl (mkConversionReview (mkTypeMeta "ConversionReview" "apiextensions.k8s.io/v1")
      (Some (mkConversionRequest "u2" "g/v2" ["a"; "bad"; "c"])) None);
  marshal_ConversionReview rev :=
    inl match cv_Response rev with
        | Some r => rs_Status (cp_Result r) +:+ " " +:+ String.concat "," (cp_ConvertedObjects r)
        | None => ""
        end;
  unmarshal_TypeMeta raw := inl (mkTypeMeta (if String.eqb raw "bad" then "Bar" else "Foo") "g/v1");
}.

#[export] Instance TestJsonPatch : JsonPatch := { CreatePatch _ b := inl b }.
#[export] Program Instance TestJsonPatchLaws : JsonPatchLaws := {
  apply_patch _ p := Some p;
  same_json := eq;
}.
Next Obligation. intros a b p [= <-]. by exists b. Qed.

(** Objects are encoded as their spec. *)
Definition spec_codec : Codec (W:=TestWorld) := mkCodec
  (λ input into, match into with
                 | Some r => λ σ, (None, store r (mkObject (GetStaticMetadata (deref r σ))
                                            (GetCommonMetadata (deref r σ)) input) σ)
                 | None => ret None
                 end)
  (λ o σ, (match o with Some r => GetSpec (deref r σ) | None => "" end, None, σ)).

#[export] Instance TestDefaultObject : DefaultObject TestWorld := {
  do_Copy r := ret (S r);
  do_CopyList r := ret (S r);
  do_typeName _ := "TypedSpecObject";
  do_zero := 0%nat;
  do_zeroList := 0%nat;
  JSONCodec := spec_codec;
}.

Definition test_kind : Kind (W:=TestWorld) := default_kind (mkGVK "g" "v1" "Foo").

(** A controller that changes the spec, and a server with it and a converter for Foo. *)
Definition renaming : MutatingAdmissionController TestWorld := λ request,
  match ar_Object request with
  | Some r => calls (update_ref r (λ o, mkObject (GetStaticMetadata o) (GetCommonMetadata o) "renamed") ;;;
                     ret (Some (mkMutatingResponse (Some r)), None))
  | None => returns (None, None)
  end.

Definition to_v2 : Converter TestWorld := λ k target, returns (raw_Raw k +:+ "@" +:+ target, None).

Definition test_server : WebhookServer TestWorld :=
  mkWebhookServer None None None (Some {[ gvk (mkGVK "g" "v1" "Foo") := (test_kind, Some renaming) ]})
    (Some {[ gk "g" "Foo" := Some to_v2 ]}) 8443 (mkTLSConfig "c" "k").

Definition post : HttpRequest := mkHttpRequest "POST" (inl "{}").

(** ** Properties *)

(** The answer to a request for mutation: a denial when the controller or the encoding of
    its object fails, and otherwise a patch that takes the object of the request to the
    object the controller returned; nothing is patched when it returned none. *)
Theorem HandleMutateHTTP_correct {W} `{KN : !KindNames, RJ : !ReviewJSON, JP : !JsonPatch}
    `{DO : !DefaultObject W, JL : !JsonPatchLaws} (w : WebhookServer W) req admRev rq kind schema
    controller codec admReq mResp err σ σ1 σ2 :
  reviewed req admRev rq kind →
  find_controller (mutatingControllers w) (DefaultMutatingController w) kind = Some (schema, controller) →
  Kind_Codec schema KindEncodingJSON = Some codec →
  translateKubernetesAdmissionRequest rq schema σ = (Returned (inl admReq), σ1) →
  controller admReq σ1 = (Returned (mResp, err), σ2) →
  ∃ adResp σ3, HandleMutateHTTP w req σ = (Returned (write_review admRev adResp), σ3) ∧
    rp_UID adResp = kr_UID rq ∧
    match err, mResp with
    | Some e, _ => rp_Allowed adResp = false ∧ rs_Message <$> rp_Result adResp = Some (Error e)
    | None, Some (mkMutatingResponse (Some o)) =>
        match codec_Write codec (Some o) σ2 with
        | (bytes, None, σ4) => σ3 = σ4 ∧
            ∀ p, CreatePatch (kr_Object rq) bytes = inl p →
              rp_Allowed adResp = true ∧ rp_Patch adResp = Some p ∧
              ∃ c, apply_patch (kr_Object rq) p = Some c ∧ same_json c bytes
        | (_, Some e, _) => rp_Allowed adResp = false
        end
    | None, _ => adResp = allowed (kr_UID rq)
    end.
Proof.
  intros Hrev Hf Hcodec Ht Hc. rewrite (HandleMutateHTTP_run _ _ _ _ _ _ _ _ _ _ _ _ _ Hrev Hf Ht Hc).
  assert (∀ resp e, rp_UID (addAdmissionError resp (Some e)) = rp_UID resp ∧
    rp_Allowed (addAdmissionError resp (Some e)) = false ∧
    rs_Message <$> rp_Result (addAdmissionError resp (Some e)) = Some (Error e)) as Hadd.
  { intros resp e. unfold addAdmissionError. by destruct (AsAdmissionError e) as [[? ?]|]. }
  unfold with_patch. destruct err as [e|].
  { eexists _, _. split; [reflexivity|]. by destruct (Hadd (allowed (kr_UID rq)) e) as (-> & -> & ->). }
  destruct mResp as [[[o|]]|]; [|by eexists _, _..].
  unfold generatePatch. rewrite Hcodec.
  destruct (codec_Write codec (Some o) σ2) as [[bytes [e|]] σ4] eqn:E.
  - unfold and_returns, calls, bind. rewrite E. simpl. eexists _, _. split; [reflexivity|].
    by split; apply (Hadd (mkAdmissionResponse (kr_UID rq) true None None (Some PatchTypeJSONPatch))).
  - unfold and_returns, calls, bind. rewrite E. simpl.
    destruct (CreatePatch (kr_Object rq) bytes) as [p|e] eqn:Ep; eexists _, _; (split; [reflexivity|]).
    + split; [done|]. split; [done|]. intros p' [= <-]. split; [done|]. split; [done|].
      by apply CreatePatch_applies.
    + split; [by apply Hadd|]. by split.
Qed.

Lemma HandleMutateHTTP_correct_witness :
  HandleMutateHTTP test_server post test_world =
    (Returned (mkHttpResponse 200 "u1 allowed renamed"), (HandleMutateHTTP test_server post test_world).2) ∧
  ∃ adResp σ3, HandleMutateHTTP test_server post test_world =
    (Returned (write_review (mkAdmissionReview (mkTypeMeta "AdmissionReview" "admission.k8s.io/v1beta1")
       (Some (mkK8sAdmissionRequest "u1" (mkGVK "g" "v1" "Foo") (Some (mkGVK "g" "v1" "Foo"))
               "CREATE" (mkAdmissionUserInfo "ann" "" [] None) "new" "")) None) adResp), σ3) ∧
    rp_UID adResp = "u1".
Proof.
  split; [reflexivity|].
  destruct (HandleMutateHTTP_correct test_server post
    (mkAdmissionReview (mkTypeMeta "AdmissionReview" "admission.k8s.io/v1beta1")
       (Some (mkK8sAdmissionRequest "u1" (mkGVK "g" "v1" "Foo") (Some (mkGVK "g" "v1" "Foo"))
               "CREATE" (mkAdmissionUserInfo "ann" "" [] None) "new" "")) None)
    (mkK8sAdmissionRequest "u1" (mkGVK "g" "v1" "Foo") (Some (mkGVK "g" "v1" "Foo"))
               "CREATE" (mkAdmissionUserInfo "ann" "" [] None) "new" "") (mkGVK "g" "v1" "Foo")
    test_kind renaming spec_codec
    (mkAdmissionRequest "CREATE" "Foo" "g" "v1" (mkAdmissionUserInfo "ann" "" [] None) (Some 1%nat) None)
    (Some (mkMutatingResponse (Some 1%nat))) None test_world
    (store 1%nat (mkObject (mkStaticMetadata "" "" "" "" "") (GetCommonMetadata zeroObject) "new") test_world)
    (store 1%nat (mkObject (mkStaticMetadata "" "" "" "" "") (GetCommonMetadata zeroObject) "renamed")
      (store 1%nat (mkObject (mkStaticMetadata "" "" "" "" "") (GetCommonMetadata zeroObject) "new") test_world)))
    as (adResp & σ3 & H & Hu & _).
  - split; [reflexivity|]. split; [by exists "{}"|]. by split.
  - reflexivity.
  - reflexivity.
  - reflexivity.
  - reflexivity.
  - by exists adResp, σ3.
Defined.

(** A request for conversion is answered once all objects are converted, in order, or one
    could not be: the response has the request's UID, the bytes of the objects converted
    so far, and the status of what happened to the next. *)
Theorem HandleConvertHTTP_correct {W} `{KN : !KindNames, RJ : !ReviewJSON} (w : WebhookServer W)
    req body rev rq bytes σ :
  converters_return w →
  http_Method req = MethodPost → http_Body req = inl body →
  unmarshal_ConversionReview body = inl rev → cv_Request rev = Some rq →
  (∀ r, marshal_ConversionReview r = inl (bytes r)) →
  ∃ resp outs σ',
    HandleConvertHTTP w req σ =
      (Returned (mkHttpResponse 200 (bytes (mkConversionReview (cv_TypeMeta rev) (Some rq) (Some resp)))), σ') ∧
    cp_UID resp = cq_UID rq ∧
    cp_ConvertedObjects resp = cp_ConvertedObjects (prefilled rev rq) ++ outs ∧
    conversion w (cq_DesiredAPIVersion rq) (cq_Objects rq) σ outs
      (cp_Result (prefilled rev rq)) (cp_Result resp) σ'.
Proof.
  intros Hw Hm Hb Hu Hr Hmar.
  destruct (convert_objects_returns w (cq_DesiredAPIVersion rq) (cq_Objects rq) (prefilled rev rq) σ Hw)
    as (resp & σ' & E).
  destruct (convert_objects_conversion _ _ _ _ _ _ _ E) as (outs & Ho & Huid & Hc).
  exists resp, outs, σ'. split; [|by repeat split].
  unfold HandleConvertHTTP. rewrite Hm, String.eqb_refl, Hb, Hu, Hr. simpl.
  rewrite (returns_run _ _ _ _ _ E), Hmar. done.
Qed.

Lemma HandleConvertHTTP_correct_witness :
  ∃ resp outs σ',
    HandleConvertHTTP test_server post test_world =
      (Returned (mkHttpResponse 200 (rs_Status (cp_Result resp) +:+ " " +:+
         String.concat "," (cp_ConvertedObjects resp))), σ') ∧
    cp_ConvertedObjects resp = outs ∧ HandleConvertHTTP test_server post test_world =
      (Returned (mkHttpResponse 200 "Failure a@g/v2"), test_world).
Proof.
  destruct (HandleConvertHTTP_correct test_server post "{}"
    (mkConversionReview (mkTypeMeta "ConversionReview" "apiextensions.k8s.io/v1")
      (Some (mkConversionRequest "u2" "g/v2" ["a"; "bad"; "c"])) None)
    (mkConversionRequest "u2" "g/v2" ["a"; "bad"; "c"])
    (λ rev, match cv_Response rev with
        | Some r => rs_Status (cp_Result r) +:+ " " +:+ String.concat "," (cp_ConvertedObjects r)
        | None => ""
        end) test_world) as (resp & outs & σ' & H & _ & Ho & _).
  - intros key c H.
    change (({[gk "g" "Foo" := Some to_v2]} : gmap string _) !! key = Some c) in H.
    apply lookup_singleton_Some in H as [_ <-]. eexists. split; [done|]. intros k t σ. by eexists _, _.
  - reflexivity.
  - reflexivity.
  - reflexivity.
  - reflexivity.
  - reflexivity.
  - exists resp, outs, σ'. split; [exact H|]. split; [exact Ho | reflexivity].
Defined.
