(* ===== verification/Translation.v ===== *)
(** * Translation ([k8s/translation.go])

    What the SDK sends and receives as JSON: the patches, whose paths under [/metadata] are
    made the ones of Kubernetes, and the lists, whose items are parsed one by one before
    anything is set.  The JSON names of the fields of [metav1.ObjectMeta] and the encoding of
    operations are classes, the decoding of a list is an argument.  The translation of
    admission requests is with the webhooks ([Webhooks]). *)
From S2P Require Import Prelude GoValues Resource ResourceWatcher Client Concrete Finalizers.

#[local] Open Scope string_scope.
#[local] Open Scope list_scope.

(** ** Lists *)

(** [k8sListWithItems], as far as it is kept, and its decoding. *)
Record k8sListWithItems := mkK8sListWithItems {
  kl_ResourceVersion : string;
  kl_Continue : string;
  kl_Items : list string;
}.

Class ListJSON := { unmarshal_list : string → k8sListWithItems + GoError }.

(** The loop over the items: the parsed ones, or the first error. *)
Fixpoint parse_items {W} (itemParser : string → M W (Obj * option GoError)) (raw : list string)
    (items : list Obj) : M W (list Obj + GoError) :=
  match raw with
  | [] => ret (inl items)
  | item :: raw =>
      let* '(parsed, err) := itemParser item in
      match err with
      | Some e => ret (inr e)
      | None => parse_items itemParser raw (items ++ [parsed])
      end
  end.

(** [rawToListWithParser], into a list that holds [into]. *)
Definition rawToListWithParser {W} `{LJ : !ListJSON} (raw : string) (into : ListObject)
    (itemParser : string → M W (Obj * option GoError)) : M W (ListObject * option GoError) :=
  match unmarshal_list raw with
  | inr e => ret (into, Some e)
  | inl um =>
      let* items := parse_items itemParser (kl_Items um) [] in
      match items with
      | inr e => ret (into, Some e)
      | inl items => ret (mkListObject items (kl_Continue um) (kl_ResourceVersion um), None)
      end
  end.

(** The parse of every item, in order. *)
Inductive parsed_all {W} (itemParser : string → M W (Obj * option GoError))
  : list string → W → list Obj → W → Prop :=
| parsed_nil σ : parsed_all itemParser [] σ [] σ
| parsed_cons raw raws o os σ σ1 σ2 :
    itemParser raw σ = ((o, None), σ1) → parsed_all itemParser raws σ1 os σ2 →
    parsed_all itemParser (raw :: raws) σ (o :: os) σ2.

Lemma parse_items_spec {W} (p : string → M W (Obj * option GoError)) raws items σ r σ' :
  parse_items p raws items σ = (inl r, σ') → ∃ os, r = items ++ os ∧ parsed_all p raws σ os σ'.
Proof.
  revert items σ. induction raws as [|raw raws IH]; intros items σ; simpl.
  { intros [= <- <-]. exists []. by rewrite app_nil_r; split; [|constructor]. }
  unfold bind. destruct (p raw σ) as [[o [e|]] σ1] eqn:E; [done|].
  intros (os & -> & H)%IH. exists (o :: os). rewrite <- app_assoc. split; [done|]. by econstructor.
Qed.

(** ** [marshalJSONPatch] *)

(** The JSON names of the fields of [metav1.ObjectMeta], which [getV1ObjectMetaFields]
    reads by reflection; the finalizers and the resource version are among them. *)
Class ObjectMetaFields := {
  metaV1Fields : gset string;
  metaV1Fields_finalizers : "finalizers" ∈ metaV1Fields;
  metaV1Fields_resourceVersion : "resourceVersion" ∈ metaV1Fields;
}.

Definition with_Path (path : string) (op : PatchOperation) : PatchOperation :=
  mkPatchOperation path (po_Operation op) (po_Value op).

Definition with_Operation (o : PatchOp) (op : PatchOperation) : PatchOperation :=
  mkPatchOperation (po_Path op) o (po_Value op).

(** The body of the loop: the operation as it is sent. *)
Definition translate_op `{OM : !ObjectMetaFields} (op : PatchOperation) : PatchOperation + GoError :=
  if String.eqb (po_Path op) "/metadata" then inr (ErrorString "cannot patch entire metadata object")
  else if negb (String.prefix "/metadata/" (po_Path op)) then inl op
  else
    let parts := Split (Trim (po_Path op) "/") "/" in
    match parts with
    | first :: part :: rest =>
        if bool_decide (part ∈ metaV1Fields) then inl op
        else if String.eqb part "extraFields" then
          match rest with
          | [] => inr (ErrorString "cannot patch entire extraFields, please patch fields in extraFields instead")
          | _ => inl (with_Path ("/metadata/" +:+ String.concat "/" rest) op)
          end
        else
          let op := with_Path ("/metadata/annotations/grafana.com~1" +:+ String.concat "~1" (part :: rest)) op in
          inl (if bool_decide (po_Operation op = PatchOpReplace) then with_Operation PatchOpAdd op else op)
    | _ => inr (ErrorString "invalid patch path")
    end.

(** The loop; the operations are replaced in the caller's slice, up to the first error. *)
Fixpoint translate_ops `{OM : !ObjectMetaFields} (ops : list PatchOperation)
  : list PatchOperation * option GoError :=
  match ops with
  | [] => ([], None)
  | op :: ops =>
      match translate_op op with
      | inr e => (op :: ops, Some e)
      | inl op' => let '(ops', e) := translate_ops ops in (op' :: ops', e)
      end
  end.

(** [json.Marshal] of the operations. *)
Class PatchJSON := { marshal_operations : list PatchOperation → string + GoError }.

(** [marshalJSONPatch]: the bytes or the error, and what the caller's request has become. *)
Definition marshalJSONPatch `{OM : !ObjectMetaFields, PJ : !PatchJSON} (patch : PatchRequest)
  : (string + GoError) * PatchRequest :=
  let '(ops, err) := translate_ops (pr_Operations patch) in
  (match err with
   | Some e => inr e
   | None => marshal_operations ops
   end, mkPatchRequest ops).

(** ** Finalizer patches are sent as they are *)
Lemma TrimRight_app p s c :
  TrimRight (p +:+ s) c =
    match TrimRight s c with
    | EmptyString => TrimRight p c
    | t => p +:+ t
    end.
Proof.
  induction p as [|c' p IH]; [change (EmptyString +:+ s) with s; by destruct (TrimRight s c)|].
  change (String c' p +:+ s) with (String c' (p +:+ s)). simpl. rewrite IH.
  destruct (TrimRight s c) as [|c2 t] eqn:E; [done|].
  destruct (p +:+ String c2 t) as [|c3 u] eqn:E2; [by destruct p|].
  by change (String c' p +:+ String c2 t) with (String c' (p +:+ String c2 t)); rewrite E2.
Qed.

(** The parts of a path under the finalizers. *)
Lemma finalizers_parts s :
  ∃ rest, Split (Trim ("/metadata/finalizers/" +:+ s) "/") "/" = "metadata" :: "finalizers" :: rest.
Proof.
  unfold Trim. change (TrimLeft ("/metadata/finalizers/" +:+ s) "/")
    with ("metadata/finalizers" +:+ String "/" s).
  rewrite TrimRight_app. simpl. destruct (TrimRight s "/") as [|c t]; by eexists.
Qed.

Lemma translate_finalizers_path `{OM : !ObjectMetaFields} s o v :
  translate_op (mkPatchOperation ("/metadata/finalizers/" +:+ s) o v) =
    inl (mkPatchOperation ("/metadata/finalizers/" +:+ s) o v).
Proof.
  unfold translate_op. cbn [po_Path].
  change (String.eqb ("/metadata/finalizers/" +:+ s) "/metadata") with false. cbn [negb].
  change ("/metadata/finalizers/" +:+ s) with ("/metadata/" +:+ ("finalizers/" +:+ s)).
  rewrite prefix_app. cbn [negb]. change ("/metadata/" +:+ ("finalizers/" +:+ s))
    with ("/metadata/finalizers/" +:+ s).
  destruct (finalizers_parts s) as [rest ->].
  by rewrite bool_decide_eq_true_2 by apply metaV1Fields_finalizers.
Qed.

(** Every operation of the finalizer updater is left as it is. *)
Lemma translate_finalizers_op `{OM : !ObjectMetaFields} op l l' :
  finalizers_op op l l' → translate_op op = inl op.
Proof.
  pose proof metaV1Fields_finalizers. pose proof metaV1Fields_resourceVersion.
  destruct 1; first [apply translate_finalizers_path | apply (translate_finalizers_path "-") |
    unfold translate_op; simpl; by rewrite bool_decide_eq_true_2].
Qed.

Lemma translate_finalizers_ops `{OM : !ObjectMetaFields} ops l l' :
  finalizers_ops ops l l' → translate_ops ops = (ops, None).
Proof.
  induction 1 as [|op ops l0 l1 l2 H Hops IH]; [done|]. simpl.
  by rewrite (translate_finalizers_op _ _ _ H), IH.
Qed.
