(* ===== verification/Rest.v ===== *)
(** * REST requests ([k8s/gvclient.go], [k8s/custom_route_client.go])

    [groupVersionClient] turns the operations of [k8s.Client] into requests of client-go's
    [rest.Interface], measures them, and decodes what comes back.  A request is the data its
    builder has been given; sending one, the JSON of the bodies and the codec of the kind
    are arguments.  [gv_of] is the record that [Client] is written against, and the end of
    the file shows that it keeps the promises the stores rely on ([OptimisticServer]) when
    the server behaves as the Kubernetes API is documented to.  Traces are left out. *)
From S2P Require Import Prelude GoValues Resource ResourceWatcher Schema Client Concrete Store KubeErrors Admission Translation.

#[local] Open Scope string_scope.
#[local] Open Scope list_scope.

(** ** Requests *)
Record Request := mkRequest {
  rq_Verb : string;
  rq_Resource : string;
  rq_Name : string;
  rq_SubResource : list string;
  rq_Namespace : string;
  rq_Params : list (string * string);
  rq_Headers : list (string * list string);
  rq_Body : option string;
}.

(** [client.Verb], and the methods of the builder. *)
Definition NewRequest (verb : string) : Request := mkRequest verb "" "" [] "" [] [] None.

Definition WithResource (r : string) (q : Request) : Request :=
  mkRequest (rq_Verb q) r (rq_Name q) (rq_SubResource q) (rq_Namespace q) (rq_Params q) (rq_Headers q) (rq_Body q).
Definition WithName (n : string) (q : Request) : Request :=
  mkRequest (rq_Verb q) (rq_Resource q) n (rq_SubResource q) (rq_Namespace q) (rq_Params q) (rq_Headers q) (rq_Body q).
Definition WithSubResource (s : list string) (q : Request) : Request :=
  mkRequest (rq_Verb q) (rq_Resource q) (rq_Name q) s (rq_Namespace q) (rq_Params q) (rq_Headers q) (rq_Body q).
Definition WithNamespace (n : string) (q : Request) : Request :=
  mkRequest (rq_Verb q) (rq_Resource q) (rq_Name q) (rq_SubResource q) n (rq_Params q) (rq_Headers q) (rq_Body q).
Definition WithParam (k v : string) (q : Request) : Request :=
  mkRequest (rq_Verb q) (rq_Resource q) (rq_Name q) (rq_SubResource q) (rq_Namespace q) (rq_Params q ++ [(k, v)])
    (rq_Headers q) (rq_Body q).
Definition WithHeader (k : string) (v : list string) (q : Request) : Request :=
  mkRequest (rq_Verb q) (rq_Resource q) (rq_Name q) (rq_SubResource q) (rq_Namespace q) (rq_Params q)
    (rq_Headers q ++ [(k, v)]) (rq_Body q).
Definition WithBody (b : string) (q : Request) : Request :=
  mkRequest (rq_Verb q) (rq_Resource q) (rq_Name q) (rq_SubResource q) (rq_Namespace q) (rq_Params q)
    (rq_Headers q) (Some b).

(** [if b { req = f(req) }] *)
Definition when (b : bool) (f : Request → Request) (q : Request) : Request := if b then f q else q.

(** [if strings.TrimSpace(namespace) != "" { req = req.Namespace(namespace) }] *)
Definition in_namespace (namespace : string) : Request → Request :=
  when (negb (String.eqb (TrimSpace namespace) "")) (WithNamespace namespace).

(** [if opts.DryRun { req = req.Param("dryRun", "All") }] *)
Definition dry_run (b : bool) : Request → Request := when b (WithParam "dryRun" "All").

(** [rest.Interface]: [Do(ctx).StatusCode(&sc).Raw()], the same with [Error()], and [Watch],
    which gives a [watch.Interface]. *)
Record RestInterface (W : Type) := mkRest {
  rest_Raw : Request → M W (string * Z * option GoError);
  rest_Error : Request → M W (Z * option GoError);
  rest_Watch : Request → M W (nat + GoError);
}.
Arguments mkRest {W}.
Arguments rest_Raw {W}.
Arguments rest_Error {W}.
Arguments rest_Watch {W}.

(** A counter or histogram vector, by what happens to the series of the given labels. *)
Abbreviation CounterVec W := (list string → M W unit) (only parsing).
Abbreviation HistogramVec W := (list string → Z → M W unit) (only parsing).

(** The struct [groupVersionClient], without its configuration, which no method reads. *)
Record GVClient (W : Type) := mkGVClient {
  g_client : RestInterface W;
  g_version : string;
  g_requestDurations : option (HistogramVec W);
  g_totalRequests : option (CounterVec W);
  g_watchEventsTotal : option (CounterVec W);
  g_watchErrorsTotal : option (CounterVec W);
}.
Arguments mkGVClient {W}.
Arguments g_client {W}.
Arguments g_version {W}.
Arguments g_requestDurations {W}.
Arguments g_totalRequests {W}.
Arguments g_watchEventsTotal {W}.
Arguments g_watchErrorsTotal {W}.

(** [metav1.DeleteOptions], as far as it is set: the preconditions and the policy. *)
Record K8sDeleteOptions := mkK8sDeleteOptions {
  kd_Preconditions : option (option string * option string);
  kd_PropagationPolicy : option string;
}.

(** The JSON of a status, of [metadataObject] (its resource version) and of delete options. *)
Class RestJSON := {
  parse_status : string → option (string * string * Status);
  unmarshal_metadata : string → string + GoError;
  marshal_DeleteOptions : K8sDeleteOptions → string + GoError;
}.

(** [CustomRouteRequestOptions]; no body is a nil one. *)
Record CustomRouteRequestOptions := mkCustomRouteRequestOptions {
  cro_Path : string;
  cro_Verb : string;
  cro_Body : option string;
  cro_Query : nmap (list string);
  cro_Headers : nmap (list string);
}.

(** [WatchOptions] *)
Record WatchOptions := mkWatchOptions {
  wo_ResourceVersion : string;
  wo_ResourceVersionMatch : string;
  wo_EventBufferSize : Z;
  wo_LabelFilters : list string;
  wo_FieldSelectors : list string;
  wo_AllowWatchBookmarks : bool;
  wo_TimeoutSeconds : option Z;
  wo_SendInitialEvents : option bool;
}.

(** [ParseKubernetesError] of an error that is not nil. *)
Definition parse_error `{RJ : !RestJSON} (raw : string) (sc : Z) (e : GoError) : GoError :=
  match ParseKubernetesError parse_status raw sc (Some e) with
  | Returned (Some e') => e'
  | _ => e
  end.

Lemma parse_error_run `{RJ : !RestJSON} raw sc e :
  ParseKubernetesError parse_status raw sc (Some e) = Returned (Some (parse_error raw sc e)).
Proof.
  unfold parse_error, ParseKubernetesError. destruct (body_status _ _); [done|].
  destruct (AsStatusError e); [done|]. destruct (_ =? _)%Z; [done|]. by destruct (_ <=? _)%Z.
Qed.

Section Requests.
Context {W : Type} `{WW : !World W, MM : !Memory W, RJ : !RestJSON, LJ : !ListJSON, OM : !ObjectMetaFields}.
Context `{PJ : !PatchJSON, RO : !RangeOrder} (g : GVClient W).

(** ** Measuring *)

(** [incRequestCounter] and [logRequestDuration] *)
Definition incRequestCounter (statusCode : Z) (verb kind subresource : string) : M W unit :=
  match g_totalRequests g with
  | None => ret tt
  | Some c => c [pretty statusCode; verb; kind; subresource]
  end.

Definition logRequestDuration (dur statusCode : Z) (verb kind subresource : string) : M W unit :=
  match g_requestDurations g with
  | None => ret tt
  | Some h => h [pretty statusCode; verb; kind; subresource] dur
  end.

(** What follows a request that was sent at [start]. *)
Definition request_done (start sc : Z) (verb plural subresource : string) : M W unit :=
  let* stop := Now in
  logRequestDuration (stop - start) sc verb plural subresource ;;;
  incRequestCounter sc verb plural subresource.

(** Send a request and measure it: the body, or the error that was parsed. *)
Definition send (q : Request) (verb plural subresource : string) : M W (string + GoError) :=
  let* start := Now in
  let* '(raw, sc, err) := rest_Raw (g_client g) q in
  request_done start sc verb plural subresource ;;;
  ret (match err with
       | Some e => inr (parse_error raw sc e)
       | None => inl raw
       end).

(** Send a request and read its body into an object. *)
Definition send_into (codec : Codec (W:=W)) (q : Request) (verb plural subresource : string) (into : Obj)
  : M W (option GoError) :=
  let* r := send q verb plural subresource in
  match r with
  | inr e => ret (Some e)
  | inl raw => codec_Read codec raw into
  end.

(** ** Reading *)
Definition get_request (identifier : Identifier) (plural : string) : Request :=
  in_namespace (id_Namespace identifier) (WithName (id_Name identifier) (WithResource plural (NewRequest "GET"))).

(** [get] *)
Definition get (codec : Codec (W:=W)) (identifier : Identifier) (plural : string) (into : Obj)
  : M W (option GoError) :=
  send_into codec (get_request identifier plural) "GET" plural "spec" into.

(** [getMetadata]: the resource version. *)
Definition getMetadata (identifier : Identifier) (plural : string) : M W (string * option GoError) :=
  let* r := send (get_request identifier plural) "GET" plural "spec" in
  ret (match r with
       | inr e => ("", Some e)
       | inl raw => match unmarshal_metadata raw with
                    | inr e => ("", Some e)
                    | inl rv => (rv, None)
                    end
       end).

(** [exists] *)
Definition exists_ (identifier : Identifier) (plural : string) : M W (bool * option GoError) :=
  let* start := Now in
  let* '(statusCode, err) := rest_Error (g_client g) (get_request identifier plural) in
  request_done start statusCode "GET" plural "spec" ;;;
  ret (match err with
       | None => (true, None)
       | Some e => if (statusCode =? 404)%Z then (false, None)
                   else (false, Some (parse_error "" statusCode e))
       end).

(** ** Writing *)

(** [addLabels], of the one label that is added. *)
Definition add_version_label (obj : Ref) : M W unit :=
  update_ref obj (λ o, with_CommonMetadata (with_label versionLabel (g_version g) (GetCommonMetadata o)) o).

(** The object as it is sent: labelled, and encoded. *)
Definition encode (codec : Codec (W:=W)) (obj : Ref) (k : string → Object → M W (option GoError))
  : M W (option GoError) :=
  add_version_label obj ;;;
  let* '(bytes, err) := codec_Write codec (Some obj) in
  match err with
  | Some e => ret (Some e)
  | None => let* o := gets (deref obj) in k bytes o
  end.

(** [create] *)
Definition create_request (plural bytes : string) (o : Object) (opts : CreateOptions) : Request :=
  dry_run (co_DryRun opts) (in_namespace (GetNamespace o) (WithBody bytes (WithResource plural (NewRequest "POST")))).

Definition create (codec : Codec (W:=W)) (plural : string) (obj into : Ref) (opts : CreateOptions)
  : M W (option GoError) :=
  encode codec obj (λ bytes o,
    send_into codec (create_request plural bytes o opts) "CREATE" plural "spec" (Some into)).

(** [update] and [updateSubresource] *)
Definition update_request (plural : string) (sub : list string) (bytes : string) (o : Object) (opts : UpdateOptions)
  : Request :=
  dry_run (uo_DryRun opts) (in_namespace (GetNamespace o) (WithBody bytes (WithName (GetName o)
    (when (bool_decide (sub ≠ [])) (WithSubResource sub) (WithResource plural (NewRequest "PUT")))))).

Definition update (codec : Codec (W:=W)) (plural : string) (obj into : Ref) (opts : UpdateOptions)
  : M W (option GoError) :=
  encode codec obj (λ bytes o,
    send_into codec (update_request plural [] bytes o opts) "UPDATE" plural "spec" (Some into)).

Definition updateSubresource (codec : Codec (W:=W)) (plural subresource : string) (obj into : Ref)
    (opts : UpdateOptions) : M W (option GoError) :=
  encode codec obj (λ bytes o,
    send_into codec (update_request plural [subresource] bytes o opts) "UPDATE" plural subresource (Some into)).

(** [patch]; [client.Patch] sets the content type. *)
Definition patch_request (identifier : Identifier) (plural bytes : string) (opts : PatchOptions) : Request :=
  dry_run (popt_DryRun opts) (in_namespace (id_Namespace identifier) (WithBody bytes (WithName (id_Name identifier)
    (when (negb (String.eqb (popt_Subresource opts) "")) (WithSubResource [popt_Subresource opts])
       (WithResource plural (WithHeader "Content-Type" ["application/json-patch+json"] (NewRequest "PATCH"))))))).

Definition patch (codec : Codec (W:=W)) (identifier : Identifier) (plural : string) (p : PatchRequest)
    (into : Obj) (opts : PatchOptions) : M W (option GoError) :=
  match (marshalJSONPatch p).1 with
  | inr e => ret (Some e)
  | inl bytes =>
      send_into codec (patch_request identifier plural bytes opts) "PATCH" plural
        (if String.eqb (popt_Subresource opts) "" then "spec" else popt_Subresource opts) into
  end.

(** [delete]; an error without a failing status code is returned as it is. *)
Definition unless_empty (s : string) : option string := if String.eqb s "" then None else Some s.

Definition delete_options (options : DeleteOptions) : K8sDeleteOptions :=
  mkK8sDeleteOptions
    (if negb (String.eqb (do_PreconditionResourceVersion options) "") || negb (String.eqb (do_PreconditionUID options) "")
     then Some (unless_empty (do_PreconditionResourceVersion options), unless_empty (do_PreconditionUID options))
     else None)
    (unless_empty (do_PropagationPolicy options)).

Definition delete_request (identifier : Identifier) (plural : string) : Request :=
  in_namespace (id_Namespace identifier) (WithName (id_Name identifier) (WithResource plural (NewRequest "DELETE"))).

Definition send_delete (q : Request) (plural : string) : M W (option GoError) :=
  let* start := Now in
  let* '(sc, err) := rest_Error (g_client g) q in
  request_done start sc "DELETE" plural "spec" ;;;
  ret (match err with
       | Some e => Some (if (300 <=? sc)%Z then parse_error "" sc e else e)
       | None => None
       end).

Definition delete (identifier : Identifier) (plural : string) (options : DeleteOptions) : M W (option GoError) :=
  let o := delete_options options in
  match kd_Preconditions o, kd_PropagationPolicy o with
  | None, None => send_delete (delete_request identifier plural) plural
  | _, _ =>
      match marshal_DeleteOptions o with
      | inr e => ret (Some (ErrorString ("unable to marshal delete options: " +:+ Error e)))
      | inl body => send_delete (WithBody body (delete_request identifier plural)) plural
      end
  end.

(** ** Lists, watches and custom routes *)
Definition joined (name : string) (l : list string) : Request → Request :=
  when (bool_decide (l ≠ [])) (WithParam name (String.concat "," l)).

Definition param_unless_empty (name v : string) : Request → Request :=
  when (negb (String.eqb v "")) (WithParam name v).

(** [list] *)
Definition list_request (namespace plural : string) (options : ListOptions) : Request :=
  param_unless_empty "resourceVersion" (lo_ResourceVersion options)
  (param_unless_empty "continue" (lo_Continue options)
  (when (0 <? lo_Limit options)%Z (WithParam "limit" (pretty (lo_Limit options)))
  (joined "fieldSelector" (lo_FieldSelectors options)
  (joined "labelSelector" (lo_LabelFilters options)
  (in_namespace namespace (WithResource plural (NewRequest "GET"))))))).

Definition list_ (namespace plural : string) (into : ListObject) (options : ListOptions)
    (itemParser : string → M W (Obj * option GoError)) : M W (ListObject * option GoError) :=
  let* r := send (list_request namespace plural options) "LIST" plural "spec" in
  match r with
  | inr e => ret (into, Some e)
  | inl raw => rawToListWithParser raw into itemParser
  end.

(** [watch], up to the stream; the response is made of it ([WatchStream]). *)
Definition watch_request (namespace plural : string) (options : WatchOptions) : Request :=
  let opt {A} (name : string) (f : A → string) (o : option A) : Request → Request :=
    match o with Some a => WithParam name (f a) | None => λ q, q end in
  opt "sendInitialEvents" (λ b : bool, if b then "true" else "false") (wo_SendInitialEvents options)
  (opt "timeoutSeconds" pretty (wo_TimeoutSeconds options)
  (when (wo_AllowWatchBookmarks options) (WithParam "allowWatchBookmarks" "true")
  (param_unless_empty "resourceVersionMatch" (wo_ResourceVersionMatch options)
  (param_unless_empty "resourceVersion" (wo_ResourceVersion options)
  (joined "fieldSelector" (wo_FieldSelectors options)
  (joined "labelSelector" (wo_LabelFilters options)
  (in_namespace namespace (WithParam "watch" "1" (WithResource plural (NewRequest "GET")))))))))).

Definition open_watch (namespace plural : string) (options : WatchOptions) : M W (nat + GoError) :=
  let* resp := rest_Watch (g_client g) (watch_request namespace plural options) in
  match resp with
  | inr e => ret (inr e)
  | inl w => incRequestCounter 200 "WATCH" plural "spec" ;;; ret (inl w)
  end.

(** [customRouteRequest]; here an empty namespace is none, and others are not trimmed. *)
Definition custom_route_request (namespace plural name : string) (request : CustomRouteRequestOptions) : Request :=
  let q := NewRequest (cro_Verb request) in
  let q := when (negb (String.eqb plural "")) (λ q, WithName name (WithResource plural q)) q in
  let q := WithSubResource (Split (Trim (cro_Path request) "/") "/") q in
  let q := when (negb (String.eqb namespace "")) (WithNamespace namespace) q in
  let q := match cro_Body request with Some b => WithBody b q | None => q end in
  let q := fold_left (λ q '(k, v), fold_left (λ q vv, WithParam k vv q) v q) (range_map (items (cro_Query request))) q in
  fold_left (λ q '(k, v), WithHeader k v q) (range_map (items (cro_Headers request))) q.

Definition customRouteRequest (namespace plural name : string) (request : CustomRouteRequestOptions)
  : M W (string + GoError) :=
  send (custom_route_request namespace plural name request) (cro_Verb request) plural (cro_Path request).

(** ** The clients over it *)

(** The client of [k8s.Client], with the codec and the schema its methods pass. *)
Definition gv_of (codec : Codec (W:=W)) (schema : Schema W) : groupVersionClient W := {|
  gv_get identifier plural into := get codec identifier plural (Some into);
  gv_getMetadata := getMetadata;
  gv_create plural obj into opts := create codec plural obj into opts;
  gv_update plural obj into opts := update codec plural obj into opts;
  gv_updateSubresource plural sub obj into opts := updateSubresource codec plural sub obj into opts;
  gv_patch identifier plural p into opts := patch codec identifier plural p into opts;
  gv_delete := delete;
  gv_list namespace plural options :=
    list_ namespace plural empty_list options (λ raw,
      let* into := ZeroValue schema in
      let* err := codec_Read codec raw into in
      ret (into, err));
|}.

(** [k8s.Client.SubresourceRequest] *)
Definition k8s_SubresourceRequest (schema : Schema W) (identifier : Identifier)
    (opts : CustomRouteRequestOptions) : M W (string + GoError) :=
  if bool_decide (Scope_ schema = ClusterScope) && negb (bool_decide (id_Namespace identifier = NamespaceAll)) then
    ret (inr (scope_error "watch resources" (Scope_ schema) (id_Namespace identifier)))
  else if String.eqb (cro_Path opts) "" then ret (inr (ErrorString "subresource Path is required"))
  else if String.eqb (cro_Verb opts) "" then ret (inr (ErrorString "request Verb is required"))
  else customRouteRequest (id_Namespace identifier) (Plural schema) (id_Name identifier) opts.

(** [CustomRouteClient], with its default namespace. *)
Definition NamespacedRequest (defaultNamespace namespace : string) (opts : CustomRouteRequestOptions)
  : M W (string + GoError) :=
  customRouteRequest (if String.eqb namespace "" then defaultNamespace else namespace) "" "" opts.

Definition ClusteredRequest (opts : CustomRouteRequestOptions) : M W (string + GoError) :=
  customRouteRequest "" "" "" opts.
End Requests.

(** ** The API server *)

(** Code that touches neither what the server stores nor the objects in memory. *)
Definition quiet {W A} `{WW : !World W} (stored : Identifier → W → list Object) (m : M W A) : Prop :=
  ∀ σ, (∀ id, stored id (m σ).2 = stored id σ) ∧ ∀ r, deref r (m σ).2 = deref r σ.

(** What [gv_of] relies on: the codec's bytes are objects ([decoded] is the object they are
    read as into the schema's zero value), reading and writing them, counting requests and
    the requests themselves leave the memory alone and only the server changes what it
    stores: the versions of every object, latest first, each with a resource version of its
    own.
    Reading into an object that has contents [merge]s: [JSONCodec.Read] is
    [json.Decode(&out)], which overwrites the fields and the map keys that the bytes have,
    of which the resource version is one, and keeps others (which ones is up to the type).
    What is written reads back as an object of the same identity and version, whose spec is
    a function of the spec ([sent_spec]: empty fields may be left out, times rounded).
    A GET is answered with the latest; a PUT that is accepted, of an object with a resource
    version, was made when that version was the latest, and its spec is the next version's,
    unless nothing changed ([resourceVersion] in the API conventions of Kubernetes; no
    defaults or admission controllers that change the spec). *)
Class RestServer {W} `{WW : !World W, MM : !Memory W} (g : GVClient W) (codec : Codec (W:=W)) (schema : Schema W) := {
  stored : Identifier → W → list Object;
  decoded : string → option Object;
  merge : Object → Object → Object;
  sent_spec : string → string;
  stored_unique id σ : NoDup (GetResourceVersion <$> stored id σ);
  stored_numbered id σ o : o ∈ stored id σ → GetResourceVersion o ≠ "";
  stored_local id r o σ : stored id (store r o σ) = stored id σ;
  Now_quiet : quiet stored Now;
  counter_quiet c l : g_totalRequests g = Some c → quiet stored (c l);
  histogram_quiet h l d : g_requestDurations g = Some h → quiet stored (h l d);
  request_memory q r σ : deref r (rest_Raw (g_client g) q σ).2 = deref r σ;
  merge_zero into o σ σ' : ZeroValue schema σ = (Some into, σ') → merge (deref into σ') o = o;
  merge_version old o : GetResourceVersion o ≠ "" → GetResourceVersion (merge old o) = GetResourceVersion o;
  write_decoded r σ bytes σ' : codec_Write codec (Some r) σ = ((bytes, None), σ') →
    (∃ o, decoded bytes = Some o ∧ identifier_of o = identifier_of (deref r σ) ∧
       GetResourceVersion o = GetResourceVersion (deref r σ) ∧ GetSpec o = sent_spec (GetSpec (deref r σ))) ∧
    deref r σ' = deref r σ ∧ ∀ id, stored id σ' = stored id σ;
  read_merges raw r σ σ' : codec_Read codec raw (Some r) σ = (None, σ') →
    (∃ o, decoded raw = Some o ∧ deref r σ' = merge (deref r σ) o) ∧ ∀ id, stored id σ' = stored id σ;
  GET_latest id σ raw sc σ' : rest_Raw (g_client g) (get_request id (Plural schema)) σ = ((raw, sc, None), σ') →
    ∃ o, decoded raw = Some o ∧ head (stored id σ') = Some o;
  PUT_next bytes o sent opts σ raw sc σ' :
    decoded bytes = Some sent → identifier_of sent = identifier_of o → GetResourceVersion sent ≠ "" →
    uo_DryRun opts = false →
    rest_Raw (g_client g) (update_request (Plural schema) [] bytes o opts) σ = ((raw, sc, None), σ') →
    ∃ cur past new, stored (identifier_of o) σ `suffix_of` cur :: past ∧
      GetResourceVersion cur = GetResourceVersion sent ∧ GetSpec new = GetSpec sent ∧
      (stored (identifier_of o) σ' = new :: cur :: past ∨ new = cur ∧ stored (identifier_of o) σ' = cur :: past);
}.

Section Promises.
Context {W : Type} `{WW : !World W, MM : !Memory W, RJ : !RestJSON, LJ : !ListJSON, OM : !ObjectMetaFields}.
Context `{PJ : !PatchJSON, RO : !RangeOrder} (g : GVClient W) (codec : Codec (W:=W)) (schema : Schema W).
Context `{RS : !RestServer g codec schema}.

Lemma quiet_ret {A} (a : A) : quiet stored (ret a).
Proof. done. Qed.

Lemma quiet_bind {A B} (m : M W A) (k : A → M W B) :
  quiet stored m → (∀ a, quiet stored (k a)) → quiet stored (let* a := m in k a).
Proof.
  intros Hm Hk σ. unfold bind. specialize (Hm σ). destruct (m σ) as [a σ1]. simpl in Hm.
  destruct Hm as [H1 H2], (Hk a σ1) as [H3 H4]. split; intros x; [by rewrite H3|by rewrite H4].
Qed.

Lemma request_done_quiet start sc verb kind sub : quiet stored (request_done g start sc verb kind sub).
Proof using RS.
  apply quiet_bind; [exact Now_quiet|]. intros stop. unfold logRequestDuration, incRequestCounter.
  apply quiet_bind.
  - destruct (g_requestDurations g) eqn:E; [by apply histogram_quiet | apply quiet_ret].
  - intros []. destruct (g_totalRequests g) eqn:E; [by apply counter_quiet | apply quiet_ret].
Qed.

(** A request that is answered: the server's answer, with quiet code around it. *)
Lemma send_answered q verb kind sub σ raw σ' :
  send g q verb kind sub σ = (inl raw, σ') →
  (∀ r, deref r σ' = deref r σ) ∧
  ∃ σ0 sc σ1, rest_Raw (g_client g) q σ0 = ((raw, sc, None), σ1) ∧
    (∀ id, stored id σ0 = stored id σ) ∧ (∀ id, stored id σ' = stored id σ1).
Proof using RS.
  unfold send, bind. pose proof (Now_quiet σ) as [Hn Hn']. destruct (Now σ) as [start σ0].
  pose proof (λ r, request_memory q r σ0) as Hm. simpl in Hn'.
  destruct (rest_Raw _ q σ0) as [[[raw' sc] [e|]] σ1] eqn:E;
    pose proof (request_done_quiet start sc verb kind sub σ1) as [Hd Hd'];
    destruct (request_done g start sc verb kind sub σ1) as [[] σ2]; [done|].
  intros [= -> <-]. simpl in Hm, Hd'. split; [intros r; by rewrite Hd', Hm, Hn'|]. by exists σ0, sc, σ1.
Qed.

(** A request whose answer is read into an object. *)
Lemma send_into_answered q verb kind sub r σ σ' :
  send_into g codec q verb kind sub (Some r) σ = (None, σ') →
  ∃ σ0 raw sc σ1 o, rest_Raw (g_client g) q σ0 = ((raw, sc, None), σ1) ∧
    decoded raw = Some o ∧ deref r σ' = merge (deref r σ) o ∧
    (∀ id, stored id σ0 = stored id σ) ∧ (∀ id, stored id σ' = stored id σ1).
Proof using RS.
  unfold send_into, bind. destruct (send g q verb kind sub σ) as [[raw|e] σ1] eqn:E; [|done].
  intros [(o & Hd & Ho) Hq]%read_merges. apply send_answered in E as (Hm & σ0 & sc & σ2 & Hr & H0 & H1).
  exists σ0, raw, sc, σ2, o. rewrite Hm in Ho. repeat (split; [done|]). intros id. by rewrite Hq.
Qed.

Lemma get_latest id r σ σ' :
  get g codec id (Plural schema) (Some r) σ = (None, σ') →
  ∃ cur, head (stored id σ') = Some cur ∧ deref r σ' = merge (deref r σ) cur.
Proof using RS.
  intros (σ0 & raw & sc & σ1 & cur & Hr & Hd & Hm & _ & Hq)%send_into_answered.
  apply GET_latest in Hr as (o & Ho & Hh). rewrite Hd in Ho. injection Ho as <-.
  exists cur. by rewrite Hq.
Qed.

(** The object as it is encoded: with the label, and otherwise as it was. *)
Lemma encode_sent (k : string → Object → M W (option GoError)) r σ σ' :
  encode g codec r k σ = (None, σ') →
  ∃ bytes o sent σ1, decoded bytes = Some sent ∧ k bytes o σ1 = (None, σ') ∧ (∀ id, stored id σ1 = stored id σ) ∧
    identifier_of o = identifier_of (deref r σ) ∧ identifier_of sent = identifier_of o ∧
    GetResourceVersion sent = GetResourceVersion (deref r σ) ∧ GetSpec sent = sent_spec (GetSpec (deref r σ)).
Proof using RS.
  unfold encode, add_version_label, bind. rewrite update_ref_run. set (o := with_CommonMetadata _ _).
  destruct (codec_Write codec (Some r) _) as [[bytes [e|]] σ1] eqn:E; [done|].
  apply write_decoded in E as ((sent & Hd & Hid & Hv & Hs) & Hk & Hq). rewrite deref_store_eq in Hid, Hv, Hs, Hk.
  unfold gets. rewrite Hk. intros H. exists bytes, o, sent, σ1. do 2 (split; [done|]).
  split; [|done]. intros id. by rewrite Hq, stored_local.
Qed.

(** A [k8s.Client] over a REST client keeps the promises of [OptimisticServer]. *)
#[export] Instance rest_optimistic : OptimisticServer (k8s_client (mkK8sClient (gv_of g codec schema) schema)).
Proof using RS.
  refine {| versions := stored; merged := merge; wire := sent_spec |}.
  - apply stored_unique.
  - apply stored_numbered.
  - apply merge_version.
  - intros id σ r σ'. simpl. unfold k8s_Get, bind.
    destruct (ZeroValue schema σ) as [[into|] σ1] eqn:E; cbn [kc_schema]; rewrite E; simpl; [|done].
    destruct (get g codec id (Plural schema) (Some into) σ1) as [[e|] σ2] eqn:E2; [done|].
    intros [= -> ->]. apply get_latest in E2 as (cur & Hh & ->). by rewrite (merge_zero _ _ _ _ E).
  - intros id σ r σ'. simpl. apply get_latest.
  - done.
  - intros id r opts σ σ'. cbn [cl_UpdateInto k8s_client]. intros Hu Hrv Hsub Hdry.
    unfold k8s_UpdateInto, and_then, bind in Hu. rewrite bool_decide_eq_false_2 in Hu by done.
    rewrite !update_ref_run in Hu. simpl in Hu. rewrite bool_decide_eq_true_2 in Hu by done.
    rewrite deref_store_eq in Hu. set (o1 := with_StaticMetadata _ _) in Hu.
    set (o2 := with_ResourceVersion _ o1) in Hu. set (σ1 := store r o2 (store r o1 σ)) in Hu.
    apply encode_sent in Hu as (bytes & o & sent & σ2 & Hdec & Hsend & Hq & Ho & Hsent & Hver & Hspec).
    unfold σ1 in Hspec, Hver, Ho. rewrite deref_store_eq in Hspec, Hver, Ho.
    apply send_into_answered in Hsend as (σ3 & raw & sc & σ4 & o3 & Hr & _ & _ & Hq3 & Hq').
    assert (identifier_of o = id) as Hid by (rewrite Ho; by destruct id).
    apply (PUT_next _ _ _ _ _ _ _ _ Hdec) in Hr as (cur & past & new & Hsuf & Hcur & Hnew & Hstored);
      [|done | by rewrite Hver | done].
    rewrite Hid in Hsuf, Hstored. exists cur, past, new.
    split; [|split; [by rewrite Hcur, Hver | split; [by rewrite Hnew, Hspec | by rewrite Hq']]].
    rewrite Hq3, Hq in Hsuf. unfold σ1 in Hsuf. by rewrite !stored_local in Hsuf.
Defined.
End Promises.

(** ** A server for the witnesses *)

(** The bytes of an object: its resource version and its spec, with a bar between. *)
Fixpoint cut (c : ascii) (s : string) : option (string * string) :=
  match s with
  | EmptyString => None
  | String c' s' =>
      if ascii_dec c' c then Some (EmptyString, s')
      else match cut c s' with Some (a, b) => Some (String c' a, b) | None => None end
  end.

Definition stored_object (rv spec : string) : Object :=
  with_ResourceVersion rv
    (mkObject (mkStaticMetadata "g" "v1" "K" "ns" "x")
       (with_label versionLabel "v1" (GetCommonMetadata zeroObject)) spec).

Definition enc (o : Object) : string := GetResourceVersion o +:+ "|" +:+ GetSpec o.
Definition dec (b : string) : option Object := (λ '(rv, spec), stored_object rv spec) <$> cut "|" b.

#[export] Instance CommonMetadata_eq_dec : EqDecision CommonMetadata.
Proof. solve_decision. Defined.
#[export] Instance Object_eq_dec : EqDecision Object.
Proof. solve_decision. Defined.

(** The spec of an object is a set of keys, of one character each; decoding into an object
    keeps the keys it has. *)
Definition other_keys (old new : string) : string :=
  Stdlib.Strings.String.string_of_list_ascii
    (filter (.∉ Stdlib.Strings.String.list_ascii_of_string new) (Stdlib.Strings.String.list_ascii_of_string old)).

Definition test_merge (old o : Object) : Object :=
  mkObject (GetStaticMetadata o) (GetCommonMetadata o) (other_keys (GetSpec old) (GetSpec o) +:+ GetSpec o).

Definition test_codec : Codec (W:=ServerWorld) := {|
  codec_Read b into := λ σ,
    match into, dec b with
    | Some r, Some o => (None, store r (test_merge (deref r σ) o) σ)
    | _, _ => (Some (ErrorString "cannot decode"), σ)
    end;
  codec_Write obj := λ σ,
    match obj with
    | Some r => if bool_decide (dec (enc (deref r σ)) = Some (deref r σ)) then (enc (deref r σ), None, σ)
                else ("", Some (ErrorString "cannot encode"), σ)
    | None => ("", Some (ErrorString "nil"), σ)
    end |}.

Fixpoint test_versions (l : list string) : list Object :=
  match l with
  | [] => []
  | spec :: l => stored_object ("v" +:+ pretty (List.length l)) spec :: test_versions l
  end.

Definition answer (l : list string) : string * Z * option GoError :=
  match test_versions l with
  | o :: _ => if bool_decide (dec (enc o) = Some o) then (enc o, 200%Z, None)
              else ("", 500%Z, Some (ErrorString "cannot encode"))
  | [] => ("", 404%Z, Some (ErrorString "not found"))
  end.

(** One object, which others write to before a PUT is checked. *)
Definition test_Raw (q : Request) : M ServerWorld (string * Z * option GoError) := λ σ,
  if String.eqb (rq_Verb q) "GET" then (answer (sv_specs σ), σ)
  else
    let specs := sv_others σ ++ sv_specs σ in
    match rq_Body q ≫= dec, test_versions specs with
    | Some o, cur :: _ =>
        if bool_decide (GetResourceVersion cur = GetResourceVersion o) then
          (answer (GetSpec o :: specs), mkServerWorld (sv_mem σ) (GetSpec o :: specs) [])
        else ("", 409%Z, Some sv_conflict, mkServerWorld (sv_mem σ) specs [])
    | _, _ => ("", 400%Z, Some (ErrorString "bad request"), mkServerWorld (sv_mem σ) specs [])
    end.

Definition test_rest : RestInterface ServerWorld :=
  mkRest test_Raw (λ q, let* r := test_Raw q in ret (r.1.2, r.2)) (λ _, ret (inl 0)).

Definition test_gv : GVClient ServerWorld := mkGVClient test_rest "v1" None None None None.

Lemma test_versions_fresh l n : (List.length l ≤ n)%nat →
  ("v" +:+ pretty n)%string ∉ (GetResourceVersion <$> test_versions l).
Proof.
  induction l as [|s l IH]; simpl; intros Hn Hin; [by apply elem_of_nil in Hin|].
  apply elem_of_cons in Hin as [Heq|Hin]; [|by apply IH; [lia|]].
  cbv [GetResourceVersion stored_object with_ResourceVersion with_CommonMetadata] in Heq. simpl in Heq.
  injection Heq as Heq. change (pretty n = pretty (List.length l)) in Heq. apply (inj pretty) in Heq. lia.
Qed.

Lemma test_versions_app l1 l2 : ∃ l, test_versions (l1 ++ l2) = l ++ test_versions l2.
Proof.
  induction l1 as [|s l1 [l IH]]; [by exists []|]. simpl. rewrite IH.
  by exists (stored_object ("v" +:+ pretty (List.length (l1 ++ l2))) s :: l).
Qed.

Lemma answer_latest l raw sc :
  answer l = (raw, sc, None) → ∃ o, dec raw = Some o ∧ head (test_versions l) = Some o.
Proof.
  unfold answer. destruct (test_versions l) as [|o os]; [done|]. case_bool_decide; [|done].
  intros [= <- <-]. by exists o.
Qed.

Definition test_schema : Schema ServerWorld :=
  mkSchema ServerWorld "g" "v1" "K" "ks" (λ σ, (Some 1, store 1 zeroObject σ)) (ret None) NamespacedScope [].

#[export] Instance test_RestServer : RestServer test_gv test_codec test_schema.
Proof.
  refine {| stored _ σ := test_versions (sv_specs σ); decoded := dec; merge := test_merge; sent_spec s := s |}; try done.
  - intros id σ. clear id. induction (sv_specs σ) as [|s l IH]; simpl; [constructor|].
    constructor; [by apply (test_versions_fresh l (List.length l)) | done].
  - intros id σ o. clear id. induction (sv_specs σ) as [|s l IH]; simpl; [by intros ?%elem_of_nil|].
    intros [->|?]%elem_of_cons; [done | by apply IH].
  - intros q r σ. simpl. unfold test_Raw. destruct (String.eqb _ _); [done|].
    destruct (rq_Body q ≫= dec), (test_versions (sv_others σ ++ sv_specs σ)); try done. by case_bool_decide.
  - intros into o σ σ' [= <- <-]. simpl. rewrite lookup_insert_eq. by destruct o.
  - intros r σ bytes σ'. simpl. case_bool_decide as Hd; [|done]. intros [= <- <-]. split; [|done]. by eexists.
  - intros raw r σ σ'. cbn [codec_Read test_codec]. destruct (dec raw) as [o|]; [|done]. intros [= <-].
    split; [|done]. exists o. simpl. by rewrite lookup_insert_eq.
  - intros id σ raw sc σ'. unfold get_request, in_namespace, when.
    destruct (negb _); simpl; unfold test_Raw; simpl; intros [= H <-]; by apply answer_latest in H.
  - intros bytes o sent opts σ raw sc σ' Hd Hid Hrv Hdry.
    unfold update_request, dry_run, in_namespace, when. rewrite Hdry.
    destruct (negb _); simpl; unfold test_Raw; simpl; rewrite Hd;
      destruct (test_versions (sv_others σ ++ sv_specs σ)) as [|cur past] eqn:E; try done;
      (case_bool_decide as Hc; [|done]); intros [= _ <-]; simpl; rewrite E;
      destruct (test_versions_app (sv_others σ) (sv_specs σ)) as [l0 Hl0]; rewrite E in Hl0;
      (eexists cur, past, _; split; [by exists l0|]; split; [done|]; split; [|by left]; done).
Defined.

#[export] Instance test_RestJSON : RestJSON := {
  parse_status _ := None; unmarshal_metadata s := inl s; marshal_DeleteOptions _ := inl "{}" }.
#[export] Instance test_ListJSON : ListJSON := { unmarshal_list s := inl (mkK8sListWithItems "1" "" [s]) }.
#[export] Instance test_PatchJSON : PatchJSON := { marshal_operations _ := inl "[]" }.
#[export] Instance test_ObjectMetaFields : ObjectMetaFields.
Proof. refine {| metaV1Fields := {[ "finalizers"; "resourceVersion"; "labels"; "annotations" ]} |}; by vm_compute. Defined.

Definition test_client : Client ServerWorld := k8s_client (mkK8sClient (gv_of test_gv test_codec test_schema) test_schema).

(** The update function of the witness: add an exclamation mark to the spec. *)
Definition exclaim : Obj → bool → M ServerWorld (Obj * option GoError) := λ obj _,
  match obj with
  | Some r =>
      update_ref r (λ o, mkObject (GetStaticMetadata o) (GetCommonMetadata o) (GetSpec o +:+ "!")) ;;;
      ret (Some r, None)
  | None => ret (None, None)
  end.

(** ** Properties *)

(** C12: [UpdateObject] through the SDK's client, down to the requests, for an update of the
    whole object, not a dry run, by a function that keeps the object's resource version and
    removes nothing from the server.  When it succeeds, the latest version the server stores
    has the spec the update function returned (as it reads back after it was sent, whatever
    labels the client has added), or nothing had to be changed; and the function was given
    the version just before it.  The first attempt is given exactly that version, read at the
    start.  A retry after a conflict is given that version decoded into the object of the
    attempt before, as the conflicting update left it: what the codec keeps of it ([merge])
    is in the object as well, and is written ([conflict_retry_restores_removed_keys]). *)
Theorem UpdateObject_over_rest {W} `{WW : !World W, MM : !Memory W, AE : !ApiErrors, RJ : !RestJSON, LJ : !ListJSON}
    `{OM : !ObjectMetaFields, PJ : !PatchJSON} (g : GVClient W) codec schema
    `{RS : !RestServer g codec schema} identifier is_T f opts σ r σ' :
  let client := k8s_client (mkK8sClient (gv_of g codec schema) schema) in
  keeps_version client identifier f → uo_Subresource opts = "" → uo_DryRun opts = false →
  UpdateObject (Some client) identifier is_T (Some f) opts σ = (Some (Some r, None), σ') →
  ∃ r0 (retry : bool) σ0 σ1 cur past new,
    (if retry then
       ∃ o e σa σb, cl_UpdateInto client identifier (Some r0) o (Some r0) σa = (Some e, σb) ∧
         IsConflict e = true ∧ cl_GetInto client identifier (Some r0) σb = (None, σ0) ∧
         deref r0 σ0 = merge (deref r0 σb) cur
     else cl_Get client identifier σ = ((Some r0, None), σ0) ∧ deref r0 σ0 = cur) ∧
    f (Some r0) retry σ0 = ((Some r, None), σ1) ∧ GetSpec new = sent_spec (GetSpec (deref r σ1)) ∧
    (stored identifier σ' = new :: cur :: past ∨ new = cur ∧ stored identifier σ' = cur :: past).
Proof. intros client Hk Hs Hd H. exact (UpdateObject_from_latest client _ _ _ _ _ _ _ Hk Hs Hd H). Qed.

(** Another client writes between the read and the first update, which conflicts. *)
Lemma UpdateObject_over_rest_witness :
  ∃ r0 (retry : bool) σ0 σ1 cur past new σ',
    UpdateObject (Some test_client) (mkIdentifier "ns" "x") (λ _, true) (Some exclaim) UpdateOptions_zero
      (mkServerWorld ∅ ["a"] ["b"]) = (Some (Some 1, None), σ') ∧
    sv_specs σ' = ["a!b!"; "b"; "a"] ∧
    (if retry then
       ∃ o e σa σb, cl_UpdateInto test_client (mkIdentifier "ns" "x") (Some r0) o (Some r0) σa = (Some e, σb) ∧
         IsConflict e = true ∧ cl_GetInto test_client (mkIdentifier "ns" "x") (Some r0) σb = (None, σ0) ∧
         deref r0 σ0 = test_merge (deref r0 σb) cur
     else cl_Get test_client (mkIdentifier "ns" "x") (mkServerWorld ∅ ["a"] ["b"]) = ((Some r0, None), σ0) ∧
       deref r0 σ0 = cur) ∧
    exclaim (Some r0) retry σ0 = ((Some 1, None), σ1) ∧ GetSpec new = GetSpec (deref 1 σ1) ∧
    (test_versions (sv_specs σ') = new :: cur :: past ∨ new = cur ∧ test_versions (sv_specs σ') = cur :: past).
Proof.
  destruct (UpdateObject (Some test_client) (mkIdentifier "ns" "x") (λ _, true) (Some exclaim)
    UpdateOptions_zero (mkServerWorld ∅ ["a"] ["b"])) as [res σ'] eqn:E.
  assert (res = Some (Some 1, None) ∧ sv_specs σ' = ["a!b!"; "b"; "a"]) as [-> Hs].
  { change res with (res, σ').1. change (sv_specs σ') with (sv_specs (res, σ').2). rewrite <- E. clear E.
    split; [vm_cast_no_check (@eq_refl (option (Obj * option GoError)) (Some (Some 1, None)))
           | vm_cast_no_check (@eq_refl (list string) ["a!b!"; "b"; "a"])]. }
  destruct (UpdateObject_over_rest test_gv test_codec test_schema (mkIdentifier "ns" "x") (λ _, true) exclaim
    UpdateOptions_zero (mkServerWorld ∅ ["a"] ["b"]) 1 σ')
    as (r0 & retry & σ0 & σ1 & cur & past & new & H1 & H2 & H3 & H4).
  - intros r b σ r' σ1 [= <- <-]. simpl. rewrite lookup_insert_eq. split; [reflexivity | done].
  - reflexivity.
  - reflexivity.
  - exact E.
  - exists r0, retry, σ0, σ1, cur, past, new, σ'. repeat (split; [first [reflexivity | assumption]|]). exact H4.
Defined.

(** The retry brings back what another client has removed: the object had the keys [a] and
    [b], the other client removed [b] while [UpdateObject] was running, and the version
    that is written has [b] again, though the update function only adds an exclamation
    mark. *)
Theorem conflict_retry_restores_removed_keys :
  let '(result, σ') := UpdateObject (Some test_client) (mkIdentifier "ns" "x") (λ _, true) (Some exclaim)
                         UpdateOptions_zero (mkServerWorld ∅ ["ab"] ["a"]) in
  result = Some (Some 1, None) ∧ sv_specs σ' = ["b!a!"; "a"; "ab"].
Proof.
  destruct (UpdateObject _ _ _ _ _ _) as [res σ'] eqn:E.
  change res with (res, σ').1. change (sv_specs σ') with (sv_specs (res, σ').2). rewrite <- E. clear E.
  split; [vm_cast_no_check (@eq_refl (option (Obj * option GoError)) (Some (Some 1, None)))
         | vm_cast_no_check (@eq_refl (list string) ["b!a!"; "a"; "ab"])].
Qed.

(** A request that the server did not answer (status code 0) is reported as 503 by every
    operation but [delete], whose error is returned as it came, without an API status. *)
Theorem delete_timeout_unparsed {W} `{WW : !World W, MM : !Memory W, RJ : !RestJSON} (g : GVClient W)
    codec identifier plural into e :
  AsAPIStatus e = None → AsStatusError e = None →
  (∀ q σ, ∃ σ', rest_Raw (g_client g) q σ = (("", 0%Z, Some e), σ')) →
  (∀ q σ, ∃ σ', rest_Error (g_client g) q σ = ((0%Z, Some e), σ')) →
  ∀ σ, (delete g identifier plural DeleteOptions_zero σ).1 = Some e ∧
    ∃ e', (get g codec identifier plural into σ).1 = Some e' ∧
      AsAPIStatus e' = Some (mkStatus 503 "" (Error e)).
Proof.
  intros He Hs Hraw Herr σ. split.
  - unfold delete, send_delete, bind. simpl. destruct (Now σ) as [start σ0].
    destruct (Herr (delete_request identifier plural) σ0) as [σ1 ->].
    by destruct (request_done g start 0 "DELETE" plural "spec" σ1).
  - unfold get, send_into, send, bind. destruct (Now σ) as [start σ0].
    destruct (Hraw (get_request identifier plural) σ0) as [σ1 ->].
    destruct (request_done g start 0 "GET" plural "spec" σ1).
    eexists. split; [reflexivity|]. unfold parse_error, ParseKubernetesError. simpl. by rewrite Hs.
Qed.
