(* ===== verification/WatchStream.v ===== *)
(** * Watch streams ([WatchResponse] and [metricsWatchWrapper] of [k8s/gvclient.go])

    [WatchResponse] translates the events of a [watch.Interface] in a goroutine and passes
    them on; [metricsWatchWrapper] counts them on the way.  Both are step relations over the
    goroutine, the channels and the callers, who hold [startMux] while they wait; a panic
    ends everything.  The objects of the events are [EventObject]; what [Into] makes of the bytes
    of an event (a copy of the example object, read by the codec) is an argument. *)
From S2P Require Import Prelude Resource ResourceWatcher Schema Client Rest.

#[local] Open Scope string_scope.
#[local] Open Scope list_scope.

(** [watch.Event]; its object implements [resource.Object], or has [Into] or
    [ResourceObject] ([k8s/wrappers.go]), or none of them. *)
Inductive EventObject :=
| NilObject
| ItselfObject (r : Ref)
| IntoObject (bytes : string)
| WrappedObject (o : Obj)
| UnknownObject.

Record Event := mkEvent { ev_Type : string; ev_Object : EventObject }.

(** [resource.WatchEvent] *)
Record WatchEvent := mkWatchEvent { we_EventType : string; we_Object : Obj }.

(** The size of the buffer: [options.EventBufferSize], at least 1. *)
Definition channelBufferSize (options : WatchOptions) : nat :=
  if (wo_EventBufferSize options <=? 0)%Z then 1 else Z.to_nat (wo_EventBufferSize options).

(** What becomes of an event: it is passed on, or skipped and counted as an error. *)
Inductive translation := Passed (e : WatchEvent) | Skipped (error : string).

Section Watch.
Context (Into : string → Ref + GoError) (cap : nat) (metrics : bool).

(** The translation of an event; a wrapper without an object makes the logging call
    dereference nil. *)
Definition translate (evt : Event) : called translation :=
  match ev_Object evt with
  | NilObject => Returned (Skipped "nil_object")
  | ItselfObject r => Returned (Passed (mkWatchEvent (ev_Type evt) (Some r)))
  | IntoObject bytes =>
      match Into bytes with
      | inl r => Returned (Passed (mkWatchEvent (ev_Type evt) (Some r)))
      | inr _ => Returned (Skipped "translation_error")
      end
  | WrappedObject (Some r) => Returned (Passed (mkWatchEvent (ev_Type evt) (Some r)))
  | WrappedObject None => Panics
  | UnknownObject => Returned (Skipped "unparseable_object")
  end.

(** The events that are passed on. *)
Definition passed (evts : list Event) : list WatchEvent :=
  omap (λ e, match translate e with Returned (Passed w) => Some w | _ => None end) evts.

(** ** [WatchResponse]

    A translating goroutine waits in its [select], or sends, or has received a stop and is
    about to close [stopCh], or has ended.  A caller of [Stop] or [KubernetesWatch] sends on
    [stopCh], and then does the rest. *)
Inductive goroutine := GSelect | GSend (e : WatchEvent) | GClosing | GEnded.

Inductive caller := CFree | CSending (kube : bool) | CRest (kube : bool).

Record WatchResponse := mkWatchResponse {
  w_ts : list goroutine;
  w_call : caller;
  w_started : bool;
  w_src : list Event;
  w_src_closed : bool;
  w_ch : list WatchEvent;
  w_ch_closed : bool;
  w_stopCh_closed : bool;
  w_counted : list (string + string);
  w_panicked : bool;
}.

(** The response [watch] makes of a stream. *)
Definition new_WatchResponse : WatchResponse :=
  mkWatchResponse [] CFree false [] false [] false false [] false.

Definition with_ts (ts : list goroutine) (s : WatchResponse) : WatchResponse :=
  mkWatchResponse ts (w_call s) (w_started s) (w_src s) (w_src_closed s) (w_ch s) (w_ch_closed s)
    (w_stopCh_closed s) (w_counted s) (w_panicked s).
Definition with_call (c : caller) (started : bool) (s : WatchResponse) : WatchResponse :=
  mkWatchResponse (w_ts s) c started (w_src s) (w_src_closed s) (w_ch s) (w_ch_closed s)
    (w_stopCh_closed s) (w_counted s) (w_panicked s).
Definition with_src (src : list Event) (closed : bool) (s : WatchResponse) : WatchResponse :=
  mkWatchResponse (w_ts s) (w_call s) (w_started s) src closed (w_ch s) (w_ch_closed s)
    (w_stopCh_closed s) (w_counted s) (w_panicked s).
Definition with_ch (ch : list WatchEvent) (closed : bool) (s : WatchResponse) : WatchResponse :=
  mkWatchResponse (w_ts s) (w_call s) (w_started s) (w_src s) (w_src_closed s) ch closed
    (w_stopCh_closed s) (w_counted s) (w_panicked s).
Definition close_stopCh (s : WatchResponse) : WatchResponse :=
  mkWatchResponse (w_ts s) (w_call s) (w_started s) (w_src s) (w_src_closed s) (w_ch s) (w_ch_closed s)
    true (w_counted s) (w_panicked s).
Definition panicked (s : WatchResponse) : WatchResponse :=
  mkWatchResponse (w_ts s) (w_call s) (w_started s) (w_src s) (w_src_closed s) (w_ch s) (w_ch_closed s)
    (w_stopCh_closed s) (w_counted s) true.

(** [incWatchEventCounter] and [incWatchErrorCounter], by the label that is counted. *)
Definition count (l : string + string) (s : WatchResponse) : WatchResponse :=
  mkWatchResponse (w_ts s) (w_call s) (w_started s) (w_src s) (w_src_closed s) (w_ch s) (w_ch_closed s)
    (w_stopCh_closed s) (if metrics then w_counted s ++ [l] else w_counted s) (w_panicked s).

(** The [case evt := <-w.watch.ResultChan()] of goroutine [i]. *)
Definition received (i : nat) (evt : Event) (s : WatchResponse) : WatchResponse :=
  match translate evt with
  | Panics => panicked s
  | Returned (Skipped e) => count (inr e) s
  | Returned (Passed w) => count (inl (ev_Type evt)) (with_ts (<[i := GSend w]> (w_ts s)) s)
  end.

(** What a received event is when the channel is closed. *)
Definition zero_event : Event := mkEvent "" NilObject.

(** The rest of [Stop] and of [KubernetesWatch], once [stopCh] has taken the message. *)
Definition finish_call (kube : bool) (s : WatchResponse) : WatchResponse :=
  if kube then with_call CFree false s
  else with_call CFree false (with_src (w_src s) true (with_ch (w_ch s) true s)).

Inductive wlabel :=
| LServer (e : Event) | LServerClose
| LTaken | LReceived (e : Event) | LSpin | LSent | LConsumed (e : WatchEvent)
| LWatchEvents | LStop | LKubernetesWatch | LHandoff | LClose | LFinished | LPanic.

Inductive wstep : WatchResponse → wlabel → WatchResponse → Prop :=
(* the server, and the consumer of [WatchEvents] *)
| w_server s e : w_panicked s = false → w_src_closed s = false →
    wstep s (LServer e) (with_src (w_src s ++ [e]) false s)
| w_server_close s : w_panicked s = false → wstep s LServerClose (with_src (w_src s) true s)
| w_consume s e ch : w_panicked s = false → w_ch s = e :: ch →
    wstep s (LConsumed e) (with_ch ch (w_ch_closed s) s)
(* the caller of [KubernetesWatch], who reads the stream itself *)
| w_take s e src : w_panicked s = false → w_started s = false → w_src s = e :: src →
    wstep s LTaken (with_src src (w_src_closed s) s)
(* the goroutine *)
| w_receive s i e src : w_panicked s = false → w_ts s !! i = Some GSelect → w_src s = e :: src →
    wstep s (LReceived e) (received i e (with_src src (w_src_closed s) s))
| w_spin s i : w_panicked s = false → w_ts s !! i = Some GSelect → w_src s = [] → w_src_closed s = true →
    wstep s LSpin (received i zero_event s)
| w_send s i e : w_panicked s = false → w_ts s !! i = Some (GSend e) → w_ch_closed s = false →
    (length (w_ch s) < cap)%nat →
    wstep s LSent (with_ch (w_ch s ++ [e]) false (with_ts (<[i := GSelect]> (w_ts s)) s))
| w_send_closed s i e : w_panicked s = false → w_ts s !! i = Some (GSend e) → w_ch_closed s = true →
    wstep s LPanic (panicked s)
| w_close s i : w_panicked s = false → w_ts s !! i = Some GClosing → w_stopCh_closed s = false →
    (∀ kube, w_call s ≠ CSending kube) →
    wstep s LClose (close_stopCh (with_ts (<[i := GEnded]> (w_ts s)) s))
| w_close_sending s i kube : w_panicked s = false → w_ts s !! i = Some GClosing → w_stopCh_closed s = false →
    w_call s = CSending kube → wstep s LPanic (panicked s)
| w_stopped_again s i : w_panicked s = false → w_ts s !! i = Some GSelect → w_stopCh_closed s = true →
    wstep s LPanic (panicked s)
(* the callers *)
| w_WatchEvents s : w_panicked s = false → w_call s = CFree →
    wstep s LWatchEvents
      (if w_started s then s else with_call CFree true (with_ts (w_ts s ++ [GSelect]) s))
| w_Stop s : w_panicked s = false → w_call s = CFree →
    wstep s LStop (with_call (CSending false) (w_started s) s)
| w_KubernetesWatch s : w_panicked s = false → w_call s = CFree →
    wstep s LKubernetesWatch (if w_started s then with_call (CSending true) true s else s)
| w_handoff s i kube : w_panicked s = false → w_call s = CSending kube → w_ts s !! i = Some GSelect →
    w_stopCh_closed s = false →
    wstep s LHandoff (with_call (CRest kube) (w_started s) (with_ts (<[i := GClosing]> (w_ts s)) s))
| w_send_on_closed s kube : w_panicked s = false → w_call s = CSending kube → w_stopCh_closed s = true →
    wstep s LPanic (panicked s)
| w_finish s kube : w_panicked s = false → w_call s = CRest kube → (kube = false → w_ch_closed s = false) →
    wstep s LFinished (finish_call kube s)
| w_finish_again s : w_panicked s = false → w_call s = CRest false → w_ch_closed s = true →
    wstep s LPanic (panicked s).

(** A run, and what it received and passed on. *)
Inductive wsteps : WatchResponse → list wlabel → WatchResponse → Prop :=
| wsteps_nil s : wsteps s [] s
| wsteps_snoc s ls s' l s'' : wsteps s ls s' → wstep s' l s'' → wsteps s (ls ++ [l]) s''.

Definition translated_events (ls : list wlabel) : list Event :=
  omap (λ l, match l with LReceived e => Some e | _ => None end) ls.

Definition consumed_events (ls : list wlabel) : list WatchEvent :=
  omap (λ l, match l with LConsumed e => Some e | _ => None end) ls.

(** *** One goroutine at a time *)
Definition active (g : goroutine) : bool :=
  match g with GSelect | GSend _ => true | GClosing | GEnded => false end.

Definition actives (ts : list goroutine) : nat := length (filter (λ g, active g = true) ts).

Definition sending (ts : list goroutine) : list WatchEvent :=
  omap (λ g, match g with GSend e => Some e | _ => None end) ts.

Lemma actives_app l1 l2 : actives (l1 ++ l2) = (actives l1 + actives l2)%nat.
Proof. unfold actives. by rewrite filter_app, length_app. Qed.

Lemma actives_cons g ts : actives (g :: ts) = ((if active g then 1 else 0) + actives ts)%nat.
Proof.
  unfold actives. destruct (active g) eqn:E; [by rewrite filter_cons_True | by rewrite filter_cons_False by (by rewrite E)].
Qed.

Definition sent_by (g : goroutine) : list WatchEvent := match g with GSend e => [e] | _ => [] end.

Lemma sending_cons g ts : sending (g :: ts) = sent_by g ++ sending ts.
Proof. by destruct g. Qed.

Lemma sending_app l1 l2 : sending (l1 ++ l2) = sending l1 ++ sending l2.
Proof. apply omap_app. Qed.

Lemma sending_inactive ts : actives ts = 0%nat → sending ts = [].
Proof.
  induction ts as [|g ts IH]; [done|]. rewrite actives_cons, sending_cons. by destruct g.
Qed.

(** The goroutine at a place, and the others. *)
Lemma goroutine_split (ts : list goroutine) i g g' :
  ts !! i = Some g → ∃ l1 l2, ts = l1 ++ g :: l2 ∧ <[i := g']> ts = l1 ++ g' :: l2.
Proof.
  intros H. exists (take i ts), (drop (S i) ts). split; [by rewrite take_drop_middle|].
  apply lookup_lt_Some in H. by rewrite insert_take_drop.
Qed.

(** When an active goroutine moves and is the only one. *)
Lemma actives_insert (ts : list goroutine) i g g' :
  ts !! i = Some g → active g = true → (actives ts ≤ 1)%nat →
  actives (<[i := g']> ts) = (if active g' then 1 else 0)%nat ∧
  sending ts = sent_by g ∧ sending (<[i := g']> ts) = sent_by g'.
Proof.
  intros (l1 & l2 & -> & ->)%(goroutine_split _ _ _ g') Hg.
  rewrite !actives_app, !actives_cons, Hg. intros Hle.
  assert (actives l1 = 0 ∧ actives l2 = 0)%nat as [H1 H2] by lia. rewrite H1, H2. split; [lia|].
  by rewrite !sending_app, !sending_cons, (sending_inactive l1 H1), (sending_inactive l2 H2), !app_nil_r.
Qed.

Lemma actives_insert_inactive (ts : list goroutine) i g g' :
  ts !! i = Some g → active g = false → active g' = false →
  actives (<[i := g']> ts) = actives ts ∧ sending (<[i := g']> ts) = sending ts.
Proof.
  intros (l1 & l2 & -> & ->)%(goroutine_split _ _ _ g') Hg Hg'.
  rewrite !actives_app, !actives_cons, Hg, Hg'. split; [done|].
  rewrite !sending_app, !sending_cons. by destruct g, g'.
Qed.

(** While no call has come back, a goroutine runs only if one was started; the one that
    took the stop no longer does. *)
Definition watch_inv (s : WatchResponse) : Prop :=
  (actives (w_ts s) ≤ 1)%nat ∧
  (w_started s = false → actives (w_ts s) = 0%nat) ∧
  (∀ kube, w_call s = CRest kube → actives (w_ts s) = 0%nat).

Lemma received_inv i e s :
  w_ts s !! i = Some GSelect → watch_inv s → watch_inv (received i e s).
Proof.
  intros Hi (H1 & H2 & H3). unfold received. destruct (translate e) as [[w|err]|]; try done.
  destruct (actives_insert _ _ _ (GSend w) Hi eq_refl H1) as (Ha & _).
  assert (actives (w_ts s) ≠ 0%nat) as Hne.
  { destruct (goroutine_split _ _ _ GSelect Hi) as (l1 & l2 & -> & _). rewrite actives_app, actives_cons. simpl. lia. }
  repeat split; simpl; rewrite ?Ha; simpl; [lia | intros Hs; by destruct (Hne (H2 Hs)) |].
  intros kube Hc. by destruct (Hne (H3 kube Hc)).
Qed.

Lemma select_active (ts : list goroutine) i g : ts !! i = Some g → active g = true → actives ts ≠ 0%nat.
Proof.
  intros (l1 & l2 & -> & _)%(goroutine_split _ _ _ g) Hg. rewrite actives_app, actives_cons, Hg. lia.
Qed.

Lemma watch_inv_step s l s' : wstep s l s' → watch_inv s → watch_inv s'.
Proof.
  intros Hstep Hinv. pose proof Hinv as (H1 & H2 & H3). destruct Hstep; try exact Hinv.
  - by apply received_inv.
  - destruct (actives_insert _ _ _ GSelect H0 eq_refl H1) as (Ha & _).
    pose proof (select_active _ _ _ H0 eq_refl). repeat split; simpl; rewrite ?Ha; simpl; [lia|..].
    + intros Hs. by destruct (H6 (H2 Hs)).
    + intros kube Hc. by destruct (H6 (H3 kube Hc)).
  - destruct (actives_insert_inactive _ _ _ GEnded H0 eq_refl eq_refl) as [Ha _].
    unfold watch_inv. simpl. by rewrite Ha.
  - destruct (w_started s) eqn:E; [done|]. specialize (H2 eq_refl).
    assert (actives [GSelect] = 1%nat) as Ha by done.
    repeat split; simpl; rewrite ?actives_app, ?H2, ?Ha; simpl; [lia | done | done].
  - repeat split; simpl; [done | done | done].
  - destruct (w_started s) eqn:E; [|done]. repeat split; simpl; done.
  - destruct (actives_insert _ _ _ GClosing H4 eq_refl H1) as (Ha & _).
    repeat split; simpl; rewrite Ha; simpl; [lia | done | done].
  - pose proof (H3 _ H0) as Hz. destruct kube; repeat split; simpl; rewrite ?Hz; (lia || done).
Qed.

Lemma watch_inv_run ls s : wsteps new_WatchResponse ls s → watch_inv s.
Proof.
  remember new_WatchResponse as s0 eqn:E. induction 1 as [s|s ls s' l s'' Hs IH Hl].
  - subst s. split; [unfold actives; simpl; lia | by split].
  - eapply watch_inv_step; [exact Hl | by apply IH].
Qed.

(** *** What is passed on *)
Lemma received_order i e s :
  w_ts s !! i = Some GSelect → watch_inv s →
  w_ch (received i e s) ++ sending (w_ts (received i e s)) = w_ch s ++ sending (w_ts s) ++ passed [e].
Proof.
  intros Hi (H1 & _). destruct (actives_insert _ _ _ GSelect Hi eq_refl H1) as (_ & Hn & _).
  unfold received, passed. simpl. rewrite Hn. destruct (translate e) as [[w|err]|]; simpl; rewrite ?Hn; try done.
  by destruct (actives_insert _ _ _ (GSend w) Hi eq_refl H1) as (_ & _ & ->).
Qed.

Lemma zero_event_skipped : translate zero_event = Returned (Skipped "nil_object").
Proof. done. Qed.

Lemma wstep_order s l s' :
  wstep s l s' → watch_inv s →
  consumed_events [l] ++ w_ch s' ++ sending (w_ts s') =
    w_ch s ++ sending (w_ts s) ++ passed (translated_events [l]).
Proof.
  intros Hstep Hinv. pose proof Hinv as (H1 & _). destruct Hstep; simpl; rewrite ?app_nil_r; try done.
  - by rewrite H0.
  - by apply (received_order i e (with_src src (w_src_closed s) s)).
  - destruct (actives_insert _ _ _ GSelect H0 eq_refl H1) as (_ & -> & ->). by rewrite app_nil_r.
  - by destruct (actives_insert_inactive _ _ _ GEnded H0 eq_refl eq_refl) as [_ ->].
  - destruct (w_started s); simpl; [done|]. by rewrite sending_app, app_nil_r.
  - by destruct (w_started s).
  - by destruct (actives_insert _ _ _ GClosing H2 eq_refl H1) as (_ & -> & ->).
  - by destruct kube.
Qed.

Lemma wsteps_order ls s :
  wsteps new_WatchResponse ls s →
  consumed_events ls ++ w_ch s ++ sending (w_ts s) = passed (translated_events ls).
Proof.
  intros H. remember new_WatchResponse as s0 eqn:E. induction H as [s|s ls s' l s'' Hs IH Hl]; [by subst|].
  subst s. specialize (IH eq_refl). apply watch_inv_run in Hs. pose proof (wstep_order _ _ _ Hl Hs) as Ho.
  unfold consumed_events, translated_events, passed in *. rewrite !omap_app, <- (assoc_L (++)), Ho.
  by rewrite <- IH, <- !(assoc_L (++)).
Qed.

(** *** Without a stop *)

(** A label of a call that stops the translation. *)
Definition stops (l : wlabel) : Prop := l = LStop ∨ l = LKubernetesWatch.

Definition running (s : WatchResponse) : Prop :=
  w_call s = CFree ∧ w_ch_closed s = false ∧ w_stopCh_closed s = false ∧ GClosing ∉ w_ts s ∧
  w_panicked s = false.

Lemma insert_not_closing (ts : list goroutine) i g :
  GClosing ∉ ts → g ≠ GClosing → GClosing ∉ <[i := g]> ts.
Proof.
  intros Hn Hg [j Hj]%list_elem_of_lookup. apply list_lookup_insert_Some in Hj as [(-> & E & _)|[_ Hj]]; [done|].
  apply Hn, list_elem_of_lookup. by exists j.
Qed.

Lemma running_step s l s' :
  wstep s l s' → ¬ stops l → (∀ e, l = LReceived e → translate e ≠ Panics) → running s → running s'.
Proof.
  intros Hstep Hl He (H1 & H2 & H3 & H4 & H5). unfold stops in Hl.
  destruct Hstep; try (by repeat split); try congruence; try (exfalso; by auto).
  - specialize (He _ eq_refl). unfold received, running.
    destruct (translate e) as [[w|err]|]; [|by repeat split|done].
    repeat split; simpl; try done. by apply insert_not_closing.
  - repeat split; simpl; try done. by apply insert_not_closing.
  - exfalso. apply H4, list_elem_of_lookup. by exists i.
  - destruct (w_started s); [by repeat split|]. repeat split; simpl; try done.
    rewrite elem_of_app, list_elem_of_singleton. by intros [?|?].
Qed.

Lemma running_run ls s :
  wsteps new_WatchResponse ls s → (∀ l, l ∈ ls → ¬ stops l) →
  (∀ e, e ∈ translated_events ls → translate e ≠ Panics) → running s.
Proof.
  intros H. remember new_WatchResponse as s0 eqn:E. induction H as [s|s ls s' l s'' Hs IH Hl]; intros Hn He.
  - subst s. repeat split. by intros ?%elem_of_nil.
  - eapply running_step; [exact Hl | apply Hn, elem_of_app; right; by left | | apply IH; [done | |]].
    + intros e ->. apply He. unfold translated_events. rewrite omap_app. apply elem_of_app. right. by left.
    + intros l' Hl'. apply Hn, elem_of_app. by left.
    + intros e Hin. apply He. unfold translated_events. rewrite omap_app. apply elem_of_app. by left.
Qed.

(** *** A stop that nobody receives *)
Definition stuck (s : WatchResponse) : Prop :=
  w_call s = CSending false ∧ w_ts s = [] ∧ w_stopCh_closed s = false ∧ w_ch s = [] ∧ w_ch_closed s = false ∧
  w_panicked s = false.

Lemma stuck_step s l s' : wstep s l s' → stuck s → stuck s' ∧ l ≠ LFinished.
Proof.
  intros Hstep (H1 & H2 & H3 & H4 & H5 & H6).
  destruct Hstep; rewrite ?H2 in *; try congruence; try (by repeat split); done.
Qed.

Lemma stuck_run s ls s' : wsteps s ls s' → stuck s → stuck s' ∧ LFinished ∉ ls.
Proof.
  induction 1 as [s|s ls s' l s'' Hs IH Hl]; intros H; [split; [done|by intros ?%elem_of_nil]|].
  destruct (IH H) as [Hst Hn]. destruct (stuck_step _ _ _ Hl Hst) as [H' Hne]. split; [done|].
  rewrite elem_of_app, list_elem_of_singleton. by intros [?|?].
Qed.
End Watch.

Arguments new_WatchResponse : clear implicits.

(** ** [metricsWatchWrapper]

    The goroutine of [ResultChan] waits in its [select], forwards an event, or has ended and
    closed the channel; [Stop] stops the stream, and its message is lost when the goroutine
    is not waiting. *)
Section Metrics.
Context (cap : nat) (metrics : bool).

Inductive forwarder := FIdle | FSelect | FSend (e : Event) | FEnded.

Record metricsWatchWrapper := mkMetricsWatchWrapper {
  m_g : forwarder;
  m_src : list Event;
  m_src_closed : bool;
  m_ch : list Event;
  m_counted : list (string + string);
}.

Definition new_wrapper : metricsWatchWrapper := mkMetricsWatchWrapper FIdle [] false [] [].

(** The channel is closed by the goroutine when it ends. *)
Definition m_ch_closed (s : metricsWatchWrapper) : bool := match m_g s with FEnded => true | _ => false end.

Definition with_g (g : forwarder) (s : metricsWatchWrapper) : metricsWatchWrapper :=
  mkMetricsWatchWrapper g (m_src s) (m_src_closed s) (m_ch s) (m_counted s).

(** The counters of an event, whose object may be missing. *)
Definition counts (e : Event) : list (string + string) :=
  if metrics then inl (ev_Type e) :: match ev_Object e with NilObject => [inr "nil_object"] | _ => [] end else [].

Inductive mlabel :=
| MServer (e : Event) | MServerClose | MResultChan | MReceived (e : Event) | MEnd | MSent
| MConsumed (e : Event) | MStop.

Inductive mstep : metricsWatchWrapper → mlabel → metricsWatchWrapper → Prop :=
| m_server s e : m_src_closed s = false →
    mstep s (MServer e) (mkMetricsWatchWrapper (m_g s) (m_src s ++ [e]) false (m_ch s) (m_counted s))
| m_server_close s :
    mstep s MServerClose (mkMetricsWatchWrapper (m_g s) (m_src s) true (m_ch s) (m_counted s))
| m_result_chan s : mstep s MResultChan (match m_g s with FIdle => with_g FSelect s | _ => s end)
| m_receive s e src : m_g s = FSelect → m_src s = e :: src →
    mstep s (MReceived e) (mkMetricsWatchWrapper (FSend e) src (m_src_closed s) (m_ch s) (m_counted s ++ counts e))
| m_end s : m_g s = FSelect → m_src s = [] → m_src_closed s = true → mstep s MEnd (with_g FEnded s)
| m_send s e : m_g s = FSend e → (length (m_ch s) < cap)%nat →
    mstep s MSent (mkMetricsWatchWrapper FSelect (m_src s) (m_src_closed s) (m_ch s ++ [e]) (m_counted s))
| m_consume s e ch : m_ch s = e :: ch →
    mstep s (MConsumed e) (mkMetricsWatchWrapper (m_g s) (m_src s) (m_src_closed s) ch (m_counted s))
| m_stop s g : g = m_g s ∨ m_g s = FSelect ∧ g = FEnded →
    mstep s MStop (mkMetricsWatchWrapper g (m_src s) true (m_ch s) (m_counted s)).

Inductive msteps : metricsWatchWrapper → list mlabel → metricsWatchWrapper → Prop :=
| msteps_nil s : msteps s [] s
| msteps_snoc s ls s' l s'' : msteps s ls s' → mstep s' l s'' → msteps s (ls ++ [l]) s''.

(** What the server sent, and what the consumer got. *)
Definition served (ls : list mlabel) : list Event :=
  omap (λ l, match l with MServer e => Some e | _ => None end) ls.
Definition m_consumed (ls : list mlabel) : list Event :=
  omap (λ l, match l with MConsumed e => Some e | _ => None end) ls.

(** What the wrapper holds, oldest first. *)
Definition held (s : metricsWatchWrapper) : list Event :=
  m_ch s ++ match m_g s with FSend e => [e] | _ => [] end ++ m_src s.

Lemma mstep_held s l s' : mstep s l s' → m_consumed [l] ++ held s' = held s ++ served [l].
Proof.
  intros Hstep. destruct Hstep; unfold held; simpl; rewrite ?app_nil_r, <- ?(assoc_L (++)); try done.
  - destruct (m_g s) eqn:E; simpl; by rewrite ?E.
  - by rewrite H, H0.
  - by rewrite H.
  - by rewrite H.
  - by rewrite H.
  - destruct H as [->|[-> ->]]; done.
Qed.

Lemma msteps_held ls s : msteps new_wrapper ls s → served ls = m_consumed ls ++ held s.
Proof.
  intros H. remember new_wrapper as s0 eqn:E. induction H as [s|s ls s' l s'' Hs IH Hl]; [by subst|].
  specialize (IH E). apply mstep_held in Hl. unfold served, m_consumed in *.
  by rewrite !omap_app, IH, <- !(assoc_L (++)), Hl.
Qed.

(** Without a stop, the goroutine ends only when the stream is at its end. *)
Lemma mstep_ended s l s' :
  mstep s l s' → l ≠ MStop → (m_g s = FEnded → m_src s = [] ∧ m_src_closed s = true) →
  m_g s' = FEnded → m_src s' = [] ∧ m_src_closed s' = true.
Proof.
  intros Hstep Hl IH Hg. destruct Hstep; simpl in *; try congruence; try (by destruct (IH Hg)); try (by apply IH).
  - destruct (IH Hg). congruence.
  - destruct (m_g s) eqn:E; simpl in *; first [congruence | by apply IH].
  - done.
Qed.

Lemma msteps_ended ls s :
  msteps new_wrapper ls s → MStop ∉ ls → m_g s = FEnded → m_src s = [] ∧ m_src_closed s = true.
Proof.
  intros H. remember new_wrapper as s0 eqn:E. induction H as [s|s ls s' l s'' Hs IH Hl]; intros Hn; [by subst|].
  rewrite elem_of_app, list_elem_of_singleton in Hn. eapply mstep_ended; [exact Hl | naive_solver | naive_solver].
Qed.
End Metrics.

(** ** [watch], and [k8s.Client.Watch]

    The stream, the size of the channel and the response. *)
Definition watch {W} (g : GVClient W) (namespace plural : string) (options : WatchOptions)
  : M W ((nat * nat * WatchResponse) + GoError) :=
  let* resp := open_watch g namespace plural options in
  ret (match resp with
       | inr e => inr e
       | inl stream => inl (stream, channelBufferSize options, new_WatchResponse)
       end).

Definition k8s_Watch {W} (g : GVClient W) (schema : Schema W) (namespace : string) (options : WatchOptions)
  : M W ((nat * nat * WatchResponse) + GoError) :=
  if bool_decide (Scope_ schema = ClusterScope) && negb (bool_decide (namespace = NamespaceAll)) then
    ret (inr (scope_error "watch resources" (Scope_ schema) namespace))
  else watch g namespace (Plural schema) options.

(** ** Properties *)

(** C16: In every interleaving the consumer gets the translations of the events the response
    received, in order, and none is lost on the way; as long as neither [Stop] nor
    [KubernetesWatch] is called the channel stays open, and nothing panics unless a wrapper
    holds no object. *)
Theorem WatchResponse_in_order Into cap metrics ls s :
  wsteps Into cap metrics new_WatchResponse ls s →
  consumed_events ls ++ w_ch s ++ sending (w_ts s) = passed Into (translated_events ls) ∧
  ((∀ l, l ∈ ls → ¬ stops l) → (∀ e, e ∈ translated_events ls → translate Into e ≠ Panics) →
   w_ch_closed s = false ∧ w_panicked s = false).
Proof.
  intros H. split; [by eapply wsteps_order|].
  intros Hn He. by destruct (running_run _ _ _ _ _ H Hn He) as (_ & ? & _ & _ & ?).
Qed.

(** C38: [Stop] of a response whose events nobody asked for never returns, and holds the lock
    that every other method takes. *)
Theorem Stop_unstarted_blocks Into cap metrics s ls s' :
  wstep Into cap metrics new_WatchResponse LStop s → wsteps Into cap metrics s ls s' →
  LFinished ∉ ls ∧ w_call s' = CSending false ∧ LWatchEvents ∉ ls ∧ w_ch_closed s' = false.
Proof.
  intros Hstep Hrun. assert (stuck s) as Hs by (inversion Hstep; by repeat split).
  destruct (stuck_run _ _ _ _ _ _ Hrun Hs) as [(H1 & H2 & _ & _ & H5 & _) Hn]. repeat split; try done.
  clear -Hrun Hs. induction Hrun as [s|s ls s' l s'' Hr IH Hl]; [by intros ?%elem_of_nil|].
  rewrite elem_of_app, list_elem_of_singleton. intros [?|<-]; [by apply IH|].
  destruct (stuck_run _ _ _ _ _ _ Hr Hs) as [(H1 & _) _]. inversion Hl; congruence.
Qed.

(** When the server ends the stream, a response does not: its goroutine receives nil events
    from the closed channel without end, counting each as an error, and the consumer's
    channel is never closed. *)
Theorem closed_watch_spins Into cap metrics ls s i :
  wsteps Into cap metrics new_WatchResponse ls s →
  (∀ l, l ∈ ls → ¬ stops l) → (∀ e, e ∈ translated_events ls → translate Into e ≠ Panics) →
  w_src_closed s = true → w_src s = [] → w_ts s !! i = Some GSelect →
  w_ch_closed s = false ∧ wstep Into cap metrics s LSpin (count metrics (inr "nil_object") s).
Proof.
  intros H Hn He Hc Hs Hi. destruct (running_run _ _ _ _ _ H Hn He) as (_ & ? & _ & _ & ?).
  split; [done|]. by apply (w_spin Into cap metrics s i).
Qed.

(** The wrapper that counts events forwards all of them, in order; without a [Stop], once
    its channel is closed the consumer has got, or can still read, everything the server
    sent. *)
Theorem metricsWatchWrapper_transparent cap metrics ls s :
  msteps cap metrics new_wrapper ls s →
  served ls = m_consumed ls ++ held s ∧
  (MStop ∉ ls → m_ch_closed s = true → served ls = m_consumed ls ++ m_ch s).
Proof.
  intros H. pose proof (msteps_held _ _ _ _ H) as Hh. split; [done|]. intros Hn Hc.
  unfold m_ch_closed in Hc. destruct (m_g s) eqn:E; try done.
  destruct (msteps_ended _ _ _ _ H Hn E) as [Hsrc _]. rewrite Hh. unfold held. by rewrite E, Hsrc, app_nil_r.
Qed.

Definition test_event : Event := mkEvent "ADDED" (ItselfObject 3).

Definition test_labels : list wlabel :=
  [LServer test_event; LWatchEvents; LReceived test_event; LSent; LConsumed (mkWatchEvent "ADDED" (Some 3))].

Lemma test_watch_run :
  ∃ s, wsteps (λ _, inl 0) 1 true new_WatchResponse test_labels s ∧ w_ch s = [] ∧ w_ts s = [GSelect].
Proof.
  eexists. split.
  - change test_labels with ((((([] ++ [LServer test_event]) ++ [LWatchEvents]) ++ [LReceived test_event]) ++ [LSent])
      ++ [LConsumed (mkWatchEvent "ADDED" (Some 3))]).
    eapply wsteps_snoc; [eapply wsteps_snoc; [eapply wsteps_snoc; [eapply wsteps_snoc; [eapply wsteps_snoc;
      [apply wsteps_nil | apply w_server; reflexivity] | apply w_WatchEvents; reflexivity] |
      eapply (w_receive _ _ _ _ 0); reflexivity] | eapply (w_send _ _ _ _ 0); [reflexivity..| simpl; lia]] |
      eapply w_consume; reflexivity].
  - by split.
Qed.

Lemma WatchResponse_in_order_witness :
  ∃ s, consumed_events test_labels ++ w_ch s ++ sending (w_ts s) = [mkWatchEvent "ADDED" (Some 3)] ∧
    w_ch_closed s = false.
Proof.
  destruct test_watch_run as (s & H & _). exists s.
  destruct (WatchResponse_in_order (λ _, inl 0) 1 true test_labels s H) as [Ho Hr]. split; [exact Ho|].
  apply Hr.
  - intros l Hl [-> | ->]; unfold test_labels in Hl; set_solver.
  - intros e ->%list_elem_of_singleton. discriminate.
Defined.

Lemma Stop_unstarted_blocks_witness :
  ∃ s, wstep (λ _, inl 0) 1 true new_WatchResponse LStop s ∧ w_call s = CSending false.
Proof.
  exists (with_call (CSending false) false new_WatchResponse).
  assert (wstep (λ _, inl 0) 1 true new_WatchResponse LStop (with_call (CSending false) false new_WatchResponse)) as H
    by (apply (w_Stop _ _ _ new_WatchResponse); reflexivity).
  split; [exact H|]. apply (Stop_unstarted_blocks (λ _, inl 0) 1 true _ [] _ H). apply wsteps_nil.
Defined.

Lemma closed_watch_spins_witness :
  let s := with_src [] true (with_call CFree true (with_ts [GSelect] new_WatchResponse)) in
  w_ch_closed s = false ∧ wstep (λ _, inl 0) 1 true s LSpin (count true (inr "nil_object") s).
Proof.
  apply (closed_watch_spins (λ _, inl 0) 1 true [LWatchEvents; LServerClose] _ 0); try reflexivity.
  - change [LWatchEvents; LServerClose] with (([] ++ [LWatchEvents]) ++ [LServerClose]).
    eapply wsteps_snoc; [eapply wsteps_snoc; [apply wsteps_nil | apply w_WatchEvents; reflexivity]|].
    apply (w_server_close (λ _, inl 0) 1 true (with_call CFree true (with_ts [GSelect] new_WatchResponse))). reflexivity.
  - intros l Hl [-> | ->]; set_solver.
  - intros e He. by apply elem_of_nil in He.
Defined.

Lemma metricsWatchWrapper_transparent_witness :
  served [MServer test_event; MResultChan; MServerClose] = [test_event].
Proof.
  assert (msteps 1 true new_wrapper [MServer test_event; MResultChan; MServerClose]
    (mkMetricsWatchWrapper FSelect [test_event] true [] [])) as H.
  { change [MServer test_event; MResultChan; MServerClose]
      with ((([] ++ [MServer test_event]) ++ [MResultChan]) ++ [MServerClose]).
    eapply msteps_snoc; [eapply msteps_snoc; [eapply msteps_snoc; [apply msteps_nil | apply m_server; reflexivity]|
      apply m_result_chan] | apply (m_server_close _ _ (mkMetricsWatchWrapper FSelect [test_event] false [] []))]. }
  rewrite (proj1 (metricsWatchWrapper_transparent 1 true _ _ H)). reflexivity.
Defined.
