(* ===== verification/Registry.v ===== *)
(** * The client registry and the schemaless client ([k8s/client_registry.go],
    [k8s/schemaless.go], [k8s/stream_error.go], the configurations of [k8s/client.go])

    Both keep the REST clients they have made: [ClientRegistry] for each kind, and for each
    group version of custom routes, [SchemalessClient] for each group version.  Making one
    ([rest.RESTClientFor]), the vectors of prometheus, the default user agent and the text
    of a group version are arguments.  [SchemalessClient] is shown to do what [k8s.Client]
    does ([Schemaless_does_what_Client_does]). *)
From S2P Require Import Prelude GoValues Resource ResourceWatcher Schema Client Concrete Store KubeErrors Admission Translation Rest WatchStream.

#[local] Open Scope string_scope.
#[local] Open Scope list_scope.

(** ** Stream errors ([k8s/stream_error.go]) *)

(** An HTTP response, by what reading its body gives, and a round tripper. *)
Record HTTPResponse (W : Type) := mkHTTPResponse { hr_Read : nat → M W (string * option GoError) }.
Arguments mkHTTPResponse {W}.
Arguments hr_Read {W}.

Definition RoundTripper (W : Type) : Type := string → M W (option (HTTPResponse W) * option GoError).

(** The methods of [net.Error], where an error has them. *)
Definition Timeout (e : GoError) : bool := match e with StreamConnectionError _ => true | _ => false end.
Definition Temporary (e : GoError) : bool := match e with StreamConnectionError _ => true | _ => false end.

Definition isStreamError (err : option GoError) : bool :=
  match err with
  | None => false
  | Some e =>
      let errStr := Error e in
      if Contains errStr "stream error:" then true
      else if Contains errStr "GOAWAY" then true
      else Contains errStr "INTERNAL_ERROR" || Contains errStr "received from peer" ||
           Contains errStr "connection reset" || Contains errStr "broken pipe"
  end.

(** [streamErrorReadCloser.Read] *)
Definition streamErrorReadCloser {W} (body : HTTPResponse W) : HTTPResponse W :=
  mkHTTPResponse (λ n,
    let* '(read, err) := hr_Read body n in
    ret (read, match err with
               | Some e => if isStreamError (Some e) then Some (StreamConnectionError e) else Some e
               | None => None
               end)).

(** [streamErrorTransport.RoundTrip] *)
Definition streamErrorTransport {W} (base : RoundTripper W) : RoundTripper W := λ req,
  let* '(resp, err) := base req in
  match err with
  | Some e => if isStreamError err then ret (resp, Some (StreamConnectionError e))
              else ret (streamErrorReadCloser <$> resp, err)
  | None => ret (streamErrorReadCloser <$> resp, err)
  end.

(** ** Configurations *)

(** [rest.TLSClientConfig] *)
Record TLSClientConfig := mkTLSClientConfig {
  tls_Insecure : bool;
  tls_ServerName : string;
  tls_CertFile : string;
  tls_KeyFile : string;
  tls_CAFile : string;
  tls_CertData : option string;
  tls_KeyData : option string;
  tls_CAData : option string;
}.

Inductive NegotiatedSerializer := GenericNegotiatedSerializer | ProvidedSerializer (name : string).

(** [rest.Config], the fields the SDK sets; the TLS configuration is embedded. *)
Record RestConfig (W : Type) := mkRestConfig {
  cf_Host : string;
  cf_APIPath : string;
  cf_GroupVersion : option (string * string);
  cf_NegotiatedSerializer : option NegotiatedSerializer;
  cf_BearerToken : string;
  cf_BearerTokenFile : string;
  cf_TLSClientConfig : TLSClientConfig;
  cf_UserAgent : string;
  cf_WrapTransport : option (RoundTripper W → RoundTripper W);
}.
Arguments mkRestConfig {W}.
Arguments cf_Host {W}.
Arguments cf_APIPath {W}.
Arguments cf_GroupVersion {W}.
Arguments cf_NegotiatedSerializer {W}.
Arguments cf_BearerToken {W}.
Arguments cf_BearerTokenFile {W}.
Arguments cf_TLSClientConfig {W}.
Arguments cf_UserAgent {W}.
Arguments cf_WrapTransport {W}.

Section Configs.
Context {W : Type}.
Implicit Types c : RestConfig W.

Definition with_APIPath (p : string) c : RestConfig W :=
  mkRestConfig (cf_Host c) p (cf_GroupVersion c) (cf_NegotiatedSerializer c) (cf_BearerToken c)
    (cf_BearerTokenFile c) (cf_TLSClientConfig c) (cf_UserAgent c) (cf_WrapTransport c).
Definition with_GroupVersion (gv : option (string * string)) c : RestConfig W :=
  mkRestConfig (cf_Host c) (cf_APIPath c) gv (cf_NegotiatedSerializer c) (cf_BearerToken c)
    (cf_BearerTokenFile c) (cf_TLSClientConfig c) (cf_UserAgent c) (cf_WrapTransport c).
Definition with_NegotiatedSerializer (s : NegotiatedSerializer) c : RestConfig W :=
  mkRestConfig (cf_Host c) (cf_APIPath c) (cf_GroupVersion c) (Some s) (cf_BearerToken c)
    (cf_BearerTokenFile c) (cf_TLSClientConfig c) (cf_UserAgent c) (cf_WrapTransport c).
Definition with_UserAgent (u : string) c : RestConfig W :=
  mkRestConfig (cf_Host c) (cf_APIPath c) (cf_GroupVersion c) (cf_NegotiatedSerializer c) (cf_BearerToken c)
    (cf_BearerTokenFile c) (cf_TLSClientConfig c) u (cf_WrapTransport c).

(** [WrapWithStreamErrorHandling] *)
Definition WrapWithStreamErrorHandling c : RestConfig W :=
  mkRestConfig (cf_Host c) (cf_APIPath c) (cf_GroupVersion c) (cf_NegotiatedSerializer c) (cf_BearerToken c)
    (cf_BearerTokenFile c) (cf_TLSClientConfig c) (cf_UserAgent c)
    (Some (λ rt, streamErrorTransport (match cf_WrapTransport c with Some wrap => wrap rt | None => rt end))).

(** [ClientConfig]; a provider is called with a kind that has a schema, since the group of
    the kind has been read before. *)
Record ClientConfig := mkClientConfig {
  cc_CustomMetadataIsAnyType : bool;
  cc_MetricsConfig : string;
  cc_NegotiatedSerializerProvider : option (Schema W → NegotiatedSerializer);
  cc_KubeConfigProvider : option (Schema W → RestConfig W → RestConfig W);
  cc_EnableStreamErrorHandling : bool;
}.

(** The API path of a kind's group, where none is configured. *)
Definition with_group_path (kind : Schema W) c : RestConfig W :=
  if String.eqb (Group kind) "" then with_APIPath "/api" c else with_APIPath "/apis" c.

Definition default_provider (kind : Schema W) c : RestConfig W :=
  if negb (String.eqb (cf_APIPath c) "") then c else with_group_path kind c.

(** [DefaultClientConfig] *)
Definition DefaultClientConfig : ClientConfig :=
  mkClientConfig false "" None (Some default_provider) true.

(** [RemoteRestConfig] *)
Record RemoteRestConfig := mkRemoteRestConfig {
  rr_Host : string;
  rr_TLSClientConfig : TLSClientConfig;
  rr_WrapTransport : option (RoundTripper W → RoundTripper W);
  rr_OverrideAuth : bool;
}.

(** The fields of the embedded [TLSClientConfig] that [overlayRemoteRestConfig] clears. *)
Definition clear_certificate (t : TLSClientConfig) : TLSClientConfig :=
  mkTLSClientConfig (tls_Insecure t) (tls_ServerName t) "" "" (tls_CAFile t) None None (tls_CAData t).

(** [overlayRemoteRestConfig] *)
Definition overlayRemoteRestConfig c (remoteCfg : RemoteRestConfig) : RestConfig W :=
  mkRestConfig (rr_Host remoteCfg) (cf_APIPath c) (cf_GroupVersion c) (cf_NegotiatedSerializer c)
    (if rr_OverrideAuth remoteCfg then "" else cf_BearerToken c)
    (if rr_OverrideAuth remoteCfg then "" else cf_BearerTokenFile c)
    (if rr_OverrideAuth remoteCfg then clear_certificate (rr_TLSClientConfig remoteCfg) else rr_TLSClientConfig remoteCfg)
    (cf_UserAgent c) (rr_WrapTransport remoteCfg).

(** [NewClientConfigWithExternalClients]; a nil entry of the map is no entry. *)
Definition external_provider (remotes : gmap string (option RemoteRestConfig)) (kind : Schema W) c : RestConfig W :=
  if negb (String.eqb (cf_APIPath c) "") then c
  else
    let c := with_group_path kind c in
    match remotes !! Group kind with
    | Some (Some remoteCfg) => overlayRemoteRestConfig c remoteCfg
    | _ => c
    end.

Definition NewClientConfigWithExternalClients (remotes : gmap string (option RemoteRestConfig)) : ClientConfig :=
  let config := DefaultClientConfig in
  mkClientConfig (cc_CustomMetadataIsAnyType config) (cc_MetricsConfig config)
    (cc_NegotiatedSerializerProvider config) (Some (external_provider remotes)) (cc_EnableStreamErrorHandling config).
End Configs.

Arguments ClientConfig : clear implicits.
Arguments RemoteRestConfig : clear implicits.

(** [GroupVersion.Identifier] of apimachinery, which tells group versions apart when the
    version has no slash. *)
Class GVNames := {
  Identifier_gv : string → string → string;
  Identifier_gv_inj g v g' v' :
    Contains v "/" = false → Contains v' "/" = false → Identifier_gv g v = Identifier_gv g' v' → g = g' ∧ v = v';
}.

(** What making clients takes: the vectors of prometheus for a metrics configuration, the
    default user agent, and [rest.RESTClientFor]. *)
Record Metrics (W : Type) := mkMetrics {
  mt_requestDurations : HistogramVec W;
  mt_totalRequests : CounterVec W;
  mt_watchEventsTotal : CounterVec W;
  mt_watchErrorsTotal : CounterVec W;
}.
Arguments mkMetrics {W}.
Arguments mt_requestDurations {W}.
Arguments mt_totalRequests {W}.
Arguments mt_watchEventsTotal {W}.
Arguments mt_watchErrorsTotal {W}.

Section Clients.
Context {W : Type} `{WW : !World W, MM : !Memory W, RJ : !RestJSON, LJ : !ListJSON, OM : !ObjectMetaFields}.
Context `{PJ : !PatchJSON, RO : !RangeOrder, GN : !GVNames}.
Context (NewVecs : string → Metrics W) (DefaultKubernetesUserAgent : string).
Context (RESTClientFor : RestConfig W → RestInterface W + GoError).

(** The [groupVersionClient] of a REST client. *)
Definition group_client (client : RestInterface W) (version : string) (m : Metrics W) : GVClient W :=
  mkGVClient client version (Some (mt_requestDurations m)) (Some (mt_totalRequests m))
    (Some (mt_watchEventsTotal m)) (Some (mt_watchErrorsTotal m)).

(** ** [ClientRegistry] *)
Record ClientRegistry := mkClientRegistry {
  cr_clients : gmap (string * string * string) (RestInterface W);
  cr_crClients : gmap (string * string) (RestInterface W);
  cr_cfg : RestConfig W;
  cr_clientConfig : ClientConfig W;
  cr_metrics : Metrics W;
}.

(** [NewClientRegistry] *)
Definition NewClientRegistry (kubeConfig : RestConfig W) (clientConfig : ClientConfig W) : ClientRegistry :=
  let c := with_UserAgent DefaultKubernetesUserAgent (with_NegotiatedSerializer GenericNegotiatedSerializer kubeConfig) in
  mkClientRegistry ∅ ∅ (if cc_EnableStreamErrorHandling clientConfig then WrapWithStreamErrorHandling c else c)
    clientConfig (NewVecs (cc_MetricsConfig clientConfig)).

Definition KindEncodingJSON : string := "application/json".

(** The configuration [getClientFor] makes a client of. *)
Definition config_for (c : ClientRegistry) (sch : Schema W) : RestConfig W :=
  let ccfg := with_GroupVersion (Some (Group sch, Version sch)) (cr_cfg c) in
  let ccfg := with_NegotiatedSerializer
    (match cc_NegotiatedSerializerProvider (cr_clientConfig c) with
     | Some provider => provider sch
     | None => GenericNegotiatedSerializer
     end) ccfg in
  match cc_KubeConfigProvider (cr_clientConfig c) with
  | Some provider => provider sch ccfg
  | None => ccfg
  end.

(** [getClientFor] *)
Definition getClientFor (sch : Schema W) (c : ClientRegistry) : (RestInterface W + GoError) * ClientRegistry :=
  let gvk := (Group sch, Version sch, Kind_ sch) in
  match cr_clients c !! gvk with
  | Some client => (inl client, c)
  | None =>
      match RESTClientFor (config_for c sch) with
      | inr err => (inr err, c)
      | inl client =>
          (inl client, mkClientRegistry (<[gvk := client]> (cr_clients c)) (cr_crClients c) (cr_cfg c)
                         (cr_clientConfig c) (cr_metrics c))
      end
  end.

(** [ClientFor]; [None] is the panic of a kind with a codec and no schema. *)
Definition ClientFor (sch : Kind (W:=W)) (c : ClientRegistry) : option ((k8s_Client W + GoError) * ClientRegistry) :=
  match Kind_Codec sch KindEncodingJSON with
  | None => Some (inr (ErrorString "no codec for KindEncodingJSON"), c)
  | Some codec =>
      match k_Schema sch with
      | None => None
      | Some s =>
          let '(client, c) := getClientFor s c in
          Some (match client with
                | inr err => inr err
                | inl client => inl (mkK8sClient (gv_of (group_client client (Version s) (cr_metrics c)) codec s) s)
                end, c)
      end
  end.

(** [NewClientWithRESTInterface], without metrics. *)
Definition NewClientWithRESTInterface (restClient : RestInterface W) (kind : Kind (W:=W)) : option (k8s_Client W + GoError) :=
  match Kind_Codec kind KindEncodingJSON with
  | None => Some (inr (ErrorString "no codec for KindEncodingJSON"))
  | Some codec =>
      match k_Schema kind with
      | None => None
      | Some s => Some (inl (mkK8sClient (gv_of (mkGVClient restClient (Version s) None None None None) codec s) s))
      end
  end.

(** [getCustomRouteClient] and [GetCustomRouteClient]: the client, by the
    [groupVersionClient] it sends its requests through. *)
Definition getCustomRouteClient (gv : string * string) (c : ClientRegistry) : (RestInterface W + GoError) * ClientRegistry :=
  match cr_crClients c !! gv with
  | Some client => (inl client, c)
  | None =>
      match RESTClientFor (with_GroupVersion (Some gv) (cr_cfg c)) with
      | inr err => (inr err, c)
      | inl client =>
          (inl client, mkClientRegistry (cr_clients c) (<[gv := client]> (cr_crClients c)) (cr_cfg c)
                         (cr_clientConfig c) (cr_metrics c))
      end
  end.

Definition GetCustomRouteClient (gv : string * string) (c : ClientRegistry) : (GVClient W + GoError) * ClientRegistry :=
  let '(client, c) := getCustomRouteClient gv c in
  (match client with
   | inr err => inr err
   | inl client => inl (group_client client gv.2 (cr_metrics c))
   end, c).

(** ** [SchemalessClient] *)
Record SchemalessClient := mkSchemalessClient {
  sc_kubeConfig : RestConfig W;
  sc_clientConfig : ClientConfig W;
  sc_codec : Codec (W:=W);
  sc_clients : gmap string (GVClient W);
  sc_metrics : Metrics W;
}.

(** [NewSchemalessClientWithCodec]; [NewSchemalessClient] is the same with the JSON codec. *)
Definition NewSchemalessClientWithCodec (kubeConfig : RestConfig W) (clientConfig : ClientConfig W)
    (jsonCodec : Codec (W:=W)) : SchemalessClient :=
  mkSchemalessClient
    (with_UserAgent DefaultKubernetesUserAgent (with_NegotiatedSerializer GenericNegotiatedSerializer kubeConfig))
    clientConfig jsonCodec ∅ (NewVecs (cc_MetricsConfig clientConfig)).

(** The methods change the client and the world. *)
Definition SW : Type := SchemalessClient * W.
Definition lift_sc {A} (m : M W A) : M SW A := λ '(s, σ), let '(a, σ') := m σ in (a, (s, σ')).

(** [getClient] *)
Definition getClient (identifier : FullIdentifier) : M SW (GVClient W + GoError) := λ '(s, σ),
  let key := Identifier_gv (fid_Group identifier) (fid_Version identifier) in
  match sc_clients s !! key with
  | Some c => (inl c, (s, σ))
  | None =>
      let kubeConfig := with_GroupVersion (Some (fid_Group identifier, fid_Version identifier)) (sc_kubeConfig s) in
      match RESTClientFor kubeConfig with
      | inr err =>
          (inr err, (mkSchemalessClient kubeConfig (sc_clientConfig s) (sc_codec s) (sc_clients s) (sc_metrics s), σ))
      | inl client =>
          let c := group_client client (fid_Version identifier) (sc_metrics s) in
          (inl c, (mkSchemalessClient kubeConfig (sc_clientConfig s) (sc_codec s) (<[key := c]> (sc_clients s))
                     (sc_metrics s), σ))
      end
  end.

(** [getPlural] *)
Definition getPlural (identifier : FullIdentifier) : string :=
  if negb (String.eqb (fid_Plural identifier) "") then fid_Plural identifier
  else ToLower (fid_Kind identifier) +:+ "s".

Definition identifier_of_full (id : FullIdentifier) : Identifier := mkIdentifier (fid_Namespace id) (fid_Name id).
Definition static_of_full (id : FullIdentifier) : StaticMetadata :=
  mkStaticMetadata (fid_Group id) (fid_Version id) (fid_Kind id) (fid_Namespace id) (fid_Name id).

(** Go on with the client of a group version, and the codec. *)
Definition with_client (identifier : FullIdentifier) (k : GVClient W → Codec (W:=W) → M W (option GoError)) : M SW (option GoError) :=
  let* client := getClient identifier in
  match client with
  | inr err => ret (Some err)
  | inl client => let* s := gets fst in lift_sc (k client (sc_codec s))
  end.

Definition Schemaless_Get (identifier : FullIdentifier) (into : Obj) : M SW (option GoError) :=
  match into with
  | None => ret (Some (ErrorString "into cannot be nil"))
  | Some _ => with_client identifier (λ client codec,
                get client codec (identifier_of_full identifier) (getPlural identifier) into)
  end.

Definition Schemaless_Create (id : FullIdentifier) (obj : Obj) (opt : CreateOptions) (out : Obj) : M SW (option GoError) :=
  match obj, out with
  | None, _ => ret (Some (ErrorString "obj cannot be nil"))
  | _, None => ret (Some (ErrorString "into cannot be nil"))
  | Some obj, Some out => with_client id (λ client codec,
      update_ref obj (with_StaticMetadata (static_of_full id)) ;;;
      create client codec (getPlural id) obj out opt)
  end.

Definition Schemaless_Update (identifier : FullIdentifier) (obj : Obj) (options : UpdateOptions) (into : Obj)
  : M SW (option GoError) :=
  match obj, into with
  | None, _ => ret (Some (ErrorString "obj cannot be nil"))
  | _, None => ret (Some (ErrorString "into cannot be nil"))
  | Some obj, Some into => with_client identifier (λ client codec,
      update_ref obj (with_StaticMetadata (static_of_full identifier)) ;;;
      (if String.eqb (uo_ResourceVersion options) "" then
         let* '(rv, err) := getMetadata client (identifier_of_full identifier) (getPlural identifier) in
         match err with
         | Some e => ret (Some e)
         | None => update_ref obj (with_ResourceVersion rv) ;;; ret None
         end
       else update_ref obj (with_ResourceVersion (uo_ResourceVersion options)) ;;; ret None) ;;?
      (if negb (String.eqb (uo_Subresource options) "") then
         updateSubresource client codec (getPlural identifier) (uo_Subresource options) obj into options
       else update client codec (getPlural identifier) obj into options))
  end.

Definition Schemaless_Patch (identifier : FullIdentifier) (p : PatchRequest) (options : PatchOptions) (into : Obj)
  : M SW (option GoError) :=
  with_client identifier (λ client codec,
    patch client codec (identifier_of_full identifier) (getPlural identifier) p into options).

Definition Schemaless_Delete (identifier : FullIdentifier) (options : DeleteOptions) : M SW (option GoError) :=
  with_client identifier (λ client _, delete client (identifier_of_full identifier) (getPlural identifier) options).

(** [List], into a list that is not nil; [Copy] is [exampleListItem.Copy]. *)
Definition Schemaless_List (identifier : FullIdentifier) (options : ListOptions) (into : option ListObject)
    (Copy : M W Obj) : M SW (option ListObject * option GoError) :=
  match into with
  | None => ret (None, Some (ErrorString "into cannot be nil"))
  | Some into =>
      let* client := getClient identifier in
      match client with
      | inr err => ret (Some into, Some err)
      | inl client =>
          let* s := gets fst in
          let* '(l, err) := lift_sc (list_ client (fid_Namespace identifier) (getPlural identifier) into options (λ raw,
            let* item := Copy in
            let* err := codec_Read (sc_codec s) raw item in
            ret (item, err))) in
          ret (Some l, err)
      end
  end.

(** [Watch], of an example object that is not nil. *)
Definition Schemaless_Watch (identifier : FullIdentifier) (options : WatchOptions) (exampleObject : Obj)
  : M SW ((nat * nat * WatchResponse) + GoError) :=
  match exampleObject with
  | None => ret (inr (ErrorString "exampleItem cannot be nil"))
  | Some _ =>
      let* client := getClient identifier in
      match client with
      | inr err => ret (inr err)
      | inl client => lift_sc (watch client (fid_Namespace identifier) (getPlural identifier) options)
      end
  end.
End Clients.

Arguments SchemalessClient : clear implicits.
Arguments ClientRegistry : clear implicits.
Arguments SW : clear implicits.

(** ** The caches *)
Section Caches.
Context {W : Type} `{WW : !World W, MM : !Memory W, RJ : !RestJSON, LJ : !ListJSON, OM : !ObjectMetaFields}.
Context `{PJ : !PatchJSON, RO : !RangeOrder, GN : !GVNames}.
Context (RESTClientFor : RestConfig W → RestInterface W + GoError).

(** Every cached client was made for its group version. *)
Context (base : RestConfig W) (codec : Codec (W:=W)) (m : Metrics W).

Definition coherent (s : SchemalessClient W) : Prop :=
  (∀ gv, with_GroupVersion gv (sc_kubeConfig s) = with_GroupVersion gv base) ∧ sc_codec s = codec ∧ sc_metrics s = m ∧
  ∀ g v c, Contains v "/" = false → sc_clients s !! Identifier_gv g v = Some c →
    ∃ rest, RESTClientFor (with_GroupVersion (Some (g, v)) base) = inl rest ∧ c = group_client rest v m.

(** A method does what a computation without the cache does. *)
Definition same_as {A} (x : M (SW W) A) (y : M W A) : Prop :=
  ∀ s σ, coherent s → ∃ s', coherent s' ∧ x (s, σ) = ((y σ).1, (s', (y σ).2)).

Lemma same_as_ret {A} (a : A) : same_as (ret a) (ret a).
Proof using Type. intros s σ Hs. by exists s. Qed.

Lemma same_as_meq {A} (x : M (SW W) A) (y y' : M W A) : y ≡M y' → same_as x y → same_as x y'.
Proof using Type. intros Hy Hx s σ Hs. rewrite <- Hy. by apply Hx. Qed.

Lemma getClient_coherent id rest s σ :
  coherent s → Contains (fid_Version id) "/" = false →
  RESTClientFor (with_GroupVersion (Some (fid_Group id, fid_Version id)) base) = inl rest →
  ∃ s', coherent s' ∧ getClient RESTClientFor id (s, σ) = (inl (group_client rest (fid_Version id) m), (s', σ)).
Proof using Type.
  intros Hcoh Hv HR. pose proof Hcoh as (Hb & Hc & Hm & Hs). unfold getClient.
  destruct (sc_clients s !! Identifier_gv (fid_Group id) (fid_Version id)) as [c|] eqn:E.
  { destruct (Hs _ _ _ Hv E) as (rest' & HR' & ->). rewrite HR in HR'. injection HR' as <-. by exists s. }
  rewrite Hb, HR, Hm. eexists. split; [|reflexivity]. split_and!; simpl; [done|done|done|].
  intros g v c Hv' [[Hk <-]|[_ H]]%lookup_insert_Some; [|by apply Hs].
  apply Identifier_gv_inj in Hk as [<- <-]; [|done..]. by exists rest.
Qed.

Lemma with_client_same id rest k :
  Contains (fid_Version id) "/" = false →
  RESTClientFor (with_GroupVersion (Some (fid_Group id, fid_Version id)) base) = inl rest →
  same_as (with_client RESTClientFor id k) (k (group_client rest (fid_Version id) m) codec).
Proof using Type.
  intros Hv HR s σ Hs. destruct (getClient_coherent id rest s σ Hs Hv HR) as (s' & Hs' & E).
  exists s'. split; [done|]. unfold with_client. rewrite (bind_run _ _ _ _ _ E). go_unfold. simpl.
  destruct Hs' as (_ & -> & _). by destruct (k _ codec σ).
Qed.

(** Parsers that do the same give the same lists. *)
Lemma list_ext (g : GVClient W) ns plural into opts p q :
  (∀ raw, p raw ≡M q raw) → list_ g ns plural into opts p ≡M list_ g ns plural into opts q.
Proof using Type.
  intros Hpq. assert (∀ raws items, parse_items p raws items ≡M parse_items q raws items) as Hitems.
  { induction raws as [|raw raws IH]; intros items; [done|]. simpl. apply bind_proper; [apply Hpq|].
    intros [o [e|]]; [done|]. apply IH. }
  unfold list_. apply bind_proper; [done|]. intros [raw|e]; [|done]. unfold rawToListWithParser.
  destruct (unmarshal_list raw); [|done]. by apply bind_proper; [apply Hitems|].
Qed.

(** ** The operations *)
Section Operations.
Context (sch : Schema W) (rest : RestInterface W) (fid : FullIdentifier).
Context (Hgv : fid_Group fid = Group sch ∧ fid_Version fid = Version sch ∧ fid_Kind fid = Kind_ sch).
Context (Hplural : getPlural fid = Plural sch).
Context (Hv : Contains (fid_Version fid) "/" = false).
Context (HR : RESTClientFor (with_GroupVersion (Some (Group sch, Version sch)) base) = inl rest).

Definition its_client : k8s_Client W := mkK8sClient (gv_of (group_client rest (Version sch) m) codec sch) sch.
Definition its_id : Identifier := identifier_of_full fid.

(** The scope of the kind allows the namespace. *)
Definition scope_allows : Prop :=
  if bool_decide (fid_Namespace fid = NamespaceAll) then Scope_ sch ≠ NamespacedScope else Scope_ sch ≠ ClusterScope.

Lemma static_same : static_of_full fid = static_of its_client its_id.
Proof using Hgv. destruct Hgv as (E1 & E2 & E3). unfold static_of_full, static_of. simpl. by rewrite E1, E2, E3. Qed.

Lemma op_same k : same_as (with_client RESTClientFor fid k) (k (group_client rest (Version sch) m) codec).
Proof using Hgv Hv HR.
  destruct Hgv as (E1 & E2 & _). rewrite <- E2. apply with_client_same; [done|]. by rewrite E1, E2.
Qed.

Lemma Get_same into : same_as (Schemaless_Get RESTClientFor fid into) (k8s_GetInto its_client its_id into).
Proof using Hgv Hplural Hv HR.
  destruct into as [into|]; [|apply same_as_ret]. unfold Schemaless_Get. rewrite Hplural. apply op_same.
Qed.

Lemma Create_same obj opts into :
  scope_allows →
  same_as (Schemaless_Create RESTClientFor fid obj opts into) (k8s_CreateInto its_client its_id obj opts into).
Proof using Hgv Hplural Hv HR.
  intros Hs. destruct obj as [obj|], into as [into|]; try apply same_as_ret.
  unfold Schemaless_Create, k8s_CreateInto. unfold scope_allows in Hs. simpl.
  rewrite Hplural, static_same. case_bool_decide as Hn.
  - rewrite (bool_decide_eq_false_2 _ Hs). simpl. rewrite andb_false_r. apply op_same.
  - rewrite andb_false_r. rewrite (bool_decide_eq_false_2 _ Hs). apply op_same.
Qed.

Lemma Update_same obj opts into :
  same_as (Schemaless_Update RESTClientFor fid obj opts into) (k8s_UpdateInto its_client its_id obj opts into).
Proof using Hgv Hplural Hv HR.
  destruct obj as [obj|], into as [into|]; try apply same_as_ret.
  unfold Schemaless_Update, k8s_UpdateInto. rewrite Hplural, static_same.
  eapply same_as_meq; [|apply op_same].
  apply bind_proper; [done|]. intros [].
  destruct (String.eqb_spec (uo_ResourceVersion opts) ""); case_bool_decide; try congruence;
    destruct (String.eqb_spec (uo_Subresource opts) ""); case_bool_decide; try congruence; done.
Qed.

Lemma Patch_same p opts into :
  same_as (Schemaless_Patch RESTClientFor fid p opts into) (k8s_PatchInto its_client its_id p opts into).
Proof using Hgv Hplural Hv HR. unfold Schemaless_Patch. rewrite Hplural. apply op_same. Qed.

Lemma Delete_same opts :
  same_as (Schemaless_Delete RESTClientFor fid opts) (k8s_Delete its_client its_id opts).
Proof using Hgv Hplural Hv HR. unfold Schemaless_Delete. rewrite Hplural. apply op_same. Qed.

Lemma client_same : ∀ s σ, coherent s → ∃ s', coherent s' ∧
  getClient RESTClientFor fid (s, σ) = (inl (group_client rest (Version sch) m), (s', σ)).
Proof using Hgv Hv HR.
  intros s σ Hs. destruct Hgv as (E1 & E2 & _). rewrite <- E2. apply getClient_coherent; [done..|]. by rewrite E1, E2.
Qed.

Lemma List_same opts Copy :
  Copy ≡M ZeroValue sch →
  same_as (Schemaless_List RESTClientFor fid opts (Some empty_list) Copy)
    (let* '(l, err) := gv_list (kc_client its_client) (fid_Namespace fid) (Plural sch) opts in ret (Some l, err)).
Proof using Hgv Hplural Hv HR.
  intros HC s σ Hs. destruct (client_same s σ Hs) as (s' & Hs' & E). exists s'. split; [done|].
  unfold Schemaless_List. rewrite (bind_run _ _ _ _ _ E), Hplural. go_unfold. simpl.
  destruct Hs' as (_ & -> & _).
  rewrite (list_ext _ _ _ _ _ _ (λ raw, let* into := ZeroValue sch in let* err := codec_Read codec raw into in ret (into, err))).
  - by destruct (list_ _ _ _ _ _ _ σ) as [[l err] σ'].
  - intros raw. by apply bind_proper.
Qed.

Lemma Watch_same opts example :
  scope_allows → example ≠ None →
  same_as (Schemaless_Watch RESTClientFor fid opts example)
    (k8s_Watch (group_client rest (Version sch) m) sch (fid_Namespace fid) opts).
Proof using Hgv Hplural Hv HR.
  intros Hsc Hex s σ Hs. destruct example as [r|]; [|done].
  destruct (client_same s σ Hs) as (s' & Hs' & E). exists s'. split; [done|].
  unfold Schemaless_Watch. rewrite (bind_run _ _ _ _ _ E), Hplural. unfold k8s_Watch, scope_allows in *.
  case_bool_decide as Hn; [rewrite andb_false_r | rewrite (bool_decide_eq_false_2 _ Hsc)]; simpl;
    by destruct (watch _ _ _ _ σ).
Qed.
End Operations.
End Caches.

(** ** A run of the registry *)
Section Runs.
Context {W : Type} (RESTClientFor : RestConfig W → RestInterface W + GoError).

Inductive registry_call := ForKind (sch : Schema W) | ForRoutes (gv : string * string).

(** The client a call asks for, and the same without a cache. *)
Definition registry_answer (call : registry_call) (c : ClientRegistry W) : (RestInterface W + GoError) * ClientRegistry W :=
  match call with
  | ForKind sch => getClientFor RESTClientFor sch c
  | ForRoutes gv => getCustomRouteClient RESTClientFor gv c
  end.

Definition uncached (c : ClientRegistry W) (call : registry_call) : RestInterface W + GoError :=
  match call with
  | ForKind sch => RESTClientFor (config_for c sch)
  | ForRoutes gv => RESTClientFor (with_GroupVersion (Some gv) (cr_cfg c))
  end.

Fixpoint registry_answers (calls : list registry_call) (c : ClientRegistry W) : list (RestInterface W + GoError) :=
  match calls with
  | [] => []
  | call :: calls => let '(a, c) := registry_answer call c in a :: registry_answers calls c
  end.

Definition gvk (sch : Schema W) : string * string * string := (Group sch, Version sch, Kind_ sch).

(** What the caches hold, for the kinds that are asked for. *)
Definition cached_right (c0 : ClientRegistry W) (kinds : Schema W → Prop) (c : ClientRegistry W) : Prop :=
  cr_cfg c = cr_cfg c0 ∧ cr_clientConfig c = cr_clientConfig c0 ∧
  (∀ sch client, kinds sch → cr_clients c !! gvk sch = Some client → RESTClientFor (config_for c0 sch) = inl client) ∧
  (∀ gv client, cr_crClients c !! gv = Some client →
     RESTClientFor (with_GroupVersion (Some gv) (cr_cfg c0)) = inl client).

Lemma config_for_same (c c0 : ClientRegistry W) sch :
  cr_cfg c = cr_cfg c0 → cr_clientConfig c = cr_clientConfig c0 → config_for c sch = config_for c0 sch.
Proof. intros E1 E2. unfold config_for. by rewrite E1, E2. Qed.

Lemma registry_answer_right c0 (kinds : Schema W → Prop) call c :
  (∀ s1 s2, kinds s1 → kinds s2 → gvk s1 = gvk s2 → config_for (W:=W) c0 s1 = config_for c0 s2) →
  match call with ForKind sch => kinds sch | ForRoutes _ => True end →
  cached_right c0 kinds c →
  (registry_answer call c).1 = uncached c0 call ∧ cached_right c0 kinds (registry_answer call c).2.
Proof.
  intros Hsame Hk (E1 & E2 & Hc & Hr). destruct call as [sch|gv]; simpl.
  - unfold getClientFor. fold (gvk sch). destruct (cr_clients c !! gvk sch) as [client|] eqn:E; simpl.
    { split; [by rewrite (Hc _ _ Hk E)|done]. }
    rewrite (config_for_same c c0) by done. destruct (RESTClientFor (config_for c0 sch)) as [client|e] eqn:ER; [|done].
    split; [done|]. split_and!; simpl; [done|done| |done].
    intros s cl Hks [[Hg <-]|[_ H]]%lookup_insert_Some; [|by apply (Hc s)]. by rewrite <- (Hsame sch s).
  - unfold getCustomRouteClient. destruct (cr_crClients c !! gv) as [client|] eqn:E; simpl.
    { split; [by rewrite (Hr _ _ E)|done]. }
    rewrite E1. destruct (RESTClientFor (with_GroupVersion (Some gv) (cr_cfg c0))) as [client|e] eqn:ER; [|done].
    split; [done|]. split_and!; simpl; [done|done|done|].
    intros gv' cl [[<- <-]|[_ H]]%lookup_insert_Some; [done|by apply Hr].
Qed.

Lemma registry_answers_right c0 (kinds : Schema W → Prop) calls : ∀ c,
  (∀ s1 s2, kinds s1 → kinds s2 → gvk s1 = gvk s2 → config_for (W:=W) c0 s1 = config_for c0 s2) →
  (∀ sch, ForKind sch ∈ calls → kinds sch) → cached_right c0 kinds c →
  registry_answers calls c = uncached c0 <$> calls.
Proof.
  induction calls as [|call calls IH]; intros c Hsame Hk Hc; [done|].
  destruct (registry_answer_right c0 kinds call c) as [H1 H2]; [done| |done|].
  { destruct call; [apply Hk; by left|done]. }
  simpl. destruct (registry_answer call c) as [a c']. simpl in *. rewrite H1. f_equal.
  apply IH; [done| |done]. intros sch Hin. apply Hk. by right.
Qed.
End Runs.

(** ** Properties *)

(** The registry gives every caller the client that would have been made for it without the
    cache, provided the configuration of kinds with the same group, version and kind is the
    same; a client that could not be made is tried again. *)
Theorem ClientRegistry_same_as_uncached {W} (NewVecs : string → Metrics W) agent
    (RESTClientFor : RestConfig W → RestInterface W + GoError) kubeConfig clientConfig calls :
  let c0 := NewClientRegistry NewVecs agent kubeConfig clientConfig in
  (∀ s1 s2, ForKind s1 ∈ calls → ForKind s2 ∈ calls → gvk s1 = gvk s2 → config_for (W:=W) c0 s1 = config_for c0 s2) →
  registry_answers RESTClientFor calls c0 = uncached RESTClientFor c0 <$> calls.
Proof.
  intros c0 Hsame. apply (registry_answers_right _ c0 (λ s, ForKind s ∈ calls)); [done|done|].
  split_and!; [done|done| |]; intros ??; unfold c0; simpl; [intros _|]; by rewrite lookup_empty.
Qed.

(** C14: A [SchemalessClient] does, for the identifiers of a kind's group version, kind and
    plural, exactly what the [k8s.Client] of the kind does with the same codec over the REST
    client of that group version: the same requests, errors and changes of objects.  Only
    the scope of the kind, which it does not know, is not checked. *)
Theorem Schemaless_does_what_Client_does {W} `{WW : !World W, MM : !Memory W, RJ : !RestJSON, LJ : !ListJSON}
    `{OM : !ObjectMetaFields, PJ : !PatchJSON, GN : !GVNames} (RESTClientFor : RestConfig W → RestInterface W + GoError)
    base codec m (sch : Schema W) rest fid :
  let c := its_client codec m sch rest in
  let id := its_id fid in
  let same {A} := same_as (A:=A) RESTClientFor base codec m in
  fid_Group fid = Group sch ∧ fid_Version fid = Version sch ∧ fid_Kind fid = Kind_ sch →
  getPlural fid = Plural sch → Contains (fid_Version fid) "/" = false →
  RESTClientFor (with_GroupVersion (Some (Group sch, Version sch)) base) = inl rest →
  (∀ into, same (Schemaless_Get RESTClientFor fid into) (k8s_GetInto c id into)) ∧
  (∀ obj opts into, scope_allows sch fid →
     same (Schemaless_Create RESTClientFor fid obj opts into) (k8s_CreateInto c id obj opts into)) ∧
  (∀ obj opts into, same (Schemaless_Update RESTClientFor fid obj opts into) (k8s_UpdateInto c id obj opts into)) ∧
  (∀ p opts into, same (Schemaless_Patch RESTClientFor fid p opts into) (k8s_PatchInto c id p opts into)) ∧
  (∀ opts, same (Schemaless_Delete RESTClientFor fid opts) (k8s_Delete c id opts)) ∧
  (∀ opts Copy, Copy ≡M ZeroValue sch →
     same (Schemaless_List RESTClientFor fid opts (Some empty_list) Copy)
       (let* '(l, err) := gv_list (kc_client c) (fid_Namespace fid) (Plural sch) opts in ret (Some l, err))) ∧
  (∀ opts example, scope_allows sch fid → example ≠ None →
     same (Schemaless_Watch RESTClientFor fid opts example)
       (k8s_Watch (group_client rest (Version sch) m) sch (fid_Namespace fid) opts)).
Proof.
  intros c id same Hgv Hp Hv HR. split_and!; intros.
  - by eapply Get_same.
  - by eapply Create_same.
  - by eapply Update_same.
  - by eapply Patch_same.
  - by eapply Delete_same.
  - by eapply List_same.
  - by eapply Watch_same.
Qed.

(** Through the transport, an error that names a broken stream, of the request or of a read
    of the body, is a time-out that lets the watch be opened again, with the text and the
    chain it had; other errors, and what was read, are as without it. *)
Theorem streamErrorTransport_reconnects {W} (base : RoundTripper W) req σ :
  let again e := if isStreamError (Some e) then StreamConnectionError e else e in
  let '((resp0, err0), σ0) := base req σ in
  ∃ resp, streamErrorTransport base req σ = ((resp, again <$> err0), σ0) ∧
    (∀ e, err0 = Some e → isStreamError (Some e) = true →
       Timeout (again e) = true ∧ Temporary (again e) = true ∧ Error (again e) = Error e ∧
       ∀ target, ErrorsIs e target = true → ErrorsIs (again e) target = true) ∧
    match resp0, resp with
    | None, None => True
    | Some r0, Some r =>
        (∃ e, err0 = Some e ∧ isStreamError (Some e) = true) ∨
        ∀ n σ1, hr_Read r n σ1 =
          ((((hr_Read r0 n σ1).1).1, again <$> ((hr_Read r0 n σ1).1).2), (hr_Read r0 n σ1).2)
    | _, _ => False
    end.
Proof.
  intros again. unfold streamErrorTransport. go_unfold. destruct (base req σ) as [[resp0 err0] σ0].
  assert (∀ r0 : HTTPResponse W, ∀ n σ1, hr_Read (streamErrorReadCloser r0) n σ1 =
    ((((hr_Read r0 n σ1).1).1, again <$> ((hr_Read r0 n σ1).1).2), (hr_Read r0 n σ1).2)) as Hread.
  { intros r0 n σ1. unfold streamErrorReadCloser, again. cbn [hr_Read]. go_unfold.
    destruct (hr_Read r0 n σ1) as [[read [e|]] σ2]; [|done]. cbn [fst snd fmap option_fmap option_map].
    by destruct (isStreamError (Some e)). }
  destruct err0 as [e|].
  - unfold again at 1. cbn [fmap option_fmap option_map]. destruct (isStreamError (Some e)) eqn:Es; cbn [ret].
    + exists resp0. split; [done|]. split; [|destruct resp0; [left; by exists e|done]].
      intros e' [= <-] _. unfold again. rewrite Es. split_and!; [done|done|done|]. intros t Ht. simpl.
      by rewrite Ht, orb_true_r.
    + eexists. split; [done|]. split; [intros e' [= <-]; congruence|].
      destruct resp0; [right; apply Hread|done].
  - eexists. split; [done|]. split; [done|]. destruct resp0; [right; apply Hread|done].
Qed.

(** A remote API server whose configuration overrides the authentication of the base one
    gets no client certificate, not even its own; and the transport of any remote is its
    own, without the handling of stream errors the registry added. *)
Theorem overlay_loses {W} (c : RestConfig W) (r : RemoteRestConfig W) :
  cf_WrapTransport (overlayRemoteRestConfig c r) = rr_WrapTransport r ∧
  (rr_OverrideAuth r = true →
   tls_CertData (cf_TLSClientConfig (overlayRemoteRestConfig c r)) = None ∧
   tls_KeyData (cf_TLSClientConfig (overlayRemoteRestConfig c r)) = None ∧
   tls_CertFile (cf_TLSClientConfig (overlayRemoteRestConfig c r)) = "" ∧
   tls_KeyFile (cf_TLSClientConfig (overlayRemoteRestConfig c r)) = "").
Proof. split; [done|]. intros H. unfold overlayRemoteRestConfig. by rewrite H. Qed.

(** ** Witnesses *)
Lemma no_slash_free v : Contains v "/" = false → free_of "/" v = true.
Proof.
  induction v as [|a v IH]; [done|]. intros H.
  change (Contains (String a v) "/") with (String.prefix "/" (String a v) || Contains v "/") in H.
  apply orb_false_iff in H as [Hp H]. simpl. rewrite (IH H), andb_true_r.
  destruct (Ascii.eqb_spec a "/"%char) as [->|]; [|done]. simpl in Hp. by destruct v.
Qed.

#[export] Instance test_GVNames : GVNames.
Proof.
  refine {| Identifier_gv g v := v +:+ String "/" g |}.
  intros g v g' v' Hv%no_slash_free Hv'%no_slash_free H. by apply separator_inj in H as [-> ->].
Defined.

Definition no_vecs (namespace : string) : Metrics ServerWorld :=
  mkMetrics (λ _ _, ret tt) (λ _, ret tt) (λ _, ret tt) (λ _, ret tt).

Definition no_tls : TLSClientConfig := mkTLSClientConfig false "" "" "" "" None None None.

Definition test_config : RestConfig ServerWorld := mkRestConfig "host" "" None None "" "" no_tls "" None.

(** Clients are made for the paths that are configured. *)
Definition test_RESTClientFor (c : RestConfig ServerWorld) : RestInterface ServerWorld + GoError :=
  if String.eqb (cf_APIPath c) "" then inr (ErrorString "no path") else inl test_rest.

Lemma ClientRegistry_same_as_uncached_witness :
  let c0 := NewClientRegistry no_vecs "agent" test_config DefaultClientConfig in
  let calls := [ForKind test_schema; ForRoutes ("g", "v1"); ForKind test_schema] in
  registry_answers test_RESTClientFor calls c0 = uncached test_RESTClientFor c0 <$> calls ∧
  uncached test_RESTClientFor c0 <$> calls = [inl test_rest; inr (ErrorString "no path"); inl test_rest].
Proof.
  split; [|reflexivity]. apply ClientRegistry_same_as_uncached.
  intros s1 s2 H1 H2 _. rewrite !elem_of_cons in H1, H2.
  destruct H1 as [[= ->]|[[=]|[[= ->]|H1]]]; [| |by apply elem_of_nil in H1];
    (destruct H2 as [[= ->]|[[=]|[[= ->]|H2]]]; [done|done|by apply elem_of_nil in H2]).
Defined.

Definition test_full : FullIdentifier := mkFullIdentifier "ns" "x" "g" "v1" "K" "".

Definition test_based : RestConfig ServerWorld := with_APIPath "/apis" test_config.

Lemma Schemaless_does_what_Client_does_witness :
  let c := its_client test_codec (no_vecs "") test_schema test_rest in
  let s0 := mkSchemalessClient test_based DefaultClientConfig test_codec ∅ (no_vecs "") in
  let σ0 := mkServerWorld ∅ ["a"] [] in
  ∃ s', Schemaless_Get test_RESTClientFor test_full (Some 1) (s0, σ0) =
    ((k8s_GetInto c (its_id test_full) (Some 1) σ0).1, (s', (k8s_GetInto c (its_id test_full) (Some 1) σ0).2)) ∧
  (k8s_GetInto c (its_id test_full) (Some 1) σ0).1 = None.
Proof.
  intros c s0 σ0.
  destruct (Schemaless_does_what_Client_does test_RESTClientFor test_based test_codec (no_vecs "") test_schema
    test_rest test_full) as [HG _]; [by split_and!|reflexivity|reflexivity|reflexivity|].
  destruct (HG (Some 1) s0 σ0) as (s' & _ & E).
  { split_and!; [done|done|done|]. intros g v cl _. simpl. by rewrite lookup_empty. }
  exists s'. split; [exact E|]. vm_cast_no_check (@eq_refl (option GoError) None).
Defined.
