(* ===== verification/Manager.v ===== *)
(** * The schema manager ([k8s/manager.go], [resource/manager.go])

    [ResourceManager] registers schemas as custom resource definitions; the schema of a
    version is made from the Go types of the kind by reflection.  A Go type is a node of a
    graph, [types], since struct types may be recursive.  A result is [None] when the fuel
    was not enough, and [Panics] where [reflect] panics.  The REST requests are the record
    [CRDRequests]; the JSON of a definition is an argument. *)
From S2P Require Import Prelude GoValues Resource ResourceWatcher Schema KubeErrors Concrete.

#[local] Open Scope string_scope.
#[local] Open Scope list_scope.

(** ** Calls that may not return or panic *)
Definition partial (A : Type) : Type := option (called A).

Definition pret {A} (a : A) : partial A := Some (Returned a).
Definition pbind {A B} (m : partial A) (k : A → partial B) : partial B :=
  match m with
  | None => None
  | Some Panics => Some Panics
  | Some (Returned a) => k a
  end.
Notation "'let?' x := m 'in' k" := (pbind m (λ x, k))
  (at level 10, x name, m at level 100, k at level 200) : go_scope.

(** The same in a state. *)
Definition mpbind {W A B} (m : M W (partial A)) (k : A → M W (partial B)) : M W (partial B) :=
  let* r := m in
  match r with
  | None => ret None
  | Some Panics => ret (Some Panics)
  | Some (Returned a) => k a
  end.

(** ** Types *)

(** [reflect.Type], by [Kind], [Elem] and [NumField]; a type is an index of the graph. *)
Record StructField := mkStructField {
  f_Name : string;
  f_Tag : string;
  f_Anonymous : bool;
  f_Type : nat;
}.

Inductive TypeDef :=
| TInt
| TFloat
| TString
| TBool
| TMap
| TInterface
| TStruct (fields : list StructField)
| TSlice (elem : nat)
| TArray (elem : nat)
| TPointer (elem : nat)
| TOtherKind.

Abbreviation JSON := (any Empty_set).
Abbreviation JSONMap := (gmap string JSON).

Definition openAPITypeObject : string := "object".
Definition preserve : string := "x-kubernetes-preserve-unknown-fields".

(** [v["type"] = t] in a new map *)
Definition typed (t : string) : JSONMap := {[ "type" := AString t ]}.

(** [getFieldKey] *)
Definition getFieldKey (field : StructField) : string :=
  let name := f_Tag field in
  if bool_decide (name = "") then f_Name field
  else
    let parts := Split name "," in
    if (1 <? length parts)%nat then default "" (head parts) else name.

Section OpenAPI.
Context (types : nat → TypeDef).

(** [for typ.Kind() == reflect.Pointer { typ = typ.Elem() }] *)
Fixpoint strip (fuel : nat) (typ : nat) : option nat :=
  match fuel with
  | O => None
  | S fuel => match types typ with TPointer e => strip fuel e | _ => Some typ end
  end.

(** A loop over fields that changes a map. *)
Fixpoint each_field (f : StructField → JSONMap → partial JSONMap) (fields : list StructField)
    (m : JSONMap) : partial JSONMap :=
  match fields with
  | [] => pret m
  | field :: fields => let? m := f field m in each_field f fields m
  end.

Definition stripped (fuel typ : nat) : partial nat :=
  match strip fuel typ with Some t => pret t | None => None end.

(** The schema of the items of a slice; [rec] is [toOpenAPIV3]. *)
Definition item_schema (rec : nat → partial JSONMap) (itemType : nat) : partial JSONMap :=
  match types itemType with
  | TInt => pret (typed "integer")
  | TFloat => pret (typed "number")
  | TString => pret (typed "string")
  | TBool => pret (typed "boolean")
  | TStruct _ | TSlice _ | TArray _ =>
      let? props := rec itemType in
      pret (<["properties" := AMap props]> (typed openAPITypeObject))
  | _ => pret (<[preserve := ABool true]> (typed openAPITypeObject))
  end.

(** The body of the loop of [toOpenAPIV3] for a field whose type without pointers is
    [fieldType]. *)
Definition field_schema (rec strip_rec : nat → partial JSONMap) (field : StructField) (fieldType : nat)
    (m : JSONMap) : partial JSONMap :=
  let put (v : JSONMap) := pret (<[getFieldKey field := AMap v]> m) in
  match types fieldType with
  | TInt => put (typed "integer")
  | TFloat => put (typed "number")
  | TString => put (typed "string")
  | TBool => put (typed "boolean")
  | TMap | TInterface =>
      if f_Anonymous field then pret (<[preserve := ABool true]> m)
      else put (<[preserve := ABool true]> (typed openAPITypeObject))
  | TStruct _ =>
      let? props := rec fieldType in
      if f_Anonymous field then pret (props ∪ m)
      else
        let? props := rec fieldType in
        put (<["properties" := AMap props]> (typed openAPITypeObject))
  | TSlice e | TArray e =>
      let? vv := strip_rec e in
      put (<["items" := AMap vv]> (typed "array"))
  | TPointer _ | TOtherKind => pret m
  end.

(** [toOpenAPIV3] *)
Fixpoint toOpenAPIV3 (fuel : nat) (typ : nat) : partial JSONMap :=
  match fuel with
  | O => None
  | S fuel' =>
      let? typ := stripped fuel typ in
      match types typ with
      | TStruct fields =>
          each_field (λ field m,
            let? fieldType := stripped fuel' (f_Type field) in
            field_schema (toOpenAPIV3 fuel')
              (λ e, let? itemType := stripped fuel' e in item_schema (toOpenAPIV3 fuel') itemType)
              field fieldType m) fields ∅
      | _ => Some Panics
      end
  end.
End OpenAPI.

(** ** Custom resource definitions *)

Record CRDSelectableField := mkCRDSelectableField { csf_JSONPath : string }.
Record CRDPrinterColumn := mkCRDPrinterColumn {
  cpc_Name : string;
  cpc_Type : string;
  cpc_Format : option string;
  cpc_Description : option string;
  cpc_Priority : option Z;
  cpc_JSONPath : string;
}.

Record CRDSpecVersion := mkCRDSpecVersion {
  cv_Name : string;
  cv_Served : bool;
  cv_Storage : bool;
  cv_Schema : nmap JSON;
  cv_Subresources : nmap JSON;
  cv_SelectableFields : nslice CRDSelectableField;
  cv_AdditionalPrinterColumns : nslice CRDPrinterColumn;
}.

Record CRDService := mkCRDService { csv_Name : string; csv_Namespace : string; csv_Path : string }.
Record CRDClientConfig := mkCRDClientConfig { ccc_Service : option CRDService; ccc_URL : string }.
Record CRDWebhook := mkCRDWebhook { cw_ReviewVersions : nslice string; cw_ClientConfig : CRDClientConfig }.
Record CRDConversion := mkCRDConversion { cc_Strategy : string; cc_Webhook : option CRDWebhook }.

(** [CustomResourceDefinition], with the name of its metadata and its other metadata. *)
Record CRD := mkCRD {
  crd_APIVersion : string;
  crd_Kind : string;
  crd_Name : string;
  crd_Metadata : string;
  crd_Group : string;
  crd_Versions : nslice CRDSpecVersion;
  crd_NamesKind : string;
  crd_NamesPlural : string;
  crd_Conversion : option CRDConversion;
  crd_Scope : string;
}.

Definition CRD_zero : CRD := mkCRD "" "" "" "" "" None "" "" None "".

Definition with_Versions (vs : list CRDSpecVersion) (c : CRD) : CRD :=
  mkCRD (crd_APIVersion c) (crd_Kind c) (crd_Name c) (crd_Metadata c) (crd_Group c) (Some vs)
    (crd_NamesKind c) (crd_NamesPlural c) (crd_Conversion c) (crd_Scope c).

Definition with_Storage (b : bool) (v : CRDSpecVersion) : CRDSpecVersion :=
  mkCRDSpecVersion (cv_Name v) (cv_Served v) b (cv_Schema v) (cv_Subresources v)
    (cv_SelectableFields v) (cv_AdditionalPrinterColumns v).

(** [RegisterSchemaOptions] *)
Record RegisterSchemaOptions := mkRegisterSchemaOptions {
  rso_UpdateOnConflict : bool;
  rso_NoErrorOnConflict : bool;
  rso_WaitForAvailability : bool;
}.

(** Requests for custom resource definitions: a status code and an error; a read also
    gives the definition.  An update is sent to the collection, without a name. *)
Record CRDRequests (W : Type) := mkCRDRequests {
  cr_Get : string → M W (CRD * Z * option GoError);
  cr_Status : string → M W (Z * option GoError);
  cr_Put : string → M W (Z * option GoError);
  cr_Post : string → M W (Z * option GoError);
}.
Arguments mkCRDRequests {W}.
Arguments cr_Get {W}.
Arguments cr_Status {W}.
Arguments cr_Put {W}.
Arguments cr_Post {W}.

(** What a wait ends with: the next tick, or the end of the context. *)
Inductive wait_event := Tick | ContextDone (err : GoError).

Section Manager.
Context {W : Type} `{WW : !World W}.
Context (types : nat → TypeDef) (fuel : nat).

(** [reflect.TypeOf(obj.GetSpec())] and the types of [obj.GetSubresources()] *)
Context (spec_type : Object → nat) (subresource_types : Object → gmap string nat).

Definition object_schema (props : JSONMap) : JSON :=
  AMap (<["properties" := AMap props]> (typed openAPITypeObject)).

(** The subresource [name] in the properties and the subresources, if the object has it. *)
Definition add_subresource (o : Object) (name : string) (ps : JSONMap * JSONMap) : partial (JSONMap * JSONMap) :=
  match subresource_types o !! name with
  | None => pret ps
  | Some t =>
      let? props := toOpenAPIV3 types fuel t in
      pret (<[name := object_schema props]> ps.1, <[name := AMap ∅]> ps.2)
  end.

Definition version_of (schema : Schema W) (o : Object) : partial CRDSpecVersion :=
  let? spec := toOpenAPIV3 types fuel (spec_type o) in
  let? ps := add_subresource o "status" ({[ "spec" := object_schema spec ]}, ∅) in
  let? ps := add_subresource o "scale" ps in
  pret (mkCRDSpecVersion (Version schema) true false
          (Some {[ "openAPIV3Schema" := object_schema ps.1 ]}) (Some ps.2) None None).

(** [toVersion]; a nil zero value panics. *)
Definition toVersion (schema : Schema W) : M W (partial CRDSpecVersion) :=
  let* obj := ZeroValue schema in
  match obj with
  | None => ret (Some Panics)
  | Some r => gets (λ w, version_of schema (deref r w))
  end.

Context (client : CRDRequests W) (Marshal : CRD → string + GoError) (next_event : M W wait_event).

Definition crd_name (schema : Schema W) : string := Plural schema +:+ "." +:+ Group schema.

(** [WaitForAvailability], with [n] events waited for. *)
Fixpoint wait_loop (n : nat) (name : string) : M W (partial (option GoError)) :=
  match n with
  | O => ret None
  | S n =>
      let* e := next_event in
      match e with
      | ContextDone err => ret (pret (Some err))
      | Tick =>
          let* '(sc, err) := cr_Status client name in
          match err with
          | None => ret (pret None)
          | Some err => if (sc =? 404)%Z then wait_loop n name else ret (pret (Some err))
          end
      end
  end.
Definition WaitForAvailability (schema : Schema W) : M W (partial (option GoError)) :=
  wait_loop fuel (crd_name schema).

(** [ParseKubernetesError(nil, sc, err)] *)
Definition parse_error (sc : Z) (err : option GoError) : partial (option GoError) :=
  Some (ParseKubernetesError (λ _, None) "" sc err).

(** [create] *)
Definition create (schema : Schema W) (name : string) : M W (partial (option GoError)) :=
  mpbind (toVersion schema) (λ version,
    let crd := mkCRD "apiextensions.k8s.io/v1" "CustomResourceDefinition" name "" (Group schema)
                 (Some [with_Storage true version]) (Kind_ schema) (Plural schema) None "Namespaced" in
    match Marshal crd with
    | inr err => ret (pret (Some err))
    | inl bytes =>
        let* '(sc, err) := cr_Post client bytes in
        ret (parse_error sc err)
    end).

(** The index of the version with a name. *)
Fixpoint find_version (name : string) (vs : list CRDSpecVersion) (idx : nat) : option nat :=
  match vs with
  | [] => None
  | v :: vs => if bool_decide (cv_Name v = name) then Some idx else find_version name vs (S idx)
  end.

(** [sort.Slice] by falling name: for versions with one name any order would do. *)
Definition name_ge (v1 v2 : CRDSpecVersion) : Prop := String.le (cv_Name v2) (cv_Name v1).
#[local] Instance name_ge_dec v1 v2 : Decision (name_ge v1 v2).
Proof. unfold name_ge. apply _. Defined.
Definition sort_versions (vs : list CRDSpecVersion) : list CRDSpecVersion := merge_sort name_ge vs.

(** The versions in order, the last of them stored. *)
Fixpoint store_last (vs : list CRDSpecVersion) : list CRDSpecVersion :=
  match vs with
  | [] => []
  | [v] => [with_Storage true v]
  | v :: vs => with_Storage false v :: store_last vs
  end.

(** The end of [RegisterSchema]: the versions are sorted and sent. *)
Definition put_versions (schema : Schema W) (options : RegisterSchemaOptions) (existing : CRD)
    (vs : list CRDSpecVersion) : M W (partial (option GoError)) :=
  match Marshal (with_Versions (store_last (sort_versions vs)) existing) with
  | inr err => ret (pret (Some err))
  | inl bytes =>
      let* '(sc, err) := cr_Put client bytes in
      match err with
      | Some _ => ret (parse_error sc err)
      | None => if rso_WaitForAvailability options then WaitForAvailability schema else ret (pret None)
      end
  end.

(** [RegisterSchema] when the definition exists. *)
Definition update_crd (schema : Schema W) (options : RegisterSchemaOptions) (existing : CRD)
  : M W (partial (option GoError)) :=
  let vs := elems (crd_Versions existing) in
  match find_version (Version schema) vs 0 with
  | Some idx =>
      if negb (rso_UpdateOnConflict options) then
        ret (pret (if rso_NoErrorOnConflict options then None
                   else Some (ErrorString "schema with identical kind, group, and version already registered")))
      else mpbind (toVersion schema) (λ v, put_versions schema options existing (<[idx := v]> vs))
  | None => mpbind (toVersion schema) (λ v, put_versions schema options existing (vs ++ [v]))
  end.

(** [RegisterSchema] *)
Definition RegisterSchema (schema : Schema W) (options : RegisterSchemaOptions)
  : M W (partial (option GoError)) :=
  let name := crd_name schema in
  let* '(existing, sc, err) := cr_Get client name in
  match err with
  | Some _ =>
      if (sc =? 404)%Z then create schema name else ret (parse_error sc err)
  | None => if (sc =? 404)%Z then create schema name else update_crd schema options existing
  end.
End Manager.

(** ** Properties of the schemas *)

(** A graph of types without recursion: what a type refers to has a lower rank. *)
Definition ranked (types : nat → TypeDef) (rank : nat → nat) : Prop :=
  ∀ t, match types t with
       | TPointer e | TSlice e | TArray e => (rank e < rank t)%nat
       | TStruct fields => Forall (λ f, rank (f_Type f) < rank t)%nat fields
       | _ => True
       end.

(** No type is a slice or an array, of slices or arrays or pointers to them. *)
Definition is_slice (d : TypeDef) : bool := match d with TSlice _ | TArray _ => true | _ => false end.
Definition no_nested_slices (types : nat → TypeDef) : Prop :=
  ∀ t e fuel e', types t = TSlice e ∨ types t = TArray e → strip types fuel e = Some e' →
    is_slice (types e') = false.

Section Reflection.
Context (types : nat → TypeDef).

Lemma strip_enough rank fuel typ : ranked types rank → (rank typ < fuel)%nat →
  ∃ t, strip types fuel typ = Some t ∧ (rank t ≤ rank typ)%nat ∧ ∀ e, types t ≠ TPointer e.
Proof.
  intros Hr. revert typ. induction fuel as [|fuel IH]; intros typ Hlt; [lia|]. simpl.
  destruct (types typ) as [| | | | | | | | |e|] eqn:Et; try (exists typ; split_and!; [done | done | by rewrite Et]).
  specialize (Hr typ). rewrite Et in Hr. destruct (IH e) as (t & Ht & Hle & Hne); [lia|].
  exists t. split_and!; [done | lia | done].
Qed.

Lemma each_field_returns f fields m :
  (∀ field m, field ∈ fields → ∃ m', f field m = pret m') → ∃ m', each_field f fields m = pret m'.
Proof.
  revert m. induction fields as [|field fields IH]; intros m Hf; simpl; [by eexists|].
  destruct (Hf field m) as [m' ->]; [left|]. apply IH. intros field' m0 Hin. apply Hf. by right.
Qed.

Lemma strip_fixed fuel t : (∀ e, types t ≠ TPointer e) → strip types (S fuel) t = Some t.
Proof. intros H. simpl. destruct (types t); try done. by destruct (H elem). Qed.

(** [toOpenAPIV3] returns for every struct, through any pointers, as long as no type
    refers to itself and no slice is a slice of slices; the fuel needed is the rank. *)
Theorem toOpenAPIV3_total rank fuel typ t fields :
  ranked types rank → no_nested_slices types → (rank typ < fuel)%nat →
  strip types fuel typ = Some t → types t = TStruct fields →
  ∃ m, toOpenAPIV3 types fuel typ = pret m.
Proof.
  intros Hr Hn. revert typ t fields. induction fuel as [|fuel IH]; intros typ t fields Hlt Ht Hs; [lia|].
  assert (Hrank : (rank t < S fuel)%nat).
  { destruct (strip_enough rank (S fuel) typ Hr Hlt) as (t' & E & Hle & _).
    assert (t' = t) as -> by congruence. lia. }
  cbn [toOpenAPIV3]. unfold stripped at 1. rewrite Ht. cbn [pbind pret]. rewrite Hs.
  pose proof (Hr t) as Hfields. rewrite Hs, Forall_forall in Hfields.
  apply each_field_returns. intros field m Hin. specialize (Hfields field Hin).
  destruct (strip_enough rank fuel (f_Type field) Hr) as (ft & Eft & Hft & Hnp); [lia|].
  unfold stripped. rewrite Eft. cbn [pbind pret]. unfold field_schema.
  pose proof (Hr ft) as Hft'.
  destruct (types ft) as [| | | | | |fs|e|e|e|] eqn:Ek; try by eexists.
  - destruct (f_Anonymous field); by eexists.
  - destruct (f_Anonymous field); by eexists.
  - destruct fuel as [|fuel]; [lia|].
    destruct (IH ft ft fs) as [props Hp]; [lia | apply strip_fixed; by rewrite Ek | done|].
    rewrite Hp. cbn [pbind pret]. destruct (f_Anonymous field); by eexists.
  - destruct (strip_enough rank fuel e Hr) as (it & Eit & Hit & Hnpi); [lia|].
    rewrite Eit. cbn [pbind pret]. unfold item_schema.
    pose proof (Hn ft e fuel it (or_introl Ek) Eit) as Hns.
    destruct (types it) as [| | | | | |fs|e'|e'|e'|] eqn:Ei; try done; try by eexists.
    destruct fuel as [|fuel]; [lia|].
    destruct (IH it it fs) as [props Hp]; [lia | apply strip_fixed; by rewrite Ei | done|].
    rewrite Hp. by eexists.
  - destruct (strip_enough rank fuel e Hr) as (it & Eit & Hit & Hnpi); [lia|].
    rewrite Eit. cbn [pbind pret]. unfold item_schema.
    pose proof (Hn ft e fuel it (or_intror Ek) Eit) as Hns.
    destruct (types it) as [| | | | | |fs|e'|e'|e'|] eqn:Ei; try done; try by eexists.
    destruct fuel as [|fuel]; [lia|].
    destruct (IH it it fs) as [props Hp]; [lia | apply strip_fixed; by rewrite Ei | done|].
    rewrite Hp. by eexists.
Qed.
End Reflection.

(** A recursive struct, as of a tree: [toOpenAPIV3] does not return. *)
Definition tree_types (t : nat) : TypeDef :=
  match t with
  | O => TStruct [mkStructField "Next" "next" false 1]
  | S O => TPointer 0
  | _ => TOtherKind
  end.

Theorem toOpenAPIV3_recursive fuel : toOpenAPIV3 tree_types fuel 0 = None.
Proof.
  induction fuel as [|fuel IH]; [done|]. simpl. destruct fuel as [|fuel]; [done|].
  destruct fuel as [|fuel]; [done|]. cbn [strip stripped tree_types pbind pret].
  unfold stripped. cbn [strip tree_types pbind pret]. unfold field_schema. cbn [tree_types].
  by rewrite IH.
Qed.

(** Field keys: an ignored field is named by its dash, one with options only has no name. *)
Example getFieldKey_ignored : getFieldKey (mkStructField "Secret" "-" false 0) = "-".
Proof. reflexivity. Qed.
Example getFieldKey_options : getFieldKey (mkStructField "Count" ",omitempty" false 0) = "".
Proof. reflexivity. Qed.

(** An embedded map puts its extension among the properties. *)
Definition open_types (t : nat) : TypeDef :=
  match t with O => TStruct [mkStructField "Rest" "" true 1] | S O => TMap | _ => TOtherKind end.
Example toOpenAPIV3_embedded_map : toOpenAPIV3 open_types 3 0 = pret {[ preserve := ABool true ]}.
Proof. reflexivity. Qed.

(** ** Properties of the registration *)

#[local] Instance name_ge_total : Total name_ge.
Proof. intros v1 v2. unfold name_ge. destruct (total String.le (cv_Name v1) (cv_Name v2)); auto. Qed.
#[local] Instance name_ge_trans : Transitive name_ge.
Proof. intros v1 v2 v3 H1 H2. unfold name_ge in *. by trans (cv_Name v2). Qed.

Lemma store_last_snoc vs v : store_last (vs ++ [v]) = (with_Storage false <$> vs) ++ [with_Storage true v].
Proof.
  induction vs as [|u vs IH]; [done|]. simpl. rewrite IH. by destruct (vs ++ [v]) eqn:E; [destruct vs|].
Qed.

(** The version that is stored has the least name. *)
Lemma sort_versions_last vs : vs ≠ [] →
  ∃ others stored, sort_versions vs = others ++ [stored] ∧ vs ≡ₚ others ++ [stored] ∧
    ∀ u, u ∈ vs → String.le (cv_Name stored) (cv_Name u).
Proof.
  intros Hne.
  assert (Hp : sort_versions vs ≡ₚ vs) by apply merge_sort_Permutation.
  assert (Hs : StronglySorted name_ge (sort_versions vs)) by apply (StronglySorted_merge_sort name_ge).
  destruct (sort_versions vs) as [|stored others _] eqn:E using rev_ind.
  - apply Permutation_nil_l in Hp. by subst.
  - exists others, stored. split_and!; [done | by symmetry|].
    intros u Hu. rewrite <- Hp, elem_of_app in Hu. destruct Hu as [Hu| ->%list_elem_of_singleton]; [|done].
    by apply (StronglySorted_app_1_elem_of name_ge others [stored] u stored Hs Hu); left.
Qed.

Section Registration.
Context {W : Type} `{WW : !World W} (types : nat → TypeDef) (fuel : nat)
  (spec_type : Object → nat) (subresource_types : Object → gmap string nat)
  (client : CRDRequests W) (Marshal : CRD → string + GoError) (next_event : M W wait_event).

Lemma find_version_spec name vs idx i : find_version name vs idx = Some i →
  (idx ≤ i < idx + length vs)%nat.
Proof.
  revert idx. induction vs as [|v vs IH]; intros idx; simpl; [done|].
  case_bool_decide; [intros [= <-]; lia|]. intros Hi. specialize (IH _ Hi). lia.
Qed.

(** The versions a definition should have after the registration. *)
Definition registered (schema : Schema W) (v : CRDSpecVersion) (existing : CRD) : list CRDSpecVersion :=
  let vs := elems (crd_Versions existing) in
  match find_version (Version schema) vs 0 with
  | Some idx => <[idx := v]> vs
  | None => vs ++ [v]
  end.

(** Registering a schema for which there is a definition replaces the version of its
    name, or adds it, and sends all versions sorted by falling name with exactly one of
    them stored, the one with the least name. *)
Theorem RegisterSchema_updates schema options existing sc v w w1 w2 :
  cr_Get client (crd_name schema) w = ((existing, sc, None), w1) → sc ≠ 404%Z →
  (find_version (Version schema) (elems (crd_Versions existing)) 0 ≠ None → rso_UpdateOnConflict options = true) →
  toVersion types fuel spec_type subresource_types schema w1 = (pret v, w2) →
  ∃ others stored,
    registered schema v existing ≡ₚ others ++ [stored] ∧
    (∀ u, u ∈ registered schema v existing → String.le (cv_Name stored) (cv_Name u)) ∧
    RegisterSchema types fuel spec_type subresource_types client Marshal next_event schema options w =
    match Marshal (with_Versions ((with_Storage false <$> others) ++ [with_Storage true stored]) existing) with
    | inr err => (pret (Some err), w2)
    | inl bytes =>
        let '((sc', err), w3) := cr_Put client bytes w2 in
        match err with
        | Some _ => (parse_error sc' err, w3)
        | None => if rso_WaitForAvailability options
                  then WaitForAvailability fuel client next_event schema w3 else (pret None, w3)
        end
    end.
Proof.
  intros Hget Hsc Hopt Hv.
  assert (Hne : registered schema v existing ≠ []).
  { unfold registered. destruct (find_version _ _ _) as [i|] eqn:Ef.
    - apply find_version_spec in Ef. intros E. apply (f_equal length) in E.
      rewrite length_insert in E. simpl in E. lia.
    - by destruct (elems (crd_Versions existing)). }
  destruct (sort_versions_last _ Hne) as (others & stored & Hsort & Hperm & Hleast).
  exists others, stored. split_and!; [done..|].
  assert (Hput : put_versions fuel client Marshal next_event schema options existing (registered schema v existing) w2 =
    RegisterSchema types fuel spec_type subresource_types client Marshal next_event schema options w).
  { unfold RegisterSchema. rewrite (bind_run _ _ _ _ _ Hget). cbn beta iota.
    rewrite (proj2 (Z.eqb_neq sc 404)) by done. unfold update_crd, registered in *.
    destruct (find_version _ _ _) as [i|].
    - rewrite Hopt by done. simpl. unfold mpbind. by rewrite (bind_run _ _ _ _ _ Hv).
    - unfold mpbind. by rewrite (bind_run _ _ _ _ _ Hv). }
  rewrite <- Hput. unfold put_versions. rewrite Hsort, store_last_snoc.
  destruct (Marshal _) as [bytes|e]; [|done]. unfold bind.
  destruct (cr_Put client bytes w2) as [[sc' [e|]] w3]; [done|]. by destruct (rso_WaitForAvailability options).
Qed.

(** [WaitForAvailability] returns without an error only after the server has answered
    a request for the definition without one, and an error only of the context or of an
    answer that is not a 404. *)
Theorem WaitForAvailability_waits schema w r w' :
  WaitForAvailability fuel client next_event schema w = (pret r, w') →
  match r with
  | None => ∃ w0 sc, cr_Status client (crd_name schema) w0 = ((sc, None), w')
  | Some e => (∃ w0, next_event w0 = (ContextDone e, w')) ∨
      ∃ w0 sc, cr_Status client (crd_name schema) w0 = ((sc, Some e), w') ∧ sc ≠ 404%Z
  end.
Proof.
  unfold WaitForAvailability. generalize (crd_name schema). intros name. revert w.
  induction fuel as [|n IH]; intros w; simpl; [done|]. unfold bind.
  destruct (next_event w) as [[|err] w1] eqn:Ee.
  - destruct (cr_Status client name w1) as [[sc [err|]] w2] eqn:Es.
    + destruct (sc =? 404)%Z eqn:E; [apply IH|]. intros [= <- <-]. right.
      exists w1, sc. split; [done | by apply Z.eqb_neq].
    + intros [= <- <-]. by exists w1, sc.
  - intros [= <- <-]. left. by exists w.
Qed.
End Registration.

(** ** Witnesses *)
Definition test_types (t : nat) : TypeDef :=
  match t with
  | 0 => TStruct [mkStructField "Name" "name" false 1; mkStructField "Tags" "tags,omitempty" false 2]
  | 1 => TString
  | 2 => TSlice 1
  | _ => TOtherKind
  end%nat.
Definition test_rank (t : nat) : nat := match t with 0 => 2 | 2 => 1 | _ => 0 end%nat.

Lemma toOpenAPIV3_total_witness : ∃ m, toOpenAPIV3 test_types 3 0 = pret m.
Proof.
  apply (toOpenAPIV3_total test_types test_rank 3 0 0
    [mkStructField "Name" "name" false 1; mkStructField "Tags" "tags,omitempty" false 2]).
  - intros [|[|[|t]]]; simpl; [|done|lia|done]. repeat constructor; simpl; lia.
  - intros t e fuel e' [H|H] Hs; destruct t as [|[|[|t]]]; try done. injection H as <-.
    destruct fuel; [done|]. injection Hs as <-. done.
  - simpl. lia.
  - done.
  - done.
Defined.

Definition test_crd_version (name : string) : CRDSpecVersion :=
  mkCRDSpecVersion name true false None None None None.
Definition test_crd : CRD :=
  mkCRD "apiextensions.k8s.io/v1" "CustomResourceDefinition" "foos.g" "" "g"
    (Some [with_Storage true (test_crd_version "v1")]) "Foo" "foos" None "Namespaced".

Definition test_crd_requests : CRDRequests TestWorld :=
  mkCRDRequests (λ _, ret (test_crd, 200%Z, None)) (λ _, ret (200%Z, None))
    (λ b, modify (note b) ;;; ret (200%Z, None)) (λ _, ret (201%Z, None)).
Definition test_marshal (c : CRD) : string + GoError :=
  inl (String.concat "," ((λ v, cv_Name v +:+ if cv_Storage v then " stored" else "") <$> elems (crd_Versions c))).
Definition test_crd_schema (version : string) : Schema TestWorld :=
  mkSchema _ "g" version "Foo" "foos" (ret (Some 0%nat)) (ret None) NamespacedScope [].

Definition v2_of_test : CRDSpecVersion :=
  match version_of test_types 3 (λ _, 0%nat) (λ _, ∅) (test_crd_schema "v2") zeroObject with
  | Some (Returned v) => v
  | _ => test_crd_version "v2"
  end.

Lemma RegisterSchema_updates_witness : ∃ others stored,
  registered (test_crd_schema "v2") v2_of_test test_crd ≡ₚ others ++ [stored] ∧
  (∀ u, u ∈ registered (test_crd_schema "v2") v2_of_test test_crd → String.le (cv_Name stored) (cv_Name u)) ∧
  (RegisterSchema test_types 3 (λ _, 0%nat) (λ _, ∅) test_crd_requests test_marshal (ret Tick)
    (test_crd_schema "v2") (mkRegisterSchemaOptions false false false) test_world).1 = pret None.
Proof.
  destruct (RegisterSchema_updates test_types 3 (λ _, 0%nat) (λ _, ∅) test_crd_requests test_marshal (ret Tick)
    (test_crd_schema "v2") (mkRegisterSchemaOptions false false false) test_crd 200 v2_of_test
    test_world test_world test_world) as (others & stored & H1 & H2 & H3).
  - reflexivity.
  - done.
  - intros H. by destruct H.
  - reflexivity.
  - exists others, stored. split_and!; [exact H1 | exact H2 | by rewrite H3].
Defined.

(** The newest of two versions is not the one that is stored. *)
Example RegisterSchema_stores_oldest :
  tw_log (RegisterSchema test_types 3 (λ _, 0%nat) (λ _, ∅) test_crd_requests test_marshal (ret Tick)
    (test_crd_schema "v2") (mkRegisterSchemaOptions false false false) test_world).2 = ["v2,v1 stored"].
Proof. vm_compute. reflexivity. Qed.

Lemma WaitForAvailability_waits_witness : ∃ w0 sc,
  cr_Status test_crd_requests "foos.g" w0 = ((sc, None), test_world).
Proof.
  exact (WaitForAvailability_waits 2 test_crd_requests (ret Tick) (test_crd_schema "v1") test_world None test_world eq_refl).
Defined.
