(* ===== verification/PluginRouter.v ===== *)
(** * The plugin router ([plugin/errors.go], [plugin/router/])

    [Router] and [Subrouter] as nodes of a heap (a subrouter is shared by its parent and by
    the caller of [Subrouter]), the route handlers they point to, the middlewares, the
    JSON router and the CRUD routes of [ResourceGroupRouter].  The pattern of the path
    arguments, a constant of the code, is written out; other patterns are compiled by the
    class [Regexp], and [RegexpFragment] says what the engine does with the patterns made
    of plain text and of path arguments.  A response is sent by pointer, and a capturing
    sender keeps the pointer: both are cells of the [PluginState] of the world. *)
From S2P Require Import Prelude GoValues Resource ResourceWatcher Schema Client Store Concrete Admission.

#[local] Open Scope string_scope.
#[local] Open Scope list_scope.

(** ** [plugin/errors.go] *)

(** [FromError]: the code and the error of the first [Error] in the tree of [err]. *)
Fixpoint AsPluginError (e : GoError) : option (Z * GoError) :=
  match e with
  | PluginError code e => Some (code, e)
  | WrapError _ e | FinalizerOperationError e _ | ServerResponseError e _ | StreamConnectionError e =>
      AsPluginError e
  | JoinError e1 e2 | WrapBoth e1 _ e2 =>
      match AsPluginError e1 with Some r => Some r | None => AsPluginError e2 end
  | ErrorString _ | CannotCastError _ | StatusError _ | SimpleAdmissionError _ _ _ => None
  end.

Definition FromError (err : GoError) : Z * GoError := default (500%Z, err) (AsPluginError err).

(** [NewError] and [WrapError] *)
Definition Plugin_NewError (code : Z) (message : string) : GoError := PluginError code (ErrorString message).
Definition Plugin_WrapError (code : Z) (err : GoError) : GoError := PluginError code err.

(** [CleanMessage] *)
Definition CleanMessage (e : Z * GoError) : string :=
  if (e.1 =? 500)%Z then "internal server error" else Error e.2.

(** [backend.CallResourceResponse] *)
Record Response := mkResponse {
  rp_Status : Z;
  rp_Headers : gmap string (list string);
  rp_Body : string;
}.

(** [MarshalError], with [encode] the JSON of a [jErr], and the responses made from it. *)
Definition MarshalError (encode : string → option string) (err : option GoError) : string :=
  match encode (match err with Some e => Error e | None => "" end) with
  | Some j => j
  | None => "{" +:+ quoted "error" +:+ ":" +:+ quoted "could not marshal error, please check log" +:+ "}"
  end.
Definition InternalError encode (err : option GoError) : Response := mkResponse 500 ∅ (MarshalError encode err).
Definition NotFoundError encode (err : option GoError) : Response := mkResponse 404 ∅ (MarshalError encode err).
Definition BadRequestError encode (err : option GoError) : Response := mkResponse 400 ∅ (MarshalError encode err).

(** ** Vars ([vars.go]) *)

(** A nil [Vars] is [None]. *)
Definition Vars := nmap string.

(** [Vars.Add]; a nil map is replaced by a new one. *)
Definition Vars_Add (v : Vars) (k s : string) : Vars := Some (<[k := s]> (items v)).

(** [NewVars] *)
Definition NewVars `{RO : !RangeOrder} (from : nmap string) : Vars :=
  foldl (λ r '(k, v), Vars_Add r k v) (Some ∅) (range_map (items from)).

(** [Vars.Get] and [Vars.MustGet] *)
Definition Vars_Get (v : Vars) (k : string) : string * bool :=
  match v with
  | None => ("", false)
  | Some m =>
      match m !! k with
      | None => ("", false)
      | Some s => (s, negb (bool_decide (s = "")))
      end
  end.

Definition Vars_MustGet (v : Vars) (k : string) : called string :=
  match Vars_Get v k with (s, true) => Returned s | _ => Panics end.

(** [RouteInfo] *)
Record RouteInfo := mkRouteInfo { ri_Name : string; ri_Path : string; ri_Method : string }.

(** A [context.Context], by the values that matter here: the variables and the matched
    route of this package, and the values [V] of the others. *)
Record Ctx (V : Type) := mkCtx {
  ctx_Vars : option Vars;
  ctx_Route : option RouteInfo;
  ctx_values : V;
}.
Arguments mkCtx {V}.
Arguments ctx_Vars {V}.
Arguments ctx_Route {V}.
Arguments ctx_values {V}.

Section Contexts.
Context {V : Type}.

Definition VarsFromCtx (ctx : Ctx V) : Vars :=
  match ctx_Vars ctx with Some vars => vars | None => Some ∅ end.
Definition CtxWithVars (ctx : Ctx V) (vars : Vars) : Ctx V :=
  mkCtx (Some vars) (ctx_Route ctx) (ctx_values ctx).
Definition CtxWithVar (ctx : Ctx V) (name value : string) : Ctx V :=
  CtxWithVars ctx (Vars_Add (VarsFromCtx ctx) name value).
Definition CtxWithRoute (ctx : Ctx V) (i : RouteInfo) : Ctx V :=
  mkCtx (ctx_Vars ctx) (Some i) (ctx_values ctx).
Definition CtxWithValues (ctx : Ctx V) (v : V) : Ctx V := mkCtx (ctx_Vars ctx) (ctx_Route ctx) v.

(** [MatchedRouteFromContext] *)
Definition MatchedRouteFromContext (ctx : Ctx V) : RouteInfo :=
  default (mkRouteInfo "" "" "") (ctx_Route ctx).
End Contexts.

(** ** Paths *)

(** [replArgRegex]: an opening brace, a name, and after a colon an expression that may be
    empty or missing, a closing brace; neither holds a brace that closes, a caret or a
    colon.  The parts are as long as they can be: a shorter name cannot be followed by
    what the pattern asks for.  The match at the start of [s]: its text, the name, the
    expression, and what follows. *)
Definition arg_char (c : ascii) : bool :=
  negb (Ascii.eqb c "}" || Ascii.eqb c "^" || Ascii.eqb c ":").

Definition match_arg (s : string) : option (string * string * string * string) :=
  match s with
  | String c s1 =>
      if Ascii.eqb c "{" then
        let '(name, s2) := string_span arg_char s1 in
        if bool_decide (name = "") then None
        else
          match s2 with
          | String c2 s3 =>
              if Ascii.eqb c2 "}" then Some ("{" +:+ name +:+ "}", name, "", s3)
              else if Ascii.eqb c2 ":" then
                let '(expr, s4) := string_span arg_char s3 in
                match s4 with
                | String c4 s5 =>
                    if Ascii.eqb c4 "}"
                    then Some ("{" +:+ name +:+ ":" +:+ expr +:+ "}", name, expr, s5)
                    else None
                | EmptyString => None
                end
              else None
          | EmptyString => None
          end
      else None
  | EmptyString => None
  end.

(** [replArgRegex.FindAllStringSubmatch(path, -1)] *)
Fixpoint find_args (fuel : nat) (s : string) : list (string * string * string) :=
  match fuel with
  | O => []
  | S fuel =>
      match match_arg s with
      | Some (whole, name, expr, rest) => (whole, name, expr) :: find_args fuel rest
      | None => match s with String _ s => find_args fuel s | EmptyString => [] end
      end
  end.
Definition FindArgs (path : string) : list (string * string * string) :=
  find_args (S (String.length path)) path.

(** The loop that puts a group in the place of each path argument: the pattern, and the
    names of the arguments. *)
Definition arg_group (expr : string) : string :=
  if bool_decide (expr = "") then "([^\/]+)" else "(" +:+ expr +:+ ")".
Definition path_pattern (path : string) : string * list string :=
  foldl (λ '(p, names) '(whole, name, expr), (ReplaceAll p whole (arg_group expr), names ++ [name]))
    (path, []) (FindArgs path).

(** Package [regexp]; [None] is an expression that does not compile, or no match. *)
Class Regexp := {
  Regex : Type;
  Compile : string → option Regex;
  FindStringSubmatch : Regex → string → option (list string);
}.

(** ** Requests, senders and handlers *)

(** [backend.CallResourceRequest]; [PC] is the plugin context. *)
Record Request (PC : Type) := mkRequest {
  rq_PluginContext : PC;
  rq_Path : string;
  rq_Method : string;
  rq_URL : string;
  rq_Headers : gmap string (list string);
  rq_Body : string;
}.
Arguments mkRequest {PC}.
Arguments rq_PluginContext {PC}.
Arguments rq_Path {PC}.
Arguments rq_Method {PC}.
Arguments rq_URL {PC}.
Arguments rq_Headers {PC}.
Arguments rq_Body {PC}.

(** The responses and the capturing senders of the process. *)
Record PluginState := mkPluginState {
  responses : list Response;
  captures : list (option nat);
}.

Class PluginMemory (W : Type) := {
  pm : W → PluginState;
  set_pm : PluginState → W → W;
  pm_set_pm s w : pm (set_pm s w) = s;
}.

Section Router.
Context {W V PC : Type} `{PM : !PluginMemory W} `{RE : !Regexp}.

(** [&backend.CallResourceResponse{...}] *)
Definition new_response (r : Response) : M W nat := λ w,
  let s := pm w in
  (length (responses s), set_pm (mkPluginState (responses s ++ [r]) (captures s)) w).

(** [backend.CallResourceResponseSender], by its [Send]. *)
Definition Sender : Type := option nat → M W (option GoError).

(** [HandlerFunc]; a middleware gives a handler for a handler. *)
Definition HandlerFunc : Type := Ctx V → Request PC → Sender → MP W unit.
Definition Middleware : Type := HandlerFunc → HandlerFunc.

(** [DefaultNotFoundHandler] *)
Definition DefaultNotFoundHandler : HandlerFunc := λ _ req sender,
  let! p := calls (new_response (mkResponse 404 ∅ ("no route match for path " +:+ rq_Path req))) in
  let! err := calls (sender (Some p)) in
  returns tt.

(** [RouteHandler] *)
Record RouteHandler := mkRouteHandler {
  matcher : Regex;
  rh_name : string;
  rh_path : string;
  handleFunc : HandlerFunc;
  rh_pathArgNames : list string;
  rh_methods : gset string;
}.

(** The fields of a [Subrouter] besides those of its [Router]. *)
Record SubrouterFields := mkSubrouterFields {
  sub_matcher : Regex;
  sub_pathArgNames : list string;
  sub_path : string;
}.

(** A [Router], with the fields of a [Subrouter] if it is one. *)
Record RouterNode := mkRouterNode {
  NotFoundHandler : option HandlerFunc;
  subrouters : list nat;
  routes : list nat;
  middlewares : list Middleware;
  subrouter_fields : option SubrouterFields;
}.

(** All routers and route handlers there are; a pointer is an index. *)
Record Routers := mkRouters {
  rs_nodes : list RouterNode;
  rs_handlers : list RouteHandler;
}.

Definition no_routers : Routers := mkRouters [] [].

(** [NewRouter] *)
Definition NewRouter : M Routers nat := λ rs,
  (length (rs_nodes rs),
   mkRouters (rs_nodes rs ++ [mkRouterNode (Some DefaultNotFoundHandler) [] [] [] None]) (rs_handlers rs)).

Definition alter_node (r : nat) (f : RouterNode → RouterNode) (rs : Routers) : Routers :=
  mkRouters (alter f r (rs_nodes rs)) (rs_handlers rs).

(** [Use] *)
Definition Use (r : nat) (mws : list Middleware) : M Routers unit :=
  modify (alter_node r (λ n, mkRouterNode (NotFoundHandler n) (subrouters n) (routes n)
                               (middlewares n ++ mws) (subrouter_fields n))).

(** [r.NotFoundHandler = h], a field users may set. *)
Definition set_NotFoundHandler (r : nat) (h : option HandlerFunc) : M Routers unit :=
  modify (alter_node r (λ n, mkRouterNode h (subrouters n) (routes n) (middlewares n) (subrouter_fields n))).

(** [Router.Subrouter]; nil when the pattern does not compile. *)
Definition Subrouter (r : nat) (path : string) : M Routers (option nat) := λ rs,
  let '(pattern, pathArgNames) := path_pattern path in
  match Compile ("^" +:+ pattern) with
  | None => (None, rs)
  | Some regex =>
      let sr := mkRouterNode (match rs_nodes rs !! r with Some n => NotFoundHandler n | None => None end)
                  [] [] [] (Some (mkSubrouterFields regex pathArgNames pattern)) in
      let i := length (rs_nodes rs) in
      (Some i,
       alter_node r (λ n, mkRouterNode (NotFoundHandler n) (subrouters n ++ [i]) (routes n)
                            (middlewares n) (subrouter_fields n))
         (mkRouters (rs_nodes rs ++ [sr]) (rs_handlers rs)))
  end.

(** [Router.Handle]; nil when the pattern does not compile. *)
Definition methods_of (methods : list string) : gset string := list_to_set (ToUpper <$> methods).

Definition Handle (r : nat) (path : string) (handler : HandlerFunc) (methods : list string)
  : M Routers (option nat) := λ rs,
  let '(pattern, pathArgNames) := path_pattern (if bool_decide (path = "") then "/" else path) in
  match Compile ("^" +:+ pattern +:+ "$") with
  | None => (None, rs)
  | Some regex =>
      let m := match methods with [] => {["GET"]} | _ => methods_of methods end in
      let h := mkRouteHandler regex "" path handler pathArgNames m in
      let i := length (rs_handlers rs) in
      (Some i,
       alter_node r (λ n, mkRouterNode (NotFoundHandler n) (subrouters n) (routes n ++ [i])
                            (middlewares n) (subrouter_fields n))
         (mkRouters (rs_nodes rs) (rs_handlers rs ++ [h])))
  end.

(** [RouteHandler.Methods] and [RouteHandler.Name] *)
Definition SetMethods (h : nat) (methods : list string) : M Routers unit :=
  modify (λ rs, mkRouters (rs_nodes rs)
    (alter (λ x, mkRouteHandler (matcher x) (rh_name x) (rh_path x) (handleFunc x)
                   (rh_pathArgNames x) (methods_of methods)) h (rs_handlers rs))).
Definition SetName (h : nat) (name : string) : M Routers unit :=
  modify (λ rs, mkRouters (rs_nodes rs)
    (alter (λ x, mkRouteHandler (matcher x) name (rh_path x) (handleFunc x)
                   (rh_pathArgNames x) (rh_methods x)) h (rs_handlers rs))).

(** [RouteByName] *)
Definition RouteByName (rs : Routers) (r : nat) (name : string) : option nat :=
  match rs_nodes rs !! r with
  | None => None
  | Some n =>
      head (filter (λ h, (rh_name <$> rs_handlers rs !! h) = Some name) (routes n))
  end.

(** The loop that adds the captured texts to the context. *)
Definition bind_vars (ctx : Ctx V) (names matches : list string) : Ctx V :=
  foldl (λ ctx '(n, m), CtxWithVar ctx n m) ctx (zip names matches).

(** [h.matcher.FindStringSubmatch(path)] when it has a match: its text and the groups. *)
Definition submatch (re : Regex) (path : string) : option (string * list string) :=
  match FindStringSubmatch re path with
  | Some (m0 :: ms) => Some (m0, ms)
  | _ => None
  end.

(** The first subrouter whose pattern matches. *)
Fixpoint first_subrouter (rs : Routers) (hs : list nat) (path : string)
  : option (nat * SubrouterFields * string * list string) :=
  match hs with
  | [] => None
  | h :: hs =>
      match rs_nodes rs !! h with
      | Some n =>
          match subrouter_fields n with
          | Some f =>
              match submatch (sub_matcher f) path with
              | Some (m0, ms) => Some (h, f, m0, ms)
              | None => first_subrouter rs hs path
              end
          | None => first_subrouter rs hs path
          end
      | None => first_subrouter rs hs path
      end
  end.

(** The first route for the method whose pattern matches. *)
Fixpoint first_route (rs : Routers) (hs : list nat) (path method : string)
  : option (RouteHandler * list string) :=
  match hs with
  | [] => None
  | h :: hs =>
      match rs_handlers rs !! h with
      | Some rh =>
          if bool_decide (method ∈ rh_methods rh) then
            match submatch (matcher rh) path with
            | Some (_, ms) => Some (rh, ms)
            | None => first_route rs hs path method
            end
          else first_route rs hs path method
      | None => first_route rs hs path method
      end
  end.

(** The chain of middlewares around a handler: the first is the outermost. *)
Definition wrap (mws : list Middleware) (handler : HandlerFunc) : HandlerFunc :=
  foldr (λ mw h, mw h) handler mws.

Definition joined (matchedPath path : string) : string :=
  if bool_decide (matchedPath = "") then path else path_Join matchedPath path.

(** [getHandler]; [None] when the fuel is used up. *)
Fixpoint getHandler (fuel : nat) (rs : Routers) (r : nat) (ctx : Ctx V)
    (path method matchedPath : string) (applyMiddlewares : list Middleware)
  : option (Ctx V * option HandlerFunc) :=
  match fuel with
  | O => None
  | S fuel =>
      match rs_nodes rs !! r with
      | None => None
      | Some n =>
          match first_subrouter rs (subrouters n) path with
          | Some (h, f, m0, ms) =>
              getHandler fuel rs h (bind_vars ctx (sub_pathArgNames f) ms)
                (str_drop (String.length m0) path) method (joined matchedPath (sub_path f))
                (applyMiddlewares ++ middlewares n)
          | None =>
              match first_route rs (routes n) path method with
              | Some (rh, ms) =>
                  let ctx := bind_vars ctx (rh_pathArgNames rh) ms in
                  let handler := wrap applyMiddlewares (wrap (middlewares n) (handleFunc rh)) in
                  Some (CtxWithRoute ctx
                          (mkRouteInfo (rh_name rh) (joined matchedPath (rh_path rh)) method), Some handler)
              | None => Some (ctx, None)
              end
          end
      end
  end.

(** [CallResource]; as many calls of [getHandler] as there are routers. *)
Definition CallResource (rs : Routers) (r : nat) (ctx : Ctx V) (req : Request PC) (sender : Sender)
  : option (MP W (option GoError)) :=
  match rs_nodes rs !! r, getHandler (length (rs_nodes rs)) rs r ctx (rq_Path req) (ToUpper (rq_Method req)) "" [] with
  | Some n, Some (ctx, handler) =>
      Some match handler with
      | Some handler => let! _ := handler ctx req sender in returns None
      | None =>
          match NotFoundHandler n with
          | None => returns (Some (ErrorString "no handler found for the request"))
          | Some h =>
              let handler := wrap (middlewares n) h in
              let ctx := CtxWithRoute ctx (mkRouteInfo "NotFoundHandler" (rq_Path req) (rq_Method req)) in
              let! _ := handler ctx req sender in returns None
          end
      end
  | _, _ => None
  end.

(** ** Middlewares ([middleware.go]) *)

(** [CapturingSender]: a cell that keeps the last response sent. *)
Definition new_capture : M W nat := λ w,
  let s := pm w in
  (length (captures s), set_pm (mkPluginState (responses s) (captures s ++ [None])) w).
Definition captured (c : nat) (w : W) : option nat := default None (captures (pm w) !! c).
Definition CapturingSender (c : nat) : Sender := λ res w,
  let s := pm w in
  (None, set_pm (mkPluginState (responses s) (<[c := res]> (captures s))) w).

Definition NextFunc : Type := Ctx V → MP W (option nat).

(** [NewCapturingMiddleware] *)
Definition NewCapturingMiddleware (f : Ctx V → Request PC → NextFunc → MP W unit) : Middleware :=
  λ handler ctx req res,
  let! cs := calls new_capture in
  let! _ := f ctx req (λ ctx,
    let! _ := handler ctx req (CapturingSender cs) in
    calls (gets (captured cs))) in
  let! response := calls (gets (captured cs)) in
  let! _ := calls (res response) in
  returns tt.

(** Reading a field of a response; nil panics. *)
Definition deref_response (p : option nat) : MP W Response := λ w,
  match p with
  | Some p => match responses (pm w) !! p with Some r => (Returned r, w) | None => (Panics, w) end
  | None => (Panics, w)
  end.

(** [NewLoggingMiddleware], without the message it logs; [with_logger] puts the logger in
    the context's values. *)
Definition NewLoggingMiddleware (with_logger : V → V) : Middleware := λ handler ctx req sender,
  handler (CtxWithValues ctx (with_logger (ctx_values ctx))) req sender.

(** [NewTracingMiddleware]: [start] starts a span and puts it in the context, [raw_query]
    is the query [url.Parse] finds, and the attributes are the texts the SDK sets.  The
    one element [strings.SplitN(req.URL, "?", 1)] returns is never followed by another. *)
Definition Tracing_query (raw_query : string → option string) (url : string) : string :=
  match raw_query url with
  | Some q => q
  | None => match [url] with _ :: q :: _ => q | _ => "" end
  end.

Definition NewTracingMiddleware (start : V → M W (V * nat)) (raw_query : string → option string)
    (SetAttributes : nat → list (string * string) → M W unit) (End_ : nat → M W unit) : Middleware :=
  NewCapturingMiddleware (λ ctx req next,
    let! '(v, span) := calls (start (ctx_values ctx)) in
    let ctx := CtxWithValues ctx v in
    let routeInfo := MatchedRouteFromContext ctx in
    let* r :=
      (let! resp := next ctx in
       let query := Tracing_query raw_query (rq_URL req) in
       let! r := deref_response resp in
       calls (SetAttributes span
         [("http.response.status_code", pretty (rp_Status r));
          ("http.request.body.size", pretty (Z.of_nat (String.length (rq_Body req))));
          ("http.response.body.size", pretty (Z.of_nat (String.length (rp_Body r))));
          ("http.request.method", rq_Method req);
          ("url.path", rq_Path req);
          ("url.query", query);
          ("http.route", ri_Path routeInfo)])) in
    End_ span ;;;
    ret r).

(** [NewMetricsMiddleware]: what is observed, in order, with the labels; the vectors are
    registered when the middleware is made. *)
Inductive Observation :=
| InflightInc (method route : string)
| RequestBytes (method route : string) (n : Z)
| InflightDec (method route : string)
| RequestDuration (status : Z) (method route : string) (d : Z)
| TotalRequests (status : Z) (method route : string)
| ResponseBytes (method route : string) (n : Z).

Definition NewMetricsMiddleware `{!World W} (observe : Observation → M W unit) : Middleware :=
  NewCapturingMiddleware (λ ctx req next,
    let route := ri_Path (MatchedRouteFromContext ctx) in
    let! _ := calls (observe (InflightInc (rq_Method req) route)) in
    let! _ := calls (observe (RequestBytes (rq_Method req) route (Z.of_nat (String.length (rq_Body req))))) in
    let! start := calls Now in
    let! resp := next ctx in
    let! now := calls Now in
    let! _ := calls (observe (InflightDec (rq_Method req) route)) in
    let! r := deref_response resp in
    let! _ := calls (observe (RequestDuration (rp_Status r) (rq_Method req) route (now - start)%Z)) in
    let! _ := calls (observe (TotalRequests (rp_Status r) (rq_Method req) route)) in
    calls (observe (ResponseBytes (rq_Method req) route (Z.of_nat (String.length (rp_Body r)))))).

(** ** The JSON router ([json_router.go]) *)

(** A [JSONResponse] that is not nil: an object, a list, an error, or a value of the
    handlers of a plugin. *)
Inductive JSONValue :=
| JObject (r : Ref)
| JListObject (l : ListObject)
| JErrorResponse (code : Z) (error : string)
| JValue (v : string).

(** [JSONRequest]; [rq] holds the method, the headers, the body and the context. *)
Record JSONRequest := mkJSONRequest {
  jr_URL : string;
  jr_Vars : Vars;
  jr_request : Request PC;
}.

Definition JSONHandlerFunc : Type := Ctx V → JSONRequest → MP W (option JSONValue * option GoError).
Definition JSONErrorHandler : Type := Z * GoError → Z * option JSONValue.

Record JSONRouter := mkJSONRouter {
  j_Subrouter : option nat;
  errHandler : option JSONErrorHandler;
}.

(** [json.NewEncoder(buf).Encode(res)] in a state, and [url.Parse]. *)
Context (Encode : JSONValue → W → option string) (url_Parse : string → string + GoError).

(** [sendRes] *)
Definition answer (w : W) (code : Z) (res : option JSONValue) : Response :=
  match res with
  | Some v =>
      let headers := {[ "Content-Type" := ["application/json"] ]} in
      match Encode v w with
      | Some body => mkResponse code headers body
      | None =>
          mkResponse 500 headers
            ("{" +:+ quoted "code" +:+ ":500," +:+ quoted "error" +:+ ":" +:+ quoted "internal server error" +:+ "}")
      end
  | None => mkResponse (if (200 <=? code)%Z && (code <=? 299)%Z then 204 else code) ∅ ""
  end.

Definition sendRes (s : Sender) (code : Z) (res : option JSONValue) : MP W unit :=
  let! r := calls (gets (λ w, answer w code res)) in
  let! p := calls (new_response r) in
  let! err := calls (s (Some p)) in
  returns tt.

(** [sendErr] *)
Definition error_response (h : option JSONErrorHandler) (err : GoError) : Z * option JSONValue :=
  let uerr := FromError err in
  match h with
  | Some h => h uerr
  | None => (uerr.1, Some (JErrorResponse uerr.1 (CleanMessage uerr)))
  end.

Definition sendErr (j : JSONRouter) (s : Sender) (err : GoError) : MP W unit :=
  let '(code, res) := error_response (errHandler j) err in sendRes s code res.

(** [WrapHandlerFunc] *)
Definition WrapHandlerFunc (j : JSONRouter) (handler : JSONHandlerFunc) (okCode : Z) : HandlerFunc :=
  λ ctx r s,
  match url_Parse (rq_URL r) with
  | inr err => sendErr j s err
  | inl u =>
      let! '(res, err) := handler ctx (mkJSONRequest u (VarsFromCtx ctx) r) in
      match err with
      | Some err => sendErr j s err
      | None => sendRes s okCode res
      end
  end.

(** [NewJSONRouterWithErrorHandler], [NewJSONRouter], and [Subroute] and
    [SubrouteWithErrorHandler], which panic when the pattern of a router did not compile. *)
Definition NewJSONRouterWithErrorHandler (h : option JSONErrorHandler) : M Routers JSONRouter :=
  let* root := NewRouter in
  let* sr := Subrouter root "" in
  ret (mkJSONRouter sr h).
Definition NewJSONRouter : M Routers JSONRouter := NewJSONRouterWithErrorHandler None.

Definition with_subrouter {A} (j : JSONRouter) (k : nat → M Routers A) : MP Routers A :=
  match j_Subrouter j with Some r => calls (k r) | None => panic end.

Definition SubrouteWithErrorHandler (j : JSONRouter) (path : string) (h : option JSONErrorHandler)
  : MP Routers JSONRouter :=
  with_subrouter j (λ r, let* sr := Subrouter r path in ret (mkJSONRouter sr h)).
Definition Subroute (j : JSONRouter) (path : string) : MP Routers JSONRouter :=
  SubrouteWithErrorHandler j path (errHandler j).

(** [HandleWithCode] and [Handle] *)
Definition HandleWithCode (j : JSONRouter) (path : string) (handler : JSONHandlerFunc) (okCode : Z)
    (methods : list string) : MP Routers (option nat) :=
  with_subrouter j (λ r, Handle r path (WrapHandlerFunc j handler okCode) methods).
Definition JSON_Handle (j : JSONRouter) (path : string) (handler : JSONHandlerFunc)
    (methods : list string) : MP Routers (option nat) :=
  HandleWithCode j path handler 200 methods.

(** [JSONResourceHandler]; calling a nil function panics. *)
Record JSONResourceHandler := mkJSONResourceHandler {
  jh_Create : option JSONHandlerFunc;
  jh_Read : option JSONHandlerFunc;
  jh_Update : option JSONHandlerFunc;
  jh_Delete : option JSONHandlerFunc;
  jh_List : option JSONHandlerFunc;
}.

Definition or_panic (h : option JSONHandlerFunc) : JSONHandlerFunc := λ ctx req,
  match h with Some h => h ctx req | None => panic end.

(** [HandleResource] *)
Definition HandleResource (j : JSONRouter) (name : string) (handler : JSONResourceHandler)
  : MP Routers (list (option nat)) :=
  let path := "/" +:+ name in
  let idPath := path +:+ "/{id}" in
  let! a := JSON_Handle j path (or_panic (jh_List handler)) ["GET"] in
  let! b := HandleWithCode j path (or_panic (jh_Create handler)) 201 ["POST"] in
  let! c := JSON_Handle j idPath (or_panic (jh_Read handler)) ["GET"] in
  let! d := JSON_Handle j idPath (or_panic (jh_Update handler)) ["PUT"] in
  let! e := HandleWithCode j idPath (λ ctx req,
    let! '(_, err) := or_panic (jh_Delete handler) ctx req in
    returns (None, err)) 204 ["DELETE"] in
  returns [a; b; c; d; e].

(** ** The routes of a resource group ([resourcegroup_router.go]) *)

(** The interface [Store] *)
Record PluginStore := mkPluginStore {
  ps_Add : Ref → M W (Obj * option GoError);
  ps_Get : string → Identifier → M W (Obj * option GoError);
  ps_List : string → StoreListOptions → M W (ListObject + GoError);
  ps_Update : Ref → M W (Obj * option GoError);
  ps_Delete : string → Identifier → M W (option GoError);
}.

Context `{WW : !World W} `{MM : !Memory W}.

(** [json.NewDecoder(body).Decode(obj)], with the methods of the object's own type. *)
Context (DecodeObject : string → Obj → M W (option GoError)).

Definition json_object (o : Obj) : option JSONValue := JObject <$> o.

(** An object of the kind from the body, with the static metadata but its name replaced. *)
Definition read_object (namespace : string) (cr : Schema W) (body : string) : MP W (Ref + GoError) :=
  let! obj := calls (ZeroValue cr) in
  let! err := calls (DecodeObject body obj) in
  match err with
  | Some err => returns (inr (Plugin_WrapError 400 err))
  | None =>
      match obj with
      | None => panic
      | Some r =>
          let! _ := calls (update_ref r (λ o,
            with_StaticMetadata
              (mkStaticMetadata (Group cr) (Version cr) (Kind_ cr) namespace (GetName o)) o)) in
          returns (inl r)
      end
  end.

(** The result of a call of the store. *)
Definition store_answer (m : M W (Obj * option GoError)) : MP W (option JSONValue * option GoError) :=
  let! '(o, err) := calls m in
  match err with
  | Some err => returns (None, Some (Plugin_WrapError 500 err))
  | None => returns (json_object o, None)
  end.

Definition createResource (store : PluginStore) (namespace : string) (cr : Schema W) : JSONHandlerFunc :=
  λ _ request,
  let! r := read_object namespace cr (rq_Body (jr_request request)) in
  match r with
  | inr err => returns (None, Some err)
  | inl toBeInserted => store_answer (ps_Add store toBeInserted)
  end.

Definition listResources (store : PluginStore) (namespace : string) (cr : Schema W) : JSONHandlerFunc :=
  λ _ _,
  let! r := calls (ps_List store (Kind_ cr) (mkStoreListOptions namespace 0 [] [])) in
  match r with
  | inr err => returns (None, Some (Plugin_WrapError 500 err))
  | inl resources => returns (Some (JListObject resources), None)
  end.

Definition missing_name : GoError := Plugin_NewError 400 "must provide resource name".

Definition getResource (store : PluginStore) (namespace : string) (cr : Schema W) : JSONHandlerFunc :=
  λ _ request,
  match Vars_Get (jr_Vars request) "name" with
  | (_, false) => returns (None, Some missing_name)
  | (name, true) => store_answer (ps_Get store (Kind_ cr) (mkIdentifier namespace name))
  end.

Definition updateResource (store : PluginStore) (namespace : string) (cr : Schema W) : JSONHandlerFunc :=
  λ _ request,
  match Vars_Get (jr_Vars request) "name" with
  | (_, false) => returns (None, Some missing_name)
  | (_, true) =>
      let! r := read_object namespace cr (rq_Body (jr_request request)) in
      match r with
      | inr err => returns (None, Some err)
      | inl updatedResource => store_answer (ps_Update store updatedResource)
      end
  end.

Definition deleteResource (store : PluginStore) (namespace : string) (cr : Schema W) : JSONHandlerFunc :=
  λ _ request,
  match Vars_Get (jr_Vars request) "name" with
  | (_, false) => returns (None, Some missing_name)
  | (name, true) =>
      let! err := calls (ps_Delete store (Kind_ cr) (mkIdentifier namespace name)) in
      match err with
      | Some err => returns (None, Some (Plugin_WrapError 500 err))
      | None => returns (None, None)
      end
  end.

(** The routes of a kind: the body of the loop of [NewResourceGroupRouterWithStore]. *)
Definition group_routes (j : JSONRouter) (store : PluginStore) (namespace : string) (schema : Schema W)
  : MP Routers unit :=
  let baseRoute := Group schema +:+ "/" +:+ Version schema +:+ "/" +:+ Plural schema in
  let! _ := HandleWithCode j baseRoute (createResource store namespace schema) 202 ["POST"] in
  let! _ := JSON_Handle j baseRoute (listResources store namespace schema) ["GET"] in
  let! _ := JSON_Handle j (baseRoute +:+ "/{name}") (getResource store namespace schema) ["GET"] in
  let! _ := HandleWithCode j (baseRoute +:+ "/{name}") (updateResource store namespace schema) 202 ["PUT"] in
  let! _ := JSON_Handle j (baseRoute +:+ "/{name}") (deleteResource store namespace schema) ["DELETE"] in
  returns tt.

Fixpoint all_group_routes (j : JSONRouter) (store : PluginStore) (namespace : string) (kinds : list (Schema W))
  : MP Routers unit :=
  match kinds with
  | [] => returns tt
  | schema :: kinds =>
      let! _ := group_routes j store namespace schema in
      all_group_routes j store namespace kinds
  end.

(** [NewResourceGroupRouterWithStore]; a [KindCollection] is the list of its kinds. *)
Definition NewResourceGroupRouterWithStore (kinds : list (Schema W)) (namespace : string)
    (store : PluginStore) : MP Routers JSONRouter :=
  let! j := calls NewJSONRouter in
  let! _ := all_group_routes j store namespace kinds in
  returns j.

(** A [resource.Store] as the store of a router; [list] is [Store_List] with a loop over
    the pages that ends. *)
Definition Store_PluginStore (s : Store W) (list : string → StoreListOptions → M W (ListObject + GoError))
  : PluginStore :=
  mkPluginStore (Store_Add s) (Store_Get s) list (Store_Update s) (Store_Delete s).

(** [NewResourceGroupRouter] *)
Definition NewResourceGroupRouter (kinds : list (Schema W)) (namespace : string)
    (gen : Schema W → M W (Client W + GoError))
    (list : Store W → string → StoreListOptions → M W (ListObject + GoError)) : MP Routers JSONRouter :=
  let store := NewStore gen [kinds] in
  NewResourceGroupRouterWithStore kinds namespace (Store_PluginStore store (list store)).
End Router.

(** ** What the engine does with plain patterns *)

(** A pattern of plain characters, any characters and path arguments. *)
Inductive item := Literal (c : ascii) | AnyChar | Segment.

Definition is_meta (c : ascii) : bool :=
  existsb (Ascii.eqb c) (String.list_ascii_of_string "\.+*?()|[]{}^$").

Definition ascii_only (s : string) : bool :=
  forallb (λ c, (N_of_ascii c <? 128)%N) (String.list_ascii_of_string s).

Definition segment_pattern : string := "([^\/]+)".

(** The items of a pattern after its caret, and whether it ends with a dollar. *)
Fixpoint parse_items (fuel : nat) (s : string) : option (list item * bool) :=
  match fuel with
  | O => None
  | S fuel =>
      if String.prefix segment_pattern s then
        '(l, b) ← parse_items fuel (str_drop 8 s); Some (Segment :: l, b)
      else
        match s with
        | EmptyString => Some ([], false)
        | String c s' =>
            if Ascii.eqb c "." then '(l, b) ← parse_items fuel s'; Some (AnyChar :: l, b)
            else if Ascii.eqb c "$" then (if bool_decide (s' = "") then Some ([], true) else None)
            else if is_meta c then None
            else '(l, b) ← parse_items fuel s'; Some (Literal c :: l, b)
        end
  end.

Definition parse_pattern (p : string) : option (list item * bool) :=
  match p with
  | String c s => if Ascii.eqb c "^" then parse_items (S (String.length s)) s else None
  | EmptyString => None
  end.

(** The first match at the start of [s], longer segments tried first: the groups and what
    is left. *)
Definition not_slash (c : ascii) : bool := negb (Ascii.eqb c "/").

Fixpoint match_items (items : list item) (anchored : bool) (s : string) : option (list string * string) :=
  match items with
  | [] => if anchored && negb (bool_decide (s = "")) then None else Some ([], s)
  | Literal c :: items =>
      match s with
      | String c' s => if Ascii.eqb c c' then match_items items anchored s else None
      | EmptyString => None
      end
  | AnyChar :: items =>
      match s with
      | String c' s => if Ascii.eqb c' "010" then None else match_items items anchored s
      | EmptyString => None
      end
  | Segment :: items =>
      (fix try (n : nat) : option (list string * string) :=
         match n with
         | O => None
         | S n' =>
             match match_items items anchored (str_drop n s) with
             | Some (groups, rest) => Some (str_take n s :: groups, rest)
             | None => try n'
             end
         end) (String.length (string_span not_slash s).1)
  end.

Definition match_pattern (items : list item) (anchored : bool) (s : string) : option (list string) :=
  '(groups, rest) ← match_items items anchored s;
  Some (str_take (String.length s - String.length rest) s :: groups).

Class RegexpFragment `{RE : !Regexp} := {
  Compile_fragment p items anchored :
    parse_pattern p = Some (items, anchored) →
    ∃ re, Compile p = Some re ∧
      ∀ s, ascii_only s = true → FindStringSubmatch re s = match_pattern items anchored s;
}.

(** ** Properties of the router *)

Section Dispatch.
Context {W V PC : Type} `{PM : !PluginMemory W} `{RE : !Regexp}.
Implicit Types rs : Routers (W:=W) (V:=V) (PC:=PC).

(** A subrouter was made after its parent; pointers are to what exists. *)
Definition routers_ok rs : Prop :=
  ∀ i n, rs_nodes rs !! i = Some n →
    Forall (λ j, i < j < length (rs_nodes rs)) (subrouters n) ∧
    Forall (λ h, h < length (rs_handlers rs)) (routes n).

(** One call that builds or changes routers. *)
Inductive setup_step : Routers (W:=W) (V:=V) (PC:=PC) → Routers → Prop :=
| setup_new rs : setup_step rs (NewRouter rs).2
| setup_use r mws rs : setup_step rs (Use r mws rs).2
| setup_not_found r h rs : setup_step rs (set_NotFoundHandler r h rs).2
| setup_subrouter r path rs : r < length (rs_nodes rs) → setup_step rs (Subrouter r path rs).2
| setup_handle r path h methods rs : setup_step rs (Handle r path h methods rs).2
| setup_methods h methods rs : setup_step rs (SetMethods h methods rs).2
| setup_name h name rs : setup_step rs (SetName h name rs).2.

Lemma alter_node_ok r f rs :
  routers_ok rs →
  (∀ n, rs_nodes rs !! r = Some n →
     Forall (λ j, r < j < length (rs_nodes rs)) (subrouters (f n)) ∧
     Forall (λ h, h < length (rs_handlers rs)) (routes (f n))) →
  routers_ok (alter_node r f rs).
Proof.
  intros Hok Hf i n. simpl. rewrite length_alter. destruct (decide (i = r)) as [->|Hne].
  - rewrite list_lookup_alter_eq. intros (n' & Hn & ->)%fmap_Some_1. by apply Hf.
  - rewrite list_lookup_alter_ne by done. apply Hok.
Qed.

(** What was fine before more nodes and handlers were made still is. *)
Lemma routers_ok_more rs nodes handlers :
  routers_ok rs →
  (∀ n, n ∈ nodes → subrouters n = [] ∧ routes n = []) →
  routers_ok (mkRouters (rs_nodes rs ++ nodes) (rs_handlers rs ++ handlers)).
Proof.
  intros Hok Hnew i n. simpl. rewrite !length_app. rewrite lookup_app_Some. intros [Hn|[_ Hn]].
  - destruct (Hok i n Hn) as [H1 H2].
    split; [eapply Forall_impl; [exact H1|] | eapply Forall_impl; [exact H2|]]; simpl; lia.
  - apply list_elem_of_lookup_2, Hnew in Hn as [-> ->]. done.
Qed.

Lemma setup_keeps_ok rs rs' : setup_step rs rs' → routers_ok rs → routers_ok rs'.
Proof.
  intros [rs0|r mws rs0|r h rs0|r path rs0 Hr|r path h methods rs0|h methods rs0|h name rs0] Hok; simpl.
  - rewrite <- (app_nil_r (rs_handlers rs0)). apply routers_ok_more; [done|].
    intros n ->%list_elem_of_singleton. done.
  - apply alter_node_ok; [done|]. intros n Hn. exact (Hok _ _ Hn).
  - apply alter_node_ok; [done|]. intros n Hn. exact (Hok _ _ Hn).
  - unfold Subrouter. destruct (path_pattern path) as [p names].
    destruct (Compile _) as [re|]; [|done]. simpl.
    pose proof (routers_ok_more rs0 [mkRouterNode (match rs_nodes rs0 !! r with Some n => NotFoundHandler n | None => None end)
      [] [] [] (Some (mkSubrouterFields re names p))] [] Hok) as Hmore. rewrite app_nil_r in Hmore.
    apply alter_node_ok; [apply Hmore; by intros n ->%list_elem_of_singleton|].
    intros n Hn. destruct (Hmore ltac:(by intros ? ->%list_elem_of_singleton) r n Hn) as [H1 H2].
    split; [|done]. simpl. apply Forall_app. split; [done|]. constructor; [|done].
    simpl. rewrite length_app. simpl. lia.
  - unfold Handle. destruct (path_pattern _) as [p names]. destruct (Compile _) as [re|]; [|done]. simpl.
    pose proof (routers_ok_more rs0 [] [mkRouteHandler re "" path h names
      (match methods with [] => {["GET"%string]} | _ => methods_of methods end)] Hok) as Hmore.
    rewrite app_nil_r in Hmore. specialize (Hmore ltac:(by intros ? ?%elem_of_nil)).
    apply alter_node_ok; [done|]. intros n Hn. destruct (Hmore r n Hn) as [H1 H2].
    split; [done|]. simpl. apply Forall_app. split; [done|]. constructor; [|done].
    simpl. rewrite length_app. simpl. lia.
  - intros i n Hn. simpl. rewrite length_alter. by apply Hok.
  - intros i n Hn. simpl. rewrite length_alter. by apply Hok.
Qed.

(** What a router adds to the handling of a request it passes on to a subrouter. *)
Record hop := mkHop {
  hop_middlewares : list (Middleware (W:=W) (V:=V) (PC:=PC));
  hop_vars : list (string * string);
  hop_path : string;
}.

(** The way of a path through the routers: at each, the first subrouter that matches is
    taken, and what it matched is removed from the path; it ends at a router without one. *)
Inductive leads_to rs : nat → string → list hop → RouterNode → string → Prop :=
| leads_here r n path :
    rs_nodes rs !! r = Some n → first_subrouter rs (subrouters n) path = None →
    leads_to rs r path [] n path
| leads_down r n h f m0 ms path hops n' path' :
    rs_nodes rs !! r = Some n → first_subrouter rs (subrouters n) path = Some (h, f, m0, ms) →
    leads_to rs h (str_drop (String.length m0) path) hops n' path' →
    leads_to rs r path (mkHop (middlewares n) (zip (sub_pathArgNames f) ms) (sub_path f) :: hops) n' path'.

Definition all_middlewares (hops : list hop) : list Middleware := hops ≫= hop_middlewares.
Definition all_vars (hops : list hop) : list (string * string) := hops ≫= hop_vars.
Definition bind_all (ctx : Ctx V) (vars : list (string * string)) : Ctx V :=
  foldl (λ ctx '(n, m), CtxWithVar ctx n m) ctx vars.
Definition full_path (matched : string) (hops : list hop) : string := foldl joined matched (hop_path <$> hops).

Lemma first_subrouter_in rs hs path h f m0 ms :
  first_subrouter rs hs path = Some (h, f, m0, ms) → h ∈ hs.
Proof.
  induction hs as [|h0 hs IH]; simpl; [done|]. intros H.
  repeat case_match; try (right; by apply IH). injection H as <- _ _ _. left.
Qed.

Lemma leads_somewhere rs r path :
  routers_ok rs → r < length (rs_nodes rs) → ∃ hops n' rest, leads_to rs r path hops n' rest.
Proof.
  intros Hok. remember (length (rs_nodes rs) - r) as k eqn:Hk. revert r path Hk.
  induction k as [k IH] using lt_wf_ind. intros r path Hk Hr.
  destruct (lookup_lt_is_Some_2 (rs_nodes rs) r Hr) as [n Hn].
  destruct (first_subrouter rs (subrouters n) path) as [[[[h f] m0] ms]|] eqn:Ef.
  - destruct (Hok r n Hn) as [Hsub _]. rewrite Forall_forall in Hsub.
    destruct (Hsub h (first_subrouter_in _ _ _ _ _ _ _ Ef)) as [H1 H2].
    destruct (IH (length (rs_nodes rs) - h) ltac:(lia) h (str_drop (String.length m0) path) eq_refl H2)
      as (hops & n' & rest & Hl).
    eexists _, n', rest. by eapply leads_down.
  - exists [], n, path. by apply leads_here.
Qed.

Lemma wrap_app (m1 m2 : list (Middleware (W:=W) (V:=V) (PC:=PC))) h : wrap (m1 ++ m2) h = wrap m1 (wrap m2 h).
Proof. apply foldr_app. Qed.

(** [getHandler] takes the way of the path, with enough fuel for its hops. *)
Lemma getHandler_leads rs r path hops n' rest :
  leads_to rs r path hops n' rest →
  ∀ fuel ctx method matched mws, length hops < fuel →
  getHandler fuel rs r ctx path method matched mws =
  Some (let ctx' := bind_all ctx (all_vars hops) in
        match first_route rs (routes n') rest method with
        | Some (rh, ms) =>
            (CtxWithRoute (bind_vars ctx' (rh_pathArgNames rh) ms)
               (mkRouteInfo (rh_name rh) (joined (full_path matched hops) (rh_path rh)) method),
             Some (wrap (mws ++ all_middlewares hops ++ middlewares n') (handleFunc rh)))
        | None => (ctx', None)
        end).
Proof.
  induction 1 as [r n path Hn Ef|r n h f m0 ms path hops n' path' Hn Ef Hl IH];
    intros [|fuel] ctx method matched mws Hfuel; simpl in Hfuel; try lia; simpl; rewrite Hn, Ef.
  - destruct (first_route rs (routes n) path method) as [[rh ms]|]; [|done].
    by rewrite wrap_app.
  - rewrite IH by lia. f_equal. unfold all_vars, all_middlewares, bind_all, full_path. simpl.
    rewrite foldl_app. cbn zeta.
    destruct (first_route rs (routes n') path' method) as [[rh ms']|]; [|done].
    by rewrite <- !app_assoc.
Qed.

(** The number of hops is less than the number of routers. *)
Lemma leads_to_short rs r path hops n' rest :
  routers_ok rs → leads_to rs r path hops n' rest → r + length hops < length (rs_nodes rs).
Proof.
  intros Hok. induction 1 as [r n path Hn Ef|r n h f m0 ms path hops n' path' Hn Ef Hl IH].
  - apply lookup_lt_Some in Hn. simpl. lia.
  - destruct (Hok r n Hn) as [Hsub _]. rewrite Forall_forall in Hsub.
    specialize (Hsub h (first_subrouter_in _ _ _ _ _ _ _ Ef)). simpl. lia.
Qed.

(** What [CallResource] does at the end of the way. *)
Definition dispatch rs (r : nat) (ctx : Ctx V) (req : Request PC) (sender : Sender)
    (hops : list hop) (n' : RouterNode) (rest : string) : MP W (option GoError) :=
  let ctx' := bind_all ctx (all_vars hops) in
  match first_route rs (routes n') rest (ToUpper (rq_Method req)) with
  | Some (rh, ms) =>
      let! _ := wrap (all_middlewares hops ++ middlewares n') (handleFunc rh)
                  (CtxWithRoute (bind_vars ctx' (rh_pathArgNames rh) ms)
                     (mkRouteInfo (rh_name rh) (joined (full_path "" hops) (rh_path rh)) (ToUpper (rq_Method req))))
                  req sender in
      returns None
  | None =>
      match rs_nodes rs !! r ≫= NotFoundHandler with
      | None => returns (Some (ErrorString "no handler found for the request"))
      | Some h =>
          let! _ := wrap (from_option middlewares [] (rs_nodes rs !! r)) h
                      (CtxWithRoute ctx' (mkRouteInfo "NotFoundHandler" (rq_Path req) (rq_Method req))) req sender in
          returns None
      end
  end.

(** However routers were set up, every request to one is answered: it goes down the
    way of its path, to the first route of the last router that has its method and matches
    what is left, whose handler is called once within the middlewares of all routers on
    the way, outermost first, with the variables captured on the way; without such a route
    the handler for what is not found is called within the middlewares of the first router
    alone. *)
Theorem CallResource_dispatch rs r ctx req sender :
  rtc setup_step no_routers rs → r < length (rs_nodes rs) →
  (∃ hops n' rest, leads_to rs r (rq_Path req) hops n' rest) ∧
  ∀ hops n' rest, leads_to rs r (rq_Path req) hops n' rest →
    CallResource rs r ctx req sender = Some (dispatch rs r ctx req sender hops n' rest).
Proof.
  intros Hrs Hr. assert (Hok : routers_ok rs).
  { eapply (rtc_invariant setup_step); [exact setup_keeps_ok | exact Hrs|]. intros i n. done. }
  split; [by apply leads_somewhere|]. intros hops n' rest Hl.
  unfold CallResource, dispatch. destruct (lookup_lt_is_Some_2 _ _ Hr) as [n Hn]. rewrite Hn.
  rewrite (getHandler_leads _ _ _ _ _ _ Hl) by (pose proof (leads_to_short _ _ _ _ _ _ Hok Hl); lia).
  cbn zeta. by destruct (first_route rs (routes n') rest _) as [[rh ms]|].
Qed.
End Dispatch.

(** ** Patterns of plain text *)

(** A character that means itself, or a dot; a text of them. *)
Definition plain_char (c : ascii) : bool := (negb (is_meta c) || Ascii.eqb c ".") && (N_of_ascii c <? 128)%N.
Definition plain (s : string) : bool := forallb plain_char (String.list_ascii_of_string s).

Definition item_of (c : ascii) : item := if Ascii.eqb c "." then AnyChar else Literal c.
Definition items_of (s : string) : list item := item_of <$> String.list_ascii_of_string s.

Lemma forallb_string_app f s t :
  forallb f (String.list_ascii_of_string (s +:+ t)) =
  forallb f (String.list_ascii_of_string s) && forallb f (String.list_ascii_of_string t).
Proof.
  induction s as [|c s IH]; [done|].
  change (String c s +:+ t) with (String c (s +:+ t)). simpl. by rewrite IH, andb_assoc.
Qed.

Lemma items_of_app s t : items_of (s +:+ t) = items_of s ++ items_of t.
Proof. induction s as [|c s IH]; [done | exact (f_equal (cons (item_of c)) IH)]. Qed.

Lemma plain_cons c s : plain (String c s) = plain_char c && plain s.
Proof. done. Qed.

Lemma plain_app s t : plain (s +:+ t) = plain s && plain t.
Proof. apply forallb_string_app. Qed.

Lemma plain_ascii s : plain s = true → ascii_only s = true.
Proof.
  unfold plain, ascii_only. rewrite !forallb_forall. intros H c Hc.
  by apply H, andb_true_iff in Hc as [_ ?].
Qed.

(** A plain character is none of those the patterns are made with. *)
Lemma plain_char_not c d :
  plain_char c = true → is_meta d = true → Ascii.eqb d "." = false → Ascii.eqb c d = false.
Proof.
  intros Hc Hd Hdot. destruct (Ascii.eqb_spec c d) as [->|]; [|done].
  unfold plain_char in Hc. by rewrite Hd, Hdot in Hc.
Qed.

Lemma find_args_plain s t :
  plain s = true → find_args (S (String.length (s +:+ t))) (s +:+ t) = find_args (S (String.length t)) t.
Proof.
  induction s as [|c s IH]; [done|]. rewrite plain_cons. intros [Hc Hs]%andb_true_iff.
  change (String c s +:+ t) with (String c (s +:+ t)). rewrite <- IH by done.
  change (String.length (String c (s +:+ t))) with (S (String.length (s +:+ t))).
  assert (Hm : match_arg (String c (s +:+ t)) = None).
  { unfold match_arg. assert (Ascii.eqb c "{" = false) as E; [by apply plain_char_not|]. by rewrite E. }
  cbn [find_args]. by rewrite Hm.
Qed.

Lemma replace_all_step n c s old new :
  String.prefix old (String c s) = false →
  replace_all (S n) (String c s) old new = String c (replace_all n s old new).
Proof. intros H. cbn [replace_all]. by rewrite H. Qed.

Lemma replace_all_plain s t old new :
  plain s = true → String.prefix "{" old = true →
  replace_all (S (String.length (s +:+ t))) (s +:+ t) old new =
  s +:+ replace_all (S (String.length t)) t old new.
Proof.
  intros Hs Hold. induction s as [|c s IH]; [done|]. rewrite plain_cons in Hs.
  apply andb_true_iff in Hs as [Hc Hs].
  change (String c s +:+ t) with (String c (s +:+ t)).
  change (String.length (String c (s +:+ t))) with (S (String.length (s +:+ t))).
  assert (Hp : String.prefix old (String c (s +:+ t)) = false).
  { destruct old as [|o old]; [done|]. apply (plain_char_not c "{") in Hc; [|done..].
    change (String.prefix (String o old) (String c (s +:+ t))) with
      (if Ascii.ascii_dec o c then String.prefix old (s +:+ t) else false).
    change (String.prefix "{" (String o old)) with
      (if Ascii.ascii_dec "{" o then String.prefix "" old else false) in Hold.
    destruct (Ascii.ascii_dec "{" o) as [<-|]; [|done].
    destruct (Ascii.ascii_dec "{" c) as [<-|]; done. }
  rewrite replace_all_step by done. by rewrite IH.
Qed.

Lemma parse_items_step n c s :
  plain_char c = true →
  parse_items (S n) (String c s) = '(l, b) ← parse_items n s; Some (item_of c :: l, b).
Proof.
  intros Hc. cbn [parse_items]. unfold item_of.
  assert (Hp : String.prefix segment_pattern (String c s) = false).
  { unfold segment_pattern.
    change (String.prefix (String "(" "[^\/]+)") (String c s)) with
      (if Ascii.ascii_dec "(" c then String.prefix "[^\/]+)" s else false).
    destruct (Ascii.ascii_dec "(" c) as [<-|]; done. }
  rewrite Hp, (plain_char_not c "$" Hc) by done.
  destruct (Ascii.eqb c ".") eqn:Edot; [done|].
  destruct (is_meta c) eqn:Em; [unfold plain_char in Hc; by rewrite Em, Edot in Hc | done].
Qed.

Lemma parse_items_plain s t l b :
  plain s = true → parse_items (S (String.length t)) t = Some (l, b) →
  parse_items (S (String.length (s +:+ t))) (s +:+ t) = Some (items_of s ++ l, b).
Proof.
  intros Hs Ht. induction s as [|c s IH]; [done|]. rewrite plain_cons in Hs.
  apply andb_true_iff in Hs as [Hc Hs]. specialize (IH Hs).
  change (String c s +:+ t) with (String c (s +:+ t)).
  change (String.length (String c (s +:+ t))) with (S (String.length (s +:+ t))).
  change (items_of (String c s)) with (item_of c :: items_of s).
  by rewrite parse_items_step, IH.
Qed.

Lemma match_items_plain s l anchored t :
  plain s = true → match_items (items_of s ++ l) anchored (s +:+ t) = match_items l anchored t.
Proof.
  induction s as [|c s IH]; [done|]. rewrite plain_cons. intros [Hc Hs]%andb_true_iff.
  change (String c s +:+ t) with (String c (s +:+ t)).
  change (items_of (String c s)) with (item_of c :: items_of s). unfold item_of.
  destruct (Ascii.eqb_spec c ".") as [->|Hne]; simpl; [by apply IH|].
  rewrite Ascii.eqb_refl. by apply IH.
Qed.

Lemma string_span_all f s : forallb f (String.list_ascii_of_string s) = true → string_span f s = (s, EmptyString).
Proof.
  induction s as [|c s IH]; [done|]. simpl. intros [Hc Hs]%andb_true_iff. by rewrite Hc, IH.
Qed.

(** A path argument takes a whole segment at the end. *)
Lemma match_items_segment s :
  s ≠ "" → forallb not_slash (String.list_ascii_of_string s) = true →
  match_items [Segment] true s = Some ([s], "").
Proof.
  intros Hne Hs. unfold match_items. rewrite (string_span_all _ _ Hs). cbn [fst].
  assert (Hd : str_drop (String.length s) s = "") by (rewrite <- (string_app_nil_r s) at 2; apply str_drop_app).
  assert (Ht : str_take (String.length s) s = s) by (rewrite <- (string_app_nil_r s) at 2; apply str_take_app).
  destruct (String.length s) as [|n] eqn:En; [by destruct s|]. by rewrite Hd, Ht.
Qed.

Lemma path_pattern_plain s : plain s = true → path_pattern s = (s, []).
Proof.
  intros Hs. unfold path_pattern, FindArgs.
  pose proof (find_args_plain s "" Hs) as H. rewrite string_app_nil_r in H. by rewrite H.
Qed.

Lemma path_pattern_name s :
  plain s = true → path_pattern (s +:+ "{name}") = (s +:+ segment_pattern, ["name"]).
Proof.
  intros Hs. unfold path_pattern, FindArgs. rewrite (find_args_plain s "{name}" Hs).
  assert (E : find_args (S (String.length "{name}")) "{name}" = [("{name}", "name", "")]) by reflexivity.
  rewrite E. cbn [foldl]. unfold ReplaceAll. by rewrite replace_all_plain.
Qed.

(** ** The CRUD routes *)

Section Group.
Context {W V PC : Type} `{PM : !PluginMemory W} `{RE : !Regexp} `{RF : !RegexpFragment}
  `{WW : !World W} `{MM : !Memory W}.
Context (Encode : JSONValue → W → option string) (url_Parse : string → string + GoError)
  (DecodeObject : string → Obj → M W (option GoError)) (store : PluginStore (W:=W)) (namespace : string).

(** The group router has one JSON router, and routes but no subrouters. *)
Let j := mkJSONRouter (Some 1%nat) None.

Definition group_base (k : Schema W) : string := Group k +:+ "/" +:+ Version k +:+ "/" +:+ Plural k.

(** A route, by the items of its pattern, the names of its arguments, its method, path,
    and its handler with the status of a success. *)
Record route_spec := mkRouteSpec {
  sp_items : list item;
  sp_names : list string;
  sp_method : string;
  sp_path : string;
  sp_handler : JSONHandlerFunc (W:=W) (V:=V) (PC:=PC);
  sp_code : Z;
}.

Definition sp_handleFunc (sp : route_spec) : HandlerFunc :=
  WrapHandlerFunc Encode url_Parse j (sp_handler sp) (sp_code sp).

Definition kind_specs (k : Schema W) : list route_spec :=
  let base := group_base k in
  let with_name := base +:+ "/{name}" in
  let named := items_of (base +:+ "/") ++ [Segment] in
  [mkRouteSpec (items_of base) [] "POST" base (createResource DecodeObject store namespace k) 202;
   mkRouteSpec (items_of base) [] "GET" base (listResources store namespace k) 200;
   mkRouteSpec named ["name"] "GET" with_name (getResource store namespace k) 200;
   mkRouteSpec named ["name"] "PUT" with_name (updateResource DecodeObject store namespace k) 202;
   mkRouteSpec named ["name"] "DELETE" with_name (deleteResource store namespace k) 200].

(** A route handler that does what is specified. *)
Record serves (rh : RouteHandler (W:=W) (V:=V) (PC:=PC)) (sp : route_spec) : Prop := {
  serves_matches s : ascii_only s = true →
    FindStringSubmatch (matcher rh) s = match_pattern (sp_items sp) true s;
  serves_names : rh_pathArgNames rh = sp_names sp;
  serves_methods : rh_methods rh = {[sp_method sp]};
  serves_path : rh_path rh = sp_path sp;
  serves_name : rh_name rh = "";
  serves_handler : handleFunc rh = sp_handleFunc sp;
}.

Definition group_state (f : SubrouterFields) (hs : list (RouteHandler (W:=W) (V:=V) (PC:=PC))) : Routers :=
  mkRouters [mkRouterNode (Some DefaultNotFoundHandler) [1] [] [] None;
             mkRouterNode (Some DefaultNotFoundHandler) [] (seq 0 (length hs)) [] (Some f)] hs.

(** Registering one route. *)
Lemma Handle_spec f hs sp pattern :
  path_pattern (sp_path sp) = (pattern, sp_names sp) → sp_path sp ≠ "" →
  parse_pattern ("^" +:+ pattern +:+ "$") = Some (sp_items sp, true) →
  ToUpper (sp_method sp) = sp_method sp →
  ∃ rh, serves rh sp ∧
    HandleWithCode Encode url_Parse j (sp_path sp) (sp_handler sp) (sp_code sp) [sp_method sp] (group_state f hs) =
    (Returned (Some (length hs)), group_state f (hs ++ [rh])).
Proof using All.
  intros Hp Hne Hparse Hupper. destruct (Compile_fragment _ _ _ Hparse) as (re & Hre & Hmatch).
  exists (mkRouteHandler re "" (sp_path sp) (sp_handleFunc sp) (sp_names sp) (methods_of [sp_method sp])).
  split; [split; simpl; try done; unfold methods_of; simpl; rewrite Hupper; set_solver|].
  unfold HandleWithCode, with_subrouter, calls, bind, Handle. cbn [j_Subrouter j].
  rewrite bool_decide_eq_false_2, Hp, Hre by done.
  unfold group_state, alter_node. simpl. rewrite length_app, seq_app. done.
Qed.

Definition plain_kind (k : Schema W) : Prop :=
  plain (Group k) = true ∧ plain (Version k) = true ∧ plain (Plural k) = true.

Lemma plain_base k : plain_kind k → plain (group_base k) = true.
Proof.
  intros (Hg & Hv & Hp). unfold group_base. rewrite !plain_app, Hg, Hv, Hp. done.
Qed.

Lemma base_parse k : plain_kind k →
  parse_pattern ("^" +:+ group_base k +:+ "$") = Some (items_of (group_base k), true).
Proof.
  intros Hk%plain_base. change ("^" +:+ group_base k +:+ "$") with (String "^" (group_base k +:+ "$")).
  unfold parse_pattern. rewrite Ascii.eqb_refl.
  rewrite (parse_items_plain _ "$" [] true Hk) by done. by rewrite app_nil_r.
Qed.

Lemma named_parse k : plain_kind k →
  parse_pattern ("^" +:+ (group_base k +:+ "/" +:+ segment_pattern) +:+ "$") =
  Some (items_of (group_base k +:+ "/") ++ [Segment], true).
Proof.
  intros Hk%plain_base.
  assert (Hk' : plain (group_base k +:+ "/") = true) by by rewrite plain_app, Hk.
  change ("^" +:+ (group_base k +:+ "/" +:+ segment_pattern) +:+ "$") with
    (String "^" ((group_base k +:+ "/" +:+ segment_pattern) +:+ "$")).
  unfold parse_pattern. rewrite Ascii.eqb_refl.
  rewrite string_app_assoc, <- (string_app_assoc (group_base k +:+ "/")).
  by rewrite (parse_items_plain _ (segment_pattern +:+ "$") [Segment] true Hk').
Qed.

(** Registering the routes of a kind, and of all kinds. *)
Lemma base_not_empty k : group_base k ≠ "" ∧ group_base k +:+ "/{name}" ≠ "".
Proof.
  unfold group_base. destruct (Group k); done.
Qed.

Lemma named_pattern k : plain_kind k →
  path_pattern (group_base k +:+ "/{name}") = (group_base k +:+ "/" +:+ segment_pattern, ["name"]).
Proof.
  intros Hk%plain_base.
  assert (Hk' : plain (group_base k +:+ "/") = true) by by rewrite plain_app, Hk.
  change "/{name}" with ("/" +:+ "{name}"). rewrite string_app_assoc, path_pattern_name by done.
  by rewrite <- string_app_assoc.
Qed.

Lemma kind_specs_handled f hs k sp : plain_kind k → sp ∈ kind_specs k →
  ∃ rh, serves rh sp ∧
    HandleWithCode Encode url_Parse j (sp_path sp) (sp_handler sp) (sp_code sp) [sp_method sp] (group_state f hs) =
    (Returned (Some (length hs)), group_state f (hs ++ [rh])).
Proof using All.
  intros Hk Hsp. destruct (base_not_empty k) as [Hb Hn].
  unfold kind_specs in Hsp. set_unfold in Hsp.
  destruct Hsp as [->|[->|[->|[->|[->|[]]]]]];
    (eapply Handle_spec; [first [by apply path_pattern_plain, plain_base | by apply named_pattern]
                         | done | first [by apply base_parse | by apply named_parse] | done]).
Qed.

Lemma group_routes_run f hs k : plain_kind k →
  ∃ hs', Forall2 serves hs' (kind_specs k) ∧
    group_routes Encode url_Parse DecodeObject j store namespace k (group_state f hs) =
    (Returned tt, group_state f (hs ++ hs')).
Proof using All.
  intros Hk.
  assert (H : ∀ hs, Forall (λ sp, ∃ rh, serves rh sp ∧
    HandleWithCode Encode url_Parse j (sp_path sp) (sp_handler sp) (sp_code sp) [sp_method sp] (group_state f hs) =
    (Returned (Some (length hs)), group_state f (hs ++ [rh]))) (kind_specs k)).
  { intros hs0. apply Forall_forall. intros sp. by apply kind_specs_handled. }
  unfold kind_specs in H. cbv zeta in H. setoid_rewrite Forall_cons in H.
  do 4 setoid_rewrite Forall_cons in H.
  destruct (H hs) as ((h1 & S1 & R1) & _).
  destruct (H (hs ++ [h1])) as (_ & (h2 & S2 & R2) & _).
  destruct (H ((hs ++ [h1]) ++ [h2])) as (_ & _ & (h3 & S3 & R3) & _).
  destruct (H (((hs ++ [h1]) ++ [h2]) ++ [h3])) as (_ & _ & _ & (h4 & S4 & R4) & _).
  destruct (H ((((hs ++ [h1]) ++ [h2]) ++ [h3]) ++ [h4])) as (_ & _ & _ & _ & (h5 & S5 & R5) & _).
  clear H. exists [h1; h2; h3; h4; h5].
  split; [unfold kind_specs; cbv zeta; repeat (apply List.Forall2_cons; [done|]); apply List.Forall2_nil|].
  unfold group_routes, JSON_Handle. cbn zeta. fold (group_base k).
  cbn [sp_path sp_handler sp_code sp_method] in R1, R2, R3, R4, R5.
  rewrite (returns_run _ _ _ _ _ R1), (returns_run _ _ _ _ _ R2), (returns_run _ _ _ _ _ R3),
    (returns_run _ _ _ _ _ R4), (returns_run _ _ _ _ _ R5).
  by rewrite <- !app_assoc.
Qed.

Lemma all_group_routes_run f hs kinds : Forall plain_kind kinds →
  ∃ hs', Forall2 serves hs' (kinds ≫= kind_specs) ∧
    all_group_routes Encode url_Parse DecodeObject j store namespace kinds (group_state f hs) =
    (Returned tt, group_state f (hs ++ hs')).
Proof using All.
  intros Hk. revert hs. induction Hk as [|k kinds Hk Hkinds IH]; intros hs.
  - exists []. by rewrite app_nil_r.
  - destruct (group_routes_run f hs k Hk) as (h1 & S1 & R1). destruct (IH (hs ++ h1)) as (h2 & S2 & R2).
    exists (h1 ++ h2). split; [by apply Forall2_app|]. simpl.
    by rewrite (returns_run _ _ _ _ _ R1), R2, app_assoc.
Qed.

(** The router of a group, as it is built. *)
Lemma group_router_built kinds : Forall plain_kind kinds →
  ∃ f hs, Forall2 serves hs (kinds ≫= kind_specs) ∧
    NewResourceGroupRouterWithStore Encode url_Parse DecodeObject kinds namespace store no_routers =
    (Returned j, group_state f hs).
Proof using All.
  intros Hk. destruct (Compile_fragment "^" [] false) as (re & Hre & _); [done|].
  destruct (all_group_routes_run (mkSubrouterFields re [] "") [] kinds Hk) as (hs & S & R).
  exists (mkSubrouterFields re [] ""), hs. split; [done|].
  unfold NewResourceGroupRouterWithStore.
  assert (E : NewJSONRouter (V:=V) (PC:=PC) no_routers = (j, group_state (mkSubrouterFields re [] "") [])).
  { unfold NewJSONRouter, NewJSONRouterWithErrorHandler, bind, NewRouter, Subrouter. cbn [fst snd].
    change (path_pattern "") with ("", @nil string). cbn iota beta.
    change ("^" +:+ "") with "^". by rewrite Hre. }
  by rewrite (calls_run _ _ _ _ _ E), (returns_run _ _ _ _ _ R).
Qed.

(** The first of the specified routes for a request. *)
Fixpoint first_spec (sps : list route_spec) (path method : string) : option (route_spec * list string) :=
  match sps with
  | [] => None
  | sp :: sps =>
      if bool_decide (method = sp_method sp) then
        match match_items (sp_items sp) true path with
        | Some (groups, _) => Some (sp, groups)
        | None => first_spec sps path method
        end
      else first_spec sps path method
  end.

Lemma first_route_spec f hs0 hs sps path method :
  Forall2 serves hs sps → ascii_only path = true →
  match first_spec sps path method with
  | Some (sp, groups) => ∃ rh, serves rh sp ∧
      first_route (group_state f (hs0 ++ hs)) (seq (length hs0) (length hs)) path method = Some (rh, groups)
  | None => first_route (group_state f (hs0 ++ hs)) (seq (length hs0) (length hs)) path method = None
  end.
Proof.
  intros Hs Ha. revert hs0. induction Hs as [|rh sp hs sps Hrh Hs IH]; intros hs0; [done|].
  specialize (IH (hs0 ++ [rh])). rewrite length_app, <- app_assoc in IH. simpl in IH.
  rewrite Nat.add_1_r in IH. cbn [first_spec length seq first_route rs_handlers group_state].
  rewrite lookup_app_r, Nat.sub_diag by done. simpl.
  rewrite (serves_methods _ _ Hrh). unfold submatch. rewrite (serves_matches _ _ Hrh path Ha).
  destruct (bool_decide (method = sp_method sp)) eqn:Em.
  - apply bool_decide_eq_true in Em. rewrite bool_decide_eq_true_2 by set_solver.
    unfold match_pattern. destruct (match_items (sp_items sp) true path) as [[groups rest]|]; simpl; [|done].
    by exists rh.
  - apply bool_decide_eq_false in Em. rewrite bool_decide_eq_false_2 by set_solver. done.
Qed.

(** ** Requests to a group *)

Inductive crud := CrudCreate | CrudList | CrudGet (name : string) | CrudUpdate (name : string)
  | CrudDelete (name : string).

Definition crud_name (op : crud) : option string :=
  match op with CrudGet n | CrudUpdate n | CrudDelete n => Some n | _ => None end.
Definition crud_method (op : crud) : string :=
  match op with
  | CrudCreate => "POST" | CrudList | CrudGet _ => "GET" | CrudUpdate _ => "PUT" | CrudDelete _ => "DELETE"
  end.
Definition crud_path (k : Schema W) (op : crud) : string :=
  match crud_name op with Some n => group_base k +:+ "/" +:+ n | None => group_base k end.
Definition crud_route (k : Schema W) (op : crud) : string :=
  match crud_name op with Some _ => group_base k +:+ "/{name}" | None => group_base k end.
Definition crud_handler (k : Schema W) (op : crud) : JSONHandlerFunc (V:=V) (PC:=PC) :=
  match op with
  | CrudCreate => createResource DecodeObject store namespace k
  | CrudList => listResources store namespace k
  | CrudGet _ => getResource store namespace k
  | CrudUpdate _ => updateResource DecodeObject store namespace k
  | CrudDelete _ => deleteResource store namespace k
  end.
Definition crud_code (op : crud) : Z := match op with CrudCreate | CrudUpdate _ => 202 | _ => 200 end.

(** A name that is one segment of a path. *)
Definition segment_name (n : string) : Prop :=
  n ≠ "" ∧ ascii_only n = true ∧ forallb not_slash (String.list_ascii_of_string n) = true.
Definition crud_ok (op : crud) : Prop := from_option segment_name True (crud_name op).

(** Whether a route of a kind matches a path. *)
Definition kind_matches (k : Schema W) (path : string) : bool :=
  bool_decide (is_Some (match_items (items_of (group_base k)) true path)) ||
  bool_decide (is_Some (match_items (items_of (group_base k +:+ "/") ++ [Segment]) true path)).

Lemma base_does_not_match k t : plain_kind k →
  match_items (items_of (group_base k)) true (group_base k +:+ "/" +:+ t) = None.
Proof.
  intros Hk%plain_base. rewrite <- (app_nil_r (items_of _)). by rewrite match_items_plain.
Qed.

Lemma base_matches k : plain_kind k → match_items (items_of (group_base k)) true (group_base k) = Some ([], "").
Proof.
  intros Hk%plain_base. rewrite <- (app_nil_r (items_of _)).
  rewrite <- (string_app_nil_r (group_base k)) at 2. by rewrite match_items_plain.
Qed.

Lemma named_matches k n : plain_kind k → segment_name n →
  match_items (items_of (group_base k +:+ "/") ++ [Segment]) true (group_base k +:+ "/" +:+ n) = Some ([n], "").
Proof.
  intros Hk%plain_base (Hne & _ & Hs). rewrite string_app_assoc, match_items_plain by by rewrite plain_app, Hk.
  by apply match_items_segment.
Qed.

Lemma first_spec_skip kinds rest path method :
  Forall (λ k, kind_matches k path = false) kinds →
  first_spec ((kinds ≫= kind_specs) ++ rest) path method = first_spec rest path method.
Proof.
  assert (H : ∀ sps rest', existsb (λ sp, bool_decide (is_Some (match_items (sp_items sp) true path))) sps = false →
    first_spec (sps ++ rest') path method = first_spec rest' path method).
  { induction sps as [|sp sps IHs]; intros rest'; [done|]. simpl. intros [H1 H2]%orb_false_iff.
    apply bool_decide_eq_false in H1. rewrite <- (IHs rest' H2).
    case_bool_decide; [|done]. destruct (match_items _ _ _) as [[]|]; [|done]. exfalso. apply H1. by eexists. }
  induction 1 as [|k kinds Hk Hkinds IH]; [done|].
  rewrite bind_cons, <- app_assoc, H; [exact IH|]. unfold kind_matches in Hk.
  apply orb_false_iff in Hk as [H1 H2]. unfold kind_specs. cbv zeta. cbn [existsb sp_items]. by rewrite H1, H2.
Qed.

(** The route of a kind that a request for it finds. *)
Lemma first_spec_crud k op rest : plain_kind k → crud_ok op →
  ∃ sp, first_spec (kind_specs k ++ rest) (crud_path k op) (crud_method op) =
      Some (sp, from_option (λ n, [n]) [] (crud_name op)) ∧
    sp_handler sp = crud_handler k op ∧ sp_code sp = crud_code op ∧ sp_path sp = crud_route k op ∧
    sp_names sp = from_option (λ _, ["name"]) [] (crud_name op).
Proof using RF PM.
  intros Hk Hop. unfold crud_path.
  destruct op as [| |n|n|n]; cbn [crud_name crud_method from_option] in *; unfold kind_specs; cbv zeta; cbn [app first_spec sp_method sp_items];
    rewrite ?(base_matches k Hk), ?(base_does_not_match k n Hk), ?(named_matches k n Hk Hop);
    
    repeat first [rewrite bool_decide_eq_true_2 by done | rewrite bool_decide_eq_false_2 by done];
    eexists; by split_and!.
Qed.

Lemma crud_path_ascii k op : plain_kind k → crud_ok op → ascii_only (crud_path k op) = true.
Proof.
  intros Hk%plain_base Hop. unfold crud_path, crud_ok in *.
  destruct (crud_name op) as [n|]; [|by apply plain_ascii]. destruct Hop as (_ & Hn & _).
  unfold ascii_only. rewrite forallb_string_app. apply plain_ascii in Hk. unfold ascii_only in Hk, Hn.
  rewrite Hk. simpl. exact Hn.
Qed.

(** The context a CRUD handler is called with. *)
Definition crud_ctx (k : Schema W) (op : crud) (ctx : Ctx V) : Ctx V :=
  CtxWithRoute (from_option (CtxWithVar ctx "name") ctx (crud_name op))
    (mkRouteInfo "" (crud_route k op) (crud_method op)).

(** C20: The router of a resource group answers the request for an operation on one of its
    kinds by the handler of that operation, with the name of the path, under three
    conditions: the groups, versions and plurals of all its kinds are plain (ASCII, and no
    characters with a meaning in patterns but dots); a name in the path is one non-empty
    ASCII segment; and no route of a kind that comes earlier in the group matches the path.
    The last one can fail for kinds that differ: the dots of a group are not quoted and
    match any character ([group_dots_match]). *)
Theorem group_router_serves kinds1 k kinds2 op ctx req sender :
  Forall plain_kind (kinds1 ++ k :: kinds2) → crud_ok op →
  Forall (λ k', kind_matches k' (crud_path k op) = false) kinds1 →
  rq_Path req = crud_path k op → ToUpper (rq_Method req) = crud_method op →
  ∃ rs,
    NewResourceGroupRouterWithStore Encode url_Parse DecodeObject (kinds1 ++ k :: kinds2) namespace store no_routers =
      (Returned (mkJSONRouter (Some 1) None), rs) ∧
    CallResource rs 1 ctx req sender =
      Some (let! _ := WrapHandlerFunc Encode url_Parse (mkJSONRouter (Some 1) None) (crud_handler k op) (crud_code op)
                        (crud_ctx k op ctx) req sender in
            returns None).
Proof using All.
  intros Hk Hop Hearlier Hpath Hmethod. destruct (group_router_built _ Hk) as (f & hs & S & R).
  exists (group_state f hs). split; [exact R|].
  assert (Hkk : plain_kind k) by (apply Forall_app in Hk as [_ Hk]; by apply Forall_cons in Hk as [? _]).
  destruct (first_spec_crud k op (kinds2 ≫= kind_specs) Hkk Hop) as (sp & Hsp & Hh & Hc & Hp & Hn).
  pose proof (first_route_spec f [] hs _ (crud_path k op) (crud_method op) S (crud_path_ascii k op Hkk Hop)) as Hr.
  rewrite bind_app, bind_cons, first_spec_skip, Hsp in Hr by exact Hearlier.
  destruct Hr as (rh & Hrh & Hr). unfold CallResource. simpl. rewrite Hpath, Hmethod.
  cbn [app length] in Hr.
  rewrite Hr. rewrite (serves_handler _ _ Hrh), (serves_names _ _ Hrh), (serves_path _ _ Hrh), (serves_name _ _ Hrh), Hn, Hp.
  unfold sp_handleFunc. rewrite Hh, Hc. unfold crud_ctx. by destruct (crud_name op).
Qed.

(** A handler of a JSON router is answered by exactly one response, with the code of
    the route and the value it returned, no content without a value, and the code and text
    of its error; of an error without a code, or with that of an internal error, the
    response says nothing. *)
Theorem WrapHandlerFunc_answers (h : JSONHandlerFunc (V:=V) (PC:=PC)) okCode ctx req sender u res err w w1 :
  url_Parse (rq_URL req) = inl u →
  h ctx (mkJSONRequest u (VarsFromCtx ctx) req) w = (Returned (res, err), w1) →
  ∃ a,
    WrapHandlerFunc Encode url_Parse j h okCode ctx req sender w =
      (Returned tt, (sender (Some (length (responses (pm w1)))) (new_response a w1).2).2) ∧
    responses (pm (new_response a w1).2) !! length (responses (pm w1)) = Some a ∧
    match err with
    | None => a = answer Encode w1 okCode res
    | Some e =>
        ∃ code text, (code, text) = (from_option fst 500%Z (AsPluginError e),
          if (from_option fst 500 (AsPluginError e) =? 500)%Z then "internal server error"
          else from_option (λ p, Error p.2) (Error e) (AsPluginError e)) ∧
        a = answer Encode w1 code (Some (JErrorResponse code text))
    end.
Proof.
  intros Hu Hh. unfold WrapHandlerFunc. rewrite Hu, (returns_run _ _ _ _ _ Hh).
  assert (Hsend : ∀ code v, sendRes Encode sender code v w1 =
    (Returned tt, (sender (Some (length (responses (pm w1)))) (new_response (answer Encode w1 code v) w1).2).2)).
  { intros code v. unfold sendRes, calls, and_returns, bind, gets, ret, new_response, returns. simpl.
    by destruct (sender _ _). }
  assert (Hresp : ∀ a, responses (pm (new_response a w1).2) !! length (responses (pm w1)) = Some a).
  { intros a. unfold new_response. simpl. rewrite pm_set_pm. simpl. by rewrite lookup_app_r, Nat.sub_diag. }
  destruct err as [e|]; [|by eexists].
  unfold sendErr, error_response, FromError, CleanMessage. cbn [errHandler j].
  eexists. split_and!; [by rewrite Hsend | done|]. eexists _, _. split; [done|].
  by destruct (AsPluginError e) as [[code e']|].
Qed.
End Group.

(** The update of a resource does not look at the name of its path: it updates the object
    the body names. *)
Theorem updateResource_ignores_name {W V PC : Type} `{WW : !World W} `{MM : !Memory W}
    DecodeObject (store : PluginStore (W:=W)) namespace cr (ctx : Ctx V) u (r : Request PC) c1 n1 c2 n2 :
  updateResource DecodeObject store namespace cr ctx (mkJSONRequest u (Some {[ "name" := String c1 n1 ]}) r) =
  updateResource DecodeObject store namespace cr ctx (mkJSONRequest u (Some {[ "name" := String c2 n2 ]}) r).
Proof. unfold updateResource. cbn [jr_Vars]. unfold Vars_Get. by rewrite !lookup_singleton_eq. Qed.

(** ** Witnesses *)

(** An engine that knows plain patterns. *)
#[export] Instance TestRegexp : Regexp := {
  Regex := list item * bool;
  Compile := parse_pattern;
  FindStringSubmatch re s := match_pattern re.1 re.2 s;
}.

#[export] Instance TestRegexp_fragment : RegexpFragment.
Proof. split. intros p items anchored H. by exists (items, anchored). Defined.

(** The test world with the responses sent. *)
Record PluginWorld := mkPluginWorld { pw_world : TestWorld; pw_plugin : PluginState }.

#[export] Program Instance PluginWorld_memory : PluginMemory PluginWorld := {
  pm := pw_plugin;
  set_pm s w := mkPluginWorld (pw_world w) s;
}.
Next Obligation. done. Qed.

Definition on_world {A} (m : M TestWorld A) : M PluginWorld A := λ w,
  let '(a, w') := m (pw_world w) in (a, mkPluginWorld w' (pw_plugin w)).

#[export] Instance PluginWorld_World : World PluginWorld := {
  deref r w := deref r (pw_world w);
  kept_finalizers r w w' := kept_finalizers r (pw_world w) (pw_world w');
  kept_finalizers_now r w := kept_finalizers_now r (pw_world w);
  Now := on_world Now;
  Sleep d := on_world (Sleep d);
  RandIntn n := on_world (RandIntn n);
}.

#[export] Program Instance PluginWorld_Memory : Memory PluginWorld := {
  Client.store r o w := mkPluginWorld (Client.store r o (pw_world w)) (pw_plugin w);
}.
Next Obligation. intros r o w. apply deref_store_eq. Qed.
Next Obligation. intros r r' o w Hne. exact (deref_store_ne r r' o (pw_world w) Hne). Qed.

Definition plugin_world : PluginWorld := mkPluginWorld test_world (mkPluginState [] []).

Definition test_ctx : Ctx unit := mkCtx None None tt.
Definition test_plugin_request (method path : string) : Request unit := mkRequest tt path method "http://x" ∅ "{}".
Definition test_sender : Sender (W:=PluginWorld) := λ _, ret None.

(** A handler that answers with the variable [id]. *)
Definition test_handler : HandlerFunc (W:=PluginWorld) (V:=unit) (PC:=unit) := λ ctx _ sender,
  let! p := calls (new_response (mkResponse 200 ∅ (Vars_Get (VarsFromCtx ctx) "id").1)) in
  let! err := calls (sender (Some p)) in
  returns tt.

(** A router with the subrouter [/api/{tenant}], which has the route [/{id}]. *)
Definition rs1 : Routers (W:=PluginWorld) (V:=unit) (PC:=unit) := (NewRouter no_routers).2.
Definition rs2 : Routers (W:=PluginWorld) (V:=unit) (PC:=unit) := (Subrouter 0 "/api/{tenant}" rs1).2.
Definition rs3 : Routers (W:=PluginWorld) (V:=unit) (PC:=unit) := (Handle 1 "/{id}" test_handler [] rs2).2.

Lemma CallResource_dispatch_witness : ∃ hops n' rest,
  CallResource rs3 0 test_ctx (test_plugin_request "get" "/api/t/17") test_sender =
  Some (dispatch rs3 0 test_ctx (test_plugin_request "get" "/api/t/17") test_sender hops n' rest).
Proof.
  destruct (CallResource_dispatch rs3 0 test_ctx (test_plugin_request "get" "/api/t/17") test_sender)
    as [(hops & n' & rest & Hl) H].
  - apply (rtc_l _ _ rs1); [apply (setup_new no_routers)|].
    apply (rtc_l _ _ rs2); [apply (setup_subrouter 0 "/api/{tenant}" rs1); simpl; lia|].
    apply rtc_once. apply (setup_handle 1 "/{id}" test_handler [] rs2).
  - vm_compute. lia.
  - exists hops, n', rest. apply (H _ _ _ Hl).
Defined.

Example CallResource_runs :
  (λ m, responses (pw_plugin (m plugin_world).2)) <$>
    CallResource rs3 0 test_ctx (test_plugin_request "get" "/api/t/17") test_sender =
  Some [mkResponse 200 ∅ "17"].
Proof. vm_compute. reflexivity. Qed.

Definition test_plugin_kind (kind plural : string) : Schema PluginWorld :=
  mkSchema _ "g.io" "v1" kind plural (ret (Some 0%nat)) (ret None) NamespacedScope [].

Definition test_plugin_store : PluginStore (W:=PluginWorld) :=
  mkPluginStore (λ r, ret (Some r, None)) (λ _ _, ret (Some 5%nat, None))
    (λ _ _, ret (inr (ErrorString "no list"))) (λ r, ret (Some r, None)) (λ _ _, ret None).

Definition test_encode (v : JSONValue) (_ : PluginWorld) : option string :=
  match v with JObject _ => Some "object" | JErrorResponse _ e => Some e | _ => None end.

Lemma group_router_serves_witness : ∃ rs,
  NewResourceGroupRouterWithStore test_encode inl (λ _ _, ret None)
    [test_plugin_kind "Foo" "foos"; test_plugin_kind "Bar" "bars"] "ns" test_plugin_store no_routers =
    (Returned (mkJSONRouter (Some 1) None), rs) ∧
  CallResource rs 1 test_ctx (test_plugin_request "get" "g.io/v1/bars/b1") test_sender =
    Some (let! _ := WrapHandlerFunc test_encode inl (mkJSONRouter (Some 1) None)
                      (crud_handler (λ _ _, ret None) test_plugin_store "ns" (test_plugin_kind "Bar" "bars") (CrudGet "b1"))
                      200 (crud_ctx (test_plugin_kind "Bar" "bars") (CrudGet "b1") test_ctx)
                      (test_plugin_request "get" "g.io/v1/bars/b1") test_sender in
          returns None).
Proof.
  apply (group_router_serves test_encode inl (λ _ _, ret None) test_plugin_store "ns"
    [test_plugin_kind "Foo" "foos"] (test_plugin_kind "Bar" "bars") [] (CrudGet "b1")).
  - repeat constructor.
  - split_and!; [done | reflexivity..].
  - repeat constructor.
  - reflexivity.
  - reflexivity.
Defined.

Lemma WrapHandlerFunc_answers_witness : ∃ a,
  WrapHandlerFunc test_encode inl (mkJSONRouter (Some 1) None)
    (λ _ _, returns (None, Some (Plugin_WrapError 500 (ErrorString "secret")))) 200 test_ctx
    (test_plugin_request "get" "/") test_sender plugin_world =
    (Returned tt, (test_sender (Some 0%nat) (new_response a plugin_world).2).2).
Proof.
  destruct (WrapHandlerFunc_answers test_encode inl
    (λ _ _, returns (None, Some (Plugin_WrapError 500 (ErrorString "secret")))) 200 test_ctx
    (test_plugin_request "get" "/") test_sender "http://x" None (Some (Plugin_WrapError 500 (ErrorString "secret")))
    plugin_world plugin_world) as (a & H & _); [reflexivity..|].
  exists a. exact H.
Defined.

(** A handler that sends nothing, behind the middleware of metrics, ends in a panic. *)
Example NewMetricsMiddleware_needs_response :
  (NewMetricsMiddleware (λ _, ret tt) (λ _ _ _, returns tt) test_ctx
     (test_plugin_request "get" "/") test_sender plugin_world).1 = Panics.
Proof. vm_compute. reflexivity. Qed.

(** The dots of a group match any character: another group reaches the kind. *)
Example group_dots_match :
  kind_matches (test_plugin_kind "Foo" "foos") "gXio/v1/foos" = true.
Proof. vm_compute. reflexivity. Qed.
