(* ===== verification/KubeConfig.v ===== *)
(** * The kubeconfig of a plugin ([plugin/kubeconfig/], [k8s/namespace.go],
    [operator/kubeconfig.go])

    The loaders with their checksum and their cache, the reading of the secure settings,
    the middlewares that put the configuration in the context of a request, and the
    initializer that keeps what it made for the last configuration, as a step relation
    over its concurrent callers.  Base64 and CRC-32 are those of Go's standard library;
    the reading of a kubeconfig and the rules for names of namespaces are arguments. *)
From S2P Require Import Prelude GoValues Resource Registry PluginRouter.

#[local] Open Scope string_scope.
#[local] Open Scope list_scope.

(** ** [hash/crc32] with the IEEE polynomial *)

Definition crc_table (i : Z) : Z :=
  Nat.iter 8 (λ c, if Z.odd c then Z.lxor 0xEDB88320 (Z.shiftr c 1) else Z.shiftr c 1) i.

Definition byte_of (c : ascii) : Z := Z.of_N (N_of_ascii c).

(** [crc32.Update], a [Write] to the hash. *)
Definition not32 (c : Z) : Z := Z.lxor c 0xFFFFFFFF.
Definition crc_step (c : Z) (b : ascii) : Z :=
  Z.lxor (crc_table (Z.land (Z.lxor c (byte_of b)) 255)) (Z.shiftr c 8).
Definition crc_update (c : Z) (s : string) : Z :=
  not32 (foldl crc_step (not32 c) (String.list_ascii_of_string s)).

(** ** [encoding/base64], the standard encoding with padding *)

Definition base64_alphabet : string := "ABCDEFGHIJKLMNOPQRSTUVWXYZabcdefghijklmnopqrstuvwxyz0123456789+/".

Fixpoint index_of (c : ascii) (s : string) (i : Z) : option Z :=
  match s with
  | EmptyString => None
  | String c' s => if Ascii.eqb c c' then Some i else index_of c s (i + 1)
  end.
Definition decode_char (c : ascii) : option Z := index_of c base64_alphabet 0.

Definition ascii_of (b : Z) : ascii := ascii_of_N (Z.to_N (b mod 256)).

(** Four characters are three bytes; the padding only ends the text. *)
Fixpoint decode_quanta (l : list ascii) : option (list ascii) :=
  match l with
  | [] => Some []
  | a :: b :: c :: d :: l =>
      x ← decode_char a; y ← decode_char b;
      if Ascii.eqb c "=" && Ascii.eqb d "=" then
        match l with [] => Some [ascii_of (x * 4 + y / 16)] | _ => None end
      else
        z ← decode_char c;
        if Ascii.eqb d "=" then
          match l with [] => Some [ascii_of (x * 4 + y / 16); ascii_of (y * 16 + z / 4)] | _ => None end
        else
          t ← decode_char d;
          rest ← decode_quanta l;
          Some (ascii_of (x * 4 + y / 16) :: ascii_of (y * 16 + z / 4) :: ascii_of (z * 64 + t) :: rest)
  | _ => None
  end.

(** [base64.StdEncoding.DecodeString], which skips line ends. *)
Definition not_newline (c : ascii) : bool := negb (Ascii.eqb c "010" || Ascii.eqb c "013").
Definition DecodeString (s : string) : option string :=
  String.string_of_list_ascii <$> decode_quanta (List.filter not_newline (String.list_ascii_of_string s)).

(** ** Configurations ([config.go]) *)

(** [NamespacedConfig] *)
Record NamespacedConfig (W : Type) := mkNamespacedConfig {
  nc_CRC32 : Z;
  nc_RestConfig : RestConfig W;
  nc_Namespace : string;
}.
Arguments mkNamespacedConfig {W}.
Arguments nc_CRC32 {W}.
Arguments nc_RestConfig {W}.
Arguments nc_Namespace {W}.

Definition NamespacedConfig_Equals {W} (c other : NamespacedConfig W) : bool := (nc_CRC32 c =? nc_CRC32 other)%Z.

Definition empty_RestConfig {W} : RestConfig W :=
  mkRestConfig "" "" None None "" "" (mkTLSClientConfig false "" "" "" "" None None None) "" None.
Definition NamespacedConfig_zero {W} : NamespacedConfig W := mkNamespacedConfig 0 empty_RestConfig "".

Definition ErrContextValueMissing : GoError := ErrorString "context does not contain the kubeconfig value".
Definition ErrConfigMissing : GoError := ErrorString "config is missing from secureJsonData".

(** The value of a request's context is the configuration, if it was set. *)
Abbreviation ConfigCtx W := (Ctx (option (NamespacedConfig W))).

Definition WithContext {W} (ctx : ConfigCtx W) (val : NamespacedConfig W) : ConfigCtx W :=
  CtxWithValues ctx (Some val).
Definition FromContext {W} (ctx : ConfigCtx W) : NamespacedConfig W * option GoError :=
  match ctx_values ctx with
  | Some val => (val, None)
  | None => (NamespacedConfig_zero, Some ErrContextValueMissing)
  end.
Definition MustFromContext {W} (ctx : ConfigCtx W) : called (NamespacedConfig W) :=
  match FromContext ctx with (val, None) => Returned val | _ => Panics end.

(** ** Loaders ([loader.go]) *)

Definition KeyConfig : string := "kubeconfig".
Definition KeyNamespace : string := "kubenamespace".

(** [LoadRawConfig] *)
Definition LoadRawConfig (src : nmap string) : string * string * option GoError :=
  match items src !! KeyConfig with
  | None => ("", "", Some ErrConfigMissing)
  | Some cval =>
      match items src !! KeyNamespace with
      | None => ("", "", Some ErrConfigMissing)
      | Some nval =>
          let cval := match DecodeString cval with Some dec => dec | None => cval end in
          let nval := match DecodeString nval with Some dec => TrimSpace dec | None => nval end in
          (cval, nval, None)
      end
  end.

Section Loaders.
Context {W : Type}.

(** [validation.ValidateNamespaceName] and the error [multierror] makes of its texts; the
    configurations [rest] and [clientcmd] give. *)
Context (ValidateNamespaceName : string → list string) (multierror : list string → GoError)
  (InClusterConfig : M W (RestConfig W + GoError))
  (ClientConfig_of : string → RestConfig W + GoError).

(** [ValidateNamespace] *)
Definition ValidateNamespace (namespace : string) : option GoError :=
  match ValidateNamespaceName namespace with
  | [] => None
  | errs => Some (multierror errs)
  end.

(** A loader of its own state [L]: [Load] writes to [dst], and [CRC32].  The methods of a
    [ConfigLoader] that are not [Load] come from it. *)
Record ChecksumLoader (L : Type) := mkChecksumLoader {
  cl_Load : string → string → NamespacedConfig W → L → M W (NamespacedConfig W * option GoError * L);
  cl_CRC32 : string → string → L → Z * option GoError * L;
}.
Arguments mkChecksumLoader {L}.
Arguments cl_Load {L}.
Arguments cl_CRC32 {L}.

(** [Loader]: its state is the one of its hash, used under a lock; writing to a hash never
    fails. *)
Definition Loader_CRC32 (config namespace : string) (hash : Z) : Z * option GoError * Z :=
  let hash := 0%Z in
  let hash := crc_update hash config in
  let hash := crc_update hash namespace in
  (hash, None, hash).

Definition Loader_Load (config namespace : string) (dst : NamespacedConfig W) (hash : Z)
  : M W (NamespacedConfig W * option GoError * Z) :=
  let '(crc, err, hash) := Loader_CRC32 config namespace hash in
  match err with
  | Some err => ret (dst, Some err, hash)
  | None =>
      match ValidateNamespace namespace with
      | Some err => ret (dst, Some err, hash)
      | None =>
          let* r := if bool_decide (config = "cluster") then InClusterConfig else ret (ClientConfig_of config) in
          match r with
          | inr err => ret (dst, Some err, hash)
          | inl cfg => ret (mkNamespacedConfig crc (with_APIPath "/apis" cfg) namespace, None, hash)
          end
      end
  end.

Definition Loader : ChecksumLoader Z := mkChecksumLoader Loader_Load Loader_CRC32.

(** [CachingLoader]: the state of the loader it uses, and [stor]. *)
Definition CachingLoader_Load {L} (load : ChecksumLoader L) (config namespace : string)
    (dst : NamespacedConfig W) (s : L * gmap Z (NamespacedConfig W))
  : M W (NamespacedConfig W * option GoError * (L * gmap Z (NamespacedConfig W))) :=
  let '(crc, err, l) := cl_CRC32 load config namespace s.1 in
  match err with
  | Some err => ret (dst, Some err, (l, s.2))
  | None =>
      match s.2 !! crc with
      | Some res => ret (res, None, (l, s.2))
      | None =>
          let* '(dst, err, l) := cl_Load load config namespace dst l in
          match err with
          | Some err => ret (dst, Some err, (l, s.2))
          | None => ret (dst, None, (l, <[crc := dst]> s.2))
          end
      end
  end.

Definition CachingLoader {L} (load : ChecksumLoader L) : ChecksumLoader (L * gmap Z (NamespacedConfig W)) :=
  mkChecksumLoader (CachingLoader_Load load) (λ config namespace s,
    let '(crc, err, l) := cl_CRC32 load config namespace s.1 in (crc, err, (l, s.2))).

(** [LoadFromSettings], the same of both; the settings are the decrypted secure JSON. *)
Definition LoadFromSettings {L} (load : ChecksumLoader L) (set : nmap string) (dst : NamespacedConfig W) (s : L)
  : M W (NamespacedConfig W * option GoError * L) :=
  match LoadRawConfig set with
  | (_, _, Some err) => ret (dst, Some err, s)
  | (cf, ns, None) => cl_Load load cf ns dst s
  end.
End Loaders.
Arguments mkChecksumLoader {W L}.
Arguments cl_Load {W L}.
Arguments cl_CRC32 {W L}.

(** ** Middlewares ([middleware.go]) *)

(** The app instance settings of a request: nil or the decrypted secure JSON. *)
Abbreviation PluginContext := (option (nmap string)).

Section Middlewares.
Context {W : Type} `{PM : !PluginMemory W}.

(** [LoadFromSettings] of the loader the middleware holds, which keeps its state in the
    world. *)
Context (load : nmap string → NamespacedConfig W → M W (NamespacedConfig W * option GoError))
  (encode : string → option string).

Definition LoadingMiddlewareWithLoader : Middleware (W:=W) (V:=option (NamespacedConfig W)) (PC:=PluginContext) :=
  λ handler ctx req sender,
  match rq_PluginContext req with
  | None => panic
  | Some set =>
      let! '(cfg, err) := calls (load set NamespacedConfig_zero) in
      handler (WithContext ctx cfg) req sender
  end.

(** [sendErr] *)
Definition kubeconfig_sendErr (sender : Sender (W:=W)) (err : GoError) : MP W unit :=
  let! p := calls (new_response (InternalError encode (Some err))) in
  let! _ := calls (sender (Some p)) in
  returns tt.

Definition MustLoadMiddlewareWithLoader : Middleware (W:=W) (V:=option (NamespacedConfig W)) (PC:=PluginContext) :=
  λ handler ctx req sender,
  match rq_PluginContext req with
  | None => panic
  | Some set =>
      let! '(cfg, err) := calls (load set NamespacedConfig_zero) in
      match err with
      | Some err => kubeconfig_sendErr sender err
      | None => handler (WithContext ctx cfg) req sender
      end
  end.
End Middlewares.

(** ** The operator's configuration ([operator/kubeconfig.go]) *)

Section OperatorConfig.
Context {W F F32 : Type} (positive : F → bool) (float32 : F → F32) (defaultQPS : F32).
Context (InClusterConfig : M W (RestConfig W + GoError)) (BuildConfig : string → RestConfig W + GoError).

(** [RestConfigOptions], with [F] the floating-point numbers, and the throttling of a
    configuration: without limit, or a rate and a burst. *)
Record RestConfigOptions := mkRestConfigOptions { rco_QPS : F; rco_Burst : Z; rco_NoLimit : bool }.
Inductive Throttle := DefaultThrottle | NoLimit | Limit (qps : F32) (burst : Z).
Definition defaultBurst : Z := 300.

(** [LoadOperatorRestConfig]: what [dst] then is, or the error; [DefaultThrottle] is the
    throttling that came with the configuration. *)
Definition LoadOperatorRestConfig (path : string) (opts : RestConfigOptions)
  : M W (RestConfig W * Throttle + GoError) :=
  if bool_decide (path = "cluster") then
    let* r := InClusterConfig in
    ret match r with inr err => inr err | inl cfg => inl (cfg, DefaultThrottle) end
  else
    ret match BuildConfig path with
    | inr err => inr err
    | inl cfg =>
        let cfg := with_APIPath "/apis" cfg in
        inl (cfg, if rco_NoLimit opts then NoLimit
                  else Limit (if positive (rco_QPS opts) then float32 (rco_QPS opts) else defaultQPS)
                         (if (0 <? rco_Burst opts)%Z then rco_Burst opts else defaultBurst))
    end.
End OperatorConfig.

(** ** The caching initializer ([initializer.go]) *)

Section Initializer.
Context {W T : Type}.
Implicit Types cfg : NamespacedConfig W.

(** What [ini] can give for a configuration. *)
Context (ini : NamespacedConfig W → T + GoError → Prop).

(** A call of the initializer: before it looks at the cache, before it calls [ini], with
    what [ini] gave, after it wrote the cache, and with what it returned. *)
Inductive call_state :=
| CStart cfg
| CMiss cfg
| CMade cfg (val : T)
| CFailed cfg (err : GoError)
| CWrote cfg
| CDone cfg (val : option T) (err : option GoError).

(** The variables of the closure, and the calls; [cachedVal] is the zero value at first. *)
Record init_state := mkInitState {
  hasCached : bool;
  cachedCfg : NamespacedConfig W;
  cachedVal : option T;
  calls_ : list call_state;
}.

Definition with_call (i : nat) (c : call_state) (s : init_state) : init_state :=
  mkInitState (hasCached s) (cachedCfg s) (cachedVal s) (<[i := c]> (calls_ s)).

Inductive init_step : init_state → init_state → Prop :=
| init_hit i cfg s :
    calls_ s !! i = Some (CStart cfg) →
    hasCached s && NamespacedConfig_Equals (cachedCfg s) cfg = true →
    init_step s (with_call i (CDone cfg (cachedVal s) None) s)
| init_miss i cfg s :
    calls_ s !! i = Some (CStart cfg) →
    hasCached s && NamespacedConfig_Equals (cachedCfg s) cfg = false →
    init_step s (with_call i (CMiss cfg) s)
| init_made i cfg val s :
    calls_ s !! i = Some (CMiss cfg) → ini cfg (inl val) →
    init_step s (with_call i (CMade cfg val) s)
| init_failed i cfg err s :
    calls_ s !! i = Some (CMiss cfg) → ini cfg (inr err) →
    init_step s (with_call i (CFailed cfg err) s)
| init_error i cfg err s :
    calls_ s !! i = Some (CFailed cfg err) →
    init_step s (with_call i (CDone cfg (cachedVal s) (Some err)) s)
| init_write i cfg val s :
    calls_ s !! i = Some (CMade cfg val) →
    init_step s (mkInitState true cfg (Some val) (<[i := CWrote cfg]> (calls_ s)))
| init_return i cfg s :
    calls_ s !! i = Some (CWrote cfg) →
    init_step s (with_call i (CDone cfg (cachedVal s) None) s).

(** Calls with the given configurations, none of them begun. *)
Definition init_calls (cfgs : list (NamespacedConfig W)) : init_state :=
  mkInitState false NamespacedConfig_zero None (CStart <$> cfgs).
End Initializer.

(** ** The settings *)

(** Base64, as settings are written. *)
Definition encode_char (i : Z) : ascii := default "="%char (String.get (Z.to_nat i) base64_alphabet).

Fixpoint encode_quanta (l : list ascii) : list ascii :=
  match l with
  | [] => []
  | [a] => [encode_char (byte_of a / 4); encode_char (byte_of a mod 4 * 16); "="%char; "="%char]
  | [a; b] =>
      [encode_char (byte_of a / 4); encode_char (byte_of a mod 4 * 16 + byte_of b / 16);
       encode_char (byte_of b mod 16 * 4); "="%char]
  | a :: b :: c :: l =>
      encode_char (byte_of a / 4) :: encode_char (byte_of a mod 4 * 16 + byte_of b / 16) ::
      encode_char (byte_of b mod 16 * 4 + byte_of c / 64) :: encode_char (byte_of c mod 64) :: encode_quanta l
  end.
Definition EncodeToString (s : string) : string :=
  String.string_of_list_ascii (encode_quanta (String.list_ascii_of_string s)).

Lemma encode_char_ok i : (0 ≤ i < 64)%Z →
  decode_char (encode_char i) = Some i ∧ Ascii.eqb (encode_char i) "=" = false ∧
  not_newline (encode_char i) = true.
Proof.
  intros Hi.
  assert (H : forallb (λ n, let c := encode_char (Z.of_nat n) in
    bool_decide (decode_char c = Some (Z.of_nat n)) && negb (Ascii.eqb c "=") && not_newline c) (seq 0 64) = true)
    by by vm_compute.
  rewrite forallb_forall in H. specialize (H (Z.to_nat i)). rewrite in_seq, Z2Nat.id in H by lia.
  specialize (H ltac:(lia)). cbv zeta in H. apply andb_true_iff in H as [[H1 H2]%andb_true_iff H3].
  apply bool_decide_eq_true in H1. by apply negb_true_iff in H2.
Qed.

Lemma byte_of_range c : (0 ≤ byte_of c < 256)%Z.
Proof. unfold byte_of. pose proof (N_ascii_bounded c). lia. Qed.

Lemma ascii_of_eq c b : (b mod 256 = byte_of c)%Z → ascii_of b = c.
Proof. unfold ascii_of. intros ->. unfold byte_of. by rewrite N2Z.id, ascii_N_embedding. Qed.

(** Linear arithmetic with quotients. *)
Ltac div_lia := Z.to_euclidean_division_equations; lia.

(** Reading an encoded quantum. *)
Ltac quantum :=
  repeat match goal with
  | |- context [byte_of ?c] =>
      lazymatch goal with
      | H : (0 ≤ byte_of c < 256)%Z |- _ => fail
      | _ => pose proof (byte_of_range c)
      end
  end;
  repeat match goal with
  | |- context [encode_char ?i] =>
      let H := fresh in destruct (encode_char_ok i) as (H & ? & ?); [div_lia|];
      let x := fresh "x" in set (x := encode_char i) in *; clearbody x
  end;
  cbn [decode_quanta List.filter];
  repeat match goal with
  | H : decode_char ?x = _ |- context [decode_char ?x] => rewrite H
  | H : Ascii.eqb ?x "=" = _ |- context [Ascii.eqb ?x "="] => rewrite H
  | H : not_newline ?x = _ |- context [not_newline ?x] => rewrite H
  end.

Lemma decode_encode_quanta l : decode_quanta (encode_quanta l) = Some l.
Proof.
  induction l as [l IH] using (induction_ltof1 _ length). unfold ltof in IH.
  destruct l as [|a [|b [|c l]]]; [done|..]; cbn [encode_quanta].
  - quantum. simpl. do 2 f_equal. apply ascii_of_eq. div_lia.
  - quantum. simpl. do 2 f_equal; [|f_equal]; apply ascii_of_eq; div_lia.
  - quantum. simpl. rewrite IH by (simpl; lia). simpl.
    do 2 f_equal; [|f_equal; [|f_equal]]; apply ascii_of_eq; div_lia.
Qed.

Lemma encode_no_newline l : List.filter not_newline (encode_quanta l) = encode_quanta l.
Proof.
  induction l as [l IH] using (induction_ltof1 _ length). unfold ltof in IH.
  destruct l as [|a [|b [|c l]]]; [done|..]; cbn [encode_quanta].
  - quantum. done.
  - quantum. done.
  - quantum. rewrite IH by (simpl; lia). done.
Qed.

Lemma DecodeString_EncodeToString s : DecodeString (EncodeToString s) = Some s.
Proof.
  unfold DecodeString, EncodeToString.
  rewrite String.list_ascii_of_string_of_list_ascii, encode_no_newline, decode_encode_quanta.
  simpl. by rewrite String.string_of_list_ascii_of_string.
Qed.

(** Settings written in base64 are read back as they were, the namespace without the
    white space around it. *)
Theorem LoadRawConfig_round_trip config namespace :
  LoadRawConfig (Some {[ KeyConfig := EncodeToString config; KeyNamespace := EncodeToString namespace ]}) =
  (config, TrimSpace namespace, None).
Proof.
  unfold LoadRawConfig, items. simpl.
  rewrite lookup_insert_eq, lookup_insert_ne, lookup_singleton_eq by done.
  by rewrite !DecodeString_EncodeToString.
Qed.

(** A namespace written as it is may be taken for base64: ["prod"] is read as three bytes. *)
Theorem LoadRawConfig_garbles config :
  ∃ garbled, (LoadRawConfig (Some {[ KeyConfig := config; KeyNamespace := "prod" ]})).1.2 = garbled ∧ garbled ≠ "prod".
Proof.
  eexists. split; [done|]. unfold LoadRawConfig, items. simpl.
  rewrite lookup_insert_eq, lookup_insert_ne, lookup_singleton_eq by done. vm_compute. done.
Qed.

(** ** The checksum and the cache *)
Lemma not32_not32 c : not32 (not32 c) = c.
Proof. unfold not32. by rewrite Z.lxor_assoc, Z.lxor_nilpotent, Z.lxor_0_r. Qed.

Lemma list_ascii_app s t :
  String.list_ascii_of_string (s +:+ t) = String.list_ascii_of_string s ++ String.list_ascii_of_string t.
Proof. induction s as [|c s IH]; [done | exact (f_equal (cons c) IH)]. Qed.

Lemma crc_update_app c s t : crc_update (crc_update c s) t = crc_update c (s +:+ t).
Proof. unfold crc_update. by rewrite not32_not32, list_ascii_app, foldl_app. Qed.

(** The known checksum of the nine digits. *)
Example crc32_check : crc_update 0 "123456789" = 0xCBF43926%Z.
Proof. vm_compute. reflexivity. Qed.

Lemma Loader_CRC32_concat config namespace hash :
  Loader_CRC32 config namespace hash =
  (crc_update 0 (config +:+ namespace), None, crc_update 0 (config +:+ namespace)).
Proof. unfold Loader_CRC32. by rewrite crc_update_app. Qed.

Section Cache.
Context {W : Type} (ValidateNamespaceName : string → list string) (multierror : list string → GoError)
  (InClusterConfig : M W (RestConfig W + GoError)) (ClientConfig_of : string → RestConfig W + GoError).

Let loader := Loader ValidateNamespaceName multierror InClusterConfig ClientConfig_of.

(** Every configuration in the cache was loaded for a text and a namespace with the
    checksum it is kept under. *)
Definition cache_ok (m : gmap Z (NamespacedConfig W)) : Prop :=
  ∀ crc c, m !! crc = Some c → nc_CRC32 c = crc ∧ ValidateNamespace ValidateNamespaceName multierror (nc_Namespace c) = None ∧
    ∃ config, crc = crc_update 0 (config +:+ nc_Namespace c).

Lemma Loader_Load_ok config namespace dst hash w c h w' :
  cl_Load loader config namespace dst hash w = ((c, None, h), w') →
  nc_CRC32 c = crc_update 0 (config +:+ namespace) ∧ nc_Namespace c = namespace ∧
  ValidateNamespace ValidateNamespaceName multierror namespace = None.
Proof.
  unfold loader, Loader. cbn [cl_Load]. unfold Loader_Load. rewrite Loader_CRC32_concat.
  destruct (ValidateNamespace _ _ namespace); [done|]. unfold bind.
  destruct ((if bool_decide (config = "cluster") then InClusterConfig else ret (ClientConfig_of config)) w)
    as [[cfg|e] w1]; [|done].
  by intros [= <- _ _].
Qed.

(** The caching loader keeps only configurations of valid namespaces, each under the
    checksum of the text and the namespace it was loaded for, and what it returns without
    an error has the checksum of the text and the namespace it was asked for. *)
Theorem CachingLoader_by_checksum config namespace dst l m w c err l' m' w' :
  cache_ok m →
  cl_Load (CachingLoader loader) config namespace dst (l, m) w = ((c, err, (l', m')), w') →
  cache_ok m' ∧ m ⊆ m' ∧
  (err = None → nc_CRC32 c = crc_update 0 (config +:+ namespace) ∧ m' !! nc_CRC32 c = Some c).
Proof.
  intros Hm. unfold CachingLoader. cbn [cl_Load]. unfold CachingLoader_Load. cbn [fst snd].
  change (cl_CRC32 loader config namespace l) with (Loader_CRC32 config namespace l).
  rewrite Loader_CRC32_concat. destruct (m !! _) as [res|] eqn:Em.
  - intros [= <- <- _ <- _]. split_and!; [done..|]. intros _.
    destruct (Hm _ _ Em) as (Hc & _). by rewrite Hc.
  - unfold bind. destruct (cl_Load loader config namespace dst _ w) as [[[c0 [e|]] l0] w0] eqn:El; simpl.
    + intros [= _ <- _ <- _]. by split_and!.
    + intros [= <- <- _ <- _]. apply Loader_Load_ok in El as (Hc & Hns & Hv). split_and!.
      * intros crc c. rewrite lookup_insert_Some. intros [[<- <-]|[_ H]]; [|by apply Hm].
        rewrite Hns. split_and!; [done..|]. by exists config.
      * by apply insert_subseteq.
      * intros _. rewrite Hc, lookup_insert_eq. done.
Qed.

(** The checksum is that of the text followed by the namespace: where one ends is lost.
    After a load, a shorter text with the rest of it in front of the namespace gets the
    configuration of the first, and its namespace is not validated. *)
Theorem CachingLoader_confuses config rest namespace dst s w c s' w' :
  cl_Load (CachingLoader loader) (config +:+ rest) namespace dst s w = ((c, None, s'), w') →
  ∀ dst' w2, ∃ l, cl_Load (CachingLoader loader) config (rest +:+ namespace) dst' s' w2 = ((c, None, (l, s'.2)), w2).
Proof.
  destruct s as [l m], s' as [l' m']. unfold CachingLoader. cbn [cl_Load]. unfold CachingLoader_Load. cbn [fst snd].
  change (cl_CRC32 loader) with Loader_CRC32. rewrite !Loader_CRC32_concat, string_app_assoc.
  intros H dst' w2. eexists.
  assert (m' !! crc_update 0 ((config +:+ rest) +:+ namespace) = Some c) as ->; [|done].
  destruct (m !! _) as [res|] eqn:Em; [by injection H as <- _ <- _|].
  unfold bind in H. destruct (cl_Load loader _ _ _ _ w) as [[[c0 [e|]] l0] w0]; simpl in H; [done|].
  injection H as <- _ <- _. apply lookup_insert_eq.
Qed.
End Cache.

(** ** The middlewares *)

Section ConfigMiddlewares.
Context {W : Type} `{PM : !PluginMemory W}.
Context (load : nmap string → NamespacedConfig W → M W (NamespacedConfig W * option GoError))
  (encode : string → option string).

(** C39: Behind [MustLoadMiddleware], a handler is called only with a configuration in its
    context, the one that was loaded from the settings of the request; when there are
    settings but loading fails, the request is answered with an internal error and the
    handler is not called.  A request without app instance settings is not answered at
    all: the middleware panics before it has loaded anything (its doc comment promises an
    error response). *)
Theorem MustLoadMiddleware_guards handler ctx req (sender : Sender (W:=W)) w :
  let served := MustLoadMiddlewareWithLoader load encode handler ctx req sender w in
  match rq_PluginContext req with
  | None => served = (Panics, w)
  | Some set =>
      match load set NamespacedConfig_zero w with
      | ((cfg, None), w1) => ∃ ctx', served = handler ctx' req sender w1 ∧
          MustFromContext ctx' = Returned cfg ∧ ctx_Vars ctx' = ctx_Vars ctx ∧
          ctx_Route ctx' = ctx_Route ctx
      | ((_, Some e), w1) => ∃ p w2, served = (Returned tt, (sender (Some p) w2).2) ∧
          responses (pm w2) !! p = Some (mkResponse 500 ∅ (MarshalError encode (Some e)))
      end
  end.
Proof.
  unfold MustLoadMiddlewareWithLoader. destruct (rq_PluginContext req) as [set|]; [|done].
  destruct (load set NamespacedConfig_zero w) as [[cfg err] w1] eqn:Hload.
  rewrite (calls_run _ _ _ _ _ Hload).
  destruct err as [e|]; [|by eexists]. unfold kubeconfig_sendErr, calls, and_returns, bind, ret.
  exists (length (responses (pm w1))), (new_response (InternalError encode (Some e)) w1).2.
  unfold new_response. simpl. split; [by destruct (sender _ _)|].
  rewrite pm_set_pm. simpl. by rewrite lookup_app_r, Nat.sub_diag.
Qed.

(** Without app instance settings the request gets no answer. *)
Theorem MustLoadMiddleware_panics handler ctx req (sender : Sender (W:=W)) w :
  rq_PluginContext req = None →
  MustLoadMiddlewareWithLoader load encode handler ctx req sender w = (Panics, w).
Proof. intros E. unfold MustLoadMiddlewareWithLoader. by rewrite E. Qed.

(** [LoadingMiddleware] does not leave the configuration out when it cannot be loaded: the
    handler finds the zero value, without an error. *)
Theorem LoadingMiddleware_hides_failure handler ctx req (sender : Sender (W:=W)) set e :
  rq_PluginContext req = Some set →
  ∀ w, load set NamespacedConfig_zero w = ((NamespacedConfig_zero, Some e), w) →
  ∃ ctx', LoadingMiddlewareWithLoader load handler ctx req sender w = handler ctx' req sender w ∧
    FromContext ctx' = (NamespacedConfig_zero, None).
Proof.
  intros Hset w Hload. unfold LoadingMiddlewareWithLoader. rewrite Hset, (calls_run _ _ _ _ _ Hload).
  by eexists.
Qed.
End ConfigMiddlewares.

(** ** The initializer *)

Section InitializerProps.
Context {W T : Type} (ini : NamespacedConfig W → T + GoError → Prop).
Implicit Types s : init_state (W:=W) (T:=T).

(** What a call may have and return. *)
Definition call_ok s (c : call_state (W:=W) (T:=T)) : Prop :=
  match c with
  | CStart _ | CMiss _ => True
  | CMade cfg val => ini cfg (inl val)
  | CFailed cfg err => ini cfg (inr err)
  | CWrote _ => hasCached s = true
  | CDone cfg val None => ∃ v cfg', val = Some v ∧ ini cfg' (inl v)
  | CDone cfg _ (Some err) => ini cfg (inr err)
  end.

Definition init_ok s : Prop :=
  (hasCached s = true → ∃ v, cachedVal s = Some v ∧ ini (cachedCfg s) (inl v)) ∧
  ∀ i c, calls_ s !! i = Some c → call_ok s c.

Lemma call_ok_cached s s' c : hasCached s' = hasCached s ∨ hasCached s' = true → call_ok s c → call_ok s' c.
Proof. destruct c as [| | | | |? ? [|]]; simpl; intuition congruence. Qed.

Lemma init_ok_with i c s : init_ok s → call_ok s c → init_ok (with_call i c s).
Proof.
  intros [H1 H2] Hc. split; [exact H1|]. intros i' c'. simpl.
  rewrite list_lookup_insert_Some. intros [(-> & <- & _)|[_ H]].
  - eapply call_ok_cached; [|exact Hc]. by left.
  - eapply call_ok_cached; [|by eapply H2]. by left.
Qed.

Lemma init_step_ok s s' : init_step ini s s' → init_ok s → init_ok s'.
Proof.
  intros Hstep Hok. pose proof Hok as [H1 H2].
  destruct Hstep as [i cfg s Hi Hc|i cfg s Hi Hc|i cfg val s Hi Hini|i cfg err s Hi Hini|i cfg err s Hi
    |i cfg val s Hi|i cfg s Hi]; try (apply init_ok_with; [done|]); simpl.
  - apply andb_true_iff in Hc as [Hc _]. destruct (H1 Hc) as (v & Hv & Hini). by exists v, (cachedCfg s).
  - done.
  - done.
  - done.
  - exact (H2 _ _ Hi).
  - split; simpl; [intros _; exists val; split; [done | exact (H2 _ _ Hi)]|].
    intros i' c'. rewrite list_lookup_insert_Some. intros [(-> & <- & _)|[_ H]]; [done|].
    eapply call_ok_cached; [by right | by eapply H2].
  - destruct (H1 (H2 _ _ Hi)) as (v & Hv & Hini). by exists v, (cachedCfg s).
Qed.

(** In every interleaving of its callers, the caching initializer returns without an
    error only values that the initializer made, and an error only from the call that
    failed. *)
Theorem CachingInitializer_returns_made cfgs s i cfg val err :
  rtc (init_step ini) (init_calls cfgs) s →
  calls_ s !! i = Some (CDone cfg val err) →
  match err with
  | None => ∃ v cfg', val = Some v ∧ ini cfg' (inl v)
  | Some e => ini cfg (inr e)
  end.
Proof.
  intros Hs Hi. assert (Hok : init_ok s); [|destruct Hok as [_ H]; specialize (H _ _ Hi); by destruct err].
  eapply (rtc_invariant (init_step ini)); [exact init_step_ok | exact Hs|]. split; [done|].
  intros i' c. unfold init_calls. simpl. rewrite list_lookup_fmap.
  intros (cfg' & _ & ->)%fmap_Some_1. done.
Qed.

(** The value may be that of another caller's configuration: the cache is read after its
    lock was released. *)
Theorem CachingInitializer_mixes_up (cfg1 cfg2 : NamespacedConfig W) v1 v2 :
  ini cfg1 (inl v1) → ini cfg2 (inl v2) →
  ∃ s, rtc (init_step ini) (init_calls [cfg1; cfg2]) s ∧ calls_ s !! 0 = Some (CDone cfg1 (Some v2) None).
Proof.
  intros H1 H2. eexists. split.
  - eapply rtc_l; [by apply (init_miss _ 0 cfg1)|].
    eapply rtc_l; [by apply (init_miss _ 1 cfg2)|].
    eapply rtc_l; [by apply (init_made _ 0 cfg1 v1)|].
    eapply rtc_l; [by apply (init_made _ 1 cfg2 v2)|].
    eapply rtc_l; [by apply (init_write _ 0 cfg1 v1)|].
    eapply rtc_l; [by apply (init_write _ 1 cfg2 v2)|].
    apply rtc_once. by apply (init_return _ 0 cfg1).
  - done.
Qed.
End InitializerProps.

(** ** Witnesses *)
Definition test_loader (W : Type) : ChecksumLoader (W:=W) (Z * gmap Z (NamespacedConfig W)) :=
  CachingLoader (Loader (λ ns, if bool_decide (ns = "") then ["empty"] else []) (λ _, ErrorString "invalid")
    (ret (inl empty_RestConfig)) (λ _, inl empty_RestConfig)).

Lemma CachingLoader_by_checksum_witness :
  cache_ok (W:=unit) (λ ns, if bool_decide (ns = "") then ["empty"] else []) (λ _, ErrorString "invalid")
    (cl_Load (test_loader unit) "cluster" "dev" NamespacedConfig_zero (0%Z, ∅) tt).1.2.2.
Proof.
  refine (proj1 (CachingLoader_by_checksum (W:=unit) (λ ns, if bool_decide (ns = "") then ["empty"] else [])
    (λ _, ErrorString "invalid") (ret (inl empty_RestConfig)) (λ _, inl empty_RestConfig)
    "cluster" "dev" NamespacedConfig_zero 0 ∅ tt _ _ _ _ _ _ _)).
  - intros crc c. by rewrite lookup_empty.
  - vm_compute. reflexivity.
Defined.

Lemma CachingLoader_confuses_witness :
  ∃ l, cl_Load (test_loader unit) "clus" "terdev" NamespacedConfig_zero
         (cl_Load (test_loader unit) "cluster" "dev" NamespacedConfig_zero (0%Z, ∅) tt).1.2 tt =
       ((mkNamespacedConfig (crc_update 0 "clusterdev") (with_APIPath "/apis" empty_RestConfig) "dev", None,
         (l, (cl_Load (test_loader unit) "cluster" "dev" NamespacedConfig_zero (0%Z, ∅) tt).1.2.2)), tt).
Proof.
  apply (CachingLoader_confuses (W:=unit) (λ ns, if bool_decide (ns = "") then ["empty"] else [])
    (λ _, ErrorString "invalid") (ret (inl empty_RestConfig)) (λ _, inl empty_RestConfig)
    "clus" "ter" "dev" NamespacedConfig_zero (0%Z, ∅) tt _ _ tt).
  vm_compute. reflexivity.
Defined.

Definition failing_load (set : nmap string) (dst : NamespacedConfig PluginWorld)
  : M PluginWorld (NamespacedConfig PluginWorld * option GoError) :=
  match LoadRawConfig set with (_, _, err) => ret (dst, err) end.

Definition config_request : Request PluginContext := mkRequest (Some None) "/" "GET" "http://x" ∅ "".
Definition config_ctx : ConfigCtx PluginWorld := mkCtx None None None.

Lemma MustLoadMiddleware_guards_witness : ∃ p w2,
  MustLoadMiddlewareWithLoader failing_load Some (λ _ _ _, returns tt) config_ctx config_request
    test_sender plugin_world = (Returned tt, (test_sender (Some p) w2).2) ∧
  responses (pm w2) !! p = Some (mkResponse 500 ∅ "config is missing from secureJsonData").
Proof.
  exact (MustLoadMiddleware_guards failing_load Some (λ _ _ _, returns tt) config_ctx config_request
    test_sender plugin_world).
Defined.

Lemma LoadingMiddleware_hides_failure_witness : ∃ ctx',
  LoadingMiddlewareWithLoader failing_load (λ _ _ _, returns tt) config_ctx config_request test_sender
    plugin_world = (Returned tt, plugin_world) ∧
  FromContext ctx' = (@NamespacedConfig_zero PluginWorld, None).
Proof.
  destruct (LoadingMiddleware_hides_failure failing_load (λ _ _ _, returns tt) config_ctx config_request
    test_sender None ErrConfigMissing eq_refl plugin_world eq_refl) as (ctx' & H1 & H2).
  by exists ctx'.
Defined.

Definition test_ini (cfg : NamespacedConfig unit) (r : string + GoError) : Prop :=
  r = inl ("client of " +:+ nc_Namespace cfg).
Definition test_cfg (ns : string) : NamespacedConfig unit := mkNamespacedConfig (crc_update 0 ns) empty_RestConfig ns.

Lemma CachingInitializer_mixes_up_witness : ∃ s,
  rtc (init_step test_ini) (init_calls [test_cfg "a"; test_cfg "b"]) s ∧
  calls_ s !! 0 = Some (CDone (test_cfg "a") (Some "client of b") None).
Proof.
  apply (CachingInitializer_mixes_up test_ini (test_cfg "a") (test_cfg "b") "client of a" "client of b"); reflexivity.
Defined.

Lemma CachingInitializer_returns_made_witness : ∃ v cfg',
  Some "client of a" = Some v ∧ test_ini cfg' (inl v).
Proof.
  assert (H : ∃ s, rtc (init_step test_ini) (init_calls [test_cfg "a"]) s ∧
    calls_ s !! 0 = Some (CDone (test_cfg "a") (Some "client of a") None)).
  { eexists. split.
    - eapply rtc_l; [by apply (init_miss _ 0 (test_cfg "a"))|].
      eapply rtc_l; [by apply (init_made _ 0 (test_cfg "a") "client of a")|].
      eapply rtc_l; [by apply (init_write _ 0 (test_cfg "a") "client of a")|].
      apply rtc_once. by apply (init_return _ 0 (test_cfg "a")).
    - done. }
  destruct H as (s & Hs & Hi).
  exact (CachingInitializer_returns_made test_ini [test_cfg "a"] s 0 (test_cfg "a") (Some "client of a") None Hs Hi).
Defined.
