(* ===== verification/Reflector.v ===== *)
(** * The reflector ([k8s/cache/reflector.go], [k8s/cache/controller.go])

    A [Reflector] lists the objects of a kind into a store and then watches their changes,
    starting again when a watch breaks.  A watch is the list of the outcomes its [select]
    will have: what arrives on the channel of events, on [errCh], from the ticker, or the
    end of the context; at the end of the list it is still waiting.  The loops have fuel:
    without any left they are still running, and what is shown of the state then holds at
    that moment.  The goroutine that lists is run to its end; when the context ended first,
    what it found is not looked at.  Logs and traces are left out.

    client-go's pager, back-off and retry deadline, the context and the clock are the record
    [Env]; API errors, [reflect] and [meta] are classes. *)
From S2P Require Import Prelude Hoare GoValues Resource RetryPolicy.

#[local] Open Scope string_scope.
#[local] Open Scope list_scope.

(** ** What is watched *)

(** [metav1.ListOptions], as far as the reflector sets them. *)
Record MetaListOptions := mkMetaListOptions {
  mo_ResourceVersion : string;
  mo_ResourceVersionMatch : string;
  mo_TimeoutSeconds : option Z;
  mo_AllowWatchBookmarks : bool;
  mo_SendInitialEvents : option bool;
}.

(** A [runtime.Object]: the name of its type, its kind, and what [meta.Accessor] gives: its
    resource version and annotations. *)
Class RuntimeObject (T : Type) := {
  type_of : T → string;
  gvk_of : T → string * string * string;
  accessor : T → (string * gmap string string) + GoError;
}.

(** [watch.Event]; the object may be nil. *)
Record Event (T : Type) := mkEvent { ev_Type : string; ev_Object : option T }.
Arguments mkEvent {T}.
Arguments ev_Type {T}.
Arguments ev_Object {T}.

Inductive selection (T : Type) :=
| SDone
| SErr (e : GoError)
| SEvent (e : Event T)
| SClosed
| STick.
Arguments SDone {T}.
Arguments SErr {T}.
Arguments SEvent {T}.
Arguments SClosed {T}.
Arguments STick {T}.

(** [cache.ReflectorStore], and the method of a [ResourceVersionUpdater] if it is one. *)
Record ReflectorStore (W T : Type) := mkReflectorStore {
  rs_Add : T → M W (option GoError);
  rs_Update : T → M W (option GoError);
  rs_Delete : T → M W (option GoError);
  rs_Replace : list T → string → M W (option GoError);
  rs_Resync : M W (option GoError);
  rs_UpdateResourceVersion : option (string → M W unit);
}.
Arguments mkReflectorStore {W T}.
Arguments rs_Add {W T}.
Arguments rs_Update {W T}.
Arguments rs_Delete {W T}.
Arguments rs_Replace {W T}.
Arguments rs_Resync {W T}.
Arguments rs_UpdateResourceVersion {W T}.

(** What a list request gives: the resource version of its metadata, and its items. *)
Record ListResult (T : Type) := mkListResult {
  lr_ResourceVersion : string + GoError;
  lr_Items : list T + GoError;
}.
Arguments mkListResult {T}.
Arguments lr_ResourceVersion {T}.
Arguments lr_Items {T}.

(** What the reflector calls: the lister (through client-go's pager, with a page size other
    than its default) and the watcher; whether the context has ended, or ends while a list
    or a back-off is waited for; the back-off; a random time-out of the watch, in seconds;
    the retry deadline of internal errors; the clock. *)
Record Env (W T : Type) := mkEnv {
  en_List : option Z → MetaListOptions → M W (ListResult T * bool * option GoError);
  en_Watch : MetaListOptions → M W (list (selection T) + GoError);
  en_done : M W bool;
  en_list_done : M W bool;
  en_backoff_done : M W bool;
  en_backoff : M W unit;
  en_timeoutSeconds : Z → M W Z;
  en_retry_New : M W unit;
  en_retry_After : option GoError → M W unit;
  en_retry_ShouldRetry : M W bool;
  en_Now : M W Z;
}.
Arguments mkEnv {W T}.
Arguments en_List {W T}.
Arguments en_Watch {W T}.
Arguments en_done {W T}.
Arguments en_list_done {W T}.
Arguments en_backoff_done {W T}.
Arguments en_backoff {W T}.
Arguments en_timeoutSeconds {W T}.
Arguments en_retry_New {W T}.
Arguments en_retry_After {W T}.
Arguments en_retry_ShouldRetry {W T}.
Arguments en_Now {W T}.

(** The tests of [apierrors] and [utilnet], [apierrors.FromObject], and the causes and the
    message of an error that is itself an [APIStatus] with details. *)
Class WatchErrors (T : Type) := {
  IsResourceExpired : GoError → bool;
  IsGone : GoError → bool;
  IsTimeout : GoError → bool;
  IsTooManyRequests : GoError → bool;
  IsInternalError : GoError → bool;
  IsConnectionRefused : GoError → bool;
  HasStatusCause : GoError → string → bool;
  status_details : GoError → option (list string * string);
  FromObject : option T → GoError;
}.

(** ** The errors the reflector tells apart *)
Section Errors.
Context {T : Type} `{WE : !WatchErrors T}.

Definition errorStopRequested : GoError := ErrorString "stop requested".

Definition CauseTypeResourceVersionTooLarge : string := "ResourceVersionTooLarge".

Definition isExpiredError (err : GoError) : bool := IsResourceExpired err || IsGone err.

Definition isTooLargeResourceVersionError (err : GoError) : bool :=
  if HasStatusCause err CauseTypeResourceVersionTooLarge then true
  else if negb (IsTimeout err) then false
  else match status_details err with
       | None => false
       | Some (causes, message) =>
           existsb (String.eqb "Too large resource version") causes ||
           Contains message "Too large resource version"
       end.

Definition isWatchErrorRetriable (err : GoError) : bool :=
  IsConnectionRefused err || IsTooManyRequests err.
End Errors.

(** ** The reflector

    The struct is split in what [NewReflectorWithOptions] fixes and what changes while it
    runs; [r_streamRV] is the variable [resourceVersion] of [watchList], and [r_open] counts
    the watches that were opened and not stopped. *)
Record ReflectorConfig (W : Type) := mkReflectorConfig {
  rc_name : string;
  rc_typeDescription : string;
  rc_expectedType : option string;
  rc_expectedGVK : option (string * string * string);
  rc_resyncPeriod : Z;
  rc_minWatchTimeout : Z;
  rc_WatchListPageSize : Z;
  rc_ShouldResync : option (M W bool);
  rc_UseWatchList : option bool;
}.
Arguments mkReflectorConfig {W}.
Arguments rc_name {W}.
Arguments rc_typeDescription {W}.
Arguments rc_expectedType {W}.
Arguments rc_expectedGVK {W}.
Arguments rc_resyncPeriod {W}.
Arguments rc_minWatchTimeout {W}.
Arguments rc_WatchListPageSize {W}.
Arguments rc_ShouldResync {W}.
Arguments rc_UseWatchList {W}.

Record Reflector := mkReflector {
  r_paginatedResult : bool;
  r_lastSyncResourceVersion : string;
  r_isLastSyncResourceVersionUnavailable : bool;
  r_streamRV : string;
  r_open : Z;
}.

Definition new_Reflector : Reflector := mkReflector false "" false "" 0.

Definition with_paginatedResult (b : bool) (r : Reflector) : Reflector :=
  mkReflector b (r_lastSyncResourceVersion r) (r_isLastSyncResourceVersionUnavailable r) (r_streamRV r) (r_open r).
Definition with_lastSync (v : string) (r : Reflector) : Reflector :=
  mkReflector (r_paginatedResult r) v (r_isLastSyncResourceVersionUnavailable r) (r_streamRV r) (r_open r).
Definition with_unavailable (b : bool) (r : Reflector) : Reflector :=
  mkReflector (r_paginatedResult r) (r_lastSyncResourceVersion r) b (r_streamRV r) (r_open r).
Definition with_streamRV (v : string) (r : Reflector) : Reflector :=
  mkReflector (r_paginatedResult r) (r_lastSyncResourceVersion r) (r_isLastSyncResourceVersionUnavailable r) v (r_open r).
Definition add_open (d : Z) (r : Reflector) : Reflector :=
  mkReflector (r_paginatedResult r) (r_lastSyncResourceVersion r) (r_isLastSyncResourceVersionUnavailable r)
    (r_streamRV r) (r_open r + d).

(** [relistResourceVersion] and [rewatchResourceVersion] *)
Definition relistResourceVersion (r : Reflector) : string :=
  if r_isLastSyncResourceVersionUnavailable r then ""
  else if String.eqb (r_lastSyncResourceVersion r) "" then "0"
  else r_lastSyncResourceVersion r.

Definition rewatchResourceVersion (r : Reflector) : string :=
  if r_isLastSyncResourceVersionUnavailable r then "" else r_lastSyncResourceVersion r.

(** How a pass over the events of a watch ended, with the outcomes that are left. *)
Inductive watched (T : Type) :=
| Watching
| Finished (watchListBookmarkReceived : bool) (err : option GoError) (rest : list (selection T)).
Arguments Watching {T}.
Arguments Finished {T}.

Definition InitialEventsAnnotationKey : string := "k8s.io/initial-events-end".

Section Reflecting.
Context {W T : Type} `{RT : !RuntimeObject T, WE : !WatchErrors T}.
Context (cfg : ReflectorConfig W) (store : ReflectorStore W T) (env : Env W T).

(** The state: the reflector, and the world. *)
Definition RW : Type := Reflector * W.

Definition lift {A} (m : M W A) : M RW A := λ '(r, w), let '(a, w') := m w in (a, (r, w')).
Definition update_reflector (f : Reflector → Reflector) : M RW unit := modify (λ '(r, w), (f r, w)).

Definition setLastSyncResourceVersion (v : string) : M RW unit := update_reflector (with_lastSync v).
Definition setIsLastSyncResourceVersionUnavailable (b : bool) : M RW unit := update_reflector (with_unavailable b).
Definition Stop : M RW unit := update_reflector (add_open (-1)).

(** ** Events *)

(** What is known of the object of an event that is handled: of the expected type and kind,
    with metadata. *)
Definition understood (evt : Event T) : option (T * string * gmap string string) :=
  match ev_Object evt with
  | None => None
  | Some o =>
      if match rc_expectedType cfg with Some e => negb (String.eqb e (type_of o)) | None => false end then None
      else if match rc_expectedGVK cfg with Some e => negb (bool_decide (e = gvk_of o)) | None => false end then None
      else match accessor o with
           | inr _ => None
           | inl (resourceVersion, annotations) => Some (o, resourceVersion, annotations)
           end
  end.

(** The [switch] on the type; errors of the store are only reported. *)
Definition deliver (type : string) (o : T) : M W unit :=
  if String.eqb type "ADDED" then rs_Add store o ;;; ret tt
  else if String.eqb type "MODIFIED" then rs_Update store o ;;; ret tt
  else if String.eqb type "DELETED" then rs_Delete store o ;;; ret tt
  else ret tt.

Definition UpdateResourceVersion (resourceVersion : string) : M W unit :=
  match rs_UpdateResourceVersion store with Some f => f resourceVersion | None => ret tt end.

Definition is_end_bookmark (type : string) (annotations : gmap string string) : bool :=
  String.eqb type "BOOKMARK" && bool_decide (annotations !! InitialEventsAnnotationKey = Some "true").

(** The end of the loop: the watch was closed. *)
Definition watch_closed (start : Z) (bookmark : bool) (eventCount : nat) (rest : list (selection T)) : M RW (watched T) :=
  let* now := lift (en_Now env) in
  ret (Finished bookmark
         (if (now - start <? Second)%Z && (eventCount =? 0)%nat
          then Some (ErrorString ("very short watch: " +:+ rc_name cfg +:+
                      ": Unexpected watch close - watch lasted less than a second and no items received"))
          else None) rest).

(** [handleAnyWatch]; [setRV] is where the resource version goes. *)
Fixpoint handleAnyWatch (exit : bool) (setRV : string → M RW unit) (start : Z) (bookmark : bool) (eventCount : nat)
    (w : list (selection T)) : M RW (watched T) :=
  match w with
  | [] => ret Watching
  | SDone :: rest => ret (Finished bookmark (Some errorStopRequested) rest)
  | SErr err :: rest => ret (Finished bookmark (Some err) rest)
  | SClosed :: rest => watch_closed start bookmark eventCount rest
  | STick :: rest => handleAnyWatch exit setRV start bookmark eventCount rest
  | SEvent evt :: rest =>
      if String.eqb (ev_Type evt) "ERROR" then ret (Finished bookmark (Some (FromObject (ev_Object evt))) rest)
      else match understood evt with
           | None => handleAnyWatch exit setRV start bookmark eventCount rest
           | Some (o, resourceVersion, annotations) =>
               lift (deliver (ev_Type evt) o) ;;;
               setRV resourceVersion ;;;
               lift (UpdateResourceVersion resourceVersion) ;;;
               (let bookmark := bookmark || is_end_bookmark (ev_Type evt) annotations in
                if exit && bookmark then ret (Finished bookmark None rest)
                else handleAnyWatch exit setRV start bookmark (S eventCount) rest)
           end
  end.

Definition handleListWatch (setRV : string → M RW unit) (start : Z) (w : list (selection T)) : M RW (watched T) :=
  handleAnyWatch true setRV start false 0 w.

Definition handleWatch (start : Z) (w : list (selection T)) : M RW (watched T) :=
  handleAnyWatch false setLastSyncResourceVersion start false 0 w.

(** ** Lists *)

(** The size of the pages, where it is not the pager's default. *)
Definition page_size (r : Reflector) (resourceVersion : string) : option Z :=
  if negb (rc_WatchListPageSize cfg =? 0)%Z then Some (rc_WatchListPageSize cfg)
  else if r_paginatedResult r then None
  else if negb (String.eqb resourceVersion "") && negb (String.eqb resourceVersion "0") then Some 0%Z
  else None.

Definition list_options (resourceVersion : string) : MetaListOptions :=
  mkMetaListOptions resourceVersion "" None false None.

(** What the goroutine of [list] does: a list, and another if its version is not to be had. *)
Definition fetch_list : M RW (string * (ListResult T * bool * option GoError)) :=
  let* r := gets fst in
  let resourceVersion := relistResourceVersion r in
  let size := page_size r resourceVersion in
  let* '(l, paginated, err) := lift (en_List env size (list_options resourceVersion)) in
  match err with
  | Some e =>
      if isExpiredError e || isTooLargeResourceVersionError e then
        setIsLastSyncResourceVersionUnavailable true ;;;
        let* r := gets fst in
        let* again := lift (en_List env size (list_options (relistResourceVersion r))) in
        ret (resourceVersion, again)
      else ret (resourceVersion, (l, paginated, err))
  | None => ret (resourceVersion, (l, paginated, err))
  end.

(** [syncWith] *)
Definition syncWith (items : list T) (resourceVersion : string) : M W (option GoError) :=
  rs_Replace store items resourceVersion.

(** What [list] does with a list. *)
Definition take_list (l : ListResult T) : M RW (option GoError) :=
  setIsLastSyncResourceVersionUnavailable false ;;;
  match lr_ResourceVersion l, lr_Items l with
  | inr e, _ => ret (Some (ErrorString ("unable to understand list result: " +:+ Error e)))
  | _, inr e => ret (Some (ErrorString ("unable to understand list result: " +:+ Error e)))
  | inl resourceVersion, inl items =>
      let* err := lift (syncWith items resourceVersion) in
      match err with
      | Some e => ret (Some (ErrorString ("unable to sync list result: " +:+ Error e)))
      | None => setLastSyncResourceVersion resourceVersion ;;; ret None
      end
  end.

(** [list] *)
Definition list_ : M RW (option GoError) :=
  let* '(resourceVersion, (l, paginated, err)) := fetch_list in
  let* done_ := lift (en_list_done env) in
  if done_ : bool then ret None
  else match err with
       | Some e => ret (Some (WrapError ("failed to list " +:+ rc_typeDescription cfg +:+ ": ") e))
       | None =>
           (if String.eqb resourceVersion "0" && paginated
            then update_reflector (with_paginatedResult true) else ret tt) ;;;
           take_list l
       end.

(** ** Watches *)

(** Open a watch; the options are those of [watch] and of [watchList]. *)
Definition open_watch (options : Z → MetaListOptions) : M RW (list (selection T) + GoError) :=
  let* timeoutSeconds := lift (en_timeoutSeconds env (rc_minWatchTimeout cfg)) in
  let* w := lift (en_Watch env (options timeoutSeconds)) in
  match w with
  | inl s => update_reflector (add_open 1) ;;; ret (inl s)
  | inr e => ret (inr e)
  end.

Definition watch_options (r : Reflector) (timeoutSeconds : Z) : MetaListOptions :=
  mkMetaListOptions (r_lastSyncResourceVersion r) "" (Some timeoutSeconds) true None.

Definition watchList_options (r : Reflector) (timeoutSeconds : Z) : MetaListOptions :=
  mkMetaListOptions (rewatchResourceVersion r) "NotOlderThan" (Some timeoutSeconds) true (Some true).

(** Whether [watch] goes on after its events ended with an error, or returns nil. *)
Definition after_error (e : GoError) : M RW bool :=
  if ErrorsIs e errorStopRequested then ret false
  else if isExpiredError e then ret false
  else if IsTooManyRequests e then
    let* done_ := lift (en_backoff_done env) in ret (negb done_)
  else if IsInternalError e then lift (en_retry_ShouldRetry env)
  else ret false.

(** The loop of [watch]; [None] while it runs. *)
Fixpoint watch_loop (fuel : nat) (w : option (list (selection T))) : M RW (option (option GoError)) :=
  match fuel with
  | O => ret None
  | S fuel =>
      let* stop := lift (en_done env) in
      if stop : bool then match w with Some _ => Stop | None => ret tt end ;;; ret (Some None)
      else
        let* start := lift (en_Now env) in
        let* r := gets fst in
        let* opened := match w with Some s => ret (inl s) | None => open_watch (watch_options r) end in
        match opened with
        | inr e =>
            if isWatchErrorRetriable e then
              let* done_ := lift (en_backoff_done env) in
              if done_ : bool then ret (Some None) else watch_loop fuel None
            else ret (Some (Some e))
        | inl s =>
            let* res := handleWatch start s in
            match res with
            | Watching => ret None
            | Finished _ err _ =>
                Stop ;;;
                lift (en_retry_After env err) ;;;
                match err with
                | None => watch_loop fuel None
                | Some e =>
                    let* again := after_error e in
                    if again : bool then watch_loop fuel None else ret (Some None)
                end
            end
        end
  end.

(** [watch] *)
Definition watch (fuel : nat) (w : option (list (selection T))) : M RW (option (option GoError)) :=
  lift (en_retry_New env) ;;; watch_loop fuel w.

(** [isErrorRetriableWithSideEffectsFn] *)
Definition isErrorRetriableWithSideEffects (err : GoError) : M RW bool :=
  if isWatchErrorRetriable err then lift (en_backoff env) ;;; ret true
  else if isExpiredError err || isTooLargeResourceVersionError err then
    setIsLastSyncResourceVersionUnavailable true ;;; ret true
  else ret false.

(** The loop of [watchList]: the watch, or no watch and no error when it was stopped. *)
Fixpoint watchList_loop (fuel : nat) : M RW (option (option (list (selection T)) * option GoError)) :=
  match fuel with
  | O => ret None
  | S fuel =>
      let* stop := lift (en_done env) in
      if stop : bool then ret (Some (None, None))
      else
        update_reflector (with_streamRV "") ;;;
        let* r := gets fst in
        let* start := lift (en_Now env) in
        let* opened := open_watch (watchList_options r) in
        match opened with
        | inr e =>
            let* again := isErrorRetriableWithSideEffects e in
            if again : bool then watchList_loop fuel else ret (Some (None, Some e))
        | inl s =>
            let* res := handleListWatch (λ rv, update_reflector (with_streamRV rv)) start s in
            match res with
            | Watching => ret None
            | Finished _ (Some e) _ =>
                Stop ;;;
                if ErrorsIs e errorStopRequested then ret (Some (None, None))
                else
                  let* again := isErrorRetriableWithSideEffects e in
                  if again : bool then watchList_loop fuel else ret (Some (None, Some e))
            | Finished true None rest => ret (Some (Some rest, None))
            | Finished false None _ => watchList_loop fuel
            end
        end
  end.

(** [watchList] *)
Definition watchList (fuel : nat) : M RW (option (option (list (selection T)) * option GoError)) :=
  let* res := watchList_loop fuel in
  match res with
  | Some (Some w, None) =>
      setIsLastSyncResourceVersionUnavailable false ;;;
      let* r := gets fst in
      setLastSyncResourceVersion (r_streamRV r) ;;; ret (Some (Some w, None))
  | _ => ret res
  end.

(** ** Running *)

(** The part of [ListAndWatchWithContext] after the watch list. *)
Definition list_then_watch (fuel : nat) : M RW (option (option GoError)) :=
  let* err := list_ in
  match err with
  | Some e => ret (Some (Some e))
  | None => watch fuel None
  end.

(** [ListAndWatchWithContext], with [watchWithResync]; [startResync] runs beside it. *)
Definition ListAndWatch (fuel : nat) : M RW (option (option GoError)) :=
  if default false (rc_UseWatchList cfg) then
    let* res := watchList fuel in
    match res with
    | None => ret None
    | Some (None, None) => ret (Some None)
    | Some (_, Some _) => list_then_watch fuel
    | Some (Some w, None) => watch fuel (Some w)
    end
  else list_then_watch fuel.

(** [RunWithContext]: [wait.BackoffUntil] of [ListAndWatch]; the errors go to
    [watchErrorHandler], which logs them.  The result tells whether it has returned. *)
Fixpoint RunWithContext (fuel : nat) : M RW bool :=
  match fuel with
  | O => ret false
  | S fuel =>
      let* stop := lift (en_done env) in
      if stop : bool then ret true
      else
        let* res := ListAndWatch fuel in
        match res with
        | None => ret false
        | Some _ =>
            let* done_ := lift (en_backoff_done env) in
            if done_ : bool then ret true else RunWithContext fuel
        end
  end.

(** [startResync], by what its [select] gives: the timer, or the end of the context.  The
    result is the error it sends on [resyncerrc]. *)
Fixpoint startResync (ticks : list bool) : M W (option GoError) :=
  match ticks with
  | [] | false :: _ => ret None
  | true :: ticks =>
      let* should := match rc_ShouldResync cfg with Some f => f | None => ret true end in
      if should : bool then
        let* err := rs_Resync store in
        match err with Some e => ret (Some e) | None => startResync ticks end
      else startResync ticks
  end.
End Reflecting.

Arguments RW W : clear implicits.

(** ** Construction *)

(** The example object: the name of its type, and its kind when it is an
    [*unstructured.Unstructured]. *)
Record ExpectedObject := mkExpectedObject {
  eo_Type : string;
  eo_Unstructured : option (string * string * string);
}.

(** [GroupVersionKind.Empty] and [String] *)
Definition gvk_Empty (gvk : string * string * string) : bool := bool_decide (gvk = ("", "", "")).
Definition gvk_String (gvk : string * string * string) : string :=
  gvk.1.1 +:+ "/" +:+ gvk.1.2 +:+ ", Kind=" +:+ gvk.2.

Definition defaultExpectedTypeName : string := "<unspecified>".

Definition getExpectedGVKFromObject (expectedType : option ExpectedObject) : option (string * string * string) :=
  match expectedType with
  | Some (mkExpectedObject _ (Some gvk)) => if gvk_Empty gvk then None else Some gvk
  | _ => None
  end.

Definition getTypeDescriptionFromObject (expectedType : option ExpectedObject) : string :=
  match expectedType with
  | None => defaultExpectedTypeName
  | Some e => match getExpectedGVKFromObject (Some e) with
              | Some gvk => gvk_String gvk
              | None => eo_Type e
              end
  end.

Record ReflectorOptions := mkReflectorOptions {
  ro_Name : string;
  ro_TypeDescription : string;
  ro_ResyncPeriod : Z;
  ro_MinWatchTimeout : Z;
  ro_UseWatchList : option bool;
}.

Definition defaultMinWatchTimeout : Z := 5 * 60 * Second.

Definition or_default (s d : string) : string := if String.eqb s "" then d else s.

(** [NewReflectorWithOptions]; the name of the call site and the feature gate
    [WatchListClient] are client-go's. *)
Definition NewReflectorWithOptions {W} (callsite : string) (gate : bool) (expectedType : option ExpectedObject)
    (options : ReflectorOptions) : ReflectorConfig W :=
  mkReflectorConfig (or_default (ro_Name options) callsite)
    (or_default (ro_TypeDescription options) (getTypeDescriptionFromObject expectedType))
    (eo_Type <$> expectedType) (getExpectedGVKFromObject expectedType) (ro_ResyncPeriod options)
    (if (defaultMinWatchTimeout <? ro_MinWatchTimeout options)%Z then ro_MinWatchTimeout options
     else defaultMinWatchTimeout)
    0 None
    (Some (match ro_UseWatchList options with Some b => b | None => gate end)).

(** ** [Controller] ([k8s/cache/controller.go])

    The fields of its [cache.Config] it reads, beside the queue and the lister. *)
Record Controller (W : Type) := mkController {
  ct_ObjectType : option ExpectedObject;
  ct_FullResyncPeriod : Z;
  ct_MinWatchTimeout : Z;
  ct_ObjectDescription : string;
  ct_ShouldResync : option (M W bool);
  ct_UseWatchList : bool;
  ct_WatchListPageSize : Z;
}.
Arguments mkController {W}.
Arguments ct_ObjectType {W}.
Arguments ct_FullResyncPeriod {W}.
Arguments ct_MinWatchTimeout {W}.
Arguments ct_ObjectDescription {W}.
Arguments ct_ShouldResync {W}.
Arguments ct_UseWatchList {W}.
Arguments ct_WatchListPageSize {W}.

(** The reflector that [RunWithContext] makes. *)
Definition controller_reflector {W} (callsite : string) (gate : bool) (c : Controller W) : ReflectorConfig W :=
  let r : ReflectorConfig W := NewReflectorWithOptions callsite gate (ct_ObjectType c)
             (mkReflectorOptions "" (ct_ObjectDescription c) (ct_FullResyncPeriod c) (ct_MinWatchTimeout c)
                (if ct_UseWatchList c then Some true else None)) in
  mkReflectorConfig (rc_name r) (rc_typeDescription r) (rc_expectedType r) (rc_expectedGVK r) (rc_resyncPeriod r)
    (rc_minWatchTimeout r) (ct_WatchListPageSize c) (ct_ShouldResync c) (rc_UseWatchList r).

(** [LastSyncResourceVersion], before and after a reflector was made. *)
Definition Controller_LastSyncResourceVersion (r : option Reflector) : string :=
  match r with None => "" | Some r => r_lastSyncResourceVersion r end.

(** [processLoop]: whether the context has ended, closing the queue, and a pop, which tells
    whether it failed because the queue is closed.  The result tells whether it returned. *)
Fixpoint processLoop {W} (fuel : nat) (done_ : M W bool) (Close : M W unit) (Pop : M W (option (bool * GoError)))
  : M W bool :=
  match fuel with
  | O => ret false
  | S fuel =>
      let* stop := done_ in
      if stop : bool then Close ;;; ret true
      else
        let* err := Pop in
        match err with
        | Some (true, _) => ret true
        | _ => processLoop fuel done_ Close Pop
        end
  end.

(** ** What a server and a store are *)

(** A store of objects by key, whose operations succeed. *)
Class ReflectorStoreLaws {W T} (store : ReflectorStore W T) := {
  rkey : T → string;
  contents : W → gmap string T;
  Add_stores o σ : contents (rs_Add store o σ).2 = <[rkey o := o]> (contents σ);
  Update_stores o σ : contents (rs_Update store o σ).2 = <[rkey o := o]> (contents σ);
  Delete_removes o σ : contents (rs_Delete store o σ).2 = delete (rkey o) (contents σ);
  Replace_replaces items rv σ :
    (rs_Replace store items rv σ).1 = None ∧
    contents (rs_Replace store items rv σ).2 = list_to_map ((λ o, (rkey o, o)) <$> items);
  Resync_keeps m : keeps (λ σ, contents σ = m) (rs_Resync store);
  UpdateResourceVersion_keeps f rv m :
    rs_UpdateResourceVersion store = Some f → keeps (λ σ, contents σ = m) (f rv);
}.

Section Server.
Context {W T : Type} `{RT : !RuntimeObject T, WE : !WatchErrors T}.
Context (cfg : ReflectorConfig W) (store : ReflectorStore W T) (env : Env W T) `{SL : !ReflectorStoreLaws store}.

(** What an event changes. *)
Definition apply_event (type : string) (o : T) (m : gmap string T) : gmap string T :=
  if String.eqb type "ADDED" || String.eqb type "MODIFIED" then <[rkey o := o]> m
  else if String.eqb type "DELETED" then delete (rkey o) m
  else m.

(** A watch whose events lead from one version of the server's objects to the next. *)
Fixpoint follows (snapshot : string → gmap string T) (m : gmap string T) (w : list (selection T)) : Prop :=
  match w with
  | [] => True
  | SEvent e :: w =>
      ev_Type e = "ERROR" ∨
      ∃ o rv annotations, understood cfg e = Some (o, rv, annotations) ∧ rv ≠ "" ∧
        snapshot rv = apply_event (ev_Type e) o m ∧ follows snapshot (snapshot rv) w
  | _ :: w => follows snapshot m w
  end.

(** The server has a set of objects at every resource version: a list gives one, and a watch
    from a version the events after it.  Requests, back-offs and the clock leave the store
    alone, and a context that has ended stays so. *)
Class WatchedServer := {
  snapshot : string → gmap string T;
  cancelled : W → Prop;
  List_snapshot size opts σ l paginated σ' : en_List env size opts σ = ((l, paginated, None), σ') →
    match lr_ResourceVersion l, lr_Items l with
    | inl rv, inl items => rv ≠ "" ∧ snapshot rv = list_to_map ((λ o, (rkey o, o)) <$> items)
    | _, _ => True
    end;
  Watch_follows opts σ s σ' : en_Watch env opts σ = (inl s, σ') → mo_SendInitialEvents opts = None →
    follows snapshot (snapshot (mo_ResourceVersion opts)) s;
  list_done_cancelled σ : (en_list_done env σ).1 = true → cancelled (en_list_done env σ).2;
  done_cancelled σ : cancelled σ → (en_done env σ).1 = true;
  retry_New_cancelled : keeps cancelled (en_retry_New env);
  List_keeps size opts m : keeps (λ σ, contents σ = m) (en_List env size opts);
  Watch_keeps opts m : keeps (λ σ, contents σ = m) (en_Watch env opts);
  done_keeps m : keeps (λ σ, contents σ = m) (en_done env);
  list_done_keeps m : keeps (λ σ, contents σ = m) (en_list_done env);
  backoff_done_keeps m : keeps (λ σ, contents σ = m) (en_backoff_done env);
  backoff_keeps m : keeps (λ σ, contents σ = m) (en_backoff env);
  timeout_keeps z m : keeps (λ σ, contents σ = m) (en_timeoutSeconds env z);
  retry_New_keeps m : keeps (λ σ, contents σ = m) (en_retry_New env);
  retry_After_keeps err m : keeps (λ σ, contents σ = m) (en_retry_After env err);
  ShouldRetry_keeps m : keeps (λ σ, contents σ = m) (en_retry_ShouldRetry env);
  Now_keeps m : keeps (λ σ, contents σ = m) (en_Now env);
}.

Context `{WS : !WatchedServer}.

(** The store holds the objects of version [v], [k] watches are open. *)
Definition synced (v : string) (k : Z) (s : RW W) : Prop :=
  r_lastSyncResourceVersion s.1 = v ∧ contents s.2 = snapshot v ∧ r_open s.1 = k ∧ v ≠ "".

(** The same for the version the reflector is at, if any. *)
Definition mirrors (k : Z) (s : RW W) : Prop :=
  (r_lastSyncResourceVersion s.1 = "" ∨ contents s.2 = snapshot (r_lastSyncResourceVersion s.1)) ∧ r_open s.1 = k.

Definition some_synced (k : Z) (s : RW W) : Prop := ∃ v, synced v k s.

Lemma lift_run {A} (m : M W A) r σ a σ' : m σ = (a, σ') → lift m (r, σ) = (a, (r, σ')).
Proof using Type. intros E. unfold lift. by rewrite E. Qed.

(** What [lift] keeps. *)
Lemma lift_keeps {A} (R : Reflector → gmap string T → Prop) (m : M W A) :
  (∀ c, keeps (λ σ, contents σ = c) m) → keeps (λ s : RW W, R s.1 (contents s.2)) (lift m).
Proof using Type.
  intros Hm [r σ] H. unfold lift. pose proof (Hm _ σ eq_refl) as E.
  destruct (m σ) as [a σ']. simpl in *. by rewrite E.
Qed.

Lemma lift_some_synced {A} k (m : M W A) :
  (∀ c, keeps (λ σ, contents σ = c) m) → keeps (some_synced k) (lift m).
Proof using Type.
  intros Hm. apply (lift_keeps (λ r c, ∃ v, r_lastSyncResourceVersion r = v ∧ c = snapshot v ∧ r_open r = k ∧ v ≠ "")).
  exact Hm.
Qed.

Lemma lift_mirrors {A} k (m : M W A) :
  (∀ c, keeps (λ σ, contents σ = c) m) → keeps (mirrors k) (lift m).
Proof using Type.
  intros Hm.
  by apply (lift_keeps (λ r c, (r_lastSyncResourceVersion r = "" ∨ c = snapshot (r_lastSyncResourceVersion r)) ∧ r_open r = k)).
Qed.

Lemma some_synced_mirrors k s : some_synced k s → mirrors k s.
Proof using Type. intros (v & Hv & Hc & Hk & _). split; [|done]. right. by rewrite Hv. Qed.

(** ** The store follows the server *)
Lemma deliver_applies type o σ :
  contents (deliver store type o σ).2 = apply_event type o (contents σ).
Proof using Type.
  unfold deliver, apply_event. go_unfold.
  destruct (String.eqb type "ADDED"); simpl.
  { rewrite <- Add_stores. by destruct (rs_Add store o σ). }
  destruct (String.eqb type "MODIFIED"); simpl.
  { rewrite <- Update_stores. by destruct (rs_Update store o σ). }
  destruct (String.eqb type "DELETED"); [|done].
  rewrite <- Delete_removes. by destruct (rs_Delete store o σ).
Qed.

Lemma UpdateResourceVersion_quiet rv m : keeps (λ σ, contents σ = m) (UpdateResourceVersion store rv).
Proof using Type.
  unfold UpdateResourceVersion. destruct (rs_UpdateResourceVersion store) as [f|] eqn:E.
  - by apply UpdateResourceVersion_keeps.
  - by intros σ.
Qed.

Lemma handleWatch_synced k start w : ∀ v bookmark n,
  follows snapshot (snapshot v) w →
  triple (synced v k) (handleAnyWatch cfg store env false setLastSyncResourceVersion start bookmark n w)
    (λ _, some_synced k).
Proof using Type.
  induction w as [|[|e|e| |] w IH]; intros v bookmark n Hw; simpl in *;
    try (intros s Hs; by exists v); [| |by apply IH].
  - destruct (String.eqb_spec (ev_Type e) "ERROR") as [_|Hne]; [intros s Hs; by exists v|].
    destruct Hw as [?|(o & rv & ann & Hu & Hrv & Hsnap & Hw)]; [done|]. rewrite Hu.
    intros [r σ] (Hr & Hc & Hk & Hv). go_unfold. unfold lift.
    pose proof (deliver_applies (ev_Type e) o σ) as Hd. destruct (deliver store _ o σ) as [[] σ1].
    simpl in *. pose proof (UpdateResourceVersion_quiet rv _ σ1 Hd) as Hq.
    destruct (UpdateResourceVersion store rv σ1) as [[] σ2]. simpl in *.
    apply (IH rv); [exact Hw|].
    repeat split; simpl; [|done|done]. by rewrite Hq, Hc, Hsnap.
  - intros s Hs. unfold watch_closed. go_unfold.
    pose proof (lift_some_synced k (en_Now env) Now_keeps s (ex_intro _ v Hs)) as H.
    by destruct (lift (en_Now env) s) as [now s'].
Qed.

(** Anything that keeps the objects keeps what the reflector knows. *)
Hint Resolve List_keeps Watch_keeps done_keeps list_done_keeps backoff_done_keeps backoff_keeps timeout_keeps
  retry_New_keeps retry_After_keeps ShouldRetry_keeps Now_keeps : quiet.

Lemma update_mirrors k k' f :
  (∀ r, r_lastSyncResourceVersion (f r) = r_lastSyncResourceVersion r) →
  (∀ r, r_open r = k → r_open (f r) = k') →
  triple (mirrors k) (update_reflector (W:=W) f) (λ _, mirrors k').
Proof using Type.
  intros Hf Hk. apply triple_modify. intros [r σ] [Hm Ho]. split; simpl in *; [by rewrite Hf|by apply Hk].
Qed.

Lemma update_some_synced k k' f :
  (∀ r, r_lastSyncResourceVersion (f r) = r_lastSyncResourceVersion r) →
  (∀ r, r_open r = k → r_open (f r) = k') →
  triple (some_synced k) (update_reflector (W:=W) f) (λ _, some_synced k').
Proof using Type.
  intros Hf Hk. apply triple_modify. intros [r σ] (v & Hv & Hc & Ho & Hne). exists v.
  repeat split; simpl in *; [by rewrite Hf|done|by apply Hk|done].
Qed.

(** A list leaves the reflector in step with the server, or as it was, or stopped. *)
Definition listed (l : ListResult T) : Prop :=
  match lr_ResourceVersion l, lr_Items l with
  | inl rv, inl items => rv ≠ "" ∧ snapshot rv = list_to_map ((λ o, (rkey o, o)) <$> items)
  | _, _ => True
  end.

Lemma take_list_synced k l :
  listed l →
  triple (mirrors k) (take_list store l) (λ err s, match err with None => some_synced k s | Some _ => mirrors k s end).
Proof using Type.
  unfold listed. intros Hl [r σ] [Hm Hk]. unfold take_list. go_unfold. simpl in *.
  destruct (lr_ResourceVersion l) as [rv|e]; [|done]. destruct (lr_Items l) as [items|e]; [|done].
  destruct Hl as [Hne Hsnap]. unfold syncWith, lift. pose proof (Replace_replaces items rv σ) as [H1 H2].
  destruct (rs_Replace store items rv σ) as [err σ']. simpl in *. subst err.
  exists rv. repeat split; simpl; [|done|done]. by rewrite H2, Hsnap.
Qed.

Definition list_answer (k : Z) (a : ListResult T * bool * option GoError) (s : RW W) : Prop :=
  mirrors k s ∧ (a.2 = None → listed a.1.1).

Lemma request_listed k size opts :
  triple (mirrors k) (lift (en_List env size opts)) (list_answer k).
Proof using Type.
  intros [r σ] H. split; [by apply lift_mirrors; eauto with quiet|].
  unfold lift. destruct (en_List env size opts σ) as [[[l p] err] σ'] eqn:E. simpl. intros ->.
  by apply (List_snapshot _ _ _ _ _ _ E).
Qed.

Lemma fetch_list_listed k : triple (mirrors k) (fetch_list cfg env) (λ a, list_answer k a.2).
Proof using Type.
  unfold fetch_list. apply triple_seq; [by intros s|]. intros r.
  eapply triple_bind; [apply request_listed|]. intros [[l p] [e|]]; simpl.
  2:{ by apply triple_ret. }
  destruct (_ || _); [|by apply triple_ret].
  apply triple_weaken with (P' := mirrors k) (Q' := λ a, list_answer k a.2); [by intros ? []|done|].
  apply triple_seq; [by apply update_mirrors|]. intros _.
  apply triple_seq; [by intros s|]. intros r'.
  eapply triple_bind; [apply request_listed|]. intros a. by apply triple_ret.
Qed.

(** A list that ends without an error and was not stopped is in the store. *)
Definition after_list (err : option GoError) (s : RW W) : Prop :=
  mirrors 0 s ∧ (err = None → some_synced 0 s ∨ cancelled s.2).

Lemma list_synced : triple (mirrors 0) (list_ cfg store env) after_list.
Proof using Type.
  unfold list_. eapply triple_bind; [apply fetch_list_listed|]. intros [rv [[l p] err]]; simpl.
  apply triple_bind with (R := λ d s, (d = true → cancelled s.2) ∧ list_answer 0 (l, p, err) s).
  { intros [r σ] [Hm Hl]. split; [|split; [by apply lift_mirrors; eauto with quiet|done]].
    unfold lift. pose proof (list_done_cancelled σ) as H. by destruct (en_list_done env σ). }
  intros [|]. { intros s [Hd [Hm Hl]]. split; [done|]. intros _. right. by apply Hd. }
  destruct err as [e|]. { by intros s [_ [Hm Hl]]. }
  intros s [_ [Hm Hl]].
  apply (triple_bind (mirrors 0) (λ _, mirrors 0) after_list); [| |done].
  - destruct (_ && _); [by apply update_mirrors|by intros ?].
  - intros _. apply triple_weaken with (P' := mirrors 0) (Q' :=  λ err s, match err with None => some_synced 0 s | Some _ => mirrors 0 s end).
    + done.
    + intros [e|] s'; [by split|]. intros H. split; [by apply some_synced_mirrors|]. intros _. by left.
    + apply take_list_synced. by apply Hl.
Qed.

(** A watch that is opened follows the version the reflector is at. *)
Lemma open_watch_follows v :
  triple (synced v 0) (open_watch cfg env (watch_options (with_lastSync v new_Reflector)))
    (λ a s, match a with inl w => synced v 1 s ∧ follows snapshot (snapshot v) w | inr _ => synced v 0 s end).
Proof using Type.
  intros [r σ] (Hr & Hc & Hk & Hv). unfold open_watch. go_unfold. unfold lift, watch_options. simpl in *.
  pose proof (timeout_keeps (rc_minWatchTimeout cfg) _ σ Hc) as Ht.
  destruct (en_timeoutSeconds env _ σ) as [z σ1]. simpl in *.
  pose proof (Watch_keeps (mkMetaListOptions v "" (Some z) true None) _ σ1 Ht) as Hw.
  destruct (en_Watch env _ σ1) as [[w|e] σ2] eqn:E; simpl in *; [|done].
  split; [|by apply (Watch_follows _ _ _ _ E)]. repeat split; simpl; [done|done| |done]. lia.
Qed.

Lemma after_error_synced k e : keeps (some_synced k) (after_error env e).
Proof using Type.
  unfold after_error. destruct (ErrorsIs _ _); [by apply triple_ret|].
  destruct (isExpiredError e); [by apply triple_ret|]. destruct (IsTooManyRequests e).
  { apply triple_seq; [apply lift_some_synced; eauto with quiet|]. intros ?. by apply triple_ret. }
  destruct (IsInternalError e); [apply lift_some_synced; eauto with quiet | by apply triple_ret].
Qed.

(** What is known when a computation has returned, or is still running. *)
Definition still (returned : bool) (s : RW W) : Prop :=
  if returned then mirrors 0 s else ∃ k, (0 ≤ k ≤ 1)%Z ∧ mirrors k s.

Lemma still_synced b s : some_synced 0 s → still b s.
Proof using Type. intros H%some_synced_mirrors. destruct b; [done|]. exists 0%Z. by split. Qed.

Definition returned {A} (res : option A) : bool := match res with Some _ => true | None => false end.

(** One turn of [watch] with a watch that was opened. *)
Lemma handled_synced fuel start w v :
  follows snapshot (snapshot v) w →
  triple (some_synced 0) (watch_loop cfg store env fuel None) (λ res, still (returned res)) →
  triple (synced v 1)
    (let* res := handleWatch cfg store env start w in
     match res with
     | Watching => ret None
     | Finished _ err _ =>
         Stop ;;;
         lift (en_retry_After env err) ;;;
         match err with
         | None => watch_loop cfg store env fuel None
         | Some e =>
             let* again := after_error env e in
             if again : bool then watch_loop cfg store env fuel None else ret (Some None)
         end
     end) (λ res, still (returned res)).
Proof using Type.
  intros Hw IH. eapply triple_bind; [by apply handleWatch_synced|]. intros [|b err rest].
  { apply triple_ret. intros s Hs. exists 1%Z. split; [lia|]. by apply some_synced_mirrors. }
  eapply triple_bind; [apply (update_some_synced 1 0); simpl; [done|lia]|]. intros [].
  apply triple_seq; [apply lift_some_synced; eauto with quiet|]. intros [].
  destruct err as [e|]; [|done]. apply triple_seq; [apply after_error_synced|].
  intros [|]; [done|]. apply triple_ret. intros s. apply (still_synced true).
Qed.

(** One turn of [watch] in which no watch was opened. *)
Lemma not_opened_synced fuel v e :
  triple (some_synced 0) (watch_loop cfg store env fuel None) (λ res, still (returned res)) →
  triple (synced v 0)
    (if isWatchErrorRetriable e then
       let* done_ := lift (en_backoff_done env) in
       if done_ : bool then ret (Some None) else watch_loop cfg store env fuel None
     else ret (Some (Some e))) (λ res, still (returned res)).
Proof using Type.
  intros IH. destruct (isWatchErrorRetriable e).
  - apply triple_bind with (R := λ _, some_synced 0).
    + intros s Hs. apply lift_some_synced; [eauto with quiet|by exists v].
    + intros [|]; [|done]. apply triple_ret. intros s. apply (still_synced true).
  - apply triple_ret. intros s Hs. apply (still_synced true). by exists v.
Qed.

Lemma watch_loop_synced fuel :
  triple (some_synced 0) (watch_loop cfg store env fuel None) (λ res, still (returned res)).
Proof using Type.
  induction fuel as [|fuel IH]; [by apply triple_ret; intros; apply still_synced|]. simpl.
  apply triple_seq; [apply lift_some_synced; eauto with quiet|].
  intros [|]. { intros s Hs. by apply (still_synced true). }
  apply triple_seq; [apply lift_some_synced; eauto with quiet|]. intros start [r σ] [v Hs].
  go_unfold. simpl. assert (watch_options r = watch_options (with_lastSync v new_Reflector)) as ->.
  { destruct Hs as [Hr _]. unfold watch_options. simpl in *. by rewrite Hr. }
  pose proof (open_watch_follows v (r, σ) Hs) as Ho.
  destruct (open_watch cfg env _ (r, σ)) as [[w|e] s']; simpl in *.
  - destruct Ho as [Hs' Hw]. by apply (handled_synced fuel start w v Hw IH).
  - by apply (not_opened_synced fuel v e IH).
Qed.

(** A watch under a context that has ended returns at once. *)
Lemma watch_cancelled fuel r σ :
  mirrors 0 (r, σ) → cancelled σ →
  still (returned (watch cfg store env fuel None (r, σ)).1) (watch cfg store env fuel None (r, σ)).2.
Proof using Type.
  intros Hm Hc. unfold watch.
  pose proof (retry_New_cancelled σ Hc) as Hc1.
  pose proof (lift_mirrors 0 (en_retry_New env) (ltac:(eauto with quiet)) _ Hm) as Hm1.
  destruct (en_retry_New env σ) as [[] σ1] eqn:E1. rewrite (lift_run _ _ _ _ _ E1) in Hm1.
  rewrite (bind_run _ _ _ _ _ (lift_run _ _ _ _ _ E1)).
  destruct fuel as [|fuel]; simpl in *; [exists 0%Z; split; [lia|done]|].
  pose proof (done_cancelled σ1 Hc1) as Hd.
  pose proof (lift_mirrors 0 (en_done env) (ltac:(eauto with quiet)) _ Hm1) as Hm2.
  destruct (en_done env σ1) as [d σ2] eqn:E2. rewrite (lift_run _ _ _ _ _ E2) in Hm2.
  rewrite (bind_run _ _ _ _ _ (lift_run _ _ _ _ _ E2)). simpl in *. by subst d.
Qed.

Lemma list_then_watch_mirrors fuel :
  triple (mirrors 0) (list_then_watch cfg store env fuel) (λ res, still (returned res)).
Proof using Type.
  unfold list_then_watch. eapply triple_bind; [apply list_synced|]. intros [e|].
  { apply triple_ret. by intros s [Hm _]. }
  intros [r σ] [Hm Ha]. destruct (Ha eq_refl) as [Hs|Hc]; [|by apply watch_cancelled].
  apply (triple_seq (some_synced 0) (λ res, still (returned res)) (lift (en_retry_New env))); [| |done].
  - apply lift_some_synced. eauto with quiet.
  - intros []. apply watch_loop_synced.
Qed.

Lemma RunWithContext_mirrors fuel :
  default false (rc_UseWatchList cfg) = false →
  triple (mirrors 0) (RunWithContext cfg store env fuel) still.
Proof using Type.
  intros Hu. induction fuel as [|fuel IH]; simpl; [by apply triple_ret; intros s Hs; exists 0%Z; split; [lia|]|].
  apply triple_seq; [apply lift_mirrors; eauto with quiet|]. intros [|]; [by apply triple_ret|].
  unfold ListAndWatch. rewrite Hu. eapply triple_bind; [apply list_then_watch_mirrors|].
  intros [res|]; simpl; [|by apply triple_ret].
  apply triple_seq; [apply lift_mirrors; eauto with quiet|]. intros [|]; [by apply triple_ret|done].
Qed.
End Server.

(** ** The watch list *)
Section WatchList.
Context {W T : Type} `{RT : !RuntimeObject T, WE : !WatchErrors T}.
Context (cfg : ReflectorConfig W) (store : ReflectorStore W T) (env : Env W T) `{SL : !ReflectorStoreLaws store}.
Context `{WS : !WatchedServer cfg store env}.

(** A watch none of whose events is a deletion, as the initial events of a watch list. *)
Definition no_deletions (w : list (selection T)) : Prop :=
  Forall (λ s, match s with SEvent e => ev_Type e ≠ "DELETED" | _ => True end) w.

(** The store has objects under the keys of [D]. *)
Definition has (D : gset string) (s : RW W) : Prop := D ⊆ dom (contents s.2).

Lemma lift_has {A} D (m : M W A) : (∀ c, keeps (λ σ, contents σ = c) m) → keeps (has D) (lift m).
Proof using Type. intros Hm. by apply (lift_keeps store (λ _ c, D ⊆ dom c)). Qed.

Lemma update_has D f : keeps (has D) (update_reflector (W:=W) f).
Proof using Type. by intros [r σ]. Qed.

Lemma deliver_has D type o : type ≠ "DELETED" → keeps (has D) (lift (deliver store type o)).
Proof using Type.
  intros Ht [r σ] H. unfold has in *. destruct (deliver store type o σ) as [[] σ'] eqn:E.
  rewrite (lift_run _ _ _ _ _ E). simpl in *. replace σ' with (deliver store type o σ).2 by by rewrite E.
  rewrite deliver_applies. unfold apply_event. destruct (_ || _); [set_solver|].
  destruct (String.eqb_spec type "DELETED"); [done|set_solver].
Qed.

Lemma handleAnyWatch_has D exit f start w : ∀ bookmark n, no_deletions w →
  keeps (has D) (handleAnyWatch cfg store env exit (λ rv, update_reflector (f rv)) start bookmark n w).
Proof using WS.
  induction w as [|s w IH]; intros bookmark n Hw; simpl; [by apply triple_ret|].
  inversion Hw as [|? ? Hs Hw']; subst.
  destruct s as [|e|e| |]; try (by apply triple_ret); [| |by apply IH].
  - destruct (String.eqb _ "ERROR"); [by apply triple_ret|].
    destruct (understood cfg e) as [[[o rv] ann]|]; [|by apply IH].
    apply triple_seq; [by apply deliver_has|]. intros []. apply triple_seq; [apply update_has|]. intros [].
    apply triple_seq; [apply lift_has, UpdateResourceVersion_quiet|]. intros [].
    destruct (_ && _); [by apply triple_ret|by apply IH].
  - apply triple_seq; [apply lift_has; eauto using Now_keeps|]. intros ?. by apply triple_ret.
Qed.

Lemma open_watch_has D opts :
  (∀ z, mo_SendInitialEvents (opts z) = Some true) →
  (∀ opts σ w σ', mo_SendInitialEvents opts = Some true → en_Watch env opts σ = (inl w, σ') → no_deletions w) →
  triple (has D) (open_watch cfg env opts)
    (λ res s, match res with inl w => no_deletions w | inr _ => True end ∧ has D s).
Proof using WS.
  intros Ho Hn. unfold open_watch. apply triple_seq; [apply lift_has; eauto using timeout_keeps|]. intros z.
  intros [r σ] H. go_unfold. pose proof (lift_has D (en_Watch env (opts z)) (Watch_keeps cfg store env _) _ H) as Hw.
  destruct (en_Watch env (opts z) σ) as [[w|e] σ'] eqn:E; rewrite (lift_run _ _ _ _ _ E) in *; simpl in *; [|done].
  split; [|done]. by apply (Hn _ _ _ _ (Ho z) E).
Qed.

Lemma retriable_has D e : keeps (has D) (isErrorRetriableWithSideEffects env e).
Proof using WS.
  unfold isErrorRetriableWithSideEffects. destruct (isWatchErrorRetriable e).
  { apply triple_seq; [apply lift_has; eauto using backoff_keeps|]. intros []. by apply triple_ret. }
  destruct (_ || _); [|by apply triple_ret]. apply triple_seq; [apply update_has|]. intros []. by apply triple_ret.
Qed.

Lemma watchList_loop_has D fuel :
  (∀ opts σ w σ', mo_SendInitialEvents opts = Some true → en_Watch env opts σ = (inl w, σ') → no_deletions w) →
  keeps (has D) (watchList_loop cfg store env fuel).
Proof using WS.
  intros Hn. induction fuel as [|fuel IH]; simpl; [by apply triple_ret|].
  apply triple_seq; [apply lift_has; eauto using done_keeps|]. intros [|]; [by apply triple_ret|].
  apply triple_seq; [apply update_has|]. intros []. apply triple_seq; [by intros s|]. intros r.
  apply triple_seq; [apply lift_has; eauto using Now_keeps|]. intros start.
  eapply triple_bind; [by apply open_watch_has|]. intros [w|e]; apply triple_pure; intros Hw.
  - apply triple_seq; [by apply handleAnyWatch_has|]. intros [|b err rest]; [by apply triple_ret|].
    destruct b, err as [e|]; try done; try (by apply triple_ret);
      (apply triple_seq; [apply update_has|]; intros []; destruct (ErrorsIs _ _); [by apply triple_ret|];
       apply triple_seq; [apply retriable_has|]; intros [|]; [done|by apply triple_ret]).
  - apply triple_seq; [apply retriable_has|]. intros [|]; [done|by apply triple_ret].
Qed.

Lemma watchList_has D fuel :
  (∀ opts σ w σ', mo_SendInitialEvents opts = Some true → en_Watch env opts σ = (inl w, σ') → no_deletions w) →
  keeps (has D) (watchList cfg store env fuel).
Proof using WS.
  intros Hn. unfold watchList. apply triple_seq; [by apply watchList_loop_has|].
  intros [[[w|] [e|]]|]; try (by apply triple_ret).
  apply triple_seq; [apply update_has|]. intros []. apply triple_seq; [by intros s|]. intros r.
  apply triple_seq; [apply update_has|]. intros []. by apply triple_ret.
Qed.
End WatchList.

Arguments snapshot {W T RT cfg store env SL WatchedServer}.

(** ** Properties *)

(** C13: However long a reflector that lists and watches has run, the store holds exactly the
    objects the server had at the version [LastSyncResourceVersion] gives, lost watches,
    expired versions and failed requests included; at most one watch is open, and none
    once it has returned. *)
Theorem reflector_mirrors {W T} `{RT : !RuntimeObject T, WE : !WatchErrors T} (cfg : ReflectorConfig W)
    (store : ReflectorStore W T) (env : Env W T) `{SL : !ReflectorStoreLaws store, WS : !WatchedServer cfg store env}
    fuel σ ended r σ' :
  default false (rc_UseWatchList cfg) = false →
  RunWithContext cfg store env fuel (new_Reflector, σ) = (ended, (r, σ')) →
  (r_lastSyncResourceVersion r = "" ∨ contents σ' = snapshot (r_lastSyncResourceVersion r)) ∧
  (0 ≤ r_open r ≤ 1)%Z ∧ (ended = true → r_open r = 0%Z).
Proof.
  intros Hu E. assert (still cfg store env ended (r, σ')) as H.
  { eapply triple_run; [by apply RunWithContext_mirrors| |exact E]. by split; [left|]. }
  destruct ended; [destruct H as [Hm Ho]|destruct H as (k & Hk & Hm & Ho)]; simpl in *; repeat split; naive_solver lia.
Qed.

(** When the version a list is asked for has expired, or is too large, the list is asked for
    again without one, and what that gives is in the store. *)
Theorem expired_list_recovers {W T} `{RT : !RuntimeObject T, WE : !WatchErrors T} (cfg : ReflectorConfig W)
    (store : ReflectorStore W T) (env : Env W T) `{SL : !ReflectorStoreLaws store} r σ
    l p e σ1 rv items p' σ2 σ3 :
  let version := relistResourceVersion r in
  let size := page_size cfg r version in
  en_List env size (list_options version) σ = ((l, p, Some e), σ1) →
  isExpiredError e = true ∨ isTooLargeResourceVersionError e = true →
  en_List env size (list_options "") σ1 = ((mkListResult (inl rv) (inl items), p', None), σ2) →
  en_list_done env σ2 = (false, σ3) →
  ∃ r' σ', list_ cfg store env (r, σ) = (None, (r', σ')) ∧
    r_lastSyncResourceVersion r' = rv ∧ r_isLastSyncResourceVersionUnavailable r' = false ∧
    contents σ' = list_to_map ((λ o, (rkey o, o)) <$> items).
Proof.
  intros version size E1 He E2 E3.
  assert (isExpiredError e || isTooLargeResourceVersionError e = true) as Hb by (by apply orb_true_iff).
  pose proof (Replace_replaces items rv σ3) as [H1 H2].
  destruct (rs_Replace store items rv σ3) as [err σ4] eqn:E4. simpl in H1, H2. subst err.
  exists (with_lastSync rv (with_unavailable false
    (if String.eqb version "0" && p' then with_paginatedResult true (with_unavailable true r) else with_unavailable true r))), σ4.
  split; [|split; [|split; [|exact H2]]].
  - assert (fetch_list cfg env (r, σ) =
      ((version, (mkListResult (inl rv) (inl items), p', None)), (with_unavailable true r, σ2))) as Ef.
    { unfold fetch_list. rewrite (bind_run _ _ _ r (r, σ)) by done. fold version size.
      rewrite (bind_run _ _ _ _ _ (lift_run _ _ _ _ _ E1)). simpl. rewrite Hb.
      unfold setIsLastSyncResourceVersionUnavailable, update_reflector. go_unfold. unfold lift. simpl.
      change (relistResourceVersion (with_unavailable true r)) with "". by rewrite E2. }
    unfold list_. erewrite bind_run; [|exact Ef]. simpl. erewrite bind_run; [|exact (lift_run _ _ _ _ _ E3)].
    unfold take_list, syncWith, setLastSyncResourceVersion, setIsLastSyncResourceVersionUnavailable, update_reflector.
    go_unfold. unfold lift. destruct (_ && _); simpl; rewrite E4; reflexivity.
  - done.
  - done.
Qed.

(** A watch list that succeeds leaves in the store every object that was there, also those
    the server no longer has: it adds what is streamed and replaces nothing. *)
Theorem watchList_keeps_deleted {W T} `{RT : !RuntimeObject T, WE : !WatchErrors T} (cfg : ReflectorConfig W)
    (store : ReflectorStore W T) (env : Env W T) `{SL : !ReflectorStoreLaws store, WS : !WatchedServer cfg store env}
    fuel r σ w r' σ' k :
  (∀ opts σ w σ', mo_SendInitialEvents opts = Some true → en_Watch env opts σ = (inl w, σ') → no_deletions w) →
  watchList cfg store env fuel (r, σ) = (Some (Some w, None), (r', σ')) →
  k ∈ dom (contents σ) → snapshot (r_lastSyncResourceVersion r') !! k = None →
  contents σ' ≠ snapshot (r_lastSyncResourceVersion r').
Proof.
  intros Hn E Hk Hgone Heq. assert (has store {[k]} (r', σ')) as H.
  { change (r', σ') with (Some (Some w, @None GoError), (r', σ')).2. rewrite <- E.
    eapply watchList_has; [exact WS|exact Hn|]. unfold has. set_solver. }
  unfold has in H. simpl in H. rewrite Heq in H. apply not_elem_of_dom in Hgone. set_solver.
Qed.

(** The resync goroutine asks for a resync at a tick unless it is told not to, and ends with
    the first error; the objects stay the same. *)
Theorem startResync_keeps {W T} (cfg : ReflectorConfig W) (store : ReflectorStore W T)
    `{SL : !ReflectorStoreLaws store} ticks m :
  (∀ f, rc_ShouldResync cfg = Some f → keeps (λ σ, contents σ = m) f) →
  keeps (λ σ, contents σ = m) (startResync cfg store ticks).
Proof.
  intros Hf. induction ticks as [|[|] ticks IH]; simpl; try (by apply triple_ret).
  apply triple_seq. { destruct (rc_ShouldResync cfg) as [f|]; [by apply Hf|by apply triple_ret]. }
  intros [|]; [|done]. apply triple_seq; [apply Resync_keeps|]. intros [e|]; [by apply triple_ret|done].
Qed.

(** ** Witnesses *)
Record TestThing := mkTestThing { tt_key : string; tt_rv : string; tt_end : bool }.

#[export] Instance TestThing_object : RuntimeObject TestThing := {
  type_of _ := "T";
  gvk_of _ := ("", "", "");
  accessor o := inl (tt_rv o, if tt_end o then {[InitialEventsAnnotationKey := "true"]} else ∅);
}.

#[export] Instance Test_WatchErrors : WatchErrors TestThing := {
  IsResourceExpired e := bool_decide (e = ErrorString "expired");
  IsGone _ := false;
  IsTimeout _ := false;
  IsTooManyRequests _ := false;
  IsInternalError _ := false;
  IsConnectionRefused _ := false;
  HasStatusCause _ _ := false;
  status_details _ := None;
  FromObject _ := ErrorString "expired";
}.

Definition test_store : ReflectorStore (gmap string TestThing) TestThing :=
  let put o σ := (None, <[tt_key o := o]> σ) in
  mkReflectorStore put put (λ o σ, (None, delete (tt_key o) σ))
    (λ items _ _, (None, list_to_map ((λ o, (tt_key o, o)) <$> items))) (λ σ, (None, σ)) None.

Definition thing (k rv : string) : TestThing := mkTestThing k rv false.

(** The versions of a server: an object, then another, then the first is deleted. *)
Definition test_snapshot (rv : string) : gmap string TestThing :=
  if String.eqb rv "1" then {["a" := thing "a" "1"]}
  else if String.eqb rv "2" then <["b" := thing "b" "2"]> {["a" := thing "a" "1"]}
  else if String.eqb rv "3" then delete "a" (<["b" := thing "b" "2"]> {["a" := thing "a" "1"]})
  else ∅.

Definition test_list (rv : string) : ListResult TestThing * bool * option GoError :=
  if String.eqb rv "9" then (mkListResult (inl "") (inl []), false, Some (ErrorString "expired"))
  else (mkListResult (inl "1") (inl [thing "a" "1"]), false, None).

Definition test_events (opts : MetaListOptions) : list (selection TestThing) :=
  match mo_SendInitialEvents opts with
  | Some _ => [SEvent (mkEvent "BOOKMARK" (Some (mkTestThing "" "4" true)))]
  | None =>
      if String.eqb (mo_ResourceVersion opts) "1" then
        [SEvent (mkEvent "ADDED" (Some (thing "b" "2"))); STick;
         SEvent (mkEvent "DELETED" (Some (thing "a" "3"))); SClosed]
      else [SDone]
  end.

Definition test_env : Env (gmap string TestThing) TestThing :=
  mkEnv (λ _ opts, ret (test_list (mo_ResourceVersion opts))) (λ opts, ret (inl (test_events opts)))
    (ret false) (ret false) (ret true) (ret tt) (λ z, ret z) (ret tt) (λ _, ret tt) (ret false) (ret 0%Z).

Definition test_reflector (watchlist : bool) : ReflectorConfig (gmap string TestThing) :=
  NewReflectorWithOptions "test" true (Some (mkExpectedObject "T" None)) (mkReflectorOptions "" "" 0 0 (Some watchlist)).

#[export] Instance test_store_laws : ReflectorStoreLaws test_store.
Proof.
  refine {| rkey := tt_key; contents σ := σ |}; try done.
  - by intros m σ.
Defined.

#[export] Instance test_server b : WatchedServer (test_reflector b) test_store test_env.
Proof.
  refine {| snapshot := test_snapshot; cancelled _ := False |}; try done; try (intros; by intros ?).
  - intros size [rv ? ? ? ?] σ l p σ'. unfold test_env, test_list, ret. simpl.
    destruct (String.eqb rv "9"); [done|]. intros [= <- <- <-]. by split.
  - intros [rv ? ? ? si] σ s σ' [= <- <-]. simpl. intros ->. unfold test_events. simpl.
    destruct (String.eqb_spec rv "1") as [->|_]; [|done]. simpl. right.
    eexists _, _, _. split; [done|]. split; [done|]. split; [reflexivity|]. right.
    eexists _, _, _. split; [done|]. split; [done|]. by split.
Defined.

Lemma reflector_mirrors_witness :
  let '(ended, (r, σ)) := RunWithContext (test_reflector false) test_store test_env 4 (new_Reflector, ∅) in
  (ended = true ∧ r_lastSyncResourceVersion r = "3") ∧
  (r_lastSyncResourceVersion r = "" ∨ contents σ = test_snapshot (r_lastSyncResourceVersion r)) ∧
  (0 ≤ r_open r ≤ 1)%Z ∧ (ended = true → r_open r = 0%Z).
Proof.
  destruct (RunWithContext _ _ _ _ _) as [ended [r σ]] eqn:E. split.
  - revert E. vm_compute. by intros [= <- <- _].
  - exact (reflector_mirrors (WS:=test_server false) _ test_store test_env 4 ∅ ended r σ eq_refl E).
Defined.

Definition lagging_reflector : Reflector := mkReflector false "9" false "" 0.

Lemma expired_list_recovers_witness :
  ∃ r' σ', list_ (test_reflector false) test_store test_env (lagging_reflector, ∅) = (None, (r', σ')) ∧
    r_lastSyncResourceVersion r' = "1" ∧ r_isLastSyncResourceVersionUnavailable r' = false ∧
    contents σ' = list_to_map ((λ o, (rkey o, o)) <$> [thing "a" "1"]).
Proof.
  apply (expired_list_recovers (test_reflector false) test_store test_env lagging_reflector ∅
    (mkListResult (inl "") (inl [])) false (ErrorString "expired") ∅ "1" [thing "a" "1"] false ∅ ∅).
  - reflexivity.
  - left. vm_compute. reflexivity.
  - reflexivity.
  - reflexivity.
Defined.

Lemma watchList_keeps_deleted_witness :
  let '(res, (r, σ)) := watchList (test_reflector true) test_store test_env 1 (new_Reflector, {["a" := thing "a" "1"]}) in
  res = Some (Some [], None) ∧ contents σ ≠ test_snapshot (r_lastSyncResourceVersion r).
Proof.
  destruct (watchList _ _ _ _ _) as [res [r σ]] eqn:E.
  assert (res = Some (Some [], None)) as ->. { revert E. vm_compute. congruence. }
  assert (r_lastSyncResourceVersion r = "4") as Hr. { revert E. vm_compute. by intros [= <- _]. }
  split; [done|].
  eapply (watchList_keeps_deleted (WS:=test_server true) _ test_store test_env _ _ _ _ _ _ "a"); [|exact E| |].
  - intros opts σ0 w σ1 Hs [= <- _]. unfold test_events. rewrite Hs. by repeat constructor.
  - vm_compute; reflexivity.
  - by rewrite Hr.
Defined.
