(* ===== verification/Dynamic.v ===== *)
(** * The dynamic client ([k8s/dynamic.go])

    [DynamicPatcher] sends JSON patches for a kind to the version the API server prefers,
    which it learns by discovery and caches.  The discovery client and the dynamic client
    are a class; the patcher is a state beside the world.  The mutex
    and the single flight let one caller at a time refresh the cache.  The map of preferred
    resources is not nil: [NewDynamicPatcher], the only constructor, makes it. *)
From S2P Require Import Prelude GoValues Resource ResourceWatcher Client Concrete KubeErrors Translation Webhooks.

#[local] Open Scope string_scope.
#[local] Open Scope list_scope.

(** ** Discovery *)

(** [metav1.APIResource] and [metav1.APIResourceList] *)
Record APIResource := mkAPIResource {
  res_Name : string;
  res_Namespaced : bool;
  res_Group : string;
  res_Version : string;
  res_Kind : string;
}.

Record APIResourceList := mkAPIResourceList {
  rl_GroupVersion : string;
  rl_APIResources : list APIResource;
}.

(** [discovery.DiscoveryClient], [dynamic.DynamicClient] (a request names the resource, the
    namespace of a namespaced one, and the object; an object it returns is new), and
    [schema.ParseGroupVersion]. *)
Class DynamicClient (W : Type) := {
  ServerPreferredResources : M W (list APIResourceList * option GoError);
  ParseGroupVersion : string → (string * string) + GoError;
  dyn_Patch : string * string * string → option string → string → string → PatchOptions →
              M W (Ref + GoError);
  dyn_Get : string * string * string → option string → string → M W (Ref + GoError);
}.

(** [DynamicPatcher] *)
Record DynamicPatcher := mkDynamicPatcher {
  preferred : gmap string APIResource;
  lastUpdate : Z;
  updateInterval : Z;
}.

Section Dynamic.
Context {W : Type} `{WW : !World W, DC : !DynamicClient W, OM : !ObjectMetaFields, PJ : !PatchJSON, KN : !KindNames}.

(** [NewDynamicPatcher], of the clients of the class. *)
Definition NewDynamicPatcher (cacheUpdateInterval : Z) : DynamicPatcher :=
  mkDynamicPatcher ∅ 0 cacheUpdateInterval.

(** A computation on the patcher and the world. *)
Definition on_world {A} (m : M W A) : M (DynamicPatcher * W) A := λ '(d, w),
  let '(a, w') := m w in (a, (d, w')).

(** The resource with the defaults of its list, and its key. *)
Definition defaulted (gv : string * string) (res : APIResource) : APIResource :=
  mkAPIResource (res_Name res) (res_Namespaced res)
    (if String.eqb (res_Group res) "" then gv.1 else res_Group res)
    (if String.eqb (res_Version res) "" then gv.2 else res_Version res) (res_Kind res).

Definition add_resource (gv : string * string) (m : gmap string APIResource) (res : APIResource)
  : gmap string APIResource :=
  <[GroupKind_String gv.1 (res_Kind res) := defaulted gv res]> m.

(** [for _, pref := range preferred]: what the map has become, and the error. *)
Fixpoint add_lists (lists : list APIResourceList) (m : gmap string APIResource)
  : gmap string APIResource * option GoError :=
  match lists with
  | [] => (m, None)
  | pref :: lists =>
      match ParseGroupVersion (rl_GroupVersion pref) with
      | inr e => (m, Some e)
      | inl gv => add_lists lists (fold_left (add_resource gv) (rl_APIResources pref) m)
      end
  end.

(** The error of a discovery without results: the API status in it, or the error wrapped. *)
Definition discovery_error (e : GoError) : GoError :=
  match AsStatusError e with
  | Some st => StatusError st
  | None => WrapError "error getting preferred resources from discovery client: " e
  end.

(** [updatePreferred]; partial results are used, with a warning. *)
Definition updatePreferred : M (DynamicPatcher * W) (option GoError) :=
  let* '(lists, err) := on_world ServerPreferredResources in
  match err, lists with
  | Some e, [] => ret (Some (discovery_error e))
  | _, _ =>
      let* d := gets fst in
      match add_lists lists (preferred d) with
      | (m, Some e) =>
          modify (λ '(d, w), (mkDynamicPatcher m (lastUpdate d) (updateInterval d), w)) ;;;
          ret (Some e)
      | (m, None) =>
          let* t := on_world Now in
          modify (λ '(d, w), (mkDynamicPatcher m t (updateInterval d), w)) ;;;
          ret None
      end
  end.

Definition ForceRefresh : M (DynamicPatcher * W) (option GoError) := updatePreferred.

(** [check-cache-update]: refresh the cache when it is older than the interval. *)
Definition check_update : M (DynamicPatcher * W) (option GoError) :=
  let* d := gets fst in
  if (0 <=? updateInterval d)%Z then
    let* t := on_world Now in
    if (lastUpdate d <? t - updateInterval d)%Z then updatePreferred else ret None
  else ret None.

(** The lookup in the cache. *)
Definition lookup_preferred (d : DynamicPatcher) (group kind : string) : APIResource + GoError :=
  match preferred d !! GroupKind_String group kind with
  | None => inr (ErrorString ("preferred resource not found for kind '" +:+
                   GroupKind_String group kind +:+ "'"))
  | Some res => inl res
  end.

(** [getPreferred] *)
Definition getPreferred (group kind : string) : M (DynamicPatcher * W) (APIResource + GoError) :=
  let* err := check_update in
  match err with
  | Some e => ret (inr e)
  | None => gets (λ '(d, _), lookup_preferred d group kind)
  end.

(** [parseError]: a status error is returned as a [ServerResponseError]. *)
Definition parseError (err : GoError) : GoError :=
  match AsStatusError err with
  | Some st => ServerResponseError (StatusError st) (st_Code st)
  | None => err
  end.

Definition gvr_of (res : APIResource) : string * string * string :=
  (res_Group res, res_Version res, res_Name res).

Definition namespace_of (res : APIResource) (identifier : Identifier) : option string :=
  if res_Namespaced res then Some (id_Namespace identifier) else None.

(** [DynamicPatcher.Patch] and [Get] *)
Definition Dynamic_Patch (group kind : string) (identifier : Identifier) (patch : PatchRequest)
    (opts : PatchOptions) : M (DynamicPatcher * W) (Ref + GoError) :=
  let* pref := getPreferred group kind in
  match pref with
  | inr e => ret (inr e)
  | inl res =>
      match marshalJSONPatch patch with
      | (inr e, _) => ret (inr (WrapError "failed to marshal patch: " e))
      | (inl data, _) =>
          let* r := on_world (dyn_Patch (gvr_of res) (namespace_of res identifier) (id_Name identifier) data opts) in
          ret match r with inr e => inr (parseError e) | inl o => inl o end
      end
  end.

Definition Dynamic_Get (group kind : string) (identifier : Identifier)
  : M (DynamicPatcher * W) (Ref + GoError) :=
  let* pref := getPreferred group kind in
  match pref with
  | inr e => ret (inr e)
  | inl res =>
      let* r := on_world (dyn_Get (gvr_of res) (namespace_of res identifier) (id_Name identifier)) in
      ret match r with inr e => inr (parseError e) | inl o => inl o end
  end.
End Dynamic.

(** ** The cache *)
Section Cache.
Context {W : Type} `{WW : !World W, DC : !DynamicClient W, OM : !ObjectMetaFields, PJ : !PatchJSON, KN : !KindNames}.

(** Within the interval the cache is used; there is no discovery. *)
Lemma getPreferred_cached group kind d σ t σ1 :
  (0 ≤ updateInterval d)%Z → Now σ = (t, σ1) → (t - updateInterval d ≤ lastUpdate d)%Z →
  getPreferred group kind (d, σ) = (lookup_preferred d group kind, (d, σ1)).
Proof.
  intros Hi Hn Hl. unfold getPreferred, check_update, bind, gets, on_world. simpl.
  rewrite (proj2 (Z.leb_le _ _) Hi), Hn, (proj2 (Z.ltb_ge _ _) Hl). done.
Qed.

(** A cache with a negative interval is never filled, although the constructor's comment
    promises an update on the first request: a new patcher finds no kind at all. *)
Theorem negative_interval_finds_nothing group kind interval σ :
  (interval < 0)%Z →
  getPreferred group kind (NewDynamicPatcher interval, σ) =
    (inr (ErrorString ("preferred resource not found for kind '" +:+
            GroupKind_String group kind +:+ "'")), (NewDynamicPatcher interval, σ)).
Proof.
  intros Hi. unfold getPreferred, check_update, bind, gets, on_world. simpl.
  rewrite (proj2 (Z.leb_gt _ _) Hi). unfold ret, lookup_preferred. simpl. by rewrite lookup_empty.
Qed.

(** The resources of a discovery, with the group and version of their lists. *)
Definition discovered (lists : list APIResourceList) : list ((string * string) * APIResource) :=
  lists ≫= λ l, match ParseGroupVersion (rl_GroupVersion l) with
                | inl gv => (gv,.) <$> rl_APIResources l
                | inr _ => []
                end.

Definition add_all (rs : list ((string * string) * APIResource)) (m : gmap string APIResource) :=
  fold_left (λ m '(gv, r), add_resource gv m r) rs m.

Lemma add_lists_all lists m m' :
  add_lists lists m = (m', None) → m' = add_all (discovered lists) m.
Proof.
  revert m. induction lists as [|l lists IH]; intros m; simpl; [by intros [= ->]|].
  unfold discovered. simpl. destruct (ParseGroupVersion _) as [gv|]; [|done].
  intros ->%IH. unfold add_all at 2. rewrite fold_left_app. f_equal.
  generalize (rl_APIResources l) m. intros rs. induction rs as [|r rs IHrs]; intros m0; [done|].
  simpl. apply IHrs.
Qed.

(** After a refresh the preferred resource of a kind is the last one discovered for it, and
    one cached before when none was. *)
Lemma add_all_lookup rs m key :
  add_all rs m !! key =
    match filter (λ x, GroupKind_String x.1.1 (res_Kind x.2) = key) (reverse rs) with
    | x :: _ => Some (defaulted x.1 x.2)
    | [] => m !! key
    end.
Proof.
  revert m. induction rs as [|[gv r] rs IH] using rev_ind; intros m; [done|].
  unfold add_all. rewrite fold_left_app. simpl. fold (add_all rs m). unfold add_resource.
  rewrite reverse_app. simpl. destruct (decide (GroupKind_String gv.1 (res_Kind r) = key)) as [<-|Hne].
  - by rewrite lookup_insert_eq, filter_cons_True.
  - rewrite lookup_insert_ne by done. rewrite filter_cons_False by done. apply IH.
Qed.

Lemma getPreferred_refreshed group kind d σ t σ1 lists σ2 m t2 σ3 :
  (0 ≤ updateInterval d)%Z → Now σ = (t, σ1) → (lastUpdate d < t - updateInterval d)%Z →
  ServerPreferredResources σ1 = ((lists, None), σ2) → add_lists lists (preferred d) = (m, None) →
  Now σ2 = (t2, σ3) →
  getPreferred group kind (d, σ) =
    (lookup_preferred (mkDynamicPatcher m t2 (updateInterval d)) group kind,
     (mkDynamicPatcher m t2 (updateInterval d), σ3)).
Proof.
  intros Hi Hn Hl Hs Ha Hn2. unfold getPreferred, check_update, updatePreferred, bind, gets, on_world. simpl.
  rewrite (proj2 (Z.leb_le _ _) Hi), Hn, (proj2 (Z.ltb_lt _ _) Hl), Hs. simpl. rewrite Ha, Hn2. done.
Qed.
End Cache.
