(* ===== verification/App.v ===== *)
(** * Apps ([app/app.go])

    The interface through which a runner drives an app, and the requests it passes.  A
    request is a value; objects in it are references. *)
From S2P Require Import Prelude GoValues Resource ResourceWatcher Schema Admission Webhooks Runners VersionSchema Manifest.

#[local] Open Scope string_scope.
#[local] Open Scope list_scope.

Definition ErrNotImplemented : GoError := ErrorString "not implemented".
Definition ErrCustomRouteNotFound : GoError := ErrorString "custom route not found".

Record RawObject := mkRawObject {
  ro_Raw : string;
  ro_Object : Obj;
  ro_Encoding : string;
}.

(** [app.ConversionRequest] *)
Record AppConversionRequest := mkAppConversionRequest {
  acr_SourceGVK : GVK;
  acr_TargetGVK : GVK;
  acr_Raw : RawObject;
}.

(** [CustomRouteRequest]; the URL and the body are only passed on. *)
Record CustomRouteRequest := mkCustomRouteRequest {
  crr_ResourceIdentifier : FullIdentifier;
  crr_Path : string;
  crr_URL : string;
  crr_Method : string;
  crr_Headers : gmap string (list string);
  crr_Body : string;
}.

(** A [CustomRouteResponseWriter], by identity: what is written is part of the world. *)
Abbreviation ResponseWriter := nat (only parsing).

(** [app.AdmissionRequest] and [app.MutatingResponse] are the types of [resource] under
    other names. *)

(** The interface [App] *)
Record App (W : Type) := mkApp {
  app_Validate : AdmissionRequest → MP W (option GoError);
  app_Mutate : AdmissionRequest → MP W (option MutatingResponse * option GoError);
  app_Convert : AppConversionRequest → MP W (option RawObject * option GoError);
  app_CallCustomRoute : ResponseWriter → CustomRouteRequest → MP W (option GoError);
  app_ManagedKinds : list (Kind (W:=W));
  app_Runner : option Runnable;
  app_PrometheusCollectors : list Collector;
  app_HealthChecks : list nat;
}.
Arguments mkApp {W}.
Arguments app_Validate {W}.
Arguments app_Mutate {W}.
Arguments app_Convert {W}.
Arguments app_CallCustomRoute {W}.
Arguments app_ManagedKinds {W}.
Arguments app_Runner {W}.
Arguments app_PrometheusCollectors {W}.
Arguments app_HealthChecks {W}.

Section Providers.
Context {W PathProps RouteSchema G KubeConfig Specific : Type}.

(** [Config] *)
Record Config := mkProviderConfig {
  cfg_KubeConfig : KubeConfig;
  cfg_ManifestData : ManifestData PathProps RouteSchema G;
  cfg_SpecificConfig : Specific;
}.

(** The interface [Provider] *)
Record Provider := mkProvider {
  pv_Manifest : Manifest (PathProps:=PathProps) (RouteSchema:=RouteSchema) (G:=G);
  pv_SpecificConfig : Specific;
  pv_NewApp : Config → M W (App W + GoError);
}.
End Providers.
