(* ===== verification/SimpleApp.v ===== *)
(** * The simple app ([simple/app.go])

    [simple.App] routes the calls of a runner to the validators, mutators, converters and
    route handlers it was configured with, and wires the watchers and reconcilers of its
    kinds into an informer controller.  The informer controller is a state beside the
    world.  Informer suppliers, the client registry and the dynamic patcher are arguments;
    Go maps in the configuration are lists of their entries, in the order in which they are
    ranged over. *)
From S2P Require Import Prelude GoValues Resource ResourceWatcher RetryPolicy Schema Client Concrete Finalizers Reconciler.
From S2P Require Import OpinionatedWatcher Runners InformerController CustomCache VersionSchema Manifest.
From S2P Require Import Admission Webhooks Dynamic App.

#[local] Open Scope string_scope.
#[local] Open Scope list_scope.

(** ** [watchPatcher] *)

(** [k8s.DynamicKindPatcher]: [Patch] and [Get] for one kind, with the object they return. *)
Record DynamicKindPatcher (W : Type) := mkDynamicKindPatcher {
  dk_Patch : Identifier → PatchRequest → PatchOptions → M W (Ref + GoError);
  dk_Get : Identifier → M W (Ref + GoError);
}.
Arguments mkDynamicKindPatcher {W}.
Arguments dk_Patch {W}.
Arguments dk_Get {W}.

Section WatchPatcher.
Context {W : Type} `{WW : !World W, MM : !Memory W}.

(** [into.SetCommonMetadata(obj.GetCommonMetadata())] *)
Definition copy_metadata (obj into : Ref) : M W unit :=
  modify (λ σ, store into (with_CommonMetadata (GetCommonMetadata (deref obj σ)) (deref into σ)) σ).

(** [watchPatcher.PatchInto] and [GetInto] *)
Definition watchPatcher (p : DynamicKindPatcher W) : PatchClient W := {|
  PatchInto identifier req options into :=
    let* r := dk_Patch p identifier req options in
    match r with
    | inr e => ret (Some e)
    | inl obj => copy_metadata obj into ;;; ret None
    end;
  GetInto identifier into :=
    let* r := dk_Get p identifier in
    match r with
    | inr e => ret (Some e)
    | inl obj => copy_metadata obj into ;;; ret None
    end;
|}.
End WatchPatcher.

(** ** Configuration *)

(** The interfaces [KindValidator] and [KindMutator] have one method each. *)
Definition KindValidator (W : Type) : Type := AdmissionRequest → MP W (option GoError).
Definition KindMutator (W : Type) : Type :=
  AdmissionRequest → MP W (option MutatingResponse * option GoError).

(** [Validator.Validate] and [Mutator.Mutate], of their functions. *)
Definition Validator {W} (ValidateFunc : option (KindValidator W)) : KindValidator W := λ req,
  match ValidateFunc with Some f => f req | None => returns None end.
Definition Mutator {W} (MutateFunc : option (KindMutator W)) : KindMutator W := λ req,
  match MutateFunc with Some f => f req | None => returns (None, None) end.

Definition AppCustomRouteHandler (W : Type) : Type :=
  ResponseWriter → CustomRouteRequest → MP W (option GoError).

(** [AppCustomRoute] and [AppVersionRoute] *)
Record AppCustomRoute := mkAppCustomRoute { cr_Method : string; cr_Path : string }.
Record AppVersionRoute := mkAppVersionRoute {
  vr_Namespaced : bool;
  vr_Path : string;
  vr_Method : string;
}.

Record BasicReconcileOptions := mkBasicReconcileOptions {
  bo_Namespace : string;
  bo_LabelFilters : list string;
  bo_FieldSelectors : list string;
  bo_UsePlain : bool;
}.

Record UnmanagedKindReconcileOptions := mkUnmanagedKindReconcileOptions {
  uro_Namespace : string;
  uro_LabelFilters : list string;
  uro_FieldSelectors : list string;
  uro_UseOpinionated : bool;
}.

(** A watcher with its identity, and its [Sync] method if it has one. *)
Record AppWatcher (W : Type) := mkAppWatcher {
  aw_id : nat;
  aw_watcher : ResourceWatcher W;
  aw_Sync : option (Obj → M W (option GoError));
}.
Arguments mkAppWatcher {W}.
Arguments aw_id {W}.
Arguments aw_watcher {W}.
Arguments aw_Sync {W}.

Record AppManagedKind (W : Type) := mkAppManagedKind {
  amk_Kind : Kind (W:=W);
  amk_Reconciler : option (nat * Reconciler W);
  amk_Watcher : option (AppWatcher W);
  amk_Validator : option (KindValidator W);
  amk_Mutator : option (KindMutator W);
  amk_CustomRoutes : list (AppCustomRoute * option (AppCustomRouteHandler W));
  amk_ReconcileOptions : BasicReconcileOptions;
}.
Arguments mkAppManagedKind {W}.
Arguments amk_Kind {W}.
Arguments amk_Reconciler {W}.
Arguments amk_Watcher {W}.
Arguments amk_Validator {W}.
Arguments amk_Mutator {W}.
Arguments amk_CustomRoutes {W}.
Arguments amk_ReconcileOptions {W}.

Record AppUnmanagedKind (W : Type) := mkAppUnmanagedKind {
  auk_Kind : Kind (W:=W);
  auk_Reconciler : option (nat * Reconciler W);
  auk_Watcher : option (AppWatcher W);
  auk_ReconcileOptions : UnmanagedKindReconcileOptions;
}.
Arguments mkAppUnmanagedKind {W}.
Arguments auk_Kind {W}.
Arguments auk_Reconciler {W}.
Arguments auk_Watcher {W}.
Arguments auk_ReconcileOptions {W}.

(** [InformerSupplier]; [Clients] is the type of client generators. *)
Definition InformerSupplier (W Clients : Type) : Type :=
  Kind (W:=W) → Clients → InformerOptions (W:=W) → M W (option (Informer W) + GoError).

Record AppInformerConfig (W Clients : Type) := mkAppInformerConfig {
  ic_InformerOptions : InformerOptions (W:=W);
  ic_RetryPolicy : option RetryPolicy;
  ic_RetryDequeuePolicy : option RetryDequeuePolicy;
  ic_FinalizerSupplier : option (FinalizerSupplier (W:=W));
  ic_InProgressFinalizerSupplier : option (FinalizerSupplier (W:=W));
  ic_InformerSupplier : option (InformerSupplier W Clients);
}.
Arguments ic_InformerOptions {W Clients}.
Arguments ic_RetryPolicy {W Clients}.
Arguments ic_RetryDequeuePolicy {W Clients}.
Arguments ic_FinalizerSupplier {W Clients}.
Arguments ic_InProgressFinalizerSupplier {W Clients}.
Arguments ic_InformerSupplier {W Clients}.

Record AppConfig (W Clients KubeConfig : Type) := mkAppConfig {
  ac_Name : string;
  ac_KubeConfig : KubeConfig;
  ac_ClientGenerator : option Clients;
  ac_InformerConfig : AppInformerConfig W Clients;
  ac_ManagedKinds : list (AppManagedKind W);
  ac_UnmanagedKinds : list (AppUnmanagedKind W);
  ac_Converters : list ((string * string) * option (Converter W));
  ac_VersionedCustomRoutes : list (string * list (AppVersionRoute * option (AppCustomRouteHandler W)));
  ac_DiscoveryRefreshInterval : Z;
}.
Arguments ac_Name {W Clients KubeConfig}.
Arguments ac_KubeConfig {W Clients KubeConfig}.
Arguments ac_ClientGenerator {W Clients KubeConfig}.
Arguments ac_InformerConfig {W Clients KubeConfig}.
Arguments ac_ManagedKinds {W Clients KubeConfig}.
Arguments ac_UnmanagedKinds {W Clients KubeConfig}.
Arguments ac_Converters {W Clients KubeConfig}.
Arguments ac_VersionedCustomRoutes {W Clients KubeConfig}.
Arguments ac_DiscoveryRefreshInterval {W Clients KubeConfig}.

(** [App], without its configuration, which the functions below take, and its informer
    controller, which is their state. *)
Record SimpleApp (W : Type) := mkSimpleApp {
  sa_runner : MultiRunner;
  sa_kinds : gmap string (AppManagedKind W);
  sa_gvrToGVK : gmap string string;
  sa_converters : gmap string (option (Converter W));
  sa_customRoutes : gmap string (option (AppCustomRouteHandler W));
  sa_collectors : list Collector;
}.
Arguments mkSimpleApp {W}.
Arguments sa_runner {W}.
Arguments sa_kinds {W}.
Arguments sa_gvrToGVK {W}.
Arguments sa_converters {W}.
Arguments sa_customRoutes {W}.
Arguments sa_collectors {W}.

(** ** Keys *)
Definition app_gvk (group version kind : string) : string :=
  group +:+ "/" +:+ version +:+ "/" +:+ kind.
Definition app_gvr (group version plural : string) : string :=
  group +:+ "/" +:+ version +:+ "/" +:+ plural.

(** The path of a route, without one leading slash. *)
Definition trim_slash (path : string) : string :=
  match path with
  | String "/" path => path
  | _ => path
  end.

Definition customRouteHandlerKey (k : GVK) (method path : string) (scope : SchemaScope) : string :=
  scope +:+ "|" +:+ g_Group k +:+ "|" +:+ g_Version k +:+ "|" +:+ g_Kind k +:+ "|" +:+
  ToUpper method +:+ "|" +:+ trim_slash path.

(** [Kind.GroupVersionKind] as a record; empty when there is no schema. *)
Definition gvk_of {W} (k : Kind (W:=W)) : GVK := default (mkGVK "" "" "") (kind_gvk k).

Section SimpleApp.
Context {W Clients KubeConfig : Type} `{WW : !World W, MM : !Memory W, AE : !ApiErrors, KN : !KindNames}.
Context (config : AppConfig W Clients KubeConfig).

(** [getFinalizer] and [getInProgressFinalizer] *)
Definition getFinalizer (sch : Schema W) : string :=
  match ic_FinalizerSupplier (ac_InformerConfig config) with
  | Some f => f sch
  | None =>
      if String.eqb (ac_Name config) "" then Plural sch +:+ "-finalizer"
      else ac_Name config +:+ "-" +:+ Plural sch +:+ "-finalizer"
  end.

Definition getInProgressFinalizer (sch : Schema W) : string :=
  match ic_InProgressFinalizerSupplier (ac_InformerConfig config) with
  | Some f => f sch
  | None =>
      if String.eqb (ac_Name config) "" then Plural sch +:+ "-wip"
      else ac_Name config +:+ "-wip"
  end.

(** ** Watching a kind

    What a kind is watched with: the default informer supplier, the dynamic patcher of a
    group and kind, and the identity of a wrapper that is made in a state. *)
Context (DefaultInformerSupplier : InformerSupplier W Clients) (clients : Clients)
  (ForKind : string → string → DynamicKindPatcher W) (new_id : InformerController W → nat).

(** [*OpinionatedWatcher] as a [ResourceWatcher]. *)
Definition opinionated_watcher (op : OpinionatedWatcher W) : ResourceWatcher W :=
  mkResourceWatcher (Add op) (Update op) (Delete op) (Some (collectors op)).

(** The reconciler that is added: the one of the kind, or its opinionated variant. *)
Definition the_reconciler (sch : Schema W) (k : GVK) (useOpinionated : bool) (id : nat)
    (r : nat * Reconciler W) : (nat * Reconciler W) + GoError :=
  if useOpinionated then
    match NewOpinionatedReconciler (Some (watchPatcher (ForKind (g_Group k) (g_Kind k)))) (getFinalizer sch) with
    | inr e => inr e
    | inl op => inl (id, Reconcile (Reconciler_Wrap op r.2))
    end
  else inl r.

(** The watcher that is added: a [Sync] method is kept, and otherwise syncs are adds. *)
Definition wrapped_watcher (op : OpinionatedWatcher W) (w : AppWatcher W) : OpinionatedWatcher W :=
  match aw_Sync w with
  | Some sync =>
      let op := Wrap op (Some (aw_watcher w)) false in
      mkOpinionatedWatcher (AddFunc op) (UpdateFunc op) (DeleteFunc op) (Some sync)
        (finalizer op) (addPendingFinalizer op) (schema op) (collectors op) (finalizerUpdater op)
  | None => Wrap op (Some (aw_watcher w)) true
  end.

Definition the_watcher (sch : Schema W) (k : GVK) (useOpinionated : bool) (id : nat)
    (w : AppWatcher W) : (nat * ResourceWatcher W) + GoError :=
  if useOpinionated then
    match NewOpinionatedWatcher (Some sch) (Some (watchPatcher (ForKind (g_Group k) (g_Kind k))))
            (mkOpinionatedWatcherConfig (Some getFinalizer) (Some getInProgressFinalizer)) with
    | inr e => inr e
    | inl op => inl (id, opinionated_watcher (wrapped_watcher op w))
    end
  else inl (aw_id w, aw_watcher w).

(** [fmt.Errorf("...: %v", err)] keeps only the text. *)
Definition described (prefix : string) (m : M (CState (W:=W)) (option GoError)) : M (CState (W:=W)) (option GoError) :=
  let* err := m in ret ((λ e, ErrorString (prefix +:+ Error e)) <$> err).

Definition informer_options (kind : AppUnmanagedKind W) : InformerOptions (W:=W) :=
  let o := ic_InformerOptions (ac_InformerConfig config) in
  let r := auk_ReconcileOptions kind in
  mkInformerOptions (mkListWatchOptions (uro_Namespace r) (uro_LabelFilters r) (uro_FieldSelectors r))
    (io_CacheResyncInterval o) (io_EventTimeout o) (io_ErrorHandler o) (io_HealthCheckIgnoreSync o)
    (io_UseWatchList o) (io_WatchListPageSize o) (io_MaxConcurrentWorkers o).

(** [watchKind] *)
Definition watch_reconciler (kind : AppUnmanagedKind W) (sch : Schema W) (k : GVK)
  : M (CState (W:=W)) (option GoError) :=
  match auk_Reconciler kind with
  | None => ret None
  | Some r =>
      let* id := gets (λ '(c, _), new_id c) in
      match the_reconciler sch k (uro_UseOpinionated (auk_ReconcileOptions kind)) id r with
      | inr e => ret (Some e)
      | inl r => described "could not add reconciler to controller: " (AddReconciler (Some r) (schema_String k))
      end
  end.

Definition watch_watcher (kind : AppUnmanagedKind W) (sch : Schema W) (k : GVK)
  : M (CState (W:=W)) (option GoError) :=
  match auk_Watcher kind with
  | None => ret None
  | Some w =>
      let* id := gets (λ '(c, _), new_id c) in
      match the_watcher sch k (uro_UseOpinionated (auk_ReconcileOptions kind)) id w with
      | inr e => ret (Some e)
      | inl w => described "could not add watcher to controller: " (AddWatcher (Some w) (schema_String k))
      end
  end.

Definition watchKind (kind : AppUnmanagedKind W) : M (CState (W:=W)) (option GoError) :=
  match k_Schema (auk_Kind kind) with
  | None => ret (Some (ErrorString "cannot watch an empty kind"))
  | Some sch =>
      let k := gvk_of (auk_Kind kind) in
      match auk_Reconciler kind, auk_Watcher kind with
      | Some _, Some _ => ret (Some (ErrorString "please provide either Watcher or Reconciler, not both"))
      | None, None => ret None
      | _, _ =>
          let infSupplier := default DefaultInformerSupplier (ic_InformerSupplier (ac_InformerConfig config)) in
          let* inf := lift (infSupplier (auk_Kind kind) clients (informer_options kind)) in
          match inf with
          | inr e => ret (Some e)
          | inl inf =>
              described "could not add informer to controller: " (AddInformer inf (schema_String k)) ;;?
              watch_reconciler kind sch k ;;?
              watch_watcher kind sch k
          end
      end
  end.

(** ** Managing a kind *)

Definition set_routes (r : gmap string (option (AppCustomRouteHandler W))) (a : SimpleApp W) :=
  mkSimpleApp (sa_runner a) (sa_kinds a) (sa_gvrToGVK a) (sa_converters a) r (sa_collectors a).

(** A loop that stops at the first error. *)
Fixpoint try_each {A S} (f : A → S → S + GoError) (l : list A) (s : S) : S + GoError :=
  match l with
  | [] => inl s
  | x :: l => match f x s with inr e => inr e | inl s => try_each f l s end
  end.

(** A custom route of a kind. *)
Definition add_kind_route (kind : Kind (W:=W)) (scope : SchemaScope)
    (r : AppCustomRoute * option (AppCustomRouteHandler W)) (a : SimpleApp W) : SimpleApp W + GoError :=
  let '(route, handler) := r in
  if String.eqb (cr_Method route) "" then inr (ErrorString "custom route cannot have an empty method")
  else if String.eqb (cr_Path route) "" then inr (ErrorString "custom route cannot have an empty path")
  else
    match handler with
    | None => inr (ErrorString "custom route cannot have a nil handler")
    | Some _ =>
        let key := customRouteHandlerKey (gvk_of kind) (cr_Method route) (cr_Path route) scope in
        match sa_customRoutes a !! key with
        | Some _ => inr (ErrorString ("custom route '" +:+ cr_Method route +:+ " " +:+ cr_Path route +:+ "' already exists"))
        | None => inl (set_routes (<[key := handler]> (sa_customRoutes a)) a)
        end
    end.

(** The first half of [manageKind]: the kind and its routes. *)
Definition register_kind (kind : AppManagedKind W) (a : SimpleApp W) : SimpleApp W + GoError :=
  match k_Schema (amk_Kind kind) with
  | None => inr (ErrorString "cannot manage an empty kind")
  | Some sch =>
      let key := app_gvk (Group sch) (Version sch) (Kind_ sch) in
      let a := mkSimpleApp (sa_runner a) (<[key := kind]> (sa_kinds a))
                 (<[app_gvr (Group sch) (Version sch) (Plural sch) := key]> (sa_gvrToGVK a))
                 (sa_converters a) (sa_customRoutes a) (sa_collectors a) in
      try_each (add_kind_route (amk_Kind kind) (Scope_ sch)) (amk_CustomRoutes kind) a
  end.

(** The kind as one to be watched. *)
Definition as_unmanaged (kind : AppManagedKind W) : AppUnmanagedKind W :=
  let o := amk_ReconcileOptions kind in
  mkAppUnmanagedKind (amk_Kind kind) (amk_Reconciler kind) (amk_Watcher kind)
    (mkUnmanagedKindReconcileOptions (bo_Namespace o) (bo_LabelFilters o) (bo_FieldSelectors o)
       (negb (bo_UsePlain o))).

(** [manageKind] *)
Definition manageKind (kind : AppManagedKind W) (a : SimpleApp W)
  : M (CState (W:=W)) (SimpleApp W + GoError) :=
  match register_kind kind a with
  | inr e => ret (inr e)
  | inl a =>
      match amk_Reconciler kind, amk_Watcher kind with
      | None, None => ret (inl a)
      | _, _ =>
          let* err := watchKind (as_unmanaged kind) in
          ret (match err with Some e => inr e | None => inl a end)
      end
  end.

(** ** Making an app *)

(** The loops over the managed and the unmanaged kinds. *)
Fixpoint manage_all (kinds : list (AppManagedKind W)) (a : SimpleApp W)
  : M (CState (W:=W)) (SimpleApp W + GoError) :=
  match kinds with
  | [] => ret (inl a)
  | kind :: kinds =>
      let* r := manageKind kind a in
      match r with
      | inr e => ret (inr e)
      | inl a => manage_all kinds a
      end
  end.

Fixpoint watch_all (kinds : list (AppUnmanagedKind W)) : M (CState (W:=W)) (option GoError) :=
  match kinds with
  | [] => ret None
  | kind :: kinds => watchKind kind ;;? watch_all kinds
  end.

(** A route of a version. *)
Definition add_version_route (version : string) (r : AppVersionRoute * option (AppCustomRouteHandler W))
    (a : SimpleApp W) : SimpleApp W + GoError :=
  let '(info, handler) := r in
  let scope := if vr_Namespaced info then NamespacedScope else ClusterScope in
  let key := customRouteHandlerKey (mkGVK "" version "") (vr_Method info) (vr_Path info) scope in
  match sa_customRoutes a !! key with
  | Some _ => inr (ErrorString ("custom route '" +:+ vr_Method info +:+ " " +:+ vr_Path info +:+
                                "' already exists for version " +:+ version))
  | None => inl (set_routes (<[key := handler]> (sa_customRoutes a)) a)
  end.

Definition add_version_routes (v : string * list (AppVersionRoute * option (AppCustomRouteHandler W)))
    (a : SimpleApp W) : SimpleApp W + GoError :=
  try_each (add_version_route v.1) v.2 a.

(** [RegisterKindConverter] *)
Definition RegisterKindConverter (group kind : string) (converter : option (Converter W))
    (a : SimpleApp W) : SimpleApp W :=
  mkSimpleApp (sa_runner a) (sa_kinds a) (sa_gvrToGVK a)
    (<[GroupKind_String group kind := converter]> (sa_converters a)) (sa_customRoutes a) (sa_collectors a).

(** [AddRunnable] *)
Definition App_AddRunnable (r : Runnable) (a : SimpleApp W) : SimpleApp W :=
  mkSimpleApp (MultiRunner_AddRunnable r (sa_runner a)) (sa_kinds a) (sa_gvrToGVK a)
    (sa_converters a) (sa_customRoutes a) (sa_collectors a).

(** [RegisterMetricsCollectors] *)
Definition RegisterMetricsCollectors (cs : list Collector) (a : SimpleApp W) : SimpleApp W :=
  mkSimpleApp (sa_runner a) (sa_kinds a) (sa_gvrToGVK a)
    (sa_converters a) (sa_customRoutes a) (sa_collectors a ++ cs).

(** The fields of the controller that the configuration sets. *)
Definition configured (c : InformerController W) : InformerController W :=
  let ic := ac_InformerConfig config in
  mkController
    (match io_ErrorHandler (ic_InformerOptions ic) with Some h => Some h | None => ErrorHandler c end)
    (match ic_RetryPolicy ic with Some p => Some p | None => c_RetryPolicy c end)
    (match ic_RetryDequeuePolicy ic with Some p => Some p | None => c_RetryDequeuePolicy c end)
    (informers c) (watchers c) (reconcilers c) (toRetry c) (retryProcessor c) (runner c) (metrics c).

Definition blank_app : SimpleApp W := mkSimpleApp NewMultiRunner ∅ ∅ ∅ ∅ [].

(** The routes and converters, once the kinds are managed. *)
Definition finish_app (controller : Runnable) (a : SimpleApp W) : SimpleApp W + GoError :=
  match try_each add_version_routes (ac_VersionedCustomRoutes config) a with
  | inr e => inr e
  | inl a =>
      inl (App_AddRunnable controller
             (fold_left (λ a '((g, k), conv), RegisterKindConverter g k conv a) (ac_Converters config) a))
  end.

(** [NewApp], once the patcher is made; [controller] is the informer controller as a
    runnable. *)
Definition NewApp (controller : Runnable) : M (CState (W:=W)) (SimpleApp W + GoError) :=
  modify (λ '(c, w), (configured c, w)) ;;;
  let* r := manage_all (ac_ManagedKinds config) blank_app in
  match r with
  | inr e => ret (inr e)
  | inl a =>
      let* err := watch_all (ac_UnmanagedKinds config) in
      ret (match err with
           | Some e => inr e
           | None => finish_app controller a
           end)
  end.
End SimpleApp.

(** The refresh interval of the patcher: ten minutes when none is configured. *)
Definition discoveryRefresh {W Clients KubeConfig} (config : AppConfig W Clients KubeConfig) : Z :=
  if (ac_DiscoveryRefreshInterval config =? 0)%Z then 600000000000
  else ac_DiscoveryRefreshInterval config.

(** The whole of [NewApp]: the client generator, the controller and the patcher first. *)
Definition NewApp_with {W Clients KubeConfig} `{WW : !World W, MM : !Memory W, AE : !ApiErrors, KN : !KindNames}
    (config : AppConfig W Clients KubeConfig) (DefaultInformerSupplier : InformerSupplier W Clients)
    (NewClientRegistry : KubeConfig → Clients)
    (NewPatcher : KubeConfig → Z → (string → string → DynamicKindPatcher W) + GoError)
    (float64_overflow : Z) (new_id : InformerController W → nat) (controller : Runnable) (w : W)
  : (SimpleApp W + GoError) * (CState (W:=W)) :=
  let clients := default (NewClientRegistry (ac_KubeConfig config)) (ac_ClientGenerator config) in
  let c := NewInformerController float64_overflow (DefaultInformerControllerConfig float64_overflow) in
  match NewPatcher (ac_KubeConfig config) (discoveryRefresh config) with
  | inr e => (inr e, (configured config c, w))
  | inl ForKind => NewApp config DefaultInformerSupplier clients ForKind new_id controller (c, w)
  end.

(** ** Serving requests *)
Section Serve.
Context {W : Type} `{KN : !KindNames, RO : !RangeOrder} {PathProps RouteSchema G : Type}.

(** [ManagedKinds] *)
Definition ManagedKinds (a : SimpleApp W) : list (Kind (W:=W)) :=
  (λ x, amk_Kind x.2) <$> range_map (sa_kinds a).

Definition App_PrometheusCollectors (a : SimpleApp W) : list Collector := sa_collectors a.

(** [HealthChecks], with those of the informer controller. *)
Definition App_HealthChecks (controller_checks : list nat) (a : SimpleApp W) : list nat :=
  MultiRunner_HealthChecks (sa_runner a) ++ controller_checks.

(** The checks of [ValidateManifest] for a kind of a version, in their order. *)
Definition supports (f : AdmissionCapabilities → bool) (k : ManifestVersionKind PathProps G) : bool :=
  match mvk_Admission k with Some c => f c | None => false end.

Definition kind_error (k v text : string) : option GoError :=
  Some (ErrorString ("kind " +:+ k +:+ "/" +:+ v +:+ text)).

Definition validate_kind (a : SimpleApp W) (group version : string)
    (k : ManifestVersionKind PathProps G) : option GoError :=
  if bool_decide (sa_converters a !! GroupKind_String group (mvk_Kind k) = None) && mvk_Conversion k then
    Some (ErrorString ("kind " +:+ mvk_Kind k +:+ " has conversion enabled but no converter is registered"))
  else
    match sa_kinds a !! app_gvk group version (mvk_Kind k) with
    | None => kind_error (mvk_Kind k) version " exists in manifest but is not managed by the app"
    | Some kind =>
        let validator := match amk_Validator kind with Some _ => true | None => false end in
        let mutator := match amk_Mutator kind with Some _ => true | None => false end in
        if supports SupportsAnyValidation k && negb validator then
          kind_error (mvk_Kind k) version " supports validation but has no validator"
        else if supports SupportsAnyMutation k && negb mutator then
          kind_error (mvk_Kind k) version " supports mutation but has no mutator"
        else if validator && negb (supports SupportsAnyValidation k) then
          kind_error (mvk_Kind k) version " does not support validation, but has a validator"
        else if mutator && negb (supports SupportsAnyMutation k) then
          kind_error (mvk_Kind k) version " does not support mutation, but has a mutator"
        else None
    end.

(** The first error of a list of checks. *)
Fixpoint first_error {A} (f : A → option GoError) (l : list A) : option GoError :=
  match l with
  | [] => None
  | x :: l => match f x with Some e => Some e | None => first_error f l end
  end.

(** [ValidateManifest] *)
Definition ValidateManifest (a : SimpleApp W) (manifest : ManifestData PathProps RouteSchema G)
  : option GoError :=
  first_error (λ v, first_error (validate_kind a (md_Group manifest) (mv_Name v)) (elems (mv_Kinds v)))
    (elems (md_Versions manifest)).

(** The managed kind of a request. *)
Definition find_kind (a : SimpleApp W) (req : AdmissionRequest) : option (AppManagedKind W) :=
  sa_kinds a !! app_gvk (ar_Group req) (ar_Version req) (ar_Kind req).

(** [Validate] *)
Definition App_Validate (a : SimpleApp W) (req : AdmissionRequest) : MP W (option GoError) :=
  match find_kind a req with
  | None => returns (Some ErrNotImplemented)
  | Some k =>
      match amk_Validator k with
      | None => returns (Some ErrNotImplemented)
      | Some validator => validator req
      end
  end.

(** [Mutate] *)
Definition App_Mutate (a : SimpleApp W) (req : AdmissionRequest)
  : MP W (option MutatingResponse * option GoError) :=
  match find_kind a req with
  | None => returns (None, Some ErrNotImplemented)
  | Some k =>
      match amk_Mutator k with
      | None => returns (None, Some ErrNotImplemented)
      | Some mutator =>
          let! '(res, err) := mutator req in
          returns (match err with Some e => (None, Some e) | None => (res, None) end)
      end
  end.

(** [Convert] *)
Definition App_Convert (a : SimpleApp W) (req : AppConversionRequest)
  : MP W (option RawObject * option GoError) :=
  let src := acr_SourceGVK req in
  match sa_converters a !! GroupKind_String (g_Group src) (g_Kind src) with
  | None => returns (None, Some ErrNotImplemented)
  | Some None => panic
  | Some (Some converter) =>
      let '(srcAPIVersion, _) := ToAPIVersionAndKind src in
      let '(dstAPIVersion, _) := ToAPIVersionAndKind (acr_TargetGVK req) in
      let! '(converted, err) :=
        converter (mkRawKind (g_Kind src) srcAPIVersion (g_Group src) (g_Version src) (ro_Raw (acr_Raw req)))
          dstAPIVersion in
      returns (match err with
               | Some e => (None, Some e)
               | None => (Some (mkRawObject converted None ""), None)
               end)
  end.

(** [handleCustomRouteWithLogging]; a nil handler panics. *)
Definition handleCustomRoute (handler : option (AppCustomRouteHandler W)) (writer : ResponseWriter)
    (req : CustomRouteRequest) : MP W (option GoError) :=
  match handler with
  | Some h => h writer req
  | None => panic
  end.

(** The scope of a request that names no kind: by its namespace. *)
Definition request_scope (id : FullIdentifier) : SchemaScope :=
  if String.eqb (fid_Namespace id) "" then ClusterScope else NamespacedScope.

Definition version_route (a : SimpleApp W) (req : CustomRouteRequest)
  : option (option (AppCustomRouteHandler W)) :=
  let id := crr_ResourceIdentifier req in
  if String.eqb (fid_Kind id) "" && String.eqb (fid_Plural id) "" then
    sa_customRoutes a !! customRouteHandlerKey (mkGVK "" (fid_Version id) "") (crr_Method req)
                           (crr_Path req) (request_scope id)
  else None.

Definition kind_route (a : SimpleApp W) (req : CustomRouteRequest)
  : option (option (AppCustomRouteHandler W)) :=
  let id := crr_ResourceIdentifier req in
  let key :=
    if String.eqb (fid_Kind id) "" then
      default "" (sa_gvrToGVK a !! app_gvr (fid_Group id) (fid_Version id) (fid_Plural id))
    else app_gvk (fid_Group id) (fid_Version id) (fid_Kind id) in
  match sa_kinds a !! key with
  | None => None
  | Some k =>
      sa_customRoutes a !! customRouteHandlerKey (gvk_of (amk_Kind k)) (crr_Method req) (crr_Path req)
                             (match k_Schema (amk_Kind k) with Some s => Scope_ s | None => "" end)
  end.

(** [CallCustomRoute] *)
Definition CallCustomRoute (a : SimpleApp W) (writer : ResponseWriter) (req : CustomRouteRequest)
  : MP W (option GoError) :=
  match version_route a req with
  | Some handler => handleCustomRoute handler writer req
  | None =>
      match kind_route a req with
      | Some handler => handleCustomRoute handler writer req
      | None => returns (Some ErrCustomRouteNotFound)
      end
  end.

(** The app as the runner sees it. *)
Definition as_App (controller_checks : list nat) (as_runnable : MultiRunner → Runnable) (a : SimpleApp W)
  : App W := {|
  app_Validate := App_Validate a;
  app_Mutate := App_Mutate a;
  app_Convert := App_Convert a;
  app_CallCustomRoute := CallCustomRoute a;
  app_ManagedKinds := ManagedKinds a;
  app_Runner := Some (as_runnable (sa_runner a));
  app_PrometheusCollectors := App_PrometheusCollectors a;
  app_HealthChecks := App_HealthChecks controller_checks a;
|}.
End Serve.

(** A conversion of a kind with a converter. *)
Lemma App_Convert_found {W} `{KN : !KindNames} (a : SimpleApp W) req (conv : Converter W) :
  let src := acr_SourceGVK req in
  sa_converters a !! GroupKind_String (g_Group src) (g_Kind src) = Some (Some conv) →
  App_Convert a req =
    (let! '(converted, err) :=
       conv (mkRawKind (g_Kind src) (ToAPIVersionAndKind src).1 (g_Group src) (g_Version src) (ro_Raw (acr_Raw req)))
         (ToAPIVersionAndKind (acr_TargetGVK req)).1 in
     returns (match err with
              | Some e => (None, Some e)
              | None => (Some (mkRawObject converted None ""), None)
              end)).
Proof.
  intros src E. unfold App_Convert. fold src.
  destruct (sa_converters a !! _) as [c|] eqn:E2; [|by rewrite E in E2]. injection E as ->.
  destruct (ToAPIVersionAndKind src). by destruct (ToAPIVersionAndKind (acr_TargetGVK req)).
Qed.

(** ** Manifests and apps that fit together *)
Section ManifestFacts.
Context {W : Type} `{KN : !KindNames, RO : !RangeOrder} {PathProps RouteSchema G : Type}.

(** The app has what the manifest says of a kind, and has it only then. *)
Definition covers (a : SimpleApp W) (group version : string) (k : ManifestVersionKind PathProps G) : Prop :=
  (mvk_Conversion k = true → is_Some (sa_converters a !! GroupKind_String group (mvk_Kind k))) ∧
  ∃ mk, sa_kinds a !! app_gvk group version (mvk_Kind k) = Some mk ∧
    (is_Some (amk_Validator mk) ↔ supports SupportsAnyValidation k = true) ∧
    (is_Some (amk_Mutator mk) ↔ supports SupportsAnyMutation k = true).

Lemma first_error_None {A} (f : A → option GoError) l :
  first_error f l = None ↔ ∀ x, x ∈ l → f x = None.
Proof.
  induction l as [|x l IH]; simpl; [split; [by intros _ x ?%elem_of_nil | done]|].
  setoid_rewrite elem_of_cons. destruct (f x) as [e|] eqn:E.
  - split; [done|]. intros H. rewrite (H x) in E; [done | by left].
  - rewrite IH. split; [by intros H y [->|Hy]; auto | auto].
Qed.

Lemma validate_kind_None a group version k :
  validate_kind a group version k = None ↔ covers a group version k.
Proof.
  unfold validate_kind, covers, kind_error, is_Some.
  destruct (sa_converters a !! GroupKind_String group (mvk_Kind k)) as [c|].
  - rewrite bool_decide_eq_false_2 by done. simpl.
    destruct (sa_kinds a !! _) as [mk|]; [|naive_solver].
    destruct (amk_Validator mk) eqn:Ev, (amk_Mutator mk) eqn:Em, (supports SupportsAnyValidation k),
      (supports SupportsAnyMutation k); simpl; naive_solver.
  - rewrite bool_decide_eq_true_2 by done. destruct (mvk_Conversion k); simpl; [naive_solver|].
    destruct (sa_kinds a !! _) as [mk|]; [|naive_solver].
    destruct (amk_Validator mk) eqn:Ev, (amk_Mutator mk) eqn:Em, (supports SupportsAnyValidation k),
      (supports SupportsAnyMutation k); simpl; naive_solver.
Qed.

Lemma ValidateManifest_None a (m : ManifestData PathProps RouteSchema G) :
  ValidateManifest a m = None ↔
  ∀ v k, v ∈ elems (md_Versions m) → k ∈ elems (mv_Kinds v) → covers a (md_Group m) (mv_Name v) k.
Proof.
  unfold ValidateManifest. rewrite first_error_None. setoid_rewrite first_error_None.
  setoid_rewrite validate_kind_None. naive_solver.
Qed.
End ManifestFacts.

(** ** The tables of a new app *)
Section Tables.
Context {W Clients KubeConfig : Type} `{WW : !World W, MM : !Memory W, AE : !ApiErrors, KN : !KindNames}.
Context (config : AppConfig W Clients KubeConfig).
Context (DefaultInformerSupplier : InformerSupplier W Clients) (clients : Clients)
  (ForKind : string → string → DynamicKindPatcher W) (new_id : InformerController W → nat).

(** The map of some entries, of which later ones take the place of earlier ones. *)
Definition table {A} (l : list (string * A)) : gmap string A := list_to_map (reverse l).

Lemma table_snoc {A} (l : list (string * A)) k x : table (l ++ [(k, x)]) = <[k := x]> (table l).
Proof. unfold table. by rewrite reverse_app. Qed.

Lemma table_lookup {A} (l : list (string * A)) k x :
  NoDup l.*1 → table l !! k = Some x ↔ (k, x) ∈ l.
Proof.
  intros Hl. unfold table. rewrite <- elem_of_list_to_map; [by rewrite elem_of_reverse|].
  rewrite fmap_reverse. by rewrite reverse_Permutation.
Qed.

Lemma table_None {A} (l : list (string * A)) k : table l !! k = None ↔ k ∉ l.*1.
Proof.
  unfold table. rewrite <- not_elem_of_list_to_map, fmap_reverse. by rewrite elem_of_reverse.
Qed.

(** What a managed kind enters into the tables. *)
Definition kind_entry (mk : AppManagedKind W) : string * AppManagedKind W :=
  (let k := gvk_of (amk_Kind mk) in app_gvk (g_Group k) (g_Version k) (g_Kind k), mk).

Definition plural_of (mk : AppManagedKind W) : string :=
  match k_Schema (amk_Kind mk) with Some s => Plural s | None => "" end.

Definition scope_of (mk : AppManagedKind W) : string :=
  match k_Schema (amk_Kind mk) with Some s => Scope_ s | None => "" end.

Definition plural_entry (mk : AppManagedKind W) : string * string :=
  (let k := gvk_of (amk_Kind mk) in app_gvr (g_Group k) (g_Version k) (plural_of mk), (kind_entry mk).1).

Definition kind_routes (mk : AppManagedKind W) : list (string * option (AppCustomRouteHandler W)) :=
  (λ x, (customRouteHandlerKey (gvk_of (amk_Kind mk)) (cr_Method x.1) (cr_Path x.1) (scope_of mk), x.2))
    <$> amk_CustomRoutes mk.

Definition scope_name (namespaced : bool) : SchemaScope := if namespaced then NamespacedScope else ClusterScope.

Definition version_entries (v : string * list (AppVersionRoute * option (AppCustomRouteHandler W)))
  : list (string * option (AppCustomRouteHandler W)) :=
  (λ x, (customRouteHandlerKey (mkGVK "" v.1 "") (vr_Method x.1) (vr_Path x.1)
           (scope_name (vr_Namespaced x.1)), x.2)) <$> v.2.

(** An app whose tables are those of some kinds and routes; no two routes have a key. *)
Definition app_of (kinds : list (AppManagedKind W)) (routes : list (string * option (AppCustomRouteHandler W)))
    (a : SimpleApp W) : Prop :=
  sa_kinds a = table (kind_entry <$> kinds) ∧
  sa_gvrToGVK a = table (plural_entry <$> kinds) ∧
  sa_customRoutes a = table routes ∧ NoDup routes.*1 ∧
  sa_converters a = ∅.

Lemma app_of_add_route kinds routes a key h :
  app_of kinds routes a → sa_customRoutes a !! key = None →
  app_of kinds (routes ++ [(key, h)]) (set_routes (<[key := h]> (sa_customRoutes a)) a).
Proof.
  intros (Hk & Hp & Hr & Hnd & Hc) Hnone. rewrite Hr in Hnone. apply table_None in Hnone.
  split; [done|]. split; [done|]. split; [by rewrite table_snoc, <- Hr|]. split; [|done].
  rewrite fmap_app. apply NoDup_app. split; [done|]. split; [|apply NoDup_singleton].
  by intros k Hk' ->%list_elem_of_singleton.
Qed.
Lemma try_each_routes {A} (f : A → SimpleApp W → SimpleApp W + GoError) (key : A → string)
    (handler : A → option (AppCustomRouteHandler W)) kinds l routes a a' :
  (∀ x a a', x ∈ l → f x a = inl a' →
     sa_customRoutes a !! key x = None ∧ a' = set_routes (<[key x := handler x]> (sa_customRoutes a)) a) →
  app_of kinds routes a → try_each f l a = inl a' →
  app_of kinds (routes ++ ((λ x, (key x, handler x)) <$> l)) a'.
Proof.
  revert routes a. induction l as [|x l IH]; intros routes a Hf Ha; simpl.
  { intros [= <-]. by rewrite app_nil_r. }
  destruct (f x a) as [a1|e] eqn:E; [|done]. apply Hf in E as [Hnone ->]; [|left].
  intros H. apply (IH (routes ++ [(key x, handler x)])) in H.
  - by rewrite <- app_assoc in H.
  - intros y b b' Hy. apply Hf. by right.
  - by apply app_of_add_route.
Qed.

(** The routes of a kind that are accepted have a method, a path and a handler. *)
Definition good_routes (mk : AppManagedKind W) : Prop :=
  ∀ r h, (r, h) ∈ amk_CustomRoutes mk → cr_Method r ≠ "" ∧ cr_Path r ≠ "" ∧ is_Some h.

Lemma add_kind_route_ok (kind : Kind (W:=W)) scope r h (a a' : SimpleApp W) :
  add_kind_route kind scope (r, h) a = inl a' →
  (cr_Method r ≠ "" ∧ cr_Path r ≠ "" ∧ is_Some h) ∧
  let key := customRouteHandlerKey (gvk_of kind) (cr_Method r) (cr_Path r) scope in
  sa_customRoutes a !! key = None ∧ a' = set_routes (<[key := h]> (sa_customRoutes a)) a.
Proof.
  unfold add_kind_route. destruct (String.eqb_spec (cr_Method r) ""); [done|].
  destruct (String.eqb_spec (cr_Path r) ""); [done|]. destruct h as [h|]; [|done].
  destruct (sa_customRoutes a !! _) eqn:E; [done|]. intros [= <-]. naive_solver.
Qed.

Lemma try_each_In {A S} (f : A → S → S + GoError) (P : A → Prop) l s s' :
  (∀ x s s', f x s = inl s' → P x) → try_each f l s = inl s' → ∀ x, x ∈ l → P x.
Proof.
  intros Hf. revert s. induction l as [|y l IH]; intros s; simpl; [by intros _ x ?%elem_of_nil|].
  destruct (f y s) as [s1|e] eqn:E; [|done]. intros H x [->|Hx]%elem_of_cons; eauto.
Qed.

Lemma register_kind_app mk kinds routes a a' :
  app_of kinds routes a → register_kind mk a = inl a' →
  app_of (kinds ++ [mk]) (routes ++ kind_routes mk) a' ∧
  is_Some (k_Schema (amk_Kind mk)) ∧ good_routes mk.
Proof.
  intros (Hk & Hp & Hr & Hnd & Hc) H. unfold register_kind in H.
  destruct (k_Schema (amk_Kind mk)) as [sch|] eqn:Es; [|done].
  assert (gvk_of (amk_Kind mk) = mkGVK (Group sch) (Version sch) (Kind_ sch)) as Hg
    by (unfold gvk_of, kind_gvk; by rewrite Es).
  split.
  - unfold kind_routes, scope_of. rewrite Es.
    eapply try_each_routes; [|..|exact H].
    + intros [r h] b b' _ Hb. by apply add_kind_route_ok in Hb as [_ Hb].
    + split; [|split; [|by split]]; simpl.
      * rewrite fmap_app. change (kind_entry <$> [mk]) with [kind_entry mk].
        rewrite (surjective_pairing (kind_entry mk)), table_snoc, <- Hk. unfold kind_entry. by rewrite Hg.
      * rewrite fmap_app. change (plural_entry <$> [mk]) with [plural_entry mk].
        rewrite (surjective_pairing (plural_entry mk)), table_snoc, <- Hp.
        unfold plural_entry, kind_entry, plural_of. by rewrite Hg, Es.
  - split; [done|]. intros r h Hin.
    apply (try_each_In _ (λ '(r, h), cr_Method r ≠ "" ∧ cr_Path r ≠ "" ∧ is_Some h) _ _ _
      ltac:(intros [? ?] ? ? Hb; apply add_kind_route_ok in Hb; apply Hb) H (r, h) Hin).
Qed.

Lemma manage_all_app (new_kinds : list (AppManagedKind W)) kinds routes a s a' s' :
  app_of kinds routes a →
  manage_all config DefaultInformerSupplier clients ForKind new_id new_kinds a s = (inl a', s') →
  app_of (kinds ++ new_kinds) (routes ++ (new_kinds ≫= kind_routes)) a' ∧
  Forall (λ mk, is_Some (k_Schema (amk_Kind mk)) ∧ good_routes mk) new_kinds.
Proof.
  revert kinds routes a s. induction new_kinds as [|mk l IH]; intros kinds routes a s Ha; simpl.
  { intros [= <- <-]. by rewrite !app_nil_r. }
  unfold bind. destruct (manageKind _ _ _ _ _ mk a s) as [[a1|e] s1] eqn:E; [|done].
  assert (register_kind mk a = inl a1) as Hreg.
  { revert E. unfold manageKind. destruct (register_kind mk a) as [b|e]; [|done].
    unfold bind, ret. destruct (amk_Reconciler mk), (amk_Watcher mk);
      try (destruct (watchKind _ _ _ _ _ _ _) as [[e|] ?]; [done|]); by intros [= ->]. }
  destruct (register_kind_app _ _ _ _ _ Ha Hreg) as (Ha1 & Hs & Hg).
  intros H. apply (IH _ _ _ _ Ha1) in H as [H HF]. rewrite <- !app_assoc in H. split; [done|].
  by constructor.
Qed.

Lemma add_version_routes_app vs kinds routes a a' :
  app_of kinds routes a → try_each add_version_routes vs a = inl a' →
  app_of kinds (routes ++ (vs ≫= version_entries)) a'.
Proof.
  revert routes a. induction vs as [|v vs IH]; intros routes a Ha; simpl.
  { intros [= <-]. by rewrite app_nil_r. }
  destruct (add_version_routes v a) as [a1|e] eqn:E; [|done]. intros H.
  rewrite (assoc_L (++)). eapply IH; [|exact H].
  unfold add_version_routes in E. unfold version_entries. eapply try_each_routes; [|exact Ha|exact E].
  intros [r h] b b' _. unfold add_version_route, scope_name. cbn.
  destruct (sa_customRoutes b !! _) eqn:Eb; [done|]. by intros [= <-].
Qed.

(** All routes of the configuration, and its converters. *)
Definition all_routes : list (string * option (AppCustomRouteHandler W)) :=
  (ac_ManagedKinds config ≫= kind_routes) ++ (ac_VersionedCustomRoutes config ≫= version_entries).

Definition converter_entries : list (string * option (Converter W)) :=
  (λ x, (GroupKind_String x.1.1 x.1.2, x.2)) <$> ac_Converters config.

Lemma register_converters l (cs : list (string * option (Converter W))) a :
  sa_converters a = table cs →
  let a' := fold_left (λ a '((g, k), conv), RegisterKindConverter g k conv a) l a in
  sa_kinds a' = sa_kinds a ∧ sa_gvrToGVK a' = sa_gvrToGVK a ∧ sa_customRoutes a' = sa_customRoutes a ∧
  sa_converters a' = table (cs ++ ((λ x, (GroupKind_String x.1.1 x.1.2, x.2)) <$> l)).
Proof.
  revert cs a. induction l as [|[[g k] conv] l IH]; intros cs a Hc; simpl.
  { by rewrite app_nil_r. }
  destruct (IH (cs ++ [(GroupKind_String g k, conv)]) (RegisterKindConverter g k conv a))
    as (-> & -> & -> & ->); [|by rewrite <- app_assoc].
  simpl. by rewrite table_snoc, Hc.
Qed.

(** What a successful [NewApp] has entered into its tables: every managed kind, under its
    name and under its plural, every route, no two under a key, and every converter. *)
Definition tables_of (a : SimpleApp W) : Prop :=
  sa_kinds a = table (kind_entry <$> ac_ManagedKinds config) ∧
  sa_gvrToGVK a = table (plural_entry <$> ac_ManagedKinds config) ∧
  sa_customRoutes a = table all_routes ∧ NoDup all_routes.*1 ∧
  sa_converters a = table converter_entries ∧
  Forall (λ mk, is_Some (k_Schema (amk_Kind mk)) ∧ good_routes mk) (ac_ManagedKinds config).

Lemma NewApp_tables controller a s s' :
  NewApp config DefaultInformerSupplier clients ForKind new_id controller s = (inl a, s') →
  tables_of a.
Proof.
  unfold NewApp, bind, modify. destruct s as [c w].
  destruct (manage_all _ _ _ _ _ _ _ _) as [[a1|e] s1] eqn:E; [|done].
  destruct (watch_all _ _ _ _ _ _ _) as [[e|] s2]; [done|]. intros [= Hf _].
  apply (manage_all_app _ [] []) in E as [Ha HF]; [|by repeat split; try constructor].
  unfold finish_app in Hf. destruct (try_each _ _ a1) as [a2|] eqn:Ev; [|done].
  apply (add_version_routes_app _ _ _ _ _ Ha) in Ev as (Hk & Hp & Hr & Hnd & Hc).
  injection Hf as <-.
  destruct (register_converters (ac_Converters config) [] a2 Hc) as (Ek & Ep & Er & Ec).
  split; [exact (eq_trans Ek Hk)|]. split; [exact (eq_trans Ep Hp)|].
  split; [exact (eq_trans Er Hr)|]. split; [exact Hnd|]. by split.
Qed.
End Tables.

(** ** Which handler a route request reaches *)
Lemma key_separator c s1 s2 t1 t2 :
  free_of c s1 = true → free_of c s2 = true →
  s1 +:+ (String c EmptyString +:+ t1) = s2 +:+ (String c EmptyString +:+ t2) → s1 = s2 ∧ t1 = t2.
Proof. exact (separator_inj c s1 s2 t1 t2). Qed.

Lemma app_gvk_inj g1 v1 k1 g2 v2 k2 :
  free_of "/" g1 = true → free_of "/" v1 = true → free_of "/" g2 = true → free_of "/" v2 = true →
  app_gvk g1 v1 k1 = app_gvk g2 v2 k2 → g1 = g2 ∧ v1 = v2 ∧ k1 = k2.
Proof.
  intros H1 H2 H3 H4 E. unfold app_gvk in E. apply key_separator in E as [-> E]; [|done..].
  by apply key_separator in E as [-> ->].
Qed.

Lemma free_of_ToUpper s : free_of "|" (ToUpper s) = free_of "|" s.
Proof.
  unfold ToUpper. induction s as [|c s IH]; [done|]. simpl. rewrite IH. f_equal. f_equal.
  by destruct c as [[] [] [] [] [] [] [] []].
Qed.

(** A name that may be a part of a key. *)
Definition key_part (s : string) : Prop := free_of "|" s = true.

Definition key_parts (k : GVK) (method : string) (scope : SchemaScope) : Prop :=
  key_part scope ∧ key_part (g_Group k) ∧ key_part (g_Version k) ∧ key_part (g_Kind k) ∧ key_part method.

Lemma customRouteHandlerKey_inj k1 m1 p1 s1 k2 m2 p2 s2 :
  key_parts k1 m1 s1 → key_parts k2 m2 s2 →
  customRouteHandlerKey k1 m1 p1 s1 = customRouteHandlerKey k2 m2 p2 s2 →
  k1 = k2 ∧ ToUpper m1 = ToUpper m2 ∧ trim_slash p1 = trim_slash p2 ∧ s1 = s2.
Proof.
  destruct k1 as [g1 v1 k1], k2 as [g2 v2 k2]. unfold key_parts, key_part. simpl.
  intros (? & ? & ? & ? & Hm1) (? & ? & ? & ? & Hm2) E. unfold customRouteHandlerKey in E. simpl in E.
  rewrite <- free_of_ToUpper in Hm1, Hm2.
  apply key_separator in E as [-> E]; [|done..]. apply key_separator in E as [-> E]; [|done..].
  apply key_separator in E as [-> E]; [|done..]. apply key_separator in E as [-> E]; [|done..].
  by apply key_separator in E as [-> ->].
Qed.

Section Dispatch.
Context {W Clients KubeConfig : Type} `{KN : !KindNames}.
Context (config : AppConfig W Clients KubeConfig) (a : SimpleApp W).

(** A configuration with proper names, in which no kind, and no plural of a group and
    version, is managed twice. *)
Record proper_config : Prop := mkProperConfig {
  proper_names mk : mk ∈ ac_ManagedKinds config → valid_gvk (gvk_of (amk_Kind mk));
  proper_scopes mk : mk ∈ ac_ManagedKinds config → key_part (scope_of mk);
  proper_plurals mk : mk ∈ ac_ManagedKinds config → plural_of mk ≠ "";
  proper_methods mk r h : mk ∈ ac_ManagedKinds config → (r, h) ∈ amk_CustomRoutes mk → key_part (cr_Method r);
  proper_versions v rs : (v, rs) ∈ ac_VersionedCustomRoutes config → key_part v;
  proper_version_methods v rs r h :
    (v, rs) ∈ ac_VersionedCustomRoutes config → (r, h) ∈ rs → key_part (vr_Method r);
  proper_distinct : NoDup ((λ mk, gvk_of (amk_Kind mk)) <$> ac_ManagedKinds config);
  proper_distinct_plurals :
    NoDup ((λ mk, (g_Group (gvk_of (amk_Kind mk)), g_Version (gvk_of (amk_Kind mk)), plural_of mk))
             <$> ac_ManagedKinds config);
}.

(** A request with proper names: of a kind, of a plural, or of a version. *)
Definition proper_request (req : CustomRouteRequest) : Prop :=
  let id := crr_ResourceIdentifier req in
  valid_group (fid_Group id) ∧ valid_version (fid_Version id) ∧ key_part (crr_Method req) ∧
  (fid_Kind id = "" ∨ valid_kind (fid_Kind id)).

Definition same_route (req : CustomRouteRequest) (method path : string) : Prop :=
  ToUpper (crr_Method req) = ToUpper method ∧ trim_slash (crr_Path req) = trim_slash path.

(** The identifier names a kind, by its kind or else by its plural. *)
Definition names_kind (id : FullIdentifier) (mk : AppManagedKind W) : Prop :=
  let k := gvk_of (amk_Kind mk) in
  fid_Group id = g_Group k ∧ fid_Version id = g_Version k ∧
  (if String.eqb (fid_Kind id) "" then fid_Plural id = plural_of mk else fid_Kind id = g_Kind k).

(** The handlers that are configured for a request. *)
Inductive route_for (req : CustomRouteRequest) : option (AppCustomRouteHandler W) → Prop :=
| route_of_kind mk r h :
    mk ∈ ac_ManagedKinds config → (r, h) ∈ amk_CustomRoutes mk →
    names_kind (crr_ResourceIdentifier req) mk → same_route req (cr_Method r) (cr_Path r) →
    route_for req h
| route_of_version rs r h :
    fid_Kind (crr_ResourceIdentifier req) = "" → fid_Plural (crr_ResourceIdentifier req) = "" →
    (fid_Version (crr_ResourceIdentifier req), rs) ∈ ac_VersionedCustomRoutes config →
    (r, h) ∈ rs → same_route req (vr_Method r) (vr_Path r) →
    vr_Namespaced r = negb (String.eqb (fid_Namespace (crr_ResourceIdentifier req)) "") →
    route_for req h.

Context (Ht : tables_of config a) (Hp : proper_config).

Lemma NoDup_fmap_key {A B C} (f : A → B) (g : A → C) (l : list A) :
  (∀ x y, x ∈ l → y ∈ l → g x = g y → f x = f y) → NoDup (f <$> l) → NoDup (g <$> l).
Proof.
  induction l as [|x l IH]; intros Hg H; [constructor|]. csimpl in *.
  apply NoDup_cons in H as [Hx H]. apply NoDup_cons. split.
  - intros (y & E & Hy)%list_elem_of_fmap. apply Hx, list_elem_of_fmap. exists y.
    split; [apply Hg; [by left | by right | done] | done].
  - apply IH; [intros y z Hy Hz; apply Hg; by right | done].
Qed.

Lemma NoDup_fmap_inj_in {A B} (f : A → B) (l : list A) :
  NoDup (f <$> l) → ∀ x y, x ∈ l → y ∈ l → f x = f y → x = y.
Proof.
  induction l as [|z l IH]; intros H x y; [by intros ?%elem_of_nil|]. csimpl in H.
  apply NoDup_cons in H as [Hz H]. intros [->|Hx]%elem_of_cons [->|Hy]%elem_of_cons E.
  - done.
  - destruct Hz. rewrite E. by apply list_elem_of_fmap_2.
  - destruct Hz. rewrite <- E. by apply list_elem_of_fmap_2.
  - by apply IH.
Qed.

Lemma NoDup_kind_keys : NoDup ((kind_entry <$> ac_ManagedKinds config).*1).
Proof using Hp.
  rewrite <- list_fmap_compose. eapply NoDup_fmap_key; [|exact (proper_distinct Hp)].
  intros x y Hx Hy E. apply (proper_names Hp) in Hx as ((? & _) & (_ & ? & _) & _).
  apply (proper_names Hp) in Hy as ((? & _) & (_ & ? & _) & _).
  unfold compose, kind_entry in E. cbn in E.
  destruct (gvk_of (amk_Kind x)), (gvk_of (amk_Kind y)). simpl in *.
  by apply app_gvk_inj in E as (-> & -> & ->).
Qed.

(** The kind that is managed under a name. *)
Lemma lookup_kind g v k mk :
  free_of "/" g = true → free_of "/" v = true →
  sa_kinds a !! app_gvk g v k = Some mk ↔
  mk ∈ ac_ManagedKinds config ∧ gvk_of (amk_Kind mk) = mkGVK g v k.
Proof using Ht Hp.
  intros Hg Hv. destruct Ht as (-> & _). rewrite table_lookup by apply NoDup_kind_keys.
  rewrite list_elem_of_fmap. split.
  - intros (mk' & E & Hin). unfold kind_entry in E. injection E as E <-. split; [done|].
    apply (proper_names Hp) in Hin as ((? & _) & (_ & ? & _) & _).
    destruct (gvk_of (amk_Kind mk)) as [g' v' k']. simpl in *.
    by apply app_gvk_inj in E as (-> & -> & ->).
  - intros [Hin E]. exists mk. split; [|done]. unfold kind_entry. by rewrite E.
Qed.

Lemma lookup_plural g v p key :
  free_of "/" g = true → free_of "/" v = true →
  sa_gvrToGVK a !! app_gvr g v p = Some key ↔
  ∃ mk, mk ∈ ac_ManagedKinds config ∧ g_Group (gvk_of (amk_Kind mk)) = g ∧
    g_Version (gvk_of (amk_Kind mk)) = v ∧ plural_of mk = p ∧ key = (kind_entry mk).1.
Proof using Ht Hp.
  intros Hg Hv. destruct Ht as (_ & -> & _). rewrite table_lookup.
  - rewrite list_elem_of_fmap. split.
    + intros (mk & E & Hin). exists mk. unfold plural_entry in E. injection E as E ->.
      pose proof (proper_names Hp _ Hin) as ((? & _) & (_ & ? & _) & _).
      symmetry in E. by apply app_gvk_inj in E as (<- & <- & <-).
    + intros (mk & Hin & <- & <- & <- & ->). by exists mk.
  - rewrite <- list_fmap_compose. eapply NoDup_fmap_key; [|exact (proper_distinct_plurals Hp)].
    intros x y Hx Hy E. apply (proper_names Hp) in Hx as ((? & _) & (_ & ? & _) & _).
    apply (proper_names Hp) in Hy as ((? & _) & (_ & ? & _) & _).
    unfold compose, plural_entry in E. cbn in E. by apply app_gvk_inj in E as (-> & -> & ->).
Qed.

Lemma lookup_route key h :
  sa_customRoutes a !! key = Some h ↔ (key, h) ∈ all_routes config.
Proof using Ht. destruct Ht as (_ & _ & -> & Hnd & _). by apply table_lookup. Qed.

Lemma elem_of_all_routes key h :
  (key, h) ∈ all_routes config ↔
  (∃ mk r, mk ∈ ac_ManagedKinds config ∧ (r, h) ∈ amk_CustomRoutes mk ∧
     key = customRouteHandlerKey (gvk_of (amk_Kind mk)) (cr_Method r) (cr_Path r) (scope_of mk)) ∨
  (∃ v rs r, (v, rs) ∈ ac_VersionedCustomRoutes config ∧ (r, h) ∈ rs ∧
     key = customRouteHandlerKey (mkGVK "" v "") (vr_Method r) (vr_Path r) (scope_name (vr_Namespaced r))).
Proof.
  unfold all_routes, kind_routes, version_entries. rewrite elem_of_app, !list_elem_of_bind. f_equiv.
  - split.
    + intros (mk & ([r h'] & E & Hr)%list_elem_of_fmap & Hmk). injection E as -> ->. eauto.
    + intros (mk & r & Hmk & Hr & ->). exists mk. split; [|done]. apply list_elem_of_fmap. by exists (r, h).
  - split.
    + intros ([v rs] & ([r h'] & E & Hr)%list_elem_of_fmap & Hv). injection E as -> ->. eauto 6.
    + intros (v & rs & r & Hv & Hr & ->). exists (v, rs). split; [|done].
      apply list_elem_of_fmap. by exists (r, h).
Qed.

Lemma scope_name_part b : key_part (scope_name b).
Proof. by destruct b. Qed.

Lemma scope_name_request b id :
  scope_name b = request_scope id ↔ b = negb (String.eqb (fid_Namespace id) "").
Proof. unfold request_scope. by destruct b, (String.eqb _ _). Qed.

Lemma version_route_spec req h :
  proper_request req →
  version_route a req = Some h ↔
  ∃ rs r, fid_Kind (crr_ResourceIdentifier req) = "" ∧ fid_Plural (crr_ResourceIdentifier req) = "" ∧
    (fid_Version (crr_ResourceIdentifier req), rs) ∈ ac_VersionedCustomRoutes config ∧
    (r, h) ∈ rs ∧ same_route req (vr_Method r) (vr_Path r) ∧
    vr_Namespaced r = negb (String.eqb (fid_Namespace (crr_ResourceIdentifier req)) "").
Proof using Ht Hp.
  intros (_ & (_ & _ & _ & Hv) & Hm & _). unfold version_route.
  destruct (String.eqb_spec (fid_Kind (crr_ResourceIdentifier req)) "") as [Ek|Ek];
    [|split; [done | by intros (? & ? & ? & _)]].
  destruct (String.eqb_spec (fid_Plural (crr_ResourceIdentifier req)) "") as [Ep|Ep];
    [|split; [done | by intros (? & ? & _ & ? & _)]].
  simpl. rewrite lookup_route, elem_of_all_routes.
  assert (key_part (request_scope (crr_ResourceIdentifier req))) as Hs
    by (unfold request_scope; by destruct (String.eqb _ _)).
  split.
  - intros [(mk & r & Hmk & Hr & E)|(v & rs & r & Hrs & Hr & E)].
    + pose proof (proper_names Hp _ Hmk) as ((_ & _ & ?) & (_ & _ & _ & ?) & (Hne & _ & _ & _ & ?)).
      apply customRouteHandlerKey_inj in E as (E & _); [by rewrite <- E in Hne | by repeat split |].
      pose proof (proper_scopes Hp _ Hmk). pose proof (proper_methods Hp _ _ _ Hmk Hr). by repeat split.
    + apply customRouteHandlerKey_inj in E as (E & E2 & E3 & E4); [|by repeat split|].
      * injection E as ->. symmetry in E4. apply scope_name_request in E4. exists rs, r. by repeat split.
      * pose proof (proper_versions Hp _ _ Hrs). pose proof (proper_version_methods Hp _ _ _ _ Hrs Hr).
        pose proof (scope_name_part (vr_Namespaced r)). by repeat split.
  - intros (rs & r & _ & _ & Hrs & Hr & [E1 E2] & E3%scope_name_request). right. eexists _, rs, r.
    split; [exact Hrs|]. split; [done|]. unfold customRouteHandlerKey. by rewrite E1, E2, E3.
Qed.

(** The kind a request names, as [CallCustomRoute] finds it. *)
Lemma kind_route_found req mk :
  proper_request req →
  sa_kinds a !! (if String.eqb (fid_Kind (crr_ResourceIdentifier req)) ""
                 then default "" (sa_gvrToGVK a !! app_gvr (fid_Group (crr_ResourceIdentifier req))
                        (fid_Version (crr_ResourceIdentifier req)) (fid_Plural (crr_ResourceIdentifier req)))
                 else app_gvk (fid_Group (crr_ResourceIdentifier req)) (fid_Version (crr_ResourceIdentifier req))
                        (fid_Kind (crr_ResourceIdentifier req))) = Some mk ↔
  mk ∈ ac_ManagedKinds config ∧ names_kind (crr_ResourceIdentifier req) mk.
Proof using Ht Hp.
  intros ((Hg & _) & (_ & Hv & _) & _). unfold names_kind.
  generalize (fid_Group (crr_ResourceIdentifier req)) (fid_Version (crr_ResourceIdentifier req))
    (fid_Kind (crr_ResourceIdentifier req)) (fid_Plural (crr_ResourceIdentifier req)) Hg Hv.
  clear Hg Hv. intros g v k p Hg Hv. destruct (String.eqb_spec k "") as [->|Hk].
  - destruct (sa_gvrToGVK a !! app_gvr g v p) as [key|] eqn:E; simpl.
    + apply lookup_plural in E as (mk' & Hin & <- & <- & <- & ->); [|done..].
      unfold kind_entry. cbn. rewrite lookup_kind by done. split.
      * intros [Hmk Eg]. assert (mk = mk') as ->; [|done]. 
        apply (NoDup_fmap_inj_in _ _ (proper_distinct Hp) _ _ Hmk Hin). rewrite Eg. by destruct (gvk_of (amk_Kind mk')).
      * intros (Hmk & E1 & E2 & E3). split; [done|].
        assert (mk = mk') as ->; [|by destruct (gvk_of (amk_Kind mk'))].
        apply (NoDup_fmap_inj_in _ _ (proper_distinct_plurals Hp) _ _ Hmk Hin). by rewrite E1, E2, E3.
    + split.
      * destruct Ht as (-> & _). rewrite table_lookup by (by apply NoDup_kind_keys).
        intros (mk' & E' & _)%list_elem_of_fmap. unfold kind_entry, app_gvk in E'. injection E' as E' _.
        by destruct (g_Group _).
      * intros (Hmk & E1 & E2 & E3). exfalso.
        assert (sa_gvrToGVK a !! app_gvr g v p = Some (kind_entry mk).1) as E'
          by (apply lookup_plural; [done..|]; by exists mk).
        congruence.
  - rewrite lookup_kind by done. split; intros [Hmk E]; (split; [done|]); [by rewrite E|].
    destruct E as (-> & -> & ->). by destruct (gvk_of (amk_Kind mk)).
Qed.

Lemma kind_route_spec req h :
  proper_request req →
  kind_route a req = Some h ↔
  ∃ mk r, mk ∈ ac_ManagedKinds config ∧ (r, h) ∈ amk_CustomRoutes mk ∧
    names_kind (crr_ResourceIdentifier req) mk ∧ same_route req (cr_Method r) (cr_Path r).
Proof using Ht Hp.
  intros Hreq. pose proof Hreq as (_ & _ & Hm & _). unfold kind_route.
  set (key := if String.eqb (fid_Kind (crr_ResourceIdentifier req)) "" then _ else _).
  pose proof (kind_route_found req) as Hfound. fold key in Hfound.
  destruct (sa_kinds a !! key) as [mk|].
  - destruct (proj1 (Hfound mk Hreq) eq_refl) as [Hmk Hn]. fold (scope_of mk).
    pose proof (proper_names Hp _ Hmk) as ((_ & _ & ?) & (_ & _ & _ & ?) & (Hne & _ & _ & _ & ?)).
    pose proof (proper_scopes Hp _ Hmk).
    rewrite lookup_route, elem_of_all_routes. split.
    + intros [(mk2 & r & Hmk2 & Hr & E)|(v & rs & r & Hrs & Hr & E)].
      * pose proof (proper_names Hp _ Hmk2) as ((_ & _ & ?) & (_ & _ & _ & ?) & (_ & _ & _ & _ & ?)).
        pose proof (proper_scopes Hp _ Hmk2). pose proof (proper_methods Hp _ _ _ Hmk2 Hr).
        apply customRouteHandlerKey_inj in E as (E & E2 & E3 & _); [|by repeat split..].
        apply (NoDup_fmap_inj_in _ _ (proper_distinct Hp) _ _ Hmk Hmk2) in E as <-.
        exists mk, r. split; [done|]. split; [done|]. split; [exact Hn | by split].
      * pose proof (proper_versions Hp _ _ Hrs). pose proof (proper_version_methods Hp _ _ _ _ Hrs Hr).
        pose proof (scope_name_part (vr_Namespaced r)).
        apply customRouteHandlerKey_inj in E as (E & _); [by rewrite E in Hne | by repeat split..].
    + intros (mk2 & r & Hmk2 & Hr & Hn2 & E1 & E2).
      assert (Some mk = Some mk2) as [= <-] by by apply Hfound.
      left. exists mk, r. split; [done|]. split; [done|]. unfold customRouteHandlerKey. by rewrite E1, E2.
  - split; [done|]. intros (mk & r & Hmk & _ & Hn & _).
    by pose proof (proj2 (Hfound mk Hreq) (conj Hmk Hn)).
Qed.

Lemma CallCustomRoute_found req h :
  proper_request req → route_for req (Some h) → ∀ writer, CallCustomRoute a writer req = h writer req.
Proof using Ht Hp.
  intros Hreq H writer. unfold CallCustomRoute. inversion H as [mk r h' Hmk Hr Hn Hs E|rs r h' Ek Ep Hrs Hr Hs Hsc E].
  - destruct (version_route a req) as [h2|] eqn:Ev.
    + apply version_route_spec in Ev as (_ & _ & Ek & Ep & _); [|done].
      destruct Hn as (_ & _ & Hn). rewrite Ek, Ep in Hn. simpl in Hn.
      by destruct (proper_plurals Hp _ Hmk).
    + rewrite (proj2 (kind_route_spec req (Some h) Hreq)); [done|]. by exists mk, r.
  - rewrite (proj2 (version_route_spec req (Some h) Hreq)); [done|]. by exists rs, r.
Qed.

Lemma CallCustomRoute_not_found req :
  proper_request req → (∀ h, ¬ route_for req h) →
  ∀ writer, CallCustomRoute a writer req = returns (Some ErrCustomRouteNotFound).
Proof using Ht Hp.
  intros Hreq H writer. unfold CallCustomRoute.
  destruct (version_route a req) as [h|] eqn:Ev.
  { apply version_route_spec in Ev as (rs & r & Hr); [|done]. destruct (H h).
    destruct Hr as (? & ? & ? & ? & ? & ?). by eapply route_of_version. }
  destruct (kind_route a req) as [h|] eqn:Ek; [|done].
  apply kind_route_spec in Ek as (mk & r & ? & ? & ? & ?); [|done]. destruct (H h). by eapply route_of_kind.
Qed.
End Dispatch.

(** ** Instances for the witnesses *)
Definition test_options : InformerOptions (W:=TestWorld) :=
  mkInformerOptions (mkListWatchOptions "" [] []) 0 0 None false false 0 0.

Definition no_supplier : InformerSupplier TestWorld unit := λ _ _ _, ret (inr (ErrorString "no informers")).
Definition no_patchers : string → string → DynamicKindPatcher TestWorld := λ _ _,
  mkDynamicKindPatcher (λ _ _ _, ret (inr ErrNotImplemented)) (λ _, ret (inr ErrNotImplemented)).

(** Kind Foo of a version of g, plural foos. *)
Definition foo_kind (version : string) : Kind (W:=TestWorld) :=
  mkKind (Some (SimpleSchema_schema do_Copy do_CopyList
                  (NewSimpleSchema do_typeName "g" version 0 0 [WithKind "Foo"; WithPlural "foos"])))
    (Some {[ KindEncodingJSON := Some spec_codec ]}).

Definition hello : AppCustomRouteHandler TestWorld := λ _ _, calls (λ σ, (None, note "hello" σ)).

(** A validator that accepts objects with the spec "new". *)
Definition only_new : KindValidator TestWorld := λ req,
  match ar_Object req with
  | Some r => calls (λ σ, (if String.eqb (GetSpec (deref r σ)) "new" then None
                           else Some (NewAdmissionError (ErrorString "old") 422 "old"), σ))
  | None => returns None
  end.

Definition test_managed : AppManagedKind TestWorld :=
  mkAppManagedKind (foo_kind "v1") None None (Some only_new) None
    [(mkAppCustomRoute "get" "/bar", Some hello)] (mkBasicReconcileOptions "" [] [] false).

(** A second version, whose validator accepts everything. *)
Definition test_managed_v2 : AppManagedKind TestWorld :=
  mkAppManagedKind (foo_kind "v2") None None (Some (λ _, returns None)) None []
    (mkBasicReconcileOptions "" [] [] false).

Definition test_config : AppConfig TestWorld unit unit :=
  mkAppConfig _ _ _ "app" tt None (mkAppInformerConfig _ _ test_options None None None None None)
    [test_managed; test_managed_v2] [] [(("g", "Foo"), Some to_v2)] [("v1", [(mkAppVersionRoute false "ping" "GET", Some hello)])] 0.

Definition test_runnable : Runnable := mkRunnable 0 None None None.

Definition test_new_app :=
  NewApp test_config no_supplier tt no_patchers (λ _, 0%nat) test_runnable
    (NewInformerController 0 (DefaultInformerControllerConfig 0), test_world).

Definition test_app : SimpleApp TestWorld :=
  match test_new_app.1 with inl a => a | inr _ => blank_app end.

Lemma test_new_app_ok : test_new_app = (inl test_app, test_new_app.2).
Proof.
  assert (match test_new_app.1 with inl _ => true | inr _ => false end = true) as H by by vm_compute.
  unfold test_app. by destruct test_new_app as [[a|e] s].
Qed.

Lemma test_config_proper : proper_config test_config.
Proof.
  assert (∀ mk, mk ∈ ac_ManagedKinds test_config → mk = test_managed ∨ mk = test_managed_v2) as Hmk
    by by intros mk [->| ->%list_elem_of_singleton]%elem_of_cons; [left | right].
  split.
  - by intros mk [-> | ->]%Hmk.
  - by intros mk [-> | ->]%Hmk.
  - by intros mk [-> | ->]%Hmk.
  - intros mk r h [-> | ->]%Hmk; [by intros [= -> ->]%list_elem_of_singleton | by intros ?%elem_of_nil].
  - by intros v rs [= -> ->]%list_elem_of_singleton.
  - by intros v rs r h [= -> ->]%list_elem_of_singleton [= -> ->]%list_elem_of_singleton.
  - apply NoDup_cons. split; [by intros ?%list_elem_of_singleton | apply NoDup_singleton].
  - apply NoDup_cons. split; [by intros ?%list_elem_of_singleton | apply NoDup_singleton].
Qed.

Definition bar_request (kind plural : string) : CustomRouteRequest :=
  mkCustomRouteRequest (mkFullIdentifier "ns" "a" "g" "v1" kind plural) "bar" "" "GET" ∅ "".

(** ** Properties *)

(** C25: [ValidateManifest] accepts a manifest exactly when the app manages every kind of every
    version, has a converter for those with conversion, and has a validator or a mutator
    exactly for those that declare validation or mutation.  It may manage more kinds and
    have more converters, but a validator or mutator of a kind that does not declare it is
    an error, though the method's doc comment says that an app may cover more than its
    manifest ([ValidateManifest_rejects_more]). *)
Theorem ValidateManifest_iff {W} `{KN : !KindNames} {PathProps RouteSchema G} (a : SimpleApp W)
    (m : ManifestData PathProps RouteSchema G) :
  ValidateManifest a m = None ↔
  ∀ v k, v ∈ elems (md_Versions m) → k ∈ elems (mv_Kinds v) → covers a (md_Group m) (mv_Name v) k.
Proof. apply ValidateManifest_None. Qed.

(** A validator or a mutator that the manifest does not declare makes [ValidateManifest]
    fail, although the app covers more than the manifest indicates. *)
Theorem ValidateManifest_rejects_more {W} `{KN : !KindNames} {PathProps RouteSchema G}
    (a : SimpleApp W) (m : ManifestData PathProps RouteSchema G) v k mk :
  v ∈ elems (md_Versions m) → k ∈ elems (mv_Kinds v) →
  sa_kinds a !! app_gvk (md_Group m) (mv_Name v) (mvk_Kind k) = Some mk →
  (is_Some (amk_Validator mk) ∧ supports SupportsAnyValidation k = false) ∨
  (is_Some (amk_Mutator mk) ∧ supports SupportsAnyMutation k = false) →
  ValidateManifest a m ≠ None.
Proof.
  intros Hv Hk Hmk Hmore H. rewrite ValidateManifest_None in H.
  destruct (H v k Hv Hk) as (_ & mk' & E & H1 & H2). simplify_eq.
  destruct Hmore as [[Hs E2]|[Hs E2]]; [apply H1 in Hs | apply H2 in Hs]; congruence.
Qed.

(** C19: A request for a custom route reaches the handler that was configured for its kind or
    version, scope, method (in any case) and path (with or without a leading slash); when
    none was, it is answered with [ErrCustomRouteNotFound] and nothing is called. *)
Theorem CallCustomRoute_dispatch {W Clients KubeConfig} `{WW : !World W, MM : !Memory W}
    `{AE : !ApiErrors, KN : !KindNames} (config : AppConfig W Clients KubeConfig)
    supplier clients ForKind new_id controller s a s' req :
  NewApp config supplier clients ForKind new_id controller s = (inl a, s') →
  proper_config config → proper_request req →
  (∀ h writer, route_for config req (Some h) → CallCustomRoute a writer req = h writer req) ∧
  ((∀ h, ¬ route_for config req h) → ∀ writer,
     CallCustomRoute a writer req = returns (Some ErrCustomRouteNotFound)).
Proof.
  intros Ht%NewApp_tables Hp Hreq. split.
  - intros h writer H. by apply (CallCustomRoute_found config).
  - intros H writer. by apply (CallCustomRoute_not_found config).
Qed.

Lemma CallCustomRoute_dispatch_witness :
  CallCustomRoute test_app 0 (bar_request "Foo" "") = hello 0 (bar_request "Foo" "") ∧
  CallCustomRoute test_app 0 (bar_request "" "foos") = hello 0 (bar_request "" "foos").
Proof.
  assert (∀ kind plural, proper_request (bar_request kind plural) →
    names_kind (mkFullIdentifier "ns" "a" "g" "v1" kind plural) test_managed →
    CallCustomRoute test_app 0 (bar_request kind plural) = hello 0 (bar_request kind plural)) as H.
  { intros kind plural Hreq Hn.
    destruct (CallCustomRoute_dispatch test_config no_supplier tt no_patchers (λ _, 0%nat) test_runnable
      (NewInformerController 0 (DefaultInformerControllerConfig 0), test_world) test_app
      test_new_app.2 (bar_request kind plural)) as [Hf _].
    - exact test_new_app_ok.
    - apply test_config_proper.
    - exact Hreq.
    - apply Hf. eapply (route_of_kind _ _ test_managed (mkAppCustomRoute "get" "/bar")).
      + apply elem_of_cons. left. reflexivity.
      + apply list_elem_of_singleton. reflexivity.
      + exact Hn.
      + split; reflexivity. }
  assert (valid_kind "Foo") by by repeat split.
  split; (apply H; [split; [by repeat split|]; split; [by repeat split|]; split; [done|] | by repeat split]);
    [by right | by left].
Defined.
