(* ===== verification/Health.v ===== *)
(** * Health checks and the metrics server ([health/], [operator/metrics_server.go])

    The observer that collects the results of registered checks, and the handlers the
    metrics server has on its [http.ServeMux].  A check is a value of a type [C] with a name
    and a function; the locks make each operation one step. *)
From S2P Require Import Prelude Resource Concrete.

#[local] Open Scope string_scope.
#[local] Open Scope list_scope.

(** ** [health/observer.go] *)
Record CheckResult := mkCheckResult { chk_Name : string; chk_Error : option GoError }.

Definition newline : string := String "010" EmptyString.

Definition CheckResult_String (c : CheckResult) : string :=
  chk_Name c +:+ ": " +:+ match chk_Error c with None => "ok" | Some e => Error e end.

Record CheckStatus := mkCheckStatus { cs_Successful : bool; cs_Results : list CheckResult }.

Definition CheckStatus_String (c : CheckStatus) : string :=
  fold_left (λ b r, b +:+ CheckResult_String r +:+ newline) (cs_Results c) "".

(** [Observer]; [runStatus] is nil until checks have been collected. *)
Record Observer (C : Type) := mkObserver {
  ob_checks : list C;
  ob_runInterval : Z;
  ob_runStatus : option CheckStatus;
}.
Arguments mkObserver {C}.
Arguments ob_checks {C}.
Arguments ob_runInterval {C}.
Arguments ob_runStatus {C}.

Section Observer.
Context {W C : Type} (HealthCheckName : C → string) (HealthCheck : C → M W (option GoError)).

Definition NewObserver (interval : Z) : Observer C := mkObserver [] interval None.

Definition AddChecks (checks : list C) (c : Observer C) : Observer C :=
  mkObserver (ob_checks c ++ checks) (ob_runInterval c) (ob_runStatus c).

Definition Observer_Status (c : Observer C) : option CheckStatus := ob_runStatus c.

(** The loop of [collectChecks]. *)
Fixpoint collect_from (checks : list C) (runStatus : CheckStatus) : M W CheckStatus :=
  match checks with
  | [] => ret runStatus
  | check :: checks =>
      let* err := HealthCheck check in
      collect_from checks
        (mkCheckStatus
           (if cs_Successful runStatus && bool_decide (err ≠ None) then false
            else cs_Successful runStatus)
           (cs_Results runStatus ++ [mkCheckResult (HealthCheckName check) err]))
  end.

Definition collectChecks (c : Observer C) : M W CheckStatus :=
  collect_from (ob_checks c) (mkCheckStatus true []).

(** What [Observer.Run] does at first and at every tick, until its context ends: the new
    state of the observer. *)
Definition Observer_tick (c : Observer C) : M W (Observer C) :=
  let* status := collectChecks c in
  ret (mkObserver (ob_checks c) (ob_runInterval c) (Some status)).

(** ** [operator/metrics_server.go] *)

(** What a pattern of the mux is served by. *)
Inductive mux_handler := Metrics | Pprof | Livez | Readyz.

Record MetricsServer := mkMetricsServer {
  ms_mux : gmap string mux_handler;
  ms_Port : Z;
  ms_observer : Observer C;
}.

Record MetricsServerConfig := mkMetricsServerConfig {
  msc_Port : Z;
  msc_HealthCheckInterval : Z;
}.

Definition default_port (port : Z) : Z := if (port <=? 0)%Z then 9090 else port.
Definition default_interval (interval : Z) : Z :=
  if (interval <=? 0)%Z then 60000000000 else interval.

Definition NewMetricsServer (config : MetricsServerConfig) : MetricsServer :=
  mkMetricsServer ∅ (default_port (msc_Port config))
    (NewObserver (default_interval (msc_HealthCheckInterval config))).

Definition RegisterHealthChecks (checks : list C) (s : MetricsServer) : MetricsServer :=
  mkMetricsServer (ms_mux s) (ms_Port s) (AddChecks checks (ms_observer s)).

(** [mux.Handle], which panics when the pattern has a handler. *)
Definition mux_Handle (pattern : string) (h : mux_handler) (s : MetricsServer) : called MetricsServer :=
  match ms_mux s !! pattern with
  | Some _ => Panics
  | None => Returned (mkMetricsServer (<[pattern := h]> (ms_mux s)) (ms_Port s) (ms_observer s))
  end.

(** Several calls of [mux.Handle] in a row. *)
Definition mux_Handles (hs : list (string * mux_handler)) (s : MetricsServer) : called MetricsServer :=
  fold_left (λ r '(p, h), match r with Returned s => mux_Handle p h s | Panics => Panics end)
    hs (Returned s).

Definition RegisterMetricsHandler (s : MetricsServer) : called MetricsServer :=
  mux_Handles [("/metrics", Metrics)] s.

Definition RegisterProfilingHandlers (s : MetricsServer) : called MetricsServer :=
  mux_Handles [("/debug/pprof/", Pprof); ("/debug/pprof/cmdline", Pprof);
               ("/debug/pprof/profile", Pprof); ("/debug/pprof/symbol", Pprof);
               ("/debug/pprof/trace", Pprof)] s.

Definition registerHealthHandlers (s : MetricsServer) : called MetricsServer :=
  mux_Handles [("/livez", Livez); ("/readyz", Readyz)] s.

(** The handler of [/readyz]: a status code and a body; before any check was collected
    there is no status, and the handler dereferences nil. *)
Definition readyz (s : MetricsServer) : called (Z * string) :=
  match Observer_Status (ms_observer s) with
  | None => Panics
  | Some status =>
      if negb (cs_Successful status) then
        Returned (500%Z, "readiness check failed: " +:+ CheckStatus_String status)
      else Returned (200%Z, CheckStatus_String status)
  end.

(** ** What is reported *)

(** The results of the checks, run one after the other. *)
Inductive checked : list C → W → list CheckResult → W → Prop :=
| checked_none σ : checked [] σ [] σ
| checked_one check checks err results σ σ1 σ2 :
    HealthCheck check σ = (err, σ1) → checked checks σ1 results σ2 →
    checked (check :: checks) σ (mkCheckResult (HealthCheckName check) err :: results) σ2.

Lemma collect_from_spec checks status σ :
  ∃ results σ', checked checks σ results σ' ∧
    collect_from checks status σ =
      (mkCheckStatus (cs_Successful status && forallb (λ r, bool_decide (chk_Error r = None)) results)
         (cs_Results status ++ results), σ').
Proof.
  revert status σ. induction checks as [|check checks IH]; intros [ok rs] σ.
  { exists [], σ. split; [constructor|]. simpl. by rewrite andb_true_r, app_nil_r. }
  simpl. destruct (HealthCheck check σ) as [err σ1] eqn:E. rewrite (bind_run _ _ _ _ _ E).
  destruct (IH (mkCheckStatus (if ok && bool_decide (err ≠ None) then false else ok)
    (rs ++ [mkCheckResult (HealthCheckName check) err])) σ1) as (results & σ' & Hc & ->).
  exists (mkCheckResult (HealthCheckName check) err :: results), σ'.
  split; [by econstructor|]. simpl. rewrite <- app_assoc. do 2 f_equal.
  destruct ok, err; simpl; done.
Qed.
End Observer.

Arguments MetricsServer : clear implicits.

(** ** Properties *)

(** After a tick of the observer, [/readyz] answers 200 exactly when every registered check
    has just passed, and it reports the result of every check, in the order in which they
    were registered. *)
Theorem readyz_reports_checks {W C} HealthCheckName HealthCheck (s : MetricsServer C) (σ : W) :
  ∃ results σ' status,
    checked HealthCheckName HealthCheck (ob_checks (ms_observer s)) σ results σ' ∧
    Observer_tick HealthCheckName HealthCheck (ms_observer s) σ =
      (mkObserver (ob_checks (ms_observer s)) (ob_runInterval (ms_observer s)) (Some status), σ') ∧
    cs_Results status = results ∧
    ∃ body,
      readyz (mkMetricsServer (ms_mux s) (ms_Port s) (mkObserver (ob_checks (ms_observer s))
                (ob_runInterval (ms_observer s)) (Some status))) =
        Returned (if forallb (λ r, bool_decide (chk_Error r = None)) results then 200%Z else 500%Z, body).
Proof.
  destruct (collect_from_spec HealthCheckName HealthCheck (ob_checks (ms_observer s))
    (mkCheckStatus true []) σ) as (results & σ' & Hc & E).
  exists results, σ', (mkCheckStatus (forallb (λ r, bool_decide (chk_Error r = None)) results) results).
  split; [done|]. split.
  { unfold Observer_tick, collectChecks. by rewrite (bind_run _ _ _ _ _ E). }
  split; [done|]. unfold readyz. simpl. destruct (forallb _ _); by eexists.
Qed.
