(* ===== verification/OperatorRunner.v ===== *)
(** * The operator's runner ([operator/runner.go])

    [Runner.Run] builds an operator from an app: it reads the manifest, makes the app,
    registers webhooks for the capabilities the manifest declares, and collects the
    runnables, health checks and metrics; what it then runs is a [MultiRunner].  Reading and
    decoding a manifest file and registering prometheus collectors are arguments. *)
From S2P Require Import Prelude GoValues Resource ResourceWatcher Schema Client Concrete Runners VersionSchema Manifest.
From S2P Require Import Admission Webhooks App SimpleApp Health.

#[local] Open Scope string_scope.
#[local] Open Scope list_scope.

Record capabilities := mkCapabilities {
  cap_conversion : bool;
  cap_mutation : bool;
  cap_validation : bool;
}.

Record RunnerMetricsConfig := mkRunnerMetricsConfig {
  rm_MetricsServerConfig : MetricsServerConfig;
  rm_Namespace : string;
  rm_Enabled : bool;
  rm_ProfilingEnabled : bool;
}.

Record RunnerConfig (KubeConfig : Type) := mkRunnerConfig {
  rc_WebhookPort : Z;
  rc_TLSConfig : TLSConfig;
  rc_MetricsConfig : RunnerMetricsConfig;
  rc_HealthCheck : option nat;
  rc_KubeConfig : KubeConfig;
}.
Arguments mkRunnerConfig {KubeConfig}.
Arguments rc_WebhookPort {KubeConfig}.
Arguments rc_TLSConfig {KubeConfig}.
Arguments rc_MetricsConfig {KubeConfig}.
Arguments rc_HealthCheck {KubeConfig}.
Arguments rc_KubeConfig {KubeConfig}.

(** [Runner]; the metrics exporter is there when [r_exporter] is set, and its registry is
    part of the world. *)
Record Runner (W KubeConfig : Type) := mkRunner {
  r_config : RunnerConfig KubeConfig;
  r_webhookServer : option (WebhookServer W);
  r_exporter : bool;
  r_healthCheck : option nat;
  r_metricsServer : MetricsServer nat;
  r_running : bool;
}.
Arguments mkRunner {W KubeConfig}.
Arguments r_config {W KubeConfig}.
Arguments r_webhookServer {W KubeConfig}.
Arguments r_exporter {W KubeConfig}.
Arguments r_healthCheck {W KubeConfig}.
Arguments r_metricsServer {W KubeConfig}.
Arguments r_running {W KubeConfig}.

Section Runner.
Context {W KubeConfig Specific PathProps RouteSchema G : Type}.
Context `{KN : !KindNames}.

(** The configuration with its defaults. *)
Definition default_config (cfg : RunnerConfig KubeConfig) : RunnerConfig KubeConfig :=
  let m := rc_MetricsConfig cfg in
  let s := rm_MetricsServerConfig m in
  mkRunnerConfig (rc_WebhookPort cfg) (rc_TLSConfig cfg)
    (mkRunnerMetricsConfig
       (mkMetricsServerConfig (default_port (msc_Port s)) (default_interval (msc_HealthCheckInterval s)))
       (rm_Namespace m) (rm_Enabled m) (rm_ProfilingEnabled m))
    (rc_HealthCheck cfg) (rc_KubeConfig cfg).

(** [NewRunner] *)
Definition NewRunner (cfg : RunnerConfig KubeConfig) : called (Runner W KubeConfig + GoError) :=
  let cfg := default_config cfg in
  let metrics := NewMetricsServer (rm_MetricsServerConfig (rc_MetricsConfig cfg)) in
  let op ws := mkRunner cfg ws (rm_Enabled (rc_MetricsConfig cfg)) (rc_HealthCheck cfg) metrics false in
  if String.eqb (CertPath (rc_TLSConfig cfg)) "" then Returned (inl (op None))
  else
    match NewWebhookServer (mkWebhookServerConfig W (rc_WebhookPort cfg) (rc_TLSConfig cfg) [] [] [] None None) with
    | Panics => Panics
    | Returned (inr e) => Returned (inr e)
    | Returned (inl ws) => Returned (inl (op (Some ws)))
    end.

(** ** The manifest *)
Context (read_file : string → string + GoError)
  (unmarshal_manifest : string → ManifestData PathProps RouteSchema G + GoError).

(** [getManifestData] *)
Definition getManifestData (manifest : Manifest (PathProps:=PathProps) (RouteSchema:=RouteSchema) (G:=G))
  : ManifestData PathProps RouteSchema G + GoError :=
  let type := loc_Type (man_Location manifest) in
  if String.eqb type ManifestLocationEmbedded then
    match man_Data manifest with
    | None => inr (ErrorString "no ManifestData in Manifest")
    | Some data => inl data
    end
  else if String.eqb type ManifestLocationFilePath then
    match read_file (loc_Path (man_Location manifest)) with
    | inr e => inr (WrapError ("error reading manifest file from disk (path: " +:+
                               loc_Path (man_Location manifest) +:+ "): ") e)
    | inl contents =>
        match unmarshal_manifest contents with
        | inr e => inr (WrapError "unable to unmarshal manifest data: " e)
        | inl data => inl data
        end
    end
  else if String.eqb type ManifestLocationAPIServerResource then
    inr (ErrorString "apiserver location not supported yet")
  else inl ManifestData_zero.

(** ** Capabilities and webhooks *)

(** The kinds of the versions of a manifest, with the name of their version. *)
Definition manifest_kinds (m : ManifestData PathProps RouteSchema G)
  : list (string * ManifestVersionKind PathProps G) :=
  elems (md_Versions m) ≫= λ v, (mv_Name v,.) <$> elems (mv_Kinds v).

Definition vk_key (kind version : string) : string := kind +:+ "/" +:+ version.

(** The loop over the versions and kinds: whether there are any webhooks, and the
    capabilities of every kind and version. *)
Definition add_capabilities (s : bool * gmap string capabilities)
    (vk : string * ManifestVersionKind PathProps G) : bool * gmap string capabilities :=
  let '(anyWebhooks, vkCapabilities) := s in
  let '(version, kind) := vk in
  let key := vk_key (mvk_Kind kind) version in
  match mvk_Admission kind with
  | None =>
      if mvk_Conversion kind then (true, <[key := mkCapabilities true false false]> vkCapabilities)
      else (anyWebhooks, vkCapabilities)
  | Some admission =>
      (anyWebhooks || (mvk_Conversion kind || SupportsAnyMutation admission || SupportsAnyValidation admission),
       <[key := mkCapabilities (mvk_Conversion kind) (SupportsAnyMutation admission)
                  (SupportsAnyValidation admission)]> vkCapabilities)
  end.

Definition manifest_capabilities (m : ManifestData PathProps RouteSchema G) : bool * gmap string capabilities :=
  fold_left add_capabilities (manifest_kinds m) (false, ∅).

(** [translateAdmissionRequest] and [translateMutatingResponse] only change the types. *)
Definition translateAdmissionRequest (request : AdmissionRequest) : AdmissionRequest := request.
Definition translateMutatingResponse (response : option MutatingResponse) : option MutatingResponse := response.

(** The controllers of an app. *)
Definition validate_with (a : App W) : ValidatingAdmissionController W :=
  SimpleValidatingAdmissionController
    (Some (λ request, app_Validate a (translateAdmissionRequest request))).

Definition mutate_with (a : App W) : MutatingAdmissionController W :=
  SimpleMutatingAdmissionController
    (Some (λ request,
       let! '(resp, err) := app_Mutate a (translateAdmissionRequest request) in
       returns (translateMutatingResponse resp, err))).

(** [toWebhookConverter]; a nil result without an error is dereferenced. *)
Definition toWebhookConverter (a : App W) : Converter W := λ obj targetAPIVersion,
  let! '(converted, err) :=
    app_Convert a (mkAppConversionRequest
      (FromAPIVersionAndKind (raw_APIVersion obj) (raw_Kind obj))
      (FromAPIVersionAndKind targetAPIVersion (raw_Kind obj))
      (mkRawObject (raw_Raw obj) None KindEncodingJSON)) in
  match err with
  | Some e => returns ("", Some e)
  | None => match converted with
            | None => panic
            | Some o => returns (ro_Raw o, None)
            end
  end.

(** The registration of a managed kind. *)
Definition register_webhooks (a : App W) (vkCapabilities : gmap string capabilities)
    (kind : Kind (W:=W)) (ws : WebhookServer W) : called (WebhookServer W) :=
  match kind_gvk kind with
  | None => Panics
  | Some k =>
      match vkCapabilities !! vk_key (g_Kind k) (g_Version k) with
      | None => Returned ws
      | Some c =>
          let ws := if cap_validation c then AddValidatingAdmissionController (Some (validate_with a)) kind ws
                    else Returned ws in
          let ws := match ws with
                    | Panics => Panics
                    | Returned ws =>
                        if cap_mutation c then AddMutatingAdmissionController (Some (mutate_with a)) kind ws
                        else Returned ws
                    end in
          match ws with
          | Panics => Panics
          | Returned ws =>
              Returned (if cap_conversion c
                        then AddConverter (Some (toWebhookConverter a)) (g_Group k) (g_Kind k) ws
                        else ws)
          end
      end
  end.

(** Everything [Run] does about webhooks: the new server. *)
Definition setup_webhooks (a : App W) (m : ManifestData PathProps RouteSchema G)
    (server : option (WebhookServer W)) : called (option (WebhookServer W) + GoError) :=
  let '(anyWebhooks, vkCapabilities) := manifest_capabilities m in
  if anyWebhooks then
    match server with
    | None => Returned (inr (ErrorString "app has capabilities that require webhooks, but webhook server was not provided TLS config"))
    | Some ws =>
        match loop (register_webhooks a vkCapabilities) (app_ManagedKinds a) ws with
        | Panics => Panics
        | Returned ws => Returned (inl (Some ws))
        end
    end
  else Returned (inl server).

(** ** [Run], up to the call of the multi runner

    [register_collectors] is [Exporter.RegisterCollectors]; [server_runnable] and
    [metrics_runnable] are the singleton runners of the webhook and the metrics server,
    [self] the runner's own health check. *)
Context (register_collectors : list Collector → M W (option GoError))
  (server_runnable metrics_runnable : Runnable) (self : nat).

Definition with_server (ws : option (WebhookServer W)) (s : Runner W KubeConfig) : Runner W KubeConfig :=
  mkRunner (r_config s) ws (r_exporter s) (r_healthCheck s) (r_metricsServer s) (r_running s).

Definition with_metricsServer (ms : MetricsServer nat) (s : Runner W KubeConfig) : Runner W KubeConfig :=
  mkRunner (r_config s) (r_webhookServer s) (r_exporter s) (r_healthCheck s) ms (r_running s).

Definition set_running (b : bool) (s : Runner W KubeConfig) : Runner W KubeConfig :=
  mkRunner (r_config s) (r_webhookServer s) (r_exporter s) (r_healthCheck s) (r_metricsServer s) b.

(** The runnables: the webhook server, when there are webhooks, and the app's. *)
Definition app_runnables (anyWebhooks : bool) (a : App W) : MultiRunner :=
  let runner := NewMultiRunner in
  let runner := if anyWebhooks then MultiRunner_AddRunnable server_runnable runner else runner in
  match app_Runner a with
  | Some r => MultiRunner_AddRunnable r runner
  | None => runner
  end.

(** Metrics: the collectors of the runner and of the app are registered, and [/metrics] is
    served. *)
Definition setup_metrics (runner : MultiRunner) (a : App W) (s : Runner W KubeConfig)
  : MP W (MetricsServer nat + GoError) :=
  if r_exporter s then
    let! err := calls (register_collectors (MultiRunner_PrometheusCollectors runner) ;;?
                       register_collectors (app_PrometheusCollectors a)) in
    match err with
    | Some e => returns (inr e)
    | None => ret (match RegisterMetricsHandler (r_metricsServer s) with
                   | Panics => Panics
                   | Returned ms => Returned (inl ms)
                   end)
    end
  else returns (inl (r_metricsServer s)).

Definition setup_profiles (s : Runner W KubeConfig) (ms : MetricsServer nat) : called (MetricsServer nat) :=
  if rm_ProfilingEnabled (rc_MetricsConfig (r_config s)) then RegisterProfilingHandlers ms
  else Returned ms.

Definition setup_health (runner : MultiRunner) (a : App W) (ms : MetricsServer nat) : MetricsServer nat :=
  RegisterHealthChecks (app_HealthChecks a)
    (RegisterHealthChecks (MultiRunner_HealthChecks runner) (RegisterHealthChecks [self] ms)).

(** The rest of [Run], once the app is made. *)
Definition run_app (m : ManifestData PathProps RouteSchema G) (a : App W) (s : Runner W KubeConfig)
  : MP W (Runner W KubeConfig * (MultiRunner + GoError)) :=
  let s := set_running true s in
  match setup_webhooks a m (r_webhookServer s) with
  | Panics => panic
  | Returned (inr e) => returns (s, inr e)
  | Returned (inl ws) =>
      let s := with_server ws s in
      let runner := app_runnables (manifest_capabilities m).1 a in
      let! ms := setup_metrics runner a s in
      match ms with
      | inr e => returns (s, inr e)
      | inl ms =>
          match setup_profiles s ms with
          | Panics => panic
          | Returned ms =>
              returns (with_metricsServer (setup_health runner a ms) s,
                       inl (MultiRunner_AddRunnable metrics_runnable runner))
          end
      end
  end.

(** [Run]: the runner afterwards, and the multi runner whose [Run] is called, or an
    error; a nil provider is [None]. *)
Definition Runner_Run (provider : option (Provider (W:=W) (PathProps:=PathProps) (RouteSchema:=RouteSchema)
    (G:=G) (KubeConfig:=KubeConfig) (Specific:=Specific))) (s : Runner W KubeConfig)
  : MP W (Runner W KubeConfig * (MultiRunner + GoError)) :=
  match provider with
  | None => returns (s, inr (ErrorString "provider cannot be nil"))
  | Some provider =>
      match getManifestData (pv_Manifest provider) with
      | inr e => returns (s, inr (WrapError "unable to get app manifest capabilities: " e))
      | inl manifestData =>
          let! a := calls (pv_NewApp provider
                             (mkProviderConfig (rc_KubeConfig (r_config s)) manifestData (pv_SpecificConfig provider))) in
          match a with
          | inr e => returns (s, inr e)
          | inl a => run_app manifestData a s
          end
      end
  end.

(** [HealthCheck] of the runner *)
Definition Runner_HealthCheck (s : Runner W KubeConfig) : option GoError :=
  if r_running s then None else Some (ErrorString "app has not started yet").
End Runner.

(** ** The capabilities of a manifest *)
Section Capabilities.
Context {PathProps RouteSchema G : Type}.

Definition caps_of (k : ManifestVersionKind PathProps G) : option capabilities :=
  match mvk_Admission k with
  | None => if mvk_Conversion k then Some (mkCapabilities true false false) else None
  | Some c => Some (mkCapabilities (mvk_Conversion k) (SupportsAnyMutation c) (SupportsAnyValidation c))
  end.

(** Some capability of a kind needs a webhook. *)
Definition needs_webhook (k : ManifestVersionKind PathProps G) : bool :=
  match caps_of k with
  | Some c => cap_conversion c || cap_mutation c || cap_validation c
  | None => false
  end.

Definition entry_key (vk : string * ManifestVersionKind PathProps G) : string :=
  vk_key (mvk_Kind vk.2) vk.1.

Lemma add_capabilities_eq any m vk :
  add_capabilities (any, m) vk =
    (any || needs_webhook vk.2,
     match caps_of vk.2 with Some c => <[entry_key vk := c]> m | None => m end).
Proof.
  destruct vk as [v k]. unfold add_capabilities, needs_webhook, caps_of, entry_key. cbn.
  destruct (mvk_Admission k); cbn; [done|].
  destruct (mvk_Conversion k); cbn; [by rewrite orb_true_r | by rewrite orb_false_r].
Qed.

Lemma capabilities_any l any m :
  (fold_left add_capabilities l (any, m)).1 = any || existsb (λ vk, needs_webhook vk.2) l.
Proof.
  revert any m. induction l as [|vk l IH]; intros any m; [by rewrite orb_false_r|].
  change (fold_left add_capabilities (vk :: l) (any, m))
    with (fold_left add_capabilities l (add_capabilities (any, m) vk)).
  by rewrite add_capabilities_eq, IH; simpl; rewrite orb_assoc.
Qed.

Lemma capabilities_other l any m key :
  key ∉ entry_key <$> l → (fold_left add_capabilities l (any, m)).2 !! key = m !! key.
Proof.
  revert any m. induction l as [|vk l IH]; intros any m H; [done|]. csimpl in H.
  apply not_elem_of_cons in H as [Hne H].
  change (fold_left add_capabilities (vk :: l) (any, m))
    with (fold_left add_capabilities l (add_capabilities (any, m) vk)).
  rewrite add_capabilities_eq, IH by done. destruct (caps_of vk.2); [|done].
  by rewrite lookup_insert_ne.
Qed.

Lemma capabilities_lookup l any m vk :
  NoDup (entry_key <$> l) → vk ∈ l → m !! entry_key vk = None →
  (fold_left add_capabilities l (any, m)).2 !! entry_key vk = caps_of vk.2.
Proof.
  revert any m. induction l as [|x l IH]; intros any m Hnd; [by intros ?%elem_of_nil|]. csimpl in Hnd.
  apply NoDup_cons in Hnd as [Hx Hnd]. intros Hin Hm.
  change (fold_left add_capabilities (x :: l) (any, m))
    with (fold_left add_capabilities l (add_capabilities (any, m) x)).
  rewrite add_capabilities_eq. apply elem_of_cons in Hin as [->|Hin].
  - rewrite capabilities_other by done. destruct (caps_of x.2); [by rewrite lookup_insert_eq | done].
  - apply IH; [done..|]. destruct (caps_of x.2); [|done]. rewrite lookup_insert_ne; [done|].
    intros E. apply Hx. rewrite E. by apply list_elem_of_fmap_2.
Qed.

(** A manifest in which no version has a kind twice. *)
Definition distinct_kinds (m : ManifestData PathProps RouteSchema G) : Prop :=
  NoDup (entry_key <$> manifest_kinds m).

Lemma elem_of_manifest_kinds (m : ManifestData PathProps RouteSchema G) v k :
  v ∈ elems (md_Versions m) → k ∈ elems (mv_Kinds v) → (mv_Name v, k) ∈ manifest_kinds m.
Proof.
  intros Hv Hk. unfold manifest_kinds. apply list_elem_of_bind. exists v. split; [|done].
  by apply list_elem_of_fmap_2.
Qed.

Lemma manifest_capabilities_lookup (m : ManifestData PathProps RouteSchema G) v k :
  distinct_kinds m → v ∈ elems (md_Versions m) → k ∈ elems (mv_Kinds v) →
  (manifest_capabilities m).2 !! vk_key (mvk_Kind k) (mv_Name v) = caps_of k ∧
  (needs_webhook k = true → (manifest_capabilities m).1 = true).
Proof.
  intros Hd Hv Hk. pose proof (elem_of_manifest_kinds m v k Hv Hk) as Hin. split.
  - exact (capabilities_lookup _ false ∅ (mv_Name v, k) Hd Hin (lookup_empty _)).
  - intros Hn. unfold manifest_capabilities. rewrite capabilities_any. simpl.
    apply existsb_exists. exists (mv_Name v, k). split; [|done]. by apply list_elem_of_In.
Qed.
End Capabilities.

(** ** The webhooks of an app *)
Section Registration.
Context {W : Type} `{KN : !KindNames} (a : App W) (caps : gmap string capabilities).

(** Whether a kind has a capability. *)
Definition has_cap (f : capabilities → bool) (k : GVK) : bool :=
  match caps !! vk_key (g_Kind k) (g_Version k) with Some c => f c | None => false end.

Definition controller_entries {C} (f : capabilities → bool) (c : C) (kinds : list (Kind (W:=W)))
  : list (string * (Kind (W:=W) * option C)) :=
  (λ kind, (gvk (gvk_of kind), (kind, Some c))) <$> filter (λ kind, has_cap f (gvk_of kind) = true) kinds.

Definition webhook_converters (kinds : list (Kind (W:=W))) : list (string * option (Converter W)) :=
  (λ kind, (gk (g_Group (gvk_of kind)) (g_Kind (gvk_of kind)), Some (toWebhookConverter a)))
    <$> filter (λ kind, has_cap cap_conversion (gvk_of kind) = true) kinds.

(** A server with exactly the webhooks of these kinds. *)
Definition server_of (kinds : list (Kind (W:=W))) (ws : WebhookServer W) : Prop :=
  items (validatingControllers ws) = table (controller_entries cap_validation (validate_with a) kinds) ∧
  items (mutatingControllers ws) = table (controller_entries cap_mutation (mutate_with a) kinds) ∧
  items (converters ws) = table (webhook_converters kinds) ∧
  DefaultValidatingController ws = None ∧ DefaultMutatingController ws = None.

Lemma entries_snoc {C} f (c : C) kinds kind :
  table (controller_entries f c (kinds ++ [kind])) =
    if has_cap f (gvk_of kind) then <[gvk (gvk_of kind) := (kind, Some c)]> (table (controller_entries f c kinds))
    else table (controller_entries f c kinds).
Proof.
  unfold controller_entries. rewrite filter_app, fmap_app.
  destruct (has_cap f (gvk_of kind)) eqn:E.
  - rewrite filter_cons_True by done. apply table_snoc.
  - rewrite filter_cons_False by (by rewrite E). by rewrite app_nil_r.
Qed.

Lemma converters_snoc kinds kind :
  table (webhook_converters (kinds ++ [kind])) =
    if has_cap cap_conversion (gvk_of kind)
    then <[gk (g_Group (gvk_of kind)) (g_Kind (gvk_of kind)) := Some (toWebhookConverter a)]> (table (webhook_converters kinds))
    else table (webhook_converters kinds).
Proof.
  unfold webhook_converters. rewrite filter_app, fmap_app.
  destruct (has_cap cap_conversion (gvk_of kind)) eqn:E.
  - rewrite filter_cons_True by done. apply table_snoc.
  - rewrite filter_cons_False by (by rewrite E). by rewrite app_nil_r.
Qed.

Lemma register_webhooks_server kinds kind ws :
  server_of kinds ws → is_Some (k_Schema kind) →
  ∃ ws', register_webhooks a caps kind ws = Returned ws' ∧ server_of (kinds ++ [kind]) ws'.
Proof.
  intros (Hv & Hm & Hc & Hd & Hd') [sch Hs]. unfold server_of. setoid_rewrite entries_snoc.
  setoid_rewrite converters_snoc. unfold register_webhooks, has_cap.
  unfold AddValidatingAdmissionController, AddMutatingAdmissionController, AddConverter.
  assert (kind_gvk kind = Some (gvk_of kind)) as -> by (unfold gvk_of, kind_gvk; by rewrite Hs).
  destruct (caps !! _) as [[[] [] []]|]; simpl; (eexists; split; [reflexivity|]); simpl;
    by rewrite ?Hv, ?Hm, ?Hc.
Qed.

Lemma register_all kinds new_kinds ws :
  server_of kinds ws → Forall (λ kind, is_Some (k_Schema kind)) new_kinds →
  ∃ ws', loop (register_webhooks a caps) new_kinds ws = Returned ws' ∧ server_of (kinds ++ new_kinds) ws'.
Proof.
  revert kinds ws. induction new_kinds as [|kind l IH]; intros kinds ws Hws HF.
  { exists ws. by rewrite app_nil_r. }
  apply Forall_cons in HF as [Hs HF].
  destruct (register_webhooks_server kinds kind ws Hws Hs) as (ws1 & E & H1).
  destruct (IH _ _ H1 HF) as (ws' & E' & H'). exists ws'.
  rewrite <- app_assoc in H'. split; [|done]. unfold loop in *. simpl. by rewrite E.
Qed.
End Registration.

Lemma NoDup_fmap_filter {A B} (f : A → B) (P : A → Prop) `{∀ x, Decision (P x)} (l : list A) :
  NoDup (f <$> l) → NoDup (f <$> filter P l).
Proof.
  induction l as [|x l IH]; [done|]. csimpl. intros [Hx H']%NoDup_cons.
  destruct (decide (P x)); [rewrite filter_cons_True by done | rewrite filter_cons_False by done; auto].
  csimpl. apply NoDup_cons. split; [|auto].
  intros (y & E & [_ Hy]%list_elem_of_filter)%list_elem_of_fmap. apply Hx. rewrite E.
  by apply list_elem_of_fmap_2.
Qed.

(** ** From a webhook request to the app's functions *)
Section EndToEnd.
Context {W Clients KubeConfig : Type} `{KN : !KindNames, KL : !KindNamesLaws, RO : !RangeOrder}.
Context (config : AppConfig W Clients KubeConfig) (a : SimpleApp W).
Context (Ht : tables_of config a) (Hp : proper_config config).

Lemma elem_of_ManagedKinds kind :
  kind ∈ ManagedKinds a ↔ ∃ mk, mk ∈ ac_ManagedKinds config ∧ kind = amk_Kind mk.
Proof using Ht Hp.
  destruct Ht as (Hk & _). unfold ManagedKinds. rewrite list_elem_of_fmap. split.
  - intros ([key mk] & -> & Hin). apply elem_of_range_map in Hin.
    rewrite Hk, table_lookup in Hin by (by apply NoDup_kind_keys).
    apply list_elem_of_fmap in Hin as (mk' & E & Hin). unfold kind_entry in E. injection E as _ ->.
    by exists mk'.
  - intros (mk & Hmk & ->). exists (kind_entry mk). split; [done|].
    rewrite (surjective_pairing (kind_entry mk)). apply elem_of_range_map.
    rewrite Hk, table_lookup by (by apply NoDup_kind_keys). apply list_elem_of_fmap. by exists mk.
Qed.

Lemma NoDup_ManagedKinds : NoDup (gvk_of <$> ManagedKinds a).
Proof using Ht Hp.
  unfold ManagedKinds. rewrite <- list_fmap_compose.
  eapply (NoDup_fmap_key fst); [|rewrite range_map_fst; apply NoDup_range_keys].
  intros [key1 mk1] [key2 mk2] H1 H2 E. unfold compose in E. cbn in E.
  apply elem_of_range_map in H1, H2. destruct Ht as (Hk & _).
  rewrite Hk, table_lookup in H1, H2 by (by apply NoDup_kind_keys).
  apply list_elem_of_fmap in H1 as (x1 & E1 & _), H2 as (x2 & E2 & _).
  unfold kind_entry in E1, E2. injection E1 as -> ->. injection E2 as -> ->. cbn. by rewrite E.
Qed.

Lemma ManagedKinds_schema : Forall (λ kind, is_Some (k_Schema kind)) (ManagedKinds a).
Proof using Ht Hp.
  apply Forall_forall. intros kind (mk & Hmk & ->)%elem_of_ManagedKinds.
  destruct Ht as (_ & _ & _ & _ & _ & HF). rewrite Forall_forall in HF. by destruct (HF mk Hmk).
Qed.

(** The controller of a managed kind with a capability, in the table of controllers. *)
Lemma controller_registered {C} caps f (c : C) mk :
  mk ∈ ac_ManagedKinds config → has_cap caps f (gvk_of (amk_Kind mk)) = true →
  table (controller_entries caps f c (ManagedKinds a)) !! gvk (gvk_of (amk_Kind mk)) =
    Some (amk_Kind mk, Some c).
Proof using Ht Hp KL.
  intros Hmk Hcap. apply table_lookup.
  - unfold controller_entries. rewrite <- list_fmap_compose.
    eapply (NoDup_fmap_key gvk_of).
    + intros x y Hx Hy E. unfold compose in E. cbn in E.
      apply list_elem_of_filter in Hx as [_ (mx & Hx & ->)%elem_of_ManagedKinds].
      apply list_elem_of_filter in Hy as [_ (my & Hy & ->)%elem_of_ManagedKinds].
      apply metav1_String_inj; [by apply (proper_names _ Hp).. | exact E].
    + apply NoDup_fmap_filter, NoDup_ManagedKinds.
  - unfold controller_entries. apply list_elem_of_fmap. exists (amk_Kind mk). split; [done|].
    apply list_elem_of_filter. split; [done|]. apply elem_of_ManagedKinds. by exists mk.
Qed.

(** A kind that is not managed, or has not the capability, has no controller. *)
Lemma controller_absent {C} caps f (c : C) k :
  valid_gvk k → (has_cap caps f k = true → ∀ mk, mk ∈ ac_ManagedKinds config → gvk_of (amk_Kind mk) ≠ k) →
  table (controller_entries caps f c (ManagedKinds a)) !! gvk k = None.
Proof using Ht Hp KL.
  intros Hk H. apply table_None. unfold controller_entries. rewrite <- list_fmap_compose.
  intros (kind & E & Hin)%list_elem_of_fmap. unfold compose in E. cbn in E.
  apply list_elem_of_filter in Hin as [Hcap (mk & Hmk & ->)%elem_of_ManagedKinds].
  apply metav1_String_inj in E as ->; [|done | by apply (proper_names _ Hp)].
  by apply (H Hcap mk Hmk).
Qed.

(** The converter of a managed kind with conversion. *)
Lemma converter_registered caps A mk :
  mk ∈ ac_ManagedKinds config → has_cap caps cap_conversion (gvk_of (amk_Kind mk)) = true →
  table (webhook_converters A caps (ManagedKinds a)) !!
    gk (g_Group (gvk_of (amk_Kind mk))) (g_Kind (gvk_of (amk_Kind mk))) = Some (Some (toWebhookConverter A)).
Proof using Ht Hp.
  intros Hmk Hcap.
  assert (∀ key c, table (webhook_converters A caps (ManagedKinds a)) !! key = Some c →
    c = Some (toWebhookConverter A)) as Hall.
  { intros key c H. unfold table in H. apply elem_of_list_to_map_2 in H.
    rewrite elem_of_reverse in H. unfold webhook_converters in H.
    by apply list_elem_of_fmap in H as (kind & [= _ ->] & _). }
  destruct (table _ !! _) as [c|] eqn:E; [by rewrite (Hall _ _ E)|].
  apply table_None in E. destruct E. unfold webhook_converters. rewrite <- list_fmap_compose.
  apply list_elem_of_fmap. exists (amk_Kind mk). split; [done|]. apply list_elem_of_filter.
  split; [done|]. apply elem_of_ManagedKinds. by exists mk.
Qed.

(** The kind of the app that a request names. *)
Lemma find_kind_managed mk req :
  mk ∈ ac_ManagedKinds config →
  mkGVK (ar_Group req) (ar_Version req) (ar_Kind req) = gvk_of (amk_Kind mk) →
  find_kind a req = Some mk.
Proof using Ht Hp.
  intros Hmk E. unfold find_kind.
  pose proof (proper_names _ Hp _ Hmk) as Hv. rewrite <- E in Hv. destruct Hv as ((? & _) & (_ & ? & _) & _).
  by apply (lookup_kind config a Ht Hp).
Qed.
End EndToEnd.

(** ** A running operator *)

(** A webhook server without webhooks. *)
Definition fresh_server {W} (ws : WebhookServer W) : Prop :=
  items (validatingControllers ws) = ∅ ∧ items (mutatingControllers ws) = ∅ ∧
  items (converters ws) = ∅ ∧
  DefaultValidatingController ws = None ∧ DefaultMutatingController ws = None.

Section Deployed.
Context {W Clients KubeConfig RunnerKubeConfig PathProps RouteSchema G : Type}.
Context `{WW : !World W, MM : !Memory W, AE : !ApiErrors, KN : !KindNames, KL : !KindNamesLaws, RO : !RangeOrder}.

(** A simple app was made, its manifest was validated, and [Run] of a new runner has come
    to the call of its multi runner. *)
Record deployed (config : AppConfig W Clients KubeConfig) (a : SimpleApp W)
    (m : ManifestData PathProps RouteSchema G) (r : Runner W RunnerKubeConfig) : Prop := mkDeployed {
  dep_app : ∃ supplier clients ForKind new_id controller s s',
    NewApp config supplier clients ForKind new_id controller s = (inl a, s');
  dep_proper : proper_config config;
  dep_manifest : ValidateManifest a m = None;
  dep_distinct : distinct_kinds m;
  dep_names v k : v ∈ elems (md_Versions m) → k ∈ elems (mv_Kinds v) →
    valid_gvk (mkGVK (md_Group m) (mv_Name v) (mvk_Kind k));
  dep_run : ∃ register_collectors server_runnable metrics_runnable self checks as_runnable r0 runner w w',
    (∀ ws, r_webhookServer r0 = Some ws → fresh_server ws) ∧
    run_app register_collectors server_runnable metrics_runnable self m (as_App checks as_runnable a) r0 w =
      (Returned (r, inl runner), w');
}.

Lemma run_app_server rc sr mr self (m : ManifestData PathProps RouteSchema G) (A : App W)
    (r r0 : Runner W RunnerKubeConfig) runner w w' :
  run_app rc sr mr self m A r0 w = (Returned (r, inl runner), w') →
  (manifest_capabilities m).1 = true → Forall (λ kind, is_Some (k_Schema kind)) (app_ManagedKinds A) →
  (∀ ws, r_webhookServer r0 = Some ws → fresh_server ws) →
  ∃ ws, r_webhookServer r = Some ws ∧
    server_of A (manifest_capabilities m).2 (app_ManagedKinds A) ws.
Proof.
  intros H Hany HF Hfresh. unfold run_app in H.
  destruct (setup_webhooks _ _ _) as [[ows|e]|] eqn:E; [|done..].
  assert (r_webhookServer r = ows) as <-.
  { unfold and_returns, bind in H. destruct (setup_metrics _ _ _ _ w) as [[[ms|e]|] w1]; [|done..].
    destruct (setup_profiles _ ms); [|done]. by injection H as <- _ _. }
  unfold setup_webhooks in E. destruct (manifest_capabilities m) as [any caps]. simpl in *. subst any.
  destruct (r_webhookServer r0) as [ws0|]; [|done]. specialize (Hfresh ws0 eq_refl).
  destruct (register_all A caps [] (app_ManagedKinds A) ws0) as (ws & Ews & Hws); [exact Hfresh | done|].
  rewrite Ews in E. injection E as <-. by exists ws.
Qed.

(** The webhook server of a deployed app, when some kind needs one. *)
Lemma deployed_server config a (m : ManifestData PathProps RouteSchema G) (r : Runner W RunnerKubeConfig) v k :
  deployed config a m r → v ∈ elems (md_Versions m) → k ∈ elems (mv_Kinds v) → needs_webhook k = true →
  tables_of config a ∧ ∃ A ws, r_webhookServer r = Some ws ∧
    app_Validate A = App_Validate a ∧ app_Mutate A = App_Mutate a ∧ app_Convert A = App_Convert a ∧
    server_of A (manifest_capabilities m).2 (ManagedKinds a) ws ∧
    (manifest_capabilities m).2 !! vk_key (mvk_Kind k) (mv_Name v) = caps_of k.
Proof using KL.
  intros [(s0 & cl & fk & ni & co & s & s' & Happ) Hp Hman Hd Hn Hrun] Hv Hk Hneeds.
  apply NewApp_tables in Happ as Ht. split; [done|].
  destruct (manifest_capabilities_lookup m v k Hd Hv Hk) as [Hcaps Hany]. specialize (Hany Hneeds).
  destruct Hrun as (rc & sr & mr & self & checks & ar & r0 & runner & w & w' & Hfresh & Hrun).
  destruct (run_app_server _ _ _ _ _ _ _ _ _ _ _ Hrun Hany) as (ws & Hws & Hserver); [|done|].
  { exact (ManagedKinds_schema config a Ht Hp). }
  exists (as_App checks ar a), ws. by repeat (split; [done|]).
Qed.

(** The managed kind of a kind of the manifest. *)
Lemma deployed_kind config a (m : ManifestData PathProps RouteSchema G) (r : Runner W RunnerKubeConfig) v k :
  deployed config a m r → v ∈ elems (md_Versions m) → k ∈ elems (mv_Kinds v) →
  covers a (md_Group m) (mv_Name v) k ∧ ∃ mk, mk ∈ ac_ManagedKinds config ∧
    gvk_of (amk_Kind mk) = mkGVK (md_Group m) (mv_Name v) (mvk_Kind k) ∧
    sa_kinds a !! app_gvk (md_Group m) (mv_Name v) (mvk_Kind k) = Some mk.
Proof using KL.
  intros [(s0 & cl & fk & ni & co & s & s' & Happ) Hp Hman Hd Hn Hrun] Hv Hk.
  apply NewApp_tables in Happ as Ht. rewrite ValidateManifest_None in Hman.
  specialize (Hman v k Hv Hk). split; [done|]. destruct Hman as [_ (mk & Hmk & _)]. exists mk.
  pose proof (Hn v k Hv Hk) as ((? & _) & (_ & ? & _) & _). simpl in *.
  pose proof Hmk as H2. apply (lookup_kind config a Ht Hp) in H2 as [? ?]; [|done..]. by repeat split.
Qed.
End Deployed.

Section Reach.
Context {W Clients KubeConfig RunnerKubeConfig PathProps RouteSchema G : Type}.
Context `{WW : !World W, MM : !Memory W, AE : !ApiErrors, KN : !KindNames, KL : !KindNamesLaws, RO : !RangeOrder}.
Context `{RJ : !ReviewJSON, DO : !DefaultObject W}.
Context (config : AppConfig W Clients KubeConfig) (a : SimpleApp W)
  (m : ManifestData PathProps RouteSchema G) (r : Runner W RunnerKubeConfig)
  (v : ManifestVersion PathProps RouteSchema G) (k : ManifestVersionKind PathProps G).
Context (Hdep : deployed config a m r) (Hv : v ∈ elems (md_Versions m)) (Hk : k ∈ elems (mv_Kinds v)).

(** A request for validation: the kind it was made for gives the codec, the kind it is
    about gives the validator. *)
Definition validates (ws : WebhookServer W) (mk mk2 : AppManagedKind W) (validator : KindValidator W) : Prop :=
  ∀ req admRev rq admReq err σ σ1 σ2,
    reviewed req admRev rq (gvk_of (amk_Kind mk)) → kr_Kind rq = gvk_of (amk_Kind mk2) →
    translateKubernetesAdmissionRequest rq (amk_Kind mk) σ = (Returned (inl admReq), σ1) →
    validator admReq σ1 = (Returned err, σ2) →
    HandleValidateHTTP ws req σ =
      (Returned (write_review admRev (addAdmissionError (allowed (kr_UID rq)) err)), σ2).

Lemma validation_reaches :
  supports SupportsAnyValidation k = true →
  ∃ ws mk, r_webhookServer r = Some ws ∧ mk ∈ ac_ManagedKinds config ∧
    gvk_of (amk_Kind mk) = mkGVK (md_Group m) (mv_Name v) (mvk_Kind k) ∧ is_Some (amk_Validator mk) ∧
    ∀ mk2 validator, mk2 ∈ ac_ManagedKinds config → amk_Validator mk2 = Some validator →
      validates ws mk mk2 validator.
Proof using Hdep Hv Hk KL.
  intros Hs. destruct (deployed_kind _ _ _ _ v k Hdep Hv Hk) as [[_ Hc] (mk & Hmk & Hg & Hlookup)].
  destruct Hc as (mk' & Hmk' & Hval & _). rewrite Hlookup in Hmk'. injection Hmk' as <-.
  assert (∃ c, caps_of k = Some c ∧ cap_validation c = true) as (c & Hcaps & Hcap).
  { unfold caps_of, supports in *. destruct (mvk_Admission k); [by eexists | done]. }
  assert (needs_webhook k = true) as Hneeds by (unfold needs_webhook; by rewrite Hcaps, Hcap, orb_true_r).
  destruct (deployed_server _ _ _ _ v k Hdep Hv Hk Hneeds) as (Ht & A & ws & Hws & HA & _ & _ & (Hvc & _) & Hl).
  exists ws, mk. do 3 (split; [done|]). split; [by apply Hval|].
  intros mk2 validator Hmk2 Hvalidator req admRev rq admReq err σ σ1 σ2 Hrev Hkind Htr Hrun.
  eapply HandleValidateHTTP_run; [exact Hrev | | exact Htr |].
  - unfold find_controller. rewrite Hvc.
    rewrite (controller_registered config a Ht (dep_proper _ _ _ _ Hdep)); [reflexivity | done |].
    unfold has_cap. rewrite Hg. cbn [g_Kind g_Version]. by rewrite Hl, Hcaps.
  - unfold validate_with, SimpleValidatingAdmissionController, translateAdmissionRequest. rewrite HA.
    unfold App_Validate.
    rewrite (find_kind_managed config a Ht (dep_proper _ _ _ _ Hdep) mk2); [by rewrite Hvalidator|done|].
    destruct (translate_names _ _ _ _ _ Htr) as (-> & -> & ->). rewrite Hkind. by destruct (gvk_of (amk_Kind mk2)).
Qed.

(** The conversion of an object of a kind: the converter of the app is called with the
    kind and version read from the object, and the version that is asked for. *)
Definition converts_with (ws : WebhookServer W) (conv : Converter W) (kind : string) : Prop :=
  ∀ raw tm target σ,
    unmarshal_TypeMeta raw = inl tm → tm_Kind tm = kind →
    let src := FromAPIVersionAndKind (tm_APIVersion tm) kind in
    g_Group src = md_Group m → g_Kind src = kind →
    convert_object ws target raw σ =
      (let! '(out, err) :=
         conv (mkRawKind kind (ToAPIVersionAndKind src).1 (md_Group m) (g_Version src) raw)
           (ToAPIVersionAndKind (FromAPIVersionAndKind target kind)).1 in
       returns (match err with
                | Some _ => inr (500%Z, "Error converting object")
                | None => inl out
                end)) σ.

Lemma conversion_reaches :
  mvk_Conversion k = true →
  ∃ ws c, r_webhookServer r = Some ws ∧
    (GroupKind_String (md_Group m) (mvk_Kind k), c) ∈ converter_entries config ∧
    ∀ conv, c = Some conv → converts_with ws conv (mvk_Kind k).
Proof using Hdep Hv Hk KL.
  intros Hconv. destruct (deployed_kind _ _ _ _ v k Hdep Hv Hk) as [[Hc _] (mk & Hmk & Hg & _)].
  destruct (Hc Hconv) as [c Hcc].
  assert (∃ ca, caps_of k = Some ca ∧ cap_conversion ca = true) as (ca & Hcaps & Hcap).
  { unfold caps_of. rewrite Hconv. destruct (mvk_Admission k); by eexists. }
  assert (needs_webhook k = true) as Hneeds by (unfold needs_webhook; by rewrite Hcaps, Hcap).
  destruct (deployed_server _ _ _ _ v k Hdep Hv Hk Hneeds)
    as (Ht & A & ws & Hws & _ & _ & HA & (_ & _ & Hvc & _) & Hl).
  exists ws, c. split; [done|]. split.
  { destruct Ht as (_ & _ & _ & _ & Hconvs & _). rewrite Hconvs in Hcc. unfold table in Hcc.
    apply elem_of_list_to_map_2 in Hcc. by rewrite elem_of_reverse in Hcc. }
  intros conv -> raw tm target σ Hu Htk src Hsg Hsk.
  pose proof (converter_registered config a Ht (dep_proper _ _ _ _ Hdep) (manifest_capabilities m).2 A mk Hmk) as Hreg.
  rewrite Hg in Hreg. unfold has_cap in Hreg. cbn [g_Kind g_Group g_Version] in Hreg.
  rewrite Hl, Hcaps, <- Hvc in Hreg. rewrite (convert_object_found ws target raw tm (toWebhookConverter A) Hu)
    by (rewrite Htk; fold src; rewrite Hsg; exact (Hreg Hcap)).
  unfold toWebhookConverter, raw_kind. rewrite Htk. fold src. cbn [raw_Kind raw_APIVersion raw_Raw].
  fold src. rewrite HA, (App_Convert_found a _ conv) by (cbn; by rewrite Hsg, Hsk).
  cbn [acr_SourceGVK acr_TargetGVK acr_Raw ro_Raw]. rewrite Hsg, Hsk.
  unfold and_returns, bind, returns, ret. by destruct (conv _ _ σ) as [[[out [e|]]|] σ1].
Qed.
End Reach.

(** ** Running twice *)
Section Twice.
Context {W KubeConfig PathProps RouteSchema G : Type} `{KN : !KindNames}.
Context (rc : list Collector → M W (option GoError)) (sr mr : Runnable) (self : nat).

Lemma mux_Handles_kept hs (s s' : MetricsServer nat) p h :
  mux_Handles hs s = Returned s' → ms_mux s !! p = Some h → ms_mux s' !! p = Some h.
Proof.
  unfold mux_Handles. revert s. induction hs as [|[p' h'] hs IH]; intros s; simpl; [by intros [= ->]|].
  unfold mux_Handle. destruct (ms_mux s !! p') eqn:E.
  - assert (∀ l, fold_left (λ r '(p, h), match r with Returned s => mux_Handle p h s | Panics => Panics end)
      l Panics = Panics (A:=MetricsServer nat)) as Hp by (by intros l; induction l as [|[? ?] l IHl]).
    by rewrite Hp.
  - intros H Hm. apply (IH _ H). simpl. rewrite lookup_insert_ne; [done | congruence].
Qed.

Lemma run_app_metrics (m : ManifestData PathProps RouteSchema G) (A : App W) (r r0 : Runner W KubeConfig) runner w w' :
  run_app rc sr mr self m A r0 w = (Returned (r, inl runner), w') → r_exporter r0 = true →
  r_exporter r = true ∧ r_config r = r_config r0 ∧ ms_mux (r_metricsServer r) !! "/metrics" = Some Metrics.
Proof.
  intros H Hexp. unfold run_app in H. destruct (setup_webhooks _ _ _) as [[ows|e]|]; [|done..].
  unfold and_returns, bind in H.
  destruct (setup_metrics _ _ _ _ w) as [[[ms|e]|] w1] eqn:Em; [|done..].
  assert (ms_mux ms !! "/metrics" = Some Metrics) as Hms.
  { unfold setup_metrics in Em. cbn [r_exporter with_server set_running] in Em. rewrite Hexp in Em.
    unfold and_returns, calls, bind, ret in Em.
    match type of Em with context [and_then ?x ?y w] => destruct (and_then x y w) as [[e|] w2] end; [done|].
    destruct (RegisterMetricsHandler _) as [ms'|] eqn:Er; [|done]. injection Em as -> _.
    unfold RegisterMetricsHandler, mux_Handles, mux_Handle in Er. simpl in Er.
    destruct (ms_mux _ !! "/metrics") in Er; [done|]. injection Er as <-. simpl. by rewrite lookup_insert_eq. }
  destruct (setup_profiles _ ms) as [ms2|] eqn:Ep; [|done]. injection H as <- _ _. split; [done|]. split; [done|].
  unfold setup_profiles in Ep. cbn. destruct (rm_ProfilingEnabled _); [|by injection Ep as <-].
  by apply (mux_Handles_kept _ _ _ _ _ Ep).
Qed.

Lemma setup_metrics_again runner (A : App W) (r : Runner W KubeConfig) w :
  r_exporter r = true → ms_mux (r_metricsServer r) !! "/metrics" = Some Metrics →
  (∀ cs σ, ∃ σ', rc cs σ = (None, σ')) → ∃ w', setup_metrics rc runner A r w = (Panics, w').
Proof.
  intros Hexp Hm Hrc. unfold setup_metrics. rewrite Hexp. unfold and_returns, calls, and_then, bind, ret.
  destruct (Hrc (MultiRunner_PrometheusCollectors runner) w) as [w1 ->].
  destruct (Hrc (app_PrometheusCollectors A) w1) as [w2 ->]. exists w2.
  unfold RegisterMetricsHandler, mux_Handles, mux_Handle. simpl. by rewrite Hm.
Qed.
End Twice.

(** ** Instances for the witnesses *)
Definition test_version_kind (conversion : bool) : ManifestVersionKind unit Empty_set :=
  mkManifestVersionKind "Foo" "foos" "Namespaced"
    (Some (mkAdmissionCapabilities (Some (mkValidationCapability (Some ["CREATE"]))) None))
    None None None conversion None.

Definition test_version (name : string) : ManifestVersion unit unit Empty_set :=
  mkManifestVersion name true (Some [test_version_kind true]) (mkManifestVersionRoutes None None None).

Definition test_manifest : ManifestData unit unit Empty_set :=
  mkManifestData "app" "App" "g" (Some [test_version "v1"; test_version "v2"]) "v1" None None None None.

Definition test_runner_config : RunnerConfig unit :=
  mkRunnerConfig 8443 (mkTLSConfig "cert" "key")
    (mkRunnerMetricsConfig (mkMetricsServerConfig 0 0) "" true false) None tt.

Definition test_runner : Runner TestWorld unit :=
  match NewRunner test_runner_config with
  | Returned (inl r) => r
  | _ => mkRunner test_runner_config None false None (NewMetricsServer (mkMetricsServerConfig 0 0)) false
  end.

Definition test_run : called (Runner TestWorld unit * (MultiRunner + GoError)) * TestWorld :=
  run_app (λ _, ret None) test_runnable test_runnable 7 test_manifest
    (as_App [] (λ _, test_runnable) test_app) test_runner test_world.

Definition test_operator : Runner TestWorld unit :=
  match test_run.1 with Returned (r, _) => r | Panics => test_runner end.

Lemma test_run_ok : ∃ runner w', test_run = (Returned (test_operator, inl runner), w').
Proof.
  assert (match test_run.1 with Returned (_, inl _) => true | _ => false end = true) as H by by vm_compute.
  unfold test_operator. destruct test_run as [[[r [runner|e]]|] w']; [|done..]. by eexists _, _.
Qed.

Lemma test_manifest_elem v k :
  v ∈ elems (md_Versions test_manifest) → k ∈ elems (mv_Kinds v) →
  (v = test_version "v1" ∨ v = test_version "v2") ∧ k = test_version_kind true.
Proof.
  intros [->| ->%list_elem_of_singleton]%elem_of_cons ->%list_elem_of_singleton; eauto.
Qed.

Lemma test_runner_server : r_webhookServer test_runner =
  Some (mkWebhookServer None None (Some ∅) (Some ∅) (Some ∅) 8443 (mkTLSConfig "cert" "key")).
Proof. vm_compute. reflexivity. Qed.

Lemma test_deployed : deployed test_config test_app test_manifest test_operator.
Proof.
  split.
  - exists no_supplier, tt, no_patchers, (λ _, 0%nat), test_runnable,
      (InformerController.NewInformerController 0 (InformerController.DefaultInformerControllerConfig 0), test_world),
      test_new_app.2.
    exact test_new_app_ok.
  - exact test_config_proper.
  - by vm_compute.
  - apply (bool_decide_unpack _). by vm_compute.
  - intros v k Hv Hk. destruct (test_manifest_elem v k Hv Hk) as [[-> | ->] ->]; by repeat split.
  - destruct test_run_ok as (runner & w' & E).
    exists (λ _, ret None), test_runnable, test_runnable, 7%nat, [], (λ _, test_runnable), test_runner, runner, test_world, w'.
    split; [|exact E].
    rewrite test_runner_server. intros ws [= <-]. by repeat split.
Qed.

(** The review the test decoder gives: the creation of an object of g/v1, Foo. *)
Definition test_request : K8sAdmissionRequest :=
  mkK8sAdmissionRequest "u1" (mkGVK "g" "v1" "Foo") (Some (mkGVK "g" "v1" "Foo")) "CREATE"
    (mkAdmissionUserInfo "ann" "" [] None) "new" "".

Definition test_review : AdmissionReview :=
  mkAdmissionReview (mkTypeMeta "AdmissionReview" "admission.k8s.io/v1beta1") (Some test_request) None.

(** ** Properties *)

(** C5: A deployed app answers a request for validation of a kind that declares it with the
    verdict of that kind's validator on the decoded objects: allowed when the validator
    returns no error, and otherwise denied with its message and status. *)
Theorem validation_end_to_end {W Clients KubeConfig RunnerKubeConfig PathProps RouteSchema G}
    `{WW : !World W, MM : !Memory W, AE : !ApiErrors, KN : !KindNames, KL : !KindNamesLaws, RO : !RangeOrder}
    `{RJ : !ReviewJSON, DO : !DefaultObject W}
    (config : AppConfig W Clients KubeConfig) a (m : ManifestData PathProps RouteSchema G)
    (r : Runner W RunnerKubeConfig) v k :
  deployed config a m r → v ∈ elems (md_Versions m) → k ∈ elems (mv_Kinds v) →
  supports SupportsAnyValidation k = true →
  ∃ ws mk validator, r_webhookServer r = Some ws ∧ mk ∈ ac_ManagedKinds config ∧
    gvk_of (amk_Kind mk) = mkGVK (md_Group m) (mv_Name v) (mvk_Kind k) ∧
    amk_Validator mk = Some validator ∧ validates ws mk mk validator.
Proof.
  intros Hdep Hv Hk Hs.
  destruct (validation_reaches config a m r v k Hdep Hv Hk Hs) as (ws & mk & Hws & Hmk & Hg & [val Hval] & H).
  exists ws, mk, val. repeat (split; [done|]). by apply H.
Qed.

Lemma validation_end_to_end_witness :
  ∃ ws mk validator, r_webhookServer test_operator = Some ws ∧
    gvk_of (amk_Kind mk) = mkGVK "g" "v1" "Foo" ∧ amk_Validator mk = Some validator ∧
    validates ws mk mk validator.
Proof.
  destruct (validation_end_to_end test_config test_app test_manifest test_operator
    (test_version "v1") (test_version_kind true)) as (ws & mk & val & Hws & _ & Hg & Hval & H).
  - exact test_deployed.
  - apply elem_of_cons. left. reflexivity.
  - apply list_elem_of_singleton. reflexivity.
  - reflexivity.
  - exists ws, mk, val. repeat (split; [assumption|]). exact H.
Defined.

(** The handlers look up the webhook by [requestKind] and the app by [kind].  When the API
    server has converted an object to the registered version (so that the two differ), it is
    decoded with the codec of the version of the request, and then given to the validator of
    the other version. *)
Theorem converted_object_decoded_as_requested {W Clients KubeConfig RunnerKubeConfig PathProps RouteSchema G}
    `{WW : !World W, MM : !Memory W, AE : !ApiErrors, KN : !KindNames, KL : !KindNamesLaws, RO : !RangeOrder}
    `{RJ : !ReviewJSON, DO : !DefaultObject W}
    (config : AppConfig W Clients KubeConfig) a (m : ManifestData PathProps RouteSchema G)
    (r : Runner W RunnerKubeConfig) v k mk2 validator2 :
  deployed config a m r → v ∈ elems (md_Versions m) → k ∈ elems (mv_Kinds v) →
  supports SupportsAnyValidation k = true →
  mk2 ∈ ac_ManagedKinds config → amk_Validator mk2 = Some validator2 →
  gvk_of (amk_Kind mk2) ≠ mkGVK (md_Group m) (mv_Name v) (mvk_Kind k) →
  ∃ ws mk, r_webhookServer r = Some ws ∧
    gvk_of (amk_Kind mk) = mkGVK (md_Group m) (mv_Name v) (mvk_Kind k) ∧
    validates ws mk mk2 validator2.
Proof.
  intros Hdep Hv Hk Hs Hmk2 Hval2 _.
  destruct (validation_reaches config a m r v k Hdep Hv Hk Hs) as (ws & mk & Hws & Hmk & Hg & _ & H).
  exists ws, mk. repeat (split; [done|]). by apply H.
Qed.

Lemma converted_object_decoded_as_requested_witness :
  ∃ ws mk, r_webhookServer test_operator = Some ws ∧
    gvk_of (amk_Kind mk) = mkGVK "g" "v1" "Foo" ∧
    validates ws mk test_managed_v2 (λ _, returns None).
Proof.
  apply (converted_object_decoded_as_requested test_config test_app test_manifest test_operator
    (test_version "v1") (test_version_kind true)).
  - exact test_deployed.
  - apply elem_of_cons. left. reflexivity.
  - apply list_elem_of_singleton. reflexivity.
  - reflexivity.
  - apply elem_of_cons. right. apply list_elem_of_singleton. reflexivity.
  - reflexivity.
  - discriminate.
Defined.

(** C23: An object of a kind with conversion reaches the converter that the app was configured
    with for its group and kind, with the version read from the object and the version asked
    for, and the converter's bytes are what the webhook returns. *)
Theorem conversion_end_to_end {W Clients KubeConfig RunnerKubeConfig PathProps RouteSchema G}
    `{WW : !World W, MM : !Memory W, AE : !ApiErrors, KN : !KindNames, KL : !KindNamesLaws, RO : !RangeOrder}
    `{RJ : !ReviewJSON}
    (config : AppConfig W Clients KubeConfig) a (m : ManifestData PathProps RouteSchema G)
    (r : Runner W RunnerKubeConfig) v k :
  deployed config a m r → v ∈ elems (md_Versions m) → k ∈ elems (mv_Kinds v) →
  mvk_Conversion k = true →
  ∃ ws c, r_webhookServer r = Some ws ∧
    (GroupKind_String (md_Group m) (mvk_Kind k), c) ∈ converter_entries config ∧
    ∀ conv, c = Some conv → converts_with m ws conv (mvk_Kind k).
Proof. intros Hdep Hv Hk Hc. by eapply conversion_reaches. Qed.

Lemma conversion_end_to_end_witness :
  ∃ ws c, r_webhookServer test_operator = Some ws ∧
    ("Foo.g", c) ∈ converter_entries test_config ∧
    ∀ conv, c = Some conv → converts_with test_manifest ws conv "Foo".
Proof.
  destruct (conversion_end_to_end test_config test_app test_manifest test_operator
    (test_version "v1") (test_version_kind true)) as (ws & c & Hws & Hc & H).
  - exact test_deployed.
  - apply elem_of_cons. left. reflexivity.
  - apply list_elem_of_singleton. reflexivity.
  - reflexivity.
  - exists ws, c. split; [exact Hws|]. split; [exact Hc | exact H].
Defined.

(** A runner whose metrics are enabled cannot run a second app, although several calls of
    [Run] are meant to share its servers: the second call registers [/metrics] again, and
    the mux of [net/http] panics. *)
Theorem second_Run_panics {W KubeConfig PathProps RouteSchema G} `{KN : !KindNames}
    rc sr mr self (m m2 : ManifestData PathProps RouteSchema G) (A A2 : App W)
    (r r0 : Runner W KubeConfig) runner w w' w2 ws2 :
  run_app rc sr mr self m A r0 w = (Returned (r, inl runner), w') → r_exporter r0 = true →
  setup_webhooks A2 m2 (r_webhookServer r) = Returned (inl ws2) →
  (∀ cs σ, ∃ σ', rc cs σ = (None, σ')) →
  ∃ w3, run_app rc sr mr self m2 A2 r w2 = (Panics, w3).
Proof.
  intros H Hexp Hset Hrc. destruct (run_app_metrics rc sr mr self _ _ _ _ _ _ _ H Hexp) as (He & _ & Hm).
  destruct (setup_metrics_again rc (app_runnables sr (manifest_capabilities m2).1 A2) A2
    (with_server ws2 (set_running true r)) w2 He Hm Hrc) as [w3 E].
  exists w3. unfold run_app. cbn [r_webhookServer set_running]. rewrite Hset. by rewrite (panics_run _ _ _ _ E).
Qed.

Lemma second_Run_panics_witness :
  ∃ w3, run_app (λ _, ret None) test_runnable test_runnable 7 test_manifest
    (as_App [] (λ _, test_runnable) test_app) test_operator test_world = (Panics, w3).
Proof.
  destruct test_run_ok as (runner & w' & E).
  assert (∃ ws, setup_webhooks (as_App [] (λ _, test_runnable) test_app) test_manifest
    (r_webhookServer test_operator) = Returned (inl ws)) as [ws Hws].
  { assert (match setup_webhooks (as_App [] (λ _, test_runnable) test_app) test_manifest
      (r_webhookServer test_operator) with Returned (inl _) => true | _ => false end = true) as H
      by by vm_compute.
    destruct (setup_webhooks _ _ _) as [[ws|e]|]; [by exists ws | done..]. }
  apply (second_Run_panics (λ _, ret None) test_runnable test_runnable 7 test_manifest test_manifest
    (as_App [] (λ _, test_runnable) test_app) (as_App [] (λ _, test_runnable) test_app) test_operator test_runner
    runner test_world w' test_world ws).
  - exact E.
  - reflexivity.
  - exact Hws.
  - intros cs σ. exists σ. reflexivity.
Defined.
