(* ===== verification/ApiAdmission.v ===== *)
(** * Admission in the API server ([k8s/apiserver/admission.go])

    The admission plugin an app installer gives the API server: it asks the app about the
    objects of the kinds whose manifest declares validation or mutation.  An app is [App];
    [admission.NewForbidden] and the types of objects are arguments.  [Module Installed]
    composes the plugin with the simple app and its manifest. *)
From S2P Require Import Prelude GoValues Resource ResourceWatcher Schema Client Concrete VersionSchema Manifest Admission Webhooks Runners App SimpleApp OperatorRunner.

#[local] Open Scope string_scope.
#[local] Open Scope list_scope.

(** A [runtime.Object]: nil, a [resource.Object], or another. *)
Inductive RuntimeObj := RuntimeNil | RuntimeResource (r : Ref) | RuntimeOther.

(** [user.Info] *)
Record UserInfo := mkUserInfo {
  usr_UID : string;
  usr_Name : string;
  usr_Groups : list string;
  usr_Extra : gmap string (list string);
}.

(** [admission.Attributes], by the methods that are called. *)
Record Attributes := mkAttributes {
  at_Kind : GVK;
  at_Operation : string;
  at_Object : RuntimeObj;
  at_OldObject : RuntimeObj;
  at_UserInfo : option UserInfo;
}.

(** [appAdmission]; the getter of the app is an argument of the methods. *)
Record appAdmission := mkAppAdmission { perKindAdmission : gmap string AdmissionCapabilities }.

Definition admission_key (version kind : string) : string := version +:+ "/" +:+ kind.

(** [newAppAdmission] *)
Definition add_kind_admission {PathProps G} (version : string) (m : gmap string AdmissionCapabilities)
    (k : ManifestVersionKind PathProps G) : gmap string AdmissionCapabilities :=
  match mvk_Admission k with
  | None => m
  | Some c =>
      if negb (SupportsAnyValidation c) && negb (SupportsAnyMutation c) then m
      else <[admission_key version (mvk_Kind k) := c]> m
  end.

Definition newAppAdmission {PathProps RouteSchema G} (md : ManifestData PathProps RouteSchema G) : appAdmission :=
  mkAppAdmission (foldl (λ m '(v, k), add_kind_admission v m k) ∅ (manifest_kinds md)).

(** [getAdmissionInfo] *)
Definition getAdmissionInfo (ad : appAdmission) (k : GVK) : option AdmissionCapabilities :=
  perKindAdmission ad !! admission_key (g_Version k) (g_Kind k).

(** [admission.Create] and the other operations the plugin knows. *)
Definition operation_action (op : string) : option AdmissionAction :=
  if String.eqb op "CREATE" then Some AdmissionActionCreate
  else if String.eqb op "UPDATE" then Some AdmissionActionUpdate
  else if String.eqb op "DELETE" then Some AdmissionActionDelete
  else if String.eqb op "CONNECT" then Some AdmissionActionConnect
  else None.

Definition operation_of (op : string) : option AdmissionOperation :=
  if String.eqb op "CREATE" then Some AdmissionOperationCreate
  else if String.eqb op "UPDATE" then Some AdmissionOperationUpdate
  else if String.eqb op "DELETE" then Some AdmissionOperationDelete
  else if String.eqb op "CONNECT" then Some AdmissionOperationConnect
  else None.

Section Plugin.
Context {W : Type} `{WW : !World W} `{MM : !Memory W}.
Context (NewForbidden : Attributes → GoError → GoError).

(** Whether two objects have one Go type, which [reflect] needs for an assignment. *)
Context (same_type : Ref → Ref → W → bool).

Definition user_info (u : option UserInfo) : AdmissionUserInfo :=
  match u with
  | None => mkAdmissionUserInfo "" "" [] None
  | Some u =>
      mkAdmissionUserInfo (usr_Name u) (usr_UID u) (usr_Groups u)
        (Some ((λ v, AList (AString <$> v)) <$> usr_Extra u))
  end.

Definition resource_object (a : Attributes) (o : RuntimeObj) (what : string) : Obj + GoError :=
  match o with
  | RuntimeNil => inl None
  | RuntimeResource r => inl (Some r)
  | RuntimeOther => inr (NewForbidden a (ErrorString (what +:+ " is not a resource.Object")))
  end.

(** [translateAdmissionAttributes], of attributes that are not nil. *)
Definition translateAdmissionAttributes (a : Attributes) : AdmissionRequest + GoError :=
  match operation_action (at_Operation a) with
  | None => inr (ErrorString ("unknown admission operation: " +:+ at_Operation a))
  | Some action =>
      match resource_object a (at_Object a) "object" with
      | inr e => inr e
      | inl obj =>
          match resource_object a (at_OldObject a) "oldObject" with
          | inr e => inr e
          | inl oldObj =>
              inl (mkAdmissionRequest action (g_Kind (at_Kind a)) (g_Group (at_Kind a)) (g_Version (at_Kind a))
                     (user_info (at_UserInfo a)) obj oldObj)
          end
      end
  end.

(** The loop over the operations of a capability. *)
Definition supports_action (ops : nslice AdmissionOperation) (action : AdmissionAction) : bool :=
  existsb (λ val, String.eqb val action || String.eqb val AdmissionOperationAny) (elems ops).

Definition forbidden (a : Attributes) (err : GoError) : option GoError := Some (NewForbidden a err).
Definition app_not_initialized : GoError := ErrorString "app is not initialized".

(** The error an app's answer is turned into. *)
Definition app_error (a : Attributes) (err : GoError) : option GoError :=
  if ErrorsIs err ErrNotImplemented then None else forbidden a err.

(** [reflect.ValueOf(obj).Elem().Set(reflect.ValueOf(updated).Elem())] *)
Definition assign (obj updated : Ref) : MP W unit := λ w,
  if same_type obj updated w then (Returned tt, store obj (deref updated w) w) else (Panics, w).

(** [Admit] *)
Definition Admit (ad : appAdmission) (adApp : option (App W)) (a : Attributes) : MP W (option GoError) :=
  match adApp with
  | None => returns (forbidden a app_not_initialized)
  | Some adApp =>
      match getAdmissionInfo ad (at_Kind a) with
      | None => returns None
      | Some adInfo =>
          match adm_Mutation adInfo with
          | Some mutation =>
              if negb (SupportsAnyMutation adInfo) then returns None
              else
                match translateAdmissionAttributes a with
                | inr err => returns (forbidden a err)
                | inl req =>
                    if negb (supports_action (mtc_Operations mutation) (ar_Action req)) then returns None
                    else
                      let! '(res, err) := app_Mutate adApp req in
                      match err with
                      | Some err => returns (app_error a err)
                      | None =>
                          match at_Object a with
                          | RuntimeNil => returns None
                          | RuntimeOther => panic
                          | RuntimeResource obj =>
                              match res with
                              | None => panic
                              | Some res =>
                                  match mr_UpdatedObject res with
                                  | None => returns None
                                  | Some updated => let! _ := assign obj updated in returns None
                                  end
                              end
                          end
                      end
                end
          | None => returns None
          end
      end
  end.

(** [Validate] *)
Definition Validate_attributes (ad : appAdmission) (adApp : option (App W)) (a : Attributes)
  : MP W (option GoError) :=
  match adApp with
  | None => returns (forbidden a app_not_initialized)
  | Some adApp =>
      match getAdmissionInfo ad (at_Kind a) with
      | None => returns None
      | Some adInfo =>
          match adm_Validation adInfo with
          | Some validation =>
              if negb (SupportsAnyValidation adInfo) then returns None
              else
                match translateAdmissionAttributes a with
                | inr err => returns (forbidden a err)
                | inl req =>
                    if negb (supports_action (vc_Operations validation) (ar_Action req)) then returns None
                    else
                      let! err := app_Validate adApp req in
                      returns match err with
                              | Some err => app_error a err
                              | None => None
                              end
                end
          | None => returns None
          end
      end
  end.
End Plugin.

(** [slices.Contains(ops, action) || slices.Contains(ops, AdmissionOperationAny)] *)
Definition contains_action (ops : nslice AdmissionOperation) (action : AdmissionOperation) : bool :=
  bool_decide (action ∈ elems ops) || bool_decide (AdmissionOperationAny ∈ elems ops).

(** [Handles] *)
Definition Handles `{RO : !RangeOrder} (ad : appAdmission) (op : string) : bool :=
  if bool_decide (perKindAdmission ad = ∅) then false
  else
    match operation_of op with
    | None => false
    | Some action =>
        existsb (λ adm,
          (SupportsAnyValidation adm &&
             match adm_Validation adm with Some v => contains_action (vc_Operations v) action | None => false end) ||
          (SupportsAnyMutation adm &&
             match adm_Mutation adm with Some m => contains_action (mtc_Operations m) action | None => false end))
          (snd <$> range_map (perKindAdmission ad))
    end.

(** [defaultInstaller.AdmissionPlugin]: nil, or the factory of the plugin. *)
Definition AdmissionPlugin {PathProps RouteSchema G} (md : ManifestData PathProps RouteSchema G)
  : option appAdmission :=
  let kinds := snd <$> manifest_kinds md in
  let any f := existsb (λ k, match mvk_Admission k with Some c => f c | None => false end) kinds in
  if any SupportsAnyMutation || any SupportsAnyValidation then Some (newAppAdmission md) else None.

(** ** Properties of the plugin *)
Lemma supports_contains ops action : supports_action ops action = contains_action ops action.
Proof.
  unfold supports_action, contains_action. apply eq_true_iff_eq.
  rewrite existsb_exists, orb_true_iff, !bool_decide_eq_true, !list_elem_of_In.
  setoid_rewrite orb_true_iff. setoid_rewrite String.eqb_eq. naive_solver.
Qed.

Lemma operation_action_of op : operation_action op = operation_of op.
Proof. done. Qed.

(** The request of attributes that can be translated. *)
Lemma translate_action NF a req :
  translateAdmissionAttributes NF a = inl req → operation_action (at_Operation a) = Some (ar_Action req).
Proof.
  unfold translateAdmissionAttributes. destruct (operation_action _); [|done].
  destruct (resource_object NF a (at_Object a) "object"); [|done].
  destruct (resource_object NF a (at_OldObject a) "oldObject"); [|done]. by intros [= <-].
Qed.

(** When the plugin says that it does not handle an operation, which makes the server
    skip it, calling it for that operation would have done nothing: [Validate] and [Admit]
    return no error and have no effect, whatever the app is. *)
Theorem Handles_sound {W} `{WW : !World W, MM : !Memory W, RO : !RangeOrder} NF same_type
    (ad : appAdmission) (adApp : App W) (a : Attributes) req w :
  Handles ad (at_Operation a) = false → translateAdmissionAttributes NF a = inl req →
  Validate_attributes NF ad (Some adApp) a w = (Returned None, w) ∧
  Admit NF same_type ad (Some adApp) a w = (Returned None, w).
Proof.
  intros Hh Htr. pose proof (translate_action NF a req Htr) as Hact. rewrite operation_action_of in Hact.
  assert (H : ∀ c, getAdmissionInfo ad (at_Kind a) = Some c →
    (SupportsAnyValidation c &&
      match adm_Validation c with Some v => contains_action (vc_Operations v) (ar_Action req) | None => false end) = false ∧
    (SupportsAnyMutation c &&
      match adm_Mutation c with Some m => contains_action (mtc_Operations m) (ar_Action req) | None => false end) = false).
  { intros c Hc. unfold Handles in Hh.
    rewrite bool_decide_eq_false_2 in Hh by (intros E; unfold getAdmissionInfo in Hc; by rewrite E, lookup_empty in Hc).
    rewrite Hact in Hh. apply orb_false_iff.
    destruct (_ || _) eqn:E; [|done]. exfalso. apply not_true_iff_false in Hh. apply Hh.
    apply existsb_exists. exists c. split; [|exact E]. apply list_elem_of_In, list_elem_of_fmap.
    exists (admission_key (g_Version (at_Kind a)) (g_Kind (at_Kind a)), c). split; [done|]. by apply elem_of_range_map. }
  unfold Validate_attributes, Admit. rewrite Htr.
  destruct (getAdmissionInfo ad (at_Kind a)) as [c|]; [|done]. destruct (H c eq_refl) as [Hv Hm]. split.
  - destruct (adm_Validation c) as [v|]; [|done]. destruct (SupportsAnyValidation c); [|done]. simpl in *.
    by rewrite supports_contains, Hv.
  - destruct (adm_Mutation c) as [m|]; [|done]. destruct (SupportsAnyMutation c); [|done]. simpl in *.
    by rewrite supports_contains, Hm.
Qed.

(** ** The table of the plugin *)
Section Table.
Context {PathProps RouteSchema G : Type}.
Implicit Types vk : string * ManifestVersionKind PathProps G.

Definition adm_key vk : string := admission_key vk.1 (mvk_Kind vk.2).

(** What the plugin keeps of a kind. *)
Definition adm_of vk : option AdmissionCapabilities :=
  match mvk_Admission vk.2 with
  | Some c => if SupportsAnyValidation c || SupportsAnyMutation c then Some c else None
  | None => None
  end.

Lemma add_kind_admission_eq m vk :
  add_kind_admission vk.1 m vk.2 = match adm_of vk with Some c => <[adm_key vk := c]> m | None => m end.
Proof.
  unfold add_kind_admission, adm_of, adm_key. destruct (mvk_Admission vk.2) as [c|]; [|done].
  destruct (SupportsAnyValidation c), (SupportsAnyMutation c); done.
Qed.

Let add m vk := let '(v, k) := vk in add_kind_admission v m k.

Lemma add_admissions_other l m key : key ∉ adm_key <$> l → foldl add m l !! key = m !! key.
Proof.
  revert m. induction l as [|[v k] l IH]; intros m H; [done|]. csimpl in H.
  apply not_elem_of_cons in H as [Hne H]. simpl. rewrite IH by done.
  change (add_kind_admission v m k) with (add_kind_admission (v, k).1 m (v, k).2); rewrite add_kind_admission_eq. destruct (adm_of (v, k)); [|done]. by rewrite lookup_insert_ne.
Qed.

Lemma add_admissions_lookup l m vk :
  NoDup (adm_key <$> l) → vk ∈ l → m !! adm_key vk = None → foldl add m l !! adm_key vk = adm_of vk.
Proof.
  revert m. induction l as [|[v k] l IH]; intros m Hnd; [by intros ?%elem_of_nil|]. csimpl in Hnd.
  apply NoDup_cons in Hnd as [Hx Hnd]. intros Hin Hm. simpl.
  change (add_kind_admission v m k) with (add_kind_admission (v, k).1 m (v, k).2); rewrite add_kind_admission_eq. apply elem_of_cons in Hin as [->|Hin].
  - rewrite add_admissions_other by done. destruct (adm_of (v, k)); [by rewrite lookup_insert_eq | done].
  - apply IH; [done..|]. destruct (adm_of (v, k)); [|done]. rewrite lookup_insert_ne; [done|].
    intros E. apply Hx. rewrite E. by apply list_elem_of_fmap_2.
Qed.

(** The kinds of a manifest have names, and no version has one twice. *)
Definition named_kinds (m : ManifestData PathProps RouteSchema G) : Prop :=
  ∀ v k, v ∈ elems (md_Versions m) → k ∈ elems (mv_Kinds v) →
    valid_gvk (mkGVK (md_Group m) (mv_Name v) (mvk_Kind k)).

Lemma getAdmissionInfo_manifest (m : ManifestData PathProps RouteSchema G) v k g :
  distinct_kinds m → named_kinds m → v ∈ elems (md_Versions m) → k ∈ elems (mv_Kinds v) →
  getAdmissionInfo (newAppAdmission m) (mkGVK g (mv_Name v) (mvk_Kind k)) = adm_of (mv_Name v, k).
Proof.
  intros Hd Hn Hv Hk. unfold getAdmissionInfo, newAppAdmission. cbn [perKindAdmission g_Version g_Kind].
  apply (add_admissions_lookup (manifest_kinds m) ∅ (mv_Name v, k));
    [|by apply elem_of_manifest_kinds | apply lookup_empty].
  eapply NoDup_fmap_key; [|exact Hd]. intros [v1 k1] [v2 k2] H1 H2 E. unfold adm_key, admission_key, entry_key in *.
  assert (Hfree : ∀ v0 k0, (v0, k0) ∈ manifest_kinds m → free_of "/" v0 = true).
  { intros v0 k0 H0. unfold manifest_kinds in H0. apply list_elem_of_bind in H0 as (v' & H0 & Hv').
    apply list_elem_of_fmap in H0 as (k' & [= -> ->] & Hk'). by destruct (Hn v' k' Hv' Hk') as (_ & (_ & ? & _) & _). }
  apply key_separator in E as [E1 E2]; [|by eapply Hfree..]. simpl in *. by rewrite E1, E2.
Qed.
End Table.

(** ** An installed app *)
Section Installed.
Context {W Clients KubeConfig PathProps RouteSchema G : Type}.
Context `{WW : !World W, MM : !Memory W, AE : !ApiErrors, KN : !KindNames, KL : !KindNamesLaws, RO : !RangeOrder}.

(** A simple app was made and accepted the manifest it is installed with. *)
Record installed (config : AppConfig W Clients KubeConfig) (a : SimpleApp W)
    (m : ManifestData PathProps RouteSchema G) : Prop := mkInstalled {
  ins_app : ∃ supplier clients ForKind new_id controller s s',
    NewApp config supplier clients ForKind new_id controller s = (inl a, s');
  ins_proper : proper_config config;
  ins_manifest : ValidateManifest a m = None;
  ins_distinct : distinct_kinds m;
  ins_names : named_kinds m;
}.

Lemma installed_kind config a m v k :
  installed config a m → v ∈ elems (md_Versions m) → k ∈ elems (mv_Kinds v) →
  ∃ mk, mk ∈ ac_ManagedKinds config ∧ gvk_of (amk_Kind mk) = mkGVK (md_Group m) (mv_Name v) (mvk_Kind k) ∧
    (is_Some (amk_Validator mk) ↔ supports SupportsAnyValidation k = true) ∧
    (is_Some (amk_Mutator mk) ↔ supports SupportsAnyMutation k = true) ∧
    ∀ req, ar_Group req = md_Group m → ar_Version req = mv_Name v → ar_Kind req = mvk_Kind k →
      find_kind a req = Some mk.
Proof using KL.
  intros [(s0 & cl & fk & ni & co & s & s' & Happ) Hp Hman Hd Hn] Hv Hk.
  apply NewApp_tables in Happ as Ht. rewrite ValidateManifest_None in Hman.
  destruct (Hman v k Hv Hk) as [_ (mk & Hmk & Hval & Hmut)]. exists mk.
  pose proof (Hn v k Hv Hk) as ((? & _) & (_ & ? & _) & _). simpl in *.
  pose proof Hmk as H2. apply (lookup_kind config a Ht Hp) in H2 as [H3 H4]; [|done..].
  do 4 (split; [done|]).
  intros req E1 E2 E3. unfold find_kind. by rewrite E1, E2, E3.
Qed.

(** C8: For a kind whose manifest declares validation, the API server's plugin answers with
    the verdict of the kind's validator on the objects of the request when the operation is
    one that is declared, and lets the request pass without asking otherwise. *)
Theorem installed_validation NF config a m v k v_caps :
  installed config a m → v ∈ elems (md_Versions m) → k ∈ elems (mv_Kinds v) →
  supports SupportsAnyValidation k = true → mvk_Admission k ≫= adm_Validation = Some v_caps →
  AdmissionPlugin m = Some (newAppAdmission m) ∧
  ∃ mk validator, mk ∈ ac_ManagedKinds config ∧
    gvk_of (amk_Kind mk) = mkGVK (md_Group m) (mv_Name v) (mvk_Kind k) ∧ amk_Validator mk = Some validator ∧
    ∀ checks as_runnable at_ req, at_Kind at_ = gvk_of (amk_Kind mk) → translateAdmissionAttributes NF at_ = inl req →
      Validate_attributes NF (newAppAdmission m) (Some (as_App checks as_runnable a)) at_ =
      if supports_action (vc_Operations v_caps) (ar_Action req)
      then let! err := validator req in
           returns match err with Some err => app_error NF at_ err | None => None end
      else returns None.
Proof using KL.
  intros Hins Hv Hk Hs Hcaps. split.
  { unfold AdmissionPlugin. cbv zeta. rewrite (proj2 (orb_true_iff _ _)); [done|]. right. apply existsb_exists.
    exists k. split; [|exact Hs]. apply list_elem_of_In, list_elem_of_fmap.
    exists (mv_Name v, k). split; [done | by apply elem_of_manifest_kinds]. }
  destruct (installed_kind config a m v k Hins Hv Hk) as (mk & Hmk & Hg & Hval & _ & Hfind).
  destruct (proj2 Hval Hs) as [validator Evalidator]. exists mk, validator. split_and!; [done..|].
  intros checks as_runnable at_ req Hat Htr. rewrite Hg in Hat.
  unfold Validate_attributes. rewrite Hat, getAdmissionInfo_manifest by (apply Hins || done).
  unfold adm_of. simpl. unfold supports in Hs. destruct (mvk_Admission k) as [c|]; [|done]. simpl in Hcaps.
  rewrite Hs. simpl. rewrite Hcaps, Htr, Hs. simpl. destruct (supports_action _ _); [|done]. simpl.
  unfold App_Validate. rewrite Hfind, Evalidator; [done|..];
    unfold translateAdmissionAttributes in Htr; destruct (operation_action _); try done;
    destruct (resource_object NF at_ (at_Object at_) "object"); try done;
    destruct (resource_object NF at_ (at_OldObject at_) "oldObject"); try done;
    injection Htr as <-; by rewrite Hat.
Qed.
End Installed.

(** ** Instances for the witnesses *)
Definition test_forbidden (a : Attributes) (e : GoError) : GoError := e.
Definition test_same_type (r r' : Ref) (w : TestWorld) : bool := true.

Definition create_attributes (g : string) : Attributes :=
  mkAttributes (mkGVK g "v1" "Foo") "CREATE" RuntimeNil RuntimeNil None.

Definition test_plugin : appAdmission := newAppAdmission test_manifest.

Lemma test_installed : installed test_config test_app test_manifest.
Proof.
  split.
  - exists no_supplier, tt, no_patchers, (λ _, 0%nat), test_runnable,
      (InformerController.NewInformerController 0 (InformerController.DefaultInformerControllerConfig 0), test_world),
      test_new_app.2.
    exact test_new_app_ok.
  - exact test_config_proper.
  - by vm_compute.
  - apply (bool_decide_unpack _). by vm_compute.
  - intros v k Hv Hk. destruct (test_manifest_elem v k Hv Hk) as [[-> | ->] ->]; by repeat split.
Qed.

Lemma Handles_sound_witness :
  Handles test_plugin "UPDATE" = false ∧
  Validate_attributes test_forbidden test_plugin (Some (as_App [] (λ _, test_runnable) test_app))
    (mkAttributes (mkGVK "g" "v1" "Foo") "UPDATE" RuntimeNil RuntimeNil None) test_world = (Returned None, test_world).
Proof.
  split; [by vm_compute|].
  destruct (Handles_sound test_forbidden test_same_type test_plugin (as_App [] (λ _, test_runnable) test_app)
    (mkAttributes (mkGVK "g" "v1" "Foo") "UPDATE" RuntimeNil RuntimeNil None)
    (mkAdmissionRequest AdmissionActionUpdate "Foo" "g" "v1" (user_info None) None None) test_world) as [H _].
  - by vm_compute.
  - reflexivity.
  - exact H.
Defined.

Lemma installed_validation_witness :
  ∃ mk validator, gvk_of (amk_Kind mk) = mkGVK "g" "v1" "Foo" ∧ amk_Validator mk = Some validator ∧
    Validate_attributes test_forbidden test_plugin (Some (as_App [] (λ _, test_runnable) test_app))
      (create_attributes "g") =
    let! err := validator (mkAdmissionRequest AdmissionActionCreate "Foo" "g" "v1" (user_info None) None None) in
    returns match err with Some err => app_error test_forbidden (create_attributes "g") err | None => None end.
Proof.
  destruct (installed_validation test_forbidden test_config test_app test_manifest (test_version "v1")
    (test_version_kind true) (mkValidationCapability (Some ["CREATE"]))) as (_ & mk & val & _ & Hg & Hval & H).
  - exact test_installed.
  - apply elem_of_cons. left. reflexivity.
  - apply list_elem_of_singleton. reflexivity.
  - reflexivity.
  - reflexivity.
  - exists mk, val. split; [exact Hg|]. split; [exact Hval|].
    unfold test_plugin. rewrite (H [] (λ _, test_runnable) (create_attributes "g")
      (mkAdmissionRequest AdmissionActionCreate "Foo" "g" "v1" (user_info None) None None)
      (eq_sym Hg) eq_refl).
    reflexivity.
Defined.

(** The table is keyed by version and kind: an object of another group, whose Go type is not
    a [resource.Object], is forbidden because it has the version and the kind of an app's. *)
Lemma Validate_other_group (w : TestWorld) :
  Validate_attributes test_forbidden test_plugin (Some (as_App [] (λ _, test_runnable) test_app))
    (mkAttributes (mkGVK "rbac" "v1" "Foo") "CREATE" RuntimeOther RuntimeNil None) w =
  (Returned (Some (ErrorString "object is not a resource.Object")), w).
Proof. by vm_compute. Qed.
