(* ===== verification/ApiStorage.v ===== *)
(** * Storage and update strategies of the API server ([k8s/apiserver/storage.go],
    [strategy.go], and the field labels of [installer.go])

    What an update of an object, of its status or of another subresource may change, the
    stores that use these strategies, and the labels and fields that objects are selected
    by.  Objects are any [ResourceObject]; [genericregistry.Store] of [k8s.io/apiserver] is
    the record of the fields the SDK sets. *)
From S2P Require Import Prelude GoValues Resource ObjectMeta Objects UntypedObject TypedSpecStatusObject.

#[local] Open Scope string_scope.
#[local] Open Scope list_scope.

(** A [runtime.Object]: nil, a [resource.Object], or another, with the text of its type. *)
Inductive AnObject (O : Type) := NoObject | ResObject (o : O) | OtherObject (ty : string).
Arguments NoObject {O}.
Arguments ResObject {O}.
Arguments OtherObject {O}.

(** [resource.Kind], by the methods that are called; a field is selected by a function. *)
Record ApiKind (O : Type) := mkApiKind {
  ak_Group : string;
  ak_Version : string;
  ak_Kind : string;
  ak_Plural : string;
  ak_Scope : string;
  ak_ZeroValue : O;
  ak_SelectableFields : list (string * (O → string + GoError));
}.
Arguments mkApiKind {O}.
Arguments ak_Group {O}.
Arguments ak_Version {O}.
Arguments ak_Kind {O}.
Arguments ak_Plural {O}.
Arguments ak_Scope {O}.
Arguments ak_ZeroValue {O}.
Arguments ak_SelectableFields {O}.

Definition cluster_scoped {O} (kind : ApiKind O) : bool := String.eqb (ak_Scope kind) "Cluster".
Definition namespace_scoped {O} (kind : ApiKind O) : bool := String.eqb (ak_Scope kind) "Namespaced".

(** The strategies: [strategy], [genericStatusStrategy], [genericSubresourceStrategy]. *)
Record strategy (O : Type) := mkStrategy { s_kind : ApiKind O }.
Arguments mkStrategy {O}.
Arguments s_kind {O}.

Record genericStatusStrategy := mkStatusStrategy { gst_gv : string; gst_namespaced : bool }.

Record genericSubresourceStrategy := mkSubresourceStrategy {
  gsr_gv : string;
  gsr_subresource : string;
  gsr_resetFields : list string;
  gsr_namespaced : bool;
}.

(** One of them, as a [rest.RESTUpdateStrategy]. *)
Inductive UpdateStrategy (O : Type) :=
| SpecStrategy (s : strategy O)
| StatusStrategy (s : genericStatusStrategy)
| SubresourceStrategy (s : genericSubresourceStrategy).
Arguments SpecStrategy {O}.
Arguments StatusStrategy {O}.
Arguments SubresourceStrategy {O}.

(** [genericregistry.Store], the fields that are set; a [StatusREST] or a [SubresourceREST] is
    a store. *)
Record GenericStore (O : Type) := mkGenericStore {
  gs_NewFunc : O;
  gs_DefaultQualifiedResource : string * string;
  gs_SingularQualifiedResource : string * string;
  gs_CreateStrategy : option (UpdateStrategy O);
  gs_UpdateStrategy : option (UpdateStrategy O);
  gs_DeleteStrategy : option (UpdateStrategy O);
  gs_ResetFieldsStrategy : option (UpdateStrategy O);
}.
Arguments mkGenericStore {O}.
Arguments gs_NewFunc {O}.
Arguments gs_DefaultQualifiedResource {O}.
Arguments gs_SingularQualifiedResource {O}.
Arguments gs_CreateStrategy {O}.
Arguments gs_UpdateStrategy {O}.
Arguments gs_DeleteStrategy {O}.
Arguments gs_ResetFieldsStrategy {O}.

Section Strategies.
Context {O V : Type} `{RO : !ResourceObject O V, RG : !RangeOrder}.

(** [GroupVersion.String] of [k8s.io/apimachinery]. *)
Context (gv_string : string → string → string).

Definition newStrategy (kind : ApiKind O) : strategy O := mkStrategy kind.
Definition newStatusStrategy (gv : string) (namespaced : bool) : genericStatusStrategy :=
  mkStatusStrategy gv namespaced.
Definition newSubresourceStrategy (gv subresource : string) (resetFields : list string) (namespaced : bool)
  : genericSubresourceStrategy := mkSubresourceStrategy gv subresource resetFields namespaced.

Definition NamespaceScoped (s : UpdateStrategy O) : bool :=
  match s with
  | SpecStrategy s => namespace_scoped (s_kind s)
  | StatusStrategy g => gst_namespaced g
  | SubresourceStrategy g => gsr_namespaced g
  end.

(** [GetResetFields]: the paths, by API version. *)
Definition kind_gv (kind : ApiKind O) : string := gv_string (ak_Group kind) (ak_Version kind).
Definition GetResetFields (s : UpdateStrategy O) : gmap string (list string) :=
  match s with
  | SpecStrategy s => {[ kind_gv (s_kind s) := ["status"] ]}
  | StatusStrategy g => {[ gst_gv g := ["spec"; "metadata"] ]}
  | SubresourceStrategy g => {[ gsr_gv g := gsr_resetFields g ]}
  end.

Definition AllowCreateOnUpdate (s : UpdateStrategy O) : bool := false.
Definition AllowUnconditionalUpdate (s : UpdateStrategy O) : bool := false.

(** ** [PrepareForUpdate]

    The new object after the call; an error of a setter is only logged. *)

(** [newObj.SetSubresource(key, v)] for the [v] of the old object, if it has one. *)
Definition restore_subresource (key : string) (newObj oldObj : O) : called O :=
  match ro_GetSubresource key oldObj with
  | Panics => Panics
  | Returned None => Returned newObj
  | Returned (Some v) =>
      match ro_SetSubresource key v newObj with Panics => Panics | Returned (o, _) => Returned o end
  end.

(** Labels, annotations, finalizers, owners and spec of the old object. *)
Definition restore_spec (newObj oldObj : O) : O :=
  let newObj := ro_SetObjectMeta (restore_metadata (ro_ObjectMeta oldObj) (ro_ObjectMeta newObj)) newObj in
  (ro_SetSpec (ro_GetSpec oldObj) newObj).1.

(** The loop over the reset fields of a subresource. *)
Fixpoint restore_subresources (fields : list string) (newObj oldObj : O) : called O :=
  match fields with
  | [] => Returned newObj
  | sr :: fields =>
      if String.eqb sr "metadata" || String.eqb sr "spec" then restore_subresources fields newObj oldObj
      else
        match restore_subresource sr newObj oldObj with
        | Panics => Panics
        | Returned newObj => restore_subresources fields newObj oldObj
        end
  end.

Definition prepare (s : UpdateStrategy O) (newObj oldObj : O) : called O :=
  match s with
  | SpecStrategy _ => restore_subresource "status" newObj oldObj
  | StatusStrategy _ => Returned (restore_spec newObj oldObj)
  | SubresourceStrategy g => restore_subresources (gsr_resetFields g) (restore_spec newObj oldObj) oldObj
  end.

Definition PrepareForUpdate (s : UpdateStrategy O) (obj old : AnObject O) : called (AnObject O) :=
  match obj, old with
  | ResObject newObj, ResObject oldObj =>
      match prepare s newObj oldObj with Panics => Panics | Returned o => Returned (ResObject o) end
  | _, _ => Returned obj
  end.

(** ** The stores ([storage.go]) *)
Definition newGenericStoreForKind (kind : ApiKind O) (complete : GenericStore O → option GoError)
  : GenericStore O + GoError :=
  let s := Some (SpecStrategy (newStrategy kind)) in
  let store := mkGenericStore (ak_ZeroValue kind) (ak_Group kind, ak_Plural kind)
                 (ak_Group kind, ToLower (ak_Kind kind)) s s s None in
  match complete store with
  | Some err => inr (WrapError ("failed completing storage options for " +:+ ak_Kind kind +:+ ": ") err)
  | None => inl store
  end.

(** [newStatusREST] and [newSubresourceRESTWithStrategy] *)
Definition newStrategyREST (store : GenericStore O) (s : UpdateStrategy O) : GenericStore O :=
  mkGenericStore (gs_NewFunc store) (gs_DefaultQualifiedResource store) (gs_SingularQualifiedResource store)
    None (Some s) None (Some s).

Definition newRegistryStatusStoreForKind (kind : ApiKind O) (specStore : GenericStore O) : GenericStore O :=
  newStrategyREST specStore (StatusStrategy (newStatusStrategy (kind_gv kind) (negb (cluster_scoped kind)))).

(** The loop of [newSubresourceREST] over the subresources of the zero value. *)
Definition reset_fields (subresource : string) (subs : gmap string V) : list string :=
  "spec" :: List.filter (λ k, negb (String.eqb k subresource)) (range_map subs).*1.

Definition newSubresourceREST (store : GenericStore O) (kind : ApiKind O) (subresource : string)
  : called (GenericStore O) :=
  match ro_GetSubresources (ak_ZeroValue kind) with
  | Panics => Panics
  | Returned subs =>
      Returned (newStrategyREST store (SubresourceStrategy
        (newSubresourceStrategy (kind_gv kind) subresource (reset_fields subresource (items subs))
           (negb (cluster_scoped kind)))))
  end.

(** [Update] of both: the store's own update, which may never create. *)
Definition REST_Update {Name Info CV UV Opts Result} (update : Name → Info → CV → UV → bool → Opts → Result)
    (name : Name) (objInfo : Info) (cv : CV) (uv : UV) (forceAllowCreate : bool) (options : Opts) : Result :=
  update name objInfo cv uv false options.

(** ** Labels and fields of objects *)

(** [generic.ObjectMetaFieldsSet] of [k8s.io/apiserver]. *)
Context (ObjectMetaFieldsSet : ObjectMeta → bool → gmap string string).

(** The metadata [getAttrsFunc] copies. *)
Definition attrs_meta (om : ObjectMeta) : ObjectMeta :=
  mkObjectMeta (om_Name om) "" (om_Namespace om) "" (om_UID om) (om_ResourceVersion om) (om_Generation om)
    (om_CreationTimestamp om) (om_DeletionTimestamp om) (om_DeletionGracePeriodSeconds om) (om_Labels om)
    (om_Annotations om) (om_OwnerReferences om) (om_Finalizers om) (om_ManagedFields om).

(** The value of a selectable field; an error is logged and the value empty. *)
Definition field_value (f : O → string + GoError) (o : O) : string :=
  match f o with inl val => val | inr _ => "" end.

Definition getAttrsFunc (kind : ApiKind O) (obj : AnObject O)
  : (gmap string string * gmap string string) + GoError :=
  match obj with
  | ResObject o =>
      let m := attrs_meta (ro_ObjectMeta o) in
      let flds := foldl (λ flds '(sel, f), <[TrimPrefix sel "." := field_value f o]> flds)
                    (ObjectMetaFieldsSet m (negb (cluster_scoped kind))) (ak_SelectableFields kind) in
      inl (om_Labels m, flds)
  | OtherObject ty => inr (ErrorString ("object (" +:+ ty +:+ ") is not a resource.Object"))
  | NoObject => inr (ErrorString "object (<nil>) is not a resource.Object")
  end.

(** [fieldLabelConversionFuncForKind]; the text of the group, version and kind is an
    argument. *)
Definition selects (label : string) (f : string * (O → string + GoError)) : bool :=
  String.eqb f.1 label || String.eqb (TrimPrefix f.1 ".") label.

Definition fieldLabelConversionFuncForKind (gvk_text : string) (kind : ApiKind O) (label value : string)
  : (string * string) + GoError :=
  if String.eqb label "metadata.name" || (negb (cluster_scoped kind) && String.eqb label "metadata.namespace")
  then inl (label, value)
  else
    match List.find (selects label) (ak_SelectableFields kind) with
    | Some f => inl (TrimPrefix f.1 ".", value)
    | None => inr (ErrorString ("field label not supported for " +:+ gvk_text +:+ ": " +:+ label))
    end.
End Strategies.

(** ** What an update can change *)
Section Confined.
Context {O V : Type} `{RO : !ResourceObject O V, RG : !RangeOrder} (same : O → O → Prop)
        `{RL : !ResourceObjectLaws O V same}.

Lemma restore_subresource_spec key o old : same o old →
  ∃ o1, restore_subresource key o old = Returned o1 ∧ same o1 old ∧ ro_GetSpec o1 = ro_GetSpec o ∧
    ro_ObjectMeta o1 = ro_ObjectMeta o ∧
    ∀ k, ro_GetSubresource k o1 =
      match ro_GetSubresource key old with
      | Returned (Some v) => if String.eqb k key then Returned (Some v) else ro_GetSubresource k o
      | _ => ro_GetSubresource k o
      end.
Proof using RL.
  intros Hs. unfold restore_subresource. destruct (ro_GetSubresource key old) as [[v|]|] eqn:E.
  - destruct (sub_set o old key v Hs E) as (o1 & -> & H1 & H2 & H3 & H4 & H5).
    exists o1. do 4 (split; [done|]). intros k. destruct (String.eqb_spec k key) as [->|]; [done | by apply H5].
  - by exists o.
  - exfalso. assert (Hold : same old old) by by eapply same_refl_r.
    destruct (sub_get old key Hold) as [r Hr]. congruence.
Qed.

Lemma restore_spec_spec o old : same o old →
  same (restore_spec o old) old ∧ ro_GetSpec (restore_spec o old) = ro_GetSpec old ∧
  ro_ObjectMeta (restore_spec o old) = restore_metadata (ro_ObjectMeta old) (ro_ObjectMeta o) ∧
  ∀ k, ro_GetSubresource k (restore_spec o old) = ro_GetSubresource k o.
Proof using RL.
  intros Hs. unfold restore_spec. cbv zeta. set (o1 := ro_SetObjectMeta _ o).
  assert (Hs1 : same o1 old) by by apply meta_same.
  destruct (spec_set o1 old Hs1) as (o2 & -> & H1 & H2 & H3 & H4). split_and!; try done; simpl.
  - rewrite H2. apply meta_set.
  - intros k. rewrite H4. apply meta_sub.
Qed.

(** A subresource name that is a field of the object is not restored. *)
Definition skipped (k : string) : bool := String.eqb k "metadata" || String.eqb k "spec".

(** The old object's subresource, when it has it. *)
Definition old_or_new (key : string) (old new : called (option V)) : called (option V) :=
  match old with Returned (Some v) => Returned (Some v) | _ => new end.

Lemma restore_subresources_spec fields o old : same o old →
  ∃ o1, restore_subresources fields o old = Returned o1 ∧ same o1 old ∧ ro_GetSpec o1 = ro_GetSpec o ∧
    ro_ObjectMeta o1 = ro_ObjectMeta o ∧
    ∀ k, ro_GetSubresource k o1 =
      if bool_decide (k ∈ fields) && negb (skipped k)
      then old_or_new k (ro_GetSubresource k old) (ro_GetSubresource k o) else ro_GetSubresource k o.
Proof using RL.
  revert o. induction fields as [|sr fields IH]; intros o Hs; [by exists o|]. simpl.
  change (String.eqb sr "metadata" || String.eqb sr "spec") with (skipped sr).
  assert (Hk : ∀ k, bool_decide (k ∈ sr :: fields) = String.eqb k sr || bool_decide (k ∈ fields)).
  { intros k. apply eq_true_iff_eq. rewrite orb_true_iff, !bool_decide_eq_true, elem_of_cons, String.eqb_eq. done. }
  destruct (skipped sr) eqn:Esr.
  - destruct (IH o Hs) as (o1 & E & H1 & H2 & H3 & H4). exists o1. do 4 (split; [done|]). intros k.
    rewrite H4, Hk. destruct (String.eqb_spec k sr) as [->|]; [|done]. by rewrite Esr, !andb_false_r.
  - destruct (restore_subresource_spec sr o old Hs) as (o1 & -> & H1 & H2 & H3 & H4).
    destruct (IH o1 H1) as (o2 & E & H5 & H6 & H7 & H8). exists o2. rewrite H6, H7.
    do 4 (split; [done|]). intros k. rewrite H8, H4, Hk. unfold old_or_new.
    destruct (String.eqb_spec k sr) as [->|Hne].
    + rewrite Esr. simpl. rewrite andb_true_r. destruct (bool_decide _); by repeat case_match.
    + by destruct (ro_GetSubresource sr old) as [[v|]|].
Qed.

(** The subresources of the old object that a strategy restores. *)
Definition restores (s : UpdateStrategy O) (k : string) : bool :=
  match s with
  | SpecStrategy _ => String.eqb k "status"
  | StatusStrategy _ => false
  | SubresourceStrategy g => bool_decide (k ∈ gsr_resetFields g) && negb (skipped k)
  end.

Definition writes_spec (s : UpdateStrategy O) : bool := match s with SpecStrategy _ => true | _ => false end.

Lemma PrepareForUpdate_spec s new old : same new old →
  ∃ o, PrepareForUpdate s (ResObject new) (ResObject old) = Returned (ResObject o) ∧
    ro_GetSpec o = ro_GetSpec (if writes_spec s then new else old) ∧
    ro_ObjectMeta o = (if writes_spec s then ro_ObjectMeta new
                       else restore_metadata (ro_ObjectMeta old) (ro_ObjectMeta new)) ∧
    ∀ k, ro_GetSubresource k o =
      if restores s k then old_or_new k (ro_GetSubresource k old) (ro_GetSubresource k new)
      else ro_GetSubresource k new.
Proof using RL.
  intros Hs. pose proof (restore_spec_spec new old Hs) as (H1 & H2 & H3 & H4). unfold PrepareForUpdate.
  destruct s as [s|g|g]; simpl.
  - destruct (restore_subresource_spec "status" new old Hs) as (o & -> & _ & Hsp & Hm & Hk). exists o.
    do 3 (split; [done|]). intros k. rewrite Hk. unfold old_or_new.
    destruct (String.eqb_spec k "status") as [->|]; by repeat case_match.
  - by exists (restore_spec new old).
  - destruct (restore_subresources_spec (gsr_resetFields g) (restore_spec new old) old H1)
      as (o & -> & _ & Hsp & Hm & Hk). exists o. rewrite Hsp, Hm. do 3 (split; [done|]).
    intros k. by rewrite Hk, H4.
Qed.

(** An update of an object leaves its status as it was, if it had one, and writes the
    rest; an update of its status leaves its spec, labels, annotations, finalizers and owners;
    an update of another subresource leaves these too, and every subresource that it is
    configured to reset. *)
Theorem PrepareForUpdate_confines new old : same new old →
  (∀ s, ∃ o, PrepareForUpdate (SpecStrategy s) (ResObject new) (ResObject old) = Returned (ResObject o) ∧
     ro_GetSpec o = ro_GetSpec new ∧ ro_ObjectMeta o = ro_ObjectMeta new ∧
     ∀ k, ro_GetSubresource k o =
       if String.eqb k "status" then old_or_new k (ro_GetSubresource k old) (ro_GetSubresource k new)
       else ro_GetSubresource k new) ∧
  (∀ g, ∃ o, PrepareForUpdate (StatusStrategy g) (ResObject new) (ResObject old) = Returned (ResObject o) ∧
     ro_GetSpec o = ro_GetSpec old ∧
     ro_ObjectMeta o = restore_metadata (ro_ObjectMeta old) (ro_ObjectMeta new) ∧
     ∀ k, ro_GetSubresource k o = ro_GetSubresource k new) ∧
  (∀ g, ∃ o, PrepareForUpdate (SubresourceStrategy g) (ResObject new) (ResObject old) = Returned (ResObject o) ∧
     ro_GetSpec o = ro_GetSpec old ∧
     ro_ObjectMeta o = restore_metadata (ro_ObjectMeta old) (ro_ObjectMeta new) ∧
     ∀ k, ro_GetSubresource k o =
       if bool_decide (k ∈ gsr_resetFields g) && negb (skipped k)
       then old_or_new k (ro_GetSubresource k old) (ro_GetSubresource k new) else ro_GetSubresource k new).
Proof using RL.
  intros Hs. split_and!; intros s.
  - exact (PrepareForUpdate_spec (SpecStrategy s) new old Hs).
  - exact (PrepareForUpdate_spec (StatusStrategy s) new old Hs).
  - exact (PrepareForUpdate_spec (SubresourceStrategy s) new old Hs).
Qed.

(** What the endpoint of a subresource makes of the subresources: those that the kind's zero
    value has, but for the endpoint's own, are the old object's where it has them; all
    others come from the update. *)
Definition endpoint_subresource (zero : called (option V)) (sr k : string) (new old : O) : called (option V) :=
  match zero with
  | Returned (Some _) =>
      if negb (String.eqb k sr) && negb (skipped k)
      then old_or_new k (ro_GetSubresource k old) (ro_GetSubresource k new)
      else ro_GetSubresource k new
  | _ => ro_GetSubresource k new
  end.

Lemma newSubresourceREST_run gv_string store (kind : ApiKind O) sr new old :
  same new old → same (ak_ZeroValue kind) old →
  ∃ rest s o, newSubresourceREST gv_string store kind sr = Returned rest ∧ gs_UpdateStrategy rest = Some s ∧
    gs_CreateStrategy rest = None ∧
    PrepareForUpdate s (ResObject new) (ResObject old) = Returned (ResObject o) ∧
    ro_GetSpec o = ro_GetSpec old ∧ ro_ObjectMeta o = restore_metadata (ro_ObjectMeta old) (ro_ObjectMeta new) ∧
    ∀ k, ro_GetSubresource k o =
      endpoint_subresource (ro_GetSubresource k (ak_ZeroValue kind)) sr k new old.
Proof using RL.
  intros Hs Hz. unfold newSubresourceREST.
  assert (Hzz : same (ak_ZeroValue kind) (ak_ZeroValue kind)) by by eapply same_refl_l.
  destruct (subs_get (ak_ZeroValue kind) Hzz) as (m & -> & Hm). eexists _, _.
  destruct (PrepareForUpdate_spec (SubresourceStrategy (newSubresourceStrategy (kind_gv gv_string kind) sr
    (reset_fields sr (items m)) (negb (cluster_scoped kind)))) new old Hs) as (o & E & H1 & Hmeta & H2).
  exists o. do 3 (split; [done|]). split; [exact E|]. split; [exact H1|]. split; [exact Hmeta|].
  assert (Hin : ∀ k, k ∈ reset_fields sr (items m) ↔ k = "spec" ∨ (k ≠ sr ∧ is_Some (items m !! k))).
  { intros k. unfold reset_fields. rewrite elem_of_cons, list_elem_of_In, List.filter_In, <- list_elem_of_In.
    rewrite range_map_fst, elem_of_range_keys, elem_of_dom, negb_true_iff, String.eqb_neq. naive_solver. }
  intros k. rewrite H2, Hm. simpl. unfold endpoint_subresource.
  destruct (String.eqb_spec k "spec") as [->|Hspec].
  { replace (skipped "spec") with true by done. simpl. rewrite !andb_false_r. simpl. by destruct (items m !! "spec").  }
  destruct (items m !! k) as [z|] eqn:Ez, (String.eqb_spec k sr) as [->|Hk]; simpl.
  - rewrite bool_decide_eq_false_2; [done|]. by intros [?|[? _]]%Hin.
  - rewrite bool_decide_eq_true_2; [done|]. apply Hin. right. by split; [|eexists].
  - rewrite bool_decide_eq_false_2; [done|]. by intros [?|[? _]]%Hin.
  - rewrite bool_decide_eq_false_2; [done|]. intros [?|[_ [z ?]]]%Hin; congruence.
Qed.

(** C21: What an update through the endpoint that is made for a subresource of a kind may
    change.  The spec, and the metadata that is the user's, are those of the old object, and
    the endpoint never creates.  The subresource itself is that of the update.  Every other
    subresource that the kind's zero value has is the old object's, if the old object has
    it, and comes from the update if it has not; so does every subresource the zero value
    lacks, also one that the old object has.  With a zero value and an old object that have
    the same subresources, as typed objects do, the endpoint therefore changes its own only. *)
Theorem newSubresourceREST_confined gv_string store (kind : ApiKind O) sr new old :
  same new old → same (ak_ZeroValue kind) old →
  ∃ rest s o, newSubresourceREST gv_string store kind sr = Returned rest ∧ gs_UpdateStrategy rest = Some s ∧
    gs_CreateStrategy rest = None ∧
    PrepareForUpdate s (ResObject new) (ResObject old) = Returned (ResObject o) ∧
    ro_GetSpec o = ro_GetSpec old ∧ ro_ObjectMeta o = restore_metadata (ro_ObjectMeta old) (ro_ObjectMeta new) ∧
    ro_GetSubresource sr o = ro_GetSubresource sr new ∧
    (∀ k, ro_GetSubresource k o =
       endpoint_subresource (ro_GetSubresource k (ak_ZeroValue kind)) sr k new old) ∧
    (∀ k v z, k ≠ sr → skipped k = false → ro_GetSubresource k old = Returned (Some v) →
       ro_GetSubresource k (ak_ZeroValue kind) = Returned (Some z) →
       ro_GetSubresource k o = Returned (Some v)).
Proof using RL.
  intros Hs Hz. destruct (newSubresourceREST_run gv_string store kind sr new old Hs Hz)
    as (rest & s & o & H1 & H2 & H3 & H4 & H5 & H6 & Hk).
  exists rest, s, o. do 6 (split; [done|]). split; [|split; [done|]].
  - rewrite Hk. unfold endpoint_subresource. rewrite String.eqb_refl. simpl. by repeat case_match.
  - intros k v z Hne Hsk Hold Hzero. rewrite Hk, Hzero. unfold endpoint_subresource.
    rewrite (proj2 (String.eqb_neq k sr) Hne), Hsk. simpl. by rewrite Hold.
Qed.

(** A subresource that the kind's zero value lacks, as that of an untyped kind does, is
    written through the endpoint of any other. *)
Theorem endpoint_writes_others gv_string store (kind : ApiKind O) sr new old k :
  same new old → same (ak_ZeroValue kind) old →
  ro_GetSubresource k (ak_ZeroValue kind) = Returned None →
  ∃ rest s o, newSubresourceREST gv_string store kind sr = Returned rest ∧ gs_UpdateStrategy rest = Some s ∧
    PrepareForUpdate s (ResObject new) (ResObject old) = Returned (ResObject o) ∧
    ro_GetSubresource k o = ro_GetSubresource k new.
Proof using RL.
  intros Hs Hz Hk. destruct (newSubresourceREST_run gv_string store kind sr new old Hs Hz)
    as (rest & s & o & H1 & H2 & _ & H4 & _ & _ & H).
  exists rest, s, o. do 3 (split; [done|]). by rewrite H, Hk.
Qed.
End Confined.

(** ** Selecting objects *)
Section Selecting.
Context {O V : Type} `{RO : !ResourceObject O V}.
Context (ObjectMetaFieldsSet : ObjectMeta → bool → gmap string string).

Lemma getAttrs_fields (l : list (string * (O → string + GoError))) o (flds : gmap string string) k :
  foldl (λ flds '(sel, f), <[TrimPrefix sel "." := field_value f o]> flds) flds l !! k =
  match List.find (λ f, String.eqb (TrimPrefix f.1 ".") k) (reverse l) with
  | Some f => Some (field_value f.2 o)
  | None => flds !! k
  end.
Proof.
  revert flds. induction l as [|[sel f] l IH]; intros flds; [done|]. simpl. rewrite IH, reverse_cons.
  assert (Hf : ∀ (p : string * (O → string + GoError) → bool) l1 x,
    List.find p (l1 ++ [x]) = match List.find p l1 with Some y => Some y | None => if p x then Some x else None end).
  { intros p l1 x. induction l1 as [|y l1 IHl]; [done|]. simpl. by destruct (p y). }
  rewrite Hf. destruct (List.find _ (reverse l)); [done|]. simpl.
  destruct (String.eqb_spec (TrimPrefix sel ".") k) as [->|Hk]; [by rewrite lookup_insert_eq|].
  by rewrite lookup_insert_ne.
Qed.

(** Every field label that the API server accepts for a kind is a field that each object
    of the kind has: the conversion of the label names an entry of the object's fields, the
    name or namespace, or the value that a selectable field's function gives. *)
Theorem field_labels_selectable (kind : ApiKind O) gvk_text label value label' value' o :
  (∀ m ns, is_Some (ObjectMetaFieldsSet m ns !! "metadata.name") ∧
           (ns = true → is_Some (ObjectMetaFieldsSet m ns !! "metadata.namespace"))) →
  fieldLabelConversionFuncForKind gvk_text kind label value = inl (label', value') →
  value' = value ∧ ∃ flds, getAttrsFunc ObjectMetaFieldsSet kind (ResObject o) =
      inl (om_Labels (ro_ObjectMeta o), flds) ∧
    ((label' = "metadata.name" ∨ label' = "metadata.namespace") ∧ is_Some (flds !! label') ∨
     ∃ f, f ∈ ak_SelectableFields kind ∧ TrimPrefix f.1 "." = label' ∧ flds !! label' = Some (field_value f.2 o)).
Proof.
  intros Hset. unfold fieldLabelConversionFuncForKind, getAttrsFunc.
  assert (Hover : ∀ k (flds : gmap string string), is_Some (flds !! k) → is_Some (foldl (λ flds '(sel, f),
    <[TrimPrefix sel "." := field_value f o]> flds) flds (ak_SelectableFields kind) !! k)).
  { intros k flds Hk. rewrite getAttrs_fields. by destruct (List.find _ _). }
  destruct (String.eqb label "metadata.name" || _) eqn:El.
  - intros [= <- <-]. split; [done|]. eexists. split; [done|]. left.
    apply orb_true_iff in El as [->%String.eqb_eq | [Hc ->%String.eqb_eq]%andb_prop].
    + split; [by left|]. apply Hover, Hset.
    + split; [by right|]. apply Hover, Hset. exact Hc.
  - destruct (List.find (selects label) (ak_SelectableFields kind)) as [f|] eqn:Ef; [|done].
    intros [= <- <-]. split; [done|]. eexists. split; [done|]. right.
    apply List.find_some in Ef as [Hin _]. rewrite getAttrs_fields.
    destruct (List.find _ (reverse _)) as [g|] eqn:Eg.
    + apply List.find_some in Eg as [Hg Eg]. apply String.eqb_eq in Eg.
      exists g. split; [|done]. by rewrite <- list_elem_of_In, elem_of_reverse in Hg.
    + exfalso. pose proof (List.find_none _ _ Eg f) as Hn. cbv beta in Hn. rewrite String.eqb_refl in Hn.
      enough (true = false) by done. apply Hn. by rewrite <- list_elem_of_In, elem_of_reverse, list_elem_of_In.
Qed.
End Selecting.

(** ** Instances for the witnesses *)
Definition TestObject : Type := TypedSpecStatusObject.TypedSpecStatusObject (nmap Doc) string.

Definition test_object (name status : string) (x : Z) : TestObject :=
  TypedSpecStatusObject.mkTypedSpecStatusObject (mkTypeMeta "Foo" "g/v1") (named_meta name)
    (Some {[ "x" := ANumber x ]}) status.

Definition test_gv (g v : string) : string := g +:+ "/" +:+ v.
Definition test_fields (m : ObjectMeta) (ns : bool) : gmap string string :=
  if ns then {[ "metadata.name" := om_Name m; "metadata.namespace" := om_Namespace m ]}
  else {[ "metadata.name" := om_Name m ]}.

Definition status_field (o : TestObject) : string + GoError := inl (TypedSpecStatusObject.t_Status o).
Definition test_kind : ApiKind TestObject :=
  mkApiKind "g" "v1" "Foo" "foos" "Namespaced" (test_object "" "" 0) [(".status", status_field)].

Definition test_store : GenericStore TestObject :=
  mkGenericStore (test_object "" "" 0) ("g", "foos") ("g", "foo") None None None None.

Lemma PrepareForUpdate_confines_witness :
  PrepareForUpdate (V:=TestAny) (SpecStrategy (newStrategy test_kind))
    (ResObject (test_object "b" "new" 2)) (ResObject (test_object "a" "old" 1)) =
  Returned (ResObject (test_object "b" "old" 2)).
Proof.
  destruct (PrepareForUpdate_confines (V:=TestAny) (RL:=TypedSpecStatusObject.SpecStatus_laws) (λ _ _, True)
    (test_object "b" "new" 2) (test_object "a" "old" 1) I) as (H & _ & _).
  destruct (H (newStrategy test_kind)) as (o & E & H1 & H2 & H3).
  etransitivity; [exact E|]. clear -E. vm_compute in E. injection E as <-. reflexivity.
Defined.

Lemma newSubresourceREST_confined_witness : ∃ rest s o,
  newSubresourceREST (V:=TestAny) test_gv test_store test_kind "scale" = Returned rest ∧
  gs_UpdateStrategy rest = Some s ∧
  PrepareForUpdate (V:=TestAny) s (ResObject (test_object "a" "new" 2)) (ResObject (test_object "a" "old" 1)) =
    Returned (ResObject o) ∧
  ro_GetSubresource (V:=TestAny) "status" o = Returned (Some (TString "old")).
Proof.
  destruct (newSubresourceREST_confined (V:=TestAny) (RL:=TypedSpecStatusObject.SpecStatus_laws) (λ _ _, True)
    test_gv test_store test_kind "scale" (test_object "a" "new" 2) (test_object "a" "old" 1) I I)
    as (rest & s & o & H1 & H2 & _ & H3 & _ & _ & _ & _ & H4).
  exists rest, s, o. split; [exact H1|]. split; [exact H2|]. split; [exact H3|].
  apply (H4 "status" (TString "old") (TString "")); [discriminate | reflexivity..].
Defined.

Lemma field_labels_selectable_witness : ∃ flds,
  fieldLabelConversionFuncForKind "g/v1, Kind=Foo" test_kind "status" "new" = inl ("status", "new") ∧
  getAttrsFunc (V:=TestAny) test_fields test_kind (ResObject (test_object "a" "new" 1)) = inl (∅, flds) ∧
  flds !! "status" = Some "new".
Proof.
  destruct (field_labels_selectable (V:=TestAny) test_fields test_kind "g/v1, Kind=Foo" "status" "new" "status" "new"
    (test_object "a" "new" 1)) as (_ & flds & H1 & H2).
  - intros m ns. split; [destruct ns; by eexists | intros ->; by eexists].
  - reflexivity.
  - exists flds. split; [reflexivity|]. split; [exact H1|].
    destruct H2 as [[[E|E] _] | (f & ->%list_elem_of_singleton & _ & H2)]; [discriminate E.. | exact H2].
Defined.

(** An untyped object that has no status yet gets the one of a plain update. *)
Example untyped_status_written :
  let new := put_subresource "status" (Raw (AString "new")) test_untyped in
  let old := mkUntypedObject (mkTypeMeta "Foo" "g/v1") (named_meta "a") (Some ∅) None in
  let kind := mkApiKind "g" "v1" "Foo" "foos" "Namespaced" zero_untyped [] in
  PrepareForUpdate (RO:=Untyped_object test_marshal_any) (SpecStrategy (newStrategy kind))
    (ResObject new) (ResObject old) = Returned (ResObject new).
Proof. vm_compute. reflexivity. Qed.
