(* ===== verification/ApiRoutes.v ===== *)
(** * Custom routes in the API server ([k8s/apiserver/connector.go] and [installer.go])

    The connector that serves the routes below an object of a kind, the routes of a version
    that are registered with a web service, and the app they call, which may not be
    initialized yet.  An installer's app is an argument of the handlers, the value
    the field has when they run.  The last section composes the connector with the
    simple app. *)
From S2P Require Import Prelude GoValues Resource ResourceWatcher Schema Client Concrete VersionSchema Manifest Admission Webhooks PluginRouter Runners App SimpleApp.

#[local] Open Scope string_scope.
#[local] Open Scope list_scope.

(** ** [net/http] and the answers *)

(** Writing the header and the body of a response. *)
Class HTTPWriter (W : Type) := {
  put_header : ResponseWriter → Z → W → W;
  Write : ResponseWriter → string → M W (option GoError);
}.

(** The bodies the routes encode as JSON: a [metav1.Status], with the group, kind and name of
    its details, by itself or in an [apierrors.StatusError]. *)
Record StatusBody := mkStatusBody {
  sb_Code : Z;
  sb_Reason : string;
  sb_Message : string;
  sb_Details : option (string * string * string);
}.
Inductive Body := BodyStatus (s : StatusBody) | BodyStatusError (s : StatusBody).

Section Routes.
Context {W : Type} `{WW : !World W, HW : !HTTPWriter W}.

(** [json.Marshal] of an error, and [json.NewEncoder(w).Encode] of a body. *)
Context (marshal_error : GoError → string + GoError) (encode_body : Body → string).

(** [WriteHeader] panics on a code without three digits. *)
Definition WriteHeader (w : ResponseWriter) (code : Z) : MP W unit :=
  if (100 <=? code)%Z && (code <=? 999)%Z then λ σ, (Returned tt, put_header w code σ) else panic.

Definition Encode (w : ResponseWriter) (b : Body) : MP W (option GoError) := calls (Write w (encode_body b)).

(** ** [connector.go] *)

(** [CustomRoute] *)
Record CustomRoute := mkCustomRoute { rt_Path : string; rt_Handler : AppCustomRouteHandler W }.

(** [SubresourceConnectorResponseObject] *)
Record ResponseObject := mkResponseObject { ro_Object : option string; ro_MIMETypes : list string }.

Record SubresourceConnector := mkSubresourceConnector {
  sc_Route : CustomRoute;
  sc_Kind : Kind (W:=W);
  sc_Methods : gmap string ResponseObject;
}.

Definition ConnectMethods `{RG : !RangeOrder} (r : SubresourceConnector) : list string := (range_map (sc_Methods r)).*1.

(** The zero value for a method that is not in the map. *)
Definition method_response (r : SubresourceConnector) (verb : string) : ResponseObject :=
  default (mkResponseObject None []) (sc_Methods r !! ToUpper verb).
Definition ProducesObject (r : SubresourceConnector) (verb : string) : option string :=
  ro_Object (method_response r verb).
Definition ProducesMIMETypes (r : SubresourceConnector) (verb : string) : list string :=
  match ro_MIMETypes (method_response r verb) with [] => ["application/json"] | l => l end.

(** [strings.Index] *)
Fixpoint Index (s sub : string) : option nat :=
  if String.prefix sub s then Some 0%nat
  else match s with EmptyString => None | String _ s => S <$> Index s sub end.

(** The path below an object: what follows the API version, without the segments that name
    the object.  A path that ends with the version panics. *)
Definition urlToPath (gv : string) (cluster : bool) (path : string) : called string :=
  match Index path gv with
  | None => Returned path
  | Some idx =>
      if (String.length path <? idx + String.length gv + 1)%nat then Panics
      else
        let parts := Split (str_drop (idx + String.length gv + 1) path) "/" in
        let n := if cluster then 2%nat else 4%nat in
        Returned (if (length parts <=? n)%nat then "" else String.concat "/" (drop n parts))
  end.

(** [request.RequestInfo], what is read of it. *)
Record RequestInfo := mkRequestInfo {
  ri_Name : string;
  ri_Namespace : string;
  ri_APIGroup : string;
  ri_APIVersion : string;
}.

(** An [http.Request]. *)
Record HTTPRequest := mkHTTPRequest {
  hr_Path : string;
  hr_URL : string;
  hr_Method : string;
  hr_Header : gmap string (list string);
  hr_Body : string;
}.

Record handlerWrapper := mkHandlerWrapper {
  hwr_id : FullIdentifier;
  hwr_handler : AppCustomRouteHandler W;
  hwr_urlToPath : string → called string;
}.

Context (gv_string : string → string → string).

(** [Connect]; the options of the request are of the right type. *)
Definition Connect (r : SubresourceConnector) (info : option RequestInfo) : handlerWrapper + GoError :=
  match info with
  | None => inr (ErrorString "unable to retrieve request info from context")
  | Some info =>
      let k := gvk_of (sc_Kind r) in
      inl (mkHandlerWrapper
             (mkFullIdentifier (ri_Namespace info) (ri_Name info) (ri_APIGroup info) (ri_APIVersion info)
                (g_Kind k) "")
             (rt_Handler (sc_Route r))
             (urlToPath (gv_string (g_Group k) (g_Version k))
                (match k_Schema (sc_Kind r) with Some s => String.eqb (Scope_ s) ClusterScope | None => false end)))
  end.

(** The assertion [err.(apierrors.APIStatus)], of the error itself. *)
Definition own_status (e : GoError) : option Status :=
  match e with
  | StatusError _ | FinalizerOperationError _ _ | ServerResponseError _ _ => AsAPIStatus e
  | _ => None
  end.

(** The code that an error is answered with. *)
Definition error_code (e : GoError) : Z := match own_status e with Some st => st_Code st | None => 500 end.

(** The end of [ServeHTTP]: the answer to an error. *)
Definition serve_error (w : ResponseWriter) (err : GoError) : MP W unit :=
  let! j := match marshal_error err with
            | inl j => returns j
            | inr _ => let! _ := WriteHeader w 500 in returns ""
            end in
  let! _ := WriteHeader w (error_code err) in
  let! _ := calls (Write w j) in returns tt.

Definition ServeHTTP (h : handlerWrapper) (w : ResponseWriter) (req : HTTPRequest) : MP W unit :=
  match hwr_urlToPath h (hr_Path req) with
  | Panics => panic
  | Returned path =>
      let! err := hwr_handler h w (mkCustomRouteRequest (hwr_id h) path (hr_URL req) (hr_Method req)
                                     (hr_Header req) (hr_Body req)) in
      match err with None => returns tt | Some err => serve_error w err end
  end.

(** ** The app of an installer *)
Definition ErrAppNotInitialized : GoError := ErrorString "app not initialized".
Definition ErrAppAlreadyInitialized : GoError := ErrorString "app already initialized".

(** [App], for the app that is set. *)
Definition installed_app (app : option (App W)) : App W + GoError :=
  match app with Some a => inl a | None => inr ErrAppNotInitialized end.

(** [InitializeApp], which holds the mutex. *)
Definition InitializeApp {PathProps RouteSchema G KubeConfig Specific}
    (NewApp : Config (PathProps:=PathProps) (RouteSchema:=RouteSchema) (G:=G) (KubeConfig:=KubeConfig) (Specific:=Specific)
              → M W (App W + GoError))
    (specific : Specific) (md : ManifestData PathProps RouteSchema G) (cfg : KubeConfig) (app : option (App W))
  : M W (option (App W) * option GoError) :=
  match app with
  | Some _ => ret (app, Some ErrAppAlreadyInitialized)
  | None =>
      let* r := NewApp (mkProviderConfig cfg md specific) in
      match r with
      | inr err => ret (None, Some err)
      | inl a => ret (Some a, None)
      end
  end.

(** ** The routes below an object ([InstallAPIs]) *)

(** The answer when the app does not have the route. *)
Definition not_found_body (group version kind plural name route : string) : Body :=
  BodyStatusError (mkStatusBody 404 "NotFound"
    (plural +:+ "." +:+ group +:+ "/" +:+ version +:+ " subresource '" +:+ route +:+ "' not found")
    (Some (group, kind, name))).

Definition subresource_handler (app : option (App W)) (group version kind plural route : string)
  : AppCustomRouteHandler W := λ writer request,
  match installed_app app with
  | inr err => returns (Some err)
  | inl a =>
      let! err := app_CallCustomRoute a writer request in
      match err with
      | Some e =>
          if ErrorsIs e ErrCustomRouteNotFound then
            let! _ := WriteHeader writer 404 in
            Encode writer (not_found_body group version kind plural (fid_Name (crr_ResourceIdentifier request)) route)
          else returns (Some e)
      | None => returns None
      end
  end.

(** ** The routes of a version ([registerResourceRouteOperation]) *)

Definition error_body (err : GoError) : Body := BodyStatus (mkStatusBody 500 "" (Error err) None).

(** [resp.WriteHeader(500)] and the encoded status, of which an error is dropped. *)
Definition answer_500 (resp : ResponseWriter) (err : GoError) : MP W unit :=
  let! _ := WriteHeader resp 500 in let! _ := Encode resp (error_body err) in returns tt.

(** The function of the route; [namespace] is the path parameter. *)
Definition version_handler (app : option (App W)) (group version rpath : string) (scope : SchemaScope)
    (resp : ResponseWriter) (namespace : string) (req : HTTPRequest) : MP W unit :=
  let request :=
    mkCustomRouteRequest
      (mkFullIdentifier (if String.eqb scope NamespacedScope then namespace else "") "" group version "" "")
      rpath (hr_URL req) (hr_Method req) (hr_Header req) (hr_Body req) in
  match installed_app app with
  | inr err => let! _ := answer_500 resp err in panic
  | inl a =>
      let! err := app_CallCustomRoute a resp request in
      match err with Some err => answer_500 resp err | None => returns tt end
  end.
End Routes.

Arguments CustomRoute : clear implicits.
Arguments SubresourceConnector : clear implicits.
Arguments handlerWrapper : clear implicits.

(** The name of an operation. *)
Definition allowedK8sVerbs : list string :=
  ["get"; "log"; "read"; "replace"; "patch"; "delete"; "deletecollection"; "watch"; "connect"; "proxy"; "list";
   "create"; "patch"].

Definition httpMethodToK8sVerb (method : string) : string :=
  if String.eqb method "GET" then "get"
  else if String.eqb method "POST" then "create"
  else if String.eqb method "PUT" then "replace"
  else if String.eqb method "PATCH" then "patch"
  else if String.eqb method "DELETE" then "delete"
  else if String.eqb method "CONNECT" || String.eqb method "OPTIONS" || String.eqb method "HEAD" then "connect"
  else "".

Definition has_verb (operationID verb : string) : bool :=
  (String.length verb <? String.length operationID)%nat && String.prefix verb operationID.

Definition prefixRouteIDWithK8sVerbIfNotPresent (operationID method : string) : string :=
  if existsb (has_verb operationID) allowedK8sVerbs then operationID
  else httpMethodToK8sVerb (ToUpper method) +:+ operationID.

(** A [spec3.Operation], what is read of it: its name, the place and name of its parameters, the
    schemas of the content types of its default response, if it has responses and a default
    one, and of its body.  [S] is the type of schemas. *)
Record Operation (S : Type) := mkOperation {
  op_OperationId : string;
  op_Parameters : list (string * string);
  op_Responses : option (option (gmap string (option S)));
  op_RequestBody : option (gmap string (option S));
}.
Arguments mkOperation {S}.
Arguments op_OperationId {S}.
Arguments op_Parameters {S}.
Arguments op_Responses {S}.
Arguments op_RequestBody {S}.

(** [spec3.PathProps] *)
Record PathProps (S : Type) := mkPathProps {
  po_Get : option (Operation S);
  po_Post : option (Operation S);
  po_Put : option (Operation S);
  po_Patch : option (Operation S);
  po_Delete : option (Operation S);
  po_Head : option (Operation S);
  po_Options : option (Operation S);
}.
Arguments mkPathProps {S}.
Arguments po_Get {S}.
Arguments po_Post {S}.
Arguments po_Put {S}.
Arguments po_Patch {S}.
Arguments po_Delete {S}.
Arguments po_Head {S}.
Arguments po_Options {S}.

(** The operations of a path, in the order every function looks at them. *)
Definition operations {S} (p : PathProps S) : list (string * Operation S) :=
  omap (λ '(method, op), (method,.) <$> op)
    [("GET", po_Get p); ("POST", po_Post p); ("PUT", po_Put p); ("PATCH", po_Patch p); ("DELETE", po_Delete p);
     ("HEAD", po_Head p); ("OPTIONS", po_Options p)].

(** A function of a [GoTypeResolver]: the name of the Go type for a kind, version, path and
    method. *)
Definition GoTypes : Type := string → string → string → string → option string.

(** A route of a web service: method, path, operation, parameters (place and name), the types
    it reads and returns, and the arguments of its function. *)
Record WebRoute := mkWebRoute {
  wr_Method : string;
  wr_Path : string;
  wr_Operation : string;
  wr_Parameters : list (string * string);
  wr_Reads : option string;
  wr_Returns : string;
  wr_rpath : string;
  wr_scope : SchemaScope;
}.

Definition known_place (place : string) : bool :=
  String.eqb place "path" || String.eqb place "query" || String.eqb place "header".

(** [registerResourceRouteOperation], for one of the seven methods. *)
Definition registerResourceRouteOperation {S} (returns_type body_type : GoTypes) (version rpath : string)
    (op : Operation S) (scope : SchemaScope) (method : string) : WebRoute :=
  let namespaced := String.eqb scope NamespacedScope in
  let lookup := if namespaced then path_Join "<namespace>" rpath else rpath in
  mkWebRoute method
    (if namespaced then path_Join (path_Join "namespaces" "{namespace}") rpath else rpath)
    (prefixRouteIDWithK8sVerbIfNotPresent (op_OperationId op) method)
    ((if namespaced then [("path", "namespace")] else []) ++
     List.filter (λ p, known_place p.1) (op_Parameters op))
    (match op_RequestBody op with Some _ => body_type "" version lookup method | None => None end)
    (default "EmptyObject" (returns_type "" version lookup method))
    rpath scope.

(** [registerResourceRoute] *)
Definition registerResourceRoute {S} (returns_type body_type : GoTypes) (version rpath : string)
    (props : PathProps S) (scope : SchemaScope) : list WebRoute :=
  (λ '(method, op), registerResourceRouteOperation returns_type body_type version rpath op scope method) <$>
  operations props.

(** [spec3PropsToConnectorMethods] *)
Definition mimeTypes {S} `{RG : !RangeOrder} (op : Operation S) : list string :=
  match op_Responses op with
  | None | Some None => ["*/*"]
  | Some (Some content) => (range_map content).*1
  end.

Definition spec3PropsToConnectorMethods {S} `{RG : !RangeOrder} (props : PathProps S) (kind ver routePath : string)
    (resolver : GoTypes) : gmap string ResponseObject :=
  foldl (λ methods '(method, op),
           <[method := mkResponseObject (resolver kind ver routePath method) (mimeTypes op)]> methods)
    ∅ (operations props).

(** ** Paths *)
Lemma concat_Split s c : String.concat (String c "") (Split s c) = s.
Proof.
  induction s as [|c' s IH]; [done|]. cbn [Split]. destruct (Ascii.eqb_spec c c') as [<-|Hc].
  - destruct (Split s c) as [|p ps] eqn:E; [by destruct (Split_not_nil s c)|].
    change (String.concat (String c "") ("" :: p :: ps)) with (String c (String.concat (String c "") (p :: ps))).
    by rewrite IH.
  - destruct (Split s c) as [|p ps] eqn:E; [by destruct (Split_not_nil s c)|].
    destruct ps as [|q ps]; [by rewrite <- IH|].
    change (String.concat (String c "") (String c' p :: q :: ps)) with
      (String c' (String.concat (String c "") (p :: q :: ps))). by rewrite IH.
Qed.

Lemma prefix_spec p s : String.prefix p s = true → ∃ t, s = p +:+ t.
Proof.
  revert s. induction p as [|c p IH]; intros s; [by exists s|]. destruct s as [|c' s]; [done|]. simpl.
  destruct (Ascii.ascii_dec c c') as [<-|]; [|done]. intros [t ->]%IH. by exists t.
Qed.

(** The version is not found before its place in the path of an API: the group is none of the
    ends of [apis]. *)
Lemma gv_not_prefix (a g v s : string) :
  free_of "/" a = true → free_of "/" g = true → g ≠ a → String.prefix (g +:+ String "/" v) (a +:+ String "/" s) = false.
Proof.
  intros Ha Hg Hne. destruct (String.prefix _ _) eqn:E; [|done]. apply prefix_spec in E as [t E].
  rewrite <- string_app_assoc in E. apply (separator_inj "/" a g s (v +:+ t) Ha Hg) in E as [E _]. by subst.
Qed.

Definition plain_group (g : string) : Prop :=
  free_of "/" g = true ∧ g ≠ "" ∧ g ≠ "s" ∧ g ≠ "is" ∧ g ≠ "pis" ∧ g ≠ "apis".

Lemma Index_api_path g v rest : plain_group g →
  Index ("/apis/" +:+ (g +:+ String "/" v) +:+ rest) (g +:+ String "/" v) = Some 6%nat.
Proof.
  intros (Hg & H0 & H1 & H2 & H3 & H4). set (gv := g +:+ String "/" v). set (s := gv +:+ rest).
  change ("/apis/" +:+ s) with (String "/" (String "a" (String "p" (String "i" (String "s" (String "/" s)))))).
  assert (Hi : Index s gv = Some 0%nat).
  { unfold s. pose proof (prefix_app gv rest) as Hp. destruct (gv +:+ rest); simpl in *; by rewrite Hp. }
  pose proof (gv_not_prefix "" g v (String "a" (String "p" (String "i" (String "s" (String "/" s))))) eq_refl Hg H0) as P0.
  pose proof (gv_not_prefix "apis" g v s eq_refl Hg H4) as P1. pose proof (gv_not_prefix "pis" g v s eq_refl Hg H3) as P2.
  pose proof (gv_not_prefix "is" g v s eq_refl Hg H2) as P3. pose proof (gv_not_prefix "s" g v s eq_refl Hg H1) as P4.
  pose proof (gv_not_prefix "" g v s eq_refl Hg H0) as P5. fold gv in P0, P1, P2, P3, P4, P5.
  cbv beta iota delta [String.append] in P0, P1, P2, P3, P4, P5. fold String.append in *.
  cbn [Index]. rewrite P0, P1, P2, P3, P4, P5, Hi. done.
Qed.

Lemma str_drop_add n m s : str_drop (n + m) s = str_drop m (str_drop n s).
Proof. revert s. induction n as [|n IH]; intros s; [done|]. destruct s; [by destruct m | apply IH]. Qed.

Lemma urlToPath_tail g v cluster tail : plain_group g →
  urlToPath (g +:+ String "/" v) cluster ("/apis/" +:+ (g +:+ String "/" v) +:+ String "/" tail) =
  let n := if cluster then 2%nat else 4%nat in
  Returned (if (length (Split tail "/") <=? n)%nat then "" else String.concat "/" (drop n (Split tail "/"))).
Proof.
  intros Hg. unfold urlToPath. rewrite Index_api_path by done. set (gv := g +:+ String "/" v).
  rewrite (proj2 (Nat.ltb_ge _ _)).
  - replace (6 + String.length gv + 1)%nat with (String.length ("/apis/" +:+ gv) + 1)%nat
      by (rewrite length_app_string; done).
    by rewrite string_app_assoc, str_drop_add, str_drop_app.
  - rewrite !length_app_string. simpl. lia.
Qed.

(** The path of what is below an object. *)
Definition object_path (g v : string) (cluster : bool) (ns plural name rest : string) : string :=
  let obj := plural +:+ String "/" (name +:+ String "/" rest) in
  "/apis/" +:+ (g +:+ String "/" v) +:+ String "/"
    (if cluster then obj else "namespaces" +:+ String "/" (ns +:+ String "/" obj)).

Lemma urlToPath_object g v cluster ns plural name rest :
  plain_group g → free_of "/" ns = true → free_of "/" plural = true → free_of "/" name = true →
  urlToPath (g +:+ String "/" v) cluster (object_path g v cluster ns plural name rest) = Returned rest.
Proof.
  intros Hg Hns Hp Hn. unfold object_path. rewrite urlToPath_tail by done.
  destruct (Split rest "/") as [|p ps] eqn:E; [by destruct (Split_not_nil rest "/")|].
  pose proof (concat_Split rest "/") as Hc. rewrite E in Hc.
  destruct cluster; cbv zeta; [rewrite (Split_free "/" plural), (Split_free "/" name) by done |
    rewrite (Split_free "/" "namespaces"), (Split_free "/" ns), (Split_free "/" plural), (Split_free "/" name) by done];
    cbn [length drop]; rewrite E; cbn [length]; by rewrite drop_0, Hc.
Qed.

Lemma string_app_cons c s t : String c s +:+ t = String c (s +:+ t).
Proof. done. Qed.

(** The connector gives a handler the part of the path below the object: in a namespace,
    what follows [namespaces], the namespace, the plural and the name; for a cluster-scoped
    kind, what follows the plural and the name; and nothing when the path ends there. *)
Theorem urlToPath_below g v (cluster : bool) (ns plural name : string) :
  plain_group g → free_of "/" ns = true → free_of "/" plural = true → free_of "/" name = true →
  let obj := plural +:+ String "/" name in
  let path := "/apis/" +:+ (g +:+ String "/" v) +:+ String "/"
                (if cluster then obj else "namespaces" +:+ String "/" (ns +:+ String "/" obj)) in
  urlToPath (g +:+ String "/" v) cluster path = Returned "" ∧
  ∀ rest, urlToPath (g +:+ String "/" v) cluster (path +:+ String "/" rest) = Returned rest.
Proof.
  intros Hg Hns Hp Hn obj path. split.
  - unfold path, obj. rewrite urlToPath_tail by done. cbv zeta.
    destruct cluster; [by rewrite (Split_free "/" plural), (Split_free_end "/" name) by done |].
    by rewrite (Split_free "/" "namespaces"), (Split_free "/" ns), (Split_free "/" plural), (Split_free_end "/" name).
  - intros rest. rewrite <- (urlToPath_object g v cluster ns plural name rest) by done. f_equal.
    unfold path, obj, object_path. destruct cluster; cbv zeta;
      repeat (rewrite <- string_app_assoc || rewrite string_app_cons); done.
Qed.

Lemma urlToPath_below_witness :
  urlToPath "g.io/v1" false "/apis/g.io/v1/namespaces/ns/foos/a/bar/baz" = Returned "bar/baz".
Proof. apply (urlToPath_below "g.io" "v1" false "ns" "foos" "a"); [by repeat split | reflexivity..]. Defined.

(** A path that ends with the version of the API. *)
Lemma urlToPath_short : urlToPath "g/v1" false "/apis/g/v1" = Panics.
Proof. reflexivity. Qed.

(** ** Answers *)
Section Answers.
Context {W : Type} `{WW : !World W, HW : !HTTPWriter W}.
Context (marshal_error : GoError → string + GoError) (encode_body : Body → string).

(** An error of a route that can be written as JSON is answered with its own status code
    (500 when it has none) and its JSON; a status with a code that is not one of HTTP makes
    the server panic instead. *)
Theorem serve_error_answers w err j σ : marshal_error err = inl j →
  serve_error marshal_error w err σ =
    if (100 <=? error_code err)%Z && (error_code err <=? 999)%Z
    then let '(_, σ') := Write w j (put_header w (error_code err) σ) in (Returned tt, σ')
    else (Panics, σ).
Proof.
  intros E. unfold serve_error. rewrite E. unfold and_returns, returns, bind, ret, WriteHeader.
  destruct (_ && _); [|done]. unfold calls, bind, ret. by destruct (Write w j _).
Qed.

(** A route of a version that is called before the app is initialized answers, and panics. *)
Lemma version_handler_uninitialized group version rpath scope resp namespace req σ :
  (version_handler encode_body None group version rpath scope resp namespace req σ).1 = Panics.
Proof.
  unfold version_handler, answer_500, Encode. cbn [installed_app].
  unfold and_returns, returns, bind, ret, calls, panic, WriteHeader, bind. cbn -[put_header Write].
  by destruct (Write _ _ _).
Qed.

(** A route of a version that the app does not have is answered like any other error. *)
Lemma version_handler_not_found a group version rpath scope resp namespace req σ :
  (∀ r, app_CallCustomRoute a resp r = returns (Some ErrCustomRouteNotFound)) →
  version_handler encode_body (Some a) group version rpath scope resp namespace req σ =
    answer_500 encode_body resp ErrCustomRouteNotFound σ.
Proof. intros H. unfold version_handler. cbn [installed_app]. by rewrite H. Qed.
End Answers.

(** Whatever the name of an operation, the one it is registered with begins with a verb of
    Kubernetes, as the server requires; names that begin with one are kept. *)
Theorem operation_names operationID method :
  ToUpper method ∈ ["GET"; "POST"; "PUT"; "PATCH"; "DELETE"; "HEAD"; "OPTIONS"; "CONNECT"] →
  (∃ verb, verb ∈ allowedK8sVerbs ∧ String.prefix verb (prefixRouteIDWithK8sVerbIfNotPresent operationID method) = true) ∧
  (∀ verb, verb ∈ allowedK8sVerbs → has_verb operationID verb = true →
     prefixRouteIDWithK8sVerbIfNotPresent operationID method = operationID).
Proof.
  intros Hm. unfold prefixRouteIDWithK8sVerbIfNotPresent.
  destruct (existsb (has_verb operationID) allowedK8sVerbs) eqn:E.
  - split; [|done]. apply existsb_exists in E as (verb & Hin & Hv). exists verb. rewrite list_elem_of_In.
    split; [done|]. unfold has_verb in Hv. by apply andb_prop in Hv as [_ ?].
  - split.
    + exists (httpMethodToK8sVerb (ToUpper method)). split; [|apply prefix_app].
      revert Hm. rewrite !elem_of_cons, elem_of_nil.
      intros [->|[->|[->|[->|[->|[->|[->|[->|[]]]]]]]]]; apply (bool_decide_unpack _); by vm_compute.
    + intros verb Hin Hv. exfalso. apply not_true_iff_false in E. apply E, existsb_exists.
      exists verb. by rewrite <- list_elem_of_In.
Qed.

Lemma operation_names_witness :
  prefixRouteIDWithK8sVerbIfNotPresent "Foo" "post" = "createFoo" ∧
  ∃ verb, verb ∈ allowedK8sVerbs ∧ String.prefix verb (prefixRouteIDWithK8sVerbIfNotPresent "Foo" "post") = true.
Proof.
  split; [reflexivity|]. apply (operation_names "Foo" "post"). apply elem_of_cons. right. apply elem_of_cons. left. reflexivity.
Defined.

(** A verb is looked for in the letters, not in the words, of a name. *)
Lemma operation_name_logins : prefixRouteIDWithK8sVerbIfNotPresent "logins" "POST" = "logins".
Proof. reflexivity. Qed.

(** Every operation of a path of a version is registered once, with its method and the
    path under the namespace when the route is namespaced. *)
Theorem registerResourceRoute_operations {S} returns_type body_type version rpath (props : PathProps S) scope :
  wr_Method <$> registerResourceRoute returns_type body_type version rpath props scope = (operations props).*1 ∧
  ∀ r, r ∈ registerResourceRoute returns_type body_type version rpath props scope → wr_rpath r = rpath ∧ wr_scope r = scope ∧
    wr_Path r = (if String.eqb scope NamespacedScope
                 then path_Join "namespaces/{namespace}" rpath else rpath).
Proof.
  unfold registerResourceRoute. split.
  - induction (operations props) as [|[m op] l IH]; [done|]. csimpl. by rewrite IH.
  - intros r ([m op] & -> & _)%list_elem_of_fmap. split_and!; done.
Qed.

(** ** From a request for the path of an object to the handler of a simple app *)
Section Served.
Context {W Clients KubeConfig : Type} `{WW : !World W, MM : !Memory W, AE : !ApiErrors, KN : !KindNames, KL : !KindNamesLaws}.
Context `{HW : !HTTPWriter W}.
Context (marshal_error : GoError → string + GoError) (encode_body : Body → string) (gv_string : string → string → string).

(** The connector that [InstallAPIs] makes for a route of a kind, and the request of the
    route's path below an object. *)
Definition route_connector (a : option (App W)) (mk : AppManagedKind W) (methods : gmap string ResponseObject)
    (route : string) : SubresourceConnector W :=
  let k := gvk_of (amk_Kind mk) in
  mkSubresourceConnector
    (mkCustomRoute route (subresource_handler encode_body a (g_Group k) (g_Version k) (g_Kind k) (plural_of mk) route))
    (amk_Kind mk) methods.

Definition route_request (mk : AppManagedKind W) (ns name route method url body : string)
    (header : gmap string (list string)) : HTTPRequest :=
  let k := gvk_of (amk_Kind mk) in
  mkHTTPRequest (object_path (g_Group k) (g_Version k) (String.eqb (scope_of mk) ClusterScope) ns (plural_of mk) name route)
    url method header body.

(** What the connector does with the outcome of the app's call. *)
Definition answer (mk : AppManagedKind W) (w : ResponseWriter) (name route : string) (err : option GoError) : MP W unit :=
  let k := gvk_of (amk_Kind mk) in
  match err with
  | None => returns tt
  | Some e =>
      if ErrorsIs e ErrCustomRouteNotFound then
        let! err := (let! _ := WriteHeader w 404 in
                     Encode encode_body w (not_found_body (g_Group k) (g_Version k) (g_Kind k) (plural_of mk) name route)) in
        match err with None => returns tt | Some err => serve_error marshal_error w err end
      else serve_error marshal_error w e
  end.

Lemma and_returns_assoc {A B C} (m : MP W A) (k : A → MP W B) (l : B → MP W C) σ :
  and_returns (and_returns m k) l σ = and_returns m (λ x, and_returns (k x) l) σ.
Proof. unfold and_returns, bind. destruct (m σ) as [[x|] σ']; done. Qed.

Lemma ServeHTTP_answer (a : App W) mk methods route ns name method url body header w :
  (∀ g v, gv_string g v = g +:+ String "/" v) → is_Some (k_Schema (amk_Kind mk)) →
  plain_group (g_Group (gvk_of (amk_Kind mk))) →
  free_of "/" ns = true → free_of "/" (plural_of mk) = true → free_of "/" name = true →
  let k := gvk_of (amk_Kind mk) in
  let r := route_request mk ns name route method url body header in
  let req := mkCustomRouteRequest (mkFullIdentifier ns name (g_Group k) (g_Version k) (g_Kind k) "")
               route url method header body in
  ∃ h, Connect gv_string (route_connector (Some a) mk methods route)
         (Some (mkRequestInfo name ns (g_Group k) (g_Version k))) = inl h ∧
    ∀ σ, ServeHTTP marshal_error h w r σ =
      and_returns (app_CallCustomRoute a w req) (answer mk w name route) σ.
Proof.
  intros Hgv [s Hs] Hg Hns Hp Hn k r req. eexists. split; [reflexivity|]. intros σ.
  unfold ServeHTTP. cbn [hwr_urlToPath hwr_handler hwr_id rt_Handler sc_Route sc_Kind route_connector].
  rewrite Hgv. fold k. assert (Hsc : scope_of mk = Scope_ s) by (unfold scope_of; by rewrite Hs).
  rewrite Hs. unfold r, route_request. fold k. cbn [hr_Path]. rewrite Hsc, urlToPath_object by done.
  cbn [hr_URL hr_Method hr_Header hr_Body]. unfold subresource_handler at 1. cbn [installed_app].
  change (mkCustomRouteRequest _ route url method header body) with req.
  rewrite and_returns_assoc. unfold and_returns at 1 4, bind.
  destruct (app_CallCustomRoute a w req σ) as [[[e|]|] σ']; [|done..]. unfold answer.
  destruct (ErrorsIs e ErrCustomRouteNotFound); [|done]. cbn [crr_ResourceIdentifier fid_Name req].
  done.
Qed.

(** C7: A request for the path of a custom route below an object, of a kind that a simple app
    manages, calls the handler that the app was configured with for this route, with the
    names of the object, and answers its outcome; when the app has no handler for it, the
    request is answered with 404. *)
Theorem object_route_served (config : AppConfig W Clients KubeConfig)
    supplier clients ForKind new_id controller s a s' checks as_runnable
    mk methods route ns name method url body header w :
  NewApp config supplier clients ForKind new_id controller s = (inl a, s') → proper_config config →
  (∀ g v, gv_string g v = g +:+ String "/" v) → mk ∈ ac_ManagedKinds config →
  is_Some (k_Schema (amk_Kind mk)) → plain_group (g_Group (gvk_of (amk_Kind mk))) → key_part method →
  free_of "/" ns = true → free_of "/" (plural_of mk) = true → free_of "/" name = true →
  let k := gvk_of (amk_Kind mk) in
  let app := as_App checks as_runnable a in
  let r := route_request mk ns name route method url body header in
  let req := mkCustomRouteRequest (mkFullIdentifier ns name (g_Group k) (g_Version k) (g_Kind k) "")
               route url method header body in
  ∃ h, Connect gv_string (route_connector (Some app) mk methods route)
         (Some (mkRequestInfo name ns (g_Group k) (g_Version k))) = inl h ∧
    (∀ rt f σ, (rt, Some f) ∈ amk_CustomRoutes mk → same_route req (cr_Method rt) (cr_Path rt) →
       ServeHTTP marshal_error h w r σ = and_returns (f w req) (answer mk w name route) σ) ∧
    ((∀ f, ¬ route_for config req f) → ∀ σ,
       ServeHTTP marshal_error h w r σ = answer mk w name route (Some ErrCustomRouteNotFound) σ).
Proof using KL.
  intros Happ Hp Hgv Hmk Hsch Hg Hm Hns Hpl Hn k app r req. apply NewApp_tables in Happ as Ht.
  assert (Hreq : proper_request req).
  { destruct (proper_names config Hp mk Hmk) as (? & ? & ?). split; [done|]. split; [done|]. split; [done | by right]. }
  destruct (ServeHTTP_answer app mk methods route ns name method url body header w) as (h & Hc & Hs); [done..|].
  exists h. split; [exact Hc|]. split.
  - intros rt f σ Hin Hsame. rewrite Hs. unfold and_returns, bind.
    assert (Hr : route_for config req (Some f)).
    { eapply route_of_kind; [exact Hmk | exact Hin | | exact Hsame]. split; [done|]. split; [done|].
      change (fid_Kind (crr_ResourceIdentifier req)) with (g_Kind k).
      destruct (proper_names config Hp mk Hmk) as (_ & _ & Hk & _). by rewrite (proj2 (String.eqb_neq (g_Kind k) "") Hk). }
    change (app_CallCustomRoute app w (mkCustomRouteRequest _ route url method header body))
      with (CallCustomRoute a w req).
    by rewrite (CallCustomRoute_found config a Ht Hp req f Hreq Hr w).
  - intros Hno σ. rewrite Hs. unfold and_returns, bind. 
    change (app_CallCustomRoute app w (mkCustomRouteRequest _ route url method header body))
      with (CallCustomRoute a w req).
    by rewrite (CallCustomRoute_not_found config a Ht Hp req Hreq Hno w).
Qed.
End Served.

(** An app is initialized once: a second attempt fails and does nothing, one after a failure
    is a new one. *)
Lemma InitializeApp_once {W PathProps RouteSchema G KubeConfig Specific}
    (NewApp : Config (PathProps:=PathProps) (RouteSchema:=RouteSchema) (G:=G) (KubeConfig:=KubeConfig) (Specific:=Specific)
              → M W (App W + GoError)) specific md cfg cfg2 (w w1 : W) app err :
  InitializeApp NewApp specific md cfg None w = ((app, err), w1) →
  (err = None ∧ (∃ a, app = Some a ∧ installed_app app = inl a) ∧
   InitializeApp NewApp specific md cfg2 app w1 = ((app, Some ErrAppAlreadyInitialized), w1)) ∨
  (is_Some err ∧ app = None).
Proof.
  unfold InitializeApp, bind, ret. destruct (NewApp _ w) as [[a|e] w2]; intros [= <- <- <-].
  - left. split; [done|]. split; [by exists a | done].
  - right. split; [by eexists | done].
Qed.

(** ** Instances for the witnesses *)
#[export] Instance TestHTTPWriter : HTTPWriter TestWorld := {
  put_header w code := note ("header " +:+ pretty code);
  Write w s σ := (None, note ("body " +:+ s) σ);
}.

Definition test_marshal_error (e : GoError) : string + GoError := inl "{}".
Definition test_encode_body (b : Body) : string := "status".
Definition slash_gv (g v : string) : string := g +:+ String "/" v.

Lemma serve_error_answers_witness :
  serve_error test_marshal_error 0 (ErrorString "boom") test_world =
    (Returned tt, note "body {}" (note "header 500" test_world)) ∧
  serve_error test_marshal_error 0 (StatusError (mkStatus 0 "" "no code")) test_world = (Panics, test_world).
Proof.
  split; [exact (serve_error_answers test_marshal_error 0 (ErrorString "boom") "{}" test_world eq_refl)|].
  exact (serve_error_answers test_marshal_error 0 (StatusError (mkStatus 0 "" "no code")) "{}" test_world eq_refl).
Defined.

Lemma object_route_served_witness : ∃ h,
  Connect slash_gv (route_connector test_encode_body (Some (as_App [] (λ _, test_runnable) test_app)) test_managed ∅ "bar")
    (Some (mkRequestInfo "a" "ns" "g" "v1")) = inl h ∧
  hr_Path (route_request test_managed "ns" "a" "bar" "GET" "" "" ∅) = "/apis/g/v1/namespaces/ns/foos/a/bar" ∧
  ServeHTTP test_marshal_error h 0 (route_request test_managed "ns" "a" "bar" "GET" "" "" ∅) test_world =
    (Returned tt, note "hello" test_world).
Proof.
  destruct (object_route_served test_marshal_error test_encode_body slash_gv test_config no_supplier tt no_patchers
    (λ _, 0%nat) test_runnable
    (InformerController.NewInformerController 0 (InformerController.DefaultInformerControllerConfig 0), test_world)
    test_app test_new_app.2 [] (λ _, test_runnable) test_managed ∅ "bar" "ns" "a" "GET" "" "" ∅ 0)
    as (h & Hc & Hs & _).
  - exact test_new_app_ok.
  - apply test_config_proper.
  - reflexivity.
  - apply elem_of_cons. left. reflexivity.
  - by eexists.
  - by repeat split.
  - reflexivity.
  - reflexivity.
  - reflexivity.
  - reflexivity.
  - exists h. split; [exact Hc|]. split; [reflexivity|].
    rewrite (Hs (mkAppCustomRoute "get" "/bar") hello test_world).
    + reflexivity.
    + apply list_elem_of_singleton. reflexivity.
    + split; reflexivity.
Defined.
