(* ===== verification/ApiInstaller.v ===== *)
(** * Installing an app on an API server ([k8s/apiserver/installer.go])

    [defaultInstaller]: the kinds of the manifest resolved to Go types, their registration in
    a scheme with the conversions and the order of the versions, the storage of every kind,
    its subresources and its custom routes, and the routes of the versions on the web
    services of the server.  The scheme, the server and the resolver of Go types are
    arguments; a scheme is the sequence of the calls that are made on it. *)
From S2P Require Import Prelude GoValues Resource ResourceWatcher Schema Client Concrete VersionSchema Manifest Admission Webhooks PluginRouter Runners App SimpleApp ObjectMeta Objects TypedSpecStatusObject ApiStorage ApiRoutes.

#[local] Open Scope string_scope.
#[local] Open Scope list_scope.

(** A loop that stops at the first error. *)
Fixpoint each {W A} (f : A → M W (option GoError)) (l : list A) : M W (option GoError) :=
  match l with [] => ret None | x :: l => f x ;;? each f l end.

(** ** The kinds *)
Section Installer.
Context {O V S RouteSchema G : Type} `{RO : !ResourceObject O V, RG : !RangeOrder}.

Abbreviation Data := (ManifestData (PathProps S) RouteSchema G).
Abbreviation VersionKind := (ManifestVersionKind (PathProps S) G).

(** [KindAndManifestKind] *)
Record KindAndManifestKind := mkKindAndManifestKind { km_Kind : ApiKind O; km_ManifestKind : VersionKind }.

(** [GoTypeResolver]: the kind of a name and version, and the Go types of routes. *)
Record GoTypeResolver := mkGoTypeResolver {
  KindToGoType : string → string → option (ApiKind O);
  CustomRouteReturnGoType : GoTypes;
  CustomRouteQueryGoType : GoTypes;
  CustomRouteRequestBodyGoType : GoTypes;
}.

Context (resolver : GoTypeResolver) (md : Data).

(** [getKindsByGroupVersion]; every group version has the group of the manifest. *)
Definition add_gv_kind (acc : gmap string (list KindAndManifestKind) + GoError) (vk : string * VersionKind)
  : gmap string (list KindAndManifestKind) + GoError :=
  match acc with
  | inr err => inr err
  | inl out =>
      match KindToGoType resolver (mvk_Kind vk.2) vk.1 with
      | None => inr (ErrorString ("failed to resolve kind " +:+ mvk_Kind vk.2))
      | Some kind => inl (<[vk.1 := default [] (out !! vk.1) ++ [mkKindAndManifestKind kind vk.2]]> out)
      end
  end.

Definition version_kinds : list (string * VersionKind) :=
  elems (md_Versions md) ≫= λ v, (mv_Name v,.) <$> elems (mv_Kinds v).

Definition getKindsByGroupVersion : gmap string (list KindAndManifestKind) + GoError :=
  foldl add_gv_kind (inl ∅) version_kinds.

(** [GroupVersions] *)
Definition GroupVersions : list (string * string) := (λ v, (md_Group md, mv_Name v)) <$> elems (md_Versions md).

(** ** [AddToScheme] *)

(** The calls on a [runtime.Scheme]: known types of a group, version and kind, the types of a
    group version's own kinds and of a route's query, labels of fields, conversions. *)
Inductive SchemeCall :=
| AddKnownTypeWithName (gvk : string * string * string)
| AddToGroupVersion (gv : string * string)
| AddKnownTypes (gv : string * string) (ty : string)
| AddFieldLabelConversionFunc (gvk : string * string * string)
| AddUnversionedTypes (gv : string * string)
| AddGeneratedConversionFunc
| AddConversionFunc (src dst : string * string * string)
| SetVersionPriority (versions : list (string * string)).

(** The error a call returns, if any. *)
Context (scheme_error : SchemeCall → option GoError).

Abbreviation Scheme := (list SchemeCall).
Definition on_scheme (c : SchemeCall) : M Scheme (option GoError) := λ s, (scheme_error c, s ++ [c]).
Definition known (gvk : string * string * string) : M Scheme (option GoError) := λ s,
  (None, s ++ [AddKnownTypeWithName gvk]).

Definition gvk_of_kind (k : ApiKind O) : string * string * string := (ak_Group k, ak_Version k, ak_Kind k).
Definition list_of (gvk : string * string * string) : string * string * string :=
  let '(g, v, k) := gvk in (g, v, k +:+ "List").

(** The types of the queries of the routes of a kind that can be got. *)
Definition query_types (v : string) (k : KindAndManifestKind) : M Scheme (option GoError) :=
  each (λ '(cpath, props),
          match po_Get props with
          | None => ret None
          | Some _ =>
              match CustomRouteQueryGoType resolver (ak_Kind (km_Kind k)) v cpath "GET" with
              | Some t => λ s, (None, s ++ [AddKnownTypes (md_Group md, v) t])
              | None => ret None
              end
          end) (range_map (items (mvk_Routes (km_ManifestKind k)))).

(** A kind of a version. *)
Definition add_kind (v : string) (k : KindAndManifestKind) : M Scheme (option GoError) :=
  known (gvk_of_kind (km_Kind k)) ;;?
  (known (list_of (md_Group md, v, ak_Kind (km_Kind k))) ;;?
   ((λ s, (None, s ++ [AddToGroupVersion (ak_Group (km_Kind k), ak_Version (km_Kind k))])) ;;?
    (query_types v k ;;?
     on_scheme (AddFieldLabelConversionFunc (gvk_of_kind (km_Kind k)))))).

Definition add_version (vk : string * list KindAndManifestKind) : M Scheme (option GoError) :=
  each (add_kind vk.1) vk.2 ;;?
  ((λ s, (None, s ++ [AddUnversionedTypes (md_Group md, vk.1)])) ;;?
   (let* err := on_scheme AddGeneratedConversionFunc in
    ret ((λ e, WrapError "could not add conversion func for ResourceCallOptions: " e) <$> err))).

(** The kind that is used internally for a name: the first that is met, or the one of the
    preferred version. *)
Definition add_internal (acc : gmap string (ApiKind O)) (e : string * ApiKind O) : gmap string (ApiKind O) :=
  let '(v, k) := e in
  if negb (bool_decide (is_Some (acc !! ak_Kind k))) || String.eqb (md_PreferredVersion md) v
  then <[ak_Kind k := k]> acc else acc.

Definition in_order (kinds : gmap string (list KindAndManifestKind)) : list (string * ApiKind O) :=
  range_map kinds ≫= λ '(v, ks), (λ k, (v, km_Kind k)) <$> ks.

Definition internal_kinds (kinds : gmap string (list KindAndManifestKind)) : gmap string (ApiKind O) :=
  foldl add_internal ∅ (in_order kinds).

(** [runtime.APIVersionInternal] *)
Definition internal_version : string := "__internal".

Definition conversion_error (kind : string) (err : option GoError) : option GoError :=
  (λ e, WrapError ("could not add conversion func for kind " +:+ kind +:+ ": ") e) <$> err.

Definition add_conversions (kinds : gmap string (list KindAndManifestKind)) (internal : ApiKind O)
  : M Scheme (option GoError) :=
  let igvk := (md_Group md, internal_version, ak_Kind internal) in
  known igvk ;;?
  (known (list_of igvk) ;;?
   each (λ kind : ApiKind O,
           if String.eqb (ak_Group kind) (ak_Group internal) && String.eqb (ak_Kind kind) (ak_Kind internal) then
             (let* err := on_scheme (AddConversionFunc (gvk_of_kind kind) (gvk_of_kind internal)) in
              ret (conversion_error (ak_Kind internal) err)) ;;?
             (let* err := on_scheme (AddConversionFunc (gvk_of_kind internal) (gvk_of_kind kind)) in
              ret (conversion_error (ak_Kind internal) err))
           else ret None) (in_order kinds).*2).

(** The versions without kinds get a dummy. *)
Definition versions_without_kinds (kinds : gmap string (list KindAndManifestKind)) : list string :=
  List.filter (λ v, negb (bool_decide (is_Some (kinds !! v)))) (mv_Name <$> elems (md_Versions md)).

(** [version.CompareKubeAwareVersionStrings] of [k8s.io/apimachinery]. *)
Context (compare_versions : string → string → Z).

(** The order of the versions: the preferred one first, then the greatest. *)
Definition version_before (a b : string) : Prop :=
  if String.eqb a (md_PreferredVersion md) then True
  else if String.eqb b (md_PreferredVersion md) then False
  else (0 <= compare_versions a b)%Z.
#[export] Instance version_before_dec a b : Decision (version_before a b).
Proof. unfold version_before. repeat case_match; apply _. Defined.

Definition priority (kinds : gmap string (list KindAndManifestKind)) : list string :=
  merge_sort version_before ((range_map kinds).*1 ++ versions_without_kinds kinds).

Definition set_priority (versions : list string) : M Scheme (option GoError) :=
  match versions with
  | [] => ret None
  | _ =>
      let* err := on_scheme (SetVersionPriority ((md_Group md,.) <$> versions)) in
      ret ((λ e, WrapError "failed to set version priority: " e) <$> err)
  end.

Definition AddToScheme : M Scheme (option GoError) :=
  match getKindsByGroupVersion with
  | inr err => ret (Some (WrapError "failed to get kinds by group version: " err))
  | inl kinds =>
      each add_version (range_map kinds) ;;?
      (each (λ v, known (md_Group md, v, "none")) (versions_without_kinds kinds) ;;?
       (each (add_conversions kinds) (range_map (internal_kinds kinds)).*2 ;;?
        set_priority (priority kinds)))
  end.
End Installer.

Arguments KindAndManifestKind : clear implicits.
Arguments GoTypeResolver : clear implicits.

(** ** The installer ([NewDefaultAppInstaller], [ManifestData]) *)
Section Config.
Context {W PathProps RouteSchema G KubeConfig Specific : Type}.
Abbreviation ProviderConfig := (Config (PathProps:=PathProps) (RouteSchema:=RouteSchema) (G:=G) (KubeConfig:=KubeConfig) (Specific:=option Specific)).

(** The config of the installer: what is missing is taken from the provider. *)
Definition NewDefaultAppInstaller (manifest : Manifest (PathProps:=PathProps) (RouteSchema:=RouteSchema) (G:=G)) (specific : option Specific)
    (config : ProviderConfig) : ProviderConfig :=
  mkProviderConfig (cfg_KubeConfig config)
    (if IsEmpty (cfg_ManifestData config) then default (cfg_ManifestData config) (man_Data manifest)
     else cfg_ManifestData config)
    (match cfg_SpecificConfig config with None => specific | Some c => Some c end).
End Config.

(** ** Web services and servers *)

(** [restful.WebService]: its root path and routes. *)
Record WebService := mkWebService { ws_RootPath : string; ws_Routes : list WebRoute }.

(** [genericapiserver.APIGroupInfo]; [St] is the type of storages. *)
Record APIGroupInfo (St : Type) := mkAPIGroupInfo {
  agi_PrioritizedVersions : list (string * string);
  agi_VersionedResourcesStorageMap : gmap string (gmap string St);
  agi_Scheme : list SchemeCall;
}.
Arguments mkAPIGroupInfo {St}.
Arguments agi_PrioritizedVersions {St}.
Arguments agi_VersionedResourcesStorageMap {St}.
Arguments agi_Scheme {St}.

(** [GenericAPIServer]: installing a group, the pointers to the web services (or nil), and
    what is done to a web service through its pointer. *)
Class GenericAPIServer (Info Srv : Type) := {
  InstallAPIGroup : Info → M Srv (option GoError);
  RegisteredWebServices : Srv → option (list nat);
  web_service : nat → Srv → WebService;
  add_route : nat → WebRoute → Srv → Srv;
}.

(** [ws.Route] adds a route to the web service and changes nothing else of the server. *)
Class GenericAPIServerLaws (Info Srv : Type) `{GS : !GenericAPIServer Info Srv} := {
  add_route_registered p r σ : RegisteredWebServices (add_route p r σ) = RegisteredWebServices σ;
  add_route_same l p r σ : RegisteredWebServices σ = Some l → p ∈ l →
    web_service p (add_route p r σ) = mkWebService (ws_RootPath (web_service p σ)) (ws_Routes (web_service p σ) ++ [r]);
  add_route_other p q r σ : p ≠ q → web_service q (add_route p r σ) = web_service q σ;
}.

(** *** [KubernetesGenericAPIServer]

    The web services of the container of the handler; the handler or its container may be
    nil. *)
Record KubernetesServer := mkKubernetesServer { ks_Handler : option (option (list WebService)) }.

Definition container (s : KubernetesServer) : option (list WebService) := mjoin (ks_Handler s).

Definition api_path (group version : string) : string := "/apis/" +:+ group +:+ "/" +:+ version.

(** A version without resources gets a web service, unless there is one.  The map is looked
    at by the group. *)
Definition install_gv {St} (info : APIGroupInfo St) (gv : string * string) : M KubernetesServer (option GoError) := λ s,
  if match agi_VersionedResourcesStorageMap info !! gv.1 with Some m => negb (bool_decide (m = ∅)) | None => false end
  then (None, s)
  else
    match container s with
    | None => (Some (ErrorString "cannot install custom route: underlying Handler.GoRestfulContainer is nil"), s)
    | Some wss =>
        if existsb (λ ws, String.eqb (ws_RootPath ws) (api_path gv.1 gv.2)) wss then (None, s)
        else (None, mkKubernetesServer (Some (Some (wss ++ [mkWebService (api_path gv.1 gv.2) []]))))
    end.

(** [install] is [InstallAPIGroup] of the wrapped server. *)
Definition Kubernetes_InstallAPIGroup {St} (install : APIGroupInfo St → M KubernetesServer (option GoError))
    (info : APIGroupInfo St) : M KubernetesServer (option GoError) :=
  install info ;;? each (install_gv info) (agi_PrioritizedVersions info).

Definition Kubernetes_RegisteredWebServices (s : KubernetesServer) : option (list nat) :=
  (λ wss, seq 0 (length wss)) <$> container s.

Definition ws_add (r : WebRoute) (ws : WebService) : WebService := mkWebService (ws_RootPath ws) (ws_Routes ws ++ [r]).

Definition KubernetesGenericAPIServer {St} (install : APIGroupInfo St → M KubernetesServer (option GoError))
  : GenericAPIServer (APIGroupInfo St) KubernetesServer := {|
  InstallAPIGroup := Kubernetes_InstallAPIGroup install;
  RegisteredWebServices := Kubernetes_RegisteredWebServices;
  web_service p s := default (mkWebService "" []) (default [] (container s) !! p);
  add_route p r s := mkKubernetesServer (fmap (M:=option) (fmap (M:=option) (alter (ws_add r) p : list WebService → list WebService)) (ks_Handler s));
|}.

(** ** [InstallAPIs] *)

(** A step of a loop that may return an error or panic. *)
Fixpoint folds {A B} (f : A → B → called (A + GoError)) (a : A) (l : list B) : called (A + GoError) :=
  match l with
  | [] => Returned (inl a)
  | x :: l => match f a x with Returned (inl a') => folds f a' l | r => r end
  end.

Section InstallAPIs.
Context {O V W S RouteSchema G Srv : Type} `{RO : !ResourceObject O V, RG : !RangeOrder, WW : !World W, HW : !HTTPWriter W}.
Context (resolver : GoTypeResolver O) (md : ManifestData (PathProps S) RouteSchema G).
Context (gv_string : string → string → string) (encode_body : Body → string).

Abbreviation KMK := (KindAndManifestKind O S G).

(** The connector of a route of a kind; the app is the one that is set when it is called. *)
Record ApiConnector := mkApiConnector {
  ac_Methods : gmap string ResponseObject;
  ac_Path : string;
  ac_Handler : option (App W) → AppCustomRouteHandler W;
  ac_Kind : ApiKind O;
}.

(** [rest.Storage], the kinds of them. *)
Inductive Storage :=
| KindStore (s : GenericStore O)
| StatusStore (s : GenericStore O)
| SubresourceStore (s : GenericStore O)
| ConnectorStore (c : ApiConnector).

Abbreviation Storages := (gmap string Storage).

(** [ResourceEnabled] of the [ResourceConfig], if one is set. *)
Context (resourceConfig : option (string * string * string → bool)).
Definition ResourceEnabled (gvr : string * string * string) : bool :=
  match resourceConfig with Some enabled => enabled gvr | None => true end.

(** The first segment of the path of a route is its resource. *)
Definition route_resource (routePath : string) : string := default "" (head (Split (Trim routePath "/") "/")).
Definition isCustomRouteEnabled (gv : string * string) (routePath : string) : bool :=
  ResourceEnabled (gv, route_resource routePath).

(** The completion of a store by its options. *)
Context (complete : GenericStore O → option GoError).

Definition sub_path (plural name : string) : string := plural +:+ "/" +:+ name.

Definition add_subresource (kind : ApiKind O) (s : GenericStore O) (storage : Storages) (sr : string)
  : called (Storages + GoError) :=
  if String.eqb sr "status" then
    Returned (inl (<[sub_path (ak_Plural kind) "status" :=
                     StatusStore (newRegistryStatusStoreForKind gv_string kind s)]> storage))
  else
    match newSubresourceREST gv_string s kind sr with
    | Panics => Panics
    | Returned rest => Returned (inl (<[sub_path (ak_Plural kind) sr := SubresourceStore rest]> storage))
    end.

(** [route[1:]] when the route begins with a slash. *)
Definition trim_slash (route : string) : string :=
  match route with String c rest => if Ascii.eqb c "/" then rest else route | EmptyString => "" end.

Definition connector (v : string) (k : KMK) (route : string) (props : PathProps S) : ApiConnector :=
  let kind := km_Kind k in
  mkApiConnector
    (spec3PropsToConnectorMethods props (ak_Kind kind) v route (CustomRouteReturnGoType resolver)) route
    (λ app, subresource_handler encode_body app (md_Group md) v (mvk_Kind (km_ManifestKind k))
              (mvk_Plural (km_ManifestKind k)) route) kind.

Definition add_route_storage (v : string) (k : KMK) (storage : Storages) (r : string * PathProps S) : Storages :=
  if String.eqb r.1 "" then storage
  else
    let route := trim_slash r.1 in
    <[sub_path (ak_Plural (km_Kind k)) route := ConnectorStore (connector v k route r.2)]> storage.

(** The storages of a kind. *)
Definition kind_enabled (v : string) (k : KMK) : bool :=
  ResourceEnabled (md_Group md, v, ak_Plural (km_Kind k)).

Definition kind_storages (v : string) (k : KMK) (storage : Storages) : called (Storages + GoError) :=
  let kind := km_Kind k in
  match newGenericStoreForKind kind complete with
  | inr err => Returned (inr (WrapError ("failed to create store for kind " +:+ ak_Kind kind +:+ ": ") err))
  | inl s =>
      match ro_GetSubresources (ak_ZeroValue kind) with
      | Panics => Panics
      | Returned subs =>
          match folds (add_subresource kind s) (<[ak_Plural kind := KindStore s]> storage) (range_map (items subs)).*1 with
          | Returned (inl storage) =>
              Returned (inl (foldl (add_route_storage v k) storage (range_map (items (mvk_Routes (km_ManifestKind k))))))
          | r => r
          end
      end
  end.

(** The storage of a version, and the map of the group, which has it after its first enabled
    kind. *)
Abbreviation VersionedStorages := (gmap string Storages).

Definition install_kind (v : string) (st : Storages * VersionedStorages) (k : KMK)
  : called ((Storages * VersionedStorages) + GoError) :=
  if negb (kind_enabled v k) then Returned (inl st)
  else
    match kind_storages v k st.1 with
    | Panics => Panics
    | Returned (inr err) => Returned (inr err)
    | Returned (inl storage) => Returned (inl (storage, <[v := storage]> st.2))
    end.

Definition install_version (vs : VersionedStorages) (vk : string * list KMK) : called (VersionedStorages + GoError) :=
  match folds (install_kind vk.1) (∅, vs) vk.2 with
  | Panics => Panics
  | Returned (inr err) => Returned (inr err)
  | Returned (inl st) => Returned (inl st.2)
  end.

Definition install_storages (kinds : gmap string (list KMK)) : called (VersionedStorages + GoError) :=
  folds install_version ∅ (range_map kinds).

(** [hasEnabledRoutes] of a version, and the versions without kinds that are installed for
    their routes. *)
Abbreviation Version := (ManifestVersion (PathProps S) RouteSchema G).

Definition version_routes (v : Version) : list (SchemaScope * (string * PathProps S)) :=
  ((NamespacedScope,.) <$> range_map (items (mvr_Namespaced (mv_Routes v)))) ++
  ((ClusterScope,.) <$> range_map (items (mvr_Cluster (mv_Routes v)))).

Definition has_enabled_routes (v : Version) : bool :=
  existsb (λ r, isCustomRouteEnabled (md_Group md, mv_Name v) r.2.1) (version_routes v).

(** Versions of the same name share an entry of the map, which is read while it is built. *)
Definition add_enabled (kinds : gmap string (list KMK)) (st : gset string * list (string * string)) (v : Version)
  : gset string * list (string * string) :=
  let enabled := if has_enabled_routes v then {[mv_Name v]} ∪ st.1 else st.1 in
  let gv := (md_Group md, mv_Name v) in
  (enabled,
   if bool_decide (is_Some (kinds !! mv_Name v)) || bool_decide (gv ∈ st.2) || negb (bool_decide (mv_Name v ∈ enabled))
   then st.2 else st.2 ++ [gv]).

Definition enabled_versions (kinds : gmap string (list KMK)) (prioritized : list (string * string))
  : gset string * list (string * string) := foldl (add_enabled kinds) (∅, prioritized) (elems (md_Versions md)).

(** *** The server *)
Context `{GS : !GenericAPIServer (APIGroupInfo Storage) Srv}.

(** [newScheme], [PrioritizedVersionsForGroup], and what [AddToScheme] needs. *)
Context (newScheme : list SchemeCall) (PrioritizedVersionsForGroup : string → list SchemeCall → list (string * string)).
Context (scheme_error : SchemeCall → option GoError) (compare_versions : string → string → Z).

(** What is registered on a web service for the routes of a version. *)
Definition web_routes (v : Version) : list WebRoute :=
  version_routes v ≫= λ '(scope, (rpath, props)),
    if isCustomRouteEnabled (md_Group md, mv_Name v) rpath
    then registerResourceRoute (CustomRouteReturnGoType resolver) (CustomRouteRequestBodyGoType resolver)
           (mv_Name v) rpath props scope
    else [].

(** The first web service with the path of the version. *)
Definition service_of (v : Version) (ptrs : list nat) (σ : Srv) : option nat :=
  List.find (λ p, String.eqb (ws_RootPath (web_service p σ)) (api_path (md_Group md) (mv_Name v))) ptrs.

Definition register_version (enabled : gset string) (ptrs : list nat) (v : Version) : M Srv (option GoError) := λ σ,
  if negb (bool_decide (mv_Name v ∈ enabled)) then (None, σ)
  else
    match service_of v ptrs σ with
    | None => (Some (ErrorString ("failed to find WebService for version " +:+ mv_Name v)), σ)
    | Some p => (None, (for_each (web_routes v) (λ r, modify (add_route p r)) σ).2)
    end.

Definition has_routes (v : Version) : bool :=
  nonempty_map (mvr_Namespaced (mv_Routes v)) || nonempty_map (mvr_Cluster (mv_Routes v)).

(** The custom routes of the versions; the manifest data is the provider's, and may be nil. *)
Definition register_routes (enabled : gset string) (pmd : option (list Version)) : MP Srv (option GoError) :=
  match pmd with
  | None => panic
  | Some versions =>
      if existsb has_routes versions then
        calls (λ σ,
          match RegisteredWebServices σ with
          | None => (Some (ErrorString "could not register custom routes: server.RegisteredWebServices() is nil"), σ)
          | Some ptrs => each (register_version enabled ptrs) versions σ
          end)
      else returns None
  end.

(** The scheme of the installer: a new one is kept before it is filled, so it stays when
    filling it fails. *)
Definition installer_scheme (scheme : option (list SchemeCall)) : option GoError * list SchemeCall :=
  match scheme with
  | Some s => (None, s)
  | None =>
      let '(err, s) := AddToScheme resolver md scheme_error compare_versions newScheme in
      (WrapError "failed to add to scheme: " <$> err, s)
  end.

(** The state: the scheme of the installer, and the server. *)
Abbreviation Installing := (option (list SchemeCall) * Srv)%type.

Definition InstallAPIs (pmd : option (list Version)) : MP Installing (option GoError) := λ '(scheme, σ),
  let '(err, s) := installer_scheme scheme in
  let done r := (Returned r, (Some s, σ)) in
  match err with
  | Some err => done (Some err)
  | None =>
      match getKindsByGroupVersion resolver md with
      | inr err => done (Some (WrapError "failed to get kinds by group version: " err))
      | inl kinds =>
          match install_storages kinds with
          | Panics => (Panics, (Some s, σ))
          | Returned (inr err) => done (Some err)
          | Returned (inl storages) =>
              let '(enabled, prioritized) := enabled_versions kinds (PrioritizedVersionsForGroup (md_Group md) s) in
              let '(r, σ) :=
                (let! err := calls (InstallAPIGroup (mkAPIGroupInfo prioritized storages s)) in
                 match err with Some err => returns (Some err) | None => register_routes enabled pmd end) σ in
              (r, (Some s, σ))
          end
      end
  end.
End InstallAPIs.

(** ** Conversion of objects ([conversionHandlerFunc]) *)
Section Conversion.
Context {O W : Type} (om : O → ObjectMeta) (gvk_of : O → GVK) (as_object : O → Obj) (gvk_text : GVK → string).

(** [runtime.Encode] with the legacy codec of a version, and [runtime.DecodeInto] with the
    decoder of a version, into an object. *)
Context (encode : string * string → O → string + GoError)
        (decode_into : string * string → string → O → O * option GoError).

Definition gv_of (o : O) : string * string := (g_Group (gvk_of o), g_Version (gvk_of o)).

Definition not_resource (ty : string) : GoError := ErrorString ("object (" +:+ ty +:+ ") is not a resource.Object").
Definition the_resource (a : AnObject O) : O + GoError :=
  match a with
  | ResObject o => inl o
  | OtherObject ty => inr (not_resource ty)
  | NoObject => inr (not_resource "<nil>")
  end.

(** The second object after the call, and the error; the app's answer may be nil. *)
Definition conversionHandlerFunc (app : option (App W)) (scheme_set : bool) (src dst : GVK) (a b : AnObject O)
  : MP W (AnObject O * option GoError) :=
  match app with
  | None => returns (b, Some (ErrorString "app is not initialized"))
  | Some app =>
      if negb scheme_set then returns (b, Some (ErrorString "scheme is not initialized"))
      else
        match the_resource a, the_resource b with
        | inr err, _ => returns (b, Some err)
        | inl _, inr err => returns (b, Some err)
        | inl x, inl y =>
            match encode (gv_of x) x with
            | inr err =>
                returns (b, Some (WrapError ("failed to encode object " +:+ om_Name (om x) +:+ ": ") err))
            | inl raw =>
                let! '(res, err) :=
                  app_Convert app (mkAppConversionRequest src dst (mkRawObject raw (as_object x) "json")) in
                match err, res with
                | Some err, _ =>
                    returns (b, Some (WrapError ("failed to convert object " +:+ om_Name (om x) +:+ " from " +:+
                      gvk_text src +:+ " to " +:+ gvk_text dst +:+ ": ") err))
                | None, None => panic
                | None, Some res => let '(y, err) := decode_into (gv_of y) (ro_Raw res) y in returns (ResObject y, err)
                end
            end
        end
  end.
End Conversion.

(** ** What is served *)
Lemma folds_inv {A B} (f : A → B → called (A + GoError)) (R : list B → A → Prop) l a a' :
  R [] a → (∀ done x a a', R done a → f a x = Returned (inl a') → R (done ++ [x]) a') →
  folds f a l = Returned (inl a') → R l a'.
Proof.
  intros H0 Hf. cut (∀ l done a, R done a → folds f a l = Returned (inl a') → R (done ++ l) a');
    [intros H E; by apply (H l [] a)|].
  clear l a H0. induction l as [|x l IH]; intros done a Hd E; simpl in E.
  - injection E as <-. by rewrite app_nil_r.
  - destruct (f a x) as [[a1|]|] eqn:E1; [|done..]. rewrite (cons_middle x done l), app_assoc.
    apply (IH _ a1); [by apply (Hf _ _ a) | done].
Qed.

Section Served.
Context {O V W S RouteSchema G : Type} `{RO : !ResourceObject O V, RG : !RangeOrder, WW : !World W, HW : !HTTPWriter W}.
Context (resolver : GoTypeResolver O) (md : ManifestData (PathProps S) RouteSchema G).
Context (gv_string : string → string → string) (encode_body : Body → string).
Context (resourceConfig : option (string * string * string → bool)) (complete : GenericStore O → option GoError).

Abbreviation KMK := (KindAndManifestKind O S G).
Abbreviation kind_storages := (kind_storages (W:=W) resolver md gv_string encode_body complete).
Abbreviation install_kind := (install_kind (W:=W) resolver md gv_string encode_body resourceConfig complete).
Abbreviation install_storages := (install_storages (W:=W) resolver md gv_string encode_body resourceConfig complete).

(** The resources of a kind: its plural, and below it its subresources and its routes. *)
Definition subresources (k : KMK) : list string :=
  match ro_GetSubresources (ak_ZeroValue (km_Kind k)) with
  | Returned subs => (range_map (items subs)).*1
  | Panics => []
  end.
Definition route_names (k : KMK) : list string :=
  trim_slash <$> List.filter (λ r, negb (String.eqb r "")) (range_map (items (mvk_Routes (km_ManifestKind k)))).*1.
Definition resources (k : KMK) : list string :=
  ak_Plural (km_Kind k) :: (sub_path (ak_Plural (km_Kind k)) <$> (subresources k ++ route_names k)).

Lemma add_subresource_dom kind s l storage storage' :
  folds (add_subresource (W:=W) gv_string kind s) storage l = Returned (inl storage') →
  ∀ key, is_Some (storage' !! key) ↔ key ∈ sub_path (ak_Plural kind) <$> l ∨ is_Some (storage !! key).
Proof.
  intros E key. revert E. apply (folds_inv _ (λ l st, is_Some (st !! key) ↔ key ∈ sub_path (ak_Plural kind) <$> l ∨ is_Some (storage !! key))).
  - set_solver.
  - intros done sr st st' H E. rewrite fmap_app, elem_of_app. simpl. rewrite list_elem_of_singleton.
    unfold add_subresource in E.
    assert (∃ x, st' = <[sub_path (ak_Plural kind) sr := x]> st) as [x ->].
    { destruct (String.eqb_spec sr "status") as [->|]; [injection E as <-; by eexists|].
      destruct (newSubresourceREST _ _ _ _); [|done]. injection E as <-. by eexists. }
    rewrite lookup_insert_is_Some'. naive_solver.
Qed.

Lemma add_routes_dom v k l storage key :
  is_Some (foldl (add_route_storage (W:=W) resolver md encode_body v k) storage l !! key) ↔
  key ∈ sub_path (ak_Plural (km_Kind k)) <$> (trim_slash <$> List.filter (λ r, negb (String.eqb r "")) l.*1) ∨
  is_Some (storage !! key).
Proof.
  revert storage. induction l as [|[r p] l IH]; intros storage; simpl; [set_solver|].
  rewrite IH. unfold add_route_storage. simpl. destruct (String.eqb_spec r "") as [->|]; simpl; [done|].
  rewrite lookup_insert_is_Some', elem_of_cons. naive_solver.
Qed.

Lemma kind_storages_dom v k storage storage' :
  kind_storages v k storage = Returned (inl storage') →
  ∀ key, is_Some (storage' !! key) ↔ key ∈ resources k ∨ is_Some (storage !! key).
Proof.
  unfold ApiInstaller.kind_storages. destruct (newGenericStoreForKind _ _) as [s|]; [|done].
  destruct (ro_GetSubresources _) as [subs|] eqn:Es; [|done].
  destruct (folds _ _ _) as [[st|]|] eqn:E; [|done..]. intros [= <-] key.
  rewrite add_routes_dom, (add_subresource_dom _ _ _ _ _ E), lookup_insert_is_Some'.
  unfold resources, subresources, route_names. rewrite Es, elem_of_cons, fmap_app, elem_of_app. naive_solver.
Qed.

Lemma exists_snoc {A} (P : A → Prop) l x : (∃ k, k ∈ l ++ [x] ∧ P k) ↔ (∃ k, k ∈ l ∧ P k) ∨ P x.
Proof.
  split.
  - intros (k & [?| ->%list_elem_of_singleton]%elem_of_app & ?); [left; by exists k | by right].
  - intros [(k & ? & ?)|?]; [exists k | exists x]; set_solver.
Qed.

(** The storages of a version after some of its kinds. *)
Definition serves_kinds (v : string) (kinds : list KMK) (storage : option (gmap string (Storage (O:=O) (W:=W)))) : Prop :=
  ∀ key, (∃ st, storage = Some st ∧ is_Some (st !! key)) ↔
         ∃ k, k ∈ kinds ∧ kind_enabled md resourceConfig v k = true ∧ key ∈ resources k.

Lemma install_kinds_spec v kinds vs st : vs !! v = None →
  folds (install_kind v) (∅, vs) kinds = Returned (inl st) →
  serves_kinds v kinds (st.2 !! v) ∧ ∀ v', v' ≠ v → st.2 !! v' = vs !! v'.
Proof.
  intros Hv E. cut (serves_kinds v kinds (Some st.1) ∧ (st.2 !! v = None ∧ st.1 = ∅ ∨ st.2 !! v = Some st.1) ∧
                    ∀ v', v' ≠ v → st.2 !! v' = vs !! v').
  { intros (H1 & H2 & H3). split; [|done]. destruct H2 as [[-> H2]| ->]; [|done]. intros key. rewrite <- (H1 key), H2.
    split; [intros (? & ? & ?); done | intros (? & [= <-] & [? ?]); done]. }
  revert E. apply (folds_inv _ (λ kinds st, serves_kinds v kinds (Some st.1) ∧
     (st.2 !! v = None ∧ st.1 = ∅ ∨ st.2 !! v = Some st.1) ∧ ∀ v', v' ≠ v → st.2 !! v' = vs !! v')).
  - split; [|auto]. intros key. simpl. split; [intros (? & [= <-] & [? ?]); done | intros (? & ?%elem_of_nil & _); done].
  - intros done k [st1 vs1] [st2 vs2] (H1 & H2 & H3) E. unfold ApiInstaller.install_kind in E. simpl in *.
    destruct (kind_enabled md resourceConfig v k) eqn:Ek; simpl in E.
    + destruct (ApiInstaller.kind_storages _ _ _ _ _ _ _ _) as [[st'|]|] eqn:E1; [|done..]. injection E as <- <-.
      pose proof (kind_storages_dom _ _ _ _ E1) as Hd. split; [|split].
      * intros key. rewrite exists_snoc, <- (H1 key), Ek. split.
        -- intros (? & [= <-] & [Hr|Hs]%Hd); [by right | left; by exists st1].
        -- intros [(? & [= <-] & Hs)|[_ Hr]]; exists st'; (split; [done|]); apply Hd; auto.
      * right. by rewrite lookup_insert_eq.
      * intros v' Hne. rewrite lookup_insert_ne; auto.
    + injection E as <- <-. split; [|done]. intros key. rewrite exists_snoc, <- (H1 key), Ek. naive_solver.
Qed.

Lemma install_versions_spec l vs vs' : NoDup l.*1 → (∀ v, v ∈ l.*1 → vs !! v = None) →
  folds (install_version (W:=W) resolver md gv_string encode_body resourceConfig complete) vs l = Returned (inl vs') →
  (∀ v, v ∉ l.*1 → vs' !! v = vs !! v) ∧ ∀ v ks, (v, ks) ∈ l → serves_kinds v ks (vs' !! v).
Proof.
  revert vs. induction l as [|[v ks] l IH]; intros vs Hn Ha E; [injection E as <-; set_solver|].
  rewrite fmap_cons in Hn, Ha. apply NoDup_cons in Hn as [Hv Hn]. cbn [folds] in E.
  destruct (install_version _ _ _ _ _ _ vs (v, ks)) as [[vs1|]|] eqn:E1; [|done..]. unfold install_version in E1. simpl in E1, Hv.
  destruct (folds (install_kind v) (∅, vs) ks) as [[st|]|] eqn:E2; [|done..]. injection E1 as <-.
  apply install_kinds_spec in E2 as [H1 H2]; [|apply Ha; set_solver].
  destruct (IH st.2 Hn) as [H3 H4]; [|exact E|].
  - intros v' Hv'. rewrite H2; [apply Ha; set_solver | by intros ->].
  - rewrite fmap_cons. split.
    + intros v' [Hne Hn']%not_elem_of_cons. rewrite H3, H2; done.
    + intros v' ks' [[= -> ->]|Hin]%elem_of_cons; [by rewrite H3 | by apply H4].
Qed.

(** The storages an app is installed with are exactly the resources of the kinds that
    the resource config enables: in every version, the plural of a kind, its subresources
    and its routes; a version without enabled kinds has none. *)
Theorem installed_resources kinds storages :
  install_storages kinds = Returned (inl storages) →
  ∀ v key, (∃ st, storages !! v = Some st ∧ is_Some (st !! key)) ↔
           ∃ ks k, kinds !! v = Some ks ∧ k ∈ ks ∧
                   ResourceEnabled resourceConfig (md_Group md, v, ak_Plural (km_Kind k)) = true ∧ key ∈ resources k.
Proof.
  intros E v key.
  destruct (install_versions_spec (range_map kinds) ∅ storages) as [H1 H2]; [|done|done|].
  { rewrite range_map_fst. apply NoDup_range_keys. }
  destruct (kinds !! v) as [ks|] eqn:Ev.
  - rewrite (H2 v ks (proj2 (elem_of_range_map _ _ _) Ev) key). split.
    + intros (k & ? & ? & ?). by exists ks, k.
    + intros (? & k & [= <-] & ? & ? & ?). by exists k.
  - rewrite H1 by (rewrite range_map_fst, elem_of_range_keys, not_elem_of_dom; done). rewrite lookup_empty.
    split; [intros (? & ? & _); done | intros (? & ? & ? & _); done].
Qed.
End Served.

(** ** The routes of versions *)

(** [ws.Route] on the web services of a container. *)
Lemma Kubernetes_laws {St} (install : APIGroupInfo St → M KubernetesServer (option GoError)) :
  @GenericAPIServerLaws (APIGroupInfo St) KubernetesServer (KubernetesGenericAPIServer install).
Proof.
  split.
  - intros p r [[[wss|]|]]; [|done..]. unfold RegisteredWebServices, add_route. simpl.
    unfold Kubernetes_RegisteredWebServices, container. simpl. by rewrite length_alter.
  - intros l p r [[[wss|]|]] E Hp; [|done..]. injection E as <-. apply elem_of_seq in Hp as [_ Hp].
    unfold web_service, add_route, container. simpl. rewrite list_lookup_alter.
    simpl in Hp. destruct (lookup_lt_is_Some_2 wss p) as [ws Ews]; [lia|]. simpl. by rewrite Ews, decide_True.
  - intros p q r [[[wss|]|]] Hne; [|done..]. unfold web_service, add_route, container. simpl.
    by rewrite list_lookup_alter_ne.
Qed.

(** Without routes nothing is registered. *)
Lemma no_web_routes {O S RouteSchema G} `{RG : !RangeOrder} (resolver : GoTypeResolver O)
    (md : ManifestData (PathProps S) RouteSchema G) resourceConfig v :
  has_routes v = false → web_routes resolver md resourceConfig v = [].
Proof.
  unfold has_routes, web_routes, version_routes. intros [H1 H2]%orb_false_iff.
  apply nonempty_map_false in H1, H2. rewrite H1, H2.
  assert (range_map (∅ : gmap string (PathProps S)) = []) as ->; [|done].
  destruct (range_map ∅) as [|[k x] l] eqn:E; [done|].
  assert ((k, x) ∈ range_map (∅ : gmap string (PathProps S))) as H%elem_of_range_map by (rewrite E; set_solver). done.
Qed.
Section Routes.
Context {O V W S RouteSchema G Srv : Type} `{RG : !RangeOrder}.
Context (resolver : GoTypeResolver O) (md : ManifestData (PathProps S) RouteSchema G).
Context (resourceConfig : option (string * string * string → bool)).
Context `{GS : !GenericAPIServer (APIGroupInfo (Storage (O:=O) (W:=W))) Srv} `{GL : !GenericAPIServerLaws _ Srv}.

Abbreviation Version := (ManifestVersion (PathProps S) RouteSchema G).
Abbreviation web_routes := (web_routes resolver md resourceConfig).
Abbreviation register_version := (register_version (W:=W) resolver md resourceConfig).
Abbreviation register_routes := (register_routes (W:=W) resolver md resourceConfig).
Abbreviation service_of := (service_of (O:=O) (W:=W) md).

(** The routes that are put on a web service. *)
Definition routes_on (enabled : gset string) (ptrs : list nat) (σ : Srv) (versions : list Version) (p : nat) : list WebRoute :=
  versions ≫= λ v,
    if bool_decide (mv_Name v ∈ enabled) && bool_decide (service_of v ptrs σ = Some p) then web_routes v else [].

Definition with_routes (ws : WebService) (rs : list WebRoute) : WebService :=
  mkWebService (ws_RootPath ws) (ws_Routes ws ++ rs).

Lemma with_no_routes ws : with_routes ws [] = ws.
Proof. destruct ws. unfold with_routes. simpl. by rewrite app_nil_r. Qed.

Lemma add_routes_spec ptrs p rs σ : RegisteredWebServices σ = Some ptrs → p ∈ ptrs →
  let σ' := (for_each rs (λ r, modify (add_route p r)) σ).2 in
  RegisteredWebServices σ' = Some ptrs ∧ web_service p σ' = with_routes (web_service p σ) rs ∧
  ∀ q, q ≠ p → web_service q σ' = web_service q σ.
Proof.
  intros E Hp. revert σ E. induction rs as [|r rs IH]; intros σ E; cbv zeta; simpl; [by rewrite with_no_routes|].
  unfold bind, modify at 1. simpl. destruct (IH (add_route p r σ)) as (H1 & H2 & H3); [by rewrite add_route_registered|].
  split_and!; [exact H1| |].
  - etransitivity; [exact H2|]. rewrite (add_route_same ptrs) by done. unfold with_routes. simpl. by rewrite <- app_assoc.
  - intros q Hq. etransitivity; [by apply H3|]. by apply add_route_other.
Qed.

Lemma service_of_root v ptrs σ σ' :
  (∀ p, ws_RootPath (web_service p σ') = ws_RootPath (web_service p σ)) → service_of v ptrs σ' = service_of v ptrs σ.
Proof.
  intros H. unfold ApiInstaller.service_of. induction ptrs as [|p ptrs IH]; [done|]. simpl. by rewrite H, IH.
Qed.

Lemma routes_on_root enabled ptrs σ σ' versions p :
  (∀ p, ws_RootPath (web_service p σ') = ws_RootPath (web_service p σ)) →
  routes_on enabled ptrs σ' versions p = routes_on enabled ptrs σ versions p.
Proof.
  intros H. induction versions as [|v versions IH]; [done|]. unfold routes_on in *.
  by rewrite !bind_cons, IH, (service_of_root _ _ _ _ H).
Qed.

(** Registering the routes of versions: each puts its own on its web service; it fails only
    when there is none for an enabled version. *)
Lemma register_versions_spec enabled ptrs versions σ : RegisteredWebServices σ = Some ptrs →
  let '(err, σ') := each (register_version enabled ptrs) versions σ in
  (err = None ↔ ∀ v, v ∈ versions → mv_Name v ∈ enabled → is_Some (service_of v ptrs σ)) ∧
  (err = None → ∀ p, web_service p σ' = with_routes (web_service p σ) (routes_on enabled ptrs σ versions p)).
Proof.
  revert σ. induction versions as [|v versions IH]; intros σ E; simpl.
  { split; [by split; [set_solver|]|]. intros _ p. symmetry. apply with_no_routes. }
  unfold and_then, bind, ApiInstaller.register_version at 1. destruct (bool_decide_reflect (mv_Name v ∈ enabled)) as [Hin|Hin]; simpl.
  - fold (service_of v ptrs σ).
    destruct (service_of v ptrs σ) as [q|] eqn:Eq.
    + assert (Hq : q ∈ ptrs) by (apply List.find_some in Eq as [Hq _]; by apply list_elem_of_In).
      destruct (add_routes_spec ptrs q (web_routes v) σ E Hq) as (H1 & H2 & H3).
      set (σ1 := (for_each _ _ σ).2) in *. specialize (IH σ1 H1).
      assert (Hroot : ∀ p, ws_RootPath (web_service p σ1) = ws_RootPath (web_service p σ)).
      { intros p. destruct (decide (p = q)) as [->|Hne]; [by rewrite H2 | by rewrite H3]. }
      destruct (each _ versions σ1) as [err σ']. destruct IH as [IH1 IH2]. split.
      * rewrite IH1. split.
        -- intros H v' [->|Hv']%elem_of_cons Hn; [by rewrite Eq|]. rewrite <- (service_of_root _ _ _ _ Hroot). by apply H.
        -- intros H v' Hv' Hn. rewrite (service_of_root _ _ _ _ Hroot). apply H; set_solver.
      * intros Herr p. rewrite (IH2 Herr p), (routes_on_root _ _ _ _ _ _ Hroot). unfold routes_on.
        destruct (decide (p = q)) as [->|Hne].
        -- rewrite H2, bool_decide_eq_true_2 by done. unfold with_routes. simpl. by rewrite <- app_assoc.
        -- rewrite H3, bool_decide_eq_false_2 by congruence. done.
    + split; [|done]. split; [done|]. intros H. destruct (H v) as [x Hx]; [set_solver | done | congruence].
  - specialize (IH σ E). destruct (each _ versions σ) as [err σ']. destruct IH as [IH1 IH2]. split.
    + rewrite IH1. split; intros H v' Hv' Hn; [|apply H; set_solver].
      apply elem_of_cons in Hv' as [->|Hv']; [done | by apply H].
    + intros Herr p. rewrite (IH2 Herr p). done.
Qed.

End Routes.

Section Installed.
Context {O V W S RouteSchema G : Type} `{RO : !ResourceObject O V, RG : !RangeOrder, WW : !World W, HW : !HTTPWriter W}.
Context (resolver : GoTypeResolver O) (md : ManifestData (PathProps S) RouteSchema G).
Context (gv_string : string → string → string) (encode_body : Body → string).
Context (resourceConfig : option (string * string * string → bool)) (complete : GenericStore O → option GoError).
Context (newScheme : list SchemeCall) (PrioritizedVersionsForGroup : string → list SchemeCall → list (string * string)).
Context (scheme_error : SchemeCall → option GoError) (compare_versions : string → string → Z).

Abbreviation Version := (ManifestVersion (PathProps S) RouteSchema G).
Abbreviation Info := (APIGroupInfo (Storage (O:=O) (W:=W))).
Abbreviation InstallAPIs σ :=
  (InstallAPIs (W:=W) (Srv:=σ) resolver md gv_string encode_body resourceConfig complete newScheme
     PrioritizedVersionsForGroup scheme_error compare_versions).
Abbreviation installer_scheme := (installer_scheme resolver md newScheme scheme_error compare_versions).
Abbreviation install_storages := (install_storages (W:=W) resolver md gv_string encode_body resourceConfig complete).
Abbreviation enabled_versions := (enabled_versions (O:=O) md resourceConfig).

Section Server.
Context {Srv : Type} `{GS : !GenericAPIServer Info Srv, GL : !GenericAPIServerLaws Info Srv}.

(** [register_routes], with the web services or none when there is nothing to register. *)
Lemma register_routes_spec enabled (versions : list Version) σ :
  let ptrs := default [] (RegisteredWebServices σ) in
  let '(r, σ') := register_routes (W:=W) resolver md resourceConfig enabled (Some versions) σ in
  (r = Returned None →
     ∀ p, web_service p σ' = with_routes (web_service p σ) (routes_on resolver md resourceConfig enabled ptrs σ versions p)) ∧
  (is_Some (RegisteredWebServices σ) →
   (∀ v, v ∈ versions → mv_Name v ∈ enabled → is_Some (service_of (W:=W) (O:=O) md v ptrs σ)) → r = Returned None).
Proof.
  cbv zeta. unfold register_routes. destruct (existsb has_routes versions) eqn:Eh.
  - unfold calls, bind. destruct (RegisteredWebServices σ) as [ptrs|] eqn:Ep; simpl.
    + pose proof (register_versions_spec resolver md resourceConfig enabled ptrs versions σ Ep) as H.
      destruct (each _ versions σ) as [err σ']. destruct H as [H1 H2]. simpl. split.
      * intros [= ->]. by apply H2.
      * intros _ H. by rewrite (proj2 H1 H).
    + split; [done|]. by intros [? ?].
  - simpl. split; [|done]. intros _ p. enough (routes_on _ _ _ _ _ _ _ _ = []) as -> by (symmetry; apply with_no_routes).
    clear -Eh. induction versions as [|v versions IH]; [done|]. simpl in Eh. apply orb_false_iff in Eh as [E1 E2].
    unfold routes_on in *. rewrite bind_cons, IH, (no_web_routes resolver md resourceConfig v) by done. by case_match.
Qed.

(** The parts of an installation up to the group. *)
Lemma InstallAPIs_parts pmd scheme (σ : Srv) kinds storages :
  (installer_scheme scheme).1 = None → getKindsByGroupVersion resolver md = inl kinds →
  install_storages kinds = Returned (inl storages) →
  let s := (installer_scheme scheme).2 in
  let ep := enabled_versions kinds (PrioritizedVersionsForGroup (md_Group md) s) in
  InstallAPIs Srv pmd (scheme, σ) =
    let '(err, σ1) := InstallAPIGroup (mkAPIGroupInfo ep.2 storages s) σ in
    match err with
    | Some err => (Returned (Some err), (Some s, σ1))
    | None =>
        let '(r, σ2) := register_routes (W:=W) resolver md resourceConfig ep.1 pmd σ1 in (r, (Some s, σ2))
    end.
Proof.
  intros E1 E2 E3. cbv zeta. unfold ApiInstaller.InstallAPIs. destruct (installer_scheme scheme) as [err s].
  simpl in E1. subst err. simpl. rewrite E2, E3. destruct (enabled_versions _ _) as [enabled prioritized]. simpl.
  unfold and_returns, calls, bind, returns, ret. destruct (InstallAPIGroup _ σ) as [[err|] σ1]; [done|].
  by destruct (register_routes _ _ _ _ _ _).
Qed.

Lemma InstallAPIs_ok pmd scheme (σ σ' : Srv) s : InstallAPIs Srv pmd (scheme, σ) = (Returned None, (s, σ')) →
  ∃ kinds storages, (installer_scheme scheme).1 = None ∧ getKindsByGroupVersion resolver md = inl kinds ∧
    install_storages kinds = Returned (inl storages).
Proof.
  unfold ApiInstaller.InstallAPIs. destruct (installer_scheme scheme) as [[err|] s0]; [done|].
  destruct (getKindsByGroupVersion resolver md) as [kinds|]; [|done].
  destruct (install_storages kinds) as [[storages|]|] eqn:E3; [|done..]. intros _. exists kinds, storages. split_and!; [done..|]. exact E3.
Qed.

(** When an app is installed, the server is given the storages of its kinds in one group,
    and after that nothing else happens to the server than that the custom routes of the
    versions are added: on every web service, those that the resource config enables of the
    versions whose path it is the first to have, in their order. *)
Theorem InstallAPIs_routes versions scheme (σ σ' : Srv) s :
  InstallAPIs Srv (Some versions) (scheme, σ) = (Returned None, (s, σ')) →
  ∃ info kinds σ1,
    InstallAPIGroup info σ = (None, σ1) ∧ getKindsByGroupVersion resolver md = inl kinds ∧
    install_storages kinds = Returned (inl (agi_VersionedResourcesStorageMap info)) ∧
    let enabled := (enabled_versions kinds (PrioritizedVersionsForGroup (md_Group md) (agi_Scheme info))).1 in
    let ptrs := default [] (RegisteredWebServices σ1) in
    ∀ p, ws_RootPath (web_service p σ') = ws_RootPath (web_service p σ1) ∧
         ws_Routes (web_service p σ') =
           ws_Routes (web_service p σ1) ++ routes_on resolver md resourceConfig enabled ptrs σ1 versions p.
Proof.
  intros E. destruct (InstallAPIs_ok _ _ _ _ _ E) as (kinds & storages & E1 & E2 & E3).
  rewrite (InstallAPIs_parts _ _ _ kinds storages E1 E2 E3) in E.
  destruct (InstallAPIGroup _ σ) as [[err|] σ1] eqn:Ei; [done|].
  exists (mkAPIGroupInfo (enabled_versions kinds (PrioritizedVersionsForGroup (md_Group md) (installer_scheme scheme).2)).2
            storages (installer_scheme scheme).2), kinds, σ1.
  split_and!; [exact Ei | done | done |]. cbv zeta. cbn [agi_Scheme].
  pose proof (register_routes_spec (enabled_versions kinds (PrioritizedVersionsForGroup (md_Group md) (installer_scheme scheme).2)).1 versions σ1) as H.
  cbv zeta in H. destruct (register_routes _ _ _ _ _ _) as [r σ2]. injection E as -> _ <-. destruct H as [H _].
  intros p. rewrite (H eq_refl p). split; reflexivity.
Qed.
End Server.

(** *** On a Kubernetes server *)

(** The versions that get routes and are not prioritized by the scheme have no kinds. *)
Lemma enabled_versions_spec kinds prioritized v :
  v ∈ (enabled_versions kinds prioritized).1 →
  is_Some (kinds !! v) ∨ (md_Group md, v) ∈ (enabled_versions kinds prioritized).2.
Proof.
  unfold ApiInstaller.enabled_versions.
  assert (H0 : ∀ v, v ∈ (∅ : gset string) → is_Some (kinds !! v) ∨ (md_Group md, v) ∈ prioritized) by set_solver.
  revert H0 v. generalize (∅ : gset string) prioritized.
  induction (elems (md_Versions md)) as [|ver vers IH]; intros enabled prio H0 v; simpl; [apply H0|].
  apply IH. clear -H0. intros v. simpl. intros Hv.
  assert (Hold : v ∈ enabled → is_Some (kinds !! v) ∨ (md_Group md, v) ∈
    (if bool_decide (is_Some (kinds !! mv_Name ver)) || bool_decide ((md_Group md, mv_Name ver) ∈ prio)
        || negb (bool_decide (mv_Name ver ∈ (if has_enabled_routes md resourceConfig ver then {[mv_Name ver]} ∪ enabled else enabled)))
     then prio else prio ++ [(md_Group md, mv_Name ver)])).
  { intros [?|Hp]%H0; [by left|]. right. destruct (_ || negb _); [done|]. apply elem_of_app. by left. }
  destruct (has_enabled_routes _ _ _); [|by apply Hold].
  apply elem_of_union in Hv as [->%elem_of_singleton|Hv]; [|by apply Hold].
  rewrite (bool_decide_eq_true_2 (mv_Name ver ∈ _)) by set_solver. simpl. rewrite orb_false_r.
  destruct (bool_decide_reflect (is_Some (kinds !! mv_Name ver))); [by left|].
  destruct (bool_decide_reflect ((md_Group md, mv_Name ver) ∈ prio)); right; simpl; set_solver.
Qed.

Lemma enabled_versions_group kinds prioritized :
  (∀ gv, gv ∈ prioritized → gv.1 = md_Group md) →
  ∀ gv, gv ∈ (enabled_versions kinds prioritized).2 → gv.1 = md_Group md.
Proof.
  unfold ApiInstaller.enabled_versions. generalize (∅ : gset string). revert prioritized.
  induction (elems (md_Versions md)) as [|ver vers IH]; intros prio enabled H; simpl; [done|].
  apply IH. destruct (_ || negb _); [done|]. intros gv [?| ->%list_elem_of_singleton]%elem_of_app; auto.
Qed.

Lemma enabled_versions_keeps kinds prioritized gv :
  gv ∈ prioritized → gv ∈ (enabled_versions kinds prioritized).2.
Proof.
  unfold ApiInstaller.enabled_versions. generalize (∅ : gset string). revert prioritized.
  induction (elems (md_Versions md)) as [|ver vers IH]; intros prio enabled H; simpl; [done|].
  apply IH. destruct (_ || negb _); [done|]. apply elem_of_app. by left.
Qed.

Definition has_service (wss : list WebService) (gv : string * string) : Prop :=
  ∃ ws, ws ∈ wss ∧ ws_RootPath ws = api_path gv.1 gv.2.

(** After the group is installed, every prioritized version has a web service. *)
Lemma install_gvs_spec (info : Info) l wss :
  (∀ gv, gv ∈ l → agi_VersionedResourcesStorageMap info !! gv.1 = None) →
  ∃ wss', each (install_gv info) l (mkKubernetesServer (Some (Some wss))) = (None, mkKubernetesServer (Some (Some wss'))) ∧
    (∀ ws, ws ∈ wss → ws ∈ wss') ∧ ∀ gv, gv ∈ l → has_service wss' gv.
Proof.
  revert wss. induction l as [|gv l IH]; intros wss Hg.
  { exists wss. split_and!; [done | done | set_solver]. }
  simpl. unfold and_then, bind, install_gv at 1. rewrite Hg by set_solver. simpl.
  destruct (existsb _ wss) eqn:Ex.
  - destruct (IH wss) as (wss' & -> & H1 & H2); [set_solver|]. exists wss'. split_and!; [done..|].
    intros gv' [->|]%elem_of_cons; [|by apply H2].
    apply existsb_exists in Ex as (ws & ?%list_elem_of_In & ?%String.eqb_eq). exists ws. split; [by apply H1 | done].
  - destruct (IH (wss ++ [mkWebService (api_path gv.1 gv.2) []])) as (wss' & -> & H1 & H2); [set_solver|].
    exists wss'. split_and!; [done | set_solver |].
    intros gv' [->|]%elem_of_cons; [|by apply H2]. exists (mkWebService (api_path gv.1 gv.2) []).
    split; [apply H1; set_solver | done].
Qed.
Lemma web_routes_enabled ver r kinds prioritized :
  ver ∈ elems (md_Versions md) → r ∈ web_routes resolver md resourceConfig ver →
  mv_Name ver ∈ (enabled_versions kinds prioritized).1.
Proof.
  intros Hv Hr.
  assert (He : has_enabled_routes md resourceConfig ver = true).
  { unfold web_routes in Hr. apply list_elem_of_bind in Hr as ((scope & rpath & props) & Hr & Hin).
    destruct (isCustomRouteEnabled _ _ _) eqn:E; [|set_solver]. unfold has_enabled_routes. apply existsb_exists.
    eexists. split; [by apply list_elem_of_In | done]. }
  unfold ApiInstaller.enabled_versions.
  assert (H0 : ∀ st, (ver ∈ elems (md_Versions md) ∨ mv_Name ver ∈ st.1) →
    mv_Name ver ∈ (foldl (add_enabled md resourceConfig kinds) st (elems (md_Versions md))).1); [|apply H0; by left].
  clear Hv. induction (elems (md_Versions md)) as [|v l IH]; intros st H; simpl; [by destruct H as [H|H]; [set_solver|]|].
  apply IH. simpl. destruct H as [[->|H]%elem_of_cons|H]; [right | by left | right].
  - rewrite He. set_solver.
  - case_match; set_solver.
Qed.

Lemma ws_routes_found (wss : list WebService) p : p ∈ seq 0 (length wss) →
  default (mkWebService "" []) (wss !! p) ∈ wss.
Proof.
  intros [_ Hp]%elem_of_seq. destruct (lookup_lt_is_Some_2 wss p) as [ws E]; [lia|]. rewrite E. simpl.
  by eapply list_elem_of_lookup_2.
Qed.

Context (install : Info → M KubernetesServer (option GoError)).
#[local] Instance the_server : GenericAPIServer Info KubernetesServer := KubernetesGenericAPIServer install.
#[local] Instance the_laws : GenericAPIServerLaws Info KubernetesServer := Kubernetes_laws install.

Lemma register_on_container enabled versions wss :
  (∀ v, v ∈ versions → mv_Name v ∈ enabled → has_service wss (md_Group md, mv_Name v)) →
  ∃ σ', register_routes (W:=W) (O:=O) resolver md resourceConfig enabled (Some versions)
          (mkKubernetesServer (Some (Some wss))) = (Returned None, σ') ∧
    ∀ v r, v ∈ versions → mv_Name v ∈ enabled → r ∈ web_routes resolver md resourceConfig v →
      ∃ ws, ws ∈ default [] (container σ') ∧ ws_RootPath ws = api_path (md_Group md) (mv_Name v) ∧ r ∈ ws_Routes ws.
Proof.
  intros Hs. set (σ := mkKubernetesServer (Some (Some wss))).
  pose proof (register_routes_spec enabled versions σ) as H. cbv zeta in H.
  destruct (register_routes _ _ _ _ _ _) as [r0 σ'] eqn:E. destruct H as [H1 H2].
  change (default [] (RegisteredWebServices σ)) with (seq 0 (length wss)) in *.
  assert (Hf : ∀ v, v ∈ versions → mv_Name v ∈ enabled →
    ∃ p, service_of (W:=W) (O:=O) md v (seq 0 (length wss)) σ = Some p ∧
         ws_RootPath (web_service p σ) = api_path (md_Group md) (mv_Name v)).
  { intros v Hv He. destruct (Hs v Hv He) as (ws & [p Ep]%list_elem_of_lookup_1 & Hr).
    unfold service_of. destruct (List.find _ _) as [q|] eqn:Ef; [|exfalso].
    - exists q. split; [done|]. apply List.find_some in Ef as [_ Ef]. by apply String.eqb_eq.
    - apply List.find_none with (x := p) in Ef;
        [|apply list_elem_of_In, elem_of_seq; apply lookup_lt_Some in Ep; lia].
      apply String.eqb_neq in Ef. apply Ef. unfold web_service. simpl. by rewrite Ep. }
  assert (r0 = Returned None) as ->.
  { apply H2; [by eexists|]. intros v Hv He. destruct (Hf v Hv He) as (p & -> & _). by eexists. }
  exists σ'. split; [done|]. intros v r Hv He Hr. destruct (Hf v Hv He) as (p & Ep & Hroot).
  pose proof (H1 eq_refl p) as Hp.
  assert (Hin : r ∈ ws_Routes (web_service p σ')).
  { rewrite Hp. apply elem_of_app. right. apply list_elem_of_bind. exists v. split; [|done].
    by rewrite !bool_decide_eq_true_2. }
  assert (Hp' : ws_RootPath (web_service p σ') = api_path (md_Group md) (mv_Name v)) by (rewrite Hp; exact Hroot).
  unfold web_service in Hin, Hp'. simpl in Hin, Hp'.
  destruct (default [] (container σ') !! p) as [ws|] eqn:Ews; [|by apply elem_of_nil in Hin].
  exists ws. split; [by eapply list_elem_of_lookup_2 | done].
Qed.

(** What [InstallAPIs] hands to the server, for the kinds and storages of the app. *)
Definition app_info (scheme : option (list SchemeCall)) (kinds : gmap string (list (KindAndManifestKind O S G)))
    (storages : gmap string (gmap string (Storage (O:=O) (W:=W)))) : Info :=
  let s := (installer_scheme scheme).2 in
  mkAPIGroupInfo (enabled_versions kinds (PrioritizedVersionsForGroup (md_Group md) s)).2 storages s.

(** C6: Installing an app on a Kubernetes API server, when its scheme and its storages can be
    made, the versions that the scheme prioritizes for its group are of that group and
    include all that have kinds, and no version is named like the group.  When the wrapped
    server's [InstallAPIGroup] fails, its error is returned, and nothing else is done.
    When it succeeds and leaves a container for web services, the app is installed: a
    version that has routes but no resources gets a web service, and every custom route the
    resource config enables ends up on a web service with the path of its version, whatever
    versions have kinds. *)
Theorem Kubernetes_InstallAPIs scheme kinds storages σ :
  let s := (installer_scheme scheme).2 in
  let prioritized := PrioritizedVersionsForGroup (md_Group md) s in
  let installed := InstallAPIs KubernetesServer (Some (elems (md_Versions md))) (scheme, σ) in
  (installer_scheme scheme).1 = None → getKindsByGroupVersion resolver md = inl kinds →
  install_storages kinds = Returned (inl storages) → storages !! md_Group md = None →
  (∀ gv, gv ∈ prioritized → gv.1 = md_Group md) → (∀ v, is_Some (kinds !! v) → (md_Group md, v) ∈ prioritized) →
  match install (app_info scheme kinds storages) σ with
  | (Some err, σ1) => installed = (Returned (Some err), (Some s, σ1))
  | (None, σ1) => ∀ wss, σ1 = mkKubernetesServer (Some (Some wss)) →
      ∃ σ', installed = (Returned None, (Some s, σ')) ∧
        ∀ ver r, ver ∈ elems (md_Versions md) → r ∈ web_routes resolver md resourceConfig ver →
          ∃ ws, ws ∈ default [] (container σ') ∧ ws_RootPath ws = api_path (md_Group md) (mv_Name ver) ∧
            r ∈ ws_Routes ws
  end.
Proof.
  cbv zeta. intros E1 E2 E3 Hg Hprio Hkinds. rewrite (InstallAPIs_parts _ _ _ kinds storages E1 E2 E3).
  set (s := (installer_scheme scheme).2) in *. set (ep := enabled_versions kinds _). set (info := mkAPIGroupInfo _ _ _).
  change (app_info scheme kinds storages) with info.
  assert (Hi : InstallAPIGroup info σ = (install info ;;? each (install_gv info) ep.2) σ) by done.
  rewrite Hi. unfold and_then, bind. destruct (install info σ) as [[err|] σ1]; [done|]. intros wss ->.
  assert (Hgroup : ∀ gv, gv ∈ ep.2 → gv.1 = md_Group md) by (by apply enabled_versions_group).
  destruct (install_gvs_spec info ep.2 wss) as (wss1 & E & _ & H).
  { intros gv Hgv. rewrite (Hgroup gv Hgv). exact Hg. }
  rewrite E. destruct (register_on_container ep.1 (elems (md_Versions md)) wss1) as (σ' & -> & Hr).
  - intros v Hv Hen. apply (H (md_Group md, mv_Name v)). destruct (enabled_versions_spec _ _ _ Hen) as [Hk|Hk]; [|done].
    by apply enabled_versions_keeps, Hkinds.
  - exists σ'. split; [done|]. intros ver r Hver Hin. by apply (Hr ver r), Hin; [|eapply web_routes_enabled].
Qed.
End Installed.

(** ** The scheme *)

(** A computation that makes the given calls in order, and stops at the first error. *)
Definition emits (m : M (list SchemeCall) (option GoError)) (l : list SchemeCall) : Prop := ∀ s,
  ∃ l', (m s).2 = s ++ l' ∧ l' `prefix_of` l ∧ ((m s).1 = None → l' = l).

Lemma emits_none : emits (ret None) [].
Proof. intros s. exists []. by rewrite app_nil_r. Qed.

Lemma emits_one c : emits (λ s, (None, s ++ [c])) [c].
Proof. intros s. by exists [c]. Qed.

Lemma emits_and_then m1 m2 l1 l2 : emits m1 l1 → emits m2 l2 → emits (m1 ;;? m2) (l1 ++ l2).
Proof.
  intros H1 H2 s. destruct (H1 s) as (l' & E & Hp & Hn). unfold and_then, bind. destruct (m1 s) as [[e|] s1]; simpl in *.
  - exists l'. split_and!; [done | by apply prefix_app_r | done].
  - rewrite Hn in * by done. destruct (H2 s1) as (l'' & E2 & Hp2 & Hn2). exists (l1 ++ l''). subst s1.
    split_and!; [by rewrite E2, <- app_assoc | destruct Hp2 as [k ->]; exists k; by rewrite app_assoc | by intros ->%Hn2].
Qed.

Lemma emits_each {A} (f : A → M (list SchemeCall) (option GoError)) (g : A → list SchemeCall) l :
  (∀ x, x ∈ l → emits (f x) (g x)) → emits (each f l) (l ≫= g).
Proof.
  induction l as [|x l IH]; intros H; [apply emits_none|].
  simpl. apply emits_and_then; [apply H | apply IH; intros y Hy; apply H]; set_solver.
Qed.

Lemma emits_on_scheme scheme_error c (f : option GoError → option GoError) : f None = None → (∀ e, is_Some (f (Some e))) →
  emits (let* err := on_scheme scheme_error c in ret (f err)) [c].
Proof.
  intros Hn Hs s. exists [c]. unfold on_scheme, bind, ret. by destruct (scheme_error c).
Qed.

Section Schemes.
Context {O S RouteSchema G : Type} `{RG : !RangeOrder}.
Context (resolver : GoTypeResolver O) (md : ManifestData (PathProps S) RouteSchema G).
Context (scheme_error : SchemeCall → option GoError) (compare_versions : string → string → Z).

Abbreviation KMK := (KindAndManifestKind O S G).

(** The calls of [AddToScheme] for a kind, a version, and an internal kind. *)
Definition query_calls (v : string) (k : KMK) : list SchemeCall :=
  range_map (items (mvk_Routes (km_ManifestKind k))) ≫= λ '(cpath, props),
    match po_Get props with
    | None => []
    | Some _ =>
        match CustomRouteQueryGoType resolver (ak_Kind (km_Kind k)) v cpath "GET" with
        | Some t => [AddKnownTypes (md_Group md, v) t]
        | None => []
        end
    end.
Definition kind_calls (v : string) (k : KMK) : list SchemeCall :=
  let gvk := gvk_of_kind (km_Kind k) in
  [AddKnownTypeWithName gvk] ++ [AddKnownTypeWithName (list_of (md_Group md, v, ak_Kind (km_Kind k)))] ++
  [AddToGroupVersion (ak_Group (km_Kind k), ak_Version (km_Kind k))] ++ query_calls v k ++ [AddFieldLabelConversionFunc gvk].
Definition version_calls (vk : string * list KMK) : list SchemeCall :=
  (vk.2 ≫= kind_calls vk.1) ++ [AddUnversionedTypes (md_Group md, vk.1)] ++ [AddGeneratedConversionFunc].
Definition conversion_calls (kinds : gmap string (list KMK)) (internal : ApiKind O) : list SchemeCall :=
  let igvk := (md_Group md, internal_version, ak_Kind internal) in
  [AddKnownTypeWithName igvk] ++ [AddKnownTypeWithName (list_of igvk)] ++
  ((in_order kinds).*2 ≫= λ kind,
    if String.eqb (ak_Group kind) (ak_Group internal) && String.eqb (ak_Kind kind) (ak_Kind internal)
    then [AddConversionFunc (gvk_of_kind kind) (gvk_of_kind internal)] ++
         [AddConversionFunc (gvk_of_kind internal) (gvk_of_kind kind)]
    else []).
Definition scheme_calls (kinds : gmap string (list KMK)) : list SchemeCall :=
  (range_map kinds ≫= version_calls) ++
  ((versions_without_kinds md kinds ≫= λ v, [AddKnownTypeWithName (md_Group md, v, "none")]) ++
   (((range_map (internal_kinds md kinds)).*2 ≫= conversion_calls kinds) ++
    match priority md compare_versions kinds with
    | [] => []
    | versions => [SetVersionPriority ((md_Group md,.) <$> versions)]
    end)).

Lemma AddToScheme_emits kinds : getKindsByGroupVersion resolver md = inl kinds →
  emits (AddToScheme resolver md scheme_error compare_versions) (scheme_calls kinds).
Proof.
  intros E. unfold AddToScheme. rewrite E. unfold scheme_calls.
  apply emits_and_then; [|apply emits_and_then; [|apply emits_and_then]].
  - apply emits_each. intros vk _. unfold add_version, version_calls.
    apply emits_and_then; [|apply emits_and_then; [apply emits_one | by apply emits_on_scheme]].
    apply emits_each. intros k _. unfold add_kind, kind_calls.
    apply emits_and_then; [apply emits_one|]. apply emits_and_then; [apply emits_one|].
    apply emits_and_then; [apply emits_one|]. apply emits_and_then.
    + apply emits_each. intros [cpath props] _. destruct (po_Get props); [|apply emits_none].
      destruct (CustomRouteQueryGoType _ _ _ _ _); [apply emits_one | apply emits_none].
    + intros s. exists [AddFieldLabelConversionFunc (gvk_of_kind (km_Kind k))]. done.
  - apply emits_each. intros v _. apply emits_one.
  - apply emits_each. intros internal _. unfold add_conversions, conversion_calls.
    apply emits_and_then; [apply emits_one|]. apply emits_and_then; [apply emits_one|].
    apply emits_each. intros kind _. destruct (_ && _); [|apply emits_none].
    apply emits_and_then; by apply emits_on_scheme.
  - unfold set_priority. destruct (priority _ _ _); [apply emits_none | by apply emits_on_scheme].
Qed.

(** The internal kind of a name. *)
Lemma internal_kinds_spec (l : list (string * ApiKind O)) name i :
  foldl (add_internal md) ∅ l !! name = Some i →
  ak_Kind i = name ∧ ∃ v, (v, i) ∈ l ∧ ((∃ k, (md_PreferredVersion md, k) ∈ l ∧ ak_Kind k = name) → v = md_PreferredVersion md).
Proof.
  revert name i. induction l as [|[v k] l IH] using rev_ind; intros name i; [done|]. rewrite foldl_app. simpl.
  set (m := foldl (add_internal md) ∅ l) in *.
  destruct (_ || _) eqn:Eb.
  - destruct (decide (ak_Kind k = name)) as [<-|Hne].
    + rewrite lookup_insert_eq. intros [= <-]. split; [done|]. exists v. split; [set_solver|].
      intros (k' & [Hk'|[= <- <-]%list_elem_of_singleton]%elem_of_app & Hn); [|done].
      apply orb_true_iff in Eb as [Eb|?%String.eqb_eq]; [|done].
      apply negb_true_iff, bool_decide_eq_false in Eb. exfalso. apply Eb. clear Eb. subst m. rewrite <- Hn. clear -Hk'.
      induction l as [|[v1 k1] l IHl] using rev_ind; [set_solver|]. rewrite foldl_app. simpl.
      apply elem_of_app in Hk' as [Hk'|[= <- <-]%list_elem_of_singleton].
      * case_match; [|by apply IHl]. apply lookup_insert_is_Some'. right. by apply IHl.
      * rewrite String.eqb_refl, orb_true_r. rewrite lookup_insert_eq. by eexists.
    + rewrite lookup_insert_ne by done. intros (? & v' & Hv & Hp)%IH. split; [done|]. exists v'. split; [set_solver|].
      intros (k' & [Hk'|[= <- <-]%list_elem_of_singleton]%elem_of_app & Hn); [|done]. apply Hp. by exists k'.
  - intros (? & v' & Hv & Hp)%IH. split; [done|]. exists v'. split; [set_solver|].
    intros (k' & [Hk'|[= <- <-]%list_elem_of_singleton]%elem_of_app & Hn); [apply Hp; by exists k'|].
    by rewrite String.eqb_refl, orb_true_r in Eb.
Qed.

Lemma internal_kinds_some (l : list (string * ApiKind O)) v k :
  (v, k) ∈ l → is_Some (foldl (add_internal md) ∅ l !! ak_Kind k).
Proof.
  induction l as [|[v1 k1] l IH] using rev_ind; [set_solver|]. rewrite foldl_app. simpl.
  intros [H|[= <- <-]%list_elem_of_singleton]%elem_of_app.
  - case_match; [|by apply IH]. apply lookup_insert_is_Some'. right. by apply IH.
  - destruct (_ || _) eqn:E; [rewrite lookup_insert_eq; by eexists|]. apply orb_false_iff in E as [E _].
    by apply negb_false_iff, bool_decide_eq_true in E.
Qed.

Lemma elem_of_in_order (kinds : gmap string (list KMK)) v k :
  (v, k) ∈ in_order kinds ↔ ∃ ks mk, kinds !! v = Some ks ∧ mk ∈ ks ∧ km_Kind mk = k.
Proof.
  unfold in_order. rewrite list_elem_of_bind. split.
  - intros ([v' ks] & Hm & Hin%elem_of_range_map). apply list_elem_of_fmap in Hm as (mk & E & Hmk).
    injection E as -> ->. by exists ks, mk.
  - intros (ks & mk & Hks & Hmk & <-). exists (v, ks). split; [|by apply elem_of_range_map].
    apply list_elem_of_fmap. by exists mk.
Qed.

(** When [AddToScheme] succeeds, every kind of every version is a known type, with its
    list and its labels; and its name has one internal kind, of the preferred version if that
    has the name, between which and the kind both conversions are registered. *)
Theorem AddToScheme_registers kinds s s' :
  AddToScheme resolver md scheme_error compare_versions s = (None, s') →
  getKindsByGroupVersion resolver md = inl kinds →
  ∀ v ks mk, kinds !! v = Some ks → mk ∈ ks →
  let kind := km_Kind mk in
  AddKnownTypeWithName (gvk_of_kind kind) ∈ s' ∧ AddFieldLabelConversionFunc (gvk_of_kind kind) ∈ s' ∧
  AddKnownTypeWithName (list_of (md_Group md, v, ak_Kind kind)) ∈ s' ∧
  ∃ v' ks' mk', kinds !! v' = Some ks' ∧ mk' ∈ ks' ∧ ak_Kind (km_Kind mk') = ak_Kind kind ∧
    ((∃ ks1 mk1, kinds !! md_PreferredVersion md = Some ks1 ∧ mk1 ∈ ks1 ∧ ak_Kind (km_Kind mk1) = ak_Kind kind) →
     v' = md_PreferredVersion md) ∧
    AddKnownTypeWithName (md_Group md, internal_version, ak_Kind kind) ∈ s' ∧
    (ak_Group kind = ak_Group (km_Kind mk') →
     AddConversionFunc (gvk_of_kind kind) (gvk_of_kind (km_Kind mk')) ∈ s' ∧
     AddConversionFunc (gvk_of_kind (km_Kind mk')) (gvk_of_kind kind) ∈ s').
Proof.
  intros E Ek v ks mk Hv Hmk kind. destruct (AddToScheme_emits kinds Ek s) as (l & El & _ & Hl).
  rewrite E in El, Hl. simpl in El, Hl. rewrite (Hl eq_refl) in El. subst s'. clear E Hl l.
  assert (Hkind : ∀ c, c ∈ kind_calls v mk → c ∈ s ++ scheme_calls kinds).
  { intros c Hc. apply elem_of_app. right. unfold scheme_calls. apply elem_of_app. left. apply list_elem_of_bind.
    exists (v, ks). split; [|by apply elem_of_range_map]. apply elem_of_app. left. apply list_elem_of_bind. by exists mk. }
  assert (Hin : (v, kind) ∈ in_order kinds) by (apply elem_of_in_order; eauto).
  destruct (internal_kinds_some _ _ _ Hin) as [i Hi]. pose proof (internal_kinds_spec _ _ _ Hi) as (Hname & v' & Hv' & Hpref).
  assert (Hconv : ∀ c, c ∈ conversion_calls kinds i → c ∈ s ++ scheme_calls kinds).
  { intros c Hc. apply elem_of_app. right. unfold scheme_calls. rewrite !elem_of_app. right. right. left.
    apply list_elem_of_bind. exists i. split; [done|]. apply list_elem_of_fmap.
    exists (ak_Kind kind, i). split; [done|]. by apply elem_of_range_map. }
  apply elem_of_in_order in Hv' as (ks' & mk' & Hks' & Hmk' & <-).
  split; [apply Hkind; set_solver|]. split; [apply Hkind; unfold kind_calls; rewrite !elem_of_app; set_solver|].
  split; [apply Hkind; set_solver|].
  exists v', ks', mk'. split_and!; [done..| | |].
  - intros (ks1 & mk1 & H1 & H2 & H3). apply Hpref. exists (km_Kind mk1). split; [|done]. apply elem_of_in_order. eauto.
  - apply Hconv. unfold conversion_calls. rewrite Hname. set_solver.
  - intros Hg. assert (Hc : ∀ c, c ∈ [AddConversionFunc (gvk_of_kind kind) (gvk_of_kind (km_Kind mk'));
        AddConversionFunc (gvk_of_kind (km_Kind mk')) (gvk_of_kind kind)] → c ∈ conversion_calls kinds (km_Kind mk')).
    { intros c Hc. unfold conversion_calls. rewrite !elem_of_app. right. right. apply list_elem_of_bind. exists kind. split.
      - by rewrite Hg, Hname, !String.eqb_refl.
      - apply list_elem_of_fmap. by exists (v, kind). }
    split; apply Hconv, Hc; set_solver.
Qed.

(** ** The order of the versions *)

(** The keys of the kinds are versions of the manifest. *)
Lemma kinds_versions kinds v : getKindsByGroupVersion resolver md = inl kinds →
  is_Some (kinds !! v) → v ∈ mv_Name <$> elems (md_Versions md).
Proof.
  intros E. assert (H : ∀ l acc, (∀ vk, vk ∈ l → vk.1 ∈ mv_Name <$> elems (md_Versions md)) →
    (∀ v, is_Some (acc !! v) → v ∈ mv_Name <$> elems (md_Versions md)) →
    foldl (add_gv_kind resolver) (inl acc) l = inl kinds → is_Some (kinds !! v) → v ∈ mv_Name <$> elems (md_Versions md)).
  { clear E. induction l as [|vk l IH]; intros acc Hl Hacc E; simpl in E; [injection E as <-; apply Hacc|].
    destruct (KindToGoType _ _ _) as [kind|].
    - refine (IH _ (λ x Hx, Hl x (list_elem_of_further _ _ _ Hx)) _ E).
      intros v0 [<-|Hv0]%lookup_insert_is_Some'; [apply Hl; set_solver | by apply Hacc].
    - exfalso. clear -E. induction l as [|x l IH]; [done | by apply IH]. }
  refine (H (version_kinds md) ∅ _ _ E); [|by intros ? [? ?]]. intros [v0 vk] Hin. unfold version_kinds in Hin.
  apply list_elem_of_bind in Hin as (ver & Hin & Hver). apply list_elem_of_fmap in Hin as (k & [= -> ->] & _).
  apply list_elem_of_fmap. by exists ver.
Qed.

Lemma version_before_total : (∀ a b, (0 <= compare_versions a b)%Z ∨ (0 <= compare_versions b a)%Z) →
  Total (version_before md compare_versions).
Proof.
  intros H a b. unfold version_before. destruct (String.eqb a _), (String.eqb b _); auto.
Qed.

Lemma version_before_trans :
  (∀ a b c, (0 <= compare_versions a b)%Z → (0 <= compare_versions b c)%Z → (0 <= compare_versions a c)%Z) →
  Transitive (version_before md compare_versions).
Proof.
  intros H a b c. unfold version_before. destruct (String.eqb a _); [done|]. destruct (String.eqb b _); [done|].
  destruct (String.eqb c _); [done | apply H].
Qed.

(** The order of the versions that is given to the scheme has every version of the
    manifest, begins with the preferred version when it is one of them, and has a greater
    version before a smaller one among the others. *)
Theorem version_priority kinds : getKindsByGroupVersion resolver md = inl kinds →
  (∀ a b, (0 <= compare_versions a b)%Z ∨ (0 <= compare_versions b a)%Z) →
  (∀ a b c, (0 <= compare_versions a b)%Z → (0 <= compare_versions b c)%Z → (0 <= compare_versions a c)%Z) →
  let versions := priority md compare_versions kinds in
  (∀ v, v ∈ versions ↔ v ∈ mv_Name <$> elems (md_Versions md)) ∧
  (md_PreferredVersion md ∈ mv_Name <$> elems (md_Versions md) → head versions = Some (md_PreferredVersion md)) ∧
  ∀ i j a b, (i < j)%nat → versions !! i = Some a → versions !! j = Some b →
    a ≠ md_PreferredVersion md → b ≠ md_PreferredVersion md ∧ (0 <= compare_versions a b)%Z.
Proof.
  intros Ek Ht Htr versions.
  assert (Hp : versions ≡ₚ (range_map kinds).*1 ++ versions_without_kinds md kinds) by apply merge_sort_Permutation.
  assert (Hs : StronglySorted (version_before md compare_versions) versions).
  { apply (@StronglySorted_merge_sort _ _ (version_before_dec md compare_versions));
      [by apply version_before_trans | by apply version_before_total]. }
  assert (Hall : ∀ v, v ∈ versions ↔ v ∈ mv_Name <$> elems (md_Versions md)).
  { intros v. rewrite Hp, elem_of_app, range_map_fst, elem_of_range_keys, elem_of_dom. unfold versions_without_kinds.
    rewrite !list_elem_of_In, filter_In, <- !list_elem_of_In, negb_true_iff, bool_decide_eq_false. split.
    - intros [H|[H _]]; [by eapply kinds_versions | done].
    - intros H. destruct (decide (is_Some (kinds !! v))); [by left | by right]. }
  assert (Hij : ∀ i j a b, (i < j)%nat → versions !! i = Some a → versions !! j = Some b → version_before md compare_versions a b).
  { intros i j a b Hij Ha Hb. rewrite <- (take_drop j versions) in Hs. eapply StronglySorted_app_1_elem_of; [exact Hs| |].
    - apply list_elem_of_lookup. exists i. by rewrite lookup_take_lt.
    - apply list_elem_of_lookup. exists 0%nat. by rewrite lookup_drop, Nat.add_0_r. }
  split_and!; [exact Hall | |].
  - intros Hpref%Hall. destruct versions as [|v0 vs]; [set_solver|]. simpl. f_equal.
    apply list_elem_of_lookup_1 in Hpref as [[|j] Hj]; [by injection Hj|].
    pose proof (Hij 0 (Datatypes.S j) v0 _ ltac:(lia) eq_refl Hj) as H. unfold version_before in H.
    destruct (String.eqb_spec v0 (md_PreferredVersion md)); [done|]. by rewrite String.eqb_refl in H.
  - intros i j a b Hlt Ha Hb Hne. pose proof (Hij i j a b Hlt Ha Hb) as H. unfold version_before in H.
    destruct (String.eqb_spec a (md_PreferredVersion md)); [done|].
    destruct (String.eqb_spec b (md_PreferredVersion md)); [done|]. done.
Qed.
End Schemes.

(** ** Conversion *)

(** A conversion that succeeds is the app's: the first object is encoded, the app is asked once
    to convert it between the two kinds, and the second object is what the answer decodes to. *)
Lemma conversion_converts {O W} om (gvk_of : O → GVK) as_object gvk_text encode decode_into
    (app : option (App W)) set src dst a b b' (σ σ' : W) :
  conversionHandlerFunc om gvk_of as_object gvk_text encode decode_into app set src dst a b σ = (Returned (b', None), σ') →
  ∃ ap x y raw res y', app = Some ap ∧ set = true ∧ a = ResObject x ∧ b = ResObject y ∧ b' = ResObject y' ∧
    encode (gv_of gvk_of x) x = inl raw ∧
    app_Convert ap (mkAppConversionRequest src dst (mkRawObject raw (as_object x) "json")) σ = (Returned (Some res, None), σ') ∧
    decode_into (gv_of gvk_of y) (ro_Raw res) y = (y', None).
Proof.
  unfold conversionHandlerFunc, returns, ret. destruct app as [ap|]; [|done]. destruct set; [|done]. simpl.
  destruct a as [|x|], b as [|y|]; try done. simpl. destruct (encode _ x) as [raw|] eqn:E1; [|done].
  unfold and_returns, bind, panic, ret.
  destruct (app_Convert _ _ σ) as [[[res [err|]]|] σ1] eqn:E2; [done | | done].
  destruct res as [res|]; [|done]. destruct (decode_into _ _ y) as [y' err] eqn:E3. intros [= <- -> <-].
  by exists ap, x, y, raw, res, y'.
Qed.

(** An object that is converted before the app runs. *)
Lemma conversion_uninitialized {O W} om (gvk_of : O → GVK) as_object gvk_text encode decode_into set src dst a b (σ : W) :
  conversionHandlerFunc om gvk_of as_object gvk_text encode decode_into None set src dst a b σ =
    (Returned (b, Some (ErrorString "app is not initialized")), σ).
Proof. done. Qed.

(** ** Instances for the witnesses *)
Definition test_operation : Operation unit := mkOperation "getBar" [] None None.
Definition test_path : PathProps unit := mkPathProps (Some test_operation) None None None None None None.
Definition test_version_kind : ManifestVersionKind (PathProps unit) unit :=
  mkManifestVersionKind "Foo" "foos" "Namespaced" None None None (Some {[ "/bar" := test_path ]}) false None.
Definition test_ver2 : ManifestVersion (PathProps unit) unit unit :=
  mkManifestVersion "v2" true None (mkManifestVersionRoutes (Some {[ "/baz" := test_path ]}) None None).
Definition test_data : ManifestData (PathProps unit) unit unit :=
  mkManifestData "app" "App" "g"
    (Some [mkManifestVersion "v1" true (Some [test_version_kind]) (mkManifestVersionRoutes None None None); test_ver2])
    "v2" None None None None.

Definition no_types : GoTypes := λ _ _ _ _, None.
Definition test_resolver : GoTypeResolver TestObject :=
  mkGoTypeResolver (λ kind v, if String.eqb v "v1" then Some test_kind else None) no_types no_types no_types.
Definition test_scheme_error (c : SchemeCall) : option GoError := None.
Definition test_compare (a b : string) : Z := match String.compare a b with Lt => -1 | Eq => 0 | Gt => 1 end.
Definition test_prioritized (g : string) (s : list SchemeCall) : list (string * string) :=
  foldl (λ acc c, match c with SetVersionPriority l => l | _ => acc end) [] s.

Definition test_kmk : KindAndManifestKind TestObject unit unit := mkKindAndManifestKind test_kind test_version_kind.
Definition test_kinds : gmap string (list (KindAndManifestKind TestObject unit unit)) := {[ "v1" := [test_kmk] ]}.
Definition test_complete (s : GenericStore TestObject) : option GoError := None.

(** The wrapped server makes a web service for the first version. *)
Definition test_install (info : APIGroupInfo (Storage (O:=TestObject) (W:=TestWorld))) : M KubernetesServer (option GoError) :=
  λ _, (None, mkKubernetesServer (Some (Some [mkWebService "/apis/g/v1" []]))).
#[local] Instance test_server : GenericAPIServer (APIGroupInfo (Storage (O:=TestObject) (W:=TestWorld))) KubernetesServer :=
  KubernetesGenericAPIServer test_install.

Definition test_storages : called (gmap string (gmap string (Storage (O:=TestObject) (W:=TestWorld))) + GoError) :=
  install_storages (V:=TestAny) test_resolver test_data slash_gv test_encode_body None test_complete test_kinds.
Definition test_got : gmap string (gmap string (Storage (O:=TestObject) (W:=TestWorld))) :=
  match test_storages with Returned (inl storages) => storages | _ => ∅ end.
Lemma test_storages_got : test_storages = Returned (inl test_got).
Proof.
  assert (H : match test_storages with Returned (inl _) => true | _ => false end = true) by (vm_compute; reflexivity).
  unfold test_got. destruct test_storages as [[storages|]|]; [reflexivity | discriminate H..].
Qed.
Lemma test_got_group : test_got !! "g" = None.
Proof.
  assert (H : match test_got !! "g" with None => true | _ => false end = true) by (vm_compute; reflexivity).
  destruct (test_got !! "g"); [discriminate H | reflexivity].
Qed.
Definition test_InstallAPIs (pmd : option (list (ManifestVersion (PathProps unit) unit unit)))
  : MP (option (list SchemeCall) * KubernetesServer) (option GoError) :=
  InstallAPIs (V:=TestAny) (W:=TestWorld) test_resolver test_data slash_gv test_encode_body None test_complete []
    test_prioritized test_scheme_error test_compare pmd.

Lemma installed_resources_witness : ∃ storages st, test_storages = Returned (inl storages) ∧
  storages !! "v1" = Some st ∧ is_Some (st !! "foos/status") ∧ is_Some (st !! "foos/bar").
Proof.
  pose proof (installed_resources (V:=TestAny) (W:=TestWorld) test_resolver test_data slash_gv test_encode_body None
    test_complete test_kinds test_got test_storages_got) as H.
  destruct (proj2 (H "v1" "foos/status")) as (st & Hst & H1).
  { exists [test_kmk], test_kmk. split; [reflexivity|]. split; [by apply list_elem_of_singleton|]. split; [reflexivity|].
    apply list_elem_of_In. vm_compute. auto. }
  exists test_got, st. split; [exact test_storages_got|]. split; [exact Hst|]. split; [exact H1|].
  destruct (proj2 (H "v1" "foos/bar")) as (st' & Hst' & H2).
  { exists [test_kmk], test_kmk. split; [reflexivity|]. split; [by apply list_elem_of_singleton|]. split; [reflexivity|].
    apply list_elem_of_In. vm_compute. auto. }
  rewrite Hst in Hst'. injection Hst' as <-. exact H2.
Defined.

Definition test_baz_route : WebRoute :=
  mkWebRoute "GET" "namespaces/{namespace}/baz" "getBar" [("path", "namespace")] None "EmptyObject" "/baz" "Namespaced".

Lemma InstallAPIs_routes_witness : ∃ s σ',
  test_InstallAPIs (Some [test_ver2]) (None, mkKubernetesServer (Some (Some []))) = (Returned None, (s, σ')) ∧
  ws_Routes (web_service 1 σ') = [test_baz_route].
Proof.
  destruct (test_InstallAPIs (Some [test_ver2]) (None, mkKubernetesServer (Some (Some []))))
    as [[[err|]|] [s σ']] eqn:E; [vm_compute in E; discriminate | | vm_compute in E; discriminate].
  destruct (InstallAPIs_routes (GL:=Kubernetes_laws test_install) _ _ _ _ _ _ _ _ _ _ _ _ _ _ _ E)
    as (info & kinds & σ1 & H1 & H2 & H3 & H4).
  exists s, σ'. split; [reflexivity|]. clear -E. vm_compute in E. injection E as <- <-. reflexivity.
Defined.

Lemma Kubernetes_InstallAPIs_witness : ∃ s σ',
  test_InstallAPIs (Some (elems (md_Versions test_data))) (None, mkKubernetesServer (Some (Some []))) =
    (Returned None, (s, σ')) ∧
  ∃ ws, ws ∈ default [] (container σ') ∧ ws_RootPath ws = "/apis/g/v2" ∧ test_baz_route ∈ ws_Routes ws.
Proof.
  assert (Hprio : ∀ v, is_Some (test_kinds !! v) →
    ("g", v) ∈ test_prioritized "g" (installer_scheme test_resolver test_data [] test_scheme_error test_compare None).2).
  { intros v [ks Hv]. unfold test_kinds in Hv. apply lookup_singleton_Some in Hv as [<- _].
    apply list_elem_of_In. vm_compute. auto. }
  destruct (Kubernetes_InstallAPIs (V:=TestAny) test_resolver test_data slash_gv test_encode_body None test_complete []
    test_prioritized test_scheme_error test_compare test_install None test_kinds test_got (mkKubernetesServer (Some (Some []))))
    with [mkWebService "/apis/g/v1" []] as (σ' & H1 & H2).
  - vm_compute. reflexivity.
  - vm_compute. reflexivity.
  - exact test_storages_got.
  - exact test_got_group.
  - intros gv Hgv. vm_compute in Hgv. apply list_elem_of_In in Hgv. destruct Hgv as [<-|[<-|[]]]; reflexivity.
  - exact Hprio.
  - reflexivity.
  - eexists _, σ'. split; [exact H1|]. apply (H2 test_ver2 test_baz_route).
    + apply list_elem_of_In. right. by left.
    + apply list_elem_of_In. vm_compute. auto.
Defined.

Lemma AddToScheme_registers_witness : ∃ s',
  AddToScheme test_resolver test_data test_scheme_error test_compare [] = (None, s') ∧
  AddKnownTypeWithName ("g", "v1", "Foo") ∈ s' ∧ AddKnownTypeWithName ("g", "__internal", "Foo") ∈ s'.
Proof.
  destruct (AddToScheme test_resolver test_data test_scheme_error test_compare []) as [[err|] s'] eqn:E;
    [vm_compute in E; discriminate|].
  destruct (AddToScheme_registers test_resolver test_data test_scheme_error test_compare test_kinds [] s' E eq_refl
    "v1" [test_kmk] test_kmk eq_refl) as (H1 & _ & _ & _ & _ & _ & _ & _ & _ & _ & H2 & _).
  - by apply list_elem_of_singleton.
  - exists s'. split; [reflexivity|]. split; [exact H1 | exact H2].
Defined.

Definition same_versions (a b : string) : Z := 0.

Lemma version_priority_witness : head (priority test_data same_versions test_kinds) = Some "v2".
Proof.
  apply (version_priority test_resolver test_data same_versions test_kinds).
  - reflexivity.
  - intros a b. left. done.
  - done.
  - apply list_elem_of_In. vm_compute. auto.
Defined.

(** A scheme that could not be filled is kept, and the next try does not fill it. *)
Example half_scheme_kept : ∃ err,
  let fails c := match c with AddConversionFunc _ _ => Some (ErrorString "no") | _ => None end in
  let '(e1, s1) := installer_scheme test_resolver test_data [] fails test_compare None in
  e1 = Some err ∧ (installer_scheme test_resolver test_data [] fails test_compare (Some s1)).1 = None.
Proof. vm_compute. eexists. split; reflexivity. Qed.
