(* ===== verification/TypedClient.v ===== *)
(** * Typed and namespaced clients ([resource/typedclient.go], [namespaced_client.go])

    [TypedClient] gives the objects a client returns the type of a kind and gives the objects
    it sends their group, version and kind; [NamespacedClient] makes every request of a typed
    client in one namespace.  The dynamic type of an object is a test on its reference. *)
From S2P Require Import Prelude Resource ResourceWatcher Schema Client Concrete Admission.

#[local] Open Scope string_scope.

(** [SetGroupVersionKind] and [SetNamespace] *)
Definition with_kind (gvk : string * string * string) (o : Object) : Object :=
  let '(g, v, k) := gvk in
  let m := GetStaticMetadata o in
  with_StaticMetadata (mkStaticMetadata g v k (sm_Namespace m) (sm_Name m)) o.

Definition with_namespace (ns : string) (o : Object) : Object :=
  let m := GetStaticMetadata o in
  with_StaticMetadata (mkStaticMetadata (sm_Group m) (sm_Version m) (sm_Kind m) ns (sm_Name m)) o.

Section Typed.
Context {W WatchOptions RouteOptions Watching : Type} `{WW : !World W, MM : !Memory W}.

(** [Client], with the two methods that open streams. *)
Record WholeClient := mkWholeClient {
  wc_client : Client W;
  wc_Watch : string → WatchOptions → M W (Watching * option GoError);
  wc_SubresourceRequest : Identifier → RouteOptions → M W (string * option GoError);
}.

(** Whether a reference is a [T], a list an [L]; and the error of the assertion, with the
    text of the types. *)
Context (is_T : Ref → bool) (is_L : ListObject → bool) (not_T : Obj → GoError) (not_L : ListObject → GoError).

Record TypedClient := mkTypedClient { tc_cli : WholeClient; tc_gvk : string * string * string }.
Definition NewTypedClient (cli : WholeClient) (gvk : string * string * string) : TypedClient := mkTypedClient cli gvk.

(** [res, ok := v.(T)] after the check of the error; nil is no [T]. *)
Definition typed (m : M W (Obj * option GoError)) : M W (Obj * option GoError) :=
  let* '(v, err) := m in
  ret match err, v with
      | Some err, _ => (None, Some err)
      | None, Some r => if is_T r then (Some r, None) else (None, Some (not_T (Some r)))
      | None, None => (None, Some (not_T None))
      end.

Definition TypedClient_List (c : TypedClient) (namespace : string) (opts : ListOptions)
  : M W (option ListObject * option GoError) :=
  let* r := cl_List (wc_client (tc_cli c)) namespace opts in
  ret match r with
      | inr err => (None, Some err)
      | inl l => if is_L l then (Some l, None) else (None, Some (not_L l))
      end.

Definition TypedClient_Watch (c : TypedClient) : string → WatchOptions → M W (Watching * option GoError) :=
  wc_Watch (tc_cli c).

Definition TypedClient_Get (c : TypedClient) (id : Identifier) : M W (Obj * option GoError) :=
  typed (cl_Get (wc_client (tc_cli c)) id).

(** [SetGroupVersionKind], on a nil object a panic, and the identifier of the object. *)
Definition with_gvk (c : TypedClient) (obj : Obj) (send : Identifier → M W (Obj * option GoError))
  : MP W (Obj * option GoError) :=
  match obj with
  | None => panic
  | Some r =>
      calls (update_ref r (with_kind (tc_gvk c)) ;;;
             let* o := gets (deref r) in
             typed (send (StaticMetadata_Identifier (GetStaticMetadata o))))
  end.

Definition TypedClient_Create (c : TypedClient) (obj : Obj) (opts : CreateOptions) : MP W (Obj * option GoError) :=
  with_gvk c obj (λ id, cl_Create (wc_client (tc_cli c)) id obj opts).

Definition TypedClient_Update (c : TypedClient) (obj : Obj) (opts : UpdateOptions) : MP W (Obj * option GoError) :=
  with_gvk c obj (λ id, cl_Update (wc_client (tc_cli c)) id obj opts).

Definition TypedClient_Patch (c : TypedClient) (id : Identifier) (req : PatchRequest) (opts : PatchOptions)
  : M W (Obj * option GoError) := typed (cl_Patch (wc_client (tc_cli c)) id req opts).

Definition TypedClient_Delete (c : TypedClient) (id : Identifier) (opts : DeleteOptions) : M W (option GoError) :=
  cl_Delete (wc_client (tc_cli c)) id opts.

Definition TypedClient_SubresourceRequest (c : TypedClient) (id : Identifier) (opts : RouteOptions)
  : M W (string * option GoError) := wc_SubresourceRequest (tc_cli c) id opts.

(** ** [NamespacedClient] *)
Record NamespacedClient := mkNamespacedClient { nc_cli : TypedClient; nc_namespace : string }.
Definition NewNamespaced (cli : TypedClient) (namespace : string) : NamespacedClient := mkNamespacedClient cli namespace.

Definition in_namespace (c : NamespacedClient) (uid : string) : Identifier := mkIdentifier (nc_namespace c) uid.

Definition NamespacedClient_List (c : NamespacedClient) (opts : ListOptions)
  : M W (option ListObject * option GoError) := TypedClient_List (nc_cli c) (nc_namespace c) opts.
Definition NamespacedClient_Watch (c : NamespacedClient) (opts : WatchOptions) : M W (Watching * option GoError) :=
  TypedClient_Watch (nc_cli c) (nc_namespace c) opts.
Definition NamespacedClient_Get (c : NamespacedClient) (uid : string) : M W (Obj * option GoError) :=
  TypedClient_Get (nc_cli c) (in_namespace c uid).

(** [obj.SetNamespace(c.namespace)] *)
Definition set_namespace (c : NamespacedClient) (obj : Obj) (k : MP W (Obj * option GoError)) : MP W (Obj * option GoError) :=
  match obj with
  | None => panic
  | Some r => update_ref r (with_namespace (nc_namespace c)) ;;; k
  end.

Definition NamespacedClient_Create (c : NamespacedClient) (obj : Obj) (opts : CreateOptions) : MP W (Obj * option GoError) :=
  set_namespace c obj (TypedClient_Create (nc_cli c) obj opts).
Definition NamespacedClient_Update (c : NamespacedClient) (obj : Obj) (opts : UpdateOptions) : MP W (Obj * option GoError) :=
  set_namespace c obj (TypedClient_Update (nc_cli c) obj opts).
Definition NamespacedClient_Patch (c : NamespacedClient) (uid : string) (req : PatchRequest) (opts : PatchOptions)
  : M W (Obj * option GoError) := TypedClient_Patch (nc_cli c) (in_namespace c uid) req opts.
Definition NamespacedClient_Delete (c : NamespacedClient) (uid : string) (opts : DeleteOptions) : M W (option GoError) :=
  TypedClient_Delete (nc_cli c) (in_namespace c uid) opts.
Definition NamespacedClient_SubresourceRequest (c : NamespacedClient) (uid : string) (opts : RouteOptions)
  : M W (string * option GoError) := TypedClient_SubresourceRequest (nc_cli c) (in_namespace c uid) opts.
End Typed.

Arguments WholeClient : clear implicits.
Arguments TypedClient : clear implicits.
Arguments NamespacedClient : clear implicits.

(** ** Properties *)
Section Properties.
Context {W WatchOptions RouteOptions Watching : Type} `{WW : !World W, MM : !Memory W}.
Context (is_T : Ref → bool) (is_L : ListObject → bool) (not_T : Obj → GoError) (not_L : ListObject → GoError).

Abbreviation NClient := (NamespacedClient W WatchOptions RouteOptions Watching).
Abbreviation under c := (wc_client (tc_cli (nc_cli c))).

#[export] Instance typed_proper : Proper (meq ==> meq) (typed (W:=W) is_T not_T).
Proof. intros m1 m2 H w. unfold typed. by apply bind_proper; [|intros [v err] w']. Qed.

(** Every object a typed client returns without an error is a [T], and with one there is
    none. *)
Lemma typed_result m σ v err σ' : typed (W:=W) is_T not_T m σ = ((v, err), σ') →
  (err = None ∧ ∃ r, v = Some r ∧ is_T r = true) ∨ (is_Some err ∧ v = None).
Proof.
  unfold typed, bind, ret. destruct (m σ) as [[[r|] [e|]] σ1]; try (intros [= <- <- <-]; right; by eauto).
  destruct (is_T r) eqn:E; intros [= <- <- <-]; [left | right]; eauto.
Qed.

(** Two clients that answer the requests in a namespace in the same way. *)
Definition agree_in (ns : string) (c1 c2 : WholeClient W WatchOptions RouteOptions Watching) : Prop :=
  let a := wc_client c1 in let b := wc_client c2 in
  (∀ name, let id := mkIdentifier ns name in
     cl_Get a id ≡M cl_Get b id ∧ (∀ obj o, cl_Create a id obj o ≡M cl_Create b id obj o) ∧
     (∀ obj o, cl_Update a id obj o ≡M cl_Update b id obj o) ∧ (∀ p o, cl_Patch a id p o ≡M cl_Patch b id p o) ∧
     (∀ o, cl_Delete a id o ≡M cl_Delete b id o) ∧
     ∀ o, wc_SubresourceRequest c1 id o ≡M wc_SubresourceRequest c2 id o) ∧
  (∀ o, cl_List a ns o ≡M cl_List b ns o) ∧ ∀ o, wc_Watch c1 ns o ≡M wc_Watch c2 ns o.

Lemma set_namespace_gvk (c : NClient) r send1 send2 :
  (∀ name, send1 (in_namespace c name) ≡M send2 (in_namespace c name)) →
  set_namespace c (Some r) (with_gvk is_T not_T (nc_cli c) (Some r) send1) ≡M
  set_namespace c (Some r) (with_gvk is_T not_T (nc_cli c) (Some r) send2).
Proof.
  intros H σ. unfold set_namespace, with_gvk, calls, bind, update_ref, modify, gets. rewrite !deref_store_eq.
  unfold with_kind, with_namespace, with_StaticMetadata. destruct (tc_gvk (nc_cli c)) as [[g v] k]. simpl.
  unfold StaticMetadata_Identifier. simpl. pose proof (typed_proper _ _ (H (sm_Name (GetStaticMetadata (deref r σ))))) as Ht.
  unfold in_namespace in Ht. by rewrite Ht.
Qed.

(** C15: A namespaced client makes requests in its namespace only, whatever the namespace of
    the objects it is given: two clients that answer the requests in the namespace alike
    cannot be told apart through it. *)
Theorem NamespacedClient_confined gvk (c1 c2 : WholeClient W WatchOptions RouteOptions Watching) ns :
  agree_in ns c1 c2 →
  let n1 := NewNamespaced (NewTypedClient c1 gvk) ns in let n2 := NewNamespaced (NewTypedClient c2 gvk) ns in
  (∀ o, NamespacedClient_List is_L not_L n1 o ≡M NamespacedClient_List is_L not_L n2 o) ∧
  (∀ o, NamespacedClient_Watch n1 o ≡M NamespacedClient_Watch n2 o) ∧
  (∀ uid, NamespacedClient_Get is_T not_T n1 uid ≡M NamespacedClient_Get is_T not_T n2 uid) ∧
  (∀ obj o, NamespacedClient_Create is_T not_T n1 obj o ≡M NamespacedClient_Create is_T not_T n2 obj o) ∧
  (∀ obj o, NamespacedClient_Update is_T not_T n1 obj o ≡M NamespacedClient_Update is_T not_T n2 obj o) ∧
  (∀ uid p o, NamespacedClient_Patch is_T not_T n1 uid p o ≡M NamespacedClient_Patch is_T not_T n2 uid p o) ∧
  (∀ uid o, NamespacedClient_Delete n1 uid o ≡M NamespacedClient_Delete n2 uid o) ∧
  ∀ uid o, NamespacedClient_SubresourceRequest n1 uid o ≡M NamespacedClient_SubresourceRequest n2 uid o.
Proof.
  intros (Hid & Hl & Hw) n1 n2. split_and!.
  - intros o σ. unfold NamespacedClient_List, TypedClient_List. apply bind_proper; [apply Hl | by intros r].
  - intros o. apply Hw.
  - intros uid. apply typed_proper, Hid.
  - intros [r|] o; [|done]. apply (set_namespace_gvk n1 r _ (λ id, cl_Create (wc_client c2) id (Some r) o)).
    intros name. apply Hid.
  - intros [r|] o; [|done]. apply (set_namespace_gvk n1 r _ (λ id, cl_Update (wc_client c2) id (Some r) o)).
    intros name. apply Hid.
  - intros uid p o. apply typed_proper, Hid.
  - intros uid o. apply Hid.
  - intros uid o. apply Hid.
Qed.

(** What is sent for an object that is created: the object itself, with the kind of the client
    and in its namespace, under its name there. *)
Lemma NamespacedClient_Create_sends (c : NClient) r o σ :
  let '(g, v, k) := tc_gvk (nc_cli c) in let name := GetName (deref r σ) in
  ∃ σ1, deref r σ1 = with_StaticMetadata (mkStaticMetadata g v k (nc_namespace c) name) (deref r σ) ∧
    (∀ r', r' ≠ r → deref r' σ1 = deref r' σ) ∧
    NamespacedClient_Create is_T not_T c (Some r) o σ =
      calls (typed is_T not_T (cl_Create (under c) (mkIdentifier (nc_namespace c) name) (Some r) o)) σ1.
Proof.
  destruct (tc_gvk (nc_cli c)) as [[g v] k] eqn:Eg. cbv zeta.
  exists (store r (with_kind (g, v, k) (with_namespace (nc_namespace c) (deref r σ)))
           (store r (with_namespace (nc_namespace c) (deref r σ)) σ)).
  split; [by rewrite deref_store_eq|]. split; [intros r' Hr; by rewrite !deref_store_ne by done|].
  unfold NamespacedClient_Create, set_namespace, TypedClient_Create, with_gvk, calls, bind, update_ref, modify, gets.
  rewrite Eg, !deref_store_eq. reflexivity.
Qed.
End Properties.

(** ** Instances for the witnesses *)

(** A client that notes its requests, and refuses those outside the namespace if it is told
    to. *)
Definition noting (guarded : bool) (ns what : string) {A} (ok refused : A) : M TestWorld A := λ σ,
  if guarded && negb (String.eqb ns "ns") then (refused, σ) else (ok, note (what +:+ " " +:+ ns) σ).

Definition refusal : GoError := ErrorString "forbidden".
Definition answer_obj (guarded : bool) (id : Identifier) (what : string) : M TestWorld (Obj * option GoError) :=
  noting guarded (id_Namespace id) (what +:+ " " +:+ id_Name id) (Some 0%nat, None) (None, Some refusal).
Definition answer_err (guarded : bool) (id : Identifier) (what : string) : M TestWorld (option GoError) :=
  noting guarded (id_Namespace id) (what +:+ " " +:+ id_Name id) None (Some refusal).

Definition test_whole (guarded : bool) : WholeClient TestWorld unit unit unit :=
  mkWholeClient
    (mkClient (λ id, answer_obj guarded id "get") (λ id _, answer_err guarded id "get")
       (λ id _ _, answer_obj guarded id "create") (λ id _ _ _, answer_err guarded id "create")
       (λ id _ _, answer_obj guarded id "update") (λ id _ _ _, answer_err guarded id "update")
       (λ id _ _, answer_obj guarded id "patch") (λ id _ _ _, answer_err guarded id "patch")
       (λ id _, answer_err guarded id "delete")
       (λ ns _, noting guarded ns "list" (inl empty_list) (inr refusal))
       (λ ns _, noting guarded ns "list" (empty_list, None) (empty_list, Some refusal)))
    (λ ns _, noting guarded ns "watch" (tt, None) (tt, Some refusal))
    (λ id _, noting guarded (id_Namespace id) "route" ("", None) ("", Some refusal)).

Lemma NamespacedClient_confined_witness :
  let client guarded := NewNamespaced (NewTypedClient (test_whole guarded) ("g", "v1", "Foo")) "ns" in
  let create guarded := NamespacedClient_Create (λ _, true) (λ _, refusal) (client guarded) (Some 1%nat) CreateOptions_zero in
  create false (note "" update_world) = create true (note "" update_world) ∧
  tw_log (create true update_world).2 = ["create a ns"].
Proof.
  split; [|vm_compute; reflexivity].
  destruct (NamespacedClient_confined (λ _, true) (λ _, true) (λ _, refusal) (λ _, refusal) ("g", "v1", "Foo")
    (test_whole false) (test_whole true) "ns") as (_ & _ & _ & H & _).
  - split; [intros name; split_and!; reflexivity | split; reflexivity].
  - apply H.
Defined.
