(* ===== verification/SimpleStore.v ===== *)
(** * The simple store ([resource/simplestore.go])

    A key-value store for the specs of a kind, over a client.  Its objects are
    [TypedObject]s whose catalog of subresources is a map, which are values here: the
    metadata of an object that is read is shared with the one that is sent, and neither is
    used again.  Objects of other types, which a client may return, are any
    [ResourceObject]. *)
From S2P Require Import Prelude GoValues GoTime Resource Client ObjectMeta Objects.

#[local] Open Scope string_scope.
#[local] Open Scope list_scope.

(** ** Options *)

(** [ObjectMetadataOption] *)
Definition ObjectMetadataOption : Type := ObjectMeta → ObjectMeta.

Definition with_labels (l : gmap string string) (om : ObjectMeta) : ObjectMeta :=
  mkObjectMeta (om_Name om) (om_GenerateName om) (om_Namespace om) (om_SelfLink om) (om_UID om)
    (om_ResourceVersion om) (om_Generation om) (om_CreationTimestamp om) (om_DeletionTimestamp om)
    (om_DeletionGracePeriodSeconds om) l (om_Annotations om) (om_OwnerReferences om) (om_Finalizers om)
    (om_ManagedFields om).

Definition WithLabels (labels : gmap string string) : ObjectMetadataOption := with_labels labels.
Definition WithLabel (key value : string) : ObjectMetadataOption := λ om, with_labels (<[key := value]> (om_Labels om)) om.
Definition WithResourceVersion (resourceVersion : string) : ObjectMetadataOption := λ om,
  mkObjectMeta (om_Name om) (om_GenerateName om) (om_Namespace om) (om_SelfLink om) (om_UID om)
    resourceVersion (om_Generation om) (om_CreationTimestamp om) (om_DeletionTimestamp om)
    (om_DeletionGracePeriodSeconds om) (om_Labels om) (om_Annotations om) (om_OwnerReferences om) (om_Finalizers om)
    (om_ManagedFields om).

(** The options in order. *)
Definition apply_options (opts : list ObjectMetadataOption) (om : ObjectMeta) : ObjectMeta :=
  foldl (λ om opt, opt om) om opts.

(** ** Objects *)

(** [TypedObject[T, MapSubresourceCatalog]] *)
Record SimpleObject (T V : Type) := mkSimpleObject {
  so_TypeMeta : TypeMeta;
  so_ObjectMeta : ObjectMeta;
  so_Spec : T;
  so_Subresources : nmap V;
}.
Arguments mkSimpleObject {T V}.
Arguments so_TypeMeta {T V}.
Arguments so_ObjectMeta {T V}.
Arguments so_Spec {T V}.
Arguments so_Subresources {T V}.

(** What a client returns: an object of the store's type, or another. *)
Inductive Returned_ (T V O : Type) := Ours (o : SimpleObject T V) | Another (o : O).
Arguments Ours {T V O}.
Arguments Another {T V O}.

Section SimpleStore.
Context {W T V O : Type} `{WW : !World W, RO : !ResourceObject O V, AT : !AnyOf V T, JT : !JSONType T}.
Context `{GT : !GVKText, LT : !LenientTime}.

Abbreviation SObject := (SimpleObject T V).
Abbreviation Got := (Returned_ T V O).

(** The client, by the methods that are called. *)
Record SimpleClient := mkSimpleClient {
  sc_List : string → ListOptions → M W (list Got + GoError);
  sc_Get : Identifier → M W (Got + GoError);
  sc_Create : Identifier → SObject → CreateOptions → M W (Got + GoError);
  sc_Update : Identifier → SObject → UpdateOptions → M W (Got + GoError);
  sc_Delete : Identifier → DeleteOptions → M W (option GoError);
}.

(** [NewSimpleStore]: the comparison of the types, with their text, and the generator. *)
Definition NewSimpleStore (same_type : bool) (spec_type kind_type : string) (gen : M W (SimpleClient + GoError))
  : M W (SimpleClient + GoError) :=
  if negb same_type then
    ret (inr (ErrorString ("SpecType '" +:+ spec_type +:+
      "' does not match underlying schema.ZeroValue().SpecObject() type '" +:+ kind_type +:+ "'")))
  else
    let* c := gen in
    ret match c with inr err => inr (WrapError "error getting client from generator: " err) | inl c => inl c end.

(** [cast] *)
Definition not_castable : GoError := ErrorString "returned object could not be cast to store's type".
Definition cast (obj : Got) : called (SObject + GoError) :=
  match obj with
  | Ours o => Returned (inl o)
  | Another o =>
      match as_any (ro_GetSpec o) with
      | None => Returned (inr not_castable)
      | Some spec =>
          let '(apiVersion, kind) := ToAPIVersionAndKind (TypeMeta_GroupVersionKind (ro_TypeMeta o)) in
          match ro_GetSubresources o with
          | Panics => Panics
          | Returned subs => Returned (inl (mkSimpleObject (mkTypeMeta kind apiVersion) (ro_ObjectMeta o) spec subs))
          end
      end
  end.

Definition cast_result (m : M W (Got + GoError)) : MP W (SObject + GoError) :=
  let* r := m in
  ret match r with inr err => Returned (inr err) | inl obj => cast obj end.

(** The loop over the items of a list. *)
Fixpoint cast_all (l : list Got) : called (list SObject + GoError) :=
  match l with
  | [] => Returned (inl [])
  | x :: l =>
      match cast x with
      | Panics => Panics
      | Returned (inr err) => Returned (inr err)
      | Returned (inl o) =>
          match cast_all l with
          | Returned (inl os) => Returned (inl (o :: os))
          | r => r
          end
      end
  end.

Context (client : SimpleClient).

Definition ListWithFiltersAndSelectors (namespace : string) (filters fieldSelectors : list string)
  : MP W (list SObject + GoError) :=
  let* r := sc_List client namespace (mkListOptions "" filters fieldSelectors 0 "") in
  ret match r with inr err => Returned (inr err) | inl items => cast_all items end.

Definition SimpleStore_List (namespace : string) : MP W (list SObject + GoError) :=
  ListWithFiltersAndSelectors namespace [] [].

Definition SimpleStore_Get (identifier : Identifier) : MP W (SObject + GoError) := cast_result (sc_Get client identifier).

Definition SimpleStore_Add (identifier : Identifier) (obj : T) (opts : list ObjectMetadataOption)
  : MP W (SObject + GoError) :=
  cast_result (sc_Create client identifier
    (mkSimpleObject zero_TypeMeta (apply_options opts zero_ObjectMeta) obj None) CreateOptions_zero).

(** The time of the update, in the metadata. *)
Definition stamp (t : Z) (om : ObjectMeta) : ObjectMeta :=
  let m := get_common om in
  set_common (mkCommonMetadata (cm_UID m) (cm_ResourceVersion m) (cm_Generation m) (cm_Labels m)
                (cm_CreationTimestamp m) (cm_DeletionTimestamp m) (cm_Finalizers m) t (cm_CreatedBy m) (cm_UpdatedBy m)
                (cm_ExtraFields m)) om.

Definition SimpleStore_Update (identifier : Identifier) (obj : T) (opts : list ObjectMetadataOption)
  : MP W (SObject + GoError) :=
  let! current := SimpleStore_Get identifier in
  match current with
  | inr err => returns (inr err)
  | inl current =>
      let om := apply_options opts (so_ObjectMeta current) in
      let updateOptions := if negb (String.eqb (om_ResourceVersion om) "")
                           then mkUpdateOptions (om_ResourceVersion om) "" false else UpdateOptions_zero in
      let* now := Now in
      cast_result (sc_Update client identifier (mkSimpleObject (so_TypeMeta current) (stamp now om) obj None) updateOptions)
  end.

Definition SimpleStore_UpdateSubresource (identifier : Identifier) (subresource : string) (obj : V)
  : MP W (SObject + GoError) :=
  if String.eqb subresource "" then returns (inr (ErrorString "subresource may not be empty"))
  else
    cast_result (sc_Update client identifier
      (mkSimpleObject zero_TypeMeta zero_ObjectMeta zero_value (Some {[ subresource := obj ]}))
      (mkUpdateOptions "" subresource false)).

Definition SimpleStore_Delete (identifier : Identifier) : M W (option GoError) :=
  sc_Delete client identifier DeleteOptions_zero.

(** ** What is sent *)
Lemma set_annotation_own k (a : gmap string string) : set_annotation k (default "" (a !! k)) a = a.
Proof.
  unfold set_annotation. destruct (a !! k) as [v|] eqn:E; simpl; [|done]. case_match; [done|]. by apply insert_id.
Qed.

(** The annotations with the time of an update. *)
Definition stamped (t : Z) (om : ObjectMeta) : ObjectMeta :=
  mkObjectMeta (om_Name om) (om_GenerateName om) (om_Namespace om) (om_SelfLink om) (om_UID om)
    (om_ResourceVersion om) (om_Generation om) (om_CreationTimestamp om) (om_DeletionTimestamp om)
    (om_DeletionGracePeriodSeconds om) (om_Labels om) (<[AnnotationUpdateTimestamp := Format t]> (om_Annotations om))
    (om_OwnerReferences om) (om_Finalizers om) (om_ManagedFields om).

(** Reading the common metadata, changing its time and writing it changes one annotation. *)
Lemma stamp_exact t om : t ≠ 0%Z → stamp t om = stamped t om.
Proof.
  intros Ht. unfold stamp, set_common, get_common, stamped. cbn. f_equal. unfold common_annotations. cbn.
  rewrite (proj2 (Z.eqb_neq t 0)) by done. set (a := <[AnnotationUpdateTimestamp := Format t]> (om_Annotations om)).
  assert (Ha : ∀ k, AnnotationUpdateTimestamp ≠ k → om_Annotations om !! k = a !! k)
    by (intros k Hk; unfold a; by rewrite lookup_insert_ne).
  rewrite (Ha AnnotationCreatedBy), (Ha AnnotationUpdatedBy), set_annotation_own by done. apply set_annotation_own.
Qed.

(** An object that is cast has the spec, metadata and subresources of the one it is made
    from, and keeps its kind. *)
Lemma cast_keeps (o : O) so : cast (Another o) = Returned (inl so) →
  as_any (ro_GetSpec o) = Some (so_Spec so) ∧ so_ObjectMeta so = ro_ObjectMeta o ∧
  ro_GetSubresources o = Returned (so_Subresources so) ∧
  (∀ g v k, TypeMeta_GroupVersionKind (ro_TypeMeta o) = (g, v, k) → free_of "/" g = true → free_of "/" v = true → v ≠ "" →
     TypeMeta_GroupVersionKind (so_TypeMeta so) = (g, v, k)).
Proof.
  unfold cast. destruct (as_any _) as [spec|]; [|done].
  destruct (ToAPIVersionAndKind _) as [apiVersion kind] eqn:E. destruct (ro_GetSubresources o) as [subs|]; [|done].
  intros [= <-]. split_and!; [done..|]. intros g v k Eg Hg Hv Hne. rewrite Eg in E.
  pose proof (From_To g v k Hg Hv Hne) as H. rewrite E in H. exact H.
Qed.

(** An update sends the object that was read with the new spec, its metadata as the
    options leave it, stamped with the time of the update, and always with the resource
    version of that metadata: the one that was read, unless an option gives another. *)
Theorem SimpleStore_Update_sends id obj opts σ stored σ1 cur t σ2 :
  sc_Get client id σ = (inl stored, σ1) → cast stored = Returned (inl cur) → Now σ1 = (t, σ2) → t ≠ 0%Z →
  let om := apply_options opts (so_ObjectMeta cur) in
  SimpleStore_Update id obj opts σ =
    cast_result (sc_Update client id (mkSimpleObject (so_TypeMeta cur) (stamped t om) obj None)
      (mkUpdateOptions (om_ResourceVersion om) "" false)) σ2.
Proof.
  intros Eg Ec En Ht om. unfold SimpleStore_Update, SimpleStore_Get.
  assert (E : cast_result (sc_Get client id) σ = (Returned (inl cur), σ1)).
  { unfold cast_result, bind, ret. by rewrite Eg, Ec. }
  rewrite (returns_run _ _ _ _ _ E). cbv beta iota. rewrite (bind_run _ _ _ _ _ En). fold om. rewrite stamp_exact by done.
  by destruct (String.eqb_spec (om_ResourceVersion om) "") as [->|].
Qed.

(** The update of a subresource carries no version, so it overwrites whatever is there, and
    no option can give it one. *)
Lemma SimpleStore_UpdateSubresource_sends id sr obj : sr ≠ "" →
  SimpleStore_UpdateSubresource id sr obj =
    cast_result (sc_Update client id (mkSimpleObject zero_TypeMeta zero_ObjectMeta zero_value (Some {[ sr := obj ]}))
      (mkUpdateOptions "" sr false)).
Proof. intros Hs. unfold SimpleStore_UpdateSubresource. by destruct (String.eqb_spec sr ""). Qed.

(** A list is returned whole, in order, or not at all. *)
Lemma cast_all_ok l os : cast_all l = Returned (inl os) → Forall2 (λ x o, cast x = Returned (inl o)) l os.
Proof.
  revert os. induction l as [|x l IH]; intros os; simpl; [intros [= <-]; constructor|].
  destruct (cast x) as [[o|]|] eqn:E; [|done..]. destruct (cast_all l) as [[os'|]|]; [|done..].
  intros [= <-]. constructor; [done | by apply IH].
Qed.
End SimpleStore.
