(* ===== verification/Negotiator.v ===== *)
(** * Serializers of the REST clients ([k8s/negotiator.go], [wrappers.go])

    [GenericJSONDecoder], which finds out from a document what it is and wraps what it does
    not know, and [CodecDecoder], which reads the objects of a kind by the codec of an
    encoding.  Objects are values; the reading and writing of JSON and of codecs are
    arguments, what a decoder does with them is modelled. *)
From S2P Require Import Prelude GoValues Resource KubeErrors.

#[local] Open Scope string_scope.
#[local] Open Scope list_scope.

(** ** Objects *)

(** [metav1.WatchEvent]: its type, and the text of its object. *)
Record KubeWatchEvent := mkKubeWatchEvent { kwe_Type : string; kwe_Object : string }.

(** [UntypedObjectWrapper]: its type and metadata as read, and its bytes. *)
Record UntypedObjectWrapper (Meta : Type) := mkUntypedObjectWrapper { uw_Meta : Meta; uw_object : string }.
Arguments mkUntypedObjectWrapper {Meta}.
Arguments uw_Meta {Meta}.
Arguments uw_object {Meta}.

(** A [runtime.Object], by the types that the decoders tell apart: [resource.Object],
    [resource.ListObject], the three of [metav1], a wrapper, and others. *)
Inductive AnyObject (O L Meta X : Type) :=
| AnObj (o : O)
| AList (l : L)
| AWatchEvent (e : KubeWatchEvent)
| AMetaList (l : X)
| AStatus (s : Status)
| AWrapper (w : UntypedObjectWrapper Meta)
| AnOther (x : X).
Arguments AnObj {O L Meta X}.
Arguments AList {O L Meta X}.
Arguments AWatchEvent {O L Meta X}.
Arguments AMetaList {O L Meta X}.
Arguments AStatus {O L Meta X}.
Arguments AWrapper {O L Meta X}.
Arguments AnOther {O L Meta X}.

(** [objCheck], whether it has items; [indicator]. *)
Record objCheck := mkObjCheck { ck_APIVersion : string; ck_Kind : string; ck_Type : string; ck_Items : bool }.
Record indicator := mkIndicator { in_GVK : string * string * string; in_Items : bool }.

(** [resource.Codec]: what is read into an object, and what is written. *)
Record ObjCodec (O : Type) := mkObjCodec {
  oc_Read : string → O → O * option GoError;
  oc_Write : O → string + GoError;
}.
Arguments mkObjCodec {O}.
Arguments oc_Read {O}.
Arguments oc_Write {O}.

Section Decoders.
Context {O L Meta X : Type} `{RG : !RangeOrder}.
Abbreviation Object_ := (AnyObject O L Meta X).

(** [json.Unmarshal]: into an [objCheck], and into an object, which stays of its type. *)
Context (unmarshal_check : string → objCheck + GoError) (unmarshal_into : string → Object_ → Object_ * option GoError).
Context (marshal : Object_ → string + GoError).

Definition zero_WatchEvent : KubeWatchEvent := mkKubeWatchEvent "" "".
Definition zero_Status : Status := mkStatus 0 "" "".
Context (zero_Meta : Meta).

(** The text of the types in the error of a cast. *)
Context (type_text : option Object_ → string).

(** [unmarshalWithDefault], for a type given by its test and its zero value; the second
    object is the one that was passed, which may be changed. *)
Definition unmarshalWithDefault (is_T : Object_ → bool) (zero : Object_) (data : string) (obj : option Object_)
  : (Object_ + GoError) * option Object_ :=
  match obj with
  | Some o =>
      if negb (is_T o) then
        (inr (ErrorString ("unable to cast " +:+ type_text obj +:+ " into " +:+ type_text (Some zero))), obj)
      else
        let '(o, err) := unmarshal_into data o in
        (match err with Some e => inr e | None => inl o end, Some o)
  | None =>
      let '(o, err) := unmarshal_into data zero in
      (match err with Some e => inr e | None => inl o end, None)
  end.

Definition is_watch_event (o : Object_) : bool := match o with AWatchEvent _ => true | _ => false end.
Definition is_status (o : Object_) : bool := match o with AStatus _ => true | _ => false end.

(** [watch.EventType] *)
Definition known_event (type : string) : bool :=
  existsb (String.eqb type) ["ERROR"; "ADDED"; "MODIFIED"; "DELETED"; "BOOKMARK"].

Definition event_type (o : Object_) : string := match o with AWatchEvent e => kwe_Type e | _ => "" end.

(** The result of a decoder: the object, the defaults and the error. *)
Abbreviation Decoded := (option Object_ * option (string * string * string) * option GoError)%type.

(** [GenericJSONDecoder.Decode] *)
Definition Generic_Decode (data : string) (defaults : option (string * string * string)) (into : option Object_) : Decoded :=
  match unmarshal_check data with
  | inr err => (into, defaults, Some (WrapError "error unmarshalling into objCheck: " err))
  | inl chk =>
      if negb (String.eqb (ck_Type chk) "") then
        let '(r, into) := unmarshalWithDefault is_watch_event (AWatchEvent zero_WatchEvent) data into in
        match r with
        | inr err => (into, defaults, Some err)
        | inl obj =>
            if known_event (event_type obj) then (Some obj, defaults, None)
            else (into, defaults, Some (ErrorString ("unknown watch event type: " +:+ event_type obj)))
        end
      else if String.eqb (ck_APIVersion chk) StatusAPIVersion && String.eqb (ck_Kind chk) StatusKind then
        let '(r, into) := unmarshalWithDefault is_status (AStatus zero_Status) data into in
        match r with
        | inr err => (into, defaults, Some err)
        | inl obj => (Some obj, defaults, None)
        end
      else
        match into with
        | Some o => let '(o, err) := unmarshal_into data o in (Some o, defaults, err)
        | None =>
            if ck_Items chk then (None, None, Some (ErrorString "unsupported list object"))
            else if negb (String.eqb (ck_Kind chk) "") then
              match unmarshal_into data (AWrapper (mkUntypedObjectWrapper zero_Meta "")) with
              | (_, Some err) => (None, defaults, Some (WrapError "error unmarshalling into *k8s.UntypedObjectWrapper: " err))
              | (AWrapper o, None) => (Some (AWrapper (mkUntypedObjectWrapper (uw_Meta o) data)), defaults, None)
              | (o, None) => (Some o, defaults, None)
              end
            else (None, defaults, None)
        end
  end.

(** [GenericJSONDecoder.Encode]: what is written. *)
Definition Generic_Encode (obj : Object_) : string + GoError := marshal obj.

(** [UntypedObjectWrapper.Into] *)
Definition UntypedObjectWrapper_Into (w : UntypedObjectWrapper Meta) (into : O) (codec : ObjCodec O) : O * option GoError :=
  oc_Read codec (uw_object w) into.

(** ** [CodecDecoder] *)

(** The samples may be nil, and so may the decoder. *)
Record CodecDecoder := mkCodecDecoder {
  cd_SampleObject : option O;
  cd_SampleList : option L;
  cd_Codec : ObjCodec O;
  cd_Decoder : option (string → Object_ → Object_ * option GoError);
}.

(** A [runtime.SerializerInfo], whether it has a serializer of streams. *)
Record SerializerInfo := mkSerializerInfo { si_MediaType : string; si_Serializer : CodecDecoder; si_Stream : bool }.

Definition EncodingJSON : string := "application/json".

(** [KindNegotiatedSerializer.SupportedMediaTypes] *)
Definition SupportedMediaTypes (zero : O) (zero_list : L) (codecs : gmap string (ObjCodec O)) : list SerializerInfo :=
  (λ '(encoding, codec),
     let json := String.eqb encoding EncodingJSON in
     mkSerializerInfo encoding
       (mkCodecDecoder (Some zero) (Some zero_list) codec (if json then Some unmarshal_into else None)) json) <$>
  range_map codecs.

(** [Copy] of the samples; an untyped object and an empty list of them; [c.Decoder] into an
    [indicator]. *)
Context (copy_object : O → O) (copy_list : L → L) (untyped_object : O) (untyped_list : L).
Context (read_indicator : string → indicator + GoError).

(** [c.Decoder(data, o)], which panics when it is nil. *)
Definition decoder_call (c : CodecDecoder) (data : string) (o : Object_) : called (Object_ * option GoError) :=
  match cd_Decoder c with Some f => Returned (f data o) | None => Panics end.

Definition decode_new (c : CodecDecoder) (data : string) (defaults : option (string * string * string)) (o : Object_)
  : called Decoded :=
  match decoder_call c data o with
  | Panics => Panics
  | Returned (o, err) => Returned (Some o, defaults, err)
  end.

Definition is_status_gvk (gvk : string * string * string) : bool :=
  let '(_, v, k) := gvk in String.eqb k "Status" && String.eqb v "v1".

(** [CodecDecoder.Decode] *)
Definition Codec_Decode (c : CodecDecoder) (data : string) (defaults : option (string * string * string))
    (into : option Object_) : called Decoded :=
  match into with
  | Some (AnObj o) => let '(o, err) := oc_Read (cd_Codec c) data o in Returned (Some (AnObj o), defaults, err)
  | Some o => decode_new c data defaults o
  | None =>
      if match defaults with Some gvk => is_status_gvk gvk | None => false end
      then decode_new c data defaults (AStatus zero_Status)
      else
        match cd_Decoder c with
        | None => Panics
        | Some _ =>
            match read_indicator data with
            | inr err => Returned (None, None, Some (WrapError "error decoding object TypeMeta: " err))
            | inl tm =>
                if is_status_gvk (in_GVK tm) then decode_new c data defaults (AStatus zero_Status)
                else if in_Items tm then
                  decode_new c data defaults
                    (AList match cd_SampleList c with Some l => copy_list l | None => untyped_list end)
                else
                  let o := match cd_SampleObject c with Some o => copy_object o | None => untyped_object end in
                  let '(o, err) := oc_Read (cd_Codec c) data o in Returned (Some (AnObj o), defaults, err)
            end
        end
  end.

(** [CodecDecoder.Encode]: what is written. *)
Definition Codec_Encode (c : CodecDecoder) (obj : Object_) : string + GoError :=
  match obj with
  | AnObj o => oc_Write (cd_Codec c) o
  | _ => inr (ErrorString "provided object is not a resource.Object")
  end.

(** ** What is decoded *)

(** What the generic decoder makes of a document for which no object is given: a watch
    event when it has a type, a status when it says so, nothing for a list or when it has no
    kind, and otherwise a wrapper of the very bytes, from which a codec reads the object. *)
Theorem Generic_Decode_kinds data defaults chk :
  (∀ d w, ∃ w' err, unmarshal_into d (AWrapper w) = (AWrapper w', err)) →
  unmarshal_check data = inl chk →
  let '(o, _, err) := Generic_Decode data defaults None in
  if negb (String.eqb (ck_Type chk) "") then o = None ∨ ∃ e, o = Some e ∧ known_event (event_type e) = true ∧ err = None
  else if String.eqb (ck_APIVersion chk) "v1" && String.eqb (ck_Kind chk) "Status" then
    (o, err) = let '(s, err) := unmarshal_into data (AStatus zero_Status) in
               (match err with None => Some s | Some _ => None end, err)
  else if ck_Items chk || String.eqb (ck_Kind chk) "" then o = None ∧ (err = None ↔ ck_Items chk = false)
  else (o = None ∧ is_Some err) ∨
       (err = None ∧ ∃ w, o = Some (AWrapper w) ∧
          ∀ into codec, UntypedObjectWrapper_Into w into codec = oc_Read codec data into).
Proof.
  intros Hw E. unfold Generic_Decode, unmarshalWithDefault, StatusAPIVersion, StatusKind. rewrite E.
  destruct (String.eqb (ck_Type chk) ""); simpl.
  2:{ destruct (unmarshal_into data _) as [o [err|]]; [by left|]. destruct (known_event (event_type o)) eqn:Ek; [|by left].
      right. by exists o. }
  destruct (_ && _); [by destruct (unmarshal_into data (AStatus _)) as [o [err|]]|].
  destruct (ck_Items chk); simpl; [done|]. destruct (String.eqb (ck_Kind chk) ""); simpl; [done|].
  destruct (Hw data (mkUntypedObjectWrapper zero_Meta "")) as (w & [err|] & ->).
  - left. split; [done | by eexists].
  - right. split; [done|]. eexists. split; [reflexivity|]. done.
Qed.

(** What the codec of a kind writes is read back by it, whether an object is given or
    not, as long as the document does not look like a list or like a status of version v1. *)
Theorem Codec_round_trip c o data tm defaults :
  Codec_Encode c (AnObj o) = inl data → is_Some (cd_Decoder c) →
  read_indicator data = inl tm → is_status_gvk (in_GVK tm) = false → in_Items tm = false →
  match defaults with Some gvk => is_status_gvk gvk | None => false end = false →
  (∀ o data, oc_Write (cd_Codec c) o = inl data → ∀ into, oc_Read (cd_Codec c) data into = (o, None)) →
  Codec_Decode c data defaults None = Returned (Some (AnObj o), defaults, None) ∧
  ∀ into, Codec_Decode c data defaults (Some (AnObj into)) = Returned (Some (AnObj o), defaults, None).
Proof.
  intros Hw [f Hf] Ei Hs Hl Hd Hr. pose proof (Hr o data Hw) as Ho. split; [|intros into; simpl; by rewrite Ho].
  unfold Codec_Decode. by rewrite Hd, Hf, Ei, Hs, Hl, Ho.
Qed.

(** The decoder of an encoding other than JSON has no function to look at a document with:
    it panics unless it is given an object. *)
Lemma other_encoding_panics zero zero_list codecs info data defaults :
  info ∈ SupportedMediaTypes zero zero_list codecs → si_MediaType info ≠ EncodingJSON →
  Codec_Decode (si_Serializer info) data defaults None = Panics ∧
  ∀ l, Codec_Decode (si_Serializer info) data defaults (Some (AList l)) = Panics.
Proof.
  intros Hi Hne. unfold SupportedMediaTypes in Hi. apply list_elem_of_fmap in Hi as ([encoding codec] & -> & _).
  simpl in *. apply String.eqb_neq in Hne. rewrite Hne. split; [|done].
  unfold Codec_Decode, decode_new, decoder_call. simpl. by case_match.
Qed.

(** A list whose items are null is taken for an object of the kind, and so is not read as a
    list. *)
Lemma null_items_object c data defaults gvk o err :
  is_Some (cd_Decoder c) → read_indicator data = inl (mkIndicator gvk false) → is_status_gvk gvk = false →
  match defaults with Some gvk => is_status_gvk gvk | None => false end = false →
  oc_Read (cd_Codec c) data (match cd_SampleObject c with Some o => copy_object o | None => untyped_object end) = (o, err) →
  Codec_Decode c data defaults None = Returned (Some (AnObj o), defaults, err).
Proof.
  intros [f Hf] Ei Hs Hd Hr. unfold Codec_Decode. rewrite Hd, Hf, Ei. cbn [in_GVK in_Items]. by rewrite Hs, Hr.
Qed.

(** An object of any kind that has a field [type] is taken for a watch event. *)
Lemma typed_objects_refused data defaults chk o o' :
  unmarshal_check data = inl chk → ck_Type chk ≠ "" → is_watch_event o = false →
  Generic_Decode data defaults (Some o) =
    (Some o, defaults, Some (ErrorString ("unable to cast " +:+ type_text (Some o) +:+ " into " +:+
                                          type_text (Some (AWatchEvent zero_WatchEvent))))) ∧
  (unmarshal_into data (AWatchEvent zero_WatchEvent) = (o', None) → known_event (event_type o') = false →
   Generic_Decode data defaults None = (None, defaults, Some (ErrorString ("unknown watch event type: " +:+ event_type o')))).
Proof.
  intros E Ht Hw. unfold Generic_Decode, unmarshalWithDefault. rewrite E. apply String.eqb_neq in Ht. rewrite Ht, Hw. simpl.
  split; [done|]. intros ->. by intros ->.
Qed.

(** A status is recognized by version and kind alone: an object of a kind [Status] of any
    group is read as a [metav1.Status]. *)
Lemma status_of_any_group c f data defaults g :
  cd_Decoder c = Some f → read_indicator data = inl (mkIndicator (g, "v1", "Status") false) →
  match defaults with Some gvk => is_status_gvk gvk | None => false end = false →
  Codec_Decode c data defaults None = let '(o, err) := f data (AStatus zero_Status) in Returned (Some o, defaults, err).
Proof. intros Hf Ei Hd. unfold Codec_Decode, decode_new, decoder_call. by rewrite Hd, Hf, Ei. Qed.
End Decoders.
