(* ===== verification/SimpleOperator.v ===== *)
(** * The operators ([operator/operator.go], [simple/operator.go])

    [operator.Operator] runs controllers until one of them fails or the context is cancelled:
    a step relation.  [simple.Operator] wires watchers, reconcilers and admission controllers
    of kinds into an informer controller and a webhook server; the informer controller is a
    state beside the world, clients and informers come from arguments. *)
From S2P Require Import Prelude GoValues Resource ResourceWatcher Schema Client Finalizers Reconciler OpinionatedWatcher Runners InformerController CustomCache Admission Webhooks SimpleApp ListMap.

#[local] Open Scope string_scope.
#[local] Open Scope list_scope.

(** ** [operator.Operator] *)

(** A controller, by what else it is: its collectors, whether it lists health checks, and
    whether it is one. *)
Record OpController := mkOpController {
  ct_Collectors : option (list Collector);
  ct_HealthChecks : option (list nat);
  ct_HealthCheck : option nat;
}.

Record BaseOperator := mkBaseOperator { controllers : list OpController }.
Definition New : BaseOperator := mkBaseOperator [].
Definition AddController (c : OpController) (o : BaseOperator) : BaseOperator := mkBaseOperator (controllers o ++ [c]).

Definition Operator_PrometheusCollectors (o : BaseOperator) : list Collector :=
  controllers o ≫= λ c, default [] (ct_Collectors c).

Definition Operator_HealthChecks (o : BaseOperator) : list nat :=
  controllers o ≫= λ c, default [] (ct_HealthChecks c) ++ match ct_HealthCheck c with Some h => [h] | None => [] end.

(** [Run]: the goroutines of the controllers, the channel of errors, the two contexts, and
    what [Run] has returned. *)
Inductive controller_phase := CRunning | CSending (e : GoError) | CDone.

Record ostate := mkOState {
  os_cs : list controller_phase;
  os_errs : list GoError;
  os_cancelled : bool;
  os_derived : bool;
  os_returned : option (option GoError);
}.

Definition set_c (i : nat) (c : controller_phase) (s : ostate) : ostate :=
  mkOState (<[i := c]> (os_cs s)) (os_errs s) (os_cancelled s) (os_derived s) (os_returned s).

(** The channel holds as many errors as there are controllers. *)
Inductive ostep : ostate → ostate → Prop :=
| o_cancel s : ostep s (mkOState (os_cs s) (os_errs s) true true (os_returned s))
| o_return s i : os_cs s !! i = Some CRunning → ostep s (set_c i CDone s)
| o_fail s i e : os_cs s !! i = Some CRunning → ostep s (set_c i (CSending e) s)
| o_send s i e : os_cs s !! i = Some (CSending e) → (length (os_errs s) < length (os_cs s))%nat →
    ostep s (mkOState (<[i := CDone]> (os_cs s)) (os_errs s ++ [e]) (os_cancelled s) (os_derived s) (os_returned s))
| o_error s e errs : os_returned s = None → os_errs s = e :: errs →
    ostep s (mkOState (os_cs s) errs (os_cancelled s) true (Some (Some e)))
| o_done s : os_returned s = None → os_cancelled s = true →
    ostep s (mkOState (os_cs s) (os_errs s) (os_cancelled s) true (Some None)).

Definition oinit (o : BaseOperator) : ostate :=
  mkOState (replicate (length (controllers o)) CRunning) [] false false None.

(** ** [simple.Operator] *)
Section SimpleOperator.
Context {W Clt : Type} `{WW : !World W, MM : !Memory W, AE : !ApiErrors, KN : !KindNames}.

Record SimpleOperator := mkSimpleOperator {
  sop_Name : string;
  sop_ErrorHandler : option (GoError → M W unit);
  sop_FinalizerGenerator : option (Schema W → string);
  sop_cacheResyncInterval : Z;
}.

(** The state: the webhook server if webhooks are enabled, and the controller and the world. *)
Definition OState : Type := option (WebhookServer W) * CState (W:=W).

Context (op : SimpleOperator).

(** The client of a kind, [NewKubernetesBasedInformer], the patcher of a group and kind, and
    the identity of a wrapper that is made in a state. *)
Context (ClientFor : Kind (W:=W) → M W (Clt + GoError))
        (NewInformer : Kind (W:=W) → Clt → InformerOptions (W:=W) → M W (Informer W + GoError))
        (ForKind : string → string → DynamicKindPatcher W) (new_id : InformerController W → nat).

(** [label] *)
Definition label (sch : Schema W) (options : ListWatchOptions) : string :=
  Group sch +:+ "-" +:+ Kind_ sch +:+ "-" +:+ Version sch +:+ "-" +:+ lw_Namespace options +:+ "-" +:+
  String.concat "," (lw_LabelFilters options) +:+ "-" +:+ String.concat "," (lw_FieldSelectors options).

(** The names of the finalizers. *)
Definition op_finalizer (sch : Schema W) : string :=
  match sop_FinalizerGenerator op with
  | Some f => f sch
  | None =>
      if negb (String.eqb (sop_Name op) "") then sop_Name op +:+ "-" +:+ Plural sch +:+ "-finalizer"
      else Plural sch +:+ "-finalizer"
  end.

Definition op_wip (sch : Schema W) : string :=
  if negb (String.eqb (sop_Name op) "") then sop_Name op +:+ "-" +:+ Plural sch +:+ "-wip" else Plural sch +:+ "-wip".

Definition op_informer_options (options : ListWatchOptions) : InformerOptions (W:=W) :=
  mkInformerOptions options (sop_cacheResyncInterval op) 0 (sop_ErrorHandler op) false false 0 0.

(** The client, the informer and its addition, with which both begin. *)
Definition add_informer (kind : Kind (W:=W)) (options : ListWatchOptions) (kindStr : string)
  : M (CState (W:=W)) (option GoError) :=
  let* client := lift (ClientFor kind) in
  match client with
  | inr err => ret (Some err)
  | inl client =>
      let* inf := lift (NewInformer kind client (op_informer_options options)) in
      match inf with
      | inr err => ret (Some err)
      | inl inf => AddInformer (Some inf) kindStr
      end
  end.

Definition patcher_of (sch : Schema W) : PatchClient W := watchPatcher (ForKind (Group sch) (Kind_ sch)).

(** The [SyncWatcher] in an opinionated watcher. *)
Definition sync_watcher (ow : OpinionatedWatcher W) (w : ResourceWatcher W) (sync : Obj → M W (option GoError))
  : OpinionatedWatcher W :=
  let ow := Wrap ow (Some w) false in
  mkOpinionatedWatcher (AddFunc ow) (UpdateFunc ow) (DeleteFunc ow) (Some sync) (finalizer ow) (addPendingFinalizer ow)
    (schema ow) (collectors ow) (finalizerUpdater ow).

(** [WatchKind]; a kind without a schema panics when its label is made, which is after its
    informer.  The kind is given with its schema. *)
Definition WatchKind (kind : Kind (W:=W)) (sch : Schema W) (w : ResourceWatcher W) (sync : Obj → M W (option GoError))
    (options : ListWatchOptions) : M (CState (W:=W)) (option GoError) :=
  let kindStr := label sch options in
  add_informer kind options kindStr ;;?
  (let* id := gets (λ '(c, _), new_id c) in
   match NewOpinionatedWatcher (Some sch) (Some (patcher_of sch))
           (mkOpinionatedWatcherConfig (Some op_finalizer) (Some op_wip)) with
   | inr err => ret (Some err)
   | inl ow => AddWatcher (Some (id, opinionated_watcher (sync_watcher ow w sync))) kindStr
   end).

(** [ReconcileKind] *)
Definition ReconcileKind (kind : Kind (W:=W)) (sch : Schema W) (r : Reconciler W) (options : ListWatchOptions)
  : M (CState (W:=W)) (option GoError) :=
  let kindStr := label sch options in
  add_informer kind options kindStr ;;?
  (let* id := gets (λ '(c, _), new_id c) in
   match NewOpinionatedReconciler (Some (patcher_of sch)) (op_finalizer sch) with
   | inr err => ret (Some err)
   | inl orr => AddReconciler (Some (id, Reconcile (Reconciler_Wrap orr r))) kindStr
   end).

(** [ValidateKind], [MutateKind], [ConvertKind] *)
Definition webhooks_disabled : GoError := ErrorString "webhooks are not enabled".
Definition on_admission (f : WebhookServer W → called (WebhookServer W)) : MP OState (option GoError) := λ '(ws, σ),
  match ws with
  | None => (Returned (Some webhooks_disabled), (ws, σ))
  | Some s => match f s with Panics => (Panics, (ws, σ)) | Returned s => (Returned None, (Some s, σ)) end
  end.

Definition ValidateKind (kind : Kind (W:=W)) (controller : option (ValidatingAdmissionController W)) : MP OState (option GoError) :=
  on_admission (AddValidatingAdmissionController controller kind).
Definition MutateKind (kind : Kind (W:=W)) (controller : option (MutatingAdmissionController W)) : MP OState (option GoError) :=
  on_admission (AddMutatingAdmissionController controller kind).
Definition ConvertKind (group kind : string) (converter : option (Converter W)) : MP OState (option GoError) :=
  on_admission (λ ws, Returned (AddConverter converter group kind ws)).

(** *** [NewOperator] and [Run] *)

(** [OperatorConfig]; the configuration of the webhooks if they are enabled. *)
Record OperatorConfig := mkOperatorConfig {
  opc_Name : string;
  opc_Webhooks : option (WebhookServerConfig W);
  opc_MetricsEnabled : bool;
  opc_MetricsPort : Z;
  opc_Port : Z;
  opc_TracingEnabled : bool;
  opc_ErrorHandler : option (GoError → M W unit);
  opc_FinalizerGenerator : option (Schema W → string);
  opc_InformerCacheResyncInterval : Z;
  opc_DiscoveryRefreshInterval : Z;
}.

(** The port of the metrics server: the configured one, unless no port is given for the
    operator. *)
Definition metrics_port (cfg : OperatorConfig) : Z := if (opc_Port cfg <=? 0)%Z then 9090 else opc_MetricsPort cfg.

Definition refresh_interval (cfg : OperatorConfig) : Z :=
  if (opc_DiscoveryRefreshInterval cfg =? 0)%Z then 600000000000 else opc_DiscoveryRefreshInterval cfg.

(** The operator with what it is wired to: the webhook server, the controller, the port of
    the metrics server. *)
Record Wired := mkWired {
  wd_operator : SimpleOperator;
  wd_admission : option (WebhookServer W);
  wd_controller : InformerController W;
  wd_metricsPort : Z;
}.

Definition set_handler (h : option (GoError → M W unit)) (c : InformerController W) : InformerController W :=
  mkController h (c_RetryPolicy c) (c_RetryDequeuePolicy c) (informers c) (watchers c) (reconcilers c) (toRetry c)
    (retryProcessor c) (runner c) (metrics c).

(** The patcher, the registration of collectors with the exporter, the tracer, and the
    collectors of the client registry and of the controller. *)
Definition NewOperator (cfg : OperatorConfig) (NewDynamicPatcher : Z → option GoError)
    (RegisterCollectors : list Collector → M W (option GoError)) (SetTraceProvider : M W (option GoError))
    (registry_collectors controller_collectors : list Collector) (float64_overflow : Z) : MP W (Wired + GoError) :=
  let server := match opc_Webhooks cfg with
                | None => Returned (inl None)
                | Some c => match NewWebhookServer c with
                            | Panics => Panics
                            | Returned (inr err) => Returned (inr err)
                            | Returned (inl ws) => Returned (inl (Some ws))
                            end
                end in
  match server with
  | Panics => panic
  | Returned (inr err) => returns (inr err)
  | Returned (inl ws) =>
      match NewDynamicPatcher (refresh_interval cfg) with
      | Some err => returns (inr err)
      | None =>
          let controller := NewInformerController float64_overflow (DefaultInformerControllerConfig float64_overflow) in
          let* err := (if opc_MetricsEnabled cfg
                       then RegisterCollectors registry_collectors ;;? RegisterCollectors controller_collectors
                       else ret None) ;;?
                      (if opc_TracingEnabled cfg then SetTraceProvider else ret None) in
          match err with
          | Some err => returns (inr err)
          | None =>
              returns (inl (mkWired
                (mkSimpleOperator (opc_Name cfg) (opc_ErrorHandler cfg) (opc_FinalizerGenerator cfg)
                   (opc_InformerCacheResyncInterval cfg))
                ws (set_handler (opc_ErrorHandler cfg) controller) (metrics_port cfg)))
          end
      end
  end.

(** The operator [Run] makes of the controller, the webhook server and the metrics server,
    which gets the health checks of the others. *)
Definition run_operator (controller : OpController) (admission : option OpController) (metricsServer : OpController)
  : BaseOperator * list nat :=
  let o := AddController controller New in
  let o := match admission with Some a => AddController a o | None => o end in
  (AddController metricsServer o, Operator_HealthChecks o).
End SimpleOperator.

(** ** [Run] *)

(** The errors that controllers return; a run takes steps in which they fail with these. *)
Section Run.
Context (o : BaseOperator) (fails : nat → GoError → Prop).

Definition allowed (s s' : ostate) : Prop :=
  ostep s s' ∧ ∀ i e, os_cs s !! i = Some CRunning → os_cs s' !! i = Some (CSending e) → fails i e.

Definition pending (c : controller_phase) : bool := match c with CDone => false | _ => true end.

Definition failed (e : GoError) : Prop := ∃ i, (i < length (controllers o))%nat ∧ fails i e.

Definition run_inv (s : ostate) : Prop :=
  length (os_cs s) = length (controllers o) ∧
  (length (os_errs s) + length (List.filter pending (os_cs s)) ≤ length (os_cs s))%nat ∧
  (∀ i e, os_cs s !! i = Some (CSending e) → fails i e) ∧ (∀ e, e ∈ os_errs s → failed e) ∧
  (∀ e, os_returned s = Some (Some e) → failed e) ∧ (os_returned s = Some None → os_cancelled s = true) ∧
  (os_returned s ≠ None → os_derived s = true).

Lemma filter_pending_insert (cs : list controller_phase) i c c' : cs !! i = Some c →
  (length (List.filter pending (<[i := c']> cs)) + (if pending c then 1 else 0) =
   length (List.filter pending cs) + (if pending c' then 1 else 0))%nat.
Proof.
  revert i. induction cs as [|x cs IH]; intros [|i] E; [done..| |]; simpl in E.
  - injection E as ->. simpl. destruct (pending c), (pending c'); simpl; lia.
  - simpl. specialize (IH i E). destruct (pending x); simpl; lia.
Qed.

Lemma run_inv_init : run_inv (oinit o).
Proof.
  split_and!; simpl; [by rewrite length_replicate | | | set_solver | done | done | done].
  - assert (H : ∀ l, (length (List.filter pending l) ≤ length l)%nat)
      by (induction l as [|x l IH]; simpl; [lia|]; destruct (pending x); simpl; lia).
    apply H.
  - intros i e H. apply lookup_replicate in H as [? _]. done.
Qed.

Lemma sending_insert (cs : list controller_phase) i c j e : (∀ i e, cs !! i = Some (CSending e) → fails i e) →
  (∀ e, c = CSending e → fails i e) → <[i := c]> cs !! j = Some (CSending e) → fails j e.
Proof.
  intros H Hc [(-> & -> & _)|[_ Hj]]%list_lookup_insert_Some; [by apply Hc | by apply H].
Qed.

Lemma run_inv_step s s' : run_inv s → allowed s s' → run_inv s'.
Proof.
  intros (H1 & H2 & H3 & H4 & H5 & H6 & H7) [Hs Hf].
  destruct Hs as [s|s i E|s i e E|s i e E Hlt|s e errs Hr He|s Hr Hc]; simpl in *.
  - by split_and!.
  - pose proof (filter_pending_insert _ i _ CDone E) as Hp. simpl in Hp.
    unfold run_inv, set_c; simpl; split_and!; rewrite ?length_insert; try done; [lia | intros j e; by apply sending_insert].
  - pose proof (filter_pending_insert _ i _ (CSending e) E) as Hp. simpl in Hp.
    assert (fails i e).
    { apply Hf; [done|]. apply list_lookup_insert_eq. by apply lookup_lt_Some in E. }
    unfold run_inv, set_c; simpl; split_and!; rewrite ?length_insert; try done; [lia | intros j e'; apply sending_insert; [done|]; by intros ? [= <-]].
  - pose proof (filter_pending_insert _ i _ CDone E) as Hp. simpl in Hp.
    unfold run_inv; simpl; split_and!; rewrite ?length_insert, ?length_app; simpl; try done; [lia | intros j e'; by apply sending_insert |].
    intros e' [He'| ->%list_elem_of_singleton]%elem_of_app; [by apply H4|]. exists i. split; [|by apply H3].
    rewrite <- H1. by apply lookup_lt_Some in E.
  - rewrite He in *. simpl in H2. unfold run_inv. simpl. split_and!; try done; [lia | intros e' He'; apply H4; set_solver |].
    intros e' [= <-]. apply H4. set_solver.
  - split_and!; done.
Qed.

(** In every interleaving, [Run] of an operator returns an error only when a controller
    has failed with it, and nil only after its context was cancelled; then the context of
    the controllers is cancelled too; and no controller is ever blocked on its error. *)
Theorem Operator_Run_correct s : rtc allowed (oinit o) s →
  (∀ e, os_returned s = Some (Some e) → failed e) ∧ (os_returned s = Some None → os_cancelled s = true) ∧
  (os_returned s ≠ None → os_derived s = true) ∧
  ∀ i e, os_cs s !! i = Some (CSending e) → ∃ s', ostep s s' ∧ os_cs s' !! i = Some CDone.
Proof.
  intros Hr. assert (H : run_inv s).
  { clear -Hr. cut (∀ s0, run_inv s0 → rtc allowed s0 s → run_inv s); [intros Hc; apply (Hc (oinit o)); [apply run_inv_init | done]|].
    clear Hr. intros s0 H0 H. induction H as [|s0 s1 s2 Hs _ IH]; [done|]. apply IH. by eapply run_inv_step. }
  destruct H as (_ & H2 & _ & _ & H5 & H6 & H7). split_and!; [done..|]. intros i e E.
  eexists. split; [apply (o_send s i e E)|].
  - pose proof (filter_pending_insert _ i _ CDone E) as Hp. simpl in Hp. lia.
  - simpl. apply list_lookup_insert_eq. by apply lookup_lt_Some in E.
Qed.
End Run.

(** It does not wait for its controllers, and an error is lost when the context is cancelled
    at the same time. *)
Lemma Run_loses_error e : let o := mkBaseOperator [mkOpController None None None] in
  ∃ s, rtc ostep (oinit o) s ∧ os_returned s = Some None ∧ os_errs s = [e].
Proof.
  eexists. split; [|split].
  - eapply rtc_l; [apply (o_fail _ 0 e); reflexivity|]. eapply rtc_l; [apply (o_send _ 0 e); [reflexivity | simpl; lia]|].
    eapply rtc_l; [apply o_cancel|]. eapply rtc_l; [apply o_done; reflexivity|]. apply rtc_refl.
  - reflexivity.
  - reflexivity.
Qed.

(** ** Watching *)
Section Watching.
Context {W Clt : Type} `{WW : !World W, MM : !Memory W, AE : !ApiErrors, KN : !KindNames}.
Context (op : SimpleOperator (W:=W)) (ClientFor : Kind (W:=W) → M W (Clt + GoError))
        (NewInformer : Kind (W:=W) → Clt → InformerOptions (W:=W) → M W (Informer W + GoError))
        (ForKind : string → string → DynamicKindPatcher W) (new_id : InformerController W → nat).

(** A kind that is watched has its informer and its watcher added under the label of its
    schema and options, and nothing else. *)
Lemma WatchKind_adds kind sch w sync options c σ c' σ' :
  WatchKind op ClientFor NewInformer ForKind new_id kind sch w sync options (c, σ) = (None, (c', σ')) →
  ∃ inf x, informers c' = spec_op (informers c) (OpAddItem (label sch options) [inf]) ∧
    watchers c' = spec_op (watchers c) (OpAddItem (label sch options) [x]) ∧ reconcilers c' = reconcilers c.
Proof.
  unfold WatchKind, add_informer, and_then, bind, lift, gets.
  destruct (ClientFor kind σ) as [[client|err] σ1]; [|done].
  destruct (NewInformer _ _ _ σ1) as [[inf|err] σ2]; [|done].
  unfold AddInformer. destruct (bool_decide (label sch options = "")) eqn:El; [done|].
  unfold bind, lift. destruct (AddEventHandler _ _ σ2) as [[e|] σ3]; [done|]. unfold modify, ret.
  destruct (NewOpinionatedWatcher _ _ _) as [ow|]; [|done]. unfold AddWatcher. rewrite El. unfold bind, modify, ret.
  intros [= <- <-]. eexists _, _. split_and!; reflexivity.
Qed.
End Watching.

(** Labels do not tell a dash in a namespace from the one before a label filter: these two
    kinds share the informers and watchers of one key. *)
Lemma label_collision {W} (sch : Schema W) :
  label sch (mkListWatchOptions "a" ["b-c"] []) = label sch (mkListWatchOptions "a-b" ["c"] []).
Proof. unfold label. simpl. done. Qed.
