(* ===== verification/SourceTree.v ===== *)
(** * Source trees and texts ([migrate/], the walks over a project)

    What the migration tools share: the functions of packages [strings], [bufio] and
    [filepath] they use, the tree of files of a project, and the walk over its Go files that
    [rewriteGoFiles] and [Scanner.Scan] make.  A tree lists the entries of a directory in the
    order in which [filepath.WalkDir] visits them; what the operating system answers to
    reading and opening a file is part of the file. *)
From S2P Require Import Prelude GoValues Resource.

#[local] Open Scope string_scope.
#[local] Open Scope list_scope.

(** ** Texts *)
Lemma existsb_eqb x l : existsb (String.eqb x) l = true ↔ x ∈ l.
Proof.
  rewrite existsb_exists. split.
  - by intros (y & Hy%list_elem_of_In & <-%String.eqb_eq).
  - intros H. exists x. split; [by apply list_elem_of_In | apply String.eqb_refl].
Qed.

Lemma existsb_eqb_false x l : existsb (String.eqb x) l = false ↔ x ∉ l.
Proof. by rewrite <- not_true_iff_false, existsb_eqb. Qed.

(** [strings.Cut] at one character. *)
Fixpoint Cut (s : string) (c : ascii) : option (string * string) :=
  match s with
  | EmptyString => None
  | String c' s =>
      if Ascii.eqb c c' then Some ("", s)
      else match Cut s c with Some (a, b) => Some (String c' a, b) | None => None end
  end.

Lemma Cut_eq s c a b : Cut s c = Some (a, b) → s = a +:+ String c b.
Proof.
  revert a. induction s as [|c' s IH]; intros a; simpl; [done|]. destruct (Ascii.eqb_spec c c') as [<-|]; [by intros [= <- <-]|].
  destruct (Cut s c) as [[a' b']|]; [|done]. intros [= <- <-]. change (String c' s = String c' (a' +:+ String c b')).
  by rewrite <- (IH a').
Qed.

Lemma Cut_free s c t : free_of c s = true → Cut (s +:+ String c t) c = Some (s, t).
Proof.
  induction s as [|c' s IH]; [intros _; simpl; by rewrite Ascii.eqb_refl|]. simpl. intros [Hc H]%andb_true_iff.
  apply negb_true_iff in Hc. change ((fix append s1 s2 := _) s (String c t)) with (s +:+ String c t) || idtac.
  rewrite Ascii.eqb_sym, Hc. by rewrite (IH H).
Qed.

Lemma substring_all s : String.substring 0 (String.length s) s = s.
Proof. induction s as [|c s IH]; [done | simpl; by rewrite IH]. Qed.

Lemma TrimPrefix_char c s : TrimPrefix (String c s) (String c "") = s.
Proof.
  unfold TrimPrefix. assert (E : String.prefix (String c "") (String c s) = true) by (simpl; by destruct (Ascii.ascii_dec c c), s).
  rewrite E. change (String.substring 0 (String.length s - 0) s = s). rewrite Nat.sub_0_r. apply substring_all.
Qed.

(** [strings.SplitN] *)
Fixpoint SplitN (s : string) (c : ascii) (n : nat) : list string :=
  match n with
  | O => []
  | S O => [s]
  | S n => match Cut s c with Some (a, b) => a :: SplitN b c n | None => [s] end
  end.

(** [strings.Fields], on ASCII strings. *)
Fixpoint Fields (s : string) : list string :=
  match s with
  | EmptyString => []
  | String c s =>
      if is_space c then Fields s
      else match s with
           | EmptyString => [String c ""]
           | String c' _ =>
               if is_space c' then String c "" :: Fields s
               else match Fields s with w :: ws => String c w :: ws | [] => [String c ""] end
           end
  end.

(** [filepath.Ext] of a name without a slash: from its last dot. *)
Fixpoint Ext (name : string) : string :=
  match name with
  | EmptyString => ""
  | String c s =>
      match Ext s with
      | EmptyString => if Ascii.eqb c "." then name else ""
      | e => e
      end
  end.

(** The lines of a [bufio.Scanner]: those before a newline and what is after the last one,
    if anything is, each without a carriage return at its end. *)
Definition newline : ascii := "010"%char.
Fixpoint drop_cr (line : string) : string :=
  match line with
  | EmptyString => ""
  | String c rest =>
      match rest with
      | EmptyString => if Ascii.eqb c "013" then "" else line
      | _ => String c (drop_cr rest)
      end
  end.

Lemma drop_cr_prefix line : ∃ v, line = drop_cr line +:+ v.
Proof.
  induction line as [|c rest [v IH]]; [by exists ""|]. simpl. destruct rest as [|c' rest].
  - destruct (Ascii.eqb c "013"); [by exists (String c "") | by exists ""].
  - exists v. rewrite IH at 1. reflexivity.
Qed.

Fixpoint raw_lines (pieces : list string) : list string :=
  match pieces with
  | [] => []
  | [last] => if String.eqb last "" then [] else [last]
  | l :: ls => l :: raw_lines ls
  end.

(** ** Trees *)

(** A file: its content, and the errors of reading it and of opening it for writing. *)
Record SourceFile := mkSourceFile { fl_content : string; fl_read : option GoError; fl_write : option GoError }.

(** A file or a directory, with the error of listing it. *)
Inductive Node :=
| NFile (f : SourceFile)
| NDir (entries : list (string * Node)) (err : option GoError).

Section Node_induction.
Variable P : Node → Prop.
Hypothesis Pfile : ∀ f, P (NFile f).
Hypothesis Pdir : ∀ entries err, Forall (λ e, P e.2) entries → P (NDir entries err).
Fixpoint Node_rect' (n : Node) : P n :=
  match n with
  | NFile f => Pfile f
  | NDir entries err =>
      Pdir entries err
        ((fix all (es : list (string * Node)) : Forall (λ e, P e.2) es :=
            match es with [] => List.Forall_nil _ | (nm, c) :: es => @List.Forall_cons _ (λ e, P e.2) (nm, c) es (Node_rect' c) (all es) end) entries)
  end.
End Node_induction.

(** The directories that are not entered, and the files that are visited. *)
Definition skipped (name : string) : bool := String.eqb name "vendor" || String.prefix "." name.
Definition is_go (name : string) : bool := String.eqb (Ext name) ".go".

(** The path of an entry relative to the root. *)
Definition join (dir name : string) : string := if String.eqb dir "." then name else dir +:+ "/" +:+ name.

Section Walk.
Context {A : Type} (visit : string → SourceFile → (list A * option GoError) * SourceFile).

(** [filepath.WalkDir], with the function that returns at errors, does not enter the
    directories above, passes over other files, and appends what [visit] returns. *)
Fixpoint walk (name path : string) (n : Node) : (list A * option GoError) * Node :=
  match n with
  | NFile f =>
      if is_go name then let '(r, f) := visit path f in (r, NFile f) else (([], None), n)
  | NDir entries err =>
      if skipped name then (([], None), n)
      else
        match err with
        | Some e => (([], Some e), n)
        | None =>
            let '(r, es) :=
              (fix each (es : list (string * Node)) : (list A * option GoError) * list (string * Node) :=
                 match es with
                 | [] => (([], None), [])
                 | (nm, c) :: es =>
                     match walk nm (join path nm) c with
                     | ((l, Some e), c) => ((l, Some e), (nm, c) :: es)
                     | ((l, None), c) => let '((l', err), es) := each es in ((l ++ l', err), (nm, c) :: es)
                     end
                 end) entries in
            (r, NDir es None)
        end
  end.

(** The loop over the entries. *)
Definition walk_entries (path : string) : list (string * Node) → (list A * option GoError) * list (string * Node) :=
  fix each es :=
    match es with
    | [] => (([], None), [])
    | (nm, c) :: es =>
        match walk nm (join path nm) c with
        | ((l, Some e), c) => ((l, Some e), (nm, c) :: es)
        | ((l, None), c) => let '((l', err), es) := each es in ((l ++ l', err), (nm, c) :: es)
        end
    end.

Lemma walk_dir name path entries : walk name path (NDir entries None) =
  if skipped name then (([], None), NDir entries None)
  else let '(r, es) := walk_entries path entries in (r, NDir es None).
Proof. reflexivity. Qed.

Lemma walk_entries_cons path nm c es : walk_entries path ((nm, c) :: es) =
  match walk nm (join path nm) c with
  | ((l, Some e), c) => ((l, Some e), (nm, c) :: es)
  | ((l, None), c) => let '((l', err), es) := walk_entries path es in ((l ++ l', err), (nm, c) :: es)
  end.
Proof. reflexivity. Qed.
End Walk.

(** ** The files of a tree *)

(** The Go files that a walk visits, with their paths, in order. *)
Fixpoint go_files (name path : string) (n : Node) : list (string * SourceFile) :=
  match n with
  | NFile f => if is_go name then [(path, f)] else []
  | NDir entries _ =>
      if skipped name then []
      else (fix each (es : list (string * Node)) : list (string * SourceFile) :=
              match es with [] => [] | (nm, c) :: es => go_files nm (join path nm) c ++ each es end) entries
  end.

Definition entry_files (path : string) (es : list (string * Node)) : list (string * SourceFile) :=
  es ≫= λ '(nm, c), go_files nm (join path nm) c.

Lemma entry_files_cons path nm c es : entry_files path ((nm, c) :: es) = go_files nm (join path nm) c ++ entry_files path es.
Proof. reflexivity. Qed.

Lemma go_files_dir name path entries err :
  go_files name path (NDir entries err) = if skipped name then [] else entry_files path entries.
Proof.
  simpl. destruct (skipped name); [done|]. induction entries as [|[nm c] es IH]; [done|].
  rewrite entry_files_cons, <- IH. reflexivity.
Qed.

(** The tree with the files that a walk visits replaced. *)
Fixpoint map_files (g : string → SourceFile → SourceFile) (name path : string) (n : Node) : Node :=
  match n with
  | NFile f => if is_go name then NFile (g path f) else n
  | NDir entries err =>
      if skipped name then n
      else NDir ((fix each (es : list (string * Node)) : list (string * Node) :=
                    match es with [] => [] | (nm, c) :: es => (nm, map_files g nm (join path nm) c) :: each es end)
                   entries) err
  end.

Lemma map_files_dir g name path entries err : map_files g name path (NDir entries err) =
  if skipped name then NDir entries err
  else NDir ((λ '(nm, c), (nm, map_files g nm (join path nm) c)) <$> entries) err.
Proof.
  simpl. destruct (skipped name); [done|]. f_equal.
  induction entries as [|[nm c] es IH]; [done|]. rewrite fmap_cons. by f_equal.
Qed.

(** ** What a walk does *)
Section Walked.
Context {A : Type} (visit : string → SourceFile → (list A * option GoError) * SourceFile).

Definition visited (l : list (string * SourceFile)) : list A := l ≫= λ '(p, f), (visit p f).1.1.
Definition all_visited (l : list (string * SourceFile)) : Prop := Forall (λ '(p, f), (visit p f).1.2 = None) l.

(** A walk without an error has visited every Go file, in order, and has done nothing else:
    it returns what the visits return, and leaves the tree as they leave the files. *)
Lemma walk_ok n : ∀ name path l n', walk visit name path n = ((l, None), n') →
  l = visited (go_files name path n) ∧ all_visited (go_files name path n) ∧
  n' = map_files (λ p f, (visit p f).2) name path n.
Proof.
  induction n as [f|entries err IH] using Node_rect'; intros name path l n'.
  - unfold visited, all_visited. simpl. destruct (is_go name).
    + destruct (visit path f) as [[l0 err] f'] eqn:E. intros [= -> -> <-]. simpl. rewrite E, app_nil_r. simpl.
      split_and!; [done | | done]. constructor; [by rewrite E | constructor].
    + intros [= <- <-]. split_and!; [done | constructor | done].
  - rewrite go_files_dir, map_files_dir. destruct err as [e|].
    { simpl. destruct (skipped name); [|done]. intros [= <- <-]. split_and!; [done | constructor | done]. }
    rewrite walk_dir. destruct (skipped name); [intros [= <- <-]; split_and!; [done | constructor | done]|].
    destruct (walk_entries visit path entries) as [[l0 err0] es'] eqn:E. intros [= -> -> <-].
    enough (H : l = visited (entry_files path entries) ∧ all_visited (entry_files path entries) ∧
                es' = (λ '(nm, c), (nm, map_files (λ p f, (visit p f).2) nm (join path nm) c)) <$> entries)
      by (destruct H as (-> & H & ->); by split_and!).
    revert l es' E. induction IH as [|[nm c] es Hc _ IHes]; intros l es'; [intros [= <- <-]; split_and!; [done | constructor | done]|]. rewrite walk_entries_cons.
    destruct (walk visit nm (join path nm) c) as [[l1 [e|]] c'] eqn:Ec; [done|].
    destruct (walk_entries visit path es) as [[l2 err2] es2] eqn:Ee. intros [= <- -> <-].
    destruct (Hc _ _ _ _ Ec) as (-> & H1 & ->), (IHes _ _ eq_refl) as (-> & H2 & ->).
    rewrite entry_files_cons. split_and!; [|by apply Forall_app|done].
    unfold visited. by rewrite bind_app.
Qed.

(** A walk that changes no file changes nothing. *)
Lemma walk_pure n : (∀ p f, (visit p f).2 = f) → ∀ name path, (walk visit name path n).2 = n.
Proof.
  intros Hp. induction n as [f|entries err IH] using Node_rect'; intros name path.
  - simpl. destruct (is_go name); [|done]. pose proof (Hp path f) as H. destruct (visit path f). simpl in *. by rewrite H.
  - destruct err as [e|]; [by simpl; destruct (skipped name)|]. rewrite walk_dir. destruct (skipped name); [done|].
    enough (H : (walk_entries visit path entries).2 = entries)
      by (destruct (walk_entries visit path entries); simpl in *; by rewrite H).
    induction IH as [|[nm c] es Hc _ IHes]; [done|]. rewrite walk_entries_cons. cbn [snd] in Hc.
    generalize (Hc nm (join path nm)), IHes. destruct (walk visit nm (join path nm) c) as [[l1 [e|]] c']; simpl; [by intros ->|].
    intros ->. destruct (walk_entries visit path es) as [[l2 err2] es2]. simpl. by intros ->.
Qed.

(** It has one when a directory cannot be listed or a visit fails, and only then. *)
Fixpoint listable (name : string) (n : Node) : Prop :=
  match n with
  | NFile _ => True
  | NDir entries err =>
      skipped name = true ∨
      (err = None ∧ (fix each (es : list (string * Node)) : Prop :=
                       match es with [] => True | (nm, c) :: es => listable nm c ∧ each es end) entries)
  end.

Lemma listable_dir name entries err :
  listable name (NDir entries err) ↔ skipped name = true ∨ (err = None ∧ Forall (λ '(nm, c), listable nm c) entries).
Proof.
  simpl. apply or_iff_compat_l, and_iff_compat_l.
  induction entries as [|[nm c] es IH]; [split; constructor|]. rewrite Forall_cons. by rewrite IH.
Qed.

Lemma walk_listable n : ∀ name path, (walk visit name path n).1.2 = None → listable name n.
Proof.
  induction n as [f|entries err IH] using Node_rect'; intros name path; [done|]. rewrite listable_dir.
  destruct (skipped name) eqn:Es; [by left|]. right. revert H.
  destruct err as [e|]; [simpl; by rewrite Es|]. rewrite walk_dir, Es. split; [done|].
  assert (H' : (walk_entries visit path entries).1.2 = None) by (revert H; by destruct (walk_entries visit path entries) as [[]]).
  clear H. induction IH as [|[nm c] es Hc _ IHes]; [constructor|]. revert H'. rewrite walk_entries_cons. cbn [snd] in Hc.
  generalize (Hc nm (join path nm)), IHes. destruct (walk visit nm (join path nm) c) as [[l1 [e|]] c']; [done|].
  destruct (walk_entries visit path es) as [[l2 err2] es2]. intros H1 H2 E. constructor; [by apply H1 | by apply H2].
Qed.

Lemma walk_succeeds n : ∀ name path, listable name n → all_visited (go_files name path n) →
  (walk visit name path n).1.2 = None.
Proof.
  induction n as [f|entries err IH] using Node_rect'; intros name path.
  - unfold all_visited. simpl. destruct (is_go name); [|done]. intros _ H%Forall_cons.
    destruct H as [H _]. by destruct (visit path f) as [[l0 err] f'].
  - rewrite listable_dir, go_files_dir. destruct (skipped name) eqn:Es.
    { intros _ _. simpl. by rewrite Es. }
    intros [?|[-> Hl]] Hv; [done|]. rewrite walk_dir, Es.
    enough (H : (walk_entries visit path entries).1.2 = None)
      by (by destruct (walk_entries visit path entries) as [[]]).
    revert Hl Hv. induction IH as [|[nm c] es Hc _ IHes]; [done|].
    rewrite entry_files_cons.
    intros [H1 H2]%Forall_cons [V1 V2]%Forall_app. rewrite walk_entries_cons.
    generalize (Hc nm (join path nm) H1 V1), (IHes H2 V2). cbn [snd].
    destruct (walk visit nm (join path nm) c) as [[l1 [e|]] c']; [done|]. intros _.
    by destruct (walk_entries visit path es) as [[l2 err2] es2].
Qed.
End Walked.

(** The files that a walk over the changed tree visits. *)
Lemma go_files_map g n : ∀ name path,
  go_files name path (map_files g name path n) = (λ '(p, f), (p, g p f)) <$> go_files name path n.
Proof.
  induction n as [f|entries err IH] using Node_rect'; intros name path.
  - simpl. destruct (is_go name) eqn:E; simpl; by rewrite E.
  - rewrite map_files_dir, go_files_dir. destruct (skipped name) eqn:E; rewrite go_files_dir, E; [done|].
    induction IH as [|[nm c] es Hc _ IHes]; [done|].
    rewrite fmap_cons, !entry_files_cons, fmap_app. f_equal; [apply Hc | apply IHes].
Qed.

Lemma map_files_ext g h n : ∀ name path, (∀ p f, (p, f) ∈ go_files name path n → g p f = h p f) →
  map_files g name path n = map_files h name path n.
Proof.
  induction n as [f|entries err IH] using Node_rect'; intros name path.
  - simpl. destruct (is_go name); [|done]. intros H. f_equal. apply H. left.
  - rewrite !map_files_dir, go_files_dir. destruct (skipped name); [done|]. intros H. f_equal. revert H.
    induction IH as [|[nm c] es Hc _ IHes]; [done|]. intros H. rewrite entry_files_cons in H.
    cbn [snd] in Hc. rewrite !fmap_cons. f_equal.
    { f_equal. apply Hc. intros p f Hp. apply H, elem_of_app. by left. }
    apply IHes. intros p f Hp. apply H, elem_of_app. by right.
Qed.

Lemma listable_map g n : ∀ name path, listable name (map_files g name path n) ↔ listable name n.
Proof.
  induction n as [f|entries err IH] using Node_rect'; intros name path.
  - simpl. by destruct (is_go name).
  - rewrite map_files_dir. destruct (skipped name) eqn:Es; [done|]. rewrite !listable_dir, Es. apply or_iff_compat_l, and_iff_compat_l.
    induction IH as [|[nm c] es Hc _ IHes]; [done|]. rewrite fmap_cons, !Forall_cons. cbn [snd] in Hc. by rewrite Hc, IHes.
Qed.

Lemma map_files_id g n : ∀ name path, (∀ p f, (p, f) ∈ go_files name path n → g p f = f) →
  map_files g name path n = n.
Proof.
  induction n as [f|entries err IH] using Node_rect'; intros name path.
  - simpl. destruct (is_go name); [|done]. intros H. f_equal. apply H. left.
  - rewrite map_files_dir, go_files_dir. destruct (skipped name); [done|]. intros H. f_equal. revert H.
    induction IH as [|[nm c] es Hc _ IHes]; [done|]. intros H. rewrite entry_files_cons in H.
    rewrite fmap_cons. f_equal; [rewrite Hc | rewrite IHes]; try done; intros p f Hp; apply H, elem_of_app; [by left | by right].
Qed.

(** ** Replacing a text *)
Lemma prefix_cons c a c' b : String.prefix (String c a) (String c' b) = true ↔ c = c' ∧ String.prefix a b = true.
Proof. simpl. destruct (Ascii.ascii_dec c c') as [->|Hc]; [tauto|]. split; [done | by intros [? _]]. Qed.

Lemma prefix_app_or a b c : String.prefix a (b +:+ c) = true → String.prefix a b = true ∨ String.prefix b a = true.
Proof.
  revert b. induction a as [|x a IH]; intros [|y b]; [by left..|by right|].
  change (String y b +:+ c) with (String y (b +:+ c)). rewrite !prefix_cons. intros [-> H]. destruct (IH _ H); auto.
Qed.

Lemma prefix_drop a s : String.prefix a s = true → s = a +:+ str_drop (String.length a) s.
Proof.
  revert s. induction a as [|x a IH]; intros s; [by destruct s|]. destruct s as [|y s]; [done|].
  rewrite prefix_cons. intros [-> H]. change (String y s = String y (a +:+ str_drop (String.length a) s)). by rewrite <- IH.
Qed.

Lemma Contains_cons c s sub : Contains (String c s) sub = String.prefix sub (String c s) || Contains s sub.
Proof. reflexivity. Qed.

Lemma string_cons_app c s t : String c s +:+ t = String c (s +:+ t).
Proof. reflexivity. Qed.

(** Neither of two texts begins with the other. *)
Definition clash (a b : string) : bool := negb (String.prefix a b) && negb (String.prefix b a).

Lemma clash_app a b c : clash a b = true → String.prefix a (b +:+ c) = false.
Proof.
  intros [Ha Hb]%andb_true_iff. apply negb_true_iff in Ha, Hb. apply not_true_is_false. intros H.
  destruct (prefix_app_or _ _ _ H); congruence.
Qed.

(** No occurrence of [old] can begin or end inside a [new]. *)
Fixpoint tails (s : string) : list string :=
  match s with EmptyString => [] | String _ s' => s :: tails s' end.
Definition no_overlap (old new : string) : bool :=
  forallb (clash old) (tails new) && forallb (λ t, clash t new) (List.tl (tails old)) && negb (String.eqb old "").

Definition tail_of (t s : string) : Prop := ∃ u, s = u +:+ t.

Lemma elem_of_tails t s : t ≠ "" → tail_of t s → t ∈ tails s.
Proof.
  intros Ht [u ->]. induction u as [|c u IH]; [destruct t; [done | left]|]. right. exact IH.
Qed.

Section Replacing.
Context (old new : string) (Hno : no_overlap old new = true).

Lemma old_clashes t : t ∈ tails new → clash old t = true.
Proof.
  unfold no_overlap in Hno. intros H. apply andb_true_iff in Hno as [[H1 _]%andb_true_iff _].
  rewrite forallb_forall in H1. apply H1. by apply list_elem_of_In.
Qed.

Lemma tail_clashes c old' t : old = String c old' → t ≠ "" → tail_of t old' → clash t new = true.
Proof.
  unfold no_overlap in Hno. intros -> Ht H. apply andb_true_iff in Hno as [[_ H2]%andb_true_iff _].
  rewrite forallb_forall in H2. apply H2. apply list_elem_of_In. simpl. by apply elem_of_tails.
Qed.

Lemma old_not_empty : old ≠ "".
Proof. unfold no_overlap in Hno. apply andb_true_iff in Hno as [_ H]. intros ->. done. Qed.

Lemma old_cons : ∃ x old', old = String x old'.
Proof. pose proof old_not_empty as H. clear Hno. destruct old; [done | eauto]. Qed.

Lemma old_long : (0 < String.length old)%nat.
Proof. pose proof old_not_empty as H. clear Hno. destruct old; [done | simpl; lia]. Qed.

(** What a text begins with after the replacement, it began with before, if it is a proper
    tail of [old]. *)
Lemma prefix_replace c old' : old = String c old' → ∀ fuel t s, tail_of t old' →
  String.prefix t (replace_all fuel s old new) = true → String.prefix t s = true.
Proof.
  intros Eo. induction fuel as [|fuel IH]; intros t s Ht; [done|]. simpl.
  destruct t as [|x t]; [by destruct s|]. destruct (String.prefix old s) eqn:Ep.
  { rewrite (clash_app (String x t)); [done|]. by eapply tail_clashes. }
  destruct s as [|y s]; [done|]. rewrite !prefix_cons. intros [-> H]. split; [done|].
  apply (IH t s); [|done]. destruct Ht as [u Hu]. exists (u +:+ String y ""). rewrite <- string_app_assoc. exact Hu.
Qed.

Lemma Contains_app_clash a b : (∀ t, t ∈ tails a → clash old t = true) →
  Contains (a +:+ b) old = Contains b old.
Proof.
  intros H. induction a as [|c a IH]; [done|]. rewrite string_cons_app.
  assert (E : String.prefix old (String c a +:+ b) = false) by (apply clash_app, H; left).
  rewrite string_cons_app in E. rewrite Contains_cons, E. apply IH.
  intros t Ht. apply H. by right.
Qed.

Lemma replace_all_removes fuel s : (String.length s < fuel)%nat → Contains (replace_all fuel s old new) old = false.
Proof.
  revert s. induction fuel as [|fuel IH]; intros s Hf; [lia|]. simpl.
  destruct (String.prefix old s) eqn:Ep.
  - rewrite Contains_app_clash by apply old_clashes. apply IH.
    pose proof (prefix_drop _ _ Ep) as E. pose proof (f_equal String.length E) as El. rewrite length_app_string in El.
    pose proof old_long. lia.
  - destruct s as [|c s]; [cbn [Contains]; by rewrite Ep|]. simpl in Hf. rewrite Contains_cons, IH, orb_false_r by lia.
    apply not_true_is_false. intros H. destruct old_cons as (x & old' & Eo). rewrite Eo in H at 1.
    apply prefix_cons in H as [<- H]. apply (prefix_replace _ _ Eo) in H; [|by exists ""].
    apply not_true_iff_false in Ep. apply Ep. rewrite Eo. by apply prefix_cons.
Qed.
End Replacing.

(** Nothing is left of a text that does not overlap what it is replaced with, and a text
    without it stays. *)
Lemma ReplaceAll_removes old new s : no_overlap old new = true → Contains (ReplaceAll s old new) old = false.
Proof. intros H. apply replace_all_removes; [done | unfold ReplaceAll; lia]. Qed.

Lemma ReplaceAll_id old new s : Contains s old = false → ReplaceAll s old new = s.
Proof.
  unfold ReplaceAll. generalize (S (String.length s)) as fuel. intros fuel. revert s.
  induction fuel as [|fuel IH]; intros s; [done|]. destruct s as [|c s]; simpl; intros [Hp H]%orb_false_iff.
  - by rewrite Hp.
  - rewrite Hp. f_equal. by apply IH.
Qed.

Lemma Contains_app s t sub : Contains t sub = true → Contains (s +:+ t) sub = true.
Proof.
  intros H. induction s as [|c s IH]; [done|]. rewrite string_cons_app, Contains_cons.
  apply orb_true_iff. by right.
Qed.

Lemma prefix_trans_app a s t : String.prefix a s = true → String.prefix a (s +:+ t) = true.
Proof. intros H%prefix_drop. rewrite H, <- string_app_assoc. apply prefix_app. Qed.

Lemma Contains_app_l s t sub : Contains s sub = true → Contains (s +:+ t) sub = true.
Proof.
  induction s as [|c s IH].
  - simpl. rewrite orb_false_r. intros H. destruct sub; [destruct t; done|done].
  - rewrite string_cons_app, !Contains_cons. intros [H|H]%orb_true_iff; apply orb_true_iff; [left | right; by apply IH].
    by apply (prefix_trans_app _ (String c s)).
Qed.

(** A line of a text is a part of it. *)
Lemma Split_part c s p : p ∈ Split s c → ∃ u v, s = u +:+ p +:+ v.
Proof.
  revert p. induction s as [|c' s IH]; intros p; simpl.
  - intros ->%list_elem_of_singleton. by exists "", "".
  - destruct (Ascii.eqb c c'); intros H.
    + apply elem_of_cons in H as [->|H]; [by exists "", (String c' s)|].
      destruct (IH _ H) as (u & v & ->). by exists (String c' u), v.
    + destruct (Split s c) as [|q qs] eqn:E; [by destruct (Split_not_nil s c)|].
      apply elem_of_cons in H as [->|H].
      * pose proof (IH q ltac:(left)) as (u & v & Hs).
        assert (Hq : String.prefix q s = true).
        { clear -E. revert q qs E. induction s as [|x s IHs]; simpl; intros q qs.
          - by intros [= <- _].
          - destruct (Ascii.eqb c x); [by intros [= <- _]|]. destruct (Split s c) as [|r rs]; intros [= <- _];
              apply prefix_cons; split; [done | by destruct s | done | by eapply IHs]. }
        exists "", (str_drop (String.length q) s). change (String c' s = String c' (q +:+ str_drop (String.length q) s)).
        f_equal. by apply prefix_drop.
      * destruct (IH p ltac:(by right)) as (u & v & ->). by exists (String c' u), v.
Qed.

Lemma Contains_part u p v sub : Contains p sub = true → Contains (u +:+ p +:+ v) sub = true.
Proof. intros H. by apply Contains_app, Contains_app_l. Qed.
