(* ===== verification/Compat.v ===== *)
(** * The compatibility check ([migrate/compat], [cmd/grafana-app-sdk/compat.go])

    The matrix of SDK and Grafana versions, the check of a pair, the versions a project
    states, and the command.  Files are read by an argument, from a name in the project. *)
From S2P Require Import Prelude GoValues Resource SourceTree.

#[local] Open Scope string_scope.
#[local] Open Scope list_scope.

(** [Pair], [matrix] *)
Record Pair := mkPair { pr_SDKVersion : string; pr_GrafanaVersion : string; pr_Compatible : bool; pr_Note : string }.

Definition matrix : list Pair := [
  mkPair "v0.26" "10.0" true "";
  mkPair "v0.26" "10.1" true "";
  mkPair "v0.27" "10.1" true "";
  mkPair "v0.27" "10.2" true "";
  mkPair "v0.28" "10.2" true "";
  mkPair "v0.28" "10.3" true "";
  mkPair "v0.29" "10.3" true "";
  mkPair "v0.29" "10.4" true "";
  mkPair "v0.30" "10.4" true "";
  mkPair "v0.30" "11.0" true "";
  mkPair "v0.26" "11.0" false "SDK v0.26 does not support Grafana 11 APIs";
  mkPair "v0.27" "11.0" false "SDK v0.27 does not support Grafana 11 APIs"
].

Definition Matrix : list Pair := matrix.

(** [Result] *)
Record Result := mkResult {
  rs_SDKVersion : string;
  rs_GrafanaVersion : string;
  rs_Compatible : bool;
  rs_Note : string;
  rs_Unknown : bool;
}.

(** [minorVersion] *)
Definition minorVersion (v : string) : string :=
  let v := TrimPrefix v "v" in
  match SplitN v "." 3 with
  | major :: minor :: _ => major +:+ "." +:+ minor
  | _ => v
  end.

(** [Check] *)
Definition Check_versions (sdkVersion grafanaVersion : string) : Result :=
  let sdkMinor := minorVersion sdkVersion in
  let grafMinor := minorVersion grafanaVersion in
  match List.find (λ p, String.eqb (pr_SDKVersion p) sdkMinor && String.eqb (pr_GrafanaVersion p) grafMinor) matrix with
  | Some p => mkResult sdkVersion grafanaVersion (pr_Compatible p) (pr_Note p) false
  | None => mkResult sdkVersion grafanaVersion true "" true
  end.

(** ** The versions of a project *)
Section Project.
Context (read : string → string + GoError).

Definition sdk_prefix : string := "github.com/grafana/grafana-app-sdk ".

(** The version on a line of [go.mod]; [detectSDKVersionFromGoMod] of the migrate command is
    the same. *)
Definition sdk_line (line : string) : option string :=
  let line := TrimSpace line in
  if String.prefix sdk_prefix line then
    match Fields line with _ :: v :: _ => Some v | _ => None end
  else None.

Fixpoint first_sdk_line (lines : list string) : option string :=
  match lines with
  | [] => None
  | l :: ls => match sdk_line l with Some v => Some v | None => first_sdk_line ls end
  end.

Definition readSDKVersionFromGoMod : string + GoError :=
  match read "go.mod" with
  | inr err => inr err
  | inl data =>
      match first_sdk_line (Split data newline) with
      | Some v => inl v
      | None => inr (ErrorString "grafana-app-sdk not found in go.mod")
      end
  end.

(** [readGrafanaVersionFile]; the directory is in the text of the error. *)
Fixpoint first_readable (names : list string) : option string :=
  match names with
  | [] => None
  | n :: ns => match read n with inl data => Some (TrimSpace data) | inr _ => first_readable ns end
  end.

Definition readGrafanaVersionFile (dir : string) : string + GoError :=
  match first_readable ["grafana-version"; ".grafana-version"; "GRAFANA_VERSION"] with
  | Some v => inl v
  | None => inr (ErrorString ("no grafana-version file found in " +:+ dir))
  end.

(** [CheckFromGoMod] *)
Definition CheckFromGoMod (dir grafanaVersion : string) : Result + GoError :=
  match readSDKVersionFromGoMod with
  | inr err => inr err
  | inl sdkVer =>
      if String.eqb grafanaVersion "" then
        match readGrafanaVersionFile dir with
        | inr err => inr (WrapError "grafana-version not provided and could not be read: " err)
        | inl grafanaVersion => inl (Check_versions sdkVer grafanaVersion)
        end
      else inl (Check_versions sdkVer grafanaVersion)
  end.

(** [runCompat], from the absolute directory and the flag: what is printed, and the error. *)
Definition runCompat (dir grafanaVersion : string) : list string * option GoError :=
  match CheckFromGoMod dir grafanaVersion with
  | inr err => ([], Some err)
  | inl r =>
      if rs_Unknown r then
        (["UNKNOWN  SDK " +:+ rs_SDKVersion r +:+ " + Grafana " +:+ rs_GrafanaVersion r +:+
          " — not in compatibility matrix (assuming compatible)"], None)
      else if rs_Compatible r then
        (["OK       SDK " +:+ rs_SDKVersion r +:+ " is compatible with Grafana " +:+ rs_GrafanaVersion r], None)
      else
        (["INCOMPATIBLE  SDK " +:+ rs_SDKVersion r +:+ " + Grafana " +:+ rs_GrafanaVersion r +:+
          (if negb (String.eqb (rs_Note r) "") then ": " +:+ rs_Note r else "")],
         Some (ErrorString "incompatible SDK/Grafana version pair"))
  end.
End Project.

(** ** Properties *)

(** Every version of the matrix begins with a v, and what [minorVersion] returns does only
    for a version that begins with two. *)
Lemma minorVersion_no_v v p : In p matrix → minorVersion v = pr_SDKVersion p → String.prefix "vv" v = true.
Proof.
  intros Hp E. assert (Hm : String.prefix "v" (pr_SDKVersion p) = true)
    by (repeat (destruct Hp as [<-|Hp]; [reflexivity|]); destruct Hp).
  rewrite <- E in Hm. unfold minorVersion in Hm.
  assert (Ht : String.prefix "v" (TrimPrefix v "v") = true).
  { revert Hm. generalize (TrimPrefix v "v") as t. intros t. simpl. destruct (Cut t ".") as [[a b]|] eqn:Ec; [|done].
    rewrite (Cut_eq _ _ _ _ Ec). destruct (Cut b ".") as [[a' b']|], a as [|x a]; try done;
      rewrite !string_cons_app, !prefix_cons; intros [<- _]; (split; [done | by destruct (_ +:+ _)]). }
  destruct (String.prefix "v" v) eqn:Ep.
  - destruct v as [|c v]; [done|]. apply prefix_cons in Ep as [<- _]. rewrite TrimPrefix_char in Ht. by apply prefix_cons.
  - unfold TrimPrefix in Ht. rewrite Ep in Ht. congruence.
Qed.

(** The check of a pair finds it in the matrix never, for any version as it is written
    in a go.mod: it calls every pair unknown and compatible, also those that the matrix
    lists as incompatible. *)
Theorem Check_always_unknown sdk grafana : String.prefix "vv" sdk = false →
  Check_versions sdk grafana = mkResult sdk grafana true "" true.
Proof.
  intros H. unfold Check_versions. destruct (List.find _ matrix) as [p|] eqn:E; [|done].
  apply List.find_some in E as [Hp [E _]%andb_true_iff]. apply String.eqb_eq in E.
  by rewrite (minorVersion_no_v sdk p Hp) in H.
Qed.

Lemma Check_always_unknown_witness :
  Check_versions "v0.26.0" "11.0" = mkResult "v0.26.0" "11.0" true "" true ∧
  existsb (λ p, String.eqb (pr_SDKVersion p) "v0.26" && String.eqb (pr_GrafanaVersion p) "11.0" && negb (pr_Compatible p))
    matrix = true.
Proof. split; [by apply Check_always_unknown | reflexivity]. Defined.

(** So the command, which is meant to fail for incompatible pairs, fails only when it cannot
    read the versions. *)
Lemma runCompat_never_refuses read dir grafana v : readSDKVersionFromGoMod read = inl v → String.prefix "vv" v = false →
  grafana ≠ "" → (runCompat read dir grafana).2 = None.
Proof.
  intros E Hv Hg. unfold runCompat, CheckFromGoMod. rewrite E. apply String.eqb_neq in Hg. rewrite Hg.
  by rewrite Check_always_unknown.
Qed.

(** With the versions of the matrix as the check looks for them, it decides what the matrix
    says: the fault is the v alone. *)
Lemma Check_with_v sdk grafana p : In p matrix → minorVersion sdk = pr_SDKVersion p → minorVersion grafana = pr_GrafanaVersion p →
  rs_Unknown (Check_versions sdk grafana) = false.
Proof.
  intros Hp Hs Hg. unfold Check_versions. destruct (List.find _ matrix) as [q|] eqn:E; [done|].
  pose proof (List.find_none _ _ E p Hp) as H. simpl in H. by rewrite Hs, Hg, !String.eqb_refl in H.
Qed.

(** ** The version in a go.mod *)

(** The first line of a require block with the module gives the version. *)
Lemma readSDKVersion_first read data before line after v :
  read "go.mod" = inl data → Split data newline = before ++ line :: after →
  Forall (λ l, sdk_line l = None) before → sdk_line line = Some v →
  readSDKVersionFromGoMod read = inl v.
Proof.
  intros Hr Hs Hb Hl. unfold readSDKVersionFromGoMod. rewrite Hr, Hs.
  enough (E : first_sdk_line (before ++ line :: after) = Some v) by by rewrite E.
  clear Hs. induction Hb as [|l ls H _ IH]; cbn [first_sdk_line app]; [by rewrite Hl | by rewrite H].
Qed.

(** A requirement on a line of its own is not found, and the arrow of a replacement in a
    block is taken for a version. *)
Lemma require_line_not_found :
  sdk_line "require github.com/grafana/grafana-app-sdk v0.28.0" = None ∧
  sdk_line "	github.com/grafana/grafana-app-sdk v0.28.0 // indirect" = Some "v0.28.0" ∧
  sdk_line "	github.com/grafana/grafana-app-sdk => ../sdk" = Some "=>".
Proof. split_and!; reflexivity. Qed.
