(* ===== verification/Codemods.v ===== *)
(** * Codemods ([migrate/codemods], [migrate/report.go], [cmd/grafana-app-sdk/migrate.go])

    The rewriting of the Go files of a project, the codemods, the engine that runs those of a
    range of versions, the report and the command.  The state is the tree of the project;
    [golang.org/x/mod/semver] is a class, and so is [sort.Slice], which need not be stable. *)
From S2P Require Import Prelude GoValues Resource SourceTree Compat.

#[local] Open Scope string_scope.
#[local] Open Scope list_scope.

(** ** Versions and sorting *)

(** [golang.org/x/mod/semver]: [Compare] is a total preorder. *)
Class Semver := {
  IsValid : string → bool;
  Compare : string → string → comparison;
  Compare_opp v w : Compare w v = CompOpp (Compare v w);
  Compare_trans u v w : Compare u v ≠ Gt → Compare v w ≠ Gt → Compare u w ≠ Gt;
}.

(** [sort.Slice]: by a comparison that is a strict weak order, the elements in some order in
    which none is before one that is less. *)
Class SliceSort := {
  sort_slice {A} : (A → A → bool) → list A → list A;
  sort_slice_perm {A} (less : A → A → bool) l : sort_slice less l ≡ₚ l;
  sort_slice_sorted {A} (less : A → A → bool) l :
    (∀ x y, less x y = true → less y x = false) →
    (∀ x y z, less x y = false → less y z = false → less x z = false) →
    StronglySorted (λ x y, less y x = false) (sort_slice less l);
}.

(** ** Changes of files *)

(** [FileChange] *)
Record FileChange := mkFileChange {
  fc_Path : string;
  fc_Description : string;
  fc_OldContent : string;
  fc_NewContent : string;
  fc_Added : bool;
  fc_Deleted : bool;
}.

(** What [rewriteGoFiles] does with a file. *)
Definition rewrite_file (dryRun : bool) (fn : string → string → option (string * string)) (rel : string) (f : SourceFile)
  : (list FileChange * option GoError) * SourceFile :=
  match fl_read f with
  | Some err => (([], Some err), f)
  | None =>
      match fn rel (fl_content f) with
      | None => (([], None), f)
      | Some (newContent, desc) =>
          let fc := mkFileChange rel desc (fl_content f) newContent false false in
          if negb dryRun then
            match fl_write f with
            | Some err => (([fc], Some err), f)
            | None => (([fc], None), mkSourceFile newContent (fl_read f) (fl_write f))
            end
          else (([fc], None), f)
      end
  end.

(** [rewriteGoFiles], in a directory of a name. *)
Definition rewriteGoFiles (dir : string) (dryRun : bool) (fn : string → string → option (string * string))
  : M Node (list FileChange * option GoError) := λ tree, walk (rewrite_file dryRun fn) dir "." tree.

(** ** The codemods *)

(** [Codemod] *)
Record Codemod := mkCodemod {
  cm_ID : string;
  cm_Description : string;
  cm_AppliesFrom : string;
  cm_AppliesTo : string;
  cm_Apply : string → bool → M Node (list FileChange * option GoError);
}.

Definition substitute (old new desc : string) (_ content : string) : option (string * string) :=
  if negb (Contains content old) then None else Some (ReplaceAll content old new, desc).

Definition kindRegistryOld : string := quoted "github.com/grafana/grafana-app-sdk/resource/registry".
Definition kindRegistryNew : string := quoted "github.com/grafana/grafana-app-sdk/kindsys/registry".

Definition KindRegistryImportCodemod : Codemod :=
  mkCodemod "update-kind-registry-import"
    ("Rewrites kind registry import path from " +:+ quoted "grafana-app-sdk/resource/registry" +:+ " to " +:+
     quoted "grafana-app-sdk/kindsys/registry" +:+ " (changed in v0.28)")
    "v0.26.0" "v0.28.0"
    (λ dir dryRun, rewriteGoFiles dir dryRun
       (substitute kindRegistryOld kindRegistryNew "rewrite kind registry import path to kindsys/registry")).

Definition RenameResourceClientCodemod : Codemod :=
  mkCodemod "rename-resource-client" "Renames ResourceClient to TypedClient (deprecated in v0.27, removed in v0.29)"
    "v0.27.0" "v0.29.0"
    (λ dir dryRun, rewriteGoFiles dir dryRun
       (substitute "ResourceClient" "TypedClient" "rename ResourceClient → TypedClient")).

Definition RemoveLegacyWatcherCodemod : Codemod :=
  mkCodemod "remove-legacy-watcher" "Replaces deprecated resource.Watcher with resource.InformerWatcher (removed in v0.30)"
    "v0.28.0" "v0.30.0"
    (λ dir dryRun, rewriteGoFiles dir dryRun
       (substitute "resource.Watcher" "resource.InformerWatcher"
          "replace deprecated resource.Watcher with resource.InformerWatcher")).

(** ** The engine *)
Section Engine.
Context `{SV : !Semver, SS : !SliceSort}.

(** [canonicalize] *)
Definition canonicalize (v : string) : string := if negb (String.prefix "v" v) then "v" +:+ v else v.

Definition version_lt (v w : string) : bool := match Compare v w with Lt => true | _ => false end.

(** [AppliesTo] *)
Definition invalid_version (which v : string) : GoError := ErrorString ("invalid " +:+ which +:+ " version " +:+ quoted v).

Definition overlaps (c : Codemod) (from to : string) : bool :=
  version_lt (canonicalize (cm_AppliesFrom c)) to && version_lt from (canonicalize (cm_AppliesTo c)).

Definition AppliesTo (c : Codemod) (from to : string) : bool + GoError :=
  if negb (IsValid from) then inr (invalid_version "from" from)
  else if negb (IsValid to) then inr (invalid_version "to" to)
  else inl (overlaps c from to).

(** [Engine] *)
Record Engine := mkEngine { en_registry : list Codemod }.
Definition register (e : Engine) (cms : list Codemod) : Engine := mkEngine (en_registry e ++ cms).
Definition NewEngine : Engine :=
  register (mkEngine []) [KindRegistryImportCodemod; RenameResourceClientCodemod; RemoveLegacyWatcherCodemod].

Definition earlier (a b : Codemod) : bool := version_lt (canonicalize (cm_AppliesFrom a)) (canonicalize (cm_AppliesFrom b)).
Definition Engine_List (e : Engine) : list Codemod := sort_slice earlier (en_registry e).

(** [RunResult] *)
Record RunResult := mkRunResult {
  rr_AppliedCodemods : list string;
  rr_SkippedCodemods : list string;
  rr_Changes : list FileChange;
  rr_Errors : gmap string GoError;
}.

(** The loop of [Run]. *)
Fixpoint run_all (dir from to : string) (dryRun : bool) (cms : list Codemod) (r : RunResult)
  : M Node (RunResult + GoError) :=
  match cms with
  | [] => ret (inl r)
  | cm :: cms =>
      match AppliesTo cm from to with
      | inr err => ret (inr (WrapError ("checking codemod " +:+ cm_ID cm +:+ ": ") err))
      | inl false =>
          run_all dir from to dryRun cms
            (mkRunResult (rr_AppliedCodemods r) (rr_SkippedCodemods r ++ [cm_ID cm]) (rr_Changes r) (rr_Errors r))
      | inl true =>
          let* '(changes, err) := cm_Apply cm dir dryRun in
          match err with
          | Some err =>
              run_all dir from to dryRun cms
                (mkRunResult (rr_AppliedCodemods r) (rr_SkippedCodemods r) (rr_Changes r) (<[cm_ID cm := err]> (rr_Errors r)))
          | None =>
              run_all dir from to dryRun cms
                (mkRunResult (rr_AppliedCodemods r ++ [cm_ID cm]) (rr_SkippedCodemods r) (rr_Changes r ++ changes) (rr_Errors r))
          end
      end
  end.

(** [Engine.Run] *)
Definition Engine_Run (e : Engine) (dir from to : string) (dryRun : bool) : M Node (RunResult + GoError) :=
  let from := canonicalize from in
  let to := canonicalize to in
  if negb (IsValid from) then ret (inr (invalid_version "from" from))
  else if negb (IsValid to) then ret (inr (invalid_version "to" to))
  else if negb (version_lt from to) then
    ret (inr (ErrorString ("from version " +:+ from +:+ " must be less than to version " +:+ to)))
  else run_all dir from to dryRun (Engine_List e) (mkRunResult [] [] [] ∅).

(** ** The report *)
Record Report := mkReport { rp_From : string; rp_To : string; rp_DryRun : bool; rp_Result : RunResult }.

Definition HasErrors (r : Report) : bool := bool_decide (rr_Errors (rp_Result r) ≠ ∅).

(** [Print]: the lines that are written. *)
Definition Print_lines `{RO : !RangeOrder} (count : nat → string) (r : Report) : list string :=
  let res := rp_Result r in
  let mode := if rp_DryRun r then "dry-run (no files written)" else "applied" in
  ["## Migration Report: " +:+ rp_From r +:+ " → " +:+ rp_To r +:+ " (" +:+ mode +:+ ")"; ""] ++
  (if HasErrors r then
     ("### Errors (" +:+ count (size (rr_Errors res)) +:+ ")") ::
     ((λ '(id, err), "  - " +:+ id +:+ ": " +:+ Error err) <$> range_map (rr_Errors res)) ++ [""]
   else []) ++
  (match rr_AppliedCodemods res with
   | [] => []
   | ids => ("### Applied codemods (" +:+ count (length ids) +:+ ")") :: ((λ id, "  - " +:+ id) <$> ids) ++ [""]
   end) ++
  (match rr_Changes res with
   | [] => ["No file changes."]
   | changes =>
       ("### Changed files (" +:+ count (length changes) +:+ ")") ::
       ((λ fc, "  - [" +:+ (if fc_Added fc then "added" else if fc_Deleted fc then "deleted" else "modified") +:+ "] " +:+
               fc_Path fc +:+ " — " +:+ fc_Description fc) <$> changes) ++ [""]
   end) ++
  (match rr_SkippedCodemods res with
   | [] => []
   | ids => ["### Skipped codemods (" +:+ count (length ids) +:+ " — outside version range)"; "  " +:+ String.concat ", " ids]
   end).

(** ** The command *)

(** [latestKnownSDKVersion], from the version in the build information, if it is read. *)
Definition latestKnownSDKVersion (info : option string) : string :=
  match info with
  | Some v => if negb (String.eqb v "") && negb (String.eqb v "(devel)") then v else "v0.30.0"
  | None => "v0.30.0"
  end.

(** [runMigrate] without [list-codemods], from the flags: the lines that are printed and the
    error. *)
Definition runMigrate `{RO : !RangeOrder} (count : nat → string) (read : string → string + GoError) (info : option string)
    (dir from to : string) (dryRun : bool) : M Node (list string * option GoError) :=
  match (if String.eqb from "" then readSDKVersionFromGoMod read else inl from) with
  | inr err => ret ([], Some (WrapError "--from not set and could not detect SDK version from go.mod: " err))
  | inl fromVer =>
      let toVer := if String.eqb to "" then latestKnownSDKVersion info else to in
      let* r := Engine_Run NewEngine dir fromVer toVer dryRun in
      ret match r with
          | inr err => ([], Some err)
          | inl r =>
              let report := mkReport fromVer toVer dryRun r in
              (Print_lines count report,
               if HasErrors report then Some (ErrorString "migration completed with errors; see report above") else None)
          end
  end.

(** ** What a run does *)

(** The codemods that apply, executed one after the other on the tree, with what each
    returned. *)
Fixpoint execute (dir : string) (dryRun : bool) (cms : list Codemod)
  : M Node (list (Codemod * (list FileChange * option GoError))) :=
  match cms with
  | [] => ret []
  | c :: cms => let* r := cm_Apply c dir dryRun in let* rs := execute dir dryRun cms in ret ((c, r) :: rs)
  end.

Abbreviation Executed := (list (Codemod * (list FileChange * option GoError)))%type (only parsing).

Definition succeeded (rs : Executed) : list (Codemod * list FileChange) :=
  omap (λ '(c, (changes, err)), match err with None => Some (c, changes) | Some _ => None end) rs.

Definition failures (rs : Executed) (m : gmap string GoError) : gmap string GoError :=
  fold_left (λ m '(c, (_, err)), match err with Some e => <[cm_ID c := e]> m | None => m end) rs m.

(** The report of the codemods of a list that apply, and of the others. *)
Definition result_of (from to : string) (ordered : list Codemod) (rs : Executed) (r : RunResult) : RunResult :=
  mkRunResult (rr_AppliedCodemods r ++ ((λ '(c, _), cm_ID c) <$> succeeded rs))
    (rr_SkippedCodemods r ++ (cm_ID <$> List.filter (λ c, negb (overlaps c from to)) ordered))
    (rr_Changes r ++ (succeeded rs ≫= snd)) (failures rs (rr_Errors r)).

Lemma RunResult_eta (r : RunResult) :
  mkRunResult (rr_AppliedCodemods r) (rr_SkippedCodemods r) (rr_Changes r) (rr_Errors r) = r.
Proof. by destruct r. Qed.

Lemma run_all_spec dir from to dryRun cms : IsValid from = true → IsValid to = true → ∀ r t,
  run_all dir from to dryRun cms r t =
    let '(rs, t') := execute dir dryRun (List.filter (λ c, overlaps c from to) cms) t in (inl (result_of from to cms rs r), t').
Proof.
  intros Hf Ht. induction cms as [|c cms IH]; intros r t.
  - simpl. unfold result_of, ret. simpl. by rewrite !app_nil_r, RunResult_eta.
  - simpl. unfold AppliesTo. rewrite Hf, Ht. simpl. destruct (overlaps c from to) eqn:Eo; simpl.
    + unfold bind. destruct (cm_Apply c dir dryRun t) as [[changes [err|]] t1] eqn:Ea; rewrite IH;
        destruct (execute dir dryRun _ t1) as [rs t2]; unfold ret, result_of; simpl; rewrite Eo; simpl;
        rewrite <- ?app_assoc; reflexivity.
    + rewrite IH. destruct (execute dir dryRun _ t) as [rs t2]. unfold result_of. simpl. rewrite Eo. simpl.
      by rewrite <- app_assoc.
Qed.

(** What a migration does: with a range that is none it fails and leaves the tree; with
    a range of valid versions it runs the registered codemods that overlap it, in the order
    of the versions they apply from, each on the tree the one before has left, also after
    failures; it reports the ones that succeeded with their changes, the failures by ID, and
    the others as skipped. *)
Theorem Engine_Run_correct e dir from to dryRun t :
  let from := canonicalize from in let to := canonicalize to in let ordered := Engine_List e in
  Engine_Run e dir from to dryRun t =
    if IsValid from && IsValid to && version_lt from to then
      let '(rs, t') := execute dir dryRun (List.filter (λ c, overlaps c from to) ordered) t in
      (inl (result_of from to ordered rs (mkRunResult [] [] [] ∅)), t')
    else
      (inr (if negb (IsValid from) then invalid_version "from" from
            else if negb (IsValid to) then invalid_version "to" to
            else ErrorString ("from version " +:+ from +:+ " must be less than to version " +:+ to)), t).
Proof.
  assert (Hc : ∀ v, canonicalize (canonicalize v) = canonicalize v).
  { intros v. unfold canonicalize. destruct (String.prefix "v" v) eqn:E; simpl; [by rewrite E|]. by destruct v. }
  cbv zeta. unfold Engine_Run. rewrite !Hc.
  destruct (IsValid (canonicalize from)) eqn:Ef, (IsValid (canonicalize to)) eqn:Et; simpl; try done.
  destruct (version_lt _ _); simpl; [|done]. by apply run_all_spec.
Qed.

(** The order is that of the versions, and all codemods are considered. *)
Lemma version_lt_asym v w : version_lt v w = true → version_lt w v = false.
Proof. unfold version_lt. rewrite (Compare_opp v w). by destruct (Compare v w). Qed.

Lemma version_lt_false v w : version_lt v w = false ↔ Compare w v ≠ Gt.
Proof. unfold version_lt. rewrite (Compare_opp v w). by destruct (Compare v w). Qed.

Lemma Engine_List_ordered e : Engine_List e ≡ₚ en_registry e ∧
  StronglySorted (λ x y, earlier y x = false) (Engine_List e).
Proof.
  split; [apply sort_slice_perm|]. apply sort_slice_sorted; unfold earlier.
  - intros x y. apply version_lt_asym.
  - intros x y z. rewrite !version_lt_false. intros H1 H2. by eapply Compare_trans.
Qed.

(** A dry run of codemods that keep to it changes nothing. *)
Definition keeps_dry (c : Codemod) : Prop := ∀ dir t, (cm_Apply c dir true t).2 = t.

Lemma Engine_Run_dry e dir from to t : Forall keeps_dry (en_registry e) → (Engine_Run e dir from to true t).2 = t.
Proof.
  intros Hd. destruct (Engine_List_ordered e) as [Hp _]. rewrite <- Hp in Hd. unfold Engine_Run. repeat case_match; try done.
  generalize (mkRunResult [] [] [] ∅) as r. revert Hd. generalize (Engine_List e) as cms. intros cms Hd.
  induction Hd as [|c cms Hc _ IH]; intros r; [done|]. simpl. destruct (AppliesTo c _ _) as [[]|]; try done.
  unfold bind. pose proof (Hc dir t) as E. destruct (cm_Apply c dir true t) as [[changes [err|]] t1]; simpl in E; by rewrite E.
Qed.
End Engine.

(** ** What a codemod does *)
Lemma rewrite_file_dry fn rel f : (rewrite_file true fn rel f).2 = f.
Proof. unfold rewrite_file. by destruct (fl_read f), (fn rel (fl_content f)) as [[]|]. Qed.

(** A dry run of the built-in codemods leaves the tree. *)
Lemma NewEngine_dry : Forall keeps_dry (en_registry NewEngine).
Proof.
  repeat constructor; intros dir t; apply walk_pure; apply rewrite_file_dry.
Qed.

(** The files with a text replaced. *)
Definition replace_in (old new : string) (f : SourceFile) : SourceFile :=
  mkSourceFile (ReplaceAll (fl_content f) old new) (fl_read f) (fl_write f).

Definition change_of (old new desc : string) : string * SourceFile → FileChange := λ '(p, f),
  mkFileChange p desc (fl_content f) (ReplaceAll (fl_content f) old new) false false.

Definition has_text (old : string) : string * SourceFile → bool := λ '(_, f), Contains (fl_content f) old.

Lemma rewrite_file_ok dryRun old new desc p f : (rewrite_file dryRun (substitute old new desc) p f).1.2 = None →
  (rewrite_file dryRun (substitute old new desc) p f).1.1 = (if has_text old (p, f) then [change_of old new desc (p, f)] else []) ∧
  (dryRun = false → (rewrite_file dryRun (substitute old new desc) p f).2 = replace_in old new f).
Proof.
  unfold rewrite_file, substitute, replace_in. simpl. destruct f as [content [e|] w]; simpl; [done|].
  destruct (Contains content old) eqn:Ec; simpl; [|intros _; split; [done|]; intros _; by rewrite ReplaceAll_id].
  destruct dryRun; simpl; [done|]. by destruct w.
Qed.

(** A codemod that succeeds has replaced its text in every Go file of the project and
    changed nothing else, and reports the files that had it, in order; a dry run reports the
    same changes. *)
Theorem rewriteGoFiles_replaces dir old new desc t changes t' :
  rewriteGoFiles dir false (substitute old new desc) t = ((changes, None), t') →
  t' = map_files (λ _, replace_in old new) dir "." t ∧
  changes = change_of old new desc <$> List.filter (has_text old) (go_files dir "." t) ∧
  rewriteGoFiles dir true (substitute old new desc) t = ((changes, None), t).
Proof.
  intros E. pose proof (walk_listable (rewrite_file false (substitute old new desc)) t dir ".") as Hl.
  unfold rewriteGoFiles in E. rewrite E in Hl. specialize (Hl eq_refl). destruct (walk_ok _ _ _ _ _ _ E) as (-> & Hv & ->).
  assert (Hc : ∀ dryRun fs, all_visited (rewrite_file dryRun (substitute old new desc)) fs →
    visited (rewrite_file dryRun (substitute old new desc)) fs = change_of old new desc <$> List.filter (has_text old) fs).
  { intros dryRun fs. induction fs as [|[p f] fs IH]; [done|]. intros [H1 H2]%Forall_cons. unfold visited.
    rewrite bind_cons. fold (visited (rewrite_file dryRun (substitute old new desc)) fs). rewrite IH by done.
    rewrite (proj1 (rewrite_file_ok dryRun old new desc p f H1)). cbn [List.filter]. by destruct (has_text old (p, f)). }
  split_and!; [|by apply Hc|].
  - apply map_files_ext. intros p f Hp. pose proof (proj1 (Forall_forall _ _) Hv _ Hp) as H. by apply rewrite_file_ok.
  - assert (Hv' : all_visited (rewrite_file true (substitute old new desc)) (go_files dir "." t)).
    { eapply Forall_impl; [exact Hv|]. intros [p f]. unfold rewrite_file. destruct (fl_read f); [done|].
      by destruct (substitute _ _ _ p (fl_content f)) as [[]|]. }
    pose proof (walk_succeeds (rewrite_file true (substitute old new desc)) t dir "." Hl Hv') as Es.
    pose proof (walk_pure (rewrite_file true (substitute old new desc)) t (rewrite_file_dry _) dir ".") as Ep.
    unfold rewriteGoFiles. destruct (walk (rewrite_file true (substitute old new desc)) dir "." t) as [[l err] t1] eqn:Ew. change (err = None) in Es. change (t1 = t) in Ep. subst err t1.
    apply walk_ok in Ew as (-> & _ & _). by rewrite !Hc.
Qed.

(** Running it again changes nothing and reports nothing, when the text does not overlap
    with its replacement. *)
Lemma rewriteGoFiles_idempotent dir old new desc t changes t' : no_overlap old new = true →
  rewriteGoFiles dir false (substitute old new desc) t = ((changes, None), t') →
  rewriteGoFiles dir false (substitute old new desc) t' = (([], None), t').
Proof.
  intros Hno E. pose proof (walk_listable (rewrite_file false (substitute old new desc)) t dir ".") as Hl.
  pose proof E as E'. unfold rewriteGoFiles in E'. rewrite E' in Hl. specialize (Hl eq_refl).
  apply walk_ok in E' as (_ & Hv & _). apply rewriteGoFiles_replaces in E as (-> & _ & _).
  set (t' := map_files _ dir "." t).
  assert (Hn : ∀ p f, (p, f) ∈ go_files dir "." t' → rewrite_file false (substitute old new desc) p f = (([], None), f)).
  { intros p f H. unfold t' in H. rewrite go_files_map in H. apply list_elem_of_fmap in H as ([p0 f0] & [= -> ->] & H).
    pose proof (proj1 (Forall_forall _ _) Hv _ H) as Hf. simpl in Hf. revert Hf. unfold rewrite_file, substitute. simpl.
    rewrite ReplaceAll_removes by done. by destruct (fl_read f0). }
  unfold rewriteGoFiles. destruct (walk _ dir "." t') as [[l err] t2] eqn:Ew.
  assert (err = None) as ->.
  { pose proof (walk_succeeds (rewrite_file false (substitute old new desc)) t' dir ".") as H. rewrite Ew in H. apply H.
    - by apply listable_map.
    - apply Forall_forall. intros [p f] Hp. by rewrite Hn. }
  apply walk_ok in Ew as (-> & _ & ->). f_equal; [f_equal|].
  - unfold visited. assert (H : ∀ fs, (∀ p f, (p, f) ∈ fs → rewrite_file false (substitute old new desc) p f = (([], None), f)) →
      (fs ≫= λ '(p, f), (rewrite_file false (substitute old new desc) p f).1.1) = []).
    { intros fs H. induction fs as [|[p f] fs IH]; [done|]. rewrite bind_cons, H by left. apply IH. intros; apply H; by right. }
    by apply H.
  - apply map_files_id. intros p f Hp. by rewrite Hn.
Qed.

Lemma ResourceClient_no_overlap : no_overlap "ResourceClient" "TypedClient" = true.
Proof. reflexivity. Qed.

(** ** Faults *)

(** A project whose directory is hidden, or named vendor, is passed over without an error. *)
Lemma hidden_project_skipped dir dryRun fn entries err : skipped dir = true →
  rewriteGoFiles dir dryRun fn (NDir entries err) = (([], None), NDir entries err).
Proof. intros H. unfold rewriteGoFiles. simpl. by rewrite H. Qed.

(** The watcher codemod rewrites the beginnings of other names, which it is meant to leave,
    and it can make new occurrences of what it replaces. *)
Lemma unrelated_watcher_rewritten :
  ReplaceAll "resource.WatcherPool" "resource.Watcher" "resource.InformerWatcher" = "resource.InformerWatcherPool" ∧
  no_overlap "resource.Watcher" "resource.InformerWatcher" = false.
Proof. by split; vm_compute. Qed.

(** ** Instances for the witnesses *)

(** Versions of at most three numbers below a thousand, by their rank. *)
Fixpoint digits_of (s : string) (n : N) : option N :=
  match s with
  | EmptyString => Some n
  | String c s =>
      let d := N_of_ascii c in
      if (48 <=? d)%N && (d <=? 57)%N then digits_of s (10 * n + (d - 48))%N else None
  end.

Definition rank_of (v : string) : option N :=
  if String.prefix "v" v then
    match SplitN (TrimPrefix v "v") "." 3 with
    | [a; b; c] =>
        match digits_of a 0, digits_of b 0, digits_of c 0 with
        | Some a, Some b, Some c => Some (1 + (a * 1000 + b) * 1000 + c)%N
        | _, _, _ => None
        end
    | _ => None
    end
  else None.

Definition rank (v : string) : N := default 0%N (rank_of v).

#[export] Program Instance TestSemver : Semver := {
  IsValid v := bool_decide (is_Some (rank_of v));
  Compare v w := N.compare (rank v) (rank w);
}.
Next Obligation. intros v w. apply N.compare_antisym. Qed.
Next Obligation.
  intros u v w. simpl. intros H1 H2. exact (N.le_trans _ _ _ H1 H2).
Qed.

Fixpoint insert_by {A} (less : A → A → bool) (x : A) (l : list A) : list A :=
  match l with
  | [] => [x]
  | y :: l => if less y x then y :: insert_by less x l else x :: y :: l
  end.

Lemma insert_by_perm {A} (less : A → A → bool) x l : insert_by less x l ≡ₚ x :: l.
Proof. induction l as [|y l IH]; simpl; [done|]. destruct (less y x); [|done]. rewrite IH. apply Permutation_swap. Qed.

#[export] Program Instance TestSliceSort : SliceSort := {
  sort_slice A less l := foldr (insert_by less) [] l;
}.
Next Obligation. intros A less l. induction l as [|x l IH]; simpl; [done|]. by rewrite insert_by_perm, IH. Qed.
Next Obligation.
  intros A less l Ha Ht. induction l as [|x l IH]; simpl; [constructor|]. revert IH. generalize (foldr (insert_by less) [] l) as s.
  clear l. intros s. induction s as [|y s IH]; intros Hs; simpl; [repeat constructor|].
  apply StronglySorted_inv in Hs as [Hs Hy]. destruct (less y x) eqn:E.
  - constructor; [by apply IH|]. rewrite insert_by_perm. constructor; [by apply Ha | done].
  - constructor; [by constructor|]. constructor; [done|]. eapply Forall_impl; [exact Hy|]. intros z Hz. simpl in *. by eapply Ht.
Qed.

Definition test_tree : Node :=
  NDir [("a.go", NFile (mkSourceFile "c ResourceClient" None None));
        ("b.txt", NFile (mkSourceFile "ResourceClient" None None));
        ("pkg", NDir [("c.go", NFile (mkSourceFile "resource.Watcher" None None))] None);
        ("vendor", NDir [("d.go", NFile (mkSourceFile "ResourceClient" None None))] None)] None.

Definition test_after : Node :=
  NDir [("a.go", NFile (mkSourceFile "c TypedClient" None None));
        ("b.txt", NFile (mkSourceFile "ResourceClient" None None));
        ("pkg", NDir [("c.go", NFile (mkSourceFile "resource.Watcher" None None))] None);
        ("vendor", NDir [("d.go", NFile (mkSourceFile "ResourceClient" None None))] None)] None.

Lemma rewriteGoFiles_replaces_witness :
  let change := mkFileChange "a.go" "d" "c ResourceClient" "c TypedClient" false false in
  rewriteGoFiles "project" true (substitute "ResourceClient" "TypedClient" "d") test_tree = (([change], None), test_tree).
Proof.
  intros change.
  exact (proj2 (proj2 (rewriteGoFiles_replaces "project" "ResourceClient" "TypedClient" "d" test_tree [change] test_after eq_refl))).
Defined.

(** A run from v0.27.0 to v0.28.0, and from v0.28.0 to v0.30.0: the first runs the codemods of
    the import and of the client, the second those of the client and of the watcher. *)
Example NewEngine_ranges :
  let applied from to := match (Engine_Run NewEngine "project" from to false test_tree).1 with
                         | inl r => (rr_AppliedCodemods r, rr_SkippedCodemods r, fc_Path <$> rr_Changes r)
                         | inr _ => ([], [], [])
                         end in
  applied "v0.27.0" "0.28.0" = (["update-kind-registry-import"; "rename-resource-client"], ["remove-legacy-watcher"], ["a.go"]) ∧
  applied "v0.28.0" "v0.30.0" =
    (["rename-resource-client"; "remove-legacy-watcher"], ["update-kind-registry-import"], ["a.go"; "pkg/c.go"]).
Proof. by split; vm_compute. Qed.

(** The changes that a codemod made before it failed are not reported: the first file has
    been written. *)
Definition locked_tree : Node :=
  NDir [("a.go", NFile (mkSourceFile "ResourceClient" None None));
        ("b.go", NFile (mkSourceFile "ResourceClient" None (Some (ErrorString "permission denied"))))] None.

Lemma failed_changes_unreported :
  match Engine_Run NewEngine "project" "v0.28.0" "v0.29.0" false locked_tree with
  | (inl r, NDir ((_, NFile f) :: _) _) =>
      (fl_content f, rr_Changes r, rr_Errors r !! "rename-resource-client") =
      ("TypedClient", [], Some (ErrorString "permission denied"))
  | _ => False
  end.
Proof. vm_compute. reflexivity. Qed.
