(* ===== verification/Deprecations.v ===== *)
(** * Deprecations ([migrate/deprecations], [cmd/grafana-app-sdk/lint.go])

    The registry of deprecated symbols, the scanner that finds them in the Go files of a
    project, what it prints and the command. *)
From S2P Require Import Prelude GoValues Resource SourceTree Codemods.

#[local] Open Scope string_scope.
#[local] Open Scope list_scope.

(** [Entry], [Registry] *)
Record Entry := mkEntry {
  en_Symbol : string;
  en_DeprecatedSince : string;
  en_RemovedIn : string;
  en_Replacement : string;
  en_MigrationGuide : string;
}.

Definition builtinEntries : list Entry := [
  mkEntry "resource.Watcher" "v0.28.0" "v0.30.0" "resource.InformerWatcher"
    "https://github.com/grafana/grafana-app-sdk/blob/main/docs/migrations/v0.28.md";
  mkEntry "ResourceClient" "v0.27.0" "v0.29.0" "TypedClient"
    "https://github.com/grafana/grafana-app-sdk/blob/main/docs/migrations/v0.27.md";
  mkEntry (quoted "github.com/grafana/grafana-app-sdk/resource/registry") "v0.26.0" "v0.28.0"
    (quoted "github.com/grafana/grafana-app-sdk/kindsys/registry")
    "https://github.com/grafana/grafana-app-sdk/blob/main/docs/migrations/v0.26.md"
].

Record Registry := mkRegistry { rg_entries : list Entry }.
Definition Default : Registry := mkRegistry builtinEntries.
Definition Entries (r : Registry) : list Entry := rg_entries r.
Definition Add (r : Registry) (entries : list Entry) : Registry := mkRegistry (rg_entries r ++ entries).

(** [Warning] and its text; [count] writes a number. *)
Record Warning := mkWarning {
  w_File : string;
  w_Line : Z;
  w_Symbol : string;
  w_Since : string;
  w_RemovedIn : string;
  w_Replace : string;
  w_GuideURL : string;
}.

Definition Warning_String (count : Z → string) (w : Warning) : string :=
  "WARNING " +:+ w_File w +:+ ":" +:+ count (w_Line w) +:+ ": " +:+ w_Symbol w +:+ " is deprecated since " +:+ w_Since w +:+
  (if negb (String.eqb (w_RemovedIn w) "") then ", removed in " +:+ w_RemovedIn w else "") +:+
  (if negb (String.eqb (w_Replace w) "") then String newline ("  → Use " +:+ w_Replace w +:+ " instead") else "") +:+
  (if negb (String.eqb (w_GuideURL w) "") then String newline ("  → See: " +:+ w_GuideURL w) else "").

(** ** The scanner *)

(** The warnings of a line. *)
Definition line_warnings (entries : list Entry) (rel : string) (lineNo : Z) (line : string) : list Warning :=
  omap (λ e, if Contains line (en_Symbol e)
             then Some (mkWarning rel lineNo (en_Symbol e) (en_DeprecatedSince e) (en_RemovedIn e) (en_Replacement e)
                          (en_MigrationGuide e))
             else None) entries.

(** [bufio.Scanner]: it stops at a line that does not fit its buffer. *)
Definition ErrTooLong : GoError := ErrorString "bufio.Scanner: token too long".
Definition too_long (line : string) : bool := (65536 <=? Z.of_nat (String.length line))%Z.

Fixpoint scan_lines (entries : list Entry) (rel : string) (lineNo : Z) (lines : list string) : list Warning * option GoError :=
  match lines with
  | [] => ([], None)
  | line :: lines =>
      if too_long line then ([], Some ErrTooLong)
      else
        let '(ws, err) := scan_lines entries rel (lineNo + 1) lines in
        (line_warnings entries rel lineNo (drop_cr line) ++ ws, err)
  end.

(** [scanFile], and what the walk keeps of it: the warnings of a file that was read to its
    end. *)
Definition scanFile (r : Registry) (rel : string) (f : SourceFile) : list Warning * option GoError :=
  match fl_read f with
  | Some err => ([], Some err)
  | None => scan_lines (Entries r) rel 1 (raw_lines (Split (fl_content f) newline))
  end.

Definition scan_visit (r : Registry) (rel : string) (f : SourceFile) : (list Warning * option GoError) * SourceFile :=
  match scanFile r rel f with
  | (ws, None) => ((ws, None), f)
  | (_, Some err) => (([], Some err), f)
  end.

(** [Scan], in a directory of a name. *)
Definition Scan (r : Registry) (dir : string) (tree : Node) : list Warning * option GoError :=
  (walk (scan_visit r) dir "." tree).1.

(** [PrintText]: the lines; [PrintJSON] is [encoding/json]. *)
Definition PrintText (count : Z → string) (warnings : list Warning) : list string := Warning_String count <$> warnings.

(** [runLint], from the flags: what is printed and the error. *)
Definition runLint (count : Z → string) (print_json : list Warning → list string * option GoError) (checkDeprecations : bool)
    (help : list string) (format dir : string) (tree : Node) : list string * option GoError :=
  if negb checkDeprecations then (help, None)
  else
    match Scan Default dir tree with
    | (_, Some err) => ([], Some (WrapError "scanning for deprecations: " err))
    | ([], None) => (["No deprecation warnings found."], None)
    | (warnings, None) =>
        let found := Some (ErrorString (count (Z.of_nat (length warnings)) +:+ " deprecation warning(s) found")) in
        if String.eqb format "json" then
          match print_json warnings with
          | (out, Some err) => (out, Some err)
          | (out, None) => (out, found)
          end
        else (PrintText count warnings, found)
    end.

(** ** Properties *)

(** The lines of a file with their numbers, from a number. *)
Fixpoint numbered (n : Z) (lines : list string) : list (Z * string) :=
  match lines with [] => [] | l :: ls => (n, drop_cr l) :: numbered (n + 1) ls end.

Definition file_warnings (entries : list Entry) : string * SourceFile → list Warning := λ '(p, f),
  numbered 1 (raw_lines (Split (fl_content f) newline)) ≫= λ '(n, l), line_warnings entries p n l.

Lemma scan_lines_ok entries rel lines : ∀ n ws, scan_lines entries rel n lines = (ws, None) →
  ws = numbered n lines ≫= λ '(n, l), line_warnings entries rel n l.
Proof.
  induction lines as [|l lines IH]; intros n ws; [by intros [= <-]|].
  cbn [scan_lines numbered]. destruct (too_long l); [done|].
  destruct (scan_lines entries rel (n + 1) lines) as [ws' err] eqn:E. intros [= <- ->]. rewrite bind_cons. f_equal. by apply IH.
Qed.

(** A scan without an error warns of every occurrence of a registered symbol in a line
    of a Go file of the project, once per line and symbol, in the order of the files, lines
    and symbols, and of nothing else. *)
Theorem Scan_exact r dir tree ws : Scan r dir tree = (ws, None) →
  ws = go_files dir "." tree ≫= file_warnings (Entries r).
Proof.
  unfold Scan. destruct (walk (scan_visit r) dir "." tree) as [[l err] t'] eqn:E. simpl. intros [= -> ->].
  apply walk_ok in E as (-> & Hv & _). induction Hv as [|[p f] fs H _ IH]; [done|].
  unfold visited. rewrite !bind_cons. fold (visited (scan_visit r) fs). rewrite IH. f_equal.
  revert H. unfold scan_visit, scanFile, file_warnings. destruct (fl_read f); [done|].
  destruct (scan_lines _ _ _ _) as [ws [e|]] eqn:Es; [done|]. intros _. by apply scan_lines_ok in Es.
Qed.

(** *** After a migration *)
Lemma raw_lines_part pieces l : l ∈ raw_lines pieces → l ∈ pieces.
Proof.
  induction pieces as [|p ps IH]; [done|]. destruct ps as [|q ps].
  - simpl. destruct (String.eqb p ""); [by intros ?%elem_of_nil | done].
  - change (raw_lines (p :: q :: ps)) with (p :: raw_lines (q :: ps)). intros [->|H]%elem_of_cons; [left | right; by apply IH].
Qed.

(** A symbol that a line has, its file has. *)
Lemma numbered_part n lines m l : (m, l) ∈ numbered n lines → ∃ raw v, raw ∈ lines ∧ raw = l +:+ v.
Proof.
  revert n. induction lines as [|x lines IH]; intros n; [by intros ?%elem_of_nil|]. cbn [numbered].
  intros [[= -> ->]|H]%elem_of_cons.
  - destruct (drop_cr_prefix x) as [v Hv]. exists x, v. split; [left | done].
  - destruct (IH _ H) as (raw & v & Hr & E). exists raw, v. split; [by right | done].
Qed.

Lemma file_warning_symbol entries p f w : w ∈ file_warnings entries (p, f) → Contains (fl_content f) (w_Symbol w) = true.
Proof.
  unfold file_warnings. intros ([n l] & Hw & Hl)%list_elem_of_bind.
  unfold line_warnings in Hw. apply list_elem_of_omap in Hw as (e & _ & He).
  destruct (Contains l (en_Symbol e)) eqn:Ec; [|done]. injection He as <-. simpl.
  apply numbered_part in Hl as (raw & v & Hr & ->). apply raw_lines_part, Split_part in Hr as (u & v' & ->).
  by apply Contains_part, Contains_app_l.
Qed.

(** C27: Once the codemod of a symbol has succeeded on a project, a scan of the project does
    not warn of that symbol, if it does not overlap with its replacement. *)
Theorem migration_clears_warnings r dir old new desc tree changes tree' ws :
  no_overlap old new = true →
  rewriteGoFiles dir false (substitute old new desc) tree = ((changes, None), tree') →
  Scan r dir tree' = (ws, None) → Forall (λ w, w_Symbol w ≠ old) ws.
Proof.
  intros Hno Hm Hs. apply rewriteGoFiles_replaces in Hm as (-> & _ & _). apply Scan_exact in Hs as ->.
  apply Forall_forall. intros w ([p f] & Hw & Hf)%list_elem_of_bind E. apply file_warning_symbol in Hw. rewrite E in Hw.
  rewrite go_files_map in Hf. apply list_elem_of_fmap in Hf as ([p0 f0] & [= -> ->] & _). simpl in Hw.
  by rewrite ReplaceAll_removes in Hw.
Qed.

Lemma migration_clears_warnings_witness :
  Forall (λ w, w_Symbol w ≠ "ResourceClient") (Scan Default "project" test_after).1 ∧
  w_Symbol <$> (Scan Default "project" test_tree).1 = ["ResourceClient"; "resource.Watcher"].
Proof.
  split; [|vm_compute; reflexivity].
  refine (migration_clears_warnings Default "project" "ResourceClient" "TypedClient" "d" test_tree _ test_after _ eq_refl eq_refl _).
  by vm_compute.
Defined.

(** The linter fails exactly when it has something to warn of or cannot read the project. *)
Lemma runLint_fails count print_json help format dir tree : (∀ ws, (print_json ws).2 = None) →
  (runLint count print_json true help format dir tree).2 = None ↔ Scan Default dir tree = ([], None).
Proof.
  intros Hj. unfold runLint. simpl. destruct (Scan Default dir tree) as [[|w ws] [err|]]; simpl; try done.
  destruct (String.eqb format "json"); [|done]. specialize (Hj (w :: ws)). destruct (print_json (w :: ws)) as [out [e|]]; done.
Qed.
