(* ===== verification/Codegen.v ===== *)
(** * Code generation: kinds, manifests and names ([codegen/kind.go], [codegen/manifest.go],
    [codegen/generator.go], [codegen/jennies/util.go])

    The kinds and versions that are parsed from CUE, and the names and paths of what is
    generated.  [cue.Value] is a type with the operations that are called. *)
From S2P Require Import Prelude GoValues Resource SourceTree Codemods.
From stdpp Require Import sorting.

#[local] Open Scope string_scope.
#[local] Open Scope list_scope.

(** ** Calls that may fail: the texts of errors are prefixed *)
Definition wrapped {A} (prefix : string) (r : A + GoError) : A + GoError :=
  match r with inl a => inl a | inr err => inr (WrapError prefix err) end.

Definition bind_err {A B} (r : A + GoError) (k : A → B + GoError) : B + GoError :=
  match r with inl a => k a | inr err => inr err end.
Notation "'let+' x := m 'in' k" := (bind_err m (λ x, k))
  (at level 10, x name, m at level 100, k at level 200) : go_scope.

(** ** Values of CUE *)

(** [cue.Value]: whether it exists, its error, and its fields by label, without the optional
    ones and with them. *)
Class CueValues (Cue : Type) := {
  cue_Exists : Cue → bool;
  cue_Err : Cue → option GoError;
  cue_Fields : Cue → list (string * Cue) + GoError;
  cue_AllFields : Cue → list (string * Cue) + GoError;
}.

(** ** Names *)

(** A letter, a digit or an underscore: what the expressions do not replace. *)
Definition is_word (c : ascii) : bool :=
  let n := N_of_ascii c in
  ((48 <=? n) && (n <=? 57) || (65 <=? n) && (n <=? 90) || (97 <=? n) && (n <=? 122) || (n =? 95))%N.

(** [ToPackageName] *)
Definition ToPackageName : string → string := string_map (λ c, if is_word c then c else "_"%char).

(** What is left when the other characters are removed. *)
Fixpoint keep_words (s : string) : string :=
  match s with
  | EmptyString => ""
  | String c s => if is_word c then String c (keep_words s) else keep_words s
  end.

(** [exportField]; the result of [strings.ToUpper] on the first byte. *)
Definition exportField (field : string) : string :=
  match field with String c s => String (ascii_upper c) s | EmptyString => "" end.

(** [toExportedFieldName] *)
Definition toExportedFieldName (name : string) : string := exportField (keep_words name).

(** [httpMethodToK8sVerb], of the jennies. *)
Definition methodVerb (method : string) : string :=
  if String.eqb method "GET" then "get"
  else if String.eqb method "POST" then "create"
  else if String.eqb method "PUT" then "replace"
  else if String.eqb method "PATCH" then "patch"
  else if String.eqb method "DELETE" then "delete"
  else if existsb (String.eqb method) ["CONNECT"; "OPTIONS"; "HEAD"] then "connect"
  else "".

(** [defaultRouteName] *)
Fixpoint drop_slashes (route : string) : string :=
  match route with
  | String c rest =>
      match rest with
      | EmptyString => route
      | _ => if Ascii.eqb c "/" then drop_slashes rest else route
      end
  | EmptyString => ""
  end.

Definition defaultRouteName (method route : string) : string :=
  methodVerb (ToUpper method) +:+ String.concat "" (toExportedFieldName <$> Split (drop_slashes route) "/").

(** [GetGeneratedGoTypePath] *)
Definition GetGeneratedGoTypePath (groupByKind : bool) (shortGroup version kindMachineName : string) : string :=
  if groupByKind then path_Join (ToPackageName kindMachineName) (ToPackageName version)
  else path_Join (ToPackageName shortGroup) (ToPackageName version).

(** ** Kinds *)
Section Kinds.
Context {Cue : Type}.

Record KindAdmissionCapability := mkKindAdmissionCapability { kac_Operations : nslice string }.
Record ConversionWebhookProperties := mkConversionWebhookProperties { cwp_URL : string }.

(** [KindCodegenProperties]: the settings for TypeScript and for Go. *)
Record KindCodegenProperties := mkKindCodegenProperties {
  kc_TSEnabled : bool;
  kc_TSImportsMap : nmap string;
  kc_TSEnumsAsUnionTypes : bool;
  kc_GoEnabled : bool;
  kc_GoConfig : nmap (any Empty_set);
}.

Record AdditionalPrinterColumn := mkAdditionalPrinterColumn {
  apc_Name : string;
  apc_Type : string;
  apc_Format : option string;
  apc_Description : option string;
  apc_Priority : option Z;
  apc_JSONPath : string;
}.

(** [CustomRoute] with its request and the metadata of its response. *)
Record CustomRoute := mkCustomRoute {
  cr_Name : string;
  cr_Query : Cue;
  cr_Body : Cue;
  cr_Response : Cue;
  cr_TypeMeta : bool;
  cr_ListMeta : bool;
  cr_ObjectMeta : bool;
  cr_Extensions : nmap (any Empty_set);
}.

(** The routes of a path by method, and those by path. *)
Definition MethodRoutes : Type := gmap string CustomRoute.
Definition PathRoutes : Type := nmap MethodRoutes.

Record KindProperties := mkKindProperties {
  kp_Kind : string;
  kp_Group_ : string;
  kp_ManifestGroup : string;
  kp_MachineName : string;
  kp_PluralMachineName : string;
  kp_PluralName : string;
  kp_Current : string;
  kp_Scope : string;
  kp_Validation : KindAdmissionCapability;
  kp_Mutation : KindAdmissionCapability;
  kp_Conversion : bool;
  kp_ConversionWebhookProps : ConversionWebhookProperties;
  kp_Codegen : KindCodegenProperties;
}.

Record KindVersion := mkKindVersion {
  kv_Version : string;
  kv_Schema : Cue;
  kv_Codegen : KindCodegenProperties;
  kv_Served : bool;
  kv_SelectableFields : nslice string;
  kv_Validation : KindAdmissionCapability;
  kv_Mutation : KindAdmissionCapability;
  kv_AdditionalPrinterColumns : nslice AdditionalPrinterColumn;
  kv_Routes : PathRoutes;
}.

Record AnyKind := mkAnyKind { ak_Props : KindProperties; ak_AllVersions : list KindVersion }.

(** [AnyKind.Version] *)
Definition AnyKind_Version (a : AnyKind) (v : string) : option KindVersion :=
  List.find (λ k, String.eqb v (kv_Version k)) (ak_AllVersions a).

Record VersionedKind := mkVersionedKind {
  vk_Kind : string;
  vk_MachineName : string;
  vk_PluralMachineName : string;
  vk_PluralName : string;
  vk_Scope : string;
  vk_Validation : KindAdmissionCapability;
  vk_Mutation : KindAdmissionCapability;
  vk_Conversion : bool;
  vk_ConversionWebhookProps : ConversionWebhookProperties;
  vk_Codegen : KindCodegenProperties;
  vk_Served : bool;
  vk_SelectableFields : nslice string;
  vk_AdditionalPrinterColumns : nslice AdditionalPrinterColumn;
  vk_Schema : Cue;
  vk_Routes : PathRoutes;
}.

(** ** Manifests *)

(** The roles and their bindings. *)
Record RoleKind := mkRoleKind_ { rlk_Kind : string; rlk_Verbs : nslice string; rlk_PermissionSet : option string }.
Record Role := mkRole_ {
  rl_Title : string;
  rl_Description : string;
  rl_Kinds : nslice RoleKind;
  rl_Routes : nslice string;
}.
Record RoleBindings := mkRoleBindings_ {
  rlb_Viewer : nslice string;
  rlb_Editor : nslice string;
  rlb_Admin : nslice string;
  rlb_Additional : nmap (nslice string);
}.

Record AppManifestKindPermission := mkKindPermission_ { akp_Group : string; akp_Resource : string; akp_Actions : nslice string }.

Record AppManifestProperties := mkAppManifestProperties {
  amp_AppName : string;
  amp_AppDisplayName : string;
  amp_Group : string;
  amp_FullGroup : string;
  amp_AccessKinds : nslice AppManifestKindPermission;
  amp_OperatorURL : option string;
  amp_PreferredVersion : string;
  amp_Roles : nmap Role;
  amp_RoleBindings : option RoleBindings;
}.

(** [VersionCustomRoutes], [Version] by the results of its methods, [SimpleVersion]. *)
Record VersionCustomRoutes := mkVersionCustomRoutes { vcr_Namespaced : PathRoutes; vcr_Cluster : PathRoutes }.

Record VersionProperties := mkVersionProperties { vp_Name : string; vp_Served : bool; vp_Codegen : KindCodegenProperties }.

Record SimpleVersion := mkSimpleVersion {
  sv_Properties : VersionProperties;
  sv_AllKinds : list VersionedKind;
  sv_CustomRoutes : option VersionCustomRoutes;
}.

Definition SimpleVersion_Name (v : SimpleVersion) : string := vp_Name (sv_Properties v).
Definition SimpleVersion_Routes (v : SimpleVersion) : VersionCustomRoutes :=
  match sv_CustomRoutes v with None => mkVersionCustomRoutes None None | Some r => r end.

(** [SimpleManifest]; a nil version panics when it is used, and is left out. *)
Record SimpleManifest := mkSimpleManifest {
  smf_Properties : AppManifestProperties;
  smf_AllVersions : nmap SimpleVersion;
}.

(** [AppManifest]: the results of the methods that the jennies call. *)
Record AppManifest := mkAppManifest {
  am_Name : string;
  am_Versions : list SimpleVersion;
  am_Properties : AppManifestProperties;
}.

Context `{RO : !RangeOrder, SS : !SliceSort}.

Definition name_lt (a b : string) : bool := match String.compare a b with Lt => true | _ => false end.

(** [slices.SortFunc] with [strings.Compare] of a key. *)
Definition sort_by {A} (key : A → string) : list A → list A := sort_slice (λ a b, name_lt (key a) (key b)).

(** [SimpleManifest.Versions] *)
Definition SimpleManifest_Versions (m : SimpleManifest) : list SimpleVersion :=
  sort_by SimpleVersion_Name (range_map (items (smf_AllVersions m))).*2.

Definition as_AppManifest (m : SimpleManifest) : AppManifest :=
  mkAppManifest (amp_AppName (smf_Properties m)) (SimpleManifest_Versions m) (smf_Properties m).

(** [SimpleManifest.Kinds] *)
Definition kind_properties (p : AppManifestProperties) (kind : VersionedKind) : KindProperties :=
  mkKindProperties (vk_Kind kind) (amp_FullGroup p) (amp_Group p) (vk_MachineName kind) (vk_PluralMachineName kind)
    (vk_PluralName kind) (amp_PreferredVersion p) (vk_Scope kind) (vk_Validation kind) (vk_Mutation kind) (vk_Conversion kind)
    (vk_ConversionWebhookProps kind) (vk_Codegen kind).

Definition kind_version (version : string) (kind : VersionedKind) : KindVersion :=
  mkKindVersion version (vk_Schema kind) (vk_Codegen kind) (vk_Served kind) (vk_SelectableFields kind) (vk_Validation kind)
    (vk_Mutation kind) (vk_AdditionalPrinterColumns kind) (vk_Routes kind).

Definition add_kind_version (p : AppManifestProperties) (version : string) (kinds : gmap string AnyKind) (kind : VersionedKind)
  : gmap string AnyKind :=
  let k := default (mkAnyKind (kind_properties p kind) []) (kinds !! vk_Kind kind) in
  <[vk_Kind kind := mkAnyKind (ak_Props k) (ak_AllVersions k ++ [kind_version version kind])]> kinds.

Definition SimpleManifest_Kinds (m : SimpleManifest) : list AnyKind :=
  (range_map (fold_left (λ kinds '(_, v), fold_left (add_kind_version (smf_Properties m) (SimpleVersion_Name v)) (sv_AllKinds v) kinds)
    (range_map (items (smf_AllVersions m))) ∅)).*2.

(** [versionedKindToKindProperties] *)
Definition versionedKindToKindProperties (kind : VersionedKind) (m : AppManifest) : KindProperties :=
  kind_properties (am_Properties m) kind.

(** [VersionedKinds], [PreferredVersionKinds]: the sequences they yield. *)
Definition VersionedKinds (m : AppManifest) : list (SimpleVersion * VersionedKind) :=
  am_Versions m ≫= λ v, (v,.) <$> sv_AllKinds v.

Definition PreferredVersionKinds (m : AppManifest) : list (SimpleVersion * VersionedKind) :=
  am_Versions m ≫= λ v,
    if String.eqb (SimpleVersion_Name v) (amp_PreferredVersion (am_Properties m)) then (v,.) <$> sv_AllKinds v else [].

(** [GetGeneratedPath], [getGeneratedPathForKind] *)
Definition GetGeneratedPath (groupByKind : bool) (kind : AnyKind) (version : string) : string :=
  if groupByKind then path_Join (ToPackageName (kp_MachineName (ak_Props kind))) (ToPackageName version)
  else
    let grp := if String.eqb (kp_ManifestGroup (ak_Props kind)) "" then kp_Group_ (ak_Props kind)
               else kp_ManifestGroup (ak_Props kind) in
    path_Join (ToPackageName grp) (ToPackageName version).

Definition getGeneratedPathForKind (groupByKind : bool) (group : string) (kind : VersionedKind) (version : string) : string :=
  if groupByKind then path_Join (ToPackageName (vk_MachineName kind)) (ToPackageName version)
  else path_Join (ToPackageName group) (ToPackageName version).
End Kinds.

Arguments CustomRoute : clear implicits.
Arguments MethodRoutes : clear implicits.
Arguments PathRoutes : clear implicits.
Arguments KindVersion : clear implicits.
Arguments AnyKind : clear implicits.
Arguments VersionedKind : clear implicits.
Arguments VersionCustomRoutes : clear implicits.
Arguments SimpleVersion : clear implicits.
Arguments SimpleManifest : clear implicits.
Arguments AppManifest : clear implicits.

(** ** [Generator] *)
Definition FilteredGenerate {T F} (parse : list string → list T + GoError) (jennies : list T → F + GoError)
    (filterFunc : T → bool) (selectors : list string) : F + GoError :=
  match parse selectors with
  | inr err => inr err
  | inl kinds => jennies (List.filter filterFunc kinds)
  end.

Definition Generate {T F} (parse : list string → list T + GoError) (jennies : list T → F + GoError)
    (selectors : list string) : F + GoError := FilteredGenerate parse jennies (λ _, true) selectors.

(** The loop of a jenny over its inputs, which returns at the first error. *)
Fixpoint collect {A B} (f : A → list B + GoError) (l : list A) : list B + GoError :=
  match l with
  | [] => inl []
  | x :: l =>
      match f x with
      | inr err => inr err
      | inl bs => match collect f l with inr err => inr err | inl bs' => inl (bs ++ bs') end
      end
  end.

(** ** Properties *)

(** Names of packages have word characters only and are made once. *)
Fixpoint all_chars (f : ascii → bool) (s : string) : bool :=
  match s with EmptyString => true | String c s => f c && all_chars f s end.

Lemma ToPackageName_word s : all_chars is_word (ToPackageName s) = true.
Proof.
  unfold ToPackageName. induction s as [|c s IH]; [done|]. simpl. rewrite IH, andb_true_r. by destruct (is_word c) eqn:E.
Qed.

Lemma ToPackageName_id s : all_chars is_word s = true → ToPackageName s = s.
Proof.
  unfold ToPackageName. induction s as [|c s IH]; [done|]. simpl. intros [H1 H2]%andb_true_iff. by rewrite H1, IH.
Qed.

(** But different versions can share a package. *)
Lemma ToPackageName_collides : ToPackageName "v1-alpha" = ToPackageName "v1.alpha".
Proof. reflexivity. Qed.

Section KindsProps.
Context {Cue : Type} `{RO : !RangeOrder, SS : !SliceSort}.
Implicit Types m : AppManifest Cue.

Lemma elem_of_VersionedKinds m v k : (v, k) ∈ VersionedKinds m ↔ v ∈ am_Versions m ∧ k ∈ sv_AllKinds v.
Proof.
  unfold VersionedKinds. rewrite list_elem_of_bind. split.
  - intros (v' & H & Hv). apply list_elem_of_fmap in H as (k' & [= <- <-] & Hk). done.
  - intros [Hv Hk]. exists v. split; [|done]. by apply list_elem_of_fmap_2.
Qed.

Lemma PreferredVersionKinds_filter m :
  PreferredVersionKinds m =
  List.filter (λ '(v, _), String.eqb (SimpleVersion_Name v) (amp_PreferredVersion (am_Properties m))) (VersionedKinds m).
Proof.
  unfold PreferredVersionKinds, VersionedKinds. induction (am_Versions m) as [|v vs IH]; [done|].
  rewrite !bind_cons, List.filter_app, IH. f_equal. destruct (String.eqb _ _) eqn:E.
  - induction (sv_AllKinds v) as [|k ks IHk]; [done|]. rewrite fmap_cons. cbn [List.filter]. rewrite E. by f_equal.
  - induction (sv_AllKinds v) as [|k ks IHk]; [done|]. rewrite fmap_cons. cbn [List.filter]. by rewrite E.
Qed.

(** The versions of a manifest come in the order of their names as texts, whatever the order
    of the map: v10 before v2. *)
Lemma name_lt_asym a b : name_lt a b = true → name_lt b a = false.
Proof. unfold name_lt. rewrite (String.compare_antisym a b). by destruct (String.compare b a). Qed.

Lemma name_lt_false a b : name_lt b a = false ↔ String.le a b.
Proof.
  unfold name_lt, String.le, String.leb. rewrite (String.compare_antisym a b). by destruct (String.compare b a).
Qed.

Lemma sort_by_sorted {A} (key : A → string) l : StronglySorted (λ x y, String.le (key x) (key y)) (sort_by key l).
Proof.
  assert (Hs : StronglySorted (λ x y, name_lt (key y) (key x) = false) (sort_by key l)).
  { apply sort_slice_sorted; [intros x y; apply name_lt_asym|]. intros x y z. rewrite !name_lt_false.
    intros H1 H2. by transitivity (key y). }
  induction Hs as [|x s _ IH Hx]; constructor; [done|]. eapply Forall_impl; [exact Hx|]. intros y. by rewrite name_lt_false.
Qed.

(** Keys that differ give one order, whatever the order of the elements was. *)
Lemma sort_by_unique {A} (key : A → string) l l' : NoDup (key <$> l) → l ≡ₚ l' → sort_by key l = sort_by key l'.
Proof.
  intros Hn Hp. apply (StronglySorted_unique_strong (λ x y, String.le (key x) (key y))); try apply sort_by_sorted.
  - intros x y. unfold sort_by. rewrite !sort_slice_perm, <- Hp. intros Hx Hy H1 H2.
    apply list_elem_of_lookup in Hx as [i Hi], Hy as [j Hj]. assert (E : key x = key y) by (by apply (anti_symm String.le)).
    assert (i = j) as ->; [|congruence]. eapply NoDup_lookup; [exact Hn | |]; rewrite list_lookup_fmap.
    + by rewrite Hi.
    + by rewrite Hj, E.
  - unfold sort_by. by rewrite !sort_slice_perm.
Qed.

Lemma SimpleManifest_Versions_perm (m : SimpleManifest Cue) v :
  v ∈ SimpleManifest_Versions m ↔ ∃ key, items (smf_AllVersions m) !! key = Some v.
Proof.
  unfold SimpleManifest_Versions, sort_by. rewrite sort_slice_perm, list_elem_of_fmap. split.
  - intros ([key v'] & -> & H). exists key. by apply elem_of_range_map.
  - intros [key H]. exists (key, v). split; [done|]. by apply elem_of_range_map.
Qed.

Lemma versions_as_text : name_lt "v10" "v2" = true.
Proof. reflexivity. Qed.
End KindsProps.
