(* ===== verification/ManifestJenny.v ===== *)
(** * The manifest generator ([codegen/jennies/manifest.go])

    The manifest data that is made from the parsed kinds: the kinds of versions with their
    admission and schemas, the OpenAPI paths of custom routes, the default roles, and the
    validation of roles.  The OpenAPI document of a CUE value is an argument; its schemas
    are trees.  A reference is its text, taken to be one that can be parsed. *)
From S2P Require Import Prelude GoValues Resource VersionSchema Manifest SourceTree Codemods Codegen.
From stdpp Require Import sorting.

#[local] Open Scope string_scope.
#[local] Open Scope list_scope.

(** ** Schemas *)

(** [spec.Schema]; [spec.SchemaProps] is one without extensions.  What is not looked at is
    in the rest, of some type. *)
Inductive Schema (X : Type) := mkSchema_ {
  sc_Ref : string;
  sc_Description : string;
  sc_Type : nslice string;
  sc_Format : string;
  sc_Properties : nmap (Schema X);
  sc_Required : list string;
  sc_AdditionalProperties : option (bool * option (Schema X));
  sc_Items : option (option (Schema X) * list (Schema X));
  sc_Extensions : list string;
  sc_Rest : option X;
}.
Arguments mkSchema_ {X}.
Arguments sc_Ref {X}.
Arguments sc_Description {X}.
Arguments sc_Type {X}.
Arguments sc_Format {X}.
Arguments sc_Properties {X}.
Arguments sc_Required {X}.
Arguments sc_AdditionalProperties {X}.
Arguments sc_Items {X}.
Arguments sc_Extensions {X}.
Arguments sc_Rest {X}.

(** [strings.Split(ref, "/")] with the last part changed, joined again. *)
Fixpoint map_last (f : string → string) (l : list string) : list string :=
  match l with
  | [] => []
  | [x] => [f x]
  | x :: l => x :: map_last f l
  end.

Definition prefix_ref (prefix : string) (known : string → bool) (ref : string) : string :=
  if negb (String.eqb ref "") then
    String.concat "/" (map_last (λ last, if negb (known last) then prefix +:+ last else last) (Split ref "/"))
  else ref.

(** [prefixReferences], with the names of the schemas that exist already. *)
Section Prefix.
Context {X : Type} (prefix : string) (known : string → bool).

Fixpoint prefixReferences (sch : Schema X) : Schema X :=
  mkSchema_ (prefix_ref prefix known (sc_Ref sch)) (sc_Description sch) (sc_Type sch) (sc_Format sch)
    (match sc_Properties sch with Some props => Some (fmap (M := gmap string) prefixReferences props) | None => None end)
    (sc_Required sch)
    (match sc_AdditionalProperties sch with
     | Some (allows, Some s) => Some (allows, Some (prefixReferences s))
     | ap => ap
     end)
    (match sc_Items sch with
     | Some (s, l) =>
         Some (match s with Some s => Some (prefixReferences s) | None => None end, fmap (M := list) prefixReferences l)
     | None => None
     end)
    (sc_Extensions sch) (sc_Rest sch).
End Prefix.

(** ** Paths of routes *)

(** [spec3.Parameter] of a query, [spec3.RequestBody] and the default response of
    [spec3.Responses] with the schema of their JSON, [spec3.Operation], [spec3.PathProps]. *)
Record QueryParameter (X : Type) := mkParameter { pa_Name : string; pa_Description : string; pa_Required : bool; pa_Schema : Schema X }.
Record RequestBody (X : Type) := mkRequestBody { rb_Required : bool; rb_Description : string; rb_JSON : Schema X }.
Record OperationProps (X : Type) := mkOperationProps {
  opr_OperationId : string;
  opr_Parameters : nslice (QueryParameter X);
  opr_RequestBody : option (RequestBody X);
  opr_Response : option (Schema X);
  opr_Extensions : nmap (any Empty_set);
}.
Record PathItem (X : Type) := mkPathItem {
  pi_Get : option (OperationProps X);
  pi_Post : option (OperationProps X);
  pi_Put : option (OperationProps X);
  pi_Delete : option (OperationProps X);
  pi_Patch : option (OperationProps X);
  pi_Options : option (OperationProps X);
  pi_Head : option (OperationProps X);
}.
Arguments mkParameter {X}.
Arguments pa_Name {X}.
Arguments pa_Required {X}.
Arguments pa_Schema {X}.
Arguments mkRequestBody {X}.
Arguments rb_JSON {X}.
Arguments rb_Required {X}.
Arguments mkOperationProps {X}.
Arguments opr_OperationId {X}.
Arguments opr_Parameters {X}.
Arguments opr_RequestBody {X}.
Arguments opr_Response {X}.
Arguments opr_Extensions {X}.
Arguments mkPathItem {X}.
Arguments pi_Get {X}.
Arguments pi_Post {X}.
Arguments pi_Put {X}.
Arguments pi_Delete {X}.
Arguments pi_Patch {X}.
Arguments pi_Options {X}.
Arguments pi_Head {X}.

Section Jenny.
Context {Cue X : Type} `{CV : !CueValues Cue, RO : !RangeOrder, SS : !SliceSort}.

(** [cueToOpenAPIBytes] and the decoding of [components.schemas]: as schemas, and as maps. *)
Context (openapi_schemas : Cue → string → gmap string (Schema X) + GoError).

Definition kindKey : string := "__APPSDKKIND__".

(** The loop over the other schemas, in the order of the map: a name that was added already
    is known to the ones after it. *)
Definition add_schema (refPrefix : string) (schemas : gmap string (Schema X)) (kv : string * Schema X)
  : gmap string (Schema X) :=
  <[refPrefix +:+ kv.1 := prefixReferences refPrefix (λ n, bool_decide (is_Some (schemas !! n))) kv.2]> schemas.

(** [cueSchemaToSpecSchemaProps] *)
Definition cueSchemaToSpecSchemaProps (v : Cue) (refPrefix : string) : Schema X * gmap string (Schema X) + GoError :=
  match openapi_schemas v kindKey with
  | inr err => inr err
  | inl doc =>
      match doc !! kindKey with
      | None => inr (ErrorString ("schema for kind '" +:+ kindKey +:+ "' not found"))
      | Some sch =>
          inl (prefixReferences refPrefix (λ _, false) sch,
               fold_left (add_schema refPrefix) (range_map (delete kindKey doc)) ∅)
      end
  end.

(** [cueSchemaToParameters] *)
Definition sorted_keys {A} (m : gmap string A) : list string := merge_sort String.le (range_keys (dom m)).

Definition parameter_of (required : list string) (props : gmap string (Schema X)) (name : string) : option (QueryParameter X) :=
  (λ s, mkParameter name (sc_Description s) (existsb (String.eqb name) required) s) <$> props !! name.

Definition cueSchemaToParameters (v : Cue) : nslice (QueryParameter X) + GoError :=
  if negb (cue_Exists v) then inl None
  else
    match cue_Err v with
    | Some err => inr (WrapError "input CUE value for query params has error: " err)
    | None =>
        bind_err (wrapped "error converting query param CUE schema to OpenAPI props: " (cueSchemaToSpecSchemaProps v ""))
          (λ '(sch, _),
             match sc_Type sch, sc_Properties sch with
             | Some type, Some props =>
                 if existsb (String.eqb "object") type
                 then inl (Some (omap (parameter_of (sc_Required sch) props) (sorted_keys props)))
                 else inl (Some [])
             | _, _ => inl (Some [])
             end)
    end.

(** [cueSchemaToRequestBody] *)
Definition cueSchemaToRequestBody (v : Cue) (refPrefix : string) : option (RequestBody X) * gmap string (Schema X) + GoError :=
  if negb (cue_Exists v) then inl (None, ∅)
  else
    match cue_Err v with
    | Some err => inr (WrapError "input CUE value for request body has error: " err)
    | None =>
        bind_err (wrapped "error converting request body CUE schema to OpenAPI props: " (cueSchemaToSpecSchemaProps v refPrefix))
          (λ '(sch, additional),
             inl (Some (mkRequestBody (negb (bool_decide (sc_Required sch = []))) (sc_Description sch) sch), additional))
    end.

(** [customRouteResponseToSpec3Responses]; the schemas of the metadata are arguments.  The
    properties of a schema without any are a nil map, and an assignment to it panics. *)
Context (apiVersionPropSchema kindPropSchema objectMetaPropSchema listMetaPropSchema : Schema X).

Definition set_property (k : string) (p : Schema X) (s : Schema X) : called (Schema X) :=
  match sc_Properties s with
  | None => Panics
  | Some props =>
      Returned (mkSchema_ (sc_Ref s) (sc_Description s) (sc_Type s) (sc_Format s) (Some (<[k := p]> props)) (sc_Required s)
                  (sc_AdditionalProperties s) (sc_Items s) (sc_Extensions s) (sc_Rest s))
  end.

Definition require (names : list string) (s : Schema X) : Schema X :=
  mkSchema_ (sc_Ref s) (sc_Description s) (sc_Type s) (sc_Format s) (sc_Properties s) (sc_Required s ++ names)
    (sc_AdditionalProperties s) (sc_Items s) (sc_Extensions s) (sc_Rest s).

Definition bind_called {A B} (r : called A) (k : A → called B) : called B :=
  match r with Panics => Panics | Returned a => k a end.

(** The type metadata, and the metadata of an object or a list. *)
Definition add_typeMeta (s : Schema X) : called (Schema X) :=
  bind_called (set_property "apiVersion" apiVersionPropSchema s)
    (λ s, bind_called (set_property "kind" kindPropSchema s) (λ s, Returned (require ["apiVersion"; "kind"] s))).

Definition add_metadata (what : string) (p : Schema X) (s : Schema X) : called (Schema X + GoError) :=
  match items (sc_Properties s) !! "metadata" with
  | Some _ => Returned (inr (ErrorString ("response schema already contains 'metadata' key, cannot add " +:+ what)))
  | None => bind_called (set_property "metadata" p s) (λ s, Returned (inl (require ["metadata"] s)))
  end.

Definition customRouteResponseToSpec3Responses (route : CustomRoute Cue) (refPrefix : string)
  : called (option (Schema X) * gmap string (Schema X) + GoError) :=
  let v := cr_Response route in
  if negb (cue_Exists v) then Returned (inl (None, ∅))
  else
    match cue_Err v with
    | Some err => Returned (inr (WrapError "input CUE value for response has error: " err))
    | None =>
        if negb (cr_TypeMeta route) && (cr_ListMeta route || cr_ObjectMeta route) then
          Returned (inr (ErrorString "TypeMeta must be true if ObjectMeta or ListMeta is true"))
        else
          match wrapped "error converting response CUE schema to OpenAPI props: " (cueSchemaToSpecSchemaProps v refPrefix) with
          | inr err => Returned (inr err)
          | inl (sch, additional) =>
              bind_called (if cr_TypeMeta route then add_typeMeta sch else Returned sch) (λ sch,
              bind_called (if cr_ObjectMeta route then add_metadata "ObjectMeta" objectMetaPropSchema sch
                           else if cr_ListMeta route then add_metadata "ListMeta" listMetaPropSchema sch
                           else Returned (inl sch)) (λ r,
              Returned (bind_err r (λ sch, inl (Some sch, additional)))))
          end
    end.

(** ** [buildPathPropsFromMethods] *)

(** Calls that may fail or panic. *)
Definition bind_res {A B} (r : called (A + GoError)) (k : A → called (B + GoError)) : called (B + GoError) :=
  bind_called r (λ r, match r with inl a => k a | inr err => Returned (inr err) end).

Definition route_operation (sourcePath sourceMethod : string) (route : CustomRoute Cue)
  : called (OperationProps X * gmap string (Schema X) + GoError) :=
  let at_route := sourceMethod +:+ " " +:+ sourcePath +:+ ": " in
  let operationID := if negb (String.eqb (cr_Name route) "") then cr_Name route else defaultRouteName sourceMethod sourcePath in
  bind_res (Returned (wrapped ("error converting query schema for " +:+ at_route) (cueSchemaToParameters (cr_Query route)))) (λ parameters,
  bind_res (Returned (wrapped ("error converting body schema for " +:+ at_route) (cueSchemaToRequestBody (cr_Body route) operationID))) (λ '(body, a1),
  bind_res (bind_called (customRouteResponseToSpec3Responses route operationID)
              (λ r, Returned (wrapped ("error converting response schema for " +:+ at_route) r))) (λ '(responses, a2),
  Returned (inl (mkOperationProps operationID parameters body responses
                   (if nonempty_map (cr_Extensions route) then cr_Extensions route else None), a2 ∪ a1))))).

Definition set_operation (method : string) (op : OperationProps X) (p : PathItem X) : PathItem X :=
  if String.eqb method "GET" then mkPathItem (Some op) (pi_Post p) (pi_Put p) (pi_Delete p) (pi_Patch p) (pi_Options p) (pi_Head p)
  else if String.eqb method "POST" then mkPathItem (pi_Get p) (Some op) (pi_Put p) (pi_Delete p) (pi_Patch p) (pi_Options p) (pi_Head p)
  else if String.eqb method "PUT" then mkPathItem (pi_Get p) (pi_Post p) (Some op) (pi_Delete p) (pi_Patch p) (pi_Options p) (pi_Head p)
  else if String.eqb method "DELETE" then mkPathItem (pi_Get p) (pi_Post p) (pi_Put p) (Some op) (pi_Patch p) (pi_Options p) (pi_Head p)
  else if String.eqb method "PATCH" then mkPathItem (pi_Get p) (pi_Post p) (pi_Put p) (pi_Delete p) (Some op) (pi_Options p) (pi_Head p)
  else p.

Definition empty_path : PathItem X := mkPathItem None None None None None None None.

Definition handled_methods : list string := ["GET"; "POST"; "PUT"; "DELETE"; "PATCH"].

Fixpoint build_methods (sourcePath : string) (methods : list (string * CustomRoute Cue)) (p : PathItem X)
    (additional : gmap string (Schema X)) : called (PathItem X * gmap string (Schema X) + GoError) :=
  match methods with
  | [] => Returned (inl (p, additional))
  | (sourceMethod, route) :: methods =>
      let upperMethod := ToUpper sourceMethod in
      if negb (existsb (String.eqb upperMethod) handled_methods) then
        Returned (inr (ErrorString ("unhandled HTTP method '" +:+ sourceMethod +:+ "' defined for custom route path '" +:+
                                    sourcePath +:+ "'")))
      else
        bind_res (route_operation sourcePath sourceMethod route) (λ '(op, added),
        build_methods sourcePath methods (set_operation upperMethod op p) (added ∪ additional))
  end.

Definition buildPathPropsFromMethods (sourcePath : string) (methods : MethodRoutes Cue)
  : called (PathItem X * gmap string (Schema X) + GoError) :=
  build_methods sourcePath (range_map methods) empty_path ∅.

(** The loop over the routes of a kind or a scope. *)
Fixpoint build_paths (err_prefix : string → string) (routes : list (string * MethodRoutes Cue)) (out : gmap string (PathItem X))
    (additional : gmap string (Schema X)) : called (gmap string (PathItem X) * gmap string (Schema X) + GoError) :=
  match routes with
  | [] => Returned (inl (out, additional))
  | (path, methods) :: routes =>
      bind_res (bind_called (buildPathPropsFromMethods path methods) (λ r, Returned (wrapped (err_prefix path) r)))
        (λ '(p, added), build_paths err_prefix routes (<[path := p]> out) (added ∪ additional))
  end.

Definition build_routes (err_prefix : string → string) (routes : PathRoutes Cue) (additional : gmap string (Schema X))
  : called (nmap (PathItem X) * gmap string (Schema X) + GoError) :=
  if nonempty_map routes then
    bind_res (build_paths err_prefix (range_map (items routes)) ∅ additional) (λ '(out, additional), Returned (inl (Some out, additional)))
  else Returned (inl (None, additional)).

(** ** [processKindVersion] *)

(** The typed Go values that are put into maps. *)
Inductive Typed := TSchema (s : Schema X) | TStrings (l : list string).

(** The decoding of [components.schemas] as maps. *)
Context (openapi_maps : Cue → string → gmap string (gmap string (any Typed)) + GoError).

(** [sanitizeAdmissionOperations] *)
Definition validAdmissionOperations : list AdmissionOperation :=
  [AdmissionOperationAny; AdmissionOperationConnect; AdmissionOperationCreate; AdmissionOperationDelete; AdmissionOperationUpdate].

Fixpoint sanitize_operations (many : bool) (operations : list string) : list AdmissionOperation + GoError :=
  match operations with
  | [] => inl []
  | op :: ops =>
      let translated := ToUpper op in
      if negb (existsb (String.eqb translated) validAdmissionOperations) then inr (ErrorString ("invalid operation " +:+ quoted op))
      else if String.eqb translated AdmissionOperationAny && many then
        inr (ErrorString "cannot use any ('*') operation alongside named operations")
      else match sanitize_operations many ops with inl l => inl (translated :: l) | inr err => inr err end
  end.

Definition sanitizeAdmissionOperations (operations : list string) : list AdmissionOperation + GoError :=
  sanitize_operations (1 <? length operations)%nat operations.

(** The admission of a kind: the mutation first. *)
Definition admission_of (vk : VersionedKind Cue) : option AdmissionCapabilities + GoError :=
  let capability (c : KindAdmissionCapability) (what : string) : option (list AdmissionOperation) + GoError :=
    if nonempty_slice (kac_Operations c) then
      match wrapped what (sanitizeAdmissionOperations (elems (kac_Operations c))) with inl l => inl (Some l) | inr err => inr err end
    else inl None in
  bind_err (capability (vk_Mutation vk) "mutation operations error: ") (λ mutation,
  bind_err (capability (vk_Validation vk) "validation operations error: ") (λ validation,
  inl match mutation, validation with
      | None, None => None
      | _, _ =>
          Some (mkAdmissionCapabilities ((λ l, mkValidationCapability (Some l)) <$> validation)
                  ((λ l, mkMutationCapability (Some l)) <$> mutation))
      end)).

(** The schemas of one field, with the [additionalProperties] of the kind's own properties. *)
Definition with_additional (kindProps : gmap string (any Typed)) (k : string) (v : gmap string (any Typed)) : gmap string (any Typed) :=
  match kindProps !! k with
  | Some (AMap p) =>
      match p !! "additionalProperties" with
      | Some ANil | None => v
      | Some ap => <["additionalProperties" := ap]> v
      end
  | _ => v
  end.

Definition field_ref (field : string) : any Typed := AMap {["$ref" := AString ("#/components/schemas/" +:+ field)]}.

Fixpoint field_schemas (kindProps : gmap string (any Typed)) (fields : list (string * Cue)) (schemas props : gmap string (any Typed))
  : gmap string (any Typed) * gmap string (any Typed) + GoError :=
  match fields with
  | [] => inl (schemas, props)
  | (field, v) :: fields =>
      if existsb (String.eqb field) ["metadata"; "apiVersion"; "kind"] then field_schemas kindProps fields schemas props
      else
        match openapi_maps v field with
        | inr err => inr err
        | inl doc =>
            field_schemas kindProps fields
              (fold_left (λ schemas '(k, v), <[k := AMap (with_additional kindProps k v)]> schemas) (range_map doc) schemas)
              (<[field := field_ref field]> props)
        end
  end.

(** The schema of the kind, from the additional schemas of its routes. *)
Definition kind_schema (vk : VersionedKind Cue) (additional : gmap string (Schema X)) : option (VersionSchema Typed) + GoError :=
  let kind := vk_Kind vk in
  match openapi_maps (vk_Schema vk) kind with
  | inr err => inr err
  | inl doc =>
      match doc !! kind with
      | None => inr (ErrorString ("schema for kind '" +:+ kind +:+ "' not found"))
      | Some sch =>
          match sch !! "properties" with
          | None => inr (ErrorString ("schema for kind '" +:+ kind +:+ "' does not contain a 'properties' key"))
          | Some (AMap kindProps) =>
              match cue_AllFields (vk_Schema vk) with
              | inr err => inr err
              | inl fields =>
                  match field_schemas kindProps fields ((λ s, AGo (TSchema s)) <$> additional) ∅ with
                  | inr err => inr err
                  | inl (schemas, props) =>
                      let object := AMap (<["properties" := AMap props]> {["required" := AGo (TStrings ["spec"])]}) in
                      let document := {["components" := AMap {["schemas" := AMap (<[kind := object]> schemas)]}]} in
                      match VersionSchemaFromMap (Some document) kind with
                      | (schema, None) => inl schema
                      | (_, Some err) => inr (WrapError "version schema error: " err)
                      end
                  end
              end
          | Some _ => inr (ErrorString ("schema for kind '" +:+ kind +:+ "' properties is not a map"))
          end
      end
  end.

Definition processKindVersion (vk : VersionedKind Cue) (includeSchema : bool)
  : called (ManifestVersionKind (PathItem X) Typed + GoError) :=
  match admission_of vk with
  | inr err => Returned (inr err)
  | inl admission =>
      bind_res (build_routes (λ p, "custom routes error for path '" +:+ p +:+ "': ") (vk_Routes vk) ∅) (λ '(routes, additional),
      Returned (bind_err (if includeSchema then kind_schema vk additional else inl None) (λ schema,
        inl (mkManifestVersionKind (vk_Kind vk) (vk_PluralName vk) (vk_Scope vk) admission schema (vk_SelectableFields vk)
               routes (vk_Conversion vk) None))))
  end.

(** ** Roles *)

(** [joinKindNames] *)
Fixpoint join_names (i total : nat) (names : list string) : string :=
  match names with
  | [] => ""
  | k :: names =>
      (if (0 <? i)%nat then
         (if (2 <? total)%nat then "," else "") +:+ (if (i =? total - 1)%nat then " and " else " ")
       else "") +:+ k +:+ join_names (S i) total names
  end.
Definition joinKindNames (names : list string) : string := join_names 0 (length names) names.

(** The kinds of the default roles: those the readers and editors get, the ones of the
    admins, which have the subresources too, and the plurals. *)
Record role_kinds := mkRoleKinds { rs_kinds : list string; rs_admin : list string; rs_plurals : gset string }.

Definition add_new (k : string) (l : list string) : list string := if existsb (String.eqb k) l then l else l ++ [k].

Definition subresource_names (kind : string) (fields : list (string * Cue)) : list string :=
  omap (λ '(f, _), if String.eqb f "spec" || String.eqb f "metadata" then None else Some (kind +:+ "/" +:+ f)) fields.

Definition add_role_kind (r : role_kinds) (k : VersionedKind Cue) : role_kinds + GoError :=
  match cue_Fields (vk_Schema k) with
  | inr err => inr err
  | inl fields =>
      inl (mkRoleKinds (add_new (vk_Kind k) (rs_kinds r))
             (fold_left (λ l s, add_new s l) (subresource_names (vk_Kind k) fields) (add_new (vk_Kind k) (rs_admin r)))
             ({[vk_PluralName k]} ∪ rs_plurals r))
  end.

Fixpoint add_role_kinds (r : role_kinds) (ks : list (VersionedKind Cue)) : role_kinds + GoError :=
  match ks with
  | [] => inl r
  | k :: ks => match add_role_kind r k with inl r => add_role_kinds r ks | inr err => inr err end
  end.

Definition granted (set : string) (kinds : list string) : nslice RoleKind := Some ((λ k, mkRoleKind_ k None (Some set)) <$> kinds).

(** [buildDefaultManifestRolesAndBindings] *)
Definition buildDefaultManifestRolesAndBindings (m : AppManifest Cue) : gmap string Role * RoleBindings + GoError :=
  match add_role_kinds (mkRoleKinds [] [] ∅) (am_Versions m ≫= sv_AllKinds) with
  | inr err => inr err
  | inl r =>
      let key (role : string) := ToLower (am_Name m) +:+ ":" +:+ role in
      let title (role : string) := amp_AppDisplayName (am_Properties m) +:+ " " +:+ role in
      let desc := joinKindNames (merge_sort String.le (range_keys (rs_plurals r))) in
      inl (<[key "reader" := mkRole_ (title "Reader") ("Read " +:+ desc) (granted ManifestRolePermissionSetViewer (rs_kinds r)) None]>
           (<[key "editor" := mkRole_ (title "Editor") ("Create, Read, Update, and Delete " +:+ desc)
                (granted ManifestRolePermissionSetEditor (rs_kinds r)) None]>
           {[key "admin" := mkRole_ (title "Admin") ("Allows all actions on " +:+ desc)
                (granted ManifestRolePermissionSetAdmin (rs_admin r)) None]}),
           mkRoleBindings_ (Some [key "reader"]) (Some [key "editor"]) (Some [key "admin"]) None)
  end.

(** [getRouteNames] *)
Definition getRouteNames (p : PathItem X) : list string :=
  opr_OperationId <$> omap id [pi_Get p; pi_Post p; pi_Put p; pi_Patch p; pi_Delete p; pi_Options p; pi_Head p].

Abbreviation Data := (ManifestData (PathItem X) (Schema X) Typed).
Abbreviation Version_ := (ManifestVersion (PathItem X) (Schema X) Typed).

(** [validateManifestRoles]: the names that roles may use, and the errors in order. *)
Definition kind_names (k : ManifestVersionKind (PathItem X) Typed) : list string :=
  ToLower (mvk_Kind k) :: ((λ sr, ToLower (mvk_Kind k) +:+ "/" +:+ ToLower sr) <$> Subresources k).

Definition manifest_kind_names (manifest : Data) : list string :=
  elems (md_Versions manifest) ≫= λ v, elems (mv_Kinds v) ≫= kind_names.

Definition path_names (p : nmap (PathItem X)) : list string := (range_map (items p)).*2 ≫= getRouteNames.

Definition manifest_route_names (manifest : Data) : list string :=
  elems (md_Versions manifest) ≫= λ v : Version_,
    (elems (mv_Kinds v) ≫= λ k, path_names (mvk_Routes k)) ++ path_names (mvr_Namespaced (mv_Routes v)) ++
    path_names (mvr_Cluster (mv_Routes v)).

(** A slash that is not the first character. *)
Definition is_subresource (kind : string) : bool :=
  match Cut kind "/" with Some (a, _) => negb (String.eqb a "") | None => false end.

Definition role_errors (kinds routes : list string) (checkSubresources : bool) (name : string) (role : ManifestRole) : list GoError :=
  (elems (role_Kinds role) ≫= λ k,
     if is_subresource (rk_Kind k) && negb checkSubresources then []
     else if existsb (String.eqb (ToLower (rk_Kind k))) kinds then []
     else [ErrorString ("invalid role " +:+ name +:+ ": kind " +:+ rk_Kind k +:+ " does not exist in manifest")]) ++
  (elems (role_Routes role) ≫= λ r,
     if existsb (String.eqb r) routes then []
     else [ErrorString ("invalid role " +:+ name +:+ ": route " +:+ r +:+ " does not exist in manifest")]).

Definition validateManifestRoles (manifest : Data) (checkSubresources : bool) : list GoError :=
  range_map (items (md_Roles manifest)) ≫= λ '(name, role),
    role_errors (manifest_kind_names manifest) (manifest_route_names manifest) checkSubresources name role.

(** [errors.Join], one after the other. *)
Definition join_errors (errs : list GoError) : option GoError :=
  fold_left (λ acc e, match acc with None => Some e | Some a => Some (JoinError a e) end) errs None.

(** ** [buildManifestData] *)

(** The loop over the kinds of a version. *)
Fixpoint process_kinds (includeSchemas : bool) (kinds : list (VersionedKind Cue))
  : called (list (ManifestVersionKind (PathItem X) Typed) + GoError) :=
  match kinds with
  | [] => Returned (inl [])
  | k :: kinds =>
      bind_res (processKindVersion k includeSchemas) (λ mvk,
      bind_res (process_kinds includeSchemas kinds) (λ mvks, Returned (inl (mvk :: mvks))))
  end.

Definition version_error (scope version path : string) : string :=
  "custom routes error for " +:+ scope +:+ " path '" +:+ path +:+ "' on version " +:+ version +:+ ": ".

Definition process_version (includeSchemas : bool) (v : SimpleVersion Cue) : called (Version_ + GoError) :=
  let name := SimpleVersion_Name v in
  let routes := SimpleVersion_Routes v in
  bind_res (process_kinds includeSchemas (sv_AllKinds v)) (λ kinds,
  bind_res (build_routes (version_error "namespaced" name) (vcr_Namespaced routes) ∅) (λ '(namespaced, a1),
  bind_res (build_routes (version_error "cluster" name) (vcr_Cluster routes) a1) (λ '(cluster, schemas),
  Returned (inl (mkManifestVersion name (vp_Served (sv_Properties v)) (Some kinds)
                   (mkManifestVersionRoutes namespaced cluster (if bool_decide (schemas = ∅) then None else Some schemas))))))).

Fixpoint process_versions (includeSchemas : bool) (vs : list (SimpleVersion Cue)) : called (list Version_ + GoError) :=
  match vs with
  | [] => Returned (inl [])
  | v :: vs =>
      bind_res (process_version includeSchemas v) (λ mv,
      bind_res (process_versions includeSchemas vs) (λ mvs, Returned (inl (mv :: mvs))))
  end.

(** The webhooks of the operator, by what any kind has. *)
Definition any_kind (f : VersionedKind Cue → bool) (m : AppManifest Cue) : bool :=
  existsb (λ v, existsb f (sv_AllKinds v)) (am_Versions m).

Definition operator_info (m : AppManifest Cue) : option ManifestOperatorInfo :=
  (λ url, mkOperatorInfo url (Some (mkWebhookProperties
     (if any_kind vk_Conversion m then "/convert" else "")
     (if any_kind (λ k, nonempty_slice (kac_Operations (vk_Validation k))) m then "/validate" else "")
     (if any_kind (λ k, nonempty_slice (kac_Operations (vk_Mutation k))) m then "/mutate" else "")))) <$>
  amp_OperatorURL (am_Properties m).

(** [toKindPermissionActions] and the permissions. *)
Definition permissions_of (p : AppManifestProperties) : option Permissions :=
  if nonempty_slice (amp_AccessKinds p) then
    Some (mkPermissions (Some ((λ k, mkKindPermission (akp_Group k) (akp_Resource k) (Some (ToLower <$> elems (akp_Actions k)))) <$>
                               elems (amp_AccessKinds p))))
  else None.

(** The roles and bindings as they are or the default ones, converted. *)
Definition roles_and_bindings (m : AppManifest Cue) : gmap string Role * option RoleBindings + GoError :=
  match amp_Roles (am_Properties m) with
  | Some roles => inl (roles, amp_RoleBindings (am_Properties m))
  | None =>
      match buildDefaultManifestRolesAndBindings m with
      | inr err => inr err
      | inl (roles, defaults) =>
          inl (roles, Some (match amp_RoleBindings (am_Properties m) with Some b => b | None => defaults end))
      end
  end.

Definition role_of (r : Role) : ManifestRole :=
  mkRole (rl_Title r) (rl_Description r)
    (Some ((λ k, mkRoleKind (rlk_Kind k) (rlk_Verbs k) (rlk_PermissionSet k)) <$> elems (rl_Kinds r)))
    (Some (elems (rl_Routes r))).

Definition bindings_of (b : RoleBindings) : ManifestRoleBindings :=
  mkRoleBindings (rlb_Viewer b) (rlb_Editor b) (rlb_Admin b) (rlb_Additional b).

(** The data, unless the validation of its roles finds errors: the callers then drop it. *)
Definition buildManifestData (m : AppManifest Cue) (includeSchemas : bool) : called (Data + GoError) :=
  bind_res (process_versions includeSchemas (am_Versions m)) (λ versions,
  bind_res (Returned (roles_and_bindings m)) (λ '(roles, bindings),
  let p := am_Properties m in
  let manifest := mkManifestData (am_Name m) (amp_AppDisplayName p) (amp_FullGroup p) (Some versions) (amp_PreferredVersion p)
                    (permissions_of p) (operator_info m) (Some (role_of <$> roles)) (bindings_of <$> bindings) in
  Returned match join_errors (validateManifestRoles manifest includeSchemas) with
           | Some err => inr err
           | None => inl manifest
           end)).

(** ** The generators *)

(** What both do with the group; [ManifestGenerator.Generate] with the conversion of the
    version, the encoder and the text of a group version. *)
Definition with_group (d : Data) : Data + GoError :=
  if String.eqb (md_Group d) "" then
    if nonempty_slice (md_Versions d) then inr (ErrorString "all APIResource kinds must have a non-empty group")
    else inl (mkManifestData (md_AppName d) (md_AppDisplayName d) (md_AppName d +:+ ".ext.grafana.com") (md_Versions d)
                (md_PreferredVersion d) (md_ExtraPermissions d) (md_Operator d) (md_Roles d) (md_RoleBindings d))
  else inl d.

Definition ManifestGenerator_Generate {Spec : Type} (v1alpha1_spec v1alpha2_spec : Data → Spec + GoError)
    (v1alpha1_gv v1alpha2_gv : string) (encode : string → string → Spec → string + GoError)
    (fileExtension manifestVersion : string) (includeSchemas : bool) (m : AppManifest Cue) : called (list (string * string) + GoError) :=
  bind_res (buildManifestData m includeSchemas) (λ d,
  Returned (bind_err (with_group d) (λ d,
    bind_err (if String.eqb manifestVersion "v1alpha1" then bind_err (v1alpha1_spec d) (λ s, inl (v1alpha1_gv, s))
              else if String.eqb manifestVersion "v1alpha2" then bind_err (v1alpha2_spec d) (λ s, inl (v1alpha2_gv, s))
              else inr (ErrorString ("unknown manifest version " +:+ quoted manifestVersion))) (λ '(apiVersion, spec),
    bind_err (encode apiVersion (md_AppName d) spec) (λ out,
    inl [(md_AppName d +:+ "-manifest." +:+ fileExtension, out)]))))).

(** [ManifestGoGenerator.Generate], with the rendering of the template and its formatting. *)
Definition ManifestGo_Generate (render : Data → string + GoError) (destinationPath : string) (includeSchemas : bool)
    (m : AppManifest Cue) : called (list (string * string) + GoError) :=
  bind_res (buildManifestData m includeSchemas) (λ d,
  Returned (bind_err (with_group d) (λ d,
    bind_err (render d) (λ out,
    inl [(path_Join destinationPath (amp_Group (am_Properties m) +:+ "_manifest.go"), out)])))).
End Jenny.

(** ** Admission operations *)
Lemma sanitize_operations_iff many ops l : sanitize_operations many ops = inl l ↔
  l = ToUpper <$> ops ∧ (∀ op, op ∈ l → op ∈ validAdmissionOperations) ∧ (many = true → AdmissionOperationAny ∉ l).
Proof.
  revert l. induction ops as [|op ops IH]; intros l.
  { simpl. split; [intros [= <-]; split_and!; [done | set_solver | set_solver] | by intros (-> & _)]. }
  cbn [sanitize_operations]. rewrite fmap_cons.
  destruct (existsb (String.eqb (ToUpper op)) validAdmissionOperations) eqn:Ev; cbn [negb].
  2:{ apply existsb_eqb_false in Ev. split; [done|]. intros (-> & Hv & _). destruct Ev. apply Hv. left. }
  apply existsb_eqb in Ev. destruct (String.eqb (ToUpper op) AdmissionOperationAny && many) eqn:Ea.
  { apply andb_true_iff in Ea as [Ea%String.eqb_eq ->]. split; [done|]. intros (-> & _ & Hm). destruct (Hm eq_refl). rewrite Ea. left. }
  assert (Hne : many = true → ToUpper op ≠ AdmissionOperationAny).
  { intros ->. rewrite andb_true_r in Ea. by apply String.eqb_neq. }
  destruct (sanitize_operations many ops) as [l'|err].
  - destruct (proj1 (IH l') eq_refl) as (-> & Hv & Hm). split; [intros [= <-]|by intros (-> & _)]. split_and!; [done | |].
    + intros o [->|Ho]%elem_of_cons; auto.
    + intros Ht [E|?]%elem_of_cons; [by destruct (Hne Ht) | by apply Hm].
  - split; [done|]. intros (-> & Hv & Hm). assert (E : inr err = inl (ToUpper <$> ops)); [|done].
    apply IH. split_and!; [done | |]; [intros o Ho; apply Hv; by right | intros Ht Hin; apply (Hm Ht); by right].
Qed.

(** The operations of a kind are accepted exactly when all are known in any case of
    letters and the one for all operations is alone; they are kept in order, in upper
    case. *)
Theorem sanitizeAdmissionOperations_iff operations l :
  sanitizeAdmissionOperations operations = inl l ↔
  l = ToUpper <$> operations ∧ (∀ op, op ∈ l → op ∈ validAdmissionOperations) ∧
  (AdmissionOperationAny ∈ l → l = [AdmissionOperationAny]).
Proof.
  unfold sanitizeAdmissionOperations. rewrite sanitize_operations_iff. split.
  - intros (-> & Hv & Hm). split_and!; [done..|]. intros Ha. destruct operations as [|o [|o' ops]]; simpl in *.
    + by apply elem_of_nil in Ha.
    + by apply list_elem_of_singleton in Ha as <-.
    + by destruct (Hm eq_refl).
  - intros (-> & Hv & Ha). split_and!; [done..|]. intros Hm Hin. specialize (Ha Hin).
    destruct operations as [|o [|o' ops]]; done.
Qed.

(** The type metadata of a response without properties is assigned to a nil map. *)
Lemma typeMeta_without_properties {X} (apiVersion kind s : Schema X) : sc_Properties s = None → add_typeMeta apiVersion kind s = Panics.
Proof. unfold add_typeMeta, set_property. by intros ->. Qed.

(** ** The names of kinds *)
Example joinKindNames_examples :
  joinKindNames [] = "" ∧ joinKindNames ["As"] = "As" ∧ joinKindNames ["As"; "Bs"] = "As and Bs" ∧
  joinKindNames ["As"; "Bs"; "Cs"] = "As, Bs, and Cs".
Proof. split_and!; reflexivity. Qed.

(** ** Roles *)
Section Roles.
Context {Cue X : Type} `{CV : !CueValues Cue, RO : !RangeOrder, SS : !SliceSort}.
Abbreviation Data := (ManifestData (PathItem X) (Schema X) (Typed (X:=X))).
Implicit Types m : AppManifest Cue.

(** A role uses kinds and routes of the manifest only; the subresources need not be known
    when they are not looked at. *)
Definition role_valid (d : Data) (checkSubresources : bool) (role : ManifestRole) : Prop :=
  (∀ k, k ∈ elems (role_Kinds role) →
     (is_subresource (rk_Kind k) = true ∧ checkSubresources = false) ∨ ToLower (rk_Kind k) ∈ manifest_kind_names d) ∧
  ∀ r, r ∈ elems (role_Routes role) → r ∈ manifest_route_names d.

Lemma bind_nil {A B} (f : A → list B) (l : list A) : l ≫= f = [] ↔ ∀ x, x ∈ l → f x = [].
Proof.
  induction l as [|y l IH]; [split; [by intros _ x ?%elem_of_nil | done]|]. rewrite bind_cons, app_nil, IH.
  setoid_rewrite elem_of_cons. split; [intros [H1 H2] x [->|Hx]; auto | auto].
Qed.

Lemma role_errors_nil (d : Data) check name role :
  role_errors (manifest_kind_names d) (manifest_route_names d) check name role = [] ↔ role_valid d check role.
Proof.
  unfold role_errors, role_valid. rewrite app_nil, !bind_nil.
  assert (Hk : ∀ k, (if is_subresource (rk_Kind k) && negb check then []
                     else if existsb (String.eqb (ToLower (rk_Kind k))) (manifest_kind_names d) then []
                     else [ErrorString ("invalid role " +:+ name +:+ ": kind " +:+ rk_Kind k +:+ " does not exist in manifest")]) = [] ↔
    ((is_subresource (rk_Kind k) = true ∧ check = false) ∨ ToLower (rk_Kind k) ∈ manifest_kind_names d)).
  { intros k. rewrite <- existsb_eqb. destruct (is_subresource (rk_Kind k)), check, (existsb _ (manifest_kind_names d)); naive_solver. }
  assert (Hr : ∀ r, (if existsb (String.eqb r) (manifest_route_names d) then []
                     else [ErrorString ("invalid role " +:+ name +:+ ": route " +:+ r +:+ " does not exist in manifest")]) = [] ↔
    r ∈ manifest_route_names d).
  { intros r. rewrite <- existsb_eqb. by destruct (existsb _ (manifest_route_names d)). }
  by setoid_rewrite Hk; setoid_rewrite Hr.
Qed.

(** The validation of roles finds nothing exactly when every role is valid. *)
Theorem validateManifestRoles_iff (d : Data) check :
  validateManifestRoles d check = [] ↔ ∀ name role, items (md_Roles d) !! name = Some role → role_valid d check role.
Proof.
  unfold validateManifestRoles. rewrite bind_nil. split.
  - intros H name role E. apply (role_errors_nil d check name), (H (name, role)). by apply elem_of_range_map.
  - intros H [name role] Hin. apply role_errors_nil, (H name). by apply elem_of_range_map.
Qed.

(** *** The default roles *)
Lemma elem_of_add_new k x l : x ∈ add_new k l ↔ x = k ∨ x ∈ l.
Proof.
  unfold add_new. destruct (existsb (String.eqb k) l) eqn:E; [apply existsb_eqb in E; naive_solver|].
  rewrite elem_of_app, list_elem_of_singleton. tauto.
Qed.

Lemma elem_of_fold_add x ss l : x ∈ fold_left (λ l s, add_new s l) ss l ↔ x ∈ ss ∨ x ∈ l.
Proof.
  revert l. induction ss as [|s ss IH]; intros l; simpl; [set_solver|]. rewrite IH, elem_of_add_new, elem_of_cons. tauto.
Qed.

(** The admins get the kinds and their subresources, the others the kinds. *)
Lemma add_role_kinds_elem ks : ∀ r r', add_role_kinds r ks = inl r' → ∀ x,
  (x ∈ rs_kinds r' ↔ x ∈ rs_kinds r ∨ x ∈ vk_Kind <$> ks) ∧
  (x ∈ rs_admin r' ↔ x ∈ rs_admin r ∨ x ∈ vk_Kind <$> ks ∨
     ∃ k fields, k ∈ ks ∧ cue_Fields (vk_Schema k) = inl fields ∧ x ∈ subresource_names (vk_Kind k) fields).
Proof.
  induction ks as [|k ks IH]; intros r r'; simpl.
  - intros [= <-] x. set_solver.
  - unfold add_role_kind. destruct (cue_Fields (vk_Schema k)) as [fields|] eqn:E; [|done]. intros H x.
    destruct (IH _ _ H x) as [H1 H2]. cbn [rs_kinds rs_admin] in H1, H2. rewrite elem_of_fold_add in H2.
    rewrite elem_of_add_new in H1, H2. rewrite H1, H2, elem_of_cons. split; [tauto|]. split.
    + intros [[?|[?|?]]|[?|(k' & f & ? & ? & ?)]]; try tauto; right; right; [exists k, fields | exists k', f];
        (split; [set_solver | done]).
    + intros [?|[[?|?]|(k' & f & [->|?]%elem_of_cons & Ef & ?)]]; try tauto.
      * rewrite E in Ef. injection Ef as <-. tauto.
      * right. right. by exists k', f.
Qed.

Lemma subresource_is k (fields : list (string * Cue)) x : k ≠ "" → free_of "/" k = true → x ∈ subresource_names k fields → is_subresource x = true.
Proof.
  intros Hk Hf (f & _ & H)%list_elem_of_omap. destruct f as [f v]. destruct (_ || _); [done|]. injection H as <-.
  unfold is_subresource. change (k +:+ "/" +:+ f) with (k +:+ String "/" f). rewrite Cut_free by done.
  by apply negb_true_iff, String.eqb_neq.
Qed.

(** *** What is kept of kinds and versions *)
Context (openapi_schemas : Cue → string → gmap string (Schema X) + GoError)
        (apiVersionPropSchema kindPropSchema objectMetaPropSchema listMetaPropSchema : Schema X)
        (openapi_maps : Cue → string → gmap string (gmap string (any (Typed (X:=X)))) + GoError).

Abbreviation process := (processKindVersion openapi_schemas apiVersionPropSchema kindPropSchema objectMetaPropSchema
  listMetaPropSchema openapi_maps).
Abbreviation build := (buildManifestData openapi_schemas apiVersionPropSchema kindPropSchema objectMetaPropSchema
  listMetaPropSchema openapi_maps).
Abbreviation versions_of := (process_versions openapi_schemas apiVersionPropSchema kindPropSchema objectMetaPropSchema
  listMetaPropSchema openapi_maps).

Lemma bind_res_ok {A B} (r : called (A + GoError)) (k : A → called (B + GoError)) b :
  bind_res r k = Returned (inl b) → ∃ a, r = Returned (inl a) ∧ k a = Returned (inl b).
Proof. destruct r as [[a|]|]; simpl; try done. intros H. by exists a. Qed.

(** A kind keeps its names, its scope, whether it is converted and its fields; its printer
    columns are lost. *)
Definition keeps_kind (k : VersionedKind Cue) (mk : ManifestVersionKind (PathItem X) (Typed (X:=X))) : Prop :=
  mvk_Kind mk = vk_Kind k ∧ mvk_Plural mk = vk_PluralName k ∧ mvk_Scope mk = vk_Scope k ∧ mvk_Conversion mk = vk_Conversion k ∧
  mvk_SelectableFields mk = vk_SelectableFields k ∧ admission_of k = inl (mvk_Admission mk) ∧ mvk_AdditionalPrinterColumns mk = None.

Definition keeps_version (v : SimpleVersion Cue) (mv : ManifestVersion (PathItem X) (Schema X) (Typed (X:=X))) : Prop :=
  mv_Name mv = SimpleVersion_Name v ∧ mv_Served mv = vp_Served (sv_Properties v) ∧
  Forall2 keeps_kind (sv_AllKinds v) (elems (mv_Kinds mv)).

Lemma process_keeps k b mk : process k b = Returned (inl mk) → keeps_kind k mk.
Proof.
  unfold processKindVersion. destruct (admission_of k) as [adm|] eqn:Ea; [|done].
  intros ([routes additional] & _ & H)%bind_res_ok. revert H. unfold bind_err.
  destruct (if b then _ else _) as [sch|]; [|done]. intros [= <-]. unfold keeps_kind. by rewrite Ea.
Qed.

Lemma process_kinds_keep b ks : ∀ mks,
  process_kinds openapi_schemas apiVersionPropSchema kindPropSchema objectMetaPropSchema listMetaPropSchema openapi_maps b ks =
    Returned (inl mks) → Forall2 keeps_kind ks mks.
Proof.
  induction ks as [|k ks IH]; intros mks; simpl; [intros [= <-]; constructor|].
  intros (mk & Hk & (mks' & Hks & [= <-])%bind_res_ok)%bind_res_ok. constructor; [by eapply process_keeps | by apply IH].
Qed.

Lemma process_versions_keep b vs : ∀ mvs, versions_of b vs = Returned (inl mvs) → Forall2 keeps_version vs mvs.
Proof.
  induction vs as [|v vs IH]; intros mvs; simpl; [intros [= <-]; constructor|].
  intros (mv & Hv & (mvs' & Hvs & [= <-])%bind_res_ok)%bind_res_ok. constructor; [|by apply IH].
  unfold process_version in Hv. apply bind_res_ok in Hv as (kinds & Hk & Hv).
  apply bind_res_ok in Hv as ([ns a1] & _ & ([cl a2] & _ & [= <-])%bind_res_ok). split_and!; [done..|]. by eapply process_kinds_keep.
Qed.

(** The manifest data that is made from parsed kinds has their versions and kinds, in
    order, with all their properties but the printer columns; and no role in it names a
    kind or a route that it does not have. *)
Theorem buildManifestData_sound m b (d : Data) : build m b = Returned (inl d) →
  md_AppName d = am_Name m ∧ md_Group d = amp_FullGroup (am_Properties m) ∧
  md_PreferredVersion d = amp_PreferredVersion (am_Properties m) ∧
  Forall2 keeps_version (am_Versions m) (elems (md_Versions d)) ∧
  ∀ name role, items (md_Roles d) !! name = Some role → role_valid d b role.
Proof.
  unfold buildManifestData. intros (versions & Hv & ([roles bindings] & _ & H)%bind_res_ok)%bind_res_ok.
  revert H. cbv zeta. match goal with |- context [join_errors (validateManifestRoles ?mf _)] => set (manifest := mf) end.
  destruct (join_errors (validateManifestRoles manifest b)) as [err|] eqn:Ej; [done|]. intros [= <-].
  split_and!; [done..| |].
  - by apply process_versions_keep in Hv.
  - apply validateManifestRoles_iff. destruct (validateManifestRoles manifest b) as [|e es]; [done|]. exfalso. revert Ej.
    unfold join_errors. simpl. generalize e. induction es as [|e' es IH]; intros e0; simpl; [done | apply IH].
Qed.

(** The kinds that were processed are known by name. *)
Lemma kept_names (d : Data) vs k : Forall2 keeps_version vs (elems (md_Versions d)) → k ∈ vs ≫= sv_AllKinds →
  ToLower (vk_Kind k) ∈ manifest_kind_names d.
Proof.
  intros Hv (v & Hk & Hin)%list_elem_of_bind. apply list_elem_of_lookup in Hin as [i Hi].
  destruct (Forall2_lookup_l _ _ _ _ _ Hv Hi) as (mv & Hmv & _ & _ & Hks).
  apply list_elem_of_lookup in Hk as [j Hj]. destruct (Forall2_lookup_l _ _ _ _ _ Hks Hj) as (mk & Hmk & Hkind & _).
  apply list_elem_of_bind. exists mv. split; [|by eapply list_elem_of_lookup_2]. apply list_elem_of_bind. exists mk.
  split; [|by eapply list_elem_of_lookup_2]. unfold kind_names. rewrite Hkind. left.
Qed.

(** A default role has no routes, and kinds that were collected. *)
Lemma default_role m roles b : buildDefaultManifestRolesAndBindings m = inl (roles, b) →
  ∃ rk, add_role_kinds (mkRoleKinds [] [] ∅) (am_Versions m ≫= sv_AllKinds) = inl rk ∧
  ∀ name role, roles !! name = Some role → rl_Routes role = None ∧
    ∃ set ks, rl_Kinds role = granted set ks ∧ ∀ x, x ∈ ks → x ∈ rs_kinds rk ∨ x ∈ rs_admin rk.
Proof.
  unfold buildDefaultManifestRolesAndBindings. destruct (add_role_kinds _ _) as [rk|]; [|done]. intros [= <- _].
  exists rk. split; [done|]. intros name role.
  intros [[_ <-]|[_ [[_ <-]|[_ [_ <-]%lookup_singleton_Some]]%lookup_insert_Some]]%lookup_insert_Some;
    (split; [done|]; eexists _, _; split; [reflexivity | auto]).
Qed.

(** The default roles are accepted: without roles of its own, and without schemas, the
    data of an app is made whenever its versions can be processed and the fields of its
    schemas be read. *)
Theorem default_roles_accepted m versions r : amp_Roles (am_Properties m) = None →
  (∀ k, k ∈ am_Versions m ≫= sv_AllKinds → vk_Kind k ≠ "" ∧ free_of "/" (vk_Kind k) = true) →
  versions_of false (am_Versions m) = Returned (inl versions) →
  buildDefaultManifestRolesAndBindings m = inl r → ∃ d, build m false = Returned (inl d).
Proof.
  intros Hr Hk Hv Hd. unfold buildManifestData. rewrite Hv. simpl. unfold roles_and_bindings. rewrite Hr, Hd.
  destruct r as [roles defaults]. simpl.
  match goal with |- context [validateManifestRoles ?mf _] => set (manifest := mf) end.
  enough (E : validateManifestRoles manifest false = []) by (rewrite E; by eexists).
  apply validateManifestRoles_iff. intros name role Hn. simpl in Hn. rewrite lookup_fmap in Hn.
  apply fmap_Some in Hn as (ro & Ho & ->). apply default_role in Hd as (rk & Ea & Hd).
  destruct (Hd _ _ Ho) as (Hrt & set & ks & Hks & Hin). unfold role_of. split; simpl.
  - rewrite Hks. simpl. intros k (rlk & -> & (x & -> & Hx)%list_elem_of_fmap)%list_elem_of_fmap. simpl.
    destruct (add_role_kinds_elem _ _ _ Ea x) as [H1 H2].
    assert (Hkept : ∀ k, k ∈ am_Versions m ≫= sv_AllKinds → ToLower (vk_Kind k) ∈ manifest_kind_names manifest).
    { intros k Hkin. eapply kept_names; [|exact Hkin]. simpl. by eapply process_versions_keep. }
    assert (Hcase : x ∈ vk_Kind <$> (am_Versions m ≫= sv_AllKinds) ∨ is_subresource x = true).
    { destruct (Hin x Hx) as [H|H]; [apply H1 in H as [H|H] | apply H2 in H as [H|[H|(k & f & Hkin & _ & Hs)]]];
        try (by apply elem_of_nil in H); auto. right. destruct (Hk k Hkin). by eapply subresource_is. }
    destruct Hcase as [(k & -> & Hkin)%list_elem_of_fmap|Hs]; [right; by apply Hkept | by left].
  - rewrite Hrt. simpl. by intros r ?%elem_of_nil.
Qed.
End Roles.
