(* ===== verification/CrdJenny.v ===== *)
(** * The CRD generator ([codegen/jennies/crd.go])

    One definition for each kind of a manifest, with its versions in their order.  The
    OpenAPI document that [cog] makes from a CUE value and its loading are an argument, as are
    the JSON of properties, the parsing of URLs and the encoder of the output. *)
From S2P Require Import Prelude GoValues Resource OpenAPI CRDSchema Manager SourceTree Codemods Codegen.

#[local] Open Scope string_scope.
#[local] Open Scope list_scope.

Section CRDs.
Context {Cue : Type} `{CV : !CueValues Cue, RO : !RangeOrder, KT : !KinTypes}.

(** The components of the loaded document of a value and a name; [json.Marshal] and
    [json.Unmarshal] of properties into a map that has been made. *)
Context (load_document : Cue → string → nmap SchemaRef + GoError).
Context (json_properties : nmap SchemaRef → gmap string (any Empty_set) + GoError).

(** [cueToCRDOpenAPI] *)
Definition cueToCRDOpenAPI (v : Cue) (name : string) : outcome (gmap string (any Empty_set)) :=
  match load_document v name with
  | inr err => Failed err
  | inl components =>
      try converted := GetCRDOpenAPISchema components name in
      try s := deref_ptr converted in
      match json_properties (delete "metadata" <$> s_Properties s) with
      | inr err => Failed err
      | inl m => Ok m
      end
  end.

(** ** [KindVersionToCRDSpecVersion] *)

(** A selectable field: an empty one keeps the zero value of its place. *)
Definition selectable_field (field : string) : CRDSelectableField :=
  let field := Trim field " " in
  mkCRDSelectableField
    (match field with
     | EmptyString => ""
     | String c _ => if negb (Ascii.eqb c ".") then "." +:+ field else field
     end).

Definition printer_column (c : AdditionalPrinterColumn) : CRDPrinterColumn :=
  mkCRDPrinterColumn (apc_Name c) (apc_Type c) (apc_Format c) (apc_Description c) (apc_Priority c) (apc_JSONPath c).

(** A slice of what is made of each element, nil when there is none. *)
Definition mapped_slice {A B} (f : A → B) (l : nslice A) : nslice B :=
  if nonempty_slice l then Some (f <$> elems l) else None.

Definition crd_schema (props : gmap string (any Empty_set)) : any Empty_set :=
  AMap (<["properties" := AMap props]> (<["required" := AList [AString "spec"]]> {["type" := AString "object"]})).

Definition KindVersionToCRDSpecVersion (schema : Cue) (kind : VersionedKind Cue) (version : string) (stored : bool)
  : outcome CRDSpecVersion :=
  try props := cueToCRDOpenAPI schema (vk_Kind kind) in
  Ok (mkCRDSpecVersion version true stored (Some {["openAPIV3Schema" := crd_schema props]})
        (Some ((λ _, AMap ∅) <$> delete "spec" props))
        (mapped_slice selectable_field (vk_SelectableFields kind))
        (mapped_slice printer_column (vk_AdditionalPrinterColumns kind))).

(** ** [crdGenerator.Generate] *)

(** The kinds by name, each with its versions. *)
Definition group_kinds (l : list (SimpleVersion Cue * VersionedKind Cue)) : gmap string (list (string * VersionedKind Cue)) :=
  fold_left (λ kinds '(v, k), <[vk_Kind k := default [] (kinds !! vk_Kind k) ++ [(SimpleVersion_Name v, k)]]> kinds) l ∅.

(** The URL of a webhook, parsed and written again. *)
Context (parse_url : string → string + GoError).

Definition crd_conversion (k : VersionedKind Cue) : outcome (option CRDConversion) :=
  let url := cwp_URL (vk_ConversionWebhookProps k) in
  if vk_Conversion k && negb (String.eqb url "") then
    match parse_url url with
    | inr err => Failed (WrapError "invalid conversion webhook URL: " err)
    | inl u => Ok (Some (mkCRDConversion "webhook" (Some (mkCRDWebhook (Some ["v1"]) (mkCRDClientConfig None u)))))
    end
  else Ok None.

Definition crd_version (p : AppManifestProperties) (only : bool) (kv : string * VersionedKind Cue) : outcome CRDSpecVersion :=
  try v := KindVersionToCRDSpecVersion (vk_Schema kv.2) kv.2 kv.1 (String.eqb kv.1 (amp_PreferredVersion p)) in
  Ok (if only then with_Storage true v else v).

Fixpoint crd_versions (p : AppManifestProperties) (only : bool) (kvs : list (string * VersionedKind Cue))
  : outcome (list CRDSpecVersion) :=
  match kvs with
  | [] => Ok []
  | kv :: kvs =>
      try v := crd_version p only kv in
      try vs := crd_versions p only kvs in
      Ok (v :: vs)
  end.

Definition crd_of (p : AppManifestProperties) (first : VersionedKind Cue) (kvs : list (string * VersionedKind Cue)) : outcome CRD :=
  try conversion := crd_conversion first in
  try versions := crd_versions p (Nat.eqb (length kvs) 1) kvs in
  Ok (mkCRD "apiextensions.k8s.io/v1" "CustomResourceDefinition" (vk_PluralMachineName first +:+ "." +:+ amp_FullGroup p) ""
        (amp_FullGroup p) (Some versions) (vk_Kind first) (vk_PluralMachineName first) conversion (vk_Scope first)).

Context (outputEncoder : CRD → string + GoError) (outputExtension : string).

(** The files: their paths and contents. *)
Fixpoint crd_files (p : AppManifestProperties) (kinds : list (list (string * VersionedKind Cue))) : outcome (list (string * string)) :=
  match kinds with
  | [] => Ok []
  | [] :: kinds => crd_files p kinds
  | (((_, first) :: _) as kvs) :: kinds =>
      try crd := crd_of p first kvs in
      match outputEncoder crd with
      | inr err => Failed err
      | inl contents =>
          try files := crd_files p kinds in
          Ok ((vk_MachineName first +:+ "." +:+ amp_FullGroup p +:+ "." +:+ outputExtension, contents) :: files)
      end
  end.

Definition crd_Generate (m : AppManifest Cue) : outcome (list (string * string)) :=
  crd_files (am_Properties m) (range_map (group_kinds (VersionedKinds m))).*2.

(** ** Properties *)

(** The schema of a CRD is structural, and neither its conversion nor that of the kinds is
    cut off. *)
Lemma GetCRDOpenAPISchema_structural components name o :
  GetCRDOpenAPISchema components name = Ok o → ∃ s, o = Some s ∧ structural false s.
Proof.
  unfold GetCRDOpenAPISchema. destruct components as [schemas|]; [|done]. destruct (schemas !! name) as [r|] eqn:E; [|done].
  set (ss := foldr (alter OpenAPI.strip) schemas _). assert (Hs : is_Some (ss !! name)).
  { unfold ss. generalize (sharing (size schemas) schemas name). intros l. induction l as [|x l IH]; simpl; [by eexists|].
    destruct (decide (x = name)) as [->|]; [rewrite lookup_alter_eq; by apply fmap_is_Some | by rewrite lookup_alter_ne]. }
  destruct Hs as [sch ->]. intros H. pose proof (resolveSchema_ok ss false sch ∅ ltac:(done) ltac:(done)) as Hok.
  by rewrite H in Hok.
Qed.

Lemma obind_Ok {A B} (o : outcome A) (k : A → outcome B) b : obind o k = Ok b → ∃ a, o = Ok a ∧ k a = Ok b.
Proof. destruct o; simpl; try done. intros H. by eexists. Qed.

(** [s] is the schema called [name] of the document that is made of the CUE value [v], with
    its references and compositions resolved. *)
Definition document_schema (v : Cue) (name : string) (s : Schema) : Prop :=
  ∃ components, load_document v name = inl components ∧ GetCRDOpenAPISchema components name = Ok (Some s).

Lemma cueToCRDOpenAPI_structural v name props : cueToCRDOpenAPI v name = Ok props →
  ∃ s, document_schema v name s ∧ structural false s ∧ json_properties (delete "metadata" <$> s_Properties s) = inl props.
Proof.
  unfold cueToCRDOpenAPI, document_schema. destruct (load_document v name) as [components|]; [|done].
  intros (o & E & H)%obind_Ok. destruct (GetCRDOpenAPISchema_structural _ _ _ E) as (s & -> & Hs). simpl in H.
  exists s. split; [by exists components|]. split; [done|]. destruct (json_properties _); [by injection H as -> | done].
Qed.

Lemma elems_mapped_slice {A B} (f : A → B) l : elems (mapped_slice f l) = f <$> elems l.
Proof. by destruct l as [[|x l]|]. Qed.

(** What a version of a definition is made from: its own version of the kind. *)
Definition version_made (p : AppManifestProperties) (only : bool) (kv : string * VersionedKind Cue) (v : CRDSpecVersion) : Prop :=
  let '(name, kind) := kv in
  cv_Name v = name ∧ cv_Served v = true ∧
  (cv_Storage v = true ↔ only = true ∨ name = amp_PreferredVersion p) ∧
  (∃ s props, document_schema (vk_Schema kind) (vk_Kind kind) s ∧ structural false s ∧
    json_properties (delete "metadata" <$> s_Properties s) = inl props ∧
    cv_Schema v = Some {["openAPIV3Schema" := crd_schema props]} ∧
    (∀ k, is_Some (items (cv_Subresources v) !! k) ↔ k ≠ "spec" ∧ is_Some (props !! k))) ∧
  elems (cv_SelectableFields v) = selectable_field <$> elems (vk_SelectableFields kind) ∧
  elems (cv_AdditionalPrinterColumns v) = printer_column <$> elems (vk_AdditionalPrinterColumns kind).

Lemma crd_version_made p only kv v : crd_version p only kv = Ok v → version_made p only kv v.
Proof.
  destruct kv as [name kind]. unfold crd_version, KindVersionToCRDSpecVersion.
  intros (v' & (props & (s & Hd & Hs & Hj)%cueToCRDOpenAPI_structural & [= <-])%obind_Ok & [= <-])%obind_Ok.
  assert (Hsub : ∀ k, is_Some (((λ _, AMap ∅ : any Empty_set) <$> delete "spec" props) !! k) ↔ k ≠ "spec" ∧ is_Some (props !! k)).
  { intros k. rewrite lookup_fmap, fmap_is_Some. destruct (decide (k = "spec")) as [->|Hk].
    - rewrite lookup_delete_eq. split; [by intros [] | naive_solver].
    - rewrite lookup_delete_ne by done. naive_solver. }
  destruct only; (split_and!; [done | done | | exists s, props; done | apply elems_mapped_slice..]); simpl.
  - naive_solver.
  - rewrite String.eqb_eq. naive_solver.
Qed.

Lemma crd_versions_made p only kvs : ∀ vs, crd_versions p only kvs = Ok vs → Forall2 (version_made p only) kvs vs.
Proof.
  induction kvs as [|kv kvs IH]; intros vs; simpl; [intros [= <-]; constructor|].
  intros (v & Hv%crd_version_made & (vs' & Hvs & [= <-])%obind_Ok)%obind_Ok. constructor; auto.
Qed.

(** The versions of a kind, in order. *)
Definition versions_of (name : string) (l : list (SimpleVersion Cue * VersionedKind Cue)) : list (string * VersionedKind Cue) :=
  omap (λ '(v, k), if String.eqb (vk_Kind k) name then Some (SimpleVersion_Name v, k) else None) l.

Lemma group_kinds_lookup l name :
  group_kinds l !! name = match versions_of name l with [] => None | kvs => Some kvs end.
Proof.
  unfold group_kinds, versions_of. induction l as [|[v k] l IH] using rev_ind; [done|].
  rewrite fold_left_app, omap_app. simpl. set (f := omap _ l) in *. destruct (String.eqb (vk_Kind k) name) eqn:E.
  - apply String.eqb_eq in E as ->. rewrite lookup_insert_eq, IH. by destruct f.
  - apply String.eqb_neq in E. rewrite lookup_insert_ne by done. rewrite app_nil_r. apply IH.
Qed.

(** The conversion of a definition: that of a kind with conversion and the URL of a webhook. *)
Definition conversion_made (k : VersionedKind Cue) (c : option CRDConversion) : Prop :=
  match c with
  | Some c => vk_Conversion k = true ∧ ∃ u, parse_url (cwp_URL (vk_ConversionWebhookProps k)) = inl u ∧
      c = mkCRDConversion "webhook" (Some (mkCRDWebhook (Some ["v1"]) (mkCRDClientConfig None u)))
  | None => vk_Conversion k = false ∨ cwp_URL (vk_ConversionWebhookProps k) = ""
  end.

Lemma crd_conversion_made k c : crd_conversion k = Ok c → conversion_made k c.
Proof.
  unfold crd_conversion. destruct (vk_Conversion k) eqn:Ek; simpl; [|intros [= <-]; by left].
  destruct (String.eqb_spec (cwp_URL (vk_ConversionWebhookProps k)) ""); simpl; [intros [= <-]; by right|].
  destruct (parse_url _) as [u|] eqn:Eu; [|done]. intros [= <-]. split; [done|]. by exists u.
Qed.

(** A definition of the kind [name], and its file: the names, the scope and the conversion
    are those of the kind's first version, the versions those of the manifest. *)
Definition crd_for (m : AppManifest Cue) (name : string) (file : string) (crd : CRD) : Prop :=
  let p := am_Properties m in
  let kvs := versions_of name (VersionedKinds m) in
  ∃ first, snd <$> head kvs = Some first ∧
    file = vk_MachineName first +:+ "." +:+ amp_FullGroup p +:+ "." +:+ outputExtension ∧
    crd_Name crd = vk_PluralMachineName first +:+ "." +:+ amp_FullGroup p ∧
    crd_Group crd = amp_FullGroup p ∧ crd_NamesKind crd = name ∧ crd_NamesPlural crd = vk_PluralMachineName first ∧
    crd_Scope crd = vk_Scope first ∧ conversion_made first (crd_Conversion crd) ∧
    Forall2 (version_made p (Nat.eqb (length kvs) 1)) kvs (elems (crd_Versions crd)).

Lemma crd_files_spec m names : (∀ name, name ∈ names → versions_of name (VersionedKinds m) ≠ []) → ∀ files,
  crd_files (am_Properties m) ((λ n, versions_of n (VersionedKinds m)) <$> names) = Ok files →
  Forall2 (λ name f, ∃ crd, crd_for m name f.1 crd ∧ outputEncoder crd = inl f.2) names files.
Proof.
  induction names as [|name names IH]; intros Hn files; [intros [= <-]; constructor|].
  rewrite fmap_cons. destruct (versions_of name (VersionedKinds m)) as [|[v first] kvs] eqn:E; [destruct (Hn name); [left | done]|].
  cbn [crd_files]. rewrite <- E. intros (crd & Hcrd & H)%obind_Ok. destruct (outputEncoder crd) as [contents|] eqn:Ee; [|done].
  apply obind_Ok in H as (files' & Hfiles & [= <-]). constructor; [|apply IH; [set_solver | done]].
  exists crd. split; [|done]. unfold crd_of in Hcrd.
  apply obind_Ok in Hcrd as (conv & Hconv%crd_conversion_made & (vs & Hvs%crd_versions_made & [= <-])%obind_Ok).
  exists first. rewrite E in *. split_and!; try done. simpl.
  assert (Hin : (v, first) ∈ versions_of name (VersionedKinds m)) by (rewrite E; left).
  apply list_elem_of_omap in Hin as ([v' k] & _ & Hk). destruct (String.eqb_spec (vk_Kind k) name); [|done].
  by injection Hk as _ <-.
Qed.

(** C18: A manifest whose definitions can be generated gets one file for each kind.  Its
    definition is named after the first version of the kind, with its scope and conversion,
    and has the versions of the kind in order.  The schema of each version has the
    properties, without the metadata, of the schema that the OpenAPI document made from that
    version's own CUE value holds under the name of the kind, resolved, which is structural;
    its other fields are the subresources, its selectable fields and printer columns those
    of that version; stored is the only version, or the preferred one. *)
Theorem crd_Generate_correct m files : crd_Generate m = Ok files →
  ∃ names, NoDup names ∧ (∀ name, name ∈ names ↔ ∃ v k, (v, k) ∈ VersionedKinds m ∧ vk_Kind k = name) ∧
    Forall2 (λ name f, ∃ crd, crd_for m name f.1 crd ∧ outputEncoder crd = inl f.2) names files.
Proof.
  unfold crd_Generate. intros H. set (groups := group_kinds (VersionedKinds m)) in *. exists (range_keys (dom groups)).
  assert (Hdom : ∀ name, name ∈ range_keys (dom groups) ↔ versions_of name (VersionedKinds m) ≠ []).
  { intros name. rewrite elem_of_range_keys, elem_of_dom. unfold groups. rewrite group_kinds_lookup.
    destruct (versions_of name _); [split; [by intros []|done] | split; [done | by eexists]]. }
  split_and!; [apply NoDup_range_keys | |].
  - intros name. rewrite Hdom. split.
    + destruct (versions_of name (VersionedKinds m)) as [|vk kvs] eqn:E; [done|]. intros _.
      assert (Hin : vk ∈ versions_of name (VersionedKinds m)) by (rewrite E; left).
      apply list_elem_of_omap in Hin as ([v k] & Hin & Hk). exists v, k. split; [done|].
      by destruct (String.eqb_spec (vk_Kind k) name).
    + intros (v & k & Hin & <-) E. assert (Hx : (SimpleVersion_Name v, k) ∈ versions_of (vk_Kind k) (VersionedKinds m)).
      { apply list_elem_of_omap. exists (v, k). split; [done|]. by rewrite String.eqb_refl. }
      rewrite E in Hx. by apply elem_of_nil in Hx.
  - apply crd_files_spec; [intros name; by rewrite Hdom|]. rewrite <- H. f_equal. unfold range_map.
    assert (Hl : ∀ l, (∀ name, name ∈ l → versions_of name (VersionedKinds m) ≠ []) →
      (λ n, versions_of n (VersionedKinds m)) <$> l = (omap (λ k, (k,.) <$> groups !! k) l).*2).
    { induction l as [|name l IH]; intros Hl; [done|]. simpl. unfold groups at 1. rewrite group_kinds_lookup.
      destruct (versions_of name (VersionedKinds m)) eqn:E; [destruct (Hl name); [left | done]|]. simpl.
      f_equal. apply IH. set_solver. }
    apply Hl. intros name. by rewrite Hdom.
Qed.

(** The definitions are generated whenever the schemas of all kinds can be converted, the
    URLs parsed and the definitions encoded. *)
Lemma crd_Generate_succeeds m :
  (∀ v k, (v, k) ∈ VersionedKinds m → ∃ props, cueToCRDOpenAPI (vk_Schema k) (vk_Kind k) = Ok props) →
  (∀ u, ∃ u', parse_url u = inl u') → (∀ crd, ∃ contents, outputEncoder crd = inl contents) →
  ∃ files, crd_Generate m = Ok files.
Proof.
  intros Hs Hu He. set (good := λ kv : string * VersionedKind Cue, ∃ props, cueToCRDOpenAPI (vk_Schema kv.2) (vk_Kind kv.2) = Ok props).
  assert (Hv : ∀ p only kvs, Forall good kvs → ∃ vs, crd_versions p only kvs = Ok vs).
  { intros p only kvs. induction 1 as [|kv kvs [props Hp] _ [vs IH]]; [by eexists|]. simpl.
    unfold crd_version, KindVersionToCRDSpecVersion. rewrite Hp. simpl. rewrite IH. by eexists. }
  assert (Hf : ∀ p kinds, Forall (Forall good) kinds → ∃ files, crd_files p kinds = Ok files).
  { intros p kinds. induction 1 as [|kvs kinds Hk _ [files IH]]; [by eexists|]. destruct kvs as [|[v first] kvs]; [by exists files|].
    cbn [crd_files]. unfold crd_of. destruct (Hv p (Nat.eqb (length ((v, first) :: kvs)) 1) _ Hk) as [vs ->].
    assert (Hc : ∃ c, crd_conversion first = Ok c).
    { unfold crd_conversion. destruct (_ && _); [|by eexists]. destruct (Hu (cwp_URL (vk_ConversionWebhookProps first))) as [u ->]. by eexists. }
    destruct Hc as [c ->]. simpl. match goal with |- context [outputEncoder ?d] => destruct (He d) as [contents ->] end.
    rewrite IH. by eexists. }
  apply Hf, Forall_forall. intros kvs Hin. apply list_elem_of_fmap in Hin as ([name kvs'] & -> & Hin). apply elem_of_range_map in Hin.
  rewrite group_kinds_lookup in Hin. apply Forall_forall. intros kv Hkv. simpl in Hkv.
  assert (Hkv' : kv ∈ versions_of name (VersionedKinds m)) by (destruct (versions_of name _); [done | by injection Hin as ->]).
  apply list_elem_of_omap in Hkv' as ([v k] & Hvk & E). destruct (String.eqb (vk_Kind k) name); [|done].
  injection E as <-. by apply (Hs v).
Qed.

(** A kind of several versions that the preferred one does not have is stored in none: the
    API server refuses its definition. *)
Lemma crd_without_storage m name file crd : crd_for m name file crd → length (versions_of name (VersionedKinds m)) ≠ 1%nat →
  (∀ kv, kv ∈ versions_of name (VersionedKinds m) → kv.1 ≠ amp_PreferredVersion (am_Properties m)) →
  ∀ v, v ∈ elems (crd_Versions crd) → cv_Storage v = false.
Proof.
  intros (first & _ & _ & _ & _ & _ & _ & _ & _ & Hv) Hl Hp v Hin. apply list_elem_of_lookup in Hin as [i Hi].
  destruct (Forall2_lookup_r _ _ _ _ _ Hv Hi) as ([kvn kvk] & Hkv & _ & _ & Hst & _).
  destruct (cv_Storage v); [|done]. exfalso. destruct (proj1 Hst eq_refl) as [H|H].
  - apply Nat.eqb_eq in H. done.
  - apply (Hp (kvn, kvk)); [by eapply list_elem_of_lookup_2 | done].
Qed.
End CRDs.

(** A manifest with a kind in two versions; the schema of the second has one field more. *)
Definition test_capability : KindAdmissionCapability := mkKindAdmissionCapability None.
Definition test_kind_codegen : KindCodegenProperties := mkKindCodegenProperties false None false true None.
Definition test_kind (schema : string) : VersionedKind string :=
  mkVersionedKind "Foo" "foo" "foos" "Foos" "Namespaced" test_capability test_capability false (mkConversionWebhookProperties "")
    test_kind_codegen true (Some ["spec.a"]) None schema None.
Definition test_version (name schema : string) : SimpleVersion string :=
  mkSimpleVersion (mkVersionProperties name true test_kind_codegen) [test_kind schema] None.
Definition test_manifest : AppManifest string :=
  mkAppManifest "app" [test_version "v1" "status"; test_version "v2" "scale"]
    (mkAppManifestProperties "app" "App" "app" "app.g" None None "v2" None None).

Definition test_document (field name : string) : nmap SchemaRef + GoError :=
  let object := inline (with_Type Schema_zero (Some ["object"])) in
  inl (Some {[name := inline (object_with {["spec" := object; field := object; "metadata" := object]})]}).
Definition test_properties (props : nmap SchemaRef) : gmap string (any Empty_set) + GoError := inl ((λ _, ANil) <$> items props).

(** The versions, the stored one marked, each with its subresources. *)
Definition test_version_text (v : CRDSpecVersion) : string :=
  " " +:+ cv_Name v +:+ (if cv_Storage v then " stored" else "") +:+
  String.concat "" ((λ f, "/" +:+ f.1) <$> map_to_list (items (cv_Subresources v))).
Definition test_encoder (c : CRD) : string + GoError :=
  inl (crd_Name c +:+ String.concat "" (test_version_text <$> elems (crd_Versions c))).

Lemma crd_Generate_correct_witness :
  crd_Generate test_document test_properties inl test_encoder "json" test_manifest =
    Ok [("foo.app.g.json", "foos.app.g v1/status v2 stored/scale")] ∧
  ∃ names, NoDup names ∧
    (∀ name, name ∈ names ↔ ∃ v k, (v, k) ∈ VersionedKinds test_manifest ∧ vk_Kind k = name) ∧
    Forall2 (λ name f, ∃ crd, crd_for test_document test_properties inl "json" test_manifest name f.1 crd ∧
      test_encoder crd = inl f.2) names [("foo.app.g.json", "foos.app.g v1/status v2 stored/scale")].
Proof.
  assert (E : crd_Generate test_document test_properties inl test_encoder "json" test_manifest =
    Ok [("foo.app.g.json", "foos.app.g v1/status v2 stored/scale")]) by (vm_compute; reflexivity).
  split; [exact E|]. exact (crd_Generate_correct test_document test_properties inl test_encoder "json" test_manifest _ E).
Defined.

(** An empty selectable field is kept, as one without a path. *)
Example selectable_fields : mapped_slice selectable_field (Some [" spec.a"; ".spec.b"; " "]) =
  Some [mkCRDSelectableField ".spec.a"; mkCRDSelectableField ".spec.b"; mkCRDSelectableField ""].
Proof. reflexivity. Qed.
