(* ===== verification/Templates.v ===== *)
(** * The templates of generated code ([codegen/templates/templates.go])

    What is given to the templates, the methods they call, and what is done before one is
    executed.  Executing a template is an operation of the record [Templates]. *)
From S2P Require Import Prelude GoValues Resource VersionSchema Manifest SourceTree Codemods Codegen.
From stdpp Require Import sorting.

#[local] Open Scope string_scope.
#[local] Open Scope list_scope.

(** ** Names *)

(** [goKeywords] and [ToPackageName], which is not the one of the jennies. *)
Definition goKeywords : list string :=
  ["break"; "case"; "chan"; "const"; "continue"; "default"; "defer"; "else"; "fallthrough"; "for"; "func"; "go"; "goto"; "if";
   "import"; "interface"; "map"; "package"; "range"; "return"; "select"; "struct"; "switch"; "type"; "var"].

Definition template_ToPackageName (input : string) : string :=
  let pkgName := ToPackageName input in
  if existsb (String.eqb pkgName) goKeywords then pkgName +:+ "_pkg" else pkgName.

(** [ToPackageNameVariable], [GroupToPackageName], [KindToPackageName] *)
Definition ToPackageNameVariable (input : string) : string := ReplaceAll (template_ToPackageName input) "_" "".
Definition first_part (s : string) : string := hd "" (Split s ".").
Definition GroupToPackageName (input : string) : string := template_ToPackageName (first_part input).
Definition KindToPackageName (input : string) : string := template_ToPackageName (ToLower input).

(** [SchemaMetadata.ToObjectPath] *)
Definition object_part (i : nat) (part : string) : string :=
  exportField (if Nat.eqb i 0 && String.eqb part "metadata" then "ObjectMeta" else part).
Definition ToObjectPath (s : string) : string :=
  let s := match s with String c rest => if Ascii.eqb c "." then rest else s | EmptyString => s end in
  String.concat "." (imap object_part (Split s ".")).

(** [ManifestGoFileMetadata.StripLeadingSlash] *)
Fixpoint StripLeadingSlash (path : string) : string :=
  match path with
  | String c rest => if Ascii.eqb c "/" then StripLeadingSlash rest else path
  | EmptyString => path
  end.

(** [ManifestGoFileMetadata.ToAdmissionOperationName] *)
Definition ToAdmissionOperationName (input : string) : string :=
  let u := ToUpper input in
  if String.eqb u AdmissionOperationCreate then "AdmissionOperationCreate"
  else if String.eqb u AdmissionOperationUpdate then "AdmissionOperationUpdate"
  else if String.eqb u AdmissionOperationDelete then "AdmissionOperationDelete"
  else if String.eqb u AdmissionOperationConnect then "AdmissionOperationConnect"
  else if String.eqb u AdmissionOperationAny then "AdmissionOperationAny"
  else "AdmissionOperation(" +:+ quoted input +:+ ")".

(** [ManifestGoFileMetadata.ToJSONBacktickString], of the JSON. *)
Definition ToJSONBacktickString (json : string) : string :=
  "`" +:+ ReplaceAll json "`" ("` + " +:+ quoted "`" +:+ " + `") +:+ "`".

(** [filepath.Join] of any number of elements. *)
Definition Join_all (elements : list string) : string :=
  match List.filter (λ e, negb (String.eqb e "")) elements with
  | [] => ""
  | l => Clean (String.concat "/" l)
  end.

(** ** What templates are given *)

Record SubresourceMetadata := mkSubresourceMetadata { sm_Name : string; sm_TypeName : string; sm_JSONName : string; sm_Comment : string }.

(** [CustomMetadataFieldGoType] with its two functions. *)
Record CustomMetadataFieldGoType := mkFieldGoType {
  gt_GoType : string;
  gt_SetFuncTemplate : option (string → string → string);
  gt_GetFuncTemplate : option (string → string);
  gt_AdditionalImports : nslice string;
}.
Definition GoTypeString : CustomMetadataFieldGoType :=
  mkFieldGoType "string" (Some (λ i s, s +:+ " = " +:+ i)) (Some (λ v, "return " +:+ v)) None.
Definition GoTypeInt : CustomMetadataFieldGoType :=
  mkFieldGoType "int" (Some (λ i s, s +:+ " = strconv.Itoa(" +:+ i +:+ ")"))
    (Some (λ v, "i, _ := strconv.Atoi(" +:+ v +:+ ")" +:+ String "010" "return i")) (Some ["strconv"]).
Definition GoTypeTime : CustomMetadataFieldGoType :=
  mkFieldGoType "time.Time" (Some (λ i s, s +:+ " = " +:+ i +:+ ".Format(time.RFC3339)"))
    (Some (λ v, "parsed, _ := time.Parse(time.RFC3339, " +:+ v +:+ ")" +:+ String "010" "return parsed")) (Some ["time"]).

Record ObjectMetadataField := mkObjectMetadataField { omf_JSONName : string; omf_FieldName : string; omf_GoType : CustomMetadataFieldGoType }.

Record ResourceObjectTemplateMetadata := mkResourceObjectMetadata {
  rom_Package : string;
  rom_TypeName : string;
  rom_SpecTypeName : string;
  rom_ObjectTypeName : string;
  rom_ObjectShortName : string;
  rom_OpenAPIModelName : string;
  rom_Subresources : list SubresourceMetadata;
  rom_CustomMetadataFields : list ObjectMetadataField;
}.

Record ResourceTSTemplateMetadata := mkResourceTSMetadata { rtm_TypeName : string; rtm_FilePrefix : string; rtm_Subresources : list SubresourceMetadata }.

Record SchemaMetadataSelectableField := mkSelectableField {
  msf_Field : string;
  msf_Optional : bool;
  msf_Type : string;
  msf_OptionalFieldsInPath : list string;
}.
Record SchemaMetadata := mkSchemaMetadata {
  sma_Package : string;
  sma_Group : string;
  sma_Version : string;
  sma_Kind : string;
  sma_Plural : string;
  sma_Scope : string;
  sma_SelectableFields : list SchemaMetadataSelectableField;
  sma_FuncPrefix : string;
}.

Record BackendPluginRouterTemplateMetadata := mkRouterMetadata {
  brm_Repo : string;
  brm_APICodegenPath : string;
  brm_Resources : list KindProperties;
  brm_PluginID : string;
  brm_KindsAreGrouped : bool;
}.
Record BackendPluginHandlerTemplateMetadata := mkHandlerMetadata {
  bhm_KindProperties : KindProperties;
  bhm_Repo : string;
  bhm_APICodegenPath : string;
  bhm_TypeName : string;
  bhm_IsResource : bool;
  bhm_Version : string;
  bhm_KindPackage : string;
  bhm_KindsAreGrouped : bool;
}.
Record WatcherMetadata := mkWatcherMetadata {
  wm_KindProperties : KindProperties;
  wm_PackageName : string;
  wm_Repo : string;
  wm_CodegenPath : string;
  wm_Version : string;
  wm_KindPackage : string;
  wm_KindsAreGrouped : bool;
  wm_KindPackageAlias : string;
}.
Record OperatorMainMetadata := mkOperatorMainMetadata {
  omm_PackageName : string;
  omm_ProjectName : string;
  omm_Repo : string;
  omm_CodegenPath : string;
  omm_WatcherPackage : string;
  omm_KindsAreGrouped : bool;
}.
Record AppMetadataKind := mkAppMetadataKind { amk_KindProperties : KindProperties; amk_Versions : list string }.
Record AppMetadata := mkAppMetadata {
  apm_PackageName : string;
  apm_ProjectName : string;
  apm_Repo : string;
  apm_CodegenPath : string;
  apm_WatcherPackage : string;
  apm_ManifestPackagePath : string;
  apm_KindsAreGrouped : bool;
  apm_Resources : list AppMetadataKind;
}.
Record ConstantsMetadata := mkConstantsMetadata { ctm_Package : string; ctm_Group : string; ctm_Version : string }.

Record GoCustomRouteParamValues := mkParamValues { pv_Key : string; pv_FieldName : string }.
Record GoClientCustomRoute := mkClientRoute {
  gcr_TypeName : string;
  gcr_Path : string;
  gcr_Method : string;
  gcr_HasParams : bool;
  gcr_HasBody : bool;
  gcr_ParamValues : list GoCustomRouteParamValues;
}.
Record GoResourceClientSubresource := mkClientSubresource { gcs_FieldName : string; gcs_Subresource : string }.
Record GoResourceClientMetadata := mkResourceClientMetadata {
  rcm_PackageName : string;
  rcm_KindName : string;
  rcm_KindPrefix : string;
  rcm_Subresources : list GoResourceClientSubresource;
  rcm_CustomRoutes : list GoClientCustomRoute;
}.
Record GoCustomRouteClientMetadata := mkRouteClientMetadata {
  grm_PackageName : string;
  grm_NamespacedRoutes : list GoClientCustomRoute;
  grm_ClusterRoutes : list GoClientCustomRoute;
  grm_Group : string;
  grm_Version : string;
}.
Record RuntimeObjectWrapperMetadata := mkWrapperMetadata {
  row_PackageName : string;
  row_WrapperTypeName : string;
  row_TypeName : string;
  row_OpenAPIModelName : string;
  row_HasObjectMeta : bool;
  row_HasListMeta : bool;
  row_AddDeepCopyForTypeName : bool;
  row_KubernetesCodegenComments : bool;
}.

(** Resources by group and version. *)
Definition ByGroupVersion : Type := gmap (string * string) (list KindProperties).

(** The templates, executed: [text/template] over the files [*.tmpl]. *)
Record Templates := mkTemplates {
  tm_ResourceObject : ResourceObjectTemplateMetadata → string + GoError;
  tm_TSType : ResourceTSTemplateMetadata → string + GoError;
  tm_Schema : SchemaMetadata → string + GoError;
  tm_Codec : SchemaMetadata → string + GoError;
  tm_Router : BackendPluginRouterTemplateMetadata → string + GoError;
  tm_ModelsHandler : BackendPluginHandlerTemplateMetadata → string + GoError;
  tm_ResourceHandler : BackendPluginHandlerTemplateMetadata → string + GoError;
  tm_BackendMain : BackendPluginRouterTemplateMetadata → ByGroupVersion → string + GoError;
  tm_Watcher : WatcherMetadata → string + GoError;
  tm_OperatorKubeconfig : string + GoError;
  tm_OperatorMain : OperatorMainMetadata → string + GoError;
  tm_OperatorConfig : string + GoError;
  tm_App : AppMetadata → ByGroupVersion → ByGroupVersion → string + GoError;
  tm_Constants : ConstantsMetadata → string + GoError;
  tm_GoResourceClient : GoResourceClientMetadata → string + GoError;
  tm_GoRouteClient : GoCustomRouteClientMetadata → string + GoError;
  tm_RuntimeObject : RuntimeObjectWrapperMetadata → string + GoError;
}.

(** ** Executing the templates *)
Section Write.
Context `{SS : !SliceSort} (t : Templates).

Definition WriteBackendPluginHandler (md : BackendPluginHandlerTemplateMetadata) : string + GoError :=
  if negb (bhm_IsResource md) then tm_ModelsHandler t md else tm_ResourceHandler t md.

Definition add_gv (gv : string * string) (k : KindProperties) (m : ByGroupVersion) : ByGroupVersion :=
  <[gv := default [] (m !! gv) ++ [k]]> m.

Definition WriteBackendPluginMain (md : BackendPluginRouterTemplateMetadata) : string + GoError :=
  tm_BackendMain t md (fold_left (λ m k, add_gv (kp_Group_ k, kp_Current k) k m) (brm_Resources md) ∅).

Definition WriteWatcher (md : WatcherMetadata) : string + GoError :=
  let alias := if String.eqb (wm_KindPackageAlias md) "" then kp_MachineName (wm_KindProperties md) else wm_KindPackageAlias md in
  tm_Watcher t (mkWatcherMetadata (wm_KindProperties md) (wm_PackageName md) (wm_Repo md) (wm_CodegenPath md) (wm_Version md)
                  (wm_KindPackage md) (wm_KindsAreGrouped md) (template_ToPackageName alias)).

Definition WriteAppGoFile (md : AppMetadata) : string + GoError :=
  tm_App t md
    (fold_left (λ m k, fold_left (λ m v, add_gv (kp_Group_ (amk_KindProperties k), v) (amk_KindProperties k) m) (amk_Versions k) m)
       (apm_Resources md) ∅)
    (fold_left (λ m k, let p := amk_KindProperties k in add_gv (kp_Group_ p, kp_Current p) p m) (apm_Resources md) ∅).

(** The order of routes, parameters and subresources in a client. *)
Definition route_key (r : GoClientCustomRoute) : string := gcr_Path r +:+ "|" +:+ gcr_Method r.

Definition sort_params (r : GoClientCustomRoute) : GoClientCustomRoute :=
  mkClientRoute (gcr_TypeName r) (gcr_Path r) (gcr_Method r) (gcr_HasParams r) (gcr_HasBody r)
    (sort_by pv_FieldName (gcr_ParamValues r)).

Definition sort_routes (l : list GoClientCustomRoute) : list GoClientCustomRoute :=
  sort_params <$> sort_by route_key l.

Definition WriteGoResourceClient (md : GoResourceClientMetadata) : string + GoError :=
  tm_GoResourceClient t (mkResourceClientMetadata (rcm_PackageName md) (rcm_KindName md) (rcm_KindPrefix md)
    (sort_by gcs_Subresource (rcm_Subresources md))
    (sort_routes (rcm_CustomRoutes md))).

Definition WriteGoCustomRouteClient (md : GoCustomRouteClientMetadata) : string + GoError :=
  tm_GoRouteClient t (mkRouteClientMetadata (grm_PackageName md) (sort_routes (grm_NamespacedRoutes md))
    (sort_routes (grm_ClusterRoutes md)) (grm_Group md) (grm_Version md)).
End Write.

(** ** The manifest in Go *)
Section ManifestGo.
Context {Path SchemaT G : Type} `{RO : !RangeOrder}.

Record ManifestGoFileMetadata := mkManifestGoFileMetadata {
  mgm_Package : string;
  mgm_Repo : string;
  mgm_CodegenPath : string;
  mgm_KindsAreGrouped : bool;
  mgm_ManifestData : ManifestData Path SchemaT G;
  mgm_CodegenManifestGroup : string;
}.

Definition GetPackageName (m : ManifestGoFileMetadata) (kind version : string) : string :=
  if mgm_KindsAreGrouped m then template_ToPackageName version else KindToPackageName kind +:+ template_ToPackageName version.

(** [Packages]: the imports, each an alias and a path. *)
Definition import_line (alias path : string) : string := alias +:+ " " +:+ quoted path.

Definition group_package (m : ManifestGoFileMetadata) (version : string) : string :=
  GroupToPackageName (mgm_CodegenManifestGroup m) +:+ "/" +:+ template_ToPackageName version.

Definition version_packages (m : ManifestGoFileMetadata) (v : ManifestVersion Path SchemaT G) : list string :=
  ((λ k, import_line (KindToPackageName (mvk_Kind k) +:+ template_ToPackageName (mv_Name v))
           (Join_all [mgm_Repo m; mgm_CodegenPath m; KindToPackageName (mvk_Kind k); template_ToPackageName (mv_Name v)]))
   <$> elems (mv_Kinds v)) ++
  (if nonempty_map (mvr_Namespaced (mv_Routes v)) || nonempty_map (mvr_Cluster (mv_Routes v)) then
     [import_line (template_ToPackageName (mv_Name v))
        (Join_all [mgm_Repo m; mgm_CodegenPath m; GroupToPackageName (mgm_CodegenManifestGroup m); template_ToPackageName (mv_Name v)])]
   else []).

Definition Packages (m : ManifestGoFileMetadata) : list string :=
  merge_sort String.le
    (if mgm_KindsAreGrouped m then
       let gvs : gmap string string :=
         fold_left (λ gvs v, <[group_package m (mv_Name v) := template_ToPackageName (mv_Name v)]> gvs)
           (elems (md_Versions (mgm_ManifestData m))) ∅ in
       (λ '(pkg, alias), import_line alias (Join_all [mgm_Repo m; mgm_CodegenPath m; pkg])) <$> range_map gvs
     else elems (md_Versions (mgm_ManifestData m)) ≫= version_packages m).

Definition HasVersionSchemas (m : ManifestGoFileMetadata) : bool :=
  existsb (λ v, existsb (λ k, bool_decide (is_Some (mvk_Schema k))) (elems (mv_Kinds v))) (elems (md_Versions (mgm_ManifestData m))).

Definition SortedRoleKeys (m : ManifestGoFileMetadata) : list string :=
  merge_sort String.le (range_keys (dom (items (md_Roles (mgm_ManifestData m))))).
End ManifestGo.
Arguments ManifestGoFileMetadata : clear implicits.

(** ** Properties *)

(** *** Names and paths *)
Lemma template_ToPackageName_id s : ToPackageName s ∉ goKeywords → template_ToPackageName s = ToPackageName s.
Proof. unfold template_ToPackageName. by intros ->%existsb_eqb_false. Qed.

Lemma is_word_free c s : is_word c = false → all_chars is_word s = true → free_of c s = true.
Proof.
  intros Hc. induction s as [|c' s IH]; simpl; [done|]. intros [Hw Hs]%andb_true_iff. rewrite IH, andb_true_r by done.
  apply negb_true_iff. destruct (Ascii.eqb_spec c' c) as [->|]; [congruence | done].
Qed.

Lemma clean_word rooted out seg : all_chars is_word seg = true → seg ≠ "" → clean_step rooted out seg = seg :: out.
Proof.
  intros Hw Hn. unfold clean_step. assert (Hd : ∀ s, all_chars is_word s = false → bool_decide (seg = s) = false).
  { intros s Hs. apply bool_decide_false. congruence. }
  rewrite (bool_decide_false (seg = "")), (Hd "."), (Hd "..") by done. done.
Qed.

Lemma prefix_char_ne d c s : d ≠ c → String.prefix (String d "") (String c s) = false.
Proof. intros H. simpl. by destruct (Ascii.ascii_dec d c). Qed.

(** The path of a package is its two names, since neither has a slash or is a dot. *)
Lemma Join_words a b : all_chars is_word a = true → all_chars is_word b = true → a ≠ "" → b ≠ "" →
  path_Join a b = a +:+ "/" +:+ b.
Proof.
  intros Ha Hb Hna Hnb. unfold path_Join. rewrite !bool_decide_false by done. unfold Clean.
  assert (Hr : String.prefix "/" (a +:+ "/" +:+ b) = false).
  { destruct a as [|c a]; [done|]. apply prefix_char_ne. intros <-.
    apply andb_true_iff in Ha as [Ha _]. vm_compute in Ha. done. }
  assert (Hs : Split (a +:+ "/" +:+ b) "/" = [a; b]).
  { change (a +:+ "/" +:+ b) with (a +:+ String "/" b). by rewrite Split_free, Split_free_end by (by apply is_word_free). }
  rewrite Hr, Hs. cbn [foldl]. rewrite !clean_word by done. simpl. rewrite bool_decide_false; [done|]. by destruct a.
Qed.

Lemma ToPackageName_nonempty s : s ≠ "" → ToPackageName s ≠ "".
Proof. by destruct s. Qed.

Lemma string_app_inj a b c : a +:+ b = a +:+ c → b = c.
Proof. induction a as [|x a IH]; simpl; [done|]. intros [= H]. by apply IH. Qed.

(** *** The imports of the manifest *)
Section Imports.
Context {Path SchemaT G : Type} `{RO : !RangeOrder}.
Implicit Types m : ManifestGoFileMetadata Path SchemaT G.

Lemma elem_of_grouped_packages m imp : mgm_KindsAreGrouped m = true →
  imp ∈ Packages m ↔ ∃ v, v ∈ elems (md_Versions (mgm_ManifestData m)) ∧
    imp = import_line (template_ToPackageName (mv_Name v)) (Join_all [mgm_Repo m; mgm_CodegenPath m; group_package m (mv_Name v)]).
Proof.
  intros Hg. unfold Packages. rewrite Hg, merge_sort_Permutation.
  set (vs := elems (md_Versions (mgm_ManifestData m))). set (f := λ gvs v, _).
  assert (Hl : ∀ pkg alias, fold_left f vs ∅ !! pkg = Some alias ↔
    ∃ v, v ∈ vs ∧ pkg = group_package m (mv_Name v) ∧ alias = template_ToPackageName (mv_Name v)).
  { intros pkg alias. induction vs as [|v vs IH] using rev_ind; simpl.
    - rewrite lookup_empty. split; [done|]. by intros (v & ?%elem_of_nil & _).
    - rewrite fold_left_app. simpl. unfold f at 1. rewrite lookup_insert_Some, IH. setoid_rewrite elem_of_app.
      setoid_rewrite list_elem_of_singleton. split; [naive_solver|]. intros (v' & [Hv'|E'] & -> & ->); [|subst v'; by left].
      destruct (decide (group_package m (mv_Name v) = group_package m (mv_Name v'))) as [E|E]; [|naive_solver].
      left. split; [done|]. unfold group_package in E. apply string_app_inj in E. by injection E. }
  rewrite list_elem_of_fmap. split.
  - intros ([pkg alias] & -> & Hin%elem_of_range_map). apply Hl in Hin as (v & Hv & -> & ->). by exists v.
  - intros (v & Hv & ->). exists (group_package m (mv_Name v), template_ToPackageName (mv_Name v)). split; [done|].
    apply elem_of_range_map, Hl. by exists v.
Qed.

(** With kinds grouped, the packages that the manifest imports are those that the other
    jennies generate for its versions, each under its own name, if the group has no dot and
    no name is a keyword of Go. *)
Theorem imports_are_generated m kind imp : mgm_KindsAreGrouped m = true →
  let group := mgm_CodegenManifestGroup m in
  group ≠ "" → first_part group = group → ToPackageName group ∉ goKeywords →
  (∀ v, v ∈ elems (md_Versions (mgm_ManifestData m)) → mv_Name v ≠ "" ∧ ToPackageName (mv_Name v) ∉ goKeywords) →
  imp ∈ Packages m ↔ ∃ v, v ∈ elems (md_Versions (mgm_ManifestData m)) ∧
    imp = import_line (ToPackageName (mv_Name v))
            (Join_all [mgm_Repo m; mgm_CodegenPath m; GetGeneratedGoTypePath false group (mv_Name v) kind]).
Proof.
  intros Hg group Hn Hd Hk Hv. rewrite elem_of_grouped_packages by done.
  assert (E : ∀ v, v ∈ elems (md_Versions (mgm_ManifestData m)) → template_ToPackageName (mv_Name v) = ToPackageName (mv_Name v) ∧
    group_package m (mv_Name v) = GetGeneratedGoTypePath false group (mv_Name v) kind).
  { intros v Hin. destruct (Hv v Hin) as [Hvn Hvk]. unfold group_package, GroupToPackageName, GetGeneratedGoTypePath.
    fold group. rewrite Hd, !template_ToPackageName_id by done. split; [done|]. symmetry.
    apply Join_words; (apply ToPackageName_word || by apply ToPackageName_nonempty). }
  split; intros (v & Hin & ->); exists v; (split; [done|]); destruct (E v Hin) as [-> ->]; done.
Qed.
End Imports.

(** A group that is a keyword of Go: the manifest imports a package that is not generated. *)
Lemma keyword_group_not_imported :
  GetGeneratedGoTypePath false "go" "v1" "foo" = "go/v1" ∧
  GroupToPackageName "go" +:+ "/" +:+ template_ToPackageName "v1" = "go_pkg/v1".
Proof. by split; vm_compute. Qed.

(** *** The order of clients *)

(** The same routes give the same client, whatever the order in which they were found. *)
Lemma sort_routes_unique `{SS : !SliceSort} l l' : NoDup (route_key <$> l) → l ≡ₚ l' → sort_routes l = sort_routes l'.
Proof. intros Hn Hp. unfold sort_routes. f_equal. by apply sort_by_unique. Qed.

(** Two versions of an app whose kinds are grouped. *)
Definition test_manifest_go : ManifestGoFileMetadata unit unit Empty_set :=
  let version name := mkManifestVersion name true (Some []) (mkManifestVersionRoutes None None None) in
  mkManifestGoFileMetadata "manifestdata" "github.com/a/b" "./pkg/generated" true
    (mkManifestData "app" "App" "app.g" (Some [version "v1"; version "v2-beta"]) "v1" None None None None) "app".

Lemma imports_are_generated_witness :
  import_line "v2_beta" "github.com/a/b/pkg/generated/app/v2_beta" ∈ Packages test_manifest_go ∧
  ∃ v, v ∈ elems (md_Versions (mgm_ManifestData test_manifest_go)) ∧
    import_line "v2_beta" "github.com/a/b/pkg/generated/app/v2_beta" =
    import_line (ToPackageName (mv_Name v)) (Join_all ["github.com/a/b"; "./pkg/generated"; GetGeneratedGoTypePath false "app" (mv_Name v) "foo"]).
Proof.
  assert (H : import_line "v2_beta" "github.com/a/b/pkg/generated/app/v2_beta" ∈ Packages test_manifest_go)
    by (apply (bool_decide_unpack _); vm_compute; exact I).
  split; [exact H|]. apply (imports_are_generated test_manifest_go "foo"); [reflexivity | discriminate | reflexivity | | | exact H].
  - apply (bool_decide_unpack _); vm_compute; exact I.
  - intros v Hv. split.
    + intros E. revert Hv. simpl. rewrite !elem_of_cons, elem_of_nil. intros [->|[->|[]]]; discriminate.
    + apply (bool_decide_unpack _). revert Hv. simpl. rewrite !elem_of_cons, elem_of_nil.
      intros [->|[->|[]]]; vm_compute; exact I.
Defined.
