(* ===== verification/Jennies.v ===== *)
(** * The generators of code ([codegen/jennies])

    What each jenny makes of a manifest: the schema, codec, object, constants and clients of
    its kinds and versions, the plugin, the watchers and the app, and the TypeScript of
    objects.  The templates, the formatting of Go code ([go/format] and [imports.Process]) and
    the text of CUE values are arguments. *)
From S2P Require Import Prelude GoValues Resource SourceTree Codemods Codegen Templates Schema.

#[local] Open Scope string_scope.
#[local] Open Scope list_scope.

(** [codejen.File]: its path and contents. *)
Record File := mkGenFile { fi_RelativePath : string; fi_Data : string }.

(** Looking up a path of fields in a value, with all of its selectors optional or none; the
    text of a value with its optional fields, and that of its kind. *)
Class CueLookup (Cue : Type) := {
  cue_Lookup : Cue → list string → bool → Cue;
  cue_Text : Cue → string;
  cue_Kind : Cue → string;
}.

Section Jennies.
Context {Cue : Type} `{CV : !CueValues Cue, CL : !CueLookup Cue, RO : !RangeOrder, SS : !SliceSort}.
Context (t : Templates) (format_Source imports_Process : string → string + GoError).

Abbreviation Manifest := (AppManifest Cue).
Abbreviation Kind := (VersionedKind Cue).
Abbreviation Version := (SimpleVersion Cue).

(** A template is executed, and its output formatted; the imports are then processed unless
    that is skipped. *)
Definition formatted (r : string + GoError) : string + GoError := bind_err r format_Source.
Definition processed (skip : bool) (r : string + GoError) : string + GoError :=
  let+ b := formatted r in if negb skip then imports_Process b else inl b.

(** The directory of a kind and a version, of the types and of the clients. *)
Definition type_path (groupByKind : bool) (m : Manifest) (v : Version) (k : Kind) : string :=
  GetGeneratedGoTypePath groupByKind (amp_Group (am_Properties m)) (SimpleVersion_Name v) (vk_MachineName k).

Definition func_prefix (groupByKind : bool) (k : Kind) : string := if negb groupByKind then exportField (vk_Kind k) else "".

(** ** [CodecGenerator] *)
Definition scope_valid (scope : string) : bool := String.eqb scope NamespacedScope || String.eqb scope ClusterScope.
Definition scope_error (scope : string) : string :=
  "scope '" +:+ scope +:+ "' is invalid, must be one of: '" +:+ ClusterScope +:+ "', '" +:+ NamespacedScope +:+ "'".

Definition Codec_file (onlyUseCurrentVersion groupByKind : bool) (m : Manifest) (vk : Version * Kind) : list File + GoError :=
  let '(v, k) := vk in
  if onlyUseCurrentVersion && negb (String.eqb (amp_PreferredVersion (am_Properties m)) (SimpleVersion_Name v)) then inl []
  else if negb (scope_valid (vk_Scope k)) then inr (ErrorString (scope_error (vk_Scope k)))
  else
    let+ b := formatted (tm_Codec t (mkSchemaMetadata (ToPackageName (SimpleVersion_Name v)) (amp_Group (am_Properties m))
                (SimpleVersion_Name v) (vk_Kind k) (vk_PluralMachineName k) (vk_Scope k) [] (func_prefix groupByKind k))) in
    inl [mkGenFile (path_Join (type_path groupByKind m v k) (vk_MachineName k +:+ "_codec_gen.go")) b].

Definition Codec_Generate (onlyUseCurrentVersion groupByKind : bool) (m : Manifest) : list File + GoError :=
  collect (Codec_file onlyUseCurrentVersion groupByKind m) (VersionedKinds m).

(** ** [SchemaGenerator] *)

(** [getCUEValueKindString] *)
Definition getCUEValueKindString (v : Cue) : string + GoError :=
  let roughType := cue_Text v in
  if Contains roughType "time.Time" then inl "time"
  else if Contains roughType "string" then inl "string"
  else if Contains roughType "bool" then inl "bool"
  else if Contains roughType "int" then inl "int"
  else inr (ErrorString ("unsupported type " +:+ cue_Kind v +:+ ", supported types are string, bool, int and time.Time")).

(** [getOptionalFieldsInPath]: the path so far, and the value it leads to. *)
Fixpoint optional_fields (v : Cue) (current parts : list string) : list string :=
  match parts with
  | [] => []
  | part :: parts =>
      let current := current ++ [part] in
      let lookup := cue_Lookup v [part] false in
      let optional := cue_Lookup v [part] true in
      if cue_Exists lookup then optional_fields lookup current parts
      else if cue_Exists optional then String.concat "." current :: optional_fields optional current parts
      else optional_fields v current parts
  end.
Definition getOptionalFieldsInPath (v : Cue) (fieldPath : string) : list string := optional_fields v [] (Split fieldPath ".").

Definition drop_dot (s : string) : string :=
  match s with
  | String c (String _ _ as rest) => if Ascii.eqb c "." then rest else s
  | _ => s
  end.

(** One selectable field; one whose object is not found is left out. *)
Definition selectable_field (k : Kind) (s : string) : list SchemaMetadataSelectableField + GoError :=
  let fieldPath := drop_dot s in
  let parts := Split fieldPath "." in
  if (length parts <=? 1)%nat then inr (ErrorString ("invalid selectable field path: " +:+ s))
  else
    let field := default "" (last parts) in
    let val := cue_Lookup (vk_Schema k) (removelast parts) true in
    match cue_Err val with
    | Some _ => inl []
    | None =>
        let lookup := cue_Lookup val [field] false in
        let optional := cue_Lookup val [field] true in
        let found (l : Cue) (opt : bool) :=
          let+ typeStr := wrapped ("invalid selectable field '" +:+ s +:+ "': ") (getCUEValueKindString l) in
          inl [Templates.mkSelectableField s opt typeStr (getOptionalFieldsInPath (vk_Schema k) fieldPath)] in
        if cue_Exists lookup then found lookup false
        else if cue_Exists optional then found optional true
        else inr (ErrorString ("invalid selectable field path: " +:+ fieldPath))
    end.

Definition getSelectableFields (k : Kind) : list SchemaMetadataSelectableField + GoError :=
  collect (selectable_field k) (elems (vk_SelectableFields k)).

Definition Schema_file (groupByKind : bool) (m : Manifest) (vk : Version * Kind) : list File + GoError :=
  let '(v, k) := vk in
  let name := SimpleVersion_Name v in
  if negb (scope_valid (vk_Scope k)) then
    inr (ErrorString (name +:+ "/" +:+ vk_Kind k +:+ ": " +:+ scope_error (vk_Scope k)))
  else
    let+ sf := getSelectableFields k in
    let+ b := formatted (tm_Schema t (mkSchemaMetadata (ToPackageName name) (amp_FullGroup (am_Properties m)) name (vk_Kind k)
                (vk_PluralMachineName k) (vk_Scope k) sf (func_prefix groupByKind k))) in
    inl [mkGenFile (path_Join (type_path groupByKind m v k) (vk_MachineName k +:+ "_schema_gen.go")) b].

Definition Schema_Generate (groupByKind : bool) (m : Manifest) : list File + GoError :=
  collect (Schema_file groupByKind m) (VersionedKinds m).

(** ** [ResourceObjectGenerator] *)

(** [OpenAPINamerInfo] *)
Record OpenAPINamerInfo := mkNamerInfo { ni_TypeName : string; ni_FullGroup : string; ni_ShortGroup : string; ni_Version : string; ni_Kind : string }.

(** [goTypeFromCUEValue] *)
Definition goTypeFromCUEValue (v : Cue) : CustomMetadataFieldGoType :=
  let s := cue_Text v in
  if Contains s "time.Time" then GoTypeTime
  else if Contains s "int" then GoTypeInt
  else if Contains s "struct" then GoTypeString
  else if Contains s "string" then GoTypeString
  else mkFieldGoType "" None None None.

(** The names of the JSON of [metav1.ObjectMeta]. *)
Context (commonMetadataFields : list string).

(** The fields of the metadata of a kind that are its own. *)
Definition custom_metadata (k : Kind) : list ObjectMetadataField + GoError :=
  let mdv := cue_Lookup (vk_Schema k) ["metadata"] false in
  if cue_Exists mdv then
    let+ fields := cue_Fields mdv in
    inl (omap (λ '(lbl, v), if existsb (String.eqb lbl) ("extraFields" :: commonMetadataFields) then None
                            else Some (mkObjectMetadataField lbl (exportField lbl) (goTypeFromCUEValue v))) fields)
  else inl [].

(** The subresources: the fields of the schema but the spec and the metadata. *)
Definition subresource_fields (k : Kind) : list string + GoError :=
  let+ fields := cue_Fields (vk_Schema k) in
  inl (List.filter (λ f, negb (String.eqb f "spec" || String.eqb f "metadata")) fields.*1).

Definition generateObjectFile (prefixed : bool) (k : Kind) (pkg openAPIName : string) : string + GoError :=
  let+ custom := custom_metadata k in
  let typePrefix := if prefixed then exportField (vk_Kind k) else "" in
  let+ subresources := subresource_fields k in
  formatted (tm_ResourceObject t (mkResourceObjectMetadata pkg (vk_Kind k) (typePrefix +:+ "Spec") "Object" "o" openAPIName
    ((λ f, mkSubresourceMetadata (exportField f) (typePrefix +:+ exportField f) f "") <$> subresources)
    (sort_by omf_FieldName custom))).

Definition Object_file (namer : option (OpenAPINamerInfo → string)) (prefixed groupByKind : bool) (m : Manifest) (vk : Version * Kind)
  : list File + GoError :=
  let '(v, k) := vk in
  let openAPIName := match namer with
    | Some f => f (mkNamerInfo (vk_Kind k) "" (amp_Group (am_Properties m)) (SimpleVersion_Name v) (vk_Kind k))
    | None => ""
    end in
  let+ b := generateObjectFile prefixed k (ToPackageName (SimpleVersion_Name v)) openAPIName in
  inl [mkGenFile (path_Join (type_path groupByKind m v k) (ToLower (vk_MachineName k) +:+ "_object_gen.go")) b].

Definition Object_Generate (namer : option (OpenAPINamerInfo → string)) (prefixed groupByKind : bool) (m : Manifest) : list File + GoError :=
  collect (Object_file namer prefixed groupByKind m) (VersionedKinds m).

(** ** [Constants] *)
Definition add_constants (groupByKind : bool) (m : Manifest) (files : gmap string ConstantsMetadata) (vk : Version * Kind)
  : gmap string ConstantsMetadata :=
  let path := type_path groupByKind m vk.1 vk.2 in
  match files !! path with
  | Some _ => files
  | None =>
      let name := SimpleVersion_Name vk.1 in
      <[path := mkConstantsMetadata (ToPackageName name) (amp_FullGroup (am_Properties m)) name]> files
  end.

Definition Constants_Generate (groupByKind : bool) (m : Manifest) : list File + GoError :=
  collect (λ '(path, md), let+ b := formatted (tm_Constants t md) in inl [mkGenFile (path_Join path "constants.go") b])
    (range_map (fold_left (add_constants groupByKind m) (VersionedKinds m) ∅)).

(** ** The plugin: [RouterCodeGenerator], [RouterHandlerCodeGenerator], [BackendPluginMainGenerator] *)
Definition preferred_properties (m : Manifest) : list KindProperties :=
  (λ vk, versionedKindToKindProperties vk.2 m) <$> PreferredVersionKinds m.

Definition Router_Generate (projectRepo : string) (groupByKind : bool) (m : Manifest) : File + GoError :=
  let+ b := formatted (tm_Router t (mkRouterMetadata projectRepo "" (preferred_properties m) "" (negb groupByKind))) in
  inl (mkGenFile "plugin/plugin.go" b).

Definition RouterHandler_file (projectRepo apiCodegenPath : string) (groupByKind : bool) (m : Manifest) (vk : Version * Kind)
  : list File + GoError :=
  let '(v, k) := vk in
  let+ b := formatted (WriteBackendPluginHandler t (mkHandlerMetadata (versionedKindToKindProperties k m) projectRepo apiCodegenPath
              (exportField (vk_Kind k)) true (SimpleVersion_Name v) (type_path groupByKind m v k) (negb groupByKind))) in
  inl [mkGenFile ("plugin/handler_" +:+ vk_MachineName k +:+ ".go") b].

Definition RouterHandler_Generate (projectRepo apiCodegenPath : string) (groupByKind : bool) (m : Manifest) : list File + GoError :=
  collect (RouterHandler_file projectRepo apiCodegenPath groupByKind m) (PreferredVersionKinds m).

Definition plugin_id (m : Manifest) : string :=
  match PreferredVersionKinds m with
  | [] => "REPLACEME"
  | _ => if negb (String.eqb (amp_FullGroup (am_Properties m)) "") then first_part (amp_FullGroup (am_Properties m)) else "REPLACEME"
  end.

Definition PluginMain_Generate (projectRepo apiCodegenPath : string) (groupByKind : bool) (m : Manifest) : File + GoError :=
  let+ b := formatted (WriteBackendPluginMain t
              (mkRouterMetadata projectRepo apiCodegenPath (preferred_properties m) (plugin_id m) (negb groupByKind))) in
  inl (mkGenFile "../plugin/pkg/main.go" b).

(** ** The operator and the app: [WatcherJenny], [OperatorKubeConfigJenny], [OperatorConfigJenny],
    [OperatorMainJenny], [AppGenerator] *)
Definition Watcher_file (projectRepo codegenPath : string) (groupByKind : bool) (m : Manifest) (vk : Version * Kind) : list File + GoError :=
  let '(v, k) := vk in
  if negb (kc_GoEnabled (vk_Codegen k)) then inl []
  else
    let props := versionedKindToKindProperties k m in
    let+ b := formatted (WriteWatcher t (mkWatcherMetadata props "watchers" projectRepo codegenPath (SimpleVersion_Name v)
                (type_path groupByKind m v k) (negb groupByKind) (vk_MachineName k +:+ SimpleVersion_Name v))) in
    inl [mkGenFile ("pkg/watchers/watcher_" +:+ kp_MachineName props +:+ ".go") b].

Definition Watcher_Generate (projectRepo codegenPath : string) (groupByKind : bool) (m : Manifest) : list File + GoError :=
  collect (Watcher_file projectRepo codegenPath groupByKind m) (PreferredVersionKinds m).

Definition OperatorKubeConfig_Generate : File + GoError :=
  let+ b := formatted (tm_OperatorKubeconfig t) in inl (mkGenFile "cmd/operator/kubeconfig.go" b).
Definition OperatorConfig_Generate : File + GoError :=
  let+ b := formatted (tm_OperatorConfig t) in inl (mkGenFile "cmd/operator/config.go" b).

Definition project_name (projectRepo : string) : string := default "" (last (Split projectRepo "/")).
Definition OperatorMain_Generate (projectRepo codegenPath : string) (groupByKind : bool) : File + GoError :=
  let+ b := formatted (tm_OperatorMain t (mkOperatorMainMetadata "main" (project_name projectRepo) projectRepo codegenPath "watchers"
              (negb groupByKind))) in
  inl (mkGenFile "cmd/operator/main.go" b).

(** The kinds of an app by name: the properties are those of the preferred version if it has
    the kind, and of the first one otherwise. *)
Definition add_app_kind (m : Manifest) (kinds : gmap string AppMetadataKind) (vk : Version * Kind) : gmap string AppMetadataKind :=
  let '(v, k) := vk in
  let props := versionedKindToKindProperties k m in
  let meta := default (mkAppMetadataKind props []) (kinds !! vk_Kind k) in
  let preferred := String.eqb (SimpleVersion_Name v) (amp_PreferredVersion (am_Properties m)) in
  <[vk_Kind k := mkAppMetadataKind (if preferred then props else amk_KindProperties meta)
                   (amk_Versions meta ++ [SimpleVersion_Name v])]> kinds.

Definition app_kinds (m : Manifest) : list AppMetadataKind :=
  sort_by (λ k, kp_Kind (amk_KindProperties k)) (range_map (fold_left (add_app_kind m) (VersionedKinds m) ∅)).*2.

Definition App_Generate (groupByKind : bool) (projectRepo projectName codegenPath manifestPackagePath : string) (m : Manifest) : File + GoError :=
  let+ b := formatted (WriteAppGoFile t (mkAppMetadata "app" projectName projectRepo codegenPath "watchers" manifestPackagePath
              (negb groupByKind) (app_kinds m))) in
  inl (mkGenFile "pkg/app/app.go" b).
End Jennies.

(** ** Properties *)
Section AppKinds.
Context {Cue : Type} `{RO : !RangeOrder, SS : !SliceSort}.
Implicit Types m : AppManifest Cue.

(** The entries of a kind, in the order of versions, and the one its properties are from:
    the last of the preferred version, or else the first. *)
Definition kind_entries (name : string) (l : list (SimpleVersion Cue * VersionedKind Cue)) : list (SimpleVersion Cue * VersionedKind Cue) :=
  List.filter (λ vk, String.eqb (vk_Kind vk.2) name) l.

Definition is_preferred m (vk : SimpleVersion Cue * VersionedKind Cue) : bool :=
  String.eqb (SimpleVersion_Name vk.1) (amp_PreferredVersion (am_Properties m)).

Definition chosen m (l : list (SimpleVersion Cue * VersionedKind Cue)) : option (VersionedKind Cue) :=
  match last (List.filter (is_preferred m) l) with Some vk => Some vk.2 | None => snd <$> head l end.

Definition app_entry m (l : list (SimpleVersion Cue * VersionedKind Cue)) : option AppMetadataKind :=
  (λ k, mkAppMetadataKind (versionedKindToKindProperties k m) ((λ vk, SimpleVersion_Name vk.1) <$> l)) <$> chosen m l.

Lemma app_entry_snoc m l vk : app_entry m (l ++ [vk]) =
  Some (mkAppMetadataKind
          (if is_preferred m vk then versionedKindToKindProperties vk.2 m
           else match app_entry m l with Some e => amk_KindProperties e | None => versionedKindToKindProperties vk.2 m end)
          (((λ vk, SimpleVersion_Name vk.1) <$> l) ++ [SimpleVersion_Name vk.1])).
Proof.
  unfold app_entry, chosen. rewrite List.filter_app, fmap_app. simpl. destruct (is_preferred m vk).
  - by rewrite last_snoc.
  - rewrite app_nil_r. destruct (last (List.filter (is_preferred m) l)); [done|]. by destruct l.
Qed.

Lemma app_entry_none m l : app_entry m l = None ↔ l = [].
Proof.
  split; [|by intros ->]. unfold app_entry, chosen. destruct l as [|vk l]; [done|]. by destruct (last _).
Qed.

Lemma add_app_kinds_lookup m l name : fold_left (add_app_kind m) l ∅ !! name = app_entry m (kind_entries name l).
Proof.
  induction l as [|[v k] l IH] using rev_ind; [done|]. rewrite fold_left_app. simpl. unfold kind_entries in *.
  rewrite List.filter_app. simpl. destruct (String.eqb_spec (vk_Kind k) name) as [<-|Hn].
  - rewrite lookup_insert_eq, app_entry_snoc, IH. simpl. f_equal.
    destruct (app_entry m (List.filter _ l)) as [e|] eqn:E; simpl.
    + unfold app_entry in E. destruct (chosen _ _); [|done]. injection E as <-. done.
    + apply app_entry_none in E. by rewrite E.
  - rewrite lookup_insert_ne by done. by rewrite app_nil_r.
Qed.

(** An app is generated with each kind once, with all its versions in order, and with
    its properties in the preferred version, or in its first one if the preferred version
    does not have it. *)
Theorem app_kinds_correct m meta :
  meta ∈ app_kinds m ↔ ∃ name k, app_entry m (kind_entries name (VersionedKinds m)) = Some meta ∧
    chosen m (kind_entries name (VersionedKinds m)) = Some k ∧ amk_KindProperties meta = versionedKindToKindProperties k m ∧
    amk_Versions meta = (λ vk, SimpleVersion_Name vk.1) <$> kind_entries name (VersionedKinds m).
Proof.
  unfold app_kinds, sort_by. rewrite sort_slice_perm, list_elem_of_fmap. split.
  - intros ([name meta'] & -> & Hin%elem_of_range_map). rewrite add_app_kinds_lookup in Hin. simpl. exists name.
    unfold app_entry in *. destruct (chosen m _) as [k|]; [|done]. exists k. simpl in *. injection Hin as <-. done.
  - intros (name & k & H & _). exists (name, meta). split; [done|]. apply elem_of_range_map. by rewrite add_app_kinds_lookup.
Qed.
End AppKinds.

(** A selectable field whose object is not in the schema is left out without an error. *)
Lemma selectable_field_left_out {Cue} `{CV : !CueValues Cue, CL : !CueLookup Cue} (k : VersionedKind Cue) s err :
  (1 < length (Split (drop_dot s) "."))%nat →
  cue_Err (cue_Lookup (vk_Schema k) (removelast (Split (drop_dot s) ".")) true) = Some err → selectable_field k s = inl [].
Proof.
  intros Hl He. unfold selectable_field. rewrite (proj2 (Nat.leb_gt _ _)) by done. by rewrite He.
Qed.

(** A codec is generated for the short group, a schema for the full one. *)
Section Scopes.
Context {Cue : Type} (t : Templates) (format_Source : string → string + GoError).

(** A kind whose scope is unknown stops the generation. *)
Lemma Codec_invalid_scope groupByKind (m : AppManifest Cue) :
  (∃ v k, (v, k) ∈ VersionedKinds m ∧ scope_valid (vk_Scope k) = false) → ∀ files, Codec_Generate t format_Source false groupByKind m ≠ inl files.
Proof.
  intros (v & k & Hin & Hs) files. unfold Codec_Generate. revert files Hin. generalize (VersionedKinds m) as l.
  induction l as [|vk l IH]; intros files Hin; [by apply elem_of_nil in Hin|]. apply elem_of_cons in Hin as [<-|Hin]; simpl.
  - by rewrite Hs.
  - destruct (Codec_file _ _ _ _ _ vk); [|done]. destruct (collect _ l) as [bs|] eqn:E; [|done]. by destruct (IH bs Hin).
Qed.
End Scopes.
