(* ===== verification/TypeJennies.v ===== *)
(** * Types, routes and clients ([codegen/jennies], [codegen/cuekind/generators.go])

    The jennies that make types of CUE values with [cog], for Go and for TypeScript, those of
    custom routes and of clients, and the lists of jennies that the commands run. *)
From S2P Require Import Prelude GoValues Resource SourceTree Codemods Codegen Templates Jennies.

#[local] Open Scope string_scope.
#[local] Open Scope list_scope.

(** ** Paths of CUE values *)

(** [cue.Selector]: comparison, the optional form, the text; the text of a path. *)
Class Selectors (Sel : Type) := {
  sel_eqb : Sel → Sel → bool;
  sel_Optional : Sel → Sel;
  sel_String : Sel → string;
  path_String : list Sel → string;
}.

Section Paths.
Context {Sel : Type} `{SE : !Selectors Sel}.

Definition SelEq (s1 s2 : Sel) : bool := sel_eqb s1 s2 || sel_eqb (sel_Optional s1) (sel_Optional s2).

(** What is left of a path after a common prefix, of a number of selectors at most. *)
Fixpoint drop_common (limit : option nat) (path prefix : list Sel) : list Sel :=
  match limit, path, prefix with
  | Some O, _, _ => path
  | _, s :: path', p :: prefix' => if SelEq s p then drop_common (pred <$> limit) path' prefix' else path
  | _, _, _ => path
  end.

(** [TrimPathPrefix] *)
Definition TrimPathPrefix (path prefix : list Sel) : list Sel :=
  if (length path =? 1)%nat then path else drop_common None path prefix.
End Paths.

(** [strings.Trim] with the two characters that mark selectors. *)
Fixpoint trim_left (s : string) : string :=
  match s with
  | String c rest => if Ascii.eqb c "?" || Ascii.eqb c "#" then trim_left rest else s
  | EmptyString => ""
  end.
Definition string_rev (s : string) : string := String.string_of_list_ascii (rev (String.list_ascii_of_string s)).
Definition trim_marks (s : string) : string := string_rev (trim_left (string_rev (trim_left s))).

(** [sanitizeLabelString] *)
Definition sanitizeLabelString (s : string) : string := keep_words s.

(** A path whose last element is a format: cleaned before the format is filled in. *)
Definition format_path (dir name : string) : string := ReplaceAll (path_Join dir "%s") "%s" name.

Record CUEGoConfig := mkCUEGoConfig {
  gc_PackageName : string;
  gc_Name : string;
  gc_AddKubernetesOpenAPIGenComment : bool;
  gc_AnyAsInterface : bool;
  gc_NamePrefix : string;
}.

(** The values that [cog] reads: their path, validation and type prefix; its pipelines, for
    types named by a function or not, and for TypeScript. *)
Class Cog (Cue Sel : Type) := {
  cue_Path : Cue → list Sel;
  cue_Validate : Cue → option GoError;
  cue_TypePrefix : Cue → option string;
  cog_GoTypes : CUEGoConfig → Cue → (list Sel → string) → option (string → string) → list string + GoError;
  cog_GoObject : string → Cue → string → bool → bool → list string + GoError;
  cog_Typescript : string → Cue → string → nmap string → bool → list string + GoError;
}.

Section Types.
Context {Cue Sel : Type} `{CV : !CueValues Cue, CL : !CueLookup Cue, SE : !Selectors Sel, CG : !Cog Cue Sel,
  RO : !RangeOrder, SS : !SliceSort}.
Context (t : Templates) (format_Source imports_Process : string → string + GoError) (count : nat → string).

Abbreviation Manifest := (AppManifest Cue).
Abbreviation Kind := (VersionedKind Cue).
Abbreviation Version := (SimpleVersion Cue).
Abbreviation type_path := (type_path (Cue := Cue)).

(** The one file of a pipeline. *)
Definition one_file (r : list string + GoError) : string + GoError :=
  let+ files := r in
  match files with
  | [data] => inl data
  | _ => inr (ErrorString ("expected one file to be generated, got " +:+ count (length files)))
  end.

(** ** [GoTypesFromCUE] *)

(** The name of a definition: its path without what it shares with the value's, after the
    type prefix of the value. *)
Definition type_name (v : Cue) (maxNamingDepth : Z) (definitionPath : list Sel) : string :=
  let limit := if (0 <? maxNamingDepth)%Z then Some (Z.to_nat maxNamingDepth) else None in
  let name := trim_marks (path_String (drop_common limit definitionPath (cue_Path v))) in
  match cue_TypePrefix v with
  | Some p => let prefix := exportField p in if negb (String.eqb prefix "") then prefix +:+ "." +:+ name else name
  | None => name
  end.

Definition GoTypesFromCUE (v : Cue) (cfg : CUEGoConfig) (maxNamingDepth : Z) (namerFunc : option (string → string)) : string + GoError :=
  match cue_Validate v with
  | Some err => inr (WrapError ("invalid CUE value at " +:+ path_String (cue_Path v) +:+ ": ") err)
  | None => let+ data := one_file (cog_GoTypes cfg v (type_name v maxNamingDepth) namerFunc) in format_Source data
  end.

(** ** [GoTypes] *)
Record GoTypes := mkGoTypes {
  go_GenerateOnlyCurrent : bool;
  go_Depth : nat;
  go_NamingDepth : Z;
  go_AddKubernetesCodegen : bool;
  go_GroupByKind : bool;
  go_AnyAsInterface : bool;
  go_ExcludeFields : list string;
  go_OpenAPINamer : option (OpenAPINamerInfo → string);
}.

Record goTypesGenerateFilesConfig := mkGenerateFilesConfig {
  gf_VersionName : string;
  gf_KindName : string;
  gf_MachineName : string;
  gf_PackageName : string;
  gf_PathPrefix : string;
  gf_NamePrefix : string;
  gf_Group : string;
  gf_ExcludeFields : list string;
}.

Definition equal_fold (a b : string) : bool := String.eqb (ToLower a) (ToLower b).

(** A field that is excluded by its name or by its path. *)
Definition excluded (fields : list string) (excludes : list string) : bool :=
  existsb (λ s, match last fields with Some f => equal_fold f s | None => false end || equal_fold (String.concat "" fields) s) excludes.

Definition field_names (v : Cue) (schemaPath : list Sel) : list string := sel_String <$> TrimPathPrefix (cue_Path v) schemaPath.

(** The types of one value, at the depth. *)
Definition go_leaf (g : GoTypes) (v : Cue) (schemaPath : list Sel) (cfg : goTypesGenerateFilesConfig) : list File + GoError :=
  let fieldName := field_names v schemaPath in
  if excluded fieldName (gf_ExcludeFields cfg) then inl []
  else
    let namer := (λ (f : OpenAPINamerInfo → string) name, f (mkNamerInfo name "" (gf_Group cfg) (gf_VersionName cfg) (gf_KindName cfg)))
                 <$> go_OpenAPINamer g in
    let metadata := match fieldName with [f] => String.eqb f "metadata" | _ => false end in
    let+ data := wrapped ("error converting schema path " +:+ path_String schemaPath +:+ ".[" +:+ String.concat " " fieldName +:+ "] to go type: ")
      (GoTypesFromCUE v (mkCUEGoConfig (gf_PackageName cfg) (exportField (String.concat "" fieldName))
         (go_AddKubernetesCodegen g && negb metadata) (go_AnyAsInterface g) (gf_NamePrefix cfg))
         (Z.of_nat (length (cue_Path v)) - (Z.of_nat (go_Depth g) - go_NamingDepth g)) namer) in
    inl [mkGenFile (format_path (gf_PathPrefix cfg) (ToLower (gf_MachineName cfg) +:+ "_" +:+ String.concat "_" fieldName +:+ "_gen.go")) data].

(** [generateFilesAtDepth], by the levels that are left to the depth. *)
Fixpoint go_files_at (levels : nat) (g : GoTypes) (v : Cue) (schemaPath : list Sel) (cfg : goTypesGenerateFilesConfig) : list File + GoError :=
  match levels with
  | O => go_leaf g v schemaPath cfg
  | S levels =>
      let+ fields := cue_Fields v in
      collect (λ f, go_files_at levels g f.2 schemaPath cfg) fields
  end.

Definition GoTypes_kind (g : GoTypes) (m : Manifest) (vk : Version * Kind) : list File + GoError :=
  let '(v, k) := vk in
  let name := SimpleVersion_Name v in
  if go_GenerateOnlyCurrent g && negb (String.eqb (amp_PreferredVersion (am_Properties m)) name) then inl []
  else
    let dir := type_path (go_GroupByKind g) m v k in
    if (0 <? go_Depth g)%nat then
      go_files_at (go_Depth g) g (vk_Schema k) (cue_Path (vk_Schema k))
        (mkGenerateFilesConfig name (vk_Kind k) (vk_MachineName k) (ToPackageName name) dir
           (if negb (go_GroupByKind g) then exportField (vk_Kind k) else "") (amp_Group (am_Properties m)) (go_ExcludeFields g))
    else
      let+ data := one_file (cog_GoObject (ToPackageName name) (vk_Schema k) (vk_Kind k) (go_AnyAsInterface g) (go_AddKubernetesCodegen g)) in
      let+ b := format_Source data in
      inl [mkGenFile (format_path dir (ToLower (vk_MachineName k) +:+ "_gen.go")) b].

Definition GoTypes_Generate (g : GoTypes) (m : Manifest) : list File + GoError := collect (GoTypes_kind g m) (VersionedKinds m).

(** ** TypeScript *)

(** The loop over the kinds of the preferred version, which returns nothing at all at the
    first kind without TypeScript; the loop over all kinds leaves these out. *)
Fixpoint only_current (f : Version * Kind → list File + GoError) (l : list (Version * Kind)) (files : list File) : list File + GoError :=
  match l with
  | [] => inl files
  | vk :: l =>
      if negb (kc_TSEnabled (vk_Codegen vk.2)) then inl []
      else let+ generated := f vk in only_current f l (files ++ generated)
  end.

Definition ts_kinds (onlyCurrent : bool) (current all : Version * Kind → list File + GoError) (m : Manifest) : list File + GoError :=
  if onlyCurrent then only_current current (PreferredVersionKinds m) []
  else collect (λ vk, if negb (kc_TSEnabled (vk_Codegen vk.2)) then inl [] else all vk) (VersionedKinds m).

(** [TypeScriptResourceTypes] *)
Definition ts_object (k : Kind) (tsTypePrefix : string) : string + GoError :=
  let+ subresources := subresource_fields k in
  tm_TSType t (mkResourceTSMetadata (exportField (vk_Kind k)) tsTypePrefix
    ((λ f, mkSubresourceMetadata "" (exportField f) f "") <$> subresources)).

Definition ts_object_current (vk : Version * Kind) : list File + GoError :=
  let k := vk.2 in
  let+ b := ts_object k (ToLower (vk_MachineName k) +:+ "_") in
  inl [mkGenFile (vk_MachineName k +:+ "/" +:+ vk_MachineName k +:+ "_object_gen.ts") b].

Definition ts_object_version (vk : Version * Kind) : list File + GoError :=
  let '(v, k) := vk in
  let+ b := ts_object k "" in
  inl [mkGenFile (vk_MachineName k +:+ "/" +:+ SimpleVersion_Name v +:+ "/" +:+ vk_MachineName k +:+ "_object_gen.ts") b].

Definition TypeScriptResourceTypes_Generate (onlyCurrent : bool) (m : Manifest) : list File + GoError :=
  ts_kinds onlyCurrent ts_object_current ts_object_version m.

(** [TypeScriptTypes] *)
Definition ts_bytes (k : Kind) (v : Cue) (version name : string) : string + GoError :=
  one_file (cog_Typescript (ToPackageName version) v name (kc_TSImportsMap (vk_Codegen k)) (kc_TSEnumsAsUnionTypes (vk_Codegen k))).

Fixpoint ts_files_at (levels : nat) (k : Kind) (v : Cue) (version pathPrefix prefix : string) : list File + GoError :=
  match levels with
  | O =>
      let fieldName := field_names v (cue_Path (vk_Schema k)) in
      let+ b := ts_bytes k v version (exportField (String.concat "" fieldName)) in
      inl [mkGenFile (format_path pathPrefix (prefix +:+ "types." +:+ String.concat "_" fieldName +:+ ".gen.ts")) b]
  | S levels =>
      let+ fields := cue_Fields v in
      collect (λ f, ts_files_at levels k f.2 version pathPrefix prefix) fields
  end.

Definition ts_files (depth : nat) (k : Kind) (version name pathPrefix prefix : string) : list File + GoError :=
  if (0 <? depth)%nat then ts_files_at depth k (vk_Schema k) version pathPrefix prefix
  else
    let+ b := ts_bytes k (vk_Schema k) version (exportField (sanitizeLabelString name)) in
    inl [mkGenFile (format_path pathPrefix (prefix +:+ "types.gen.ts")) b].

Definition TypeScriptTypes_Generate (onlyCurrent : bool) (depth : nat) (m : Manifest) : list File + GoError :=
  ts_kinds onlyCurrent
    (λ '(v, k), ts_files depth k (SimpleVersion_Name v) (vk_Kind k) "" (ToLower (vk_MachineName k) +:+ "_"))
    (λ '(v, k), ts_files depth k (SimpleVersion_Name v) (vk_Kind k) (vk_MachineName k +:+ "/" +:+ SimpleVersion_Name v) "") m.

(** ** [CustomRouteGoTypesJenny] *)
Record CustomRouteGoTypes := mkCustomRouteGoTypes {
  cg_AddKubernetesCodegen : bool;
  cg_GroupByKind : bool;
  cg_AnyAsInterface : bool;
  cg_OpenAPINamer : option (OpenAPINamerInfo → string);
  cg_SkipImportsProcess : bool;
}.

(** A route with the name it has or gets. *)
Definition named_route (method path : string) (r : CustomRoute Cue) : CustomRoute Cue :=
  mkCustomRoute (if String.eqb (cr_Name r) "" then defaultRouteName method path else cr_Name r) (cr_Query r) (cr_Body r)
    (cr_Response r) (cr_TypeMeta r) (cr_ListMeta r) (cr_ObjectMeta r) (cr_Extensions r).

Definition formatGoBytes (c : CustomRouteGoTypes) (b : string) : string + GoError :=
  let+ f := format_Source b in if negb (cg_SkipImportsProcess c) then imports_Process f else inl f.

Definition model_name (namer : option (string → string)) (name : string) : string :=
  match namer with Some f => f name | None => "" end.

Definition generateResponseTypes (c : CustomRouteGoTypes) (r : CustomRoute Cue) (typeName packageName filenamePrefix fileBasePath : string)
    (namer : option (string → string)) : list File + GoError :=
  if negb (cr_TypeMeta r) && (cr_ListMeta r || cr_ObjectMeta r) then
    inr (ErrorString "TypeMeta must be true if ObjectMeta or ListMeta is true")
  else
    let goGenTypeName := if cr_ListMeta r || cr_TypeMeta r || cr_ObjectMeta r then "Body" else "Response" in
    let+ types := GoTypesFromCUE (cr_Response r) (mkCUEGoConfig packageName goGenTypeName (cg_AddKubernetesCodegen c)
                    (cg_AnyAsInterface c) (toExportedFieldName typeName)) 0 namer in
    let+ data := wrapped "failed to format custom route types: " (formatGoBytes c types) in
    let types_file := mkGenFile (format_path fileBasePath (filenamePrefix +:+ ToLower (cr_Name r) +:+ "_response_" +:+
                        (if cr_TypeMeta r then "body_" else "") +:+ "types_gen.go")) data in
    if cr_TypeMeta r then
      let wrapper := typeName +:+ "Response" in
      let+ buf := wrapped "failed to write runtime.Object for custom route types: " (tm_RuntimeObject t (mkWrapperMetadata packageName wrapper
                    (toExportedFieldName (typeName +:+ "Body")) (model_name namer wrapper) (cr_ObjectMeta r) (cr_ListMeta r) true true)) in
      let+ object := wrapped "failed to format custom route types: " (formatGoBytes c buf) in
      inl [types_file; mkGenFile (format_path fileBasePath (ToLower filenamePrefix +:+ ToLower (cr_Name r) +:+ "_response_object_types_gen.go")) object]
    else inl [types_file].

(** The types of the query and of the body, if there are any. *)
Definition request_params (r : CustomRoute Cue) (typeName packageName filenamePrefix basePath : string) (namer : option (string → string))
  : list File + GoError :=
  if cue_Exists (cr_Query r) then
    let requestTypeName := typeName +:+ "Request" in
    let paramsTypeName := requestTypeName +:+ "Params" in
    let file (what data : string) := mkGenFile (format_path basePath (filenamePrefix +:+ ToLower (cr_Name r) +:+ what)) data in
    let+ query := GoTypesFromCUE (cr_Query r) (mkCUEGoConfig packageName "Params" false false requestTypeName) 0 namer in
    let+ object := tm_RuntimeObject t (mkWrapperMetadata packageName (paramsTypeName +:+ "Object") paramsTypeName
                     (model_name namer (paramsTypeName +:+ "Object")) false false false false) in
    inl [file "_request_params_types_gen.go" query; file "_request_params_object_gen.go" object]
  else inl [].

Definition request_body (r : CustomRoute Cue) (typeName packageName filenamePrefix basePath : string) (namer : option (string → string))
  : list File + GoError :=
  if cue_Exists (cr_Body r) then
    let+ body := GoTypesFromCUE (cr_Body r) (mkCUEGoConfig packageName "Body" false false (typeName +:+ "Request")) 0 namer in
    inl [mkGenFile (format_path basePath (filenamePrefix +:+ ToLower (cr_Name r) +:+ "_request_body_types_gen.go")) body]
  else inl [].

Definition generateCustomRouteKinds (c : CustomRouteGoTypes) (basePath packageName filenamePrefix : string) (r : CustomRoute Cue)
    (namer : option (string → string)) : list File + GoError :=
  if negb (cue_Exists (cr_Response r)) then inr (ErrorString "custom route response is required")
  else if negb (cr_TypeMeta r) && (cr_ListMeta r || cr_ObjectMeta r) then
    inr (ErrorString "custom route response metadata must have TypeMeta if ListMeta or ObjectMeta are present")
  else
    let prefix := if negb (String.eqb filenamePrefix "") then filenamePrefix +:+ "_" else filenamePrefix in
    let typeName := exportField (cr_Name r) in
    let+ response := generateResponseTypes c r typeName packageName prefix basePath namer in
    let+ params := request_params r typeName packageName prefix basePath namer in
    let+ body := request_body r typeName packageName prefix basePath namer in
    inl (response ++ params ++ body).

(** The routes by path and method, in the order of the maps. *)
Definition routes_of (routes : PathRoutes Cue) : list (string * string * CustomRoute Cue) :=
  range_map (items routes) ≫= λ '(path, methods), (λ '(method, r), (path, method, r)) <$> range_map methods.

Definition route_files (c : CustomRouteGoTypes) (basePath packageName prefix what : string) (namer : option (string → string))
    (routes : PathRoutes Cue) : list File + GoError :=
  collect (λ '(path, method, r), let r := named_route method path r in
    wrapped ("failed to generate custom route types for route " +:+ cr_Name r +:+ ", " +:+ what +:+ ": ")
      (generateCustomRouteKinds c basePath packageName prefix r namer)) (routes_of routes).

Definition route_namer (c : CustomRouteGoTypes) (m : Manifest) (version kind : string) : option (string → string) :=
  (λ (f : OpenAPINamerInfo → string) name,
     f (mkNamerInfo name (amp_FullGroup (am_Properties m)) (amp_Group (am_Properties m)) version kind)) <$> cg_OpenAPINamer c.

Definition route_version (c : CustomRouteGoTypes) (m : Manifest) (v : Version) : list File + GoError :=
  let name := SimpleVersion_Name v in
  let group := amp_Group (am_Properties m) in
  let package := ToPackageName name in
  let dir := path_Join (ToPackageName group) package in
  let+ kinds := collect (λ k, route_files c (getGeneratedPathForKind (cg_GroupByKind c) group k name) package (ToLower (vk_MachineName k))
                  ("kind " +:+ vk_Kind k) (route_namer c m name (vk_Kind k)) (vk_Routes k)) (sv_AllKinds v) in
  let+ namespaced := route_files c dir package "" ("version " +:+ name) (route_namer c m name "") (vcr_Namespaced (SimpleVersion_Routes v)) in
  let+ cluster := route_files c dir package "" ("version " +:+ name) (route_namer c m name "") (vcr_Cluster (SimpleVersion_Routes v)) in
  inl (kinds ++ namespaced ++ cluster).

Definition CustomRoute_Generate (c : CustomRouteGoTypes) (m : Manifest) : list File + GoError := collect (route_version c m) (am_Versions m).

(** ** [ClientJenny] *)

(** [getCustomRouteInfo], [getCustomRoutes]: every error is joined to those before it. *)
Definition getCustomRouteInfo (r : CustomRoute Cue) : GoClientCustomRoute + GoError :=
  let md params := mkClientRoute (toExportedFieldName (cr_Name r)) "" "" (cue_Exists (cr_Query r)) (cue_Exists (cr_Body r)) params in
  if cue_Exists (cr_Query r) then
    let+ fields := cue_Fields (cr_Query r) in
    inl (md ((λ '(f, _), mkParamValues f (exportField f)) <$> fields))
  else inl (md []).

Definition client_route (path method : string) (r : CustomRoute Cue) : GoClientCustomRoute + GoError :=
  let+ md := getCustomRouteInfo (named_route method path r) in
  inl (mkClientRoute (gcr_TypeName md) path method (gcr_HasParams md) (gcr_HasBody md) (gcr_ParamValues md)).

Fixpoint client_routes (l : list (string * string * CustomRoute Cue)) (errs : option GoError) (routes : list GoClientCustomRoute)
  : list GoClientCustomRoute * option GoError :=
  match l with
  | [] => (routes, errs)
  | (path, method, r) :: l =>
      match client_route path method r with
      | inr err => client_routes l (Some (match errs with Some e => JoinError e err | None => err end)) routes
      | inl md => client_routes l errs (routes ++ [md])
      end
  end.

Definition getCustomRoutes (routes : PathRoutes Cue) : list GoClientCustomRoute + GoError :=
  match client_routes (routes_of routes) None [] with
  | (_, Some err) => inr err
  | (l, None) => inl l
  end.

Definition client_file (skip groupByKind : bool) (m : Manifest) (vk : Version * Kind) : list File + GoError :=
  let '(v, k) := vk in
  let name := SimpleVersion_Name v in
  if negb (kc_GoEnabled (vk_Codegen k)) then inl []
  else
    let+ fields := subresource_fields k in
    let subresources := sort_by gcs_FieldName ((λ f, mkClientSubresource (exportField f) f) <$> fields) in
    let+ routes := wrapped ("getting custom routes for kind " +:+ vk_Kind k +:+ ": ") (getCustomRoutes (vk_Routes k)) in
    let+ b := processed format_Source imports_Process skip (WriteGoResourceClient t (mkResourceClientMetadata (ToPackageName name)
                (exportField (vk_Kind k)) (if groupByKind then "" else exportField (vk_Kind k)) subresources (sort_by gcr_TypeName routes))) in
    inl [mkGenFile (path_Join (getGeneratedPathForKind groupByKind (amp_Group (am_Properties m)) k name) (vk_MachineName k +:+ "_client_gen.go")) b].

Definition route_client_file (skip : bool) (m : Manifest) (v : Version) : list File + GoError :=
  let name := SimpleVersion_Name v in
  let package := ToPackageName name in
  let+ namespaced := getCustomRoutes (vcr_Namespaced (SimpleVersion_Routes v)) in
  let+ cluster := getCustomRoutes (vcr_Cluster (SimpleVersion_Routes v)) in
  match namespaced, cluster with
  | [], [] => inl []
  | _, _ =>
      let+ b := processed format_Source imports_Process skip (WriteGoCustomRouteClient t (mkRouteClientMetadata package namespaced cluster
                  (amp_FullGroup (am_Properties m)) name)) in
      inl [mkGenFile (path_Join (path_Join (ToPackageName (amp_Group (am_Properties m))) package) "client_gen.go") b]
  end.

Definition Client_Generate (groupByKind skip : bool) (m : Manifest) : list File + GoError :=
  let+ groupVersionFiles := collect (route_client_file skip m) (am_Versions m) in
  let+ resourceFiles := collect (client_file skip groupByKind m) (VersionedKinds m) in
  inl (groupVersionFiles ++ resourceFiles).

(** ** The lists of jennies ([codegen/cuekind/generators.go])

    [codejen] runs the jennies of a list on a manifest. *)

(** [ToOpenAPIName], of the API server: the parts of the host are turned round. *)
Definition reverseParts (dotSeparatedName : string) : string := String.concat "." (rev (Split dotSeparatedName ".")).
Definition ToOpenAPIName (name : string) : string :=
  match Split name "/" with
  | first :: parts => String.concat "." ((if Contains first "." then reverseParts first else first) :: parts)
  | [] => ""
  end.

(** The name of the model of a type. *)
Definition openapi_namer (projectRepo generatedAPIPath : string) (groupKinds : bool) (info : OpenAPINamerInfo) : string :=
  ToOpenAPIName (Join_all [projectRepo; generatedAPIPath;
    GetGeneratedGoTypePath (negb groupKinds) (ni_ShortGroup info) (ni_Version info) (ToLower (ni_Kind info)); ni_TypeName info]).

Context (commonMetadataFields : list string).

Definition ResourceGenerator (projectRepo generatedAPIPath : string) (groupKinds : bool) : list (Manifest → list File + GoError) :=
  let namer := Some (openapi_namer projectRepo generatedAPIPath groupKinds) in
  [GoTypes_Generate (mkGoTypes false 1 0 true (negb groupKinds) true ["metadata"] namer);
   Object_Generate t format_Source commonMetadataFields namer groupKinds (negb groupKinds);
   Schema_Generate t format_Source (negb groupKinds);
   Codec_Generate t format_Source false (negb groupKinds);
   Constants_Generate t format_Source (negb groupKinds)].

(** A jenny that makes one file. *)
Definition one {A} (f : A → File + GoError) (x : A) : list File + GoError := let+ file := f x in inl [file].
(** [StaticManyToOneGenerator] *)
Definition static_file (path data : string) (_ : Manifest) : list File + GoError := inl [mkGenFile path data].

Definition BackendPluginGenerator (secure : string → string) (projectRepo generatedAPIPath : string) (groupKinds : bool)
  : list (Manifest → list File + GoError) :=
  [RouterHandler_Generate t format_Source projectRepo generatedAPIPath (negb groupKinds);
   static_file "plugin/secure/data.go" (secure "data.go");
   static_file "plugin/secure/middleware.go" (secure "middleware.go");
   static_file "plugin/secure/retriever.go" (secure "retriever.go");
   one (Router_Generate t format_Source projectRepo false);
   one (PluginMain_Generate t format_Source projectRepo generatedAPIPath (negb groupKinds))].

Definition TypeScriptResourceGenerator : list (Manifest → list File + GoError) :=
  [TypeScriptTypes_Generate false 1; TypeScriptResourceTypes_Generate false].

Definition OperatorGenerator (projectRepo codegenPath : string) (groupKinds : bool) : list (Manifest → list File + GoError) :=
  [one (λ _, OperatorKubeConfig_Generate t format_Source);
   one (λ _, OperatorMain_Generate t format_Source projectRepo codegenPath (negb groupKinds));
   one (λ _, OperatorConfig_Generate t format_Source)].

Definition AppGenerator (projectRepo codegenPath manifestGoFilePath : string) (groupKinds : bool) : list (Manifest → list File + GoError) :=
  [Watcher_Generate t format_Source projectRepo codegenPath (negb groupKinds);
   one (App_Generate t format_Source (negb groupKinds) projectRepo (project_name projectRepo) codegenPath manifestGoFilePath)].
End Types.

(** ** Properties *)

(** *** Loops over inputs *)
Lemma collect_ext {A B} (f g : A → list B + GoError) (l : list A) bs : (∀ x b, x ∈ l → f x = inl b → g x = inl b) →
  collect f l = inl bs → collect g l = inl bs.
Proof.
  revert bs. induction l as [|x l IH]; intros bs H; simpl; [done|]. destruct (f x) as [b|] eqn:E; [|done].
  rewrite (H x b) by (done || left). destruct (collect f l) as [bs'|]; [|done].
  rewrite (IH bs') by (done || (intros y b' Hy; apply H; by right)). done.
Qed.

Lemma bind_err_inl {A B} (r : A + GoError) (k : A → B + GoError) b : bind_err r k = inl b → ∃ a, r = inl a ∧ k a = inl b.
Proof. destruct r; [|done]. intros H. by eexists. Qed.

(** *** The order of maps *)
Lemma bind_Permutation_ext {A B} (f g : A → list B) l : (∀ x, x ∈ l → f x ≡ₚ g x) → l ≫= f ≡ₚ l ≫= g.
Proof.
  induction l as [|x l IH]; intros H; [done|]. rewrite !bind_cons, (H x) by left. f_equiv. apply IH. intros y Hy. apply H. by right.
Qed.

Lemma range_map_Permutation (R1 R2 : RangeOrder) {A} (m : gmap string A) : range_map (RO := R1) m ≡ₚ range_map (RO := R2) m.
Proof. unfold range_map. by rewrite !range_keys_perm. Qed.

(** The last part of a text after a character it does not have. *)
Lemma app_char_inj c s s' t t' : free_of c t = true → free_of c t' = true →
  s +:+ String c t = s' +:+ String c t' → s = s' ∧ t = t'.
Proof.
  assert (Hf : ∀ u v, free_of c (u +:+ String c v) = false).
  { intros u v. rewrite free_of_app. simpl. rewrite Ascii.eqb_refl. by rewrite andb_false_r. }
  revert s'. induction s as [|x s IH]; intros s' Ht Ht' E; destruct s' as [|x' s']; simpl in E.
  - by injection E as ->.
  - injection E as -> E. exfalso. rewrite E in Ht. change (free_of x' (s' +:+ String x' t') = true) in Ht. by rewrite Hf in Ht.
  - injection E as -> E. exfalso. rewrite <- E in Ht'. change (free_of c (s +:+ String c t) = true) in Ht'. by rewrite Hf in Ht'.
  - injection E as -> E. destruct (IH s' Ht Ht' E) as [-> ->]. done.
Qed.

Section Order.
Context {Cue : Type} `{CV : !CueValues Cue, SS : !SliceSort}.

(** Routes whose methods have no bar, which separates them from the paths in the order of
    clients. *)
Definition plain_methods (routes : PathRoutes Cue) : Prop :=
  ∀ path methods method r, items routes !! path = Some methods → methods !! method = Some r → free_of "|" method = true.

Lemma routes_of_Permutation (R1 R2 : RangeOrder) (routes : PathRoutes Cue) : routes_of (RO := R1) routes ≡ₚ routes_of (RO := R2) routes.
Proof.
  unfold routes_of. rewrite (range_map_Permutation R1 R2 (items routes)). apply bind_Permutation_ext.
  intros [path methods] _. by rewrite (range_map_Permutation R1 R2 methods).
Qed.

Lemma elem_of_routes_of `{RO : !RangeOrder} (routes : PathRoutes Cue) path method r :
  (path, method, r) ∈ routes_of routes ↔ ∃ methods, items routes !! path = Some methods ∧ methods !! method = Some r.
Proof.
  unfold routes_of. rewrite list_elem_of_bind. split.
  - intros ([p ms] & H & Hp%elem_of_range_map). apply list_elem_of_fmap in H as ([m r'] & [= <- <- <-] & Hm%elem_of_range_map). by exists ms.
  - intros (ms & Hp & Hm). exists (path, ms). split; [|by apply elem_of_range_map]. apply list_elem_of_fmap.
    exists (method, r). split; [done|]. by apply elem_of_range_map.
Qed.

Lemma routes_of_keys `{RO : !RangeOrder} (routes : PathRoutes Cue) :
  (routes_of routes).*1 = range_map (items routes) ≫= λ '(path, methods), (path,.) <$> range_keys (dom methods).
Proof.
  unfold routes_of. induction (range_map (items routes)) as [|[path methods] l IH]; [done|]. rewrite !bind_cons, fmap_app, IH. f_equal.
  rewrite <- (range_map_fst methods), <- !list_fmap_compose. apply list_fmap_ext. by intros i [].
Qed.

Lemma NoDup_routes_of `{RO : !RangeOrder} (routes : PathRoutes Cue) : NoDup (routes_of routes).*1.
Proof.
  rewrite routes_of_keys. apply NoDup_bind.
  - intros [p1 m1] [p2 m2] [p m] H1%elem_of_range_map H2%elem_of_range_map.
    intros (? & [= <- _] & _)%list_elem_of_fmap (? & [= <- _] & _)%list_elem_of_fmap. rewrite H1 in H2. by injection H2 as ->.
  - intros [p ms] _. apply NoDup_fmap_2; [by intros ?? [= ->] | apply NoDup_range_keys].
  - apply (NoDup_fmap_1 fst). rewrite range_map_fst. apply NoDup_range_keys.
Qed.

(** What is made of the routes when none fails. *)
Definition made_routes (l : list (string * string * CustomRoute Cue)) : list GoClientCustomRoute :=
  omap (λ '(path, method, r), match client_route path method r with inl md => Some md | inr _ => None end) l.

Lemma client_routes_ok l : ∀ errs acc out, client_routes l errs acc = (out, None) ↔
  errs = None ∧ (∀ path method r, (path, method, r) ∈ l → ∃ md, client_route path method r = inl md) ∧ out = acc ++ made_routes l.
Proof.
  induction l as [|[[path method] r] l IH]; intros errs acc out; simpl.
  - rewrite app_nil_r. split; [intros [= -> ->]; split_and!; [done | by intros ??? ?%elem_of_nil | done] | by intros (-> & _ & ->)].
  - destruct (client_route path method r) as [md|err] eqn:E; rewrite IH.
    + rewrite <- app_assoc. cbn. split; intros (-> & H & ->); (split_and!; [done | | done]).
      * intros p m r' [[= -> -> ->]|Hin]%elem_of_cons; [by eexists | by apply H].
      * intros p m r' Hin. apply H. by right.
    + split; [by intros (? & _)|]. intros (_ & H & _). destruct (H path method r) as [md Hmd]; [left | congruence].
Qed.

Lemma getCustomRoutes_ok `{RO : !RangeOrder} (routes : PathRoutes Cue) out : getCustomRoutes routes = inl out ↔
  (∀ path method r, (path, method, r) ∈ routes_of routes → ∃ md, client_route path method r = inl md) ∧ out = made_routes (routes_of routes).
Proof.
  unfold getCustomRoutes. pose proof (client_routes_ok (routes_of routes) None []) as H.
  destruct (client_routes (routes_of routes) None []) as [l [err|]].
  - split; [done|]. intros [Hr ->]. assert (E : (l, Some err) = (made_routes (routes_of routes), None)) by (by apply H). done.
  - specialize (H l). destruct H as [H _]. destruct (H eq_refl) as (_ & Hr & ->). simpl. split; [by intros [= <-] | by intros [_ ->]].
Qed.

(** Routes that are found in one order are found in every order, and sort alike. *)
Lemma getCustomRoutes_order (R1 R2 : RangeOrder) (routes : PathRoutes Cue) out : plain_methods routes →
  getCustomRoutes (RO := R1) routes = inl out →
  ∃ out', getCustomRoutes (RO := R2) routes = inl out' ∧ out ≡ₚ out' ∧ NoDup (route_key <$> out).
Proof.
  intros Hp (Hr & ->)%getCustomRoutes_ok. exists (made_routes (routes_of (RO := R2) routes)). split_and!.
  - apply getCustomRoutes_ok. split; [|done]. intros path method r. rewrite <- (routes_of_Permutation R1 R2). apply Hr.
  - unfold made_routes. by rewrite (routes_of_Permutation R1 R2).
  - assert (Hk : route_key <$> made_routes (routes_of (RO := R1) routes) = (λ '(p, m), p +:+ "|" +:+ m) <$> (routes_of (RO := R1) routes).*1).
    { clear Hp. unfold made_routes. induction (routes_of (RO := R1) routes) as [|[[p m] r] l IH]; [done|]. csimpl.
      destruct (Hr p m r) as [md Hmd]; [left|]. rewrite Hmd. csimpl. rewrite IH by (intros ????; apply Hr; by right). f_equal.
      unfold client_route in Hmd. apply bind_err_inl in Hmd as (md' & _ & [= <-]). done. }
    rewrite Hk. apply NoDup_fmap_2_strong; [|apply NoDup_routes_of]. intros [p m] [p' m'] H1 H2 E.
    assert (Hfree : ∀ p m, (p, m) ∈ (routes_of (RO := R1) routes).*1 → free_of "|" m = true).
    { intros ? ? ([[??]?] & [= -> ->] & Hin)%list_elem_of_fmap. apply elem_of_routes_of in Hin as (ms & ? & ?). by eapply Hp. }
    destruct (app_char_inj "|" p p' m m') as [-> ->]; [by eapply Hfree.. | exact E | done].
Qed.

Context (t : Templates) (format_Source imports_Process : string → string + GoError).

Lemma Client_Generate_order (R1 R2 : RangeOrder) (m : AppManifest Cue) groupByKind skip files :
  (∀ v, v ∈ am_Versions m → plain_methods (vcr_Namespaced (SimpleVersion_Routes v)) ∧ plain_methods (vcr_Cluster (SimpleVersion_Routes v)) ∧
     ∀ k, k ∈ sv_AllKinds v → plain_methods (vk_Routes k)) →
  Client_Generate (RO := R1) t format_Source imports_Process groupByKind skip m = inl files →
  Client_Generate (RO := R2) t format_Source imports_Process groupByKind skip m = inl files.
Proof.
  intros Hp H. unfold Client_Generate in *. apply bind_err_inl in H as (gv & Hgv & H). apply bind_err_inl in H as (rs & Hrs & H).
  rewrite (collect_ext (route_client_file (RO := R1) t format_Source imports_Process skip m) _ _ gv); [simpl | | exact Hgv].
  - rewrite (collect_ext (client_file (RO := R1) t format_Source imports_Process skip groupByKind m) _ _ rs); [done | | exact Hrs].
    intros [v k] b [Hv Hk]%elem_of_VersionedKinds. destruct (Hp v Hv) as (_ & _ & Hr). specialize (Hr k Hk). unfold client_file.
    destruct (negb _); [done|]. intros (fields & -> & Hf)%bind_err_inl. simpl in Hf |- *.
    apply bind_err_inl in Hf as (routes & Hroutes & Hf). destruct (getCustomRoutes (vk_Routes k)) as [out|] eqn:E; [|done].
    injection Hroutes as ->. destruct (getCustomRoutes_order R1 R2 _ _ Hr E) as (out' & -> & Hperm & Hn). simpl.
    unfold WriteGoResourceClient in *. simpl in *. rewrite <- Hf.
    assert (Hs : sort_routes (sort_by gcr_TypeName out') = sort_routes (sort_by gcr_TypeName routes)).
    { symmetry. apply sort_routes_unique; unfold sort_by; [by rewrite sort_slice_perm | by rewrite !sort_slice_perm]. }
    by rewrite Hs.
  - intros v b Hv. destruct (Hp v Hv) as (Hns & Hcl & _). unfold route_client_file.
    intros (ns & E1 & Hf)%bind_err_inl. apply bind_err_inl in Hf as (cl & E2 & Hf).
    destruct (getCustomRoutes_order R1 R2 _ _ Hns E1) as (ns' & -> & Hperm1 & Hn1).
    destruct (getCustomRoutes_order R1 R2 _ _ Hcl E2) as (cl' & -> & Hperm2 & Hn2). simpl.
    assert (Hw : WriteGoCustomRouteClient t (mkRouteClientMetadata (ToPackageName (SimpleVersion_Name v)) ns cl
        (amp_FullGroup (am_Properties m)) (SimpleVersion_Name v)) =
      WriteGoCustomRouteClient t (mkRouteClientMetadata (ToPackageName (SimpleVersion_Name v)) ns' cl'
        (amp_FullGroup (am_Properties m)) (SimpleVersion_Name v))).
    { unfold WriteGoCustomRouteClient. simpl. by rewrite (sort_routes_unique ns ns'), (sort_routes_unique cl cl'). }
    rewrite <- Hf, Hw. destruct ns as [|n ns].
    + apply Permutation_nil_l in Hperm1 as <-. destruct cl as [|c cl]; [by apply Permutation_nil_l in Hperm2 as <- |].
      destruct cl'; [by apply Permutation_nil_r in Hperm2 | done].
    + destruct ns'; [by apply Permutation_nil_r in Hperm1 | done].
Qed.

(** C26: The clients that are generated do not depend on the order in which the maps of
    routes are gone through, if no method has a bar. *)
Theorem Client_Generate_deterministic (R1 R2 : RangeOrder) (m : AppManifest Cue) groupByKind skip files :
  (∀ v, v ∈ am_Versions m → plain_methods (vcr_Namespaced (SimpleVersion_Routes v)) ∧ plain_methods (vcr_Cluster (SimpleVersion_Routes v)) ∧
     ∀ k, k ∈ sv_AllKinds v → plain_methods (vk_Routes k)) →
  Client_Generate (RO := R1) t format_Source imports_Process groupByKind skip m = inl files ↔
  Client_Generate (RO := R2) t format_Source imports_Process groupByKind skip m = inl files.
Proof. intros Hp. split; by apply Client_Generate_order. Qed.
End Order.

(** *** TypeScript *)
Section TypeScript.
Context {Cue : Type}.

(** With only the current version, one kind without TypeScript takes the files of all the
    others away. *)
Lemma only_current_drops (f : SimpleVersion Cue * VersionedKind Cue → list File + GoError) l acc :
  (∀ vk, vk ∈ l → ∃ files, f vk = inl files) → (∃ vk, vk ∈ l ∧ kc_TSEnabled (vk_Codegen vk.2) = false) → only_current f l acc = inl [].
Proof.
  revert acc. induction l as [|vk l IH]; intros acc Hf (vk' & Hin & Hts); [by apply elem_of_nil in Hin|]. simpl.
  destruct (kc_TSEnabled (vk_Codegen vk.2)) eqn:E; [|done]. simpl. destruct (Hf vk) as [files ->]; [left|]. simpl.
  apply IH; [intros ??; apply Hf; by right|]. exists vk'. apply elem_of_cons in Hin as [->|Hin]; [congruence | done].
Qed.
End TypeScript.

(** *** A manifest with routes, in two orders *)
#[local] Instance TestCue : CueValues bool := {
  cue_Exists b := b;
  cue_Err _ := None;
  cue_Fields _ := inl [("spec", true); ("status", true)];
  cue_AllFields _ := inl [("spec", true); ("status", true)];
}.

Program Definition ReverseOrder : RangeOrder := {| range_keys X := reverse (base.elements X) |}.
Next Obligation. intros X. by rewrite reverse_Permutation. Qed.

Definition no_template {A} (_ : A) : string + GoError := inr (ErrorString "not used").
Definition test_route_text (r : GoClientCustomRoute) : string := gcr_TypeName r +:+ " " +:+ gcr_Method r +:+ " " +:+ gcr_Path r +:+ ";".
Definition test_templates : Templates :=
  mkTemplates no_template no_template no_template no_template no_template no_template no_template (λ _, no_template) no_template
    (inl "") no_template (inl "") (λ _ _, no_template) no_template
    (λ md, inl (String.concat "" (gcs_FieldName <$> rcm_Subresources md) +:+ " " +:+ String.concat "" (test_route_text <$> rcm_CustomRoutes md)))
    (λ md, inl (String.concat "" (test_route_text <$> grm_NamespacedRoutes md))) no_template.

Definition test_route (name : string) : CustomRoute bool := mkCustomRoute name false false true false false false None.
Definition test_methods_b : gmap string (CustomRoute bool) := {["GET" := test_route ""; "POST" := test_route ""]}.
Definition test_methods_a : gmap string (CustomRoute bool) := {["GET" := test_route "named"]}.
Definition test_routes : PathRoutes bool :=
  Some ({["/b" := test_methods_b; "/a" := test_methods_a]} : gmap string (gmap string (CustomRoute bool))).
Definition test_routed_kind : VersionedKind bool :=
  let none := mkKindAdmissionCapability None in
  mkVersionedKind "foo" "foo" "foos" "Foos" "Namespaced" none none false (mkConversionWebhookProperties "")
    (mkKindCodegenProperties true None false true None) true None None true test_routes.
Definition test_routed_manifest : AppManifest bool :=
  mkAppManifest "app"
    [mkSimpleVersion (mkVersionProperties "v1" true (mkKindCodegenProperties true None false true None)) [test_routed_kind]
       (Some (mkVersionCustomRoutes test_routes None))]
    (mkAppManifestProperties "app" "App" "app" "app.g" None None "v1" None None).

Definition test_files : list File :=
  let routes := "Named GET /a;GetB GET /b;CreateB POST /b;" in
  [mkGenFile "app/v1/client_gen.go" routes; mkGenFile "app/v1/foo_client_gen.go" ("Status " +:+ routes)].

Lemma test_routes_plain : plain_methods test_routes.
Proof.
  intros path methods method r Hp Hm. unfold test_routes in Hp. simpl in Hp. apply lookup_insert_Some in Hp.
  rewrite lookup_singleton_Some in Hp. destruct Hp as [[_ <-]|[_ [_ <-]]].
  - change (test_methods_b !! method = Some r) in Hm. unfold test_methods_b in Hm. rewrite lookup_insert_Some, lookup_singleton_Some in Hm. by destruct Hm as [[<- _]|[_ [<- _]]].
  - change (test_methods_a !! method = Some r) in Hm. unfold test_methods_a in Hm. rewrite lookup_singleton_Some in Hm. by destruct Hm as [<- _].
Qed.

Lemma Client_Generate_deterministic_witness :
  (routes_of (RO := TestRangeOrder) test_routes).*1 ≠ (routes_of (RO := ReverseOrder) test_routes).*1 ∧
  Client_Generate (RO := ReverseOrder) test_templates inl inl false false test_routed_manifest = inl test_files.
Proof.
  split; [by vm_compute|].
  apply (Client_Generate_deterministic test_templates inl inl TestRangeOrder ReverseOrder test_routed_manifest); [|by vm_compute].
  intros v Hv. apply list_elem_of_singleton in Hv as ->. split_and!; [apply test_routes_plain | intros p ms me r Hp _; simpl in Hp; by rewrite lookup_empty in Hp |].
  intros k Hk. apply list_elem_of_singleton in Hk as ->. apply test_routes_plain.
Defined.
