(* ===== verification/ApiOpenAPI.v ===== *)
(** * OpenAPI definitions of an installer ([k8s/apiserver/installer.go])

    [GetOpenAPIDefinitions] gathers the definitions of the kinds of a manifest, those of the
    responses and bodies of its custom routes, and the schemas its routes share.  The schemas
    of routes are [spec.Schema]s of the manifest: they are copied before their references
    are replaced.  A schema is a tree, which a copy is whatever the original shares; what
    the copies do not touch is in the types [X] of the structs that are only carried. *)
From S2P Require Import Prelude GoValues Resource VersionSchema OpenAPI CRDSchema KubeOpenAPI Manifest.
From S2P Require Import ApiRoutes ApiStorage ApiInstaller TypeJennies.

#[local] Open Scope string_scope.
#[local] Open Scope list_scope.

(** ** Calls that may panic, without a state *)
Definition on_return {A B} (m : called A) (k : A → called B) : called B :=
  match m with
  | Returned a => k a
  | Panics => Panics
  end.

Notation "'let^' x := m 'in' k" := (on_return m (λ x, k))
  (at level 10, x name, m at level 100, k at level 200) : go_scope.
Notation "'let^' ' p := m 'in' k" := (on_return m (λ x, let p := x in k))
  (at level 10, p pattern, m at level 100, k at level 200) : go_scope.

Definition returned {A} (c : called A) : option A :=
  match c with
  | Returned a => Some a
  | Panics => None
  end.

(** The results of calls on a pointer, on the elements of a slice, on the values of a map:
    they panic if one does, whichever it is. *)
Definition all_opt {A} (o : option (called A)) : called (option A) :=
  match o with
  | None => Returned None
  | Some c => let^ a := c in Returned (Some a)
  end.

Fixpoint all_list {A} (l : list (called A)) : called (list A) :=
  match l with
  | [] => Returned []
  | c :: l => let^ a := c in let^ l := all_list l in Returned (a :: l)
  end.

Definition all_slice {A} (l : nslice (called A)) : called (nslice A) :=
  match l with
  | None => Returned None
  | Some l => let^ l := all_list l in Returned (Some l)
  end.

Definition all_gmap {K} `{CK : Countable K} {A} (m : gmap K (called A)) : called (gmap K A) :=
  if bool_decide (map_Forall (λ _ c, is_Some (returned c)) m) then Returned (omap returned m) else Panics.

Definition all_map {A} (m : nmap (called A)) : called (nmap A) :=
  match m with
  | None => Returned None
  | Some m => let^ m := all_gmap m in Returned (Some m)
  end.

Lemma all_opt_id {A} (f : A → called A) (o : option A) : (∀ a, o = Some a → f a = Returned a) →
  all_opt (f <$> o) = Returned o.
Proof. intros H. destruct o as [a|]; [|done]. simpl. by rewrite (H a). Qed.

Lemma all_list_id {A} (f : A → called A) (l : list A) : (∀ a, a ∈ l → f a = Returned a) →
  all_list (f <$> l) = Returned l.
Proof.
  induction l as [|a l IH]; intros H; [done|]. csimpl. rewrite H by left. simpl.
  rewrite IH; [done|]. intros b Hb. apply H. by right.
Qed.

Lemma all_slice_id {A} (f : A → called A) (l : nslice A) : (∀ a, a ∈ elems l → f a = Returned a) →
  all_slice (fmap (M := list) f <$> l) = Returned l.
Proof. intros H. destruct l as [l|]; [|done]. simpl. by rewrite all_list_id. Qed.

Lemma all_gmap_id {K} `{CK : Countable K} {A} (f : A → called A) (m : gmap K A) : (∀ k a, m !! k = Some a → f a = Returned a) →
  all_gmap (f <$> m) = Returned m.
Proof.
  intros H. unfold all_gmap. rewrite bool_decide_eq_true_2.
  - f_equal. apply map_eq. intros k. rewrite lookup_omap, lookup_fmap.
    destruct (m !! k) as [a|] eqn:E; [|done]. simpl. by rewrite (H k a).
  - intros k c (a & <- & Ha)%lookup_fmap_Some. by rewrite (H k a).
Qed.

Lemma all_map_id {A} (f : A → called A) (m : nmap A) : (∀ k a, items m !! k = Some a → f a = Returned a) →
  all_map (fmap (M := gmap string) f <$> m) = Returned m.
Proof. intros H. destruct m as [m|]; [|done]. simpl. by rewrite all_gmap_id. Qed.

(** ** [spec.Schema] *)

(** The fields without schemas. *)
Record SpecInfo := mkSpecInfo {
  si_ID : string;
  si_Schema : string;
  si_Description : string;
  si_Type : nslice string;
  si_Nullable : bool;
  si_Format : string;
  si_Title : string;
  si_Default : value;
  si_Maximum : option float64;
  si_ExclusiveMaximum : bool;
  si_Minimum : option float64;
  si_ExclusiveMinimum : bool;
  si_MaxLength : option Z;
  si_MinLength : option Z;
  si_Pattern : string;
  si_MaxItems : option Z;
  si_MinItems : option Z;
  si_UniqueItems : bool;
  si_MultipleOf : option float64;
  si_Enum : nslice value;
  si_MaxProperties : option Z;
  si_MinProperties : option Z;
  si_Required : nslice string;
  si_Discriminator : string;
  si_ReadOnly : bool;
  si_ExternalDocs : option (string * string);
  si_Example : value;
  si_Extensions : nmap value;
  si_ExtraProps : nmap value;
}.

Section Definitions.
Context {KRef : Type}.

(** [SchemaOrArray] and [SchemaOrStringArray] *)
Record SchemaOrArray (R : Type) := mkSchemaOrArray { sa_Schema : option R; sa_Schemas : nslice R }.
Arguments mkSchemaOrArray {R}.
Arguments sa_Schema {R}.
Arguments sa_Schemas {R}.
Record SchemaOrStringArray (R : Type) := mkSchemaOrStringArray { ss_Schema : option R; ss_Property : nslice string }.
Arguments mkSchemaOrStringArray {R}.
Arguments ss_Schema {R}.
Arguments ss_Property {R}.
#[local] Arguments mkSchemaOrBool {R}.
#[local] Arguments sb_Allows {R}.
#[local] Arguments sb_Schema {R}.

(** [spec.Schema] over the type of schemas; no reference is the zero [Ref]. *)
Record SpecOf (R : Type) := mkSpec {
  sp_Info : SpecInfo;
  sp_Ref : option KRef;
  sp_Items : option (SchemaOrArray R);
  sp_AllOf : nslice R;
  sp_OneOf : nslice R;
  sp_AnyOf : nslice R;
  sp_Not : option R;
  sp_Properties : nmap R;
  sp_AdditionalProperties : option (SchemaOrBool R);
  sp_PatternProperties : nmap R;
  sp_Dependencies : nmap (SchemaOrStringArray R);
  sp_AdditionalItems : option (SchemaOrBool R);
  sp_Definitions : nmap R;
}.
Arguments mkSpec {R}.
Arguments sp_Info {R}.
Arguments sp_Ref {R}.
Arguments sp_Items {R}.
Arguments sp_AllOf {R}.
Arguments sp_OneOf {R}.
Arguments sp_AnyOf {R}.
Arguments sp_Not {R}.
Arguments sp_Properties {R}.
Arguments sp_AdditionalProperties {R}.
Arguments sp_PatternProperties {R}.
Arguments sp_Dependencies {R}.
Arguments sp_AdditionalItems {R}.
Arguments sp_Definitions {R}.

Inductive Spec := Sch (s : SpecOf Spec).

Definition spec (s : Spec) : SpecOf Spec := let 'Sch s := s in s.

Definition SpecInfo_zero : SpecInfo :=
  mkSpecInfo "" "" "" None false "" "" ANil None false None false None None "" None None false None None None None
    None "" false None ANil None None.

(** [spec.Schema{}], but for these fields. *)
Definition spec_with (i : SpecInfo) (r : option KRef) (props : nmap Spec) : Spec :=
  Sch (mkSpec i r None None None None None props None None None None None).
Definition Spec_zero : Spec := spec_with SpecInfo_zero None None.

(** ** The copy of a schema *)

(** [copyPointerPrimitive] *)
Definition copyPointerPrimitive {T} (f : option T) : option T :=
  match f with
  | None => None
  | Some v => Some v
  end.

(** Copies of slices and maps of values without pointers. *)
Definition copy_slice {T} (s : nslice T) : nslice T := (λ l, [] ++ l) <$> s.
Definition copy_map {T} (m : nmap T) : nmap T := (λ m, m ∪ ∅) <$> m.

(** What [copySpecSchema] does with the fields without schemas. *)
Definition copy_info (i : SpecInfo) : SpecInfo :=
  mkSpecInfo (si_ID i) (si_Schema i) (si_Description i) (copy_slice (si_Type i)) (si_Nullable i) (si_Format i)
    (si_Title i) (si_Default i) (copyPointerPrimitive (si_Maximum i)) (si_ExclusiveMaximum i)
    (copyPointerPrimitive (si_Minimum i)) (si_ExclusiveMinimum i) (copyPointerPrimitive (si_MaxLength i))
    (copyPointerPrimitive (si_MinLength i)) (si_Pattern i) (copyPointerPrimitive (si_MaxItems i))
    (copyPointerPrimitive (si_MinItems i)) (si_UniqueItems i) (copyPointerPrimitive (si_MultipleOf i)) (si_Enum i)
    (copyPointerPrimitive (si_MaxProperties i)) (copyPointerPrimitive (si_MinProperties i))
    (copy_slice (si_Required i)) (si_Discriminator i) (si_ReadOnly i) (si_ExternalDocs i) (si_Example i)
    (copy_map (si_Extensions i)) (copy_map (si_ExtraProps i)).

(** [copySpecSchemaArray], over the copies of the elements. *)
Definition copySpecSchemaArray (inp : nslice (called Spec)) : called (nslice Spec) := all_slice inp.

(** The pattern properties are written into the properties, a map that may be nil; the map
    for them stays empty. *)
Definition add_patterns (props patterns : nmap Spec) : called (nmap Spec) :=
  match patterns, props with
  | None, _ => Returned props
  | Some q, Some p => Returned (Some (q ∪ p))
  | Some q, None => if bool_decide (q = ∅) then Returned None else Panics
  end.

(** A slice that is copied when it has elements. *)
Definition nonempty_only {T} (s : nslice T) : nslice T := match s with Some (_ :: _) => s | _ => None end.

(** [copySpecSchema] *)
Fixpoint copySpecSchema (inp : Spec) : called Spec :=
  match inp with
  | Sch s =>
      let^ its := all_opt ((λ i,
        let^ sch := all_opt (copySpecSchema <$> sa_Schema i) in
        let^ schs := copySpecSchemaArray (nonempty_only (fmap (M := list) copySpecSchema <$> sa_Schemas i)) in
        Returned (mkSchemaOrArray sch schs)) <$> sp_Items s) in
      let^ allOf := copySpecSchemaArray (fmap (M := list) copySpecSchema <$> sp_AllOf s) in
      let^ oneOf := copySpecSchemaArray (fmap (M := list) copySpecSchema <$> sp_OneOf s) in
      let^ anyOf := copySpecSchemaArray (fmap (M := list) copySpecSchema <$> sp_AnyOf s) in
      let^ not := all_opt (copySpecSchema <$> sp_Not s) in
      let^ props := all_map (fmap (M := gmap string) copySpecSchema <$> sp_Properties s) in
      let^ additional := all_opt ((λ a,
        let^ sch := all_opt (copySpecSchema <$> sb_Schema a) in
        Returned (mkSchemaOrBool (sb_Allows a) sch)) <$> sp_AdditionalProperties s) in
      let^ patterns := all_map (fmap (M := gmap string) copySpecSchema <$> sp_PatternProperties s) in
      let^ props := add_patterns props patterns in
      let^ deps := all_map (fmap (M := gmap string) (λ v,
        let^ sch := all_opt (copySpecSchema <$> ss_Schema v) in
        Returned (mkSchemaOrStringArray sch (nonempty_only (ss_Property v)))) <$> sp_Dependencies s) in
      let^ additionalItems := all_opt ((λ a,
        let^ sch := all_opt (copySpecSchema <$> sb_Schema a) in
        Returned (mkSchemaOrBool (sb_Allows a) sch)) <$> sp_AdditionalItems s) in
      let^ defs := all_map (fmap (M := gmap string) copySpecSchema <$> sp_Definitions s) in
      Returned (Sch (mkSpec (copy_info (sp_Info s)) (sp_Ref s) its allOf oneOf anyOf not props additional
        ((λ _, ∅) <$> sp_PatternProperties s) deps additionalItems defs))
  end.

(** ** Operations ([spec3]) *)

(** The text of a [Ref], [NewRef] (the zero [Ref] if it fails), and the structs that are only
    carried: headers, links, encodings, examples, documentation and servers. *)
Context (ref_String : KRef → string) (NewRef : string → option KRef).
Context {X : Type}.

Definition ref_text (r : option KRef) : string := from_option ref_String "" r.

Record MediaType := mkMediaType {
  mt_Schema : option Spec;
  mt_Example : value;
  mt_Examples : nmap X;
  mt_Encoding : nmap X;
  mt_Extensions : nmap value;
}.

(** A map of pointers to media types. *)
Abbreviation Content := (nmap (option MediaType)).

Record Parameter3 := mkParameter {
  pa_Name : string;
  pa_In : string;
  pa_Description : string;
  pa_Required : bool;
  pa_Deprecated : bool;
  pa_AllowEmptyValue : bool;
  pa_Style : string;
  pa_Explode : bool;
  pa_AllowReserved : bool;
  pa_Schema : option Spec;
  pa_Content : Content;
  pa_Example : value;
  pa_Examples : nmap X;
  pa_Ref : option KRef;
  pa_Extensions : nmap value;
}.

Record RequestBody := mkRequestBody {
  rb_Ref : option KRef;
  rb_Description : string;
  rb_Content : Content;
  rb_Required : bool;
  rb_Extensions : nmap value;
}.

Record Response3 := mkResponse {
  rs_Ref : option KRef;
  rs_Description : string;
  rs_Headers : nmap X;
  rs_Content : Content;
  rs_Links : nmap X;
  rs_Extensions : nmap value;
}.

Record Responses := mkResponses {
  rp_Default : option Response3;
  rp_StatusCodeResponses : option (gmap Z (option Response3));
  rp_Extensions : nmap value;
}.

Record Operation3 := mkOperation3 {
  o_Tags : nslice string;
  o_Summary : string;
  o_Description : string;
  o_ExternalDocs : option X;
  o_OperationId : string;
  o_Parameters : nslice (option Parameter3);
  o_RequestBody : option RequestBody;
  o_Responses : option Responses;
  o_Deprecated : bool;
  o_SecurityRequirement : nslice (gmap string (list string));
  o_Servers : nslice X;
  o_Extensions : nmap value;
}.

(** A call on what a pointer points to. *)
Definition through {A} (f : A → called A) (p : option A) : called (option A) := all_opt (f <$> p).

(** [copySpec3MediaType] *)
Definition copySpec3MediaType : option MediaType → called (option MediaType) := through (λ mt,
  let^ sch := all_opt (copySpecSchema <$> mt_Schema mt) in
  Returned (mkMediaType sch (mt_Example mt) None (copy_map (mt_Encoding mt)) (copy_map (mt_Extensions mt)))).

Definition copy_content (c : Content) : called Content := all_map (fmap (M := gmap string) copySpec3MediaType <$> c).

(** A reference is made again from its text. *)
Definition copy_ref (r : option KRef) : option KRef :=
  if String.eqb (ref_text r) "" then None else NewRef (ref_text r).

(** [copySpec3Parameter] *)
Definition copySpec3Parameter : option Parameter3 → called (option Parameter3) := through (λ p,
  let^ sch := all_opt (copySpecSchema <$> pa_Schema p) in
  let^ content := copy_content (pa_Content p) in
  Returned (mkParameter (pa_Name p) (pa_In p) (pa_Description p) (pa_Required p) (pa_Deprecated p)
    (pa_AllowEmptyValue p) (pa_Style p) (pa_Explode p) (pa_AllowReserved p) sch content ANil None
    (copy_ref (pa_Ref p)) (copy_map (pa_Extensions p)))).

(** [copySpec3RequestBody] *)
Definition copySpec3RequestBody : option RequestBody → called (option RequestBody) := through (λ b,
  let^ content := copy_content (rb_Content b) in
  Returned (mkRequestBody (copy_ref (rb_Ref b)) (rb_Description b) content (rb_Required b) (copy_map (rb_Extensions b)))).

(** [copySpec3Response] *)
Definition copySpec3Response : option Response3 → called (option Response3) := through (λ r,
  let^ content := copy_content (rs_Content r) in
  Returned (mkResponse (copy_ref (rs_Ref r)) (rs_Description r) (copy_map (rs_Headers r)) content
    (copy_map (rs_Links r)) (copy_map (rs_Extensions r)))).

(** [copySpec3Responses] *)
Definition copySpec3Responses : option Responses → called (option Responses) := through (λ rs,
  let^ dflt := copySpec3Response (rp_Default rs) in
  let^ codes := all_opt (all_gmap ∘ fmap (M := gmap Z) copySpec3Response <$> rp_StatusCodeResponses rs) in
  Returned (mkResponses dflt codes (copy_map (rp_Extensions rs)))).

(** [copyOperation] *)
Definition copyOperation : option Operation3 → called (option Operation3) := through (λ o,
  let^ body := copySpec3RequestBody (o_RequestBody o) in
  let^ responses := copySpec3Responses (o_Responses o) in
  let^ params := all_slice (fmap (M := list) copySpec3Parameter <$> o_Parameters o) in
  Returned (mkOperation3 (copy_slice (o_Tags o)) (o_Summary o) (o_Description o) None (o_OperationId o) params body
    responses (o_Deprecated o) None None (copy_map (o_Extensions o)))).

(** ** References *)

(** [ref] is the [ReferenceCallback]; [replaceFunc] renames. *)
Context (ref : string → KRef).

(** A schema whose reference, properties, additional properties or items are replaced. *)
Definition with_ref (s : SpecOf Spec) (r : option KRef) : Spec :=
  Sch (mkSpec (sp_Info s) r (sp_Items s) (sp_AllOf s) (sp_OneOf s) (sp_AnyOf s) (sp_Not s) (sp_Properties s)
    (sp_AdditionalProperties s) (sp_PatternProperties s) (sp_Dependencies s) (sp_AdditionalItems s) (sp_Definitions s)).
Definition with_parts (s : SpecOf Spec) (props : nmap Spec) (additional : option (SchemaOrBool Spec))
    (its : option (SchemaOrArray Spec)) : Spec :=
  Sch (mkSpec (sp_Info s) (sp_Ref s) its (sp_AllOf s) (sp_OneOf s) (sp_AnyOf s) (sp_Not s) props additional
    (sp_PatternProperties s) (sp_Dependencies s) (sp_AdditionalItems s) (sp_Definitions s)).

Definition has_ref (s : SpecOf Spec) : bool := negb (String.eqb (ref_text (sp_Ref s)) "").

Definition additional_schema (s : SpecOf Spec) : option Spec := sp_AdditionalProperties s ≫= sb_Schema.
Definition item_schema (s : SpecOf Spec) : option Spec := sp_Items s ≫= sa_Schema.

(** The structs behind two pointers, with another schema in them. *)
Definition set_additional (s : SpecOf Spec) (c : Spec) : option (SchemaOrBool Spec) :=
  (λ a, mkSchemaOrBool (sb_Allows a) (Some c)) <$> sp_AdditionalProperties s.
Definition set_item (s : SpecOf Spec) (c : Spec) : option (SchemaOrArray Spec) :=
  (λ a, mkSchemaOrArray (Some c) (sa_Schemas a)) <$> sp_Items s.

(** The schema after its references are replaced, and the dependencies. *)
Abbreviation Replaced := (Spec * list string)%type.

Context `{RO : !RangeOrder}.

(** The dependencies of the properties, in the order of the loop. *)
Definition all_deps (props : nmap Replaced) : list string := (range_map (items props)).*2.*2 ≫= id.
Definition all_schemas (props : nmap Replaced) : nmap Spec := fmap (M := gmap string) fst <$> props.

Section Replace.
Context (replaceFunc : string → string).

(** What the reference of a schema is replaced by. *)
Definition renamed (s : SpecOf Spec) : string := replaceFunc (TrimPrefix (ref_text (sp_Ref s)) "#/components/schemas/").
Definition replace_ref (s : SpecOf Spec) : Replaced := (with_ref s (Some (ref (renamed s))), [renamed s]).

(** [replaceReferencesInSchema]: of a property that is no reference, the first that is there
    of its additional properties, its items and its properties is looked into. *)
Fixpoint replaceReferencesInSchema (sch : Spec) : Replaced :=
  match sch with
  | Sch s =>
      if has_ref s then replace_ref s
      else
        let props := fmap (M := gmap string) (λ prop,
          match prop with
          | Sch p =>
              if has_ref p then replace_ref p
              else
                let additional := (sp_AdditionalProperties p ≫= λ i, replaceReferencesInSchema <$> sb_Schema i) in
                let item := (sp_Items p ≫= λ i, replaceReferencesInSchema <$> sa_Schema i) in
                let inner := fmap (M := gmap string) replaceReferencesInSchema <$> sp_Properties p in
                match additional, item with
                | Some c, _ => (with_parts p (sp_Properties p) (set_additional p c.1) (sp_Items p), c.2)
                | None, Some c => (with_parts p (sp_Properties p) (sp_AdditionalProperties p) (set_item p c.1), c.2)
                | None, None => (with_parts p (all_schemas inner) (sp_AdditionalProperties p) (sp_Items p), all_deps inner)
                end
          end) <$> sp_Properties s in
        let additional := (sp_AdditionalProperties s ≫= λ i, replaceReferencesInSchema <$> sb_Schema i) in
        let item := (sp_Items s ≫= λ i, replaceReferencesInSchema <$> sa_Schema i) in
        (with_parts s (all_schemas props)
           (match additional with Some c => set_additional s c.1 | None => sp_AdditionalProperties s end)
           (match item with Some c => set_item s c.1 | None => sp_Items s end),
         all_deps props ++ from_option snd [] additional ++ from_option snd [] item)
  end.
End Replace.

(** ** Definitions *)

(** [common.OpenAPIDefinition] over these schemas; without dependencies they are nil. *)
Record SpecDefinition := mkSpecDefinition { sd_Schema : Spec; sd_Dependencies : list string }.

(** What the conversions of kinds make ([KubeOpenAPI]) is a [spec.Schema] whose other fields are
    zero. *)
Definition some_slice {A} (l : list A) : nslice A := match l with [] => None | _ => Some l end.
Definition info_of_kube (k : KubeSchemaOf (KRef := KRef) (KubeSchema KRef)) : SpecInfo :=
  mkSpecInfo "" "" (k_Description _ k) (some_slice (k_Type _ k)) (k_Nullable _ k) (k_Format _ k) (k_Title _ k)
    (k_Default _ k) (k_Maximum _ k) false (k_Minimum _ k) false (k_MaxLength _ k) (k_MinLength _ k) (k_Pattern _ k)
    (k_MaxItems _ k) (k_MinItems _ k) (k_UniqueItems _ k) (k_MultipleOf _ k) (some_slice (k_Enum _ k))
    (k_MaxProperties _ k) (k_MinProperties _ k) (some_slice (k_Required _ k)) "" false None ANil None None.

Fixpoint spec_of_kube (k : KubeSchema KRef) : Spec :=
  match k with
  | Kube k =>
      Sch (mkSpec (info_of_kube k) (k_Ref k)
        ((λ i, mkSchemaOrArray (Some (spec_of_kube i)) None) <$> k_Items k)
        (fmap (M := list) spec_of_kube <$> k_AllOf k) (fmap (M := list) spec_of_kube <$> k_OneOf k)
        (fmap (M := list) spec_of_kube <$> k_AnyOf k) (spec_of_kube <$> k_Not k)
        (fmap (M := gmap string) spec_of_kube <$> k_Properties k)
        ((λ a, mkSchemaOrBool (sb_Allows a) (spec_of_kube <$> sb_Schema a)) <$> k_AdditionalProperties k)
        None None None None)
  end.

Definition definition_of_kube (d : OpenAPIDefinition KRef) : SpecDefinition :=
  mkSpecDefinition (spec_of_kube (def_Schema d)) (def_Dependencies d).

(** The model names of [metav1.ObjectMeta] and [metav1.ListMeta], and the names of a Go type:
    its package's path and its own. *)
Context (ObjectMeta_name ListMeta_name : string) (PkgPath TypeName : string → string).

(** The default name of the type of a route: the prefix, the method with its first letter in
    upper case, and the letters and digits of the path, the first in upper case. *)
Definition is_alphanumeric (c : ascii) : bool :=
  let n := nat_of_ascii c in
  (((65 <=? n) && (n <=? 90)) || ((97 <=? n) && (n <=? 122)) || ((48 <=? n) && (n <=? 57)))%nat.
Definition uc_first (keep : string → string) (s : string) : string :=
  match s with
  | String c (String _ _ as rest) => String (ascii_upper c) (keep rest)
  | _ => ToUpper s
  end.
Definition default_type_path (defaultPkgPrefix method opPath : string) : string :=
  defaultPkgPrefix +:+ "." +:+ uc_first ToLower method +:+
    uc_first id (String.string_of_list_ascii (filter (λ c, is_alphanumeric c = true) (String.list_ascii_of_string opPath))).

(** The prefix for the names of references, and the path of the type.  The Go type of a response
    would give its [OpenAPIModelName], but the test is made on the [reflect.Type], which has
    no such method. *)
Definition operation_type (goType : option string) (defaultPkgPrefix method opPath : string) : string * string :=
  match goType with
  | Some typ => (ToOpenAPIName (PkgPath typ), PkgPath typ +:+ "." +:+ TypeName typ)
  | None => (defaultPkgPrefix, default_type_path defaultPkgPrefix method opPath)
  end.

(** The schema among the content types: the last that is seen, up to [application/json]. *)
Fixpoint content_loop (l : list (string * option MediaType)) (typeSchema : Spec) : called Spec :=
  match l with
  | [] => Returned typeSchema
  | (_, None) :: _ => Panics
  | (key, Some val) :: l =>
      let^ typeSchema := match mt_Schema val with
                         | Some sch => copySpecSchema sch
                         | None => Returned typeSchema
                         end in
      if String.eqb key "application/json" then Returned typeSchema else content_loop l typeSchema
  end.
Definition content_schema (c : Content) : called Spec := content_loop (range_map (items c)) Spec_zero.

Definition OpenAPIExtensionUsesKubernetesObjectMeta : string := "x-grafana-app-uses-kubernetes-object-metadata".
Definition OpenAPIExtensionUsesKubernetesListMeta : string := "x-grafana-app-uses-kubernetes-list-metadata".

(** A schema with only a reference and the default [{}]. *)
Definition meta_ref (name : string) : Spec :=
  spec_with (mkSpecInfo "" "" "" None false "" "" (AMap ∅) None false None false None None "" None None false None None
    None None None "" false None ANil None None) (Some (ref name)) None.

(** The name of the metadata that the property [metadata] stands for, by its extensions. *)
Definition metadata_name (sch : Spec) : option string :=
  metadataProp ← items (sp_Properties (spec sch)) !! "metadata";
  let ext := items (si_Extensions (sp_Info (spec metadataProp))) in
  match ext !! OpenAPIExtensionUsesKubernetesObjectMeta with
  | Some (ABool true) => Some ObjectMeta_name
  | Some _ => None
  | None =>
      match ext !! OpenAPIExtensionUsesKubernetesListMeta with
      | Some (ABool true) => Some ListMeta_name
      | _ => None
      end
  end.

Definition replace_metadata (c : Replaced) : Replaced :=
  match metadata_name c.1 with
  | Some name =>
      let s := spec c.1 in
      (with_parts s (insert (M := gmap string Spec) "metadata" (meta_ref name) <$> sp_Properties s)
         (sp_AdditionalProperties s) (sp_Items s), c.2 ++ [name])
  | None => c
  end.

Definition the_definition (typePath : string) (c : Replaced) : string * SpecDefinition :=
  (ToOpenAPIName typePath, mkSpecDefinition c.1 c.2).

(** [getOperationResponseOpenAPI] *)
Definition getOperationResponseOpenAPI (kind ver opPath method : string) (op : Operation3) (resolver : ApiRoutes.GoTypes)
    (defaultPkgPrefix : string) : called (string * SpecDefinition) :=
  let^ operation := copyOperation (Some op) in
  let '(pkgPrefix, typePath) := operation_type (resolver kind ver opPath method) defaultPkgPrefix method opPath in
  let^ typeSchema :=
    match (operation ≫= o_Responses) ≫= rp_Default with
    | Some r => content_schema (rs_Content r)
    | None => Returned Spec_zero
    end in
  let replaced := replaceReferencesInSchema (KubeOpenAPIReferenceReplacerFunc pkgPrefix kind) typeSchema in
  Returned (the_definition typePath (replace_metadata replaced)).

(** [getOperationRequestBodyOpenAPI] *)
Definition getOperationRequestBodyOpenAPI (kind ver opPath method : string) (op : Operation3) (resolver : ApiRoutes.GoTypes)
    (defaultPkgPrefix : string) : called (string * SpecDefinition) :=
  let^ operation := copyOperation (Some op) in
  let '(pkgPrefix, typePath) := operation_type (resolver kind ver opPath method) defaultPkgPrefix method opPath in
  let^ typeSchema :=
    match operation ≫= o_RequestBody with
    | Some b => content_schema (rb_Content b)
    | None => Returned Spec_zero
    end in
  Returned (the_definition typePath (replaceReferencesInSchema (KubeOpenAPIReferenceReplacerFunc pkgPrefix kind) typeSchema)).

(** [spec3.PathProps] *)
Record PathProps3 := mkPathProps3 {
  p3_Get : option Operation3;
  p3_Post : option Operation3;
  p3_Put : option Operation3;
  p3_Patch : option Operation3;
  p3_Delete : option Operation3;
  p3_Head : option Operation3;
  p3_Options : option Operation3;
}.

Definition operations3 (p : PathProps3) : list (string * Operation3) :=
  omap (λ '(method, op), (method,.) <$> op)
    [("GET", p3_Get p); ("POST", p3_Post p); ("PUT", p3_Put p); ("PATCH", p3_Patch p); ("DELETE", p3_Delete p);
     ("HEAD", p3_Head p); ("OPTIONS", p3_Options p)].

Abbreviation Definitions := (gmap string SpecDefinition).

(** A loop whose body may panic. *)
Fixpoint loop {A B} (f : A → B → called A) (a : A) (l : list B) : called A :=
  match l with
  | [] => Returned a
  | b :: l => let^ a := f a b in loop f a l
  end.

(** The resolver, the manifest data; the scheme is nil, or names the definitions of kinds. *)
Context {O G : Type} (resolver : GoTypeResolver O) (md : ManifestData PathProps3 Spec G).
Context (scheme : option (string * string * string → string + GoError)).

(** One operation of [getManifestCustomRoutesOpenAPI]: its response, and its body if it has one. *)
Definition operation_definitions (kind ver rpath defaultPkgPrefix : string) (defs : Definitions)
    (mo : string * Operation3) : called Definitions :=
  let^ d := getOperationResponseOpenAPI kind ver rpath mo.1 mo.2 (CustomRouteReturnGoType resolver) defaultPkgPrefix in
  let defs := <[d.1 := d.2]> defs in
  match o_RequestBody mo.2 with
  | Some _ =>
      let^ d := getOperationRequestBodyOpenAPI kind ver rpath mo.1 mo.2 (CustomRouteRequestBodyGoType resolver) defaultPkgPrefix in
      Returned (<[d.1 := d.2]> defs)
  | None => Returned defs
  end.

(** [getManifestCustomRoutesOpenAPI] *)
Definition getManifestCustomRoutesOpenAPI (kind ver : string) (routes : nmap PathProps3)
    (routePathPrefix defaultPkgPrefix : string) : called Definitions :=
  loop (λ defs r,
    let rpath := if String.eqb routePathPrefix "" then r.1 else path_Join routePathPrefix r.1 in
    loop (operation_definitions kind ver rpath defaultPkgPrefix) defs (operations3 r.2))
    ∅ (range_map (items routes)).

(** [kin-openapi]'s loader, as for [AsOpenAPI3]. *)
Context `{KT : !KinTypes} (load : nmap (any G) → outcome (nmap SchemaRef)).

(** [VersionSchema.AsKubeOpenAPI] of a kind's schema, a pointer. *)
Definition kind_openapi (sch : option (VersionSchema G)) (gvkKind pkgPrefix : string)
  : outcome (gmap string (OpenAPIDefinition KRef)) :=
  try v := deref_ptr sch in
  AsKubeOpenAPI ObjectMeta_name ListMeta_name ref (AsOpenAPI3 load v) gvkKind pkgPrefix.

(** The text before the last dot, unless it is empty. *)
Definition before_last_dot (s : string) : string :=
  let p := String.concat "." (removelast (Split s ".")) in
  if String.eqb p "" then s else p.

(** The definitions so far, and whether there are custom routes. *)
Abbreviation Gathered := (Definitions * bool)%type.

(** The prefix and the definitions of a kind of a version, which is left out if the resolver or
    the scheme has nothing for it. *)
Definition kind_result (version : string) (mk : ManifestVersionKind PathProps3 G)
  : option (string * outcome (gmap string (OpenAPIDefinition KRef))) :=
  kind ← KindToGoType resolver (mvk_Kind mk) version;
  name ← scheme;
  match name (md_Group md, version, mvk_Kind mk) with
  | inr _ => None
  | inl pkgPrefix =>
      let pkgPrefix := before_last_dot pkgPrefix in
      Some (pkgPrefix, kind_openapi (mvk_Schema mk) (ak_Kind kind) pkgPrefix)
  end.

(** One kind of a version; one that cannot be converted is left out, too. *)
Definition kind_definitions (version : string) (acc : Gathered) (mk : ManifestVersionKind PathProps3 G) : called Gathered :=
  match kind_result version mk with
  | None | Some (_, Failed _) => Returned acc
  | Some (_, Panicked) | Some (_, OutOfFuel) => Panics
  | Some (pkgPrefix, Ok oapi) =>
      let res := (definition_of_kube <$> oapi) ∪ acc.1 in
      if nonempty_map (mvk_Routes mk) then
        let^ defs := getManifestCustomRoutesOpenAPI (mvk_Kind mk) version (mvk_Routes mk) "" pkgPrefix in
        Returned (defs ∪ res, true)
      else Returned (res, acc.2)
  end.

(** The routes of a version in a scope, with the prefix of their references: that of one of
    their definitions. *)
Definition scope_definitions (version routePathPrefix : string) (routes : nmap PathProps3)
    (acc : Gathered * string) : called (Gathered * string) :=
  if nonempty_map routes then
    let^ entries := getManifestCustomRoutesOpenAPI "" version routes routePathPrefix "" in
    let prefix :=
      match range_map entries with
      | (k, _) :: _ => String.concat "." (removelast (Split k "."))
      | [] => acc.2
      end in
    Returned (entries ∪ acc.1.1, true, prefix)
  else Returned acc.

(** One of the schemas that the routes of a version share. *)
Definition add_schema (replFunc : string → string) (res : Definitions) (kv : string * Spec) : called Definitions :=
  let^ cpy := copySpecSchema kv.2 in
  let c := replaceReferencesInSchema replFunc cpy in
  Returned (<[replFunc kv.1 := mkSpecDefinition c.1 c.2]> res).

Definition version_definitions (acc : Gathered) (v : ManifestVersion PathProps3 Spec G) : called Gathered :=
  let^ acc := loop (kind_definitions (mv_Name v)) acc (elems (mv_Kinds v)) in
  let^ acc := scope_definitions (mv_Name v) "<namespace>" (mvr_Namespaced (mv_Routes v)) (acc, "") in
  let^ acc := scope_definitions (mv_Name v) "" (mvr_Cluster (mv_Routes v)) acc in
  let '((res, hasCustomRoutes), customRoutePkgPrefix) := acc in
  let^ res := loop (add_schema (KubeOpenAPIReferenceReplacerFunc customRoutePkgPrefix "")) res
                (range_map (items (mvr_Schemas (mv_Routes v)))) in
  Returned (res, hasCustomRoutes).

(** A schema with a description, types and properties. *)
Definition described (description : string) (types : list string) (props : nmap Spec) : Spec :=
  spec_with (mkSpecInfo "" "" description (Some types) false "" "" ANil None false None false None None "" None None false
    None None None None None "" false None ANil None None) None props.

(** [GetResourceCallOptionsOpenAPIDefinition] *)
Definition GetResourceCallOptionsOpenAPIDefinition : Definitions :=
  {["github.com/grafana/grafana-app-sdk/k8s/apiserver.ResourceCallOptions" :=
    mkSpecDefinition (described "ExternalNameFoo defines model for ExternalNameFoo." ["object"]
      (Some {["kind" := described "" ["string"] None; "apiVersion" := described "" ["string"] None;
              "path" := spec_with (mkSpecInfo "" "" "" (Some ["string"]) false "" "" (AString "") None false None false None
                None "" None None false None None None None None "" false None ANil None None) None None]})) []]}.

(** The key of the definition of [EmptyObject], and the name the type gives itself. *)
Definition EmptyObject_key : string := "com.github.grafana.grafana-app-sdk.k8s.apiserver.EmptyObject".
Definition EmptyObject_OpenAPIModelName : string := "com.github.grafana-app-sdk.k8s.apiserver.EmptyObject".

(** [GetOpenAPIDefinitions] *)
Definition GetOpenAPIDefinitions : called Definitions :=
  let^ acc := loop version_definitions (∅, false) (elems (md_Versions md)) in
  let '(res, hasCustomRoutes) := acc in
  Returned (if hasCustomRoutes : bool then
    <[EmptyObject_key := mkSpecDefinition (described "EmptyObject defines a model for a missing object type" ["object"] None) []]>
      (GetResourceCallOptionsOpenAPIDefinition ∪ res)
  else res).
End Definitions.

Arguments Spec : clear implicits.
Arguments SpecDefinition : clear implicits.
Arguments sp_Info {KRef R}.
Arguments sp_Ref {KRef R}.
Arguments sp_Items {KRef R}.
Arguments sp_AllOf {KRef R}.
Arguments sp_OneOf {KRef R}.
Arguments sp_AnyOf {KRef R}.
Arguments sp_Not {KRef R}.
Arguments sp_Properties {KRef R}.
Arguments sp_AdditionalProperties {KRef R}.
Arguments sp_PatternProperties {KRef R}.
Arguments sp_Dependencies {KRef R}.
Arguments sp_AdditionalItems {KRef R}.
Arguments sp_Definitions {KRef R}.
Arguments sa_Schema {R}.
Arguments sa_Schemas {R}.
Arguments ss_Schema {R}.
Arguments ss_Property {R}.
Arguments sb_Allows {R}.

(** ** What is in a schema *)
Section Parts.
Context {KRef : Type}.
Abbreviation Fields := (SpecOf (KRef := KRef) (Spec KRef)).
Implicit Types s : Fields.

Definition property_of s (c : Spec KRef) : Prop := ∃ k : string, items (sp_Properties s) !! k = Some c.

(** The parts that [replaceReferencesInSchema] does not look into. *)
Definition other_child s (c : Spec KRef) : Prop :=
  c ∈ elems (sp_Items s ≫= sa_Schemas) ∨ c ∈ elems (sp_AllOf s) ∨ c ∈ elems (sp_OneOf s) ∨ c ∈ elems (sp_AnyOf s) ∨
  sp_Not s = Some c ∨ (∃ k : string, items (sp_PatternProperties s) !! k = Some c) ∨
  (∃ (k : string) v, items (sp_Dependencies s) !! k = Some v ∧ ss_Schema v = Some c) ∨
  (sp_AdditionalItems s ≫= sb_Schema) = Some c ∨ ∃ k : string, items (sp_Definitions s) !! k = Some c.

Definition spec_child s (c : Spec KRef) : Prop :=
  property_of s c ∨ additional_schema s = Some c ∨ item_schema s = Some c ∨ other_child s c.

(** A reference that occurs in a schema. *)
Inductive spec_occurs (r : KRef) : Spec KRef → Prop :=
| spec_occurs_here s : sp_Ref s = Some r → spec_occurs r (Sch s)
| spec_occurs_inside s c : spec_child s c → spec_occurs r c → spec_occurs r (Sch s).

Definition ref_free (c : Spec KRef) : Prop := ∀ r, ¬ spec_occurs r c.

Lemma spec_occurs_inv r s : spec_occurs r (Sch s) → sp_Ref s = Some r ∨ ∃ c, spec_child s c ∧ spec_occurs r c.
Proof. inversion 1; eauto. Qed.

(** A schema that is copied whole: without pattern properties, and with nil for the slices that
    are empty where the copy makes them nil. *)
Inductive tidy : Spec KRef → Prop :=
| tidy_intro s :
    sp_PatternProperties s = None →
    (sp_Items s ≫= sa_Schemas) ≠ Some [] →
    (∀ (k : string) v, items (sp_Dependencies s) !! k = Some v → ss_Property v ≠ Some []) →
    (∀ c, spec_child s c → tidy c) → tidy (Sch s).

Lemma copy_slice_id {T} (l : nslice T) : copy_slice l = l.
Proof. by destruct l. Qed.

Lemma copy_map_id {T} (m : nmap T) : copy_map m = m.
Proof. destruct m as [m|]; [|done]. unfold copy_map. csimpl. by rewrite (right_id_L ∅ (∪)). Qed.

Lemma copyPointerPrimitive_id {T} (o : option T) : copyPointerPrimitive o = o.
Proof. by destruct o. Qed.

Lemma copy_info_id i : copy_info i = i.
Proof. destruct i. unfold copy_info. simpl. by rewrite !copyPointerPrimitive_id, !copy_slice_id, !copy_map_id. Qed.

Lemma nonempty_only_id {T} (l : nslice T) : l ≠ Some [] → nonempty_only l = l.
Proof. by destruct l as [[|]|]. Qed.

Lemma nonempty_only_fmap {A B} (f : A → B) (l : nslice A) :
  nonempty_only (fmap (M := list) f <$> l) = fmap (M := list) f <$> nonempty_only l.
Proof. by destruct l as [[|]|]. Qed.

(** The copy of a tidy schema is the schema. *)
Lemma copySpecSchema_tidy sch : tidy sch → copySpecSchema sch = Returned sch.
Proof.
  induction 1 as [s Hpat Hitems Hdeps _ IH].
  assert (∀ o, (∀ c, o = Some c → spec_child s c) → all_opt (copySpecSchema <$> o) = Returned o) as Hopt.
  { intros o Ho. apply all_opt_id. eauto. }
  assert (∀ l, (∀ c, c ∈ elems l → spec_child s c) →
    copySpecSchemaArray (fmap (M := list) copySpecSchema <$> l) = Returned l) as Hlist.
  { intros l Hl. apply all_slice_id. eauto. }
  assert (∀ m : nmap (Spec KRef), (∀ k c, items m !! k = Some c → spec_child s c) →
    all_map (fmap (M := gmap string) copySpecSchema <$> m) = Returned m) as Hmap.
  { intros m Hm. apply all_map_id. eauto. }
  clear IH. unfold spec_child, other_child, property_of, additional_schema, item_schema in *.
  destruct s as [info rf its allOf oneOf anyOf not props additional patterns deps additionalItems defs]. simpl in *. subst.
  rewrite (all_opt_id _ its); cycle 1.
  { intros [sch schs] ->. simpl in *. rewrite Hopt by naive_solver. simpl.
    rewrite nonempty_only_fmap, nonempty_only_id by done. by rewrite Hlist by naive_solver. }
  simpl. rewrite (Hlist allOf) by naive_solver. simpl. rewrite (Hlist oneOf) by naive_solver. simpl.
  rewrite (Hlist anyOf) by naive_solver. simpl. rewrite (Hopt not) by naive_solver. simpl.
  rewrite (Hmap props) by naive_solver. simpl.
  rewrite (all_opt_id _ additional); cycle 1.
  { intros [allows sch] ->. simpl in *. by rewrite Hopt by naive_solver. }
  simpl. rewrite (all_map_id _ deps); cycle 1.
  { intros k [sch prop] Hk. simpl. rewrite Hopt by naive_solver. simpl.
    rewrite nonempty_only_id; [done|]. by apply (Hdeps k _ Hk). }
  simpl. rewrite (all_opt_id _ additionalItems); cycle 1.
  { intros [allows sch] ->. simpl in *. by rewrite Hopt by naive_solver. }
  simpl. rewrite (Hmap defs) by naive_solver. simpl. by rewrite copy_info_id.
Qed.
End Parts.

(** ** Replaced references *)
Section References.
Context {KRef : Type} (ref_String : KRef → string) (ref : string → KRef) `{RO : !RangeOrder}.
Context (replaceFunc : string → string).
Abbreviation Fields := (SpecOf (KRef := KRef) (Spec KRef)).
Abbreviation replace := (replaceReferencesInSchema ref_String ref replaceFunc).
Implicit Types s : Fields.

(** What [replaceReferencesInSchema] does with a property. *)
Definition replace_property (prop : Spec KRef) : Spec KRef * list string :=
  match prop with
  | Sch p =>
      if has_ref ref_String p then replace_ref ref_String ref replaceFunc p
      else
        let additional := sp_AdditionalProperties p ≫= λ i, replace <$> sb_Schema i in
        let item := sp_Items p ≫= λ i, replace <$> sa_Schema i in
        let inner := fmap (M := gmap string) replace <$> sp_Properties p in
        match additional, item with
        | Some c, _ => (with_parts p (sp_Properties p) (set_additional p c.1) (sp_Items p), c.2)
        | None, Some c => (with_parts p (sp_Properties p) (sp_AdditionalProperties p) (set_item p c.1), c.2)
        | None, None => (with_parts p (all_schemas inner) (sp_AdditionalProperties p) (sp_Items p), all_deps inner)
        end
  end.

Lemma bind_fmap {A B C} (o : option A) (f : A → option B) (g : B → C) : (o ≫= λ i, g <$> f i) = g <$> (o ≫= f).
Proof. by destruct o. Qed.

Lemma replace_unfold s : has_ref ref_String s = false →
  let props := fmap (M := gmap string) replace_property <$> sp_Properties s in
  let additional := replace <$> additional_schema s in
  let item := replace <$> item_schema s in
  replace (Sch s) =
    (with_parts s (all_schemas props)
       (match additional with Some c => set_additional s c.1 | None => sp_AdditionalProperties s end)
       (match item with Some c => set_item s c.1 | None => sp_Items s end),
     all_deps props ++ from_option snd [] additional ++ from_option snd [] item).
Proof.
  intros Hr props additional item. subst additional item. unfold additional_schema, item_schema.
  rewrite <- !bind_fmap. simpl. by rewrite Hr.
Qed.

Lemma replace_has_ref s : has_ref ref_String s = true →
  replace (Sch s) = replace_ref ref_String ref replaceFunc s ∧ replace_property (Sch s) = replace_ref ref_String ref replaceFunc s.
Proof. intros Hr. simpl. by rewrite Hr. Qed.

(** The schemas all of whose references are looked at: those with a reference have nothing
    else, and of a property only what is looked at has references. *)
Inductive reached : Spec KRef → Prop :=
| reached_ref s : has_ref ref_String s = true → (∀ c, spec_child s c → ref_free c) → reached (Sch s)
| reached_parts s :
    sp_Ref s = None → (∀ c, other_child s c → ref_free c) →
    (∀ c, additional_schema s = Some c → reached c) → (∀ c, item_schema s = Some c → reached c) →
    (∀ p, property_of s p → reached_property p) → reached (Sch s)
with reached_property : Spec KRef → Prop :=
| property_ref s : has_ref ref_String s = true → (∀ c, spec_child s c → ref_free c) → reached_property (Sch s)
| property_additional s c :
    sp_Ref s = None → additional_schema s = Some c → reached c →
    (∀ c, other_child s c ∨ item_schema s = Some c ∨ property_of s c → ref_free c) → reached_property (Sch s)
| property_item s c :
    sp_Ref s = None → additional_schema s = None → item_schema s = Some c → reached c →
    (∀ c, other_child s c ∨ property_of s c → ref_free c) → reached_property (Sch s)
| property_properties s :
    sp_Ref s = None → additional_schema s = None → item_schema s = None → (∀ c, other_child s c → ref_free c) →
    (∀ p, property_of s p → reached p) → reached_property (Sch s).

Scheme reached_mind := Minimality for reached Sort Prop
  with reached_property_mind := Minimality for reached_property Sort Prop.

(** The references of what is returned are the dependencies. *)
Definition covered (c : Spec KRef * list string) : Prop :=
  ∀ r, spec_occurs r c.1 → ∃ d, d ∈ c.2 ∧ r = ref d.

Lemma covered_ref s : (∀ c, spec_child s c → ref_free c) → covered (replace_ref ref_String ref replaceFunc s).
Proof.
  intros Hfree r [Hr|(c & Hc & Hoc)]%spec_occurs_inv.
  - injection Hr as <-. exists (renamed ref_String replaceFunc s). split; [by left | done].
  - exfalso. destruct s. by apply (Hfree c Hc r).
Qed.

(** The children of a schema with other properties, additional properties and items. *)
Lemma with_parts_child s props additional its c :
  spec_child (spec (with_parts s props additional its)) c →
  (∃ k : string, items props !! k = Some c) ∨ (additional ≫= sb_Schema) = Some c ∨ (its ≫= sa_Schema) = Some c ∨
  (c ∈ elems (its ≫= sa_Schemas)) ∨ other_child s c.
Proof using Type. clear ref_String ref replaceFunc RO. unfold spec_child, other_child. destruct s. naive_solver. Qed.

Lemma set_additional_schema s c c' : (set_additional s c ≫= sb_Schema) = Some c' → is_Some (additional_schema s) → c' = c.
Proof. unfold set_additional, additional_schema. destruct (sp_AdditionalProperties s); naive_solver. Qed.

Lemma set_item_schema s c c' : (set_item s c ≫= sa_Schema) = Some c' → is_Some (item_schema s) → c' = c.
Proof. unfold set_item, item_schema. destruct (sp_Items s); naive_solver. Qed.

Lemma set_item_schemas s c : (set_item s c ≫= sa_Schemas) = (sp_Items s ≫= sa_Schemas).
Proof. unfold set_item. by destruct (sp_Items s). Qed.

Lemma items_all_schemas (m : nmap (Spec KRef * list string)) k c :
  items (all_schemas m) !! k = Some c → ∃ d, items m !! k = Some (c, d).
Proof.
  destruct m as [m|]; [|done]. unfold all_schemas. csimpl. rewrite lookup_fmap_Some.
  intros ([c' d] & <- & H). by exists d.
Qed.

Lemma elem_of_all_deps (m : nmap (Spec KRef * list string)) k c d x : items m !! k = Some (c, d) → x ∈ d → x ∈ all_deps m.
Proof.
  intros Hk Hx. unfold all_deps. apply list_elem_of_bind. exists d. split; [done|].
  apply list_elem_of_fmap. exists (c, d). split; [done|]. apply list_elem_of_fmap. exists (k, (c, d)).
  split; [done|]. by apply elem_of_range_map.
Qed.

(** The properties of a map of replaced schemas are covered by all its dependencies. *)
Lemma covered_properties (f : Spec KRef → Spec KRef * list string) (m : nmap (Spec KRef)) k c r :
  (∀ k p, items m !! k = Some p → covered (f p)) →
  items (all_schemas (fmap (M := gmap string) f <$> m)) !! k = Some c → spec_occurs r c →
  ∃ d, d ∈ all_deps (fmap (M := gmap string) f <$> m) ∧ r = ref d.
Proof.
  intros Hf (d & Hd)%items_all_schemas Hoc. pose proof Hd as Hd'.
  destruct m as [m|]; [|done]. csimpl in Hd'. apply lookup_fmap_Some in Hd' as (p & Hp & Hk).
  destruct (Hf k p Hk r) as (x & Hx & ->); [by rewrite Hp|]. rewrite Hp in Hx.
  exists x. split; [|done]. by eapply elem_of_all_deps.
Qed.

Lemma covered_parts s additional its props (l : list string) :
  sp_Ref s = None → (∀ c, other_child s c → ref_free c) → (its ≫= sa_Schemas) = (sp_Items s ≫= sa_Schemas) →
  (∀ k c r, items props !! k = Some c → spec_occurs r c → ∃ d, d ∈ l ∧ r = ref d) →
  (∀ c r, (additional ≫= sb_Schema) = Some c → spec_occurs r c → ∃ d, d ∈ l ∧ r = ref d) →
  (∀ c r, (its ≫= sa_Schema) = Some c → spec_occurs r c → ∃ d, d ∈ l ∧ r = ref d) →
  covered (with_parts s props additional its, l).
Proof.
  intros Hr Hother Hits Hp Ha Hi r [Hr'|(c & Hc & Hoc)]%spec_occurs_inv.
  - cbn in Hr'. congruence.
  - destruct (with_parts_child s props additional its c Hc) as [[k Hk]|[Hc'|[Hc'|[Hc'|Hc']]]]; [by eauto..| |].
    + rewrite Hits in Hc'. exfalso. apply (Hother c) with r; [by left | done].
    + exfalso. by apply (Hother c) with r.
Qed.

Lemma no_ref s : sp_Ref s = None → has_ref ref_String s = false.
Proof. intros H. unfold has_ref. by rewrite H. Qed.

Lemma reached_covered sch : reached sch → covered (replace sch).
Proof.
  apply (reached_mind (λ c, covered (replace c)) (λ p, covered (replace_property p))).
  - intros s Hr Hfree. rewrite (proj1 (replace_has_ref s Hr)). by apply covered_ref.
  - intros s Hr Hother _ Ha _ Hi _ Hp. rewrite replace_unfold by by apply no_ref.
    apply covered_parts; try done.
    + destruct (item_schema s); simpl; [apply set_item_schemas | done].
    + intros k c r Hk Hoc.
      destruct (covered_properties replace_property (sp_Properties s) k c r) as (d & Hd & ->); try done.
      { intros k' p Hk'. apply Hp. by exists k'. }
      exists d. rewrite !elem_of_app. eauto.
    + destruct (additional_schema s) as [a|] eqn:E; simpl; [|unfold additional_schema in E; congruence].
      intros c r ->%set_additional_schema Hoc; [|by rewrite E]. destruct (Ha a eq_refl r Hoc) as (d & Hd & ->).
      exists d. rewrite !elem_of_app. eauto.
    + destruct (item_schema s) as [a|] eqn:E; simpl; [|unfold item_schema in E; congruence].
      intros c r ->%set_item_schema Hoc; [|by rewrite E]. destruct (Hi a eq_refl r Hoc) as (d & Hd & ->).
      exists d. rewrite !elem_of_app. eauto.
  - intros s Hr Hfree. rewrite (proj2 (replace_has_ref s Hr)). by apply covered_ref.
  - intros s a Hr Ha _ IH Hfree. simpl. rewrite no_ref by done.
    rewrite !bind_fmap. fold (additional_schema s). rewrite Ha. simpl. apply covered_parts; try done.
    + eauto.
    + intros k c r Hk Hoc. exfalso. apply (Hfree c) with r; [|done]. right. right. by exists k.
    + intros c r ->%set_additional_schema Hoc; [|by rewrite Ha]. by apply IH.
    + intros c r Hc Hoc. exfalso. apply (Hfree c) with r; [|done]. by right; left.
  - intros s a Hr Ha Hi _ IH Hfree. simpl. rewrite no_ref by done.
    rewrite !bind_fmap. fold (additional_schema s) (item_schema s). rewrite Ha, Hi. simpl. apply covered_parts; try done.
    + eauto.
    + apply set_item_schemas.
    + intros k c r Hk Hoc. exfalso. apply (Hfree c) with r; [|done]. right. by exists k.
    + intros c r Hc. unfold additional_schema in Ha. congruence.
    + intros c r ->%set_item_schema Hoc; [|by rewrite Hi]. by apply IH.
  - intros s Hr Ha Hi Hother _ IH. simpl. rewrite no_ref by done.
    rewrite !bind_fmap. fold (additional_schema s) (item_schema s). rewrite Ha, Hi. simpl. apply covered_parts; try done.
    + intros k c r Hk Hoc. apply (covered_properties _ (sp_Properties s) k c r); try done.
      intros k' p Hk'. apply IH. by exists k'.
    + intros c r Hc. unfold additional_schema in Ha. congruence.
    + intros c r Hc. unfold item_schema in Hi. congruence.
Qed.
End References.

Arguments mt_Schema {KRef X}.
Arguments mt_Example {KRef X}.
Arguments mt_Encoding {KRef X}.
Arguments mt_Extensions {KRef X}.
Arguments mkMediaType {KRef X}.
Arguments mkParameter {KRef X}.
Arguments mkRequestBody {KRef X}.
Arguments mkResponse {KRef X}.
Arguments mkResponses {KRef X}.
Arguments mkOperation3 {KRef X}.

(** ** Copies of operations *)
Section Copies.
Context {KRef : Type} (ref_String : KRef → string) (NewRef : string → option KRef) {X : Type}.
Abbreviation Content := (nmap (option (MediaType (KRef := KRef) (X := X)))).
Abbreviation Op := (Operation3 (KRef := KRef) (X := X)).

(** What is left of an operation in its copy. *)
Definition strip_media (mt : MediaType (KRef := KRef) (X := X)) : MediaType (KRef := KRef) (X := X) :=
  mkMediaType (mt_Schema mt) (mt_Example mt) None (mt_Encoding mt) (mt_Extensions mt).
Definition strip_content (c : Content) : Content := fmap (M := gmap string) (fmap (M := option) strip_media) <$> c.
Definition strip_parameter (p : Parameter3 (KRef := KRef) (X := X)) : Parameter3 (KRef := KRef) (X := X) :=
  mkParameter (pa_Name p) (pa_In p) (pa_Description p) (pa_Required p) (pa_Deprecated p) (pa_AllowEmptyValue p) (pa_Style p)
    (pa_Explode p) (pa_AllowReserved p) (pa_Schema p) (strip_content (pa_Content p)) ANil None
    (copy_ref ref_String NewRef (pa_Ref p)) (pa_Extensions p).
Definition strip_body (b : RequestBody (KRef := KRef) (X := X)) : RequestBody (KRef := KRef) (X := X) :=
  mkRequestBody (copy_ref ref_String NewRef (rb_Ref b)) (rb_Description b) (strip_content (rb_Content b)) (rb_Required b) (rb_Extensions b).
Definition strip_response (r : Response3 (KRef := KRef) (X := X)) : Response3 (KRef := KRef) (X := X) :=
  mkResponse (copy_ref ref_String NewRef (rs_Ref r)) (rs_Description r) (rs_Headers r) (strip_content (rs_Content r)) (rs_Links r) (rs_Extensions r).
Definition strip_responses (rs : Responses (KRef := KRef) (X := X)) : Responses (KRef := KRef) (X := X) :=
  mkResponses (strip_response <$> rp_Default rs) (fmap (M := gmap Z) (fmap (M := option) strip_response) <$> rp_StatusCodeResponses rs)
    (rp_Extensions rs).
Definition strip_operation (o : Op) : Op :=
  mkOperation3 (o_Tags o) (o_Summary o) (o_Description o) None (o_OperationId o)
    (fmap (M := list) (fmap (M := option) strip_parameter) <$> o_Parameters o) (strip_body <$> o_RequestBody o)
    (strip_responses <$> o_Responses o) (o_Deprecated o) None None (o_Extensions o).

(** All schemas of an operation are tidy. *)
Definition tidy_content (c : Content) : Prop :=
  ∀ k mt sch, items c !! k = Some (Some mt) → mt_Schema mt = Some sch → tidy sch.
Record tidy_operation (o : Op) : Prop := {
  tidy_parameters p : Some p ∈ elems (o_Parameters o) → (∀ sch, pa_Schema p = Some sch → tidy sch) ∧ tidy_content (pa_Content p);
  tidy_body b : o_RequestBody o = Some b → tidy_content (rb_Content b);
  tidy_default rs r : o_Responses o = Some rs → rp_Default rs = Some r → tidy_content (rs_Content r);
  tidy_codes rs m c r : o_Responses o = Some rs → rp_StatusCodeResponses rs = Some m → m !! c = Some (Some r) → tidy_content (rs_Content r);
}.

(** Calls that return a function of their argument. *)
Lemma all_list_map {A B} (f : A → called B) (g : A → B) (l : list A) : (∀ a, a ∈ l → f a = Returned (g a)) →
  all_list (f <$> l) = Returned (g <$> l).
Proof.
  induction l as [|a l IH]; intros H; [done|]. csimpl. rewrite H by left. simpl.
  rewrite IH; [done|]. intros b Hb. apply H. by right.
Qed.

Lemma all_gmap_map {K} `{CK : Countable K} {A B} (f : A → called B) (g : A → B) (m : gmap K A) :
  (∀ k a, m !! k = Some a → f a = Returned (g a)) → all_gmap (f <$> m) = Returned (g <$> m).
Proof.
  intros H. unfold all_gmap. rewrite bool_decide_eq_true_2.
  - f_equal. apply map_eq. intros k. rewrite lookup_omap, !lookup_fmap.
    destruct (m !! k) as [a|] eqn:E; [|done]. simpl. by rewrite (H k a).
  - intros k c (a & <- & Ha)%lookup_fmap_Some. by rewrite (H k a).
Qed.

Lemma through_map {A} (f : A → called A) (g : A → A) (p : option A) : (∀ a, p = Some a → f a = Returned (g a)) →
  through f p = Returned (g <$> p).
Proof. intros H. destruct p as [a|]; [|done]. unfold through. simpl. by rewrite (H a). Qed.

Lemma copy_content_tidy (c : Content) : tidy_content c → copy_content c = Returned (strip_content c).
Proof.
  intros Hc. unfold copy_content, strip_content. destruct c as [m|]; [|done]. simpl.
  rewrite (all_gmap_map _ (fmap strip_media)); [done|]. intros k mt Hk. apply through_map. intros a ->.
  rewrite all_opt_id; [simpl; by rewrite !copy_map_id|]. intros sch Hsch. by eapply copySpecSchema_tidy, Hc.
Qed.

Lemma copySpec3Response_tidy r : (∀ a, r = Some a → tidy_content (rs_Content a)) →
  copySpec3Response ref_String NewRef r = Returned (strip_response <$> r).
Proof.
  intros H. apply through_map. intros a ->. rewrite copy_content_tidy by eauto. simpl. by rewrite !copy_map_id.
Qed.

(** The copy of an operation is what is left of it. *)
Lemma copyOperation_tidy o : tidy_operation o →
  copyOperation ref_String NewRef (Some o) = Returned (Some (strip_operation o)).
Proof.
  intros Ho. apply (through_map _ strip_operation (Some o)). intros a [= <-].
  unfold copySpec3RequestBody. rewrite (through_map _ strip_body); cycle 1.
  { intros b Hb. rewrite copy_content_tidy by by apply (tidy_body o Ho). simpl. by rewrite copy_map_id. }
  simpl. unfold copySpec3Responses. rewrite (through_map _ strip_responses); cycle 1.
  { intros rs Hrs. rewrite copySpec3Response_tidy by (intros r Hr; by apply (tidy_default o Ho rs)). simpl.
    unfold strip_responses. rewrite copy_map_id. destruct (rp_StatusCodeResponses rs) as [m|] eqn:Em; [|done]. simpl.
    rewrite (all_gmap_map _ (fmap (M := option) strip_response)); [done|].
    intros c r Hc. apply copySpec3Response_tidy. intros b ->. by apply (tidy_codes o Ho rs m c). }
  simpl. destruct (o_Parameters o) as [ps|] eqn:Ep; simpl.
  - rewrite (all_list_map _ (fmap (M := option) strip_parameter)).
    + simpl. unfold strip_operation. by rewrite Ep, copy_slice_id, copy_map_id.
    + intros p Hp. apply through_map. intros b ->.
      destruct (tidy_parameters o Ho b) as [Hs Hc]; [by rewrite Ep|].
      rewrite all_opt_id by (intros sch Hsch; by apply copySpecSchema_tidy, Hs). simpl.
      rewrite copy_content_tidy by done. simpl. by rewrite copy_map_id.
  - unfold strip_operation. by rewrite Ep, copy_slice_id, copy_map_id.
Qed.
End Copies.

(** ** All references of the definitions are dependencies *)
Section Covered.
Context {KRef : Type} (ref_String : KRef → string) (NewRef : string → option KRef) {X : Type} (ref : string → KRef) `{RO : !RangeOrder}.
Context (ObjectMeta_name ListMeta_name : string) (PkgPath TypeName : string → string).
Abbreviation Content := (nmap (option (MediaType (KRef := KRef) (X := X)))).
Abbreviation Op := (Operation3 (KRef := KRef) (X := X)).
Abbreviation Definitions := (gmap string (SpecDefinition KRef)).

(** Every media type is there, and the references of its schema are all reached. *)
Definition reached_content (c : Content) : Prop :=
  ∀ k mt, items c !! k = Some mt → ∃ m, mt = Some m ∧ ∀ sch, mt_Schema m = Some sch → reached ref_String sch.
Record usable (o : Op) : Prop := {
  usable_tidy : tidy_operation o;
  usable_response rs r : o_Responses o = Some rs → rp_Default rs = Some r → reached_content (rs_Content r);
  usable_body b : o_RequestBody o = Some b → reached_content (rb_Content b);
}.

Definition covers_all (defs : Definitions) : Prop :=
  ∀ key def, defs !! key = Some def → covered ref (sd_Schema def, sd_Dependencies def).

Lemma covered_none (s : Spec KRef) l : ref_free s → covered ref (s, l).
Proof. intros H r Hr. by destruct (H r). Qed.

Lemma spec_with_child i r props c : spec_child (spec (spec_with (KRef := KRef) i r props)) c → ∃ k : string, items props !! k = Some c.
Proof.
  clear. intros [H|[Hc|[Hc|Hc]]]; [done..|]. unfold other_child in Hc. simpl in Hc. decompose [or ex and] Hc; set_solver.
Qed.

Lemma spec_with_free i props : (∀ k c, items props !! k = Some c → ref_free c) → ref_free (spec_with (KRef := KRef) i None props).
Proof.
  intros H r [Hr|(c & (k & Hk)%spec_with_child & Hoc)]%spec_occurs_inv; [done|]. by apply (H k c Hk r).
Qed.

Lemma Spec_zero_reached : reached ref_String Spec_zero.
Proof.
  apply reached_parts; try done.
  - intros c Hc. unfold other_child in Hc. simpl in Hc. exfalso. decompose [or ex and] Hc; set_solver.
  - by intros p [k Hk].
Qed.

Lemma content_loop_reached (l : list (string * option (MediaType (KRef := KRef) (X := X)))) sch :
  (∀ k mt, (k, mt) ∈ l → ∃ m, mt = Some m ∧ ∀ sch, mt_Schema m = Some sch → reached ref_String sch ∧ tidy sch) →
  reached ref_String sch → ∃ sch', content_loop l sch = Returned sch' ∧ reached ref_String sch'.
Proof.
  revert sch. induction l as [|[k mt] l IH]; intros sch Hl Hs; simpl; [eauto|].
  destruct (Hl k mt) as (m & -> & Hm); [by left|].
  assert (∃ sch', match mt_Schema m with Some sch => copySpecSchema sch | None => Returned sch end = Returned sch' ∧
    reached ref_String sch') as (sch' & -> & Hs').
  { destruct (mt_Schema m) as [sch'|]; [|eauto]. destruct (Hm sch' eq_refl) as [Hr Ht].
    exists sch'. by rewrite copySpecSchema_tidy. }
  simpl. case_match; [eauto|]. apply IH; [|done]. intros k' mt' Hk. apply (Hl k'). by right.
Qed.

Lemma content_schema_reached (c : Content) : tidy_content c → reached_content c →
  ∃ sch, content_schema (strip_content c) = Returned sch ∧ reached ref_String sch.
Proof.
  intros Ht Hr. apply content_loop_reached; [|apply Spec_zero_reached].
  intros k mt Hk%elem_of_range_map. destruct c as [m|]; [|done]. csimpl in Hk.
  apply lookup_fmap_Some in Hk as (mt' & <- & Hk). destruct (Hr k mt' Hk) as (a & -> & Ha).
  exists (strip_media a). split; [done|]. simpl. intros sch Hsch. split; [by apply Ha | by eapply Ht].
Qed.

(** The metadata stands for a reference that is added to the dependencies. *)
Lemma replace_metadata_covered c : covered ref c → covered ref (replace_metadata ref ObjectMeta_name ListMeta_name c).
Proof.
  intros Hc. unfold replace_metadata. destruct (metadata_name _ _ _) as [name|]; [|done].
  destruct c as [[s] l]. simpl. intros r [Hr|(c & Hch & Hoc)]%spec_occurs_inv.
  - destruct (Hc r) as (d & Hd & ->); [by apply spec_occurs_here|]. exists d. simpl. rewrite elem_of_app. eauto.
  - assert (spec_occurs r (Sch s) ∨ r = ref name) as [Hold| ->]; cycle 1.
    { destruct (Hc r Hold) as (d & Hd & ->). exists d. simpl. rewrite elem_of_app. eauto. }
    { exists name. simpl. rewrite elem_of_app, list_elem_of_singleton. eauto. }
    destruct (with_parts_child s _ _ _ c Hch) as [[k Hk]|H].
    + destruct (sp_Properties s) as [m|] eqn:Em; [|done]. csimpl in Hk.
      apply lookup_insert_Some in Hk as [[<- <-]|[_ Hk]].
      * right. apply spec_occurs_inv in Hoc as [[= <-]|(c & Hc' & Hoc)]; [done|].
        exfalso. eapply (spec_with_free SpecInfo_zero None); [done|]. eapply spec_occurs_inside; [exact Hc' | exact Hoc].
      * left. eapply spec_occurs_inside; [|exact Hoc]. left. exists k. by rewrite Em.
    + left. eapply spec_occurs_inside; [|exact Hoc]. unfold spec_child, other_child, additional_schema, item_schema in *. naive_solver.
Qed.

Abbreviation response := (getOperationResponseOpenAPI ref_String NewRef (X := X) ref ObjectMeta_name ListMeta_name PkgPath TypeName).
Abbreviation request := (getOperationRequestBodyOpenAPI ref_String NewRef (X := X) ref PkgPath TypeName).

Definition covered_definition (d : string * SpecDefinition KRef) : Prop := covered ref (sd_Schema d.2, sd_Dependencies d.2).

Lemma the_definition_covered typePath c : covered ref c → covered_definition (the_definition typePath c).
Proof. by destruct c. Qed.

Lemma response_covered kind ver opPath method op resolver prefix : usable op →
  ∃ d, response kind ver opPath method op resolver prefix = Returned d ∧ covered_definition d.
Proof.
  intros Hop. unfold getOperationResponseOpenAPI. rewrite copyOperation_tidy by by apply usable_tidy. simpl.
  destruct (operation_type _ _ _ _ _ _) as [pkgPrefix typePath].
  assert (∃ sch, match (strip_responses ref_String NewRef <$> o_Responses op) ≫= rp_Default with
    | Some r => content_schema (rs_Content r) | None => Returned Spec_zero end = Returned sch ∧ reached ref_String sch)
    as (sch & -> & Hs).
  { destruct (o_Responses op) as [rs|] eqn:Ers; simpl; [|exists Spec_zero; split; [done | apply Spec_zero_reached]].
    destruct (rp_Default rs) as [r|] eqn:Er; simpl; [|exists Spec_zero; split; [done | apply Spec_zero_reached]].
    apply content_schema_reached; [by apply (tidy_default op (usable_tidy op Hop) rs) | by apply (usable_response op Hop rs)]. }
  simpl. eexists. split; [done|]. by apply the_definition_covered, replace_metadata_covered, reached_covered.
Qed.

Lemma request_covered kind ver opPath method op resolver prefix : usable op →
  ∃ d, request kind ver opPath method op resolver prefix = Returned d ∧ covered_definition d.
Proof.
  intros Hop. unfold getOperationRequestBodyOpenAPI. rewrite copyOperation_tidy by by apply usable_tidy. simpl.
  destruct (operation_type _ _ _ _ _ _) as [pkgPrefix typePath].
  assert (∃ sch, match strip_body ref_String NewRef <$> o_RequestBody op with
    | Some b => content_schema (rb_Content b) | None => Returned Spec_zero end = Returned sch ∧ reached ref_String sch)
    as (sch & -> & Hs).
  { destruct (o_RequestBody op) as [b|] eqn:Eb; simpl; [|exists Spec_zero; split; [done | apply Spec_zero_reached]].
    apply content_schema_reached; [by apply (tidy_body op (usable_tidy op Hop)) | by apply (usable_body op Hop)]. }
  simpl. eexists. split; [done|]. by apply the_definition_covered, reached_covered.
Qed.

(** The references of a converted schema are those of what it stands for. *)
Lemma child_of_kube (k : KubeSchemaOf (KRef := KRef) (KubeSchema KRef)) c :
  spec_child (spec (spec_of_kube (Kube k))) c → ∃ k', kube_child k k' ∧ c = spec_of_kube k'.
Proof using Type.
  clear. unfold spec_child, kube_child, property_of, additional_schema, item_schema, other_child.
  destruct k as [? ? ? ? ? ? ? ? ? ? ? ? ? ? ? ? ? ? ? ? additional allOf anyOf oneOf not its props]. simpl.
  assert (∀ l : nslice (KubeSchema KRef), c ∈ elems (fmap (M := list) spec_of_kube <$> l) →
    ∃ k', k' ∈ elems l ∧ c = spec_of_kube k') as Hl.
  { intros [l|]; [|by intros ?%elem_of_nil]. simpl. intros (k' & -> & Hk)%list_elem_of_fmap. eauto. }
  intros [[k Hk]|[Hc|[Hc|Hc]]].
  - destruct props as [props|]; [|done]. csimpl in Hk. apply lookup_fmap_Some in Hk as (k' & <- & Hk). naive_solver.
  - destruct additional as [[allows [k'|]]|]; simpl in Hc; naive_solver.
  - destruct its as [k'|]; naive_solver.
  - destruct Hc as [Hc|[Hc|[Hc|[Hc|[Hc|Hc]]]]].
    + destruct its as [k'|]; simpl in Hc; by apply elem_of_nil in Hc.
    + apply Hl in Hc. naive_solver.
    + apply Hl in Hc. naive_solver.
    + apply Hl in Hc. naive_solver.
    + destruct not as [k'|]; naive_solver.
    + by decompose [or ex and] Hc.
Qed.

Lemma occurs_of_kube r sch : spec_occurs r sch → ∀ k : KubeSchema KRef, sch = spec_of_kube k → occurs r k.
Proof.
  induction 1 as [s Hr|s c Hc _ IH]; intros [k] E;
    (assert (s = spec (spec_of_kube (Kube k))) as -> by exact (f_equal spec E)).
  - by apply occurs_here.
  - apply child_of_kube in Hc as (k' & Hk & ->). eapply occurs_inside; [done|]. by apply IH.
Qed.

Lemma definition_of_kube_covered (d : OpenAPIDefinition KRef) : covers ref d →
  covered ref (sd_Schema (definition_of_kube d), sd_Dependencies (definition_of_kube d)).
Proof. intros Hd r Hr. apply Hd. by eapply occurs_of_kube. Qed.

(** Definitions that are added. *)
Lemma covers_all_insert defs key def : covers_all defs → covered_definition (key, def) → covers_all (<[key := def]> defs).
Proof. intros Hdefs Hd k d [[<- <-]|[_ Hk]]%lookup_insert_Some; [done | by eapply Hdefs]. Qed.

Lemma covers_all_union (a b : Definitions) : covers_all a → covers_all b → covers_all (a ∪ b).
Proof. intros Ha Hb k d [H|[_ H]]%lookup_union_Some_raw; [by eapply Ha | by eapply Hb]. Qed.

(** A loop that returns, and what it keeps. *)
Lemma loop_spec {A B} (f : A → B → called A) (P : list B → A → Prop) l a :
  (∀ l1 a b, b ∈ l → P l1 a → ∃ a', f a b = Returned a' ∧ P (l1 ++ [b]) a') → P [] a →
  ∃ a', loop f a l = Returned a' ∧ P l a'.
Proof using Type.
  clear. intros Hf. assert (∀ l2 l1 a, l = l1 ++ l2 → P l1 a → ∃ a', loop f a l2 = Returned a' ∧ P l a') as H.
  { induction l2 as [|b l2 IH]; intros l1 a0 -> Ha; simpl.
    - rewrite app_nil_r. eauto.
    - destruct (Hf l1 a0 b) as (a1 & -> & H1); [rewrite elem_of_app; right; left | done |]. simpl.
      apply (IH (l1 ++ [b])); [by rewrite <- app_assoc | done]. }
  apply (H l []). done.
Qed.

Lemma loop_inv {A B} (f : A → B → called A) (P : A → Prop) l a :
  (∀ a b, b ∈ l → P a → ∃ a', f a b = Returned a' ∧ P a') → P a → ∃ a', loop f a l = Returned a' ∧ P a'.
Proof using Type. clear. intros Hf Ha. apply (loop_spec f (λ _, P)); eauto. Qed.

Context {O G : Type} (resolver : GoTypeResolver O) (md : ManifestData (PathProps3 (KRef := KRef) (X := X)) (Spec KRef) G).
Context (scheme : option (string * string * string → string + GoError)) `{KT : !KinTypes} (load : nmap (any G) → outcome (nmap SchemaRef)).

Abbreviation routes_of := (getManifestCustomRoutesOpenAPI ref_String NewRef ref ObjectMeta_name ListMeta_name PkgPath TypeName resolver).

Definition usable_routes (routes : nmap (PathProps3 (KRef := KRef) (X := X))) : Prop :=
  ∀ rpath p method op, items routes !! rpath = Some p → (method, op) ∈ operations3 p → usable op.

(** The definitions of routes. *)
Lemma routes_covered kind ver routes prefix pkgPrefix : usable_routes routes →
  ∃ defs, routes_of kind ver routes prefix pkgPrefix = Returned defs ∧ covers_all defs.
Proof.
  intros Hr. unfold getManifestCustomRoutesOpenAPI. apply loop_inv; [|done].
  intros defs [rpath p] Hp%elem_of_range_map Hdefs. apply loop_inv; [|done].
  intros defs' [method op] Hop Hdefs'. pose proof (Hr rpath p method op Hp Hop) as Hu.
  unfold operation_definitions. simpl.
  destruct (response_covered kind ver (if String.eqb prefix "" then rpath else path_Join prefix rpath) method op
    (CustomRouteReturnGoType resolver) pkgPrefix Hu) as ([k d] & -> & Hd). simpl.
  destruct (o_RequestBody op); [|eauto using covers_all_insert].
  destruct (request_covered kind ver (if String.eqb prefix "" then rpath else path_Join prefix rpath) method op
    (CustomRouteRequestBodyGoType resolver) pkgPrefix Hu) as ([k' d'] & -> & Hd'). simpl.
  eauto using covers_all_insert.
Qed.

Abbreviation result_of := (kind_result ref ObjectMeta_name ListMeta_name resolver md scheme load).
Abbreviation kind_step := (kind_definitions ref_String NewRef ref ObjectMeta_name ListMeta_name PkgPath TypeName resolver md scheme load).
Abbreviation scope_step := (scope_definitions ref_String NewRef ref ObjectMeta_name ListMeta_name PkgPath TypeName resolver).
Abbreviation version_step := (version_definitions ref_String NewRef ref ObjectMeta_name ListMeta_name PkgPath TypeName resolver md scheme load).
Abbreviation Version := (ManifestVersion (PathProps3 (KRef := KRef) (X := X)) (Spec KRef) G).
Abbreviation VersionKind := (ManifestVersionKind (PathProps3 (KRef := KRef) (X := X)) G).

(** What a manifest needs: the conversion of a kind does not panic and the references of its
    schemas are to schemas that are there; the schemas of routes are tidy and their
    references are reached. *)
Record usable_version (v : Version) : Prop := {
  kinds_settled mk p o : mk ∈ elems (mv_Kinds v) → result_of (mv_Name v) mk = Some (p, o) → o ≠ Panicked ∧ o ≠ OutOfFuel;
  kinds_closed mk kind sch comps :
    mk ∈ elems (mv_Kinds v) → KindToGoType resolver (mvk_Kind mk) (mv_Name v) = Some kind → mvk_Schema mk = Some sch →
    AsOpenAPI3 load sch = Ok comps → closed_schemas (ak_Kind kind) (named_schemas (ak_Kind kind) (items comps));
  kinds_routes mk : mk ∈ elems (mv_Kinds v) → usable_routes (mvk_Routes mk);
  namespaced_routes : usable_routes (mvr_Namespaced (mv_Routes v));
  cluster_routes : usable_routes (mvr_Cluster (mv_Routes v));
  shared_schemas k sch : items (mvr_Schemas (mv_Routes v)) !! k = Some sch → tidy sch ∧ reached ref_String sch;
}.

(** The definitions of a kind are served, with all they refer to. *)
Definition served (oapi : gmap string (OpenAPIDefinition KRef)) (res : gset string) : Prop :=
  ∀ key d, oapi !! key = Some d → key ∈ res ∧
    ∀ dep, dep ∈ def_Dependencies d → dep = ObjectMeta_name ∨ dep = ListMeta_name ∨ dep ∈ res.

Lemma served_mono oapi (X1 X2 : gset string) : X1 ⊆ X2 → served oapi X1 → served oapi X2.
Proof. intros HX H key d Hk. destruct (H key d Hk) as [H1 H2]. naive_solver. Qed.

Lemma kind_result_closed v mk p oapi : usable_version v → mk ∈ elems (mv_Kinds v) →
  result_of (mv_Name v) mk = Some (p, Ok oapi) → (∀ key d, oapi !! key = Some d → covers ref d) ∧ served oapi (dom oapi).
Proof.
  intros Hv Hmk Hr. unfold kind_result in Hr.
  destruct (KindToGoType resolver (mvk_Kind mk) (mv_Name v)) as [kind|] eqn:Ek; [|done]. simpl in Hr.
  destruct scheme as [name|]; [|done]. simpl in Hr. destruct (name _) as [pkgPrefix|]; [|done].
  injection Hr as _ Hr. unfold kind_openapi in Hr. destruct (mvk_Schema mk) as [sch|] eqn:Es; [|done]. simpl in Hr.
  destruct (AsOpenAPI3 load sch) as [comps| | |] eqn:Ec; [|done..].
  pose proof (AsKubeOpenAPI_closed _ _ ref comps _ _ _ Hr (kinds_closed v Hv mk kind sch comps Hmk Ek Es Ec)) as H.
  split; [intros key d Hk; by apply (H key d)|]. intros key d Hk. split; [by apply elem_of_dom_2 in Hk|].
  intros dep Hd. rewrite elem_of_dom. by apply (H key d Hk).
Qed.

(** What a step keeps: the definitions are covered, and none is lost. *)
Definition grows (X1 : gset string) (defs : Definitions) : Prop := covers_all defs ∧ X1 ⊆ dom defs.

Lemma grows_refl defs : covers_all defs → grows (dom defs) defs.
Proof. done. Qed.

Lemma kind_step_grows v mk acc : usable_version v → mk ∈ elems (mv_Kinds v) → covers_all acc.1 →
  ∃ acc', kind_step (mv_Name v) acc mk = Returned acc' ∧ grows (dom acc.1) acc'.1 ∧
    ∀ p oapi, result_of (mv_Name v) mk = Some (p, Ok oapi) → served oapi (dom acc'.1).
Proof.
  intros Hv Hmk Hacc. unfold kind_definitions. destruct (result_of (mv_Name v) mk) as [[p o]|] eqn:Er; [|by exists acc].
  destruct o as [oapi|e| |].
  - destruct (kind_result_closed v mk p oapi Hv Hmk Er) as [Hcov Hserved].
    assert (covers_all ((definition_of_kube <$> oapi) ∪ acc.1)) as Hall.
    { apply covers_all_union; [|done]. intros k d (d' & <- & Hd)%lookup_fmap_Some. by eapply definition_of_kube_covered, Hcov. }
    assert (dom oapi ⊆ dom ((definition_of_kube <$> oapi) ∪ acc.1)) as Hdom by (rewrite dom_union_L, dom_fmap_L; set_solver).
    destruct (nonempty_map (mvk_Routes mk)).
    + destruct (routes_covered (mvk_Kind mk) (mv_Name v) (mvk_Routes mk) "" p (kinds_routes v Hv mk Hmk)) as (defs & -> & Hd).
      eexists. split; [done|]. simpl. split.
      * split; [by apply covers_all_union|]. rewrite !dom_union_L. set_solver.
      * intros p' oapi' [= _ <-]. eapply served_mono; [|done]. rewrite dom_union_L. set_solver.
    + eexists. split; [done|]. simpl. split; [split; [done|]; rewrite dom_union_L; set_solver|].
      intros p' oapi' [= _ <-]. by eapply served_mono.
  - by exists acc.
  - by destruct (kinds_settled v Hv mk p _ Hmk Er) as [H _].
  - by destruct (kinds_settled v Hv mk p _ Hmk Er) as [_ H].
Qed.

Lemma scope_step_grows version prefix routes acc : usable_routes routes → covers_all acc.1.1 →
  ∃ acc', scope_step version prefix routes acc = Returned acc' ∧ grows (dom acc.1.1) acc'.1.1.
Proof.
  intros Hr Hacc. unfold scope_definitions. destruct (nonempty_map routes); [|by exists acc].
  destruct (routes_covered "" version routes prefix "" Hr) as (defs & -> & Hd).
  eexists. split; [done|]. simpl. split; [by apply covers_all_union|]. rewrite dom_union_L. set_solver.
Qed.

Lemma schemas_grow (v : Version) replFunc defs : usable_version v → covers_all defs →
  ∃ defs', loop (add_schema ref_String ref replFunc) defs (range_map (items (mvr_Schemas (mv_Routes v)))) = Returned defs' ∧
    grows (dom defs) defs'.
Proof.
  intros Hv Hdefs. apply loop_inv; [|done]. intros defs' [k sch] Hk%elem_of_range_map [Hc Hd].
  destruct (shared_schemas v Hv k sch Hk) as [Ht Hr]. unfold add_schema. simpl. rewrite copySpecSchema_tidy by done. simpl.
  eexists. split; [done|]. split; [|rewrite dom_insert_L; set_solver]. apply covers_all_insert; [done|].
  unfold covered_definition. simpl. pose proof (reached_covered ref_String ref replFunc sch Hr) as H. by destruct (replaceReferencesInSchema _ _ _ _).
Qed.

(** The kinds of a version are served. *)
Definition version_served (v : Version) (X : gset string) : Prop :=
  ∀ mk p oapi, mk ∈ elems (mv_Kinds v) → result_of (mv_Name v) mk = Some (p, Ok oapi) → served oapi X.

Lemma version_step_grows v acc : usable_version v → covers_all acc.1 →
  ∃ acc', version_step acc v = Returned acc' ∧ grows (dom acc.1) acc'.1 ∧ version_served v (dom acc'.1).
Proof.
  intros Hv Hacc. unfold version_definitions.
  destruct (loop_spec (kind_step (mv_Name v)) (λ ks a, grows (dom acc.1) a.1 ∧
    ∀ mk p oapi, mk ∈ ks → result_of (mv_Name v) mk = Some (p, Ok oapi) → served oapi (dom a.1)) (elems (mv_Kinds v)) acc)
    as (a1 & -> & [Hc1 Hd1] & Hs1).
  { intros ks a mk Hmk [[Hc Hd] Hs]. destruct (kind_step_grows v mk a Hv Hmk Hc) as (a' & -> & [Hc' Hd'] & Hs').
    exists a'. split; [done|]. split; [split; [done | set_solver]|].
    intros mk' p oapi [Hin| ->%list_elem_of_singleton]%elem_of_app Hr; [|by eapply Hs'].
    eapply served_mono; [exact Hd' | by eapply Hs]. }
  { split; [by apply grows_refl|]. by intros mk p oapi ?%elem_of_nil. }
  simpl. destruct (scope_step_grows (mv_Name v) "<namespace>" _ (a1, "") (namespaced_routes v Hv) Hc1) as (a2 & -> & [Hc2 Hd2]).
  simpl. destruct (scope_step_grows (mv_Name v) "" _ a2 (cluster_routes v Hv) Hc2) as ([[res3 b3] prefix] & -> & [Hc3 Hd3]).
  simpl in *. destruct (schemas_grow v (KubeOpenAPIReferenceReplacerFunc prefix "") res3 Hv Hc3) as (res4 & -> & [Hc4 Hd4]).
  eexists. split; [done|]. simpl. split; [split; [done | set_solver]|].
  intros mk p oapi Hmk Hr. eapply served_mono; [|by eapply Hs1]. set_solver.
Qed.

Lemma ResourceCallOptions_covered : covers_all GetResourceCallOptionsOpenAPIDefinition.
Proof.
  unfold GetResourceCallOptionsOpenAPIDefinition. intros key def [_ <-]%lookup_singleton_Some. apply covered_none, spec_with_free.
  intros k c. simpl. intros Hk.
  repeat (apply lookup_insert_Some in Hk as [[_ <-]|[_ Hk]]; [by apply spec_with_free|]).
  apply lookup_singleton_Some in Hk as [_ <-]. by apply spec_with_free.
Qed.

(** C40: For a manifest all of whose versions are usable ([usable_version]), the definitions
    of an installer are made without a panic; every reference in one of them, of a kind, of
    a response or body of a custom route, or of a shared schema, is listed as its
    dependency; and the definitions of every kind are there, with those of all that they
    refer to, but for the objects of [metav1].
    A version is usable when: the conversion of the schemas of each of its kinds does not
    panic, and they refer only to schemas that are there; the media types of its routes'
    responses and bodies are not nil; the schemas of its routes, and those they share, have
    no pattern properties, no empty slices where the copy makes nil ones ([tidy]), and no
    references where the installer does not look: in [allOf], [oneOf], [anyOf] and [not], in
    lists of items, in more than the first part of a property, or beside another reference
    ([reached]).  Without this the statement is false: pattern properties are lost or panic
    ([copy_moves_patterns]), references in a composition are no dependencies
    ([composition_not_replaced]). *)
Theorem GetOpenAPIDefinitions_closed :
  (∀ v, v ∈ elems (md_Versions md) → usable_version v) →
  ∃ res,
    GetOpenAPIDefinitions ref_String NewRef ref ObjectMeta_name ListMeta_name PkgPath TypeName resolver md scheme load = Returned res ∧
    (∀ key def r, res !! key = Some def → spec_occurs r (sd_Schema def) → ∃ d, d ∈ sd_Dependencies def ∧ r = ref d) ∧
    ∀ v mk p oapi key d,
      v ∈ elems (md_Versions md) → mk ∈ elems (mv_Kinds v) → result_of (mv_Name v) mk = Some (p, Ok oapi) → oapi !! key = Some d →
      is_Some (res !! key) ∧
      ∀ dep, dep ∈ def_Dependencies d → dep = ObjectMeta_name ∨ dep = ListMeta_name ∨ is_Some (res !! dep).
Proof.
  intros Hmd. unfold GetOpenAPIDefinitions.
  destruct (loop_spec version_step (λ vs a, covers_all a.1 ∧ ∀ v, v ∈ vs → version_served v (dom a.1))
    (elems (md_Versions md)) (∅, false)) as ([res b] & -> & [Hc Hs]).
  { intros vs a v Hv [Hc Hs]. destruct (version_step_grows v a (Hmd v Hv) Hc) as (a' & -> & [Hc' Hd'] & Hs').
    exists a'. split; [done|]. split; [done|]. intros v' [Hin| ->%list_elem_of_singleton]%elem_of_app; [|done].
    intros mk p oapi Hmk Hr. eapply served_mono; [exact Hd' | by eapply Hs]. }
  { split; [done|]. by intros v ?%elem_of_nil. }
  simpl in *. eexists. split; [done|]. set (final := if b then _ else res).
  assert (grows (dom res) final) as [Hcf Hdf].
  { subst final. destruct b; [|done]. split.
    - apply covers_all_insert; [apply covers_all_union; [apply ResourceCallOptions_covered | done]|].
      by apply covered_none, spec_with_free.
    - rewrite dom_insert_L, dom_union_L. set_solver. }
  split; [intros key def r Hk; exact (Hcf key def Hk r)|].
  intros v mk p oapi key d Hv Hmk Hr Hk. destruct (Hs v Hv mk p oapi Hmk Hr key d Hk) as [H1 H2].
  rewrite <- elem_of_dom. split; [set_solver|]. intros dep Hd. rewrite <- elem_of_dom. set_solver.
Qed.
End Covered.

(** ** What the definitions of routes get wrong *)
Section Faults.
Context {KRef : Type} (ref_String : KRef → string) (NewRef : string → option KRef) {X : Type} (ref : string → KRef) `{RO : !RangeOrder}.
Context (ObjectMeta_name ListMeta_name : string) (PkgPath TypeName : string → string).

(** Without Go types, the response and the body of an operation have the same name: the
    definition of the body takes the place of the response's. *)
Lemma default_names_collide kind ver opPath method op resolver resolver' prefix d d' :
  resolver kind ver opPath method = None → resolver' kind ver opPath method = None →
  getOperationResponseOpenAPI ref_String NewRef (X := X) ref ObjectMeta_name ListMeta_name PkgPath TypeName
    kind ver opPath method op resolver prefix = Returned d →
  getOperationRequestBodyOpenAPI ref_String NewRef (X := X) ref PkgPath TypeName kind ver opPath method op resolver' prefix = Returned d' →
  d'.1 = d.1.
Proof.
  intros Hr Hr'. unfold getOperationResponseOpenAPI, getOperationRequestBodyOpenAPI. rewrite Hr, Hr'. simpl.
  destruct (copyOperation _ _ _) as [op'|]; simpl; [|done].
  destruct (match _ with Some r => content_schema (rs_Content r) | None => _ end) as [s1|]; simpl; [|done].
  destruct (match _ with Some b => content_schema (rb_Content b) | None => _ end) as [s2|]; simpl; [|done].
  by intros [= <-] [= <-].
Qed.

(** The schema of [application/json] is taken, wherever the loop meets it. *)
Lemma content_loop_json l sch m s :
  NoDup l.*1 → ("application/json", Some m) ∈ l → mt_Schema m = Some s → tidy s →
  (∀ k mt, (k, mt) ∈ l → ∃ m' : MediaType (KRef := KRef) (X := X), mt = Some m' ∧ ∀ sch, mt_Schema m' = Some sch → tidy sch) →
  content_loop l sch = Returned s.
Proof.
  revert sch. induction l as [|[k mt] l IH]; intros sch Hn Hin Hm Hs Hl; [by apply elem_of_nil in Hin|].
  apply NoDup_cons in Hn as [Hk Hn]. simpl in *. destruct (Hl k mt) as (m' & -> & Ht); [by left|].
  apply elem_of_cons in Hin as [[= <- <-]|Hin].
  - rewrite Hm, copySpecSchema_tidy by done. done.
  - destruct (String.eqb_spec k "application/json") as [->|Hne].
    { exfalso. apply Hk. apply list_elem_of_fmap. by exists ("application/json", Some m). }
    assert (∃ sch', match mt_Schema m' with Some sch => copySpecSchema sch | None => Returned sch end = Returned sch') as [sch' ->].
    { destruct (mt_Schema m') as [s'|]; [|eauto]. rewrite copySpecSchema_tidy by by apply Ht. eauto. }
    simpl. apply IH; try done. intros k' mt' Hk'. apply (Hl k'). by right.
Qed.

Lemma content_schema_json c m s : items c !! "application/json" = Some (Some m) → mt_Schema m = Some s → tidy s →
  (∀ k mt, items c !! k = Some mt → ∃ m' : MediaType (KRef := KRef) (X := X), mt = Some m' ∧ ∀ sch, mt_Schema m' = Some sch → tidy sch) →
  content_schema c = Returned s.
Proof.
  intros Hc Hm Hs Hl. apply (content_loop_json _ _ m); try done.
  - rewrite range_map_fst. apply NoDup_range_keys.
  - by apply elem_of_range_map.
  - intros k mt Hk%elem_of_range_map. by apply (Hl k).
Qed.

(** References in [allOf], [oneOf], [anyOf], [not] and the like stay as they are. *)
Lemma composition_not_replaced (replaceFunc : string → string) (s : SpecOf (KRef := KRef) (Spec KRef)) :
  has_ref ref_String s = false → sp_Properties s = None → additional_schema s = None → item_schema s = None →
  replaceReferencesInSchema ref_String ref replaceFunc (Sch s) = (Sch s, []).
Proof.
  intros Hr Hp Ha Hi. rewrite replace_unfold by done. rewrite Hp, Ha, Hi. simpl.
  assert (all_deps (None : nmap (Spec KRef * list string)) = []) as ->.
  { unfold all_deps. simpl. destruct (range_map _) as [|[k v] l] eqn:E; [done|].
    assert ((k, v) ∈ range_map (∅ : gmap string (Spec KRef * list string))) as H by (rewrite E; left).
    by apply elem_of_range_map in H. }
  destruct s; simpl in *; by subst.
Qed.

(** Pattern properties are copied into the properties, or make the copy panic. *)
Definition with_patterns (props patterns : nmap (Spec KRef)) : Spec KRef :=
  Sch (mkSpec _ SpecInfo_zero None None None None None None props None patterns None None None).

Lemma copy_moves_patterns p k : p ≠ k →
  copySpecSchema (with_patterns (Some {[p := Spec_zero]}) (Some {[k := Spec_zero]})) =
    Returned (with_patterns (Some {[k := Spec_zero; p := Spec_zero]}) (Some ∅)) ∧
  copySpecSchema (with_patterns None (Some {[k := Spec_zero]})) = Panics.
Proof.
  intros Hne.
  assert (∀ q : string, all_gmap (copySpecSchema (KRef := KRef) <$> {[q := Spec_zero]}) = Returned {[q := Spec_zero]}) as H.
  { intros q. apply all_gmap_id. by intros k' a [_ <-]%lookup_singleton_Some. }
  split; simpl.
  - rewrite !H. simpl. unfold with_patterns. repeat f_equal.
    by rewrite <- insert_union_singleton_l.
  - rewrite H. simpl. rewrite bool_decide_eq_false_2; [done|]. apply map_non_empty_singleton.
Qed.

(** The model of [EmptyObject] is defined under another name than its own. *)
Lemma EmptyObject_is_not_defined : EmptyObject_key ≠ EmptyObject_OpenAPIModelName.
Proof. done. Qed.
End Faults.

(** ** Instances for the witnesses *)
Definition test_ref (name : string) : Spec string := spec_with SpecInfo_zero (Some ("#/components/schemas/" +:+ name)) None.
Definition test_object : Spec string := spec_with SpecInfo_zero None (Some {["foo" := test_ref "shared"]}).
Definition test_get : Operation3 (KRef := string) (X := unit) :=
  mkOperation3 None "" "" None "getBaz" None None
    (Some (mkResponses (Some (mkResponse None "" None
      (Some {["application/json" := Some (mkMediaType (Some test_object) ANil None None None)]}) None None)) None None))
    false None None None.
Definition test_route : PathProps3 (KRef := string) (X := unit) := mkPathProps3 (Some test_get) None None None None None None.
Definition test_shared : Spec string := spec_with SpecInfo_zero None None.
Definition foo_kind : ManifestVersionKind (PathProps3 (KRef := string) (X := unit)) unit :=
  mkManifestVersionKind "Foo" "foos" "Namespaced" None (Some (mkVersionSchema (Some ∅))) None None false None.
Definition foo_version : ManifestVersion (PathProps3 (KRef := string) (X := unit)) (Spec string) unit :=
  mkManifestVersion "v1" true (Some [foo_kind])
    (mkManifestVersionRoutes (Some {["/baz" := test_route]}) None (Some {["shared" := test_shared]})).
Definition foo_manifest : ManifestData (PathProps3 (KRef := string) (X := unit)) (Spec string) unit :=
  mkManifestData "app" "App" "g" (Some [foo_version]) "v1" None None None None.
Definition foo_scheme : option (string * string * string → string + GoError) := Some (λ _, inl "com.example.Foo").
Definition foo_load (raw : nmap (any unit)) : outcome (nmap SchemaRef) := Ok (Some foo_schemas).

Definition foo_openapi : called (gmap string (SpecDefinition string)) :=
  GetOpenAPIDefinitions id Some id "ObjectMeta" "ListMeta" id id test_resolver foo_manifest foo_scheme foo_load.

Lemma only_item {A} (m : nmap A) k x k' y : m = Some {[k := x]} → items m !! k' = Some y → y = x.
Proof. intros ->. simpl. by intros [_ <-]%lookup_singleton_Some. Qed.

Lemma test_ref_reached name : reached_property id (test_ref name) ∧ tidy (test_ref name).
Proof.
  split.
  - apply property_ref; [done|]. by intros c [k Hk]%(spec_with_child (KRef := string)).
  - constructor; try done. by intros c [k Hk]%(spec_with_child (KRef := string)).
Qed.

Lemma test_object_usable : reached id test_object ∧ tidy test_object.
Proof.
  split.
  - apply reached_parts; try done.
    + intros c Hc. unfold other_child in Hc. simpl in Hc. exfalso. decompose [or ex and] Hc; set_solver.
    + intros p [k ->%(only_item _ _ _ _ _ eq_refl)]. apply test_ref_reached.
  - constructor; try done. intros c [k ->%(only_item _ _ _ _ _ eq_refl)]%(spec_with_child (KRef := string)). apply test_ref_reached.
Qed.

Lemma test_shared_usable : tidy test_shared ∧ reached id test_shared.
Proof.
  split; [|apply Spec_zero_reached].
  constructor; try done. by intros c [k Hk]%(spec_with_child (KRef := string)).
Qed.

Lemma test_get_usable : usable id test_get.
Proof.
  assert (∀ rs r, o_Responses test_get = Some rs → rp_Default rs = Some r →
    rs_Content r = Some {["application/json" := Some (mkMediaType (Some test_object) ANil None None None)]}) as H
    by by intros rs r [= <-] [= <-].
  split; [split|..]; try done.
  - intros p Hp. by apply elem_of_nil in Hp.
  - intros rs r Hrs Hr k mt sch. rewrite (H rs r Hrs Hr). intros [= ->]%(only_item _ _ _ _ _ eq_refl) [= <-].
    apply test_object_usable.
  - by intros rs m c r [= <-].
  - intros rs r Hrs Hr k mt. rewrite (H rs r Hrs Hr). intros ->%(only_item _ _ _ _ _ eq_refl). eexists. split; [done|].
    intros sch [= <-]. apply test_object_usable.
Qed.

Lemma foo_kind_result :
  kind_result id "ObjectMeta" "ListMeta" test_resolver foo_manifest foo_scheme foo_load "v1" foo_kind = Some ("com.example", Ok foo_result).
Proof.
  unfold kind_result. change (KindToGoType test_resolver (mvk_Kind foo_kind) "v1") with (Some test_kind). cbn [mbind option_bind foo_scheme].
  assert (before_last_dot "com.example.Foo" = "com.example") as -> by done.
  rewrite <- foo_definitions_ok. done.
Qed.

Lemma test_version_usable : usable_version id id "ObjectMeta" "ListMeta" test_resolver foo_manifest foo_scheme foo_load foo_version.
Proof.
  split.
  - intros mk p o ->%list_elem_of_singleton. change (mv_Name foo_version) with "v1".
    rewrite foo_kind_result. by intros [= _ <-].
  - intros mk kind sch comps ->%list_elem_of_singleton [= <-] [= <-] [= <-]. apply foo_closed.
  - intros mk ->%list_elem_of_singleton. by intros rpath p method op Hp.
  - intros rpath p method op ->%(only_item _ _ _ _ _ eq_refl) Hop.
    apply list_elem_of_singleton in Hop as [= _ ->]. apply test_get_usable.
  - by intros rpath p method op Hp.
  - intros k sch ->%(only_item _ _ _ _ _ eq_refl). apply test_shared_usable.
Qed.

(** A kind, a route whose response refers to a shared schema, and that schema. *)
Lemma GetOpenAPIDefinitions_closed_witness : ∃ res,
  foo_openapi = Returned res ∧
  (∀ key def r, res !! key = Some def → spec_occurs r (sd_Schema def) → ∃ d, d ∈ sd_Dependencies def ∧ r = id d) ∧
  is_Some (res !! "com.example.Foo") ∧ is_Some (res !! "com.example.FooList").
Proof.
  destruct (GetOpenAPIDefinitions_closed id Some id "ObjectMeta" "ListMeta" id id test_resolver foo_manifest foo_scheme foo_load)
    as (res & Hres & Hc & Hk).
  - intros v ->%list_elem_of_singleton. apply test_version_usable.
  - exists res. split; [exact Hres|]. split; [exact Hc|].
    assert (is_Some (foo_result !! "com.example.Foo")) as [d1 H1] by (eexists; by vm_compute).
    assert (is_Some (foo_result !! "com.example.FooList")) as [d2 H2] by (eexists; by vm_compute).
    split; [eapply (Hk foo_version foo_kind _ _ _ d1) | eapply (Hk foo_version foo_kind _ _ _ d2)];
      first [by left | exact foo_kind_result | done].
Defined.
